(* ===== verification/_CoqProject ===== *)
-Q . S2P
Prelude.v
Dict.v
SortedIndex.v
Decimal.v
Time.v
Candle.v
Grid.v
Signal.v
Indicators.v
Structure.v
Engine.v
StructureZones.v
Fvg.v
FvgTheory.v
LiquidityTypes.v
Liquidity.v
LiquiditySpec.v
LiquidityIndex.v
LiquidityTheory.v
LiquidityRefinement.v
LiquidityContract.v
LiquidityRecord.v
LiquidityReplay.v
Displacement.v
DisplacementTheory.v
DisplacementExact.v
OrderBlocks.v
OrderBlocksTheory.v
OrderBlocksResult.v
OrderBlocksContract.v
Risk.v
RiskTheory.v
SetupTypes.v
EntrySetup.v
EntrySetupTheory.v
EntrySetupContract.v
EntrySetupFinal.v
Lifecycle.v
LifecycleTheory.v
Execution.v
ExecutionTheory.v
Crt.v
CrtTheory.v
Score.v
Resampling.v
ResamplingTheory.v
MtfTypes.v
MultiTimeframe.v
MultiTimeframeTheory.v
MultiTimeframeVerdict.v
MultiTimeframeHistory.v
Metrics.v
MetricsTheory.v
Runner.v
RunnerTheory.v
RunnerReplay.v
RunnerReport.v
Strategy.v
StrategyTheory.v
StrategyReport.v
OptimizedStrategy.v
OptimizedStrategyTheory.v
Snapshots.v
SnapshotsTheory.v
SnapshotsContract.v
StrategyExample.v
SnapshotExample.v
Admission.v
Jobs.v
Paper.v
PaperTheory.v
