(* ===== verification/Prelude.v ===== *)
(** * A verification of the deterministic core of the trading platform

    The program is a research and paper-trading back end ([src/backend/app]).
    Market data arrives as closed candles; deterministic engines derive
    indicators, market structure, liquidity, price gaps and range sweeps from
    them; a score and a risk plan turn the evidence into a signal; a lifecycle
    replay and an execution policy decide what would have happened to it; an
    account ledger books the fills of paper trading. Everything that decides
    is pure and works in decimal arithmetic; the rest is I/O around it. This
    library models the deciding part in Gallina, translated from the Python
    source, and proves what makes it correct.

    ** How the files correspond to the source

    Paths are relative to [src/backend/app].

    - [Prelude]: exceptions as a result monad ([pyres]), Python loops,
      sequences, sorting, binary search, and the list lemmas and tactics the
      components share.
    - [Decimal]: Python's [decimal] module, which the whole program computes
      in: a decimal is a coefficient and an exponent; every operation rounds
      half-even to the precision of the context, division as [_pydecimal]
      computes it. The theory relates each operation to the rationals
      ([rounds_to]).
    - [Time]: [core/time.py], [market_data/timeframes.py], [schemas/types.py].
    - [Candle]: [schemas/candle.py] and the input checks of the engines.
    - [Signal]: the shared vocabulary of [schemas/signal.py].
    - [Indicators]: [engines/indicators/calculations.py].
    - [Structure], [StructureZones]: [engines/structure/primitives.py].
    - [Fvg], [FvgTheory]: [engines/smc/fvg.py].
    - [LiquidityTypes]: [schemas/liquidity.py].
    - [Risk], [RiskTheory]: [engines/risk/calculations.py].
    - [Lifecycle], [LifecycleTheory]: [engines/signal/lifecycle.py].
    - [Execution], [ExecutionTheory]: [backtesting/execution.py],
      [schemas/execution.py], [core/financial.py].
    - [Crt], [CrtTheory]: [engines/crt/detector.py].
    - [Score]: [engines/signal/score.py].
    - [Paper], [PaperTheory]: [execution/decimal_policy.py],
      [execution/models.py], [execution/accounting.py],
      [execution/trade_projection.py]: the ledger of paper trading.
    - [Resampling], [ResamplingTheory]: [market_data/normalization.py],
      [market_data/resampling.py].
    - [Admission]: [core/admission.py].
    - [Jobs]: [services/evaluation_jobs.py], [schemas/evaluation_job.py]: the
      handlers between two [await]s are functions on the table of jobs, and
      the relation [step] interleaves them.
    - [Metrics], [MetricsTheory]: [metrics/financial.py],
      [backtesting/metrics.py] and the trades of [schemas/backtest.py].
    - [Runner], [RunnerTheory], [RunnerReplay], [RunnerReport]:
      [backtesting/runner.py] for an arbitrary engine of the protocol in
      [engines/strategy.py], with the schemas of [schemas/strategy.py].
    - [Engine]: [engines/structure/references.py] and the input checks that
      the engines after the structure engine repeat.
    - [OrderBlocks], [OrderBlocksTheory], [OrderBlocksResult],
      [OrderBlocksContract]: [engines/smc/order_blocks.py],
      [schemas/order_block.py]. The state records of the engine are held by the
      archive lists; the schedule and the work lists hold positions.
    - [Grid]: whole numbers of a price unit, for the theorems that say when
      decimal arithmetic is exact.
    - [Displacement], [DisplacementTheory], [DisplacementExact]:
      [engines/smc/displacement.py], [schemas/displacement.py].
    - [SortedIndex]: binary searches over sorted tables against linear scans,
      and folds that agree on what an invariant lets them see.
    - [Liquidity]: [engines/structure/liquidity.py]. Pools and clusters live in
      stores and are named by their position; the archive, the price index, the
      heap of ages and the dictionaries hold positions. [LiquiditySpec] is the
      same engine without any index; [LiquidityIndex], [LiquidityTheory] and
      [LiquidityRefinement] relate the two, [LiquidityContract] and
      [LiquidityReplay] prove what the engine promises.
    - [MtfTypes], [MultiTimeframe], [MultiTimeframeTheory],
      [MultiTimeframeVerdict], [MultiTimeframeHistory]:
      [engines/structure/multi_timeframe.py], [schemas/multi_timeframe.py].
    - [Dict]: dictionaries as lists of items, grouping by a key.
    - [SetupTypes], [EntrySetup], [EntrySetupTheory], [EntrySetupContract],
      [EntrySetupFinal]: [engines/ict/high_probability_entry.py],
      [schemas/entry_setup.py] and the candidate [engines/risk/calculations.py]
      makes of a setup.
    - [Strategy], [StrategyTheory], [StrategyReport], [StrategyExample]:
      [engines/strategy_engine.py], [schemas/strategy.py]. The stages of
      [evaluate] are steps of a monad whose state is what has been computed so
      far ([Progress]), because an early return and the handler of errors
      report it; [StrategyReport.stopped] lists every stop with what had been
      computed by then. [StrategyExample] is one complete run that trades. What a
      candidate carries as its snapshot is an argument of the engine, which
      [Snapshots.concrete_evaluate] instantiates.
    - [OptimizedStrategy], [OptimizedStrategyTheory]:
      [engines/optimized_strategy_engine.py], an instance of the class
      [TargetCandles], the one step of [evaluate] a subclass replaces.
    - [LiquidityRecord]: the record of a pool is part of that of the result.
    - [Snapshots], [SnapshotsTheory], [SnapshotsContract], [SnapshotExample]:
      [schemas/analysis_snapshot.py] and [services/snapshot_builder.py]. The
      recursion over the instants of the evidence is the class
      [Snapshots.Times], with an instance per schema; the equality of payloads
      and the parsing of a stored status are arguments. [SnapshotExample] has
      the complete run with its snapshot.
    ** Conventions of the model

    - Instants and durations are integers of microseconds; the naive-time and
      offset checks of [core/time.py] happen before the model starts. An
      [isoformat] text is modelled where an identifier is made of it.
    - A pydantic model is a record with a boolean validator that combines its
      field constraints and its validators; constructing it is [validated],
      which raises [ValidationError] without the text of the library. So
      "never raises" is a theorem about the computation, not an assumption.
    - A Python exception is a class name and a message; [assert] raises
      [AssertionError].
    - A mutable object that is shared (the zones of the gap engine and of the
      structure engine) lives in a store list and is named by its position.
    - Loops are folds or structural recursions over the sequences they
      iterate over, so they terminate by construction; the two loops that are
      not of this kind carry fuel: binary search runs [hi - lo] steps, which
      [bsearch_spec] proves enough, and counting decimal digits runs [log2 n]
      steps, which [ndigits_spec] proves enough.
    - Not modelled in the arithmetic: the exponent limits [Emax] and [Emin],
      NaN and infinities (the schemas refuse them), and contexts other than
      the ones the code installs. Counts that are never negative are [nat].

    ** What is proved

    Properties carry claim ids [C1], [C2], ... in their doc comments.

    - Functional behaviour on every branch: the indicators, swings, zones,
      structure breaks, gaps, risk plans, entries, exits, sweeps and scores
      are what their documentation says, errors included.
    - No lookahead: indicators, swings, lifecycle results and snapshots of a
      prefix of the data do not change when data is appended.
    - Refinement: optimised code equals a reference definition (structure
      breaks against full reclassification, binary-searched zones against a
      linear scan, the gap work list against a sweep of the archive, the
      lifecycle loop against a first-touch reference).
    - Invariants: states reachable by a replay obey their state machines and
      pass their schemas.
    - Composition: the lifecycle is proved against the class
      [Lifecycle.EntryResolver]; the execution policy discharges it
      ([build_entry_execution_resolver_contract]), and the two together are
      total.
    - The ledger: the accounts a replay of fills reaches satisfy
      [PaperTheory.account_inv], proved fill by fill ([ledger_step_inv]); money is
      conserved, trades reconcile with their fills although cost allocation
      rounds, and the displays computed from them never fail.
    - Concurrency: the limits of the job table hold in every interleaving
      ([Jobs.reachable]), the eviction loops end ([evict_jobs] and
      [evict_bodies] carry the number of jobs as fuel, enough because every
      iteration removes one), and a request to cancel an active job is lost in
      no interleaving ([Jobs.rtc_pending]) and at most two steps from its end.
    - The backtest: the run is point-in-time (later rows change nothing up to
      a horizon), its repeated replays of a signal amount to one replay over
      all visible candles, the indexed lookup changes nothing, and the report
      and its metrics are exact counts and quotients of the trades. The engine
      is a parameter of these theorems; [RunnerReport] runs them on a concrete
      one.
    - Order blocks: the abstract view is a life per block and per breaker
      ([OrderBlocksTheory.block_after], [breaker_after]); [sim] relates the
      scheduled replay to it bar by bar, and everything returned is derived from
      those lives ([analysis_returns]): the protocol, the schemas and the
      correspondence of blocks and breakers. Prices are assumed to fit the
      default context, together with the sum of open and close ([narrow]).
    - Displacement: each event is decided by the earliest permitted leg that is
      strong enough, the index of gaps equals a scan of all gaps, decisions are
      final, and on a price grid ([Grid.on_grid]: prices of at most [10 ^ 24]
      units and at most [10 ^ 9] candles, so that no sum reaches 34 digits)
      the strength of a leg is exact.
    - Liquidity: [LiquiditySpec.liquidity_spec] examines every pool of the archive
      on every bar and every living cluster for every swing; the engine with its
      indexes returns the same, errors included ([LiquidityRefinement.related]
      is the simulation). On the reference: totality, the protocol of a pool, and
      [LiquidityTypes.pools_ok], which the order block engine assumes of the pools
      it is given. No lookahead holds for swings with distinct identifiers: pools
      are told apart by identifiers built from those of their swings.
    - Multi-timeframe analysis: the bucket boundaries kept from candle to candle
      are those of the instants ([MultiTimeframeTheory.group_candles_exact], for
      instants the bucketing does not truncate), the closed bars are the complete
      buckets, the verdict is decided by [MultiTimeframeVerdict.permitted], and
      nothing depends on what is not known yet.
    - Entry setups: the detection with its indexes is the evaluation of every
      sweep on all the evidence ([EntrySetupTheory.reference_entry_setups]); on
      that evaluation, totality, the chain under a READY setup
      ([EntrySetupContract.ready_chain]) and the finality of settled setups. The
      gaps and blocks of both runs of the finality theorem carry their whole
      history: the engine itself reads of it only what had happened.
    - The strategy engine: a trade is proposed exactly when
      [StrategyTheory.passes_gates] holds, every other evaluation reports the reason
      of the first failed check and what had been computed before it
      ([StrategyReport.refused]) or raises what is no [ValueError], the levels of a candidate come from
      the chain of evidence below it, and the backtest runner accepts what the
      engine returns. The optimized engine equals the reference one for
      targets that are multiples of the source; without that it does not
      ([StrategyExample.optimized_engine_differs]).
    - Analysis snapshots: a candidate can be audited from what its snapshot
      holds, what the engines find passes the semantic checks of a snapshot
      (every engine keeps the dates and references the checks ask for; for
      swings above the ticks of a pool and prices of at most 28 digits), and a
      stored snapshot can be read back exactly when all its breakers are
      active. The last theorem takes the documented order in which a union of
      enumerations is parsed ([Hblock], [Hactive]) as its hypotheses;
      [SnapshotExample.parse_status_example] satisfies them.
    ** Not modelled, and the plan

    In order of importance, and still to be modelled:
    the sessions ([market_data/sessions.py]), the fully incremental strategy engine
    and its caches ([engines/incremental_strategy_engine.py],
    [engines/hot_state_strategy_engine.py] and the hot states next to the engines), the hashes
    of [core/algorithm_identity.py], and the content hashes of a backtest
    ([backtesting/identity.py]).
    Outside the scope: the database, HTTP, authentication, telemetry, worker
    processes and provider clients, which are I/O; the OpenAI client; the
    front end and the Rust bridge, which are in other languages; and the
    migrations, tests and experiments. *)
From Stdlib Require Import ZArith Lia Sorting.Permutation Sorting.Sorted.
From stdpp Require Import base list strings numbers option sets sorting.

#[global] Arguments Nat.ltb : simpl never.
#[global] Arguments Nat.leb : simpl never.

(** ** Exceptions and fallible computations

    A Python exception is its class name and its message; a function that can
    raise returns a [pyres]. *)
Inductive pyexc :=
| Exc (cls : string) (msg : string).

Inductive pyres (A : Type) :=
| Ok (a : A)
| Raise (e : pyexc).
Arguments Ok {A} a.
Arguments Raise {A} e.

#[global] Instance pyexc_eqdec : EqDecision pyexc := ltac:(solve_decision).
#[global] Instance pyres_ret : MRet pyres := fun A a => Ok a.
#[global] Instance pyres_bind : MBind pyres :=
  fun A B f m => match m with Ok a => f a | Raise e => Raise e end.
#[global] Instance pyres_fmap : FMap pyres :=
  fun A B f m => match m with Ok a => Ok (f a) | Raise e => Raise e end.

(** [if bad: raise e] *)
Definition raise_if (bad : bool) (e : pyexc) : pyres unit :=
  if bad then Raise e else Ok tt.

(** [for x in l: f x], stopping at the first exception. *)
Fixpoint py_for {A} (f : A -> pyres unit) (l : list A) : pyres unit :=
  match l with
  | [] => Ok tt
  | x :: l' => match f x with Ok _ => py_for f l' | Raise e => Raise e end
  end.

(** [for x in l: s = f s x], stopping at the first exception. *)
Fixpoint py_fold {A S} (f : S -> A -> pyres S) (s : S) (l : list A) : pyres S :=
  match l with
  | [] => Ok s
  | x :: l' => match f s x with Ok s' => py_fold f s' l' | Raise e => Raise e end
  end.

Definition is_ok {A} (m : pyres A) : bool :=
  match m with Ok _ => true | Raise _ => false end.

Lemma bind_ok {A B} (m : pyres A) (f : A -> pyres B) b :
  (m ≫= f) = Ok b <-> exists a, m = Ok a /\ f a = Ok b.
Proof.
  split.
  - destruct m; cbn; [eauto | discriminate].
  - intros (a & -> & H). exact H.
Qed.

Lemma raise_if_ok (b : bool) e u : raise_if b e = Ok u <-> b = false.
Proof. destruct b, u; cbn; split; congruence. Qed.

Lemma py_for_ok {A} (f : A -> pyres unit) l :
  py_for f l = Ok tt <-> Forall (fun x => f x = Ok tt) l.
Proof.
  induction l as [|x l IH]; cbn; [by split; [constructor|]|].
  rewrite Forall_cons_iff. destruct (f x) as [[]|e] eqn:E; [rewrite IH; tauto|].
  split; [discriminate | intros [? _]; congruence].
Qed.

Lemma py_fold_app {A S} (f : S -> A -> pyres S) l1 l2 s :
  py_fold f s (l1 ++ l2) = (py_fold f s l1 ≫= fun s' => py_fold f s' l2).
Proof.
  revert s; induction l1 as [|x l1 IH]; intros s; cbn; [done|].
  destruct (f s x); [apply IH | done].
Qed.

(** A loop invariant of [py_fold]. *)
Lemma py_fold_inv {A S} (f : S -> A -> pyres S) (I : S -> Prop) l s s' :
  I s -> (forall s x s2, x ∈ l -> I s -> f s x = Ok s2 -> I s2) ->
  py_fold f s l = Ok s' -> I s'.
Proof.
  revert s; induction l as [|x l IH]; cbn; intros s Hs Hstep H; [congruence|].
  destruct (f s x) as [s2|] eqn:E; [|discriminate].
  eapply (IH s2); eauto.
  - eapply Hstep; eauto. constructor.
  - intros ??? Hx. apply Hstep. by constructor.
Qed.

(** The specification of a fallible computation: [P] of its result, [E] of
    its exception. *)
Definition outcome {A} (P : A -> Prop) (E : pyexc -> Prop) (m : pyres A) : Prop :=
  match m with Ok a => P a | Raise e => E e end.

Lemma outcome_bind {A B} (P : A -> Prop) (Q : B -> Prop) E m (f : A -> pyres B) :
  outcome P E m -> (forall a, m = Ok a -> P a -> outcome Q E (f a)) -> outcome Q E (m ≫= f).
Proof. destruct m; cbn; auto. Qed.

Lemma outcome_weaken {A} (P P' : A -> Prop) (E E' : pyexc -> Prop) m :
  outcome P E m -> (forall a, P a -> P' a) -> (forall e, E e -> E' e) -> outcome P' E' m.
Proof. destruct m; cbn; auto. Qed.

(** A pydantic model is built only when its constraints and validators hold;
    the text of the library's error is not modelled. *)
Definition validated {A} (valid : A -> bool) (x : A) : pyres A :=
  if valid x then Ok x else Raise (Exc "ValidationError" "").

Lemma validated_ok {A} (valid : A -> bool) (x y : A) :
  validated valid x = Ok y <-> valid x = true /\ x = y.
Proof. unfold validated. destruct (valid x); naive_solver. Qed.

(** [l = [f(x) for x in l]], stopping at the first exception. *)
Fixpoint py_map {A B} (f : A -> pyres B) (l : list A) : pyres (list B) :=
  match l with
  | [] => Ok []
  | x :: l' =>
      match f x with
      | Ok y => match py_map f l' with Ok ys => Ok (y :: ys) | Raise e => Raise e end
      | Raise e => Raise e
      end
  end.

Lemma py_map_ok {A B} (f : A -> pyres B) l ys :
  py_map f l = Ok ys <-> Forall2 (fun x y => f x = Ok y) l ys.
Proof.
  split.
  - revert ys; induction l as [|x l IH]; intros ys; cbn; [intros [= <-]; constructor|].
    destruct (f x) as [y|e] eqn:E; [|done]. destruct (py_map f l) as [ys'|e]; [|done].
    intros [= <-]. constructor; auto.
  - induction 1 as [|x y l ys Hx _ IH]; cbn; [done|]. by rewrite Hx, IH.
Qed.

Lemma py_map_total {A B} (f : A -> pyres B) (g : A -> B) l :
  (forall x, x ∈ l -> f x = Ok (g x)) -> py_map f l = Ok (map g l).
Proof.
  induction l as [|x l IH]; intros H; cbn; [done|].
  rewrite H by constructor. rewrite IH; [done|]. intros; apply H. by constructor.
Qed.

Lemma py_map_ext {A B} (f g : A -> pyres B) l : (forall x, x ∈ l -> f x = g x) -> py_map f l = py_map g l.
Proof.
  induction l as [|x l IH]; intros Hfg; cbn [py_map]; [done|]. rewrite Hfg by constructor.
  rewrite IH; [done|]. intros; apply Hfg. by constructor.
Qed.

Lemma py_map_all {A B} (f : A -> pyres B) (l : list A) : (forall x, x ∈ l -> exists y, f x = Ok y) -> exists ys, py_map f l = Ok ys.
Proof.
  induction l as [|x l IH]; intros H; [by exists []|]. cbn [py_map].
  destruct (H x) as [y ->]; [by left|]. destruct IH as [ys ->]; [|eauto]. intros z Hz. apply H. by right.
Qed.

(** ** Boolean guards *)

(** Splits the boolean guards of the code into propositions. *)
Ltac bool_hyps :=
  repeat match goal with
  | H : (_ && _)%bool = true |- _ => apply andb_true_iff in H; destruct H
  | H : (_ || _)%bool = false |- _ => apply orb_false_iff in H; destruct H
  | H : negb _ = true |- _ => apply negb_true_iff in H
  | H : negb _ = false |- _ => apply negb_false_iff in H
  | H : bool_decide _ = true |- _ => apply bool_decide_eq_true in H
  | H : bool_decide _ = false |- _ => apply bool_decide_eq_false in H
  | H : raise_if _ _ = Ok _ |- _ => apply raise_if_ok in H
  | H : Ok _ = Ok _ |- _ => injection H as H
  | H : Raise _ = Ok _ |- _ => discriminate H
  end.

(** ** Python sequence helpers *)

(** [l\[i:j\]] with [0 <= i]. *)
Definition slice {A} (l : list A) (i j : nat) : list A := take (j - i) (drop i l).

(** [zip(l, l\[1:\])] *)
Fixpoint pairwise {A} (l : list A) : list (A * A) :=
  match l with
  | x :: ((y :: _) as l') => (x, y) :: pairwise l'
  | _ => []
  end.

(** [enumerate(l)] *)
Definition enumerate {A} (l : list A) : list (nat * A) := zip (seq 0 (length l)) l.

(** [list.insert(i, x)] *)
Definition list_insert_at {A} (l : list A) (i : nat) (x : A) : list A :=
  take i l ++ x :: drop i l.

(** [list.pop(i)], the element dropped. *)
Definition list_pop_at {A} (l : list A) (i : nat) : list A :=
  take i l ++ drop (S i) l.

(** Drops the longest prefix satisfying [p]. *)
Fixpoint drop_while {A} (p : A -> bool) (l : list A) : list A :=
  match l with
  | [] => []
  | x :: l' => if p x then drop_while p l' else x :: l'
  end.

(** [min(l, key=...)] and [max(l, key=...)]: the first best element, where
    [lt] compares keys strictly. *)
Fixpoint min_from {A} (lt : A -> A -> bool) (best : A) (l : list A) : A :=
  match l with
  | [] => best
  | x :: l' => min_from lt (if lt x best then x else best) l'
  end.

Definition py_min {A} (lt : A -> A -> bool) (l : list A) : option A :=
  match l with [] => None | x :: l' => Some (min_from lt x l') end.

Definition py_max {A} (lt : A -> A -> bool) (l : list A) : option A :=
  py_min (fun x y => lt y x) l.

(** [sorted(l, key=...)]: stable. *)
Fixpoint insert_by {A} (lt : A -> A -> bool) (x : A) (l : list A) : list A :=
  match l with
  | [] => [x]
  | y :: l' => if lt y x then y :: insert_by lt x l' else x :: y :: l'
  end.

Definition sort_by {A} (lt : A -> A -> bool) (l : list A) : list A :=
  foldr (insert_by lt) [] l.

(** The binary search of the [bisect] module and of the source's own loops:
    [lo, hi = ...; while lo < hi: mid = (lo+hi)//2; if go(mid): lo = mid+1 else: hi = mid]. *)
Fixpoint bsearch (fuel : nat) (go : nat -> bool) (lo hi : nat) : nat :=
  match fuel with
  | O => lo
  | S fuel' =>
      if (lo <? hi)%nat then
        let mid := ((lo + hi) / 2)%nat in
        if go mid then bsearch fuel' go (S mid) hi else bsearch fuel' go lo mid
      else lo
  end.

Definition bisect {A} (go : A -> bool) (l : list A) (lo hi : nat) : nat :=
  bsearch (hi - lo) (fun i => match l !! i with Some x => go x | None => false end) lo hi.

(** ** Strict weak orders on keys *)

(** A boolean [<] on keys as Python's comparisons provide it: asymmetric, and
    incomparability is transitive. *)
Class StrictWeak {A} (lt : A -> A -> bool) : Prop := {
  sw_asym : forall x y, lt x y = true -> lt y x = false;
  sw_ntrans : forall x y z, lt x y = false -> lt y z = false -> lt x z = false
}.

(** Comparison of the keys [f x]. *)
Definition on_key {A B} (f : A -> B) (lt : B -> B -> bool) (x y : A) : bool := lt (f x) (f y).

(** Lexicographic comparison of tuples. *)
Definition lex_lt {A} (lt1 lt2 : A -> A -> bool) (x y : A) : bool :=
  if lt1 x y then true else if lt1 y x then false else lt2 x y.

(** Comparison of negated keys. *)
Definition rev_lt {A} (lt : A -> A -> bool) (x y : A) : bool := lt y x.

Section strict_weak.
Context {A : Type} (lt : A -> A -> bool) `{SW : !StrictWeak lt}.

Lemma sw_irrefl x : lt x x = false.
Proof. destruct (lt x x) eqn:E; [|done]. pose proof (sw_asym _ _ E). congruence. Qed.

Lemma sw_trans x y z : lt x y = true -> lt y z = true -> lt x z = true.
Proof.
  intros Hxy Hyz. destruct (lt x z) eqn:E; [done|].
  pose proof (sw_ntrans _ _ _ E (sw_asym _ _ Hyz)). congruence.
Qed.

Lemma sw_lt_le_trans x y z : lt x y = true -> lt z y = false -> lt x z = true.
Proof.
  intros Hxy Hzy. destruct (lt x z) eqn:E; [done|].
  pose proof (sw_ntrans _ _ _ E Hzy). congruence.
Qed.

Lemma sw_le_lt_trans x y z : lt y x = false -> lt y z = true -> lt x z = true.
Proof.
  intros Hyx Hyz. destruct (lt x z) eqn:E; [done|].
  pose proof (sw_ntrans _ _ _ Hyx E). congruence.
Qed.

#[export] Instance on_key_sw {B} (f : B -> A) : StrictWeak (on_key f lt).
Proof. constructor; unfold on_key; intros *; [apply sw_asym | apply sw_ntrans]. Qed.

#[export] Instance rev_lt_sw : StrictWeak (rev_lt lt).
Proof. constructor; unfold rev_lt; intros *; [apply sw_asym | eauto using sw_ntrans]. Qed.

#[export] Instance lex_lt_sw (lt2 : A -> A -> bool) `{!StrictWeak lt2} : StrictWeak (lex_lt lt lt2).
Proof.
  constructor; unfold lex_lt.
  - intros x y. destruct (lt x y) eqn:E1; [by rewrite (sw_asym _ _ E1)|].
    destruct (lt y x); [done|]. apply sw_asym.
  - intros x y z. destruct (lt x y) eqn:Exy; [done|]. destruct (lt y z) eqn:Eyz; [done|].
    rewrite (sw_ntrans _ _ _ Exy Eyz).
    destruct (lt y x) eqn:Eyx; [intros _|].
    + by rewrite (sw_le_lt_trans _ _ _ Eyz Eyx).
    + destruct (lt z y) eqn:Ezy; [intros _ _|].
      * by rewrite (sw_lt_le_trans _ _ _ Ezy Exy).
      * rewrite (sw_ntrans _ _ _ Ezy Eyx). apply sw_ntrans.
Qed.

(** *** The first minimum *)

Lemma min_from_split b l :
  exists l1 l2, b :: l = l1 ++ min_from lt b l :: l2
    /\ Forall (fun x => lt (min_from lt b l) x = true) l1
    /\ Forall (fun x => lt x (min_from lt b l) = false) (b :: l).
Proof.
  revert b; induction l as [|x l IH]; intros b; cbn.
  - exists [], []. repeat constructor. apply sw_irrefl.
  - destruct (lt x b) eqn:E.
    + destruct (IH x) as (l1 & l2 & Heq & H1 & H2).
      exists (b :: l1), l2. cbn. rewrite Heq at 1. split; [done|].
      assert (lt (min_from lt x l) b = true) as Hb.
      { inversion H2; subst. eapply sw_le_lt_trans; eauto. }
      split; [by constructor|]. constructor; [by apply sw_asym | done].
    + destruct (IH b) as (l1 & l2 & Heq & H1 & H2).
      generalize dependent (min_from lt b l). intros m Heq H1 H2.
      inversion H2 as [|?? Hb Hl]; subst.
      assert (lt x m = false) as Hx by eauto using sw_ntrans.
      destruct l1 as [|b' l1]; cbn in Heq; injection Heq as Hb' Hl'; subst.
      * exists [], (x :: l2). repeat constructor; auto.
      * inversion H1; subst. exists (b' :: x :: l1), l2. split; [done|].
        split; [|by repeat constructor].
        repeat constructor; try done. eapply sw_lt_le_trans; [eassumption|done].
Qed.

Lemma py_min_split l m : py_min lt l = Some m ->
  exists l1 l2, l = l1 ++ m :: l2
    /\ Forall (fun x => lt m x = true) l1 /\ Forall (fun x => lt x m = false) l.
Proof. destruct l as [|b l]; cbn; [done|]. intros [= <-]. apply min_from_split. Qed.

Lemma py_min_spec l m : py_min lt l = Some m -> m ∈ l /\ forall x, x ∈ l -> lt x m = false.
Proof.
  intros (l1 & l2 & -> & _ & H)%py_min_split. split; [set_solver|].
  intros x Hx. rewrite Forall_forall in H. auto.
Qed.

Lemma py_min_None l : py_min lt l = None <-> l = [].
Proof. by destruct l. Qed.

(** *** Sorting *)

Lemma insert_by_Permutation x l : Permutation (x :: l) (insert_by lt x l).
Proof using Type.
  induction l as [|y l IH]; cbn; [done|]. destruct (lt y x); [|done].
  rewrite perm_swap. by constructor.
Qed.

Lemma sort_by_Permutation l : Permutation l (sort_by lt l).
Proof using Type.
  induction l as [|x l IH]; cbn; [done|]. rewrite <-insert_by_Permutation. by constructor.
Qed.

Definition ordered (l : list A) : Prop := StronglySorted (fun x y => lt y x = false) l.

Lemma insert_by_ordered x l : ordered l -> ordered (insert_by lt x l).
Proof.
  unfold ordered. induction 1 as [|y l Hl IH Hy]; cbn; [by repeat constructor|].
  destruct (lt y x) eqn:E.
  - constructor; [done|]. rewrite <-(insert_by_Permutation x l). constructor; [by apply sw_asym | done].
  - constructor; [by constructor|]. constructor; [done|].
    eapply Forall_impl; [exact Hy|]. intros z Hz. cbn. by apply (sw_ntrans z y x).
Qed.

Lemma sort_by_ordered l : ordered (sort_by lt l).
Proof. induction l; cbn; [constructor | by apply insert_by_ordered]. Qed.

(** Sorting leaves an already ordered list unchanged. *)
Lemma sort_by_id l : ordered l -> sort_by lt l = l.
Proof.
  induction 1 as [|x l Hl IH Hx]; [done|].
  change (insert_by lt x (sort_by lt l) = x :: l). rewrite IH. destruct l as [|y l]; cbn; [done|].
  inversion Hx as [|? ? Hyx]; subst. cbn in Hyx. by rewrite Hyx.
Qed.
End strict_weak.

Lemma elem_of_sort_by {A} (lt : A -> A -> bool) l x : x ∈ sort_by lt l <-> x ∈ l.
Proof.
  rewrite !list_elem_of_In. pose proof (sort_by_Permutation lt l) as H.
  split; apply Permutation_in; [by symmetry | done].
Qed.

#[global] Typeclasses Opaque on_key rev_lt lex_lt.

#[export] Instance Zltb_sw : StrictWeak Z.ltb.
Proof. constructor; intros *; rewrite ?Z.ltb_lt, ?Z.ltb_ge; lia. Qed.

#[export] Instance natltb_sw : StrictWeak Nat.ltb.
Proof. constructor; intros *; rewrite ?Nat.ltb_lt, ?Nat.ltb_ge; lia. Qed.

(** ** Binary search *)

Lemma midpoint_range lo hi : (lo < hi)%nat -> (lo <= (lo + hi) / 2 < hi)%nat.
Proof. intros H. pose proof (Nat.div_mod_eq (lo + hi) 2). pose proof (Nat.mod_upper_bound (lo + hi) 2 ltac:(lia)). lia. Qed.

(** Whatever the predicate, the search stays inside its range ... *)
Lemma bsearch_range fuel go lo hi : (lo <= hi)%nat -> (lo <= bsearch fuel go lo hi <= hi)%nat.
Proof.
  revert lo hi; induction fuel as [|fuel IH]; intros lo hi H; cbn [bsearch]; [lia|].
  destruct (Nat.ltb_spec lo hi); [|lia].
  pose proof (midpoint_range lo hi ltac:(lia)) as Hm.
  destruct (go _).
  - specialize (IH (S ((lo + hi) / 2)) hi). lia.
  - specialize (IH lo ((lo + hi) / 2)%nat). lia.
Qed.

(** ... and where the predicate holds exactly on a prefix, [hi - lo] steps find
    its end: the loop terminates with the partition point. *)
Lemma bsearch_spec fuel go lo hi s :
  (hi - lo <= fuel)%nat -> (lo <= s <= hi)%nat ->
  (forall i, (lo <= i < s)%nat -> go i = true) ->
  (forall i, (s <= i < hi)%nat -> go i = false) ->
  bsearch fuel go lo hi = s.
Proof.
  revert lo hi; induction fuel as [|fuel IH]; intros lo hi Hf Hs Ht Hn; cbn [bsearch]; [lia|].
  destruct (Nat.ltb_spec lo hi); [|lia].
  pose proof (midpoint_range lo hi ltac:(lia)) as Hm.
  set (mid := ((lo + hi) / 2)%nat) in *.
  destruct (le_lt_dec s mid) as [Hle|Hlt].
  - rewrite Hn by lia. apply IH; [lia|lia|auto|]. intros; apply Hn; lia.
  - rewrite Ht by lia. apply IH; [lia|lia| |auto]. intros; apply Ht; lia.
Qed.

(** ** Lists *)

(** [l\[index\]], for a position the code knows to exist. *)
Definition getitem {A} `{Inhabited A} (l : list A) (i : nat) : A := l !!! i.

Lemma getitem_take {A} `{Inhabited A} (l : list A) n i : (i < n)%nat -> getitem (take n l) i = getitem l i.
Proof. intros. unfold getitem. by rewrite !list_lookup_total_alt, lookup_take_lt by done. Qed.

Lemma enumerate_seq {A} `{Inhabited A} (l : list A) :
  enumerate l = map (fun i => (i, getitem l i)) (seq 0 (length l)).
Proof.
  unfold enumerate. apply list_eq. intros i. rewrite list_lookup_fmap.
  destruct (decide (i < length l)%nat) as [Hi|Hi].
  - rewrite lookup_seq_lt by done. destruct (lookup_lt_is_Some_2 l i Hi) as [x Hx].
    rewrite lookup_zip_with, Hx, lookup_seq_lt by done.
    cbn. unfold getitem. by rewrite (list_lookup_total_correct _ _ _ Hx).
  - rewrite lookup_seq_ge by lia. apply lookup_ge_None. rewrite length_zip_with, length_seq. lia.
Qed.

Lemma foldl_map {A B C} (f : A -> B -> A) (h : C -> B) l a :
  foldl f a (map h l) = foldl (fun a c => f a (h c)) a l.
Proof. revert a; induction l as [|c l IH]; intros a; cbn; [done|]. apply IH. Qed.

Lemma enumerate_take {A} (l : list A) k : enumerate (take k l) = take k (enumerate l).
Proof. unfold enumerate. by rewrite length_take, <-take_seq, zip_with_take. Qed.

Lemma elem_of_enumerate {A} (l : list A) i x : (i, x) ∈ enumerate l <-> l !! i = Some x.
Proof.
  unfold enumerate. rewrite list_elem_of_lookup. split.
  - intros (j & Hj). rewrite lookup_zip_with in Hj. apply bind_Some in Hj as (a & Ha & Hj).
    apply bind_Some in Hj as (b & Hb & [= -> ->]). apply lookup_seq in Ha as [-> _]. done.
  - intros Hx. exists i. rewrite lookup_zip_with, Hx, lookup_seq_lt by (eauto using lookup_lt_Some). done.
Qed.

Lemma elem_of_enumerate_lt {A} (l : list A) k i x : (i, x) ∈ take k (enumerate l) -> (i < k)%nat.
Proof.
  rewrite <-enumerate_take. intros H%elem_of_enumerate. apply lookup_lt_Some in H.
  rewrite length_take in H. lia.
Qed.

Lemma slice_take {A} (l : list A) i j k : (j <= k)%nat -> slice (take k l) i j = slice l i j.
Proof.
  intros H. unfold slice. rewrite skipn_firstn_comm, take_take. f_equal. lia.
Qed.

Lemma slice_last {A} (l : list A) i j : (i < j <= length l)%nat -> list.last (slice l i j) = l !! (j - 1)%nat.
Proof.
  intros H. unfold slice. rewrite last_lookup, length_take, length_drop.
  rewrite Nat.min_l by lia. rewrite lookup_take_lt, lookup_drop by lia. f_equal. lia.
Qed.

Lemma omap_flat_map {A B C} (f : A -> list B) (g : B -> option C) (l : list A) :
  omap g (flat_map f l) = flat_map (fun x => omap g (f x)) l.
Proof. induction l as [|x l IH]; cbn; [done|]. by rewrite omap_app, IH. Qed.

Lemma omap_omap {A B C} (f : A -> option B) (g : B -> option C) (l : list A) :
  omap g (omap f l) = omap (fun x => f x ≫= g) l.
Proof. induction l as [|x l IH]; cbn; [done|]. destruct (f x); cbn; [destruct (g b); cbn|]; by rewrite IH. Qed.

Lemma flat_map_ext_in {A B} (f g : A -> list B) l : (forall x, x ∈ l -> f x = g x) -> flat_map f l = flat_map g l.
Proof.
  induction l as [|x l IH]; intros H; cbn; [done|].
  rewrite H by constructor. f_equal. apply IH. intros; apply H. by constructor.
Qed.

Lemma flat_map_map {A B C} (f : A -> B) (g : B -> list C) l : flat_map g (map f l) = flat_map (fun x => g (f x)) l.
Proof. induction l; cbn; congruence. Qed.

(** Consecutive elements of a list. *)
Lemma pairwise_lookup {A} (l : list A) i x y :
  pairwise l !! i = Some (x, y) <-> l !! i = Some x /\ l !! S i = Some y.
Proof.
  revert i; induction l as [|a l IH]; intros i; [cbn; naive_solver|].
  destruct l as [|b l]; [destruct i; cbn; naive_solver|].
  destruct i as [|i]; [cbn; naive_solver|].
  change (pairwise (a :: b :: l) !! S i) with (pairwise (b :: l) !! i).
  rewrite IH. done.
Qed.

Lemma pairwise_Forall {A} (P : A * A -> Prop) (l : list A) :
  Forall P (pairwise l) <-> forall i x y, l !! i = Some x -> l !! S i = Some y -> P (x, y).
Proof.
  rewrite Forall_lookup. split.
  - intros H i x y Hx Hy. apply (H i). by apply pairwise_lookup.
  - intros H i [x y] [Hx Hy]%pairwise_lookup. eauto.
Qed.

Lemma pairwise_take {A} n (l : list A) : pairwise (take n l) = take (n - 1) (pairwise l).
Proof.
  revert l; induction n as [|n IH]; intros l; [done|].
  destruct l as [|x [|y l]]; [cbn; by rewrite ?take_nil | cbn; by rewrite ?take_nil |].
  destruct n as [|n]; [done|].
  change (take (S (S n)) (x :: y :: l)) with (x :: y :: take n l).
  change (pairwise (x :: y :: take n l)) with ((x, y) :: pairwise (take (S n) (y :: l))).
  rewrite IH. cbn. by rewrite Nat.sub_0_r.
Qed.


Lemma filter_flat_map {A B} (P : B -> Prop) `{!forall x, Decision (P x)} (f : A -> list B) l :
  filter P (flat_map f l) = flat_map (fun x => filter P (f x)) l.
Proof. induction l as [|x l IH]; cbn; [done|]. by rewrite filter_app, IH. Qed.

Lemma list_filter_flat_map {A B} (p : B -> bool) (f : A -> list B) l :
  List.filter p (flat_map f l) = flat_map (fun x => List.filter p (f x)) l.
Proof. induction l as [|x l IH]; cbn; [done|]. by rewrite List.filter_app, IH. Qed.

Lemma flat_map_nil {A B} (f : A -> list B) l : (forall x, x ∈ l -> f x = []) -> flat_map f l = [].
Proof.
  induction l as [|x l IH]; intros H; cbn; [done|]. rewrite H by constructor. apply IH.
  intros; apply H. by constructor.
Qed.

Lemma flat_map_seq_shrink {B} (f : nat -> list B) a m m' : (m <= m')%nat ->
  (forall i, (a + m <= i)%nat -> f i = []) -> flat_map f (seq a m') = flat_map f (seq a m).
Proof.
  intros Hm Hf. replace m' with (m + (m' - m))%nat by lia. rewrite seq_app, flat_map_app.
  rewrite (flat_map_nil f (seq (a + m) _)), app_nil_r; [done|]. intros i Hi%elem_of_seq. apply Hf. lia.
Qed.

Lemma elem_of_flat_map {A B} (f : A -> list B) l y : y ∈ flat_map f l <-> exists x, x ∈ l /\ y ∈ f x.
Proof. rewrite list_elem_of_In, in_flat_map. by setoid_rewrite list_elem_of_In. Qed.

Lemma filter_all {A} (P : A -> Prop) `{!forall x, Decision (P x)} l : Forall P l -> filter P l = l.
Proof. induction 1 as [|x l Hx _ IH]; [done|]. by rewrite filter_cons_True, IH by done. Qed.

Lemma filter_none {A} (P : A -> Prop) `{!forall x, Decision (P x)} l : Forall (fun x => ~ P x) l -> filter P l = [].
Proof. induction 1 as [|x l Hx _ IH]; [done|]. by rewrite filter_cons_False, IH by done. Qed.

Lemma min_from_mem {A} (lt : A -> A -> bool) b l : min_from lt b l ∈ b :: l.
Proof.
  revert b; induction l as [|x l IH]; intros b; cbn; [by constructor|].
  destruct (lt x b); [specialize (IH x)|specialize (IH b)]; set_solver.
Qed.

Lemma py_min_mem {A} (lt : A -> A -> bool) l m : py_min lt l = Some m -> m ∈ l.
Proof. destruct l as [|b l]; [done|]. intros [= <-]. apply min_from_mem. Qed.

(** Binary search for a predicate that is downward closed: the result splits
    the range. *)
Lemma bsearch_mono fuel go lo hi :
  (hi - lo <= fuel)%nat -> (lo <= hi)%nat ->
  (forall i j, (lo <= i <= j)%nat -> (j < hi)%nat -> go j = true -> go i = true) ->
  let s := bsearch fuel go lo hi in
  (forall i, (lo <= i < s)%nat -> go i = true) /\ (forall i, (s <= i < hi)%nat -> go i = false).
Proof.
  revert lo hi; induction fuel as [|fuel IH]; intros lo hi Hf Hle Hm; cbn [bsearch]; [split; intros; lia|].
  destruct (Nat.ltb_spec lo hi); [|split; intros; lia].
  pose proof (midpoint_range lo hi ltac:(lia)) as Hmid. set (mid := ((lo + hi) / 2)%nat) in *.
  destruct (go mid) eqn:E.
  - destruct (IH (S mid) hi) as [H1 H2]; [lia|lia|intros i j ? ?; apply Hm; lia|].
    split; [|exact H2]. intros i Hi. destruct (decide (i <= mid)%nat); [|apply H1; lia].
    apply (Hm i mid); [lia|lia|done].
  - destruct (IH lo mid) as [H1 H2]; [lia|lia|intros i j ? ?; apply Hm; lia|].
    split; [exact H1|]. intros i Hi. destruct (decide (i < mid)%nat); [apply H2; lia|].
    destruct (go i) eqn:Ei; [|done]. rewrite (Hm mid i) in E; [done|lia|lia|done].
Qed.

Lemma bisect_mono {A} (go : A -> bool) (l : list A) lo :
  (lo <= length l)%nat ->
  (forall i j x y, (i <= j)%nat -> l !! i = Some x -> l !! j = Some y -> go y = true -> go x = true) ->
  let s := bisect go l lo (length l) in
  (lo <= s <= length l)%nat
  /\ (forall i x, (lo <= i < s)%nat -> l !! i = Some x -> go x = true)
  /\ (forall i x, (s <= i)%nat -> l !! i = Some x -> go x = false).
Proof.
  intros Hlo Hm s. split; [by apply bsearch_range|]. unfold s, bisect. clear s.
  destruct (bsearch_mono (length l - lo) (fun i => match l !! i with Some x => go x | None => false end) lo (length l))
    as [H1 H2]; [lia|done| |].
  - intros i j Hij Hj. destruct (lookup_lt_is_Some_2 l j Hj) as [y Hy].
    destruct (lookup_lt_is_Some_2 l i ltac:(lia)) as [x Hx]. rewrite Hx, Hy. by apply (Hm i j); [lia|..].
  - split; intros i x Hi Hx.
    + specialize (H1 i Hi). by rewrite Hx in H1.
    + pose proof (lookup_lt_Some _ _ _ Hx). specialize (H2 i ltac:(lia)). by rewrite Hx in H2.
Qed.

(** Elements a partial map drops can be left out of a slice. *)
Lemma omap_slice {A B} (f : A -> option B) (l : list A) lo hi :
  (lo <= hi)%nat -> (forall i x, l !! i = Some x -> (i < lo \/ hi <= i)%nat -> f x = None) ->
  omap f (slice l lo hi) = omap f l.
Proof.
  intros Hle H. unfold slice.
  assert (forall k, (forall i x, k !! i = Some x -> f x = None) -> omap f k = []) as Hnil.
  { induction k as [|x k IH]; intros Hk; cbn; [done|]. rewrite (Hk 0%nat x) by done. apply IH.
    intros i y Hy. by apply (Hk (S i)). }
  rewrite <-(take_drop lo l) at 2. rewrite <-(take_drop (hi - lo) (drop lo l)) at 2.
  rewrite !omap_app, (Hnil (take lo l)), (Hnil (drop (hi - lo) _)), app_nil_r; [done| |].
  - intros i x. rewrite !lookup_drop. intros Hx. apply (H _ x Hx). lia.
  - intros i x [Hx Hi]%lookup_take_Some. apply (H _ x Hx). lia.
Qed.

Lemma sorted_lookup {A} (R : A -> A -> Prop) (l : list A) : StronglySorted R l ->
  forall i j a b, (i < j)%nat -> l !! i = Some a -> l !! j = Some b -> R a b.
Proof.
  induction 1 as [|a l Hl IH Ha]; intros i j b c Hij Hi Hj; [done|].
  destruct i as [|i], j as [|j]; cbn in Hi, Hj; [lia| |lia|by eapply (IH i j); [lia|..]].
  injection Hi as ->. rewrite List.Forall_forall in Ha. apply Ha, list_elem_of_In. eauto using list_elem_of_lookup_2.
Qed.

(** Inserting at the point [bisect_right] finds keeps the order. *)
Lemma insert_at_sorted {A} (lt : A -> A -> bool) `{!StrictWeak lt} (l : list A) x :
  StronglySorted (fun a b => lt a b = true) l -> (forall y, y ∈ l -> lt x y = false -> lt y x = true) ->
  StronglySorted (fun a b => lt a b = true)
    (list_insert_at l (bisect (fun y => negb (lt x y)) l 0 (length l)) x).
Proof.
  intros Hs Hx.
  pose proof (sorted_lookup _ l Hs) as Hl. cbn in Hl.
  destruct (bisect_mono (fun y => negb (lt x y)) l 0) as (Hr & H1 & H2); [lia| |].
  { intros i j a b Hij Ha Hb Hn%negb_true_iff. apply negb_true_iff.
    destruct (decide (i = j)) as [->|]; [congruence|].
    apply (sw_ntrans x b a); [done|]. apply sw_asym. apply (Hl i j); [lia|done..]. }
  set (s := bisect _ _ _ _) in *. unfold list_insert_at.
  assert (forall y, y ∈ take s l -> lt y x = true) as Hbelow.
  { intros y Hy. apply Hx; [rewrite <-(take_drop s l); apply elem_of_app; by left|]. apply list_elem_of_lookup in Hy as [i Hi].
    apply lookup_take_Some in Hi as [Hi Hlt]. specialize (H1 i y ltac:(lia) Hi). by apply negb_true_iff in H1. }
  assert (forall y, y ∈ drop s l -> lt x y = true) as Habove.
  { intros y Hy. apply list_elem_of_lookup in Hy as [i Hi]. rewrite lookup_drop in Hi.
    specialize (H2 (s + i)%nat y ltac:(lia) Hi). by apply negb_false_iff in H2. }
  rewrite <-(take_drop s l) in Hs. apply StronglySorted_app in Hs as (Hc & Ht & Hd).
  apply StronglySorted_app. split_and!; [|done|].
  - intros a b Ha Hb. apply elem_of_cons in Hb as [->|Hb]; [by apply Hbelow | by apply Hc].
  - constructor; [done|]. apply Forall_forall. intros y Hy. by apply Habove.
Qed.

Lemma list_insert_at_Permutation {A} (l : list A) i x : Permutation (list_insert_at l i x) (x :: l).
Proof. unfold list_insert_at. rewrite <-Permutation_middle. by rewrite take_drop. Qed.

Lemma omap_map {A B C} (f : B -> option C) (g : A -> B) (l : list A) : omap f (map g l) = omap (fun x => f (g x)) l.
Proof. induction l as [|x l IH]; cbn; [done|]. by destruct (f (g x)); rewrite IH. Qed.

Lemma omap_ext_in {A B} (f g : A -> option B) (l : list A) : (forall x, x ∈ l -> f x = g x) -> omap f l = omap g l.
Proof.
  induction l as [|x l IH]; intros H; cbn; [done|]. rewrite H by constructor. rewrite IH; [done|].
  intros; apply H. by constructor.
Qed.

Lemma enumerate_app {A} (l : list A) x : enumerate (l ++ [x]) = enumerate l ++ [(length l, x)].
Proof.
  unfold enumerate. rewrite length_app, seq_app. cbn. by rewrite zip_with_app by (by rewrite length_seq).
Qed.

Lemma enumerate_lookup {A} (l : list A) i : enumerate l !! i = (fun x => (i, x)) <$> l !! i.
Proof.
  unfold enumerate. rewrite lookup_zip_with. destruct (l !! i) as [x|] eqn:E.
  - by rewrite lookup_seq_lt by eauto using lookup_lt_Some.
  - destruct (seq 0 (length l) !! i); done.
Qed.

Lemma Forall2_elem_l {A B} (P : A -> B -> Prop) l k x : Forall2 P l k -> x ∈ l -> exists y, y ∈ k /\ P x y.
Proof.
  intros H [i Hi]%list_elem_of_lookup. destruct (Forall2_lookup_l _ _ _ _ _ H Hi) as (y & Hy & Hp).
  exists y. split; [by eapply list_elem_of_lookup_2|done].
Qed.

Lemma Forall2_elem_r {A B} (P : A -> B -> Prop) l k y : Forall2 P l k -> y ∈ k -> exists x, x ∈ l /\ P x y.
Proof.
  intros H [i Hi]%list_elem_of_lookup. destruct (Forall2_lookup_r _ _ _ _ _ H Hi) as (x & Hx & Hp).
  exists x. split; [by eapply list_elem_of_lookup_2|done].
Qed.

Lemma Forall2_impl_in_l {A B} (P Q : A -> B -> Prop) l k : Forall2 P l k ->
  (forall x y, x ∈ l -> P x y -> Q x y) -> Forall2 Q l k.
Proof.
  induction 1 as [|x y l k Hp _ IH]; intros H; [constructor|]. constructor; [apply H; [by left|done]|].
  apply IH. intros ? ? Hin. apply H. by right.
Qed.

(** ** Strings *)

(** [a < b] on text, by character codes. *)
Fixpoint str_lt (a b : string) : bool :=
  match a, b with
  | _, EmptyString => false
  | EmptyString, String _ _ => true
  | String c a', String d b' =>
      if (Ascii.nat_of_ascii c <? Ascii.nat_of_ascii d)%nat then true
      else if (Ascii.nat_of_ascii d <? Ascii.nat_of_ascii c)%nat then false
      else str_lt a' b'
  end.

#[export] Instance str_lt_sw : StrictWeak str_lt.
Proof.
  constructor.
  - induction x as [|c x IH]; intros [|d y]; cbn; try done.
    destruct (Nat.ltb_spec (Ascii.nat_of_ascii c) (Ascii.nat_of_ascii d));
      destruct (Nat.ltb_spec (Ascii.nat_of_ascii d) (Ascii.nat_of_ascii c)); try done; try lia. apply IH.
  - induction x as [|c x IH]; intros [|d y] [|e z]; cbn; try done.
    repeat match goal with |- context [Nat.ltb ?a ?b] => destruct (Nat.ltb_spec a b) end; try done; try lia. apply IH.
Qed.

Lemma str_lt_total a b : str_lt a b = false -> str_lt b a = false -> a = b.
Proof.
  revert b; induction a as [|c a IH]; intros [|d b]; cbn [str_lt]; try done.
  destruct (Nat.ltb_spec (Ascii.nat_of_ascii c) (Ascii.nat_of_ascii d)); [done|].
  destruct (Nat.ltb_spec (Ascii.nat_of_ascii d) (Ascii.nat_of_ascii c)); [done|]. intros H1 H2.
  assert (c = d) as -> by (rewrite <-(Ascii.ascii_nat_embedding c), <-(Ascii.ascii_nat_embedding d); f_equal; lia).
  by rewrite (IH b).
Qed.

(** [==] on tuples of decimals and the like: elementwise. *)
Definition list_eqb {A} (eqb : A -> A -> bool) (l k : list A) : bool :=
  (length l =? length k)%nat && forallb (fun '(x, y) => eqb x y) (zip l k).

(** Elements of a list without duplicate keys are equal when their keys are. *)
Lemma NoDup_key {A B} (f : A -> B) l x y : NoDup (f <$> l) -> x ∈ l -> y ∈ l -> f x = f y -> x = y.
Proof.
  intros Hnd Hx Hy E. apply list_elem_of_lookup_1 in Hx as [i Hi], Hy as [j Hj].
  assert (i = j) as ->; [|congruence].
  eapply (NoDup_lookup (f <$> l)); [done|by rewrite list_lookup_fmap, Hi|by rewrite list_lookup_fmap, Hj, E].
Qed.

(** ** Work lists: positions in a store

    The engines keep their mutable objects in an archive and name the ones that
    still need work by their positions. *)
Lemma filter_andb {A} (p q : A -> bool) l : List.filter p (List.filter q l) = List.filter (fun x => q x && p x) l.
Proof. induction l as [|x l IH]; cbn; [done|]. destruct (q x); cbn; [destruct (p x)|]; by rewrite ?IH. Qed.

Lemma list_filter_all {A} (p : A -> bool) l : (forall x, x ∈ l -> p x = true) -> List.filter p l = l.
Proof.
  induction l as [|x l IH]; intros H; [done|]. cbn. rewrite (H x) by (by left). rewrite IH; [done|].
  intros y Hy. apply H. by right.
Qed.

Lemma list_filter_none {A} (p : A -> bool) l : (forall x, x ∈ l -> p x = false) -> List.filter p l = [].
Proof.
  induction l as [|x l IH]; intros H; [done|]. cbn. rewrite (H x) by (by left). apply IH. intros y Hy. apply H. by right.
Qed.

Lemma filter_seq_sorted (p : nat -> bool) a n : StronglySorted lt (List.filter p (seq a n)).
Proof.
  revert a. induction n as [|n IH]; intros a; cbn; [constructor|].
  destruct (p a); [|apply IH]. constructor; [apply IH|].
  apply Forall_forall. intros x [Hx _]%list_elem_of_In%filter_In. apply in_seq in Hx. lia.
Qed.

Lemma StronglySorted_weaken {A} (R R' : A -> A -> Prop) l : (forall x y, R x y -> R' x y) ->
  StronglySorted R l -> StronglySorted R' l.
Proof.
  intros H. induction 1 as [|x l _ IH Hx]; constructor; [done|]. eapply List.Forall_impl; [|exact Hx]. auto.
Qed.

Lemma filter_Permutation {A} (p : A -> bool) l k : Permutation l k -> Permutation (List.filter p l) (List.filter p k).
Proof.
  induction 1 as [|x l k _ IH|x y l|l k m _ IH1 _ IH2]; cbn [List.filter]; [done| | |by rewrite IH1].
  - by destruct (p x); [constructor|].
  - destruct (p x), (p y); try done. constructor.
Qed.

Lemma filter_or_Permutation {A} (p q : A -> bool) l : (forall x, x ∈ l -> p x = true -> q x = false) ->
  Permutation (List.filter p l ++ List.filter q l) (List.filter (fun x => p x || q x) l).
Proof.
  induction l as [|x l IH]; intros H; [done|]. cbn.
  assert (Permutation (List.filter p l ++ List.filter q l) (List.filter (fun x => p x || q x) l)) as Hp.
  { apply IH. intros y Hy. apply H. by right. }
  destruct (p x) eqn:Ep; cbn.
  - rewrite (H x) by (done || by left). cbn. by constructor.
  - destruct (q x); [|done]. rewrite <-Hp. symmetry. apply Permutation_middle.
Qed.

(** Sorting merges two disjoint selections of positions. *)
Lemma sort_positions (p q : nat -> bool) n : (forall x, p x = true -> q x = false) ->
  sort_by Nat.ltb (List.filter p (seq 0 n) ++ List.filter q (seq 0 n)) = List.filter (fun x => p x || q x) (seq 0 n).
Proof.
  intros H. apply (StronglySorted_unique le).
  - pose proof (sort_by_ordered Nat.ltb (List.filter p (seq 0 n) ++ List.filter q (seq 0 n))) as Hs.
    eapply StronglySorted_weaken; [|exact Hs]. cbn. intros x y Hxy. apply Nat.ltb_ge in Hxy. lia.
  - eapply StronglySorted_weaken; [|apply filter_seq_sorted]. cbn. lia.
  - rewrite <-sort_by_Permutation. apply filter_or_Permutation. intros x _. apply H.
Qed.

(** Visiting the positions of a list where [f] may find something. *)
Lemma omap_positions {A B} (f : A -> option B) (r : nat -> bool) bs :
  (forall p x, bs !! p = Some x -> r p = false -> f x = None) ->
  omap (fun p => bs !! p ≫= f) (List.filter r (seq 0 (length bs))) = omap f bs.
Proof.
  induction bs as [|x bs IH] using rev_ind; intros H; [done|].
  rewrite length_app, Nat.add_1_r, seq_S, List.filter_app, !omap_app. cbn [Nat.add]. f_equal.
  - rewrite <-IH.
    + apply omap_ext_in. intros p [Hp _]%list_elem_of_In%filter_In. apply in_seq in Hp. by rewrite lookup_app_l by lia.
    + intros p y Hy. apply H. by apply lookup_app_l_Some.
  - assert ((bs ++ [x]) !! length bs = Some x) as Hx by (rewrite lookup_app_r, Nat.sub_diag by lia; done).
    cbn [List.filter omap list_omap]. destruct (r (length bs)) eqn:E; cbn [omap list_omap].
    + by rewrite Hx.
    + by rewrite (H _ _ Hx E).
Qed.

(** [bs'] is [bs] with the entries at [ps] replaced by their successors. *)
Definition stepped {A} (next : A -> A) (ps : list nat) (bs bs' : list A) : Prop :=
  forall p, bs' !! p = (if bool_decide (p ∈ ps) then next else id) <$> bs !! p.

Lemma stepped_nil {A} (next : A -> A) bs : stepped next [] bs bs.
Proof. intros p. by destruct (bs !! p). Qed.

Lemma stepped_cons {A} (next : A -> A) p ps x bs bs' : p ∉ ps -> bs !! p = Some x ->
  stepped next ps (<[p := next x]> bs) bs' -> stepped next (p :: ps) bs bs'.
Proof.
  intros Hp Hx H q. rewrite H. destruct (decide (q = p)) as [->|Hne].
  - rewrite list_lookup_insert_eq by (by eapply lookup_lt_Some).
    by rewrite Hx, bool_decide_eq_false_2, bool_decide_eq_true_2 by (done || by left).
  - rewrite list_lookup_insert_ne by done. f_equal. rewrite !bool_decide_decide.
    destruct (decide (q ∈ ps)), (decide (q ∈ p :: ps)); set_solver.
Qed.

Lemma stepped_absent {A} (next : A -> A) p ps bs bs' : bs !! p = None -> stepped next ps bs bs' -> stepped next (p :: ps) bs bs'.
Proof.
  intros Hp H q. rewrite H. destruct (decide (q = p)) as [->|Hne]; [by rewrite Hp|].
  f_equal. rewrite !bool_decide_decide. destruct (decide (q ∈ ps)), (decide (q ∈ p :: ps)); set_solver.
Qed.

(** When the other entries do not move, the whole list has stepped. *)
Lemma stepped_all {A} (next : A -> A) ps bs bs' : stepped next ps bs bs' ->
  (forall p x, bs !! p = Some x -> p ∉ ps -> next x = x) -> bs' = map next bs.
Proof.
  intros H Hid. apply list_eq. intros p. rewrite H, list_lookup_fmap.
  destruct (bs !! p) as [x|] eqn:Ex; [|done]. cbn.
  case_bool_decide; [done|]. by rewrite (Hid p x).
Qed.

(** ** Sorting by a key *)

(** Sorting by a key without ties lists the same keys, whatever the order before. *)
Lemma sort_by_key_unique {A K} (key : A -> K) (ltk : K -> K -> bool) `{!StrictWeak ltk} l l' :
  (forall a b, ltk a b = false -> ltk b a = false -> a = b) -> Permutation l l' ->
  map key (sort_by (on_key key ltk) l) = map key (sort_by (on_key key ltk) l').
Proof.
  intros Ht Hp. apply (StronglySorted_unique_strong (fun x y => ltk y x = false)).
  - intros x y _ _ H1 H2. by apply Ht.
  - apply (StronglySorted_fmap key (fun x y => on_key key ltk y x = false) (fun x y => ltk y x = false)); [done|]. apply (sort_by_ordered (on_key key ltk)).
  - apply (StronglySorted_fmap key (fun x y => on_key key ltk y x = false) (fun x y => ltk y x = false)); [done|]. apply (sort_by_ordered (on_key key ltk)).
  - apply Permutation_map. by rewrite <-!sort_by_Permutation.
Qed.

(** Gathering by key, key after key, collects what has one of the keys. *)
Lemma flat_map_by_key {A K} `{EqDecision K} (p : A -> bool) (key : A -> option K) (l : list A) ks : NoDup ks ->
  Permutation (flat_map (fun k => List.filter (fun x => p x && bool_decide (key x = Some k)) l) ks)
    (List.filter (fun x => p x && match key x with Some k => bool_decide (k ∈ ks) | None => false end) l).
Proof.
  induction 1 as [|k ks Hk _ IH]; cbn [flat_map].
  - rewrite list_filter_none; [done|]. intros x _. destruct (key x); by rewrite ?bool_decide_eq_false_2, ?andb_false_r by set_solver.
  - rewrite IH, filter_or_Permutation.
    + erewrite (filter_ext_in _ _ l); [done|]. intros x _. cbn. destruct (p x); [|done]. cbn.
      destruct (key x) as [k'|]; [|by rewrite bool_decide_eq_false_2].
      repeat case_bool_decide; cbn; set_solver.
    + intros x _. destruct (p x); [|done]. cbn. intros ->%bool_decide_eq_true. by rewrite bool_decide_eq_false_2.
Qed.

(** Selecting before or after sorting. *)
Lemma filter_insert_by {A} (lt : A -> A -> bool) `{!StrictWeak lt} (p : A -> bool) x l : ordered lt l ->
  List.filter p (insert_by lt x l) = if p x then insert_by lt x (List.filter p l) else List.filter p l.
Proof.
  unfold ordered. induction 1 as [|y l Hl IH Hy]; cbn [insert_by List.filter]; [by destruct (p x)|].
  destruct (lt y x) eqn:E; cbn [List.filter].
  - rewrite IH. destruct (p x); [|done]. destruct (p y); [|done]. cbn [insert_by]. by rewrite E.
  - destruct (p x); [|done]. destruct (p y) eqn:Ep; [cbn [insert_by]; by rewrite E|].
    assert (forall k, Forall (fun z => lt z y = false) k -> insert_by lt x (List.filter p k) = x :: List.filter p k) as Hins.
    { clear -E StrictWeak0. induction k as [|z k IHk]; intros Hk; [done|]. apply Forall_cons in Hk as [Hz Hk].
      cbn [List.filter]. destruct (p z); [|by apply IHk]. cbn [insert_by]. by rewrite (sw_ntrans z y x). }
    by rewrite Hins.
Qed.

Lemma filter_sort_by {A} (lt : A -> A -> bool) `{!StrictWeak lt} (p : A -> bool) l :
  List.filter p (sort_by lt l) = sort_by lt (List.filter p l).
Proof.
  induction l as [|x l IH]; [done|]. change (sort_by lt (x :: l)) with (insert_by lt x (sort_by lt l)).
  rewrite filter_insert_by by (done || by apply sort_by_ordered). rewrite IH. cbn [List.filter]. by destruct (p x).
Qed.
