(* ===== verification/Dict.v ===== *)
(** Python dictionaries: association lists in insertion order, their lookups,
    grouping by a key, and the deduplication of [dict.fromkeys]. *)
From Stdlib Require Import ZArith Lia.
From stdpp Require Import base list strings numbers.
From S2P Require Import Prelude.
Local Open Scope Z_scope.

(** ** Dictionaries as lists of items *)

Section dict.
Context {K V : Type} `{EqDecision K}.

(** [d.get(k)] *)
Fixpoint dict_get (d : list (K * V)) (k : K) : option V :=
  match d with
  | [] => None
  | (key, v) :: rest => if decide (key = k) then Some v else dict_get rest k
  end.

(** [d\[k\]] *)
Definition dict_index (d : list (K * V)) (k : K) : pyres V :=
  match dict_get d k with Some v => Ok v | None => Raise (Exc "KeyError" "") end.
End dict.

(** [tuple(dict.fromkeys(l))]: the first occurrence of every element. *)
Definition fromkeys {A} `{EqDecision A} (l : list A) : list A :=
  foldl (fun seen x => if decide (x ∈ seen) then seen else seen ++ [x]) [] l.

(** ** First occurrences *)

Lemma fromkeys_snoc {A} `{EqDecision A} (l : list A) x :
  fromkeys (l ++ [x]) = if decide (x ∈ fromkeys l) then fromkeys l else fromkeys l ++ [x].
Proof. unfold fromkeys. by rewrite foldl_app. Qed.

Lemma elem_of_fromkeys {A} `{EqDecision A} (l : list A) x : x ∈ fromkeys l <-> x ∈ l.
Proof.
  induction l as [|y l IH] using rev_ind; [done|]. rewrite fromkeys_snoc, elem_of_app, list_elem_of_singleton.
  destruct (decide (y ∈ fromkeys l)); [|rewrite elem_of_app, list_elem_of_singleton]; naive_solver.
Qed.

Lemma NoDup_fromkeys {A} `{EqDecision A} (l : list A) : NoDup (fromkeys l).
Proof.
  induction l as [|x l IH] using rev_ind; [constructor|]. rewrite fromkeys_snoc. case_decide as Hx; [done|].
  apply list.NoDup_app. split_and!; [done| |apply NoDup_singleton]. intros y Hy ->%list_elem_of_singleton. done.
Qed.

Lemma fromkeys_nil {A} `{EqDecision A} (l : list A) : fromkeys l = [] <-> l = [].
Proof.
  split; [|by intros ->]. destruct l as [|x l]; [done|]. intros E.
  assert (x ∈ fromkeys (x :: l)) as H by (apply elem_of_fromkeys; by left). rewrite E in H. by apply not_elem_of_nil in H.
Qed.

Lemma fromkeys_prefix {A} `{EqDecision A} (l k : list A) : exists rest, fromkeys (l ++ k) = fromkeys l ++ rest
  /\ forall x, x ∈ rest -> x ∉ l.
Proof.
  induction k as [|x k IH] using rev_ind; [exists []; rewrite !app_nil_r; split; [done|intros x Hx; by apply not_elem_of_nil in Hx]|].
  destruct IH as (rest & E & Hr). rewrite app_assoc, fromkeys_snoc, E. case_decide as Hx; [eauto|].
  exists (rest ++ [x]). split; [by rewrite app_assoc|]. intros y Hy. apply elem_of_app in Hy as [Hy|Hy]; [auto|].
  apply list_elem_of_singleton in Hy as ->. rewrite elem_of_app, elem_of_fromkeys in Hx. tauto.
Qed.

(** ** Dictionaries *)

Section dict_lemmas.
Context {K V : Type} `{EqDecision K}.

Lemma dict_get_elem (d : list (K * V)) k v : dict_get d k = Some v -> (k, v) ∈ d.
Proof.
  induction d as [|[k' v'] d IH]; cbn [dict_get]; [done|]. case_decide as E; [intros [= ->]; subst; by left|]. right. auto.
Qed.

Lemma dict_get_is_Some (d : list (K * V)) k : is_Some (dict_get d k) <-> k ∈ map fst d.
Proof.
  induction d as [|[k' v'] d IH]; cbn [dict_get map fst].
  - rewrite elem_of_nil. split; [by intros [x Hx]|done].
  - rewrite elem_of_cons. case_decide as E; [subst; naive_solver|]. rewrite IH. naive_solver.
Qed.

(** A table computed from its keys. *)
Lemma dict_get_table (f : K -> V) (ks : list K) k : dict_get (map (fun k => (k, f k)) ks) k = if decide (k ∈ ks) then Some (f k) else None.
Proof.
  induction ks as [|k' ks IH]; cbn [map dict_get]; [by rewrite decide_False by apply not_elem_of_nil|].
  destruct (decide (k' = k)) as [->|Hne]; [by rewrite decide_True by by left|]. rewrite IH. clear IH.
  destruct (decide (k ∈ ks)) as [H|H]; [by rewrite decide_True by by right|].
  rewrite decide_False; [done|]. rewrite elem_of_cons. intros [->|]; done.
Qed.

(** [d\[k\] = v] *)
Fixpoint dict_set (d : list (K * V)) (k : K) (v : V) : list (K * V) :=
  match d with
  | [] => [(k, v)]
  | (key, w) :: rest => if decide (key = k) then (key, v) :: rest else (key, w) :: dict_set rest k v
  end.

Lemma dict_get_set (d : list (K * V)) k v k' : dict_get (dict_set d k v) k' = if decide (k = k') then Some v else dict_get d k'.
Proof.
  induction d as [|[key w] d IH]; cbn [dict_set dict_get]; [done|]. destruct (decide (key = k)) as [->|Hne]; cbn [dict_get].
  - by destruct (decide (k = k')).
  - destruct (decide (key = k')) as [->|]; [by rewrite decide_False|done].
Qed.

Lemma dict_set_new (d : list (K * V)) k v : dict_get d k = None -> dict_set d k v = d ++ [(k, v)].
Proof.
  induction d as [|[key w] d IH]; [done|]. cbn [dict_get dict_set app]. destruct (decide (key = k)); [done|]. intros E. by rewrite IH.
Qed.

Lemma dict_set_table (f : K -> V) (ks : list K) k v : NoDup ks -> k ∈ ks ->
  dict_set (map (fun x => (x, f x)) ks) k v = map (fun x => (x, if decide (x = k) then v else f x)) ks.
Proof.
  induction ks as [|x ks IH]; intros Hnd Hk; [by apply not_elem_of_nil in Hk|]. apply list.NoDup_cons in Hnd as [Hx Hnd]. cbn [map dict_set].
  destruct (decide (x = k)) as [->|Hne].
  - f_equal. apply map_ext_in. intros y Hy%list_elem_of_In. rewrite decide_False by congruence. done.
  - f_equal. apply IH; [done|]. by apply elem_of_cons in Hk as [->|Hk].
Qed.
End dict_lemmas.

(** ** Grouping *)

Section group.
Context {K V : Type} `{EqDecision K}.

(** [d\[k\].append(x)] of a [defaultdict(list)]. *)
Fixpoint dict_append (d : list (K * list V)) (k : K) (x : V) : list (K * list V) :=
  match d with
  | [] => [(k, [x])]
  | (key, l) :: rest => if decide (key = k) then (key, l ++ [x]) :: rest else (key, l) :: dict_append rest k x
  end.

(** The dictionary a loop builds from the keys of the elements. *)
Definition group_by (key : V -> K) (l : list V) : list (K * list V) :=
  foldl (fun d x => dict_append d (key x) x) [] l.

(** [d\[k\]] of a [defaultdict(list)]. *)
Definition group_get (d : list (K * list V)) (k : K) : list V := default [] (dict_get d k).

Lemma group_get_append d k x k' : group_get (dict_append d k x) k' = group_get d k' ++ (if decide (k = k') then [x] else []).
Proof.
  unfold group_get. induction d as [|[key l] d IH]; cbn [dict_append dict_get].
  { by destruct (decide (k = k')). }
  destruct (decide (key = k)) as [->|Hk]; cbn [dict_get].
  - destruct (decide (k = k')); cbn [default]; [done|by rewrite app_nil_r].
  - destruct (decide (key = k')) as [->|Hk']; [|exact IH]. cbn [default]. rewrite decide_False by congruence. by rewrite app_nil_r.
Qed.

Lemma group_get_by (key : V -> K) l k : group_get (group_by key l) k = List.filter (fun x => bool_decide (key x = k)) l.
Proof.
  unfold group_by. induction l as [|x l IH] using rev_ind; [done|]. rewrite foldl_app, List.filter_app. cbn [foldl].
  rewrite group_get_append, IH. f_equal. cbn [List.filter]. case_decide as E; [by rewrite bool_decide_true|by rewrite bool_decide_false].
Qed.
End group.
