(* ===== verification/SortedIndex.v ===== *)
(** Tables kept sorted by [bisect] and [insert], as the liquidity engine keeps
    its prices, its clusters and its heap of ages: insertion, removal, the part
    below or above a threshold; and computations that agree on results and on
    exceptions. *)
From Stdlib Require Import ZArith Lia Sorting.Sorted Sorting.Permutation.
From stdpp Require Import base list numbers sets sorting.
From S2P Require Import Prelude.

(** ** Agreement of two computations *)

(** Both return related results, or both raise the same exception. *)
Definition agree {A B} (R : A -> B -> Prop) (m : pyres A) (m' : pyres B) : Prop :=
  match m, m' with
  | Ok a, Ok b => R a b
  | Raise e, Raise e' => e = e'
  | _, _ => False
  end.

Lemma agree_bind {A B A' B'} (R : A -> A' -> Prop) (S : B -> B' -> Prop) m m' (f : A -> pyres B) f' :
  agree R m m' -> (forall a a', R a a' -> agree S (f a) (f' a')) -> agree S (m ≫= f) (m' ≫= f').
Proof. destruct m, m'; cbn; intros H Hf; try done; auto. Qed.

Lemma agree_fold {A S S'} (R : S -> S' -> Prop) (f : S -> A -> pyres S) (f' : S' -> A -> pyres S') l s s' :
  (forall s s' x, x ∈ l -> R s s' -> agree R (f s x) (f' s' x)) -> R s s' -> agree R (py_fold f s l) (py_fold f' s' l).
Proof.
  revert s s'. induction l as [|x l IH]; intros s s' H Hs; [done|]. cbn [py_fold].
  apply (agree_bind R); [apply H; [by left|done]|]. intros t t' Ht. apply IH; [|done]. intros; apply H; [by right|done].
Qed.

(** The relation may depend on what is still to come. *)
Lemma agree_fold_rest {A S S'} (R : list A -> S -> S' -> Prop) (f : S -> A -> pyres S) (f' : S' -> A -> pyres S') :
  (forall x l s s', R (x :: l) s s' -> agree (R l) (f s x) (f' s' x)) ->
  forall l s s', R l s s' -> agree (R []) (py_fold f s l) (py_fold f' s' l).
Proof.
  intros H l. induction l as [|x l IH]; intros s s' Hs; [done|]. cbn [py_fold].
  apply (agree_bind (R l)); [by apply H|]. intros t t'. apply IH.
Qed.

Lemma py_fold_omap {A B S} (f : S -> B -> pyres S) (g : A -> option B) l s :
  py_fold f s (omap g l) = py_fold (fun s x => match g x with Some y => f s y | None => Ok s end) s l.
Proof.
  revert s. induction l as [|x l IH]; intros s; [done|]. cbn [omap list_omap py_fold]. destruct (g x); [|apply IH].
  cbn [py_fold]. destruct (f s b); [apply IH|done].
Qed.

Lemma agree_eq {A} (m : pyres A) : agree eq m m.
Proof. by destruct m. Qed.

(** ** Searches in a part of a list *)

Lemma bsearch_ext fuel go go' lo hi : (forall i, (lo <= i < hi)%nat -> go i = go' i) -> bsearch fuel go lo hi = bsearch fuel go' lo hi.
Proof.
  revert lo hi. induction fuel as [|fuel IH]; intros lo hi H; [done|]. cbn [bsearch].
  destruct (Nat.ltb_spec lo hi); [|done]. pose proof (midpoint_range lo hi ltac:(lia)).
  rewrite H by lia. destruct (go' _); apply IH; intros; apply H; lia.
Qed.

(** A predicate downward closed from [lo] on. *)
Lemma bisect_mono_from {A} (go : A -> bool) (l : list A) lo :
  (lo <= length l)%nat ->
  (forall i j x y, (lo <= i <= j)%nat -> l !! i = Some x -> l !! j = Some y -> go y = true -> go x = true) ->
  let s := bisect go l lo (length l) in
  (lo <= s <= length l)%nat
  /\ (forall i x, (lo <= i < s)%nat -> l !! i = Some x -> go x = true)
  /\ (forall i x, (s <= i)%nat -> l !! i = Some x -> go x = false).
Proof.
  intros Hlo Hm s. split; [by apply bsearch_range|]. unfold s, bisect. clear s.
  destruct (bsearch_mono (length l - lo) (fun i => match l !! i with Some x => go x | None => false end) lo (length l))
    as [H1 H2]; [lia|done| |].
  - intros i j Hij Hj. destruct (lookup_lt_is_Some_2 l j Hj) as [y Hy].
    destruct (lookup_lt_is_Some_2 l i ltac:(lia)) as [x Hx]. rewrite Hx, Hy. by apply (Hm i j); [lia|..].
  - split; intros i x Hi Hx.
    + specialize (H1 i Hi). by rewrite Hx in H1.
    + pose proof (lookup_lt_Some _ _ _ Hx). specialize (H2 i ltac:(lia)). by rewrite Hx in H2.
Qed.

(** What a predicate selects, when it holds exactly on a slice. *)
Lemma filter_slice {A} (p : A -> bool) (l : list A) lo hi : (lo <= hi)%nat ->
  (forall i x, (lo <= i < hi)%nat -> l !! i = Some x -> p x = true) ->
  (forall i x, (i < lo \/ hi <= i)%nat -> l !! i = Some x -> p x = false) -> List.filter p l = slice l lo hi.
Proof.
  intros Hle Hin Hout. unfold slice.
  rewrite <-(take_drop lo l) at 1. rewrite <-(take_drop (hi - lo) (drop lo l)) at 1. rewrite !List.filter_app.
  rewrite (list_filter_none p (take lo l)), (list_filter_all p (take (hi - lo) _)), (list_filter_none p (drop (hi - lo) _)), app_nil_r; [done|..];
    intros x [i Hi]%list_elem_of_lookup.
  - rewrite !lookup_drop in Hi. apply (Hout (lo + (hi - lo + i))%nat); [lia|done].
  - apply lookup_take_Some in Hi as [Hi Hlt]. rewrite lookup_drop in Hi. apply (Hin (lo + i)%nat); [lia|done].
  - apply lookup_take_Some in Hi as [Hi Hlt]. apply (Hout i); [lia|done].
Qed.

(** Selected elements that form an interval around a point: two searches from
    the point find its ends. *)
Lemma two_searches {A} (below m : A -> bool) (l : list A) :
  (forall i j x y, (i <= j)%nat -> l !! i = Some x -> l !! j = Some y -> below y = true -> below x = true) ->
  (forall i j x y, (i <= j)%nat -> l !! i = Some x -> l !! j = Some y -> below y = true -> m x = true -> m y = true) ->
  (forall i j x y, (i <= j)%nat -> l !! i = Some x -> l !! j = Some y -> below x = false -> m y = true -> m x = true) ->
  slice l (bisect (fun x => negb (m x)) l 0 (bisect below l 0 (length l))) (bisect m l (bisect below l 0 (length l)) (length l))
  = List.filter m l.
Proof.
  intros Hbelow Hleft Hright. destruct (bisect_mono below l 0 ltac:(lia) Hbelow) as (Hs & Hb & Ha).
  set (split := bisect below l 0 (length l)) in *.
  assert (bisect (fun x => negb (m x)) l 0 split = bisect (fun x => negb (m x)) (take split l) 0 (length (take split l))) as ->.
  { rewrite length_take, (Nat.min_l split) by lia. apply bsearch_ext. intros i Hi. by rewrite lookup_take_lt by lia. }
  destruct (bisect_mono (fun x => negb (m x)) (take split l) 0 ltac:(lia)) as (Hr & F1 & F2).
  { intros i j x y Hij [Hi Hi']%lookup_take_Some [Hj Hj']%lookup_take_Some. rewrite !negb_true_iff, <-!not_true_iff_false.
    intros Hy Hx. apply Hy. apply (Hleft i j x y); try done. by apply (Hb j y); [lia|]. }
  set (first := bisect (fun x => negb (m x)) (take split l) 0 _) in *. rewrite length_take in Hr.
  destruct (bisect_mono_from m l split) as (Hl & L1 & L2); [lia| |].
  { intros i j x y Hij Hi Hj. apply (Hright i j); [lia|done..|]. by apply (Ha i x); [lia|]. }
  set (low := bisect m l split (length l)) in *. symmetry. apply filter_slice; [lia| |].
  - intros i x Hi Hx. destruct (decide (i < split)%nat) as [Hlt|Hge]; [|by apply (L1 i x); [lia|]].
    apply negb_false_iff, (F2 i x); [lia|]. by rewrite lookup_take_lt.
  - intros i x Hi Hx. destruct Hi as [Hi|Hi]; [|by apply (L2 i x)].
    apply negb_true_iff, (F1 i x); [lia|]. by rewrite lookup_take_lt by lia.
Qed.

(** ** Partial maps over an enumeration *)

Lemma omap_enumerate_sorted {A B} (f : nat * A -> option B) (key : B -> nat) (l : list A) :
  (forall i x y, f (i, x) = Some y -> key y = i) -> StronglySorted (fun x y => (key x < key y)%nat) (omap f (enumerate l)).
Proof.
  intros Hf. induction l as [|a l IH] using rev_ind; [constructor|]. rewrite enumerate_app, omap_app.
  apply StronglySorted_app. split_and!; [|done|].
  - intros x y Hx Hy. apply list_elem_of_omap in Hx as ([i b] & Hi & Hx), Hy as (? & ->%list_elem_of_singleton & Hy).
    apply elem_of_enumerate, lookup_lt_Some in Hi. apply Hf in Hx, Hy. lia.
  - cbn. destruct (f _); repeat constructor.
Qed.

Lemma omap_enumerate {A B} (h : A -> option B) (l : list A) : omap (fun e => h (snd e)) (enumerate l) = omap h l.
Proof. induction l as [|a l IH] using rev_ind; [done|]. rewrite enumerate_app, !omap_app, IH. cbn. by destruct (h a). Qed.

Lemma map_omap {A B C} (g : B -> C) (f : A -> option B) (l : list A) : map g (omap f l) = omap (fun x => g <$> f x) l.
Proof. induction l as [|a l IH]; [done|]. cbn. destruct (f a); cbn; by rewrite IH. Qed.

(** ** Strictly sorted tables *)

Section table.
Context {A : Type} (lt : A -> A -> bool) `{!StrictWeak lt}.

Definition table (l : list A) : Prop := StronglySorted (fun a b => lt a b = true) l.

Lemma table_lookup l i j a b : table l -> l !! i = Some a -> l !! j = Some b -> lt a b = true <-> (i < j)%nat.
Proof.
  intros Hl Hi Hj. destruct (lt_eq_lt_dec i j) as [[H | ->]|H].
  - split; [done|]. intros _. exact (sorted_lookup _ l Hl i j a b H Hi Hj).
  - assert (a = b) as -> by congruence. rewrite (sw_irrefl lt). split; [done|lia].
  - pose proof (sorted_lookup _ l Hl j i b a H Hj Hi) as Hba. cbn in Hba.
    split; [|lia]. intros Hab. apply sw_asym in Hab. by rewrite Hba in Hab.
Qed.

Lemma table_NoDup l : table l -> NoDup l.
Proof.
  intros Hl. apply NoDup_alt. intros i j a Hi Hj. destruct (lt_eq_lt_dec i j) as [[H|H]|H]; [|done|].
  - pose proof (proj2 (table_lookup l i j a a Hl Hi Hj) H) as E. by rewrite (sw_irrefl lt) in E.
  - pose proof (proj2 (table_lookup l j i a a Hl Hj Hi) H) as E. by rewrite (sw_irrefl lt) in E.
Qed.

Lemma table_app l x : table l -> (forall y, y ∈ l -> lt y x = true) -> table (l ++ [x]).
Proof.
  intros Hl Hx. apply StronglySorted_app. split_and!; [|done|by repeat constructor].
  intros a b Ha ->%list_elem_of_singleton. by apply Hx.
Qed.

Lemma table_filter (p : A -> bool) l : table l -> table (List.filter p l).
Proof.
  induction 1 as [|x l Hl IH Hx]; cbn; [constructor|]. destruct (p x); [|done]. constructor; [done|].
  apply Forall_forall. intros y Hy%list_elem_of_In. apply filter_In in Hy as [Hy%list_elem_of_In _].
  rewrite Forall_forall in Hx. by apply Hx.
Qed.

(** Two tables with the same elements are equal. *)
Lemma table_unique l l' : table l -> table l' -> (forall x, x ∈ l <-> x ∈ l') -> l = l'.
Proof.
  intros Hl Hl' Hin. apply (StronglySorted_unique_strong (fun a b => lt a b = true)); [|done|done|].
  - intros x y _ _ H1 H2. apply sw_asym in H1. by rewrite H2 in H1.
  - apply NoDup_Permutation; [by apply table_NoDup..|done].
Qed.

Lemma table_pos l x : table l -> x ∈ l ->
  exists i, l !! i = Some x /\ bisect (fun y => lt y x) l 0 (length l) = i.
Proof.
  intros Hl [i Hi]%list_elem_of_lookup. exists i. split; [done|].
  destruct (bisect_mono (fun y => lt y x) l 0) as (Hr & H1 & H2); [lia| |].
  { intros j k a b Hjk Ha Hb Hlt. apply (table_lookup l j i); [done..|].
    pose proof (proj1 (table_lookup l k i b x Hl Hb Hi) Hlt). lia. }
  set (s := bisect _ _ _ _) in *. destruct (lt_eq_lt_dec s i) as [[H|H]|H]; [|done|].
  - destruct (lookup_lt_is_Some_2 l s) as [y Hy]; [apply lookup_lt_Some in Hi; lia|].
    pose proof (proj2 (table_lookup l s i y x Hl Hy Hi) H). by rewrite (H2 s y) in *.
  - specialize (H1 i x ltac:(lia) Hi). by rewrite (sw_irrefl lt) in H1.
Qed.

(** Removing an element at the position [bisect_left] finds. *)
Lemma table_pop l x : table l -> x ∈ l -> let at_ := bisect (fun y => lt y x) l 0 (length l) in
  (at_ < length l)%nat /\ table (list_pop_at l at_) /\ (forall y, y ∈ list_pop_at l at_ <-> y ∈ l /\ y <> x)
  /\ Permutation l (x :: list_pop_at l at_).
Proof.
  intros Hl Hx. cbv zeta. destruct (table_pos l x Hl Hx) as (i & Hi & ->). unfold list_pop_at.
  pose proof (take_drop_middle l i x Hi) as El. pose proof (table_NoDup l Hl) as Hnd.
  assert (Permutation l (x :: take i l ++ drop (S i) l)) as Hp by (rewrite <-El at 1; symmetry; apply Permutation_middle).
  split; [by eapply lookup_lt_Some|]. split; [|split; [|exact Hp]].
  - rewrite <-El in Hl. apply StronglySorted_app in Hl as (H1 & H2 & H3%StronglySorted_inv).
    apply StronglySorted_app. split_and!; [|done|tauto]. intros a b Ha Hb. apply H1; [done|by right].
  - intros y. rewrite Hp in Hnd. apply NoDup_cons in Hnd as [Hnx _]. rewrite (elem_of_Permutation_proper y _ _ Hp), elem_of_cons.
    split; [intros H; split; [by right|by intros ->]|]. intros [[->|H] Hne]; done.
Qed.

(** The elements below a threshold are a prefix, the others a suffix. *)
Lemma table_split (go : A -> bool) l :
  (forall i j x y, (i <= j)%nat -> l !! i = Some x -> l !! j = Some y -> go y = true -> go x = true) ->
  let s := bisect go l 0 (length l) in
  take s l = List.filter go l /\ drop s l = List.filter (fun x => negb (go x)) l.
Proof.
  intros Hm s. destruct (bisect_mono go l 0 ltac:(lia) Hm) as (Hr & H1 & H2). fold s in Hr, H1, H2.
  assert (forall x, x ∈ take s l -> go x = true) as Ht.
  { intros x [i Hi]%list_elem_of_lookup. apply lookup_take_Some in Hi as [Hi Hlt]. by apply (H1 i x); [lia|]. }
  assert (forall x, x ∈ drop s l -> go x = false) as Hd.
  { intros x [i Hi]%list_elem_of_lookup. rewrite lookup_drop in Hi. by apply (H2 (s + i)%nat x); [lia|]. }
  rewrite <-(take_drop s l) at 2 4. rewrite !List.filter_app. split.
  - rewrite (list_filter_all go (take s l)), (list_filter_none go (drop s l)), app_nil_r by done. done.
  - rewrite (list_filter_none _ (take s l)), (list_filter_all _ (drop s l)); [done| |].
    + intros x Hx. by rewrite (Hd x Hx).
    + intros x Hx. by rewrite (Ht x Hx).
Qed.
End table.
