(* ===== verification/Decimal.v ===== *)
(** Finite decimal floating point as Python's [decimal] module computes it.

    A finite [Decimal] is [coef * 10^expo] with a signed coefficient (the sign
    of a zero, which no modelled code observes, is not kept).  Arithmetic in a
    context of precision [p] is the exact result rounded half-even to [p]
    significant digits; comparisons are exact.  The exponent limits of a
    context are not modelled: [Emax] and [Emin] are at least 999999 in
    every context of the program, so no overflow or underflow arises from
    market data.  The second part proves what the other files use: rounding is
    correct, monotone, exact on representable values and within half a unit in
    the last place, and each operation is the rounding of the exact result. *)
From Stdlib Require Import ZArith Lia QArith Qabs Qpower Lqa.
From stdpp Require Import base list strings numbers option.
From S2P Require Import Prelude.
Local Open Scope Z_scope.

Record dec := Dec { coef : Z; expo : Z }.

#[global] Instance dec_eqdec : EqDecision dec := ltac:(solve_decision).

(** Number of decimal digits of an integer, [1] for [0]. *)
Fixpoint digits_fuel (fuel : nat) (n : Z) : Z :=
  match fuel with
  | O => 1
  | S f => if n <? 10 then 1 else 1 + digits_fuel f (n / 10)
  end.

Definition ndigits (n : Z) : Z := digits_fuel (Z.to_nat (Z.log2 (Z.abs n))) (Z.abs n).

(** [Decimal.adjusted()] *)
Definition adjusted (a : dec) : Z := ndigits (coef a) + expo a - 1.

(** Exact comparison. *)
Definition align (a : dec) (e : Z) : Z := coef a * 10 ^ (expo a - e).

Definition dcompare (a b : dec) : comparison :=
  let e := Z.min (expo a) (expo b) in align a e ?= align b e.

Definition dltb (a b : dec) : bool := match dcompare a b with Lt => true | _ => false end.
Definition dleb (a b : dec) : bool := match dcompare a b with Gt => false | _ => true end.
Definition deqb (a b : dec) : bool := match dcompare a b with Eq => true | _ => false end.

(** Python's [max] and [min] return the first extremal argument. *)
Definition dmax (a b : dec) : dec := if dltb a b then b else a.
Definition dmin (a b : dec) : dec := if dltb b a then b else a.

Definition D (n : Z) : dec := Dec n 0.

(** Division of a non-negative integer by a positive one, half-even. *)
Definition div_half_even (n d : Z) : Z :=
  let q := n / d in
  let r := n mod d in
  if 2 * r <? d then q
  else if d <? 2 * r then q + 1
  else if Z.even q then q else q + 1.

(** Rounding to [p] digits ([Decimal._fix]). *)
Definition dround (p : Z) (a : dec) : dec :=
  let k := ndigits (coef a) - p in
  if k <=? 0 then a
  else
    let q := div_half_even (Z.abs (coef a)) (10 ^ k) in
    let s := Z.sgn (coef a) in
    if q =? 10 ^ p then Dec (s * 10 ^ (p - 1)) (expo a + k + 1)
    else Dec (s * q) (expo a + k).

Definition add_exact (a b : dec) : dec :=
  let e := Z.min (expo a) (expo b) in Dec (align a e + align b e) e.
Definition mul_exact (a b : dec) : dec := Dec (coef a * coef b) (expo a + expo b).
Definition dopp (a : dec) : dec := Dec (- coef a) (expo a).
Definition dabs_exact (a : dec) : dec := Dec (Z.abs (coef a)) (expo a).

Definition dadd (p : Z) (a b : dec) : dec := dround p (add_exact a b).
Definition dsub (p : Z) (a b : dec) : dec := dround p (add_exact a (dopp b)).
Definition dmul (p : Z) (a b : dec) : dec := dround p (mul_exact a b).
Definition dabs (p : Z) (a : dec) : dec := dround p (dabs_exact a).
Definition dneg (p : Z) (a : dec) : dec := dround p (dopp a).
Definition dplus (p : Z) (a : dec) : dec := dround p a.

(** Division ([Decimal.__truediv__] of [_pydecimal]): the quotient is computed to
    [p + 1] digits at least with a sticky last digit, or, when exact, with
    an exponent as near as possible to the ideal one. *)
Fixpoint strip_zeros (fuel : nat) (c e ideal : Z) : dec :=
  match fuel with
  | O => Dec c e
  | S f => if (e <? ideal) && (c mod 10 =? 0) then strip_zeros f (c / 10) (e + 1) ideal else Dec c e
  end.

(** The exact flag and the unrounded quotient digits. *)
Definition div_digits (p : Z) (a b : dec) : Z * Z * Z :=
  let n := Z.abs (coef a) in
  let d := Z.abs (coef b) in
  let shift := ndigits d - ndigits n + p + 1 in
  let num := if 0 <=? shift then n * 10 ^ shift else n in
  let den := if 0 <=? shift then d else d * 10 ^ (- shift) in
  (num / den, num mod den, expo a - expo b - shift).

Definition ddiv_unrounded (p : Z) (a b : dec) : dec :=
  if coef a =? 0 then Dec 0 (expo a - expo b)
  else
    let '(q, r, e) := div_digits p a b in
    let s := Z.sgn (coef a) * Z.sgn (coef b) in
    if r =? 0 then
      let x := strip_zeros (Z.to_nat (expo a - expo b - e)) q e (expo a - expo b) in
      Dec (s * coef x) (expo x)
    else Dec (s * (if q mod 5 =? 0 then q + 1 else q)) e.

(** The quotient, for a divisor the code has already found to be non-zero
    (the result for a zero divisor is arbitrary). *)
Definition ddiv (p : Z) (a b : dec) : dec := dround p (ddiv_unrounded p a b).

(** Division with Python's exceptions. *)
Definition ddiv_py (p : Z) (a b : dec) : pyres dec :=
  if coef b =? 0 then
    if coef a =? 0 then Raise (Exc "InvalidOperation" "0 / 0")
    else Raise (Exc "DivisionByZero" "x / 0")
  else Ok (ddiv p a b).

(** [a % b]: truncated remainder; [None] is [InvalidOperation] (a zero divisor,
    or an integer quotient of more than [p] digits). *)
Definition drem (p : Z) (a b : dec) : option dec :=
  if coef b =? 0 then None
  else
    let e := Z.min (expo a) (expo b) in
    if 10 ^ p <=? Z.abs (align a e) / Z.abs (align b e) then None
    else Some (dround p (Dec (Z.rem (align a e) (align b e)) e)).

(** [to_integral_value] with the three rounding modes the source uses. *)
Inductive rounding := ROUND_HALF_UP | ROUND_FLOOR | ROUND_CEILING.

Definition div_rounding (m : rounding) (n d : Z) : Z :=
  match m with
  | ROUND_FLOOR => n / d
  | ROUND_CEILING => - ((- n) / d)
  | ROUND_HALF_UP =>
      let q := Z.abs n / d in
      Z.sgn n * (if 2 * (Z.abs n mod d) <? d then q else q + 1)
  end.

Definition to_integral (m : rounding) (a : dec) : dec :=
  if 0 <=? expo a then a
  else Dec (div_rounding m (coef a) (10 ^ (- expo a))) 0.

(** [sum(l, start=Decimal(0))] *)
Definition dsum (p : Z) (l : list dec) : dec := foldl (dadd p) (D 0) l.

(** The precision of the default context. *)
Definition DEFAULT_PREC : Z := 28.

(** * The rational value of a decimal *)

Local Open Scope Q_scope.

Definition p10 (e : Z) : Q := Qpower 10 e.
Definition Qval (a : dec) : Q := inject_Z (coef a) * p10 (expo a).

Lemma p10_pos e : 0 < p10 e.
Proof. apply Qpower_0_lt. reflexivity. Qed.

Lemma p10_nz e : ~ p10 e == 0.
Proof. pose proof (p10_pos e). lra. Qed.

Lemma p10_add a b : p10 (a + b) == p10 a * p10 b.
Proof. apply Qpower_plus. discriminate. Qed.

Lemma p10_Z n : (0 <= n)%Z -> p10 n == inject_Z (10 ^ n).
Proof. intros. unfold p10. change 10 with (inject_Z 10). symmetry. by apply Zpower_Qpower. Qed.

Lemma p10_0 : p10 0 == 1.
Proof. reflexivity. Qed.

Lemma p10_sub a b : p10 (a - b) == p10 a / p10 b.
Proof.
  assert (p10 a == p10 (a - b) * p10 b) as ->.
  { rewrite <-p10_add. by replace (a - b + b)%Z with a by lia. }
  field. apply p10_nz.
Qed.

Lemma p10_le a b : (a <= b)%Z -> p10 a <= p10 b.
Proof.
  intros H. replace b with (a + (b - a))%Z by lia. rewrite p10_add, (p10_Z (b - a)) by lia.
  pose proof (p10_pos a).
  assert (1 <= inject_Z (10 ^ (b - a))).
  { change 1 with (inject_Z 1). rewrite <-Zle_Qle. pose proof (Z.pow_pos_nonneg 10 (b - a)). lia. }
  nra.
Qed.

Lemma Qval_align a e : (e <= expo a)%Z -> Qval a == inject_Z (align a e) * p10 e.
Proof.
  intros H. unfold Qval, align. rewrite inject_Z_mult, <-p10_Z by lia.
  rewrite <-Qmult_assoc, <-p10_add. by replace (expo a - e + e)%Z with (expo a) by lia.
Qed.

Lemma dcompare_Q a b : dcompare a b = (Qval a ?= Qval b).
Proof.
  unfold dcompare. set (e := Z.min (expo a) (expo b)).
  rewrite (Qval_align a e), (Qval_align b e) by lia.
  pose proof (p10_pos e).
  destruct (align a e ?= align b e)%Z eqn:E; symmetry.
  - apply Z.compare_eq in E. rewrite E. apply Qeq_alt. reflexivity.
  - rewrite Z.compare_lt_iff, Zlt_Qlt in E. rewrite <-Qlt_alt. nra.
  - rewrite Z.compare_gt_iff, Zlt_Qlt in E. rewrite <-Qgt_alt. nra.
Qed.

Lemma dltb_true a b : dltb a b = true <-> Qval a < Qval b.
Proof. unfold dltb. rewrite dcompare_Q, Qlt_alt. destruct (_ ?= _); split; congruence. Qed.
Lemma dltb_false a b : dltb a b = false <-> Qval b <= Qval a.
Proof.
  unfold dltb. rewrite dcompare_Q. destruct (Qcompare_spec (Qval a) (Qval b)); split; try done; lra.
Qed.
Lemma dleb_true a b : dleb a b = true <-> Qval a <= Qval b.
Proof.
  unfold dleb. rewrite dcompare_Q. destruct (Qcompare_spec (Qval a) (Qval b)); split; try done; lra.
Qed.
Lemma dleb_false a b : dleb a b = false <-> Qval b < Qval a.
Proof.
  unfold dleb. rewrite dcompare_Q. destruct (Qcompare_spec (Qval a) (Qval b)); split; try done; lra.
Qed.
Lemma deqb_true a b : deqb a b = true <-> Qval a == Qval b.
Proof.
  unfold deqb. rewrite dcompare_Q. destruct (Qcompare_spec (Qval a) (Qval b)); split; try done; lra.
Qed.
Lemma deqb_false a b : deqb a b = false <-> ~ Qval a == Qval b.
Proof.
  unfold deqb. rewrite dcompare_Q. destruct (Qcompare_spec (Qval a) (Qval b)); split; try done; lra.
Qed.

#[export] Instance dltb_sw : StrictWeak dltb.
Proof. constructor; intros *; rewrite ?dltb_true, ?dltb_false; lra. Qed.

(** Turning the boolean comparisons of the code into rational (in)equalities. *)
Create Rewrite HintDb dec_rw.
#[export] Hint Rewrite dltb_true dltb_false dleb_true dleb_false deqb_true deqb_false : dec_rw.

Ltac dec_to_Q := autorewrite with dec_rw in *.
Ltac dlra := dec_to_Q; lra.

(** Case analysis on a comparison of the goal or of a hypothesis. *)
Ltac case_dec :=
  match goal with
  | |- context [dltb ?a ?b] => let E := fresh "E" in destruct (dltb a b) eqn:E
  | |- context [dleb ?a ?b] => let E := fresh "E" in destruct (dleb a b) eqn:E
  | H : context [dltb ?a ?b] |- _ => let E := fresh "E" in destruct (dltb a b) eqn:E
  | H : context [dleb ?a ?b] |- _ => let E := fresh "E" in destruct (dleb a b) eqn:E
  end.

Lemma dmax_lub a b q : Qval (dmax a b) <= q <-> Qval a <= q /\ Qval b <= q.
Proof. unfold dmax. case_dec; dec_to_Q; lra. Qed.

Lemma dmax_ge a b : Qval a <= Qval (dmax a b) /\ Qval b <= Qval (dmax a b).
Proof. unfold dmax. case_dec; dec_to_Q; lra. Qed.

Lemma dmin_le a b : Qval (dmin a b) <= Qval a /\ Qval (dmin a b) <= Qval b.
Proof. unfold dmin. case_dec; dec_to_Q; lra. Qed.

Lemma Qval_D n : Qval (D n) == inject_Z n.
Proof. unfold Qval, D. cbn [coef expo]. rewrite p10_0. ring. Qed.

Lemma Qval_add_exact a b : Qval (add_exact a b) == Qval a + Qval b.
Proof.
  unfold add_exact. set (e := Z.min (expo a) (expo b)).
  rewrite (Qval_align a e), (Qval_align b e) by lia.
  unfold Qval. cbn [coef expo]. rewrite inject_Z_plus. ring.
Qed.

Lemma Qval_mul_exact a b : Qval (mul_exact a b) == Qval a * Qval b.
Proof. unfold Qval. cbn. rewrite inject_Z_mult, p10_add. ring. Qed.

Lemma Qval_dopp a : Qval (dopp a) == - Qval a.
Proof. unfold Qval. cbn. rewrite inject_Z_opp. ring. Qed.

Lemma Qval_sgn a : (0 < Qval a <-> (0 < coef a)%Z) /\ (Qval a < 0 <-> (coef a < 0)%Z)
  /\ (Qval a == 0 <-> coef a = 0%Z).
Proof.
  unfold Qval. pose proof (p10_pos (expo a)).
  assert (forall x, (0 < x)%Z -> 0 < inject_Z x) as Hp by (intros x; by rewrite Zlt_Qlt).
  assert (forall x, (x < 0)%Z -> inject_Z x < 0) as Hn by (intros x; by rewrite Zlt_Qlt).
  destruct (Ztrichotomy (coef a) 0) as [L|[L|L]].
  - specialize (Hn _ L). repeat split; intros; try lia; try (exfalso; nra); nra.
  - rewrite L. assert (inject_Z 0 * p10 (expo a) == 0) as -> by ring.
    repeat split; intros; try lia; try (exfalso; lra); lra.
  - apply Z.gt_lt in L. specialize (Hp _ L). repeat split; intros; try lia; try (exfalso; nra); nra.
Qed.

Lemma Qval_pos a : 0 < Qval a <-> (0 < coef a)%Z.
Proof. apply Qval_sgn. Qed.
Lemma Qval_zero a : Qval a == 0 <-> coef a = 0%Z.
Proof. apply Qval_sgn. Qed.

Lemma Qval_dabs_exact a : Qval (dabs_exact a) == Qabs (Qval a).
Proof.
  unfold Qval, dabs_exact. cbn [coef expo].
  rewrite Qabs_Qmult, (Qabs_pos (p10 _)) by (pose proof (p10_pos (expo a)); lra). reflexivity.
Qed.

(** * Rounding is correct *)

Lemma digits_fuel_spec fuel n :
  (0 < n)%Z -> (n < 2 ^ (Z.of_nat fuel + 1))%Z ->
  (1 <= digits_fuel fuel n /\ 10 ^ (digits_fuel fuel n - 1) <= n < 10 ^ digits_fuel fuel n)%Z.
Proof.
  revert n; induction fuel as [|f IH]; intros n Hn Hf; cbn [digits_fuel].
  - change (2 ^ (Z.of_nat 0 + 1))%Z with 2%Z in Hf. cbn. lia.
  - destruct (Z.ltb_spec n 10) as [L|L]; [cbn; lia|].
    assert (0 < n / 10)%Z by (apply Z.div_str_pos; lia).
    assert (n / 10 < 2 ^ (Z.of_nat f + 1))%Z as Hf'.
    { apply Z.div_lt_upper_bound; [lia|].
      replace (Z.of_nat (S f) + 1)%Z with (Z.succ (Z.of_nat f + 1)) in Hf by lia.
      rewrite Z.pow_succ_r in Hf by lia. lia. }
    destruct (IH _ H Hf') as (H1 & H2 & H3). set (d := digits_fuel f (n / 10)) in *.
    pose proof (Z.div_mod n 10 ltac:(lia)). pose proof (Z.mod_pos_bound n 10 ltac:(lia)).
    replace (1 + d - 1)%Z with (Z.succ (d - 1)) by lia. replace (1 + d)%Z with (Z.succ d) by lia.
    rewrite !Z.pow_succ_r by lia. lia.
Qed.

Lemma ndigits_spec n : n <> 0%Z ->
  (1 <= ndigits n /\ 10 ^ (ndigits n - 1) <= Z.abs n < 10 ^ ndigits n)%Z.
Proof.
  intros H. unfold ndigits. apply digits_fuel_spec; [lia|].
  rewrite Z2Nat.id by apply Z.log2_nonneg.
  pose proof (Z.log2_spec (Z.abs n) ltac:(lia)). unfold Z.succ in *. lia.
Qed.

(** [N] is a nearest integer to [q], the even one of two. *)
Definition nearest_even (N : Z) (q : Q) : Prop :=
  inject_Z N - (1#2) <= q <= inject_Z N + (1#2)
  /\ (q == inject_Z N - (1#2) \/ q == inject_Z N + (1#2) -> Z.even N = true).

Lemma nearest_even_compat N q q' : q == q' -> nearest_even N q -> nearest_even N q'.
Proof.
  intros E [H1 H2]. split; [lra|]. intros [H|H]; apply H2; [left|right]; by rewrite E.
Qed.

#[export] Instance nearest_even_proper : Proper (eq ==> Qeq ==> iff) nearest_even.
Proof. intros N ? <- q q' E. split; apply nearest_even_compat; [|symmetry]; done. Qed.

Lemma nearest_even_opp N q : nearest_even N q -> nearest_even (- N) (- q).
Proof.
  intros [H1 H2]. unfold nearest_even. rewrite inject_Z_opp, Z.even_opp.
  split; [lra|]. intros [H|H]; apply H2; [right|left]; lra.
Qed.

Lemma nearest_even_Z N : nearest_even N (inject_Z N).
Proof. split; [lra|]. intros [H|H]; lra. Qed.

Lemma inject_Z_le1 a b : (a < b)%Z -> inject_Z a + 1 <= inject_Z b.
Proof. intros. change 1 with (inject_Z 1). rewrite <-inject_Z_plus, <-Zle_Qle. lia. Qed.

Lemma nearest_even_mono N N' q q' : nearest_even N q -> nearest_even N' q' -> q <= q' -> (N <= N')%Z.
Proof.
  intros [H1 H2] [H3 H4] Hq. destruct (Z.le_gt_cases N N') as [|L]; [done|exfalso].
  pose proof (inject_Z_le1 _ _ L).
  assert (q == inject_Z N - (1#2)) as E1 by lra. assert (q' == inject_Z N' + (1#2)) as E2 by lra.
  specialize (H2 (or_introl E1)). specialize (H4 (or_intror E2)).
  destruct (Z.eq_dec N (N' + 1)%Z) as [->|Hne].
  - rewrite Z.add_1_r, Z.even_succ, <-Z.negb_even, H4 in H2. done.
  - assert (inject_Z (N' + 1) + 1 <= inject_Z N) as HH by (apply inject_Z_le1; lia).
    rewrite inject_Z_plus in HH. change (inject_Z 1) with 1 in HH. lra.
Qed.

Lemma div_half_even_spec n d : (0 < d)%Z ->
  nearest_even (div_half_even n d) (inject_Z n / inject_Z d).
Proof.
  intros Hd. unfold div_half_even.
  pose proof (Z.div_mod n d ltac:(lia)) as E. pose proof (Z.mod_pos_bound n d Hd) as B.
  set (q := (n / d)%Z) in *. set (r := (n mod d)%Z) in *.
  assert (0 < inject_Z d) as Hd' by (rewrite Zlt_Qlt in Hd; exact Hd).
  assert (inject_Z n / inject_Z d == inject_Z q + inject_Z r / inject_Z d) as Eq.
  { rewrite E, inject_Z_plus, inject_Z_mult. field. lra. }
  set (t := inject_Z r / inject_Z d) in *.
  assert (inject_Z r == t * inject_Z d) as Et by (unfold t; field; lra).
  assert (inject_Z (2 * r) == 2 * inject_Z r) as E2 by (rewrite inject_Z_mult; reflexivity).
  assert (0 <= inject_Z r) as Hr0 by (change 0 with (inject_Z 0); rewrite <-Zle_Qle; lia).
  assert (inject_Z r < inject_Z d) as Hr1 by (rewrite <-Zlt_Qlt; lia).
  assert (0 <= t) by nra. assert (t < 1) by nra.
  apply (nearest_even_compat _ (inject_Z q + t)); [by rewrite Eq|].
  assert (inject_Z (q + 1) == inject_Z q + 1) as Eq1 by (rewrite inject_Z_plus; reflexivity).
  destruct (Z.ltb_spec (2 * r) d) as [L|L].
  { rewrite Zlt_Qlt in L. assert (t < 1#2) by nra. split; [lra|]. intros [?|?]; lra. }
  rewrite Zle_Qle in L.
  destruct (Z.ltb_spec d (2 * r)) as [L'|L'].
  { rewrite Zlt_Qlt in L'. assert (1#2 < t) by nra. split; [lra|]. intros [?|?]; lra. }
  rewrite Zle_Qle in L'. assert (t == 1#2) as Ht by nra.
  destruct (Z.even q) eqn:Ev; (split; [lra|]); intros _; [done|].
  by rewrite Z.add_1_r, Z.even_succ, <-Z.negb_even, Ev.
Qed.

(** [r] is [q] rounded half-even to [p] significant digits: [10^g] is the unit
    in the last place of [q]. *)
Definition rounds_to (p : Z) (q r : Q) : Prop :=
  (q == 0 /\ r == 0) \/
  exists g N, p10 (p - 1) <= Qabs q / p10 g < p10 p
    /\ nearest_even N (q / p10 g) /\ r == inject_Z N * p10 g.

Lemma rounds_to_compat p q q' r r' : q == q' -> r == r' -> rounds_to p q r -> rounds_to p q' r'.
Proof.
  intros Eq Er [[H1 H2]|(g & N & H1 & H2 & H3)]; [left; lra|right].
  exists g, N. split; [by rewrite <-Eq|]. split; [|by rewrite <-Er].
  apply (nearest_even_compat _ (q / p10 g)); [by rewrite Eq | done].
Qed.

#[export] Instance rounds_to_proper : Proper (eq ==> Qeq ==> Qeq ==> iff) rounds_to.
Proof. intros p ? <- q q' Eq r r' Er. split; apply rounds_to_compat; try done; by symmetry. Qed.

Lemma Qabs_Qval a : Qabs (Qval a) == inject_Z (Z.abs (coef a)) * p10 (expo a).
Proof. rewrite <-(Qval_dabs_exact a). reflexivity. Qed.

Lemma ndigits_Q n : n <> 0%Z ->
  p10 (ndigits n - 1) <= inject_Z (Z.abs n) /\ inject_Z (Z.abs n) < p10 (ndigits n).
Proof.
  intros H. destruct (ndigits_spec n H) as (H1 & H2 & H3).
  rewrite !p10_Z by lia. rewrite <-Zle_Qle, <-Zlt_Qlt. done.
Qed.

(** The unit in the last place of a non-zero decimal in precision [p]. *)
Lemma ulp_bounds p a : coef a <> 0%Z ->
  let g := (expo a + (ndigits (coef a) - p))%Z in
  p10 (p - 1) <= Qabs (Qval a) / p10 g < p10 p.
Proof.
  intros Hc g. destruct (ndigits_Q _ Hc) as [H1 H2]. set (d := ndigits (coef a)) in *.
  assert (Qabs (Qval a) / p10 g == inject_Z (Z.abs (coef a)) * p10 (p - d)) as ->.
  { rewrite Qabs_Qval. unfold Qdiv. rewrite <-Qmult_assoc.
    assert (p10 (expo a) * / p10 g == p10 (p - d)) as ->; [|reflexivity].
    change (p10 (expo a) / p10 g == p10 (p - d)). rewrite <-p10_sub.
    unfold g. by replace (expo a - (expo a + (d - p)))%Z with (p - d)%Z by lia. }
  pose proof (p10_pos (p - d)).
  assert (p10 (p - 1) == p10 (d - 1) * p10 (p - d)) as ->.
  { rewrite <-p10_add. by replace (d - 1 + (p - d))%Z with (p - 1)%Z by lia. }
  assert (p10 p == p10 d * p10 (p - d)) as ->.
  { rewrite <-p10_add. by replace (d + (p - d))%Z with p by lia. }
  nra.
Qed.

Lemma Zsgn_half_even n d : (0 < d)%Z ->
  nearest_even (Z.sgn n * div_half_even (Z.abs n) d) (inject_Z n / inject_Z d).
Proof.
  intros Hd. pose proof (div_half_even_spec (Z.abs n) d Hd) as H.
  destruct (Z.lt_trichotomy n 0) as [L|[->|L]].
  - rewrite Z.sgn_neg by lia. replace (-1 * div_half_even (Z.abs n) d)%Z
      with (- div_half_even (Z.abs n) d)%Z by lia.
    apply nearest_even_opp in H. eapply nearest_even_compat; [|exact H].
    replace (Z.abs n) with (- n)%Z by lia. rewrite inject_Z_opp. field.
    rewrite Zlt_Qlt in Hd. change (inject_Z 0) with 0 in Hd. lra.
  - eapply nearest_even_compat; [|apply (nearest_even_Z 0)]. field.
    rewrite Zlt_Qlt in Hd. change (inject_Z 0) with 0 in Hd. lra.
  - rewrite Z.sgn_pos by lia. rewrite Z.mul_1_l. by replace n with (Z.abs n) at 2 by lia.
Qed.

(** Context rounding rounds correctly. *)
Lemma dround_spec p a : (1 <= p)%Z -> rounds_to p (Qval a) (Qval (dround p a)).
Proof.
  intros Hp. destruct (Z.eq_dec (coef a) 0%Z) as [Hc|Hc].
  { left. assert (Qval a == 0) as E by by apply Qval_zero. split; [done|].
    unfold dround. rewrite Hc. change (ndigits 0) with 1%Z.
    destruct (Z.leb_spec (1 - p)%Z 0%Z); [done|lia]. }
  right. pose proof (ulp_bounds p a Hc) as Hb. cbv zeta in Hb.
  set (k := (ndigits (coef a) - p)%Z) in *.
  assert (Qval a / p10 (expo a + k) == inject_Z (coef a) * p10 (- k)) as Eu.
  { unfold Qval, Qdiv. rewrite <-Qmult_assoc.
    assert (p10 (expo a) * / p10 (expo a + k) == p10 (- k)) as ->; [|reflexivity].
    change (p10 (expo a) / p10 (expo a + k) == p10 (- k)). rewrite <-p10_sub.
    by replace (expo a - (expo a + k))%Z with (- k)%Z by lia. }
  unfold dround. fold k. destruct (Z.leb_spec k 0%Z) as [L|L].
  - exists (expo a + k)%Z, (coef a * 10 ^ (- k))%Z. split; [done|]. rewrite inject_Z_mult, <-p10_Z by lia.
    split.
    + eapply nearest_even_compat; [|apply nearest_even_Z]. rewrite Eu, inject_Z_mult, <-p10_Z by lia.
      reflexivity.
    + unfold Qval. rewrite <-Qmult_assoc, <-p10_add. by replace (- k + (expo a + k))%Z with (expo a) by lia.
  - set (q := div_half_even (Z.abs (coef a)) (10 ^ k)).
    exists (expo a + k)%Z, (Z.sgn (coef a) * q)%Z. split; [done|]. split.
    + eapply nearest_even_compat; [|apply Zsgn_half_even; lia].
      rewrite Eu. unfold Qdiv. replace (- k)%Z with (0 - k)%Z by lia.
      rewrite p10_sub, p10_0, p10_Z by lia. field. rewrite <-p10_Z by lia. apply p10_nz.
    + destruct (Z.eqb_spec q (10 ^ p)%Z) as [->|]; unfold Qval; cbn [coef expo].
      * rewrite !inject_Z_mult, <-!p10_Z by lia. rewrite <-!Qmult_assoc, <-!p10_add.
        by replace (p - 1 + (expo a + k + 1))%Z with (p + (expo a + k))%Z by lia.
      * reflexivity.
Qed.

Lemma rounds_to_opp p q r : rounds_to p q r -> rounds_to p (- q) (- r).
Proof.
  intros [[H1 H2]|(g & N & H1 & H2 & H3)]; [left; lra|right].
  exists g, (- N)%Z. split; [by rewrite Qabs_opp|]. split.
  - eapply nearest_even_compat; [|apply nearest_even_opp, H2]. field. apply p10_nz.
  - rewrite H3, inject_Z_opp. ring.
Qed.

Lemma rounds_to_pos p q r : (1 <= p)%Z -> 0 < q -> rounds_to p q r ->
  exists g N, p10 (p - 1 + g) <= q /\ q < p10 (p + g)
    /\ nearest_even N (q / p10 g) /\ r == inject_Z N * p10 g
    /\ p10 (p - 1 + g) <= r /\ r <= p10 (p + g).
Proof.
  intros Hp Hq [[H1 H2]|(g & N & [H1 H1'] & H2 & H3)]; [lra|].
  rewrite Qabs_pos in H1, H1' by lra. pose proof (p10_pos g) as Hg.
  assert (q == q / p10 g * p10 g) as Eq by (field; lra).
  exists g, N. rewrite !p10_add.
  assert ((10 ^ (p - 1) <= N)%Z) as HN.
  { eapply nearest_even_mono; [apply nearest_even_Z|exact H2|]. by rewrite <-p10_Z by lia. }
  assert ((N <= 10 ^ p)%Z) as HN'.
  { eapply nearest_even_mono; [exact H2|apply nearest_even_Z|]. rewrite <-p10_Z by lia. lra. }
  rewrite Zle_Qle, <-p10_Z in HN, HN' by lia.
  repeat split; try assumption; try (apply H2); try nra; rewrite H3; nra.
Qed.

Lemma rounds_to_sign p q r : (1 <= p)%Z -> rounds_to p q r ->
  (0 < q -> 0 < r) /\ (q == 0 -> r == 0) /\ (q < 0 -> r < 0).
Proof.
  intros Hp H. repeat split; intros Hq.
  - destruct (rounds_to_pos _ _ _ Hp Hq H) as (g & N & _ & _ & _ & _ & Hr & _).
    pose proof (p10_pos (p - 1 + g)). lra.
  - destruct H as [[_ H]|(g & N & [H1 _] & _)]; [done|exfalso]. rewrite Hq in H1.
    pose proof (p10_pos (p - 1)). change (Qabs 0) with 0 in H1. unfold Qdiv in H1. lra.
  - apply rounds_to_opp in H. assert (0 < - q) as Hq' by lra.
    destruct (rounds_to_pos _ _ _ Hp Hq' H) as (g & N & _ & _ & _ & _ & Hr & _).
    pose proof (p10_pos (p - 1 + g)). lra.
Qed.

Lemma rounds_to_mono_pos p q q' r r' : (1 <= p)%Z -> 0 < q -> q <= q' ->
  rounds_to p q r -> rounds_to p q' r' -> r <= r'.
Proof.
  intros Hp Hq Hqq H H'.
  destruct (rounds_to_pos _ _ _ Hp Hq H) as (g & N & A1 & A2 & A3 & A4 & A5 & A6).
  assert (0 < q') as Hq' by lra.
  destruct (rounds_to_pos _ _ _ Hp Hq' H') as (g' & N' & B1 & B2 & B3 & B4 & B5 & B6).
  destruct (Z.lt_trichotomy g g') as [L|[->|L]].
  - pose proof (p10_le (p + g) (p - 1 + g') ltac:(lia)). lra.
  - assert ((N <= N')%Z) as HN.
    { eapply nearest_even_mono; [exact A3|exact B3|]. apply Qmult_le_compat_r; [done|].
      apply Qinv_le_0_compat. pose proof (p10_pos g'). lra. }
    rewrite Zle_Qle in HN. pose proof (p10_pos g'). rewrite A4, B4. nra.
  - pose proof (p10_le (p + g') (p - 1 + g) ltac:(lia)). lra.
Qed.

Lemma rounds_to_mono p q q' r r' : (1 <= p)%Z -> q <= q' ->
  rounds_to p q r -> rounds_to p q' r' -> r <= r'.
Proof.
  intros Hp Hqq H H'.
  pose proof (rounds_to_sign _ _ _ Hp H) as (S1 & S2 & S3).
  pose proof (rounds_to_sign _ _ _ Hp H') as (T1 & T2 & T3).
  destruct (Qlt_le_dec 0 q) as [L|L]; [eauto using rounds_to_mono_pos|].
  destruct (Qlt_le_dec q' 0) as [L'|L'].
  - apply rounds_to_opp in H, H'.
    enough (- r' <= - r) by lra. eapply (rounds_to_mono_pos p (- q') (- q)); eauto; lra.
  - assert (r <= 0) by (destruct (Qlt_le_dec q 0); [apply Qlt_le_weak; auto | rewrite S2; lra]).
    assert (0 <= r') by (destruct (Qlt_le_dec 0 q'); [apply Qlt_le_weak; auto | rewrite T2; lra]).
    lra.
Qed.

Lemma dround_mono p a b : (1 <= p)%Z -> Qval a <= Qval b -> Qval (dround p a) <= Qval (dround p b).
Proof. intros Hp H. eapply rounds_to_mono; eauto using dround_spec. Qed.

Lemma dround_compat p a b : (1 <= p)%Z -> Qval a == Qval b -> Qval (dround p a) == Qval (dround p b).
Proof. intros Hp H. apply Qle_antisym; apply dround_mono; auto; lra. Qed.

Lemma dround_sign p a : (1 <= p)%Z ->
  (0 < Qval a -> 0 < Qval (dround p a)) /\ (Qval a == 0 -> Qval (dround p a) == 0)
  /\ (Qval a < 0 -> Qval (dround p a) < 0).
Proof. intros Hp. eapply rounds_to_sign; eauto using dround_spec. Qed.

(** A coefficient of at most [p] digits is left as it is. *)
Lemma dround_exact p a : (1 <= p)%Z -> (Z.abs (coef a) < 10 ^ p)%Z -> dround p a = a.
Proof.
  intros Hp H. unfold dround. destruct (Z.leb_spec (ndigits (coef a) - p)%Z 0%Z) as [|L]; [done|].
  destruct (Z.eq_dec (coef a) 0%Z) as [E|E].
  - rewrite E in L. change (ndigits 0) with 1%Z in L. lia.
  - destruct (ndigits_spec _ E) as (_ & H1 & _).
    pose proof (Z.pow_le_mono_r 10 p (ndigits (coef a) - 1)). lia.
Qed.

Lemma dround_le_exact p a b : (1 <= p)%Z -> (Z.abs (coef b) < 10 ^ p)%Z ->
  Qval a <= Qval b -> Qval (dround p a) <= Qval b.
Proof. intros Hp Hb H. rewrite <-(dround_exact p b) by done. by apply dround_mono. Qed.

Lemma dround_ge_exact p a b : (1 <= p)%Z -> (Z.abs (coef b) < 10 ^ p)%Z ->
  Qval b <= Qval a -> Qval b <= Qval (dround p a).
Proof. intros Hp Hb H. rewrite <-(dround_exact p b) by done. by apply dround_mono. Qed.

(** Half a unit in the last place of error, as a relative bound. *)
Lemma dround_error p a : (1 <= p)%Z ->
  Qabs (Qval (dround p a) - Qval a) <= (1#2) * p10 (1 - p) * Qabs (Qval a).
Proof.
  intros Hp. destruct (dround_spec p a Hp) as [[H1 H2]|(g & N & [H1 _] & [H2 _] & H3)].
  { rewrite H1, H2. pose proof (p10_pos (1 - p)). change (Qabs (0 - 0)) with 0.
    change (Qabs 0) with 0. lra. }
  pose proof (p10_pos g) as Hg. pose proof (p10_pos (1 - p)) as Hp'.
  assert (p10 (p - 1) * p10 (1 - p) == 1) as E1.
  { rewrite <-p10_add. replace (p - 1 + (1 - p))%Z with 0%Z by lia. apply p10_0. }
  assert (Qval a == Qval a / p10 g * p10 g) as Ea by (field; lra).
  assert (Qabs (Qval a) == Qabs (Qval a) / p10 g * p10 g) as Eb by (field; lra).
  set (u := Qval a / p10 g) in *. set (v := Qabs (Qval a) / p10 g) in *.
  assert (1 <= v * p10 (1 - p)) by nra.
  assert (p10 g <= p10 (1 - p) * Qabs (Qval a)) by (rewrite Eb; nra).
  apply Qabs_Qle_condition. rewrite H3. split; nra.
Qed.

(** * Division is correctly rounded *)

Lemma Qdiv_le_iff a b c : 0 < c -> (a / c <= b <-> a <= b * c).
Proof.
  intros Hc. assert (a == a / c * c) as E by (field; lra). split; intros H; [rewrite E; nra|].
  rewrite E in H. nra.
Qed.
Lemma Qdiv_ge_iff a b c : 0 < c -> (b <= a / c <-> b * c <= a).
Proof.
  intros Hc. assert (a == a / c * c) as E by (field; lra). split; intros H; [rewrite E; nra|].
  rewrite E in H. nra.
Qed.
Lemma Qdiv_lt_iff a b c : 0 < c -> (a / c < b <-> a < b * c).
Proof.
  intros Hc. assert (a == a / c * c) as E by (field; lra). split; intros H; [rewrite E; nra|].
  rewrite E in H. nra.
Qed.
Lemma Qdiv_gt_iff a b c : 0 < c -> (b < a / c <-> b * c < a).
Proof.
  intros Hc. assert (a == a / c * c) as E by (field; lra). split; intros H; [rewrite E; nra|].
  rewrite E in H. nra.
Qed.

Definition sticky (q : Z) : Z := if (q mod 5 =? 0)%Z then (q + 1)%Z else q.

Lemma sticky_mod5 q : (sticky q mod 5 <> 0)%Z.
Proof.
  unfold sticky. destruct (Z.eqb_spec (q mod 5)%Z 0%Z) as [E|]; [|done].
  rewrite Z.add_mod, E by lia. done.
Qed.

Lemma sticky_cases q : sticky q = q \/ sticky q = (q + 1)%Z.
Proof. unfold sticky. destruct (_ =? _)%Z; auto. Qed.

Lemma not_mult5 c x : (c mod 5 <> 0)%Z -> c <> (5 * x)%Z.
Proof. intros H ->. apply H. rewrite Z.mul_comm. apply Z.mod_mul. lia. Qed.

(** A truncated quotient of more than [p] digits with a sticky last digit
    rounds like the exact quotient. *)
Lemma sticky_rounds_pos p q t e r : (1 <= p)%Z -> (10 ^ p <= q)%Z ->
  inject_Z q < t -> t < inject_Z (q + 1) ->
  rounds_to p (inject_Z (sticky q) * p10 e) r -> rounds_to p (t * p10 e) r.
Proof.
  intros Hp Hq Ht1 Ht2 H. set (c := sticky q) in *.
  pose proof (sticky_mod5 q) as H5. fold c in H5.
  assert (q <= c <= q + 1)%Z as Hc by (unfold c; destruct (sticky_cases q) as [-> | ->]; lia).
  assert (0 < 10 ^ p)%Z by (apply Z.pow_pos_nonneg; lia).
  pose proof (p10_pos e) as He.
  assert (0 < inject_Z c) as Hc0 by (change 0 with (inject_Z 0); rewrite <-Zlt_Qlt; lia).
  destruct (rounds_to_pos p _ r Hp (Qmult_lt_0_compat _ _ Hc0 He) H) as (g & N & A1 & A2 & A3 & A4 & _ & _).
  assert (e < g)%Z as Hge.
  { destruct (Z.lt_ge_cases e g) as [|L]; [done|exfalso].
    pose proof (p10_le (p + g) (p + e) ltac:(lia)) as B. rewrite (p10_add p e), (p10_Z p) in B by lia.
    assert (inject_Z (10 ^ p) <= inject_Z c) by (rewrite <-Zle_Qle; lia). nra. }
  set (M' := (10 ^ (g - e - 1))%Z). assert (0 < M')%Z as HM' by (apply Z.pow_pos_nonneg; lia).
  assert (p10 g == inject_Z (10 * M') * p10 e) as Eg.
  { unfold M'. rewrite <-Z.pow_succ_r by lia. replace (Z.succ (g - e - 1)) with (g - e)%Z by lia.
    rewrite <-p10_Z, <-p10_add by lia. by replace (g - e + e)%Z with g by lia. }
  assert (0 < inject_Z (10 * M')) as HM by (change 0 with (inject_Z 0); rewrite <-Zlt_Qlt; lia).
  assert (forall x, x * p10 e / p10 g == x / inject_Z (10 * M')) as Ex.
  { intros x. rewrite Eg. field. split; lra. }
  (* the integer facts *)
  assert (10 ^ (p - 1) * (10 * M') <= c < 10 ^ p * (10 * M'))%Z as [B1 B2].
  { rewrite p10_add, (p10_Z (p - 1)), Eg in A1 by lia. rewrite p10_add, (p10_Z p), Eg in A2 by lia.
    rewrite Zle_Qle, Zlt_Qlt, !(inject_Z_mult (10 ^ _)). split; nra. }
  destruct A3 as [[A3 A3'] _].
  rewrite Ex in A3, A3'.
  rewrite Qdiv_ge_iff in A3 by done. rewrite Qdiv_le_iff in A3' by done.
  assert (5 * (M' * (2 * N - 1)) <= c /\ c <= 5 * (M' * (2 * N + 1)))%Z as [C1 C2].
  { rewrite !Zle_Qle. unfold Z.sub.
    rewrite !inject_Z_mult, !inject_Z_plus, inject_Z_opp, !inject_Z_mult.
    rewrite inject_Z_mult in A3, A3'. change (inject_Z 10) with 10 in *.
    change (inject_Z 5) with 5. change (inject_Z 2) with 2. change (inject_Z 1) with 1. lra. }
  pose proof (not_mult5 c (M' * (2 * N - 1)) H5). pose proof (not_mult5 c (M' * (2 * N + 1)) H5).
  assert (5 * (M' * (2 * N - 1)) <= q /\ q + 1 <= 5 * (M' * (2 * N + 1)))%Z as [D1 D2] by lia.
  assert (10 ^ (p - 1) * (10 * M') <= q /\ q + 1 <= 10 ^ p * (10 * M'))%Z as [D3 D4].
  { pose proof (not_mult5 c (10 ^ (p - 1) * (2 * M')) H5). lia. }
  assert (0 < t) as Ht0.
  { assert (0 <= inject_Z q) by (change 0 with (inject_Z 0); rewrite <-Zle_Qle; lia). lra. }
  right. exists g, N. rewrite Qabs_pos by nra. rewrite !Ex. repeat split.
  - rewrite Qdiv_ge_iff, p10_Z, <-inject_Z_mult by (done || lia). rewrite Zle_Qle in D3. lra.
  - rewrite Qdiv_lt_iff, p10_Z, <-inject_Z_mult by (done || lia). rewrite Zle_Qle in D4. lra.
  - rewrite Qdiv_ge_iff by done. rewrite Zle_Qle in D1. unfold Z.sub in D1.
    rewrite !inject_Z_mult, inject_Z_plus, inject_Z_opp, inject_Z_mult in D1.
    change (inject_Z 5) with 5 in D1. change (inject_Z 2) with 2 in D1. change (inject_Z 1) with 1 in D1.
    rewrite inject_Z_mult. change (inject_Z 10) with 10. lra.
  - rewrite Qdiv_le_iff by done. rewrite Zle_Qle in D2.
    rewrite !inject_Z_mult, !inject_Z_plus, inject_Z_mult in D2. rewrite inject_Z_plus in Ht2.
    change (inject_Z 5) with 5 in D2. change (inject_Z 2) with 2 in D2. change (inject_Z 1) with 1 in *.
    rewrite inject_Z_mult. change (inject_Z 10) with 10. lra.
  - intros T. exfalso.
    rewrite Zle_Qle in D1, D2. unfold Z.sub in D1.
    rewrite !inject_Z_mult, inject_Z_plus, ?inject_Z_opp, inject_Z_mult in D1.
    rewrite !inject_Z_mult, !inject_Z_plus, inject_Z_mult in D2. rewrite inject_Z_plus in Ht2.
    change (inject_Z 5) with 5 in *. change (inject_Z 2) with 2 in *. change (inject_Z 1) with 1 in *.
    assert (t == t / inject_Z (10 * M') * inject_Z (10 * M')) as Et by (field; lra).
    rewrite inject_Z_mult in Et, T, HM. change (inject_Z 10) with 10 in *.
    destruct T as [T|T]; rewrite T in Et; lra.
  - exact A4.
Qed.

Lemma strip_zeros_val fuel c e i : Qval (strip_zeros fuel c e i) == inject_Z c * p10 e.
Proof.
  revert c e; induction fuel as [|f IH]; intros c e; cbn [strip_zeros]; [reflexivity|].
  destruct ((e <? i)%Z && (c mod 10 =? 0)%Z) eqn:E; [|reflexivity].
  apply andb_true_iff in E as [_ E]. apply Z.eqb_eq in E.
  rewrite IH, p10_add. rewrite (Z.div_mod c 10) at 2 by lia. rewrite E, Z.add_0_r, inject_Z_mult.
  change (p10 1) with 10. change (inject_Z 10) with 10. ring.
Qed.

(** The scaled integer quotient has more than [p] digits, and the exponent
    accounts for the scaling. *)
Lemma div_digits_spec p a b q r e : (1 <= p)%Z -> coef a <> 0%Z -> coef b <> 0%Z ->
  div_digits p a b = (q, r, e) ->
  exists num den, (0 < den /\ num = den * q + r /\ 0 <= r < den /\ 10 ^ p <= q)%Z
    /\ Qabs (Qval a) / Qabs (Qval b) == inject_Z num / inject_Z den * p10 e.
Proof.
  intros Hp Ha Hb. unfold div_digits.
  set (n := Z.abs (coef a)). set (d := Z.abs (coef b)).
  assert (0 < n /\ 0 < d)%Z as [Hn Hd] by lia.
  destruct (ndigits_spec n ltac:(lia)) as (N1 & N2 & _).
  destruct (ndigits_spec d ltac:(lia)) as (D1 & _ & D3).
  rewrite (Z.abs_eq n) in N2 by lia. rewrite (Z.abs_eq d) in D3 by lia.
  set (shift := (ndigits d - ndigits n + p + 1)%Z).
  set (num := if (0 <=? shift)%Z then (n * 10 ^ shift)%Z else n).
  set (den := if (0 <=? shift)%Z then d else (d * 10 ^ (- shift))%Z).
  intros [= <- <- <-]. exists num, den.
  assert (0 < den)%Z as Hden.
  { unfold den. destruct (Z.leb_spec 0 shift); [done|]. apply Z.mul_pos_pos; [done|].
    apply Z.pow_pos_nonneg; lia. }
  assert (10 ^ p * den <= num)%Z as Hbig.
  { unfold num, den. destruct (Z.leb_spec 0 shift).
    - assert (10 ^ (ndigits n - 1) * 10 ^ shift = 10 ^ p * 10 ^ ndigits d)%Z as E.
      { rewrite <-!Z.pow_add_r by lia. f_equal. lia. }
      pose proof (Z.pow_pos_nonneg 10 shift). pose proof (Z.pow_pos_nonneg 10 p). nia.
    - assert (10 ^ p * (10 ^ ndigits d * 10 ^ (- shift)) = 10 ^ (ndigits n - 1))%Z as E.
      { rewrite <-!Z.pow_add_r by lia. f_equal. lia. }
      pose proof (Z.pow_pos_nonneg 10 (- shift)). pose proof (Z.pow_pos_nonneg 10 p).
      assert (d * 10 ^ (- shift) <= 10 ^ ndigits d * 10 ^ (- shift))%Z by nia. nia. }
  split.
  - pose proof (Z.div_mod num den ltac:(lia)). pose proof (Z.mod_pos_bound num den Hden).
    split; [done|]. split; [done|]. split; [done|]. apply Z.div_le_lower_bound; [done|]. lia.
  - rewrite !Qabs_Qval. fold n d.
    assert (0 < inject_Z d) by (change 0 with (inject_Z 0); rewrite <-Zlt_Qlt; lia).
    pose proof (p10_pos (expo b)).
    rewrite p10_sub, (p10_sub (expo a) (expo b)).
    unfold num, den. destruct (Z.leb_spec 0 shift).
    + rewrite inject_Z_mult, <-p10_Z by lia. pose proof (p10_pos shift). field. lra.
    + rewrite inject_Z_mult, <-p10_Z by lia. replace (- shift)%Z with (0 - shift)%Z by lia.
      rewrite p10_sub, p10_0. pose proof (p10_pos shift). field. lra.
Qed.

Lemma Qval_abs_sgn a : Qval a == inject_Z (Z.sgn (coef a)) * Qabs (Qval a).
Proof.
  rewrite Qabs_Qval. unfold Qval. rewrite Qmult_assoc, <-inject_Z_mult.
  by replace (Z.sgn (coef a) * Z.abs (coef a))%Z with (coef a) by lia.
Qed.

Lemma Qdiv_sgn x y A B sa sb : x == inject_Z sa * A -> y == inject_Z sb * B ->
  sb = 1%Z \/ sb = (-1)%Z -> ~ B == 0 -> x / y == inject_Z (sa * sb) * (A / B).
Proof.
  intros -> -> [-> | ->] HB; rewrite inject_Z_mult;
    [change (inject_Z 1) with 1 | change (inject_Z (-1)) with (-(1))]; field; lra.
Qed.

(** [a / b] is the exact quotient rounded half-even to [p] digits. *)
Lemma ddiv_spec p a b : (1 <= p)%Z -> coef b <> 0%Z ->
  rounds_to p (Qval a / Qval b) (Qval (ddiv p a b)).
Proof.
  intros Hp Hb. unfold ddiv, ddiv_unrounded.
  destruct (Z.eqb_spec (coef a) 0%Z) as [Ha|Ha].
  { left. apply Qval_zero in Ha as Ha'. rewrite Ha'. split; [reflexivity|].
    apply dround_sign; [done|]. by apply Qval_zero. }
  destruct (div_digits p a b) as [[q r] e] eqn:Ed.
  destruct (div_digits_spec _ _ _ _ _ _ Hp Ha Hb Ed) as (num & den & (Hden & Hnum & Hr & Hq) & Eq).
  set (s := (Z.sgn (coef a) * Z.sgn (coef b))%Z).
  assert (Qval a / Qval b == inject_Z s * (inject_Z num / inject_Z den * p10 e)) as ->.
  { rewrite <-Eq. apply Qdiv_sgn; auto using Qval_abs_sgn; [lia|].
    rewrite Qabs_Qval. pose proof (p10_pos (expo b)).
    assert (0 < inject_Z (Z.abs (coef b))) by (change 0 with (inject_Z 0); rewrite <-Zlt_Qlt; lia). nra. }
  assert (0 < inject_Z den) as Hden' by (change 0 with (inject_Z 0); rewrite <-Zlt_Qlt; lia).
  destruct (Z.eqb_spec r 0%Z) as [Er|Er].
  - eapply rounds_to_proper; [reflexivity| |reflexivity|apply dround_spec; done].
    unfold Qval at 1. cbn [coef expo]. rewrite inject_Z_mult, <-Qmult_assoc.
    change (inject_Z s * (inject_Z num / inject_Z den * p10 e) ==
      inject_Z s * Qval (strip_zeros (Z.to_nat (expo a - expo b - e)) q e (expo a - expo b))).
    rewrite strip_zeros_val, Hnum, Er, Z.add_0_r, inject_Z_mult. field. lra.
  - assert (inject_Z num / inject_Z den == inject_Z q + inject_Z r / inject_Z den) as Et.
    { rewrite Hnum, inject_Z_plus, inject_Z_mult. field. lra. }
    assert (0 < inject_Z r /\ inject_Z r < inject_Z den) as [R1 R2].
    { change 0 with (inject_Z 0). rewrite <-!Zlt_Qlt. lia. }
    assert (0 < inject_Z r / inject_Z den) as R3 by (rewrite Qdiv_gt_iff by done; lra).
    assert (inject_Z r / inject_Z den < 1) as R4 by (rewrite Qdiv_lt_iff by done; lra).
    pose proof (dround_spec p (Dec (s * sticky q) e) Hp) as H.
    unfold Qval at 1 in H. cbn [coef expo] in H. rewrite inject_Z_mult, <-Qmult_assoc in H.
    fold (sticky q). set (y := Qval (dround p (Dec (s * sticky q) e))) in *.
    assert (forall z, rounds_to p (inject_Z (sticky q) * p10 e) z ->
              rounds_to p (inject_Z num / inject_Z den * p10 e) z) as Hst.
    { intros z. apply sticky_rounds_pos; [done|done|lra|].
      rewrite inject_Z_plus. change (inject_Z 1) with 1. lra. }
    assert (s = 1 \/ s = -1)%Z as [-> | ->] by (unfold s; lia).
    + change (inject_Z 1) with 1 in *. rewrite Qmult_1_l in *. auto.
    + change (inject_Z (-1)) with (-(1)) in *.
      apply rounds_to_opp in H. 
      assert (rounds_to p (inject_Z num / inject_Z den * p10 e) (- y)) as H'.
      { apply Hst. eapply rounds_to_proper; [reflexivity| |reflexivity|exact H]. ring. }
      apply rounds_to_opp in H'.
      eapply rounds_to_proper; [reflexivity| | |exact H']; ring.
Qed.

(** * Facts the engines use *)

(** A context precision. *)
Class ValidPrec (p : Z) : Prop := valid_prec : (1 <= p)%Z.
#[export] Instance default_prec_valid : ValidPrec DEFAULT_PREC.
Proof. unfold ValidPrec, DEFAULT_PREC. lia. Qed.

Section operations.
Context {p : Z} `{VP : !ValidPrec p}.

Lemma dadd_rounds a b : rounds_to p (Qval a + Qval b) (Qval (dadd p a b)).
Proof. rewrite <-Qval_add_exact. by apply dround_spec. Qed.

Lemma dsub_rounds a b : rounds_to p (Qval a - Qval b) (Qval (dsub p a b)).
Proof.
  assert (Qval a - Qval b == Qval (add_exact a (dopp b))) as ->.
  { rewrite Qval_add_exact, Qval_dopp. ring. }
  by apply dround_spec.
Qed.

Lemma dmul_rounds a b : rounds_to p (Qval a * Qval b) (Qval (dmul p a b)).
Proof. rewrite <-Qval_mul_exact. by apply dround_spec. Qed.

Lemma ddiv_rounds a b : ~ Qval b == 0 -> rounds_to p (Qval a / Qval b) (Qval (ddiv p a b)).
Proof. intros H. apply ddiv_spec; [done|]. by rewrite <-Qval_zero. Qed.

Lemma dabs_rounds a : rounds_to p (Qabs (Qval a)) (Qval (dabs p a)).
Proof. rewrite <-Qval_dabs_exact. by apply dround_spec. Qed.

Lemma rounds_sign q r : rounds_to p q r ->
  (0 < q <-> 0 < r) /\ (q == 0 <-> r == 0) /\ (q < 0 <-> r < 0).
Proof.
  intros H. destruct (rounds_to_sign p q r VP H) as (H1 & H2 & H3).
  destruct (Q_dec q 0) as [[L|L]|L]; repeat split; intros ?; auto; try lra;
    try (specialize (H1 L)); try (specialize (H2 L)); try (specialize (H3 L)); lra.
Qed.

(** [a - b] has the sign of the comparison of [a] and [b]. *)
Lemma dsub_sign a b :
  (0 < Qval (dsub p a b) <-> Qval b < Qval a)
  /\ (Qval (dsub p a b) == 0 <-> Qval a == Qval b)
  /\ (Qval (dsub p a b) < 0 <-> Qval a < Qval b).
Proof.
  destruct (rounds_sign _ _ (dsub_rounds a b)) as (H1 & H2 & H3).
  rewrite <-H1, <-H2, <-H3. repeat split; intros; lra.
Qed.

Lemma dsub_pos a b : 0 < Qval (dsub p a b) <-> Qval b < Qval a.
Proof. apply dsub_sign. Qed.

Lemma dsub_nonneg a b : 0 <= Qval (dsub p a b) <-> Qval b <= Qval a.
Proof. pose proof (dsub_sign a b) as (_ & _ & H). split; intros; apply Qnot_lt_le; intros L; apply H in L; lra. Qed.

Lemma dadd_nonneg a b : 0 <= Qval a -> 0 <= Qval b -> 0 <= Qval (dadd p a b).
Proof.
  intros. destruct (rounds_sign _ _ (dadd_rounds a b)) as (_ & _ & H3).
  apply Qnot_lt_le. rewrite <-H3. lra.
Qed.

Lemma dadd_pos a b : 0 < Qval a -> 0 <= Qval b -> 0 < Qval (dadd p a b).
Proof. intros. apply (rounds_sign _ _ (dadd_rounds a b)). lra. Qed.

Lemma dmul_nonneg a b : 0 <= Qval a -> 0 <= Qval b -> 0 <= Qval (dmul p a b).
Proof.
  intros. destruct (rounds_sign _ _ (dmul_rounds a b)) as (_ & _ & H3).
  apply Qnot_lt_le. rewrite <-H3. nra.
Qed.

Lemma dmul_pos a b : 0 < Qval a -> 0 < Qval b -> 0 < Qval (dmul p a b).
Proof. intros. apply (rounds_sign _ _ (dmul_rounds a b)). nra. Qed.

Lemma ddiv_pos a b : 0 < Qval b -> (0 < Qval (ddiv p a b) <-> 0 < Qval a).
Proof.
  intros Hb. assert (~ Qval b == 0) as Hnz by lra.
  destruct (rounds_sign _ _ (ddiv_rounds a b Hnz)) as (H1 & _). rewrite <-H1, Qdiv_gt_iff by done.
  split; intros; lra.
Qed.

Lemma ddiv_nonneg a b : 0 < Qval b -> 0 <= Qval a -> 0 <= Qval (ddiv p a b).
Proof.
  intros Hb Ha. assert (~ Qval b == 0) as Hnz by lra.
  destruct (rounds_sign _ _ (ddiv_rounds a b Hnz)) as (_ & _ & H3). apply Qnot_lt_le. rewrite <-H3.
  rewrite Qdiv_lt_iff by done. lra.
Qed.

Lemma dabs_nonneg a : 0 <= Qval (dabs p a).
Proof.
  destruct (rounds_sign _ _ (dabs_rounds a)) as (_ & _ & H3). apply Qnot_lt_le. rewrite <-H3.
  pose proof (Qabs_nonneg (Qval a)). lra.
Qed.

Lemma dabs_pos a : ~ Qval a == 0 -> 0 < Qval (dabs p a).
Proof.
  intros H. apply (rounds_sign _ _ (dabs_rounds a)).
  destruct (Qlt_le_dec (Qval a) 0); [rewrite Qabs_neg|rewrite Qabs_pos]; lra.
Qed.

(** Monotonicity. *)
Lemma dadd_mono a b a' b' : Qval a <= Qval a' -> Qval b <= Qval b' ->
  Qval (dadd p a b) <= Qval (dadd p a' b').
Proof. intros. eapply rounds_to_mono; [exact VP| |apply dadd_rounds..]. lra. Qed.

Lemma dsub_mono a b a' b' : Qval a <= Qval a' -> Qval b' <= Qval b ->
  Qval (dsub p a b) <= Qval (dsub p a' b').
Proof. intros. eapply rounds_to_mono; [exact VP| |apply dsub_rounds..]. lra. Qed.

(** A quotient of at most one stays at most one. *)
Lemma ddiv_le_1 a b : 0 < Qval b -> Qval a <= Qval b -> Qval (ddiv p a b) <= 1.
Proof.
  intros Hb Hab. assert (~ Qval b == 0) as Hnz by lra.
  assert (Qval (dround p (D 1)) == 1) as E.
  { rewrite dround_exact; [apply Qval_D|exact VP|]. cbn [coef D].
    pose proof (Z.pow_gt_1 10 p). unfold ValidPrec in VP. lia. }
  rewrite <-E. eapply rounds_to_mono; [exact VP| |apply ddiv_rounds; done|apply dround_spec; done].
  rewrite Qval_D. change (inject_Z 1) with 1. rewrite Qdiv_le_iff by done. lra.
Qed.

Lemma dsum_nonneg_from s l : 0 <= Qval s -> Forall (fun x => 0 <= Qval x) l ->
  0 <= Qval (foldl (dadd p) s l).
Proof.
  intros Hs Hl. revert s Hs. induction Hl as [|x l Hx _ IH]; intros s Hs; cbn; [done|].
  apply IH. by apply dadd_nonneg.
Qed.

Lemma dsum_nonneg l : Forall (fun x => 0 <= Qval x) l -> 0 <= Qval (dsum p l).
Proof. apply dsum_nonneg_from. rewrite Qval_D. discriminate. Qed.
End operations.

(** Integral rounding stays within one unit, on the side its mode says. *)
Lemma Qval_fraction a : (expo a < 0)%Z -> Qval a == inject_Z (coef a) / inject_Z (10 ^ (- expo a)).
Proof.
  intros H. unfold Qval. rewrite <-p10_Z by lia.
  assert (p10 (expo a) == / p10 (- expo a)) as ->; [|reflexivity].
  pose proof (p10_nz (- expo a)). pose proof (p10_add (expo a) (- expo a)) as E.
  rewrite Z.add_opp_diag_r, p10_0 in E. field_simplify_eq; [|done]. lra.
Qed.

Lemma to_integral_floor a :
  Qval (to_integral ROUND_FLOOR a) <= Qval a /\ Qval a < Qval (to_integral ROUND_FLOOR a) + 1.
Proof.
  unfold to_integral. destruct (Z.leb_spec 0 (expo a)) as [H|H]; [lra|].
  rewrite (Qval_fraction a H). unfold div_rounding. fold (D (coef a / 10 ^ (- expo a))).
  rewrite Qval_D. set (d := (10 ^ (- expo a))%Z). assert (0 < d)%Z as Hd by (apply Z.pow_pos_nonneg; lia).
  assert (0 < inject_Z d) by (change 0 with (inject_Z 0); by rewrite <-Zlt_Qlt).
  rewrite Qdiv_ge_iff, Qdiv_lt_iff by done. change 1 with (inject_Z 1).
  rewrite <-inject_Z_plus, <-!inject_Z_mult, <-Zle_Qle, <-Zlt_Qlt.
  pose proof (Z.div_mod (coef a) d). pose proof (Z.mod_pos_bound (coef a) d Hd). split; nia.
Qed.

Lemma to_integral_ceiling a :
  Qval a <= Qval (to_integral ROUND_CEILING a) /\ Qval (to_integral ROUND_CEILING a) < Qval a + 1.
Proof.
  destruct (to_integral_floor (dopp a)) as [H1 H2]. rewrite Qval_dopp in H1, H2.
  assert (Qval (to_integral ROUND_CEILING a) == - Qval (to_integral ROUND_FLOOR (dopp a))) as ->; [|lra].
  unfold to_integral, dopp. cbn [expo coef]. destruct (0 <=? expo a)%Z.
  - rewrite (Qval_dopp a). ring.
  - unfold div_rounding. fold (D (- (- coef a / 10 ^ (- expo a)))) (D (- coef a / 10 ^ (- expo a))).
    rewrite !Qval_D, inject_Z_opp. reflexivity.
Qed.

Lemma ddiv_py_ok p a b : ~ Qval b == 0 -> ddiv_py p a b = Ok (ddiv p a b).
Proof.
  rewrite Qval_zero. intros H. unfold ddiv_py. by destruct (Z.eqb_spec (coef b) 0).
Qed.

Lemma deqb_refl a : deqb a a = true.
Proof. apply deqb_true. reflexivity. Qed.

(** ** Decimals that a context represents *)

Definition fits (p : Z) (a : dec) : Prop := (Z.abs (coef a) < 10 ^ p)%Z.

Lemma fits_dmin p a b : fits p a -> fits p b -> fits p (dmin a b).
Proof. intros. unfold dmin. by destruct (dltb b a). Qed.
Lemma fits_dmax p a b : fits p a -> fits p b -> fits p (dmax a b).
Proof. intros. unfold dmax. by destruct (dltb a b). Qed.

Lemma dround_fits p a : (1 <= p)%Z -> fits p (dround p a).
Proof.
  intros Hp. unfold fits, dround. set (k := (ndigits (coef a) - p)%Z).
  destruct (Z.eq_dec (coef a) 0%Z) as [Hc|Hc].
  { destruct (Z.leb_spec k 0); [rewrite Hc; cbn; pose proof (Z.pow_pos_nonneg 10 p); lia|].
    unfold k in *. rewrite Hc in *. change (ndigits 0) with 1%Z in *. lia. }
  destruct (ndigits_spec _ Hc) as (H1 & H2 & H3).
  destruct (Z.leb_spec k 0) as [L|L].
  { pose proof (Z.pow_le_mono_r 10 (ndigits (coef a)) p). lia. }
  assert (10 ^ ndigits (coef a) = 10 ^ p * 10 ^ k)%Z as Hpow.
  { rewrite <-Z.pow_add_r by lia. f_equal. lia. }
  assert (0 < 10 ^ k)%Z by (apply Z.pow_pos_nonneg; lia).
  set (q := div_half_even (Z.abs (coef a)) (10 ^ k)).
  assert (0 <= q <= 10 ^ p)%Z as Hq.
  { unfold q, div_half_even. pose proof (Z.div_mod (Z.abs (coef a)) (10 ^ k)).
    pose proof (Z.mod_pos_bound (Z.abs (coef a)) (10 ^ k)).
    assert (Z.abs (coef a) / 10 ^ k < 10 ^ p)%Z by (apply Z.div_lt_upper_bound; lia).
    assert (0 <= Z.abs (coef a) / 10 ^ k)%Z by (apply Z.div_pos; lia).
    repeat case_match; lia. }
  destruct (Z.eqb_spec q (10 ^ p)); cbn [coef].
  - assert (10 ^ p = 10 * 10 ^ (p - 1))%Z by (rewrite <-Z.pow_succ_r by lia; f_equal; lia).
    assert (0 < 10 ^ (p - 1))%Z by (apply Z.pow_pos_nonneg; lia). destruct (coef a); cbn; lia.
  - destruct (coef a); cbn; lia.
Qed.

Section fits.
Context {p : Z} `{VP : !ValidPrec p}.

Lemma dadd_fits a b : fits p (dadd p a b). Proof. by apply dround_fits. Qed.
Lemma dsub_fits a b : fits p (dsub p a b). Proof. by apply dround_fits. Qed.
Lemma dabs_fits a : fits p (dabs p a). Proof. by apply dround_fits. Qed.
Lemma ddiv_fits a b : fits p (ddiv p a b). Proof. by apply dround_fits. Qed.

Lemma dabs_val a : fits p a -> Qval (dabs p a) == Qabs (Qval a).
Proof.
  intros H. unfold dabs. rewrite dround_exact; [apply Qval_dabs_exact|exact VP|].
  unfold fits in H. cbn. by rewrite Z.abs_idemp.
Qed.

(** Subtracting a cost never raises, adding one never lowers. *)
Lemma dsub_le a b : fits p a -> 0 <= Qval b -> Qval (dsub p a b) <= Qval a.
Proof.
  intros H Hb. apply dround_le_exact; [exact VP|done|]. rewrite Qval_add_exact, Qval_dopp. lra.
Qed.

Lemma dadd_ge a b : fits p a -> 0 <= Qval b -> Qval a <= Qval (dadd p a b).
Proof. intros H Hb. apply dround_ge_exact; [exact VP|done|]. rewrite Qval_add_exact. lra. Qed.

(** A sum or difference whose value the context represents is exact. *)
Lemma dadd_exact a b c : fits p c -> Qval a + Qval b == Qval c -> Qval (dadd p a b) == Qval c.
Proof.
  intros Hc H. rewrite <-(dround_exact p c VP Hc). apply dround_compat; [exact VP|].
  by rewrite Qval_add_exact.
Qed.

Lemma dsub_exact a b c : fits p c -> Qval a - Qval b == Qval c -> Qval (dsub p a b) == Qval c.
Proof.
  intros Hc H. rewrite <-(dround_exact p c VP Hc). apply dround_compat; [exact VP|].
  rewrite Qval_add_exact, Qval_dopp. lra.
Qed.

(** A quotient between two representable values is rounded between them. *)
Lemma ddiv_between a b lo hi : fits p lo -> fits p hi -> ~ Qval b == 0 ->
  Qval lo <= Qval a / Qval b -> Qval a / Qval b <= Qval hi -> Qval lo <= Qval (ddiv p a b) /\ Qval (ddiv p a b) <= Qval hi.
Proof.
  intros Hlo Hhi Hb H1 H2. pose proof (ddiv_rounds (p := p) a b Hb) as Hr.
  pose proof (dround_spec p lo VP) as Rlo. pose proof (dround_spec p hi VP) as Rhi.
  split.
  - rewrite <-(dround_exact p lo VP Hlo). exact (rounds_to_mono p _ _ _ _ VP H1 Rlo Hr).
  - rewrite <-(dround_exact p hi VP Hhi). exact (rounds_to_mono p _ _ _ _ VP H2 Hr Rhi).
Qed.
End fits.

Create HintDb dec.
#[export] Hint Resolve dmul_nonneg dadd_nonneg dabs_nonneg dmul_pos : dec.
