(* ===== verification/Time.v ===== *)
(** Instants, UTC serialisation and timeframes: [core/time.py],
    [schemas/types.py] and [market_data/timeframes.py].

    A [UtcDateTime] is the number of microseconds since the Unix epoch and a
    [timedelta] a number of microseconds.  [isoformat] is the text Python's
    [datetime.isoformat] prints for a UTC instant of the years 1 to 9999;
    [canonical_utc_iso_inj] shows that it identifies the instant, which is what
    the string identifiers of the engines rely on. *)
From Stdlib Require Import ZArith Lia Ascii String.
From stdpp Require Import base list strings numbers.
From S2P Require Import Prelude.
Local Open Scope Z_scope.

Definition US_PER_SECOND : Z := 1000000.
Definition US_PER_DAY : Z := 86400 * US_PER_SECOND.

Abbreviation datetime := Z (only parsing).
Abbreviation timedelta := Z (only parsing).

(** ** Civil dates *)

(** (year, month, day) of a day number relative to 1970-01-01, proleptic
    Gregorian: eras of 400 years starting on March 1st. *)
Definition civil_of_doe (doe : Z) : Z * Z * Z :=
  let yoe := (doe - doe / 1460 + doe / 36524 - doe / 146096) / 365 in
  let doy := doe - (365 * yoe + yoe / 4 - yoe / 100) in
  let mp := (5 * doy + 2) / 153 in
  let d := doy - (153 * mp + 2) / 5 + 1 in
  let m := if mp <? 10 then mp + 3 else mp - 9 in
  (if m <=? 2 then yoe + 1 else yoe, m, d).

Definition civil_from_days (z0 : Z) : Z * Z * Z :=
  let z := z0 + 719468 in
  let era := z / 146097 in
  let '(y, m, d) := civil_of_doe (z mod 146097) in
  (y + era * 400, m, d).

Definition doe_of_civil (yoe m d : Z) : Z :=
  let mp := if 2 <? m then m - 3 else m + 9 in
  yoe * 365 + yoe / 4 - yoe / 100 + (153 * mp + 2) / 5 + d - 1.

Definition days_from_civil (y m d : Z) : Z :=
  let y' := if m <=? 2 then y - 1 else y in
  (y' / 400) * 146097 + doe_of_civil (y' mod 400) m d - 719468.

(** ** Text *)

Definition digit (n : Z) : ascii := ascii_of_nat (48 + Z.to_nat (n mod 10)).

(** The last [w] decimal digits of [n], zero padded. *)
Fixpoint padded (w : nat) (n : Z) : string :=
  match w with
  | O => EmptyString
  | S w' => padded w' (n / 10) +:+ String (digit n) EmptyString
  end.

(** [isoformat()] of a UTC instant without its offset. *)
Definition iso_naive (t : datetime) : string :=
  let day := t / US_PER_DAY in
  let us := t mod US_PER_DAY in
  let '(y, m, d) := civil_from_days day in
  let secs := us / US_PER_SECOND in
  let frac := us mod US_PER_SECOND in
  padded 4 y +:+ "-" +:+ padded 2 m +:+ "-" +:+ padded 2 d +:+ "T"
  +:+ padded 2 (secs / 3600) +:+ ":" +:+ padded 2 (secs / 60 mod 60) +:+ ":"
  +:+ padded 2 (secs mod 60)
  +:+ (if frac =? 0 then EmptyString else "." +:+ padded 6 frac).

Definition isoformat (t : datetime) : string := iso_naive t +:+ "+00:00".

(** [isoformat().replace("+00:00", "Z")]: the offset is the only occurrence. *)
Definition canonical_utc_iso (t : datetime) : string := iso_naive t +:+ "Z".

(** ** Timeframes *)

Module Timeframe.
Inductive Timeframe :=
| ONE_MINUTE | THREE_MINUTES | FIVE_MINUTES | FIFTEEN_MINUTES | THIRTY_MINUTES
| ONE_HOUR | TWO_HOURS | FOUR_HOURS | ONE_DAY | ONE_WEEK.
#[global] Instance Timeframe_eqdec : EqDecision Timeframe := ltac:(solve_decision).
End Timeframe.
Abbreviation Timeframe := Timeframe.Timeframe.

Definition minutes (n : Z) : timedelta := n * 60 * US_PER_SECOND.

(** [TIMEFRAME_DURATIONS] *)
Definition timeframe_duration (tf : Timeframe) : timedelta :=
  match tf with
  | Timeframe.ONE_MINUTE => minutes 1
  | Timeframe.THREE_MINUTES => minutes 3
  | Timeframe.FIVE_MINUTES => minutes 5
  | Timeframe.FIFTEEN_MINUTES => minutes 15
  | Timeframe.THIRTY_MINUTES => minutes 30
  | Timeframe.ONE_HOUR => minutes 60
  | Timeframe.TWO_HOURS => minutes 120
  | Timeframe.FOUR_HOURS => minutes 240
  | Timeframe.ONE_DAY => US_PER_DAY
  | Timeframe.ONE_WEEK => 7 * US_PER_DAY
  end.

Definition timeframe_milliseconds (tf : Timeframe) : Z := timeframe_duration tf / 1000.

(** [BINANCE_INTERVALS]; the value of the enumeration itself. *)
Definition to_binance_interval (tf : Timeframe) : string :=
  match tf with
  | Timeframe.ONE_MINUTE => "1m"
  | Timeframe.THREE_MINUTES => "3m"
  | Timeframe.FIVE_MINUTES => "5m"
  | Timeframe.FIFTEEN_MINUTES => "15m"
  | Timeframe.THIRTY_MINUTES => "30m"
  | Timeframe.ONE_HOUR => "1h"
  | Timeframe.TWO_HOURS => "2h"
  | Timeframe.FOUR_HOURS => "4h"
  | Timeframe.ONE_DAY => "1d"
  | Timeframe.ONE_WEEK => "1w"
  end.

(** Monday is 1; the epoch was a Thursday. *)
Definition isoweekday (day : Z) : Z := (day + 3) mod 7 + 1.

(** [resolved.replace(hour=0, minute=0, second=0, microsecond=0)] *)
Definition day_start (t : datetime) : datetime := t / US_PER_DAY * US_PER_DAY.

(** [int(resolved.timestamp())] truncates towards zero.  The float is exact to
    the microsecond up to the year 2242. *)
Definition timeframe_bucket_start (t : datetime) (tf : Timeframe) : datetime :=
  match tf with
  | Timeframe.ONE_DAY => day_start t
  | Timeframe.ONE_WEEK =>
      let d := day_start t in d - (isoweekday (d / US_PER_DAY) - 1) * US_PER_DAY
  | _ =>
      let seconds := timeframe_duration tf / US_PER_SECOND in
      let epoch_seconds := Z.quot t US_PER_SECOND in
      epoch_seconds / seconds * seconds * US_PER_SECOND
  end.

Definition timeframe_bucket_end (t : datetime) (tf : Timeframe) : datetime :=
  timeframe_bucket_start t tf + timeframe_duration tf.

(** The instants Python can represent: years 1 to 9999. *)
Definition representable (t : datetime) : bool :=
  let '(y, _, _) := civil_from_days (t / US_PER_DAY) in (1 <=? y) && (y <=? 9999).

(** ** The calendar *)

(** An expensive division is settled by naming its quotient. *)
Ltac div_lia := Z.to_euclidean_division_equations; lia.

Section calendar.
Variable doe : Z.
Hypothesis Hdoe : 0 <= doe < 146097.
Let yoe := (doe - doe / 1460 + doe / 36524 - doe / 146096) / 365.

Lemma yoe_range : 0 <= yoe < 400.
Proof. subst yoe. div_lia. Qed.

Lemma doy_range : 0 <= doe - (365 * yoe + yoe / 4 - yoe / 100) <= 365.
Proof.
  pose proof yoe_range as Hy. revert Hy. subst yoe.
  assert (doe / 146096 = 0 \/ doe / 146096 = 1) as [E|E] by div_lia; rewrite E.
  2: { intros _. assert (doe = 146096) as -> by div_lia. vm_compute. by split. }
  assert (doe / 36524 = 0 \/ doe / 36524 = 1 \/ doe / 36524 = 2 \/ doe / 36524 = 3)
    as [E1|[E1|[E1|E1]]] by div_lia; rewrite E1; set (y := _ / 365); intros Hy;
    assert (y / 100 = 0 \/ y / 100 = 1 \/ y / 100 = 2 \/ y / 100 = 3)
      as [E2|[E2|[E2|E2]]] by div_lia; rewrite E2; subst y; div_lia.
Qed.
End calendar.

Lemma civil_of_doe_spec doe y m d : 0 <= doe < 146097 -> civil_of_doe doe = (y, m, d) ->
  let yoe := if m <=? 2 then y - 1 else y in
  0 <= yoe < 400 /\ 1 <= m <= 12 /\ 1 <= d <= 31 /\ doe_of_civil yoe m d = doe.
Proof.
  intros H. unfold civil_of_doe, doe_of_civil.
  pose proof (yoe_range doe H) as Hy. pose proof (doy_range doe H) as Hd.
  set (yoe := _ / 365) in *. clearbody yoe.
  set (doy := doe - _) in *. intros [= <- <- <-].
  set (mp := (5 * doy + 2) / 153).
  assert (0 <= mp <= 11) as Hmp by (subst mp; div_lia).
  assert (1 <= doy - (153 * mp + 2) / 5 + 1 <= 31) as Hdd by (subst mp; div_lia).
  destruct (Z.ltb_spec mp 10); cbn zeta.
  - rewrite (proj2 (Z.leb_gt (mp + 3) 2)), (proj2 (Z.ltb_lt 2 (mp + 3))) by lia.
    replace (mp + 3 - 3) with mp by lia. subst doy. lia.
  - rewrite (proj2 (Z.leb_le (mp - 9) 2)), (proj2 (Z.ltb_ge 2 (mp - 9))) by lia.
    replace (mp - 9 + 9) with mp by lia. replace (yoe + 1 - 1) with yoe by lia.
    subst doy. lia.
Qed.

(** The calendar conversion is a bijection onto valid dates. *)
Lemma days_from_civil_from_days z y m d : civil_from_days z = (y, m, d) ->
  1 <= m <= 12 /\ 1 <= d <= 31 /\ days_from_civil y m d = z.
Proof.
  unfold civil_from_days, days_from_civil. set (zz := z + 719468).
  destruct (civil_of_doe (zz mod 146097)) as [[y0 m0] d0] eqn:E. intros [= <- <- <-].
  pose proof (Z.mod_pos_bound zz 146097 ltac:(lia)) as Hb.
  destruct (civil_of_doe_spec _ _ _ _ Hb E) as (Hy & Hm & Hd & Hdoe).
  split_and!; try lia.
  set (yoe := if m0 <=? 2 then y0 - 1 else y0) in *.
  replace (if m0 <=? 2 then _ else _) with (yoe + zz / 146097 * 400)
    by (subst yoe; destruct (m0 <=? 2); lia).
  rewrite Z.div_add, Z.mod_add, (Z.div_small yoe), (Z.mod_small yoe) by lia.
  rewrite Hdoe. pose proof (Z.div_mod zz 146097). lia.
Qed.

(** ** The printed text identifies the instant *)

Lemma app_inj_len s1 t1 s2 t2 : String.length s1 = String.length s2 ->
  s1 +:+ t1 = s2 +:+ t2 -> s1 = s2 /\ t1 = t2.
Proof.
  revert s2; induction s1 as [|c s1 IH]; intros [|c2 s2]; cbn; try done.
  intros [= Hl] [= -> H]. destruct (IH s2 Hl H). by subst.
Qed.

Lemma string_app_length s t : String.length (s +:+ t) = (String.length s + String.length t)%nat.
Proof. induction s as [|c s IH]; [done|]. change (S (String.length (s +:+ t)) = S (String.length s + String.length t)). by rewrite IH. Qed.

Lemma padded_length w n : String.length (padded w n) = w.
Proof. revert n; induction w as [|w IH]; intros n; cbn; [done|]. rewrite string_app_length, IH. cbn. lia. Qed.

Lemma digit_inj a b : digit a = digit b -> a mod 10 = b mod 10.
Proof.
  unfold digit. intros H%(f_equal nat_of_ascii).
  pose proof (Z.mod_pos_bound a 10 ltac:(lia)). pose proof (Z.mod_pos_bound b 10 ltac:(lia)).
  rewrite !nat_ascii_embedding in H by lia. lia.
Qed.

Lemma padded_inj w a b : 0 <= a < 10 ^ Z.of_nat w -> 0 <= b < 10 ^ Z.of_nat w ->
  padded w a = padded w b -> a = b.
Proof.
  revert a b; induction w as [|w IH]; intros a b Ha Hb; [cbn in *; lia|].
  rewrite Nat2Z.inj_succ, Z.pow_succ_r in Ha, Hb by lia. cbn.
  intros [H1 H2]%app_inj_len; [|by rewrite !padded_length].
  injection H2 as H2%digit_inj.
  assert (a / 10 = b / 10) by (apply IH; [split; [div_lia | apply Z.div_lt_upper_bound; lia] ..|done]).
  pose proof (Z.div_mod a 10). pose proof (Z.div_mod b 10). lia.
Qed.

(** Peels one equal-width field off both sides of an equation of texts. *)
Ltac peel_field H Hf :=
  let H' := fresh in
  apply app_inj_len in H; [|by rewrite ?padded_length]; destruct H as [Hf H'];
  rename H' into H.

Lemma iso_naive_inj t u : representable t = true -> representable u = true ->
  forall s, iso_naive t +:+ String "Z" s = iso_naive u +:+ String "Z" s -> t = u.
Proof.
  unfold representable, iso_naive.
  destruct (civil_from_days (t / US_PER_DAY)) as [[y m] d] eqn:Et.
  destruct (civil_from_days (u / US_PER_DAY)) as [[y' m'] d'] eqn:Eu.
  intros [Hy1 Hy2]%andb_true_iff [Hy1' Hy2']%andb_true_iff s H.
  apply Z.leb_le in Hy1, Hy2, Hy1', Hy2'.
  destruct (days_from_civil_from_days _ _ _ _ Et) as (Hm & Hd & Hz).
  destruct (days_from_civil_from_days _ _ _ _ Eu) as (Hm' & Hd' & Hz').
  assert (String_app_assoc : forall a b c : string, (a +:+ b) +:+ c = a +:+ (b +:+ c)).
  { intros a b c. induction a as [|x a IH]; [done|]. exact (f_equal (String x) IH). }
  rewrite !String_app_assoc in H. unfold US_PER_DAY, US_PER_SECOND in *.
  pose proof (Z.mod_pos_bound t 86400000000 ltac:(lia)) as Ht.
  pose proof (Z.mod_pos_bound u 86400000000 ltac:(lia)) as Hu.
  change (86400 * 1000000) with 86400000000 in *.
  set (a := t mod 86400000000) in *. set (b := u mod 86400000000) in *.
  peel_field H Fy. peel_field H F1. peel_field H Fm. peel_field H F2. peel_field H Fd.
  peel_field H F3. peel_field H Fh. peel_field H F4. peel_field H Fmi. peel_field H F5.
  peel_field H Fs.
  apply padded_inj in Fy, Fm, Fd, Fh, Fmi, Fs; try div_lia.
  assert (a mod 1000000 = b mod 1000000) as Hf.
  { destruct (Z.eqb_spec (a mod 1000000) 0), (Z.eqb_spec (b mod 1000000) 0);
      [congruence | discriminate H | discriminate H |].
    apply app_inj_len in H as [H _]; [|by rewrite !string_app_length, !padded_length].
    apply app_inj_len in H as [_ H]; [|done].
    apply padded_inj in H; [done|..]; div_lia. }
  assert (a = b) by (clearbody a b; clear - Hf Fh Fmi Fs Ht Hu; div_lia).
  assert (t / 86400000000 = u / 86400000000) by congruence.
  pose proof (Z.div_mod t 86400000000). pose proof (Z.div_mod u 86400000000). lia.
Qed.

(** The canonical text identifies the instant: two different instants
    never share an identifier text. *)
Theorem canonical_utc_iso_inj t u : representable t = true -> representable u = true ->
  canonical_utc_iso t = canonical_utc_iso u -> t = u.
Proof. intros Ht Hu H. exact (iso_naive_inj t u Ht Hu EmptyString H). Qed.

Lemma canonical_utc_iso_inj_witness :
  1704067200000000 = 1704067200000000.
Proof. apply canonical_utc_iso_inj; reflexivity. Defined.

(** ** Buckets *)

Lemma bucket_duration_seconds tf : timeframe_duration tf = timeframe_duration tf / US_PER_SECOND * US_PER_SECOND.
Proof. by destruct tf. Qed.

Lemma bucket_duration_pos tf : 0 < timeframe_duration tf / US_PER_SECOND.
Proof. by destruct tf. Qed.

(** The bucket grid: Mondays for weeks, the epoch otherwise. *)
Definition bucket_origin (tf : Timeframe) : Z :=
  match tf with Timeframe.ONE_WEEK => -3 * US_PER_DAY | _ => 0 end.

Definition whole_or_recent (t : datetime) : Prop := 0 <= t \/ t mod US_PER_SECOND = 0.

Lemma seconds_floor t : whole_or_recent t -> Z.quot t US_PER_SECOND = t / US_PER_SECOND.
Proof.
  unfold whole_or_recent, US_PER_SECOND. intros [H|H].
  - apply Z.quot_div_nonneg; lia.
  - pose proof (Z.div_mod t 1000000 ltac:(lia)) as E. rewrite H in E.
    rewrite E at 1. rewrite Z.add_0_r, Z.mul_comm. by rewrite Z.quot_mul.
Qed.

Lemma floor_seconds t d : whole_or_recent t -> 0 < d ->
  Z.quot t US_PER_SECOND / d * d * US_PER_SECOND = t / (d * US_PER_SECOND) * (d * US_PER_SECOND).
Proof.
  intros Ht Hd. rewrite seconds_floor by done. rewrite Z.div_div by (done || (unfold US_PER_SECOND; lia)). rewrite (Z.mul_comm US_PER_SECOND d).
  by rewrite Z.mul_assoc.
Qed.

Lemma week_start_floor t :
  timeframe_bucket_start t Timeframe.ONE_WEEK =
  (t - -3 * US_PER_DAY) / (7 * US_PER_DAY) * (7 * US_PER_DAY) + -3 * US_PER_DAY.
Proof.
  unfold timeframe_bucket_start, day_start, isoweekday.
  assert (0 < US_PER_DAY) as HD by done. generalize dependent US_PER_DAY. intros dd HD.
  rewrite Z.div_mul, (Z.mul_comm 7 dd) by lia. rewrite <-Z.div_div by lia.
  replace (t - -3 * dd) with (t + 3 * dd) by lia. rewrite Z.div_add by lia.
  pose proof (Z.div_mod (t / dd + 3) 7 ltac:(lia)). nia.
Qed.

(** The three branches compute one floor on the grid. *)
Lemma bucket_start_floor t tf : whole_or_recent t ->
  timeframe_bucket_start t tf =
  (t - bucket_origin tf) / timeframe_duration tf * timeframe_duration tf + bucket_origin tf.
Proof.
  intros Ht.
  pose proof (floor_seconds t _ Ht (bucket_duration_pos tf)) as Hf.
  rewrite <-bucket_duration_seconds in Hf.
  destruct tf; try (unfold bucket_origin; rewrite Z.sub_0_r, Z.add_0_r; first [exact Hf | reflexivity]).
  apply week_start_floor.
Qed.

Lemma grid_monday q :
  isoweekday ((q * (7 * US_PER_DAY) + -3 * US_PER_DAY) / US_PER_DAY) = 1.
Proof.
  replace (q * (7 * US_PER_DAY) + -3 * US_PER_DAY) with ((q * 7 - 3) * US_PER_DAY) by lia.
  rewrite Z.div_mul by done. unfold isoweekday. div_lia.
Qed.

(** Buckets partition time: an instant lies in its own bucket, and every
    instant of that bucket has the same start; weekly buckets start on a
    Monday.  Intraday buckets need an instant after the epoch or on a whole
    second, since [int()] truncates towards zero. *)
Theorem bucket_partition t u tf : whole_or_recent t -> whole_or_recent u ->
  timeframe_bucket_start t tf <= t < timeframe_bucket_end t tf
  /\ (timeframe_bucket_start t tf <= u < timeframe_bucket_end t tf <->
      timeframe_bucket_start u tf = timeframe_bucket_start t tf)
  /\ (tf = Timeframe.ONE_WEEK -> isoweekday (timeframe_bucket_start t tf / US_PER_DAY) = 1).
Proof.
  intros Ht Hu. unfold timeframe_bucket_end.
  pose proof (bucket_duration_pos tf). pose proof (bucket_duration_seconds tf).
  rewrite !bucket_start_floor by done.
  assert (0 < timeframe_duration tf) as Hd by (destruct tf; done).
  split; [|split; [|intros ->; apply grid_monday]].
  - pose proof (Z.div_mod (t - bucket_origin tf) (timeframe_duration tf) ltac:(lia)).
    pose proof (Z.mod_pos_bound (t - bucket_origin tf) _ Hd). lia.
  - set (o := bucket_origin tf). set (d := timeframe_duration tf) in *.
    pose proof (Z.div_mod (u - o) d ltac:(lia)). pose proof (Z.mod_pos_bound (u - o) _ Hd).
    split; [|nia]. intros Hr.
    assert ((u - o) / d = (t - o) / d) as ->; [|done].
    symmetry. apply (Z.div_unique_pos _ _ _ (u - o - d * ((t - o) / d))); lia.
Qed.

Lemma bucket_partition_witness :
  timeframe_bucket_start 1704190000000000 Timeframe.ONE_WEEK <= 1704190000000000
    < timeframe_bucket_end 1704190000000000 Timeframe.ONE_WEEK.
Proof.
  refine (proj1 (bucket_partition 1704190000000000 1704190000000000 Timeframe.ONE_WEEK _ _));
    left; vm_compute; discriminate.
Defined.

(** The truncation is visible just before the epoch. *)
Example bucket_start_after_instant :
  timeframe_bucket_start (-1) Timeframe.ONE_MINUTE = 0.
Proof. reflexivity. Qed.
