(* ===== verification/Candle.v ===== *)
(** Candles and their validation: [schemas/candle.py], and the input checks
    the engines share ([_validate_candle_order] of the indicator engine and
    the spacing rule of the others). *)
From Stdlib Require Import ZArith QArith Lia Lqa.
From stdpp Require Import base list strings numbers gmap.
From S2P Require Import Prelude Decimal Time.
Local Open Scope Z_scope.

Module Candle.
Record Candle := mkCandle {
  timestamp : datetime;
  open : dec;
  high : dec;
  low : dec;
  close : dec;
  volume : dec
}.
#[global] Instance Candle_eqdec : EqDecision Candle := ltac:(solve_decision).
End Candle.
Abbreviation Candle := Candle.Candle.

(** The field constraints of [Candle] and its [validate_ohlc]. *)
Definition validate_ohlc (c : Candle) : bool :=
  negb (dltb (Candle.high c) (dmax (Candle.open c) (Candle.close c)))
  && negb (dltb (dmin (Candle.open c) (Candle.close c)) (Candle.low c))
  && negb (dltb (Candle.high c) (Candle.low c)).

Definition valid_candle (c : Candle) : bool :=
  dltb (D 0) (Candle.open c) && dltb (D 0) (Candle.high c)
  && dltb (D 0) (Candle.low c) && dltb (D 0) (Candle.close c)
  && dleb (D 0) (Candle.volume c) && validate_ohlc c.

(** What a constructed candle satisfies, on exact values. *)
Definition candle_wf (c : Candle) : Prop :=
  (0 < Qval (Candle.low c) /\ Qval (Candle.low c) <= Qval (Candle.open c)
   /\ Qval (Candle.low c) <= Qval (Candle.close c)
   /\ Qval (Candle.open c) <= Qval (Candle.high c)
   /\ Qval (Candle.close c) <= Qval (Candle.high c)
   /\ 0 <= Qval (Candle.volume c))%Q.

Lemma Qval_D0 : (Qval (D 0) == 0)%Q.
Proof. apply Qval_D. Qed.

Lemma valid_candle_wf c : valid_candle c = true -> candle_wf c.
Proof.
  unfold valid_candle, validate_ohlc, candle_wf. intros Hv. bool_hyps. dec_to_Q.
  pose proof (dmax_ge (Candle.open c) (Candle.close c)).
  pose proof (dmin_le (Candle.open c) (Candle.close c)).
  rewrite Qval_D0 in *. split_and!; lra.
Qed.

Lemma candle_low_high c : candle_wf c -> (Qval (Candle.low c) <= Qval (Candle.high c))%Q.
Proof. unfold candle_wf. lra. Qed.

(** ** Input order *)

(** [_validate_candle_order] *)
Definition _validate_candle_order (candles : list Candle) : pyres unit :=
  py_for (fun '(previous, current) =>
    raise_if (Candle.timestamp current <=? Candle.timestamp previous)
      (Exc "IndicatorInputError" "candles must have unique timestamps in ascending order"))
    (pairwise candles).

Definition strictly_increasing (l : list Z) : Prop :=
  forall i j x y, (i < j)%nat -> l !! i = Some x -> l !! j = Some y -> x < y.

Lemma adjacent_increasing (l : list Z) :
  (forall i x y, l !! i = Some x -> l !! S i = Some y -> x < y) -> strictly_increasing l.
Proof.
  intros H i j x y Hij Hx. revert y. induction Hij as [|j Hij IH]; intros y Hy; [eauto|].
  destruct (lookup_lt_is_Some_2 l j) as [z Hz].
  { apply lookup_lt_Some in Hy. lia. }
  specialize (IH z Hz). specialize (H j z y Hz Hy). lia.
Qed.

Lemma _validate_candle_order_ok candles :
  _validate_candle_order candles = Ok tt <-> strictly_increasing (map Candle.timestamp candles).
Proof.
  unfold _validate_candle_order. rewrite py_for_ok, pairwise_Forall.
  split.
  - intros H. apply adjacent_increasing. intros i x y.
    rewrite !list_lookup_fmap, !fmap_Some. intros (a & Ha & ->) (b & Hb & ->).
    specialize (H i a b Ha Hb). apply raise_if_ok in H. lia.
  - intros H i a b Ha Hb. apply raise_if_ok, Z.leb_gt.
    apply (H i (S i)); [lia|..]; rewrite list_lookup_fmap; [by rewrite Ha | by rewrite Hb].
Qed.

(** ** The spacing rule of the structure engines *)

(** The timestamp loop of [_validate_candles] of the structure, SMC and
    liquidity engines; the exception class differs. *)
Definition validate_spacing (cls : string) (timeframe : Timeframe) (candles : list Candle) : pyres unit :=
  py_for (fun '(previous, current) =>
    let actual_delta := Candle.timestamp current - Candle.timestamp previous in
    _ ← raise_if (actual_delta <=? 0)
          (Exc cls "candles must have unique timestamps in ascending order");
    raise_if (negb (actual_delta =? timeframe_duration timeframe))
      (Exc cls "candle sequence contains a timeframe gap"))
    (pairwise candles).

Definition evenly_spaced (timeframe : Timeframe) (candles : list Candle) : Prop :=
  forall i c d, candles !! i = Some c -> candles !! S i = Some d ->
    Candle.timestamp d = Candle.timestamp c + timeframe_duration timeframe.

Lemma timeframe_duration_pos tf : 0 < timeframe_duration tf.
Proof. by destruct tf. Qed.

Lemma validate_spacing_ok cls tf candles :
  validate_spacing cls tf candles = Ok tt <-> evenly_spaced tf candles.
Proof.
  unfold validate_spacing, evenly_spaced. rewrite py_for_ok, pairwise_Forall.
  pose proof (timeframe_duration_pos tf) as Hd.
  split; intros H i c d Hc Hdd; specialize (H i c d Hc Hdd).
  - apply bind_ok in H as ([] & H1%raise_if_ok & H2%raise_if_ok).
    apply negb_false_iff in H2. lia.
  - apply bind_ok. exists tt. rewrite !raise_if_ok, negb_false_iff. lia.
Qed.

Lemma evenly_spaced_nth tf candles i j c d : evenly_spaced tf candles ->
  candles !! i = Some c -> candles !! j = Some d ->
  Candle.timestamp d - Candle.timestamp c = (Z.of_nat j - Z.of_nat i) * timeframe_duration tf.
Proof.
  intros He. assert (forall k x, candles !! 0%nat = Some x ->
    forall e, candles !! k = Some e -> Candle.timestamp e = Candle.timestamp x + Z.of_nat k * timeframe_duration tf) as H0.
  { induction k as [|k IH]; intros x Hx e Hk; [assert (e = x) by congruence; subst; lia|].
    destruct (lookup_lt_is_Some_2 candles k) as [z Hz]; [apply lookup_lt_Some in Hk; lia|].
    rewrite (He k z e Hz Hk), (IH x Hx z Hz). lia. }
  intros Hc Hd. destruct (lookup_lt_is_Some_2 candles 0) as [x Hx]; [apply lookup_lt_Some in Hc; lia|].
  rewrite (H0 i x Hx c Hc), (H0 j x Hx d Hd). lia.
Qed.

Lemma evenly_spaced_inj tf candles i j c d : evenly_spaced tf candles ->
  candles !! i = Some c -> candles !! j = Some d -> Candle.timestamp c = Candle.timestamp d -> i = j.
Proof.
  intros He Hi Hj Ht. pose proof (evenly_spaced_nth tf candles i j c d He Hi Hj).
  pose proof (timeframe_duration_pos tf). nia.
Qed.

(** ** Dictionaries from an instant to the position of a candle *)

(** [{key(candle): index for index, candle in enumerate(candles)}]: a later
    candle of the same key wins. *)
Definition index_by (key : Candle -> Z) (candles : list Candle) : gmap Z nat :=
  foldl (fun m '(index, candle) => <[key candle := index]> m) ∅ (enumerate candles).

(** The keys in use are the opening instant and the closing instant of a
    candle, which identify a candle of an evenly spaced series. *)
Lemma index_by_spec tf shift candles t i : evenly_spaced tf candles ->
  index_by (fun c => Candle.timestamp c + shift) candles !! t = Some i
  <-> exists c, candles !! i = Some c /\ Candle.timestamp c + shift = t.
Proof.
  revert i. induction candles as [|x l IH] using rev_ind; intros i He.
  { unfold index_by. cbn. rewrite lookup_empty. split; [done|]. intros (c & Hc & _). by rewrite lookup_nil in Hc. }
  assert (evenly_spaced tf l) as He'.
  { intros k c d Hc Hd. apply (He k); by apply lookup_app_l_Some. }
  unfold index_by. rewrite enumerate_app, foldl_app. cbn [foldl].
  fold (index_by (fun c => Candle.timestamp c + shift) l).
  assert (forall k c, l !! k = Some c -> (l ++ [x]) !! k = Some c) as Hl by (intros; by apply lookup_app_l_Some).
  assert ((l ++ [x]) !! length l = Some x) as Hx by (rewrite lookup_app_r, Nat.sub_diag by lia; done).
  destruct (decide (Candle.timestamp x + shift = t)) as [<-|Hne].
  - rewrite lookup_insert_eq. split.
    + intros [= <-]. by exists x.
    + intros (c & Hc & Ht). f_equal. eapply (evenly_spaced_inj tf (l ++ [x])); eauto. lia.
  - rewrite lookup_insert_ne by done. rewrite (IH i He'). split; intros (c & Hc & Ht); exists c; split; auto.
    apply lookup_app_Some in Hc as [Hc | [Hge Hc]]; [done|].
    apply list_lookup_singleton_Some in Hc as [_ ->]. done.
Qed.

Lemma index_by_open tf candles t i : evenly_spaced tf candles ->
  index_by Candle.timestamp candles !! t = Some i <-> exists c, candles !! i = Some c /\ Candle.timestamp c = t.
Proof.
  intros He. replace (index_by Candle.timestamp candles) with (index_by (fun c => Candle.timestamp c + 0) candles).
  - rewrite (index_by_spec tf) by done. by setoid_rewrite Z.add_0_r.
  - unfold index_by. generalize (∅ : gmap Z nat) (enumerate candles). intros m l. revert m.
    induction l as [|[k c] l IH]; intros m; cbn; [done|]. by rewrite Z.add_0_r, IH.
Qed.
