(* ===== verification/Grid.v ===== *)
(** Prices on a grid: decimals that are whole numbers of a unit [10 ^ g], such as
    the ticks of a market. On a grid the arithmetic of the engines is integer
    arithmetic as long as the results are representable. *)
From Stdlib Require Import ZArith QArith Qabs Lia Lqa.
From stdpp Require Import base list numbers.
From S2P Require Import Prelude Decimal Candle.
Local Open Scope Z_scope.

Section grid.
Context (g : Z).

(** [a] is [n] units. *)
Definition on (a : dec) (n : Z) : Prop := (Qval a == inject_Z n * p10 g)%Q.

(** The units of a decimal whose exponent is at least [g]. *)
Definition units (a : dec) : Z := align a g.

Lemma units_on a : g <= expo a -> on a (units a).
Proof. apply Qval_align. Qed.

Lemma on_0 : on (D 0) 0.
Proof. unfold on. rewrite Qval_D. unfold inject_Z. ring. Qed.

Lemma on_le a b n m : on a n -> on b m -> (Qval a <= Qval b)%Q <-> n <= m.
Proof.
  unfold on. intros -> ->. pose proof (p10_pos g) as Hp. rewrite Zle_Qle. split; intros H.
  - by apply (Qmult_lt_0_le_reg_r _ _ (p10 g)).
  - apply Qmult_le_compat_r; [done|lra].
Qed.

Lemma on_inj a n m : on a n -> on a m -> n = m.
Proof. intros H1 H2. pose proof (on_le a a n m H1 H2). pose proof (on_le a a m n H2 H1). destruct H, H0. pose proof (Qle_refl (Qval a)). apply Z.le_antisymm; auto. Qed.

Lemma on_max a b n m : on a n -> on b m -> on (dmax a b) (Z.max n m).
Proof.
  intros Ha Hb. unfold dmax. destruct (dltb a b) eqn:E.
  - apply dltb_true in E. assert (n <= m) by (apply (on_le a b); auto; lra). by rewrite Z.max_r.
  - apply dltb_false in E. assert (m <= n) by (apply (on_le b a); auto; lra). by rewrite Z.max_l.
Qed.

Section exact.
Context {p : Z} `{VP : !ValidPrec p}.

Lemma representable n : Z.abs n < 10 ^ p -> fits p (Dec n g) /\ (Qval (Dec n g) == inject_Z n * p10 g)%Q.
Proof. intros H. split; [exact H|reflexivity]. Qed.

Lemma on_round a n : on a n -> Z.abs n < 10 ^ p -> on (dround p a) n.
Proof.
  intros Ha [Hf Hq]%representable. unfold on in *. rewrite <-Hq, <-(dround_exact p (Dec n g) VP Hf).
  apply dround_compat; [exact VP|]. by rewrite Ha, Hq.
Qed.

Lemma on_add a b n m : on a n -> on b m -> Z.abs (n + m) < 10 ^ p -> on (dadd p a b) (n + m).
Proof.
  intros Ha Hb. apply on_round. unfold on in *. rewrite Qval_add_exact, Ha, Hb, inject_Z_plus. ring.
Qed.

Lemma on_sub a b n m : on a n -> on b m -> Z.abs (n - m) < 10 ^ p -> on (dsub p a b) (n - m).
Proof.
  intros Ha Hb. apply on_round. unfold on in *.
  rewrite Qval_add_exact, Qval_dopp, Ha, Hb. unfold Z.sub. rewrite inject_Z_plus, inject_Z_opp. ring.
Qed.

Lemma on_neg a n : on a n -> Z.abs n < 10 ^ p -> on (dneg p a) (- n).
Proof.
  intros Ha Hn. apply on_round; [|lia]. unfold on in *. rewrite Qval_dopp, Ha, inject_Z_opp. ring.
Qed.

Lemma on_scale k a n : on a n -> Z.abs (k * n) < 10 ^ p -> on (dmul p (D k) a) (k * n).
Proof.
  intros Ha. apply on_round. unfold on in *. rewrite Qval_mul_exact, Qval_D, Ha, inject_Z_mult. ring.
Qed.

Lemma on_abs a n : on a n -> Z.abs n < 10 ^ p -> on (dabs p a) (Z.abs n).
Proof.
  intros Ha Hn. apply on_round; [|lia]. unfold on in *. rewrite Qval_dabs_exact, Ha, Qabs_Qmult.
  pose proof (p10_pos g). rewrite (Qabs_pos (p10 g)) by lra. reflexivity.
Qed.

Lemma on_distance a b n m : on a n -> on b m -> Z.abs (n - m) < 10 ^ p -> on (dabs p (dsub p a b)) (Z.abs (n - m)).
Proof. intros Ha Hb Hlt. apply on_abs; [by apply on_sub|exact Hlt]. Qed.
End exact.

(** ** Sums *)

Definition zsum (l : list Z) : Z := foldr Z.add 0 l.

Lemma zsum_app l k : zsum (l ++ k) = zsum l + zsum k.
Proof. induction l as [|x l IH]; cbn; [done|]. unfold zsum in *. cbn. rewrite IH. lia. Qed.

Lemma zsum_snoc l x : zsum (l ++ [x]) = zsum l + x.
Proof. rewrite zsum_app. unfold zsum. cbn. lia. Qed.

Lemma zsum_bound b l : Forall (fun x => 0 <= x <= b) l -> 0 <= zsum l <= Z.of_nat (length l) * b.
Proof. induction 1 as [|x l Hx _ IH]; unfold zsum in *; cbn [foldr length]; lia. Qed.

Lemma on_dsum {p} `{!ValidPrec p} l ns b : Forall2 on l ns -> Forall (fun x => 0 <= x <= b) ns ->
  Z.of_nat (length ns) * b < 10 ^ p -> on (dsum p l) (zsum ns).
Proof.
  intros H. revert l H. induction ns as [|n ns IH] using rev_ind; intros l H Hb Hlt.
  - apply Forall2_nil_inv_r in H as ->. apply on_0.
  - apply Forall2_app_inv_r in H as (l1 & l2 & H1 & H2 & ->). apply Forall_app in Hb as [Hb1 Hb2%Forall_inv].
    inversion H2 as [|x ? l' ? Hx Hl']; subst. apply Forall2_nil_inv_r in Hl' as ->.
    rewrite length_app in Hlt. cbn in Hlt. pose proof (zsum_bound b ns Hb1).
    unfold dsum. rewrite foldl_app. cbn. rewrite zsum_snoc. apply on_add; [|done|lia]. apply IH; [done..|]. nia.
Qed.

(** ** Candles on the grid *)

(** A price of at most [10 ^ 24] units. *)
Definition grid_price (a : dec) : Prop := g <= expo a /\ 0 <= units a < 10 ^ 24.

Definition on_grid (c : Candle) : Prop :=
  grid_price (Candle.open c) /\ grid_price (Candle.high c) /\ grid_price (Candle.low c) /\ grid_price (Candle.close c).

Lemma grid_price_on a : grid_price a -> on a (units a).
Proof. intros [H _]. by apply units_on. Qed.
End grid.
