(* ===== verification/Signal.v ===== *)
(** The vocabulary of signals shared by the risk, lifecycle and execution
    engines: the entry zone and the decision of [schemas/signal.py]. *)
From Stdlib Require Import ZArith.
From stdpp Require Import base list strings numbers.
From S2P Require Import Prelude Decimal.
Local Open Scope Z_scope.

Module EntryZone.
Record EntryZone := mkEntryZone {
  low : dec;
  high : dec
}.
Definition validate_bounds (z : EntryZone) : bool :=
  dltb (D 0) (low z) && dltb (D 0) (high z) && negb (dltb (high z) (low z)).
End EntryZone.
Abbreviation EntryZone := EntryZone.EntryZone.

Module SignalDecision.
Inductive SignalDecision := LONG | SHORT | NO_TRADE.
#[global] Instance SignalDecision_eqdec : EqDecision SignalDecision := ltac:(solve_decision).
End SignalDecision.
Abbreviation SignalDecision := SignalDecision.SignalDecision.

(** [x is not None] *)
Definition is_some {A} (o : option A) : bool := match o with Some _ => true | None => false end.

(** [Field(default=None, gt=0, allow_inf_nan=False)] *)
Definition opt_positive (o : option dec) : bool :=
  match o with Some x => dltb (D 0) x | None => true end.

(** [Field(min_length=1)] of a string. *)
Definition nonempty (s : string) : bool := negb (String.length s =? 0)%nat.
