(* ===== verification/Indicators.v ===== *)
(** The indicator engine: [engines/indicators/calculations.py] and
    [schemas/indicator.py].

    EMA, MACD and ATR over closed candles, computed at precision 34 except for
    the true ranges, which use the ambient precision.  The loops fill
    preallocated lists by index as the code does; [warm] is the closed form the
    theorems compare them with. *)
From Stdlib Require Import ZArith QArith Lia Lqa.
From stdpp Require Import base list strings numbers.
From S2P Require Import Prelude Decimal Time Candle.
Local Open Scope Z_scope.

(** [INDICATOR_DECIMAL_CONTEXT = Context(prec=34)] *)
Definition INDICATOR_PREC : Z := 34.
#[export] Instance indicator_prec_valid : ValidPrec INDICATOR_PREC.
Proof. unfold ValidPrec, INDICATOR_PREC. lia. Qed.

#[export] Instance dec_inhabited : Inhabited dec := populate (D 0).

(** ** Schemas *)

Module ATRSmoothing.
Inductive ATRSmoothing := WILDER | SMA.
#[global] Instance ATRSmoothing_eqdec : EqDecision ATRSmoothing := ltac:(solve_decision).
End ATRSmoothing.
Abbreviation ATRSmoothing := ATRSmoothing.ATRSmoothing.

Module MACDConfig.
Record MACDConfig := mkMACDConfig {
  fast_period : nat;
  slow_period : nat;
  signal_period : nat
}.
End MACDConfig.
Abbreviation MACDConfig := MACDConfig.MACDConfig.

Definition validate_period_order (c : MACDConfig) : bool :=
  (1 <=? MACDConfig.fast_period c)%nat && (2 <=? MACDConfig.slow_period c)%nat
  && (1 <=? MACDConfig.signal_period c)%nat
  && negb (MACDConfig.slow_period c <=? MACDConfig.fast_period c)%nat.

Module ATRConfig.
Record ATRConfig := mkATRConfig {
  period : nat;
  smoothing : ATRSmoothing
}.
Definition valid (c : ATRConfig) : bool := (1 <=? period c)%nat.
End ATRConfig.
Abbreviation ATRConfig := ATRConfig.ATRConfig.

Module MACDPoint.
Record MACDPoint := mkMACDPoint {
  timestamp : datetime;
  fast_ema : option dec;
  slow_ema : option dec;
  macd_line : option dec;
  signal_line : option dec;
  histogram : option dec;
  bullish_crossover : bool;
  bearish_crossover : bool;
  histogram_increasing : bool;
  histogram_decreasing : bool
}.
End MACDPoint.
Abbreviation MACDPoint := MACDPoint.MACDPoint.

Module MACDResult.
Record MACDResult := mkMACDResult {
  config : MACDConfig;
  source : string;
  points : list MACDPoint
}.
End MACDResult.
Abbreviation MACDResult := MACDResult.MACDResult.

Module ATRPoint.
Record ATRPoint := mkATRPoint {
  timestamp : datetime;
  true_range : dec;
  atr : option dec
}.
End ATRPoint.
Abbreviation ATRPoint := ATRPoint.ATRPoint.

Module ATRResult.
Record ATRResult := mkATRResult {
  config : ATRConfig;
  points : list ATRPoint
}.
End ATRResult.
Abbreviation ATRResult := ATRResult.ATRResult.

Module IndicatorAnalysis.
Record IndicatorAnalysis := mkIndicatorAnalysis {
  candle_count : nat;
  data_cutoff_at : option datetime;
  macd : MACDResult;
  atr : ATRResult
}.
End IndicatorAnalysis.
Abbreviation IndicatorAnalysis := IndicatorAnalysis.IndicatorAnalysis.

(** ** Calculations *)

(** One step of the smoothing loop. *)
Definition ema_next (alpha previous value : dec) : dec :=
  dadd INDICATOR_PREC previous (dmul INDICATOR_PREC alpha (dsub INDICATOR_PREC value previous)).

Definition calculate_ema (values : list dec) (period : nat) : pyres (list (option dec)) :=
  if (period <? 1)%nat then Raise (Exc "ValueError" "period must be at least 1") else
  let output := replicate (length values) None in
  if (length values <? period)%nat then Ok output else
  let period_decimal := D (Z.of_nat period) in
  let seed := ddiv INDICATOR_PREC (dsum INDICATOR_PREC (take period values)) period_decimal in
  let output := <[(period - 1)%nat := Some (dplus INDICATOR_PREC seed)]> output in
  let alpha := ddiv INDICATOR_PREC (D 2) (D (Z.of_nat (period + 1))) in
  Ok (foldl (fun '(output, previous) index =>
        let previous := ema_next alpha previous (getitem values index) in
        (<[index := Some (dplus INDICATOR_PREC previous)]> output, previous))
      (output, seed) (seq period (length values - period))).1.

(** The two [assert ... is not None] of the loop. *)
Definition macd_line_loop (fast_ema slow_ema : list (option dec)) (macd_start n : nat) :
    pyres (list (option dec)) :=
  py_fold (fun macd_line index =>
    match getitem fast_ema index, getitem slow_ema index with
    | Some fast_value, Some slow_value =>
        Ok (<[index := Some (dplus INDICATOR_PREC (dsub INDICATOR_PREC fast_value slow_value))]> macd_line)
    | _, _ => Raise (Exc "AssertionError" "")
    end) (replicate n None) (seq macd_start (n - macd_start)).

(** [\[value for value in macd_line if value is not None\]] *)
Definition compact (l : list (option dec)) : list dec := omap id l.

Definition signal_line_loop (compact_signal : list (option dec)) (macd_start n : nat) : list (option dec) :=
  foldl (fun signal_line '(compact_index, value) =>
    <[(macd_start + compact_index)%nat := value]> signal_line)
    (replicate n None) (enumerate compact_signal).

Definition histogram_loop (macd_line signal_line : list (option dec)) (n : nat) : list (option dec) :=
  foldl (fun histogram '(index, (macd_value, signal_value)) =>
    match macd_value, signal_value with
    | Some m, Some s => <[index := Some (dplus INDICATOR_PREC (dsub INDICATOR_PREC m s))]> histogram
    | _, _ => histogram
    end) (replicate n None) (enumerate (zip macd_line signal_line)).

(** [values\[index - 1\] if index - 1 >= 0 else None] *)
Definition previous_of (values : list (option dec)) (index : nat) : option dec :=
  match index with O => None | S previous_index => getitem values previous_index end.

Definition macd_point (fast_ema slow_ema macd_line signal_line histogram : list (option dec))
    (index : nat) (candle : Candle) : MACDPoint :=
  let crossover :=
    match previous_of macd_line index, previous_of signal_line index,
          getitem macd_line index, getitem signal_line index with
    | Some previous_macd, Some previous_signal, Some current_macd, Some current_signal =>
        (dleb previous_macd previous_signal && dltb current_signal current_macd,
         dleb previous_signal previous_macd && dltb current_macd current_signal)
    | _, _, _, _ => (false, false)
    end in
  let momentum :=
    match previous_of histogram index, getitem histogram index with
    | Some previous_histogram, Some current_histogram =>
        (dltb previous_histogram current_histogram, dltb current_histogram previous_histogram)
    | _, _ => (false, false)
    end in
  MACDPoint.mkMACDPoint (Candle.timestamp candle) (getitem fast_ema index) (getitem slow_ema index)
    (getitem macd_line index) (getitem signal_line index) (getitem histogram index)
    crossover.1 crossover.2 momentum.1 momentum.2.

Definition calculate_macd (candles : list Candle) (config : MACDConfig) : pyres MACDResult :=
  _ ← _validate_candle_order candles;
  let closes := map Candle.close candles in
  fast_ema ← calculate_ema closes (MACDConfig.fast_period config);
  slow_ema ← calculate_ema closes (MACDConfig.slow_period config);
  let macd_start := (MACDConfig.slow_period config - 1)%nat in
  macd_line ← macd_line_loop fast_ema slow_ema macd_start (length candles);
  compact_signal ← calculate_ema (compact macd_line) (MACDConfig.signal_period config);
  let signal_line := signal_line_loop compact_signal macd_start (length candles) in
  let histogram := histogram_loop macd_line signal_line (length candles) in
  Ok (MACDResult.mkMACDResult config "close"
        (map (fun '(index, candle) =>
                macd_point fast_ema slow_ema macd_line signal_line histogram index candle)
             (enumerate candles))).

(** [_true_ranges], at the ambient precision. *)
Definition true_range_at (candles : list Candle) (index : nat) (candle : Candle) : dec :=
  let high_low := dsub DEFAULT_PREC (Candle.high candle) (Candle.low candle) in
  match index with
  | O => high_low
  | S previous =>
      match candles !! previous with
      | None => high_low
      | Some previous_candle =>
          let previous_close := Candle.close previous_candle in
          dmax (dmax high_low
                  (dabs DEFAULT_PREC (dsub DEFAULT_PREC (Candle.high candle) previous_close)))
               (dabs DEFAULT_PREC (dsub DEFAULT_PREC (Candle.low candle) previous_close))
      end
  end.

Definition _true_ranges (candles : list Candle) : list dec :=
  map (fun '(index, candle) => true_range_at candles index candle) (enumerate candles).

(** One step of Wilder's smoothing. *)
Definition wilder_next (period : nat) (previous_atr true_range : dec) : dec :=
  ddiv INDICATOR_PREC
    (dadd INDICATOR_PREC (dmul INDICATOR_PREC previous_atr (D (Z.of_nat (period - 1)))) true_range)
    (D (Z.of_nat period)).

Definition mean (period : nat) (window : list dec) : dec :=
  ddiv INDICATOR_PREC (dsum INDICATOR_PREC window) (D (Z.of_nat period)).

Definition atr_values (true_ranges : list dec) (config : ATRConfig) (n : nat) : list (option dec) :=
  let values := replicate n None in
  let period := ATRConfig.period config in
  if (n <? period)%nat then values else
  match ATRConfig.smoothing config with
  | ATRSmoothing.SMA =>
      foldl (fun values index =>
        let window := slice true_ranges (index + 1 - period) (index + 1) in
        <[index := Some (dplus INDICATOR_PREC (mean period window))]> values)
        values (seq (period - 1) (n - (period - 1)))
  | ATRSmoothing.WILDER =>
      let previous_atr := mean period (take period true_ranges) in
      (foldl (fun '(values, previous_atr) index =>
        let previous_atr := wilder_next period previous_atr (getitem true_ranges index) in
        (<[index := Some (dplus INDICATOR_PREC previous_atr)]> values, previous_atr))
        (<[(period - 1)%nat := Some (dplus INDICATOR_PREC previous_atr)]> values, previous_atr)
        (seq period (n - period))).1
  end.

Definition calculate_atr (candles : list Candle) (config : ATRConfig) : pyres ATRResult :=
  _ ← _validate_candle_order candles;
  let true_ranges := _true_ranges candles in
  let values := atr_values true_ranges config (length candles) in
  Ok (ATRResult.mkATRResult config
        (map (fun '(index, candle) =>
                ATRPoint.mkATRPoint (Candle.timestamp candle) (getitem true_ranges index) (getitem values index))
             (enumerate candles))).

Definition data_cutoff_at (candles : list Candle) (timeframe : Timeframe) : option datetime :=
  match list.last candles with
  | Some candle => Some (Candle.timestamp candle + timeframe_duration timeframe)
  | None => None
  end.

Definition calculate_indicators (candles : list Candle) (timeframe : Timeframe)
    (macd_config : MACDConfig) (atr_config : ATRConfig) : pyres IndicatorAnalysis :=
  _ ← _validate_candle_order candles;
  macd ← calculate_macd candles macd_config;
  atr ← calculate_atr candles atr_config;
  Ok (IndicatorAnalysis.mkIndicatorAnalysis (length candles) (data_cutoff_at candles timeframe) macd atr).

(** ** Closed form of the index loops *)

(** [n] entries, [None] before [k]. *)
Definition warm {A} (k n : nat) (g : nat -> A) : list (option A) :=
  map (fun i => if (i <? k)%nat then None else Some (g i)) (seq 0 n).

Section warm.
Context {A : Type}.
Implicit Types g : nat -> A.

Lemma warm_length k n g : length (warm k n g) = n.
Proof. unfold warm. by rewrite length_map, length_seq. Qed.

Lemma warm_lookup k n g i : (i < n)%nat ->
  warm k n g !! i = Some (if (i <? k)%nat then None else Some (g i)).
Proof.
  intros H. unfold warm. rewrite list_lookup_fmap, lookup_seq_lt by done. done.
Qed.

Lemma warm_ext k n g g' : (forall i, (k <= i < n)%nat -> g i = g' i) -> warm k n g = warm k n g'.
Proof.
  intros H. apply map_ext_in. intros i Hi. apply in_seq in Hi.
  destruct (Nat.ltb_spec i k); [done|]. f_equal. apply H. lia.
Qed.

Lemma warm_take k n g m : take m (warm k n g) = warm k (m `min` n) g.
Proof. unfold warm. by rewrite firstn_map, take_seq. Qed.

Lemma warm_None k n g : (n <= k)%nat -> warm k n g = replicate n None.
Proof.
  intros H. unfold warm. apply list_eq. intros i.
  destruct (decide (i < n)%nat) as [Hi|Hi].
  - rewrite lookup_replicate_2, list_lookup_fmap, lookup_seq_lt by done.
    change (Some (if (i <? k)%nat then None else Some (g i)) = Some None).
    by rewrite (proj2 (Nat.ltb_lt i k)) by lia.
  - rewrite !lookup_ge_None_2; [done|rewrite length_replicate|rewrite length_map, length_seq]; lia.
Qed.

(** A loop that assigns [out\[i\]] for consecutive [i]. *)
Lemma fill_lookup (g : nat -> option A) s m (out : list (option A)) i :
  foldl (fun out i => <[i := g i]> out) out (seq s m) !! i =
  if (s <=? i)%nat && (i <? s + m)%nat && (i <? length out)%nat then Some (g i) else out !! i.
Proof.
  revert s out; induction m as [|m IH]; intros s out; cbn [foldl seq].
  - destruct (Nat.leb_spec s i), (Nat.ltb_spec i (s + 0)); try done; lia.
  - rewrite IH, length_insert.
    destruct (Nat.leb_spec s i), (Nat.leb_spec (S s) i), (Nat.ltb_spec i (S s + m)),
      (Nat.ltb_spec i (s + S m)), (Nat.ltb_spec i (length out)); cbn; try lia; try done.
    all: first [ rewrite list_lookup_insert_ne by lia; done
               | assert (i = s) as -> by lia; rewrite list_lookup_insert_eq by lia; done
               | rewrite list_insert_ge by lia; done ].
Qed.

Lemma fill_length (g : nat -> option A) l (out : list (option A)) :
  length (foldl (fun out i => <[i := g i]> out) out l) = length out.
Proof. revert out; induction l as [|x l IH]; intros out; cbn; [done|]. by rewrite IH, length_insert. Qed.

Lemma fill_warm g k n : (k <= n)%nat ->
  foldl (fun out i => <[i := Some (g i)]> out) (replicate n None) (seq k (n - k)) = warm k n g.
Proof.
  intros H. apply list_eq_same_length with n; [by rewrite warm_length|by rewrite fill_length, length_replicate|].
  intros i x y Hi Hx Hy. rewrite warm_lookup in Hy by done.
  rewrite (fill_lookup (fun i => Some (g i))), length_replicate, lookup_replicate_2 in Hx by done.
  destruct (Nat.leb_spec k i), (Nat.ltb_spec i (k + (n - k))), (Nat.ltb_spec i n), (Nat.ltb_spec i k);
    cbn in Hx; try lia; congruence.
Qed.

(** The same loop with a carried value. *)
Fixpoint carry {S} (nxt : S -> nat -> S) (st : S) (s j : nat) : S :=
  match j with O => st | Datatypes.S j' => nxt (carry nxt st s j') (s + j')%nat end.

Lemma fill_carry {S} (nxt : S -> nat -> S) (g : S -> A) st s m (out : list (option A)) :
  foldl (fun '(out, st) i => let st := nxt st i in (<[i := Some (g st)]> out, st)) (out, st) (seq s m) =
    (foldl (fun out i => <[i := Some (g (carry nxt st s (i + 1 - s)))]> out) out (seq s m),
     carry nxt st s m).
Proof.
  induction m as [|m IH]; [done|].
  rewrite seq_S, !foldl_app, IH. cbn. by replace (s + m + 1 - s)%nat with (Datatypes.S m) by lia.
Qed.

(** A carried loop that also sets the entry before its first position. *)
Lemma fill_carry_warm {S} (nxt : S -> nat -> S) (g : S -> A) st p n : (1 <= p <= n)%nat ->
  (foldl (fun '(out, st) i => let st := nxt st i in (<[i := Some (g st)]> out, st))
    (<[(p - 1)%nat := Some (g st)]> (replicate n None), st) (seq p (n - p))).1 =
  warm (p - 1) n (fun i => g (carry nxt st p (i + 1 - p))).
Proof.
  intros H. rewrite fill_carry. cbn [fst]. rewrite <-fill_warm by lia.
  replace (n - (p - 1))%nat with (Datatypes.S (n - p)) by lia. cbn [seq foldl].
  replace (Datatypes.S (p - 1)) with p by lia. by replace (p - 1 + 1 - p)%nat with 0%nat by lia.
Qed.
End warm.

Lemma compact_warm k n (g : nat -> dec) : compact (warm k n g) = map (fun i => g (k + i)%nat) (seq 0 (n - k)).
Proof.
  unfold compact. destruct (decide (n <= k)%nat) as [H|H].
  - rewrite warm_None by done. replace (n - k)%nat with 0%nat by lia.
    clear H. induction n; cbn; done.
  - unfold warm. assert (seq 0 n = seq 0 k ++ seq k (n - k)) as ->.
    { rewrite <-seq_app. f_equal. lia. }
    rewrite map_app, omap_app.
    assert (omap id (map (fun i => if (i <? k)%nat then None else Some (g i)) (seq 0 k)) = []) as ->.
    { assert (forall l, Forall (fun i => (i < k)%nat) l ->
        omap id (map (fun i => if (i <? k)%nat then None else Some (g i)) l) = []) as Hl.
      { induction 1 as [|i l Hi _ IH]; cbn; [done|]. by rewrite (proj2 (Nat.ltb_lt i k) Hi). }
      apply Hl. apply Forall_forall. intros i Hi%in_seq. lia. }
    cbn. replace k with (k + 0)%nat at 1 by lia. clear H. generalize (n - k)%nat 0%nat. intros m.
    induction m as [|m IH]; intros j; cbn; [done|].
    destruct (Nat.ltb_spec (k + j) k); [lia|]. cbn. f_equal. rewrite <-Nat.add_succ_r. apply IH.
Qed.

(** ** EMA *)

(** The recurrence: an SMA seed, then [ema_next]. *)
Definition ema_alpha (period : nat) : dec := ddiv INDICATOR_PREC (D 2) (D (Z.of_nat (period + 1))).

Fixpoint ema_ref (values : list dec) (period k : nat) : dec :=
  match k with
  | O => mean period (take period values)
  | S k' => ema_next (ema_alpha period) (ema_ref values period k') (getitem values (period + k'))
  end.

Definition ema_at (values : list dec) (period i : nat) : dec :=
  dplus INDICATOR_PREC (ema_ref values period (i + 1 - period)).

Lemma ema_closed values period : (1 <= period)%nat ->
  calculate_ema values period = Ok (warm (period - 1) (length values) (ema_at values period)).
Proof.
  intros Hp. unfold calculate_ema.
  destruct (Nat.ltb_spec period 1); [lia|]. destruct (Nat.ltb_spec (length values) period) as [Hl|Hl].
  { by rewrite warm_None by lia. }
  f_equal. etransitivity; [apply (fill_carry_warm
    (fun previous index => ema_next (ema_alpha period) previous (getitem values index)) (dplus INDICATOR_PREC)); lia|].
  apply warm_ext. intros i _. unfold ema_at. f_equal.
  induction (i + 1 - period)%nat as [|j IH]; cbn; [done | by rewrite IH].
Qed.

Lemma ema_ref_take values period n k : (period + k <= n)%nat ->
  ema_ref (take n values) period k = ema_ref values period k.
Proof.
  induction k as [|k IH]; intros H; cbn [ema_ref].
  - by rewrite take_take, Nat.min_l by lia.
  - by rewrite IH, getitem_take by lia.
Qed.

Lemma ema_at_take values period n i : (period - 1 <= i < n)%nat ->
  ema_at (take n values) period i = ema_at values period i.
Proof. intros H. unfold ema_at. by rewrite ema_ref_take by lia. Qed.

(** An EMA of a prefix is the prefix of the EMA. *)
Lemma ema_warm_take values period n : (1 <= period)%nat ->
  warm (period - 1) (length (take n values)) (ema_at (take n values) period) =
  take n (warm (period - 1) (length values) (ema_at values period)).
Proof.
  intros Hp. rewrite warm_take, length_take. apply warm_ext. intros i Hi. apply ema_at_take. lia.
Qed.

(** [calculate_ema] never fails for a positive period: it returns one
    entry per value, [None] through the warm-up, then the rounded recurrence
    seeded by the simple mean; a period below one is refused.  An entry only
    depends on the values up to its own position. *)
Theorem calculate_ema_functional values period :
  (period = 0%nat /\ calculate_ema values period = Raise (Exc "ValueError" "period must be at least 1"))
  \/ (1 <= period)%nat /\ exists output, calculate_ema values period = Ok output
     /\ length output = length values
     /\ (forall i, (i < length values)%nat ->
          output !! i = Some (if (i <? period - 1)%nat then None
                              else Some (dplus INDICATOR_PREC (ema_ref values period (i + 1 - period)))))
     /\ forall n, calculate_ema (take n values) period = Ok (take n output).
Proof.
  destruct period as [|p]; [by left|]. right. split; [lia|].
  rewrite ema_closed by lia. eexists; split; [done|]. split_and!.
  - apply warm_length.
  - intros i Hi. by rewrite warm_lookup.
  - intros n. by rewrite ema_closed, ema_warm_take by lia.
Qed.

(** ** MACD *)

Lemma getitem_warm {A} k n (g : nat -> A) i : (i < n)%nat ->
  getitem (warm k n g) i = if (i <? k)%nat then None else Some (g i).
Proof. intros H. unfold getitem. by rewrite list_lookup_total_alt, warm_lookup by done. Qed.

Lemma macd_line_closed gf gs f s n : (f <= s)%nat -> (s <= n)%nat ->
  macd_line_loop (warm f n gf) (warm s n gs) s n =
  Ok (warm s n (fun i => dplus INDICATOR_PREC (dsub INDICATOR_PREC (gf i) (gs i)))).
Proof.
  intros Hf Hs. etransitivity; [|apply f_equal; apply (fill_warm _ s n Hs)]. unfold macd_line_loop.
  generalize (replicate n (@None dec)). assert (Forall (fun i => s <= i < n)%nat (seq s (n - s))) as Hl.
  { apply Forall_forall. intros i Hi%in_seq. lia. }
  induction Hl as [|i l Hi _ IH]; intros out; cbn [py_fold foldl]; [done|].
  rewrite !getitem_warm by lia.
  by rewrite (proj2 (Nat.ltb_ge i f)), (proj2 (Nat.ltb_ge i s)) by lia.
Qed.

Lemma macd_line_short (fast_ema slow_ema : list (option dec)) s n : (n <= s)%nat ->
  macd_line_loop fast_ema slow_ema s n = Ok (replicate n None).
Proof. intros H. unfold macd_line_loop. by replace (n - s)%nat with 0%nat by lia. Qed.

Lemma signal_line_closed k s n g :
  signal_line_loop (warm k (n - s) g) s n = warm (s + k) n (fun i => g (i - s)%nat).
Proof.
  unfold signal_line_loop. rewrite enumerate_seq, foldl_map, warm_length.
  assert (forall m (out : list (option dec)), foldl (fun out i => <[(s + i)%nat := getitem (warm k (n - s) g) i]> out) out (seq 0 m) =
    foldl (fun out i => <[i := getitem (warm k (n - s) g) (i - s)]> out) out (seq s m)) as ->.
  { intros m out. replace (seq s m) with (map (Nat.add s) (seq 0 m))
      by (etransitivity; [apply fmap_add_seq|by rewrite Nat.add_0_r]).
    rewrite foldl_map. generalize (seq 0 m). intros l. revert out.
    induction l as [|i l IH]; intros out; cbn [foldl]; [done|].
    rewrite IH. by replace (s + i - s)%nat with i by lia. }
  apply list_eq_same_length with n; [apply warm_length|rewrite fill_length; apply length_replicate|].
  intros i x y Hi Hx Hy. rewrite warm_lookup in Hy by done.
  rewrite fill_lookup, length_replicate, lookup_replicate_2 in Hx by done.
  destruct (Nat.leb_spec s i); cbn [andb] in Hx.
  - rewrite (proj2 (Nat.ltb_lt i (s + (n - s)))), (proj2 (Nat.ltb_lt i n)), getitem_warm in Hx by lia.
    destruct (Nat.ltb_spec (i - s) k), (Nat.ltb_spec i (s + k)); cbn in Hx; try lia; congruence.
  - destruct (Nat.ltb_spec i (s + k)); [congruence|lia].
Qed.

Lemma histogram_closed a b n gm gs : (a <= b)%nat ->
  histogram_loop (warm a n gm) (warm b n gs) n =
  warm b n (fun i => dplus INDICATOR_PREC (dsub INDICATOR_PREC (gm i) (gs i))).
Proof.
  intros Hab. unfold histogram_loop.
  assert (zip (warm a n gm) (warm b n gs) =
    map (fun i => (if (i <? a)%nat then None else Some (gm i), if (i <? b)%nat then None else Some (gs i))) (seq 0 n)) as ->.
  { unfold warm. generalize (seq 0 n). induction l; cbn; congruence. }
  assert (forall (h : nat -> option dec * option dec), enumerate (map h (seq 0 n)) = map (fun i => (i, h i)) (seq 0 n)) as ->.
  { intros h. unfold enumerate. rewrite length_map, length_seq. generalize (seq 0 n). induction l; cbn; congruence. }
  rewrite foldl_map.
  assert (forall l (out : list (option dec)), Forall (fun i => (i < b)%nat) l ->
    foldl (fun histogram i =>
      match (if (i <? a)%nat then None else Some (gm i)), (if (i <? b)%nat then None else Some (gs i)) with
      | Some m, Some s => <[i := Some (dplus INDICATOR_PREC (dsub INDICATOR_PREC m s))]> histogram
      | _, _ => histogram end) out l = out) as Hskip.
  { intros l out Hl. induction Hl as [|i l Hi _ IH]; cbn [foldl]; [done|].
    rewrite (proj2 (Nat.ltb_lt i b) Hi). by destruct (i <? a)%nat. }
  destruct (decide (n <= b)%nat) as [Hn|Hn].
  { rewrite Hskip, warm_None; [done|done|]. apply Forall_forall. intros i Hi%in_seq. lia. }
  rewrite <-fill_warm by lia.
  replace (seq 0 n) with (seq 0 b ++ seq b (n - b)) by (rewrite <-seq_app; f_equal; lia).
  rewrite foldl_app, (Hskip (seq 0 b)) by (apply Forall_forall; intros i Hi%in_seq; lia).
  generalize (replicate n (@None dec)). assert (Forall (fun i => b <= i)%nat (seq b (n - b))) as Hl.
  { apply Forall_forall. intros i Hi%in_seq. lia. }
  induction Hl as [|i l Hi _ IH]; intros out; cbn [foldl]; [done|].
  by rewrite (proj2 (Nat.ltb_ge i a)), (proj2 (Nat.ltb_ge i b)) by lia.
Qed.

(** The five series of a MACD result in closed form. *)
Section macd_series.
Variables (closes : list dec) (config : MACDConfig).
Let n := length closes.
Let s := (MACDConfig.slow_period config - 1)%nat.
Let b := (s + (MACDConfig.signal_period config - 1))%nat.

Definition fast_at := ema_at closes (MACDConfig.fast_period config).
Definition slow_at := ema_at closes (MACDConfig.slow_period config).
Definition macd_at i := dplus INDICATOR_PREC (dsub INDICATOR_PREC (fast_at i) (slow_at i)).
Definition macd_values := map (fun i => macd_at (s + i)) (seq 0 (n - s)).
Definition signal_at i := ema_at macd_values (MACDConfig.signal_period config) (i - s).
Definition histogram_at i := dplus INDICATOR_PREC (dsub INDICATOR_PREC (macd_at i) (signal_at i)).

Definition fast_series := warm (MACDConfig.fast_period config - 1) n fast_at.
Definition slow_series := warm s n slow_at.
Definition macd_series := warm s n macd_at.
Definition signal_series := warm b n signal_at.
Definition histogram_series := warm b n histogram_at.
End macd_series.

Definition macd_points (candles : list Candle) (config : MACDConfig) : list MACDPoint :=
  let closes := map Candle.close candles in
  map (fun '(index, candle) =>
        macd_point (fast_series closes config) (slow_series closes config) (macd_series closes config)
          (signal_series closes config) (histogram_series closes config) index candle)
      (enumerate candles).

Lemma calculate_macd_closed candles config : validate_period_order config = true ->
  _validate_candle_order candles = Ok tt ->
  calculate_macd candles config = Ok (MACDResult.mkMACDResult config "close" (macd_points candles config)).
Proof.
  unfold validate_period_order. intros Hv Ho. bool_hyps.
  repeat match goal with H : (_ <=? _)%nat = true |- _ => apply Nat.leb_le in H
                       | H : (_ <=? _)%nat = false |- _ => apply Nat.leb_gt in H end.
  unfold calculate_macd. rewrite Ho. cbn [mbind pyres_bind].
  set (closes := map Candle.close candles).
  assert (length candles = length closes) as -> by (unfold closes; by rewrite length_map).
  rewrite !ema_closed by lia. cbn [mbind pyres_bind].
  set (s := (MACDConfig.slow_period config - 1)%nat).
  assert (macd_line_loop (warm (MACDConfig.fast_period config - 1) (length closes)
      (ema_at closes (MACDConfig.fast_period config)))
    (warm s (length closes) (ema_at closes (MACDConfig.slow_period config))) s (length closes) =
    Ok (macd_series closes config)) as ->.
  { destruct (decide (s <= length closes)%nat) as [Hs|Hs]; [apply macd_line_closed; lia|].
    rewrite macd_line_short by lia. unfold macd_series. by rewrite warm_None by lia. }
  cbn [mbind pyres_bind].
  assert (compact (macd_series closes config) = macd_values closes config) as -> by apply compact_warm.
  rewrite ema_closed by lia. cbn [mbind pyres_bind].
  assert (length (macd_values closes config) = (length closes - s)%nat) as ->
    by (unfold macd_values; by rewrite length_map, length_seq).
  pose proof (signal_line_closed (MACDConfig.signal_period config - 1) s (length closes)
    (ema_at (macd_values closes config) (MACDConfig.signal_period config))) as E.
  change (warm (s + _) _ _) with (signal_series closes config) in E. rewrite E. clear E.
  assert (histogram_loop (macd_series closes config) (signal_series closes config) (length closes) =
    histogram_series closes config) as ->; [|reflexivity].
  apply histogram_closed. lia.
Qed.

(** Prefixes. *)
Section macd_prefix.
Variables (closes : list dec) (config : MACDConfig) (k : nat).
Hypothesis Hvalid : validate_period_order config = true.

Lemma macd_periods : (1 <= MACDConfig.fast_period config /\ MACDConfig.fast_period config < MACDConfig.slow_period config
  /\ 1 <= MACDConfig.signal_period config)%nat.
Proof.
  unfold validate_period_order in Hvalid. bool_hyps.
  repeat match goal with H : (_ <=? _)%nat = true |- _ => apply Nat.leb_le in H
                       | H : (_ <=? _)%nat = false |- _ => apply Nat.leb_gt in H end. lia.
Qed.

Lemma macd_at_take i : (MACDConfig.slow_period config - 1 <= i < k)%nat ->
  macd_at (take k closes) config i = macd_at closes config i.
Proof.
  intros Hi. pose proof macd_periods. unfold macd_at, fast_at, slow_at. by rewrite !ema_at_take by lia.
Qed.

Lemma macd_values_take : macd_values (take k closes) config =
  take (k - (MACDConfig.slow_period config - 1)) (macd_values closes config).
Proof.
  unfold macd_values. rewrite firstn_map, take_seq, length_take.
  replace ((k `min` length closes) - _)%nat
    with ((k - (MACDConfig.slow_period config - 1)) `min` (length closes - (MACDConfig.slow_period config - 1)))%nat by lia.
  apply map_ext_in. intros i Hi%in_seq. apply macd_at_take. lia.
Qed.

Lemma signal_at_take i : (MACDConfig.slow_period config - 1 + (MACDConfig.signal_period config - 1) <= i < k)%nat ->
  signal_at (take k closes) config i = signal_at closes config i.
Proof.
  intros Hi. pose proof macd_periods. unfold signal_at. rewrite macd_values_take. apply ema_at_take. lia.
Qed.

Lemma series_take :
  fast_series (take k closes) config = take k (fast_series closes config)
  /\ slow_series (take k closes) config = take k (slow_series closes config)
  /\ macd_series (take k closes) config = take k (macd_series closes config)
  /\ signal_series (take k closes) config = take k (signal_series closes config)
  /\ histogram_series (take k closes) config = take k (histogram_series closes config).
Proof.
  pose proof macd_periods.
  unfold fast_series, slow_series, macd_series, signal_series, histogram_series.
  rewrite !warm_take, length_take.
  split_and!; apply warm_ext; intros i Hi.
  - apply ema_at_take. lia.
  - apply ema_at_take. lia.
  - apply macd_at_take. lia.
  - apply signal_at_take. lia.
  - unfold histogram_at. by rewrite macd_at_take, signal_at_take by lia.
Qed.
End macd_prefix.

Lemma previous_of_take k l i : (i < k)%nat -> previous_of (take k l) i = previous_of l i.
Proof. destruct i as [|i]; intros; [done|]. apply getitem_take. lia. Qed.

Lemma macd_point_take k F S M G H i c : (i < k)%nat ->
  macd_point (take k F) (take k S) (take k M) (take k G) (take k H) i c = macd_point F S M G H i c.
Proof. intros Hi. unfold macd_point. by rewrite !previous_of_take, !getitem_take by done. Qed.

Lemma macd_points_take candles config k : validate_period_order config = true ->
  macd_points (take k candles) config = take k (macd_points candles config).
Proof.
  intros Hv. unfold macd_points. rewrite <-firstn_map.
  destruct (series_take (map Candle.close candles) config k Hv) as (-> & -> & -> & -> & ->).
  rewrite firstn_map, enumerate_take. apply map_ext_in. intros [i c] Hi%list_elem_of_In.
  apply macd_point_take. by eapply elem_of_enumerate_lt.
Qed.

Lemma validate_order_take candles k : _validate_candle_order candles = Ok tt ->
  _validate_candle_order (take k candles) = Ok tt.
Proof.
  rewrite !_validate_candle_order_ok, <-firstn_map. intros H i j x y Hij.
  rewrite !lookup_take_Some. naive_solver.
Qed.

(** For a valid configuration [calculate_macd] never fails an assertion:
    it fails exactly when the candles are out of order.  It never looks ahead:
    the points of a prefix of the candles are the prefix of the points. *)
Theorem calculate_macd_no_lookahead candles config : validate_period_order config = true ->
  (_validate_candle_order candles = Ok tt ->
     exists points, calculate_macd candles config = Ok (MACDResult.mkMACDResult config "close" points)
       /\ length points = length candles
       /\ forall k, calculate_macd (take k candles) config
                    = Ok (MACDResult.mkMACDResult config "close" (take k points)))
  /\ (forall e, _validate_candle_order candles = Raise e -> calculate_macd candles config = Raise e).
Proof.
  intros Hv. split.
  - intros Ho. exists (macd_points candles config). split_and!.
    + by apply calculate_macd_closed.
    + unfold macd_points, enumerate. rewrite length_map, length_zip_with, length_seq. lia.
    + intros k. rewrite <-macd_points_take by done.
      apply calculate_macd_closed; [done|]. by apply validate_order_take.
  - intros e He. unfold calculate_macd. by rewrite He.
Qed.

Definition macd_config_example : MACDConfig := MACDConfig.mkMACDConfig 1 2 1.

Definition candle_example (t o h l c : Z) : Candle :=
  Candle.mkCandle (t * minutes 1) (D o) (D h) (D l) (D c) (D 1).

Definition candles_example : list Candle :=
  [candle_example 0 10 12 9 11; candle_example 1 11 14 10 13; candle_example 2 13 13 8 9].

Lemma calculate_macd_no_lookahead_witness :
  exists points, calculate_macd candles_example macd_config_example
    = Ok (MACDResult.mkMACDResult macd_config_example "close" points)
  /\ calculate_macd (take 2 candles_example) macd_config_example
    = Ok (MACDResult.mkMACDResult macd_config_example "close" (take 2 points)).
Proof.
  destruct (proj1 (calculate_macd_no_lookahead candles_example macd_config_example eq_refl) eq_refl)
    as (points & H1 & _ & H2).
  exists points. split; [exact H1 | exact (H2 2%nat)].
Defined.

(** *** Crossovers *)

Lemma macd_points_lookup candles config i q : macd_points candles config !! i = Some q <->
  exists c, candles !! i = Some c /\
    q = macd_point (fast_series (map Candle.close candles) config) (slow_series (map Candle.close candles) config)
          (macd_series (map Candle.close candles) config) (signal_series (map Candle.close candles) config)
          (histogram_series (map Candle.close candles) config) i c.
Proof.
  unfold macd_points. rewrite list_lookup_fmap. rewrite fmap_Some. split.
  - intros ([j c] & H & ->). unfold enumerate in H. rewrite lookup_zip_with in H.
    apply bind_Some in H as (a & Ha & H). apply bind_Some in H as (b & Hb & [= -> ->]).
    apply lookup_seq in Ha as [-> _]. eauto.
  - intros (c & Hc & ->). exists (i, c). split; [|done]. unfold enumerate.
    rewrite lookup_zip_with, Hc, lookup_seq_lt by eauto using lookup_lt_Some. done.
Qed.

(** The histogram has the sign of the comparison it was computed from. *)
Lemma histogram_sign m s :
  let h := dplus INDICATOR_PREC (dsub INDICATOR_PREC m s) in
  (0 < Qval h <-> Qval s < Qval m)%Q /\ (Qval h < 0 <-> Qval m < Qval s)%Q.
Proof.
  cbn zeta. unfold dplus.
  destruct (rounds_sign _ _ (dround_spec INDICATOR_PREC (dsub INDICATOR_PREC m s) ltac:(done))) as (H1 & _ & H3).
  destruct (dsub_sign (p := INDICATOR_PREC) m s) as (G1 & _ & G3).
  by rewrite <-H1, <-H3, G1, G3.
Qed.

Lemma histogram_at_sign closes config i :
  (0 < Qval (histogram_at closes config i) <-> Qval (signal_at closes config i) < Qval (macd_at closes config i))%Q
  /\ (Qval (histogram_at closes config i) < 0 <-> Qval (macd_at closes config i) < Qval (signal_at closes config i))%Q.
Proof. apply histogram_sign. Qed.

Definition bullish_change (p q : option dec) : Prop :=
  exists h0 h1, p = Some h0 /\ q = Some h1 /\ (Qval h0 <= 0 /\ 0 < Qval h1)%Q.
Definition bearish_change (p q : option dec) : Prop :=
  exists h0 h1, p = Some h0 /\ q = Some h1 /\ (0 <= Qval h0 /\ Qval h1 < 0)%Q.

Lemma crossover_flags candles config i p q : validate_period_order config = true ->
  macd_points candles config !! i = Some p -> macd_points candles config !! S i = Some q ->
  (MACDPoint.bullish_crossover q = true <-> bullish_change (MACDPoint.histogram p) (MACDPoint.histogram q))
  /\ (MACDPoint.bearish_crossover q = true <-> bearish_change (MACDPoint.histogram p) (MACDPoint.histogram q)).
Proof.
  intros Hv (c & Hc & ->)%macd_points_lookup (d & Hd & ->)%macd_points_lookup.
  apply lookup_lt_Some in Hd. pose proof (macd_periods config Hv).
  set (closes := map Candle.close candles) in *.
  assert (S i < length closes)%nat as Hi by (unfold closes; by rewrite length_map).
  unfold macd_point, previous_of, macd_series, signal_series, histogram_series.
  rewrite !getitem_warm by lia.
  set (s := (MACDConfig.slow_period config - 1)%nat) in *.
  set (b := (s + (MACDConfig.signal_period config - 1))%nat) in *.
  unfold bullish_change, bearish_change.
  destruct (Nat.ltb_spec i b) as [Hib|Hib].
  { destruct (i <? s)%nat, (S i <? b)%nat; cbn; split; split; try done; by intros (? & ? & ? & _). }
  rewrite (proj2 (Nat.ltb_ge i s)), (proj2 (Nat.ltb_ge (S i) s)), (proj2 (Nat.ltb_ge (S i) b)) by lia.
  destruct (histogram_at_sign closes config i) as [P1 P2].
  destruct (histogram_at_sign closes config (S i)) as [Q1 Q2].
  cbn [fst snd MACDPoint.bullish_crossover MACDPoint.bearish_crossover MACDPoint.histogram].
  rewrite !andb_true_iff. autorewrite with dec_rw. split; split.
  - intros [H1 H2]. exists (histogram_at closes config i), (histogram_at closes config (S i)).
    split_and!; [done|done| |tauto]. apply Qnot_lt_le. rewrite P1. lra.
  - intros (h0 & h1 & [= <-] & [= <-] & H1 & H2). apply Q1 in H2. split; [|done].
    apply Qnot_lt_le. rewrite <-P1. lra.
  - intros [H1 H2]. exists (histogram_at closes config i), (histogram_at closes config (S i)).
    split_and!; [done|done| |tauto]. apply Qnot_lt_le. rewrite P2. lra.
  - intros (h0 & h1 & [= <-] & [= <-] & H1 & H2). apply Q2 in H2. split; [|done].
    apply Qnot_lt_le. rewrite <-P2. lra.
Qed.

(** A crossover flag of a MACD point says exactly that the printed
    histogram changed sign between the previous point and this one: bullish
    from at most zero to positive, bearish from at least zero to negative.  The
    first point has no crossover and no point has both. *)
Theorem macd_crossovers_are_sign_changes candles config r : validate_period_order config = true ->
  calculate_macd candles config = Ok r ->
  (forall i p q, MACDResult.points r !! i = Some p -> MACDResult.points r !! S i = Some q ->
    (MACDPoint.bullish_crossover q = true <-> bullish_change (MACDPoint.histogram p) (MACDPoint.histogram q))
    /\ (MACDPoint.bearish_crossover q = true <-> bearish_change (MACDPoint.histogram p) (MACDPoint.histogram q)))
  /\ (forall p, MACDResult.points r !! 0%nat = Some p ->
        MACDPoint.bullish_crossover p = false /\ MACDPoint.bearish_crossover p = false)
  /\ Forall (fun p => MACDPoint.bullish_crossover p && MACDPoint.bearish_crossover p = false) (MACDResult.points r).
Proof.
  intros Hv Hr.
  assert (_validate_candle_order candles = Ok tt) as Ho.
  { unfold calculate_macd in Hr. destruct (_validate_candle_order candles) as [[]|] eqn:E; [done|]. cbn in Hr. discriminate. }
  rewrite calculate_macd_closed in Hr by done. injection Hr as <-. cbn [MACDResult.points].
  assert (forall p, macd_points candles config !! 0%nat = Some p ->
    MACDPoint.bullish_crossover p = false /\ MACDPoint.bearish_crossover p = false) as H0.
  { intros p (c & _ & ->)%macd_points_lookup. unfold macd_point, previous_of.
    split; reflexivity. }
  split_and!; [intros; by eapply crossover_flags|done|].
  apply Forall_lookup. intros [|i] q Hq; [by rewrite (proj1 (H0 q Hq))|].
  destruct (lookup_lt_is_Some_2 (macd_points candles config) i) as [p Hp].
  { apply lookup_lt_Some in Hq. lia. }
  destruct (crossover_flags candles config i p q Hv Hp Hq) as [B1 B2].
  destruct (MACDPoint.bullish_crossover q), (MACDPoint.bearish_crossover q); try done.
  destruct (proj1 B1 eq_refl) as (? & h & _ & E & _ & Hh).
  destruct (proj1 B2 eq_refl) as (? & h' & _ & E' & _ & Hh').
  rewrite E in E'. injection E' as ->. lra.
Qed.

Lemma macd_crossovers_are_sign_changes_witness :
  exists r, calculate_macd candles_example macd_config_example = Ok r
    /\ Forall (fun p => MACDPoint.bullish_crossover p && MACDPoint.bearish_crossover p = false) (MACDResult.points r).
Proof.
  eexists. split; [vm_compute; reflexivity|].
  refine (proj2 (proj2 (macd_crossovers_are_sign_changes candles_example macd_config_example _ _ _)));
    vm_compute; reflexivity.
Defined.

(** ** ATR *)

(** The smoothed value behind the entry at [i]. *)
Definition atr_ref (true_ranges : list dec) (config : ATRConfig) (i : nat) : dec :=
  let period := ATRConfig.period config in
  match ATRConfig.smoothing config with
  | ATRSmoothing.SMA => mean period (slice true_ranges (i + 1 - period) (i + 1))
  | ATRSmoothing.WILDER =>
      carry (fun previous index => wilder_next period previous (getitem true_ranges index))
        (mean period (take period true_ranges)) period (i + 1 - period)
  end.

Definition atr_at (true_ranges : list dec) (config : ATRConfig) (i : nat) : dec :=
  dplus INDICATOR_PREC (atr_ref true_ranges config i).

Lemma atr_values_closed trs config n : ATRConfig.valid config = true ->
  atr_values trs config n = warm (ATRConfig.period config - 1) n (atr_at trs config).
Proof.
  unfold ATRConfig.valid. intros Hp%Nat.leb_le. unfold atr_values.
  destruct (Nat.ltb_spec n (ATRConfig.period config)) as [Hn|Hn]; [by rewrite warm_None by lia|].
  unfold atr_at, atr_ref. destruct (ATRConfig.smoothing config).
  - apply (fill_carry_warm (fun previous index => wilder_next (ATRConfig.period config) previous (getitem trs index))
      (dplus INDICATOR_PREC)). lia.
  - apply (fill_warm (fun i => dplus INDICATOR_PREC (mean (ATRConfig.period config)
      (slice trs (i + 1 - ATRConfig.period config) (i + 1))))). lia.
Qed.

Lemma atr_at_take trs config k i : ATRConfig.valid config = true ->
  (ATRConfig.period config - 1 <= i < k)%nat -> atr_at (take k trs) config i = atr_at trs config i.
Proof.
  unfold ATRConfig.valid. intros Hp%Nat.leb_le Hi. unfold atr_at, atr_ref. f_equal.
  destruct (ATRConfig.smoothing config); [|by rewrite slice_take by lia].
  rewrite take_take, Nat.min_l by lia.
  assert (i + 1 - ATRConfig.period config <= k - ATRConfig.period config)%nat as Hj by lia.
  revert Hj. generalize (i + 1 - ATRConfig.period config)%nat. intros j Hj.
  induction j as [|j IH]; cbn [carry]; [done|]. by rewrite IH, getitem_take by lia.
Qed.

Lemma true_ranges_length candles : length (_true_ranges candles) = length candles.
Proof. unfold _true_ranges, enumerate. rewrite length_map, length_zip_with, length_seq. lia. Qed.

Lemma true_range_at_take candles k i c : (i < k)%nat ->
  true_range_at (take k candles) i c = true_range_at candles i c.
Proof. intros H. destruct i as [|i]; cbn; [done|]. by rewrite lookup_take_lt by lia. Qed.

Lemma true_ranges_take candles k : _true_ranges (take k candles) = take k (_true_ranges candles).
Proof.
  unfold _true_ranges. rewrite firstn_map, enumerate_take. apply map_ext_in.
  intros [i c] Hi%list_elem_of_In. apply true_range_at_take. by eapply elem_of_enumerate_lt.
Qed.

(** A true range is not negative, and at least the candle's own range. *)
Lemma true_range_bounds candles i c : candle_wf c ->
  (0 <= Qval (true_range_at candles i c)
   /\ Qval (dsub DEFAULT_PREC (Candle.high c) (Candle.low c)) <= Qval (true_range_at candles i c))%Q.
Proof.
  intros Hc%candle_low_high. apply (dsub_nonneg (p := DEFAULT_PREC)) in Hc.
  destruct i as [|i]; cbn; [lra|]. destruct (candles !! i) as [d|]; [|lra].
  match goal with |- context [dmax (dmax ?a ?b) ?c] =>
    pose proof (dmax_ge (dmax a b) c); pose proof (dmax_ge a b) end. lra.
Qed.

Lemma true_ranges_nonneg candles : Forall candle_wf candles ->
  Forall (fun x => 0 <= Qval x)%Q (_true_ranges candles).
Proof.
  intros H. unfold _true_ranges. rewrite Forall_map. apply Forall_forall. intros [i c] Hi%list_elem_of_In.
  apply elem_of_enumerate in Hi. rewrite Forall_lookup in H.
  apply true_range_bounds. eauto.
Qed.

Lemma Qval_D_pos n : (0 < n)%nat -> (0 < Qval (D (Z.of_nat n)))%Q.
Proof. intros H. apply Qval_pos. cbn. lia. Qed.

Lemma mean_nonneg period l : (1 <= period)%nat -> Forall (fun x => 0 <= Qval x)%Q l ->
  (0 <= Qval (mean period l))%Q.
Proof. intros Hp Hl. apply ddiv_nonneg; [apply Qval_D_pos; lia | by apply dsum_nonneg]. Qed.

Lemma wilder_nonneg period a t : (1 <= period)%nat -> (0 <= Qval a)%Q -> (0 <= Qval t)%Q ->
  (0 <= Qval (wilder_next period a t))%Q.
Proof.
  intros Hp Ha Ht. apply ddiv_nonneg; [apply Qval_D_pos; lia|]. apply dadd_nonneg; [|done].
  apply dmul_nonneg; [done|]. rewrite Qval_D. change 0%Q with (inject_Z 0). rewrite <-Zle_Qle. lia.
Qed.

Lemma getitem_Forall (P : dec -> Prop) l i : Forall P l -> P (D 0) -> P (getitem l i).
Proof.
  intros Hl H0. unfold getitem. rewrite list_lookup_total_alt.
  destruct (l !! i) as [x|] eqn:E; [|done]. rewrite Forall_lookup in Hl. exact (Hl i x E).
Qed.

Lemma atr_at_nonneg trs config i : ATRConfig.valid config = true ->
  Forall (fun x => 0 <= Qval x)%Q trs -> (0 <= Qval (atr_at trs config i))%Q.
Proof.
  unfold ATRConfig.valid. intros Hp%Nat.leb_le Ht. unfold atr_at, dplus.
  destruct (rounds_sign _ _ (dround_spec INDICATOR_PREC (atr_ref trs config i) ltac:(done))) as (_ & _ & H3).
  apply Qnot_lt_le. rewrite <-H3. apply Qle_not_lt. clear H3.
  unfold atr_ref. destruct (ATRConfig.smoothing config).
  - induction (i + 1 - ATRConfig.period config)%nat as [|j IH]; cbn [carry].
    + apply mean_nonneg; [done | by apply Forall_take].
    + apply wilder_nonneg; [done|done|]. apply (getitem_Forall (fun x => 0 <= Qval x)%Q); [done|discriminate].
  - apply mean_nonneg; [done|]. by apply Forall_take, Forall_drop.
Qed.

Definition atr_points (candles : list Candle) (config : ATRConfig) : list ATRPoint :=
  map (fun '(index, candle) =>
        ATRPoint.mkATRPoint (Candle.timestamp candle) (getitem (_true_ranges candles) index)
          (getitem (atr_values (_true_ranges candles) config (length candles)) index))
      (enumerate candles).

Lemma atr_points_take candles config k : ATRConfig.valid config = true ->
  atr_points (take k candles) config = take k (atr_points candles config).
Proof.
  intros Hv. unfold atr_points. rewrite firstn_map, enumerate_take. apply map_ext_in.
  intros [i c] Hi%list_elem_of_In.
  assert (i < k)%nat by (by eapply elem_of_enumerate_lt).
  assert (i < length candles)%nat.
  { rewrite <-enumerate_take in Hi. apply elem_of_enumerate, lookup_lt_Some in Hi.
    rewrite length_take in Hi. lia. }
  rewrite !atr_values_closed, true_ranges_take, getitem_take by done.
  rewrite !getitem_warm by (rewrite ?length_take; lia).
  destruct (Nat.ltb_spec i (ATRConfig.period config - 1)); [done|]. by rewrite atr_at_take by (done || lia).
Qed.

(** For a valid configuration and valid candles in order, [calculate_atr]
    succeeds; every true range is at least the candle's own range, every ATR
    is missing exactly through the warm-up, otherwise the rounded Wilder or
    rolling-mean value and never negative; and a prefix of the candles gives
    the prefix of the points. *)
Theorem calculate_atr_functional candles config : ATRConfig.valid config = true ->
  Forall candle_wf candles -> _validate_candle_order candles = Ok tt ->
  exists points, calculate_atr candles config = Ok (ATRResult.mkATRResult config points)
    /\ (forall i c, candles !! i = Some c -> exists p, points !! i = Some p
         /\ ATRPoint.timestamp p = Candle.timestamp c
         /\ ATRPoint.true_range p = true_range_at candles i c
         /\ (0 <= Qval (ATRPoint.true_range p))%Q
         /\ ATRPoint.atr p = (if (i <? ATRConfig.period config - 1)%nat then None
                              else Some (dplus INDICATOR_PREC (atr_ref (_true_ranges candles) config i)))
         /\ (forall a, ATRPoint.atr p = Some a -> 0 <= Qval a)%Q)
    /\ forall k, calculate_atr (take k candles) config = Ok (ATRResult.mkATRResult config (take k points)).
Proof.
  intros Hv Hc Ho. exists (atr_points candles config). split_and!.
  - unfold calculate_atr. by rewrite Ho.
  - intros i c Hi. eexists. split.
    { unfold atr_points. rewrite list_lookup_fmap. unfold enumerate.
      rewrite lookup_zip_with, Hi, lookup_seq_lt by eauto using lookup_lt_Some. done. }
    cbn [ATRPoint.timestamp ATRPoint.true_range ATRPoint.atr Nat.add].
    assert (getitem (_true_ranges candles) i = true_range_at candles i c) as ->.
    { unfold getitem. apply list_lookup_total_correct. unfold _true_ranges, enumerate.
      rewrite list_lookup_fmap, lookup_zip_with, Hi, lookup_seq_lt by eauto using lookup_lt_Some. done. }
    rewrite atr_values_closed, getitem_warm by eauto using lookup_lt_Some.
    split_and!; [done|done| |done|].
    + apply true_range_bounds. rewrite Forall_lookup in Hc. eauto.
    + intros a. destruct (_ <? _)%nat; [done|]. intros [= <-].
      apply atr_at_nonneg; [done | by apply true_ranges_nonneg].
  - intros k. unfold calculate_atr. rewrite validate_order_take by done. cbn [mbind pyres_bind].
    rewrite <-atr_points_take by done. done.
Qed.

Lemma candles_example_wf : Forall candle_wf candles_example.
Proof. repeat constructor; apply valid_candle_wf; reflexivity. Qed.

Lemma calculate_atr_functional_witness :
  exists points, calculate_atr candles_example (ATRConfig.mkATRConfig 2 ATRSmoothing.WILDER)
    = Ok (ATRResult.mkATRResult (ATRConfig.mkATRConfig 2 ATRSmoothing.WILDER) points).
Proof.
  destruct (calculate_atr_functional candles_example (ATRConfig.mkATRConfig 2 ATRSmoothing.WILDER)
    eq_refl candles_example_wf eq_refl) as (points & H & _).
  exists points. exact H.
Defined.
