(* ===== verification/Structure.v ===== *)
(** The market structure engine: [engines/structure/primitives.py] and
    [schemas/structure.py].

    Swing detection with its confirmation windows, price zones with their
    binary-searched anchors, trend classification and the single-pass detection
    of structure breaks.  Zone accumulators are mutable objects shared by two
    lists in the code: here a zone is named by its position, the anchors hold
    that name and [zones] is the store. *)
From Stdlib Require Import ZArith QArith Lia Lqa Sorting.Sorted Sorting.Permutation.
From stdpp Require Import base list strings numbers pretty sorting sets.
From S2P Require Import Prelude Decimal Time Candle Indicators.
Local Open Scope Z_scope.

(** ** Schemas *)

Module SwingKind.
Inductive SwingKind := HIGH | LOW.
#[global] Instance SwingKind_eqdec : EqDecision SwingKind := ltac:(solve_decision).
Definition value (k : SwingKind) : string := match k with HIGH => "HIGH" | LOW => "LOW" end.
End SwingKind.
Abbreviation SwingKind := SwingKind.SwingKind.

Module SwingTiePolicy.
Inductive SwingTiePolicy := STRICT | EARLIEST | LATEST.
#[global] Instance SwingTiePolicy_eqdec : EqDecision SwingTiePolicy := ltac:(solve_decision).
End SwingTiePolicy.
Abbreviation SwingTiePolicy := SwingTiePolicy.SwingTiePolicy.

Module CandidateResolution.
Inductive CandidateResolution := PENDING | CONFIRMED | REJECTED.
#[global] Instance CandidateResolution_eqdec : EqDecision CandidateResolution := ltac:(solve_decision).
End CandidateResolution.
Abbreviation CandidateResolution := CandidateResolution.CandidateResolution.

Module ZoneKind.
Inductive ZoneKind := SUPPORT | RESISTANCE.
#[global] Instance ZoneKind_eqdec : EqDecision ZoneKind := ltac:(solve_decision).
Definition value (k : ZoneKind) : string :=
  match k with SUPPORT => "SUPPORT" | RESISTANCE => "RESISTANCE" end.
End ZoneKind.
Abbreviation ZoneKind := ZoneKind.ZoneKind.

Module TrendState.
Inductive TrendState := BULLISH | BEARISH | RANGE | INSUFFICIENT_DATA.
#[global] Instance TrendState_eqdec : EqDecision TrendState := ltac:(solve_decision).
End TrendState.
Abbreviation TrendState := TrendState.TrendState.

Module StructureBreakBasis.
Inductive StructureBreakBasis := CLOSE | WICK.
#[global] Instance StructureBreakBasis_eqdec : EqDecision StructureBreakBasis := ltac:(solve_decision).
End StructureBreakBasis.
Abbreviation StructureBreakBasis := StructureBreakBasis.StructureBreakBasis.

Module StructureEventType.
Inductive StructureEventType := BOS | MSS | BREAK.
#[global] Instance StructureEventType_eqdec : EqDecision StructureEventType := ltac:(solve_decision).
Definition value (t : StructureEventType) : string :=
  match t with BOS => "BOS" | MSS => "MSS" | BREAK => "BREAK" end.
End StructureEventType.
Abbreviation StructureEventType := StructureEventType.StructureEventType.

Module StructureDirection.
Inductive StructureDirection := BULLISH | BEARISH.
#[global] Instance StructureDirection_eqdec : EqDecision StructureDirection := ltac:(solve_decision).
Definition value (d : StructureDirection) : string :=
  match d with BULLISH => "bullish" | BEARISH => "bearish" end.
End StructureDirection.
Abbreviation StructureDirection := StructureDirection.StructureDirection.

Module StructureDisplayAlias.
Inductive StructureDisplayAlias := CHOCH.
#[global] Instance StructureDisplayAlias_eqdec : EqDecision StructureDisplayAlias := ltac:(solve_decision).
End StructureDisplayAlias.
Abbreviation StructureDisplayAlias := StructureDisplayAlias.StructureDisplayAlias.

Module MarketStructureConfig.
Record MarketStructureConfig := mkMarketStructureConfig {
  tick_size : dec;
  swing_left_bars : nat;
  swing_right_bars : nat;
  swing_tie_policy : SwingTiePolicy;
  trend_points_per_side : nat;
  structure_equality_tolerance_ticks : Z;
  structure_break_basis : StructureBreakBasis;
  structure_break_buffer_ticks : Z;
  zone_merge_tolerance_ticks : Z;
  zone_padding_ticks : Z
}.
Definition valid (c : MarketStructureConfig) : bool :=
  dltb (D 0) (tick_size c) && (1 <=? swing_left_bars c)%nat && (1 <=? swing_right_bars c)%nat
  && (2 <=? trend_points_per_side c)%nat && (0 <=? structure_equality_tolerance_ticks c)
  && (0 <=? structure_break_buffer_ticks c) && (0 <=? zone_merge_tolerance_ticks c)
  && (0 <=? zone_padding_ticks c).
End MarketStructureConfig.
Abbreviation MarketStructureConfig := MarketStructureConfig.MarketStructureConfig.

Module SwingCandidate.
Record SwingCandidate := mkSwingCandidate {
  candidate_id : string;
  kind : SwingKind;
  pivot_index : nat;
  pivot_timestamp : datetime;
  price : dec;
  candidate_at : datetime;
  required_right_bars : nat;
  observed_right_bars : nat;
  resolution : CandidateResolution;
  resolved_at : option datetime
}.
End SwingCandidate.
Abbreviation SwingCandidate := SwingCandidate.SwingCandidate.

Module ConfirmedSwing.
Record ConfirmedSwing := mkConfirmedSwing {
  swing_id : string;
  source_candidate_id : string;
  kind : SwingKind;
  pivot_index : nat;
  pivot_timestamp : datetime;
  price : dec;
  candidate_at : datetime;
  confirmed_at : datetime;
  left_evidence_timestamps : list datetime;
  right_evidence_timestamps : list datetime
}.
#[global] Instance ConfirmedSwing_eqdec : EqDecision ConfirmedSwing := ltac:(solve_decision).
End ConfirmedSwing.
Abbreviation ConfirmedSwing := ConfirmedSwing.ConfirmedSwing.

Module PriceZoneCandidate.
Record PriceZoneCandidate := mkPriceZoneCandidate {
  zone_id : string;
  kind : ZoneKind;
  lower_bound : dec;
  upper_bound : dec;
  anchor_price : dec;
  touch_count : nat;
  source_swing_ids : list string;
  source_pivot_timestamps : list datetime;
  created_at : datetime;
  updated_at : datetime
}.
Definition valid (z : PriceZoneCandidate) : bool :=
  dltb (D 0) (lower_bound z) && dltb (D 0) (upper_bound z) && dltb (D 0) (anchor_price z)
  && (1 <=? touch_count z)%nat && negb (dltb (upper_bound z) (lower_bound z)).
End PriceZoneCandidate.
Abbreviation PriceZoneCandidate := PriceZoneCandidate.PriceZoneCandidate.

Module StructureBreakEvent.
Record StructureBreakEvent := mkStructureBreakEvent {
  type : StructureEventType;
  direction : StructureDirection;
  price : dec;
  timestamp : datetime;
  broken_structure_id : string;
  confirmation_type : StructureBreakBasis;
  confirmed_at : datetime;
  display_alias : option StructureDisplayAlias;
  trend_before_break : TrendState
}.
Definition validate_event_semantics (e : StructureBreakEvent) : bool :=
  dltb (D 0) (price e)
  && negb (confirmed_at e <=? timestamp e)
  && negb (bool_decide (type e = StructureEventType.MSS)
           && negb (bool_decide (display_alias e = Some StructureDisplayAlias.CHOCH)))
  && negb (negb (bool_decide (type e = StructureEventType.MSS))
           && negb (bool_decide (display_alias e = None))).
End StructureBreakEvent.
Abbreviation StructureBreakEvent := StructureBreakEvent.StructureBreakEvent.

Module StructureRejection.
Record StructureRejection := mkStructureRejection {
  code : string;
  timestamp : datetime;
  confirmed_at : datetime;
  up_structure_id : string;
  down_structure_id : string
}.
End StructureRejection.
Abbreviation StructureRejection := StructureRejection.StructureRejection.

Module MarketStructureResult.
Record MarketStructureResult := mkMarketStructureResult {
  timeframe : Timeframe;
  config : MarketStructureConfig;
  candle_count : nat;
  data_cutoff_at : option datetime;
  candidate_swings : list SwingCandidate;
  confirmed_swings : list ConfirmedSwing;
  support_candidates : list PriceZoneCandidate;
  resistance_candidates : list PriceZoneCandidate;
  trend_state : TrendState;
  structure_events : list StructureBreakEvent;
  structure_rejections : list StructureRejection
}.
End MarketStructureResult.
Abbreviation MarketStructureResult := MarketStructureResult.MarketStructureResult.

(** ** Input *)

(** [price % tick_size != 0], which [decimal] refuses when the quotient does
    not fit the precision. *)
Definition misaligned (price tick_size : dec) : pyres bool :=
  match drem DEFAULT_PREC price tick_size with
  | Some r => Ok (negb (deqb r (D 0)))
  | None => Raise (Exc "InvalidOperation" "")
  end.

Definition ohlc_fields (c : Candle) : list (string * dec) :=
  [("open", Candle.open c); ("high", Candle.high c); ("low", Candle.low c); ("close", Candle.close c)].

Definition _validate_candles (candles : list Candle) (timeframe : Timeframe) (tick_size : dec) : pyres unit :=
  _ ← py_for (fun candle =>
        py_for (fun '(field_name, price) =>
          bad ← misaligned price tick_size;
          raise_if bad (Exc "MarketStructureInputError"
            ("candle " +:+ field_name +:+ " price is not aligned to tick_size")))
          (ohlc_fields candle)) candles;
  validate_spacing "MarketStructureInputError" timeframe candles.

(** ** Swings *)

Definition all_gt (price : dec) (others : list dec) : bool := forallb (fun other => dltb other price) others.
Definition all_ge (price : dec) (others : list dec) : bool := forallb (fun other => dleb other price) others.
Definition all_lt (price : dec) (others : list dec) : bool := forallb (fun other => dltb price other) others.
Definition all_le (price : dec) (others : list dec) : bool := forallb (fun other => dleb price other) others.

Definition _left_qualifies (kind : SwingKind) (price : dec) (left_prices : list dec)
    (tie_policy : SwingTiePolicy) : bool :=
  match kind with
  | SwingKind.HIGH =>
      match tie_policy with
      | SwingTiePolicy.STRICT | SwingTiePolicy.EARLIEST => all_gt price left_prices
      | SwingTiePolicy.LATEST => all_ge price left_prices
      end
  | SwingKind.LOW =>
      match tie_policy with
      | SwingTiePolicy.STRICT | SwingTiePolicy.EARLIEST => all_lt price left_prices
      | SwingTiePolicy.LATEST => all_le price left_prices
      end
  end.

Definition _fully_qualifies (kind : SwingKind) (price : dec) (left_prices right_prices : list dec)
    (tie_policy : SwingTiePolicy) : bool :=
  match kind with
  | SwingKind.HIGH =>
      match tie_policy with
      | SwingTiePolicy.STRICT => all_gt price left_prices && all_gt price right_prices
      | SwingTiePolicy.EARLIEST => all_gt price left_prices && all_ge price right_prices
      | SwingTiePolicy.LATEST => all_ge price left_prices && all_gt price right_prices
      end
  | SwingKind.LOW =>
      match tie_policy with
      | SwingTiePolicy.STRICT => all_lt price left_prices && all_lt price right_prices
      | SwingTiePolicy.EARLIEST => all_lt price left_prices && all_le price right_prices
      | SwingTiePolicy.LATEST => all_le price left_prices && all_lt price right_prices
      end
  end.

Definition side_price (kind : SwingKind) (bar : Candle) : dec :=
  match kind with SwingKind.HIGH => Candle.high bar | SwingKind.LOW => Candle.low bar end.

(** The body of the inner loop of [_detect_swings]. *)
Definition swing_at (candles : list Candle) (timeframe : Timeframe) (config : MarketStructureConfig)
    (pivot_index : nat) (pivot : Candle) (kind : SwingKind) : option (SwingCandidate * option ConfirmedSwing) :=
  let left_bars := MarketStructureConfig.swing_left_bars config in
  let right_bars := MarketStructureConfig.swing_right_bars config in
  let tie_policy := MarketStructureConfig.swing_tie_policy config in
  let candle_duration := timeframe_duration timeframe in
  let left := slice candles (pivot_index - left_bars) pivot_index in
  let available_right_count := (right_bars `min` (length candles - pivot_index - 1))%nat in
  let right := slice candles (pivot_index + 1) (pivot_index + 1 + available_right_count) in
  let price := side_price kind pivot in
  let left_prices := map (side_price kind) left in
  if negb (_left_qualifies kind price left_prices tie_policy) then None else
  let candidate_id := SwingKind.value kind +:+ ":" +:+ isoformat (Candle.timestamp pivot) in
  let candidate_at := Candle.timestamp pivot + candle_duration in
  let has_full_right_window := (available_right_count =? right_bars)%nat in
  let resolved_at :=
    if has_full_right_window then
      match list.last right with Some bar => Some (Candle.timestamp bar + candle_duration) | None => None end
    else None in
  let resolution :=
    if has_full_right_window then
      if _fully_qualifies kind price left_prices (map (side_price kind) right) tie_policy
      then CandidateResolution.CONFIRMED else CandidateResolution.REJECTED
    else CandidateResolution.PENDING in
  Some (SwingCandidate.mkSwingCandidate candidate_id kind pivot_index (Candle.timestamp pivot) price
          candidate_at right_bars available_right_count resolution resolved_at,
        match resolution, resolved_at with
        | CandidateResolution.CONFIRMED, Some resolved_at =>
            Some (ConfirmedSwing.mkConfirmedSwing candidate_id candidate_id kind pivot_index
                    (Candle.timestamp pivot) price candidate_at resolved_at
                    (map Candle.timestamp left) (map Candle.timestamp right))
        | _, _ => None
        end).

(** [for pivot_index in range(left, n): for kind in (HIGH, LOW)] *)
Definition swing_scan (candles : list Candle) (timeframe : Timeframe) (config : MarketStructureConfig) :
    list (SwingCandidate * option ConfirmedSwing) :=
  flat_map (fun '(pivot_index, pivot) =>
    omap (swing_at candles timeframe config pivot_index pivot) [SwingKind.HIGH; SwingKind.LOW])
    (drop (MarketStructureConfig.swing_left_bars config) (enumerate candles)).

Definition _detect_swings (candles : list Candle) (timeframe : Timeframe) (config : MarketStructureConfig) :
    list SwingCandidate * list ConfirmedSwing :=
  let found := swing_scan candles timeframe config in (map fst found, omap snd found).

(** ** Price zones *)

Module ZoneAccumulator.
Record ZoneAccumulator := mkZoneAccumulator {
  zone_id : string;
  kind : ZoneKind;
  anchor_price : dec;
  minimum_source_price : dec;
  maximum_source_price : dec;
  created_at : datetime;
  updated_at : datetime;
  source_swing_ids : list string;
  source_pivot_timestamps : list datetime
}.
End ZoneAccumulator.
Abbreviation _ZoneAccumulator := ZoneAccumulator.ZoneAccumulator.

(** An anchor: its price and the position of its zone. *)
Abbreviation anchor := (dec * nat)%type.

Definition distance (price anchor_price : dec) : dec :=
  dabs DEFAULT_PREC (dsub DEFAULT_PREC price anchor_price).

(** The two binary searches, on the original subtraction predicate. *)
Definition _zone_match_interval (anchors : list anchor) (price tolerance : dec) : nat * nat :=
  let lo := bisect (fun '(a, _) => dltb a price && dltb tolerance (distance price a))
              anchors 0 (length anchors) in
  let hi := bisect (fun '(a, _) => negb (dltb price a && dltb tolerance (distance price a)))
              anchors lo (length anchors) in
  (lo, hi).

(** [swing] joins [zone]. *)
Definition zone_touch (swing : ConfirmedSwing) (zone : _ZoneAccumulator) : _ZoneAccumulator :=
  ZoneAccumulator.mkZoneAccumulator (ZoneAccumulator.zone_id zone) (ZoneAccumulator.kind zone)
    (ZoneAccumulator.anchor_price zone)
    (dmin (ZoneAccumulator.minimum_source_price zone) (ConfirmedSwing.price swing))
    (dmax (ZoneAccumulator.maximum_source_price zone) (ConfirmedSwing.price swing))
    (ZoneAccumulator.created_at zone) (ConfirmedSwing.confirmed_at swing)
    (ZoneAccumulator.source_swing_ids zone ++ [ConfirmedSwing.swing_id swing])
    (ZoneAccumulator.source_pivot_timestamps zone ++ [ConfirmedSwing.pivot_timestamp swing]).

Definition zone_open (kind : ZoneKind) (position : nat) (swing : ConfirmedSwing) : _ZoneAccumulator :=
  ZoneAccumulator.mkZoneAccumulator (ZoneKind.value kind +:+ ":" +:+ pretty position) kind
    (ConfirmedSwing.price swing) (ConfirmedSwing.price swing) (ConfirmedSwing.price swing)
    (ConfirmedSwing.confirmed_at swing) (ConfirmedSwing.confirmed_at swing)
    [ConfirmedSwing.swing_id swing] [ConfirmedSwing.pivot_timestamp swing].

(** The keys [(anchor_price, position)] and [(distance, position)]. *)
Definition anchor_lt : anchor -> anchor -> bool := lex_lt (on_key fst dltb) (on_key snd Nat.ltb).

Definition zone_matches (zones : list _ZoneAccumulator) (anchors : list anchor) (price tolerance : dec) :
    list anchor :=
  let '(lo, hi) := _zone_match_interval anchors price tolerance in
  omap (fun '(_, index) =>
    zone ← zones !! index;
    let d := distance price (ZoneAccumulator.anchor_price zone) in
    if dleb d tolerance then Some (d, index) else None) (slice anchors lo hi).

(** One iteration of the swing loop: the zones and the anchors. *)
Definition build_zones_step (kind : ZoneKind) (tolerance : dec)
    (st : list _ZoneAccumulator * list anchor) (swing : ConfirmedSwing) :
    list _ZoneAccumulator * list anchor :=
  let '(zones, anchors) := st in
  match py_min anchor_lt (zone_matches zones anchors (ConfirmedSwing.price swing) tolerance) with
  | Some (_, index) => (alter (zone_touch swing) index zones, anchors)
  | None =>
      let position := length zones in
      let item := (ConfirmedSwing.price swing, position) in
      let insertion := bisect (fun other => negb (anchor_lt item other)) anchors 0 (length anchors) in
      (zones ++ [zone_open kind position swing], list_insert_at anchors insertion item)
  end.

Definition of_kind (kind : SwingKind) (swings : list ConfirmedSwing) : list ConfirmedSwing :=
  filter (fun swing => ConfirmedSwing.kind swing = kind) swings.

Definition swing_order (a b : ConfirmedSwing) : bool :=
  lex_lt (on_key ConfirmedSwing.confirmed_at Z.ltb) (on_key ConfirmedSwing.pivot_index Nat.ltb) a b.

Definition eligible_swings (swings : list ConfirmedSwing) (kind : ZoneKind) : list ConfirmedSwing :=
  let swing_kind := match kind with ZoneKind.SUPPORT => SwingKind.LOW | ZoneKind.RESISTANCE => SwingKind.HIGH end in
  sort_by swing_order (of_kind swing_kind swings).

Definition ticks (config : MarketStructureConfig) (n : Z) : dec :=
  dmul DEFAULT_PREC (MarketStructureConfig.tick_size config) (D n).

Definition zone_candidate (padding : dec) (zone : _ZoneAccumulator) : PriceZoneCandidate :=
  PriceZoneCandidate.mkPriceZoneCandidate (ZoneAccumulator.zone_id zone) (ZoneAccumulator.kind zone)
    (dsub DEFAULT_PREC (ZoneAccumulator.minimum_source_price zone) padding)
    (dadd DEFAULT_PREC (ZoneAccumulator.maximum_source_price zone) padding)
    (ZoneAccumulator.anchor_price zone) (length (ZoneAccumulator.source_swing_ids zone))
    (ZoneAccumulator.source_swing_ids zone) (ZoneAccumulator.source_pivot_timestamps zone)
    (ZoneAccumulator.created_at zone) (ZoneAccumulator.updated_at zone).

Definition _build_zones (swings : list ConfirmedSwing) (kind : ZoneKind) (config : MarketStructureConfig) :
    pyres (list PriceZoneCandidate) :=
  let tolerance := ticks config (MarketStructureConfig.zone_merge_tolerance_ticks config) in
  let padding := ticks config (MarketStructureConfig.zone_padding_ticks config) in
  let '(zones, _) := foldl (build_zones_step kind tolerance) ([], []) (eligible_swings swings kind) in
  py_map (fun zone => validated PriceZoneCandidate.valid (zone_candidate padding zone)) zones.

(** ** Trend *)

(** [l\[-n:\]] for [n > 0]; also [deque(maxlen=n)]. *)
Definition last_n {A} (n : nat) (l : list A) : list A := drop (length l - n) l.

Definition rising (tolerance : dec) (swings : list ConfirmedSwing) : bool :=
  forallb (fun '(previous, current) =>
    dltb (dadd DEFAULT_PREC (ConfirmedSwing.price previous) tolerance) (ConfirmedSwing.price current))
    (pairwise swings).

Definition falling (tolerance : dec) (swings : list ConfirmedSwing) : bool :=
  forallb (fun '(previous, current) =>
    dltb (ConfirmedSwing.price current) (dsub DEFAULT_PREC (ConfirmedSwing.price previous) tolerance))
    (pairwise swings).

Definition _classify_trend (swings : list ConfirmedSwing) (config : MarketStructureConfig) : TrendState :=
  let required := MarketStructureConfig.trend_points_per_side config in
  let highs := last_n required (of_kind SwingKind.HIGH swings) in
  let lows := last_n required (of_kind SwingKind.LOW swings) in
  if (length highs <? required)%nat || (length lows <? required)%nat then TrendState.INSUFFICIENT_DATA else
  let tolerance := ticks config (MarketStructureConfig.structure_equality_tolerance_ticks config) in
  let higher_highs := rising tolerance highs in
  let higher_lows := rising tolerance lows in
  let lower_highs := falling tolerance highs in
  let lower_lows := falling tolerance lows in
  if higher_highs && higher_lows then TrendState.BULLISH
  else if lower_highs && lower_lows then TrendState.BEARISH
  else TrendState.RANGE.

(** ** Structure breaks *)

(** The reference selection of a level. *)
Definition _latest_unbroken_swing (swings : list ConfirmedSwing) (kind : SwingKind) (available_at : datetime)
    (broken_structure_ids : list string) : option ConfirmedSwing :=
  py_max swing_order
    (filter (fun swing => ConfirmedSwing.kind swing = kind
                          /\ (ConfirmedSwing.confirmed_at swing <= available_at
                              /\ ConfirmedSwing.swing_id swing ∉ broken_structure_ids)) swings).

Definition _event_type_for (direction : StructureDirection) (trend : TrendState) : StructureEventType :=
  match direction with
  | StructureDirection.BULLISH =>
      match trend with
      | TrendState.BULLISH => StructureEventType.BOS
      | TrendState.BEARISH => StructureEventType.MSS
      | _ => StructureEventType.BREAK
      end
  | StructureDirection.BEARISH =>
      match trend with
      | TrendState.BEARISH => StructureEventType.BOS
      | TrendState.BULLISH => StructureEventType.MSS
      | _ => StructureEventType.BREAK
      end
  end.

(** The loop variables of [_detect_structure_breaks]. *)
Module BreakState.
Record BreakState := mkBreakState {
  frontier : nat;
  trend_tail : SwingKind -> list ConfirmedSwing;
  unbroken : SwingKind -> list ConfirmedSwing;
  trend_before_break : option TrendState;
  broken_structure_ids : list string;
  events : list StructureBreakEvent;
  rejections : list StructureRejection
}.
Definition init : BreakState := mkBreakState 0 (fun _ => []) (fun _ => []) None [] [] [].
End BreakState.
Abbreviation BreakState := BreakState.BreakState.

(** A dictionary over the two kinds. *)
Definition update_kind {A} (d : SwingKind -> A) (kind : SwingKind) (f : A -> A) : SwingKind -> A :=
  fun k => if decide (k = kind) then f (d k) else d k.

(** [while frontier < len(swings) and swings\[frontier\].confirmed_at <= candle.timestamp] *)
Fixpoint consume (required : nat) (now : datetime) (pending : list ConfirmedSwing)
    (frontier : nat) (trend_tail unbroken : SwingKind -> list ConfirmedSwing) :=
  match pending with
  | swing :: pending' =>
      if ConfirmedSwing.confirmed_at swing <=? now then
        let kind := ConfirmedSwing.kind swing in
        consume required now pending' (S frontier)
          (update_kind trend_tail kind (fun tail => last_n required (tail ++ [swing])))
          (update_kind unbroken kind (fun values => values ++ [swing]))
      else (frontier, trend_tail, unbroken)
  | [] => (frontier, trend_tail, unbroken)
  end.

(** [while values and values\[-1\].swing_id in broken: values.pop()] *)
Definition pop_broken (broken : list string) (values : list ConfirmedSwing) : list ConfirmedSwing :=
  reverse (drop_while (fun swing => bool_decide (ConfirmedSwing.swing_id swing ∈ broken)) (reverse values)).

Section breaks.
Variables (timeframe : Timeframe) (config : MarketStructureConfig).

Definition break_event (direction : StructureDirection) (break_price : dec) (candle : Candle)
    (level : ConfirmedSwing) (trend : TrendState) : StructureBreakEvent :=
  let event_type := _event_type_for direction trend in
  StructureBreakEvent.mkStructureBreakEvent event_type direction break_price (Candle.timestamp candle)
    (ConfirmedSwing.swing_id level) (MarketStructureConfig.structure_break_basis config)
    (Candle.timestamp candle + timeframe_duration timeframe)
    (if bool_decide (event_type = StructureEventType.MSS) then Some StructureDisplayAlias.CHOCH else None)
    trend.

(** What a candle does to its two levels. *)
Inductive outcome :=
| Nothing
| Broken (e : StructureBreakEvent)
| Ambiguous (r : StructureRejection).

(** The tests of the loop body on the candle, given the levels and the trend. *)
Definition break_outcome (candle : Candle) (up_level down_level : option ConfirmedSwing) (trend : TrendState) :
    outcome :=
  let buffer := ticks config (MarketStructureConfig.structure_break_buffer_ticks config) in
  let '(up_value, down_value) :=
    match MarketStructureConfig.structure_break_basis config with
    | StructureBreakBasis.CLOSE => (Candle.close candle, Candle.close candle)
    | StructureBreakBasis.WICK => (Candle.high candle, Candle.low candle)
    end in
  let up_break := match up_level with
    | Some level => dltb (dadd DEFAULT_PREC (ConfirmedSwing.price level) buffer) up_value
    | None => false end in
  let down_break := match down_level with
    | Some level => dltb down_value (dsub DEFAULT_PREC (ConfirmedSwing.price level) buffer)
    | None => false end in
  match up_level, down_level with
  | Some up, Some down =>
      if up_break && down_break then
        Ambiguous (StructureRejection.mkStructureRejection "AMBIGUOUS_DUAL_STRUCTURE_BREAK"
          (Candle.timestamp candle) (Candle.timestamp candle + timeframe_duration timeframe)
          (ConfirmedSwing.swing_id up) (ConfirmedSwing.swing_id down))
      else if up_break then Broken (break_event StructureDirection.BULLISH up_value candle up trend)
      else if down_break then Broken (break_event StructureDirection.BEARISH down_value candle down trend)
      else Nothing
  | Some up, None =>
      if up_break then Broken (break_event StructureDirection.BULLISH up_value candle up trend) else Nothing
  | None, Some down =>
      if down_break then Broken (break_event StructureDirection.BEARISH down_value candle down trend) else Nothing
  | None, None => Nothing
  end.

(** One iteration of [for candle in candles]. *)
Definition break_step (swings : list ConfirmedSwing) (st : BreakState) (candle : Candle) : pyres BreakState :=
  let required := MarketStructureConfig.trend_points_per_side config in
  let previous_frontier := BreakState.frontier st in
  let '(frontier, trend_tail, unbroken) :=
    consume required (Candle.timestamp candle) (drop previous_frontier swings) previous_frontier
      (BreakState.trend_tail st) (BreakState.unbroken st) in
  let trend :=
    match BreakState.trend_before_break st with
    | Some trend =>
        if (previous_frontier =? frontier)%nat then trend
        else _classify_trend (trend_tail SwingKind.HIGH ++ trend_tail SwingKind.LOW) config
    | None => _classify_trend (trend_tail SwingKind.HIGH ++ trend_tail SwingKind.LOW) config
    end in
  let broken := BreakState.broken_structure_ids st in
  let unbroken := fun kind => pop_broken broken (unbroken kind) in
  let up_level := list.last (unbroken SwingKind.HIGH) in
  let down_level := list.last (unbroken SwingKind.LOW) in
  let events := BreakState.events st in
  let rejections := BreakState.rejections st in
  match break_outcome candle up_level down_level trend with
  | Nothing => Ok (BreakState.mkBreakState frontier trend_tail unbroken (Some trend) broken events rejections)
  | Ambiguous r =>
      Ok (BreakState.mkBreakState frontier trend_tail unbroken (Some trend) broken events (rejections ++ [r]))
  | Broken e =>
      e ← validated StructureBreakEvent.validate_event_semantics e;
      Ok (BreakState.mkBreakState frontier trend_tail unbroken (Some trend)
            (broken ++ [StructureBreakEvent.broken_structure_id e]) (events ++ [e]) rejections)
  end.

Definition _detect_structure_breaks (candles : list Candle) (swings : list ConfirmedSwing) :
    pyres (list StructureBreakEvent * list StructureRejection) :=
  st ← py_fold (break_step swings) BreakState.init candles;
  Ok (BreakState.events st, BreakState.rejections st).
End breaks.

Definition analyze_market_structure (candles : list Candle) (timeframe : Timeframe)
    (config : MarketStructureConfig) : pyres MarketStructureResult :=
  _ ← _validate_candles candles timeframe (MarketStructureConfig.tick_size config);
  let '(candidates, confirmed) := _detect_swings candles timeframe config in
  '(structure_events, structure_rejections) ← _detect_structure_breaks timeframe config candles confirmed;
  support ← _build_zones confirmed ZoneKind.SUPPORT config;
  resistance ← _build_zones confirmed ZoneKind.RESISTANCE config;
  Ok (MarketStructureResult.mkMarketStructureResult timeframe config (length candles)
        (data_cutoff_at candles timeframe) candidates confirmed support resistance
        (_classify_trend confirmed config) structure_events structure_rejections).

(** * Swings *)

Section swings.
Variables (timeframe : Timeframe) (config : MarketStructureConfig).
Let left_bars := MarketStructureConfig.swing_left_bars config.
Let right_bars := MarketStructureConfig.swing_right_bars config.

Lemma fully_left kind price left_prices right_prices policy :
  _fully_qualifies kind price left_prices right_prices policy = true ->
  _left_qualifies kind price left_prices policy = true.
Proof. destruct kind, policy; cbn; by intros [? ?]%andb_true_iff. Qed.

(** The pivot rule on the full windows. *)
Definition pivot_qualifies (candles : list Candle) (i : nat) (pivot : Candle) (kind : SwingKind) : bool :=
  _fully_qualifies kind (side_price kind pivot)
    (map (side_price kind) (slice candles (i - left_bars) i))
    (map (side_price kind) (slice candles (i + 1) (i + 1 + right_bars)))
    (MarketStructureConfig.swing_tie_policy config).

(** The swing the pivot at [i] gives once its right window has closed. *)
Definition confirmed_swing (candles : list Candle) (i : nat) (pivot : Candle) (kind : SwingKind) : ConfirmedSwing :=
  let id := SwingKind.value kind +:+ ":" +:+ isoformat (Candle.timestamp pivot) in
  ConfirmedSwing.mkConfirmedSwing id id kind i (Candle.timestamp pivot) (side_price kind pivot)
    (Candle.timestamp pivot + timeframe_duration timeframe)
    (Candle.timestamp pivot + (Z.of_nat right_bars + 1) * timeframe_duration timeframe)
    (map Candle.timestamp (slice candles (i - left_bars) i))
    (map Candle.timestamp (slice candles (i + 1) (i + 1 + right_bars))).

Definition confirmed_at_pivot (candles : list Candle) (i : nat) (kind : SwingKind) : option ConfirmedSwing :=
  pivot ← candles !! i;
  if (i + right_bars <? length candles)%nat && pivot_qualifies candles i pivot kind
  then Some (confirmed_swing candles i pivot kind) else None.

Hypothesis Hright : (1 <= right_bars)%nat.

Lemma swing_at_confirmed candles i pivot kind : evenly_spaced timeframe candles ->
  candles !! i = Some pivot ->
  (swing_at candles timeframe config i pivot kind ≫= snd) = confirmed_at_pivot candles i kind.
Proof.
  intros He Hi. unfold confirmed_at_pivot. rewrite Hi. cbn [mbind option_bind].
  pose proof (lookup_lt_Some _ _ _ Hi) as Hlt. unfold swing_at. fold right_bars left_bars.
  fold (pivot_qualifies candles i pivot kind).
  destruct (Nat.ltb_spec (i + right_bars) (length candles)) as [Hr|Hr].
  - rewrite (Nat.min_l right_bars) by lia. rewrite Nat.eqb_refl, slice_last by lia.
    replace (i + 1 + right_bars - 1)%nat with (i + right_bars)%nat by lia.
    destruct (lookup_lt_is_Some_2 candles _ Hr) as [bar Hbar]. rewrite Hbar.
    pose proof (evenly_spaced_nth _ _ _ _ _ _ He Hi Hbar) as Ht.
    unfold confirmed_swing. replace (Candle.timestamp pivot + (Z.of_nat right_bars + 1) * timeframe_duration timeframe)
      with (Candle.timestamp bar + timeframe_duration timeframe) by lia.
    destruct (pivot_qualifies candles i pivot kind) eqn:Hq.
    + unfold pivot_qualifies in Hq. rewrite (fully_left _ _ _ _ _ Hq). cbn [negb]. rewrite Hq. done.
    + unfold pivot_qualifies in Hq. rewrite Hq. by destruct (negb _).
  - rewrite (Nat.min_r right_bars) by lia. rewrite (proj2 (Nat.eqb_neq _ right_bars)) by lia.
    cbn [andb]. by destruct (negb _).
Qed.

(** The confirmed swings, pivot by pivot. *)
Lemma detect_confirmed candles : evenly_spaced timeframe candles ->
  (_detect_swings candles timeframe config).2 =
  flat_map (fun i => omap (confirmed_at_pivot candles i) [SwingKind.HIGH; SwingKind.LOW])
    (seq left_bars (length candles - left_bars)).
Proof.
  intros He. unfold _detect_swings, swing_scan. cbn [snd]. rewrite omap_flat_map. fold left_bars.
  destruct candles as [|c0 candles'] eqn:Ec; [by destruct left_bars|]. rewrite <-Ec in *.
  assert (Inhabited Candle) as HI by exact (populate c0).
  rewrite enumerate_seq, skipn_map, flat_map_map.
  replace (drop left_bars (seq 0 (length candles))) with (seq left_bars (length candles - left_bars))
    by (rewrite drop_seq; done).
  apply flat_map_ext_in. intros i Hi%elem_of_seq. rewrite omap_omap.
  assert (candles !! i = Some (getitem candles i)) as Hl.
  { unfold getitem. apply list_lookup_lookup_total_lt. lia. }
  cbn. by rewrite !(swing_at_confirmed candles i (getitem candles i)) by done.
Qed.

Lemma confirmed_at_pivot_take candles n i kind :
  confirmed_at_pivot (take n candles) i kind =
  if (i + right_bars <? n)%nat then confirmed_at_pivot candles i kind else None.
Proof.
  unfold confirmed_at_pivot. rewrite length_take.
  destruct (Nat.ltb_spec (i + right_bars) n) as [Hn|Hn].
  - rewrite lookup_take_lt by lia. destruct (candles !! i) as [pivot|] eqn:Hi; [|done]. cbn.
    unfold pivot_qualifies, confirmed_swing. rewrite !slice_take by lia.
    replace (i + right_bars <? n `min` length candles)%nat with (i + right_bars <? length candles)%nat; [done|].
    destruct (Nat.ltb_spec (i + right_bars) (length candles)), (Nat.ltb_spec (i + right_bars) (n `min` length candles)); lia || done.
  - destruct (take n candles !! i); cbn; [|done].
    by rewrite (proj2 (Nat.ltb_ge (i + right_bars) (n `min` length candles))) by lia.
Qed.

Lemma confirmed_at_pivot_Some candles i kind s : confirmed_at_pivot candles i kind = Some s <->
  exists pivot, candles !! i = Some pivot /\ (i + right_bars < length candles)%nat
    /\ pivot_qualifies candles i pivot kind = true /\ s = confirmed_swing candles i pivot kind.
Proof.
  unfold confirmed_at_pivot. split.
  - intros (pivot & Hi & H)%bind_Some. destruct (_ && _) eqn:E; [|done]. bool_hyps.
    exists pivot. split_and!; [done|by apply Nat.ltb_lt|done|congruence].
  - intros (pivot & Hi & Hn & Hq & ->). rewrite Hi. cbn.
    by rewrite (proj2 (Nat.ltb_lt _ _) Hn), Hq.
Qed.

Lemma detect_confirmed_take candles n : evenly_spaced timeframe candles ->
  (_detect_swings (take n candles) timeframe config).2 =
  filter (fun s => ConfirmedSwing.pivot_index s + right_bars < n)%nat (_detect_swings candles timeframe config).2.
Proof.
  intros He. assert (evenly_spaced timeframe (take n candles)) as He'.
  { intros i c d. rewrite !lookup_take_Some. naive_solver. }
  rewrite !detect_confirmed, filter_flat_map by done.
  rewrite <-(flat_map_seq_shrink _ left_bars (length (take n candles) - left_bars) (length candles - left_bars)).
  - apply flat_map_ext_in. intros i _. cbn. rewrite !confirmed_at_pivot_take.
    destruct (Nat.ltb_spec (i + right_bars) n) as [Hn|Hn].
    + destruct (confirmed_at_pivot candles i SwingKind.HIGH) eqn:E1;
        destruct (confirmed_at_pivot candles i SwingKind.LOW) eqn:E2;
        repeat match goal with H : confirmed_at_pivot _ _ _ = Some _ |- _ =>
          apply confirmed_at_pivot_Some in H as (? & ? & ? & ? & ->) end;
        cbn; rewrite ?decide_True by done; done.
    + destruct (confirmed_at_pivot candles i SwingKind.HIGH) eqn:E1;
        destruct (confirmed_at_pivot candles i SwingKind.LOW) eqn:E2;
        repeat match goal with H : confirmed_at_pivot _ _ _ = Some _ |- _ =>
          apply confirmed_at_pivot_Some in H as (? & ? & ? & ? & ->) end;
        cbn; rewrite ?decide_False by (cbn; lia); done.
  - rewrite length_take. lia.
  - intros i Hi. rewrite length_take in Hi. cbn.
    destruct (confirmed_at_pivot (take n candles) i SwingKind.HIGH) eqn:E1;
      [apply confirmed_at_pivot_Some in E1 as (? & Hl%lookup_lt_Some & _); rewrite length_take in Hl; lia|].
    destruct (confirmed_at_pivot (take n candles) i SwingKind.LOW) eqn:E2;
      [apply confirmed_at_pivot_Some in E2 as (? & Hl%lookup_lt_Some & _); rewrite length_take in Hl; lia|done].
Qed.

Lemma elem_of_detect_confirmed candles s : evenly_spaced timeframe candles ->
  s ∈ (_detect_swings candles timeframe config).2 <->
  exists i pivot kind, (left_bars <= i)%nat /\ candles !! i = Some pivot /\ (i + right_bars < length candles)%nat
    /\ pivot_qualifies candles i pivot kind = true /\ s = confirmed_swing candles i pivot kind.
Proof.
  intros He. rewrite detect_confirmed, elem_of_flat_map by done. split.
  - intros (i & Hi%elem_of_seq & Hs). apply list_elem_of_omap in Hs as (kind & _ & Hs).
    apply confirmed_at_pivot_Some in Hs as (pivot & H1 & H2 & H3 & ->).
    exists i, pivot, kind. split_and!; try done; lia.
  - intros (i & pivot & kind & H1 & H2 & H3 & H4 & ->). exists i. split; [apply elem_of_seq; lia|].
    apply list_elem_of_omap. exists kind. split; [destruct kind; repeat constructor|].
    apply confirmed_at_pivot_Some. eauto 10.
Qed.
End swings.

(** A swing is confirmed exactly when its pivot beats the full left and
    right windows under the tie policy, and its confirmation time is the close
    of the last right bar.  Confirmed swings never repaint: with fewer candles
    the confirmed swings are those whose right window had closed. *)
Theorem confirmed_swings_exact_and_final timeframe config candles :
  MarketStructureConfig.valid config = true -> evenly_spaced timeframe candles ->
  (forall s, s ∈ (_detect_swings candles timeframe config).2 <->
    exists i pivot kind, (MarketStructureConfig.swing_left_bars config <= i)%nat
      /\ candles !! i = Some pivot
      /\ (i + MarketStructureConfig.swing_right_bars config < length candles)%nat
      /\ pivot_qualifies config candles i pivot kind = true
      /\ s = confirmed_swing timeframe config candles i pivot kind)
  /\ (forall i pivot bar kind, candles !! i = Some pivot ->
        candles !! (i + MarketStructureConfig.swing_right_bars config)%nat = Some bar ->
        ConfirmedSwing.confirmed_at (confirmed_swing timeframe config candles i pivot kind)
        = Candle.timestamp bar + timeframe_duration timeframe)
  /\ forall n, (_detect_swings (take n candles) timeframe config).2 =
       filter (fun s => ConfirmedSwing.pivot_index s + MarketStructureConfig.swing_right_bars config < n)%nat
         (_detect_swings candles timeframe config).2.
Proof.
  unfold MarketStructureConfig.valid. intros Hv He. bool_hyps.
  assert (1 <= MarketStructureConfig.swing_right_bars config)%nat by (by apply Nat.leb_le).
  split_and!.
  - intros s. by apply elem_of_detect_confirmed.
  - intros i pivot bar kind Hi Hb. pose proof (evenly_spaced_nth _ _ _ _ _ _ He Hi Hb). cbn. lia.
  - intros n. by apply detect_confirmed_take.
Qed.

Definition structure_config_example : MarketStructureConfig :=
  MarketStructureConfig.mkMarketStructureConfig (D 1) 1 1 SwingTiePolicy.STRICT 2 0
    StructureBreakBasis.CLOSE 0 1 1.

Definition zigzag_candles : list Candle :=
  [candle_example 0 10 12 9 11; candle_example 1 11 15 10 14; candle_example 2 14 14 11 12;
   candle_example 3 12 13 10 12; candle_example 4 12 18 11 17; candle_example 5 17 17 9 9].

Lemma zigzag_spaced : evenly_spaced Timeframe.ONE_MINUTE zigzag_candles.
Proof. apply (validate_spacing_ok ""). reflexivity. Qed.

Lemma zigzag_wf : Forall candle_wf zigzag_candles.
Proof. repeat constructor; apply valid_candle_wf; reflexivity. Qed.

Lemma confirmed_swings_exact_and_final_witness :
  length (_detect_swings zigzag_candles Timeframe.ONE_MINUTE structure_config_example).2 = 3%nat
  /\ (_detect_swings (take 3 zigzag_candles) Timeframe.ONE_MINUTE structure_config_example).2 =
     filter (fun s => ConfirmedSwing.pivot_index s + 1 < 3)%nat
       (_detect_swings zigzag_candles Timeframe.ONE_MINUTE structure_config_example).2.
Proof.
  split; [vm_compute; reflexivity|].
  exact (proj2 (proj2 (confirmed_swings_exact_and_final Timeframe.ONE_MINUTE structure_config_example
    zigzag_candles eq_refl zigzag_spaced)) 3%nat).
Defined.

(** * Structure breaks *)

(** The order in which [_detect_swings] emits confirmed swings. *)
Definition swings_ordered (swings : list ConfirmedSwing) : Prop :=
  StronglySorted (fun a b => ConfirmedSwing.confirmed_at a <= ConfirmedSwing.confirmed_at b
    /\ (ConfirmedSwing.kind a = ConfirmedSwing.kind b -> swing_order a b = true)) swings.

Lemma StronglySorted_flat_map {A B} (R : A -> A -> Prop) (Q : B -> B -> Prop) (f : A -> list B) l :
  StronglySorted R l -> (forall x, x ∈ l -> StronglySorted Q (f x)) ->
  (forall x y, x ∈ l -> y ∈ l -> R x y -> forall a b, a ∈ f x -> b ∈ f y -> Q a b) ->
  StronglySorted Q (flat_map f l).
Proof.
  induction 1 as [|x l Hl IH Hx]; intros H1 H2; cbn; [constructor|].
  apply StronglySorted_app; split_and!.
  - intros a b Ha Hb. apply elem_of_flat_map in Hb as (y & Hy & Hb).
    apply (H2 x y); [constructor|by constructor| |done|done].
    rewrite List.Forall_forall in Hx. apply Hx. by apply list_elem_of_In.
  - apply H1. constructor.
  - apply IH; [intros; apply H1; by constructor|].
    intros y z Hy Hz. apply H2; by constructor.
Qed.

Lemma seq_StronglySorted a m : StronglySorted lt (seq a m).
Proof.
  revert a; induction m as [|m IH]; intros a; cbn; constructor; [apply IH|].
  apply List.Forall_forall. intros i Hi%in_seq. lia.
Qed.

Lemma detect_swings_ordered timeframe config candles : MarketStructureConfig.valid config = true ->
  evenly_spaced timeframe candles -> swings_ordered (_detect_swings candles timeframe config).2.
Proof.
  unfold MarketStructureConfig.valid. intros Hv He. bool_hyps.
  rewrite detect_confirmed by (done || by apply Nat.leb_le).
  eapply StronglySorted_flat_map; [apply seq_StronglySorted| |].
  - intros i _. cbn.
    destruct (confirmed_at_pivot timeframe config candles i SwingKind.HIGH) eqn:E1;
      destruct (confirmed_at_pivot timeframe config candles i SwingKind.LOW) eqn:E2;
      repeat match goal with H : confirmed_at_pivot _ _ _ _ _ = Some _ |- _ =>
        apply confirmed_at_pivot_Some in H as (? & ? & ? & ? & ->) end;
      repeat constructor; [|done].
    assert (x = x0) as -> by congruence. cbn. lia.
  - intros i j _ _ Hij a b Ha Hb.
    apply list_elem_of_omap in Ha as (k & _ & (p & Hp & _ & _ & ->)%confirmed_at_pivot_Some).
    apply list_elem_of_omap in Hb as (k' & _ & (q & Hq & _ & _ & ->)%confirmed_at_pivot_Some).
    pose proof (evenly_spaced_nth _ _ _ _ _ _ He Hp Hq). pose proof (timeframe_duration_pos timeframe).
    unfold swing_order, lex_lt, on_key. cbn.
    assert (Candle.timestamp p < Candle.timestamp q) by nia.
    split; [lia|]. intros _. by rewrite (proj2 (Z.ltb_lt _ _)) by lia.
Qed.

Lemma last_n_app_last_n {A} n (l l' : list A) : last_n n (last_n n l ++ l') = last_n n (l ++ l').
Proof.
  unfold last_n. rewrite !length_app, length_drop.
  destruct (decide (length l' <= n)%nat) as [H|H].
  - set (d := drop (length l - n) l).
    assert (l ++ l' = take (length l - n) l ++ (d ++ l')) as ->.
    { rewrite (app_assoc (take _ _)). unfold d. by rewrite take_drop. }
    rewrite (drop_app_ge (take _ _)) by (rewrite length_take; lia). f_equal. rewrite length_take. lia.
  - rewrite !drop_app_ge by (rewrite ?length_drop; lia). f_equal. rewrite length_drop. lia.
Qed.

Lemma last_n_idem {A} n (l : list A) : last_n n (last_n n l) = last_n n l.
Proof. pose proof (last_n_app_last_n n l []) as H. by rewrite !app_nil_r in H. Qed.

Lemma last_n_Forall {A} (P : A -> Prop) n (l : list A) : Forall P l -> Forall P (last_n n l).
Proof. apply Forall_drop. Qed.

Lemma of_kind_app kind l l' : of_kind kind (l ++ l') = of_kind kind l ++ of_kind kind l'.
Proof. apply filter_app. Qed.

Lemma of_kind_all kind l : Forall (fun s => ConfirmedSwing.kind s = kind) l -> of_kind kind l = l.
Proof. apply filter_all. Qed.

Lemma of_kind_Forall kind l : Forall (fun s => ConfirmedSwing.kind s = kind) (of_kind kind l).
Proof. apply Forall_forall. intros s Hs%list_elem_of_filter. tauto. Qed.

(** The pending swings up to [now] move to the tails and to the stacks. *)
Lemma consume_spec required now pending frontier tail unb :
  exists taken rest, pending = taken ++ rest
    /\ Forall (fun s => ConfirmedSwing.confirmed_at s <= now) taken
    /\ match rest with [] => True | s :: _ => now < ConfirmedSwing.confirmed_at s end
    /\ exists tail' unb', consume required now pending frontier tail unb = ((frontier + length taken)%nat, tail', unb')
       /\ forall k, (tail k = last_n required (tail k) -> tail' k = last_n required (tail k ++ of_kind k taken))
                    /\ unb' k = unb k ++ of_kind k taken.
Proof.
  revert frontier tail unb; induction pending as [|s pending IH]; intros frontier tail unb; cbn [consume].
  { exists [], []. split_and!; try done. exists tail, unb. rewrite Nat.add_0_r. split; [done|].
    intros k. cbn. rewrite !app_nil_r. done. }
  destruct (Z.leb_spec (ConfirmedSwing.confirmed_at s) now) as [Hs|Hs].
  - set (kind := ConfirmedSwing.kind s).
    destruct (IH (S frontier) (update_kind tail kind (fun t => last_n required (t ++ [s])))
                (update_kind unb kind (fun v => v ++ [s])))
      as (taken & rest & -> & Ht & Hr & tail' & unb' & Hc & Hk).
    exists (s :: taken), rest. split_and!; [done|by constructor|done|].
    exists tail', unb'. split; [rewrite Hc; f_equal; f_equal; cbn; lia|].
    intros k. specialize (Hk k). unfold update_kind in Hk. unfold of_kind in *.
    destruct (decide (k = kind)) as [->|Hne].
    + rewrite filter_cons_True by done. destruct Hk as [H1 H2]. split.
      * intros _. rewrite H1 by (by rewrite last_n_idem). by rewrite last_n_app_last_n, <-app_assoc.
      * by rewrite H2, <-app_assoc.
    + rewrite filter_cons_False by done. exact Hk.
  - exists [], (s :: pending). split_and!; [done|done|done|]. exists tail, unb. rewrite Nat.add_0_r.
    split; [done|]. intros k. cbn. rewrite !app_nil_r. done.
Qed.

(** The last element of an ordered list is its maximum. *)
Lemma min_from_sorted {A} (lt : A -> A -> bool) b l :
  StronglySorted (fun x y => lt x y = true) (b :: l) ->
  Some (min_from (fun x y => lt y x) b l) = list.last (b :: l).
Proof.
  revert b; induction l as [|x l IH]; intros b H; [done|].
  apply StronglySorted_inv in H as [Hl Hb]. inversion Hb as [|?? Hx Hb']; subst.
  cbn [min_from]. rewrite Hx. rewrite IH by done. done.
Qed.

Lemma py_max_sorted {A} (lt : A -> A -> bool) l :
  StronglySorted (fun x y => lt x y = true) l -> py_max lt l = list.last l.
Proof. destruct l as [|b l]; [done|]. intros H. by apply min_from_sorted. Qed.

Lemma StronglySorted_filter {A} (R : A -> A -> Prop) (P : A -> Prop) `{!forall x, Decision (P x)} l :
  StronglySorted R l -> StronglySorted R (filter P l).
Proof.
  induction 1 as [|x l Hl IH Hx]; [constructor|]. destruct (decide (P x)).
  - rewrite filter_cons_True by done. constructor; [done|].
    apply Forall_forall. intros y Hy%list_elem_of_filter. rewrite Forall_forall in Hx. naive_solver.
  - by rewrite filter_cons_False.
Qed.

Lemma of_kind_sorted kind swings : swings_ordered swings ->
  StronglySorted (fun a b => swing_order a b = true) (of_kind kind swings).
Proof.
  induction 1 as [|x l Hl IH Hx]; [constructor|]. unfold of_kind in *.
  destruct (decide (ConfirmedSwing.kind x = kind)) as [Hk|Hk].
  - rewrite filter_cons_True by done. constructor; [done|].
    apply Forall_forall. intros y [Hy1 Hy2]%list_elem_of_filter. rewrite Forall_forall in Hx.
    apply Hx; [done|congruence].
  - by rewrite filter_cons_False.
Qed.

Definition known (now : datetime) (swings : list ConfirmedSwing) : list ConfirmedSwing :=
  filter (fun s => ConfirmedSwing.confirmed_at s <= now) swings.

Lemma known_split now swings taken rest : swings = taken ++ rest -> swings_ordered swings ->
  Forall (fun s => ConfirmedSwing.confirmed_at s <= now) taken ->
  match rest with [] => True | s :: _ => now < ConfirmedSwing.confirmed_at s end ->
  known now swings = taken.
Proof.
  intros -> Ho Ht Hr. unfold known. rewrite filter_app.
  assert (filter (fun s => ConfirmedSwing.confirmed_at s <= now) rest = []) as ->.
  { apply StronglySorted_app in Ho as (_ & _ & Ho). destruct rest as [|s rest]; [done|].
    apply StronglySorted_inv in Ho as [_ Ho]. apply filter_none.
    constructor; [lia|]. eapply Forall_impl; [exact Ho|]. cbn. intros y [Hy _]. lia. }
  rewrite app_nil_r. by apply filter_all.
Qed.

Section refinement.
Variables (timeframe : Timeframe) (config : MarketStructureConfig) (swings : list ConfirmedSwing).
Let required := MarketStructureConfig.trend_points_per_side config.

(** The specification: no frontier, no stacks; every candle classifies all the
    swings known at its open and selects its levels with
    [_latest_unbroken_swing]. *)
Definition reference_step (st : list string * list StructureBreakEvent * list StructureRejection) (candle : Candle) :=
  let '(broken, events, rejections) := st in
  let now := Candle.timestamp candle in
  match break_outcome timeframe config candle
          (_latest_unbroken_swing swings SwingKind.HIGH now broken)
          (_latest_unbroken_swing swings SwingKind.LOW now broken)
          (_classify_trend (known now swings) config) with
  | Nothing => (broken, events, rejections)
  | Ambiguous r => (broken, events, rejections ++ [r])
  | Broken e => (broken ++ [StructureBreakEvent.broken_structure_id e], events ++ [e], rejections)
  end.

Definition reference_breaks (candles : list Candle) : list StructureBreakEvent * list StructureRejection :=
  let '(_, events, rejections) := foldl reference_step ([], [], []) candles in (events, rejections).

Hypothesis Hord : swings_ordered swings.

Definition live (broken : list string) (l : list ConfirmedSwing) : list ConfirmedSwing :=
  filter (fun s => ConfirmedSwing.swing_id s ∉ broken) l.

(** The stack's top after popping is the last live swing. *)
Lemma live_reverse broken l : live broken (reverse l) = reverse (live broken l).
Proof.
  unfold live. induction l as [|x l IH]; [done|]. rewrite reverse_cons, filter_app, IH.
  destruct (decide (ConfirmedSwing.swing_id x ∉ broken)) as [H|H].
  - rewrite !filter_cons_True, filter_nil, reverse_cons by done. done.
  - rewrite !filter_cons_False, filter_nil, app_nil_r by done. done.
Qed.

Lemma drop_while_live broken l :
  live broken (drop_while (fun s => bool_decide (ConfirmedSwing.swing_id s ∈ broken)) l) = live broken l
  /\ head (drop_while (fun s => bool_decide (ConfirmedSwing.swing_id s ∈ broken)) l) = head (live broken l).
Proof.
  unfold live. induction l as [|x l [IH1 IH2]]; [done|]. cbn [drop_while].
  destruct (bool_decide _) eqn:E; bool_hyps.
  - rewrite filter_cons_False by (intros Hn; contradiction). done.
  - rewrite filter_cons_True by done. done.
Qed.

Lemma pop_broken_spec broken l :
  live broken (pop_broken broken l) = live broken l
  /\ list.last (pop_broken broken l) = list.last (live broken l).
Proof.
  unfold pop_broken. destruct (drop_while_live broken (reverse l)) as [H1 H2]. split.
  - by rewrite live_reverse, H1, live_reverse, reverse_involutive.
  - by rewrite last_reverse, H2, live_reverse, head_reverse.
Qed.

Lemma live_app broken l l' : live broken (l ++ l') = live broken l ++ live broken l'.
Proof. apply filter_app. Qed.

Lemma latest_unbroken_last kind now broken taken : known now swings = taken ->
  _latest_unbroken_swing swings kind now broken = list.last (live broken (of_kind kind taken)).
Proof.
  intros <-. unfold _latest_unbroken_swing.
  assert (filter (fun s => ConfirmedSwing.kind s = kind /\ (ConfirmedSwing.confirmed_at s <= now
            /\ ConfirmedSwing.swing_id s ∉ broken)) swings = live broken (of_kind kind (known now swings))) as ->.
  { unfold live, of_kind, known. rewrite !list_filter_filter. apply list_filter_iff. tauto. }
  apply py_max_sorted. apply StronglySorted_filter.
  apply of_kind_sorted. by apply StronglySorted_filter.
Qed.

(** The classification only reads the last [required] swings of each kind. *)
Lemma classify_tails tail pre : (forall k, tail k = last_n required (of_kind k pre)) ->
  _classify_trend (tail SwingKind.HIGH ++ tail SwingKind.LOW) config = _classify_trend pre config.
Proof.
  intros Ht. unfold _classify_trend. rewrite !of_kind_app.
  assert (forall k, Forall (fun s => ConfirmedSwing.kind s = k) (tail k)) as Hk.
  { intros k. rewrite Ht. apply last_n_Forall, of_kind_Forall. }
  assert (forall k k', k <> k' -> of_kind k (tail k') = []) as Hne.
  { intros k k' Hkk. apply filter_none. eapply Forall_impl; [apply Hk|]. cbn. congruence. }
  rewrite (of_kind_all SwingKind.HIGH (tail SwingKind.HIGH)),
    (of_kind_all SwingKind.LOW (tail SwingKind.LOW)) by apply Hk.
  rewrite (Hne SwingKind.HIGH SwingKind.LOW), (Hne SwingKind.LOW SwingKind.HIGH), app_nil_r by done.
  cbn [app]. rewrite !Ht. change (MarketStructureConfig.trend_points_per_side config) with required.
  by rewrite !last_n_idem.
Qed.

(** The simulation relation: [pre] are the swings consumed so far. *)
Definition sim (now : datetime) (st : BreakState)
    (ref : list string * list StructureBreakEvent * list StructureRejection) : Prop :=
  exists pre, swings = pre ++ drop (BreakState.frontier st) swings
    /\ BreakState.frontier st = length pre
    /\ Forall (fun s => ConfirmedSwing.confirmed_at s <= now) pre
    /\ (forall k, BreakState.trend_tail st k = last_n required (of_kind k pre))
    /\ (forall k, live (BreakState.broken_structure_ids st) (BreakState.unbroken st k)
                  = live (BreakState.broken_structure_ids st) (of_kind k pre))
    /\ (forall t, BreakState.trend_before_break st = Some t -> t = _classify_trend pre config)
    /\ ref = (BreakState.broken_structure_ids st, BreakState.events st, BreakState.rejections st).

Lemma live_snoc broken id l : live (broken ++ [id]) l = live [id] (live broken l).
Proof. unfold live. rewrite list_filter_filter. apply list_filter_iff. intros s. set_solver. Qed.

Lemma break_outcome_valid candle up down trend e : candle_wf candle ->
  break_outcome timeframe config candle up down trend = Broken e ->
  StructureBreakEvent.validate_event_semantics e = true.
Proof.
  intros Hc. unfold candle_wf in Hc. unfold break_outcome.
  set (v := match MarketStructureConfig.structure_break_basis config with StructureBreakBasis.CLOSE => _ | _ => _ end).
  assert (0 < Qval v.1 /\ 0 < Qval v.2)%Q as Hv.
  { unfold v. destruct (MarketStructureConfig.structure_break_basis config); cbn; lra. }
  clearbody v. destruct v as [a b]. cbn in Hv.
  assert (forall dir price level, (0 < Qval price)%Q -> StructureBreakEvent.validate_event_semantics
    (break_event timeframe config dir price candle level trend) = true) as Hev.
  { intros dir price level Hp. unfold StructureBreakEvent.validate_event_semantics, break_event. cbn.
    pose proof (timeframe_duration_pos timeframe).
    rewrite (proj2 (dltb_true (D 0) price)) by (rewrite Qval_D0; done).
    rewrite (proj2 (Z.leb_gt _ _)) by lia.
    destruct (_event_type_for dir trend); done. }
  destruct up as [up|], down as [down|]; repeat case_match; intros [= <-]; apply Hev; tauto.
Qed.

Lemma break_step_sim now st ref candle : sim now st ref -> now <= Candle.timestamp candle -> candle_wf candle ->
  exists st', break_step timeframe config swings st candle = Ok st'
    /\ sim (Candle.timestamp candle) st' (reference_step ref candle).
Proof.
  intros (pre & Hsw & Hf & Hpre & Htail & Hunb & Htr & ->) Hnow Hwf. unfold break_step.
  destruct (consume_spec required (Candle.timestamp candle) (drop (BreakState.frontier st) swings)
    (BreakState.frontier st) (BreakState.trend_tail st) (BreakState.unbroken st))
    as (taken & rest & Hp & Ht & Hr & tail' & unb' & Hc & Hk).
  fold required. rewrite Hc. clear Hc.
  assert (swings = (pre ++ taken) ++ rest) as Hsw' by (rewrite <-app_assoc, <-Hp; done).
  assert (Forall (fun s => ConfirmedSwing.confirmed_at s <= Candle.timestamp candle) (pre ++ taken)) as Hpre'.
  { apply Forall_app. split; [|done]. eapply Forall_impl; [exact Hpre|]. cbn. lia. }
  pose proof (known_split _ _ _ _ Hsw' Hord Hpre' Hr) as Hknown.
  set (broken := BreakState.broken_structure_ids st) in *.
  assert (forall k, tail' k = last_n required (of_kind k (pre ++ taken))) as Htail'.
  { intros k. rewrite (proj1 (Hk k)) by (by rewrite Htail, last_n_idem).
    by rewrite Htail, last_n_app_last_n, of_kind_app. }
  assert (forall k, live broken (unb' k) = live broken (of_kind k (pre ++ taken))) as Hunb'.
  { intros k. rewrite (proj2 (Hk k)), live_app, Hunb, of_kind_app, live_app. done. }
  set (trend := match BreakState.trend_before_break st with Some t => _ | None => _ end).
  assert (trend = _classify_trend (known (Candle.timestamp candle) swings) config) as Htrend.
  { rewrite Hknown. unfold trend. destruct (BreakState.trend_before_break st) as [t|]; [|by apply classify_tails].
    destruct (Nat.eqb_spec (BreakState.frontier st) (BreakState.frontier st + length taken)) as [E|E];
      [|by apply classify_tails].
    destruct taken; [|cbn in E; lia]. rewrite app_nil_r. by apply Htr. }
  clearbody trend.
  assert (forall k, list.last (pop_broken broken (unb' k)) =
    _latest_unbroken_swing swings k (Candle.timestamp candle) broken) as Hlvl.
  { intros k. rewrite (proj2 (pop_broken_spec _ _)), Hunb'. symmetry. by apply latest_unbroken_last. }
  unfold reference_step. rewrite !Hlvl, <-Htrend.
  assert (forall broken' ev rej, broken' = broken \/ (exists id, broken' = broken ++ [id]) ->
    sim (Candle.timestamp candle)
      (BreakState.mkBreakState (BreakState.frontier st + length taken) tail'
        (fun k => pop_broken broken (unb' k)) (Some trend) broken' ev rej) (broken', ev, rej)) as Hsim.
  { intros broken' ev rej Hb. exists (pre ++ taken).
    cbn [BreakState.frontier BreakState.trend_tail BreakState.unbroken BreakState.trend_before_break
      BreakState.broken_structure_ids BreakState.events BreakState.rejections].
    split_and!; try done.
    - rewrite Hsw' at 1. f_equal. rewrite Hsw', drop_app_ge by (rewrite length_app; lia).
      rewrite Hf, length_app, Nat.sub_diag. done.
    - rewrite length_app. lia.
    - intros k. assert (live broken (pop_broken broken (unb' k)) = live broken (of_kind k (pre ++ taken))) as E.
      { by rewrite (proj1 (pop_broken_spec _ _)), Hunb'. }
      destruct Hb as [->|[id ->]]; [done|]. by rewrite !live_snoc, E.
    - intros t [= <-]. by rewrite Htrend, Hknown. }
  destruct (break_outcome timeframe config candle _ _ trend) as [|e|r] eqn:Eo.
  - eexists. split; [reflexivity|]. apply Hsim. by left.
  - rewrite (proj2 (validated_ok _ e e)) by (split; [by eapply break_outcome_valid|done]). cbn.
    eexists. split; [reflexivity|]. apply Hsim. right. eauto.
  - eexists. split; [reflexivity|]. apply Hsim. by left.
Qed.

Lemma break_fold_sim now st ref candles : sim now st ref ->
  strictly_increasing (map Candle.timestamp candles) ->
  (forall c, c ∈ candles -> now <= Candle.timestamp c) -> Forall candle_wf candles ->
  exists st' now', py_fold (break_step timeframe config swings) st candles = Ok st'
    /\ sim now' st' (foldl reference_step ref candles).
Proof.
  intros Hs Hi Hn Hw. revert now st ref Hs Hi Hn. induction Hw as [|c candles Hc _ IH]; intros now st ref Hs Hi Hn.
  { by exists st, now. }
  destruct (break_step_sim now st ref c Hs (Hn c ltac:(constructor)) Hc) as (st1 & E1 & Hs1).
  cbn [py_fold foldl]. rewrite E1. apply (IH (Candle.timestamp c)); [done| |].
  - intros i j x y Hij Hx Hy. by apply (Hi (S i) (S j) x y); [lia|..].
  - intros d Hd. apply list_elem_of_lookup in Hd as [i Hd].
    assert (Candle.timestamp c < Candle.timestamp d); [|lia].
    apply (Hi 0%nat (S i)); [lia|done|].
    change (map Candle.timestamp candles !! i = Some (Candle.timestamp d)). by rewrite list_lookup_fmap, Hd.
Qed.
End refinement.

Lemma spaced_increasing timeframe candles : evenly_spaced timeframe candles ->
  strictly_increasing (map Candle.timestamp candles).
Proof.
  intros He. apply adjacent_increasing. intros i x y. rewrite !list_lookup_fmap, !fmap_Some.
  intros (c & Hc & ->) (d & Hd & ->). rewrite (He i c d Hc Hd).
  pose proof (timeframe_duration_pos timeframe). lia.
Qed.

Lemma detect_breaks_refines timeframe config swings candles : swings_ordered swings ->
  evenly_spaced timeframe candles -> Forall candle_wf candles ->
  _detect_structure_breaks timeframe config candles swings = Ok (reference_breaks timeframe config swings candles).
Proof.
  intros Ho He Hw.
  set (now := match candles with [] => 0 | c :: _ => Candle.timestamp c end).
  assert (sim config swings now BreakState.init ([], [], [])) as H0.
  { exists []. split_and!; try done. }
  destruct (break_fold_sim timeframe config swings Ho now _ _ candles H0) as (st & now' & E & Hs);
    [by eapply spaced_increasing| |done|].
  { intros c Hc. unfold now. destruct candles as [|c0 cs]; [by apply elem_of_nil in Hc|].
    apply list_elem_of_lookup in Hc as [i Hi].
    pose proof (evenly_spaced_nth _ _ _ _ _ _ He (eq_refl : (c0 :: cs) !! 0%nat = Some c0) Hi).
    pose proof (timeframe_duration_pos timeframe). nia. }
  unfold _detect_structure_breaks, reference_breaks. rewrite E. cbn [mbind pyres_bind].
  destruct Hs as (_ & _ & _ & _ & _ & _ & _ & ->). done.
Qed.

(** C24. The single-pass detector refines its specification: on spaced, valid
    candles it never fails, and its frontier, bounded trend tails and stacks of
    unbroken swings give exactly the events and rejections of the definition
    that reclassifies all known swings and searches
    [_latest_unbroken_swing] at every candle. *)
Theorem structure_breaks_refine_reference timeframe config candles :
  MarketStructureConfig.valid config = true -> evenly_spaced timeframe candles -> Forall candle_wf candles ->
  let swings := (_detect_swings candles timeframe config).2 in
  _detect_structure_breaks timeframe config candles swings = Ok (reference_breaks timeframe config swings candles).
Proof.
  intros Hv He Hw swings. apply detect_breaks_refines; [|done..]. by apply detect_swings_ordered.
Qed.

Lemma structure_breaks_refine_reference_witness :
  let swings := (_detect_swings zigzag_candles Timeframe.ONE_MINUTE structure_config_example).2 in
  _detect_structure_breaks Timeframe.ONE_MINUTE structure_config_example zigzag_candles swings =
    Ok (reference_breaks Timeframe.ONE_MINUTE structure_config_example swings zigzag_candles)
  /\ length (reference_breaks Timeframe.ONE_MINUTE structure_config_example swings zigzag_candles).1 = 2%nat.
Proof.
  split; [|vm_compute; reflexivity].
  exact (structure_breaks_refine_reference Timeframe.ONE_MINUTE structure_config_example zigzag_candles
    eq_refl zigzag_spaced zigzag_wf).
Defined.

(** The price a candle breaks with. *)
Definition break_value (config : MarketStructureConfig) (direction : StructureDirection) (candle : Candle) : dec :=
  match MarketStructureConfig.structure_break_basis config, direction with
  | StructureBreakBasis.CLOSE, _ => Candle.close candle
  | StructureBreakBasis.WICK, StructureDirection.BULLISH => Candle.high candle
  | StructureBreakBasis.WICK, StructureDirection.BEARISH => Candle.low candle
  end.

(** [e] is a break of [level] by [candle]: the level was confirmed by the
    candle's open, it is on the side of the direction, and the candle is beyond
    it by more than the buffer. *)
Definition breaks_level (timeframe : Timeframe) (config : MarketStructureConfig) (e : StructureBreakEvent)
    (level : ConfirmedSwing) (candle : Candle) : Prop :=
  let buffer := ticks config (MarketStructureConfig.structure_break_buffer_ticks config) in
  let direction := StructureBreakEvent.direction e in
  StructureBreakEvent.broken_structure_id e = ConfirmedSwing.swing_id level
  /\ StructureBreakEvent.timestamp e = Candle.timestamp candle
  /\ StructureBreakEvent.confirmed_at e = Candle.timestamp candle + timeframe_duration timeframe
  /\ StructureBreakEvent.price e = break_value config direction candle
  /\ ConfirmedSwing.confirmed_at level <= Candle.timestamp candle
  /\ match direction with
     | StructureDirection.BULLISH => ConfirmedSwing.kind level = SwingKind.HIGH
         /\ (Qval (dadd DEFAULT_PREC (ConfirmedSwing.price level) buffer) < Qval (StructureBreakEvent.price e))%Q
     | StructureDirection.BEARISH => ConfirmedSwing.kind level = SwingKind.LOW
         /\ (Qval (StructureBreakEvent.price e) < Qval (dsub DEFAULT_PREC (ConfirmedSwing.price level) buffer))%Q
     end.

Section soundness.
Variables (timeframe : Timeframe) (config : MarketStructureConfig) (swings : list ConfirmedSwing).

Lemma latest_unbroken_Some kind now broken level :
  _latest_unbroken_swing swings kind now broken = Some level ->
  level ∈ swings /\ ConfirmedSwing.kind level = kind /\ ConfirmedSwing.confirmed_at level <= now
  /\ ConfirmedSwing.swing_id level ∉ broken.
Proof.
  unfold _latest_unbroken_swing, py_max.
  intros H%py_min_mem. apply list_elem_of_filter in H. tauto.
Qed.

Lemma break_outcome_sound candle broken trend e :
  break_outcome timeframe config candle
    (_latest_unbroken_swing swings SwingKind.HIGH (Candle.timestamp candle) broken)
    (_latest_unbroken_swing swings SwingKind.LOW (Candle.timestamp candle) broken) trend = Broken e ->
  exists level, level ∈ swings /\ (StructureBreakEvent.broken_structure_id e ∉ broken)
    /\ breaks_level timeframe config e level candle.
Proof.
  unfold break_outcome, breaks_level, break_value.
  destruct (_latest_unbroken_swing swings SwingKind.HIGH _ broken) as [up|] eqn:Eu;
    destruct (_latest_unbroken_swing swings SwingKind.LOW _ broken) as [down|] eqn:Ed;
    repeat match goal with H : _latest_unbroken_swing _ _ _ _ = Some _ |- _ =>
      apply latest_unbroken_Some in H as (? & ? & ? & ?) end;
    destruct (MarketStructureConfig.structure_break_basis config); cbn [fst snd];
    intros Ho;
    repeat match type of Ho with context [if ?b then _ else _] => destruct b eqn:? end;
    try discriminate Ho; injection Ho as <-; cbn [break_event StructureBreakEvent.broken_structure_id StructureBreakEvent.timestamp
      StructureBreakEvent.confirmed_at StructureBreakEvent.price StructureBreakEvent.direction];
    dec_to_Q; match goal with H : ?l ∈ swings |- _ => exists l; split_and!; solve [eauto | tauto] end.
Qed.

Definition break_inv (seen : list Candle)
    (st : list string * list StructureBreakEvent * list StructureRejection) : Prop :=
  let '(broken, events, _) := st in
  broken = map StructureBreakEvent.broken_structure_id events /\ NoDup broken
  /\ Forall (fun e => exists level candle, level ∈ swings /\ candle ∈ seen
       /\ breaks_level timeframe config e level candle) events.

Lemma reference_step_inv seen st candle : break_inv seen st ->
  break_inv (seen ++ [candle]) (reference_step timeframe config swings st candle).
Proof.
  destruct st as [[broken events] rejections]. intros (Hb & Hnd & Hf). unfold reference_step.
  assert (Forall (fun e => exists level c, level ∈ swings /\ c ∈ seen ++ [candle]
       /\ breaks_level timeframe config e level c) events) as Hf'.
  { eapply Forall_impl; [exact Hf|]. cbn. intros e (level & c & ? & ? & ?). exists level, c. set_solver. }
  destruct (break_outcome _ _ _ _ _ _) as [|e|r] eqn:E; [done| |done].
  apply break_outcome_sound in E as (level & Hl & Hn & Hbl). cbn. split_and!.
  - by rewrite map_app, Hb.
  - apply NoDup_app. split_and!; [done| |apply NoDup_singleton]. intros x Hx. set_solver.
  - apply Forall_app. split; [done|]. constructor; [|constructor]. exists level, candle. set_solver.
Qed.

Lemma reference_breaks_inv candles : exists broken,
  break_inv candles (broken, (reference_breaks timeframe config swings candles).1,
                             (reference_breaks timeframe config swings candles).2).
Proof.
  unfold reference_breaks.
  assert (forall seen st l, break_inv seen st -> break_inv (seen ++ l) (foldl (reference_step timeframe config swings) st l)) as H.
  { intros seen st l. revert seen st. induction l as [|c l IH]; intros seen st Hs; cbn [foldl]; [by rewrite app_nil_r|].
    replace (seen ++ c :: l) with ((seen ++ [c]) ++ l) by (by rewrite <-app_assoc).
    apply IH. by apply reference_step_inv. }
  specialize (H [] ([], [], []) candles). destruct (foldl _ _ candles) as [[broken ev] rej].
  exists broken. apply H. split_and!; [done|apply NoDup_nil_2|constructor].
Qed.
End soundness.

(** A detected break is real and breaks a fresh level: every event names a
    swing confirmed by the open of its candle, on the side of its direction,
    that the candle exceeds by more than the buffer; no level is broken twice. *)
Theorem structure_breaks_sound timeframe config candles events rejections :
  MarketStructureConfig.valid config = true -> evenly_spaced timeframe candles -> Forall candle_wf candles ->
  let swings := (_detect_swings candles timeframe config).2 in
  _detect_structure_breaks timeframe config candles swings = Ok (events, rejections) ->
  NoDup (map StructureBreakEvent.broken_structure_id events)
  /\ forall e, e ∈ events -> exists level candle, level ∈ swings /\ candle ∈ candles
       /\ breaks_level timeframe config e level candle.
Proof.
  intros Hv He Hw swings. pose proof (detect_swings_ordered timeframe config candles Hv He) as Ho.
  fold swings in Ho. clearbody swings. rewrite detect_breaks_refines by done. intros [= Hr].
  destruct (reference_breaks_inv timeframe config swings candles) as (broken & Hb & Hnd & Hf).
  rewrite Hr in Hb, Hf. cbn in Hb, Hf. split; [by rewrite <-Hb|]. by rewrite Forall_forall in Hf.
Qed.

Lemma structure_breaks_sound_witness :
  exists events rejections,
    _detect_structure_breaks Timeframe.ONE_MINUTE structure_config_example zigzag_candles
      (_detect_swings zigzag_candles Timeframe.ONE_MINUTE structure_config_example).2 = Ok (events, rejections)
    /\ NoDup (map StructureBreakEvent.broken_structure_id events).
Proof.
  eexists _, _. split; [vm_compute; reflexivity|].
  refine (proj1 (structure_breaks_sound Timeframe.ONE_MINUTE structure_config_example zigzag_candles _ _
    eq_refl zigzag_spaced zigzag_wf _)).
  vm_compute. reflexivity.
Defined.
