(* ===== verification/Engine.v ===== *)
(** What the engines that read structure events share: the reference of an
    event ([engines/structure/references.py]) and the checks that open
    [_validate_inputs] of the displacement and of the order block engine. *)
From Stdlib Require Import ZArith Lia.
From stdpp Require Import base list strings numbers sets gmap.
From S2P Require Import Prelude Decimal Time Candle Indicators Structure.
Local Open Scope Z_scope.

Definition structure_event_reference (event : StructureBreakEvent) : string :=
  StructureEventType.value (StructureBreakEvent.type event) +:+ ":"
  +:+ StructureDirection.value (StructureBreakEvent.direction event) +:+ ":"
  +:+ isoformat (StructureBreakEvent.timestamp event) +:+ ":"
  +:+ StructureBreakEvent.broken_structure_id event.

(** Every price a multiple of the tick. *)
Definition validate_alignment (cls : string) (tick_size : dec) (candles : list Candle) : pyres unit :=
  py_for (fun candle =>
    py_for (fun '(field_name, price) =>
      bad ← misaligned price tick_size;
      raise_if bad (Exc cls ("candle " +:+ field_name +:+ " price is not aligned to tick_size")))
      (ohlc_fields candle)) candles.

(** Events in confirmation order, each on a candle and confirmed at its close. *)
Definition validate_structure_events (cls : string) (timeframe : Timeframe) (candles : list Candle)
    (structure_events : list StructureBreakEvent) : pyres unit :=
  _ ← py_for (fun '(previous_event, current_event) =>
        raise_if (StructureBreakEvent.confirmed_at current_event <? StructureBreakEvent.confirmed_at previous_event)
          (Exc cls "structure events must be in confirmation order")) (pairwise structure_events);
  py_for (fun event =>
    _ ← raise_if (negb (bool_decide (StructureBreakEvent.timestamp event ∈ map Candle.timestamp candles)))
          (Exc cls "structure event timestamp must match a candle open");
    raise_if (negb (StructureBreakEvent.confirmed_at event
                    =? StructureBreakEvent.timestamp event + timeframe_duration timeframe))
      (Exc cls "structure event confirmed_at must match its candle close")) structure_events.

(** [candle_close_times] *)
Definition candle_close_times (timeframe : Timeframe) (candles : list Candle) : list datetime :=
  map (fun candle => Candle.timestamp candle + timeframe_duration timeframe) candles.

(** ATR points, when given, one per candle. *)
Definition validate_atr_alignment (cls : string) (candles : list Candle) (atr_result : option ATRResult) : pyres unit :=
  match atr_result with
  | None => Ok tt
  | Some atr =>
      _ ← raise_if (negb (length (ATRResult.points atr) =? length candles)%nat)
            (Exc cls "ATR points must align one-to-one with candles");
      py_for (fun '(candle, point) =>
        raise_if (negb (Candle.timestamp candle =? ATRPoint.timestamp point))
          (Exc cls "ATR timestamps must align with candle timestamps"))
        (zip candles (ATRResult.points atr))
  end.

(** [{candle.timestamp: index for index, candle in enumerate(candles)}] *)
Definition timestamp_to_index (candles : list Candle) : gmap Z nat := index_by Candle.timestamp candles.

(** [{candle.timestamp + interval: index for index, candle in enumerate(candles)}] *)
Definition close_to_index (timeframe : Timeframe) (candles : list Candle) : gmap Z nat :=
  index_by (fun candle => Candle.timestamp candle + timeframe_duration timeframe) candles.

(** [mapping\[key\]] *)
Definition index_get (m : gmap Z nat) (key : Z) : pyres nat :=
  match m !! key with Some index => Ok index | None => Raise (Exc "KeyError" "") end.

(** ** What the checks establish *)

(** An event sits on a candle and is confirmed at its close. *)
Definition event_on_candle (timeframe : Timeframe) (candles : list Candle) (event : StructureBreakEvent) : Prop :=
  (exists i c, candles !! i = Some c /\ Candle.timestamp c = StructureBreakEvent.timestamp event)
  /\ StructureBreakEvent.confirmed_at event = StructureBreakEvent.timestamp event + timeframe_duration timeframe.

Lemma elem_of_map_lookup {A} (f : A -> Z) (l : list A) t : t ∈ map f l <-> exists i c, l !! i = Some c /\ f c = t.
Proof.
  rewrite list_elem_of_fmap. split.
  - intros (c & -> & [i Hi]%list_elem_of_lookup). eauto.
  - intros (i & c & Hi & <-). exists c. split; [done|]. by eapply list_elem_of_lookup_2.
Qed.

Lemma validate_structure_events_ok cls timeframe candles events :
  validate_structure_events cls timeframe candles events = Ok tt ->
  Forall (event_on_candle timeframe candles) events.
Proof.
  intros (_ & _ & H)%bind_ok. apply py_for_ok in H. eapply Forall_impl; [exact H|].
  intros e ([] & H1%raise_if_ok & H2%raise_if_ok)%bind_ok.
  apply negb_false_iff, bool_decide_eq_true in H1. apply negb_false_iff, Z.eqb_eq in H2.
  split; [by apply elem_of_map_lookup | done].
Qed.

Lemma index_by_close timeframe candles t i : evenly_spaced timeframe candles ->
  index_by (fun c => Candle.timestamp c + timeframe_duration timeframe) candles !! t = Some i
  <-> exists c, candles !! i = Some c /\ Candle.timestamp c + timeframe_duration timeframe = t.
Proof. apply index_by_spec. Qed.

Lemma index_get_open timeframe candles i c t : evenly_spaced timeframe candles -> candles !! i = Some c ->
  Candle.timestamp c = t -> index_get (timestamp_to_index candles) t = Ok i.
Proof.
  intros Hs Hc Ht. unfold index_get, timestamp_to_index.
  by rewrite (proj2 (index_by_open timeframe candles _ i Hs)) by eauto.
Qed.
