(* ===== verification/StructureZones.v ===== *)
(** Theorems on the price zones of [engines/structure/primitives.py]
    ([_zone_match_interval] and [_build_zones]): the sorted anchors and their
    binary searches implement a linear scan of all zones, and the zones
    partition the swings they are built from. *)
From Stdlib Require Import ZArith QArith Qabs Lia Lqa Sorting.Sorted Sorting.Permutation.
From stdpp Require Import base list strings numbers pretty sorting sets.
From S2P Require Import Prelude Decimal Time Candle Indicators Structure.
Local Open Scope Z_scope.

(** ** Distances *)

Lemma dabs_mono p `{!ValidPrec p} a b : (Qabs (Qval a) <= Qabs (Qval b))%Q -> (Qval (dabs p a) <= Qval (dabs p b))%Q.
Proof. intros H. eapply rounds_to_mono; [exact ValidPrec0|exact H|apply dabs_rounds..]. Qed.

(** Rounded distances are monotone away from the price, on both sides. *)
Lemma distance_below price a b : (Qval a <= Qval b)%Q -> (Qval b <= Qval price)%Q ->
  (Qval (distance price b) <= Qval (distance price a))%Q.
Proof.
  intros Hab Hb. unfold distance. apply dabs_mono; [apply default_prec_valid|].
  pose proof (dsub_mono (p := DEFAULT_PREC) price b price a (Qle_refl _) Hab).
  pose proof (proj2 (dsub_nonneg (p := DEFAULT_PREC) price b) Hb).
  rewrite !Qabs_pos; lra.
Qed.

Lemma distance_above price a b : (Qval price <= Qval a)%Q -> (Qval a <= Qval b)%Q ->
  (Qval (distance price a) <= Qval (distance price b))%Q.
Proof.
  intros Ha Hab. unfold distance. apply dabs_mono; [apply default_prec_valid|].
  pose proof (dsub_mono (p := DEFAULT_PREC) price b price a (Qle_refl _) Hab).
  assert (Qval (dsub DEFAULT_PREC price a) <= 0)%Q.
  { apply Qnot_lt_le. intros Hp%dsub_pos. lra. }
  rewrite !Qabs_neg; lra.
Qed.

(** ** The search interval *)

Definition ascending (anchors : list anchor) : Prop :=
  forall i j a b, (i <= j)%nat -> anchors !! i = Some a -> anchors !! j = Some b -> (Qval a.1 <= Qval b.1)%Q.

(** The two binary searches keep every anchor within the tolerance. *)
Lemma zone_match_interval_complete anchors price tolerance : ascending anchors ->
  let '(lo, hi) := _zone_match_interval anchors price tolerance in
  (lo <= hi <= length anchors)%nat
  /\ forall i a, anchors !! i = Some a -> dleb (distance price a.1) tolerance = true -> (lo <= i < hi)%nat.
Proof.
  intros Ha. unfold _zone_match_interval.
  set (far_below := fun '((a, _) : anchor) => dltb a price && dltb tolerance (distance price a)).
  set (not_far_above := fun '((a, _) : anchor) => negb (dltb price a && dltb tolerance (distance price a))).
  destruct (bisect_mono far_below anchors 0) as (Hr1 & H1 & _); [lia| |].
  { intros i j [a x] [b y] Hij Hi Hj. specialize (Ha i j _ _ Hij Hi Hj). cbn in *.
    intros Hb. bool_hyps. apply andb_true_iff. dec_to_Q.
    pose proof (distance_below price a b). split; lra. }
  set (lo := bisect far_below anchors 0 (length anchors)) in *.
  destruct (bisect_mono not_far_above anchors lo) as (Hr2 & _ & H2); [lia| |].
  { intros i j [a x] [b y] Hij Hi Hj. specialize (Ha i j _ _ Hij Hi Hj). cbn in *.
    rewrite !negb_true_iff, !andb_false_iff. intros Hb.
    destruct (dltb price a) eqn:E1; [right|by left]. dec_to_Q.
    pose proof (distance_above price a b). destruct Hb as [Hb|Hb]; dec_to_Q; lra. }
  set (hi := bisect not_far_above anchors lo (length anchors)) in *.
  split; [lia|]. intros i [a x] Hi Hd. cbn in Hd. dec_to_Q. split.
  - destruct (decide (lo <= i)%nat); [done|exfalso]. specialize (H1 i _ ltac:(lia) Hi). cbn in H1.
    bool_hyps. dec_to_Q. lra.
  - destruct (decide (i < hi)%nat); [done|exfalso]. specialize (H2 i _ ltac:(lia) Hi). cbn in H2.
    bool_hyps. dec_to_Q. lra.
Qed.

(** ** The anchors index the zones *)

Definition anchor_of (zones : list _ZoneAccumulator) : list anchor :=
  map (fun '(i, zone) => (ZoneAccumulator.anchor_price zone, i)) (enumerate zones).

Record anchors_ok (zones : list _ZoneAccumulator) (anchors : list anchor) : Prop := {
  anchors_sorted : StronglySorted (fun a b => anchor_lt a b = true) anchors;
  anchors_perm : Permutation anchors (anchor_of zones)
}.

Lemma anchor_of_lookup zones a i : (a, i) ∈ anchor_of zones <->
  exists zone, zones !! i = Some zone /\ ZoneAccumulator.anchor_price zone = a.
Proof.
  unfold anchor_of. rewrite list_elem_of_fmap. split.
  - intros ([j zone] & [= -> ->] & H%elem_of_enumerate). eauto.
  - intros (zone & H & <-). exists (i, zone). split; [done|]. by apply elem_of_enumerate.
Qed.

Lemma anchors_ascending zones anchors : anchors_ok zones anchors -> ascending anchors.
Proof.
  intros [Hs _] i j a b Hij Hi Hj. destruct (decide (i = j)) as [->|].
  { assert (a = b) as -> by congruence. apply Qle_refl. }
  assert (anchor_lt a b = true) as Hlt by (apply (sorted_lookup _ _ Hs i j); [lia|done..]).
  unfold anchor_lt, lex_lt, on_key in Hlt.
  destruct (dltb a.1 b.1) eqn:E1; [dec_to_Q; lra|]. destruct (dltb b.1 a.1) eqn:E2; [done|]. dec_to_Q. lra.
Qed.

(** What the loop looks for: every zone within the tolerance, with its distance. *)
Definition near (price tolerance : dec) (zones : list _ZoneAccumulator) : list anchor :=
  omap (fun '(index, zone) =>
    let d := distance price (ZoneAccumulator.anchor_price zone) in
    if dleb d tolerance then Some (d, index) else None) (enumerate zones).

Lemma zone_matches_near zones anchors price tolerance : anchors_ok zones anchors ->
  Permutation (zone_matches zones anchors price tolerance) (near price tolerance zones).
Proof.
  intros Hok. unfold zone_matches.
  pose proof (zone_match_interval_complete anchors price tolerance (anchors_ascending _ _ Hok)) as Hc.
  destruct (_zone_match_interval anchors price tolerance) as [lo hi]. destruct Hc as [Hle Hin].
  destruct Hok as [_ Hp]. rewrite omap_slice; [|lia|].
  - rewrite Hp. unfold near, anchor_of. rewrite omap_map. erewrite omap_ext_in; [reflexivity|].
    intros [i zone] Hi%elem_of_enumerate. by rewrite Hi.
  - intros i [a index] Hi Hout. destruct (zones !! index) as [zone|] eqn:Hz; [|done]. cbn.
    destruct (dleb _ tolerance) eqn:Hd; [|done]. exfalso.
    assert (ZoneAccumulator.anchor_price zone = a) as Ha.
    { assert ((a, index) ∈ anchor_of zones) as (z & Hz' & Hza)%anchor_of_lookup.
      { rewrite <-Hp. by eapply list_elem_of_lookup_2. } congruence. }
    rewrite Ha in Hd. specialize (Hin i (a, index) Hi Hd). lia.
Qed.

(** The loop body without the anchors. *)
Definition linear_step (kind : ZoneKind) (tolerance : dec) (zones : list _ZoneAccumulator)
    (swing : ConfirmedSwing) : list _ZoneAccumulator :=
  match py_min anchor_lt (near (ConfirmedSwing.price swing) tolerance zones) with
  | Some (_, index) => alter (zone_touch swing) index zones
  | None => zones ++ [zone_open kind (length zones) swing]
  end.

#[export] Instance anchor_lt_sw : StrictWeak anchor_lt.
Proof. apply lex_lt_sw; apply on_key_sw; apply _. Qed.

(** The order is total on positions, so the minimum does not depend on the
    order of the candidates. *)
Lemma anchor_lt_total a b : anchor_lt a b = false -> anchor_lt b a = false -> a.2 = b.2.
Proof.
  unfold anchor_lt, lex_lt, on_key. destruct (dltb a.1 b.1) eqn:E1, (dltb b.1 a.1) eqn:E2; try done.
  rewrite !Nat.ltb_ge. lia.
Qed.

Lemma py_min_perm l l' : Permutation l l' -> snd <$> py_min anchor_lt l = snd <$> py_min anchor_lt l'.
Proof.
  intros Hp. destruct (py_min anchor_lt l) as [m|] eqn:E, (py_min anchor_lt l') as [m'|] eqn:E'.
  - apply py_min_spec in E as [Hm Hmin]; [|apply _]. apply py_min_spec in E' as [Hm' Hmin']; [|apply _].
    cbn. f_equal. apply anchor_lt_total; [apply Hmin'; by rewrite <-Hp | apply Hmin; by rewrite Hp].
  - apply py_min_None in E'. subst. apply Permutation_nil_r in Hp. by subst.
  - apply py_min_None in E. subst. apply Permutation_nil_l in Hp. by subst.
  - done.
Qed.

Lemma anchor_of_alter_touch swing index zones :
  anchor_of (alter (zone_touch swing) index zones) = anchor_of zones.
Proof.
  apply list_eq. intros i. unfold anchor_of. rewrite !list_lookup_fmap, !enumerate_lookup.
  destruct (decide (i = index)) as [->|Hne].
  - rewrite list_lookup_alter_eq. by destruct (zones !! index).
  - by rewrite list_lookup_alter_ne.
Qed.

Lemma build_zones_step_linear kind tolerance zones anchors swing : anchors_ok zones anchors ->
  let '(zones', anchors') := build_zones_step kind tolerance (zones, anchors) swing in
  zones' = linear_step kind tolerance zones swing /\ anchors_ok zones' anchors'.
Proof.
  intros Hok. unfold build_zones_step, linear_step.
  pose proof (py_min_perm _ _ (zone_matches_near zones anchors (ConfirmedSwing.price swing) tolerance Hok)) as Hmin.
  destruct (py_min anchor_lt (zone_matches _ _ _ _)) as [[d index]|],
    (py_min anchor_lt (near _ _ _)) as [[d' index']|]; try done.
  - injection Hmin as ->. split; [done|]. destruct Hok as [Hs Hp]. split; [done|].
    by rewrite anchor_of_alter_touch.
  - split; [done|]. destruct Hok as [Hs Hp]. split.
    + apply insert_at_sorted; [apply _|done|]. intros [a i] Hy Hlt.
      rewrite Hp in Hy. apply anchor_of_lookup in Hy as (z & Hz%lookup_lt_Some & _).
      unfold anchor_lt, lex_lt, on_key in *. cbn in *.
      destruct (dltb (ConfirmedSwing.price swing) a) eqn:E1; [done|].
      destruct (dltb a (ConfirmedSwing.price swing)) eqn:E2; [done|]. by apply Nat.ltb_lt.
    + rewrite list_insert_at_Permutation. unfold anchor_of. rewrite enumerate_app, map_app. cbn.
      rewrite Hp. apply Permutation_cons_append.
Qed.

Lemma build_zones_linear kind tolerance swings :
  (foldl (build_zones_step kind tolerance) ([], []) swings).1 = foldl (linear_step kind tolerance) [] swings.
Proof.
  assert (forall zones anchors, anchors_ok zones anchors ->
    (foldl (build_zones_step kind tolerance) (zones, anchors) swings).1 = foldl (linear_step kind tolerance) zones swings) as H.
  { induction swings as [|swing swings IH]; intros zones anchors Hok; [done|]. cbn [foldl].
    pose proof (build_zones_step_linear kind tolerance zones anchors swing Hok) as Hs.
    destruct (build_zones_step _ _ _ _) as [zones' anchors']. destruct Hs as [-> Hok']. by apply IH. }
  apply H. split; [constructor|done].
Qed.

(** The zones by linear scan. *)
Definition reference_zones (swings : list ConfirmedSwing) (kind : ZoneKind) (config : MarketStructureConfig) :
    list _ZoneAccumulator :=
  foldl (linear_step kind (ticks config (MarketStructureConfig.zone_merge_tolerance_ticks config))) []
    (eligible_swings swings kind).

Lemma build_zones_unfold swings kind config :
  _build_zones swings kind config =
  py_map (fun zone => validated PriceZoneCandidate.valid
      (zone_candidate (ticks config (MarketStructureConfig.zone_padding_ticks config)) zone))
    (reference_zones swings kind config).
Proof.
  unfold _build_zones, reference_zones. rewrite <-build_zones_linear.
  by destruct (foldl (build_zones_step _ _) _ _).
Qed.

(** Keeping the anchors sorted and searching them by bisection, with the
    rounded subtraction of the code, gives the same zones as scanning every
    zone: each swing joins the nearest zone within the tolerance, the oldest of
    equally near ones, and otherwise opens a new one. *)
Theorem build_zones_is_linear_scan swings kind config zones :
  _build_zones swings kind config = Ok zones <->
  Forall2 (fun zone candidate =>
      PriceZoneCandidate.valid candidate = true
      /\ candidate = zone_candidate (ticks config (MarketStructureConfig.zone_padding_ticks config)) zone)
    (reference_zones swings kind config) zones.
Proof.
  rewrite build_zones_unfold, py_map_ok. split; intros H; (eapply Forall2_impl; [exact H|]); cbn;
    intros zone candidate; rewrite validated_ok; naive_solver.
Qed.

(** ** Zones partition their swings *)

(** [zone] was built from the swings [g], in order. *)
Record built_from (tolerance : dec) (g : list ConfirmedSwing) (zone : _ZoneAccumulator) : Prop := {
  bf_ids : ZoneAccumulator.source_swing_ids zone = map ConfirmedSwing.swing_id g;
  bf_pivots : ZoneAccumulator.source_pivot_timestamps zone = map ConfirmedSwing.pivot_timestamp g;
  bf_anchor : ConfirmedSwing.price <$> head g = Some (ZoneAccumulator.anchor_price zone);
  bf_created : ConfirmedSwing.confirmed_at <$> head g = Some (ZoneAccumulator.created_at zone);
  bf_updated : ConfirmedSwing.confirmed_at <$> list.last g = Some (ZoneAccumulator.updated_at zone);
  bf_near : Forall (fun s => Qval (distance (ConfirmedSwing.price s) (ZoneAccumulator.anchor_price zone))
                             <= Qval tolerance)%Q g;
  bf_range : Forall (fun s => Qval (ZoneAccumulator.minimum_source_price zone) <= Qval (ConfirmedSwing.price s)
                             /\ Qval (ConfirmedSwing.price s) <= Qval (ZoneAccumulator.maximum_source_price zone))%Q g;
  bf_min : ZoneAccumulator.minimum_source_price zone ∈ map ConfirmedSwing.price g;
  bf_max : ZoneAccumulator.maximum_source_price zone ∈ map ConfirmedSwing.price g
}.

Lemma distance_self p : (Qval (distance p p) == 0)%Q.
Proof.
  unfold distance. pose proof (proj1 (proj2 (dsub_sign (p := DEFAULT_PREC) p p))) as H.
  destruct (rounds_sign _ _ (dabs_rounds (p := DEFAULT_PREC) (dsub DEFAULT_PREC p p))) as (_ & H2 & _).
  apply H2. rewrite (proj2 H) by reflexivity. reflexivity.
Qed.

Lemma built_open tolerance kind position swing : (0 <= Qval tolerance)%Q ->
  built_from tolerance [swing] (zone_open kind position swing).
Proof.
  intros Ht. constructor; cbn; try done; try (constructor; [|constructor]).
  - by rewrite distance_self.
  - split; apply Qle_refl.
  - set_solver.
  - set_solver.
Qed.

Lemma built_touch tolerance g zone swing : built_from tolerance g zone ->
  (Qval (distance (ConfirmedSwing.price swing) (ZoneAccumulator.anchor_price zone)) <= Qval tolerance)%Q ->
  built_from tolerance (g ++ [swing]) (zone_touch swing zone).
Proof.
  intros [H1 H2 H3 H4 H5 H6 H7 H8 H9] Hd.
  pose proof (dmin_le (ZoneAccumulator.minimum_source_price zone) (ConfirmedSwing.price swing)).
  pose proof (dmax_ge (ZoneAccumulator.maximum_source_price zone) (ConfirmedSwing.price swing)).
  assert (g <> []) as Hg by (destruct g; done).
  constructor; cbn [zone_touch ZoneAccumulator.source_swing_ids ZoneAccumulator.source_pivot_timestamps
    ZoneAccumulator.anchor_price ZoneAccumulator.created_at ZoneAccumulator.updated_at
    ZoneAccumulator.minimum_source_price ZoneAccumulator.maximum_source_price].
  - by rewrite H1, map_app.
  - by rewrite H2, map_app.
  - by destruct g.
  - by destruct g.
  - by rewrite last_snoc.
  - apply Forall_app. split; [done|]. by constructor.
  - apply Forall_app. split; [|constructor; [|constructor]; tauto].
    eapply Forall_impl; [exact H7|]. cbn. intros s [? ?]. split; lra.
  - rewrite map_app. unfold dmin. destruct (dltb _ _); set_solver.
  - rewrite map_app. unfold dmax. destruct (dltb _ _); set_solver.
Qed.

Lemma near_elem price tolerance zones d i : (d, i) ∈ near price tolerance zones ->
  exists zone, zones !! i = Some zone
    /\ (Qval (distance price (ZoneAccumulator.anchor_price zone)) <= Qval tolerance)%Q.
Proof.
  unfold near. intros ([j zone] & Hz%elem_of_enumerate & H)%list_elem_of_omap.
  destruct (dleb _ tolerance) eqn:E; [|done]. injection H as _ ->. exists zone. split; [done|]. dlra.
Qed.

Lemma concat_alter_snoc {A} (gs : list (list A)) i g x : gs !! i = Some g ->
  Permutation (concat (alter (fun g => g ++ [x]) i gs)) (x :: concat gs).
Proof.
  revert i; induction gs as [|h gs IH]; intros [|i] Hi; cbn in *; try done.
  - rewrite <-app_assoc. cbn. by rewrite <-Permutation_middle.
  - rewrite (IH i Hi). by rewrite <-Permutation_middle.
Qed.

Lemma linear_groups kind tolerance swings : (0 <= Qval tolerance)%Q ->
  exists groups, Forall2 (built_from tolerance) groups (foldl (linear_step kind tolerance) [] swings)
    /\ Permutation (concat groups) swings.
Proof.
  intros Ht. induction swings as [|swing swings IH] using rev_ind.
  { exists []. split; [constructor|done]. }
  destruct IH as (groups & Hg & Hp). rewrite foldl_app. cbn [foldl].
  set (zones := foldl (linear_step kind tolerance) [] swings) in *. unfold linear_step.
  destruct (py_min anchor_lt _) as [[d i]|] eqn:E.
  - apply py_min_mem, near_elem in E as (zone & Hz & Hd).
    destruct (Forall2_lookup_r _ _ _ _ _ Hg Hz) as (g & Hgi & Hb).
    exists (alter (fun g => g ++ [swing]) i groups). split.
    + apply Forall2_alter; [done|]. intros g' z' Hg' Hz' Hb'.
      assert (z' = zone) as -> by congruence. by apply built_touch.
    + rewrite (concat_alter_snoc _ _ _ _ Hgi), Hp. apply Permutation_cons_append.
  - exists (groups ++ [[swing]]). split.
    + apply Forall2_app; [done|]. constructor; [|constructor]. by apply built_open.
    + rewrite concat_app. cbn. by rewrite Hp.
Qed.

Definition swing_kind_of (kind : ZoneKind) : SwingKind :=
  match kind with ZoneKind.SUPPORT => SwingKind.LOW | ZoneKind.RESISTANCE => SwingKind.HIGH end.

Lemma ticks_nonneg config n : MarketStructureConfig.valid config = true -> (0 <= n)%Z ->
  (0 <= Qval (ticks config n))%Q.
Proof.
  unfold MarketStructureConfig.valid. intros Hv Hn. bool_hyps. dec_to_Q. rewrite Qval_D0 in *.
  apply dmul_nonneg; [lra|]. rewrite Qval_D. change 0%Q with (inject_Z 0). by rewrite <-Zle_Qle.
Qed.

Lemma config_counts config : MarketStructureConfig.valid config = true ->
  0 <= MarketStructureConfig.zone_merge_tolerance_ticks config
  /\ 0 <= MarketStructureConfig.zone_padding_ticks config.
Proof. unfold MarketStructureConfig.valid. intros Hv. bool_hyps. lia. Qed.

(** The candidate built from a group of positive prices is valid unless its
    padded lower bound is not positive. *)
Lemma zone_candidate_valid tolerance padding g zone : built_from tolerance g zone -> (0 <= Qval padding)%Q ->
  Forall (fun s => 0 < Qval (ConfirmedSwing.price s))%Q g ->
  PriceZoneCandidate.valid (zone_candidate padding zone) = true
  \/ exists s, s ∈ g /\ (Qval (dsub DEFAULT_PREC (ConfirmedSwing.price s) padding) <= 0)%Q.
Proof.
  intros [H1 _ H3 _ _ _ H7 H8 H9] Hp Hpos. rewrite Forall_forall in Hpos, H7.
  apply list_elem_of_fmap in H8 as (smin & Hmin & Hsmin). apply list_elem_of_fmap in H9 as (smax & Hmax & Hsmax).
  destruct (Qlt_le_dec 0 (Qval (dsub DEFAULT_PREC (ConfirmedSwing.price smin) padding))) as [Hl|Hl]; [left|right; eauto].
  unfold PriceZoneCandidate.valid, zone_candidate. cbn.
  assert (0 < Qval (ConfirmedSwing.price smax))%Q as Hm by auto.
  rewrite Hmin, Hmax. rewrite !andb_true_iff, negb_true_iff, Nat.leb_le. dec_to_Q. rewrite Qval_D0.
  destruct g as [|s0 g]; [set_solver|]. cbn in H3. injection H3 as <-.
  split_and!; [done| | | |].
  - by apply dadd_pos.
  - apply Hpos. constructor.
  - rewrite H1. cbn. lia.
  - pose proof (H7 smax Hsmax) as [Hle _]. rewrite Hmin in Hle.
    assert (Qval (dsub DEFAULT_PREC (ConfirmedSwing.price smin) padding) <= Qval (dround DEFAULT_PREC (ConfirmedSwing.price smin)))%Q.
    { eapply rounds_to_mono; [apply default_prec_valid| |apply dsub_rounds|by apply dround_spec]. lra. }
    assert (Qval (dround DEFAULT_PREC (ConfirmedSwing.price smin)) <= Qval (dadd DEFAULT_PREC (ConfirmedSwing.price smax) padding))%Q.
    { eapply rounds_to_mono; [apply default_prec_valid| |by apply dround_spec|apply dadd_rounds]. lra. }
    lra.
Qed.

(** What a returned zone says about the swings it stands for. *)
Definition zone_covers (config : MarketStructureConfig) (g : list ConfirmedSwing) (z : PriceZoneCandidate) : Prop :=
  let tolerance := ticks config (MarketStructureConfig.zone_merge_tolerance_ticks config) in
  let padding := ticks config (MarketStructureConfig.zone_padding_ticks config) in
  PriceZoneCandidate.source_swing_ids z = map ConfirmedSwing.swing_id g
  /\ PriceZoneCandidate.touch_count z = length g
  /\ ConfirmedSwing.price <$> head g = Some (PriceZoneCandidate.anchor_price z)
  /\ ConfirmedSwing.confirmed_at <$> head g = Some (PriceZoneCandidate.created_at z)
  /\ ConfirmedSwing.confirmed_at <$> list.last g = Some (PriceZoneCandidate.updated_at z)
  /\ Forall (fun s =>
       Qval (distance (ConfirmedSwing.price s) (PriceZoneCandidate.anchor_price z)) <= Qval tolerance
       /\ Qval (PriceZoneCandidate.lower_bound z) <= Qval (dsub DEFAULT_PREC (ConfirmedSwing.price s) padding)
       /\ Qval (dadd DEFAULT_PREC (ConfirmedSwing.price s) padding) <= Qval (PriceZoneCandidate.upper_bound z))%Q g.

Lemma built_from_covers config g zone :
  built_from (ticks config (MarketStructureConfig.zone_merge_tolerance_ticks config)) g zone ->
  zone_covers config g (zone_candidate (ticks config (MarketStructureConfig.zone_padding_ticks config)) zone).
Proof.
  intros [H1 H2 H3 H4 H5 H6 H7 H8 H9]. unfold zone_covers, zone_candidate. cbn.
  split_and!; try done; [by rewrite H1, length_map|].
  rewrite Forall_forall in H6, H7 |- *. intros s Hs. specialize (H6 s Hs). destruct (H7 s Hs) as [Ha Hb].
  split_and!; [done| |].
  - apply dsub_mono; [done|apply Qle_refl].
  - apply dadd_mono; [done|apply Qle_refl].
Qed.

Lemma py_map_validated {A B} (valid : B -> bool) (f : A -> B) l :
  py_map (fun x => validated valid (f x)) l = Ok (map f l)
  \/ py_map (fun x => validated valid (f x)) l = Raise (Exc "ValidationError" "")
     /\ exists x, x ∈ l /\ valid (f x) = false.
Proof.
  induction l as [|x l IH]; cbn; [by left|]. unfold validated at 1 3. destruct (valid (f x)) eqn:E.
  - destruct IH as [->|[-> (y & Hy & Hv)]]; [by left|]. right. split; [done|]. exists y. set_solver.
  - right. split; [done|]. exists x. set_solver.
Qed.

(** Zones partition the confirmed swings of their side: each swing is a
    touch of exactly one zone, within the merge tolerance of its anchor and
    inside its padded bounds, and a zone's anchor and times are those of its
    first and last touch.  The only failure is a zone whose padded lower bound
    is not positive. *)
Theorem build_zones_partition config swings kind :
  MarketStructureConfig.valid config = true -> Forall (fun s => 0 < Qval (ConfirmedSwing.price s))%Q swings ->
  (exists groups zones, _build_zones swings kind config = Ok zones
     /\ Permutation (concat groups) (of_kind (swing_kind_of kind) swings)
     /\ Forall2 (zone_covers config) groups zones)
  \/ (_build_zones swings kind config = Raise (Exc "ValidationError" "")
      /\ exists s, s ∈ swings /\
         (Qval (dsub DEFAULT_PREC (ConfirmedSwing.price s)
                  (ticks config (MarketStructureConfig.zone_padding_ticks config))) <= 0)%Q).
Proof.
  intros Hv Hpos. destruct (config_counts config Hv) as [Ht Hp].
  destruct (linear_groups kind _ (eligible_swings swings kind) (ticks_nonneg config _ Hv Ht))
    as (groups & Hg & Hperm).
  assert (Permutation (concat groups) (of_kind (swing_kind_of kind) swings)) as Hperm'.
  { rewrite Hperm. unfold eligible_swings. by rewrite <-sort_by_Permutation. }
  rewrite build_zones_unfold. fold (reference_zones swings kind config) in Hg.
  destruct (py_map_validated PriceZoneCandidate.valid
    (zone_candidate (ticks config (MarketStructureConfig.zone_padding_ticks config)))
    (reference_zones swings kind config)) as [->|[-> (zone & Hz & Hbad)]].
  - left. eexists groups, _. split_and!; [done|done|]. apply Forall2_fmap_r.
    eapply Forall2_impl; [exact Hg|]. intros g zone. apply built_from_covers.
  - right. split; [done|]. apply list_elem_of_lookup in Hz as [i Hi].
    destruct (Forall2_lookup_r _ _ _ _ _ Hg Hi) as (g & Hgi & Hb).
    assert (forall s, s ∈ g -> s ∈ swings) as Hin.
    { intros s Hs. assert (s ∈ of_kind (swing_kind_of kind) swings) as H.
      { rewrite <-Hperm'. apply list_elem_of_In, List.in_concat. exists g.
        rewrite <-!list_elem_of_In. split; [by eapply list_elem_of_lookup_2|done]. }
      apply list_elem_of_filter in H. tauto. }
    destruct (zone_candidate_valid _ _ _ _ Hb (ticks_nonneg config _ Hv Hp)) as [Hok|(s & Hs & Hle)].
    + rewrite Forall_forall in Hpos |- *. auto.
    + congruence.
    + exists s. auto.
Qed.

Lemma build_zones_partition_witness :
  let swings := (_detect_swings zigzag_candles Timeframe.ONE_MINUTE structure_config_example).2 in
  (exists groups zones, _build_zones swings ZoneKind.RESISTANCE structure_config_example = Ok zones
     /\ Permutation (concat groups) (of_kind SwingKind.HIGH swings)
     /\ Forall2 (zone_covers structure_config_example) groups zones)
  \/ (_build_zones swings ZoneKind.RESISTANCE structure_config_example = Raise (Exc "ValidationError" "")
      /\ exists s, s ∈ swings /\ (Qval (dsub DEFAULT_PREC (ConfirmedSwing.price s)
                  (ticks structure_config_example 1)) <= 0)%Q).
Proof.
  intros swings.
  apply (build_zones_partition structure_config_example swings ZoneKind.RESISTANCE); [reflexivity|].
  repeat constructor.
Defined.
