(* ===== verification/Fvg.v ===== *)
(** The fair value gap engine: [engines/smc/fvg.py] and [schemas/fvg.py].

    Gap detection, the lifecycle of a zone and the chronological replay.  Zones
    are mutable objects held by an archive ([zones]) and a work list
    ([active_zones]); here the archive is the store and the work list holds
    positions in it. *)
From Stdlib Require Import ZArith QArith Qabs Lia Lqa.
From stdpp Require Import base list strings numbers pretty sets.
From S2P Require Import Prelude Decimal Time Candle Indicators Structure.
Local Open Scope Z_scope.

(** ** Schemas *)

Module GapZoneType.
Inductive GapZoneType := FVG | IFVG.
#[global] Instance GapZoneType_eqdec : EqDecision GapZoneType := ltac:(solve_decision).
End GapZoneType.
Abbreviation GapZoneType := GapZoneType.GapZoneType.

Module GapDirection.
Inductive GapDirection := BULLISH | BEARISH.
#[global] Instance GapDirection_eqdec : EqDecision GapDirection := ltac:(solve_decision).
Definition value (d : GapDirection) : string := match d with BULLISH => "bullish" | BEARISH => "bearish" end.
End GapDirection.
Abbreviation GapDirection := GapDirection.GapDirection.

Module GapZoneStatus.
Inductive GapZoneStatus := OPEN | PARTIAL | FILLED | INVALIDATED.
#[global] Instance GapZoneStatus_eqdec : EqDecision GapZoneStatus := ltac:(solve_decision).
End GapZoneStatus.
Abbreviation GapZoneStatus := GapZoneStatus.GapZoneStatus.

Module GapLifecycleState.
Inductive GapLifecycleState := ACTIVE | PARTIALLY_FILLED | FILLED | INVERTED | INVALIDATED | EXPIRED.
#[global] Instance GapLifecycleState_eqdec : EqDecision GapLifecycleState := ltac:(solve_decision).
End GapLifecycleState.
Abbreviation GapLifecycleState := GapLifecycleState.GapLifecycleState.

Module FVGFillBasis.
Inductive FVGFillBasis := WICK | CLOSE.
#[global] Instance FVGFillBasis_eqdec : EqDecision FVGFillBasis := ltac:(solve_decision).
End FVGFillBasis.
Abbreviation FVGFillBasis := FVGFillBasis.FVGFillBasis.

Module GapLifecycleEventType.
Inductive GapLifecycleEventType :=
| FVG_CREATED | FVG_RETEST | FVG_FILLED | FVG_INVERTED | FVG_EXPIRED
| IFVG_CREATED | IFVG_RETEST | IFVG_FILLED | IFVG_INVALIDATED | IFVG_EXPIRED.
#[global] Instance GapLifecycleEventType_eqdec : EqDecision GapLifecycleEventType := ltac:(solve_decision).
End GapLifecycleEventType.
Abbreviation GapLifecycleEventType := GapLifecycleEventType.GapLifecycleEventType.

Module FVGConfig.
Record FVGConfig := mkFVGConfig {
  tick_size : dec;
  fvg_min_gap_ticks : Z;
  fvg_min_gap_atr_ratio : dec;
  fvg_require_middle_candle_direction : bool;
  fvg_fill_basis : FVGFillBasis;
  fvg_full_fill_fraction : dec;
  fvg_max_age_bars : Z;
  fvg_max_retests : Z;
  ifvg_enabled : bool;
  ifvg_inversion_buffer_ticks : Z
}.
Definition valid (c : FVGConfig) : bool :=
  dltb (D 0) (tick_size c) && (0 <=? fvg_min_gap_ticks c) && dleb (D 0) (fvg_min_gap_atr_ratio c)
  && dltb (D 0) (fvg_full_fill_fraction c) && dleb (fvg_full_fill_fraction c) (D 1)
  && (1 <=? fvg_max_age_bars c) && (1 <=? fvg_max_retests c) && (0 <=? ifvg_inversion_buffer_ticks c).
End FVGConfig.
Abbreviation FVGConfig := FVGConfig.FVGConfig.

(** [Field(ge=0, le=1)] *)
Definition unit_fraction (x : dec) : bool := dleb (D 0) x && dleb x (D 1).

Module GapLifecycleEvent.
Record GapLifecycleEvent := mkGapLifecycleEvent {
  event_type : GapLifecycleEventType;
  zone_id : string;
  bar_timestamp : datetime;
  occurred_at : datetime;
  from_state : option GapLifecycleState;
  to_state : GapLifecycleState;
  fill_fraction : dec;
  retest_count : Z
}.
Definition valid (e : GapLifecycleEvent) : bool :=
  unit_fraction (fill_fraction e) && (0 <=? retest_count e).
End GapLifecycleEvent.
Abbreviation GapLifecycleEvent := GapLifecycleEvent.GapLifecycleEvent.

Module GapZone.
Record GapZone := mkGapZone {
  zone_id : string;
  type : GapZoneType;
  direction : GapDirection;
  lower : dec;
  upper : dec;
  created_at : datetime;
  confirmed_at : datetime;
  status : GapZoneStatus;
  lifecycle_state : GapLifecycleState;
  source_candle_timestamps : list datetime;
  origin_fvg_id : option string;
  fill_fraction : dec;
  retest_count : Z;
  last_updated_at : datetime;
  lifecycle : list GapLifecycleEvent
}.
Definition validate_zone (z : GapZone) : bool :=
  dltb (D 0) (lower z) && dltb (D 0) (upper z) && unit_fraction (fill_fraction z) && (0 <=? retest_count z)
  && negb (dleb (upper z) (lower z))
  && negb (bool_decide (type z = GapZoneType.IFVG) && bool_decide (origin_fvg_id z = None))
  && negb (bool_decide (type z = GapZoneType.FVG) && negb (bool_decide (origin_fvg_id z = None))).
End GapZone.
Abbreviation GapZone := GapZone.GapZone.

Module FVGRejection.
Record FVGRejection := mkFVGRejection {
  code : string;
  third_candle_timestamp : datetime;
  confirmed_at : datetime
}.
End FVGRejection.
Abbreviation FVGRejection := FVGRejection.FVGRejection.

Module FVGAnalysisResult.
Record FVGAnalysisResult := mkFVGAnalysisResult {
  timeframe : Timeframe;
  config : FVGConfig;
  candle_count : nat;
  data_cutoff_at : option datetime;
  zones : list GapZone;
  rejections : list FVGRejection
}.
End FVGAnalysisResult.
Abbreviation FVGAnalysisResult := FVGAnalysisResult.FVGAnalysisResult.

(** ** The engine's state *)

Definition terminal (s : GapLifecycleState) : bool :=
  match s with
  | GapLifecycleState.FILLED | GapLifecycleState.INVERTED
  | GapLifecycleState.INVALIDATED | GapLifecycleState.EXPIRED => true
  | GapLifecycleState.ACTIVE | GapLifecycleState.PARTIALLY_FILLED => false
  end.

Module ZoneState.
Record ZoneState := mkZoneState {
  zone_id : string;
  type : GapZoneType;
  direction : GapDirection;
  lower : dec;
  upper : dec;
  created_at : datetime;
  confirmed_at : datetime;
  source_candle_timestamps : list datetime;
  created_bar_index : nat;
  origin_fvg_id : option string;
  lifecycle_state : GapLifecycleState;
  fill_fraction : dec;
  retest_count : Z;
  last_updated_at : option datetime;
  lifecycle : list GapLifecycleEvent
}.
(** The assignments of the code. *)
Definition set_fill (z : ZoneState) (fill : dec) (count : Z) (updated : datetime) : ZoneState :=
  mkZoneState (zone_id z) (type z) (direction z) (lower z) (upper z) (created_at z) (confirmed_at z)
    (source_candle_timestamps z) (created_bar_index z) (origin_fvg_id z) (lifecycle_state z)
    fill count (Some updated) (lifecycle z).
Definition set_state (z : ZoneState) (state : GapLifecycleState) (updated : datetime)
    (events : list GapLifecycleEvent) : ZoneState :=
  mkZoneState (zone_id z) (type z) (direction z) (lower z) (upper z) (created_at z) (confirmed_at z)
    (source_candle_timestamps z) (created_bar_index z) (origin_fvg_id z) state
    (fill_fraction z) (retest_count z) (Some updated) events.
End ZoneState.
Abbreviation _ZoneState := ZoneState.ZoneState.

Definition _public_status (state : GapLifecycleState) : GapZoneStatus :=
  match state with
  | GapLifecycleState.ACTIVE => GapZoneStatus.OPEN
  | GapLifecycleState.PARTIALLY_FILLED => GapZoneStatus.PARTIAL
  | GapLifecycleState.FILLED => GapZoneStatus.FILLED
  | _ => GapZoneStatus.INVALIDATED
  end.

Definition _validate_inputs (candles : list Candle) (timeframe : Timeframe) (config : FVGConfig)
    (atr_result : option ATRResult) : pyres unit :=
  _ ← py_for (fun candle =>
        py_for (fun '(field_name, price) =>
          bad ← misaligned price (FVGConfig.tick_size config);
          raise_if bad (Exc "FVGInputError" ("candle " +:+ field_name +:+ " price is not aligned to tick_size")))
          (ohlc_fields candle)) candles;
  _ ← validate_spacing "FVGInputError" timeframe candles;
  match atr_result with
  | None => Ok tt
  | Some atr =>
      _ ← raise_if (negb (length (ATRResult.points atr) =? length candles)%nat)
            (Exc "FVGInputError" "ATR points must align one-to-one with candles");
      py_for (fun '(candle, point) =>
        raise_if (negb (Candle.timestamp candle =? ATRPoint.timestamp point))
          (Exc "FVGInputError" "ATR timestamps must align with candle timestamps"))
        (zip candles (ATRResult.points atr))
  end.

Definition _append_event (zone : _ZoneState) (event_type : GapLifecycleEventType) (bar : Candle)
    (occurred_at : datetime) (to_state : GapLifecycleState) : pyres _ZoneState :=
  e ← validated GapLifecycleEvent.valid
        (GapLifecycleEvent.mkGapLifecycleEvent event_type (ZoneState.zone_id zone) (Candle.timestamp bar)
          occurred_at (Some (ZoneState.lifecycle_state zone)) to_state (ZoneState.fill_fraction zone)
          (ZoneState.retest_count zone));
  Ok (ZoneState.set_state zone to_state occurred_at (ZoneState.lifecycle zone ++ [e])).

(** [_new_fvg]; [source] are the three candles' timestamps. *)
Definition _new_fvg (direction : GapDirection) (lower upper : dec) (candles : list Candle)
    (third_index : nat) (third : Candle) (confirmed_at : datetime) : _ZoneState :=
  let zone_id := "FVG:" +:+ GapDirection.value direction +:+ ":" +:+ isoformat (Candle.timestamp third) in
  ZoneState.mkZoneState zone_id GapZoneType.FVG direction lower upper confirmed_at confirmed_at
    (map Candle.timestamp (slice candles (third_index - 2) (third_index + 1))) third_index None
    GapLifecycleState.ACTIVE (D 0) 0 (Some confirmed_at)
    [GapLifecycleEvent.mkGapLifecycleEvent GapLifecycleEventType.FVG_CREATED zone_id
       (Candle.timestamp third) confirmed_at None GapLifecycleState.ACTIVE (D 0) 0].

Definition opposite (d : GapDirection) : GapDirection :=
  match d with GapDirection.BULLISH => GapDirection.BEARISH | GapDirection.BEARISH => GapDirection.BULLISH end.

Definition _new_ifvg (origin : _ZoneState) (inversion_bar : Candle) (inversion_index : nat)
    (confirmed_at : datetime) : _ZoneState :=
  let direction := opposite (ZoneState.direction origin) in
  let zone_id := "IFVG:" +:+ GapDirection.value direction +:+ ":"
    +:+ isoformat (Candle.timestamp inversion_bar) +:+ ":" +:+ ZoneState.zone_id origin in
  ZoneState.mkZoneState zone_id GapZoneType.IFVG direction (ZoneState.lower origin) (ZoneState.upper origin)
    confirmed_at confirmed_at (ZoneState.source_candle_timestamps origin) inversion_index
    (Some (ZoneState.zone_id origin)) GapLifecycleState.ACTIVE (D 0) 0 (Some confirmed_at)
    [GapLifecycleEvent.mkGapLifecycleEvent GapLifecycleEventType.IFVG_CREATED zone_id
       (Candle.timestamp inversion_bar) confirmed_at None GapLifecycleState.ACTIVE (D 0) 0].

Definition _bar_fill_fraction (zone : _ZoneState) (bar : Candle) (basis : FVGFillBasis) : pyres dec :=
  let lower := ZoneState.lower zone in
  let upper := ZoneState.upper zone in
  match ZoneState.direction zone with
  | GapDirection.BULLISH =>
      let probe := match basis with FVGFillBasis.WICK => Candle.low bar | FVGFillBasis.CLOSE => Candle.close bar end in
      if dleb upper probe then Ok (D 0)
      else if dleb probe lower then Ok (D 1)
      else ddiv_py DEFAULT_PREC (dsub DEFAULT_PREC upper probe) (dsub DEFAULT_PREC upper lower)
  | GapDirection.BEARISH =>
      let probe := match basis with FVGFillBasis.WICK => Candle.high bar | FVGFillBasis.CLOSE => Candle.close bar end in
      if dleb probe lower then Ok (D 0)
      else if dleb upper probe then Ok (D 1)
      else ddiv_py DEFAULT_PREC (dsub DEFAULT_PREC probe lower) (dsub DEFAULT_PREC upper lower)
  end.

Definition _invalidation_triggered (zone : _ZoneState) (bar : Candle) (buffer : dec) : bool :=
  match ZoneState.direction zone with
  | GapDirection.BULLISH => dltb (Candle.close bar) (dsub DEFAULT_PREC (ZoneState.lower zone) buffer)
  | GapDirection.BEARISH => dltb (dadd DEFAULT_PREC (ZoneState.upper zone) buffer) (Candle.close bar)
  end.

(** [A if zone.type is GapZoneType.FVG else B] *)
Definition by_type {A} (zone : _ZoneState) (fvg ifvg : A) : A :=
  match ZoneState.type zone with GapZoneType.FVG => fvg | GapZoneType.IFVG => ifvg end.

(** The retest part of [_update_zone]: the zone afterwards, and whether it was
    filled. *)
Definition observe_fill (zone : _ZoneState) (bar : Candle) (confirmed_at : datetime) (config : FVGConfig)
    (observed_fill : dec) : pyres (_ZoneState * bool) :=
  if negb (dltb (D 0) observed_fill) then Ok (zone, false) else
  let previous_fill := ZoneState.fill_fraction zone in
  let zone := ZoneState.set_fill zone (dmax (ZoneState.fill_fraction zone) observed_fill)
                (ZoneState.retest_count zone + 1) confirmed_at in
  zone ← (if deqb previous_fill (D 0)
          then _append_event zone
                 (by_type zone GapLifecycleEventType.FVG_RETEST GapLifecycleEventType.IFVG_RETEST)
                 bar confirmed_at GapLifecycleState.PARTIALLY_FILLED
          else Ok zone);
  if dleb (FVGConfig.fvg_full_fill_fraction config) (ZoneState.fill_fraction zone) then
    zone ← _append_event zone
             (by_type zone GapLifecycleEventType.FVG_FILLED GapLifecycleEventType.IFVG_FILLED)
             bar confirmed_at GapLifecycleState.FILLED;
    Ok (zone, true)
  else Ok (zone, false).

Definition _update_zone (zone : _ZoneState) (bar : Candle) (bar_index : nat) (confirmed_at : datetime)
    (config : FVGConfig) : pyres (_ZoneState * option _ZoneState) :=
  if terminal (ZoneState.lifecycle_state zone) then Ok (zone, None) else
  let inversion_buffer := dmul DEFAULT_PREC (FVGConfig.tick_size config)
                            (D (FVGConfig.ifvg_inversion_buffer_ticks config)) in
  let crossed_distal_boundary := _invalidation_triggered zone bar inversion_buffer in
  if bool_decide (ZoneState.type zone = GapZoneType.IFVG) && crossed_distal_boundary then
    zone ← _append_event zone GapLifecycleEventType.IFVG_INVALIDATED bar confirmed_at GapLifecycleState.INVALIDATED;
    Ok (zone, None)
  else if bool_decide (ZoneState.type zone = GapZoneType.FVG) && crossed_distal_boundary
          && FVGConfig.ifvg_enabled config then
    zone ← _append_event zone GapLifecycleEventType.FVG_INVERTED bar confirmed_at GapLifecycleState.INVERTED;
    Ok (zone, Some (_new_ifvg zone bar bar_index confirmed_at))
  else
    observed_fill ← _bar_fill_fraction zone bar (FVGConfig.fvg_fill_basis config);
    '(zone, filled) ← observe_fill zone bar confirmed_at config observed_fill;
    if (filled : bool) then Ok (zone, None) else
    let bars_since_confirmation := Z.of_nat bar_index - Z.of_nat (ZoneState.created_bar_index zone) in
    if (FVGConfig.fvg_max_age_bars config <? bars_since_confirmation)
       || (FVGConfig.fvg_max_retests config <? ZoneState.retest_count zone) then
      zone ← _append_event zone
               (by_type zone GapLifecycleEventType.FVG_EXPIRED GapLifecycleEventType.IFVG_EXPIRED)
               bar confirmed_at GapLifecycleState.EXPIRED;
      Ok (zone, None)
    else Ok (zone, None).

Definition _to_schema (zone : _ZoneState) : pyres GapZone :=
  match ZoneState.last_updated_at zone with
  | None => Raise (Exc "AssertionError" "")
  | Some last_updated_at =>
      validated GapZone.validate_zone
        (GapZone.mkGapZone (ZoneState.zone_id zone) (ZoneState.type zone) (ZoneState.direction zone)
          (ZoneState.lower zone) (ZoneState.upper zone) (ZoneState.created_at zone) (ZoneState.confirmed_at zone)
          (_public_status (ZoneState.lifecycle_state zone)) (ZoneState.lifecycle_state zone)
          (ZoneState.source_candle_timestamps zone) (ZoneState.origin_fvg_id zone)
          (ZoneState.fill_fraction zone) (ZoneState.retest_count zone) last_updated_at (ZoneState.lifecycle zone))
  end.

(** ** Detection *)

Inductive formation :=
| NoGap
| Formed (zone : _ZoneState)
| Rejected (rejection : FVGRejection).

(** [atr_result.points\[index - 1\].atr if atr_result is not None else None] *)
Definition atr_before (atr_result : option ATRResult) (index : nat) : option dec :=
  match atr_result with
  | None => None
  | Some atr =>
      match ATRResult.points atr !! (index - 1)%nat with Some point => ATRPoint.atr point | None => None end
  end.

Definition gap_rejection (code : string) (bar : Candle) (confirmed_at : datetime) : formation :=
  Rejected (FVGRejection.mkFVGRejection code (Candle.timestamp bar) confirmed_at).

(** The part of the loop body guarded by [index >= 2]. *)
Definition detect_gap (candles : list Candle) (config : FVGConfig) (atr_result : option ATRResult)
    (index : nat) (bar : Candle) (confirmed_at : datetime) : formation :=
  if (index <? 2)%nat then NoGap else
  let atr_at_open := atr_before atr_result index in
  let unavailable := match atr_at_open with None => true | Some atr => dleb atr (D 0) end in
  if dltb (D 0) (FVGConfig.fvg_min_gap_atr_ratio config) && unavailable then
    gap_rejection "FVG_ATR_UNAVAILABLE" bar confirmed_at
  else
    let atr_threshold := match atr_at_open with
      | Some atr => dmul DEFAULT_PREC (FVGConfig.fvg_min_gap_atr_ratio config) atr
      | None => D 0 end in
    let minimum_gap := dmax (dmul DEFAULT_PREC (FVGConfig.tick_size config)
                               (D (FVGConfig.fvg_min_gap_ticks config))) atr_threshold in
    match candles !! (index - 2)%nat, candles !! (index - 1)%nat with
    | Some first, Some middle =>
        let bullish_raw_gap := dsub DEFAULT_PREC (Candle.low bar) (Candle.high first) in
        let bearish_raw_gap := dsub DEFAULT_PREC (Candle.low first) (Candle.high bar) in
        let bullish := dltb (D 0) bullish_raw_gap && dleb minimum_gap bullish_raw_gap in
        let bearish := dltb (D 0) bearish_raw_gap && dleb minimum_gap bearish_raw_gap in
        let required := FVGConfig.fvg_require_middle_candle_direction config in
        let bullish := if required then bullish && dltb (Candle.open middle) (Candle.close middle) else bullish in
        let bearish := if required then bearish && dltb (Candle.close middle) (Candle.open middle) else bearish in
        if bullish && bearish then gap_rejection "FVG_IMPOSSIBLE_DUAL_FORMATION" bar confirmed_at
        else if bullish then
          Formed (_new_fvg GapDirection.BULLISH (Candle.high first) (Candle.low bar) candles index bar confirmed_at)
        else if bearish then
          Formed (_new_fvg GapDirection.BEARISH (Candle.high bar) (Candle.low first) candles index bar confirmed_at)
        else NoGap
    | _, _ => NoGap
    end.

(** ** The replay *)

Module Replay.
Record Replay := mkReplay {
  zones : list _ZoneState;
  active_zones : list nat;
  rejections : list FVGRejection
}.
Definition init : Replay := mkReplay [] [] [].
End Replay.
Abbreviation Replay := Replay.Replay.

(** The body of [for zone in active_zones], on the archive and the IFVGs found. *)
Definition update_active (config : FVGConfig) (index : nat) (bar : Candle) (confirmed_at : datetime)
    (st : list _ZoneState * list _ZoneState) (position : nat) : pyres (list _ZoneState * list _ZoneState) :=
  let '(zones, new_ifvgs) := st in
  match zones !! position with
  | None => Ok st
  | Some zone =>
      if Candle.timestamp bar <? ZoneState.confirmed_at zone then Ok st else
      '(zone, new_ifvg) ← _update_zone zone bar index confirmed_at config;
      Ok (<[position := zone]> zones, match new_ifvg with Some z => new_ifvgs ++ [z] | None => new_ifvgs end)
  end.

Definition not_terminal (zones : list _ZoneState) (position : nat) : bool :=
  match zones !! position with
  | Some zone => negb (terminal (ZoneState.lifecycle_state zone))
  | None => false
  end.

Definition replay_step (candles : list Candle) (timeframe : Timeframe) (config : FVGConfig)
    (atr_result : option ATRResult) (st : Replay) (item : nat * Candle) : pyres Replay :=
  let '(index, bar) := item in
  let confirmed_at := Candle.timestamp bar + timeframe_duration timeframe in
  let previous_zone_count := length (Replay.zones st) in
  let found := detect_gap candles config atr_result index bar confirmed_at in
  let zones := match found with Formed zone => Replay.zones st ++ [zone] | _ => Replay.zones st end in
  let rejections := match found with Rejected r => Replay.rejections st ++ [r] | _ => Replay.rejections st end in
  let active_zones := Replay.active_zones st
    ++ seq previous_zone_count (length zones - previous_zone_count) in
  '(zones, new_ifvgs) ← py_fold (update_active config index bar confirmed_at) (zones, []) active_zones;
  let active_zones := List.filter (not_terminal zones) active_zones in
  Ok (Replay.mkReplay (zones ++ new_ifvgs)
        (active_zones ++ seq (length zones) (length new_ifvgs)) rejections).

Definition analyze_fvg (candles : list Candle) (timeframe : Timeframe) (config : FVGConfig)
    (atr_result : option ATRResult) : pyres FVGAnalysisResult :=
  _ ← _validate_inputs candles timeframe config atr_result;
  st ← py_fold (replay_step candles timeframe config atr_result) Replay.init (enumerate candles);
  zones ← py_map _to_schema (Replay.zones st);
  Ok (FVGAnalysisResult.mkFVGAnalysisResult timeframe config (length candles)
        (data_cutoff_at candles timeframe) zones (Replay.rejections st)).

(** ** The lifecycle protocol *)

(** The transitions a zone of each type may take. *)
Inductive lifecycle_step : GapZoneType -> GapLifecycleEventType -> GapLifecycleState -> GapLifecycleState -> Prop :=
| step_fvg_retest : lifecycle_step GapZoneType.FVG GapLifecycleEventType.FVG_RETEST
    GapLifecycleState.ACTIVE GapLifecycleState.PARTIALLY_FILLED
| step_ifvg_retest : lifecycle_step GapZoneType.IFVG GapLifecycleEventType.IFVG_RETEST
    GapLifecycleState.ACTIVE GapLifecycleState.PARTIALLY_FILLED
| step_fvg_filled : lifecycle_step GapZoneType.FVG GapLifecycleEventType.FVG_FILLED
    GapLifecycleState.PARTIALLY_FILLED GapLifecycleState.FILLED
| step_ifvg_filled : lifecycle_step GapZoneType.IFVG GapLifecycleEventType.IFVG_FILLED
    GapLifecycleState.PARTIALLY_FILLED GapLifecycleState.FILLED
| step_inverted s : terminal s = false -> lifecycle_step GapZoneType.FVG GapLifecycleEventType.FVG_INVERTED
    s GapLifecycleState.INVERTED
| step_invalidated s : terminal s = false -> lifecycle_step GapZoneType.IFVG
    GapLifecycleEventType.IFVG_INVALIDATED s GapLifecycleState.INVALIDATED
| step_fvg_expired s : terminal s = false -> lifecycle_step GapZoneType.FVG GapLifecycleEventType.FVG_EXPIRED
    s GapLifecycleState.EXPIRED
| step_ifvg_expired s : terminal s = false -> lifecycle_step GapZoneType.IFVG GapLifecycleEventType.IFVG_EXPIRED
    s GapLifecycleState.EXPIRED.

(** A history: each event leaves the state the previous one reached, fill
    fractions and times never decrease, and the last event reached [state]. *)
Inductive history (type : GapZoneType) : list GapLifecycleEvent -> GapLifecycleState -> Prop :=
| history_created e :
    GapLifecycleEvent.event_type e = match type with GapZoneType.FVG => GapLifecycleEventType.FVG_CREATED
                                                   | GapZoneType.IFVG => GapLifecycleEventType.IFVG_CREATED end ->
    GapLifecycleEvent.from_state e = None -> GapLifecycleEvent.to_state e = GapLifecycleState.ACTIVE ->
    (Qval (GapLifecycleEvent.fill_fraction e) == 0)%Q -> GapLifecycleEvent.retest_count e = 0 ->
    history type [e] GapLifecycleState.ACTIVE
| history_snoc events last e state : history type (events ++ [last]) state ->
    lifecycle_step type (GapLifecycleEvent.event_type e) state (GapLifecycleEvent.to_state e) ->
    GapLifecycleEvent.from_state e = Some state ->
    (Qval (GapLifecycleEvent.fill_fraction last) <= Qval (GapLifecycleEvent.fill_fraction e))%Q ->
    GapLifecycleEvent.retest_count last <= GapLifecycleEvent.retest_count e ->
    GapLifecycleEvent.occurred_at last <= GapLifecycleEvent.occurred_at e ->
    GapLifecycleEvent.zone_id last = GapLifecycleEvent.zone_id e ->
    history type (events ++ [last; e]) (GapLifecycleEvent.to_state e).
