(* ===== verification/FvgTheory.v ===== *)
(** Theorems on the fair value gap engine of [engines/smc/fvg.py]: no step
    fails on valid input, the work list is a faithful optimisation of a full
    sweep of the archive, and every zone follows the lifecycle protocol. *)
From Stdlib Require Import ZArith QArith Qabs Lia Lqa.
From stdpp Require Import base list strings numbers pretty sets.
From S2P Require Import Prelude Decimal Time Candle Indicators Structure Fvg.
Local Open Scope Z_scope.

(** ** One zone *)

(** Two records of the same zone. *)
Definition same_zone (a b : _ZoneState) : Prop :=
  ZoneState.zone_id b = ZoneState.zone_id a /\ ZoneState.type b = ZoneState.type a
  /\ ZoneState.direction b = ZoneState.direction a /\ ZoneState.lower b = ZoneState.lower a
  /\ ZoneState.upper b = ZoneState.upper a /\ ZoneState.confirmed_at b = ZoneState.confirmed_at a
  /\ ZoneState.origin_fvg_id b = ZoneState.origin_fvg_id a.

Record zone_core (now : datetime) (z : _ZoneState) : Prop := {
  zc_bounds : (0 < Qval (ZoneState.lower z) /\ Qval (ZoneState.lower z) < Qval (ZoneState.upper z))%Q;
  zc_origin : ZoneState.type z = GapZoneType.IFVG <-> ZoneState.origin_fvg_id z <> None;
  zc_fill : (0 <= Qval (ZoneState.fill_fraction z) /\ Qval (ZoneState.fill_fraction z) <= 1)%Q;
  zc_count : 0 <= ZoneState.retest_count z;
  zc_updated : exists u, ZoneState.last_updated_at z = Some u /\ u <= now;
  zc_history : exists events last, ZoneState.lifecycle z = events ++ [last]
    /\ history (ZoneState.type z) (events ++ [last]) (ZoneState.lifecycle_state z)
    /\ (Qval (GapLifecycleEvent.fill_fraction last) <= Qval (ZoneState.fill_fraction z))%Q
    /\ GapLifecycleEvent.retest_count last <= ZoneState.retest_count z
    /\ GapLifecycleEvent.occurred_at last <= now
    /\ GapLifecycleEvent.zone_id last = ZoneState.zone_id z;
  zc_dates : ZoneState.confirmed_at z = ZoneState.created_at z
    /\ GapLifecycleEvent.occurred_at <$> head (ZoneState.lifecycle z) = Some (ZoneState.created_at z)
    /\ forall last u, list.last (ZoneState.lifecycle z) = Some last -> ZoneState.last_updated_at z = Some u ->
         GapLifecycleEvent.occurred_at last <= u
}.

(** The state tells whether the zone has been touched. *)
Definition fill_matches (z : _ZoneState) : Prop :=
  match ZoneState.lifecycle_state z with
  | GapLifecycleState.ACTIVE => (Qval (ZoneState.fill_fraction z) == 0)%Q
  | GapLifecycleState.PARTIALLY_FILLED => (0 < Qval (ZoneState.fill_fraction z))%Q
  | _ => True
  end.

Definition zone_ok (now : datetime) (z : _ZoneState) : Prop := zone_core now z /\ fill_matches z.

Lemma zone_core_later now now' z : now <= now' -> zone_core now z -> zone_core now' z.
Proof.
  intros Hle [H1 H2 H3 H4 (u & Hu & Hun) (ev & l & H5 & H6 & H7 & H8 & H9 & H10) Hd].
  constructor; try done; [exists u; split; [done|lia]|]. exists ev, l. split_and!; try done. lia.
Qed.

Lemma zone_ok_later now now' z : now <= now' -> zone_ok now z -> zone_ok now' z.
Proof. intros Hle [H1 H2]. split; [by eapply zone_core_later|done]. Qed.

Lemma Qval_D1 : (Qval (D 1) == 1)%Q.
Proof. apply Qval_D. Qed.

Lemma unit_fraction_Q x : unit_fraction x = true <-> (0 <= Qval x /\ Qval x <= 1)%Q.
Proof. unfold unit_fraction. rewrite andb_true_iff, !dleb_true, Qval_D0, Qval_D1. done. Qed.

Definition appended (z : _ZoneState) (ev : GapLifecycleEventType) (bar : Candle) (t : datetime)
    (to : GapLifecycleState) : _ZoneState :=
  ZoneState.set_state z to t (ZoneState.lifecycle z ++
    [GapLifecycleEvent.mkGapLifecycleEvent ev (ZoneState.zone_id z) (Candle.timestamp bar) t
       (Some (ZoneState.lifecycle_state z)) to (ZoneState.fill_fraction z) (ZoneState.retest_count z)]).

Lemma append_event_ok now z ev bar t to : zone_core now z -> now <= t ->
  lifecycle_step (ZoneState.type z) ev (ZoneState.lifecycle_state z) to ->
  _append_event z ev bar t to = Ok (appended z ev bar t to) /\ zone_core t (appended z ev bar t to)
  /\ same_zone z (appended z ev bar t to).
Proof.
  intros [H1 H2 H3 H4 (u & Hu & Hun) (evs & l & H5 & H6 & H7 & H8 & H9 & H10) (Hd1 & Hd2 & _)] Ht Hstep. split_and!.
  - unfold _append_event, validated, GapLifecycleEvent.valid. cbn.
    by rewrite (proj2 (unit_fraction_Q _) H3), (proj2 (Z.leb_le _ _) H4).
  - constructor; cbn; try done; [exists t; split; [done|lia]| |].
    2: { split_and!; [done| |].
         - rewrite <-Hd2, H5. by destruct evs.
         - intros last' u'. rewrite last_snoc. intros [= <-] [= <-]. cbn. lia. }
    exists (evs ++ [l]). eexists. rewrite H5. split; [done|]. split_and!; try done; [|apply Qle_refl].
    rewrite <-app_assoc. cbn.
    match goal with |- history _ (evs ++ [l; ?e]) ?s => change s with (GapLifecycleEvent.to_state e) end.
    apply (history_snoc _ _ _ _ (ZoneState.lifecycle_state z)); cbn; try done. lia.
  - unfold same_zone, appended. cbn. done.
Qed.

Lemma bar_fill_fraction_ok now z bar basis : zone_core now z ->
  exists f, _bar_fill_fraction z bar basis = Ok f /\ (0 <= Qval f /\ Qval f <= 1)%Q.
Proof.
  intros [[Hl Hlu] _ _ _ _ _ _]. unfold _bar_fill_fraction.
  assert (0 < Qval (dsub DEFAULT_PREC (ZoneState.upper z) (ZoneState.lower z)))%Q as Hd by (by apply dsub_pos).
  assert (forall a, (0 <= Qval a)%Q -> (Qval a <= Qval (dsub DEFAULT_PREC (ZoneState.upper z) (ZoneState.lower z)))%Q ->
    exists f, ddiv_py DEFAULT_PREC a (dsub DEFAULT_PREC (ZoneState.upper z) (ZoneState.lower z)) = Ok f
      /\ (0 <= Qval f /\ Qval f <= 1)%Q) as Hdiv.
  { intros a H0 H1. rewrite ddiv_py_ok by lra. eexists. split; [done|].
    split; [by apply ddiv_nonneg | by apply ddiv_le_1]. }
  pose proof Qval_D0. pose proof Qval_D1.
  destruct (ZoneState.direction z), basis;
    (match goal with |- context [if ?b then _ else _] => destruct b eqn:E1 end;
      [eexists; split; [done|]; lra|];
     match goal with |- context [if ?b then _ else _] => destruct b eqn:E2 end;
      [eexists; split; [done|]; lra|]);
    dec_to_Q; apply Hdiv; (apply dsub_nonneg; lra) || (apply dsub_mono; lra).
Qed.

Lemma set_fill_core now t z f : zone_core now z -> now <= t -> (0 <= Qval f /\ Qval f <= 1)%Q ->
  zone_core t (ZoneState.set_fill z (dmax (ZoneState.fill_fraction z) f) (ZoneState.retest_count z + 1) t).
Proof.
  intros [H1 H2 H3 H4 H5 (ev & l & H6 & H7 & H8 & H9 & H10 & H11) (Hd1 & Hd2 & _)] Ht Hf.
  pose proof (dmax_ge (ZoneState.fill_fraction z) f).
  constructor; cbn; try done; try lia.
  - split; [lra|]. apply dmax_lub. lra.
  - exists t. split; [done|lia].
  - exists ev, l. split_and!; try done; [lra|lia|lia].
  - split_and!; [done..|]. intros last' u'. rewrite H6, last_snoc. intros [= <-] [= <-]. lia.
Qed.

Lemma same_zone_refl z : same_zone z z.
Proof. done. Qed.

Lemma same_zone_trans a b c : same_zone a b -> same_zone b c -> same_zone a c.
Proof. unfold same_zone. intuition congruence. Qed.

Lemma retest_step z : ZoneState.lifecycle_state z = GapLifecycleState.ACTIVE ->
  lifecycle_step (ZoneState.type z)
    (by_type z GapLifecycleEventType.FVG_RETEST GapLifecycleEventType.IFVG_RETEST)
    (ZoneState.lifecycle_state z) GapLifecycleState.PARTIALLY_FILLED.
Proof. intros ->. unfold by_type. destruct (ZoneState.type z); constructor. Qed.

Lemma filled_step z : ZoneState.lifecycle_state z = GapLifecycleState.PARTIALLY_FILLED ->
  lifecycle_step (ZoneState.type z)
    (by_type z GapLifecycleEventType.FVG_FILLED GapLifecycleEventType.IFVG_FILLED)
    (ZoneState.lifecycle_state z) GapLifecycleState.FILLED.
Proof. intros ->. unfold by_type. destruct (ZoneState.type z); constructor. Qed.

Lemma expired_step z : terminal (ZoneState.lifecycle_state z) = false ->
  lifecycle_step (ZoneState.type z)
    (by_type z GapLifecycleEventType.FVG_EXPIRED GapLifecycleEventType.IFVG_EXPIRED)
    (ZoneState.lifecycle_state z) GapLifecycleState.EXPIRED.
Proof. intros H. unfold by_type. destruct (ZoneState.type z); by constructor. Qed.

Lemma observe_fill_ok now t z bar config f : zone_ok now z -> now <= t ->
  terminal (ZoneState.lifecycle_state z) = false -> (0 <= Qval f /\ Qval f <= 1)%Q ->
  exists z' filled, observe_fill z bar t config f = Ok (z', filled) /\ zone_ok t z' /\ same_zone z z'
    /\ terminal (ZoneState.lifecycle_state z') = filled.
Proof.
  intros [Hc Hm] Ht Hterm Hf. unfold observe_fill. destruct (dltb (D 0) f) eqn:Ef; cbn [negb].
  2: { exists z, false. split_and!; [done|by split; [eapply zone_core_later|]|done|done]. }
  set (z1 := ZoneState.set_fill _ _ _ _).
  pose proof (set_fill_core _ _ _ _ Hc Ht Hf) as Hc1. fold z1 in Hc1.
  assert (0 < Qval (ZoneState.fill_fraction z1))%Q as Hpos.
  { cbn. pose proof (dmax_ge (ZoneState.fill_fraction z) f). dec_to_Q. rewrite Qval_D0 in Ef. lra. }
  assert (exists z2, (if deqb (ZoneState.fill_fraction z) (D 0)
      then _append_event z1 (by_type z1 GapLifecycleEventType.FVG_RETEST GapLifecycleEventType.IFVG_RETEST)
             bar t GapLifecycleState.PARTIALLY_FILLED
      else Ok z1) = Ok z2 /\ zone_core t z2 /\ same_zone z z2
      /\ ZoneState.lifecycle_state z2 = GapLifecycleState.PARTIALLY_FILLED
      /\ ZoneState.fill_fraction z2 = ZoneState.fill_fraction z1) as (z2 & -> & Hc2 & Hs2 & Hst2 & Hfill2).
  { unfold fill_matches in Hm. destruct (deqb (ZoneState.fill_fraction z) (D 0)) eqn:E; dec_to_Q; rewrite Qval_D0 in E.
    - assert (ZoneState.lifecycle_state z1 = GapLifecycleState.ACTIVE) as Hst.
      { cbn. destruct (ZoneState.lifecycle_state z); try done. lra. }
      destruct (append_event_ok t z1 _ bar t _ Hc1 (Z.le_refl t) (retest_step z1 Hst)) as (-> & Hc2 & Hs2).
      eexists. split_and!; [done|done| |done|done]. eapply same_zone_trans; [|exact Hs2]. done.
    - exists z1. split_and!; [done|done|done| |done].
      cbn. destruct (ZoneState.lifecycle_state z); done. }
  cbn [mbind pyres_bind].
  destruct (dleb _ _) eqn:Efull.
  - destruct (append_event_ok t z2 _ bar t _ Hc2 (Z.le_refl t) (filled_step z2 Hst2)) as (-> & Hc3 & Hs3).
    cbn [mbind pyres_bind]. eexists _, true. split_and!; [done| |by eapply same_zone_trans|done].
    by split.
  - exists z2, false. split_and!; [done| |done|by rewrite Hst2].
    split; [done|]. unfold fill_matches. rewrite Hst2, Hfill2. done.
Qed.

(** What an inversion produces. *)
Definition inverts (origin zone : _ZoneState) : Prop :=
  ZoneState.type zone = GapZoneType.IFVG /\ ZoneState.origin_fvg_id zone = Some (ZoneState.zone_id origin)
  /\ ZoneState.type origin = GapZoneType.FVG
  /\ ZoneState.lower zone = ZoneState.lower origin /\ ZoneState.upper zone = ZoneState.upper origin
  /\ ZoneState.direction zone = opposite (ZoneState.direction origin)
  /\ ZoneState.lifecycle_state origin = GapLifecycleState.INVERTED.

Lemma new_ifvg_ok t z bar index : zone_core t z -> ZoneState.type z = GapZoneType.FVG ->
  zone_ok t (_new_ifvg z bar index t).
Proof.
  intros [H1 _ _ _ _ _ _] Hty. split; [|reflexivity].
  constructor; cbn; try done.
  - exists t. split; [done|lia].
  - eexists [], _. split; [reflexivity|]. cbn. split_and!; try done. by constructor.
  - split_and!; [done..|]. intros last u [= <-] [= <-]. done.
Qed.

(** The update never fails; it keeps the invariant, the identity of the zone
    and the finality of terminal states, and an inversion creates its IFVG. *)
Lemma update_zone_ok now t z bar index config : zone_ok now z -> now <= t ->
  exists z' new, _update_zone z bar index t config = Ok (z', new) /\ zone_ok t z' /\ same_zone z z'
    /\ (terminal (ZoneState.lifecycle_state z) = true -> z' = z /\ new = None)
    /\ match new with
       | Some n => inverts z' n /\ zone_ok t n /\ ZoneState.lifecycle_state n = GapLifecycleState.ACTIVE
       | None => True end.
Proof.
  intros Hz Ht. pose proof Hz as [Hc _]. unfold _update_zone.
  destruct (terminal (ZoneState.lifecycle_state z)) eqn:Eterm.
  { exists z, None. split_and!; try done. by eapply zone_ok_later. }
  set (crossed := _invalidation_triggered _ _ _). clearbody crossed.
  destruct (bool_decide (ZoneState.type z = GapZoneType.IFVG) && crossed) eqn:E1; bool_hyps.
  { destruct (append_event_ok now z GapLifecycleEventType.IFVG_INVALIDATED bar t GapLifecycleState.INVALIDATED Hc Ht)
      as (-> & Hc' & Hs'); [rewrite H; by constructor|].
    eexists _, None. split_and!; try done. }
  destruct (bool_decide (ZoneState.type z = GapZoneType.FVG) && crossed && _) eqn:E2; bool_hyps.
  { destruct (append_event_ok now z GapLifecycleEventType.FVG_INVERTED bar t GapLifecycleState.INVERTED Hc Ht)
      as (-> & Hc' & Hs'); [rewrite H; by constructor|].
    eexists _, (Some _). split_and!; try done. by apply new_ifvg_ok. }
  destruct (bar_fill_fraction_ok now z bar (FVGConfig.fvg_fill_basis config) Hc) as (f & -> & Hf).
  cbn [mbind pyres_bind].
  destruct (observe_fill_ok now t z bar config f Hz Ht Eterm Hf) as (z1 & filled & -> & Hz1 & Hs1 & Ht1).
  cbn [mbind pyres_bind]. destruct filled; [exists z1, None; by split_and!|].
  destruct (_ || _); [|exists z1, None; by split_and!].
  destruct (append_event_ok t z1 _ bar t _ (proj1 Hz1) (Z.le_refl t) (expired_step z1 Ht1)) as (-> & Hc2 & Hs2).
  eexists _, None. split_and!; try done. all: by eapply same_zone_trans.
Qed.

(** ** Detection *)

Definition gap_minimum (config : FVGConfig) (atr_at_open : option dec) : dec :=
  dmax (dmul DEFAULT_PREC (FVGConfig.tick_size config) (D (FVGConfig.fvg_min_gap_ticks config)))
    (match atr_at_open with
     | Some atr => dmul DEFAULT_PREC (FVGConfig.fvg_min_gap_atr_ratio config) atr
     | None => D 0 end).

Definition atr_usable (config : FVGConfig) (atr_at_open : option dec) : Prop :=
  (Qval (FVGConfig.fvg_min_gap_atr_ratio config) <= 0)%Q
  \/ exists atr, atr_at_open = Some atr /\ (0 < Qval atr)%Q.

(** A gap of at least the minimum above [low_side] and below [high_side]. *)
Definition is_gap (config : FVGConfig) (atr_at_open : option dec) (low_side high_side : dec) : Prop :=
  (Qval low_side < Qval high_side
   /\ Qval (gap_minimum config atr_at_open) <= Qval (dsub DEFAULT_PREC high_side low_side))%Q.

Definition middle_agrees (config : FVGConfig) (direction : GapDirection) (middle : Candle) : Prop :=
  FVGConfig.fvg_require_middle_candle_direction config = true ->
  match direction with
  | GapDirection.BULLISH => (Qval (Candle.open middle) < Qval (Candle.close middle))%Q
  | GapDirection.BEARISH => (Qval (Candle.close middle) < Qval (Candle.open middle))%Q
  end.

Lemma gap_guard minimum low_side high_side :
  dltb (D 0) (dsub DEFAULT_PREC high_side low_side) && dleb minimum (dsub DEFAULT_PREC high_side low_side) = true <->
  (Qval low_side < Qval high_side /\ Qval minimum <= Qval (dsub DEFAULT_PREC high_side low_side))%Q.
Proof. rewrite andb_true_iff, dltb_true, dleb_true, Qval_D0, dsub_pos. done. Qed.

Lemma detect_gap_cases candles config atr_result index bar t first middle :
  (2 <= index)%nat -> candles !! (index - 2)%nat = Some first -> candles !! (index - 1)%nat = Some middle ->
  candle_wf bar -> candle_wf first ->
  let atr := atr_before atr_result index in
  let bullish := is_gap config atr (Candle.high first) (Candle.low bar) /\ middle_agrees config GapDirection.BULLISH middle in
  let bearish := is_gap config atr (Candle.high bar) (Candle.low first) /\ middle_agrees config GapDirection.BEARISH middle in
  match detect_gap candles config atr_result index bar t with
  | Formed z => atr_usable config atr
      /\ ((bullish /\ z = _new_fvg GapDirection.BULLISH (Candle.high first) (Candle.low bar) candles index bar t)
          \/ (bearish /\ z = _new_fvg GapDirection.BEARISH (Candle.high bar) (Candle.low first) candles index bar t))
  | NoGap => atr_usable config atr /\ ~ bullish /\ ~ bearish
  | Rejected r => ~ atr_usable config atr
      /\ r = FVGRejection.mkFVGRejection "FVG_ATR_UNAVAILABLE" (Candle.timestamp bar) t
  end.
Proof.
  intros Hi Hf Hm Hb Hfst atr bullish bearish. unfold detect_gap.
  rewrite (proj2 (Nat.ltb_ge index 2) Hi). fold atr.
  destruct (dltb (D 0) (FVGConfig.fvg_min_gap_atr_ratio config) && _) eqn:Eu.
  { unfold gap_rejection. split; [|done]. bool_hyps. unfold atr_usable. dec_to_Q. rewrite Qval_D0 in *.
    intros [Hr|(a & -> & Ha)]; [lra|]. dec_to_Q. rewrite Qval_D0 in *. lra. }
  assert (atr_usable config atr) as Husable.
  { apply andb_false_iff in Eu as [Eu|Eu]; [left; dec_to_Q; rewrite Qval_D0 in *; lra|].
    right. destruct atr as [a|]; [|done]. exists a. split; [done|]. dec_to_Q. rewrite Qval_D0 in *. lra. }
  rewrite Hf, Hm. fold (gap_minimum config atr).
  set (b1 := dltb (D 0) (dsub DEFAULT_PREC (Candle.low bar) (Candle.high first)) && _).
  set (b2 := dltb (D 0) (dsub DEFAULT_PREC (Candle.low first) (Candle.high bar)) && _).
  assert (b1 = true <-> is_gap config atr (Candle.high first) (Candle.low bar)) as H1 by apply gap_guard.
  assert (b2 = true <-> is_gap config atr (Candle.high bar) (Candle.low first)) as H2 by apply gap_guard.
  clearbody b1 b2.
  assert (~ (b1 = true /\ b2 = true)) as Hnot.
  { intros [G1%H1 G2%H2]. destruct G1 as [G1 _], G2 as [G2 _].
    apply candle_low_high in Hb, Hfst. lra. }
  set (c1 := if FVGConfig.fvg_require_middle_candle_direction config then b1 && _ else b1).
  set (c2 := if FVGConfig.fvg_require_middle_candle_direction config then b2 && _ else b2).
  assert (c1 = true <-> bullish) as C1.
  { unfold c1, bullish, middle_agrees. destruct (FVGConfig.fvg_require_middle_candle_direction config).
    - rewrite andb_true_iff, dltb_true, H1. tauto.
    - rewrite H1. split; [intros; split; [done|discriminate]|tauto]. }
  assert (c2 = true <-> bearish) as C2.
  { unfold c2, bearish, middle_agrees. destruct (FVGConfig.fvg_require_middle_candle_direction config).
    - rewrite andb_true_iff, dltb_true, H2. tauto.
    - rewrite H2. split; [intros; split; [done|discriminate]|tauto]. }
  assert (c1 && c2 = false) as ->.
  { apply andb_false_iff. destruct c1 eqn:D1, c2 eqn:D2; auto. exfalso.
    destruct (proj1 C1 eq_refl) as [?%H1 _], (proj1 C2 eq_refl) as [?%H2 _]. auto. }
  clearbody c1 c2. destruct c1; [|destruct c2].
  - split; [done|]. left. split; [by apply C1|done].
  - split; [done|]. right. split; [by apply C2|done].
  - split_and!; [done| |]; [rewrite <-C1|rewrite <-C2]; done.
Qed.

Lemma new_fvg_ok direction lower upper candles index bar t :
  (0 < Qval lower /\ Qval lower < Qval upper)%Q -> zone_ok t (_new_fvg direction lower upper candles index bar t).
Proof.
  intros H. split; [|reflexivity]. constructor; cbn; try done.
  - exists t. split; [done|lia].
  - eexists [], _. split; [reflexivity|]. cbn. split_and!; try done. by constructor.
  - split_and!; [done..|]. intros last u [= <-] [= <-]. done.
Qed.

Lemma detect_gap_zone_ok candles config atr_result index bar t z : Forall candle_wf candles ->
  candles !! index = Some bar ->
  detect_gap candles config atr_result index bar t = Formed z ->
  zone_ok t z /\ ZoneState.lifecycle_state z = GapLifecycleState.ACTIVE
  /\ ZoneState.type z = GapZoneType.FVG /\ ZoneState.confirmed_at z = t.
Proof.
  intros Hw Hbar. destruct (decide (2 <= index)%nat) as [Hi|Hi].
  2: { unfold detect_gap. rewrite (proj2 (Nat.ltb_lt index 2)) by lia. done. }
  pose proof (lookup_lt_Some _ _ _ Hbar) as Hlt.
  destruct (lookup_lt_is_Some_2 candles (index - 2)) as [first Hf]; [lia|].
  destruct (lookup_lt_is_Some_2 candles (index - 1)) as [middle Hm]; [lia|].
  rewrite Forall_lookup in Hw.
  pose proof (detect_gap_cases candles config atr_result index bar t first middle Hi Hf Hm
    (Hw _ _ Hbar) (Hw _ _ Hf)) as Hc. cbn zeta in Hc. intros E. rewrite E in Hc.
  pose proof (Hw _ _ Hbar) as Wb. pose proof (Hw _ _ Hf) as Wf. unfold candle_wf in Wb, Wf.
  destruct Hc as (_ & [[[[Hg _] _] ->]|[[[Hg _] _] ->]]); (split; [apply new_fvg_ok; split; lra|done]).
Qed.

(** ** The replay against a full sweep *)

Section sweep.
Variables (candles : list Candle) (timeframe : Timeframe) (config : FVGConfig) (atr_result : option ATRResult).

(** A bar applied to one zone of the archive, whatever its state. *)
Definition sweep_zone (index : nat) (bar : Candle) (t : datetime) (zone : _ZoneState) :
    pyres (_ZoneState * option _ZoneState) :=
  if Candle.timestamp bar <? ZoneState.confirmed_at zone then Ok (zone, None)
  else _update_zone zone bar index t config.

(** The specification: no work list, every zone of the archive is updated at
    every bar, and the IFVGs are appended in order. *)
Definition sweep_step (st : list _ZoneState * list FVGRejection) (item : nat * Candle) :
    pyres (list _ZoneState * list FVGRejection) :=
  let '(zones, rejections) := st in
  let '(index, bar) := item in
  let t := Candle.timestamp bar + timeframe_duration timeframe in
  let found := detect_gap candles config atr_result index bar t in
  let zones := match found with Formed zone => zones ++ [zone] | _ => zones end in
  let rejections := match found with Rejected r => rejections ++ [r] | _ => rejections end in
  updated ← py_map (sweep_zone index bar t) zones;
  Ok (map fst updated ++ omap snd updated, rejections).

Lemma sweep_zone_terminal index bar t z : terminal (ZoneState.lifecycle_state z) = true ->
  sweep_zone index bar t z = Ok (z, None).
Proof. intros H. unfold sweep_zone, _update_zone. rewrite H. by destruct (_ <? _). Qed.

Lemma list_filter_ext_in {A} (f g : A -> bool) (l : list A) :
  (forall x, x ∈ l -> f x = g x) -> List.filter f l = List.filter g l.
Proof.
  induction l as [|x l IH]; intros H; cbn; [done|]. rewrite (H x) by constructor.
  rewrite IH; [done|]. intros; apply H. by constructor.
Qed.

Lemma update_active_sweep index bar t rest done_ new :
  py_fold (update_active config index bar t) (done_ ++ rest, new)
    (List.filter (not_terminal (done_ ++ rest)) (seq (length done_) (length rest))) =
  (updated ← py_map (sweep_zone index bar t) rest; Ok (done_ ++ map fst updated, new ++ omap snd updated)).
Proof.
  revert done_ new; induction rest as [|z rest IH]; intros done_ new; [cbn; by rewrite !app_nil_r|].
  assert (forall z', List.filter (not_terminal (done_ ++ z :: rest)) (seq (S (length done_)) (length rest)) =
    List.filter (not_terminal ((done_ ++ [z']) ++ rest)) (seq (length (done_ ++ [z'])) (length rest))) as Hf.
  { intros z'. rewrite length_app, Nat.add_1_r. apply list_filter_ext_in. intros i Hi%elem_of_seq.
    unfold not_terminal. rewrite !lookup_app_r by (rewrite ?length_app; cbn; lia).
    rewrite length_app. cbn [length]. rewrite lookup_cons_ne_0 by lia.
    replace (pred (i - length done_)) with (i - (length done_ + 1))%nat by lia. done. }
  assert ((done_ ++ z :: rest) !! length done_ = Some z) as Hz by (rewrite lookup_app_r, Nat.sub_diag by lia; done).
  cbn [length seq List.filter py_map].
  assert (not_terminal (done_ ++ z :: rest) (length done_) = negb (terminal (ZoneState.lifecycle_state z))) as ->
    by (unfold not_terminal; by rewrite Hz).
  destruct (terminal (ZoneState.lifecycle_state z)) eqn:Et; cbn [negb].
  - rewrite sweep_zone_terminal by done. rewrite (Hf z).
    replace (done_ ++ z :: rest) with ((done_ ++ [z]) ++ rest) by (by rewrite <-app_assoc).
    rewrite IH. destruct (py_map _ rest) as [u|e]; [|done]. cbn. by rewrite <-app_assoc.
  - cbn [py_fold]. unfold update_active at 1. rewrite Hz. unfold sweep_zone at 1.
    destruct (Candle.timestamp bar <? ZoneState.confirmed_at z).
    + rewrite (Hf z). replace (done_ ++ z :: rest) with ((done_ ++ [z]) ++ rest) by (by rewrite <-app_assoc).
      rewrite IH. destruct (py_map _ rest) as [u|e]; [|done]. cbn. by rewrite <-app_assoc.
    + destruct (_update_zone z bar index t config) as [[z' n]|e]; [|done]. cbn [mbind pyres_bind].
      rewrite (Hf z').
      replace (<[length done_ := z']> (done_ ++ z :: rest)) with ((done_ ++ [z']) ++ rest)
        by (rewrite insert_app_r_alt, Nat.sub_diag by lia; by rewrite <-app_assoc).
      rewrite IH. destruct (py_map _ rest) as [u|e]; [|done]. cbn.
      rewrite <-app_assoc. destruct n; [by rewrite <-app_assoc|done].
Qed.

(** The work list is the non-terminal part of the archive. *)
Definition work_list (zones : list _ZoneState) : list nat :=
  List.filter (not_terminal zones) (seq 0 (length zones)).

Record replay_ok (now : datetime) (st : Replay) : Prop := {
  ro_active : Replay.active_zones st = work_list (Replay.zones st);
  ro_zones : Forall (zone_ok now) (Replay.zones st);
  ro_ifvg : forall z, z ∈ Replay.zones st -> ZoneState.type z = GapZoneType.IFVG ->
    exists o, o ∈ Replay.zones st /\ inverts o z
}.

Lemma work_list_app zones extra : Forall (fun z => terminal (ZoneState.lifecycle_state z) = false) extra ->
  work_list (zones ++ extra) = work_list zones ++ seq (length zones) (length extra).
Proof.
  intros H. unfold work_list. rewrite length_app, seq_app, List.filter_app. f_equal.
  - apply list_filter_ext_in. intros i Hi%elem_of_seq. unfold not_terminal. by rewrite lookup_app_l by lia.
  - cbn [Nat.add]. rewrite (list_filter_ext_in _ (fun _ => true)); [by induction (seq _ _); cbn; f_equal|].
    intros i Hi%elem_of_seq. unfold not_terminal. rewrite lookup_app_r by lia.
    destruct (lookup_lt_is_Some_2 extra (i - length zones)) as [z Hz]; [lia|]. rewrite Hz.
    rewrite Forall_lookup in H. by rewrite (H _ _ Hz).
Qed.

Lemma work_list_update zones zones' : length zones' = length zones ->
  (forall i z, zones !! i = Some z -> terminal (ZoneState.lifecycle_state z) = true -> zones' !! i = Some z) ->
  List.filter (not_terminal zones') (work_list zones) = work_list zones'.
Proof.
  intros Hlen Hterm. unfold work_list. rewrite Hlen. induction (seq 0 (length zones)) as [|i l IH]; [done|].
  cbn. destruct (not_terminal zones i) eqn:E; cbn; rewrite IH; [done|].
  destruct (not_terminal zones' i) eqn:E'; [|done]. exfalso. unfold not_terminal in *.
  destruct (zones !! i) as [z|] eqn:Ez.
  - rewrite (Hterm i z Ez) in E'; [by rewrite E in E'|]. by apply negb_false_iff.
  - apply lookup_ge_None in Ez. by rewrite (lookup_ge_None_2 zones') in E' by lia.
Qed.

(** All zones of the archive take the step. *)
Lemma sweep_zones_ok now index bar zones : now <= Candle.timestamp bar + timeframe_duration timeframe ->
  Forall (zone_ok now) zones ->
  let t := Candle.timestamp bar + timeframe_duration timeframe in
  exists updated, py_map (sweep_zone index bar t) zones = Ok updated
    /\ Forall2 (fun z u => zone_ok t u.1 /\ same_zone z u.1
         /\ (terminal (ZoneState.lifecycle_state z) = true -> u = (z, None))
         /\ match u.2 with
            | Some n => inverts u.1 n /\ zone_ok t n /\ ZoneState.lifecycle_state n = GapLifecycleState.ACTIVE
            | None => True end) zones updated.
Proof.
  intros Ht Hz t. induction Hz as [|z zones Hz _ IH]; [by exists []|].
  destruct IH as (us & E & Hus).
  destruct (update_zone_ok now t z bar index config Hz Ht) as (z' & n & E' & H1 & H2 & H3 & H4).
  cbn [py_map]. rewrite E. unfold sweep_zone. destruct (Candle.timestamp bar <? ZoneState.confirmed_at z).
  - exists ((z, None) :: us). split; [done|]. constructor; [|done]. cbn. split_and!; try done.
    by eapply zone_ok_later.
  - rewrite E'. exists ((z', n) :: us). split; [done|]. constructor; [|done]. cbn. split_and!; try done.
    intros Hterm. destruct (H3 Hterm) as [-> ->]. done.
Qed.

Definition opt_all {A} (P : A -> Prop) (o : option A) : Prop := match o with Some x => P x | None => True end.

Lemma replay_step_ok now st index bar : Forall candle_wf candles -> candles !! index = Some bar ->
  now <= Candle.timestamp bar -> replay_ok now st ->
  exists st', replay_step candles timeframe config atr_result st (index, bar) = Ok st'
    /\ sweep_step (Replay.zones st, Replay.rejections st) (index, bar)
       = Ok (Replay.zones st', Replay.rejections st')
    /\ replay_ok (Candle.timestamp bar + timeframe_duration timeframe) st'.
Proof.
  intros Hw Hbar Hnow [Ha Hz Hi]. pose proof (timeframe_duration_pos timeframe) as Hd.
  unfold replay_step, sweep_step. set (t := Candle.timestamp bar + timeframe_duration timeframe) in *.
  destruct st as [zones active rejections].
  cbn [Replay.zones Replay.active_zones Replay.rejections] in *.
  set (found := detect_gap candles config atr_result index bar t).
  set (zones1 := match found with Formed zone => zones ++ [zone] | _ => zones end).
  set (rej1 := match found with Rejected r => rejections ++ [r] | _ => rejections end).
  assert (Forall (zone_ok t) zones1 /\ active ++ seq (length zones) (length zones1 - length zones) = work_list zones1
    /\ forall z, z ∈ zones1 -> ZoneState.type z = GapZoneType.IFVG -> exists o, o ∈ zones1 /\ inverts o z)
    as (Hz1 & Ha1 & Hi1).
  { assert (Forall (zone_ok t) zones) as Hzt.
    { eapply Forall_impl; [exact Hz|]. intros z. apply zone_ok_later. lia. }
    unfold zones1. destruct found as [|z|r] eqn:Ef; [split_and!; try done| |split_and!; try done].
    1,3: by rewrite Nat.sub_diag, app_nil_r.
    destruct (detect_gap_zone_ok candles config atr_result index bar t z Hw Hbar Ef) as (Hzok & Hst & Hty & _).
    split_and!.
    - apply Forall_app. split; [done|by constructor].
    - rewrite work_list_app by (constructor; [by rewrite Hst|done]). rewrite Ha, length_app. f_equal. f_equal. cbn. lia.
    - intros x [Hx|Hx%list_elem_of_singleton]%elem_of_app Hxt; [|congruence].
      destruct (Hi x Hx Hxt) as (o & Ho & Hinv). exists o. set_solver. }
  clearbody zones1 rej1. rewrite Ha1.
  destruct (sweep_zones_ok t index bar zones1 (Z.le_refl _) Hz1) as (us & Eus & Hus). fold t in Eus, Hus.
  pose proof (update_active_sweep index bar t zones1 [] []) as Hsw. cbn [app length] in Hsw.
  fold (work_list zones1) in Hsw. rewrite Hsw, Eus. clear Hsw. cbn [mbind pyres_bind app].
  assert (Hlen : length (map fst us) = length zones1)
    by (rewrite length_map; symmetry; by eapply Forall2_length).
  assert (Hnew : Forall (fun n => zone_ok t n /\ ZoneState.lifecycle_state n = GapLifecycleState.ACTIVE
    /\ exists o, o ∈ map fst us /\ inverts o n) (omap snd us)).
  { apply Forall_forall. intros n ((z' & n') & Hin & Hn)%list_elem_of_omap. cbn in Hn. subst n'.
    apply list_elem_of_lookup in Hin as [i Hin].
    destruct (Forall2_lookup_r _ _ _ _ _ Hus Hin) as (z & _ & _ & _ & _ & Hinv & Hok & Hact). cbn in *.
    split_and!; [done..|]. exists z'. split; [|done]. apply list_elem_of_fmap. exists (z', Some n).
    split; [done|]. by eapply list_elem_of_lookup_2. }
  eexists. split; [reflexivity|]. split; [reflexivity|]. constructor; cbn [Replay.zones Replay.active_zones].
  - rewrite (work_list_update zones1 (map fst us)).
    + symmetry. apply work_list_app. eapply Forall_impl; [exact Hnew|]. cbn. intros n (_ & -> & _). done.
    + done.
    + intros i z Hzi Hterm. destruct (Forall2_lookup_l _ _ _ _ _ Hus Hzi) as (u & Hu & _ & _ & Hfin & _).
      rewrite list_lookup_fmap, Hu. rewrite (Hfin Hterm). done.
  - apply Forall_app. split.
    + apply Forall_fmap, Forall_lookup. intros i u Hu.
      destruct (Forall2_lookup_r _ _ _ _ _ Hus Hu) as (z & _ & Hok & _). done.
    + eapply Forall_impl; [exact Hnew|]. cbn. tauto.
  - intros x [Hx|Hx]%elem_of_app Hxt.
    + apply list_elem_of_fmap in Hx as (u & -> & Hu). apply list_elem_of_lookup in Hu as [i Hu].
      destruct (Forall2_lookup_r _ _ _ _ _ Hus Hu) as (z & Hzi & _ & Hs & _ & _).
      destruct Hs as (S1 & S2 & S3 & S4 & S5 & S6 & S7).
      destruct (Hi1 z) as (o & Ho & I1 & I2 & I3 & I4 & I5 & I6 & I7);
        [by eapply list_elem_of_lookup_2|congruence|].
      apply list_elem_of_lookup in Ho as [j Ho].
      destruct (Forall2_lookup_l _ _ _ _ _ Hus Ho) as (v & Hv & _ & _ & Hfin & _).
      exists o. split; [apply elem_of_app; left; apply list_elem_of_fmap; exists v; split|].
      * rewrite Hfin by (by rewrite I7). done.
      * by eapply list_elem_of_lookup_2.
      * unfold inverts. split_and!; congruence.
    + rewrite Forall_forall in Hnew. destruct (Hnew x Hx) as (_ & _ & o & Ho & Hinv).
      exists o. split; [|done]. apply elem_of_app. by left.
Qed.

Lemma replay_fold_ok st now items :
  Forall candle_wf candles -> replay_ok now st ->
  (forall i bar, (i, bar) ∈ items -> candles !! i = Some bar /\ now <= Candle.timestamp bar) ->
  (forall k a b, items !! k = Some a -> items !! S k = Some b ->
     Candle.timestamp a.2 + timeframe_duration timeframe = Candle.timestamp b.2) ->
  exists st' now', py_fold (replay_step candles timeframe config atr_result) st items = Ok st'
    /\ py_fold sweep_step (Replay.zones st, Replay.rejections st) items = Ok (Replay.zones st', Replay.rejections st')
    /\ replay_ok now' st'.
Proof.
  intros Hw. revert st now. induction items as [|[i bar] items IH]; intros st now Hok Hin Hadj; [by exists st, now|].
  destruct (Hin i bar ltac:(constructor)) as [Hi Hn].
  destruct (replay_step_ok now st i bar Hw Hi Hn Hok) as (st1 & E1 & E2 & Hok1).
  cbn [py_fold]. rewrite E1, E2. apply (IH st1 (Candle.timestamp bar + timeframe_duration timeframe)); [done| |].
  - intros j b Hj. split; [apply Hin; by constructor|].
    clear IH E1 E2 Hok1. apply list_elem_of_lookup in Hj as [k Hk].
    assert (forall k a, items !! k = Some a -> Candle.timestamp bar + timeframe_duration timeframe <= Candle.timestamp a.2) as H.
    { induction k0 as [|k0 IHk]; intros a Ha.
      - rewrite <-(Hadj 0%nat (i, bar) a); [cbn; lia|done|done].
      - destruct (lookup_lt_is_Some_2 items k0) as [c Hc]; [apply lookup_lt_Some in Ha; lia|].
        specialize (IHk c Hc). rewrite <-(Hadj (S k0) c a); [|done|done].
        pose proof (timeframe_duration_pos timeframe). lia. }
    exact (H k (j, b) Hk).
  - intros k a b Ha Hb. apply (Hadj (S k)); done.
Qed.
End sweep.

Lemma to_schema_ok now z : zone_ok now z ->
  exists g, _to_schema z = Ok g /\ GapZone.validate_zone g = true
    /\ history (GapZone.type g) (GapZone.lifecycle g) (GapZone.lifecycle_state g)
    /\ GapZone.status g = _public_status (GapZone.lifecycle_state g)
    /\ GapZone.zone_id g = ZoneState.zone_id z /\ GapZone.type g = ZoneState.type z
    /\ GapZone.origin_fvg_id g = ZoneState.origin_fvg_id z /\ GapZone.direction g = ZoneState.direction z
    /\ GapZone.lower g = ZoneState.lower z /\ GapZone.upper g = ZoneState.upper z
    /\ GapZone.lifecycle_state g = ZoneState.lifecycle_state z
    /\ GapZone.last_updated_at g <= now
    /\ GapZone.confirmed_at g = GapZone.created_at g
    /\ GapLifecycleEvent.occurred_at <$> head (GapZone.lifecycle g) = Some (GapZone.created_at g)
    /\ forall last, list.last (GapZone.lifecycle g) = Some last -> GapLifecycleEvent.occurred_at last <= GapZone.last_updated_at g.
Proof.
  intros [[[Hl Hu] Ho Hf Hc (u & Hup & Hun) (ev & l & Hlc & Hh & _) (Hd1 & Hd2 & Hd3)] _].
  unfold _to_schema. rewrite Hup. unfold validated.
  match goal with |- context [GapZone.validate_zone ?g] => assert (GapZone.validate_zone g = true) as Hv end.
  { unfold GapZone.validate_zone. cbn. rewrite !andb_true_iff, !negb_true_iff. split_and!.
    - apply dltb_true. by rewrite Qval_D0.
    - apply dltb_true. rewrite Qval_D0. lra.
    - by apply unit_fraction_Q.
    - by apply Z.leb_le.
    - by apply dleb_false.
    - apply andb_false_iff. destruct (decide (ZoneState.type z = GapZoneType.IFVG)) as [E|E].
      + right. apply bool_decide_eq_false. by apply Ho.
      + left. by apply bool_decide_eq_false.
    - apply andb_false_iff. destruct (decide (ZoneState.type z = GapZoneType.FVG)) as [E|E].
      + right. apply negb_false_iff, bool_decide_eq_true.
        destruct (ZoneState.origin_fvg_id z) eqn:Eo; [|done].
        assert (ZoneState.type z = GapZoneType.IFVG) by (by apply Ho). congruence.
      + left. by apply bool_decide_eq_false. }
  rewrite Hv. eexists. split; [reflexivity|]. cbn. rewrite Hlc in *. split_and!; try done. intros last Hla. by apply Hd3.
Qed.

Lemma validate_inputs_spaced candles timeframe config atr_result :
  _validate_inputs candles timeframe config atr_result = Ok tt -> evenly_spaced timeframe candles.
Proof.
  intros H. apply bind_ok in H as (? & _ & H). apply bind_ok in H as ([] & H & _).
  by eapply validate_spacing_ok.
Qed.

Lemma analyze_fvg_ok candles timeframe config atr_result : Forall candle_wf candles ->
  _validate_inputs candles timeframe config atr_result = Ok tt ->
  exists st now zones, analyze_fvg candles timeframe config atr_result =
      Ok (FVGAnalysisResult.mkFVGAnalysisResult timeframe config (length candles)
            (data_cutoff_at candles timeframe) zones (Replay.rejections st))
    /\ py_fold (sweep_step candles timeframe config atr_result) ([], []) (enumerate candles)
       = Ok (Replay.zones st, Replay.rejections st)
    /\ replay_ok now st /\ py_map _to_schema (Replay.zones st) = Ok zones.
Proof.
  intros Hw Hv. pose proof (validate_inputs_spaced _ _ _ _ Hv) as He.
  set (now := match candles with [] => 0 | c :: _ => Candle.timestamp c end).
  assert (replay_ok now Replay.init) as H0 by (constructor; [done|constructor|set_solver]).
  destruct (replay_fold_ok candles timeframe config atr_result Replay.init now (enumerate candles) Hw H0)
    as (st & now' & E1 & E2 & Hok).
  - intros i bar Hi%elem_of_enumerate. split; [done|]. unfold now. destruct candles as [|c0 cs]; [done|].
    pose proof (evenly_spaced_nth _ _ _ _ _ _ He (eq_refl : (c0 :: cs) !! 0%nat = Some c0) Hi).
    pose proof (timeframe_duration_pos timeframe). nia.
  - intros k [i a] [j b]. rewrite !enumerate_lookup, !fmap_Some.
    intros (a' & Ha & [= -> ->]) (b' & Hb & [= -> ->]). symmetry. by apply (He k).
  - unfold analyze_fvg. rewrite Hv, E1. cbn [mbind pyres_bind].
    assert (exists zones, py_map _to_schema (Replay.zones st) = Ok zones) as [zones Ez].
    { destruct Hok as [_ Hz _]. clear E1 E2. induction Hz as [|z zs Hz _ IH]; [by exists []|].
      destruct IH as [gs Hgs], (to_schema_ok _ _ Hz) as (g & Hg & _). cbn [py_map]. rewrite Hg, Hgs. eauto. }
    exists st, now', zones. rewrite Ez. done.
Qed.

(** C23. On input that passes its checks the analysis always returns, no model
    constructor or division raising, and its result is that of the
    specification that keeps no work list: every bar updates every zone of the
    archive, terminal ones included. *)
Theorem analyze_fvg_refines_sweep candles timeframe config atr_result : Forall candle_wf candles ->
  _validate_inputs candles timeframe config atr_result = Ok tt ->
  exists archive rejections zones,
    py_fold (sweep_step candles timeframe config atr_result) ([], []) (enumerate candles) = Ok (archive, rejections)
    /\ py_map _to_schema archive = Ok zones
    /\ analyze_fvg candles timeframe config atr_result =
       Ok (FVGAnalysisResult.mkFVGAnalysisResult timeframe config (length candles)
             (data_cutoff_at candles timeframe) zones rejections).
Proof.
  intros Hw Hv. destruct (analyze_fvg_ok _ _ _ _ Hw Hv) as (st & now & zones & H1 & H2 & _ & H3). eauto 10.
Qed.

Definition fvg_config_example : FVGConfig :=
  FVGConfig.mkFVGConfig (D 1) 1 (D 0) false FVGFillBasis.WICK (Dec 5 (-1)) 10 3 true 0.

Definition gap_candles : list Candle :=
  [candle_example 0 10 12 9 11; candle_example 1 12 18 12 17; candle_example 2 17 20 16 19;
   candle_example 3 18 18 15 16; candle_example 4 16 16 9 10; candle_example 5 10 15 8 9].

Lemma gap_candles_wf : Forall candle_wf gap_candles.
Proof. repeat constructor; apply valid_candle_wf; reflexivity. Qed.

Lemma analyze_fvg_refines_sweep_witness :
  exists archive rejections zones,
    py_fold (sweep_step gap_candles Timeframe.ONE_MINUTE fvg_config_example None) ([], []) (enumerate gap_candles)
      = Ok (archive, rejections)
    /\ py_map _to_schema archive = Ok zones
    /\ analyze_fvg gap_candles Timeframe.ONE_MINUTE fvg_config_example None =
       Ok (FVGAnalysisResult.mkFVGAnalysisResult Timeframe.ONE_MINUTE fvg_config_example 6
             (data_cutoff_at gap_candles Timeframe.ONE_MINUTE) zones rejections).
Proof.
  apply (analyze_fvg_refines_sweep gap_candles Timeframe.ONE_MINUTE fvg_config_example None gap_candles_wf).
  vm_compute. reflexivity.
Defined.

(** The example has an inverted gap and its IFVG. *)
Example gap_candles_zones :
  match analyze_fvg gap_candles Timeframe.ONE_MINUTE fvg_config_example None with
  | Ok r => map (fun g => (GapZone.type g, GapZone.lifecycle_state g)) (FVGAnalysisResult.zones r)
  | Raise _ => []
  end = [(GapZoneType.FVG, GapLifecycleState.INVERTED); (GapZoneType.IFVG, GapLifecycleState.FILLED)].
Proof. vm_compute. reflexivity. Qed.

(** A returned zone is that of a state of the archive, whose origin was
    returned too. *)
Lemma fvg_zone_origin candles timeframe config atr_result result : Forall candle_wf candles ->
  analyze_fvg candles timeframe config atr_result = Ok result ->
  forall g, g ∈ FVGAnalysisResult.zones result -> exists now z, zone_ok now z /\ _to_schema z = Ok g
    /\ forall origin, ZoneState.origin_fvg_id z = Some origin -> origin ∈ map GapZone.zone_id (FVGAnalysisResult.zones result).
Proof.
  intros Hw Hr g Hg.
  assert (_validate_inputs candles timeframe config atr_result = Ok tt) as Hv.
  { unfold analyze_fvg in Hr. by apply bind_ok in Hr as ([] & -> & _). }
  destruct (analyze_fvg_ok _ _ _ _ Hw Hv) as (st & now & zones & E & _ & [_ Hz Hi] & Hm%py_map_ok).
  rewrite E in Hr. injection Hr as <-. cbn [FVGAnalysisResult.zones] in *. rewrite Forall_forall in Hz.
  destruct (Forall2_elem_r _ _ _ g Hm Hg) as (z & Hin & Es). exists now, z. split_and!; [by apply Hz|done|].
  intros origin Ho. destruct (Hi z Hin) as (o & Hoin & _ & I2 & _).
  { apply (zc_origin _ _ (proj1 (Hz z Hin))). by rewrite Ho. }
  destruct (Forall2_elem_l _ _ _ o Hm Hoin) as (go & Hgo & Eo).
  destruct (to_schema_ok _ _ (Hz o Hoin)) as (go' & Eo' & _ & _ & _ & Hid & _).
  assert (go' = go) as -> by congruence. apply list_elem_of_fmap. exists go. split; [congruence|done].
Qed.

(** Every zone returned passes the schema and followed the protocol: its
    lifecycle starts with its creation, each event leaves the state the previous
    one reached by a transition of its type, no event follows a terminal state,
    fill fractions, retest counts and times never decrease, the public status is
    that of the final state; and an IFVG has its inverted origin in the result,
    with the same bounds and the opposite direction. *)
Theorem fvg_zones_follow_protocol candles timeframe config atr_result result : Forall candle_wf candles ->
  analyze_fvg candles timeframe config atr_result = Ok result ->
  forall g, g ∈ FVGAnalysisResult.zones result ->
    GapZone.validate_zone g = true
    /\ history (GapZone.type g) (GapZone.lifecycle g) (GapZone.lifecycle_state g)
    /\ GapZone.status g = _public_status (GapZone.lifecycle_state g)
    /\ (GapZone.type g = GapZoneType.IFVG -> exists o, o ∈ FVGAnalysisResult.zones result
         /\ GapZone.origin_fvg_id g = Some (GapZone.zone_id o) /\ GapZone.type o = GapZoneType.FVG
         /\ GapZone.lifecycle_state o = GapLifecycleState.INVERTED
         /\ GapZone.lower g = GapZone.lower o /\ GapZone.upper g = GapZone.upper o
         /\ GapZone.direction g = opposite (GapZone.direction o)).
Proof.
  intros Hw Hr g Hg.
  assert (_validate_inputs candles timeframe config atr_result = Ok tt) as Hv.
  { unfold analyze_fvg in Hr. by apply bind_ok in Hr as ([] & -> & _). }
  destruct (analyze_fvg_ok _ _ _ _ Hw Hv) as (st & now & zones & E & _ & [_ Hz Hi] & Hm).
  rewrite E in Hr. injection Hr as <-. cbn in *. apply py_map_ok in Hm.
  assert (forall z, z ∈ Replay.zones st -> exists g', g' ∈ zones /\ _to_schema z = Ok g') as Hback.
  { intros z [i Hzi]%list_elem_of_lookup. destruct (Forall2_lookup_l _ _ _ _ _ Hm Hzi) as (g' & Hg' & Es).
    exists g'. split; [by eapply list_elem_of_lookup_2|done]. }
  apply list_elem_of_lookup in Hg as [i Hgi].
  destruct (Forall2_lookup_r _ _ _ _ _ Hm Hgi) as (z & Hzi & Es).
  rewrite Forall_forall in Hz.
  assert (z ∈ Replay.zones st) as Hin by (by eapply list_elem_of_lookup_2).
  destruct (to_schema_ok _ _ (Hz z Hin)) as (g' & Es' & H1 & H2 & H3 & H4 & H5 & H6 & H7 & H8 & H9 & H10 & _).
  assert (g' = g) as -> by congruence. split_and!; [done..|].
  intros Hty. destruct (Hi z Hin) as (o & Ho & I1 & I2 & I3 & I4 & I5 & I6 & I7); [congruence|].
  destruct (Hback o Ho) as (go & Hgo & Eo).
  destruct (to_schema_ok _ _ (Hz o Ho)) as (go' & Eo' & _ & _ & _ & O4 & O5 & O6 & O7 & O8 & O9 & O10 & _).
  assert (go' = go) as -> by congruence. exists go. split_and!; congruence.
Qed.

Lemma fvg_zones_follow_protocol_witness :
  exists result, analyze_fvg gap_candles Timeframe.ONE_MINUTE fvg_config_example None = Ok result
    /\ forall g, g ∈ FVGAnalysisResult.zones result ->
        history (GapZone.type g) (GapZone.lifecycle g) (GapZone.lifecycle_state g).
Proof.
  eexists. split; [vm_compute; reflexivity|]. intros g Hg.
  refine (proj1 (proj2 (fvg_zones_follow_protocol gap_candles Timeframe.ONE_MINUTE fvg_config_example None _
    gap_candles_wf _ g Hg))).
  vm_compute. reflexivity.
Defined.

(** A bar forms a gap exactly when the third candle clears the first by at
    least the larger of the tick and ATR minimums (and the middle candle agrees,
    when that is required), the bounds being the cleared wicks; it is rejected
    exactly when the ATR of the previous bar is needed and unusable.  The
    code's "impossible dual formation" is indeed impossible. *)
Theorem fvg_detection_exact candles config atr_result index bar t first middle :
  (2 <= index)%nat -> candles !! (index - 2)%nat = Some first -> candles !! (index - 1)%nat = Some middle ->
  candle_wf bar -> candle_wf first ->
  let atr := atr_before atr_result index in
  let bullish := is_gap config atr (Candle.high first) (Candle.low bar) /\ middle_agrees config GapDirection.BULLISH middle in
  let bearish := is_gap config atr (Candle.high bar) (Candle.low first) /\ middle_agrees config GapDirection.BEARISH middle in
  match detect_gap candles config atr_result index bar t with
  | Formed z => atr_usable config atr
      /\ ((bullish /\ z = _new_fvg GapDirection.BULLISH (Candle.high first) (Candle.low bar) candles index bar t)
          \/ (bearish /\ z = _new_fvg GapDirection.BEARISH (Candle.high bar) (Candle.low first) candles index bar t))
  | NoGap => atr_usable config atr /\ ~ bullish /\ ~ bearish
  | Rejected r => ~ atr_usable config atr
      /\ r = FVGRejection.mkFVGRejection "FVG_ATR_UNAVAILABLE" (Candle.timestamp bar) t
  end.
Proof. apply detect_gap_cases. Qed.

Lemma fvg_detection_exact_witness :
  exists z, detect_gap gap_candles fvg_config_example None 2 (candle_example 2 17 20 16 19) 180000000 = Formed z
    /\ atr_usable fvg_config_example None.
Proof.
  pose proof (fvg_detection_exact gap_candles fvg_config_example None 2 (candle_example 2 17 20 16 19) 180000000
    (candle_example 0 10 12 9 11) (candle_example 1 12 18 12 17) ltac:(lia) eq_refl eq_refl
    ltac:(apply valid_candle_wf; reflexivity) ltac:(apply valid_candle_wf; reflexivity)) as H.
  eexists. split; [vm_compute; reflexivity|]. exact (proj1 H).
Defined.
