(* ===== verification/LiquidityTypes.v ===== *)
(** The data of the liquidity engine: [schemas/liquidity.py], its validators
    and point-in-time snapshots. *)
From Stdlib Require Import ZArith QArith Lia Lqa.
From stdpp Require Import base list strings numbers sets.
From S2P Require Import Prelude Decimal Time Candle.
Local Open Scope Z_scope.

Module LiquidityDirection.
Inductive LiquidityDirection := BUY_SIDE | SELL_SIDE.
#[global] Instance LiquidityDirection_eqdec : EqDecision LiquidityDirection := ltac:(solve_decision).
Definition value (d : LiquidityDirection) : string :=
  match d with BUY_SIDE => "BUY_SIDE" | SELL_SIDE => "SELL_SIDE" end.
End LiquidityDirection.
Abbreviation LiquidityDirection := LiquidityDirection.LiquidityDirection.

Module LiquidityFormation.
Inductive LiquidityFormation := SWING | EQUAL | RELATIVE_EQUAL.
#[global] Instance LiquidityFormation_eqdec : EqDecision LiquidityFormation := ltac:(solve_decision).
End LiquidityFormation.
Abbreviation LiquidityFormation := LiquidityFormation.LiquidityFormation.

Module LiquidityEventType.
Inductive LiquidityEventType := BUY_SIDE_LIQUIDITY | SELL_SIDE_LIQUIDITY | EQUAL_HIGHS | EQUAL_LOWS.
#[global] Instance LiquidityEventType_eqdec : EqDecision LiquidityEventType := ltac:(solve_decision).
End LiquidityEventType.
Abbreviation LiquidityEventType := LiquidityEventType.LiquidityEventType.

Module LiquidityPoolState.
Inductive LiquidityPoolState := ACTIVE | SWEPT | TAKEN | EXPIRED.
#[global] Instance LiquidityPoolState_eqdec : EqDecision LiquidityPoolState := ltac:(solve_decision).
End LiquidityPoolState.
Abbreviation LiquidityPoolState := LiquidityPoolState.LiquidityPoolState.

Module LiquidityTerminationReason.
Inductive LiquidityTerminationReason := CLOSE_THROUGH | MAX_AGE_EXCEEDED.
#[global] Instance LiquidityTerminationReason_eqdec : EqDecision LiquidityTerminationReason := ltac:(solve_decision).
End LiquidityTerminationReason.
Abbreviation LiquidityTerminationReason := LiquidityTerminationReason.LiquidityTerminationReason.

Module LiquidityPoolHistoryEventType.
Inductive LiquidityPoolHistoryEventType := CREATED | MEMBERS_UPDATED | TOUCHED | SWEPT | TAKEN | EXPIRED.
#[global] Instance LiquidityPoolHistoryEventType_eqdec : EqDecision LiquidityPoolHistoryEventType := ltac:(solve_decision).
End LiquidityPoolHistoryEventType.
Abbreviation LiquidityPoolHistoryEventType := LiquidityPoolHistoryEventType.LiquidityPoolHistoryEventType.

Module LiquidityInteractionType.
Inductive LiquidityInteractionType := TOUCH | SWEEP | TAKEN.
#[global] Instance LiquidityInteractionType_eqdec : EqDecision LiquidityInteractionType := ltac:(solve_decision).
Definition value (t : LiquidityInteractionType) : string :=
  match t with TOUCH => "TOUCH" | SWEEP => "SWEEP" | TAKEN => "TAKEN" end.
End LiquidityInteractionType.
Abbreviation LiquidityInteractionType := LiquidityInteractionType.LiquidityInteractionType.

Module LiquidityConfirmation.
Inductive LiquidityConfirmation :=
| CONFIRMED_SWING | CONFIRMED_EQUAL_CLUSTER | CONFIRMED_RELATIVE_EQUAL_CLUSTER
| BOUNDARY_TOUCH | CLOSE_BACK | CLOSE_THROUGH.
#[global] Instance LiquidityConfirmation_eqdec : EqDecision LiquidityConfirmation := ltac:(solve_decision).
End LiquidityConfirmation.
Abbreviation LiquidityConfirmation := LiquidityConfirmation.LiquidityConfirmation.

Module LiquidityConfig.
Record LiquidityConfig := mkLiquidityConfig {
  tick_size : dec;
  liquidity_include_single_swing_pools : bool;
  liquidity_single_pool_half_width_ticks : Z;
  liquidity_equal_tolerance_ticks : dec;
  liquidity_relative_equal_atr_ratio : dec;
  liquidity_cluster_min_touches : nat;
  liquidity_cluster_padding_ticks : Z;
  liquidity_sweep_min_penetration_ticks : Z;
  liquidity_taken_buffer_ticks : Z;
  liquidity_pool_max_age_bars : Z;
  signal_allow_dual_sweep : bool
}.
Definition valid (c : LiquidityConfig) : bool :=
  dltb (D 0) (tick_size c) && (0 <=? liquidity_single_pool_half_width_ticks c)
  && dleb (D 0) (liquidity_equal_tolerance_ticks c) && dleb (D 0) (liquidity_relative_equal_atr_ratio c)
  && (2 <=? liquidity_cluster_min_touches c)%nat && (0 <=? liquidity_cluster_padding_ticks c)
  && (0 <=? liquidity_sweep_min_penetration_ticks c) && (0 <=? liquidity_taken_buffer_ticks c)
  && (1 <=? liquidity_pool_max_age_bars c).
End LiquidityConfig.
Abbreviation LiquidityConfig := LiquidityConfig.LiquidityConfig.

Module LiquidityInteraction.
Record LiquidityInteraction := mkLiquidityInteraction {
  event_id : string;
  type : LiquidityInteractionType;
  direction : LiquidityDirection;
  level : dec;
  created_at : datetime;
  swept_at : option datetime;
  confirmation : LiquidityConfirmation;
  source_structure : list string;
  pool_id : string;
  timestamp : datetime;
  confirmed_at : datetime
}.
Definition validate_times (e : LiquidityInteraction) : bool :=
  dltb (D 0) (level e)
  && negb (confirmed_at e <=? timestamp e)
  && negb (bool_decide (type e = LiquidityInteractionType.SWEEP)
           && negb (bool_decide (swept_at e = Some (confirmed_at e))))
  && negb (negb (bool_decide (type e = LiquidityInteractionType.SWEEP))
           && negb (bool_decide (swept_at e = None))).
End LiquidityInteraction.
Abbreviation LiquidityInteraction := LiquidityInteraction.LiquidityInteraction.

Module LiquidityPoolHistoryEntry.
Record LiquidityPoolHistoryEntry := mkLiquidityPoolHistoryEntry {
  sequence : nat;
  event_type : LiquidityPoolHistoryEventType;
  available_at : datetime;
  type : LiquidityEventType;
  formation : LiquidityFormation;
  level : dec;
  lower_bound : dec;
  upper_bound : dec;
  state : LiquidityPoolState;
  terminal_reason : option LiquidityTerminationReason;
  confirmation : LiquidityConfirmation;
  source_structure : list string;
  source_prices : list dec;
  source_pivot_timestamps : list datetime;
  members_available_at : list datetime;
  swept_at : option datetime;
  interaction_event_id : option string
}.
Definition validate_history_entry (e : LiquidityPoolHistoryEntry) : bool :=
  dltb (D 0) (level e) && dltb (D 0) (lower_bound e) && dltb (D 0) (upper_bound e)
  && negb (dltb (upper_bound e) (lower_bound e))
  && negb (length (source_structure e) =? 0)%nat
  && ((length (source_structure e) =? length (source_prices e))%nat
      && (length (source_prices e) =? length (source_pivot_timestamps e))%nat
      && (length (source_pivot_timestamps e) =? length (members_available_at e))%nat)
  && negb (existsb (fun member_available_at => available_at e <? member_available_at) (members_available_at e)).
End LiquidityPoolHistoryEntry.
Abbreviation LiquidityPoolHistoryEntry := LiquidityPoolHistoryEntry.LiquidityPoolHistoryEntry.

Module LiquidityPool.
Record LiquidityPool := mkLiquidityPool {
  pool_id : string;
  type : LiquidityEventType;
  direction : LiquidityDirection;
  formation : LiquidityFormation;
  level : dec;
  lower_bound : dec;
  upper_bound : dec;
  state : LiquidityPoolState;
  terminal_reason : option LiquidityTerminationReason;
  created_at : datetime;
  confirmed_at : datetime;
  updated_at : datetime;
  swept_at : option datetime;
  confirmation : LiquidityConfirmation;
  source_structure : list string;
  source_prices : list dec;
  source_pivot_timestamps : list datetime;
  members_available_at : list datetime;
  interactions : list LiquidityInteraction;
  history : list LiquidityPoolHistoryEntry
}.

(** [final_state == exposed_state] for the latest history entry. *)
Definition exposes (p : LiquidityPool) (latest : LiquidityPoolHistoryEntry) : bool :=
  bool_decide (LiquidityPoolHistoryEntry.type latest = type p)
  && bool_decide (LiquidityPoolHistoryEntry.formation latest = formation p)
  && deqb (LiquidityPoolHistoryEntry.level latest) (level p)
  && deqb (LiquidityPoolHistoryEntry.lower_bound latest) (lower_bound p)
  && deqb (LiquidityPoolHistoryEntry.upper_bound latest) (upper_bound p)
  && bool_decide (LiquidityPoolHistoryEntry.state latest = state p)
  && bool_decide (LiquidityPoolHistoryEntry.terminal_reason latest = terminal_reason p)
  && bool_decide (LiquidityPoolHistoryEntry.confirmation latest = confirmation p)
  && bool_decide (LiquidityPoolHistoryEntry.source_structure latest = source_structure p)
  && list_eqb deqb (LiquidityPoolHistoryEntry.source_prices latest) (source_prices p)
  && bool_decide (LiquidityPoolHistoryEntry.source_pivot_timestamps latest = source_pivot_timestamps p)
  && bool_decide (LiquidityPoolHistoryEntry.members_available_at latest = members_available_at p)
  && bool_decide (LiquidityPoolHistoryEntry.swept_at latest = swept_at p)
  && (LiquidityPoolHistoryEntry.available_at latest =? updated_at p).

Definition validate_pool (p : LiquidityPool) : bool :=
  dltb (D 0) (level p) && dltb (D 0) (lower_bound p) && dltb (D 0) (upper_bound p)
  && negb (dltb (upper_bound p) (lower_bound p))
  && negb (length (source_structure p) =? 0)%nat
  && ((length (source_structure p) =? length (source_prices p))%nat
      && (length (source_prices p) =? length (source_pivot_timestamps p))%nat
      && (length (source_pivot_timestamps p) =? length (members_available_at p))%nat)
  && (confirmed_at p =? created_at p)
  && negb (bool_decide (state p = LiquidityPoolState.SWEPT) && bool_decide (swept_at p = None))
  && bool_decide (map LiquidityPoolHistoryEntry.sequence (history p) = seq 0 (length (history p)))
  && match history p with
     | [] => false
     | first :: _ =>
         bool_decide (LiquidityPoolHistoryEntry.event_type first = LiquidityPoolHistoryEventType.CREATED)
         && (LiquidityPoolHistoryEntry.available_at first =? created_at p)
     end
  && negb (existsb (fun '(previous, current) =>
       LiquidityPoolHistoryEntry.available_at current <? LiquidityPoolHistoryEntry.available_at previous)
       (pairwise (history p)))
  && match list.last (history p) with
     | Some latest => exposes p latest
     | None => false
     end.

(** [snapshot_at] *)
Definition snapshot_at (p : LiquidityPool) (cutoff : datetime) : pyres (option LiquidityPool) :=
  let visible_history :=
    filter (fun entry => LiquidityPoolHistoryEntry.available_at entry <= cutoff) (history p) in
  match list.last visible_history with
  | None => Ok None
  | Some latest =>
      Some <$> validated validate_pool
        (mkLiquidityPool (pool_id p) (LiquidityPoolHistoryEntry.type latest) (direction p)
          (LiquidityPoolHistoryEntry.formation latest) (LiquidityPoolHistoryEntry.level latest)
          (LiquidityPoolHistoryEntry.lower_bound latest) (LiquidityPoolHistoryEntry.upper_bound latest)
          (LiquidityPoolHistoryEntry.state latest) (LiquidityPoolHistoryEntry.terminal_reason latest)
          (created_at p) (confirmed_at p) (LiquidityPoolHistoryEntry.available_at latest)
          (LiquidityPoolHistoryEntry.swept_at latest) (LiquidityPoolHistoryEntry.confirmation latest)
          (LiquidityPoolHistoryEntry.source_structure latest) (LiquidityPoolHistoryEntry.source_prices latest)
          (LiquidityPoolHistoryEntry.source_pivot_timestamps latest)
          (LiquidityPoolHistoryEntry.members_available_at latest)
          (filter (fun interaction => LiquidityInteraction.confirmed_at interaction <= cutoff) (interactions p))
          visible_history)
  end.
End LiquidityPool.
Abbreviation LiquidityPool := LiquidityPool.LiquidityPool.

Module DualSweepGroup.
Record DualSweepGroup := mkDualSweepGroup {
  group_id : string;
  timestamp : datetime;
  confirmed_at : datetime;
  buy_side_event_ids : list string;
  sell_side_event_ids : list string
}.
End DualSweepGroup.
Abbreviation DualSweepGroup := DualSweepGroup.DualSweepGroup.

Module LiquidityAnalysisResult.
Record LiquidityAnalysisResult := mkLiquidityAnalysisResult {
  timeframe : Timeframe;
  config : LiquidityConfig;
  candle_count : nat;
  data_cutoff_at : option datetime;
  pools : list LiquidityPool;
  interactions : list LiquidityInteraction;
  dual_sweeps : list DualSweepGroup
}.
End LiquidityAnalysisResult.
Abbreviation LiquidityAnalysisResult := LiquidityAnalysisResult.LiquidityAnalysisResult.

(** * Snapshots *)

Abbreviation entry := LiquidityPoolHistoryEntry.
Abbreviation available_at := LiquidityPoolHistoryEntry.available_at.

(** What the engine guarantees of a history beyond the pool's validator. *)
Definition entries_ok (p : LiquidityPool) : Prop :=
  Forall (fun e => LiquidityPoolHistoryEntry.validate_history_entry e = true
    /\ (LiquidityPoolHistoryEntry.state e = LiquidityPoolState.SWEPT -> LiquidityPoolHistoryEntry.swept_at e <> None))
    (LiquidityPool.history p).

(** What the liquidity engine promises of its pools, and the order block engine
    relies on. *)
Definition pools_ok (pools : list LiquidityPool) : Prop :=
  Forall (fun p => LiquidityPool.validate_pool p = true /\ entries_ok p) pools.

Definition out_of_order (l : list entry) : bool :=
  existsb (fun '(previous, current) => available_at current <? available_at previous) (pairwise l).

Lemma chronological_cons x l : out_of_order (x :: l) = false ->
  out_of_order l = false /\ Forall (fun e => available_at x <= available_at e) l.
Proof.
  revert x; induction l as [|y l IH]; intros x H; [by split|].
  change (out_of_order (x :: y :: l)) with ((available_at y <? available_at x) || out_of_order (y :: l)) in H.
  bool_hyps. split; [done|]. destruct (IH y) as [_ Hy]; [done|].
  constructor; [lia|]. eapply Forall_impl; [exact Hy|]. cbn. lia.
Qed.

Lemma visible_prefix cutoff l : out_of_order l = false ->
  exists k, filter (fun e => available_at e <= cutoff) l = take k l.
Proof.
  induction l as [|x l IH]; intros H; [by exists 0%nat|]. apply chronological_cons in H as [H Hx].
  destruct (decide (available_at x <= cutoff)) as [Hc|Hc].
  - destruct (IH H) as [k Hk]. exists (S k). rewrite filter_cons_True by done. by rewrite Hk.
  - exists 0%nat. rewrite filter_cons_False by done. apply filter_none.
    eapply Forall_impl; [exact Hx|]. cbn. lia.
Qed.

Lemma out_of_order_take l k : out_of_order l = false -> out_of_order (take k l) = false.
Proof.
  unfold out_of_order. rewrite pairwise_take. generalize (pairwise l) (k - 1)%nat. intros m.
  induction m as [|a m IH]; intros [|j] H; try done. cbn in *. bool_hyps. apply orb_false_iff. auto.
Qed.

Lemma list_eqb_refl l : list_eqb deqb l l = true.
Proof.
  unfold list_eqb. rewrite Nat.eqb_refl. cbn. induction l as [|x l IH]; cbn; [done|]. by rewrite deqb_refl, IH.
Qed.

(** The pool the snapshot builds from a non-empty visible prefix. *)
Lemma snapshot_valid p k latest cutoff interactions : LiquidityPool.validate_pool p = true -> entries_ok p ->
  list.last (take k (LiquidityPool.history p)) = Some latest ->
  available_at latest <= cutoff ->
  LiquidityPool.validate_pool
    (LiquidityPool.mkLiquidityPool (LiquidityPool.pool_id p) (LiquidityPoolHistoryEntry.type latest)
      (LiquidityPool.direction p) (LiquidityPoolHistoryEntry.formation latest) (LiquidityPoolHistoryEntry.level latest)
      (LiquidityPoolHistoryEntry.lower_bound latest) (LiquidityPoolHistoryEntry.upper_bound latest)
      (LiquidityPoolHistoryEntry.state latest) (LiquidityPoolHistoryEntry.terminal_reason latest)
      (LiquidityPool.created_at p) (LiquidityPool.confirmed_at p) (available_at latest)
      (LiquidityPoolHistoryEntry.swept_at latest) (LiquidityPoolHistoryEntry.confirmation latest)
      (LiquidityPoolHistoryEntry.source_structure latest) (LiquidityPoolHistoryEntry.source_prices latest)
      (LiquidityPoolHistoryEntry.source_pivot_timestamps latest)
      (LiquidityPoolHistoryEntry.members_available_at latest) interactions (take k (LiquidityPool.history p))) = true.
Proof.
  intros Hv He Hl Hc.
  assert (latest ∈ LiquidityPool.history p) as Hin.
  { apply last_Some_elem_of in Hl. rewrite <-(take_drop k). apply elem_of_app. by left. }
  unfold entries_ok in He. rewrite Forall_forall in He. destruct (He _ Hin) as [Hval Hsw].
  unfold LiquidityPoolHistoryEntry.validate_history_entry in Hval. bool_hyps.
  unfold LiquidityPool.validate_pool in Hv |- *. cbn [LiquidityPool.level LiquidityPool.lower_bound
    LiquidityPool.upper_bound LiquidityPool.source_structure LiquidityPool.source_prices
    LiquidityPool.source_pivot_timestamps LiquidityPool.members_available_at LiquidityPool.confirmed_at
    LiquidityPool.created_at LiquidityPool.state LiquidityPool.swept_at LiquidityPool.history].
  fold (out_of_order (LiquidityPool.history p)) in Hv. fold (out_of_order (take k (LiquidityPool.history p))).
  rewrite Hl. bool_hyps. rewrite !andb_true_iff, !negb_true_iff. split_and!; try done.
  - apply andb_false_iff.
    destruct (decide (LiquidityPoolHistoryEntry.state latest = LiquidityPoolState.SWEPT)) as [E|E].
    + right. apply bool_decide_eq_false. auto.
    + left. by apply bool_decide_eq_false.
  - apply bool_decide_eq_true. rewrite <-firstn_map.
    match goal with E : map LiquidityPoolHistoryEntry.sequence _ = _ |- _ => rewrite E end.
    by rewrite take_seq, length_take.
  - destruct (LiquidityPool.history p) as [|first rest]; [done|]. by destruct k.
  - by apply out_of_order_take.
  - unfold LiquidityPool.exposes. cbn. rewrite !bool_decide_eq_true_2, !deqb_refl, list_eqb_refl, Z.eqb_refl by done. done.
Qed.

Lemma valid_history_order p : LiquidityPool.validate_pool p = true -> out_of_order (LiquidityPool.history p) = false.
Proof. unfold LiquidityPool.validate_pool. intros H. bool_hyps. done. Qed.

Lemma valid_history_first p : LiquidityPool.validate_pool p = true ->
  exists first rest, LiquidityPool.history p = first :: rest /\ available_at first = LiquidityPool.created_at p.
Proof.
  unfold LiquidityPool.validate_pool. intros H. bool_hyps.
  destruct (LiquidityPool.history p) as [|first rest]; [done|]. bool_hyps.
  exists first, rest. split; [done|]. by apply Z.eqb_eq.
Qed.

Lemma filter_le_filter {A} (f : A -> Z) (c c' : Z) (l : list A) : c' <= c ->
  filter (fun x => f x <= c') (filter (fun x => f x <= c) l) = filter (fun x => f x <= c') l.
Proof. intros H. rewrite list_filter_filter. apply list_filter_iff. intros x. lia. Qed.

(** Snapshots are defined exactly from the creation on, are valid pools, and
    looking further back from a snapshot is looking back from the pool. *)
Lemma snapshot_at_spec p cutoff : LiquidityPool.validate_pool p = true -> entries_ok p ->
  (cutoff < LiquidityPool.created_at p -> LiquidityPool.snapshot_at p cutoff = Ok None)
  /\ (LiquidityPool.created_at p <= cutoff -> exists q, LiquidityPool.snapshot_at p cutoff = Ok (Some q)
       /\ LiquidityPool.validate_pool q = true /\ entries_ok q
       /\ LiquidityPool.updated_at q <= cutoff
       /\ LiquidityPool.history q = filter (fun e => available_at e <= cutoff) (LiquidityPool.history p)
       /\ forall earlier, earlier <= cutoff ->
            LiquidityPool.snapshot_at q earlier = LiquidityPool.snapshot_at p earlier).
Proof.
  intros Hv He. pose proof (valid_history_order p Hv) as Ho.
  destruct (valid_history_first p Hv) as (first & rest & Eh & Ef). split; intros Hc.
  - unfold LiquidityPool.snapshot_at. rewrite filter_none; [done|].
    rewrite Eh in Ho |- *. apply chronological_cons in Ho as [_ Hr].
    constructor; [lia|]. eapply Forall_impl; [exact Hr|]. cbn. lia.
  - destruct (visible_prefix cutoff _ Ho) as [k Hk].
    assert (exists latest, list.last (filter (fun e => available_at e <= cutoff) (LiquidityPool.history p)) = Some latest)
      as [latest Hl].
    { apply last_is_Some. rewrite Eh, filter_cons_True by lia. done. }
    assert (available_at latest <= cutoff) as Hlc.
    { apply last_Some_elem_of, list_elem_of_filter in Hl. tauto. }
    unfold LiquidityPool.snapshot_at at 1. rewrite Hl. unfold validated. rewrite Hk in Hl |- *.
    rewrite (snapshot_valid p k latest cutoff _ Hv He Hl Hlc).
    eexists. split; [reflexivity|].
    cbn [LiquidityPool.updated_at LiquidityPool.history].
    split_and!; [by apply (snapshot_valid p k latest cutoff)| |done|done|].
    + unfold entries_ok in *. cbn. by apply Forall_take.
    + intros earlier Hle. unfold LiquidityPool.snapshot_at. cbn [LiquidityPool.history LiquidityPool.interactions].
      rewrite <-Hk, !(filter_le_filter _ cutoff earlier) by done. done.
Qed.

(** A snapshot never raises: before the pool's creation there is none,
    from then on it is a valid pool whose history is the visible prefix, last
    updated at or before the cutoff; and snapshots compose, so a snapshot
    contains nothing that was not available at its cutoff. *)
Theorem snapshot_at_point_in_time p cutoff : LiquidityPool.validate_pool p = true -> entries_ok p ->
  (cutoff < LiquidityPool.created_at p -> LiquidityPool.snapshot_at p cutoff = Ok None)
  /\ (LiquidityPool.created_at p <= cutoff -> exists q, LiquidityPool.snapshot_at p cutoff = Ok (Some q)
       /\ LiquidityPool.validate_pool q = true /\ entries_ok q
       /\ LiquidityPool.updated_at q <= cutoff
       /\ LiquidityPool.history q = filter (fun e => available_at e <= cutoff) (LiquidityPool.history p)
       /\ forall earlier, earlier <= cutoff ->
            LiquidityPool.snapshot_at q earlier = LiquidityPool.snapshot_at p earlier).
Proof. apply snapshot_at_spec. Qed.

Definition history_example (n : nat) (t : LiquidityPoolHistoryEventType) (at_ : datetime) : entry :=
  LiquidityPoolHistoryEntry.mkLiquidityPoolHistoryEntry n t at_ LiquidityEventType.BUY_SIDE_LIQUIDITY
    LiquidityFormation.SWING (D 100) (D 99) (D 101) LiquidityPoolState.ACTIVE None
    LiquidityConfirmation.CONFIRMED_SWING ["HIGH:1"] [D 100] [10] [20] None None.

Definition pool_example : LiquidityPool :=
  LiquidityPool.mkLiquidityPool "LIQ:1" LiquidityEventType.BUY_SIDE_LIQUIDITY LiquidityDirection.BUY_SIDE
    LiquidityFormation.SWING (D 100) (D 99) (D 101) LiquidityPoolState.ACTIVE None 20 20 40 None
    LiquidityConfirmation.CONFIRMED_SWING ["HIGH:1"] [D 100] [10] [20] []
    [history_example 0 LiquidityPoolHistoryEventType.CREATED 20;
     history_example 1 LiquidityPoolHistoryEventType.TOUCHED 40].

Lemma snapshot_at_point_in_time_witness :
  exists q, LiquidityPool.snapshot_at pool_example 30 = Ok (Some q) /\ LiquidityPool.validate_pool q = true.
Proof.
  destruct (proj2 (snapshot_at_point_in_time pool_example 30 eq_refl
    ltac:(repeat constructor; discriminate)) ltac:(discriminate)) as (q & H1 & H2 & _).
  exists q. split; [exact H1 | exact H2].
Defined.
