(* ===== verification/Liquidity.v ===== *)
(** The liquidity engine: [engines/structure/liquidity.py].

    Pools of resting liquidity above confirmed highs and below confirmed lows,
    the clusters of swings at nearly equal prices, and the bars that touch,
    sweep or take them. Pools and clusters are mutable objects shared by the
    archive, the index of reachable prices, the index of clusters and the
    dictionaries; here they live in stores and are named by their position. *)
From Stdlib Require Import ZArith Lia.
From stdpp Require Import base list strings numbers sets gmap.
From S2P Require Import Prelude Decimal Time Candle Indicators Structure Engine LiquidityTypes.
Local Open Scope Z_scope.

Definition LiquidityInputError (msg : string) : pyexc := Exc "LiquidityInputError" msg.

(** [TERMINAL_POOL_STATES] *)
Definition terminal_state (s : LiquidityPoolState) : bool :=
  match s with LiquidityPoolState.TAKEN | LiquidityPoolState.EXPIRED => true | _ => false end.

(** ** State *)

Module _PoolState.
Record _PoolState := mk_PoolState {
  pool_id : string;
  direction : LiquidityDirection;
  formation : LiquidityFormation;
  level : dec;
  lower_bound : dec;
  upper_bound : dec;
  created_at : datetime;
  updated_at : datetime;
  created_bar_index : nat;
  confirmation : LiquidityConfirmation;
  source_structure : list string;
  source_prices : list dec;
  source_pivot_timestamps : list datetime;
  members_available_at : list datetime;
  state : LiquidityPoolState;
  terminal_reason : option LiquidityTerminationReason;
  swept_at : option datetime;
  interactions : list LiquidityInteraction;
  history : list LiquidityPoolHistoryEntry;
  interaction_reach : option dec
}.
(** What membership decides of a pool. *)
Definition set_members (p : _PoolState) (formation : LiquidityFormation) (lower_bound upper_bound : dec)
    (updated_at : datetime) (confirmation : LiquidityConfirmation) (source_structure : list string)
    (source_prices : list dec) (source_pivot_timestamps members_available_at : list datetime)
    (interaction_reach : option dec) : _PoolState :=
  mk_PoolState (pool_id p) (direction p) formation (level p) lower_bound upper_bound (created_at p) updated_at
    (created_bar_index p) confirmation source_structure source_prices source_pivot_timestamps members_available_at
    (state p) (terminal_reason p) (swept_at p) (interactions p) (history p) interaction_reach.
(** What the bars decide of a pool. *)
Definition set_life (p : _PoolState) (updated_at : datetime) (state : LiquidityPoolState)
    (terminal_reason : option LiquidityTerminationReason) (swept_at : option datetime)
    (interactions : list LiquidityInteraction) (history : list LiquidityPoolHistoryEntry) : _PoolState :=
  mk_PoolState (pool_id p) (direction p) (formation p) (level p) (lower_bound p) (upper_bound p) (created_at p) updated_at
    (created_bar_index p) (confirmation p) (source_structure p) (source_prices p) (source_pivot_timestamps p)
    (members_available_at p) state terminal_reason swept_at interactions history (interaction_reach p).
Definition set_reach (p : _PoolState) (interaction_reach : option dec) : _PoolState :=
  set_members p (formation p) (lower_bound p) (upper_bound p) (updated_at p) (confirmation p) (source_structure p)
    (source_prices p) (source_pivot_timestamps p) (members_available_at p) interaction_reach.
Definition set_history (p : _PoolState) (history : list LiquidityPoolHistoryEntry) : _PoolState :=
  set_life p (updated_at p) (state p) (terminal_reason p) (swept_at p) (interactions p) history.
Definition terminal (p : _PoolState) : bool := terminal_state (state p).
End _PoolState.
Abbreviation _PoolState := _PoolState._PoolState.

Module _ClusterState.
Record _ClusterState := mk_ClusterState {
  direction : LiquidityDirection;
  anchor_price : dec;
  members : list ConfirmedSwing;
  contains_relative_member : bool;
  pool : option nat
}.
End _ClusterState.
Abbreviation _ClusterState := _ClusterState._ClusterState.

(** ** Input *)

Definition _validate_inputs (candles : list Candle) (timeframe : Timeframe) (confirmed_swings : list ConfirmedSwing)
    (config : LiquidityConfig) (atr_result : option ATRResult) : pyres unit :=
  _ ← validate_alignment "LiquidityInputError" (LiquidityConfig.tick_size config) candles;
  _ ← validate_spacing "LiquidityInputError" timeframe candles;
  _ ← py_for (fun '(previous_swing, current_swing) =>
        raise_if (ConfirmedSwing.confirmed_at current_swing <? ConfirmedSwing.confirmed_at previous_swing)
          (LiquidityInputError "confirmed swings must be in confirmation order")) (pairwise confirmed_swings);
  validate_atr_alignment "LiquidityInputError" candles atr_result.

Definition _side_for (swing : ConfirmedSwing) : LiquidityDirection :=
  match ConfirmedSwing.kind swing with
  | SwingKind.HIGH => LiquidityDirection.BUY_SIDE
  | SwingKind.LOW => LiquidityDirection.SELL_SIDE
  end.

Definition _event_type (direction : LiquidityDirection) (formation : LiquidityFormation) : LiquidityEventType :=
  match formation, direction with
  | LiquidityFormation.SWING, LiquidityDirection.BUY_SIDE => LiquidityEventType.BUY_SIDE_LIQUIDITY
  | LiquidityFormation.SWING, LiquidityDirection.SELL_SIDE => LiquidityEventType.SELL_SIDE_LIQUIDITY
  | _, LiquidityDirection.BUY_SIDE => LiquidityEventType.EQUAL_HIGHS
  | _, LiquidityDirection.SELL_SIDE => LiquidityEventType.EQUAL_LOWS
  end.

Definition _confirmation_for (formation : LiquidityFormation) : LiquidityConfirmation :=
  match formation with
  | LiquidityFormation.SWING => LiquidityConfirmation.CONFIRMED_SWING
  | LiquidityFormation.RELATIVE_EQUAL => LiquidityConfirmation.CONFIRMED_RELATIVE_EQUAL_CLUSTER
  | LiquidityFormation.EQUAL => LiquidityConfirmation.CONFIRMED_EQUAL_CLUSTER
  end.

Definition _record_history (pool : _PoolState) (event_type : LiquidityPoolHistoryEventType) (available_at : datetime)
    (interaction_event_id : option string) : pyres _PoolState :=
  entry ← validated LiquidityPoolHistoryEntry.validate_history_entry
    (LiquidityPoolHistoryEntry.mkLiquidityPoolHistoryEntry (length (_PoolState.history pool)) event_type available_at
      (_event_type (_PoolState.direction pool) (_PoolState.formation pool)) (_PoolState.formation pool)
      (_PoolState.level pool) (_PoolState.lower_bound pool) (_PoolState.upper_bound pool) (_PoolState.state pool)
      (_PoolState.terminal_reason pool) (_PoolState.confirmation pool) (_PoolState.source_structure pool)
      (_PoolState.source_prices pool) (_PoolState.source_pivot_timestamps pool) (_PoolState.members_available_at pool)
      (_PoolState.swept_at pool) interaction_event_id);
  Ok (_PoolState.set_history pool (_PoolState.history pool ++ [entry])).

Section engine.
Context (config : LiquidityConfig).

(** [Decimal(n) * config.tick_size] *)
Definition ticks (n : Z) : dec := dmul DEFAULT_PREC (D n) (LiquidityConfig.tick_size config).

(** ** New pools *)

Definition _new_single_pool (swing : ConfirmedSwing) (created_bar_index : nat) : pyres _PoolState :=
  let direction := _side_for swing in
  let half_width := ticks (LiquidityConfig.liquidity_single_pool_half_width_ticks config) in
  _record_history
    (_PoolState.mk_PoolState
      ("LIQ:SWING:" +:+ LiquidityDirection.value direction +:+ ":" +:+ ConfirmedSwing.swing_id swing) direction
      LiquidityFormation.SWING (ConfirmedSwing.price swing) (dsub DEFAULT_PREC (ConfirmedSwing.price swing) half_width)
      (dadd DEFAULT_PREC (ConfirmedSwing.price swing) half_width) (ConfirmedSwing.confirmed_at swing)
      (ConfirmedSwing.confirmed_at swing) created_bar_index LiquidityConfirmation.CONFIRMED_SWING
      [ConfirmedSwing.swing_id swing] [ConfirmedSwing.price swing] [ConfirmedSwing.pivot_timestamp swing]
      [ConfirmedSwing.confirmed_at swing] LiquidityPoolState.ACTIVE None None [] [] None)
    LiquidityPoolHistoryEventType.CREATED (ConfirmedSwing.confirmed_at swing) None.

Definition _membership (anchor_price : dec) (swing : ConfirmedSwing) (atr : option dec) : option LiquidityFormation :=
  let distance := dabs DEFAULT_PREC (dsub DEFAULT_PREC (ConfirmedSwing.price swing) anchor_price) in
  let tick_distance := ddiv DEFAULT_PREC distance (LiquidityConfig.tick_size config) in
  if dleb tick_distance (LiquidityConfig.liquidity_equal_tolerance_ticks config) then Some LiquidityFormation.EQUAL
  else
    match atr with
    | Some atr =>
        if dltb (D 0) atr
           && dleb (ddiv DEFAULT_PREC distance atr) (LiquidityConfig.liquidity_relative_equal_atr_ratio config)
        then Some LiquidityFormation.RELATIVE_EQUAL
        else None
    | None => None
    end.

(** An entry of the index of clusters: the anchor price and the ordinal of the
    cluster among those of its direction. *)
Definition entry_order : dec * nat -> dec * nat -> bool := lex_lt (on_key fst dltb) (on_key snd Nat.ltb).

Definition _matching_cluster_entry (entries : list (dec * nat)) (swing : ConfirmedSwing) (atr : option dec) : option (dec * nat) :=
  let split := bisect (fun item => dltb (fst item) (ConfirmedSwing.price swing)) entries 0 (length entries) in
  let matches item := negb (bool_decide (_membership (fst item) swing atr = None)) in
  let first := bisect (fun item => negb (matches item)) entries 0 split in
  let low := bisect matches entries split (length entries) in
  py_min (on_key snd Nat.ltb) (slice entries first low).

(** [min] and [max] of the member prices; of an empty list they raise. *)
Definition py_min_dec (l : list dec) : pyres dec :=
  match py_min dltb l with Some x => Ok x | None => Raise (Exc "ValueError" "arg is an empty sequence") end.
Definition py_max_dec (l : list dec) : pyres dec :=
  match py_max dltb l with Some x => Ok x | None => Raise (Exc "ValueError" "arg is an empty sequence") end.

Definition cluster_formation (cluster : _ClusterState) : LiquidityFormation :=
  if _ClusterState.contains_relative_member cluster then LiquidityFormation.RELATIVE_EQUAL else LiquidityFormation.EQUAL.

(** The pool of a cluster that reached its number of touches. *)
Definition new_cluster_pool (cluster : _ClusterState) (first latest : ConfirmedSwing) (lower upper : dec)
    (confirmed_bar_index : nat) : pyres _PoolState :=
  let members := _ClusterState.members cluster in
  let formation := cluster_formation cluster in
  _record_history
    (_PoolState.mk_PoolState
      ("LIQ:CLUSTER:" +:+ LiquidityDirection.value (_ClusterState.direction cluster) +:+ ":"
       +:+ ConfirmedSwing.swing_id first +:+ ":" +:+ ConfirmedSwing.swing_id latest)
      (_ClusterState.direction cluster) formation (_ClusterState.anchor_price cluster) lower upper
      (ConfirmedSwing.confirmed_at latest) (ConfirmedSwing.confirmed_at latest) confirmed_bar_index
      (_confirmation_for formation) (map ConfirmedSwing.swing_id members) (map ConfirmedSwing.price members)
      (map ConfirmedSwing.pivot_timestamp members) (map ConfirmedSwing.confirmed_at members)
      LiquidityPoolState.ACTIVE None None [] [] None)
    LiquidityPoolHistoryEventType.CREATED (ConfirmedSwing.confirmed_at latest) None.

Definition update_members (pool : _PoolState) (cluster : _ClusterState) (latest : ConfirmedSwing) (lower upper : dec)
    : pyres _PoolState :=
  let members := _ClusterState.members cluster in
  let formation := cluster_formation cluster in
  _record_history
    (_PoolState.set_members pool formation lower upper (ConfirmedSwing.confirmed_at latest) (_confirmation_for formation)
      (map ConfirmedSwing.swing_id members) (map ConfirmedSwing.price members)
      (map ConfirmedSwing.pivot_timestamp members) (map ConfirmedSwing.confirmed_at members) None)
    LiquidityPoolHistoryEventType.MEMBERS_UPDATED (ConfirmedSwing.confirmed_at latest) None.

(** The store of pools, the cluster and the pool it has, if any. *)
Definition _update_cluster_pool (store : list _PoolState) (cluster : _ClusterState) (confirmed_bar_index : nat)
    : pyres (list _PoolState * _ClusterState * option nat) :=
  let members := _ClusterState.members cluster in
  if (length members <? LiquidityConfig.liquidity_cluster_min_touches config)%nat then Ok (store, cluster, None)
  else
    let padding := ticks (LiquidityConfig.liquidity_cluster_padding_ticks config) in
    let prices := map ConfirmedSwing.price members in
    match head members, list.last members with
    | Some first, Some latest =>
        lowest ← py_min_dec prices;
        highest ← py_max_dec prices;
        let lower := dsub DEFAULT_PREC lowest padding in
        let upper := dadd DEFAULT_PREC highest padding in
        match _ClusterState.pool cluster with
        | None =>
            pool ← new_cluster_pool cluster first latest lower upper confirmed_bar_index;
            let id := length store in
            Ok (store ++ [pool],
                _ClusterState.mk_ClusterState (_ClusterState.direction cluster) (_ClusterState.anchor_price cluster) members
                  (_ClusterState.contains_relative_member cluster) (Some id), Some id)
        | Some id =>
            match store !! id with
            | None => Ok (store, cluster, Some id)
            | Some pool =>
                pool ← update_members pool cluster latest lower upper;
                Ok (<[id := pool]> store, cluster, Some id)
            end
        end
    | _, _ => Raise (Exc "IndexError" "list index out of range")
    end.

(** ** Interactions *)

Definition _append_interaction (pool : _PoolState) (interaction_type : LiquidityInteractionType) (candle : Candle)
    (confirmed_at : datetime) (confirmation : LiquidityConfirmation) : pyres (_PoolState * LiquidityInteraction) :=
  let swept_at :=
    match interaction_type with LiquidityInteractionType.SWEEP => Some confirmed_at | _ => None end in
  event ← validated LiquidityInteraction.validate_times
    (LiquidityInteraction.mkLiquidityInteraction
      ("LIQ:" +:+ LiquidityInteractionType.value interaction_type +:+ ":" +:+ LiquidityDirection.value (_PoolState.direction pool)
       +:+ ":" +:+ _PoolState.pool_id pool +:+ ":" +:+ isoformat (Candle.timestamp candle))
      interaction_type (_PoolState.direction pool) (_PoolState.level pool) (_PoolState.created_at pool) swept_at confirmation
      (_PoolState.source_structure pool) (_PoolState.pool_id pool) (Candle.timestamp candle) confirmed_at);
  Ok (_PoolState.set_life pool (_PoolState.updated_at pool) (_PoolState.state pool) (_PoolState.terminal_reason pool)
        (_PoolState.swept_at pool) (_PoolState.interactions pool ++ [event]) (_PoolState.history pool), event).

Definition break_buffer : dec := ticks (LiquidityConfig.liquidity_taken_buffer_ticks config).
Definition penetration : dec := ticks (LiquidityConfig.liquidity_sweep_min_penetration_ticks config).

Definition taken (pool : _PoolState) (candle : Candle) : bool :=
  match _PoolState.direction pool with
  | LiquidityDirection.BUY_SIDE => dltb (dadd DEFAULT_PREC (_PoolState.upper_bound pool) break_buffer) (Candle.close candle)
  | LiquidityDirection.SELL_SIDE => dltb (Candle.close candle) (dsub DEFAULT_PREC (_PoolState.lower_bound pool) break_buffer)
  end.
Definition sweep (pool : _PoolState) (candle : Candle) : bool :=
  match _PoolState.direction pool with
  | LiquidityDirection.BUY_SIDE =>
      dltb (dadd DEFAULT_PREC (_PoolState.upper_bound pool) penetration) (Candle.high candle)
      && dleb (Candle.close candle) (_PoolState.upper_bound pool)
  | LiquidityDirection.SELL_SIDE =>
      dltb (Candle.low candle) (dsub DEFAULT_PREC (_PoolState.lower_bound pool) penetration)
      && dleb (_PoolState.lower_bound pool) (Candle.close candle)
  end.
Definition touch (pool : _PoolState) (candle : Candle) : bool :=
  match _PoolState.direction pool with
  | LiquidityDirection.BUY_SIDE => dleb (_PoolState.lower_bound pool) (Candle.high candle)
  | LiquidityDirection.SELL_SIDE => dleb (Candle.low candle) (_PoolState.upper_bound pool)
  end.

(** The interaction and its entry in the history. *)
Definition interact (pool : _PoolState) (interaction_type : LiquidityInteractionType) (candle : Candle) (confirmed_at : datetime)
    (confirmation : LiquidityConfirmation) (event_type : LiquidityPoolHistoryEventType)
    : pyres (_PoolState * option LiquidityInteraction) :=
  '(pool, event) ← _append_interaction pool interaction_type candle confirmed_at confirmation;
  pool ← _record_history pool event_type confirmed_at (Some (LiquidityInteraction.event_id event));
  Ok (pool, Some event).

Definition _process_interaction (pool : _PoolState) (candle : Candle) (confirmed_at : datetime)
    : pyres (_PoolState * option LiquidityInteraction) :=
  if _PoolState.terminal pool || (Candle.timestamp candle <? _PoolState.created_at pool) then Ok (pool, None)
  else if taken pool candle then
    interact
      (_PoolState.set_life pool confirmed_at LiquidityPoolState.TAKEN (Some LiquidityTerminationReason.CLOSE_THROUGH)
         (_PoolState.swept_at pool) (_PoolState.interactions pool) (_PoolState.history pool))
      LiquidityInteractionType.TAKEN candle confirmed_at LiquidityConfirmation.CLOSE_THROUGH LiquidityPoolHistoryEventType.TAKEN
  else if sweep pool candle && bool_decide (_PoolState.state pool = LiquidityPoolState.ACTIVE) then
    interact
      (_PoolState.set_life pool confirmed_at LiquidityPoolState.SWEPT (_PoolState.terminal_reason pool) (Some confirmed_at)
         (_PoolState.interactions pool) (_PoolState.history pool))
      LiquidityInteractionType.SWEEP candle confirmed_at LiquidityConfirmation.CLOSE_BACK LiquidityPoolHistoryEventType.SWEPT
  else if touch pool candle then
    interact
      (_PoolState.set_life pool confirmed_at (_PoolState.state pool) (_PoolState.terminal_reason pool) (_PoolState.swept_at pool)
         (_PoolState.interactions pool) (_PoolState.history pool))
      LiquidityInteractionType.TOUCH candle confirmed_at LiquidityConfirmation.BOUNDARY_TOUCH LiquidityPoolHistoryEventType.TOUCHED
  else Ok (pool, None).

(** The expiry, after the interaction of the bar. *)
Definition expire (pool : _PoolState) (bar_index : nat) (confirmed_at : datetime) : pyres _PoolState :=
  if negb (_PoolState.terminal pool)
     && (LiquidityConfig.liquidity_pool_max_age_bars config <? Z.of_nat bar_index - Z.of_nat (_PoolState.created_bar_index pool))
  then
    _record_history
      (_PoolState.set_life pool confirmed_at LiquidityPoolState.EXPIRED (Some LiquidityTerminationReason.MAX_AGE_EXCEEDED)
         (_PoolState.swept_at pool) (_PoolState.interactions pool) (_PoolState.history pool))
      LiquidityPoolHistoryEventType.EXPIRED confirmed_at None
  else Ok pool.

(** ** The index of reachable prices *)

Definition _interaction_reach (pool : _PoolState) : dec :=
  match _PoolState.direction pool with
  | LiquidityDirection.BUY_SIDE =>
      dmin (dmin (_PoolState.lower_bound pool) (dadd DEFAULT_PREC (_PoolState.upper_bound pool) break_buffer))
        (dadd DEFAULT_PREC (_PoolState.upper_bound pool) penetration)
  | LiquidityDirection.SELL_SIDE =>
      dmax (dmax (_PoolState.upper_bound pool) (dsub DEFAULT_PREC (_PoolState.lower_bound pool) break_buffer))
        (dsub DEFAULT_PREC (_PoolState.lower_bound pool) penetration)
  end.
End engine.

(** [_PoolReachIndex]: entries are a reach, the position in the archive, and the
    pool; the heap of ages, whose least element is popped first, is kept as the
    sorted list of its elements. *)
Module _PoolReachIndex.
Record _PoolReachIndex := mk_PoolReachIndex {
  buy_prices : list (dec * nat * nat);
  sell_prices : list (dec * nat * nat);
  current : gmap nat (dec * nat);
  ages : list (Z * nat * nat)
}.
Definition empty : _PoolReachIndex := mk_PoolReachIndex [] [] ∅ [].

Definition prices (idx : _PoolReachIndex) (d : LiquidityDirection) : list (dec * nat * nat) :=
  match d with LiquidityDirection.BUY_SIDE => buy_prices idx | LiquidityDirection.SELL_SIDE => sell_prices idx end.
Definition set_prices (idx : _PoolReachIndex) (d : LiquidityDirection) (l : list (dec * nat * nat)) : _PoolReachIndex :=
  match d with
  | LiquidityDirection.BUY_SIDE => mk_PoolReachIndex l (sell_prices idx) (current idx) (ages idx)
  | LiquidityDirection.SELL_SIDE => mk_PoolReachIndex (buy_prices idx) l (current idx) (ages idx)
  end.
Definition set_current (idx : _PoolReachIndex) (m : gmap nat (dec * nat)) : _PoolReachIndex :=
  mk_PoolReachIndex (buy_prices idx) (sell_prices idx) m (ages idx).
Definition set_ages (idx : _PoolReachIndex) (l : list (Z * nat * nat)) : _PoolReachIndex :=
  mk_PoolReachIndex (buy_prices idx) (sell_prices idx) (current idx) l.

Definition contains (idx : _PoolReachIndex) (pool : nat) : bool := bool_decide (is_Some (current idx !! pool)).

(** [entry\[:2\]], and the order of ages and positions. *)
Definition price_order : dec * nat -> dec * nat -> bool := lex_lt (on_key fst dltb) (on_key snd Nat.ltb).
Definition age_order : Z * nat * nat -> Z * nat * nat -> bool :=
  lex_lt (on_key (fun e => fst (fst e)) Z.ltb) (on_key (fun e => snd (fst e)) Nat.ltb).

Definition insert_price (l : list (dec * nat * nat)) (entry : dec * nat * nat) : list (dec * nat * nat) :=
  list_insert_at l (bisect (fun item => negb (price_order (fst entry) (fst item))) l 0 (length l)) entry.

Definition discard (idx : _PoolReachIndex) (pool : nat) (direction : LiquidityDirection) : pyres _PoolReachIndex :=
  match current idx !! pool with
  | None => Raise (Exc "KeyError" "")
  | Some old =>
      let prices := prices idx direction in
      let at_ := bisect (fun item => price_order (fst item) old) prices 0 (length prices) in
      if (length prices <=? at_)%nat then Raise (Exc "IndexError" "pop index out of range")
      else Ok (set_prices (set_current idx (delete pool (current idx))) direction (list_pop_at prices at_))
  end.

(** The pool keeps the reach it was indexed with. *)
Definition update (config : LiquidityConfig) (idx : _PoolReachIndex) (id : nat) (pool : _PoolState) (position : option nat)
    : pyres (_PoolReachIndex * _PoolState) :=
  let insert idx position :=
    let reach := _interaction_reach config pool in
    let direction := _PoolState.direction pool in
    (set_current (set_prices idx direction (insert_price (prices idx direction) (reach, position, id)))
       (<[id := (reach, position)]> (current idx)),
     _PoolState.set_reach pool (Some reach)) in
  match current idx !! id with
  | Some old =>
      match _PoolState.interaction_reach pool with
      | Some _ => Ok (idx, pool)
      | None =>
          idx ← discard idx id (_PoolState.direction pool);
          Ok (insert idx (snd old))
      end
  | None =>
      match position with
      | None => Raise (Exc "AssertionError" "")
      | Some position =>
          let '(idx, pool) := insert idx position in
          let age := Z.of_nat (_PoolState.created_bar_index pool) + LiquidityConfig.liquidity_pool_max_age_bars config + 1 in
          Ok (set_ages idx (insert_by age_order (age, position, id) (ages idx)), pool)
      end
  end.

(** The loop over the ages that are due: the pools not chosen yet, and the rest of the heap. *)
Fixpoint due (m : gmap nat (dec * nat)) (ages : list (Z * nat * nat)) (bar_index : nat) (chosen : list (nat * (nat * bool)))
    : list (nat * (nat * bool)) * list (Z * nat * nat) :=
  match ages with
  | (age, position, id) :: rest =>
      if age <=? Z.of_nat bar_index then
        due m rest bar_index
          match m !! id with
          | Some (_, position) =>
              if bool_decide (id ∈ map fst chosen) then chosen else chosen ++ [(id, (position, false))]
          | None => chosen
          end
      else (chosen, ages)
  | [] => (chosen, [])
  end.

(** Pools within reach of the candle, and those whose age is due, in the order of the archive. *)
Definition selected (idx : _PoolReachIndex) (candle : Candle) (bar_index : nat) : list (nat * bool) * _PoolReachIndex :=
  let buy := buy_prices idx in
  let sell := sell_prices idx in
  let buy_end := bisect (fun item => negb (dltb (Candle.high candle) (fst (fst item)))) buy 0 (length buy) in
  let sell_start := bisect (fun item => dltb (fst (fst item)) (Candle.low candle)) sell 0 (length sell) in
  let chosen := map (fun '(_, position, id) => (id, (position, true))) (take buy_end buy ++ drop sell_start sell) in
  let '(chosen, rest) := due (current idx) (ages idx) bar_index chosen in
  (map (fun '(id, (_, reachable)) => (id, reachable)) (sort_by (on_key (fun item => fst (snd item)) Nat.ltb) chosen),
   set_ages idx rest).
End _PoolReachIndex.
Abbreviation _PoolReachIndex := _PoolReachIndex._PoolReachIndex.

(** ** Equality of pools *)

(** [==] on interactions, history entries and pools: decimals compare by value,
    [interaction_reach] does not count. *)
Definition interaction_eqb (a b : LiquidityInteraction) : bool :=
  bool_decide (LiquidityInteraction.event_id a = LiquidityInteraction.event_id b)
  && bool_decide (LiquidityInteraction.type a = LiquidityInteraction.type b)
  && bool_decide (LiquidityInteraction.direction a = LiquidityInteraction.direction b)
  && deqb (LiquidityInteraction.level a) (LiquidityInteraction.level b)
  && (LiquidityInteraction.created_at a =? LiquidityInteraction.created_at b)
  && bool_decide (LiquidityInteraction.swept_at a = LiquidityInteraction.swept_at b)
  && bool_decide (LiquidityInteraction.confirmation a = LiquidityInteraction.confirmation b)
  && bool_decide (LiquidityInteraction.source_structure a = LiquidityInteraction.source_structure b)
  && bool_decide (LiquidityInteraction.pool_id a = LiquidityInteraction.pool_id b)
  && (LiquidityInteraction.timestamp a =? LiquidityInteraction.timestamp b)
  && (LiquidityInteraction.confirmed_at a =? LiquidityInteraction.confirmed_at b).

Definition history_eqb (a b : LiquidityPoolHistoryEntry) : bool :=
  (LiquidityPoolHistoryEntry.sequence a =? LiquidityPoolHistoryEntry.sequence b)%nat
  && bool_decide (LiquidityPoolHistoryEntry.event_type a = LiquidityPoolHistoryEntry.event_type b)
  && (LiquidityPoolHistoryEntry.available_at a =? LiquidityPoolHistoryEntry.available_at b)
  && bool_decide (LiquidityPoolHistoryEntry.type a = LiquidityPoolHistoryEntry.type b)
  && bool_decide (LiquidityPoolHistoryEntry.formation a = LiquidityPoolHistoryEntry.formation b)
  && deqb (LiquidityPoolHistoryEntry.level a) (LiquidityPoolHistoryEntry.level b)
  && deqb (LiquidityPoolHistoryEntry.lower_bound a) (LiquidityPoolHistoryEntry.lower_bound b)
  && deqb (LiquidityPoolHistoryEntry.upper_bound a) (LiquidityPoolHistoryEntry.upper_bound b)
  && bool_decide (LiquidityPoolHistoryEntry.state a = LiquidityPoolHistoryEntry.state b)
  && bool_decide (LiquidityPoolHistoryEntry.terminal_reason a = LiquidityPoolHistoryEntry.terminal_reason b)
  && bool_decide (LiquidityPoolHistoryEntry.confirmation a = LiquidityPoolHistoryEntry.confirmation b)
  && bool_decide (LiquidityPoolHistoryEntry.source_structure a = LiquidityPoolHistoryEntry.source_structure b)
  && list_eqb deqb (LiquidityPoolHistoryEntry.source_prices a) (LiquidityPoolHistoryEntry.source_prices b)
  && bool_decide (LiquidityPoolHistoryEntry.source_pivot_timestamps a = LiquidityPoolHistoryEntry.source_pivot_timestamps b)
  && bool_decide (LiquidityPoolHistoryEntry.members_available_at a = LiquidityPoolHistoryEntry.members_available_at b)
  && bool_decide (LiquidityPoolHistoryEntry.swept_at a = LiquidityPoolHistoryEntry.swept_at b)
  && bool_decide (LiquidityPoolHistoryEntry.interaction_event_id a = LiquidityPoolHistoryEntry.interaction_event_id b).

Definition pool_eqb (a b : _PoolState) : bool :=
  bool_decide (_PoolState.pool_id a = _PoolState.pool_id b)
  && bool_decide (_PoolState.direction a = _PoolState.direction b)
  && bool_decide (_PoolState.formation a = _PoolState.formation b)
  && deqb (_PoolState.level a) (_PoolState.level b)
  && deqb (_PoolState.lower_bound a) (_PoolState.lower_bound b)
  && deqb (_PoolState.upper_bound a) (_PoolState.upper_bound b)
  && (_PoolState.created_at a =? _PoolState.created_at b)
  && (_PoolState.updated_at a =? _PoolState.updated_at b)
  && (_PoolState.created_bar_index a =? _PoolState.created_bar_index b)%nat
  && bool_decide (_PoolState.confirmation a = _PoolState.confirmation b)
  && bool_decide (_PoolState.source_structure a = _PoolState.source_structure b)
  && list_eqb deqb (_PoolState.source_prices a) (_PoolState.source_prices b)
  && bool_decide (_PoolState.source_pivot_timestamps a = _PoolState.source_pivot_timestamps b)
  && bool_decide (_PoolState.members_available_at a = _PoolState.members_available_at b)
  && bool_decide (_PoolState.state a = _PoolState.state b)
  && bool_decide (_PoolState.terminal_reason a = _PoolState.terminal_reason b)
  && bool_decide (_PoolState.swept_at a = _PoolState.swept_at b)
  && list_eqb interaction_eqb (_PoolState.interactions a) (_PoolState.interactions b)
  && list_eqb history_eqb (_PoolState.history a) (_PoolState.history b).

(** ** The run *)

Module Run.
Record Run := mkRun {
  store : list _PoolState;
  pools : list nat;
  pools_by_identity : gmap string (list nat);
  active_pools : _PoolReachIndex;
  clusters : LiquidityDirection -> list _ClusterState;
  cluster_index : LiquidityDirection -> list (dec * nat);
  cluster_pool_keys : gmap nat (LiquidityDirection * dec * nat);
  interactions : list LiquidityInteraction;
  dual_sweeps : list DualSweepGroup
}.
Definition init : Run := mkRun [] [] ∅ _PoolReachIndex.empty (fun _ => []) (fun _ => []) ∅ [] [].
Definition set_store (r : Run) (l : list _PoolState) : Run :=
  mkRun l (pools r) (pools_by_identity r) (active_pools r) (clusters r) (cluster_index r) (cluster_pool_keys r)
    (interactions r) (dual_sweeps r).
Definition set_active (r : Run) (idx : _PoolReachIndex) : Run :=
  mkRun (store r) (pools r) (pools_by_identity r) idx (clusters r) (cluster_index r) (cluster_pool_keys r)
    (interactions r) (dual_sweeps r).
Definition set_clusters (r : Run) (d : LiquidityDirection) (l : list _ClusterState) : Run :=
  mkRun (store r) (pools r) (pools_by_identity r) (active_pools r) (fun d' => if bool_decide (d' = d) then l else clusters r d')
    (cluster_index r) (cluster_pool_keys r) (interactions r) (dual_sweeps r).
Definition set_index (r : Run) (d : LiquidityDirection) (l : list (dec * nat)) : Run :=
  mkRun (store r) (pools r) (pools_by_identity r) (active_pools r) (clusters r)
    (fun d' => if bool_decide (d' = d) then l else cluster_index r d') (cluster_pool_keys r) (interactions r) (dual_sweeps r).
Definition set_keys (r : Run) (m : gmap nat (LiquidityDirection * dec * nat)) : Run :=
  mkRun (store r) (pools r) (pools_by_identity r) (active_pools r) (clusters r) (cluster_index r) m
    (interactions r) (dual_sweeps r).
Definition add_interaction (r : Run) (e : LiquidityInteraction) : Run :=
  mkRun (store r) (pools r) (pools_by_identity r) (active_pools r) (clusters r) (cluster_index r) (cluster_pool_keys r)
    (interactions r ++ [e]) (dual_sweeps r).
Definition add_dual_sweep (r : Run) (g : DualSweepGroup) : Run :=
  mkRun (store r) (pools r) (pools_by_identity r) (active_pools r) (clusters r) (cluster_index r) (cluster_pool_keys r)
    (interactions r) (dual_sweeps r ++ [g]).

(** [pools.append(pool); pools_by_identity\[pool.pool_id\].append(pool)] *)
Definition archive (r : Run) (id : nat) (pool_id : string) : Run :=
  mkRun (store r) (pools r ++ [id]) (<[pool_id := default [] (pools_by_identity r !! pool_id) ++ [id]]> (pools_by_identity r))
    (active_pools r) (clusters r) (cluster_index r) (cluster_pool_keys r) (interactions r) (dual_sweeps r).
End Run.
Abbreviation Run := Run.Run.

Section run.
Context (timeframe : Timeframe) (candles : list Candle) (config : LiquidityConfig) (atr_result : option ATRResult).

(** [atr_by_confirmation.get(t)] *)
Definition atr_by_confirmation : gmap Z (option dec) :=
  match atr_result with
  | Some atr =>
      foldl (fun m '(candle, point) => <[Candle.timestamp candle + timeframe_duration timeframe := ATRPoint.atr point]> m) ∅
        (zip candles (ATRResult.points atr))
  | None => ∅
  end.
Definition atr_at (t : datetime) : option dec := default None (atr_by_confirmation !! t).

(** [active_pools.update(pool, position)], which stores the reach in the pool. *)
Definition update_active (r : Run) (id : nat) (position : option nat) : pyres Run :=
  match Run.store r !! id with
  | None => Ok r
  | Some pool =>
      '(idx, pool) ← _PoolReachIndex.update config (Run.active_pools r) id pool position;
      Ok (Run.set_active (Run.set_store r (<[id := pool]> (Run.store r))) idx)
  end.

(** The single pool of a swing. *)
Definition consume_single (r : Run) (swing : ConfirmedSwing) (confirmed_bar_index : nat) : pyres Run :=
  single_pool ← _new_single_pool config swing confirmed_bar_index;
  let id := length (Run.store r) in
  let r := Run.archive (Run.set_store r (Run.store r ++ [single_pool])) id (_PoolState.pool_id single_pool) in
  update_active r id (Some (length (Run.pools r) - 1)%nat).

(** [pool not in pools_by_identity\[pool.pool_id\]] *)
Definition archived (r : Run) (id : nat) (pool : _PoolState) : bool :=
  existsb (fun other => bool_decide (other = id)
                        || match Run.store r !! other with Some p => pool_eqb pool p | None => false end)
    (default [] (Run.pools_by_identity r !! _PoolState.pool_id pool)).

(** What becomes of the pool that [_update_cluster_pool] returned. *)
Definition enter_cluster_pool (r : Run) (id : nat) (direction : LiquidityDirection) (anchor : dec) (ordinal : nat) : pyres Run :=
  match Run.store r !! id with
  | None => Ok r
  | Some pool =>
      if negb (archived r id pool) then
        let r := Run.archive r id (_PoolState.pool_id pool) in
        r ← update_active r id (Some (length (Run.pools r) - 1)%nat);
        Ok (Run.set_keys r (<[id := (direction, anchor, ordinal)]> (Run.cluster_pool_keys r)))
      else if _PoolReachIndex.contains (Run.active_pools r) id then update_active r id None
      else Ok r
  end.

(** A swing that matches no cluster starts one. *)
Definition new_cluster (r : Run) (swing : ConfirmedSwing) : Run :=
  let direction := _side_for swing in
  let entries := Run.cluster_index r direction in
  let ordinal := length (Run.clusters r direction) in
  let cluster := _ClusterState.mk_ClusterState direction (ConfirmedSwing.price swing) [swing] false None in
  let position := bisect (fun item => negb (entry_order (ConfirmedSwing.price swing, ordinal) item)) entries 0 (length entries) in
  Run.set_index (Run.set_clusters r direction (Run.clusters r direction ++ [cluster])) direction
    (list_insert_at entries position (ConfirmedSwing.price swing, ordinal)).

Definition join_cluster (r : Run) (swing : ConfirmedSwing) (confirmed_bar_index : nat) (anchor : dec) (ordinal : nat)
    (cluster : _ClusterState) : pyres Run :=
  let direction := _side_for swing in
  match _membership config (_ClusterState.anchor_price cluster) swing (atr_at (ConfirmedSwing.confirmed_at swing)) with
  | None => Raise (Exc "AssertionError" "")
  | Some classification =>
      let cluster :=
        _ClusterState.mk_ClusterState (_ClusterState.direction cluster) (_ClusterState.anchor_price cluster)
          (_ClusterState.members cluster ++ [swing])
          (if bool_decide (classification = LiquidityFormation.RELATIVE_EQUAL) then true
           else _ClusterState.contains_relative_member cluster)
          (_ClusterState.pool cluster) in
      '(store, cluster, pool) ← _update_cluster_pool config (Run.store r) cluster confirmed_bar_index;
      let r := Run.set_clusters (Run.set_store r store) direction (<[ordinal := cluster]> (Run.clusters r direction)) in
      match pool with
      | None => Ok r
      | Some id => enter_cluster_pool r id direction anchor ordinal
      end
  end.

Definition consume_swing (r : Run) (swing : ConfirmedSwing) : pyres Run :=
  match close_to_index timeframe candles !! ConfirmedSwing.confirmed_at swing with
  | None => Raise (LiquidityInputError "swing confirmed_at must align with a candle close")
  | Some confirmed_bar_index =>
      r ← (if LiquidityConfig.liquidity_include_single_swing_pools config then consume_single r swing confirmed_bar_index
           else Ok r);
      let direction := _side_for swing in
      match _matching_cluster_entry config (Run.cluster_index r direction) swing (atr_at (ConfirmedSwing.confirmed_at swing)) with
      | None => Ok (new_cluster r swing)
      | Some (anchor, ordinal) =>
          match Run.clusters r direction !! ordinal with
          | None => Ok r
          | Some cluster => join_cluster r swing confirmed_bar_index anchor ordinal cluster
          end
      end
  end.

(** [while swing_index < len(usable_swings) and ...confirmed_at <= t] *)
Fixpoint consume_until (t : datetime) (r : Run) (swings : list ConfirmedSwing) : pyres (Run * list ConfirmedSwing) :=
  match swings with
  | swing :: rest =>
      if ConfirmedSwing.confirmed_at swing <=? t then
        r ← consume_swing r swing;
        consume_until t r rest
      else Ok (r, swings)
  | [] => Ok (r, [])
  end.

(** The removal of a pool that ended from the index, and of its cluster. *)
Definition retire (r : Run) (id : nat) (pool : _PoolState) : pyres Run :=
  idx ← _PoolReachIndex.discard (Run.active_pools r) id (_PoolState.direction pool);
  let r := Run.set_active r idx in
  match Run.cluster_pool_keys r !! id with
  | None => Ok r
  | Some (direction, anchor, ordinal) =>
      let r := Run.set_keys r (delete id (Run.cluster_pool_keys r)) in
      let entries := Run.cluster_index r direction in
      let position := bisect (fun item => entry_order item (anchor, ordinal)) entries 0 (length entries) in
      if (length entries <=? position)%nat then Raise (Exc "IndexError" "pop index out of range")
      else Ok (Run.set_index r direction (list_pop_at entries position))
  end.

(** One pool on one bar. *)
Definition pool_step (bar_index : nat) (candle : Candle) (confirmed_at : datetime)
    (st : Run * list LiquidityInteraction) (item : nat * bool) : pyres (Run * list LiquidityInteraction) :=
  let '(r, bar_events) := st in
  let '(id, reachable) := item in
  match Run.store r !! id with
  | None => Ok st
  | Some pool =>
      '(pool, event) ← (if reachable then _process_interaction config pool candle confirmed_at else Ok (pool, None));
      let '(r, bar_events) :=
        match event with
        | Some e => (Run.add_interaction r e, bar_events ++ [e])
        | None => (r, bar_events)
        end in
      pool ← expire config pool bar_index confirmed_at;
      let r := Run.set_store r (<[id := pool]> (Run.store r)) in
      if _PoolState.terminal pool then
        r ← retire r id pool;
        Ok (r, bar_events)
      else Ok (r, bar_events)
  end.

Definition sweeps_of (direction : LiquidityDirection) (bar_events : list LiquidityInteraction) : list string :=
  map LiquidityInteraction.event_id
    (List.filter (fun event => bool_decide (LiquidityInteraction.type event = LiquidityInteractionType.SWEEP)
                               && bool_decide (LiquidityInteraction.direction event = direction)) bar_events).

Definition group_sweeps (r : Run) (candle : Candle) (confirmed_at : datetime) (bar_events : list LiquidityInteraction) : Run :=
  let buy_sweeps := sweeps_of LiquidityDirection.BUY_SIDE bar_events in
  let sell_sweeps := sweeps_of LiquidityDirection.SELL_SIDE bar_events in
  if negb (bool_decide (buy_sweeps = [])) && negb (bool_decide (sell_sweeps = [])) then
    Run.add_dual_sweep r
      (DualSweepGroup.mkDualSweepGroup ("LIQ:DUAL_SWEEP:" +:+ isoformat (Candle.timestamp candle)) (Candle.timestamp candle)
         confirmed_at buy_sweeps sell_sweeps)
  else r.

Definition bar_step (st : Run * list ConfirmedSwing) (item : nat * Candle) : pyres (Run * list ConfirmedSwing) :=
  let '(r, swings) := st in
  let '(bar_index, candle) := item in
  '(r, swings) ← consume_until (Candle.timestamp candle) r swings;
  let confirmed_at := Candle.timestamp candle + timeframe_duration timeframe in
  let '(chosen, idx) := _PoolReachIndex.selected (Run.active_pools r) candle bar_index in
  '(r, bar_events) ← py_fold (pool_step bar_index candle confirmed_at) (Run.set_active r idx, []) chosen;
  consume_until confirmed_at (group_sweeps r candle confirmed_at bar_events) swings.
End run.

Definition _to_schema (pool : _PoolState) : pyres LiquidityPool :=
  validated LiquidityPool.validate_pool
    (LiquidityPool.mkLiquidityPool (_PoolState.pool_id pool)
      (_event_type (_PoolState.direction pool) (_PoolState.formation pool)) (_PoolState.direction pool)
      (_PoolState.formation pool) (_PoolState.level pool) (_PoolState.lower_bound pool) (_PoolState.upper_bound pool)
      (_PoolState.state pool) (_PoolState.terminal_reason pool) (_PoolState.created_at pool) (_PoolState.created_at pool)
      (_PoolState.updated_at pool) (_PoolState.swept_at pool) (_PoolState.confirmation pool)
      (_PoolState.source_structure pool) (_PoolState.source_prices pool) (_PoolState.source_pivot_timestamps pool)
      (_PoolState.members_available_at pool) (_PoolState.interactions pool) (_PoolState.history pool)).

Definition analyze_liquidity (candles : list Candle) (timeframe : Timeframe) (confirmed_swings : list ConfirmedSwing)
    (config : LiquidityConfig) (atr_result : option ATRResult) : pyres LiquidityAnalysisResult :=
  _ ← _validate_inputs candles timeframe confirmed_swings config atr_result;
  match data_cutoff_at candles timeframe with
  | None =>
      Ok (LiquidityAnalysisResult.mkLiquidityAnalysisResult timeframe config 0 None [] [] [])
  | Some cutoff =>
      let usable_swings := List.filter (fun swing => ConfirmedSwing.confirmed_at swing <=? cutoff) confirmed_swings in
      '(r, _) ← py_fold (bar_step timeframe candles config atr_result) (Run.init, usable_swings) (enumerate candles);
      pools ← py_map _to_schema (omap (fun id => Run.store r !! id) (Run.pools r));
      Ok (LiquidityAnalysisResult.mkLiquidityAnalysisResult timeframe config (length candles) (Some cutoff) pools
            (Run.interactions r) (Run.dual_sweeps r))
  end.
