(* ===== verification/LiquiditySpec.v ===== *)
(** What the liquidity engine computes, without the structures that make it
    fast: a book of pools and clusters, no index of prices, no index of
    clusters, no heap of ages. A swing joins the first cluster, in the order of
    creation, that it matches and whose pool has not ended; a bar visits every
    pool. *)
From Stdlib Require Import ZArith Lia.
From stdpp Require Import base list strings numbers sets gmap.
From S2P Require Import Prelude Decimal Time Candle Indicators Structure Engine LiquidityTypes.
From S2P Require Import Liquidity.
Local Open Scope Z_scope.

Module Book.
Record Book := mkBook {
  store : list _PoolState;
  pools : list nat;
  clusters : LiquidityDirection -> list _ClusterState;
  interactions : list LiquidityInteraction;
  dual_sweeps : list DualSweepGroup
}.
Definition init : Book := mkBook [] [] (fun _ => []) [] [].
Definition set_store (b : Book) (l : list _PoolState) : Book :=
  mkBook l (pools b) (clusters b) (interactions b) (dual_sweeps b).
Definition archive (b : Book) (id : nat) : Book :=
  mkBook (store b) (pools b ++ [id]) (clusters b) (interactions b) (dual_sweeps b).
Definition set_clusters (b : Book) (d : LiquidityDirection) (l : list _ClusterState) : Book :=
  mkBook (store b) (pools b) (fun d' => if bool_decide (d' = d) then l else clusters b d') (interactions b) (dual_sweeps b).
Definition add_interactions (b : Book) (l : list LiquidityInteraction) : Book :=
  mkBook (store b) (pools b) (clusters b) (interactions b ++ l) (dual_sweeps b).
Definition add_dual_sweeps (b : Book) (l : list DualSweepGroup) : Book :=
  mkBook (store b) (pools b) (clusters b) (interactions b) (dual_sweeps b ++ l).
End Book.
Abbreviation Book := Book.Book.

Section spec.
Context (timeframe : Timeframe) (candles : list Candle) (config : LiquidityConfig) (atr_result : option ATRResult).

(** A cluster takes members until the pool it has ends. *)
Definition live (store : list _PoolState) (cluster : _ClusterState) : bool :=
  match _ClusterState.pool cluster with
  | None => true
  | Some id => match store !! id with Some pool => negb (_PoolState.terminal pool) | None => true end
  end.

Definition matches (swing : ConfirmedSwing) (atr : option dec) (anchor_price : dec) : bool :=
  negb (bool_decide (_membership config anchor_price swing atr = None)).

Definition matching_cluster (b : Book) (swing : ConfirmedSwing) (atr : option dec) : option (nat * _ClusterState) :=
  list_find (fun cluster => live (Book.store b) cluster && matches swing atr (_ClusterState.anchor_price cluster) = true)
    (Book.clusters b (_side_for swing)).

(** The pool is archived, itself or one equal to it. *)
Definition known (b : Book) (id : nat) (pool : _PoolState) : bool :=
  existsb (fun other => bool_decide (other = id)
                        || match Book.store b !! other with Some p => pool_eqb pool p | None => false end) (Book.pools b).

Definition archive_new (b : Book) (id : nat) : Book :=
  match Book.store b !! id with
  | Some pool => if known b id pool then b else Book.archive b id
  | None => b
  end.

Definition with_member (cluster : _ClusterState) (swing : ConfirmedSwing) (relative : bool) : _ClusterState :=
  _ClusterState.mk_ClusterState (_ClusterState.direction cluster) (_ClusterState.anchor_price cluster)
    (_ClusterState.members cluster ++ [swing]) (relative || _ClusterState.contains_relative_member cluster)
    (_ClusterState.pool cluster).

Definition spec_swing (b : Book) (swing : ConfirmedSwing) : pyres Book :=
  match close_to_index timeframe candles !! ConfirmedSwing.confirmed_at swing with
  | None => Raise (LiquidityInputError "swing confirmed_at must align with a candle close")
  | Some confirmed_bar_index =>
      b ← (if LiquidityConfig.liquidity_include_single_swing_pools config then
             pool ← _new_single_pool config swing confirmed_bar_index;
             Ok (Book.archive (Book.set_store b (Book.store b ++ [pool])) (length (Book.store b)))
           else Ok b);
      let side := _side_for swing in
      let atr := atr_at timeframe candles atr_result (ConfirmedSwing.confirmed_at swing) in
      match matching_cluster b swing atr with
      | None =>
          Ok (Book.set_clusters b side (Book.clusters b side
                ++ [_ClusterState.mk_ClusterState side (ConfirmedSwing.price swing) [swing] false None]))
      | Some (ordinal, cluster) =>
          let relative := bool_decide (_membership config (_ClusterState.anchor_price cluster) swing atr
                                       = Some LiquidityFormation.RELATIVE_EQUAL) in
          '(store, cluster, pool) ← _update_cluster_pool config (Book.store b) (with_member cluster swing relative) confirmed_bar_index;
          let b := Book.set_clusters (Book.set_store b store) side (<[ordinal := cluster]> (Book.clusters b side)) in
          Ok match pool with Some id => archive_new b id | None => b end
      end
  end.

Fixpoint spec_swings (t : datetime) (b : Book) (swings : list ConfirmedSwing) : pyres (Book * list ConfirmedSwing) :=
  match swings with
  | swing :: rest =>
      if ConfirmedSwing.confirmed_at swing <=? t then b ← spec_swing b swing; spec_swings t b rest else Ok (b, swings)
  | [] => Ok (b, [])
  end.

(** One pool on one bar: the interaction, then the expiry. *)
Definition spec_pool (bar_index : nat) (candle : Candle) (confirmed_at : datetime)
    (st : Book * list LiquidityInteraction) (id : nat) : pyres (Book * list LiquidityInteraction) :=
  let '(b, bar_events) := st in
  match Book.store b !! id with
  | None => Ok st
  | Some pool =>
      '(pool, event) ← _process_interaction config pool candle confirmed_at;
      pool ← expire config pool bar_index confirmed_at;
      let events := match event with Some e => [e] | None => [] end in
      Ok (Book.add_interactions (Book.set_store b (<[id := pool]> (Book.store b))) events, bar_events ++ events)
  end.

Definition dual_sweeps_of (candle : Candle) (confirmed_at : datetime) (bar_events : list LiquidityInteraction)
    : list DualSweepGroup :=
  let buy_sweeps := sweeps_of LiquidityDirection.BUY_SIDE bar_events in
  let sell_sweeps := sweeps_of LiquidityDirection.SELL_SIDE bar_events in
  if negb (bool_decide (buy_sweeps = [])) && negb (bool_decide (sell_sweeps = [])) then
    [DualSweepGroup.mkDualSweepGroup ("LIQ:DUAL_SWEEP:" +:+ isoformat (Candle.timestamp candle)) (Candle.timestamp candle)
       confirmed_at buy_sweeps sell_sweeps]
  else [].

Definition spec_bar (st : Book * list ConfirmedSwing) (item : nat * Candle) : pyres (Book * list ConfirmedSwing) :=
  let '(b, swings) := st in
  let '(bar_index, candle) := item in
  '(b, swings) ← spec_swings (Candle.timestamp candle) b swings;
  let confirmed_at := Candle.timestamp candle + timeframe_duration timeframe in
  '(b, bar_events) ← py_fold (spec_pool bar_index candle confirmed_at) (b, []) (Book.pools b);
  spec_swings confirmed_at (Book.add_dual_sweeps b (dual_sweeps_of candle confirmed_at bar_events)) swings.
End spec.

Definition liquidity_spec (candles : list Candle) (timeframe : Timeframe) (confirmed_swings : list ConfirmedSwing)
    (config : LiquidityConfig) (atr_result : option ATRResult) : pyres LiquidityAnalysisResult :=
  _ ← _validate_inputs candles timeframe confirmed_swings config atr_result;
  match data_cutoff_at candles timeframe with
  | None => Ok (LiquidityAnalysisResult.mkLiquidityAnalysisResult timeframe config 0 None [] [] [])
  | Some cutoff =>
      let usable_swings := List.filter (fun swing => ConfirmedSwing.confirmed_at swing <=? cutoff) confirmed_swings in
      '(b, _) ← py_fold (spec_bar timeframe candles config atr_result) (Book.init, usable_swings) (enumerate candles);
      pools ← py_map _to_schema (omap (fun id => Book.store b !! id) (Book.pools b));
      Ok (LiquidityAnalysisResult.mkLiquidityAnalysisResult timeframe config (length candles) (Some cutoff) pools
            (Book.interactions b) (Book.dual_sweeps b))
  end.
