(* ===== verification/LiquidityIndex.v ===== *)
(** The two indexes of the liquidity engine against plain scans: the sorted
    clusters, searched for the interval that matches a swing, and the sorted
    prices and ages that choose the pools a bar may concern. *)
From Stdlib Require Import ZArith QArith Qabs Lia Lqa Sorting.Sorted Sorting.Permutation.
From stdpp Require Import base list strings numbers sets gmap sorting.
From S2P Require Import Prelude SortedIndex Decimal Time Candle Indicators Structure Engine LiquidityTypes.
From S2P Require Import Liquidity LiquiditySpec.
Local Open Scope Z_scope.

#[export] Instance entry_order_sw : StrictWeak entry_order.
Proof. apply lex_lt_sw; apply on_key_sw; typeclasses eauto. Qed.
#[export] Instance price_order_sw : StrictWeak _PoolReachIndex.price_order.
Proof. apply lex_lt_sw; apply on_key_sw; typeclasses eauto. Qed.
#[export] Instance age_order_sw : StrictWeak _PoolReachIndex.age_order.
Proof. apply lex_lt_sw; apply on_key_sw; typeclasses eauto. Qed.

(** The keys of a table by price and ordinal have increasing prices. *)
Lemma lex_table_prices {A} (price : A -> dec) (ordinal : A -> nat) (l : list A) i j x y :
  table (lex_lt (on_key price dltb) (on_key ordinal Nat.ltb)) l -> (i <= j)%nat ->
  l !! i = Some x -> l !! j = Some y -> dltb (price y) (price x) = false.
Proof.
  intros Hl Hij Hi Hj. destruct (decide (i = j)) as [->|Hne].
  - assert (x = y) as -> by congruence. apply sw_irrefl. typeclasses eauto.
  - assert (StrictWeak (lex_lt (on_key price dltb) (on_key ordinal Nat.ltb))) by (apply lex_lt_sw; apply on_key_sw; typeclasses eauto).
    pose proof (proj2 (table_lookup _ l i j x y Hl Hi Hj) ltac:(lia)) as H'. unfold lex_lt, on_key in H'.
    destruct (dltb (price x) (price y)) eqn:E; [by apply sw_asym|]. by destruct (dltb (price y) (price x)).
Qed.

(** ** Clusters *)

Section matching.
Context (config : LiquidityConfig) (Htick : dltb (D 0) (LiquidityConfig.tick_size config) = true).

Lemma ddiv_mono_l a a' b : (0 < Qval b)%Q -> (Qval a <= Qval a')%Q ->
  (Qval (ddiv DEFAULT_PREC a b) <= Qval (ddiv DEFAULT_PREC a' b))%Q.
Proof.
  intros Hb Ha. eapply rounds_to_mono; [apply default_prec_valid| |apply ddiv_rounds; lra..].
  apply Qle_shift_div_l; [done|]. field_simplify; [done|lra].
Qed.

Definition distance (swing : ConfirmedSwing) (a : dec) : dec := dabs DEFAULT_PREC (dsub DEFAULT_PREC (ConfirmedSwing.price swing) a).

(** An anchor at least as near as one that matches, matches. *)
Lemma matches_nearer swing atr a a' : (Qval (distance swing a) <= Qval (distance swing a'))%Q ->
  matches config swing atr a' = true -> matches config swing atr a = true.
Proof.
  unfold matches, _membership. fold (distance swing a) (distance swing a'). intros Hd.
  apply dltb_true in Htick. rewrite Qval_D in Htick.
  assert (forall b c, (0 < Qval b)%Q -> dleb (ddiv DEFAULT_PREC (distance swing a') b) c = true ->
    dleb (ddiv DEFAULT_PREC (distance swing a) b) c = true) as Hle.
  { intros b c Hb H. apply dleb_true. apply dleb_true in H. pose proof (ddiv_mono_l _ _ b Hb Hd). lra. }
  destruct (dleb (ddiv DEFAULT_PREC (distance swing a) _) _) eqn:E; [done|].
  destruct (dleb (ddiv DEFAULT_PREC (distance swing a') _) _) eqn:E'.
  - apply Hle in E'; [congruence|done].
  - destruct atr as [atr|]; [|done]. destruct (dltb (D 0) atr) eqn:Ea; [|done]. cbn.
    destruct (dleb (ddiv DEFAULT_PREC (distance swing a') atr) _) eqn:Er; [|done].
    intros _. rewrite (Hle atr _); [done| |done]. apply dltb_true in Ea. by rewrite Qval_D in Ea.
Qed.

Lemma distance_mono swing a a' : (Qval a' <= Qval a)%Q -> (Qval a <= Qval (ConfirmedSwing.price swing))%Q ->
  (Qval (distance swing a) <= Qval (distance swing a'))%Q.
Proof.
  intros H1 H2. eapply rounds_to_mono; [apply default_prec_valid| |apply dabs_rounds..].
  pose proof (dsub_mono (p := DEFAULT_PREC) (ConfirmedSwing.price swing) a (ConfirmedSwing.price swing) a' ltac:(lra) H1).
  pose proof (proj2 (dsub_nonneg (p := DEFAULT_PREC) (ConfirmedSwing.price swing) a) H2). rewrite !Qabs_pos by lra. done.
Qed.

Lemma dsub_nonpos (a b : dec) : (Qval a <= Qval b)%Q -> (Qval (dsub DEFAULT_PREC a b) <= 0)%Q.
Proof. intros H. pose proof (proj1 (dsub_pos (p := DEFAULT_PREC) a b)) as Hp. apply Qnot_lt_le. intros L. apply Hp in L. lra. Qed.

Lemma distance_mono_above swing a a' : (Qval a <= Qval a')%Q -> (Qval (ConfirmedSwing.price swing) <= Qval a)%Q ->
  (Qval (distance swing a) <= Qval (distance swing a'))%Q.
Proof.
  intros H1 H2. eapply rounds_to_mono; [apply default_prec_valid| |apply dabs_rounds..].
  pose proof (dsub_mono (p := DEFAULT_PREC) (ConfirmedSwing.price swing) a' (ConfirmedSwing.price swing) a ltac:(lra) H1).
  pose proof (dsub_nonpos (ConfirmedSwing.price swing) a H2).
  pose proof (dsub_nonpos (ConfirmedSwing.price swing) a' ltac:(lra)). rewrite !Qabs_neg by lra. lra.
Qed.

Lemma matching_searches entries swing atr below m :
  below = (fun item => dltb (fst item) (ConfirmedSwing.price swing)) ->
  m = (fun item => matches config swing atr (fst item)) ->
  _matching_cluster_entry config entries swing atr
  = py_min (on_key snd Nat.ltb)
      (slice entries (bisect (fun x => negb (m x)) entries 0 (bisect below entries 0 (length entries)))
         (bisect m entries (bisect below entries 0 (length entries)) (length entries))).
Proof. intros -> ->. cbv zeta delta [_matching_cluster_entry matches] beta. reflexivity. Qed.

(** The binary searches find the interval of the matches: the matching entry
    is the one of least ordinal among all that match. *)
Lemma matching_entry entries swing atr : table entry_order entries ->
  _matching_cluster_entry config entries swing atr
  = py_min (on_key snd Nat.ltb) (List.filter (fun item => matches config swing atr (fst item)) entries).
Proof.
  intros Ht. rewrite (matching_searches _ _ _ _ _ eq_refl eq_refl). apply f_equal.
  assert (forall i j x y, (i <= j)%nat -> entries !! i = Some x -> entries !! j = Some y -> (Qval (fst x) <= Qval (fst y))%Q) as Hprice.
  { intros i j x y Hij Hi Hj. apply dltb_false. by apply (lex_table_prices fst snd entries i j). }
  apply (two_searches (fun item : dec * nat => dltb (fst item) (ConfirmedSwing.price swing)) (fun item => matches config swing atr (fst item))).
  - intros i j x y Hij Hi Hj. rewrite !dltb_true. pose proof (Hprice i j x y Hij Hi Hj). lra.
  - intros i j x y Hij Hi Hj Hy%dltb_true. apply matches_nearer, distance_mono; [by apply (Hprice i j)|lra].
  - intros i j x y Hij Hi Hj Hx%dltb_false. apply matches_nearer, distance_mono_above; [by apply (Hprice i j)|done].
Qed.
End matching.

(** ** Prices and ages *)

Section reach_index.
Import _PoolReachIndex.

Lemma prices_set_prices idx d d' l : prices (set_prices idx d l) d' = if bool_decide (d' = d) then l else prices idx d'.
Proof. by destruct d, d'. Qed.
Lemma current_set_prices idx d l : current (set_prices idx d l) = current idx.
Proof. by destruct d. Qed.
Lemma ages_set_prices idx d l : ages (set_prices idx d l) = ages idx.
Proof. by destruct d. Qed.

Definition price_lt : dec * nat * nat -> dec * nat * nat -> bool := on_key fst price_order.

(** The price tables list what is current, under the direction of the pool;
    positions are those of the archive. *)
Record tables (dirs : nat -> option LiquidityDirection) (pools : list nat) (idx : _PoolReachIndex) : Prop := {
  tb_sorted d : table price_lt (prices idx d);
  tb_entries d reach pos id : (reach, pos, id) ∈ prices idx d <-> current idx !! id = Some (reach, pos) /\ dirs id = Some d;
  tb_current id reach pos : current idx !! id = Some (reach, pos) -> pools !! pos = Some id /\ is_Some (dirs id)
}.

#[local] Instance price_lt_sw : StrictWeak price_lt.
Proof. apply on_key_sw, price_order_sw. Qed.

Lemma tables_weaken dirs dirs' pools pools' idx : (forall id d, dirs id = Some d -> dirs' id = Some d) ->
  (forall pos id, pools !! pos = Some id -> pools' !! pos = Some id) -> tables dirs pools idx -> tables dirs' pools' idx.
Proof.
  intros Hd Hp [H1 H2 H3]. split; [done| |].
  - intros d reach pos id. rewrite H2. split; intros [Hc E]; (split; [done|]); [by apply Hd|].
    destruct (H3 _ _ _ Hc) as [_ [d' Hd']]. rewrite Hd'. apply Hd in Hd'. congruence.
  - intros id reach pos Hc. destruct (H3 _ _ _ Hc) as [Hpos [d Hid]]. split; [auto|]. exists d. auto.
Qed.

Lemma tables_empty dirs pools : tables dirs pools empty.
Proof.
  assert (forall id : nat, (∅ : gmap nat (dec * nat)) !! id = None) as He by (intros; apply lookup_empty).
  split; [intros []; apply SSorted_nil| |].
  - intros d reach pos id. cbn [current empty]. rewrite He. split; [|by intros []].
    intros H. exfalso. destruct d; by apply not_elem_of_nil in H.
  - intros id reach pos H. cbn [current empty] in H. by rewrite He in H.
Qed.

Lemma tables_ages dirs pools idx l : tables dirs pools idx -> tables dirs pools (set_ages idx l).
Proof.
  intros [H1 H2 H3]. split; [intros d; specialize (H1 d); by destruct d|intros d; specialize (H2 d); by destruct d|done].
Qed.

Lemma price_order_total r p r' p' : p <> p' -> price_order (r, p) (r', p') = false -> price_order (r', p') (r, p) = true.
Proof.
  unfold price_order, lex_lt, on_key. cbn [fst snd]. intros Hp. destruct (dltb r r'); [done|].
  destruct (dltb r' r); [done|]. rewrite Nat.ltb_ge, Nat.ltb_lt. lia.
Qed.

Lemma tables_insert dirs pools idx id reach pos d : tables dirs pools idx ->
  current idx !! id = None -> pools !! pos = Some id -> dirs id = Some d ->
  tables dirs pools (set_current (set_prices idx d (insert_price (prices idx d) (reach, pos, id)))
                       (<[id := (reach, pos)]> (current idx))).
Proof.
  intros [H1 H2 H3] Hn Hpos Hd. split.
  - intros d'. change (table price_lt (prices (set_prices idx d (insert_price (prices idx d) (reach, pos, id))) d')).
    rewrite prices_set_prices. case_bool_decide as E; [|done]. subst d'. unfold insert_price.
    apply (insert_at_sorted price_lt); [apply H1|]. intros [[r' p'] id'] Hin. apply H2 in Hin as [Hc _].
    apply price_order_total. intros <-. destruct (H3 _ _ _ Hc) as [Hp _]. congruence.
  - intros d' r p i. change ((r, p, i) ∈ prices (set_prices idx d (insert_price (prices idx d) (reach, pos, id))) d'
      <-> <[id := (reach, pos)]> (current idx) !! i = Some (r, p) /\ dirs i = Some d').
    rewrite prices_set_prices. rewrite lookup_insert_Some. case_bool_decide as E.
    + subst d'. unfold insert_price. rewrite (elem_of_Permutation_proper _ _ _ (list_insert_at_Permutation _ _ _)), elem_of_cons, H2.
      split; [intros [[= -> -> ->]|[Hc Hdi]]; [auto|]|].
      * split; [|done]. right. split; [|done]. intros <-. congruence.
      * intros [[[<- [= -> ->]]|[_ Hc]] Hdi]; [by left|by right].
    + rewrite H2. split; intros [Hc Hdi]; (split; [|done]).
      * right. split; [|done]. intros <-. congruence.
      * destruct Hc as [[<- _]|[_ Hc]]; [congruence|done].
  - intros i r p. change (<[id := (reach, pos)]> (current idx) !! i = Some (r, p) -> pools !! p = Some i /\ is_Some (dirs i)).
    rewrite lookup_insert_Some. intros [[<- [= <- <-]]|[_ Hc]]; [split; [done|by exists d]|by apply (H3 _ r)].
Qed.

Lemma discard_ok dirs pools idx id d old : tables dirs pools idx -> current idx !! id = Some old -> dirs id = Some d ->
  exists idx', discard idx id d = Ok idx' /\ tables dirs pools idx' /\ current idx' = delete id (current idx) /\ ages idx' = ages idx.
Proof.
  intros [H1 H2 H3] Hc Hd. destruct old as [reach pos].
  assert ((reach, pos, id) ∈ prices idx d) as Hin by (by apply H2).
  destruct (table_pop price_lt (prices idx d) (reach, pos, id) (H1 d) Hin) as (Hlt & Ht & Hel & _).
  unfold discard. rewrite Hc.
  change (fun item : dec * nat * nat => price_order (fst item) (reach, pos)) with (fun y => price_lt y (reach, pos, id)).
  set (at_ := bisect _ _ _ _) in *. destruct (Nat.leb_spec (length (prices idx d)) at_) as [Hle|_]; [lia|].
  eexists. split; [reflexivity|]. split; [|by rewrite current_set_prices, ages_set_prices]. split.
  - intros d'. rewrite prices_set_prices. case_bool_decide; [done|]. apply H1.
  - intros d' r p i. rewrite prices_set_prices, current_set_prices.
    change (current (set_current idx (delete id (current idx)))) with (delete id (current idx)). rewrite lookup_delete_Some.
    case_bool_decide as E.
    + subst d'. rewrite Hel, H2. split; [intros [[Hci Hdi] Hne]|intros [[Hne Hci] Hdi]]; (split; [|done || congruence]); [|done].
      split; [|done]. intros <-. apply Hne. congruence.
    + change (prices (set_current idx (delete id (current idx))) d') with (prices idx d'). rewrite H2.
      split; [intros [Hci Hdi]|intros [[_ Hci] Hdi]]; [|done]. split; [|done]. split; [|done]. intros <-. congruence.
  - intros i r p. rewrite current_set_prices.
    change (current (set_current idx (delete id (current idx)))) with (delete id (current idx)). rewrite lookup_delete_Some.
    intros [_ Hci]. by apply (H3 _ r).
Qed.
(** *** The ages that are due *)

Definition age_of (e : Z * nat * nat) : Z := fst (fst e).
Definition due_in (l : list (Z * nat * nat)) (bar_index id : nat) : bool :=
  existsb (fun e => (age_of e <=? Z.of_nat bar_index) && (snd e =? id)%nat) l.

Lemma later_not_due l bar id : Forall (fun e => Z.of_nat bar < age_of e) l -> due_in l bar id = false.
Proof.
  induction 1 as [|e l He _ IH]; [done|]. cbn. rewrite (proj2 (Z.leb_gt _ _) He). exact IH.
Qed.

Lemma ages_ordered_cons e l : ordered age_order (e :: l) -> ordered age_order l /\ Forall (fun e' => age_of e <= age_of e') l.
Proof.
  intros H. apply StronglySorted_inv in H as [Hl He]. split; [done|]. eapply List.Forall_impl; [|exact He].
  intros e' H'. cbn in H'. unfold age_order, lex_lt, on_key in H'. unfold age_of.
  destruct (Z.ltb_spec (fst (fst e')) (fst (fst e))); [done|lia].
Qed.

Lemma due_step (m : gmap nat (dec * nat)) l bar age position i chosen (x : nat * (nat * bool)) : age <= Z.of_nat bar ->
  let chosen' := match m !! i with Some (_, pos) => if bool_decide (i ∈ map fst chosen) then chosen else chosen ++ [(i, (pos, false))] | None => chosen end in
  (x ∈ chosen' \/ (exists id (reach : dec) pos, x = (id, (pos, false)) /\ (id ∉ map fst chosen') /\ m !! id = Some (reach, pos) /\ due_in l bar id = true))
  <-> (x ∈ chosen \/ exists id (reach : dec) pos, x = (id, (pos, false)) /\ (id ∉ map fst chosen) /\ m !! id = Some (reach, pos)
         /\ due_in ((age, position, i) :: l) bar id = true).
Proof.
  intros Hle chosen'. assert (forall id, due_in ((age, position, i) :: l) bar id = true <-> i = id \/ due_in l bar id = true) as Hd.
  { intros id. unfold due_in. cbn [existsb age_of fst snd]. rewrite orb_true_iff, andb_true_iff, Nat.eqb_eq. change (age_of (age, position, i)) with age. rewrite Z.leb_le. tauto. }
  setoid_rewrite Hd. clear Hd. subst chosen'. destruct (m !! i) as [[r p]|] eqn:Em.
  - case_bool_decide as Hi.
    + split; [naive_solver|]. intros [H|(id & r' & p' & -> & Hn & Hm & [<-|H])]; naive_solver.
    + rewrite elem_of_app, list_elem_of_singleton. rewrite map_app. setoid_rewrite not_elem_of_app. cbn [map fst].
      setoid_rewrite not_elem_of_cons. split.
      * intros [[H| ->]|(id & r' & p' & -> & [Hn _] & Hm & H)]; [by left| |right; by exists id, r', p'; auto].
        right. exists i, r, p. auto.
      * intros [H|(id & r' & p' & -> & Hn & Hm & H)]; [by left; left|]. destruct (decide (id = i)) as [->|Hne].
        -- left. right. congruence.
        -- right. exists id, r', p'. split_and!; try done; [apply not_elem_of_nil|]. destruct H; congruence.
  - split; [naive_solver|]. intros [H|(id & r' & p' & -> & Hn & Hm & [<-|H])]; naive_solver.
Qed.

Lemma due_spec (m : gmap nat (dec * nat)) l bar chosen : ordered age_order l -> NoDup (map fst chosen) ->
  let '(out, rest) := due m l bar chosen in
  NoDup (map fst out)
  /\ (forall x, x ∈ out <-> x ∈ chosen
        \/ exists id reach pos, x = (id, (pos, false)) /\ (id ∉ map fst chosen) /\ m !! id = Some (reach, pos) /\ due_in l bar id = true)
  /\ (forall e, e ∈ rest <-> e ∈ l /\ Z.of_nat bar < age_of e) /\ ordered age_order rest.
Proof.
  revert chosen. induction l as [|[[age position] i] l IH]; intros chosen Ho Hn.
  - cbn [due]. split; [done|]. split; [|split; [|done]].
    + intros x. split; [auto|]. intros [H|(?&?&?&_&_&_&[=])]; done.
    + intros e. split; [intros H%not_elem_of_nil; done|tauto].
  - destruct (ages_ordered_cons _ _ Ho) as [Ho' Hge]. cbn [due]. destruct (Z.leb_spec age (Z.of_nat bar)) as [Hle|Hgt].
    + set (chosen' := match m !! i with Some (_, pos) => if bool_decide (i ∈ map fst chosen) then chosen else chosen ++ [(i, (pos, false))] | None => chosen end).
      assert (NoDup (map fst chosen')) as Hn'.
      { subst chosen'. destruct (m !! i) as [[r p]|]; [|done]. case_bool_decide; [done|]. rewrite map_app.
        apply NoDup_app. split; [done|]. split; [|apply NoDup_singleton]. intros x Hx ->%list_elem_of_singleton. done. }
      specialize (IH chosen' Ho' Hn'). destruct (due m l bar chosen') as [out rest]. destruct IH as (I1 & I2 & I3 & I4).
      split; [done|]. split; [|split; [|done]].
      * intros x. rewrite I2. apply (due_step m l bar age position i chosen x Hle).
      * intros e. rewrite I3, elem_of_cons. split; [intros []; split; [by right|done]|]. intros [[->|H] Hlt]; [cbn in Hlt; lia|done].
    + assert (Forall (fun e => Z.of_nat bar < age_of e) ((age, position, i) :: l)) as Hall.
      { constructor; [done|]. eapply Forall_impl; [exact Hge|]. unfold age_of. cbn. lia. }
      split; [done|]. split; [|split; [|done]].
      * intros x. split; [auto|]. intros [H|(?&?&?&_&_&_&H)]; [done|]. by rewrite later_not_due in H.
      * intros e. rewrite Forall_forall in Hall. split; [intros H; split; [done|by apply Hall]|tauto].
Qed.
(** *** What is selected *)

Definition within (d : LiquidityDirection) (reach : dec) (candle : Candle) : bool :=
  match d with
  | LiquidityDirection.BUY_SIDE => negb (dltb (Candle.high candle) reach)
  | LiquidityDirection.SELL_SIDE => negb (dltb reach (Candle.low candle))
  end.

(** Whether a pool is visited on a bar, and whether as reachable. *)
Definition choice (dirs : nat -> option LiquidityDirection) (idx : _PoolReachIndex) (candle : Candle) (bar_index id : nat) : option bool :=
  match current idx !! id, dirs id with
  | Some (reach, _), Some d =>
      if within d reach candle then Some true else if due_in (ages idx) bar_index id then Some false else None
  | _, _ => None
  end.

Lemma elem_of_filter_bool {A} (p : A -> bool) l x : x ∈ List.filter p l <-> x ∈ l /\ p x = true.
Proof. rewrite !list_elem_of_In. apply filter_In. Qed.

Section selected.
Context (dirs : nat -> option LiquidityDirection) (pools : list nat) (idx : _PoolReachIndex) (candle : Candle) (bar_index : nat).
Context (Ht : tables dirs pools idx) (Hnd : NoDup pools).

Definition reached : list (dec * nat * nat) :=
  take (bisect (fun item => negb (dltb (Candle.high candle) (fst (fst item)))) (buy_prices idx) 0 (length (buy_prices idx))) (buy_prices idx)
  ++ drop (bisect (fun item => dltb (fst (fst item)) (Candle.low candle)) (sell_prices idx) 0 (length (sell_prices idx))) (sell_prices idx).

Lemma reached_filters : reached
  = List.filter (fun item => within LiquidityDirection.BUY_SIDE (fst (fst item)) candle) (buy_prices idx)
    ++ List.filter (fun item => within LiquidityDirection.SELL_SIDE (fst (fst item)) candle) (sell_prices idx).
Proof.
  unfold reached.
  destruct (table_split (fun item : dec * nat * nat => negb (dltb (Candle.high candle) (fst (fst item)))) (buy_prices idx)) as [-> _].
  { intros i j x y Hij Hi Hj. rewrite !negb_true_iff, !dltb_false.
    pose proof (lex_table_prices (fun e : dec * nat * nat => fst (fst e)) (fun e => snd (fst e)) (buy_prices idx) i j x y
      (tb_sorted _ _ _ Ht LiquidityDirection.BUY_SIDE) Hij Hi Hj) as H. apply dltb_false in H. lra. }
  destruct (table_split (fun item : dec * nat * nat => dltb (fst (fst item)) (Candle.low candle)) (sell_prices idx)) as [_ ->]; [|done].
  intros i j x y Hij Hi Hj. rewrite !dltb_true.
  pose proof (lex_table_prices (fun e : dec * nat * nat => fst (fst e)) (fun e => snd (fst e)) (sell_prices idx) i j x y
    (tb_sorted _ _ _ Ht LiquidityDirection.SELL_SIDE) Hij Hi Hj) as H. apply dltb_false in H. lra.
Qed.

Lemma elem_of_reached reach pos id : (reach, pos, id) ∈ reached <->
  current idx !! id = Some (reach, pos) /\ exists d, dirs id = Some d /\ within d reach candle = true.
Proof.
  rewrite reached_filters, elem_of_app, !elem_of_filter_bool. cbn [fst].
  change (buy_prices idx) with (prices idx LiquidityDirection.BUY_SIDE).
  change (sell_prices idx) with (prices idx LiquidityDirection.SELL_SIDE). rewrite !(tb_entries _ _ _ Ht). split.
  - intros [[[Hc Hd] Hw]|[[Hc Hd] Hw]]; eauto.
  - intros [Hc ([] & Hd & Hw)]; [left|right]; auto.
Qed.

Lemma reached_ids : NoDup (map snd reached).
Proof.
  apply NoDup_fmap_2_strong.
  - intros [[r p] i] [[r' p'] i'] [H1 _]%elem_of_reached [H2 _]%elem_of_reached E. cbn in E. subst i'. congruence.
  - rewrite reached_filters. apply NoDup_app. split_and!.
    + apply NoDup_ListNoDup, List.NoDup_filter, NoDup_ListNoDup.
      apply (table_NoDup price_lt), (tb_sorted _ _ _ Ht LiquidityDirection.BUY_SIDE).
    + intros [[r p] i] [H1 _]%elem_of_filter_bool [H2 _]%elem_of_filter_bool.
      apply (tb_entries _ _ _ Ht LiquidityDirection.BUY_SIDE) in H1 as [_ H1].
      apply (tb_entries _ _ _ Ht LiquidityDirection.SELL_SIDE) in H2 as [_ H2]. congruence.
    + apply NoDup_ListNoDup, List.NoDup_filter, NoDup_ListNoDup.
      apply (table_NoDup price_lt), (tb_sorted _ _ _ Ht LiquidityDirection.SELL_SIDE).
Qed.

Definition chosen0 : list (nat * (nat * bool)) := map (fun '(_, position, id) => (id, (position, true))) reached.

Lemma chosen0_ids : map fst chosen0 = map snd reached.
Proof. unfold chosen0. rewrite map_map. apply map_ext. by intros [[r p] i]. Qed.

Lemma elem_of_chosen0 id pos b : (id, (pos, b)) ∈ chosen0 <->
  b = true /\ exists reach d, current idx !! id = Some (reach, pos) /\ dirs id = Some d /\ within d reach candle = true.
Proof.
  unfold chosen0. rewrite list_elem_of_fmap. split.
  - intros ([[r p] i] & [= -> -> ->] & [Hc (d & Hd & Hw)]%elem_of_reached). split; [done|]. by exists r, d.
  - intros (-> & r & d & Hc & Hd & Hw). exists (r, pos, id). split; [done|]. apply elem_of_reached. eauto.
Qed.

(** The chosen pools with their positions, before sorting and after. *)
Definition chosen_all : list (nat * (nat * bool)) := fst (due (current idx) (ages idx) bar_index chosen0).

Lemma elem_of_chosen_all id pos b : ordered age_order (ages idx) ->
  (id, (pos, b)) ∈ chosen_all <-> pools !! pos = Some id /\ choice dirs idx candle bar_index id = Some b.
Proof.
  intros Ho. unfold chosen_all. pose proof (due_spec (current idx) (ages idx) bar_index chosen0 Ho) as Hs.
  rewrite chosen0_ids in Hs. specialize (Hs reached_ids). destruct (due _ _ _ _) as [out rest]. cbn [fst].
  destruct Hs as (_ & Hin & _). rewrite Hin, elem_of_chosen0. clear Hin. unfold choice.
  assert (forall i, i ∈ map snd reached <-> exists r p d, current idx !! i = Some (r, p) /\ dirs i = Some d /\ within d r candle = true) as Hr.
  { intros i. rewrite list_elem_of_fmap. split.
    - intros ([[r p] i'] & -> & [Hc (d & Hd & Hw)]%elem_of_reached). eauto 6.
    - intros (r & p & d & Hc & Hd & Hw). exists (r, p, i). split; [done|]. apply elem_of_reached. eauto. }
  split.
  - intros [(-> & r & d & Hc & Hd & Hw)|(i & r & p & [= -> -> ->] & Hn & Hc & Hdue)].
    + rewrite Hc, Hd, Hw. split; [|done]. by apply (tb_current _ _ _ Ht id r).
    + destruct (tb_current _ _ _ Ht _ _ _ Hc) as [Hp [d Hd]]. rewrite Hc, Hd. split; [done|].
      destruct (within d r candle) eqn:Hw; [|by rewrite Hdue]. exfalso. apply Hn, Hr. eauto 6.
  - intros [Hp Hc]. destruct (current idx !! id) as [[r p]|] eqn:E; [|done]. destruct (dirs id) as [d|] eqn:Hd; [|done].
    assert (p = pos) as -> by (eapply NoDup_lookup; [exact Hnd|by apply (tb_current _ _ _ Ht id r)|done]).
    destruct (within d r candle) eqn:Hw; [left; naive_solver|]. destruct (due_in (ages idx) bar_index id) eqn:Hdue; [|done].
    right. injection Hc as <-. exists id, r, pos. split_and!; try done.
    rewrite Hr. intros (r' & p' & d' & Hc' & Hd' & Hw'). congruence.
Qed.

Lemma chosen_all_NoDup : ordered age_order (ages idx) -> NoDup chosen_all.
Proof.
  intros Ho. unfold chosen_all. pose proof (due_spec (current idx) (ages idx) bar_index chosen0 Ho) as Hs.
  rewrite chosen0_ids in Hs. specialize (Hs reached_ids). destruct (due _ _ _ _) as [out rest]. cbn [fst].
  destruct Hs as (Hn & _). by apply NoDup_fmap_1 in Hn.
Qed.
Definition chosen_entry (e : nat * nat) : option (nat * (nat * bool)) :=
  (fun b => (snd e, (fst e, b))) <$> choice dirs idx candle bar_index (snd e).

Lemma chosen_sorted : ordered age_order (ages idx) ->
  sort_by (on_key (fun item => fst (snd item)) Nat.ltb) chosen_all = omap chosen_entry (enumerate pools).
Proof.
  intros Ho. set (R := fun x y : nat * (nat * bool) => on_key (fun item => fst (snd item)) Nat.ltb y x = false).
  assert (StronglySorted (fun x y : nat * (nat * bool) => (fst (snd x) < fst (snd y))%nat) (omap chosen_entry (enumerate pools))) as Hs.
  { apply (omap_enumerate_sorted chosen_entry (fun x : nat * (nat * bool) => fst (snd x))). intros i x y. unfold chosen_entry. cbn [fst snd].
    destruct (choice _ _ _ _ x); [|done]. by intros [= <-]. }
  assert (forall x, x ∈ sort_by (on_key (fun item => fst (snd item)) Nat.ltb) chosen_all <-> x ∈ omap chosen_entry (enumerate pools)) as Hin.
  { intros [i [p b]]. rewrite elem_of_sort_by, elem_of_chosen_all by done. rewrite list_elem_of_omap. split.
    - intros [Hp Hc]. exists (p, i). split; [by apply elem_of_enumerate|]. unfold chosen_entry. cbn [fst snd]. by rewrite Hc.
    - intros ([p' i'] & He%elem_of_enumerate & Hf). unfold chosen_entry in Hf. cbn [fst snd] in Hf.
      destruct (choice dirs idx candle bar_index i') eqn:E; [|done]. injection Hf as <- <- <-. done. }
  apply (StronglySorted_unique_strong R).
  - intros [i [p b]] [i' [p' b']] H1 H2 R1%Nat.ltb_ge R2%Nat.ltb_ge. cbn in R1, R2. assert (p' = p) as -> by lia.
    apply Hin in H2. rewrite elem_of_sort_by in H1, H2. apply elem_of_chosen_all in H1 as [H1 C1]; [|done].
    apply elem_of_chosen_all in H2 as [H2 C2]; [|done]. congruence.
  - apply (sort_by_ordered (on_key (fun item : nat * (nat * bool) => fst (snd item)) Nat.ltb)).
  - eapply StronglySorted_weaken; [|exact Hs]. intros x y Hxy. cbn in Hxy. unfold R, on_key. apply Nat.ltb_ge. lia.
  - apply NoDup_Permutation; [|..|exact Hin].
    + rewrite <-sort_by_Permutation. by apply chosen_all_NoDup.
    + apply NoDup_alt. intros i j x Hi Hj. destruct (lt_eq_lt_dec i j) as [[H|H]|H]; [|done|].
      * pose proof (sorted_lookup _ _ Hs i j x x H Hi Hj) as L. cbn in L. lia.
      * pose proof (sorted_lookup _ _ Hs j i x x H Hj Hi) as L. cbn in L. lia.
Qed.

(** The selection is a scan of the archive; the ages that were not due remain. *)
Lemma selected_spec : ordered age_order (ages idx) ->
  exists rest, selected idx candle bar_index
    = (omap (fun id => pair id <$> choice dirs idx candle bar_index id) pools, set_ages idx rest)
  /\ ordered age_order rest /\ (forall e, e ∈ rest <-> e ∈ ages idx /\ Z.of_nat bar_index < age_of e).
Proof.
  intros Ho. pose proof (due_spec (current idx) (ages idx) bar_index chosen0 Ho) as Hs.
  rewrite chosen0_ids in Hs. specialize (Hs reached_ids).
  pose proof (chosen_sorted Ho) as E. unfold chosen_all in E. unfold selected. cbv zeta.

  fold reached. fold chosen0. destruct (due (current idx) (ages idx) bar_index chosen0) as [out rest].
  destruct Hs as (_ & _ & Hr & Hor). cbn [fst] in E. exists rest. rewrite E. split; [|done]. f_equal.
  rewrite map_omap. rewrite <-(omap_enumerate _ pools). apply omap_ext_in. intros [p i] _. unfold chosen_entry. cbn [fst snd].
  by destruct (choice dirs idx candle bar_index i).
Qed.
End selected.
End reach_index.
