(* ===== verification/LiquidityTheory.v ===== *)
(** The invariants of the liquidity engine's run: the archive and its table of
    identities, the index of prices and ages, the index of clusters and the
    keys of their pools; and the erasure of what the index keeps in a pool. *)
From Stdlib Require Import ZArith QArith Lia Lqa Sorting.Sorted Sorting.Permutation.
From stdpp Require Import base list strings numbers sets gmap.
From S2P Require Import Prelude SortedIndex Decimal Time Candle Indicators Structure Engine LiquidityTypes.
From S2P Require Import Liquidity LiquiditySpec LiquidityIndex.
Local Open Scope Z_scope.

(** ** Erasure *)

(** A pool without its reach. *)
Definition erase (p : _PoolState) : _PoolState := _PoolState.set_reach p None.

(** What never changes of a pool. *)
Definition kept (p p' : _PoolState) : Prop :=
  _PoolState.pool_id p' = _PoolState.pool_id p /\ _PoolState.direction p' = _PoolState.direction p
  /\ _PoolState.created_bar_index p' = _PoolState.created_bar_index p.

(** A pool just made. *)
Definition fresh (p : _PoolState) : Prop := _PoolState.state p = LiquidityPoolState.ACTIVE /\ _PoolState.interaction_reach p = None.

Definition same_reach (p p' : _PoolState) : Prop :=
  _PoolState.interaction_reach p' = _PoolState.interaction_reach p /\ _PoolState.lower_bound p' = _PoolState.lower_bound p
  /\ _PoolState.upper_bound p' = _PoolState.upper_bound p.

Lemma erase_fresh p : fresh p -> erase p = p.
Proof. intros [_ H]. destruct p. cbn in H. by subst. Qed.

Section erasure.
Context (config : LiquidityConfig).

Lemma record_history_ok p t at_ e q : _record_history p t at_ e = Ok q ->
  exists h, q = _PoolState.set_history p (_PoolState.history p ++ [h]).
Proof. unfold _record_history. intros (h & _ & [= <-])%bind_ok. by exists h. Qed.

Lemma record_history_erase p t at_ e : _record_history (erase p) t at_ e = erase <$> _record_history p t at_ e.
Proof. unfold _record_history, validated. cbn [erase]. by destruct (LiquidityPoolHistoryEntry.validate_history_entry _). Qed.

Lemma append_erase p t c at_ conf :
  _append_interaction (erase p) t c at_ conf = (fun '(q, e) => (erase q, e)) <$> _append_interaction p t c at_ conf.
Proof. unfold _append_interaction, validated. cbn [erase]. by destruct (LiquidityInteraction.validate_times _). Qed.

Lemma interact_erase p t c at_ conf h :
  interact (erase p) t c at_ conf h = (fun '(q, e) => (erase q, e)) <$> interact p t c at_ conf h.
Proof.
  unfold interact. rewrite append_erase. destruct (_append_interaction p t c at_ conf) as [[q e]|]; [|done].
  cbn [mbind pyres_bind fmap pyres_fmap]. rewrite record_history_erase. by destruct (_record_history q h at_ _).
Qed.

Lemma process_interaction_erase p c at_ :
  _process_interaction config (erase p) c at_ = (fun '(q, e) => (erase q, e)) <$> _process_interaction config p c at_.
Proof.
  unfold _process_interaction. change (_PoolState.terminal (erase p)) with (_PoolState.terminal p).
  change (_PoolState.created_at (erase p)) with (_PoolState.created_at p).
  change (taken config (erase p) c) with (taken config p c). change (sweep config (erase p) c) with (sweep config p c).
  change (touch (erase p) c) with (touch p c). change (_PoolState.state (erase p)) with (_PoolState.state p).
  destruct (_ || _); [done|]. destruct (taken config p c); [exact (interact_erase (_PoolState.set_life p _ _ _ _ _ _) _ _ _ _ _)|].
  destruct (_ && _); [exact (interact_erase (_PoolState.set_life p _ _ _ _ _ _) _ _ _ _ _)|].
  destruct (touch p c); [exact (interact_erase (_PoolState.set_life p _ _ _ _ _ _) _ _ _ _ _)|done].
Qed.

Lemma expire_erase p bar at_ : expire config (erase p) bar at_ = erase <$> expire config p bar at_.
Proof.
  unfold expire. change (_PoolState.terminal (erase p)) with (_PoolState.terminal p).
  change (_PoolState.created_bar_index (erase p)) with (_PoolState.created_bar_index p).
  destruct (_ && _); [|done]. exact (record_history_erase (_PoolState.set_life p _ _ _ _ _ _) _ _ _).
Qed.

Lemma to_schema_erase p : _to_schema (erase p) = _to_schema p.
Proof. reflexivity. Qed.

Lemma pool_eqb_erase p q : pool_eqb (erase p) (erase q) = pool_eqb p q.
Proof. reflexivity. Qed.

(** What the operations leave alone. *)
Lemma interact_kept p t c at_ conf h q e : interact p t c at_ conf h = Ok (q, e) ->
  kept p q /\ same_reach p q /\ _PoolState.state q = _PoolState.state p.
Proof.
  unfold interact, _append_interaction. intros ([q1 ev] & (ev' & _ & [= <- <-])%bind_ok & (q2 & H & [= <- <-])%bind_ok)%bind_ok.
  apply record_history_ok in H as [h' ->]. done.
Qed.

Lemma process_interaction_kept p c at_ q e : _process_interaction config p c at_ = Ok (q, e) -> kept p q /\ same_reach p q.
Proof.
  unfold _process_interaction. destruct (_ || _); [by intros [= <- <-]|].
  destruct (taken config p c); [intros (? & ? & _)%interact_kept; done|].
  destruct (_ && _); [intros (? & ? & _)%interact_kept; done|].
  destruct (touch p c); [intros (? & ? & _)%interact_kept; done|by intros [= <- <-]].
Qed.

Lemma expire_kept p bar at_ q : expire config p bar at_ = Ok q -> kept p q /\ same_reach p q
  /\ (_PoolState.terminal q = false ->
       Z.of_nat bar - Z.of_nat (_PoolState.created_bar_index p) <= LiquidityConfig.liquidity_pool_max_age_bars config).
Proof.
  unfold expire. destruct (negb (_PoolState.terminal p) && _) eqn:E.
  - intros [h ->]%record_history_ok. split; [done|]. split; [done|]. intros H. discriminate H.
  - intros [= <-]. split; [done|]. split; [done|]. intros H. rewrite H in E. cbn [negb andb] in E. lia.
Qed.

Lemma terminal_process p c at_ : _PoolState.terminal p = true -> _process_interaction config p c at_ = Ok (p, None).
Proof. unfold _process_interaction. by intros ->. Qed.
Lemma terminal_expire p bar at_ : _PoolState.terminal p = true -> expire config p bar at_ = Ok p.
Proof. unfold expire. by intros ->. Qed.

Lemma young_expire p bar at_ : Z.of_nat bar - Z.of_nat (_PoolState.created_bar_index p) <= LiquidityConfig.liquidity_pool_max_age_bars config ->
  expire config p bar at_ = Ok p.
Proof. unfold expire. intros H. rewrite (proj2 (Z.ltb_ge _ _) H). by rewrite andb_false_r. Qed.

(** The reach is conservative: out of reach, nothing happens. *)
Lemma unreached_process p c at_ : candle_wf c ->
  within (_PoolState.direction p) (_interaction_reach config p) c = false -> _process_interaction config p c at_ = Ok (p, None).
Proof.
  intros Hc Hw.
  assert (taken config p c = false /\ sweep config p c = false /\ touch p c = false) as (H1 & H2 & H3).
  { unfold within, _interaction_reach in Hw. unfold taken, sweep, touch. unfold candle_wf in Hc.
    set (up := dadd DEFAULT_PREC (_PoolState.upper_bound p) (break_buffer config)) in *.
    set (up' := dadd DEFAULT_PREC (_PoolState.upper_bound p) (penetration config)) in *.
    set (dn := dsub DEFAULT_PREC (_PoolState.lower_bound p) (break_buffer config)) in *.
    set (dn' := dsub DEFAULT_PREC (_PoolState.lower_bound p) (penetration config)) in *.
    destruct (_PoolState.direction p); apply negb_false_iff, dltb_true in Hw.
    - destruct (dmin_le (dmin (_PoolState.lower_bound p) up) up') as [L1 L2].
      destruct (dmin_le (_PoolState.lower_bound p) up) as [L3 L4].
      rewrite andb_false_iff, dltb_false, dltb_false, !dleb_false. split_and!; [lra|left; lra|lra].
    - destruct (dmax_ge (dmax (_PoolState.upper_bound p) dn) dn') as [L1 L2].
      destruct (dmax_ge (_PoolState.upper_bound p) dn) as [L3 L4].
      rewrite andb_false_iff, dltb_false, dltb_false, !dleb_false. split_and!; [lra|left; lra|lra]. }
  unfold _process_interaction. destruct (_ || _); [done|]. by rewrite H1, H2, H3.
Qed.
Lemma new_cluster_pool_fresh c first latest lower upper bar p :
  new_cluster_pool c first latest lower upper bar = Ok p -> fresh p.
Proof. unfold new_cluster_pool. by intros [h ->]%record_history_ok. Qed.

Lemma new_single_pool_fresh swing bar p : _new_single_pool config swing bar = Ok p -> fresh p.
Proof. unfold _new_single_pool. by intros [h ->]%record_history_ok. Qed.

Lemma update_members_kept p c latest lower upper q : update_members p c latest lower upper = Ok q ->
  kept p q /\ _PoolState.state q = _PoolState.state p /\ _PoolState.interaction_reach q = None.
Proof. unfold update_members. by intros [h ->]%record_history_ok. Qed.

Lemma update_members_erase p c latest lower upper : update_members (erase p) c latest lower upper = update_members p c latest lower upper.
Proof. reflexivity. Qed.

(** The ways a new member changes the store, on a store and on its erasure. *)
Inductive cluster_update (store : list _PoolState) (c : _ClusterState) : list _PoolState -> _ClusterState -> option nat -> Prop :=
| cu_few : cluster_update store c store c None
| cu_new p : _ClusterState.pool c = None -> fresh p ->
    cluster_update store c (store ++ [p])
      (_ClusterState.mk_ClusterState (_ClusterState.direction c) (_ClusterState.anchor_price c) (_ClusterState.members c)
         (_ClusterState.contains_relative_member c) (Some (length store))) (Some (length store))
| cu_old id p p' : _ClusterState.pool c = Some id -> store !! id = Some p -> kept p p' ->
    _PoolState.state p' = _PoolState.state p -> _PoolState.interaction_reach p' = None ->
    cluster_update store c (<[id := p']> store) c (Some id).

Definition erase_update (u : list _PoolState * _ClusterState * option nat) : list _PoolState * _ClusterState * option nat :=
  let '(store, c, o) := u in (map erase store, c, o).

Lemma update_cluster_erase store c bar : (forall id, _ClusterState.pool c = Some id -> (id < length store)%nat) ->
  _update_cluster_pool config (map erase store) c bar = erase_update <$> _update_cluster_pool config store c bar.
Proof.
  intros Hr. unfold _update_cluster_pool. destruct (length _ <? _)%nat; [done|].
  destruct (head (_ClusterState.members c)) as [first|], (list.last (_ClusterState.members c)) as [latest|]; try done.
  destruct (py_min_dec _) as [lowest|]; [|done]. destruct (py_max_dec _) as [highest|]; [|done]. cbn [mbind pyres_bind].
  destruct (_ClusterState.pool c) as [id|].
  - destruct (lookup_lt_is_Some_2 store id (Hr _ eq_refl)) as [p Hp]. rewrite list_lookup_fmap, Hp. cbn [fmap option_fmap option_map].
    rewrite update_members_erase. destruct (update_members p c latest _ _) as [q|] eqn:E; [|done]. cbn.
    apply update_members_kept in E as (_ & _ & Eq). do 3 f_equal. rewrite list_fmap_insert. f_equal.
    destruct q. cbn in Eq. by subst.
  - destruct (new_cluster_pool _ _ _ _ _ _) as [q|] eqn:E; [|done]. cbn. rewrite map_app, length_map. cbn [map].
    by rewrite (erase_fresh q) by (by eapply new_cluster_pool_fresh).
Qed.

Lemma update_cluster_cases store c bar store' c' o : (forall id, _ClusterState.pool c = Some id -> (id < length store)%nat) ->
  _update_cluster_pool config store c bar = Ok (store', c', o) -> cluster_update store c store' c' o.
Proof.
  intros Hr. unfold _update_cluster_pool. destruct (length _ <? _)%nat; [intros [= <- <- <-]; constructor|].
  destruct (head (_ClusterState.members c)) as [first|], (list.last (_ClusterState.members c)) as [latest|]; try done.
  intros (lowest & _ & (highest & _ & H)%bind_ok)%bind_ok. destruct (_ClusterState.pool c) as [id|] eqn:Ep.
  - destruct (lookup_lt_is_Some_2 store id (Hr _ eq_refl)) as [p Hp]. rewrite Hp in H.
    apply bind_ok in H as (q & (H1 & H2 & H3)%update_members_kept & [= <- <- <-]). by econstructor.
  - apply bind_ok in H as (q & Hq%new_cluster_pool_fresh & [= <- <- <-]). by constructor.
Qed.
End erasure.

(** ** The archive *)

(** Every pool is still there, with its identity. *)
Definition grown (store store' : list _PoolState) : Prop :=
  forall id p, store !! id = Some p -> exists p', store' !! id = Some p' /\ kept p p'.

Lemma grown_refl store : grown store store.
Proof. intros id p H. by exists p. Qed.
Lemma grown_app store p : grown store (store ++ [p]).
Proof. intros id q H. exists q. split; [by apply lookup_app_l_Some|done]. Qed.
Lemma grown_insert store id p p' : store !! id = Some p -> kept p p' -> grown store (<[id := p']> store).
Proof.
  intros Hp Hk i q Hq. destruct (decide (i = id)) as [->|Hne].
  - exists p'. rewrite list_lookup_insert_eq by (by eapply lookup_lt_Some). split; [done|]. congruence.
  - exists q. by rewrite list_lookup_insert_ne by done.
Qed.

Record archive_inv (store : list _PoolState) (pools : list nat) (ids : gmap string (list nat)) : Prop := {
  ar_NoDup : NoDup pools;
  ar_range id : id ∈ pools -> (id < length store)%nat;
  ar_ids k other : other ∈ default [] (ids !! k) <-> other ∈ pools /\ exists p, store !! other = Some p /\ _PoolState.pool_id p = k
}.

Lemma archive_grown store store' pools ids : archive_inv store pools ids -> grown store store' -> archive_inv store' pools ids.
Proof.
  intros [H1 H2 H3] Hg.
  assert (forall id, id ∈ pools -> exists p p', store !! id = Some p /\ store' !! id = Some p' /\ kept p p') as Hs.
  { intros id Hid. destruct (lookup_lt_is_Some_2 store id (H2 _ Hid)) as [p Hp]. destruct (Hg _ _ Hp) as (p' & Hp' & Hk). eauto. }
  split; [done| |].
  - intros id Hid. destruct (Hs id Hid) as (_ & p' & _ & Hp' & _). by eapply lookup_lt_Some.
  - intros k other. rewrite H3. split; intros [Hin (q & Hq & Ek)]; (split; [done|]);
      destruct (Hs other Hin) as (p & p' & Hp & Hp' & Hk); destruct Hk as (E & _); [exists p'|exists p]; split; try done; congruence.
Qed.

Lemma archive_add store pools ids id p : archive_inv store pools ids -> store !! id = Some p -> id ∉ pools ->
  archive_inv store (pools ++ [id])
    (<[_PoolState.pool_id p := default [] (ids !! _PoolState.pool_id p) ++ [id]]> ids).
Proof.
  intros [H1 H2 H3] Hp Hn. split.
  - apply NoDup_app. split; [done|]. split; [|apply NoDup_singleton]. intros x Hx ->%list_elem_of_singleton. done.
  - intros i [Hi| ->%list_elem_of_singleton]%elem_of_app; [auto|by eapply lookup_lt_Some].
  - intros k other. rewrite elem_of_app, list_elem_of_singleton. destruct (decide (k = _PoolState.pool_id p)) as [->|Hne].
    + rewrite lookup_insert_eq. cbn [from_option]. unfold Datatypes.id. rewrite elem_of_app, list_elem_of_singleton, H3. naive_solver.
    + rewrite lookup_insert_ne by done. rewrite H3. split; [naive_solver|]. intros [[H| ->] (q & Hq & Ek)]; [eauto|congruence].
Qed.

(** The table of identities answers for the archive. *)
Lemma known_in_bucket store pools ids id pool : archive_inv store pools ids ->
  store !! id = Some pool ->
  existsb (fun other => bool_decide (other = id) || match store !! other with Some p => pool_eqb pool p | None => false end)
    (default [] (ids !! _PoolState.pool_id pool))
  = existsb (fun other => bool_decide (other = id) || match store !! other with Some p => pool_eqb pool p | None => false end) pools.
Proof.
  intros Ha Hp. apply eq_true_iff_eq. rewrite !existsb_exists. split; intros (other & Hin%list_elem_of_In & Ho).
  - exists other. apply (ar_ids _ _ _ Ha) in Hin as [Hin _]. split; [by apply list_elem_of_In|done].
  - exists other. split; [|done]. apply list_elem_of_In, (ar_ids _ _ _ Ha). split; [done|].
    destruct (lookup_lt_is_Some_2 store other (ar_range _ _ _ Ha _ Hin)) as [q Hq]. exists q. split; [done|].
    rewrite Hq in Ho. apply orb_true_iff in Ho as [->%bool_decide_eq_true|Ho]; [congruence|].
    unfold pool_eqb in Ho. bool_hyps. done.
Qed.

(** ** The index of prices *)

Section index.
Context (config : LiquidityConfig).

Definition dirs_of (store : list _PoolState) (id : nat) : option LiquidityDirection := _PoolState.direction <$> store !! id.

(** The pool is indexed under its reach, or it has ended. *)
Definition linked (idx : _PoolReachIndex) (id : nat) (p : _PoolState) : Prop :=
  match _PoolReachIndex.current idx !! id with
  | Some (reach, _) =>
      _PoolState.terminal p = false /\ _PoolState.interaction_reach p = Some reach /\ reach = _interaction_reach config p
  | None => _PoolState.terminal p = true
  end.

Definition expiry (p : _PoolState) : Z :=
  Z.of_nat (_PoolState.created_bar_index p) + LiquidityConfig.liquidity_pool_max_age_bars config + 1.

(** [L] are the pools whose entry is not up to date; [Q] holds of the pools
    whose age is still scheduled. *)
Record index_inv (Q : _PoolState -> Prop) (L : nat -> Prop) (store : list _PoolState) (pools : list nat) (idx : _PoolReachIndex) : Prop := {
  ix_tables : tables (dirs_of store) pools idx;
  ix_link id p : id ∈ pools -> ~ L id -> store !! id = Some p -> linked idx id p;
  ix_ordered : ordered _PoolReachIndex.age_order (_PoolReachIndex.ages idx);
  ix_ages id p : is_Some (_PoolReachIndex.current idx !! id) -> store !! id = Some p -> Q p ->
    exists e, e ∈ _PoolReachIndex.ages idx /\ snd e = id /\ age_of e = expiry p
}.

Lemma dirs_grown store store' id d : grown store store' -> dirs_of store id = Some d -> dirs_of store' id = Some d.
Proof.
  unfold dirs_of. intros Hg. destruct (store !! id) as [p|] eqn:E; [|done]. destruct (Hg _ _ E) as (p' & -> & _ & Ed & _).
  cbn. congruence.
Qed.

Lemma linked_same idx id p p' : linked idx id p -> kept p p' -> same_reach p p' -> _PoolState.terminal p' = _PoolState.terminal p ->
  linked idx id p'.
Proof.
  unfold linked. intros H (_ & Ed & _) (Er & El & Eu) Et. destruct (_PoolReachIndex.current idx !! id) as [[reach pos]|]; [|congruence].
  destruct H as (H1 & H2 & H3). rewrite Et, Er. split_and!; try done. rewrite H3. unfold _interaction_reach. by rewrite Ed, El, Eu.
Qed.

Lemma index_frame (Q Q' : _PoolState -> Prop) (L L' : nat -> Prop) store store' pools pools' idx :
  index_inv Q L store pools idx -> (forall id, id ∈ pools -> (id < length store)%nat) -> grown store store' ->
  (forall pos id, pools !! pos = Some id -> pools' !! pos = Some id) ->
  (forall id, id ∈ pools' -> L' id \/ (id ∈ pools /\ ~ L id /\ forall p p', store !! id = Some p -> store' !! id = Some p' ->
     same_reach p p' /\ _PoolState.terminal p' = _PoolState.terminal p)) ->
  (forall p p', kept p p' -> Q' p' -> Q p) ->
  index_inv Q' L' store' pools' idx.
Proof.
  intros [H1 H2 H3 H4] Hr Hg Hpools Hids HQ.
  assert (forall id p', store' !! id = Some p' -> is_Some (dirs_of store id) -> exists p, store !! id = Some p /\ kept p p') as Hback.
  { intros id p' Hp' [d Hd]. unfold dirs_of in Hd. destruct (store !! id) as [p|] eqn:E; [|done].
    destruct (Hg _ _ E) as (q & Hq & Hk). exists p. split; [done|]. congruence. }
  split; [|intros id p' Hin HL Hp'|done|intros id p' Hc Hp' HQp].
  - eapply tables_weaken; [|exact Hpools|exact H1]. intros id d. by apply dirs_grown.
  - destruct (Hids _ Hin) as [|(Hin0 & HL0 & Hsame)]; [done|].
    destruct (lookup_lt_is_Some_2 store id (Hr _ Hin0)) as [p Hp]. destruct (Hg _ _ Hp) as (q & Hq & Hk).
    assert (q = p') as -> by congruence. destruct (Hsame p p' Hp Hp') as [S1 S2]. apply (linked_same idx id p p'); try done. by apply H2.
  - destruct (_PoolReachIndex.current idx !! id) as [[reach pos]|] eqn:Ec; [|by destruct Hc].
    destruct (tb_current _ _ _ H1 _ _ _ Ec) as [_ Hd]. destruct (Hback id p' Hp' Hd) as (p & Hp & Hk).
    destruct (H4 id p) as (e & He & Hi & Ha); [by rewrite Ec|done|by eapply HQ|]. exists e. split_and!; try done.
    rewrite Ha. unfold expiry. destruct Hk as (_ & _ & ->). done.
Qed.
Definition reached_pool (p : _PoolState) : _PoolState := _PoolState.set_reach p (Some (_interaction_reach config p)).

Lemma index_insert (Q : _PoolState -> Prop) store pools idx id p pos l : (forall p p', kept p p' -> Q p' -> Q p) ->
  tables (dirs_of store) pools idx -> _PoolReachIndex.current idx !! id = None -> pools !! pos = Some id ->
  store !! id = Some p -> _PoolState.terminal p = false ->
  (forall i q, i ∈ pools -> i <> id -> store !! i = Some q -> linked idx i q) ->
  ordered _PoolReachIndex.age_order l -> (forall e, e ∈ _PoolReachIndex.ages idx -> e ∈ l) ->
  (Q p -> exists e, e ∈ l /\ snd e = id /\ age_of e = expiry p) ->
  (forall i q, is_Some (_PoolReachIndex.current idx !! i) -> store !! i = Some q -> Q q ->
     exists e, e ∈ _PoolReachIndex.ages idx /\ snd e = i /\ age_of e = expiry q) ->
  let entry := (_interaction_reach config p, pos) in
  index_inv Q (fun _ => False) (<[id := reached_pool p]> store) pools
    (_PoolReachIndex.set_ages (_PoolReachIndex.set_current
       (_PoolReachIndex.set_prices idx (_PoolState.direction p)
          (_PoolReachIndex.insert_price (_PoolReachIndex.prices idx (_PoolState.direction p)) (entry, id)))
       (<[id := entry]> (_PoolReachIndex.current idx))) l).
Proof.
  intros HQ Ht Hc Hpos Hp Hter Hlink Hord Hsub Hage Hages. cbv zeta.
  assert (grown store (<[id := reached_pool p]> store)) as Hg by (by apply (grown_insert store id p)).
  split.
  - apply tables_ages. eapply tables_weaken; [|done|]. { intros i d. by apply dirs_grown. }
    apply (tables_insert (dirs_of store) pools idx id _ pos); try done. unfold dirs_of. by rewrite Hp.
  - intros i q Hi _ Hq. unfold linked. cbn [_PoolReachIndex.current _PoolReachIndex.set_ages _PoolReachIndex.set_current].
    destruct (decide (i = id)) as [->|Hne].
    + rewrite lookup_insert_eq. rewrite list_lookup_insert_eq in Hq by (by eapply lookup_lt_Some). injection Hq as <-. done.
    + rewrite lookup_insert_ne by done. rewrite list_lookup_insert_ne in Hq by done. by apply Hlink.
  - exact Hord.
  - intros i q. cbn [_PoolReachIndex.current _PoolReachIndex.ages _PoolReachIndex.set_ages _PoolReachIndex.set_current].
    destruct (decide (i = id)) as [->|Hne].
    + intros _ Hq HQq. rewrite list_lookup_insert_eq in Hq by (by eapply lookup_lt_Some). injection Hq as <-.
      apply Hage. by apply (HQ p (reached_pool p)).
    + rewrite lookup_insert_ne by done. rewrite list_lookup_insert_ne by done. intros Hi Hq HQq.
      destruct (Hages i q Hi Hq HQq) as (e & He & H'). eauto.
Qed.

Lemma set_ages_same idx d l m : _PoolReachIndex.set_ages (_PoolReachIndex.set_current (_PoolReachIndex.set_prices idx d l) m) (_PoolReachIndex.ages idx)
  = _PoolReachIndex.set_current (_PoolReachIndex.set_prices idx d l) m.
Proof. by destruct idx, d. Qed.

Lemma index_update (Q : _PoolState -> Prop) store pools idx id p position : (forall p p', kept p p' -> Q p' -> Q p) ->
  index_inv Q (eq id) store pools idx -> id ∈ pools -> store !! id = Some p -> _PoolState.terminal p = false ->
  match _PoolReachIndex.current idx !! id with
  | None => exists pos, position = Some pos /\ pools !! pos = Some id
  | Some _ => _PoolState.interaction_reach p = None
  end ->
  exists idx', _PoolReachIndex.update config idx id p position = Ok (idx', reached_pool p)
    /\ index_inv Q (fun _ => False) (<[id := reached_pool p]> store) pools idx'.
Proof.
  intros HQ [H1 H2 H3 H4] Hin Hp Hter Hcase. unfold _PoolReachIndex.update.
  destruct (_PoolReachIndex.current idx !! id) as [[r pos]|] eqn:Ec.
  - rewrite Hcase. assert (dirs_of store id = Some (_PoolState.direction p)) as Hd by (unfold dirs_of; by rewrite Hp).
    destruct (discard_ok _ _ _ _ _ _ H1 Ec Hd) as (idx1 & -> & Ht1 & Ecur & Eages). cbn [mbind pyres_bind snd].
    eexists. split; [reflexivity|]. rewrite <-set_ages_same.
    apply (index_insert Q store pools idx1 id p pos (_PoolReachIndex.ages idx1)); try done.
    + rewrite Ecur. apply lookup_delete_eq.
    + by apply (tb_current _ _ _ H1 id r).
    + intros i q Hi Hne Hq. unfold linked. rewrite Ecur, lookup_delete_ne by done. apply (H2 i q); congruence.
    + by rewrite Eages.
    + intros HQp. rewrite Eages. by apply (H4 id p); [rewrite Ec|..].
    + intros i q Hi Hq HQq. rewrite Eages. apply (H4 i q); try done. rewrite Ecur in Hi.
      destruct Hi as [x [_ Hx]%lookup_delete_Some]. by exists x.
  - destruct Hcase as (pos & -> & Hpos). eexists. split; [reflexivity|].
    apply (index_insert Q store pools idx id p pos); try done;
      cbn [_PoolReachIndex.ages _PoolReachIndex.set_current]; rewrite ?ages_set_prices.
    + intros i q Hi Hne Hq. apply (H2 i q); congruence.
    + apply insert_by_ordered; [typeclasses eauto|done].
    + intros e He. rewrite <-(insert_by_Permutation _ _ _). by right.
    + intros _. exists (expiry p, pos, id). split; [|done]. rewrite <-(insert_by_Permutation _ _ _). by left.
Qed.

Lemma index_discard (Q : _PoolState -> Prop) store pools idx id p : index_inv Q (eq id) store pools idx -> store !! id = Some p ->
  is_Some (_PoolReachIndex.current idx !! id) -> _PoolState.terminal p = true ->
  exists idx', _PoolReachIndex.discard idx id (_PoolState.direction p) = Ok idx' /\ index_inv Q (fun _ => False) store pools idx'.
Proof.
  intros [H1 H2 H3 H4] Hp [old Hc] Hter.
  assert (dirs_of store id = Some (_PoolState.direction p)) as Hd by (unfold dirs_of; by rewrite Hp).
  destruct (discard_ok _ _ _ _ _ _ H1 Hc Hd) as (idx1 & -> & Ht1 & Ecur & Eages). exists idx1. split; [done|]. split.
  - done.
  - intros i q Hi _ Hq. unfold linked. rewrite Ecur. destruct (decide (i = id)) as [->|Hne].
    + rewrite lookup_delete_eq. congruence.
    + rewrite lookup_delete_ne by done. apply (H2 i q); congruence.
  - by rewrite Eages.
  - intros i q Hi Hq HQ. rewrite Eages. apply (H4 i q); try done. rewrite Ecur in Hi.
    destruct Hi as [x [_ Hx]%lookup_delete_Some]. by exists x.
Qed.

Lemma index_selected store pools idx candle bar : index_inv (fun _ => True) (fun _ => False) store pools idx -> NoDup pools ->
  exists rest, _PoolReachIndex.selected idx candle bar
    = (omap (fun id => pair id <$> choice (dirs_of store) idx candle bar id) pools, _PoolReachIndex.set_ages idx rest)
  /\ index_inv (fun p => Z.of_nat bar < expiry p) (fun _ => False) store pools (_PoolReachIndex.set_ages idx rest).
Proof.
  intros [H1 H2 H3 H4] Hn. destruct (selected_spec _ _ _ candle bar H1 Hn H3) as (rest & -> & Hord & Hrest).
  exists rest. split; [done|]. split.
  - by apply tables_ages.
  - intros i q. apply (H2 i q).
  - done.
  - intros i q Hi Hq HQ. destruct (H4 i q Hi Hq I) as (e & He & Ei & Ea). exists e. split; [|done].
    apply Hrest. split; [done|]. by rewrite Ea.
Qed.

(** When all that is due has ended, every age is scheduled again. *)
Lemma index_refresh bar store pools idx : index_inv (fun p => Z.of_nat bar < expiry p) (fun _ => False) store pools idx ->
  (forall id p, id ∈ pools -> store !! id = Some p -> _PoolState.terminal p = false -> Z.of_nat bar < expiry p) ->
  index_inv (fun _ => True) (fun _ => False) store pools idx.
Proof.
  intros [H1 H2 H3 H4] Hy. split; try done. intros i q Hi Hq _. apply H4; try done.
  destruct Hi as [[r pos] Hc]. destruct (tb_current _ _ _ H1 _ _ _ Hc) as [Hpos _].
  assert (i ∈ pools) as Hin by (by eapply list_elem_of_lookup_2). apply (Hy i q); try done.
  pose proof (H2 i q Hin ltac:(tauto) Hq) as Hl. unfold linked in Hl. rewrite Hc in Hl. tauto.
Qed.
End index.

(** ** The index of clusters *)

Section cluster_index.

(** The dictionaries by direction, one of them replaced. *)
Definition upd {A} (f : LiquidityDirection -> A) (d : LiquidityDirection) (x : A) (d' : LiquidityDirection) : A :=
  if bool_decide (d' = d) then x else f d'.

(** [K] are the pools whose key is not registered yet. *)
Record cluster_inv (K : nat -> Prop) (store : list _PoolState) (pools : list nat) (cl : LiquidityDirection -> list _ClusterState)
    (ci : LiquidityDirection -> list (dec * nat)) (keys : gmap nat (LiquidityDirection * dec * nat)) : Prop := {
  cl_sorted d : table entry_order (ci d);
  cl_entries d a o : (a, o) ∈ ci d <-> exists c, cl d !! o = Some c /\ _ClusterState.anchor_price c = a /\ live store c = true;
  cl_range d o c id : cl d !! o = Some c -> _ClusterState.pool c = Some id -> (id < length store)%nat;
  cl_unique d o c d' o' c' id : cl d !! o = Some c -> cl d' !! o' = Some c' ->
    _ClusterState.pool c = Some id -> _ClusterState.pool c' = Some id -> d = d' /\ o = o';
  cl_keys d o c id p : cl d !! o = Some c -> _ClusterState.pool c = Some id -> id ∈ pools -> ~ K id ->
    store !! id = Some p -> _PoolState.terminal p = false -> keys !! id = Some (d, _ClusterState.anchor_price c, o);
  cl_keys_back id d a o : keys !! id = Some (d, a, o) ->
    exists c, cl d !! o = Some c /\ _ClusterState.anchor_price c = a /\ _ClusterState.pool c = Some id
}.

Lemma live_same store store' c : (forall id, _ClusterState.pool c = Some id -> (id < length store)%nat) ->
  (forall id p, store !! id = Some p -> exists p', store' !! id = Some p' /\ _PoolState.terminal p' = _PoolState.terminal p) ->
  live store' c = live store c.
Proof.
  intros Hr Hs. unfold live. destruct (_ClusterState.pool c) as [id|]; [|done].
  destruct (lookup_lt_is_Some_2 store id (Hr _ eq_refl)) as [p Hp]. destruct (Hs _ _ Hp) as (p' & -> & Et). by rewrite Hp, Et.
Qed.

Lemma cluster_frame (K K' : nat -> Prop) store store' pools pools' cl ci keys : cluster_inv K store pools cl ci keys ->
  (forall id p, store !! id = Some p -> exists p', store' !! id = Some p' /\ _PoolState.terminal p' = _PoolState.terminal p) ->
  (forall id, id ∈ pools' -> K' id \/ (id ∈ pools /\ ~ K id)) ->
  cluster_inv K' store' pools' cl ci keys.
Proof.
  intros [H1 H2 H3 H4 H5 H6] Hs Hp. split; [done| | |done| |done].
  - intros d a o. rewrite H2. split; intros (c & Hc & Ea & Hl); exists c; (split; [done|]); (split; [done|]);
      rewrite (live_same store store' c) in *; eauto.
  - intros d o c id Hc Hid. destruct (lookup_lt_is_Some_2 store id (H3 _ _ _ _ Hc Hid)) as [p Hpp].
    destruct (Hs _ _ Hpp) as (p' & Hp' & _). by eapply lookup_lt_Some.
  - intros d o c id p' Hc Hid Hin HK Hp' Hter. destruct (Hp _ Hin) as [|[Hin0 HK0]]; [done|].
    destruct (lookup_lt_is_Some_2 store id (H3 _ _ _ _ Hc Hid)) as [p Hpp].
    destruct (Hs _ _ Hpp) as (q & Hq & Et). apply (H5 d o c id p); try done. congruence.
Qed.

Lemma upd_inv {A} (f : LiquidityDirection -> list A) d l d' i x : upd f d l d' !! i = Some x ->
  (d' = d /\ l !! i = Some x) \/ (d' <> d /\ f d' !! i = Some x).
Proof. unfold upd. case_bool_decide; auto. Qed.

(** A swing that matches nothing starts a cluster. *)
Lemma cluster_new K store pools cl ci keys d c : cluster_inv K store pools cl ci keys -> _ClusterState.pool c = None ->
  let entry := (_ClusterState.anchor_price c, length (cl d)) in
  cluster_inv K store pools (upd cl d (cl d ++ [c]))
    (upd ci d (list_insert_at (ci d) (bisect (fun item => negb (entry_order entry item)) (ci d) 0 (length (ci d))) entry)) keys.
Proof.
  intros [H1 H2 H3 H4 H5 H6] Hn entry.
  assert (forall d' o x, upd cl d (cl d ++ [c]) d' !! o = Some x ->
    cl d' !! o = Some x \/ (d' = d /\ o = length (cl d) /\ x = c)) as Hcl.
  { intros d' o x [[-> Hx]|[_ Hx]]%upd_inv; [|by left]. apply lookup_app_Some in Hx as [Hx|[Hle Hx]]; [by left|].
    apply list_lookup_singleton_Some in Hx as [Ho ->]. right. split_and!; [done|lia|done]. }
  assert (forall d' o x, cl d' !! o = Some x -> upd cl d (cl d ++ [c]) d' !! o = Some x) as Hcl'.
  { intros d' o x Hx. unfold upd. case_bool_decide; [|done]. subst. by apply lookup_app_l_Some. }
  split.
  - intros d'. unfold upd. case_bool_decide; [|apply H1]. apply (insert_at_sorted entry_order); [apply H1|].
    intros [a o] Hin. apply H2 in Hin as (x & Hx%lookup_lt_Some & _ & _). subst entry. unfold entry_order, lex_lt, on_key. cbn [fst snd].
    destruct (dltb _ a); [done|]. destruct (dltb a _); [done|]. intros _. apply Nat.ltb_lt. done.
  - intros d' a o. unfold upd at 1. case_bool_decide as E.
    + subst d'. rewrite (elem_of_Permutation_proper _ _ _ (list_insert_at_Permutation _ _ _)), elem_of_cons, H2. split.
      * intros [[= -> ->]|(x & Hx & Ea & Hl)]; [|exists x; split; [by apply Hcl'|done]].
        exists c. split_and!; [|done|unfold live; by rewrite Hn]. unfold upd. rewrite bool_decide_eq_true_2 by done. by rewrite lookup_app_r, Nat.sub_diag by lia.
      * intros (x & [Hx|(_ & -> & ->)]%Hcl & Ea & Hl); [right; eauto|left; subst a; done].
    + rewrite H2. split; intros (x & Hx & Ea & Hl); exists x; (split; [|done]); [by apply Hcl'|].
      apply Hcl in Hx as [Hx|(Hd & _)]; [done|contradiction].
  - intros d' o x id [Hx|(_ & _ & ->)]%Hcl Hid; [by eapply H3|congruence].
  - intros d1 o1 x1 d2 o2 x2 id [Hx|(_ & _ & ->)]%Hcl [Hy|(_ & _ & ->)]%Hcl Hi Hj; [by eapply H4|congruence..].
  - intros d' o x id p [Hx|(_ & _ & ->)]%Hcl Hid; [by apply H5|congruence].
  - intros id d' a o Hk. destruct (H6 _ _ _ _ Hk) as (x & Hx & Ex). exists x. split; [by apply Hcl'|done].
Qed.

(** The cluster of an entry gets a member, and perhaps its pool. *)
Lemma cluster_update_inv K store pools cl ci keys d o c c' : cluster_inv K store pools cl ci keys ->
  cl d !! o = Some c -> _ClusterState.anchor_price c' = _ClusterState.anchor_price c ->
  _ClusterState.pool c' = _ClusterState.pool c
  \/ (exists id, _ClusterState.pool c = None /\ _ClusterState.pool c' = Some id /\ (id ∉ pools) /\ (id < length store)%nat /\ live store c' = true
      /\ forall d o c, cl d !! o = Some c -> _ClusterState.pool c <> Some id) ->
  cluster_inv K store pools (upd cl d (<[o := c']> (cl d))) ci keys.
Proof.
  intros [H1 H2 H3 H4 H5 H6] Hc Ea Hcase.
  assert (live store c' = live store c) as Hlive.
  { destruct Hcase as [E|(id & E & E' & _ & _ & Hl & _)]; [unfold live; by rewrite E|]. rewrite Hl. unfold live. by rewrite E. }
  assert (forall d' o' x, upd cl d (<[o := c']> (cl d)) d' !! o' = Some x ->
    (d' = d /\ o' = o /\ x = c') \/ ((d', o') <> (d, o) /\ cl d' !! o' = Some x)) as Hcl.
  { intros d' o' x [[-> Hx]|[Hd Hx]]%upd_inv; [|right; split; [congruence|done]].
    apply list_lookup_insert_Some in Hx as [(-> & <- & _)|[Hne Hx]]; [by left|right; split; [congruence|done]]. }
  assert (forall d' o' x, cl d' !! o' = Some x -> upd cl d (<[o := c']> (cl d)) d' !! o' = Some (if bool_decide ((d', o') = (d, o)) then c' else x)) as Hcl'.
  { intros d' o' x Hx. unfold upd. case_bool_decide as E; [subst d'|rewrite bool_decide_eq_false_2 by congruence; done].
    case_bool_decide as E; [injection E as ->; apply list_lookup_insert_eq; by eapply lookup_lt_Some|].
    rewrite list_lookup_insert_ne by congruence. done. }
  assert (forall id, _ClusterState.pool c' = Some id -> _ClusterState.pool c = Some id \/ ((id ∉ pools) /\ (id < length store)%nat
    /\ forall d o c, cl d !! o = Some c -> _ClusterState.pool c <> Some id)) as Hpool.
  { intros id Hid. destruct Hcase as [E|(i & E & E' & ? & ? & ? & ?)]; [left; congruence|right].
    assert (i = id) as -> by congruence. done. }
  split; [done| | | | |].
  - intros d' a o'. rewrite H2. split; intros (x & Hx & Ex & Hl).
    + exists (if bool_decide ((d', o') = (d, o)) then c' else x). split; [by apply Hcl'|]. case_bool_decide as E; [|done].
      injection E as -> ->. assert (x = c) as -> by congruence. rewrite Ea, Hlive. done.
    + apply Hcl in Hx as [(-> & -> & ->)|[_ Hx]]; [|by exists x]. exists c. by rewrite <-Ea, <-Hlive.
  - intros d' o' x id [(-> & -> & ->)|[_ Hx]]%Hcl Hid; [|by eapply H3]. apply Hpool in Hid as [Hid|(_ & ? & _)]; [by eapply H3|done].
  - intros d1 o1 x1 d2 o2 x2 id [(-> & -> & ->)|[_ Hx]]%Hcl [(-> & -> & ->)|[_ Hy]]%Hcl Hi Hj; [done| | |by eapply H4].
    + apply Hpool in Hi as [Hi|(_ & _ & Hu)]; [by eapply H4|]. by apply Hu in Hy.
    + apply Hpool in Hj as [Hj|(_ & _ & Hu)]; [by eapply H4|]. by apply Hu in Hx.
  - intros d' o' x id p [(-> & -> & ->)|[_ Hx]]%Hcl Hid Hin; [|by apply H5]. rewrite Ea.
    apply Hpool in Hid as [Hid|(? & _ & _)]; [by apply H5|done].
  - intros id d' a o' Hk. destruct (H6 _ _ _ _ Hk) as (x & Hx & Ex & Ep). eexists. split; [by apply Hcl'|].
    case_bool_decide as E; [|done]. injection E as -> ->. assert (x = c) as -> by congruence. split; [congruence|].
    destruct Hcase as [E'|(i & E' & _)]; congruence.
Qed.

(** A new pool's key. *)
Lemma cluster_key store pools cl ci keys d o c id : cluster_inv (eq id) store pools cl ci keys ->
  cl d !! o = Some c -> _ClusterState.pool c = Some id ->
  cluster_inv (fun _ => False) store pools cl ci (<[id := (d, _ClusterState.anchor_price c, o)]> keys).
Proof.
  intros [H1 H2 H3 H4 H5 H6] Hc Hid. split; try done.
  - intros d' o' c' i p Hc' Hi Hin _ Hp Hter. destruct (decide (i = id)) as [->|Hne].
    + rewrite lookup_insert_eq. destruct (H4 _ _ _ _ _ _ _ Hc Hc' Hid Hi) as [<- <-]. congruence.
    + rewrite lookup_insert_ne by done. by apply (H5 d' o' c' i p).
  - intros i d' a' o' [[<- [= <- <- <-]]|[_ Hk]]%lookup_insert_Some; [by exists c|by apply H6].
Qed.

(** A pool that ends takes its cluster with it. *)
Lemma cluster_retire store pools cl ci keys id p p' : cluster_inv (fun _ => False) store pools cl ci keys ->
  store !! id = Some p -> id ∈ pools -> _PoolState.terminal p = false -> _PoolState.terminal p' = true ->
  match keys !! id with
  | None => cluster_inv (fun _ => False) (<[id := p']> store) pools cl ci keys
  | Some (d, a, o) =>
      let position := bisect (fun item => entry_order item (a, o)) (ci d) 0 (length (ci d)) in
      (position < length (ci d))%nat
      /\ cluster_inv (fun _ => False) (<[id := p']> store) pools cl (upd ci d (list_pop_at (ci d) position)) (delete id keys)
  end.
Proof.
  intros [H1 H2 H3 H4 H5 H6] Hp Hin Hter Hter'.
  assert (forall d o c, cl d !! o = Some c -> live (<[id := p']> store) c
    = live store c && negb (bool_decide (_ClusterState.pool c = Some id))) as Hlive.
  { intros d o c Hc. unfold live. destruct (_ClusterState.pool c) as [i|]; [|done]. destruct (decide (i = id)) as [->|Hne].
    - rewrite list_lookup_insert_eq by (by eapply lookup_lt_Some). rewrite Hter', bool_decide_eq_true_2 by done. by rewrite andb_false_r.
    - rewrite list_lookup_insert_ne by done. rewrite bool_decide_eq_false_2 by congruence. by rewrite andb_true_r. }
  assert (forall d o c i q, cl d !! o = Some c -> _ClusterState.pool c = Some i -> i ∈ pools ->
    (<[id := p']> store) !! i = Some q -> _PoolState.terminal q = false -> i <> id /\ keys !! i = Some (d, _ClusterState.anchor_price c, o)) as Hkeys.
  { intros d o c i q Hc Hi Hi' Hq Hqt. destruct (decide (i = id)) as [->|Hne].
    - rewrite list_lookup_insert_eq in Hq by (by eapply lookup_lt_Some). congruence.
    - rewrite list_lookup_insert_ne in Hq by done. split; [done|]. apply (H5 d o c i q); try done. tauto. }
  destruct (keys !! id) as [[[d a] o]|] eqn:Ek.
  - destruct (H6 _ _ _ _ Ek) as (c & Hc & Ea & Ep).
    assert ((a, o) ∈ ci d) as Hentry.
    { apply H2. exists c. split_and!; try done. unfold live. by rewrite Ep, Hp, Hter. }
    destruct (table_pop entry_order (ci d) (a, o) (H1 d) Hentry) as (Hlt & Ht & Hel & _). cbv zeta. split; [done|].
    set (rest := list_pop_at (ci d) _) in *. split.
    + intros d'. unfold upd. case_bool_decide; [done|apply H1].
    + intros d' a' o'. assert ((a', o') ∈ upd ci d rest d' <-> (a', o') ∈ ci d' /\ (d' = d -> (a', o') <> (a, o))) as ->.
      { unfold upd. case_bool_decide as E; [subst; rewrite Hel|]; tauto. }
      rewrite H2. split.
      * intros [(x & Hx & Ex & Hl) Hne]. exists x. split_and!; try done. rewrite (Hlive _ _ _ Hx), Hl. cbn.
        apply negb_true_iff, bool_decide_eq_false. intros Ei. destruct (H4 _ _ _ _ _ _ _ Hc Hx Ep Ei) as [-> ->].
        apply Hne; [done|]. assert (x = c) as -> by congruence. congruence.
      * intros (x & Hx & Ex & Hl). rewrite (Hlive _ _ _ Hx) in Hl. bool_hyps. split; [by exists x|]. intros -> [= -> ->].
        assert (x = c) as -> by congruence. done.
    + intros d' o' x i Hx Hi. rewrite length_insert. by eapply H3.
    + done.
    + intros d' o' x i q Hx Hi Hi' _ Hq Hqt. destruct (Hkeys _ _ _ _ _ Hx Hi Hi' Hq Hqt). by rewrite lookup_delete_ne.
    + intros i d' a' o' [_ Hk]%lookup_delete_Some. by apply H6.
  - split; try done.
    + intros d' a' o'. rewrite H2. split; intros (x & Hx & Ex & Hl); exists x; (split; [done|]); (split; [done|]).
      * rewrite (Hlive _ _ _ Hx), Hl. cbn. apply negb_true_iff, bool_decide_eq_false. intros Ei.
        rewrite (H5 _ _ _ _ _ Hx Ei Hin ltac:(tauto) Hp Hter) in Ek. done.
      * rewrite (Hlive _ _ _ Hx) in Hl. by bool_hyps.
    + intros d' o' x i Hx Hi. rewrite length_insert. by eapply H3.
    + intros d' o' x i q Hx Hi Hi' _ Hq Hqt. by destruct (Hkeys _ _ _ _ _ Hx Hi Hi' Hq Hqt).
Qed.
End cluster_index.
