(* ===== verification/LiquidityRefinement.v ===== *)
(** The engine computes its specification: a simulation between the run, with
    its indexes, and the book of [LiquiditySpec], swing by swing and bar by bar. *)
From Stdlib Require Import ZArith QArith Lia Lqa Sorting.Sorted Sorting.Permutation.
From stdpp Require Import base list strings numbers sets gmap.
From S2P Require Import Prelude SortedIndex Decimal Time Candle Indicators Structure Engine LiquidityTypes.
From S2P Require Import Liquidity LiquiditySpec LiquidityIndex LiquidityTheory.
Local Open Scope Z_scope.

(** The book is what the run knows, without its indexes. *)
Definition erases (r : Run) (b : Book) : Prop :=
  Book.store b = map erase (Run.store r) /\ Book.pools b = Run.pools r /\ (forall d, Book.clusters b d = Run.clusters r d)
  /\ Book.interactions b = Run.interactions r /\ Book.dual_sweeps b = Run.dual_sweeps r.

(** Conversion is not to look into decimal arithmetic. *)
#[local] Opaque _membership _update_cluster_pool _process_interaction expire _new_single_pool.

Section refinement.
Context (timeframe : Timeframe) (candles : list Candle) (config : LiquidityConfig) (atr_result : option ATRResult).
Context (Htick : dltb (D 0) (LiquidityConfig.tick_size config) = true).

Record run_inv (Q : _PoolState -> Prop) (L K : nat -> Prop) (r : Run) : Prop := {
  ri_archive : archive_inv (Run.store r) (Run.pools r) (Run.pools_by_identity r);
  ri_index : index_inv config Q L (Run.store r) (Run.pools r) (Run.active_pools r);
  ri_clusters : cluster_inv K (Run.store r) (Run.pools r) (Run.clusters r) (Run.cluster_index r) (Run.cluster_pool_keys r)
}.

Definition all : _PoolState -> Prop := fun _ => True.
Definition none : nat -> Prop := fun _ => False.
Definition related (r : Run) (b : Book) : Prop := run_inv all none none r /\ erases r b.

Lemma live_erase store c : live (map erase store) c = live store c.
Proof.
  unfold live. destruct (_ClusterState.pool c) as [id|]; [|done]. rewrite list_lookup_fmap. by destruct (store !! id).
Qed.

(** A new object in the store, not archived yet. *)
Lemma append_inv r p : run_inv all none none r -> run_inv all none none (Run.set_store r (Run.store r ++ [p])).
Proof.
  intros [Ha Hi Hc]. pose proof (grown_app (Run.store r) p) as Hg. split; cbn [Run.store Run.pools Run.pools_by_identity
    Run.active_pools Run.clusters Run.cluster_index Run.cluster_pool_keys Run.set_store].
  - by eapply archive_grown.
  - eapply (index_frame config all all none none); [exact Hi|apply (ar_range _ _ _ Ha)|done|done| |done].
    intros id Hin. right. split; [done|]. split; [by intros []|]. intros q q' Hq Hq'.
    rewrite lookup_app_l in Hq' by (by eapply lookup_lt_Some). assert (q' = q) as -> by congruence. done.
  - eapply (cluster_frame none none); [exact Hc| |].
    + intros id q Hq. exists q. split; [by apply lookup_app_l_Some|done].
    + intros id Hin. right. split; [done|by intros []].
Qed.

(** An archived pool, its members or its reach changed, awaits its entry. *)
Lemma replace_inv L r id p p' : run_inv all L none r -> (forall i, L i -> i = id) -> Run.store r !! id = Some p -> kept p p' ->
  _PoolState.state p' = _PoolState.state p -> run_inv all (eq id) none (Run.set_store r (<[id := p']> (Run.store r))).
Proof.
  intros [Ha Hi Hc] HL Hp Hk Hst. pose proof (grown_insert (Run.store r) id p p' Hp Hk) as Hg.
  split; cbn [Run.store Run.pools Run.pools_by_identity
    Run.active_pools Run.clusters Run.cluster_index Run.cluster_pool_keys Run.set_store].
  - by eapply archive_grown.
  - eapply (index_frame config all all L (eq id)); [exact Hi|apply (ar_range _ _ _ Ha)|done|done| |done].
    intros i Hin. destruct (decide (i = id)) as [->|Hne]; [by left|]. right. split; [done|]. split; [intros H; by apply Hne, HL|].
    intros q q' Hq Hq'. rewrite list_lookup_insert_ne in Hq' by done. assert (q' = q) as -> by congruence. done.
  - eapply (cluster_frame none none); [exact Hc| |].
    + intros i q Hq. destruct (decide (i = id)) as [->|Hne].
      * exists p'. rewrite list_lookup_insert_eq by (by eapply lookup_lt_Some). split; [done|].
        assert (q = p) as -> by congruence. unfold _PoolState.terminal. by rewrite Hst.
      * exists q. by rewrite list_lookup_insert_ne by done.
    + intros i Hin. right. split; [done|by intros []].
Qed.

(** Entering the index erases to nothing. *)
Lemma update_active_ok K r id p position : run_inv all (eq id) K r -> id ∈ Run.pools r -> Run.store r !! id = Some p ->
  _PoolState.terminal p = false ->
  match _PoolReachIndex.current (Run.active_pools r) !! id with
  | None => exists pos, position = Some pos /\ Run.pools r !! pos = Some id
  | Some _ => _PoolState.interaction_reach p = None
  end ->
  exists idx, update_active config r id position
    = Ok (Run.set_active (Run.set_store r (<[id := reached_pool config p]> (Run.store r))) idx)
  /\ run_inv all none K (Run.set_active (Run.set_store r (<[id := reached_pool config p]> (Run.store r))) idx).
Proof.
  intros [Ha Hi Hc] Hin Hp Hter Hpos. unfold update_active. rewrite Hp.
  destruct (index_update config all _ _ _ id p position (fun _ _ _ H => H) Hi Hin Hp Hter Hpos) as (idx & -> & Hidx).
  exists idx. split; [done|]. pose proof (grown_insert (Run.store r) id p (reached_pool config p) Hp ltac:(done)) as Hg.
  split; cbn [Run.store Run.pools Run.pools_by_identity
    Run.active_pools Run.clusters Run.cluster_index Run.cluster_pool_keys Run.set_store Run.set_active].
  - by eapply archive_grown.
  - exact Hidx.
  - destruct Hc as [C1 C2 C3 C4 C5 C6].
    assert (forall i q, Run.store r !! i = Some q -> exists q', (<[id := reached_pool config p]> (Run.store r)) !! i = Some q'
      /\ _PoolState.terminal q' = _PoolState.terminal q) as Hs.
    { intros i q Hq. destruct (decide (i = id)) as [->|Hne].
      - exists (reached_pool config p). rewrite list_lookup_insert_eq by (by eapply lookup_lt_Some). split; [done|].
        assert (q = p) as -> by congruence. done.
      - exists q. by rewrite list_lookup_insert_ne by done. }
    split; try done.
    + intros d a o. rewrite C2. split; intros (c & Hc & Ea & Hl); exists c; (split; [done|]); (split; [done|]);
        rewrite (live_same (Run.store r) _ c) in *; eauto.
    + intros d o c i Hc' Hid. rewrite length_insert. by eapply C3.
    + intros d o c i q' Hc' Hid Hi' HK Hq' Ht. destruct (lookup_lt_is_Some_2 (Run.store r) i (C3 _ _ _ _ Hc' Hid)) as [q Hq].
      destruct (Hs _ _ Hq) as (q2 & Hq2 & Et). apply (C5 d o c i q); try done. congruence.
Qed.

Lemma erase_reached r p id : Run.store r !! id = Some p -> map erase (<[id := reached_pool config p]> (Run.store r)) = map erase (Run.store r).
Proof.
  intros Hp. change (map erase) with (fmap erase : list _PoolState -> list _PoolState). rewrite list_fmap_insert.
  apply list_insert_id. by rewrite list_lookup_fmap, Hp.
Qed.
(** ** Entering the archive *)

Lemma not_current Q L K r id : run_inv Q L K r -> id ∉ Run.pools r -> _PoolReachIndex.current (Run.active_pools r) !! id = None.
Proof.
  intros [_ Hi _] Hn. destruct (_PoolReachIndex.current (Run.active_pools r) !! id) as [[reach pos]|] eqn:E; [|done].
  destruct (tb_current _ _ _ (ix_tables _ _ _ _ _ _ Hi) _ _ _ E) as [Hp _]. exfalso. apply Hn. by eapply list_elem_of_lookup_2.
Qed.

Lemma archive_run_inv r id p : run_inv all none none r -> Run.store r !! id = Some p -> id ∉ Run.pools r ->
  run_inv all (eq id) (eq id) (Run.archive r id (_PoolState.pool_id p)).
Proof.
  intros [Ha Hi Hc] Hp Hn. split; cbn [Run.store Run.pools Run.pools_by_identity
    Run.active_pools Run.clusters Run.cluster_index Run.cluster_pool_keys Run.archive].
  - by apply archive_add.
  - eapply (index_frame config all all none (eq id)); [exact Hi|apply (ar_range _ _ _ Ha)|apply grown_refl| | |done].
    + intros pos i Hpos. by apply lookup_app_l_Some.
    + intros i [Hin| ->%list_elem_of_singleton]%elem_of_app; [right|by left]. split; [done|]. split; [by intros []|].
      intros q q' Hq Hq'. assert (q' = q) as -> by congruence. done.
  - eapply (cluster_frame none (eq id)); [exact Hc|intros i q Hq; by exists q|].
    intros i [Hin| ->%list_elem_of_singleton]%elem_of_app; [right; split; [done|by intros []]|by left].
Qed.

(** Archived and indexed: what becomes of a new pool. *)
Definition activated (r : Run) (id : nat) (p : _PoolState) (idx : _PoolReachIndex) : Run :=
  Run.set_active (Run.set_store (Run.archive r id (_PoolState.pool_id p)) (<[id := reached_pool config p]> (Run.store r))) idx.

Lemma activate r id p : run_inv all none none r -> Run.store r !! id = Some p -> id ∉ Run.pools r ->
  _PoolState.terminal p = false ->
  exists idx, update_active config (Run.archive r id (_PoolState.pool_id p)) id
      (Some (length (Run.pools (Run.archive r id (_PoolState.pool_id p))) - 1)%nat) = Ok (activated r id p idx)
    /\ run_inv all none (eq id) (activated r id p idx).
Proof.
  intros Hr Hp Hn Hter. pose proof (archive_run_inv r id p Hr Hp Hn) as Ha.
  destruct (update_active_ok (eq id) _ id p (Some (length (Run.pools (Run.archive r id (_PoolState.pool_id p))) - 1)%nat) Ha)
    as (idx & H1 & H2); try done.
  - cbn. apply elem_of_app. right. by left.
  - change (Run.active_pools (Run.archive r id (_PoolState.pool_id p))) with (Run.active_pools r). rewrite (not_current _ _ _ _ _ Hr Hn).
    eexists. split; [done|]. cbn. rewrite length_app. cbn. rewrite Nat.add_sub. by rewrite lookup_app_r, Nat.sub_diag by lia.
  - by exists idx.
Qed.

Lemma activated_erases r b id p idx : erases r b -> Run.store r !! id = Some p -> erases (activated r id p idx) (Book.archive b id).
Proof.
  intros (E1 & E2 & E3 & E4 & E5) Hp. split_and!; cbn; try done; [|by rewrite E2]. by rewrite (erase_reached r).
Qed.

(** No cluster names the pool, so no key is missing. *)
Lemma no_cluster_key r id : run_inv all none (eq id) r ->
  (forall d o c, Run.clusters r d !! o = Some c -> _ClusterState.pool c <> Some id) -> run_inv all none none r.
Proof.
  intros [Ha Hi [C1 C2 C3 C4 C5 C6]] Hn. split; [done..|]. split; try done.
  intros d o c i p Hc Hid Hin _ Hp Hter. apply (C5 d o c i p); try done. intros ->. by apply (Hn d o c).
Qed.

(** The single pool of a swing. *)
Lemma consume_single_related r b swing bar : related r b ->
  agree related (consume_single config r swing bar)
    (pool ← _new_single_pool config swing bar;
     Ok (Book.archive (Book.set_store b (Book.store b ++ [pool])) (length (Book.store b)))).
Proof.
  intros [Hr He]. unfold consume_single. destruct (_new_single_pool config swing bar) as [p|] eqn:Ep; [|done].
  cbn [mbind pyres_bind]. pose proof (new_single_pool_fresh config _ _ _ Ep) as Hf.
  pose proof (append_inv r p Hr) as Hr1. set (r1 := Run.set_store r (Run.store r ++ [p])) in *.
  assert (Run.store r1 !! length (Run.store r) = Some p) as Hp1 by (cbn; by rewrite lookup_app_r, Nat.sub_diag by lia).
  assert (length (Run.store r) ∉ Run.pools r1) as Hn1.
  { cbn. intros Hin. apply (ar_range _ _ _ (ri_archive _ _ _ _ Hr)) in Hin. lia. }
  assert (_PoolState.terminal p = false) as Hter by (unfold _PoolState.terminal; destruct Hf as [-> _]; done).
  destruct (activate r1 _ p Hr1 Hp1 Hn1 Hter) as (idx & -> & Hr2). split.
  - apply (no_cluster_key _ _ Hr2). cbn. intros d o c Hc Hid.
    pose proof (cl_range _ _ _ _ _ _ (ri_clusters _ _ _ _ Hr) _ _ _ _ Hc Hid). lia.
  - assert (length (Book.store b) = length (Run.store r)) as -> by (destruct He as (-> & _); apply length_map).
    apply activated_erases; [|done]. destruct He as (E1 & E2 & E3 & E4 & E5). split_and!; cbn; try done.
    rewrite E1, map_app. cbn. by rewrite erase_fresh.
Qed.

(** ** Matching *)

Lemma list_find_first {A} (P : A -> Prop) `{!forall x, Decision (P x)} (l : list A) i x :
  l !! i = Some x -> P x -> (forall j y, l !! j = Some y -> P y -> (i <= j)%nat) -> list_find P l = Some (i, x).
Proof.
  intros Hi HP Hmin. apply list_find_Some. split_and!; try done. intros j y Hj Hlt Hy. specialize (Hmin j y Hj Hy). lia.
Qed.

Lemma matching_related r b swing atr : related r b ->
  _matching_cluster_entry config (Run.cluster_index r (_side_for swing)) swing atr
  = (fun e => (_ClusterState.anchor_price (snd e), fst e)) <$> matching_cluster config b swing atr.
Proof.
  intros [Hr He]. pose proof (ri_clusters _ _ _ _ Hr) as Hc. set (d := _side_for swing).
  rewrite (matching_entry config Htick _ _ _ (cl_sorted _ _ _ _ _ _ Hc d)). unfold matching_cluster. fold d.
  destruct He as (-> & _ & -> & _). set (P := fun cluster => live (map erase (Run.store r)) cluster && _ = true).
  assert (forall a o, (a, o) ∈ List.filter (fun item => matches config swing atr (fst item)) (Run.cluster_index r d)
    <-> exists c, Run.clusters r d !! o = Some c /\ _ClusterState.anchor_price c = a /\ P c) as Hin.
  { intros a o. rewrite elem_of_filter_bool, (cl_entries _ _ _ _ _ _ Hc). subst P. cbn [fst]. split.
    - intros [(c & H1 & <- & H3) H4]. exists c. rewrite live_erase, H3, H4. done.
    - intros (c & H1 & <- & [H3 H4]%andb_true_iff). rewrite live_erase in H3. eauto. }
  destruct (py_min _ _) as [[a o]|] eqn:E.
  - apply (py_min_spec (on_key snd Nat.ltb)) in E as [E1 E2]. apply Hin in E1 as (c & H1 & <- & H3).
    rewrite (list_find_first P _ o c); [done..|]. intros j y Hj Hy.
    assert ((_ClusterState.anchor_price y, j) ∈ List.filter (fun item => matches config swing atr (fst item)) (Run.cluster_index r d)) as Hyin
      by (apply Hin; eauto).
    specialize (E2 _ Hyin). unfold on_key in E2. cbn in E2. apply Nat.ltb_ge in E2. done.
  - apply py_min_None in E. rewrite (proj2 (list_find_None P _)); [done|]. apply Forall_forall. intros c [o Ho]%list_elem_of_lookup HP.
    apply (not_elem_of_nil (_ClusterState.anchor_price c, o)). rewrite <-E. apply Hin. eauto.
Qed.

Lemma known_related Q L K r b id p : run_inv Q L K r -> erases r b -> Run.store r !! id = Some p ->
  archived r id p = known b id (erase p).
Proof.
  intros Hr (E1 & E2 & _) Hp. unfold archived, known. rewrite (known_in_bucket _ _ _ _ _ (ri_archive _ _ _ _ Hr) Hp), E1, E2.
  clear E2. induction (Run.pools r) as [|other l IH]; [done|]. cbn [existsb]. rewrite IH. f_equal. f_equal.
  rewrite list_lookup_fmap. by destruct (Run.store r !! other).
Qed.
(** ** A swing *)

Lemma set_clusters_erases r b d l : erases r b -> erases (Run.set_clusters r d l) (Book.set_clusters b d l).
Proof.
  intros (E1 & E2 & E3 & E4 & E5). split_and!; cbn; try done. intros d'. case_bool_decide; [done|apply E3].
Qed.

Lemma new_cluster_related r b swing : related r b ->
  related (new_cluster r swing)
    (Book.set_clusters b (_side_for swing) (Book.clusters b (_side_for swing)
       ++ [_ClusterState.mk_ClusterState (_side_for swing) (ConfirmedSwing.price swing) [swing] false None])).
Proof.
  intros [Hr He]. pose proof He as (_ & _ & E3 & _). split.
  - destruct Hr as [Ha Hi Hc]. split; [done|done|]. by apply (cluster_new _ _ _ _ _ _ (_side_for swing)
      (_ClusterState.mk_ClusterState (_side_for swing) (ConfirmedSwing.price swing) [swing] false None)).
  - rewrite E3. apply (set_clusters_erases r b (_side_for swing) _ He).
Qed.

(** The store and the cluster after a new member, before the archive learns of it. *)
Lemma member_inv r d o c c' store' o' : run_inv all none none r -> Run.clusters r d !! o = Some c -> live (Run.store r) c = true ->
  _ClusterState.anchor_price c' = _ClusterState.anchor_price c -> _ClusterState.pool c' = _ClusterState.pool c ->
  forall c2, cluster_update (Run.store r) c' store' c2 o' ->
  let r2 := Run.set_clusters (Run.set_store r store') d (<[o := c2]> (Run.clusters r d)) in
  match o' with
  | None => run_inv all none none r2
  | Some id => exists p, store' !! id = Some p /\ _PoolState.terminal p = false /\ _PoolState.interaction_reach p = None
      /\ run_inv all (fun i => i = id /\ id ∈ Run.pools r) none r2
      /\ (id ∈ Run.pools r -> is_Some (_PoolReachIndex.current (Run.active_pools r) !! id))
      /\ _ClusterState.pool c2 = Some id /\ _ClusterState.anchor_price c2 = _ClusterState.anchor_price c
  end.
Proof.
  intros Hr Hc Hlive Ea Ep c2 Hu. destruct Hu as [|p Hn Hf|id p p' Hid Hp Hk Hst Hreach]; cbv zeta.
  - destruct Hr as [Ha Hi Hcl]. split; [done|done|]. cbn. apply (cluster_update_inv _ _ _ _ _ _ _ _ c); try done. by left.
  - exists p. assert (_PoolState.terminal p = false) as Hter by (unfold _PoolState.terminal; destruct Hf as [-> _]; done).
    assert (length (Run.store r) ∉ Run.pools r) as Hnp.
    { intros Hin. apply (ar_range _ _ _ (ri_archive _ _ _ _ Hr)) in Hin. lia. }
    pose proof (append_inv r p Hr) as [Ha Hi Hcl].
    split_and!; try done; [by rewrite lookup_app_r, Nat.sub_diag by lia|apply Hf|].
    split; [done| |].
    + destruct Hi as [I1 I2 I3 I4]. split; try done. intros i q Hin _. apply (I2 i q); [done|by intros []].
    + cbn. apply (cluster_update_inv _ _ _ _ _ _ _ _ c); try done. right. exists (length (Run.store r)). split_and!; try done.
      * congruence.
      * cbn. rewrite length_app. cbn. lia.
      * unfold live. cbn. rewrite lookup_app_r, Nat.sub_diag by lia. cbn. by rewrite Hter.
      * intros d' x y Hy Hp. pose proof (cl_range _ _ _ _ _ _ (ri_clusters _ _ _ _ Hr) _ _ _ _ Hy Hp). lia.
  - exists p'. rewrite Ep in Hid. assert (_PoolState.terminal p = false) as Hter.
    { unfold live in Hlive. rewrite Hid, Hp in Hlive. by apply negb_true_iff in Hlive. }
    split_and!; try done.
    + rewrite list_lookup_insert_eq by (by eapply lookup_lt_Some). done.
    + unfold _PoolState.terminal. by rewrite Hst.
    + pose proof (replace_inv none r id p p' Hr ltac:(by intros i []) Hp Hk Hst) as [Ha Hi Hcl]. split; [done| |].
      * destruct Hi as [I1 I2 I3 I4]. split; try done. intros i q Hin HL. apply (I2 i q); [done|]. intros <-. by apply HL.
      * cbn. apply (cluster_update_inv _ _ _ _ _ _ _ _ c); try done. by left.
    + intros Hin. pose proof (ix_link _ _ _ _ _ _ (ri_index _ _ _ _ Hr) id p Hin ltac:(by intros []) Hp) as Hl.
      unfold linked in Hl. destruct (_PoolReachIndex.current _ !! id); [done|congruence].
    + congruence.
Qed.

Lemma enter_related r b d o c id p : run_inv all (fun i => i = id /\ id ∈ Run.pools r) none r ->
  (id ∈ Run.pools r -> is_Some (_PoolReachIndex.current (Run.active_pools r) !! id)) -> erases r b ->
  Run.store r !! id = Some p -> _PoolState.terminal p = false -> _PoolState.interaction_reach p = None ->
  Run.clusters r d !! o = Some c -> _ClusterState.pool c = Some id ->
  agree related (enter_cluster_pool config r id d (_ClusterState.anchor_price c) o) (Ok (archive_new b id)).
Proof.
  intros Hr Hcur He Hp Hter Hreach Hc Hid. unfold enter_cluster_pool, archive_new. rewrite Hp.
  assert (Book.store b !! id = Some (erase p)) as -> by (destruct He as (-> & _); by rewrite list_lookup_fmap, Hp).
  rewrite <-(known_related _ _ _ _ _ _ _ Hr He Hp).
  assert (id ∉ Run.pools r -> run_inv all none none r) as Hplain.
  { intros Hn. destruct Hr as [Ha [I1 I2 I3 I4] Hcl]. split; [done| |done]. split; try done.
    intros i q Hin _. apply I2; [done|]. by intros [_ ?]. }
  destruct (archived r id p) eqn:Ek; cbn [negb].
  - unfold _PoolReachIndex.contains. case_bool_decide as Hcc.
    + assert (id ∈ Run.pools r) as Hin by (destruct (decide (id ∈ Run.pools r)) as [|Hn]; [done|];
        rewrite (not_current _ _ _ _ _ Hr Hn) in Hcc; by destruct Hcc).
      assert (run_inv all (eq id) none r) as Hr'.
      { destruct Hr as [Ha [I1 I2 I3 I4] Hcl]. split; [done| |done]. split; try done.
        intros i q Hi HL. apply I2; [done|]. intros [-> _]. by apply HL. }
      destruct (update_active_ok none r id p None Hr' Hin Hp Hter) as (idx & -> & Hr2).
      { destruct (_PoolReachIndex.current (Run.active_pools r) !! id); [done|by destruct Hcc]. }
      split; [done|]. destruct He as (E1 & E2 & E3 & E4 & E5). split_and!; cbn; try done. by rewrite (erase_reached r).
    + split; [|done]. apply Hplain. intros Hin. by apply Hcc, Hcur.
  - assert (id ∉ Run.pools r) as Hn.
    { intros Hin. unfold archived in Ek. rewrite (known_in_bucket _ _ _ _ _ (ri_archive _ _ _ _ Hr) Hp) in Ek.
      apply not_true_iff_false in Ek. apply Ek, existsb_exists. exists id. split; [by apply list_elem_of_In|].
      by rewrite bool_decide_eq_true_2. }
    destruct (activate r id p (Hplain Hn) Hp Hn Hter) as (idx & -> & Hr2). cbn [mbind pyres_bind]. split.
    + destruct Hr2 as [Ha Hi Hcl]. split; [done|done|]. by apply (cluster_key _ _ _ _ _ d o c id Hcl).
    + destruct (activated_erases r b id p idx He Hp) as (E1 & E2 & E3 & E4 & E5). split_and!; done.
Qed.

Definition membership_of (swing : ConfirmedSwing) (c : _ClusterState) : option LiquidityFormation :=
  _membership config (_ClusterState.anchor_price c) swing (atr_at timeframe candles atr_result (ConfirmedSwing.confirmed_at swing)).

Lemma update_cluster_agree store c bar : (forall id, _ClusterState.pool c = Some id -> (id < length store)%nat) ->
  agree (fun u u' => u' = erase_update u /\ cluster_update store c (fst (fst u)) (snd (fst u)) (snd u))
    (_update_cluster_pool config store c bar) (_update_cluster_pool config (map erase store) c bar).
Proof.
  intros Hr. rewrite (update_cluster_erase config _ _ _ Hr).
  destruct (_update_cluster_pool config store c bar) as [[[store' c'] o]|] eqn:Eu; [|done]. split; [done|]. by eapply update_cluster_cases.
Qed.

Lemma join_related r b swing bar o c : related r b -> Run.clusters r (_side_for swing) !! o = Some c ->
  live (Run.store r) c = true -> membership_of swing c <> None ->
  agree related (join_cluster timeframe candles config atr_result r swing bar (_ClusterState.anchor_price c) o c)
    ('(store, cluster, pool) ← _update_cluster_pool config (Book.store b)
        (with_member c swing (bool_decide (membership_of swing c = Some LiquidityFormation.RELATIVE_EQUAL))) bar;
     let b := Book.set_clusters (Book.set_store b store) (_side_for swing) (<[o := cluster]> (Book.clusters b (_side_for swing))) in
     Ok match pool with Some id => archive_new b id | None => b end).
Proof.
  intros [Hr He] Hc Hlive Hm. unfold join_cluster. unfold membership_of in *.
  destruct (_membership config (_ClusterState.anchor_price c) swing _) as [cls|]; [|done].
  match goal with |- context [_update_cluster_pool config (Run.store r) ?x bar] => set (c1 := x) end.
  assert (with_member c swing (bool_decide (Some cls = Some LiquidityFormation.RELATIVE_EQUAL)) = c1) as ->.
  { subst c1. unfold with_member. f_equal. destruct cls; done. }
  assert (forall id, _ClusterState.pool c1 = Some id -> (id < length (Run.store r))%nat) as Hrange.
  { intros id Hid. by apply (cl_range _ _ _ _ _ _ (ri_clusters _ _ _ _ Hr) (_side_for swing) o c id). }
  pose proof He as (E1 & E2 & E3 & E4 & E5). rewrite E1.
  apply (agree_bind _ _ _ _ _ _ (update_cluster_agree _ c1 bar Hrange)).
  intros [[store' c2] o'] [[store'' c2'] o''] [[= -> -> ->] Eu].
  pose proof (member_inv r (_side_for swing) o c c1 store' o' Hr Hc Hlive eq_refl eq_refl c2 Eu) as Hinv. cbv zeta in Hinv |- *.
  rewrite E3. set (r2 := Run.set_clusters (Run.set_store r store') (_side_for swing) (<[o := c2]> (Run.clusters r (_side_for swing)))) in *.
  assert (erases r2 (Book.set_clusters (Book.set_store b (map erase store')) (_side_for swing) (<[o := c2]> (Run.clusters r (_side_for swing))))) as He2.
  { apply (set_clusters_erases (Run.set_store r store') (Book.set_store b (map erase store'))). split_and!; done. }
  destruct o' as [id|]; [|by split].
  destruct Hinv as (p & Hp & Hter & Hreach & Hr2 & Hcur & Hpool & Ea). rewrite <-Ea. apply (enter_related r2 _ (_side_for swing) o c2 id p); try done.
  cbn. rewrite bool_decide_eq_true_2 by done. apply list_lookup_insert_eq. by eapply lookup_lt_Some.
Qed.

(** One swing. *)
Lemma swing_related r b swing : related r b ->
  agree related (consume_swing timeframe candles config atr_result r swing) (spec_swing timeframe candles config atr_result b swing).
Proof.
  intros H. unfold consume_swing, spec_swing. destruct (close_to_index timeframe candles !! _) as [bar|]; [|done].
  apply (agree_bind related).
  { destruct (LiquidityConfig.liquidity_include_single_swing_pools config); [by apply consume_single_related|done]. }
  clear r b H. intros r b H. rewrite (matching_related r b) by done.
  destruct (matching_cluster config b swing _) as [[o c]|] eqn:E; [|by apply new_cluster_related].
  cbn [fmap option_fmap option_map fst snd]. apply list_find_Some in E as (Hc & HP & _).
  apply andb_true_iff in HP as [Hlive Hm]. pose proof H as [_ (E1 & _ & E3 & _)]. rewrite E3 in Hc. rewrite E1, live_erase in Hlive.
  rewrite Hc. apply join_related; [done..|]. unfold matches in Hm. apply negb_true_iff, bool_decide_eq_false in Hm. exact Hm.
Qed.

Lemma swings_related t r b swings : related r b ->
  agree (fun s s' => related (fst s) (fst s') /\ snd s = snd s') (consume_until timeframe candles config atr_result t r swings)
    (spec_swings timeframe candles config atr_result t b swings).
Proof.
  revert r b. induction swings as [|swing rest IH]; intros r b H; [by split|]. cbn [consume_until spec_swings].
  destruct (_ <=? t); [|by split]. apply (agree_bind related); [by apply swing_related|]. intros r' b' H'. by apply IH.
Qed.
(** ** A bar *)

Definition same_but_store (r r2 : Run) (store : list _PoolState) : Prop :=
  Run.store r2 = store /\ Run.pools r2 = Run.pools r /\ (forall d, Run.clusters r2 d = Run.clusters r d)
  /\ Run.interactions r2 = Run.interactions r /\ Run.dual_sweeps r2 = Run.dual_sweeps r.

Lemma replaced_terminal (store : list _PoolState) id p p' : store !! id = Some p -> _PoolState.terminal p' = _PoolState.terminal p ->
  forall i q, store !! i = Some q -> exists q', (<[id := p']> store) !! i = Some q' /\ _PoolState.terminal q' = _PoolState.terminal q.
Proof.
  intros Hp Ht i q Hq. destruct (decide (i = id)) as [->|Hne].
  - exists p'. rewrite list_lookup_insert_eq by (by eapply lookup_lt_Some). split; [done|]. congruence.
  - exists q. by rewrite list_lookup_insert_ne by done.
Qed.

(** A pool after its bar: it stays, or it leaves the indexes. *)
Lemma settle (Q : _PoolState -> Prop) r id p p' : (forall p p', kept p p' -> Q p' -> Q p) -> run_inv Q none none r ->
  Run.store r !! id = Some p -> id ∈ Run.pools r -> _PoolState.terminal p = false -> kept p p' -> same_reach p p' ->
  exists r2, (if _PoolState.terminal p' then retire (Run.set_store r (<[id := p']> (Run.store r))) id p'
              else Ok (Run.set_store r (<[id := p']> (Run.store r)))) = Ok r2
    /\ run_inv Q none none r2 /\ same_but_store r r2 (<[id := p']> (Run.store r)).
Proof.
  intros HQ [Ha Hi Hc] Hp Hin Hter Hk Hs. pose proof (grown_insert (Run.store r) id p p' Hp Hk) as Hg.
  destruct (_PoolState.terminal p') eqn:Hter'.
  - assert (index_inv config Q (eq id) (<[id := p']> (Run.store r)) (Run.pools r) (Run.active_pools r)) as Hi1.
    { eapply (index_frame config Q Q none (eq id)); [exact Hi|apply (ar_range _ _ _ Ha)|done|done| |exact HQ].
      intros i Hin'. destruct (decide (id = i)) as [->|Hne]; [by left|right]. split; [done|]. split; [by intros []|].
      intros q q' Hq Hq'. rewrite list_lookup_insert_ne in Hq' by done. assert (q' = q) as -> by congruence. done. }
    assert (is_Some (_PoolReachIndex.current (Run.active_pools r) !! id)) as Hcur.
    { pose proof (ix_link _ _ _ _ _ _ Hi id p Hin ltac:(by intros []) Hp) as Hl. unfold linked in Hl.
      destruct (_PoolReachIndex.current (Run.active_pools r) !! id); [done|congruence]. }
    assert ((<[id := p']> (Run.store r)) !! id = Some p') as Hp' by (apply list_lookup_insert_eq; by eapply lookup_lt_Some).
    destruct (index_discard config Q _ _ _ id p' Hi1 Hp' Hcur Hter') as (idx & Hd & Hi2).
    pose proof (cluster_retire _ _ _ _ _ id p p' Hc Hp Hin Hter Hter') as Hc2.
    unfold retire. change (Run.active_pools (Run.set_store r (<[id := p']> (Run.store r)))) with (Run.active_pools r).
    rewrite Hd. cbn [mbind pyres_bind].
    change (Run.cluster_pool_keys (Run.set_active (Run.set_store r (<[id := p']> (Run.store r))) idx)) with (Run.cluster_pool_keys r).
    destruct (Run.cluster_pool_keys r !! id) as [[[d a] o]|].
    + destruct Hc2 as [Hlt Hc2].
      cbv zeta. cbn [Run.cluster_index Run.set_keys Run.set_active Run.set_store]. rewrite (proj2 (Nat.leb_gt _ _) Hlt).
      eexists. split; [reflexivity|]. split; [|done]. split; [by eapply archive_grown|exact Hi2|exact Hc2].
    + eexists. split; [reflexivity|]. split; [|done]. split; [by eapply archive_grown|exact Hi2|exact Hc2].
  - eexists. split; [reflexivity|]. split; [|done]. split.
    + by eapply archive_grown.
    + eapply (index_frame config Q Q none none); [exact Hi|apply (ar_range _ _ _ Ha)|exact Hg|done| |exact HQ].
      intros i Hin'. right. split; [done|]. split; [by intros []|]. intros q q' Hq Hq'. destruct (decide (i = id)) as [->|Hne].
      * cbn in Hq'. rewrite list_lookup_insert_eq in Hq' by (by eapply lookup_lt_Some). assert (q = p) as -> by congruence.
        injection Hq' as <-. split; [done|congruence].
      * cbn in Hq'. rewrite list_lookup_insert_ne in Hq' by done. assert (q' = q) as -> by congruence. done.
    + eapply (cluster_frame none none); [exact Hc| |].
      * apply (replaced_terminal _ _ p); [done|congruence].
      * intros i Hin'. right. split; [done|by intros []].
Qed.

Lemma same_but_store_erases r r2 b id p' e : same_but_store (match e with Some ev => Run.add_interaction r ev | None => r end) r2 (<[id := p']> (Run.store r)) ->
  erases r b ->
  erases r2 (Book.add_interactions (Book.set_store b (<[id := erase p']> (Book.store b))) match e with Some ev => [ev] | None => [] end).
Proof.
  intros (S1 & S2 & S3 & S4 & S5) (E1 & E2 & E3 & E4 & E5). split_and!; cbn.
  - rewrite S1, E1. change (map erase) with (fmap erase : list _PoolState -> list _PoolState). by rewrite list_fmap_insert.
  - rewrite S2, E2. by destruct e.
  - intros d. rewrite S3, E3. by destruct e.
  - rewrite S4, E4. destruct e; [done|]. apply app_nil_r.
  - rewrite S5, E5. by destruct e.
Qed.
Lemma erases_idle r b id p : erases r b -> Run.store r !! id = Some p ->
  erases r (Book.add_interactions (Book.set_store b (<[id := erase p]> (Book.store b))) []).
Proof.
  intros (E1 & E2 & E3 & E4 & E5) Hp. split_and!; cbn; try done; [|by rewrite app_nil_r].
  rewrite E1. apply list_insert_id. by rewrite list_lookup_fmap, Hp.
Qed.

Section bar.
Context (r0 : Run) (candle : Candle) (bar_index : nat) (confirmed_at : datetime).
Context (Hcandle : candle_wf candle) (H0 : run_inv all none none r0).

Definition scheduled (p : _PoolState) : Prop := Z.of_nat bar_index < expiry config p.
Definition sel (id : nat) : option bool := choice (dirs_of (Run.store r0)) (Run.active_pools r0) candle bar_index id.
Definition visit (s : Run * list LiquidityInteraction) (id : nat) : pyres (Run * list LiquidityInteraction) :=
  match sel id with Some x => pool_step config bar_index candle confirmed_at s (id, x) | None => Ok s end.

(** The state of both scans when the pools [l] are still to come. *)
Record folding (l : list nat) (s : Run * list LiquidityInteraction) (s' : Book * list LiquidityInteraction) : Prop := {
  fo_events : snd s = snd s';
  fo_NoDup : NoDup l;
  fo_inv : run_inv scheduled none none (fst s);
  fo_erases : erases (fst s) (fst s');
  fo_pools : Run.pools (fst s) = Run.pools r0;
  fo_ahead id : id ∈ l -> id ∈ Run.pools r0 /\ Run.store (fst s) !! id = Run.store r0 !! id;
  fo_behind id p : id ∈ Run.pools r0 -> id ∉ l -> Run.store (fst s) !! id = Some p -> _PoolState.terminal p = false -> scheduled p
}.

Lemma kept_trans p q q' : kept p q -> kept q q' -> kept p q'.
Proof. unfold kept. intuition congruence. Qed.
Lemma same_reach_trans p q q' : same_reach p q -> same_reach q q' -> same_reach p q'.
Proof. unfold same_reach. intuition congruence. Qed.

(** What the start of the bar says of a pool. *)
Lemma sel_spec id p : id ∈ Run.pools r0 -> Run.store r0 !! id = Some p ->
  match sel id with
  | Some reachable => _PoolState.terminal p = false
      /\ (reachable = false -> _process_interaction config p candle confirmed_at = Ok (p, None))
  | None => _process_interaction config p candle confirmed_at = Ok (p, None)
      /\ expire config p bar_index confirmed_at = Ok p /\ (_PoolState.terminal p = false -> scheduled p)
  end.
Proof.
  intros Hin Hp. destruct H0 as [_ [I1 I2 I3 I4] _]. pose proof (I2 id p Hin ltac:(by intros []) Hp) as Hl. unfold linked in Hl.
  unfold sel, choice. destruct (_PoolReachIndex.current (Run.active_pools r0) !! id) as [[reach pos]|] eqn:Ec.
  - destruct Hl as (Hter & _ & ->). unfold dirs_of. rewrite Hp. cbn [fmap option_fmap option_map].
    destruct (within _ _ candle) eqn:Ew; [by split|].
    pose proof (unreached_process config p candle confirmed_at Hcandle Ew) as Hun.
    destruct (due_in _ bar_index id) eqn:Ed; [by split|]. split; [done|].
    assert (scheduled p) as Hs.
    { destruct (I4 id p) as (e & He & Ei & Ea); [by rewrite Ec|done|done|]. unfold scheduled. rewrite <-Ea. apply Znot_ge_lt. intros Hge.
      apply not_true_iff_false in Ed. apply Ed. unfold due_in. apply existsb_exists. exists e. split; [by apply list_elem_of_In|].
      rewrite Ei, Nat.eqb_refl, andb_true_r. apply Z.leb_le. lia. }
    split; [|done]. apply young_expire. unfold scheduled, expiry in Hs. lia.
  - split; [by apply terminal_process|]. split; [by apply terminal_expire|congruence].
Qed.

Lemma visit_related id l s s' : folding (id :: l) s s' ->
  agree (folding l) (visit s id) (spec_pool config bar_index candle confirmed_at s' id).
Proof.
  destruct s as [r ev], s' as [b ev']. intros [F1 F2 F3 F4 F5 F6 F7]. cbn [fst snd] in *. subst ev'.
  apply NoDup_cons in F2 as [Hn Hnd]. destruct (F6 id ltac:(by left)) as [Hin Hsame].
  destruct (lookup_lt_is_Some_2 (Run.store r) id) as [p Hp].
  { apply (ar_range _ _ _ (ri_archive _ _ _ _ F3)). by rewrite F5. }
  assert (Book.store b !! id = Some (erase p)) as Hbp by (destruct F4 as (-> & _); by rewrite list_lookup_fmap, Hp).
  pose proof (sel_spec id p Hin ltac:(congruence)) as Hsel. unfold visit, spec_pool. rewrite Hbp, process_interaction_erase.
  destruct (sel id) as [reachable|].
  - destruct Hsel as [Hter Hun]. unfold pool_step. rewrite Hp.
    assert ((if reachable then _process_interaction config p candle confirmed_at else Ok (p, None))
      = _process_interaction config p candle confirmed_at) as -> by (destruct reachable; [done|by rewrite Hun]).
    destruct (_process_interaction config p candle confirmed_at) as [[q e]|] eqn:Epr; [|done]. cbn [mbind pyres_bind fmap pyres_fmap].
    apply process_interaction_kept in Epr as [Hk Hs].
    assert (run_inv scheduled none none (match e with Some ev0 => Run.add_interaction r ev0 | None => r end)) as F3'
      by (destruct F3; destruct e; by split).
    assert (Run.store (match e with Some ev0 => Run.add_interaction r ev0 | None => r end) = Run.store r) as Hst by (by destruct e).
    assert (Run.pools (match e with Some ev0 => Run.add_interaction r ev0 | None => r end) = Run.pools r) as Hpl by (by destruct e).
    assert ((match e with Some e0 => (Run.add_interaction r e0, ev ++ [e0]) | None => (r, ev) end)
      = (match e with Some ev0 => Run.add_interaction r ev0 | None => r end, ev ++ match e with Some e0 => [e0] | None => [] end)) as ->
      by (destruct e; [done|by rewrite app_nil_r]).
    rewrite expire_erase. destruct (expire config q bar_index confirmed_at) as [q'|] eqn:Eex; [|done]. cbn [mbind pyres_bind fmap pyres_fmap].
    apply expire_kept in Eex as (Hk' & Hs' & Hage).
    set (r1 := match e with Some ev0 => Run.add_interaction r ev0 | None => r end) in *.
    destruct (settle scheduled r1 id p q') as (r2 & Hr2 & Hinv & Hb); try done.
    + intros a a' (_ & _ & Ea) Ha. unfold scheduled, expiry in *. by rewrite <-Ea.
    + by rewrite Hst.
    + by rewrite Hpl, F5.
    + by apply (kept_trans p q q').
    + by apply (same_reach_trans p q q').
    + assert (forall P : pyres (Run * list LiquidityInteraction) -> Prop, P (Ok (r2, ev ++ match e with Some e0 => [e0] | None => [] end)) ->
        P (if _PoolState.terminal q' then r0 ← retire (Run.set_store r1 (<[id := q']> (Run.store r1))) id q';
             Ok (r0, ev ++ match e with Some e0 => [e0] | None => [] end)
           else Ok (Run.set_store r1 (<[id := q']> (Run.store r1)), ev ++ match e with Some e0 => [e0] | None => [] end))) as Hif.
      { intros P HP. destruct (_PoolState.terminal q'); [by rewrite Hr2|]. by injection Hr2 as <-. }
      apply Hif. clear Hif Hr2. rewrite Hst in Hb. split; cbn [fst snd]; try done.
      * by eapply same_but_store_erases.
      * destruct Hb as (_ & -> & _). by rewrite Hpl.
      * intros i Hi. destruct (F6 i ltac:(by right)) as [? <-]. split; [done|]. destruct Hb as (-> & _).
        apply list_lookup_insert_ne. by intros ->.
      * intros i a Hi Hil. destruct Hb as (-> & _). intros Ha Hta. destruct (decide (i = id)) as [->|Hne].
        -- rewrite list_lookup_insert_eq in Ha by (by eapply lookup_lt_Some). injection Ha as <-. specialize (Hage Hta).
           destruct Hk' as (_ & _ & Ec). unfold scheduled, expiry. rewrite Ec. lia.
        -- rewrite list_lookup_insert_ne in Ha by done. apply (F7 i a); try done. by apply not_elem_of_cons.
  - destruct Hsel as (-> & Hex & Hsch). cbn [mbind pyres_bind fmap pyres_fmap]. rewrite expire_erase, Hex. cbn [mbind pyres_bind fmap pyres_fmap].
    split; cbn [fst snd]; try done.
    + by rewrite app_nil_r.
    + by apply erases_idle.
    + intros i Hi. apply F6. by right.
    + intros i a Hi Hil Ha Hta. destruct (decide (i = id)) as [->|Hne].
      * assert (a = p) as -> by congruence. auto.
      * apply (F7 i a); try done. by apply not_elem_of_cons.
Qed.
End bar.
Lemma group_sweeps_erases r b candle at_ ev : erases r b ->
  erases (group_sweeps r candle at_ ev) (Book.add_dual_sweeps b (dual_sweeps_of candle at_ ev)).
Proof.
  intros (E1 & E2 & E3 & E4 & E5). unfold group_sweeps, dual_sweeps_of.
  destruct (_ && _); split_and!; cbn; try done; [by rewrite E5|by rewrite app_nil_r].
Qed.

Lemma group_sweeps_inv r candle at_ ev : run_inv all none none r -> run_inv all none none (group_sweeps r candle at_ ev).
Proof. unfold group_sweeps. intros []. by destruct (_ && _); split. Qed.

(** One bar. *)
Lemma bar_related s s' bar_index candle : candle_wf candle -> related (fst s) (fst s') /\ snd s = snd s' ->
  agree (fun s s' => related (fst s) (fst s') /\ snd s = snd s') (bar_step timeframe candles config atr_result s (bar_index, candle))
    (spec_bar timeframe candles config atr_result s' (bar_index, candle)).
Proof.
  intros Hcandle [H E]. destruct s as [r swings], s' as [b swings']. cbn [fst snd] in *. subst swings'. unfold bar_step, spec_bar.
  apply (agree_bind _ _ _ _ _ _ (swings_related (Candle.timestamp candle) r b swings H)).
  clear r b H swings. intros [r swings] [b swings'] [[H0 He] E]. cbn [fst snd] in *. subst swings'. cbv zeta.
  destruct (index_selected config _ _ _ candle bar_index (ri_index _ _ _ _ H0) (ar_NoDup _ _ _ (ri_archive _ _ _ _ H0)))
    as (rest & -> & Hidx).
  set (at_ := Candle.timestamp candle + timeframe_duration timeframe).
  apply (agree_bind (folding r bar_index [])).
  - rewrite py_fold_omap. pose proof He as (_ & -> & _).
    assert (forall s l, py_fold (fun s id => match pair id <$> choice (dirs_of (Run.store r)) (Run.active_pools r) candle bar_index id with
        Some y => pool_step config bar_index candle at_ s y | None => Ok s end) s l = py_fold (visit r candle bar_index at_) s l) as ->.
    { intros s l. revert s. induction l as [|x l IH]; intros s; [done|]. cbn [py_fold]. unfold visit at 1, sel.
      destruct (choice _ _ candle bar_index x); cbn [fmap option_fmap option_map]; [|apply IH].
      destruct (pool_step _ _ _ _ _ _); [apply IH|done]. }
    apply (agree_fold_rest (folding r bar_index)); [intros; by apply visit_related|].
    split; cbn [fst snd]; try done.
    + apply (ar_NoDup _ _ _ (ri_archive _ _ _ _ H0)).
    + destruct H0 as [Ha _ Hc]. split; [exact Ha|exact Hidx|exact Hc].
  - clear Hidx rest. intros [r2 ev] [b2 ev'] [F1 _ F3 F4 F5 _ F7]. cbn [fst snd] in *. subst ev'. apply swings_related. split.
    + apply group_sweeps_inv. destruct F3 as [Ha Hi Hc]. split; [done| |done]. apply (index_refresh config bar_index); [exact Hi|].
      intros id p Hin Hp Hter. apply (F7 id p); try done; [by rewrite <-F5|apply not_elem_of_nil].
    + by apply group_sweeps_erases.
Qed.
End refinement.

Lemma related_init config : related config Run.init Book.init.
Proof.
  split; [|done]. split.
  - split; [constructor|intros id H; by apply not_elem_of_nil in H|]. intros k other. cbn [Run.pools_by_identity Run.init].
    assert ((∅ : gmap string (list nat)) !! k = None) as -> by apply lookup_empty. split; [intros H; by apply not_elem_of_nil in H|].
    intros [H _]. by apply not_elem_of_nil in H.
  - split; [apply tables_empty|intros id p H; by apply not_elem_of_nil in H|constructor|].
    intros id p [x H]. assert ((∅ : gmap nat (dec * nat)) !! id = None) as E by apply lookup_empty. cbn in H. by rewrite E in H.
  - split.
    + intros d. constructor.
    + intros d a o. split; [intros H; by apply not_elem_of_nil in H|]. by intros (c & H & _).
    + by intros d o c id H.
    + by intros d o c d' o' c' id H.
    + by intros d o c id p H.
    + intros id d a o H. assert ((∅ : gmap nat (LiquidityDirection * dec * nat)) !! id = None) as E by apply lookup_empty. cbn in H. by rewrite E in H.
Qed.

(** The engine is its specification. *)
Lemma engine_is_spec candles timeframe confirmed_swings config atr_result :
  Forall (fun c => valid_candle c = true) candles -> LiquidityConfig.valid config = true ->
  analyze_liquidity candles timeframe confirmed_swings config atr_result
  = liquidity_spec candles timeframe confirmed_swings config atr_result.
Proof.
  intros Hcandles Hconfig. assert (dltb (D 0) (LiquidityConfig.tick_size config) = true) as Htick.
  { unfold LiquidityConfig.valid in Hconfig. by bool_hyps. }
  unfold analyze_liquidity, liquidity_spec. destruct (_validate_inputs _ _ _ _ _) as [[]|]; [|done]. cbn [mbind pyres_bind].
  destruct (data_cutoff_at candles timeframe) as [cutoff|]; [|done].
  set (usable := List.filter _ _).
  assert (agree (fun s s' => related config (fst s) (fst s') /\ snd s = snd s')
    (py_fold (bar_step timeframe candles config atr_result) (Run.init, usable) (enumerate candles))
    (py_fold (spec_bar timeframe candles config atr_result) (Book.init, usable) (enumerate candles))) as Hfold.
  { apply (agree_fold (fun s s' => related config (fst s) (fst s') /\ snd s = snd s')).
    - intros s s' [i c] Hx H. apply bar_related; [done| |done]. apply elem_of_enumerate, list_elem_of_lookup_2 in Hx.
      rewrite Forall_forall in Hcandles. by apply valid_candle_wf, Hcandles.
    - split; [apply related_init|done]. }
  destruct (py_fold (bar_step _ _ _ _) _ _) as [[r rest]|e], (py_fold (spec_bar _ _ _ _) _ _) as [[b rest']|e'];
    cbn [agree fst snd] in Hfold; [|contradiction..|by subst].
  destruct Hfold as [Hr E].
  cbn [mbind pyres_bind]. destruct Hr as [_ (E1 & E2 & E3 & E4 & E5)]. rewrite E2, E4, E5.
  assert (py_map _to_schema (omap (fun id => Book.store b !! id) (Run.pools r))
      = py_map _to_schema (omap (fun id => Run.store r !! id) (Run.pools r))) as ->; [|done].
    rewrite E1. clear. induction (Run.pools r) as [|id l IH]; [done|]. cbn [omap list_omap]. rewrite list_lookup_fmap.
    destruct (Run.store r !! id) as [p|]; cbn [fmap option_fmap option_map]; [|exact IH]. cbn [py_map]. by rewrite to_schema_erase, IH.
Qed.

(** C11. The liquidity engine, with its price index, its heap of ages and its
    binary-searched index of clusters, returns what the plain scans of
    [LiquiditySpec] return, pool for pool and event for event, and raises when
    they raise, with the same exception: a swing joins the first living cluster
    it matches, and on every bar every pool of the archive is examined. *)
Theorem analyze_liquidity_refines candles timeframe confirmed_swings config atr_result :
  Forall (fun c => valid_candle c = true) candles -> LiquidityConfig.valid config = true ->
  analyze_liquidity candles timeframe confirmed_swings config atr_result
  = liquidity_spec candles timeframe confirmed_swings config atr_result.
Proof. apply engine_is_spec. Qed.
