(* ===== verification/LiquidityContract.v ===== *)
(** What the liquidity engine promises its clients: on inputs that pass its
    checks it returns, and the pools it returns are valid, their histories
    entry by entry. *)
From Stdlib Require Import ZArith QArith Lia Lqa.
From stdpp Require Import base list strings numbers sets gmap.
From S2P Require Import Prelude SortedIndex Decimal Time Candle Indicators Structure Engine LiquidityTypes.
From S2P Require Import Liquidity LiquiditySpec LiquidityIndex LiquidityTheory LiquidityRefinement.
Local Open Scope Z_scope.

(** ** One pool *)

(** The entry that records a pool as it is. *)
Definition entry_at (p : _PoolState) (n : nat) (t : LiquidityPoolHistoryEventType) (at_ : datetime) (e : option string)
    : LiquidityPoolHistoryEntry :=
  LiquidityPoolHistoryEntry.mkLiquidityPoolHistoryEntry n t at_
    (_event_type (_PoolState.direction p) (_PoolState.formation p)) (_PoolState.formation p)
    (_PoolState.level p) (_PoolState.lower_bound p) (_PoolState.upper_bound p) (_PoolState.state p)
    (_PoolState.terminal_reason p) (_PoolState.confirmation p) (_PoolState.source_structure p)
    (_PoolState.source_prices p) (_PoolState.source_pivot_timestamps p) (_PoolState.members_available_at p)
    (_PoolState.swept_at p) e.

(** The fields a history entry and the schema constrain. *)
Record core (p : _PoolState) : Prop := {
  co_level : dltb (D 0) (_PoolState.level p) = true;
  co_lower : dltb (D 0) (_PoolState.lower_bound p) = true;
  co_upper : dltb (D 0) (_PoolState.upper_bound p) = true;
  co_order : dltb (_PoolState.upper_bound p) (_PoolState.lower_bound p) = false;
  co_source : _PoolState.source_structure p <> [];
  co_prices : length (_PoolState.source_structure p) = length (_PoolState.source_prices p);
  co_pivots : length (_PoolState.source_prices p) = length (_PoolState.source_pivot_timestamps p);
  co_members : length (_PoolState.source_pivot_timestamps p) = length (_PoolState.members_available_at p);
  co_available : Forall (fun t => t <= _PoolState.updated_at p) (_PoolState.members_available_at p);
  co_swept : _PoolState.state p = LiquidityPoolState.SWEPT -> _PoolState.swept_at p <> None
}.

Definition entry_ok (e : LiquidityPoolHistoryEntry) : Prop :=
  LiquidityPoolHistoryEntry.validate_history_entry e = true
  /\ (LiquidityPoolHistoryEntry.state e = LiquidityPoolState.SWEPT -> LiquidityPoolHistoryEntry.swept_at e <> None).

(** A history in order, from the creation up to [now]. *)
Record chronicle (created_at now : datetime) (h : list LiquidityPoolHistoryEntry) : Prop := {
  ch_sequence : map LiquidityPoolHistoryEntry.sequence h = seq 0 (length h);
  ch_first : match h with
    | [] => True
    | first :: _ => LiquidityPoolHistoryEntry.event_type first = LiquidityPoolHistoryEventType.CREATED
        /\ available_at first = created_at
    end;
  ch_order : out_of_order h = false;
  ch_entries : Forall entry_ok h;
  ch_now : Forall (fun e => available_at e <= now) h
}.

(** *** The protocol of a pool *)

Definition transition (s : LiquidityPoolState) (t : LiquidityPoolHistoryEventType) : option LiquidityPoolState :=
  match s, t with
  | LiquidityPoolState.ACTIVE, LiquidityPoolHistoryEventType.SWEPT => Some LiquidityPoolState.SWEPT
  | (LiquidityPoolState.ACTIVE | LiquidityPoolState.SWEPT),
    (LiquidityPoolHistoryEventType.MEMBERS_UPDATED | LiquidityPoolHistoryEventType.TOUCHED) => Some s
  | (LiquidityPoolState.ACTIVE | LiquidityPoolState.SWEPT), LiquidityPoolHistoryEventType.TAKEN => Some LiquidityPoolState.TAKEN
  | (LiquidityPoolState.ACTIVE | LiquidityPoolState.SWEPT), LiquidityPoolHistoryEventType.EXPIRED => Some LiquidityPoolState.EXPIRED
  | _, _ => None
  end.

(** Every entry is a transition from the state the one before recorded. *)
Fixpoint follows (s : LiquidityPoolState) (h : list LiquidityPoolHistoryEntry) : bool :=
  match h with
  | [] => true
  | e :: rest => bool_decide (transition s (LiquidityPoolHistoryEntry.event_type e) = Some (LiquidityPoolHistoryEntry.state e))
                 && follows (LiquidityPoolHistoryEntry.state e) rest
  end.

Definition follows_protocol (h : list LiquidityPoolHistoryEntry) : bool :=
  match h with
  | [] => false
  | e :: rest => bool_decide (LiquidityPoolHistoryEntry.event_type e = LiquidityPoolHistoryEventType.CREATED)
                 && bool_decide (LiquidityPoolHistoryEntry.state e = LiquidityPoolState.ACTIVE) && follows LiquidityPoolState.ACTIVE rest
  end.

Lemma follows_snoc s h l e : follows s (h ++ [l]) = true ->
  transition (LiquidityPoolHistoryEntry.state l) (LiquidityPoolHistoryEntry.event_type e) = Some (LiquidityPoolHistoryEntry.state e) ->
  follows s ((h ++ [l]) ++ [e]) = true.
Proof.
  revert s. induction h as [|x h IH]; intros s; cbn; intros [H1 H2]%andb_true_iff He; rewrite H1; cbn.
  - by rewrite bool_decide_eq_true_2.
  - by apply IH.
Qed.

Lemma follows_protocol_snoc h l e : follows_protocol h = true -> list.last h = Some l ->
  transition (LiquidityPoolHistoryEntry.state l) (LiquidityPoolHistoryEntry.event_type e) = Some (LiquidityPoolHistoryEntry.state e) ->
  follows_protocol (h ++ [e]) = true.
Proof.
  destruct h as [|x h] using rev_ind; [done|]. clear IHh. rewrite last_snoc. intros H [= ->] He. destruct h as [|y h].
  - cbn [follows_protocol app follows] in *. apply andb_true_iff in H as [H _]. rewrite H. cbn [andb].
    apply andb_true_iff in H as [_ Hs%bool_decide_eq_true]. rewrite Hs in He. by rewrite bool_decide_eq_true_2.
  - cbn [follows_protocol app] in *. apply andb_true_iff in H as [-> H]. cbn [andb]. by apply follows_snoc.
Qed.

Lemma open_transition s t : terminal_state s = false ->
  t = LiquidityPoolHistoryEventType.MEMBERS_UPDATED \/ t = LiquidityPoolHistoryEventType.TOUCHED -> transition s t = Some s.
Proof. destruct s; try done; by intros _ [->| ->]. Qed.
Lemma taken_transition s : terminal_state s = false -> transition s LiquidityPoolHistoryEventType.TAKEN = Some LiquidityPoolState.TAKEN.
Proof. by destruct s. Qed.
Lemma expired_transition s : terminal_state s = false -> transition s LiquidityPoolHistoryEventType.EXPIRED = Some LiquidityPoolState.EXPIRED.
Proof. by destruct s. Qed.

Record pool_ok (p : _PoolState) : Prop := {
  po_core : core p;
  po_chronicle : chronicle (_PoolState.created_at p) (_PoolState.updated_at p) (_PoolState.history p);
  po_latest : exists n t e, list.last (_PoolState.history p) = Some (entry_at p n t (_PoolState.updated_at p) e);
  po_protocol : follows_protocol (_PoolState.history p) = true;
  po_interactions : Forall (fun e => LiquidityInteraction.confirmed_at e <= _PoolState.updated_at p) (_PoolState.interactions p)
}.

Lemma chronicle_later created now now' h : now <= now' -> chronicle created now h -> chronicle created now' h.
Proof. intros H []. split; try done. eapply Forall_impl; [eassumption|]. cbn. lia. Qed.

Lemma out_of_order_snoc l e now : out_of_order l = false -> Forall (fun x => available_at x <= now) l -> available_at e = now ->
  out_of_order (l ++ [e]) = false.
Proof.
  intros Ho Hf He. induction l as [|x l IH]; [done|]. apply Forall_cons_iff in Hf as [Hx Hf].
  destruct (chronological_cons _ _ Ho) as [Ho' _]. destruct l as [|y l].
  - cbn. unfold out_of_order. cbn. apply orb_false_iff. split; [apply Z.ltb_ge; lia|done].
  - change (out_of_order ((x :: y :: l) ++ [e])) with ((available_at y <? available_at x) || out_of_order ((y :: l) ++ [e])).
    rewrite IH by done. change (out_of_order (x :: y :: l)) with ((available_at y <? available_at x) || out_of_order (y :: l)) in Ho.
    apply orb_false_iff in Ho as [-> _]. done.
Qed.

Lemma core_entry p n t e : core p -> entry_ok (entry_at p n t (_PoolState.updated_at p) e).
Proof.
  intros []. split; [|done]. unfold LiquidityPoolHistoryEntry.validate_history_entry, entry_at. cbn.
  rewrite co_level0, co_lower0, co_upper0, co_order0. rewrite co_prices0, co_pivots0, co_members0, !Nat.eqb_refl. cbn.
  rewrite (proj2 (Nat.eqb_neq _ _)); cbn.
  - apply negb_true_iff, not_true_iff_false. intros (m & Hm%list_elem_of_In & Hlt)%existsb_exists.
    rewrite Forall_forall in co_available0. specialize (co_available0 m Hm). lia.
  - rewrite <-co_members0, <-co_pivots0, <-co_prices0. destruct (_PoolState.source_structure p); done.
Qed.

(** Recording an update always succeeds. *)
Lemma record_ok p t e : core p -> chronicle (_PoolState.created_at p) (_PoolState.updated_at p) (_PoolState.history p) ->
  match list.last (_PoolState.history p) with
  | None => t = LiquidityPoolHistoryEventType.CREATED /\ _PoolState.updated_at p = _PoolState.created_at p
      /\ _PoolState.state p = LiquidityPoolState.ACTIVE
  | Some l => follows_protocol (_PoolState.history p) = true
      /\ transition (LiquidityPoolHistoryEntry.state l) t = Some (_PoolState.state p)
  end ->
  Forall (fun e => LiquidityInteraction.confirmed_at e <= _PoolState.updated_at p) (_PoolState.interactions p) ->
  let h := entry_at p (length (_PoolState.history p)) t (_PoolState.updated_at p) e in
  _record_history p t (_PoolState.updated_at p) e = Ok (_PoolState.set_history p (_PoolState.history p ++ [h]))
  /\ pool_ok (_PoolState.set_history p (_PoolState.history p ++ [h])).
Proof.
  intros Hc [H1 H2 H3 H4 H5] Hfirst Hi h. pose proof (core_entry p (length (_PoolState.history p)) t e Hc) as He. split.
  - unfold _record_history, validated. fold (entry_at p (length (_PoolState.history p)) t (_PoolState.updated_at p) e).
    destruct He as [-> _]. done.
  - split; cbn; [by destruct Hc| | | |done].
    + split.
      * rewrite map_app, H1, length_app, seq_app. done.
      * destruct (_PoolState.history p) as [|first rest] eqn:E; cbn; [|done]. by destruct Hfirst as (-> & -> & _).
      * eapply out_of_order_snoc; [done|exact H5|done].
      * apply Forall_app. split; [done|]. by constructor.
      * apply Forall_app. split; [done|]. constructor; [|constructor]. apply Z.le_refl.
    + exists (length (_PoolState.history p)), t, e. by rewrite last_snoc.
    + destruct (list.last (_PoolState.history p)) as [l|] eqn:El.
      * destruct Hfirst as [Hf Ht]. by apply (follows_protocol_snoc _ l).
      * apply last_None in El. destruct Hfirst as (-> & _ & Hst). rewrite El. cbn. rewrite Hst. done.
Qed.

(** The schema of a sound pool. *)
Definition schema (pool : _PoolState) : LiquidityPool :=
  LiquidityPool.mkLiquidityPool (_PoolState.pool_id pool)
    (_event_type (_PoolState.direction pool) (_PoolState.formation pool)) (_PoolState.direction pool)
    (_PoolState.formation pool) (_PoolState.level pool) (_PoolState.lower_bound pool) (_PoolState.upper_bound pool)
    (_PoolState.state pool) (_PoolState.terminal_reason pool) (_PoolState.created_at pool) (_PoolState.created_at pool)
    (_PoolState.updated_at pool) (_PoolState.swept_at pool) (_PoolState.confirmation pool)
    (_PoolState.source_structure pool) (_PoolState.source_prices pool) (_PoolState.source_pivot_timestamps pool)
    (_PoolState.members_available_at pool) (_PoolState.interactions pool) (_PoolState.history pool).

Lemma schema_ok p : pool_ok p -> _to_schema p = Ok (schema p) /\ LiquidityPool.validate_pool (schema p) = true /\ entries_ok (schema p).
Proof.
  intros [[] [] (n & t & e & Hl) _ _]. assert (LiquidityPool.validate_pool (schema p) = true) as Hv.
  { unfold LiquidityPool.validate_pool. cbn. fold (out_of_order (_PoolState.history p)).
    rewrite co_level0, co_lower0, co_upper0, co_order0. rewrite co_prices0, co_pivots0, co_members0, !Nat.eqb_refl.
    assert (negb (bool_decide (_PoolState.state p = LiquidityPoolState.SWEPT) && bool_decide (_PoolState.swept_at p = None)) = true) as ->.
    { apply negb_true_iff, andb_false_iff. destruct (decide (_PoolState.state p = LiquidityPoolState.SWEPT)) as [E|E];
        [right; apply bool_decide_eq_false; auto|left; by apply bool_decide_eq_false]. }
    rewrite Hl, ch_order0, ch_sequence0. rewrite (proj2 (Nat.eqb_neq _ _)), Z.eqb_refl.
    - rewrite (bool_decide_eq_true_2 (seq _ _ = seq _ _)) by done. cbn [negb andb]. destruct (_PoolState.history p) as [|first rest]; [done|].
      destruct ch_first0 as [-> ->]. rewrite bool_decide_eq_true_2, Z.eqb_refl by done. cbn [andb].
      unfold LiquidityPool.exposes, entry_at. cbn. by rewrite !bool_decide_eq_true_2, !deqb_refl, list_eqb_refl, Z.eqb_refl by done.
    - rewrite <-co_members0, <-co_pivots0, <-co_prices0. by destruct (_PoolState.source_structure p). }
  split; [|done]. unfold _to_schema, validated. fold (schema p). by rewrite Hv.
Qed.

(** What one step may do to a pool from [now] on: entries and interactions are
    only added, and what identifies the pool stays. *)
Definition extends (now : datetime) (p q : _PoolState) : Prop :=
  kept p q /\ _PoolState.level q = _PoolState.level p /\ _PoolState.created_at q = _PoolState.created_at p
  /\ exists hs es, _PoolState.history q = _PoolState.history p ++ hs /\ _PoolState.interactions q = _PoolState.interactions p ++ es
       /\ Forall (fun h => now <= available_at h) hs /\ Forall (fun e => now <= LiquidityInteraction.confirmed_at e) es.

Lemma extends_refl now p : extends now p p.
Proof. split_and!; try done. exists [], []. by rewrite !app_nil_r. Qed.

Lemma extends_trans now now' p q r : now <= now' -> extends now p q -> extends now' q r -> extends now p r.
Proof.
  intros Hle (K1 & L1 & C1 & hs & es & H1 & H2 & H3 & H4) (K2 & L2 & C2 & hs' & es' & H1' & H2' & H3' & H4').
  split_and!; [by eapply kept_trans|congruence|congruence|]. exists (hs ++ hs'), (es ++ es').
  rewrite H1', H1, H2', H2, !app_assoc. split_and!; try done; apply Forall_app; (split; [done|]);
    (eapply Forall_impl; [eassumption|]); cbn; lia.
Qed.

Section contract.
Context (timeframe : Timeframe) (candles : list Candle) (config : LiquidityConfig) (atr_result : option ATRResult).
Context (Hconfig : LiquidityConfig.valid config = true).

Lemma core_life p at_ st reason swept ints hist : core p -> _PoolState.updated_at p <= at_ ->
  (st = LiquidityPoolState.SWEPT -> swept <> None) -> core (_PoolState.set_life p at_ st reason swept ints hist).
Proof. intros [] Hle Hs. split; try done. eapply Forall_impl; [exact co_available0|]. cbn. lia. Qed.

(** A pool changed by the bar that closes at [at_], about to be recorded. *)
Lemma life_record_ok p at_ st reason swept ints t e : pool_ok p -> _PoolState.updated_at p <= at_ ->
  transition (_PoolState.state p) t = Some st ->
  (st = LiquidityPoolState.SWEPT -> swept <> None) ->
  (exists es, ints = _PoolState.interactions p ++ es /\ Forall (fun e => LiquidityInteraction.confirmed_at e = at_) es) ->
  let p1 := _PoolState.set_life p at_ st reason swept ints (_PoolState.history p) in
  exists q, _record_history p1 t at_ e = Ok q /\ pool_ok q /\ extends at_ p q /\ _PoolState.updated_at q = at_.
Proof.
  intros [Hc Hch (n & t' & e' & Hl) Hpr Hi] Hle Htr Hs (es & -> & Hes) p1.
  destruct (record_ok p1 t e) as [H1 H2].
  - by apply core_life.
  - by eapply chronicle_later.
  - change (_PoolState.history p1) with (_PoolState.history p). by rewrite Hl.
  - cbn. apply Forall_app. split; (eapply Forall_impl; [eassumption|]); cbn; lia.
  - eexists. split; [exact H1|]. split; [exact H2|]. split; [|done]. split_and!; try done. eexists [_], es. split_and!; try done.
    + constructor; [|constructor]. apply Z.le_refl.
    + eapply Forall_impl; [exact Hes|]. cbn. lia.
Qed.

Lemma interact_ok p st reason swept t c at_ conf h : pool_ok p -> _PoolState.updated_at p <= at_ -> Candle.timestamp c < at_ ->
  transition (_PoolState.state p) h = Some st -> (st = LiquidityPoolState.SWEPT -> swept <> None) ->
  exists q ev, interact (_PoolState.set_life p at_ st reason swept (_PoolState.interactions p) (_PoolState.history p)) t c at_ conf h = Ok (q, Some ev)
    /\ pool_ok q /\ extends at_ p q /\ _PoolState.updated_at q = at_ /\ LiquidityInteraction.confirmed_at ev = at_.
Proof.
  intros Hp Hle Ht Htr Hs. unfold interact, _append_interaction, validated.
  set (p1 := _PoolState.set_life p at_ st reason swept (_PoolState.interactions p) (_PoolState.history p)).
  match goal with |- context [if _ ?x then _ else _] => set (ev := x) end.
  assert (LiquidityInteraction.validate_times ev = true) as ->.
  { unfold LiquidityInteraction.validate_times. subst ev. cbn. rewrite (co_level _ (po_core _ Hp)), (proj2 (Z.leb_gt _ _) Ht).
    destruct t; cbn; by rewrite ?bool_decide_eq_true_2 by done. }
  cbn [mbind pyres_bind].
  destruct (life_record_ok p at_ st reason swept (_PoolState.interactions p ++ [ev]) h (Some (LiquidityInteraction.event_id ev)) Hp Hle Htr Hs)
    as (q & Hq & H1 & H2 & H3); [by exists [ev]; split; [done|repeat constructor]|].
  exists q, ev. split; [|done].
  change (_PoolState.set_life p1 (_PoolState.updated_at p1) (_PoolState.state p1) (_PoolState.terminal_reason p1) (_PoolState.swept_at p1)
    (_PoolState.interactions p1 ++ [ev]) (_PoolState.history p1))
    with (_PoolState.set_life p at_ st reason swept (_PoolState.interactions p ++ [ev]) (_PoolState.history p)).
  by rewrite Hq.
Qed.

Lemma process_ok p c at_ : pool_ok p -> _PoolState.updated_at p <= at_ -> Candle.timestamp c < at_ ->
  exists q ev, _process_interaction config p c at_ = Ok (q, ev) /\ pool_ok q /\ extends at_ p q /\ _PoolState.updated_at q <= at_
    /\ forall e, ev = Some e -> LiquidityInteraction.confirmed_at e = at_.
Proof.
  intros Hp Hle Ht. unfold _process_interaction.
  assert (exists q ev, Ok (p, None) = (Ok (q, ev) : pyres (_PoolState * option LiquidityInteraction)) /\ pool_ok q /\ extends at_ p q
    /\ _PoolState.updated_at q <= at_ /\ forall e, ev = Some e -> LiquidityInteraction.confirmed_at e = at_) as Hidle.
  { exists p, None. split_and!; try done. apply extends_refl. }
  assert (forall st reason swept t conf h, transition (_PoolState.state p) h = Some st -> (st = LiquidityPoolState.SWEPT -> swept <> None) -> exists q ev,
    interact (_PoolState.set_life p at_ st reason swept (_PoolState.interactions p) (_PoolState.history p)) t c at_ conf h = Ok (q, ev)
    /\ pool_ok q /\ extends at_ p q /\ _PoolState.updated_at q <= at_ /\ forall e, ev = Some e -> LiquidityInteraction.confirmed_at e = at_) as Hact.
  { intros st reason swept t conf h Htr Hs. destruct (interact_ok p st reason swept t c at_ conf h Hp Hle Ht Htr Hs) as (q & ev & H & H1 & H2 & H3 & H4).
    exists q, (Some ev). split_and!; try done; [lia|]. by intros e [= <-]. }
  destruct (_PoolState.terminal p || _) eqn:Eg; [exact Hidle|]. apply orb_false_iff in Eg as [Eg _].
  destruct (taken config p c); [apply Hact; [by apply taken_transition|done]|].
  destruct (sweep config p c && _) eqn:Es; [apply andb_true_iff in Es as [_ Es]; apply bool_decide_eq_true in Es; apply Hact; [by rewrite Es|done]|].
  destruct (touch p c); [|exact Hidle]. apply Hact; [apply open_transition; [done|by right]|]. apply (co_swept _ (po_core _ Hp)).
Qed.

Lemma expiry_ok p bar at_ : pool_ok p -> _PoolState.updated_at p <= at_ ->
  exists q, expire config p bar at_ = Ok q /\ pool_ok q /\ extends at_ p q /\ _PoolState.updated_at q <= at_.
Proof.
  intros Hp Hle. unfold expire. destruct (negb (_PoolState.terminal p) && _) eqn:Eg.
  - apply andb_true_iff in Eg as [Eg%negb_true_iff _]. destruct (life_record_ok p at_ LiquidityPoolState.EXPIRED (Some LiquidityTerminationReason.MAX_AGE_EXCEEDED) (_PoolState.swept_at p)
      (_PoolState.interactions p) LiquidityPoolHistoryEventType.EXPIRED None Hp Hle (expired_transition _ Eg)) as (q & Hq & H1 & H2 & H3); [done| |].
    + exists []. by rewrite app_nil_r.
    + exists q. split_and!; try done. lia.
  - exists p. split_and!; try done. apply extends_refl.
Qed.

(** ** Members *)

(** A swing whose pools keep positive bounds. *)
Record swing_ok (s : ConfirmedSwing) : Prop := {
  so_single : dltb (D 0) (dsub DEFAULT_PREC (ConfirmedSwing.price s) (ticks config (LiquidityConfig.liquidity_single_pool_half_width_ticks config))) = true;
  so_padded : dltb (D 0) (dsub DEFAULT_PREC (ConfirmedSwing.price s) (ticks config (LiquidityConfig.liquidity_cluster_padding_ticks config))) = true
}.

Lemma config_ticks_nonneg n : 0 <= n -> (0 <= Qval (ticks config n))%Q.
Proof.
  intros Hn. apply dmul_nonneg; [rewrite Qval_D; change 0%Q with (inject_Z 0); by rewrite <-Zle_Qle|].
  pose proof Hconfig as Hv. unfold LiquidityConfig.valid in Hv. bool_hyps.
  apply dltb_true in H. rewrite Qval_D0 in H. lra.
Qed.

Lemma half_width_nonneg : (0 <= Qval (ticks config (LiquidityConfig.liquidity_single_pool_half_width_ticks config)))%Q.
Proof. apply config_ticks_nonneg. pose proof Hconfig as Hv. unfold LiquidityConfig.valid in Hv. bool_hyps. lia. Qed.
Lemma padding_nonneg : (0 <= Qval (ticks config (LiquidityConfig.liquidity_cluster_padding_ticks config)))%Q.
Proof. apply config_ticks_nonneg. pose proof Hconfig as Hv. unfold LiquidityConfig.valid in Hv. bool_hyps. lia. Qed.

Lemma swing_price_pos s : swing_ok s -> (0 < Qval (ConfirmedSwing.price s))%Q.
Proof.
  intros [H _]. apply dltb_true in H. rewrite Qval_D0 in H. pose proof half_width_nonneg.
  apply (dsub_pos (p := DEFAULT_PREC)) in H. lra.
Qed.

(** Bounds around prices. *)
Lemma bounds_ok lowest highest w : (0 <= Qval w)%Q -> (Qval lowest <= Qval highest)%Q ->
  dltb (D 0) (dsub DEFAULT_PREC lowest w) = true ->
  dltb (D 0) (dadd DEFAULT_PREC highest w) = true /\ dltb (dadd DEFAULT_PREC highest w) (dsub DEFAULT_PREC lowest w) = false.
Proof.
  intros Hw Hle Hpos. apply dltb_true in Hpos. rewrite Qval_D0 in Hpos.
  pose proof (proj1 (dsub_pos (p := DEFAULT_PREC) lowest w) Hpos).
  rewrite dltb_true, dltb_false, Qval_D0. split; [apply dadd_pos; lra|].
  eapply rounds_to_mono; [apply default_prec_valid| |apply dsub_rounds|apply dadd_rounds]. lra.
Qed.

(** Source lists read off the members. *)
Definition of_members (p : _PoolState) (members : list ConfirmedSwing) : Prop :=
  _PoolState.source_structure p = map ConfirmedSwing.swing_id members
  /\ _PoolState.source_prices p = map ConfirmedSwing.price members
  /\ _PoolState.source_pivot_timestamps p = map ConfirmedSwing.pivot_timestamp members
  /\ _PoolState.members_available_at p = map ConfirmedSwing.confirmed_at members.

Lemma core_members p members : of_members p members -> members <> [] ->
  dltb (D 0) (_PoolState.level p) = true -> dltb (D 0) (_PoolState.lower_bound p) = true ->
  dltb (D 0) (_PoolState.upper_bound p) = true -> dltb (_PoolState.upper_bound p) (_PoolState.lower_bound p) = false ->
  Forall (fun s => ConfirmedSwing.confirmed_at s <= _PoolState.updated_at p) members ->
  (_PoolState.state p = LiquidityPoolState.SWEPT -> _PoolState.swept_at p <> None) -> core p.
Proof.
  intros (E1 & E2 & E3 & E4) Hne H1 H2 H3 H4 H5 H6. split; try done.
  - rewrite E1. by destruct members.
  - by rewrite E1, E2, !length_map.
  - by rewrite E2, E3, !length_map.
  - by rewrite E3, E4, !length_map.
  - rewrite E4. apply Forall_fmap. exact H5.
Qed.

Lemma new_single_ok s bar : swing_ok s -> exists p, _new_single_pool config s bar = Ok p /\ pool_ok p
  /\ _PoolState.updated_at p = ConfirmedSwing.confirmed_at s /\ _PoolState.created_at p = ConfirmedSwing.confirmed_at s
  /\ Forall (fun h => ConfirmedSwing.confirmed_at s <= available_at h) (_PoolState.history p) /\ _PoolState.interactions p = [].
Proof.
  intros Hs. unfold _new_single_pool. cbv zeta. match goal with |- context [_record_history ?x] => set (p := x) end.
  destruct (bounds_ok (ConfirmedSwing.price s) (ConfirmedSwing.price s) _ half_width_nonneg ltac:(lra) (so_single _ Hs)) as [B1 B2].
  destruct (record_ok p LiquidityPoolHistoryEventType.CREATED None) as [H1 H2].
  - apply (core_members p [s]); try done; [|apply Hs|].
    + subst p. cbn. apply dltb_true. rewrite Qval_D0. by apply swing_price_pos.
    + constructor; [apply Z.le_refl|constructor].
  - by split.
  - done.
  - constructor.
  - eexists. split; [exact H1|]. split_and!; try done. constructor; [apply Z.le_refl|constructor].
Qed.
(** ** The store *)

Definition store_ok (now : datetime) (store : list _PoolState) : Prop :=
  Forall (fun p => pool_ok p /\ _PoolState.updated_at p <= now) store.

Record stores_extend (now : datetime) (store store' : list _PoolState) : Prop := {
  se_old id p : store !! id = Some p -> exists p', store' !! id = Some p' /\ extends now p p';
  se_new id p' : (length store <= id)%nat -> store' !! id = Some p' -> now <= _PoolState.created_at p'
}.

Lemma store_ok_later now now' store : now <= now' -> store_ok now store -> store_ok now' store.
Proof. intros H Hs. eapply Forall_impl; [exact Hs|]. cbn. intros p [? ?]. split; [done|lia]. Qed.

Lemma store_ok_lookup now store id p : store_ok now store -> store !! id = Some p -> pool_ok p /\ _PoolState.updated_at p <= now.
Proof. intros Hs Hp. by apply (Forall_lookup_1 _ _ _ _ Hs Hp). Qed.

Lemma stores_extend_refl now store : stores_extend now store store.
Proof. split; [intros id p Hp; exists p; split; [done|apply extends_refl]|]. intros id p Hle Hp%lookup_lt_Some. lia. Qed.

Lemma stores_extend_length now store store' : stores_extend now store store' -> (length store <= length store')%nat.
Proof.
  intros [H _]. destruct (decide (length store <= length store')%nat) as [|Hn]; [done|].
  destruct (lookup_lt_is_Some_2 store (length store') ltac:(lia)) as [p Hp]. destruct (H _ _ Hp) as (p' & Hp' & _).
  apply lookup_lt_Some in Hp'. lia.
Qed.

Lemma stores_extend_trans now now' s1 s2 s3 : now <= now' -> stores_extend now s1 s2 -> stores_extend now' s2 s3 -> stores_extend now s1 s3.
Proof.
  intros Hle [O1 N1] [O2 N2]. split.
  - intros id p Hp. destruct (O1 _ _ Hp) as (p2 & Hp2 & H2). destruct (O2 _ _ Hp2) as (p3 & Hp3 & H3). exists p3. split; [done|].
    by eapply extends_trans.
  - intros id p3 Hid Hp3. destruct (s2 !! id) as [p2|] eqn:E.
    + destruct (O2 _ _ E) as (q & Hq & Hx). assert (q = p3) as -> by congruence. destruct Hx as (_ & _ & -> & _). by apply (N1 id).
    + apply lookup_ge_None in E. specialize (N2 id p3 E Hp3). lia.
Qed.

Lemma stores_extend_snoc now store p : now <= _PoolState.created_at p -> stores_extend now store (store ++ [p]).
Proof.
  intros H. split.
  - intros id q Hq. exists q. split; [by apply lookup_app_l_Some|apply extends_refl].
  - intros id q Hle Hq. rewrite lookup_app_r in Hq by done. by apply list_lookup_singleton_Some in Hq as [_ <-].
Qed.

Lemma stores_extend_insert now store id p q : store !! id = Some p -> extends now p q -> stores_extend now store (<[id := q]> store).
Proof.
  intros Hp Hx. split.
  - intros i a Ha. destruct (decide (i = id)) as [->|Hne].
    + exists q. rewrite list_lookup_insert_eq by (by eapply lookup_lt_Some). split; [done|]. congruence.
    + exists a. rewrite list_lookup_insert_ne by done. split; [done|apply extends_refl].
  - intros i a Hle Ha. apply lookup_lt_Some in Ha. rewrite length_insert in Ha. lia.
Qed.

Lemma store_ok_snoc now store p : store_ok now store -> pool_ok p -> _PoolState.updated_at p <= now -> store_ok now (store ++ [p]).
Proof. intros Hs H1 H2. apply Forall_app. split; [done|]. apply Forall_singleton. done. Qed.

Lemma store_ok_insert now store id p : store_ok now store -> pool_ok p -> _PoolState.updated_at p <= now -> store_ok now (<[id := p]> store).
Proof. intros Hs H1 H2. by apply Forall_insert. Qed.

(** ** Clusters *)

Record cluster_ok (now : datetime) (n : nat) (c : _ClusterState) : Prop := {
  cs_members : _ClusterState.members c <> [];
  cs_swings : Forall (fun s => swing_ok s /\ ConfirmedSwing.confirmed_at s <= now) (_ClusterState.members c);
  cs_anchor : dltb (D 0) (_ClusterState.anchor_price c) = true;
  cs_pool id : _ClusterState.pool c = Some id -> (id < n)%nat
}.

Lemma cluster_ok_later now now' n n' c : now <= now' -> (n <= n')%nat -> cluster_ok now n c -> cluster_ok now' n' c.
Proof.
  intros H Hn [H1 H2 H3 H4]. split; try done.
  - eapply Forall_impl; [exact H2|]. cbn. intros s [? ?]. split; [done|lia].
  - intros id Hid. specialize (H4 id Hid). lia.
Qed.

(** The extremes of the member prices and the bounds they give. *)
Lemma member_bounds members : members <> [] -> Forall swing_ok members ->
  exists lowest highest, py_min_dec (map ConfirmedSwing.price members) = Ok lowest /\ py_max_dec (map ConfirmedSwing.price members) = Ok highest
    /\ let padding := ticks config (LiquidityConfig.liquidity_cluster_padding_ticks config) in
       dltb (D 0) (dsub DEFAULT_PREC lowest padding) = true /\ dltb (D 0) (dadd DEFAULT_PREC highest padding) = true
       /\ dltb (dadd DEFAULT_PREC highest padding) (dsub DEFAULT_PREC lowest padding) = false.
Proof.
  intros Hne Hs. unfold py_min_dec, py_max_dec, py_max.
  destruct (py_min dltb (map ConfirmedSwing.price members)) as [lowest|] eqn:El;
    [|apply py_min_None in El; by destruct members].
  destruct (py_min (fun x y => dltb y x) (map ConfirmedSwing.price members)) as [highest|] eqn:Eh;
    [|apply py_min_None in Eh; by destruct members].
  exists lowest, highest. split; [done|]. split; [done|].
  apply py_min_spec in El as [L1 L2]; [|typeclasses eauto]. apply (py_min_spec (rev_lt dltb)) in Eh as [H1 H2].
  apply list_elem_of_fmap in L1 as (s & -> & Hin). rewrite Forall_forall in Hs. pose proof (so_padded _ (Hs s Hin)) as Hpos.
  split; [exact Hpos|]. apply bounds_ok; [apply padding_nonneg| |exact Hpos]. apply dltb_false. by apply L2.
Qed.

Definition latest_is (t : datetime) (members : list ConfirmedSwing) : Prop :=
  exists latest, list.last members = Some latest /\ ConfirmedSwing.confirmed_at latest = t.

Lemma update_cluster_ok now t store c bar : store_ok now store -> now <= t -> cluster_ok t (length store) c ->
  live store c = true -> latest_is t (_ClusterState.members c) ->
  exists store' c' o, _update_cluster_pool config store c bar = Ok (store', c', o) /\ store_ok t store' /\ stores_extend t store store'
    /\ cluster_ok t (length store') c' /\ (forall id, o = Some id -> (id < length store')%nat).
Proof.
  intros Hs Hle Hc Hlive (latest & Hlast & Ht). pose proof (store_ok_later now t store Hle Hs) as Hst. unfold _update_cluster_pool.
  destruct (length _ <? _)%nat; [exists store, c, None; split_and!; try done; apply stores_extend_refl|].
  destruct Hc as [C1 C2 C3 C4]. rewrite Hlast.
  assert (Forall swing_ok (_ClusterState.members c)) as Hsw by (eapply Forall_impl; [exact C2|]; by intros ? []).
  assert (Forall (fun s => ConfirmedSwing.confirmed_at s <= t) (_ClusterState.members c)) as Htm by (eapply Forall_impl; [exact C2|]; by intros ? []).
  destruct (member_bounds _ C1 Hsw) as (lowest & highest & -> & -> & B1 & B2 & B3). cbn [mbind pyres_bind].
  destruct (head (_ClusterState.members c)) as [first|] eqn:Eh; [|by destruct (_ClusterState.members c)].
  destruct (_ClusterState.pool c) as [id|] eqn:Ep.
  - destruct (lookup_lt_is_Some_2 store id (C4 _ eq_refl)) as [p Hp]. rewrite Hp.
    destruct (store_ok_lookup _ _ _ _ Hs Hp) as [[Hcore Hch (n & t' & e' & Hl) Hpr Hi] Hup]. unfold update_members.
    assert (_PoolState.terminal p = false) as Hopen by (unfold live in Hlive; rewrite Ep, Hp in Hlive; by apply negb_true_iff in Hlive).
    match goal with |- context [_record_history ?x] => set (p1 := x) end.
    destruct (record_ok p1 LiquidityPoolHistoryEventType.MEMBERS_UPDATED None) as [H1 H2].
    + apply (core_members p1 (_ClusterState.members c)); try done; [apply Hcore|subst p1; cbn; by rewrite Ht|apply Hcore].
    + subst p1. cbn. rewrite Ht. eapply chronicle_later; [|exact Hch]. lia.
    + change (_PoolState.history p1) with (_PoolState.history p). rewrite Hl. split; [done|]. apply open_transition; [exact Hopen|by left].
    + subst p1. cbn. rewrite Ht. eapply Forall_impl; [exact Hi|]. cbn. lia.
    + change (_PoolState.updated_at p1) with (ConfirmedSwing.confirmed_at latest) in H1. rewrite H1. cbn [mbind pyres_bind].
      eexists _, c, (Some id). split; [reflexivity|].
      split_and!.
      * apply store_ok_insert; [done..|]. subst p1. cbn. lia.
      * apply (stores_extend_insert t store id p); [done|]. split_and!; try done. eexists [_], []. rewrite app_nil_r. split_and!; try done.
        constructor; [|constructor]. subst p1. cbn. lia.
      * rewrite length_insert. split; try done. intros i Hi'. apply C4. congruence.
      * intros i [= <-]. rewrite length_insert. by apply C4.
  - unfold new_cluster_pool. match goal with |- context [_record_history ?x] => set (p1 := x) end.
    destruct (record_ok p1 LiquidityPoolHistoryEventType.CREATED None) as [H1 H2].
    + apply (core_members p1 (_ClusterState.members c)); try done. subst p1. cbn. by rewrite Ht.
    + by split.
    + done.
    + constructor.
    + change (_PoolState.updated_at p1) with (ConfirmedSwing.confirmed_at latest) in H1. rewrite H1. cbn [mbind pyres_bind].
      eexists _, _, _. split; [reflexivity|]. split_and!.
      * apply store_ok_snoc; [done..|]. subst p1. cbn. lia.
      * apply stores_extend_snoc. subst p1. cbn. lia.
      * split; try done. cbn. intros i [= <-]. rewrite length_app. cbn. lia.
      * intros i [= <-]. rewrite length_app. cbn. lia.
Qed.
(** ** The book *)

Record book_ok (now : datetime) (b : Book) : Prop := {
  bo_store : store_ok now (Book.store b);
  bo_clusters d : Forall (cluster_ok now (length (Book.store b))) (Book.clusters b d);
  bo_pools id : id ∈ Book.pools b -> (id < length (Book.store b))%nat;
  bo_interactions : Forall (fun e => LiquidityInteraction.confirmed_at e <= now) (Book.interactions b);
  bo_sweeps : Forall (fun g => DualSweepGroup.confirmed_at g <= now) (Book.dual_sweeps b)
}.

Record book_extends (now : datetime) (b b' : Book) : Prop := {
  be_store : stores_extend now (Book.store b) (Book.store b');
  be_pools : exists ids, Book.pools b' = Book.pools b ++ ids;
  be_interactions : exists es, Book.interactions b' = Book.interactions b ++ es
    /\ Forall (fun e => now <= LiquidityInteraction.confirmed_at e) es;
  be_sweeps : exists gs, Book.dual_sweeps b' = Book.dual_sweeps b ++ gs /\ Forall (fun g => now <= DualSweepGroup.confirmed_at g) gs
}.

Lemma book_ok_later now now' b : now <= now' -> book_ok now b -> book_ok now' b.
Proof.
  intros H [H1 H2 H3 H4 H5]. split; [by eapply store_ok_later| |done| |].
  - intros d. eapply Forall_impl; [exact (H2 d)|]. intros c. by apply cluster_ok_later.
  - eapply Forall_impl; [exact H4|]. cbn. lia.
  - eapply Forall_impl; [exact H5|]. cbn. lia.
Qed.

Lemma book_extends_refl now b : book_extends now b b.
Proof.
  split; [apply stores_extend_refl|exists []; by rewrite app_nil_r|exists []; by rewrite app_nil_r..].
Qed.

Lemma book_extends_trans now now' b1 b2 b3 : now <= now' -> book_extends now b1 b2 -> book_extends now' b2 b3 -> book_extends now b1 b3.
Proof.
  intros Hle [S1 [i1 P1] (e1 & E1 & F1) (g1 & G1 & J1)] [S2 [i2 P2] (e2 & E2 & F2) (g2 & G2 & J2)]. split.
  - by eapply stores_extend_trans.
  - exists (i1 ++ i2). by rewrite P2, P1, app_assoc.
  - exists (e1 ++ e2). rewrite E2, E1, app_assoc. split; [done|]. apply Forall_app. split; [done|].
    eapply Forall_impl; [exact F2|]. cbn. lia.
  - exists (g1 ++ g2). rewrite G2, G1, app_assoc. split; [done|]. apply Forall_app. split; [done|].
    eapply Forall_impl; [exact J2|]. cbn. lia.
Qed.

Lemma book_extends_later now now' b b' : now <= now' -> book_extends now' b b' -> book_extends now b b'.
Proof. intros H Hx. eapply book_extends_trans; [exact H|apply book_extends_refl|exact Hx]. Qed.

Lemma archive_new_pools b id : exists ids, Book.pools (archive_new b id) = Book.pools b ++ ids
  /\ (forall i, i ∈ ids -> i = id) /\ Book.store (archive_new b id) = Book.store b /\ (forall d, Book.clusters (archive_new b id) d = Book.clusters b d)
  /\ Book.interactions (archive_new b id) = Book.interactions b /\ Book.dual_sweeps (archive_new b id) = Book.dual_sweeps b.
Proof.
  unfold archive_new. destruct (Book.store b !! id) as [p|]; [destruct (known b id p)|].
  - exists []. rewrite app_nil_r. split_and!; try done. by intros i Hi%not_elem_of_nil.
  - exists [id]. split_and!; try done. by intros i ->%list_elem_of_singleton.
  - exists []. rewrite app_nil_r. split_and!; try done. by intros i Hi%not_elem_of_nil.
Qed.

Definition aligned (s : ConfirmedSwing) : Prop := is_Some (close_to_index timeframe candles !! ConfirmedSwing.confirmed_at s).

Lemma single_ok now b s bar : book_ok now b -> swing_ok s -> now <= ConfirmedSwing.confirmed_at s ->
  exists b', (if LiquidityConfig.liquidity_include_single_swing_pools config then
      pool ← _new_single_pool config s bar;
      Ok (Book.archive (Book.set_store b (Book.store b ++ [pool])) (length (Book.store b)))
    else Ok b) = Ok b' /\ book_ok (ConfirmedSwing.confirmed_at s) b' /\ book_extends (ConfirmedSwing.confirmed_at s) b b'
    /\ Book.clusters b' = Book.clusters b.
Proof.
  intros Hb Hs Hle. pose proof (book_ok_later _ _ _ Hle Hb) as Hb'.
  destruct (LiquidityConfig.liquidity_include_single_swing_pools config); [|exists b; split_and!; try done; apply book_extends_refl].
  destruct (new_single_ok s bar Hs) as (p & -> & Hp & Hu & Hc & Hh & Hi). cbn [mbind pyres_bind].
  eexists. split; [reflexivity|]. destruct Hb' as [B1 B2 B3 B4 B5]. split_and!; [|split|done].
  - split; cbn; try done.
    + apply store_ok_snoc; [done..|lia].
    + intros d. eapply Forall_impl; [exact (B2 d)|]. intros c. apply cluster_ok_later; [lia|]. rewrite length_app. lia.
    + intros id [Hin| ->%list_elem_of_singleton]%elem_of_app; rewrite length_app; cbn; [specialize (B3 id Hin)|]; lia.
  - cbn. apply stores_extend_snoc. lia.
  - cbn. by exists [length (Book.store b)].
  - exists []. by rewrite app_nil_r.
  - exists []. by rewrite app_nil_r.
Qed.

Lemma new_swing_cluster_ok t n s c : swing_ok s -> ConfirmedSwing.confirmed_at s = t ->
  c = _ClusterState.mk_ClusterState (_side_for s) (ConfirmedSwing.price s) [s] false None -> cluster_ok t n c.
Proof.
  intros Hs Ht ->. split; cbn; try done.
  - apply Forall_singleton. split; [done|lia].
  - apply dltb_true. rewrite Qval_D0. by apply swing_price_pos.
Qed.

(** A swing confirmed now. *)
Lemma spec_swing_ok now b s : book_ok now b -> swing_ok s -> aligned s -> now <= ConfirmedSwing.confirmed_at s ->
  exists b', spec_swing timeframe candles config atr_result b s = Ok b'
    /\ book_ok (ConfirmedSwing.confirmed_at s) b' /\ book_extends (ConfirmedSwing.confirmed_at s) b b'.
Proof.
  intros Hb Hs [bar Hbar] Hle. unfold spec_swing. rewrite Hbar.
  destruct (single_ok now b s bar Hb Hs Hle) as (b1 & -> & Hb1 & Hx1 & _). cbn [mbind pyres_bind].
  set (t := ConfirmedSwing.confirmed_at s) in *. set (d := _side_for s).
  assert (forall l o, Forall (cluster_ok t o) l -> (forall d', Forall (cluster_ok t o) (Book.clusters b1 d')) ->
    forall d', Forall (cluster_ok t o) (if bool_decide (d' = d) then l else Book.clusters b1 d')) as Hset
    by (intros; by case_bool_decide).
  destruct (matching_cluster config b1 s _) as [[o c]|] eqn:Em.
  - apply list_find_Some in Em as (Hc & HP & _). fold d in Hc. apply andb_true_iff in HP as [Hlive _]. pose proof Hb1 as [B1 B2 B3 B4 B5].
    pose proof (Forall_lookup_1 _ _ _ _ (B2 d) Hc) as Hcok.
    match goal with |- context [_update_cluster_pool config (Book.store b1) ?x bar] => set (c1 := x) end.
    destruct (update_cluster_ok t t (Book.store b1) c1 bar B1 ltac:(lia)) as (store' & c' & o' & -> & Hst & Hse & Hc' & Ho).
    { destruct Hcok as [C1 C2 C3 C4]. split; try done; cbn.
      - by intros [_ ?]%app_nil.
      - apply Forall_app. split; [done|]. apply Forall_singleton. split; [done|unfold t; lia]. }
    { exact Hlive. }
    { exists s. split; [|done]. cbn. by rewrite last_snoc. }
    cbn [mbind pyres_bind]. eexists. split; [reflexivity|].
    set (b2 := Book.set_clusters (Book.set_store b1 store') d (<[o := c']> (Book.clusters b1 d))).
    pose proof (stores_extend_length _ _ _ Hse) as Hlen.
    assert (book_ok t b2) as Hb2.
    { split; cbn; try done.
      - apply Hset; [apply Forall_insert; [|done]|]; [|intros d'];
          (eapply Forall_impl; [exact (B2 _)|]; intros x; by apply cluster_ok_later).
      - intros id Hin. specialize (B3 id Hin). lia. }
    assert (book_extends t b1 b2) as Hx2.
    { split; [done|exists []; by rewrite app_nil_r|exists []; by rewrite app_nil_r..]. }
    destruct o' as [id|]; [|split; [exact Hb2|by eapply book_extends_trans]].
    destruct (archive_new_pools b2 id) as (ids & P1 & P2 & P3 & P4 & P5 & P6). destruct Hb2 as [A1 A2 A3 A4 A5]. split.
    + split; rewrite ?P3, ?P5, ?P6; try done.
      * intros d'. rewrite P4. apply A2.
      * rewrite P1. intros i [Hi| ->%P2]%elem_of_app; [by apply A3|by apply Ho].
    + eapply book_extends_trans; [apply Z.le_refl|exact Hx1|]. eapply book_extends_trans; [apply Z.le_refl|exact Hx2|].
      split; [rewrite P3; apply stores_extend_refl|by exists ids|exists []; by rewrite app_nil_r, ?P5, ?P6..].
  - eexists. split; [reflexivity|]. destruct Hb1 as [B1 B2 B3 B4 B5]. split.
    + split; cbn; try done. apply Hset; [|done]. apply Forall_app. split; [done|]. apply Forall_singleton. by apply (new_swing_cluster_ok t _ s).
    + destruct Hx1 as [X1 X2 X3 X4]. by split.
Qed.

(** The swings up to [t], in the order of their confirmation. *)
Fixpoint ascending (now : datetime) (swings : list ConfirmedSwing) : Prop :=
  match swings with
  | [] => True
  | s :: rest => now <= ConfirmedSwing.confirmed_at s /\ ascending (ConfirmedSwing.confirmed_at s) rest
  end.

Lemma ascending_later now swings s : ascending now swings -> s ∈ swings -> now <= ConfirmedSwing.confirmed_at s.
Proof.
  revert now. induction swings as [|x l IH]; intros now Ha Hs; [by apply not_elem_of_nil in Hs|]. destruct Ha as [H1 H2].
  apply elem_of_cons in Hs as [->|Hs]; [done|]. specialize (IH _ H2 Hs). lia.
Qed.

Lemma spec_swings_ok t now b swings : book_ok now b -> Forall (fun s => swing_ok s /\ aligned s) swings -> ascending now swings -> now <= t ->
  exists b' rest, spec_swings timeframe candles config atr_result t b swings = Ok (b', rest)
    /\ book_ok t b' /\ book_extends now b b' /\ (exists used, swings = used ++ rest)
    /\ Forall (fun s => t < ConfirmedSwing.confirmed_at s) rest /\ ascending t rest.
Proof.
  revert now b. induction swings as [|s rest IH]; intros now b Hb Hs Ha Hle.
  - exists b, []. split_and!; try done; [by eapply book_ok_later|apply book_extends_refl|by exists []].
  - apply Forall_cons_iff in Hs as [[H1 H2] Hs]. destruct Ha as [Ha1 Ha2]. cbn [spec_swings].
    destruct (Z.leb_spec (ConfirmedSwing.confirmed_at s) t) as [Hst|Hst].
    + destruct (spec_swing_ok now b s Hb H1 H2 Ha1) as (b1 & -> & Hb1 & Hx1). cbn [mbind pyres_bind].
      destruct (IH _ b1 Hb1 Hs Ha2 Hst) as (b' & r & -> & Hb' & Hx & (used & Hu) & Hr & Har).
      exists b', r. split_and!; try done.
      * eapply book_extends_later; [exact Ha1|]. eapply book_extends_trans; [|exact Hx1|exact Hx]. lia.
      * exists (s :: used). by rewrite Hu.
    + exists b, (s :: rest). split_and!; try done; [by eapply book_ok_later|apply book_extends_refl|by exists []| |by split; [lia|]].
      constructor; [done|]. apply Forall_forall. intros x Hx. pose proof (ascending_later _ _ _ Ha2 Hx). lia.
Qed.
Lemma spec_swings_none t b swings : Forall (fun s => t < ConfirmedSwing.confirmed_at s) swings ->
  spec_swings timeframe candles config atr_result t b swings = Ok (b, swings).
Proof.
  intros H. destruct swings as [|s rest]; [done|]. apply Forall_cons_iff in H as [H _]. cbn [spec_swings].
  by rewrite (proj2 (Z.leb_gt _ _) H).
Qed.

(** ** A bar *)

Lemma spec_pool_ok at_ bar c b ev id : book_ok at_ b -> Candle.timestamp c < at_ ->
  Forall (fun e => LiquidityInteraction.confirmed_at e = at_) ev ->
  exists b' ev', spec_pool config bar c at_ (b, ev) id = Ok (b', ev') /\ book_ok at_ b' /\ book_extends at_ b b'
    /\ Forall (fun e => LiquidityInteraction.confirmed_at e = at_) ev' /\ Book.pools b' = Book.pools b.
Proof.
  intros Hb Ht Hev. pose proof Hb as [B1 B2 B3 B4 B5]. unfold spec_pool.
  destruct (Book.store b !! id) as [p|] eqn:Hp; [|exists b, ev; split_and!; try done; apply book_extends_refl].
  destruct (store_ok_lookup _ _ _ _ B1 Hp) as [Hok Hup].
  destruct (process_ok p c at_ Hok Hup Ht) as (q & e & -> & Hq & Hx & Hqu & He). cbn [mbind pyres_bind].
  destruct (expiry_ok q bar at_ Hq Hqu) as (q' & -> & Hq' & Hx' & Hqu'). cbn [mbind pyres_bind].
  assert (Forall (fun x => LiquidityInteraction.confirmed_at x = at_) (match e with Some x => [x] | None => [] end)) as Hes
    by (destruct e as [x|]; [apply Forall_singleton; by apply He|constructor]).
  eexists _, _. split; [reflexivity|]. split_and!; [| |by apply Forall_app|done].
  - split; cbn; try done.
    + by apply store_ok_insert.
    + intros d. eapply Forall_impl; [exact (B2 d)|]. intros x. apply cluster_ok_later; [lia|]. by rewrite length_insert.
    + intros i Hi. rewrite length_insert. by apply B3.
    + apply Forall_app. split; [done|]. eapply Forall_impl; [exact Hes|]. cbn. lia.
  - split; cbn.
    + apply (stores_extend_insert at_ _ id p); [done|]. eapply extends_trans; [apply Z.le_refl|exact Hx|exact Hx'].
    + exists []. by rewrite app_nil_r.
    + eexists. split; [reflexivity|]. eapply Forall_impl; [exact Hes|]. cbn. lia.
    + exists []. by rewrite app_nil_r.
Qed.

Lemma spec_pools_ok at_ bar c ids b ev : book_ok at_ b -> Candle.timestamp c < at_ ->
  Forall (fun e => LiquidityInteraction.confirmed_at e = at_) ev ->
  exists b' ev', py_fold (spec_pool config bar c at_) (b, ev) ids = Ok (b', ev') /\ book_ok at_ b' /\ book_extends at_ b b'.
Proof.
  intros Hb Ht. revert b ev Hb. induction ids as [|id ids IH]; intros b ev Hb Hev.
  - exists b, ev. split_and!; try done. apply book_extends_refl.
  - cbn [py_fold]. destruct (spec_pool_ok at_ bar c b ev id Hb Ht Hev) as (b1 & ev1 & -> & Hb1 & Hx1 & Hev1 & _).
    destruct (IH b1 ev1 Hb1 Hev1) as (b2 & ev2 & -> & Hb2 & Hx2). exists b2, ev2. split_and!; try done.
    eapply book_extends_trans; [apply Z.le_refl|exact Hx1|exact Hx2].
Qed.

Lemma add_dual_sweeps_ok at_ b c ev : book_ok at_ b ->
  book_ok at_ (Book.add_dual_sweeps b (dual_sweeps_of c at_ ev)) /\ book_extends at_ b (Book.add_dual_sweeps b (dual_sweeps_of c at_ ev)).
Proof.
  intros [B1 B2 B3 B4 B5].
  assert (Forall (fun g => DualSweepGroup.confirmed_at g = at_) (dual_sweeps_of c at_ ev)) as Hg
    by (unfold dual_sweeps_of; destruct (_ && _); [by apply Forall_singleton|constructor]).
  split; split; cbn; try done.
  - apply Forall_app. split; [done|]. eapply Forall_impl; [exact Hg|]. cbn. lia.
  - apply stores_extend_refl.
  - exists []. by rewrite app_nil_r.
  - exists []. by rewrite app_nil_r.
  - eexists. split; [reflexivity|]. eapply Forall_impl; [exact Hg|]. cbn. lia.
Qed.

Section clock.
Context (first : Candle) (Hfirst : candles !! 0%nat = Some first) (Hspaced : evenly_spaced timeframe candles).

(** Bar [n] opens at [clock n] and closes at [clock (S n)]. *)
Definition clock (n : nat) : datetime := Candle.timestamp first + Z.of_nat n * timeframe_duration timeframe.

Lemma clock_lt i j : (i < j)%nat -> clock i < clock j.
Proof. unfold clock. pose proof (timeframe_duration_pos timeframe). nia. Qed.
Lemma clock_le i j : (i <= j)%nat -> clock i <= clock j.
Proof. unfold clock. pose proof (timeframe_duration_pos timeframe). nia. Qed.

Lemma opens_at i c : candles !! i = Some c -> Candle.timestamp c = clock i.
Proof. intros Hc. pose proof (evenly_spaced_nth _ _ _ _ _ _ Hspaced Hfirst Hc). unfold clock. lia. Qed.
Lemma closes_at i c : candles !! i = Some c -> Candle.timestamp c + timeframe_duration timeframe = clock (S i).
Proof. intros Hc. rewrite (opens_at i c Hc). unfold clock. lia. Qed.

Lemma aligned_clock s : aligned s -> exists j, (j < length candles)%nat /\ ConfirmedSwing.confirmed_at s = clock (S j).
Proof.
  intros [j Hj]. apply (index_by_close timeframe candles) in Hj as (c & Hc & Ht); [|done]. exists j.
  split; [by eapply lookup_lt_Some|]. by rewrite <-Ht, (closes_at j c).
Qed.

(** The swings that wait for the close of bar [n]. *)
Definition pending (n : nat) (swings : list ConfirmedSwing) : Prop :=
  Forall (fun s => swing_ok s /\ aligned s) swings /\ ascending (clock (S n)) swings.

Lemma ascending_raise now t swings : ascending now swings -> Forall (fun s => t <= ConfirmedSwing.confirmed_at s) swings -> ascending t swings.
Proof. destruct swings as [|s rest]; [done|]. intros [_ H] Hf. apply Forall_cons_iff in Hf as [Hf _]. by split. Qed.

Lemma pending_later n swings : Forall (fun s => swing_ok s /\ aligned s) swings -> ascending (clock (S n)) swings ->
  Forall (fun s => clock (S n) < ConfirmedSwing.confirmed_at s) swings -> pending (S n) swings.
Proof.
  intros H1 H2 H3. split; [done|]. eapply ascending_raise; [exact H2|]. apply Forall_forall. intros s Hs.
  rewrite Forall_forall in H1, H3. destruct (H1 s Hs) as [_ (j & _ & Hj)%aligned_clock]. specialize (H3 s Hs). rewrite Hj in H3 |- *.
  apply clock_le. destruct (decide (S n < S j)%nat) as [|Hn]; [lia|]. pose proof (clock_le (S j) (S n) ltac:(lia)). lia.
Qed.

Lemma spec_bar_ok i c b swings : candles !! i = Some c -> book_ok (clock i) b -> pending i swings ->
  exists b' rest, spec_bar timeframe candles config atr_result (b, swings) (i, c) = Ok (b', rest)
    /\ book_ok (clock (S i)) b' /\ book_extends (clock (S i)) b b' /\ pending (S i) rest /\ exists used, swings = used ++ rest.
Proof.
  intros Hc Hb [Hp1 Hp2]. pose proof (clock_lt i (S i) ltac:(lia)) as Hlt. unfold spec_bar.
  rewrite spec_swings_none.
  2:{ rewrite (opens_at i c Hc). apply Forall_forall. intros s Hs. pose proof (ascending_later _ _ _ Hp2 Hs). lia. }
  cbn [mbind pyres_bind]. cbv zeta. rewrite (closes_at i c Hc).
  destruct (spec_pools_ok (clock (S i)) i c (Book.pools b) b []) as (b1 & ev & -> & Hb1 & Hx1).
  { eapply book_ok_later; [|exact Hb]. lia. }
  { rewrite (opens_at i c Hc). done. }
  { constructor. }
  cbn [mbind pyres_bind]. destruct (add_dual_sweeps_ok (clock (S i)) b1 c ev Hb1) as [Hb2 Hx2].
  destruct (spec_swings_ok (clock (S i)) (clock (S i)) _ swings Hb2 Hp1 Hp2 ltac:(lia)) as (b3 & rest & -> & Hb3 & Hx3 & (used & ->) & Hr & Har).
  exists b3, rest. split_and!; try done.
  - eapply book_extends_trans; [apply Z.le_refl|exact Hx1|]. eapply book_extends_trans; [apply Z.le_refl|exact Hx2|exact Hx3].
  - apply pending_later; [|done|done]. by apply Forall_app in Hp1 as [_ Hp1].
  - by exists used.
Qed.

Context (usable : list ConfirmedSwing) (Hpending : pending 0 usable).

(** The state of the book after [n] bars. *)
Definition after (n : nat) (b : Book) (rest : list ConfirmedSwing) : Prop :=
  py_fold (spec_bar timeframe candles config atr_result) (Book.init, usable) (take n (enumerate candles)) = Ok (b, rest)
  /\ book_ok (clock n) b /\ pending n rest /\ exists used, usable = used ++ rest.

Lemma init_ok now : book_ok now Book.init.
Proof. split; cbn; try constructor. intros id H. by apply not_elem_of_nil in H. Qed.

Lemma after_step n b rest : (n < length candles)%nat -> after n b rest ->
  exists b' rest', after (S n) b' rest' /\ book_extends (clock (S n)) b b'.
Proof.
  intros Hn (Hf & Hb & Hp & used & Hu). destruct (lookup_lt_is_Some_2 candles n Hn) as [c Hc].
  destruct (spec_bar_ok n c b rest Hc Hb Hp) as (b' & rest' & Hbar & Hb' & Hx & Hp' & used' & Hu').
  exists b', rest'. split; [|done]. split; [|split_and!; try done; exists (used ++ used'); by rewrite Hu, Hu', app_assoc].
  rewrite (take_S_r _ n (n, c)) by (by rewrite enumerate_lookup, Hc). rewrite py_fold_app, Hf. cbn [mbind pyres_bind py_fold]. by rewrite Hbar.
Qed.

Lemma after_ok n : (n <= length candles)%nat -> exists b rest, after n b rest.
Proof.
  induction n as [|n IH]; intros Hn.
  - exists Book.init, usable. split; [done|]. split; [apply init_ok|]. split; [done|by exists []].
  - destruct (IH ltac:(lia)) as (b & rest & H). destruct (after_step n b rest ltac:(lia) H) as (b' & rest' & H' & _). eauto.
Qed.

(** From bar [n] on, only later things are added. *)
Lemma after_extends n m b rest : after n b rest -> (n <= m <= length candles)%nat ->
  exists b' rest', after m b' rest' /\ book_extends (clock (S n)) b b'.
Proof.
  intros H Hnm. induction m as [|m IH]; [assert (n = 0%nat) as -> by lia; exists b, rest; split; [done|apply book_extends_refl]|].
  destruct (decide (n = S m)) as [->|Hne]; [exists b, rest; split; [done|apply book_extends_refl]|].
  destruct (IH ltac:(lia)) as (b1 & rest1 & H1 & Hx1). destruct (after_step m b1 rest1 ltac:(lia) H1) as (b2 & rest2 & H2 & Hx2).
  exists b2, rest2. split; [done|]. eapply book_extends_trans; [|exact Hx1|exact Hx2]. apply clock_le. lia.
Qed.
End clock.

(** ** The analysis *)

Lemma liquidity_inputs_ok swings : _validate_inputs candles timeframe swings config atr_result = Ok tt ->
  evenly_spaced timeframe candles
  /\ (forall i s s', swings !! i = Some s -> swings !! S i = Some s' -> ConfirmedSwing.confirmed_at s <= ConfirmedSwing.confirmed_at s')
  /\ validate_atr_alignment "LiquidityInputError" candles atr_result = Ok tt.
Proof.
  intros ([] & _ & ([] & H1%validate_spacing_ok & ([] & H2 & H3)%bind_ok)%bind_ok)%bind_ok. split; [done|]. split; [|done].
  apply py_for_ok in H2. rewrite pairwise_Forall in H2. intros i s s' Hs Hs'. specialize (H2 i s s' Hs Hs'). apply raise_if_ok in H2. lia.
Qed.

Lemma ascending_chain s rest :
  (forall i a b, (s :: rest) !! i = Some a -> (s :: rest) !! S i = Some b -> ConfirmedSwing.confirmed_at a <= ConfirmedSwing.confirmed_at b) ->
  ascending (ConfirmedSwing.confirmed_at s) rest.
Proof.
  revert s. induction rest as [|s' rest IH]; intros s H; [done|]. split; [by apply (H 0%nat)|]. apply IH. intros i. apply (H (S i)).
Qed.

Lemma ascending_weaken now now' swings : now <= now' -> ascending now' swings -> ascending now swings.
Proof. destruct swings as [|s rest]; [done|]. intros Hle [H1 H2]. split; [lia|done]. Qed.

Lemma ascending_of now swings :
  (forall i a b, swings !! i = Some a -> swings !! S i = Some b -> ConfirmedSwing.confirmed_at a <= ConfirmedSwing.confirmed_at b) ->
  Forall (fun s => now <= ConfirmedSwing.confirmed_at s) swings -> ascending now swings.
Proof.
  destruct swings as [|s rest]; [done|]. intros H [Hs _]%Forall_cons_iff. eapply ascending_weaken; [exact Hs|].
  split; [apply Z.le_refl|]. by apply ascending_chain.
Qed.

(** The swings known at an instant come first. *)
Lemma ascending_split now c swings : ascending now swings ->
  swings = List.filter (fun s => ConfirmedSwing.confirmed_at s <=? c) swings
           ++ List.filter (fun s => negb (ConfirmedSwing.confirmed_at s <=? c)) swings.
Proof.
  revert now. induction swings as [|s rest IH]; intros now Ha; [done|]. pose proof Ha as [_ Hr]. cbn [List.filter].
  destruct (Z.leb_spec (ConfirmedSwing.confirmed_at s) c) as [Hle|Hgt]; cbn [negb app].
  - f_equal. by eapply IH.
  - assert (forall x, x ∈ rest -> (ConfirmedSwing.confirmed_at x <=? c) = false) as Hx.
    { intros x Hx. pose proof (ascending_later _ _ _ Hr Hx). lia. }
    rewrite list_filter_none by done. cbn. f_equal. symmetry. apply list_filter_all. intros x Hin. by rewrite Hx.
Qed.

Lemma ascending_prefix now l k : ascending now (l ++ k) -> ascending now l.
Proof. revert now. induction l as [|s l IH]; intros now H; [done|]. destruct H as [H1 H2]. split; [done|]. by apply IH. Qed.

Definition usable_at (cutoff : datetime) (swings : list ConfirmedSwing) : list ConfirmedSwing :=
  List.filter (fun swing => ConfirmedSwing.confirmed_at swing <=? cutoff) swings.

Lemma cutoff_clock first : candles !! 0%nat = Some first -> evenly_spaced timeframe candles ->
  data_cutoff_at candles timeframe = Some (clock first (length candles)).
Proof.
  intros Hf Hs. assert (candles <> []) as Hne by (by intros ->).
  unfold data_cutoff_at. destruct (list.last candles) as [c|] eqn:E; [|by apply last_None in E].
  rewrite last_lookup in E. rewrite (closes_at first Hf Hs _ _ E). do 2 f_equal. apply lookup_lt_Some in E. lia.
Qed.

(** Every swing confirmed by the cutoff is confirmed at a close. *)
Definition swings_ok (swings : list ConfirmedSwing) : Prop :=
  Forall (fun s => swing_ok s /\ (forall cutoff, data_cutoff_at candles timeframe = Some cutoff ->
    ConfirmedSwing.confirmed_at s <= cutoff -> aligned s)) swings.

Lemma usable_pending first swings : candles !! 0%nat = Some first -> _validate_inputs candles timeframe swings config atr_result = Ok tt ->
  swings_ok swings -> pending first 0 (usable_at (clock first (length candles)) swings).
Proof.
  intros Hf Hv Hs. destruct (liquidity_inputs_ok _ Hv) as (Hsp & Hord & _).
  assert (Forall (fun s => swing_ok s /\ aligned s) (usable_at (clock first (length candles)) swings)) as Hall.
  { apply Forall_forall. intros s [Hin Hc]%elem_of_filter_bool. unfold swings_ok in Hs. rewrite Forall_forall in Hs. destruct (Hs s Hin) as [H1 H2].
    split; [done|]. apply (H2 _ (cutoff_clock first Hf Hsp)). lia. }
  split; [done|]. destruct swings as [|s0 rest]; [done|].
  assert (ascending (ConfirmedSwing.confirmed_at s0) (s0 :: rest)) as Ha by (split; [apply Z.le_refl|by apply ascending_chain]).
  pose proof (ascending_split _ (clock first (length candles)) _ Ha) as E. rewrite E in Ha. apply ascending_prefix in Ha.
  eapply ascending_raise; [exact Ha|]. apply Forall_forall. intros s Hin. rewrite Forall_forall in Hall.
  destruct (Hall s Hin) as [_ (j & _ & ->)%(aligned_clock first Hf Hsp)]. apply clock_le. lia.
Qed.

(** The result of the analysis, from the book at the end. *)
Definition book_result (b : Book) (cutoff : datetime) (pools : list LiquidityPool) : LiquidityAnalysisResult :=
  LiquidityAnalysisResult.mkLiquidityAnalysisResult timeframe config (length candles) (Some cutoff) pools
    (Book.interactions b) (Book.dual_sweeps b).

Lemma spec_result first swings : candles !! 0%nat = Some first -> _validate_inputs candles timeframe swings config atr_result = Ok tt ->
  swings_ok swings -> exists b rest,
    after first (usable_at (clock first (length candles)) swings) (length candles) b rest
    /\ liquidity_spec candles timeframe swings config atr_result
      = Ok (book_result b (clock first (length candles)) (map schema (omap (fun id => Book.store b !! id) (Book.pools b))))
    /\ Forall pool_ok (omap (fun id => Book.store b !! id) (Book.pools b)).
Proof.
  intros Hf Hv Hs. destruct (liquidity_inputs_ok _ Hv) as (Hsp & _). pose proof (usable_pending first swings Hf Hv Hs) as Hp.
  destruct (after_ok first Hf Hsp _ Hp (length candles) ltac:(lia)) as (b & rest & Ha). exists b, rest. split; [done|].
  destruct Ha as (Hfold & [Hst _ _ _ _] & _).
  assert (Forall pool_ok (omap (fun id => Book.store b !! id) (Book.pools b))) as Hok.
  { apply Forall_forall. intros p (id & _ & Hp')%list_elem_of_omap. by apply (store_ok_lookup _ _ _ _ Hst Hp'). }
  split; [|done]. unfold liquidity_spec. rewrite Hv, (cutoff_clock first Hf Hsp). cbn [mbind pyres_bind]. fold (usable_at (clock first (length candles)) swings).
  rewrite take_ge in Hfold by (unfold enumerate; rewrite length_zip_with, length_seq; lia). rewrite Hfold. cbn [mbind pyres_bind].
  rewrite (py_map_total _ schema); [done|]. intros p Hin. rewrite Forall_forall in Hok. by apply schema_ok, Hok.
Qed.
End contract.

(** The pools of a result are what the order block engine assumes. *)
Lemma analyzed_pools_ok candles timeframe confirmed_swings config atr_result result :
  Forall (fun c => valid_candle c = true) candles -> LiquidityConfig.valid config = true ->
  swings_ok timeframe candles config confirmed_swings ->
  analyze_liquidity candles timeframe confirmed_swings config atr_result = Ok result ->
  pools_ok (LiquidityAnalysisResult.pools result).
Proof.
  intros Hc Hconf Hs. rewrite (engine_is_spec _ _ _ _ _ Hc Hconf). intros Hr.
  assert (_validate_inputs candles timeframe confirmed_swings config atr_result = Ok tt) as Hv
    by (unfold liquidity_spec in Hr; by apply bind_ok in Hr as ([] & -> & _)).
  destruct (candles !! 0%nat) as [first|] eqn:Hf.
  - destruct (spec_result timeframe candles config atr_result Hconf first _ Hf Hv Hs) as (b & rest & _ & E & Hok).
    rewrite E in Hr. injection Hr as <-. apply Forall_fmap. eapply Forall_impl; [exact Hok|]. intros p Hp. by apply schema_ok.
  - destruct candles; [|done]. unfold liquidity_spec in Hr. rewrite Hv in Hr. injection Hr as <-. constructor.
Qed.

(** C12. On inputs that pass the engine's checks the analysis returns, whatever
    the prices do: no schema, assertion, key or index fails. Its pools satisfy
    what the order block engine assumes of them ([pools_ok]): each passes its
    schema, its history opens with the creation and is numbered and ordered,
    every entry of the history is valid in itself, and the last one is the state
    exposed. Every history follows the protocol: active, swept at most once,
    ended at most once, and nothing afterwards. Nothing returned is later than the cutoff. *)
Theorem analyze_liquidity_total candles timeframe confirmed_swings config atr_result :
  Forall (fun c => valid_candle c = true) candles -> LiquidityConfig.valid config = true ->
  _validate_inputs candles timeframe confirmed_swings config atr_result = Ok tt ->
  swings_ok timeframe candles config confirmed_swings ->
  exists result, analyze_liquidity candles timeframe confirmed_swings config atr_result = Ok result
    /\ pools_ok (LiquidityAnalysisResult.pools result)
    /\ Forall (fun p => follows_protocol (LiquidityPool.history p) = true) (LiquidityAnalysisResult.pools result)
    /\ forall cutoff, LiquidityAnalysisResult.data_cutoff_at result = Some cutoff ->
         Forall (fun p => LiquidityPool.updated_at p <= cutoff) (LiquidityAnalysisResult.pools result)
         /\ Forall (fun e => LiquidityInteraction.confirmed_at e <= cutoff) (LiquidityAnalysisResult.interactions result)
         /\ Forall (fun g => DualSweepGroup.confirmed_at g <= cutoff) (LiquidityAnalysisResult.dual_sweeps result).
Proof.
  intros Hc Hconf Hv Hs. rewrite (engine_is_spec _ _ _ _ _ Hc Hconf). destruct (candles !! 0%nat) as [first|] eqn:Hf.
  - destruct (spec_result timeframe candles config atr_result Hconf first _ Hf Hv Hs) as (b & rest & Ha & -> & Hok).
    eexists. split; [reflexivity|]. split; [|split].
    + apply Forall_fmap. eapply Forall_impl; [exact Hok|]. intros p Hp. by apply schema_ok.
    + apply Forall_fmap. eapply Forall_impl; [exact Hok|]. intros p Hp. apply (po_protocol _ Hp).
    + intros cutoff [= <-]. destruct Ha as (_ & [B1 B2 B3 B4 B5] & _). split_and!; try done.
      apply Forall_fmap, Forall_forall. intros p (id & _ & Hp')%list_elem_of_omap. by apply (store_ok_lookup _ _ _ _ B1 Hp').
  - destruct candles; [|done]. unfold liquidity_spec. rewrite Hv. cbn. eexists. split; [reflexivity|]. split; [constructor|]. split; [constructor|]. by intros cutoff [=].
Qed.
