(* ===== verification/LiquidityRecord.v ===== *)
(** The record the liquidity engine keeps of its pools: a pool is not swept
    before it exists, and what happened to it is among the interactions of the
    result. *)
From Stdlib Require Import ZArith Lia.
From stdpp Require Import base list strings numbers sets gmap.
From S2P Require Import Prelude Decimal Time Candle Indicators Structure Engine LiquidityTypes Liquidity LiquiditySpec LiquidityRefinement.
Local Open Scope Z_scope.

(** The sweep follows the creation, and the interactions are among [events]. *)
Definition recorded (events : list LiquidityInteraction) (created_at : datetime) (swept_at : option datetime)
    (interactions : list LiquidityInteraction) : Prop :=
  (forall t, swept_at = Some t -> created_at <= t) /\ interactions ⊆ events.

Definition pool_recorded (events : list LiquidityInteraction) (p : _PoolState) : Prop :=
  recorded events (_PoolState.created_at p) (_PoolState.swept_at p) (_PoolState.interactions p).

Definition book_recorded (b : Book) : Prop := Forall (pool_recorded (Book.interactions b)) (Book.store b).

Lemma pool_recorded_more events more p : pool_recorded events p -> pool_recorded (events ++ more) p.
Proof. intros [H1 H2]. split; [done|]. set_solver. Qed.

Lemma record_history_inv p t at_ e q : _record_history p t at_ e = Ok q -> exists h, q = _PoolState.set_history p h.
Proof. intros (entry & _ & [= <-])%bind_ok. eauto. Qed.

Lemma record_history_recorded events p t at_ e q : _record_history p t at_ e = Ok q -> pool_recorded events p -> pool_recorded events q.
Proof. by intros [h ->]%record_history_inv. Qed.

(** A new pool has been neither swept nor touched. *)
Lemma created_recorded events created_at : recorded events created_at None [].
Proof. split; [done|]. by intros e He%not_elem_of_nil. Qed.

Section engine.
Context (config : LiquidityConfig).

Lemma interact_recorded events p t c at_ confirmation h q ev : pool_recorded events p ->
  interact p t c at_ confirmation h = Ok (q, ev) -> pool_recorded (events ++ match ev with Some e => [e] | None => [] end) q.
Proof.
  intros [H1 H2] ([p1 e] & (e' & _ & [= <- <-])%bind_ok & (q' & Hq & [= <- <-])%bind_ok)%bind_ok.
  eapply record_history_recorded; [exact Hq|]. split; [exact H1|]. cbn. set_solver.
Qed.

(** What a bar does to a pool is recorded when the interaction it returns is. *)
Lemma process_recorded events p c at_ q ev : Candle.timestamp c <= at_ -> pool_recorded events p ->
  _process_interaction config p c at_ = Ok (q, ev) -> pool_recorded (events ++ match ev with Some e => [e] | None => [] end) q.
Proof.
  intros Hc Hp. unfold _process_interaction. destruct (_PoolState.terminal p || _) eqn:Eg.
  { intros [= <- <-]. by rewrite app_nil_r. }
  apply orb_false_iff in Eg as [_ Eg]. destruct Hp as [H1 H2].
  destruct (taken config p c); [apply interact_recorded; by split|].
  destruct (sweep config p c && _); [apply interact_recorded; split; [cbn; intros t [= <-]; lia|done]|].
  destruct (touch p c); [apply interact_recorded; by split|]. intros [= <- <-]. rewrite app_nil_r. by split.
Qed.

Lemma expire_recorded events p bar at_ q : pool_recorded events p -> expire config p bar at_ = Ok q -> pool_recorded events q.
Proof.
  intros Hp. unfold expire. destruct (_ && _); [|by intros [= <-]].
  intros Hq. eapply record_history_recorded; [exact Hq|]. exact Hp.
Qed.

Lemma cluster_recorded events store c bar r : Forall (pool_recorded events) store ->
  _update_cluster_pool config store c bar = Ok r -> Forall (pool_recorded events) (fst (fst r)).
Proof.
  intros Hs. unfold _update_cluster_pool. destruct (_ <? _)%nat; [by intros [= <-]|].
  destruct (head (_ClusterState.members c)) as [first|], (list.last (_ClusterState.members c)) as [latest|]; try done. intros (lowest & _ & (highest & _ & Hr)%bind_ok)%bind_ok.
  cbv zeta in Hr. destruct (_ClusterState.pool c) as [id|].
  - destruct (store !! id) as [p|] eqn:Ep; [|by injection Hr as <-]. apply bind_ok in Hr as (q & Hq & [= <-]). cbn [fst].
    apply Forall_insert; [done|]. unfold update_members in Hq. eapply record_history_recorded; [exact Hq|].
    exact (Forall_lookup_1 _ _ _ _ Hs Ep).
  - apply bind_ok in Hr as (q & Hq & [= <-]). cbn [fst]. apply Forall_app. split; [done|]. apply Forall_singleton.
    unfold new_cluster_pool in Hq. eapply record_history_recorded; [exact Hq|]. apply created_recorded.
Qed.

Context (timeframe : Timeframe) (candles : list Candle) (atr_result : option ATRResult).

Lemma archive_new_record b id : Book.store (archive_new b id) = Book.store b /\ Book.interactions (archive_new b id) = Book.interactions b.
Proof. unfold archive_new. destruct (Book.store b !! id) as [p|]; [destruct (known b id p)|]; done. Qed.

Lemma swing_recorded b s b' : book_recorded b -> spec_swing timeframe candles config atr_result b s = Ok b' -> book_recorded b'.
Proof.
  intros Hb. unfold spec_swing. destruct (close_to_index timeframe candles !! _) as [bar|]; [|done].
  intros (b1 & H1 & Hr)%bind_ok. cbv zeta in Hr. assert (book_recorded b1) as Hb1.
  { destruct (LiquidityConfig.liquidity_include_single_swing_pools config); [|by injection H1 as <-].
    apply bind_ok in H1 as (p & Hp & [= <-]). apply Forall_app. split; [done|]. apply Forall_singleton.
    unfold _new_single_pool in Hp. cbv zeta in Hp. eapply record_history_recorded; [exact Hp|]. apply created_recorded. }
  destruct (matching_cluster config b1 s _) as [[ordinal c]|]; [|by injection Hr as <-].
  apply bind_ok in Hr as ([[store c'] o] & Hu & [= <-]). apply (cluster_recorded (Book.interactions b1)) in Hu; [|done]. cbn [fst] in Hu.
  unfold book_recorded. destruct o as [id|]; [|done].
  match goal with |- context [archive_new ?b2 id] => destruct (archive_new_record b2 id) as [-> ->] end. exact Hu.
Qed.

Lemma swings_recorded t b swings r : book_recorded b -> spec_swings timeframe candles config atr_result t b swings = Ok r -> book_recorded (fst r).
Proof.
  revert b. induction swings as [|s rest IH]; intros b Hb; cbn [spec_swings]; [by intros [= <-]|].
  destruct (_ <=? _); [|by intros [= <-]]. intros (b1 & H1 & Hr)%bind_ok. eapply IH; [|exact Hr]. by eapply swing_recorded.
Qed.

Lemma pool_bar_recorded bar c at_ st id st' : Candle.timestamp c <= at_ -> book_recorded (fst st) ->
  spec_pool config bar c at_ st id = Ok st' -> book_recorded (fst st').
Proof.
  intros Hc Hb. unfold spec_pool. destruct st as [b ev]. destruct (Book.store b !! id) as [p|] eqn:Ep; [|by intros [= <-]].
  intros ([q e] & Hq & (q' & Hq' & [= <-])%bind_ok)%bind_ok. cbn [fst] in *. unfold book_recorded. cbn.
  apply Forall_insert; [eapply Forall_impl; [exact Hb|]; intros; by apply pool_recorded_more|].
  eapply expire_recorded; [|exact Hq']. eapply process_recorded; [exact Hc| |exact Hq]. exact (Forall_lookup_1 _ _ _ _ Hb Ep).
Qed.

Lemma bar_recorded st item st' : book_recorded (fst st) -> spec_bar timeframe candles config atr_result st item = Ok st' -> book_recorded (fst st').
Proof.
  intros Hb. unfold spec_bar. destruct st as [b swings], item as [bar c].
  intros ([b1 rest] & H1 & ([b2 ev] & H2 & H3)%bind_ok)%bind_ok. apply swings_recorded in H1; [|done].
  eapply swings_recorded; [|exact H3]. pose proof (timeframe_duration_pos timeframe) as Hd.
  change (book_recorded (fst (b2, ev))).
  refine (py_fold_inv _ (fun st => book_recorded (fst st)) _ (b1, []) _ H1 _ H2).
  intros s id s' Hin Hs. apply pool_bar_recorded; [lia|done].
Qed.
End engine.

(** Every pool returned is recorded in the result. *)
Lemma result_recorded candles timeframe swings config atr_result result :
  Forall (fun c => valid_candle c = true) candles -> LiquidityConfig.valid config = true ->
  analyze_liquidity candles timeframe swings config atr_result = Ok result ->
  Forall (fun p => LiquidityPool.validate_pool p = true
    /\ recorded (LiquidityAnalysisResult.interactions result) (LiquidityPool.created_at p) (LiquidityPool.swept_at p)
         (LiquidityPool.interactions p)) (LiquidityAnalysisResult.pools result).
Proof.
  intros Hc Hconf. rewrite (engine_is_spec _ _ _ _ _ Hc Hconf). unfold liquidity_spec. intros ([] & _ & Hr)%bind_ok.
  destruct (data_cutoff_at candles timeframe) as [cutoff|]; [|injection Hr as <-; constructor]. cbv zeta in Hr.
  apply bind_ok in Hr as ([b rest] & Hf & (pools & Hp & [= <-])%bind_ok). cbn [LiquidityAnalysisResult.pools LiquidityAnalysisResult.interactions].
  assert (book_recorded b) as Hb.
  { change (book_recorded (fst (b, rest))).
    refine (py_fold_inv _ (fun st => book_recorded (fst st)) _ (Book.init, _) _ (List.Forall_nil _) _ Hf).
    intros s item s' Hin Hs. by apply bar_recorded. }
  apply py_map_ok in Hp. apply Forall_forall. intros p Hin. destruct (Forall2_elem_r _ _ _ p Hp Hin) as (q & Hq & [Hv <-]%validated_ok).
  split; [exact Hv|]. apply list_elem_of_omap in Hq as (id & _ & Hq). exact (Forall_lookup_1 _ _ _ _ Hb Hq).
Qed.
