(* ===== verification/LiquidityReplay.v ===== *)
(** Looking back: what the liquidity engine returns for a prefix of the data is
    the snapshot of what it returns for all of it. Distinct swings give
    distinct pools, so that every pool is archived when it is created. *)
From Stdlib Require Import ZArith QArith Lia Lqa.
From stdpp Require Import base list strings numbers sets gmap.
From S2P Require Import Prelude SortedIndex Decimal Time Candle Indicators Structure Engine LiquidityTypes.
From S2P Require Import Liquidity LiquiditySpec LiquidityIndex LiquidityTheory LiquidityRefinement LiquidityContract.
Local Open Scope Z_scope.

Section replay.
Context (timeframe : Timeframe) (candles : list Candle) (config : LiquidityConfig) (atr_result : option ATRResult).

(** ** Distinct pools *)

(** Formation and members, which the bars do not touch. *)
Definition same_members (p q : _PoolState) : Prop :=
  _PoolState.formation q = _PoolState.formation p /\ _PoolState.source_structure q = _PoolState.source_structure p.

Lemma interact_members p t c at_ conf h q e : interact p t c at_ conf h = Ok (q, e) -> same_members p q.
Proof.
  unfold interact, _append_interaction. intros ([q1 ev] & (ev' & _ & [= <- <-])%bind_ok & (q2 & H & [= <- <-])%bind_ok)%bind_ok.
  apply record_history_ok in H as [h' ->]. done.
Qed.

Lemma process_members p c at_ q e : _process_interaction config p c at_ = Ok (q, e) -> same_members p q.
Proof.
  unfold _process_interaction. destruct (_ || _); [by intros [= <- <-]|].
  destruct (taken config p c); [by intros ?%interact_members|].
  destruct (_ && _); [by intros ?%interact_members|].
  destruct (touch p c); [by intros ?%interact_members|by intros [= <- <-]].
Qed.

Lemma expire_members p bar at_ q : expire config p bar at_ = Ok q -> same_members p q.
Proof. unfold expire. destruct (_ && _); [by intros [h ->]%record_history_ok|by intros [= <-]]. Qed.

Definition ids (swings : list ConfirmedSwing) : list string := map ConfirmedSwing.swing_id swings.

(** The book while the swings [rest] are still to come. *)
Record distinct (rest : list ConfirmedSwing) (b : Book) : Prop := {
  di_pools : Book.pools b = seq 0 (length (Book.store b));
  di_cluster d o c id : Book.clusters b d !! o = Some c -> _ClusterState.pool c = Some id ->
    exists p, Book.store b !! id = Some p /\ _PoolState.formation p <> LiquidityFormation.SWING
      /\ _PoolState.source_structure p = ids (_ClusterState.members c);
  di_owner id p : Book.store b !! id = Some p -> _PoolState.formation p <> LiquidityFormation.SWING ->
    exists d o c, Book.clusters b d !! o = Some c /\ _ClusterState.pool c = Some id;
  di_touches d o c id : Book.clusters b d !! o = Some c -> _ClusterState.pool c = Some id ->
    (LiquidityConfig.liquidity_cluster_min_touches config <= length (_ClusterState.members c))%nat;
  di_members d o c : Book.clusters b d !! o = Some c -> _ClusterState.members c <> [];
  di_disjoint d o c d' o' c' x : Book.clusters b d !! o = Some c -> Book.clusters b d' !! o' = Some c' ->
    x ∈ ids (_ClusterState.members c) -> x ∈ ids (_ClusterState.members c') -> d = d' /\ o = o';
  di_rest : NoDup (ids rest);
  di_ahead d o c x : Book.clusters b d !! o = Some c -> x ∈ ids (_ClusterState.members c) -> x ∉ ids rest
}.

(** What a new member does, in detail. *)
Lemma update_cluster_detail store c bar store' c' o : (forall id, _ClusterState.pool c = Some id -> (id < length store)%nat) ->
  _update_cluster_pool config store c bar = Ok (store', c', o) ->
  ((length (_ClusterState.members c) < LiquidityConfig.liquidity_cluster_min_touches config)%nat /\ store' = store /\ c' = c /\ o = None)
  \/ ((LiquidityConfig.liquidity_cluster_min_touches config <= length (_ClusterState.members c))%nat
      /\ _ClusterState.members c' = _ClusterState.members c
      /\ exists id p, o = Some id /\ _ClusterState.pool c' = Some id
        /\ ((_ClusterState.pool c = None /\ id = length store /\ store' = store ++ [p])
            \/ (_ClusterState.pool c = Some id /\ (id < length store)%nat /\ store' = <[id := p]> store))
        /\ _PoolState.formation p <> LiquidityFormation.SWING /\ _PoolState.source_structure p = ids (_ClusterState.members c)).
Proof.
  intros Hr. unfold _update_cluster_pool. destruct (Nat.ltb_spec (length (_ClusterState.members c)) (LiquidityConfig.liquidity_cluster_min_touches config)) as [Hlt|Hge];
    [intros [= <- <- <-]; by left|].
  destruct (head (_ClusterState.members c)) as [first|], (list.last (_ClusterState.members c)) as [latest|]; try done.
  intros (lowest & _ & (highest & _ & H)%bind_ok)%bind_ok. right. split; [done|].
  assert (cluster_formation c <> LiquidityFormation.SWING) as Hf by (unfold cluster_formation; by destruct (_ClusterState.contains_relative_member c)).
  destruct (_ClusterState.pool c) as [id|] eqn:Ep.
  - specialize (Hr _ eq_refl). destruct (lookup_lt_is_Some_2 store id Hr) as [p Hp]. rewrite Hp in H.
    apply bind_ok in H as (q & Hq & [= <- <- <-]). split; [done|]. exists id, q. unfold update_members in Hq.
    apply record_history_ok in Hq as [h ->]. split_and!; try done. by right.
  - apply bind_ok in H as (q & Hq & [= <- <- <-]). split; [done|]. exists (length store), q. unfold new_cluster_pool in Hq.
    apply record_history_ok in Hq as [h ->]. split_and!; try done. by left.
Qed.

Lemma distinct_pools rest b id p : distinct rest b -> Book.store b !! id = Some p -> id ∈ Book.pools b.
Proof. intros H Hp. rewrite (di_pools _ _ H). apply elem_of_seq. apply lookup_lt_Some in Hp. lia. Qed.

(** Only the store changes, and no formation or member with it. *)
Lemma distinct_frame rest b b' : distinct rest b -> Book.pools b' = Book.pools b -> (forall d, Book.clusters b' d = Book.clusters b d) ->
  length (Book.store b') = length (Book.store b) ->
  (forall id p, Book.store b !! id = Some p -> exists p', Book.store b' !! id = Some p' /\ same_members p p') -> distinct rest b'.
Proof.
  intros [H1 H2 H3 H4 H5 H6 H7 H8] Ep Ec El Hs. split; try done.
  - by rewrite Ep, El.
  - intros d o c id. rewrite Ec. intros Hc Hid. destruct (H2 _ _ _ _ Hc Hid) as (p & Hp & Hf & Hsrc).
    destruct (Hs _ _ Hp) as (p' & Hp' & E1 & E2). exists p'. split; [done|]. split; congruence.
  - intros id p' Hp' Hf. destruct (lookup_lt_is_Some_2 (Book.store b) id) as [p Hp]; [rewrite <-El; by eapply lookup_lt_Some|].
    destruct (Hs _ _ Hp) as (q & Hq & E1 & _). assert (q = p') as -> by congruence.
    destruct (H3 id p Hp ltac:(congruence)) as (d & o & c & Hc & Hid). exists d, o, c. by rewrite Ec.
  - intros d o c id. rewrite Ec. apply H4.
  - intros d o c. rewrite Ec. apply H5.
  - intros d o c d' o' c' x. rewrite !Ec. apply H6.
  - intros d o c x. rewrite Ec. apply H8.
Qed.

Lemma distinct_drop s rest b : distinct (s :: rest) b -> distinct rest b.
Proof.
  intros [H1 H2 H3 H4 H5 H6 H7 H8]. split; try done; [by inversion H7|].
  intros d o c x Hc Hx Hin. apply (H8 d o c x Hc Hx). by right.
Qed.

Lemma distinct_single s rest b bar b' : distinct (s :: rest) b ->
  (if LiquidityConfig.liquidity_include_single_swing_pools config then
      pool ← _new_single_pool config s bar;
      Ok (Book.archive (Book.set_store b (Book.store b ++ [pool])) (length (Book.store b)))
    else Ok b) = Ok b' -> distinct (s :: rest) b'.
Proof.
  intros H. destruct (LiquidityConfig.liquidity_include_single_swing_pools config); [|by intros [= <-]].
  intros (p & Hp & [= <-])%bind_ok. assert (_PoolState.formation p = LiquidityFormation.SWING) as Hf.
  { unfold _new_single_pool in Hp. by apply record_history_ok in Hp as [h ->]. }
  destruct H as [H1 H2 H3 H4 H5 H6 H7 H8]. split; cbn; try done.
  - by rewrite length_app, H1, seq_app.
  - intros d o c id Hc Hid. destruct (H2 _ _ _ _ Hc Hid) as (q & Hq & E). exists q. split; [by apply lookup_app_l_Some|done].
  - intros id q [Hq|[_ Hq]]%lookup_app_Some Hqf; [by apply (H3 id q)|]. apply list_lookup_singleton_Some in Hq as [_ <-]. done.
Qed.

(** No other pool of the archive equals the pool of a cluster. *)
Lemma known_iff rest b id p : distinct rest b -> Book.store b !! id = Some p -> known b id p = true.
Proof.
  intros H Hp. unfold known. apply existsb_exists. exists id. split; [apply list_elem_of_In; by eapply distinct_pools|].
  by rewrite bool_decide_eq_true_2.
Qed.
Lemma insert_lookup_cases (cl : LiquidityDirection -> list _ClusterState) d o c' d' o' x : upd cl d (<[o := c']> (cl d)) d' !! o' = Some x ->
  ((d', o') = (d, o) /\ x = c') \/ ((d', o') <> (d, o) /\ cl d' !! o' = Some x).
Proof.
  intros [[-> Hx]|[Hd Hx]]%upd_inv; [|right; split; [congruence|done]].
  apply list_lookup_insert_Some in Hx as [(-> & <- & _)|[Hne Hx]]; [by left|right; split; [congruence|done]].
Qed.

Lemma distinct_new s rest b : distinct (s :: rest) b ->
  distinct rest (Book.set_clusters b (_side_for s) (Book.clusters b (_side_for s)
    ++ [_ClusterState.mk_ClusterState (_side_for s) (ConfirmedSwing.price s) [s] false None])).
Proof.
  set (d0 := _side_for s). set (c0 := _ClusterState.mk_ClusterState _ _ _ _ _).
  intros [H1 H2 H3 H4 H5 H6 H7 H8]. apply NoDup_cons in H7 as [Hns H7].
  assert (forall d o x, upd (Book.clusters b) d0 (Book.clusters b d0 ++ [c0]) d !! o = Some x ->
    Book.clusters b d !! o = Some x \/ (d = d0 /\ o = length (Book.clusters b d0) /\ x = c0)) as Hcl.
  { intros d o x [[-> Hx]|[_ Hx]]%upd_inv; [|by left]. apply lookup_app_Some in Hx as [Hx|[Hle Hx]]; [by left|].
    apply list_lookup_singleton_Some in Hx as [Ho <-]. right. split_and!; [done|lia|done]. }
  assert (forall x, x ∈ ids (_ClusterState.members c0) -> x = ConfirmedSwing.swing_id s) as Hc0
    by (intros x Hx; change (x ∈ [ConfirmedSwing.swing_id s]) in Hx; by apply list_elem_of_singleton in Hx).
  split; cbn [Book.pools Book.store Book.set_clusters Book.clusters]; try done.
  - intros d o c id [Hc|(_ & _ & ->)]%Hcl Hid; [by eapply H2|done].
  - intros id p Hp Hf. destruct (H3 id p Hp Hf) as (d & o & c & Hc & Hid). exists d, o, c. split; [|done].
    case_bool_decide; [|done]. subst. by apply lookup_app_l_Some.
  - intros d o c id [Hc|(_ & _ & ->)]%Hcl Hid; [by eapply H4|done].
  - intros d o c [Hc|(_ & _ & ->)]%Hcl; [by eapply H5|done].
  - intros d o c d' o' c' x [Hc|(-> & -> & ->)]%Hcl [Hc'|(-> & -> & ->)]%Hcl Hx Hx'; [by eapply H6| | |done].
    + apply Hc0 in Hx' as ->. exfalso. apply (H8 d o c _ Hc Hx). by left.
    + apply Hc0 in Hx as ->. exfalso. apply (H8 d' o' c' _ Hc' Hx'). by left.
  - intros d o c x [Hc|(_ & _ & ->)]%Hcl Hx; [|by apply Hc0 in Hx as ->].
    intros Hin. apply (H8 d o c x Hc Hx). by right.
Qed.

Lemma ids_member c s relative x :
  x ∈ ids (_ClusterState.members (with_member c s relative)) <-> x ∈ ids (_ClusterState.members c) \/ x = ConfirmedSwing.swing_id s.
Proof.
  unfold ids. cbn [with_member _ClusterState.members]. rewrite map_app. cbn [map]. by rewrite elem_of_app, list_elem_of_singleton.
Qed.

(** A swing joins the cluster [c] of its side. *)
Section join.
Context (s : ConfirmedSwing) (rest : list ConfirmedSwing) (b : Book) (o : nat) (c : _ClusterState) (relative : bool).
Context (H : distinct (s :: rest) b) (Hc : Book.clusters b (_side_for s) !! o = Some c).
Let c1 := with_member c s relative.

Lemma join_range id : _ClusterState.pool c1 = Some id -> (id < length (Book.store b))%nat.
Proof. intros Hid. destruct (di_cluster _ _ H _ o c id Hc Hid) as (p & Hp%lookup_lt_Some & _). done. Qed.

Lemma swing_ahead d o' x : Book.clusters b d !! o' = Some x -> ConfirmedSwing.swing_id s ∉ ids (_ClusterState.members x).
Proof. intros Hx Hin. apply (di_ahead _ _ H _ _ _ _ Hx Hin). by left. Qed.

(** The member lists after the join. *)
Lemma join_members c' (cl : LiquidityDirection -> list _ClusterState) : _ClusterState.members c' = _ClusterState.members c1 ->
  (forall d, cl d = upd (Book.clusters b) (_side_for s) (<[o := c']> (Book.clusters b (_side_for s))) d) ->
  (forall d o x, cl d !! o = Some x -> _ClusterState.members x <> [])
  /\ (forall d o x d' o' x' y, cl d !! o = Some x -> cl d' !! o' = Some x' ->
        y ∈ ids (_ClusterState.members x) -> y ∈ ids (_ClusterState.members x') -> d = d' /\ o = o')
  /\ (forall d o x y, cl d !! o = Some x -> y ∈ ids (_ClusterState.members x) -> y ∉ ids rest).
Proof.
  intros Em Ecl. repeat setoid_rewrite Ecl. clear cl Ecl. pose proof H as [H1 H2 H3 H4 H5 H6 H7 H8]. apply NoDup_cons in H7 as [Hns H7].
  assert (forall d o' x y, upd (Book.clusters b) (_side_for s) (<[o := c']> (Book.clusters b (_side_for s))) d !! o' = Some x ->
    y ∈ ids (_ClusterState.members x) ->
    ((d, o') = (_side_for s, o) /\ y = ConfirmedSwing.swing_id s) \/ exists x0, Book.clusters b d !! o' = Some x0 /\ y ∈ ids (_ClusterState.members x0)) as Hy.
  { intros d o2 x y [[E ->]|[_ Hx]]%insert_lookup_cases Hy; [|right; eauto]. injection E as -> ->. rewrite Em in Hy.
    apply ids_member in Hy as [Hy| ->]; [right; eauto|by left]. }
  split_and!.
  - intros d o2 x [[_ ->]|[_ Hx]]%insert_lookup_cases; [rewrite Em; cbn; by intros [_ ?]%app_nil|by eapply H5].
  - intros d o2 x d' o2' x' y Hx Hx' Hyx Hyx'.
    destruct (Hy _ _ _ _ Hx Hyx) as [[E ->]|(x0 & Hx0 & Hy0)], (Hy _ _ _ _ Hx' Hyx') as [[E' Ey]|(x1 & Hx1 & Hy1)].
    + split; congruence.
    + by apply swing_ahead in Hx1.
    + subst y. by apply swing_ahead in Hx0.
    + by eapply H6.
  - intros d o2 x y Hx Hyx. destruct (Hy _ _ _ _ Hx Hyx) as [[_ ->]|(x0 & Hx0 & Hy0)]; [done|].
    intros Hin. apply (H8 _ _ _ _ Hx0 Hy0). by right.
Qed.

(** Too few members: no pool yet. *)
Lemma join_few : (length (_ClusterState.members c1) < LiquidityConfig.liquidity_cluster_min_touches config)%nat ->
  distinct rest (Book.set_clusters (Book.set_store b (Book.store b)) (_side_for s) (<[o := c1]> (Book.clusters b (_side_for s)))).
Proof.
  intros Hlt. destruct (join_members c1 _ eq_refl (fun _ => eq_refl)) as (G1 & G2 & G3). pose proof H as [H1 H2 H3 H4 H5 H6 H7 H8].
  apply NoDup_cons in H7 as [_ H7].
  assert (_ClusterState.pool c1 = None) as Hnone.
  { destruct (_ClusterState.pool c1) as [id|] eqn:E; [|done]. pose proof (H4 _ o c id Hc E) as Ht.
    unfold c1 in Hlt. cbn in Hlt. rewrite length_app in Hlt. lia. }
  split; try done.
  - intros d o2 x id [[_ ->]|[_ Hx]]%insert_lookup_cases Hi; [congruence|by eapply H2].
  - intros id q Hq Hqf. destruct (H3 id q Hq Hqf) as (d & o2 & x & Hx & Hi). exists d, o2, x. split; [|done].
    cbn. case_bool_decide; [subst d|done]. rewrite list_lookup_insert_ne; [done|]. intros ->. assert (x = c) as -> by congruence. cbn in Hnone. congruence.
  - intros d o2 x id [[_ ->]|[_ Hx]]%insert_lookup_cases Hi; [congruence|by eapply H4].
Qed.

Context (c' : _ClusterState) (store' : list _PoolState) (id : nat) (p : _PoolState).
Context (Hge : (LiquidityConfig.liquidity_cluster_min_touches config <= length (_ClusterState.members c1))%nat).
Context (Em : _ClusterState.members c' = _ClusterState.members c1) (Hid : _ClusterState.pool c' = Some id).
Context (Hst : (_ClusterState.pool c = None /\ id = length (Book.store b) /\ store' = Book.store b ++ [p])
  \/ (_ClusterState.pool c = Some id /\ (id < length (Book.store b))%nat /\ store' = <[id := p]> (Book.store b))).
Context (Hpf : _PoolState.formation p <> LiquidityFormation.SWING) (Hps : _PoolState.source_structure p = ids (_ClusterState.members c1)).

Lemma join_store : store' !! id = Some p /\ (length (Book.store b) <= length store')%nat
  /\ (forall i q, i <> id -> store' !! i = Some q <-> Book.store b !! i = Some q).
Proof.
  destruct Hst as [(_ & -> & ->)|(_ & Hlt & ->)]; rewrite ?length_app, ?length_insert; split_and!; try lia.
  - by rewrite lookup_app_r, Nat.sub_diag by lia.
  - intros i q Hne. split; [intros [Hq|[Hle Hq]]%lookup_app_Some|intros Hq; by apply lookup_app_l_Some]; [done|].
    apply list_lookup_singleton_Some in Hq as [Hq _]. lia.
  - by apply list_lookup_insert_eq.
  - intros i q Hne. by rewrite list_lookup_insert_ne.
Qed.

(** No other cluster has the pool. *)
Lemma join_owner d o2 x : Book.clusters b d !! o2 = Some x -> _ClusterState.pool x = Some id -> (d, o2) = (_side_for s, o).
Proof.
  intros Hx Hi. destruct (di_cluster _ _ H _ _ _ _ Hx Hi) as (q & Hq & _ & S1). destruct Hst as [(_ & -> & _)|(E & _)].
  - apply lookup_lt_Some in Hq. lia.
  - destruct (di_cluster _ _ H _ o c id Hc E) as (q' & Hq' & _ & S2). assert (q' = q) as -> by congruence.
    destruct (_ClusterState.members c) as [|m ms] eqn:Ec; [by destruct (di_members _ _ H _ o c Hc)|].
    destruct (di_disjoint _ _ H d o2 x _ o c (ConfirmedSwing.swing_id m) Hx Hc) as [-> ->]; [|by rewrite Ec; left|done].
    rewrite <-S1, S2. by left.
Qed.

(** A new pool equals none of the archive: it has the new swing. *)
Lemma join_unknown b2 : _ClusterState.pool c = None -> Book.store b2 = store' -> Book.pools b2 = Book.pools b -> known b2 id p = false.
Proof.
  intros Hn Es Ep. destruct join_store as (Hp & _ & Hother). apply not_true_iff_false. unfold known.
  intros (other & Hin%list_elem_of_In & Hk)%existsb_exists. rewrite Ep, (di_pools _ _ H) in Hin. apply elem_of_seq in Hin.
  assert (id = length (Book.store b)) as Eid by (destruct Hst as [(_ & ? & _)|(? & _)]; [done|congruence]).
  apply orb_true_iff in Hk as [->%bool_decide_eq_true|Hk]; [lia|]. rewrite Es in Hk.
  destruct (store' !! other) as [q|] eqn:Eq; [|done]. apply Hother in Eq; [|lia]. unfold pool_eqb in Hk. bool_hyps.
  assert (_PoolState.formation q <> LiquidityFormation.SWING) as Hqf by congruence.
  destruct (di_owner _ _ H other q Eq Hqf) as (d & o2 & x & Hx & Hi). destruct (di_cluster _ _ H _ _ _ _ Hx Hi) as (q' & Hq' & _ & S1).
  assert (q' = q) as -> by congruence. apply (swing_ahead _ _ _ Hx).
  rewrite <-S1. assert (_PoolState.source_structure q = _PoolState.source_structure p) as -> by congruence. rewrite Hps. apply ids_member. by right.
Qed.

Lemma join_distinct b3 : (forall d, Book.clusters b3 d = upd (Book.clusters b) (_side_for s) (<[o := c']> (Book.clusters b (_side_for s))) d) ->
  Book.store b3 = store' -> Book.pools b3 = seq 0 (length store') -> distinct rest b3.
Proof.
  intros E3 Es Ep. destruct (join_members c' _ Em E3) as (G1 & G2 & G3). destruct join_store as (Hp & _ & Hother).
  pose proof H as [H1 H2 H3 H4 H5 H6 H7 H8]. apply NoDup_cons in H7 as [_ H7]. split; try done.
  - by rewrite Ep, Es.
  - intros d o2 x i. rewrite E3, Es. intros [[_ ->]|[Hne Hx]]%insert_lookup_cases Hi.
    + assert (i = id) as -> by congruence. exists p. rewrite Em. done.
    + destruct (H2 _ _ _ _ Hx Hi) as (q & Hq & E). exists q. split; [|done]. apply Hother; [|done]. intros ->. by apply Hne, (join_owner d o2 x).
  - intros i q. rewrite Es. setoid_rewrite E3. intros Hq Hqf. destruct (decide (i = id)) as [->|Hne].
    + exists (_side_for s), o, c'. split; [|done]. unfold upd. rewrite bool_decide_eq_true_2 by done. apply list_lookup_insert_eq. by eapply lookup_lt_Some.
    + apply Hother in Hq; [|done]. destruct (H3 i q Hq Hqf) as (d & o2 & x & Hx & Hi). exists d, o2, x. split; [|done].
      unfold upd. case_bool_decide; [subst d|done]. rewrite list_lookup_insert_ne; [done|]. intros ->. assert (x = c) as -> by congruence.
      destruct Hst as [(E & _)|(E & _)]; congruence.
  - intros d o2 x i. rewrite E3. intros [[_ ->]|[_ Hx]]%insert_lookup_cases Hi; [by rewrite Em|by eapply H4].
Qed.
End join.

Lemma distinct_join s rest b o c relative bar store' c' o' : distinct (s :: rest) b -> Book.clusters b (_side_for s) !! o = Some c ->
  _update_cluster_pool config (Book.store b) (with_member c s relative) bar = Ok (store', c', o') ->
  let b2 := Book.set_clusters (Book.set_store b store') (_side_for s) (<[o := c']> (Book.clusters b (_side_for s))) in
  distinct rest (match o' with Some id => archive_new b2 id | None => b2 end).
Proof.
  intros H Hc Hu b2. pose proof (join_range s rest b o c relative H Hc) as Hrange.
  apply (update_cluster_detail _ _ _ _ _ _ Hrange) in Hu as [(Hlt & -> & -> & ->)|(Hge & Em & id & p & -> & Hid & Hst & Hpf & Hps)].
  - by apply (join_few s rest b o c relative H Hc).
  - destruct (join_store s b c relative c' store' id p Hge Hid Hst) as (Hp & _ & _). unfold archive_new. change (Book.store b2) with store'. rewrite Hp.
    pose proof (join_distinct s rest b o c relative H Hc c' store' id p Hge Em Hid Hst Hpf Hps) as Hfinal.
    destruct (decide (_ClusterState.pool c = None)) as [E|E].
    + rewrite (join_unknown s rest b c relative H c' store' id p Hge Hid Hst Hpf Hps b2 E eq_refl eq_refl). apply Hfinal; try done. cbn.
      rewrite (di_pools _ _ H). destruct Hst as [(_ & -> & ->)|(E' & _)]; [|cbn in E'; congruence]. by rewrite length_app, seq_app.
    + destruct Hst as [(E' & _)|(_ & Hlt & ->)]; [done|].
      assert (known b2 id p = true) as ->.
      { unfold known. apply existsb_exists. exists id. split; [|by rewrite bool_decide_eq_true_2].
        apply list_elem_of_In. cbn. rewrite (di_pools _ _ H). apply elem_of_seq. lia. }
      apply Hfinal; try done. cbn. by rewrite (di_pools _ _ H), length_insert.
Qed.
Lemma distinct_swing s rest b b' : distinct (s :: rest) b -> spec_swing timeframe candles config atr_result b s = Ok b' -> distinct rest b'.
Proof.
  intros H. unfold spec_swing. destruct (close_to_index timeframe candles !! _) as [bar|]; [|done].
  intros (b1 & Hb1 & Hrest)%bind_ok. pose proof (distinct_single s rest b bar b1 H Hb1) as H1.
  destruct (matching_cluster config b1 s _) as [[o c]|] eqn:Em.
  - apply list_find_Some in Em as (Hc & _). apply bind_ok in Hrest as ([[store' c'] o'] & Hu & [= <-]). exact (distinct_join s rest b1 o c _ bar store' c' o' H1 Hc Hu).
  - injection Hrest as <-. by apply distinct_new.
Qed.

Lemma distinct_swings t swings b b' rest : distinct swings b -> spec_swings timeframe candles config atr_result t b swings = Ok (b', rest) -> distinct rest b'.
Proof.
  revert b. induction swings as [|s l IH]; intros b H; [by intros [= <- <-]|]. cbn [spec_swings].
  destruct (_ <=? t); [|by intros [= <- <-]]. intros (b1 & Hb1 & Hr)%bind_ok. apply (IH b1); [|done]. by apply (distinct_swing s l b).
Qed.

Lemma distinct_pool rest bar c at_ s s' id : distinct rest (fst s) -> spec_pool config bar c at_ s id = Ok s' -> distinct rest (fst s').
Proof.
  destruct s as [b ev]. cbn [fst]. intros H. unfold spec_pool. destruct (Book.store b !! id) as [p|] eqn:Hp; [|by intros [= <-]].
  intros ([q e] & H1%process_members & (q' & H2%expire_members & [= <-])%bind_ok)%bind_ok. cbn [fst].
  apply (distinct_frame rest b); [done..| |]; cbn.
  - apply length_insert.
  - intros i a Ha. destruct (decide (i = id)) as [->|Hne].
    + exists q'. rewrite list_lookup_insert_eq by (by eapply lookup_lt_Some). split; [done|]. assert (a = p) as -> by congruence.
      destruct H1, H2. split; congruence.
    + exists a. by rewrite list_lookup_insert_ne by done.
Qed.

Lemma distinct_bar s s' item : distinct (snd s) (fst s) -> spec_bar timeframe candles config atr_result s item = Ok s' -> distinct (snd s') (fst s').
Proof.
  destruct s as [b swings], item as [i c]. cbn [fst snd]. intros H. unfold spec_bar.
  intros ([b1 swings1] & H1 & ([b2 ev] & H2 & H3)%bind_ok)%bind_ok. apply (distinct_swings _ _ _ _ _ H) in H1.
  assert (distinct swings1 b2) as Hd2.
  { change b2 with (fst (b2, ev)). revert H2. apply (py_fold_inv _ (fun s => distinct swings1 (fst s))); [done|].
    intros s x s2 _ Hs Hx. by apply (distinct_pool _ _ _ _ _ _ _ Hs) in Hx. }
  destruct s' as [b' rest]. eapply distinct_swings; [|exact H3]. by apply (distinct_frame swings1 b2); [done..|intros id p Hp; exists p].
Qed.

Lemma distinct_init swings : NoDup (ids swings) -> distinct swings Book.init.
Proof. intros H. by split. Qed.

(** The archive is the store: every pool, once, in the order of creation. *)
Lemma distinct_fold l swings b rest : NoDup (ids swings) ->
  py_fold (spec_bar timeframe candles config atr_result) (Book.init, swings) l = Ok (b, rest) -> distinct rest b.
Proof.
  intros Hn H. change (distinct (snd (b, rest)) (fst (b, rest))). revert H.
  apply (py_fold_inv _ (fun s => distinct (snd s) (fst s))); [by apply distinct_init|]. intros s x s2 _ Hs Hx. by eapply distinct_bar.
Qed.

Lemma omap_store {A} (l : list A) k : (k <= length l)%nat -> omap (fun id => l !! id) (seq 0 k) = take k l.
Proof.
  induction k as [|k IH]; intros Hk; [done|]. rewrite seq_S, omap_app, IH by lia. cbn [omap list_omap Nat.add].
  destruct (lookup_lt_is_Some_2 l k ltac:(lia)) as [x Hx]. rewrite Hx. by rewrite (take_S_r _ _ x).
Qed.

Lemma distinct_archive rest b : distinct rest b -> omap (fun id => Book.store b !! id) (Book.pools b) = Book.store b.
Proof. intros H. rewrite (di_pools _ _ H), omap_store by lia. by rewrite take_ge. Qed.

(** ** Snapshots *)

Lemma filter_upto {A} (f : A -> Z) (l k : list A) cut : Forall (fun x => f x <= cut) l -> Forall (fun x => cut < f x) k ->
  filter (fun x => f x <= cut) (l ++ k) = l.
Proof.
  intros Hl Hk. rewrite filter_app, filter_all by done. rewrite filter_none; [apply app_nil_r|]. eapply Forall_impl; [exact Hk|]. cbn. lia.
Qed.

(** A pool then is the snapshot of the pool it became. *)
Lemma snapshot_extends now cut p q : pool_ok p -> _PoolState.updated_at p <= cut -> cut < now -> extends now p q ->
  LiquidityPool.snapshot_at (schema q) cut = Ok (Some (schema p)).
Proof.
  intros Hp Hu Hlt ((K1 & K2 & K3) & L & C & hs & es & Hh & He & Fh & Fe). pose proof Hp as [_ [_ _ _ _ Hnow] (n & t & e & Hl) _ Hi].
  assert (filter (fun x => LiquidityPoolHistoryEntry.available_at x <= cut) (_PoolState.history q) = _PoolState.history p) as Eh.
  { rewrite Hh. apply filter_upto; (eapply Forall_impl; [eassumption|]); cbn; lia. }
  assert (filter (fun x => LiquidityInteraction.confirmed_at x <= cut) (_PoolState.interactions q) = _PoolState.interactions p) as Ei.
  { rewrite He. apply filter_upto; (eapply Forall_impl; [eassumption|]); cbn; lia. }
  unfold LiquidityPool.snapshot_at. cbn [LiquidityPool.history LiquidityPool.interactions schema]. rewrite Eh, Ei, Hl.
  match goal with |- context [validated _ ?x] => assert (x = schema p) as -> end.
  { unfold schema, entry_at. cbn. by rewrite K1, K2, C. }
  unfold validated. by rewrite (proj1 (proj2 (schema_ok p Hp))).
Qed.
End replay.

(** ** A prefix of the data *)

(** The ATR points of the first candles. *)
Definition prefix_atr (n : nat) (atr_result : option ATRResult) : option ATRResult :=
  (fun r => ATRResult.mkATRResult (ATRResult.config r) (take n (ATRResult.points r))) <$> atr_result.

Section prefix.
Context (timeframe : Timeframe) (candles : list Candle) (config : LiquidityConfig) (atr_result : option ATRResult).
Context (first : Candle) (Hfirst : candles !! 0%nat = Some first) (Hspaced : evenly_spaced timeframe candles) (n : nat).

Lemma spaced_take : evenly_spaced timeframe (take n candles).
Proof. intros i c d [Hc _]%lookup_take_Some [Hd _]%lookup_take_Some. by apply (Hspaced i). Qed.

Lemma clock_index i t : clock timeframe first i = t -> t <= clock timeframe first n -> (i <= n)%nat.
Proof.
  intros <- Hle. destruct (decide (i <= n)%nat) as [|Hn]; [done|]. pose proof (clock_lt timeframe first n i ltac:(lia)). lia.
Qed.

Lemma close_prefix t : t <= clock timeframe first n -> close_to_index timeframe (take n candles) !! t = close_to_index timeframe candles !! t.
Proof.
  intros Ht. apply option_eq. intros j. unfold close_to_index. rewrite !index_by_close by (apply spaced_take || done).
  split; intros (c & Hc & E); exists c; (split; [|done]).
  - by apply lookup_take_Some in Hc as [Hc _].
  - apply lookup_take_Some. split; [done|]. rewrite (closes_at timeframe candles first Hfirst Hspaced j c Hc) in E. apply clock_index in E; [lia|done].
Qed.

Lemma foldl_insert_other (l : list (Candle * ATRPoint)) (f : Candle -> Z) (m : gmap Z (option dec)) t : (forall x, x ∈ l -> f (fst x) <> t) ->
  foldl (fun m '(candle, point) => <[f candle := ATRPoint.atr point]> m) m l !! t = m !! t.
Proof.
  revert m. induction l as [|[c p] l IH]; intros m H; [done|]. cbn [foldl]. rewrite IH by (intros x Hx; apply H; by right).
  apply lookup_insert_ne. apply (H (c, p)). by left.
Qed.

Lemma atr_prefix t : t <= clock timeframe first n ->
  atr_at timeframe (take n candles) (prefix_atr n atr_result) t = atr_at timeframe candles atr_result t.
Proof.
  intros Ht. unfold atr_at, atr_by_confirmation. destruct atr_result as [r|]; [|done]. cbn [prefix_atr fmap option_fmap option_map ATRResult.points].
  f_equal. rewrite <-(take_drop n (zip candles (ATRResult.points r))), foldl_app.
  rewrite <-zip_with_take. symmetry.
  apply (foldl_insert_other _ (fun candle => Candle.timestamp candle + timeframe_duration timeframe)).
  - intros [c p] [i Hi]%list_elem_of_lookup. rewrite lookup_drop, lookup_zip_with in Hi. cbn [fst].
    destruct (candles !! (n + i)%nat) as [c'|] eqn:Ec; [|done]. cbn in Hi.
    destruct (ATRResult.points r !! (n + i)%nat); [|done]. injection Hi as <- <-.
    rewrite (closes_at timeframe candles first Hfirst Hspaced _ _ Ec). intros E%clock_index; [lia|done].
Qed.

Lemma swing_prefix b s : ConfirmedSwing.confirmed_at s <= clock timeframe first n ->
  spec_swing timeframe (take n candles) config (prefix_atr n atr_result) b s = spec_swing timeframe candles config atr_result b s.
Proof. intros H. unfold spec_swing. by rewrite close_prefix, !atr_prefix. Qed.

(** The later swings wait. *)
Definition ahead_of (later : list ConfirmedSwing) (s s' : Book * list ConfirmedSwing) : Prop := fst s' = fst s /\ snd s' = snd s ++ later.

Context (later : list ConfirmedSwing) (Hlater : Forall (fun s => clock timeframe first n < ConfirmedSwing.confirmed_at s) later).

Lemma swings_prefix t b swings : t <= clock timeframe first n ->
  agree (ahead_of later) (spec_swings timeframe (take n candles) config (prefix_atr n atr_result) t b swings)
    (spec_swings timeframe candles config atr_result t b (swings ++ later)).
Proof.
  intros Ht. revert b. induction swings as [|s rest IH]; intros b.
  - cbn [app]. rewrite (spec_swings_none timeframe candles config atr_result t b later); [done|].
    eapply Forall_impl; [exact Hlater|]. cbn. lia.
  - cbn [app spec_swings]. destruct (Z.leb_spec (ConfirmedSwing.confirmed_at s) t); [|done].
    rewrite swing_prefix by lia. destruct (spec_swing timeframe candles config atr_result b s) as [b'|]; [|done]. apply IH.
Qed.

Lemma bar_prefix s s' i c : (i < n)%nat -> candles !! i = Some c -> ahead_of later s s' ->
  agree (ahead_of later) (spec_bar timeframe (take n candles) config (prefix_atr n atr_result) s (i, c))
    (spec_bar timeframe candles config atr_result s' (i, c)).
Proof.
  destruct s as [b swings], s' as [b' swings']. intros Hi Hc [E1 E2]. cbn [fst snd] in *. subst b' swings'. unfold spec_bar.
  pose proof (opens_at timeframe candles first Hfirst Hspaced i c Hc) as Eo. pose proof (closes_at timeframe candles first Hfirst Hspaced i c Hc) as Ec.
  apply (agree_bind (ahead_of later)).
  - apply swings_prefix. rewrite Eo. apply clock_le. lia.
  - intros [b1 l1] [b2 l2] [E1 E2]. cbn [fst snd] in *. subst b2 l2. cbv zeta. apply (agree_bind eq); [apply agree_eq|].
    intros [b2 ev] ? <-. apply swings_prefix. rewrite Ec. apply clock_le. lia.
Qed.

Lemma fold_prefix usable :
  agree (ahead_of later)
    (py_fold (spec_bar timeframe (take n candles) config (prefix_atr n atr_result)) (Book.init, usable) (enumerate (take n candles)))
    (py_fold (spec_bar timeframe candles config atr_result) (Book.init, usable ++ later) (take n (enumerate candles))).
Proof.
  rewrite enumerate_take. apply agree_fold; [|done]. intros s s' [i c] Hx H. apply bar_prefix; [| |done].
  - by eapply elem_of_enumerate_lt.
  - apply elem_of_enumerate. rewrite <-(take_drop n). apply elem_of_app. by left.
Qed.

Lemma py_for_take {A} (f : A -> pyres unit) l k : py_for f l = Ok tt -> py_for f (take k l) = Ok tt.
Proof. rewrite !py_for_ok. apply Forall_take. Qed.

Lemma validate_prefix swings : _validate_inputs candles timeframe swings config atr_result = Ok tt ->
  _validate_inputs (take n candles) timeframe swings config (prefix_atr n atr_result) = Ok tt.
Proof.
  unfold _validate_inputs. intros ([] & H1 & ([] & H2 & ([] & H3 & H4)%bind_ok)%bind_ok)%bind_ok.
  assert (validate_alignment "LiquidityInputError" (LiquidityConfig.tick_size config) (take n candles) = Ok tt) as -> by (by apply py_for_take).
  assert (validate_spacing "LiquidityInputError" timeframe (take n candles) = Ok tt) as -> by (apply validate_spacing_ok, spaced_take).
  cbn [mbind pyres_bind]. rewrite H3. cbn [mbind pyres_bind]. unfold validate_atr_alignment in *. destruct atr_result as [r|]; [|done].
  cbn [prefix_atr fmap option_fmap option_map ATRResult.points]. apply bind_ok in H4 as ([] & H4 & H5).
  apply raise_if_ok, negb_false_iff, Nat.eqb_eq in H4. rewrite !length_take, H4, Nat.eqb_refl. cbn [negb raise_if mbind pyres_bind].
  rewrite <-zip_with_take. by apply py_for_take.
Qed.
End prefix.

Lemma omap_all_store tf candles config atr l swings b rest : NoDup (ids swings) ->
  py_fold (spec_bar tf candles config atr) (Book.init, swings) l = Ok (b, rest) ->
  omap (fun id => Book.store b !! id) (Book.pools b) = Book.store b.
Proof. intros Hn Hf. eapply distinct_archive, distinct_fold; [exact Hn|exact Hf]. Qed.

Lemma ids_filter p swings : NoDup (ids swings) -> NoDup (ids (List.filter p swings)).
Proof.
  induction swings as [|s l IH]; [done|]. intros [Hn Hl]%NoDup_cons. cbn. destruct (p s); [|by apply IH]. constructor; [|by apply IH].
  intros (x & Ex & [Hx _]%elem_of_filter_bool)%list_elem_of_fmap. apply Hn, list_elem_of_fmap. eauto.
Qed.

Lemma analysis_prefix candles timeframe confirmed_swings config atr_result n :
  Forall (fun c => valid_candle c = true) candles -> LiquidityConfig.valid config = true ->
  _validate_inputs candles timeframe confirmed_swings config atr_result = Ok tt ->
  swings_ok timeframe candles config confirmed_swings -> NoDup (ids confirmed_swings) -> (0 < n <= length candles)%nat ->
  exists cutoff b b' past present, data_cutoff_at (take n candles) timeframe = Some cutoff
    /\ analyze_liquidity (take n candles) timeframe confirmed_swings config (prefix_atr n atr_result) = Ok past
    /\ analyze_liquidity candles timeframe confirmed_swings config atr_result = Ok present
    /\ book_ok config cutoff b /\ book_extends (cutoff + 1) b b'
    /\ LiquidityAnalysisResult.pools past = map schema (Book.store b) /\ LiquidityAnalysisResult.pools present = map schema (Book.store b')
    /\ LiquidityAnalysisResult.interactions past = Book.interactions b
    /\ LiquidityAnalysisResult.interactions present = Book.interactions b'
    /\ LiquidityAnalysisResult.dual_sweeps past = Book.dual_sweeps b
    /\ LiquidityAnalysisResult.dual_sweeps present = Book.dual_sweeps b'
    /\ Forall pool_ok (Book.store b').
Proof.
  intros Hc Hconf Hv Hs Hn Hrange. rewrite (engine_is_spec _ _ _ _ _ Hc Hconf).
  rewrite (engine_is_spec (take n candles)) by (done || by apply Forall_take).
  destruct (lookup_lt_is_Some_2 candles 0 ltac:(lia)) as [first Hf]. destruct (liquidity_inputs_ok _ _ _ _ _ Hv) as (Hsp & _ & _).
  set (cut := clock timeframe first n).
  assert (data_cutoff_at (take n candles) timeframe = Some cut) as Hcut.
  { rewrite (cutoff_clock timeframe (take n candles) first) by (by apply spaced_take || by rewrite lookup_take_lt by lia).
    by rewrite length_take, Nat.min_l by lia. }
  destruct (spec_result timeframe candles config atr_result Hconf first _ Hf Hv Hs) as (b' & rest' & Ha' & Epresent & Hok').
  pose proof (usable_pending timeframe candles config atr_result first _ Hf Hv Hs) as Hp.
  set (usable := usable_at (clock timeframe first (length candles)) confirmed_swings) in *.
  destruct (after_ok timeframe candles config atr_result Hconf first Hf Hsp usable Hp n ltac:(lia)) as (b & rest & Ha).
  destruct (after_extends timeframe candles config atr_result Hconf first Hf Hsp usable n (length candles) b rest Ha ltac:(lia)) as (b2 & rest2 & Ha2 & Hx).
  assert (b2 = b') as -> by (destruct Ha2 as (E2 & _), Ha' as (E' & _); congruence).
  (* the swings the prefix knows *)
  pose proof (ascending_split (clock timeframe first 1) cut usable (proj2 Hp)) as Esplit.
  assert (usable_at cut confirmed_swings = usable_at cut usable) as Eus.
  { unfold usable, usable_at. rewrite filter_andb. apply List.filter_ext. intros x.
    pose proof (clock_le timeframe first n (length candles) ltac:(lia)). fold cut in H.
    destruct (Z.leb_spec (ConfirmedSwing.confirmed_at x) cut), (Z.leb_spec (ConfirmedSwing.confirmed_at x) (clock timeframe first (length candles))); try done; lia. }
  set (later := List.filter (fun s => negb (ConfirmedSwing.confirmed_at s <=? cut)) usable) in *.
  assert (Forall (fun s => cut < ConfirmedSwing.confirmed_at s) later) as Hlater.
  { apply Forall_forall. intros s [_ Hs']%elem_of_filter_bool. apply negb_true_iff, Z.leb_gt in Hs'. done. }
  pose proof (fold_prefix timeframe candles config atr_result first Hf Hsp n later Hlater (usable_at cut confirmed_swings)) as Hfold.
  rewrite Eus in Hfold. fold (usable_at cut usable) in Esplit. rewrite <-Esplit in Hfold. destruct Ha as (Hfull & Hbok & _). rewrite Hfull in Hfold.
  destruct (py_fold (spec_bar timeframe (take n candles) config (prefix_atr n atr_result)) (Book.init, usable_at cut usable) (enumerate (take n candles)))
    as [[b0 rest0]|] eqn:Epre; [|done]. destruct Hfold as [E _]. cbn [fst] in E. subst b0.
  assert (NoDup (ids usable)) as Hnu by (by apply ids_filter).
  assert (omap (fun id => Book.store b !! id) (Book.pools b) = Book.store b) as Estore by (eapply omap_all_store; [exact Hnu|exact Hfull]).
  assert (omap (fun id => Book.store b' !! id) (Book.pools b') = Book.store b') as Estore' by (eapply omap_all_store; [exact Hnu|exact (proj1 Ha')]).
  rewrite Estore' in Epresent, Hok'. eexists cut, b, b', _, _. split; [done|]. split.
  - unfold liquidity_spec. rewrite (validate_prefix timeframe candles config atr_result Hsp n _ Hv), Hcut. cbn [mbind pyres_bind].
    fold (usable_at cut confirmed_swings). rewrite Eus, Epre. cbn [mbind pyres_bind]. rewrite Estore.
    rewrite (py_map_total _ schema); [reflexivity|]. intros p Hin.
    pose proof (bo_store _ _ _ Hbok) as Hst. unfold store_ok in Hst. rewrite Forall_forall in Hst. by apply schema_ok, Hst.
  - split; [exact Epresent|]. split_and!; try done.
    eapply book_extends_later; [|exact Hx]. pose proof (clock_lt timeframe first n (S n) ltac:(lia)). unfold cut. lia.
Qed.

(** C13. No lookahead. What the engine returns on the first [n] candles is what
    it returns on all of them, looked at from the close of the [n]-th: the pools
    existing then are the snapshots of the first pools of the later result, all
    other pools were created later, and the interactions and double sweeps are
    those confirmed by then. Later candles, swings and ATR points revise
    nothing. *)
Theorem analyze_liquidity_point_in_time candles timeframe confirmed_swings config atr_result n :
  Forall (fun c => valid_candle c = true) candles -> LiquidityConfig.valid config = true ->
  _validate_inputs candles timeframe confirmed_swings config atr_result = Ok tt ->
  swings_ok timeframe candles config confirmed_swings -> NoDup (ids confirmed_swings) -> (0 < n <= length candles)%nat ->
  exists cutoff past present, data_cutoff_at (take n candles) timeframe = Some cutoff
    /\ analyze_liquidity (take n candles) timeframe confirmed_swings config (prefix_atr n atr_result) = Ok past
    /\ analyze_liquidity candles timeframe confirmed_swings config atr_result = Ok present
    /\ (exists known later, LiquidityAnalysisResult.pools present = known ++ later
         /\ Forall2 (fun P p => LiquidityPool.snapshot_at P cutoff = Ok (Some p)) known (LiquidityAnalysisResult.pools past)
         /\ Forall (fun P => LiquidityPool.snapshot_at P cutoff = Ok None) later)
    /\ filter (fun e => LiquidityInteraction.confirmed_at e <= cutoff) (LiquidityAnalysisResult.interactions present)
       = LiquidityAnalysisResult.interactions past
    /\ filter (fun g => DualSweepGroup.confirmed_at g <= cutoff) (LiquidityAnalysisResult.dual_sweeps present)
       = LiquidityAnalysisResult.dual_sweeps past.
Proof.
  intros Hc Hconf Hv Hs Hn Hrange.
  destruct (analysis_prefix _ _ _ _ _ _ Hc Hconf Hv Hs Hn Hrange)
    as (cut & b & b' & past & present & Hcut & Hpast & Hpresent & [B1 _ _ B4 B5] & [[Hold Hnew] _ (es & Ee & Fe) (gs & Eg & Fg)] & E1 & E2 & E3 & E4 & E5 & E6 & Hok).
  exists cut, past, present. split; [done|]. split; [done|]. split; [done|]. rewrite E1, E2, E3, E4, E5, E6. split; [|split].
  - exists (map schema (take (length (Book.store b)) (Book.store b'))), (map schema (drop (length (Book.store b)) (Book.store b'))).
    split; [by rewrite <-map_app, take_drop|]. split.
    + apply Forall2_fmap_l, Forall2_fmap_r, Forall2_same_length_lookup_2.
      * rewrite length_take. pose proof (stores_extend_length (cut + 1) _ _ (Build_stores_extend _ _ _ Hold Hnew)). lia.
      * intros i q p [Hq _]%lookup_take_Some Hp. destruct (Hold _ _ Hp) as (q' & Hq' & Hx). assert (q' = q) as -> by congruence.
        destruct (store_ok_lookup _ _ _ _ B1 Hp) as [Hpok Hup]. apply (snapshot_extends (cut + 1)); try done. lia.
    + apply Forall_fmap, Forall_forall. intros q [i Hi]%list_elem_of_lookup. rewrite lookup_drop in Hi.
      pose proof (Hnew (length (Book.store b) + i)%nat q ltac:(lia) Hi) as Hcr. pose proof (Forall_lookup_1 _ _ _ _ Hok Hi) as Hqok.
      destruct (schema_ok q Hqok) as (_ & H1 & H2). apply (snapshot_at_spec (schema q) cut H1 H2). cbn. lia.
  - rewrite Ee. apply filter_upto; [done|]. eapply Forall_impl; [exact Fe|]. cbn. lia.
  - rewrite Eg. apply filter_upto; [done|]. eapply Forall_impl; [exact Fg|]. cbn. lia.
Qed.

(** ** A run *)

Definition liq_bar (minute o h l c : Z) : Candle := Candle.mkCandle (minutes minute) (D o) (D h) (D l) (D c) (D 1).
Definition liq_bars : list Candle :=
  [liq_bar 0 100 102 98 100; liq_bar 1 100 103 99 101; liq_bar 2 101 104 100 102; liq_bar 3 102 103 99 100;
   liq_bar 4 100 102 97 99; liq_bar 5 99 103 98 102; liq_bar 6 102 109 92 104; liq_bar 7 104 113 103 112;
   liq_bar 8 112 114 110 111; liq_bar 9 111 112 108 109; liq_bar 10 109 110 107 108].

Definition liq_swing (id : string) (kind : SwingKind) (price minute : Z) : ConfirmedSwing :=
  ConfirmedSwing.mkConfirmedSwing id id kind 0 (minutes minute) (D price) (minutes minute) (minutes (minute + 2)) [] [].
Definition liq_swings : list ConfirmedSwing :=
  [liq_swing "H1" SwingKind.HIGH 105 1; liq_swing "L1" SwingKind.LOW 95 2; liq_swing "H2" SwingKind.HIGH 106 3].

Definition liq_config : LiquidityConfig :=
  LiquidityConfig.mkLiquidityConfig (D 1) true 1 (D 1) (D 0) 2 1 1 3 5 true.

Definition liq_points : ATRResult :=
  ATRResult.mkATRResult (ATRConfig.mkATRConfig 2 ATRSmoothing.WILDER) (map (fun c => ATRPoint.mkATRPoint (Candle.timestamp c) (D 4) (Some (D 4))) liq_bars).

Definition liq_result : LiquidityAnalysisResult :=
  match analyze_liquidity liq_bars Timeframe.ONE_MINUTE liq_swings liq_config (Some liq_points) with
  | Ok r => r
  | Raise _ => LiquidityAnalysisResult.mkLiquidityAnalysisResult Timeframe.ONE_MINUTE liq_config 0 None [] [] []
  end.

Lemma liq_swings_ok : swings_ok Timeframe.ONE_MINUTE liq_bars liq_config liq_swings.
Proof.
  repeat (apply Forall_cons; split; [split; [split; vm_compute; reflexivity|intros cutoff _ _; eexists; vm_compute; reflexivity]|]).
  constructor.
Qed.

Lemma analyze_liquidity_refines_witness :
  analyze_liquidity liq_bars Timeframe.ONE_MINUTE liq_swings liq_config (Some liq_points)
  = liquidity_spec liq_bars Timeframe.ONE_MINUTE liq_swings liq_config (Some liq_points)
  /\ map LiquidityPool.state (LiquidityAnalysisResult.pools liq_result)
     = [LiquidityPoolState.TAKEN; LiquidityPoolState.EXPIRED; LiquidityPoolState.TAKEN; LiquidityPoolState.TAKEN]
  /\ map (fun p => LiquidityPoolHistoryEntry.event_type <$> LiquidityPool.history p) (take 1 (LiquidityAnalysisResult.pools liq_result))
     = [[LiquidityPoolHistoryEventType.CREATED; LiquidityPoolHistoryEventType.SWEPT; LiquidityPoolHistoryEventType.TAKEN]].
Proof.
  split; [|split; vm_compute; reflexivity].
  apply analyze_liquidity_refines; [repeat (apply Forall_cons; split; [vm_compute; reflexivity|]); constructor|vm_compute; reflexivity].
Defined.

Lemma analyze_liquidity_total_witness :
  exists result, analyze_liquidity liq_bars Timeframe.ONE_MINUTE liq_swings liq_config (Some liq_points) = Ok result
    /\ pools_ok (LiquidityAnalysisResult.pools result)
    /\ Forall (fun p => follows_protocol (LiquidityPool.history p) = true) (LiquidityAnalysisResult.pools result).
Proof.
  destruct (analyze_liquidity_total liq_bars Timeframe.ONE_MINUTE liq_swings liq_config (Some liq_points)) as (result & H1 & H2 & H3 & _).
  - repeat (apply Forall_cons; split; [vm_compute; reflexivity|]); constructor.
  - vm_compute; reflexivity.
  - vm_compute; reflexivity.
  - exact liq_swings_ok.
  - exists result. split; [exact H1|]. split; [exact H2|exact H3].
Defined.

Lemma analyze_liquidity_point_in_time_witness :
  exists cutoff past, data_cutoff_at (take 7 liq_bars) Timeframe.ONE_MINUTE = Some cutoff
    /\ analyze_liquidity (take 7 liq_bars) Timeframe.ONE_MINUTE liq_swings liq_config (prefix_atr 7 (Some liq_points)) = Ok past.
Proof.
  destruct (analyze_liquidity_point_in_time liq_bars Timeframe.ONE_MINUTE liq_swings liq_config (Some liq_points) 7)
    as (cutoff & past & present & H1 & H2 & _).
  - repeat (apply Forall_cons; split; [vm_compute; reflexivity|]); constructor.
  - vm_compute; reflexivity.
  - vm_compute; reflexivity.
  - exact liq_swings_ok.
  - vm_compute. repeat (apply NoDup_cons; split; [set_solver|]). constructor.
  - split; vm_compute; lia.
  - exists cutoff, past. split; [exact H1|exact H2].
Defined.
