(* ===== verification/Displacement.v ===== *)
(** The displacement engine: [engines/smc/displacement.py] and
    [schemas/displacement.py].

    For each break of structure, the search for the earliest leg of candles
    that is strong enough, with the fair value gaps looked up in an index by
    the last candle they use. *)
From Stdlib Require Import ZArith Lia.
From stdpp Require Import base list strings numbers sets gmap.
From S2P Require Import Prelude Decimal Time Candle Indicators Structure Engine Fvg.
Local Open Scope Z_scope.

(** ** Schemas *)

Definition DISPLACEMENT_PREC : Z := 34.
#[export] Instance displacement_prec_valid : ValidPrec DISPLACEMENT_PREC := ltac:(unfold ValidPrec, DISPLACEMENT_PREC; lia).

Module DisplacementDirection.
Inductive DisplacementDirection := BULLISH | BEARISH.
#[global] Instance DisplacementDirection_eqdec : EqDecision DisplacementDirection := ltac:(solve_decision).
End DisplacementDirection.
Abbreviation DisplacementDirection := DisplacementDirection.DisplacementDirection.

Module DisplacementCandidateStatus.
Inductive DisplacementCandidateStatus := CANDIDATE | QUALIFIED | EXPIRED | REJECTED.
#[global] Instance DisplacementCandidateStatus_eqdec : EqDecision DisplacementCandidateStatus := ltac:(solve_decision).
End DisplacementCandidateStatus.
Abbreviation DisplacementCandidateStatus := DisplacementCandidateStatus.DisplacementCandidateStatus.

Module DisplacementRejectionCode.
Inductive DisplacementRejectionCode :=
| UNSUPPORTED_STRUCTURE_EVENT | ATR_UNAVAILABLE | NET_MOVE_NOT_POSITIVE | NET_MOVE_BELOW_THRESHOLD
| BODY_MOVE_BELOW_THRESHOLD | EFFICIENCY_BELOW_THRESHOLD | ADVERSE_MOVE_ABOVE_THRESHOLD | FVG_REQUIRED.
#[global] Instance DisplacementRejectionCode_eqdec : EqDecision DisplacementRejectionCode := ltac:(solve_decision).
End DisplacementRejectionCode.
Abbreviation DisplacementRejectionCode := DisplacementRejectionCode.DisplacementRejectionCode.

Module DisplacementConfig.
Record DisplacementConfig := mkDisplacementConfig {
  tick_size : dec;
  displacement_atr_period : nat;
  displacement_max_bars : nat;
  displacement_net_atr_ratio : dec;
  displacement_body_atr_ratio : dec;
  displacement_min_body_efficiency : dec;
  displacement_max_adverse_atr_ratio : dec;
  displacement_require_fvg : bool
}.
Definition valid (c : DisplacementConfig) : bool :=
  dltb (D 0) (tick_size c) && (1 <=? displacement_atr_period c)%nat && (1 <=? displacement_max_bars c)%nat
  && dltb (D 0) (displacement_net_atr_ratio c) && dltb (D 0) (displacement_body_atr_ratio c)
  && dltb (D 0) (displacement_min_body_efficiency c) && dleb (displacement_min_body_efficiency c) (D 1)
  && dleb (D 0) (displacement_max_adverse_atr_ratio c).
End DisplacementConfig.
Abbreviation DisplacementConfig := DisplacementConfig.DisplacementConfig.

Module DisplacementStrengthMetrics.
Record DisplacementStrengthMetrics := mkDisplacementStrengthMetrics {
  atr_baseline : dec;
  net_move : dec;
  directional_body_sum : dec;
  opposing_body_sum : dec;
  total_body_sum : dec;
  body_efficiency : dec;
  net_atr_ratio : dec;
  body_atr_ratio : dec;
  adverse_price : dec;
  adverse_atr_ratio : dec
}.
(** The field constraints and [validate_body_sum], which runs in the context the
    object is built in. *)
Definition validate_body_sum (m : DisplacementStrengthMetrics) : bool :=
  dltb (D 0) (atr_baseline m)
  && forallb (dleb (D 0))
       [directional_body_sum m; opposing_body_sum m; total_body_sum m; body_efficiency m; body_atr_ratio m;
        adverse_price m; adverse_atr_ratio m]
  && dleb (body_efficiency m) (D 1)
  && deqb (total_body_sum m) (dadd DISPLACEMENT_PREC (directional_body_sum m) (opposing_body_sum m)).
End DisplacementStrengthMetrics.
Abbreviation DisplacementStrengthMetrics := DisplacementStrengthMetrics.DisplacementStrengthMetrics.

Module DisplacementLeg.
Record DisplacementLeg := mkDisplacementLeg {
  leg_id : string;
  status : DisplacementCandidateStatus;
  direction : DisplacementDirection;
  start_bar_index : nat;
  end_bar_index : nat;
  start_timestamp : datetime;
  end_timestamp : datetime;
  timestamp : datetime;
  confirmed_at : datetime;
  strength_metrics : DisplacementStrengthMetrics;
  associated_fvg : list string;
  associated_structure_break : string
}.
Definition validate_leg (l : DisplacementLeg) : bool :=
  negb (end_bar_index l <? start_bar_index l)%nat && (timestamp l =? end_timestamp l)
  && negb (confirmed_at l <=? end_timestamp l).
End DisplacementLeg.
Abbreviation DisplacementLeg := DisplacementLeg.DisplacementLeg.

Module DisplacementEvaluation.
Record DisplacementEvaluation := mkDisplacementEvaluation {
  candidate_id : string;
  direction : DisplacementDirection;
  status : DisplacementCandidateStatus;
  start_bar_index : nat;
  start_timestamp : datetime;
  last_evaluated_bar_index : option nat;
  last_evaluated_at : option datetime;
  strength_metrics : option DisplacementStrengthMetrics;
  associated_fvg : list string;
  associated_structure_break : string;
  reason_codes : list DisplacementRejectionCode
}.
Definition validate_evaluation (e : DisplacementEvaluation) : bool :=
  negb (bool_decide (status e = DisplacementCandidateStatus.QUALIFIED))
  && negb (bool_decide (status e = DisplacementCandidateStatus.REJECTED) && bool_decide (reason_codes e = [])).
End DisplacementEvaluation.
Abbreviation DisplacementEvaluation := DisplacementEvaluation.DisplacementEvaluation.

Module DisplacementAnalysisResult.
Record DisplacementAnalysisResult := mkDisplacementAnalysisResult {
  timeframe : Timeframe;
  config : DisplacementConfig;
  candle_count : nat;
  data_cutoff_at : option datetime;
  legs : list DisplacementLeg;
  evaluations : list DisplacementEvaluation
}.
End DisplacementAnalysisResult.
Abbreviation DisplacementAnalysisResult := DisplacementAnalysisResult.DisplacementAnalysisResult.

(** ** Input *)

Definition DisplacementInputError (msg : string) : pyexc := Exc "DisplacementInputError" msg.

Definition _validate_inputs (candles : list Candle) (timeframe : Timeframe) (structure_events : list StructureBreakEvent)
    (fvg_zones : list GapZone) (config : DisplacementConfig) : pyres unit :=
  _ ← validate_alignment "DisplacementInputError" (DisplacementConfig.tick_size config) candles;
  _ ← validate_spacing "DisplacementInputError" timeframe candles;
  _ ← validate_structure_events "DisplacementInputError" timeframe candles structure_events;
  py_for (fun zone =>
    _ ← raise_if (negb (bool_decide (GapZone.confirmed_at zone ∈ candle_close_times timeframe candles)))
          (DisplacementInputError "FVG confirmed_at must match an available candle close");
    raise_if (existsb (fun timestamp => negb (bool_decide (timestamp ∈ map Candle.timestamp candles)))
                (GapZone.source_candle_timestamps zone))
      (DisplacementInputError "FVG source timestamps must match available candles")) fvg_zones.

Definition _direction (event : StructureBreakEvent) : DisplacementDirection :=
  match StructureBreakEvent.direction event with
  | StructureDirection.BULLISH => DisplacementDirection.BULLISH
  | StructureDirection.BEARISH => DisplacementDirection.BEARISH
  end.

Definition IndexError : pyexc := Exc "IndexError" "list index out of range".

(** [sequence\[index\]] *)
Definition at_index {A} (l : list A) (index : nat) : pyres A :=
  match l !! index with Some x => Ok x | None => Raise IndexError end.

(** ** The strength of a leg *)

Section metrics.
Context (candles : list Candle) (start_index end_index : nat) (direction : DisplacementDirection) (atr_baseline : dec).

Definition multiplier : dec :=
  match direction with DisplacementDirection.BULLISH => D 1 | DisplacementDirection.BEARISH => D (-1) end.

(** [candles\[start_index : end_index + 1\]] *)
Definition leg_bars : list Candle := slice candles start_index (end_index + 1).

Definition signed_body (candle : Candle) : dec :=
  dmul DISPLACEMENT_PREC multiplier (dsub DISPLACEMENT_PREC (Candle.close candle) (Candle.open candle)).

(** One bar of the loop over the bodies. *)
Definition body_step (sums : dec * dec) (candle : Candle) : dec * dec :=
  let '(directional_body_sum, opposing_body_sum) := sums in
  (dadd DISPLACEMENT_PREC directional_body_sum (dmax (signed_body candle) (D 0)),
   dadd DISPLACEMENT_PREC opposing_body_sum (dmax (dneg DISPLACEMENT_PREC (signed_body candle)) (D 0))).

(** The price that moved furthest against the leg; [min] and [max] of an empty
    sequence raise. *)
Definition worst_price : pyres dec :=
  let price :=
    match direction with
    | DisplacementDirection.BULLISH => py_min dltb (map Candle.low leg_bars)
    | DisplacementDirection.BEARISH => py_max dltb (map Candle.high leg_bars)
    end in
  match price with Some price => Ok price | None => Raise (Exc "ValueError" "arg is an empty sequence") end.

Definition adverse_of (start_open worst : dec) : dec :=
  match direction with
  | DisplacementDirection.BULLISH => dmax (dsub DISPLACEMENT_PREC start_open worst) (D 0)
  | DisplacementDirection.BEARISH => dmax (dsub DISPLACEMENT_PREC worst start_open) (D 0)
  end.

Definition _metrics : pyres DisplacementStrengthMetrics :=
  start_bar ← at_index candles start_index;
  let start_open := Candle.open start_bar in
  let '(directional_body_sum, opposing_body_sum) := foldl body_step (D 0, D 0) leg_bars in
  let total_body_sum := dadd DISPLACEMENT_PREC directional_body_sum opposing_body_sum in
  let body_efficiency :=
    if dltb (D 0) total_body_sum then ddiv DISPLACEMENT_PREC directional_body_sum total_body_sum else D 0 in
  end_bar ← at_index candles end_index;
  let net_move := dmul DISPLACEMENT_PREC multiplier (dsub DISPLACEMENT_PREC (Candle.close end_bar) start_open) in
  worst ← worst_price;
  let adverse_price := adverse_of start_open worst in
  let plus := dplus DISPLACEMENT_PREC in
  validated DisplacementStrengthMetrics.validate_body_sum
    (DisplacementStrengthMetrics.mkDisplacementStrengthMetrics (plus atr_baseline) (plus net_move)
      (plus directional_body_sum) (plus opposing_body_sum) (plus total_body_sum) (plus body_efficiency)
      (plus (ddiv DISPLACEMENT_PREC net_move atr_baseline))
      (plus (ddiv DISPLACEMENT_PREC directional_body_sum atr_baseline)) (plus adverse_price)
      (plus (ddiv DISPLACEMENT_PREC adverse_price atr_baseline))).
End metrics.

(** ** Gaps of a leg *)

Definition gap_direction (direction : DisplacementDirection) : GapDirection :=
  match direction with
  | DisplacementDirection.BULLISH => GapDirection.BULLISH
  | DisplacementDirection.BEARISH => GapDirection.BEARISH
  end.

Definition zone_order : GapZone -> GapZone -> bool :=
  lex_lt (on_key GapZone.confirmed_at Z.ltb) (on_key GapZone.zone_id str_lt).

(** The body of the loop over the zones; [start_index - 2] may be negative. *)
Definition match_zone (timestamp_to_index : gmap Z nat) (direction : DisplacementDirection) (start_index end_index : nat)
    (end_close : datetime) (zone : GapZone) : pyres (list GapZone) :=
  if negb (bool_decide (GapZone.type zone = GapZoneType.FVG))
     || negb (bool_decide (GapZone.direction zone = gap_direction direction)) then Ok []
  else if end_close <? GapZone.confirmed_at zone then Ok []
  else
    source_indices ← py_map (index_get timestamp_to_index) (GapZone.source_candle_timestamps zone);
    Ok (if forallb (fun index => (start_index <=? index + 2)%nat && (index <=? end_index)%nat) source_indices
        then [zone] else []).

Definition _matching_fvgs (zones : list GapZone) (timestamp_to_index : gmap Z nat) (direction : DisplacementDirection)
    (start_index end_index : nat) (end_close : datetime) : pyres (list string) :=
  matches ← py_map (match_zone timestamp_to_index direction start_index end_index end_close) zones;
  Ok (map GapZone.zone_id (sort_by zone_order (concat matches))).

(** The index of gaps by direction and last source candle, and the gaps without sources. *)
Module FvgIndex.
Record FvgIndex := mkFvgIndex {
  fvg_by_last_source : GapDirection -> gmap nat (list GapZone);
  source_free_fvgs : list GapZone
}.
Definition empty : FvgIndex := mkFvgIndex (fun _ => ∅) [].
(** [fvg_by_last_source\[direction, last\].append(zone)] *)
Definition append (idx : FvgIndex) (direction : GapDirection) (last : nat) (zone : GapZone) : FvgIndex :=
  mkFvgIndex
    (fun d => if bool_decide (d = direction)
              then <[last := default [] (fvg_by_last_source idx d !! last) ++ [zone]]> (fvg_by_last_source idx d)
              else fvg_by_last_source idx d)
    (source_free_fvgs idx).
End FvgIndex.
Abbreviation FvgIndex := FvgIndex.FvgIndex.

Definition index_fvg (timestamp_to_index : gmap Z nat) (idx : FvgIndex) (zone : GapZone) : pyres FvgIndex :=
  if bool_decide (GapZone.type zone = GapZoneType.FVG) then
    indices ← py_map (index_get timestamp_to_index) (GapZone.source_candle_timestamps zone);
    Ok match py_max Nat.ltb indices with
       | Some last => FvgIndex.append idx (GapZone.direction zone) last zone
       | None => FvgIndex.mkFvgIndex (FvgIndex.fvg_by_last_source idx) (FvgIndex.source_free_fvgs idx ++ [zone])
       end
  else Ok idx.

(** [source_free_fvgs + \[zone for index in range(start_index-2, end_index+1) for zone in ...\]];
    a negative index is never a key. *)
Definition fvg_candidates (idx : FvgIndex) (direction : DisplacementDirection) (start_index end_index : nat) : list GapZone :=
  FvgIndex.source_free_fvgs idx
  ++ flat_map (fun index => default [] (FvgIndex.fvg_by_last_source idx (gap_direction direction) !! index))
       (seq (start_index - 2) (end_index + 1 - (start_index - 2))).

(** ** One structure event *)

Definition _failure_reasons (metrics : DisplacementStrengthMetrics) (associated_fvg : list string) (config : DisplacementConfig)
    : list DisplacementRejectionCode :=
  (if dleb (DisplacementStrengthMetrics.net_move metrics) (D 0) then [DisplacementRejectionCode.NET_MOVE_NOT_POSITIVE] else [])
  ++ (if dltb (DisplacementStrengthMetrics.net_atr_ratio metrics) (DisplacementConfig.displacement_net_atr_ratio config)
      then [DisplacementRejectionCode.NET_MOVE_BELOW_THRESHOLD] else [])
  ++ (if dltb (DisplacementStrengthMetrics.body_atr_ratio metrics) (DisplacementConfig.displacement_body_atr_ratio config)
      then [DisplacementRejectionCode.BODY_MOVE_BELOW_THRESHOLD] else [])
  ++ (if dltb (DisplacementStrengthMetrics.body_efficiency metrics) (DisplacementConfig.displacement_min_body_efficiency config)
      then [DisplacementRejectionCode.EFFICIENCY_BELOW_THRESHOLD] else [])
  ++ (if dltb (DisplacementConfig.displacement_max_adverse_atr_ratio config) (DisplacementStrengthMetrics.adverse_atr_ratio metrics)
      then [DisplacementRejectionCode.ADVERSE_MOVE_ABOVE_THRESHOLD] else [])
  ++ (if DisplacementConfig.displacement_require_fvg config && bool_decide (associated_fvg = [])
      then [DisplacementRejectionCode.FVG_REQUIRED] else []).

(** What one end of the leg was found to be: its metrics, gaps and failures. *)
Definition Latest : Type := DisplacementStrengthMetrics * list string * list DisplacementRejectionCode.

Section event.
Context (candles : list Candle) (timeframe : Timeframe) (config : DisplacementConfig).
Context (idx : FvgIndex) (true_ranges : list dec) (event : StructureBreakEvent) (start_index : nat).

Let interval := timeframe_duration timeframe.

Definition evaluate_end (atr_baseline : dec) (end_index : nat) : pyres (datetime * Latest) :=
  let direction := _direction event in
  end_bar ← at_index candles end_index;
  let end_close := Candle.timestamp end_bar + interval in
  latest_metrics ← _metrics candles start_index end_index direction atr_baseline;
  latest_fvgs ← _matching_fvgs (fvg_candidates idx direction start_index end_index) (timestamp_to_index candles) direction
                  start_index end_index end_close;
  Ok (end_close, (latest_metrics, latest_fvgs, _failure_reasons latest_metrics latest_fvgs config)).

(** The search over the ends, with its [break]: the leg that qualifies, or the
    latest evaluation. *)
Fixpoint search_end (atr_baseline : dec) (ends : list nat) (latest : option Latest) : pyres (DisplacementLeg + option Latest) :=
  match ends with
  | [] => Ok (inr latest)
  | end_index :: rest =>
      '(end_close, (metrics, fvgs, reasons)) ← evaluate_end atr_baseline end_index;
      match reasons with
      | _ :: _ => search_end atr_baseline rest (Some (metrics, fvgs, reasons))
      | [] =>
          start_bar ← at_index candles start_index;
          end_bar ← at_index candles end_index;
          let event_ref := structure_event_reference event in
          leg ← validated DisplacementLeg.validate_leg
                  (DisplacementLeg.mkDisplacementLeg
                     ("LEG:" +:+ event_ref +:+ ":" +:+ isoformat (Candle.timestamp end_bar))
                     DisplacementCandidateStatus.QUALIFIED (_direction event) start_index end_index
                     (Candle.timestamp start_bar) (Candle.timestamp end_bar) (Candle.timestamp end_bar) end_close
                     metrics fvgs event_ref);
          Ok (inl leg)
      end
  end.

(** The evaluations that reject an event before the search. *)
Definition rejected_evaluation (reason : DisplacementRejectionCode) : pyres DisplacementEvaluation :=
  let event_ref := structure_event_reference event in
  validated DisplacementEvaluation.validate_evaluation
    (DisplacementEvaluation.mkDisplacementEvaluation ("DISPLACEMENT:" +:+ event_ref) (_direction event)
       DisplacementCandidateStatus.REJECTED start_index (StructureBreakEvent.timestamp event) None None None [] event_ref
       [reason]).

Definition supported : bool :=
  bool_decide (StructureBreakEvent.type event = StructureEventType.BOS)
  || bool_decide (StructureBreakEvent.type event = StructureEventType.MSS).

(** [sum(true_ranges\[baseline_start:start_index\]) / period] *)
Definition baseline_of : dec :=
  let period := DisplacementConfig.displacement_atr_period config in
  ddiv DISPLACEMENT_PREC (dsum DISPLACEMENT_PREC (slice true_ranges (start_index - period) start_index))
    (D (Z.of_nat period)).

Definition last_permitted_index : nat := (start_index + DisplacementConfig.displacement_max_bars config - 1)%nat.
Definition available_end_index : nat := Nat.min last_permitted_index (length candles - 1).

Definition latest_evaluation (latest : option Latest) : pyres DisplacementEvaluation :=
  match latest with
  | None => Raise (Exc "AssertionError" "")
  | Some (latest_metrics, latest_fvgs, latest_reasons) =>
      last_bar ← at_index candles available_end_index;
      let event_ref := structure_event_reference event in
      validated DisplacementEvaluation.validate_evaluation
        (DisplacementEvaluation.mkDisplacementEvaluation ("DISPLACEMENT:" +:+ event_ref) (_direction event)
           (if (available_end_index =? last_permitted_index)%nat then DisplacementCandidateStatus.EXPIRED
            else DisplacementCandidateStatus.CANDIDATE)
           start_index (StructureBreakEvent.timestamp event) (Some available_end_index)
           (Some (Candle.timestamp last_bar + interval)) (Some latest_metrics) latest_fvgs event_ref latest_reasons)
  end.

Definition evaluate_event : pyres (DisplacementLeg + DisplacementEvaluation) :=
  let reject reason := e ← rejected_evaluation reason; Ok (inr e) in
  if negb supported then reject DisplacementRejectionCode.UNSUPPORTED_STRUCTURE_EVENT
  else if (start_index <? DisplacementConfig.displacement_atr_period config)%nat then
    reject DisplacementRejectionCode.ATR_UNAVAILABLE
  else if dleb baseline_of (D 0) then reject DisplacementRejectionCode.ATR_UNAVAILABLE
  else
    found ← search_end baseline_of (seq start_index (available_end_index + 1 - start_index)) None;
    match found with
    | inl leg => Ok (inl leg)
    | inr latest => e ← latest_evaluation latest; Ok (inr e)
    end.
End event.

(** ** The analysis *)

Definition displacement_step (candles : list Candle) (timeframe : Timeframe) (config : DisplacementConfig) (idx : FvgIndex)
    (true_ranges : list dec) (st : list DisplacementLeg * list DisplacementEvaluation) (event : StructureBreakEvent)
    : pyres (list DisplacementLeg * list DisplacementEvaluation) :=
  let '(legs, evaluations) := st in
  start_index ← index_get (timestamp_to_index candles) (StructureBreakEvent.timestamp event);
  v ← evaluate_event candles timeframe config idx true_ranges event start_index;
  Ok match v with
     | inl leg => (legs ++ [leg], evaluations)
     | inr e => (legs, evaluations ++ [e])
     end.

Definition analyze_displacement (candles : list Candle) (timeframe : Timeframe) (structure_events : list StructureBreakEvent)
    (config : DisplacementConfig) (fvg_zones : list GapZone) : pyres DisplacementAnalysisResult :=
  _ ← _validate_inputs candles timeframe structure_events fvg_zones config;
  idx ← py_fold (index_fvg (timestamp_to_index candles)) FvgIndex.empty fvg_zones;
  found ← py_fold (displacement_step candles timeframe config idx (_true_ranges candles)) ([], []) structure_events;
  let '(legs, evaluations) := found in
  Ok (DisplacementAnalysisResult.mkDisplacementAnalysisResult timeframe config (length candles)
        (data_cutoff_at candles timeframe) legs evaluations).
