(* ===== verification/DisplacementTheory.v ===== *)
(** Theorems on [engines/smc/displacement.py]: the index of gaps finds what a
    scan of all gaps finds, the metrics of a leg never fail, and each event gets
    the earliest leg that qualifies. *)
From Stdlib Require Import ZArith QArith Qabs Lia Lqa Sorting.Permutation.
From stdpp Require Import base list strings numbers sets gmap sorting.
From S2P Require Import Prelude Decimal Time Candle Indicators Structure Engine Fvg Displacement.
Local Open Scope Z_scope.

(** ** What the checks establish *)

(** A gap that is known at a close and made of candles of the sequence. *)
Definition zone_on_candles (timeframe : Timeframe) (candles : list Candle) (zone : GapZone) : Prop :=
  GapZone.confirmed_at zone ∈ candle_close_times timeframe candles
  /\ forall t, t ∈ GapZone.source_candle_timestamps zone -> t ∈ map Candle.timestamp candles.

Lemma displacement_inputs candles timeframe events zones config :
  _validate_inputs candles timeframe events zones config = Ok tt ->
  evenly_spaced timeframe candles /\ Forall (event_on_candle timeframe candles) events
  /\ Forall (zone_on_candles timeframe candles) zones.
Proof.
  intros (_ & _ & ([] & H1 & ([] & H2 & H3)%bind_ok)%bind_ok)%bind_ok.
  apply validate_spacing_ok in H1. apply validate_structure_events_ok in H2. apply py_for_ok in H3.
  split_and!; [done..|]. eapply Forall_impl; [exact H3|].
  intros z ([] & Hc%raise_if_ok & Hs%raise_if_ok)%bind_ok. apply negb_false_iff, bool_decide_eq_true in Hc.
  split; [done|]. intros t Ht. destruct (decide (t ∈ map Candle.timestamp candles)) as [|Hn]; [done|].
  rewrite <-not_true_iff_false, existsb_exists in Hs. destruct Hs. exists t. split; [by apply list_elem_of_In|].
  by rewrite bool_decide_eq_false_2.
Qed.

(** ** The index of gaps *)

Section index.
Context (timeframe : Timeframe) (candles : list Candle).
Hypothesis Hspaced : evenly_spaced timeframe candles.

(** The positions of the candles a gap is made of. *)
Definition sources (zone : GapZone) : list nat :=
  omap (fun t => timestamp_to_index candles !! t) (GapZone.source_candle_timestamps zone).
Definition last_source (zone : GapZone) : option nat := py_max Nat.ltb (sources zone).

Lemma sources_found zone : zone_on_candles timeframe candles zone ->
  py_map (index_get (timestamp_to_index candles)) (GapZone.source_candle_timestamps zone) = Ok (sources zone).
Proof.
  intros [_ H]. unfold sources. revert H. induction (GapZone.source_candle_timestamps zone) as [|t ts IH]; intros H; [done|].
  destruct (proj1 (elem_of_map_lookup Candle.timestamp candles t) (H t ltac:(by left))) as (i & c & Hi & Ht).
  cbn [py_map omap list_omap]. rewrite (index_get_open timeframe candles i c t Hspaced Hi Ht).
  assert (timestamp_to_index candles !! t = Some i) as -> by (apply (index_by_open timeframe); eauto).
  rewrite IH; [done|]. intros u Hu. apply H. by right.
Qed.

Definition is_fvg (zone : GapZone) : bool := bool_decide (GapZone.type zone = GapZoneType.FVG).

(** The index holds every gap under its last source, in the order of the input. *)
Record indexed (zones : list GapZone) (idx : FvgIndex) : Prop := {
  ix_last : forall d k, default [] (FvgIndex.fvg_by_last_source idx d !! k) =
    List.filter (fun z => is_fvg z && bool_decide (GapZone.direction z = d) && bool_decide (last_source z = Some k)) zones;
  ix_free : FvgIndex.source_free_fvgs idx = List.filter (fun z => is_fvg z && bool_decide (last_source z = None)) zones
}.

Lemma index_fvg_ok zones idx zone : zone_on_candles timeframe candles zone -> indexed zones idx ->
  exists idx', index_fvg (timestamp_to_index candles) idx zone = Ok idx' /\ indexed (zones ++ [zone]) idx'.
Proof.
  intros Hz [H1 H2]. unfold index_fvg. destruct (bool_decide (GapZone.type zone = GapZoneType.FVG)) eqn:Et.
  - rewrite (sources_found zone Hz). cbn [mbind pyres_bind]. eexists. split; [reflexivity|]. fold (last_source zone).
    destruct (last_source zone) as [last|] eqn:El; constructor.
    + intros d k. rewrite List.filter_app, <-H1. cbn [List.filter FvgIndex.append FvgIndex.fvg_by_last_source].
      unfold is_fvg. rewrite Et, El. cbn [andb]. repeat case_bool_decide; subst; cbn [andb]; rewrite ?app_nil_r; try congruence.
      * match goal with H : Some ?a = Some ?b |- _ => injection H as -> end. by rewrite lookup_insert_eq.
      * by rewrite lookup_insert_ne by congruence.
    + cbn [FvgIndex.append FvgIndex.source_free_fvgs]. rewrite List.filter_app, <-H2. cbn [List.filter].
      by rewrite El, bool_decide_eq_false_2, andb_false_r, app_nil_r.
    + intros d k. rewrite List.filter_app, <-H1. cbn [List.filter FvgIndex.fvg_by_last_source].
      by rewrite El, (bool_decide_eq_false_2 (None = Some k)), andb_false_r, app_nil_r.
    + cbn [FvgIndex.source_free_fvgs]. rewrite List.filter_app, <-H2. cbn [List.filter]. unfold is_fvg.
      by rewrite Et, El, bool_decide_eq_true_2.
  - exists idx. split; [done|].
    constructor; [intros d k|]; rewrite List.filter_app, <-?H1, <-?H2; cbn [List.filter]; unfold is_fvg; rewrite Et; by rewrite app_nil_r.
Qed.

Lemma build_index zones : Forall (zone_on_candles timeframe candles) zones ->
  exists idx, py_fold (index_fvg (timestamp_to_index candles)) FvgIndex.empty zones = Ok idx /\ indexed zones idx.
Proof.
  induction zones as [|zone zones IH] using rev_ind; intros H.
  - exists FvgIndex.empty. split; [done|]. constructor; [intros d k; cbn; by rewrite lookup_empty|done].
  - apply Forall_app in H as [Hzs Hz%Forall_inv]. destruct (IH Hzs) as (idx & E & Hi).
    destruct (index_fvg_ok zones idx zone Hz Hi) as (idx' & E' & Hi'). exists idx'.
    rewrite py_fold_app, E. cbn [mbind pyres_bind py_fold]. by rewrite E'.
Qed.

(** A gap belongs to the leg. *)
Definition in_leg (direction : DisplacementDirection) (start_index end_index : nat) (end_close : datetime) (zone : GapZone) : bool :=
  is_fvg zone && bool_decide (GapZone.direction zone = gap_direction direction)
  && negb (end_close <? GapZone.confirmed_at zone)
  && forallb (fun index => (start_index <=? index + 2)%nat && (index <=? end_index)%nat) (sources zone).

(** The gaps of a leg among [zones], by a scan. *)
Definition gaps_of (zones : list GapZone) (direction : DisplacementDirection) (start_index end_index : nat)
    (end_close : datetime) : list string :=
  map GapZone.zone_id (sort_by zone_order (List.filter (in_leg direction start_index end_index end_close) zones)).

Lemma matching_scan zones direction s e close : Forall (zone_on_candles timeframe candles) zones ->
  _matching_fvgs zones (timestamp_to_index candles) direction s e close = Ok (gaps_of zones direction s e close).
Proof.
  intros Hz. unfold _matching_fvgs, gaps_of.
  assert (exists ls, py_map (match_zone (timestamp_to_index candles) direction s e close) zones = Ok ls
    /\ concat ls = List.filter (in_leg direction s e close) zones) as (ls & -> & E); [|cbn [mbind pyres_bind]; by rewrite E].
  induction Hz as [|zone zones Hz _ (ls & El & E)]; [by exists []|].
  assert (match_zone (timestamp_to_index candles) direction s e close zone
    = Ok (if in_leg direction s e close zone then [zone] else [])) as Em.
  { unfold match_zone, in_leg, is_fvg. destruct (bool_decide (GapZone.type zone = _)); [|done].
    destruct (bool_decide (GapZone.direction zone = _)); [|done]. cbn [negb orb andb].
    destruct (close <? GapZone.confirmed_at zone); [done|]. by rewrite (sources_found zone Hz). }
  eexists. cbn [py_map]. rewrite Em, El. split; [reflexivity|]. cbn [concat]. rewrite E. cbn [List.filter].
  by destruct (in_leg direction s e close zone).
Qed.

(** Gaps that rank equal have the same id. *)
Definition zone_key (zone : GapZone) : datetime * string := (GapZone.confirmed_at zone, GapZone.zone_id zone).
Definition key_order : datetime * string -> datetime * string -> bool := lex_lt (on_key fst Z.ltb) (on_key snd str_lt).

Lemma key_order_total a b : key_order a b = false -> key_order b a = false -> a = b.
Proof.
  destruct a as [t x], b as [u y]. unfold key_order, lex_lt, on_key. cbn. intros H1 H2.
  repeat match goal with H : context [Z.ltb ?a ?b] |- _ => destruct (Z.ltb_spec a b) end; cbn in *; try done; try lia.
  assert (t = u) as -> by lia. f_equal. by apply str_lt_total.
Qed.

Lemma gaps_of_Permutation l l' : Permutation l l' ->
  map GapZone.zone_id (sort_by zone_order l) = map GapZone.zone_id (sort_by zone_order l').
Proof.
  intros Hp. pose proof (sort_by_key_unique zone_key key_order l l' key_order_total Hp) as H.
  apply (f_equal (map snd)) in H. by rewrite !map_map in H.
Qed.

(** The gaps under the keys of the leg, and those without sources, contain all
    the gaps of the leg. *)
Lemma candidates_complete zones idx direction s e close : indexed zones idx ->
  Permutation (List.filter (in_leg direction s e close) (fvg_candidates idx direction s e))
    (List.filter (in_leg direction s e close) zones).
Proof.
  intros [H1 H2]. unfold fvg_candidates. rewrite List.filter_app, H2.
  set (p := in_leg direction s e close). set (ks := seq (s - 2) (e + 1 - (s - 2))).
  assert (forall k, List.filter p (default [] (FvgIndex.fvg_by_last_source idx (gap_direction direction) !! k))
    = List.filter (fun z => p z && bool_decide (last_source z = Some k)) zones) as Hk.
  { intros k. rewrite H1, filter_andb. apply filter_ext_in. intros z _. unfold p, in_leg.
    destruct (is_fvg z), (bool_decide (GapZone.direction z = _)), (bool_decide (last_source z = Some k)); cbn;
      by rewrite ?andb_true_r, ?andb_false_r. }
  rewrite list_filter_flat_map. erewrite (flat_map_ext_in _ (fun k => List.filter (fun z => p z && bool_decide (last_source z = Some k)) zones));
    [|intros k _; apply Hk].
  rewrite flat_map_by_key by apply NoDup_seq. rewrite filter_andb.
  assert (List.filter (fun z => (is_fvg z && bool_decide (last_source z = None)) && p z) zones
    = List.filter (fun z => p z && bool_decide (last_source z = None)) zones) as ->.
  { apply filter_ext_in. intros z _. unfold p, in_leg. destruct (is_fvg z), (bool_decide (last_source z = None)); cbn;
      by rewrite ?andb_true_r, ?andb_false_r. }
  rewrite filter_or_Permutation.
  - erewrite (filter_ext_in _ p); [done|]. intros z _. destruct (p z) eqn:Ep; [|done]. cbn.
    destruct (last_source z) as [k|] eqn:El; [|done]. cbn. apply bool_decide_eq_true. unfold ks. rewrite list_elem_of_In, in_seq.
    unfold p, in_leg in Ep. bool_hyps.
    unfold last_source, py_max in El. apply py_min_mem, list_elem_of_In in El.
    match goal with H : forallb _ _ = true |- _ => rewrite forallb_forall in H; specialize (H k El) end. bool_hyps.
    repeat match goal with H : (_ <=? _)%nat = true |- _ => apply Nat.leb_le in H end. lia.
  - intros z _. destruct (p z); [|done]. cbn. intros ->%bool_decide_eq_true. done.
Qed.
End index.

(** ** The strength of a leg *)

Section strength.
Context (candles : list Candle) (s e : nat) (direction : DisplacementDirection) (base : dec).

Abbreviation P := DISPLACEMENT_PREC.
Abbreviation bars := (leg_bars candles s e).
Abbreviation sums := (foldl (body_step direction) (D 0, D 0) bars).

Lemma dplus_fits a : fits P a -> dplus P a = a.
Proof. intros H. apply dround_exact; [apply displacement_prec_valid|exact H]. Qed.

Lemma zero_fits : fits P (D 0).
Proof. by vm_compute. Qed.

(** The sums of bodies stay representable and not negative. *)
Lemma sums_ok : (fits P (fst sums) /\ 0 <= Qval (fst sums) /\ fits P (snd sums) /\ 0 <= Qval (snd sums))%Q.
Proof.
  assert (forall l st, (fits P (fst st) /\ 0 <= Qval (fst st) /\ fits P (snd st) /\ 0 <= Qval (snd st))%Q ->
    (fits P (fst (foldl (body_step direction) st l)) /\ 0 <= Qval (fst (foldl (body_step direction) st l))
     /\ fits P (snd (foldl (body_step direction) st l)) /\ 0 <= Qval (snd (foldl (body_step direction) st l)))%Q) as H.
  { induction l as [|c l IH]; intros [a b] H; [done|]. cbn [foldl body_step]. apply IH. cbn [fst snd] in *.
    destruct H as (_ & Ha & _ & Hb).
    pose proof (dmax_ge (signed_body direction c) (D 0)) as [_ H1].
    pose proof (dmax_ge (dneg P (signed_body direction c)) (D 0)) as [_ H2]. rewrite Qval_D0 in H1, H2.
    split_and!; (apply dadd_fits || apply dadd_nonneg); done. }
  apply H. cbn [fst snd]. pose proof zero_fits. by rewrite Qval_D0.
Qed.

Lemma adverse_ok start_open worst :
  fits P (adverse_of direction start_open worst) /\ (0 <= Qval (adverse_of direction start_open worst))%Q.
Proof.
  unfold adverse_of. pose proof zero_fits.
  destruct direction; (split; [apply fits_dmax; [apply dsub_fits|done]|]);
    match goal with |- context [dmax ?a ?b] => pose proof (dmax_ge a b) as [_ Hm] end; by rewrite Qval_D0 in Hm.
Qed.

(** On existing bars the metrics never fail: no rounding is left to the unary
    plus, and they pass their schema. *)
Lemma metrics_ok first last : candles !! s = Some first -> candles !! e = Some last -> (s <= e)%nat ->
  fits P base -> (0 < Qval base)%Q ->
  exists worst, worst_price candles s e direction = Ok worst
    /\ let total := dadd P (fst sums) (snd sums) in
       let net := dmul P (multiplier direction) (dsub P (Candle.close last) (Candle.open first)) in
       let adverse := adverse_of direction (Candle.open first) worst in
       _metrics candles s e direction base = Ok (DisplacementStrengthMetrics.mkDisplacementStrengthMetrics base net (fst sums) (snd sums) total
         (if dltb (D 0) total then ddiv P (fst sums) total else D 0) (ddiv P net base) (ddiv P (fst sums) base) adverse
         (ddiv P adverse base)).
Proof.
  intros Hf Hl Hse Hb Hpos.
  assert (exists worst, worst_price candles s e direction = Ok worst) as [worst Hw].
  { assert (exists c l, bars = c :: l) as (c & l & El).
    { unfold leg_bars, slice. rewrite (drop_S _ first) by done. replace (e + 1 - s)%nat with (S (e - s)) by lia. cbn. eauto. }
    unfold worst_price. rewrite El. unfold py_max. destruct direction; cbn [map py_min]; eauto. }
  exists worst. split; [done|]. cbv zeta. unfold _metrics, at_index. rewrite Hf, Hl, Hw. cbn [mbind pyres_bind].
  destruct sums as [dir opp] eqn:Es. cbn [mbind pyres_bind]. pose proof sums_ok as (F1 & N1 & F2 & N2). rewrite Es in F1, N1, F2, N2.
  cbn [fst snd] in F1, N1, F2, N2. destruct (adverse_ok (Candle.open first) worst) as [F3 N3].
  cbn [fst snd].
  set (total := dadd P dir opp). set (net := dmul P _ _). set (adverse := adverse_of _ _ _) in *.
  set (eff := if dltb (D 0) total then _ else _).
  assert (fits P total) as F4 by apply dadd_fits. assert (fits P net) as F5 by (by apply dround_fits).
  assert (fits P eff) as F6 by (unfold eff; destruct (dltb _ _); [apply ddiv_fits|apply zero_fits]).
  rewrite !dplus_fits by (done || apply ddiv_fits).
  assert (0 <= Qval total)%Q as N4 by (by apply dadd_nonneg).
  assert (Qval dir <= Qval total)%Q as N5 by (by apply dadd_ge).
  assert (0 <= Qval eff /\ Qval eff <= 1)%Q as [N6 N7].
  { unfold eff. destruct (dltb (D 0) total) eqn:Et; [|rewrite Qval_D0; lra]. apply dltb_true in Et. rewrite Qval_D0 in Et.
    split; [by apply ddiv_nonneg|by apply ddiv_le_1]. }
  unfold validated. match goal with |- context [DisplacementStrengthMetrics.validate_body_sum ?x] =>
    assert (DisplacementStrengthMetrics.validate_body_sum x = true) as ->; [|done] end.
  unfold DisplacementStrengthMetrics.validate_body_sum. cbn -[dltb dleb deqb D ddiv dadd]. fold total.
  pose proof (ddiv_nonneg (p := P) dir base Hpos N1). pose proof (ddiv_nonneg (p := P) adverse base Hpos N3).
  assert (forall x, (0 <= Qval x)%Q -> dleb (D 0) x = true) as Hn by (intros x Hx; apply dleb_true; by rewrite Qval_D0).
  rewrite !Hn, deqb_refl by done. rewrite (proj2 (dltb_true (D 0) base)) by (by rewrite Qval_D0).
  by rewrite (proj2 (dleb_true eff (D 1))) by (by rewrite Qval_D).
Qed.
End strength.

(** ** One event *)

(** What the configuration asks of a leg. *)
Definition strong (config : DisplacementConfig) (m : DisplacementStrengthMetrics) (fvgs : list string) : Prop :=
  (0 < Qval (DisplacementStrengthMetrics.net_move m)
   /\ Qval (DisplacementConfig.displacement_net_atr_ratio config) <= Qval (DisplacementStrengthMetrics.net_atr_ratio m)
   /\ Qval (DisplacementConfig.displacement_body_atr_ratio config) <= Qval (DisplacementStrengthMetrics.body_atr_ratio m)
   /\ Qval (DisplacementConfig.displacement_min_body_efficiency config) <= Qval (DisplacementStrengthMetrics.body_efficiency m)
   /\ Qval (DisplacementStrengthMetrics.adverse_atr_ratio m) <= Qval (DisplacementConfig.displacement_max_adverse_atr_ratio config))%Q
  /\ (DisplacementConfig.displacement_require_fvg config = true -> fvgs <> []).

Lemma no_failure config m fvgs : _failure_reasons m fvgs config = [] <-> strong config m fvgs.
Proof.
  unfold _failure_reasons, strong.
  assert (forall (b : bool) (r : DisplacementRejectionCode) l, (if b then [r] else []) ++ l = [] <-> b = false /\ l = []) as Hc.
  { intros [] r l; cbn; naive_solver. }
  rewrite !Hc. rewrite <-(app_nil_r (if _ && _ then _ else _)), Hc, dleb_false, !dltb_false, Qval_D0.
  destruct (DisplacementConfig.displacement_require_fvg config); cbn [andb].
  - rewrite bool_decide_eq_false. tauto.
  - split; [|tauto]. intros H. split; [tauto|discriminate].
Qed.

Section event.
Context (candles : list Candle) (timeframe : Timeframe) (config : DisplacementConfig) (zones : list GapZone).
Context (event : StructureBreakEvent) (s : nat) (base : dec).

Abbreviation direction := (_direction event).

(** The leg that ends on bar [e]: the close of that bar, the metrics and the
    gaps of the leg. *)
Definition leg_at (e : nat) (close : datetime) (m : DisplacementStrengthMetrics) (fvgs : list string) : Prop :=
  exists first last, candles !! s = Some first /\ candles !! e = Some last
    /\ close = Candle.timestamp last + timeframe_duration timeframe
    /\ _metrics candles s e direction base = Ok m
    /\ fvgs = gaps_of candles zones direction s e close.

Lemma leg_at_inj e close m f close' m' f' : leg_at e close m f -> leg_at e close' m' f' -> close = close' /\ m = m' /\ f = f'.
Proof.
  intros (a & b & H1 & H2 & -> & H3 & ->) (a' & b' & G1 & G2 & -> & G3 & ->). simplify_eq/=.
  rewrite H3 in G3. by injection G3 as ->.
Qed.

(** The leg, as it is returned. *)
Definition leg_of (e : nat) (close : datetime) (m : DisplacementStrengthMetrics) (fvgs : list string) (leg : DisplacementLeg) : Prop :=
  exists first last, candles !! s = Some first /\ candles !! e = Some last
    /\ leg = DisplacementLeg.mkDisplacementLeg
        ("LEG:" +:+ structure_event_reference event +:+ ":" +:+ isoformat (Candle.timestamp last))
        DisplacementCandidateStatus.QUALIFIED direction s e (Candle.timestamp first) (Candle.timestamp last)
        (Candle.timestamp last) close m fvgs (structure_event_reference event).

(** No leg that ends on a bar from [a] up to [b] is strong enough. *)
Definition none_strong (a b : nat) : Prop :=
  forall k close m f, (a <= k < b)%nat -> leg_at k close m f -> ~ strong config m f.

Section search.
Context (idx : FvgIndex).
Hypothesis Hspaced : evenly_spaced timeframe candles.
Hypothesis Hzones : Forall (zone_on_candles timeframe candles) zones.
Hypothesis Hidx : indexed candles zones idx.
Hypothesis Hfits : fits DISPLACEMENT_PREC base.
Hypothesis Hbase : (0 < Qval base)%Q.

Lemma candidates_on_candles e : Forall (zone_on_candles timeframe candles) (fvg_candidates idx direction s e).
Proof.
  destruct Hidx as [H1 H2]. rewrite Forall_forall in Hzones. apply Forall_forall. intros z Hz.
  apply Hzones. unfold fvg_candidates in Hz. rewrite H2, elem_of_app in Hz.
  destruct Hz as [Hz|(k & _ & Hz)%elem_of_flat_map]; rewrite ?H1 in Hz;
    apply list_elem_of_In, filter_In in Hz as [Hz _]; by apply list_elem_of_In.
Qed.

(** An end is evaluated with the gaps a scan of all gaps finds. *)
Lemma evaluate_end_ok e : (s <= e)%nat -> (e < length candles)%nat ->
  exists close m f, leg_at e close m f
    /\ evaluate_end candles timeframe config idx event s base e = Ok (close, (m, f, _failure_reasons m f config)).
Proof.
  intros Hse He. destruct (lookup_lt_is_Some_2 candles e He) as [last Hl].
  destruct (lookup_lt_is_Some_2 candles s) as [first Hf]; [lia|].
  destruct (metrics_ok candles s e direction base first last Hf Hl Hse Hfits Hbase) as (worst & _ & Em).
  cbv zeta in Em. eexists _, _, _. split; [exists first, last; split_and!; [exact Hf|exact Hl|reflexivity|exact Em|reflexivity]|].
  unfold evaluate_end, at_index. rewrite Hl. cbn [mbind pyres_bind]. rewrite Em. cbn [mbind pyres_bind].
  rewrite (matching_scan timeframe candles Hspaced) by apply candidates_on_candles. cbn [mbind pyres_bind].
  unfold gaps_of. erewrite gaps_of_Permutation; [reflexivity|]. by apply candidates_complete.
Qed.

Lemma leg_valid e close m f leg : (s <= e)%nat -> leg_at e close m f -> leg_of e close m f leg ->
  DisplacementLeg.validate_leg leg = true.
Proof.
  intros Hse (a & b & H1 & H2 & -> & _) (a' & b' & G1 & G2 & ->). simplify_eq.
  unfold DisplacementLeg.validate_leg. cbn. pose proof (timeframe_duration_pos timeframe).
  rewrite (proj2 (Nat.ltb_ge _ _) Hse), Z.eqb_refl. cbn. apply negb_true_iff, Z.leb_gt. lia.
Qed.

(** The search stops at the first end whose leg is strong enough. *)
Lemma search_end_ok a n latest : (s <= a)%nat -> (a + n <= length candles)%nat ->
  exists r, search_end candles timeframe config idx event s base (seq a n) latest = Ok r
    /\ match r with
       | inl leg => exists e close m f, (a <= e < a + n)%nat /\ leg_at e close m f /\ strong config m f
           /\ none_strong a e /\ leg_of e close m f leg
       | inr l => none_strong a (a + n)
           /\ match n with
              | O => l = latest
              | S k => exists close m f, leg_at (a + k) close m f /\ l = Some (m, f, _failure_reasons m f config)
              end
       end.
Proof.
  revert a latest. induction n as [|n IH]; intros a latest Hsa Hn.
  { exists (inr latest). split; [done|]. split; [|done]. intros k ? ? ? Hk. lia. }
  cbn [seq search_end]. destruct (evaluate_end_ok a Hsa) as (close & m & f & Hleg & ->); [lia|]. cbn [mbind pyres_bind].
  destruct (_failure_reasons m f config) as [|reason reasons] eqn:Er.
  - apply no_failure in Er. pose proof Hleg as (first & last & Hf & Hl & _). unfold at_index. rewrite Hf, Hl.
    cbn [mbind pyres_bind]. unfold validated.
    match goal with |- context [DisplacementLeg.validate_leg ?x] => set (leg := x) end.
    assert (leg_of a close m f leg) as Hof by (by exists first, last).
    rewrite (leg_valid a close m f leg) by done. cbn [mbind pyres_bind]. exists (inl leg). split; [done|].
    exists a, close, m, f. split_and!; [lia|lia|done..|intros k ? ? ? Hk; lia|done].
  - destruct (IH (S a) (Some (m, f, reason :: reasons))) as (r & -> & Hr); [lia..|]. exists r. split; [done|].
    assert (~ strong config m f) as Hweak by (rewrite <-no_failure, Er; done).
    assert (forall b, none_strong (S a) b -> none_strong a b) as Hext.
    { intros b Hb k c' m' f' Hk Hk'. destruct (decide (k = a)) as [->|]; [|apply (Hb k c' m' f'); [lia|done]].
      by destruct (leg_at_inj a _ _ _ _ _ _ Hleg Hk') as (-> & -> & ->). }
    destruct r as [leg|l].
    + destruct Hr as (e & c' & m' & f' & He & H1 & H2 & H3 & H4). exists e, c', m', f'. split_and!; [lia|lia|done|done|by apply Hext|done].
    + destruct Hr as [H1 H2]. rewrite Nat.add_succ_l, <-Nat.add_succ_r in H1. split; [by apply Hext|].
      destruct n as [|n]; [|by rewrite Nat.add_succ_r; rewrite Nat.add_succ_l in H2].
      exists close, m, f. by rewrite Nat.add_0_r, Er.
Qed.
End search.
End event.

(** ** The analysis *)

Section analysis.
Context (candles : list Candle) (timeframe : Timeframe) (events : list StructureBreakEvent) (config : DisplacementConfig).
Context (zones : list GapZone).

Abbreviation baseline := (baseline_of config (_true_ranges candles)).

Definition rejected_as (event : StructureBreakEvent) (s : nat) (reason : DisplacementRejectionCode) : DisplacementEvaluation :=
  DisplacementEvaluation.mkDisplacementEvaluation ("DISPLACEMENT:" +:+ structure_event_reference event) (_direction event)
    DisplacementCandidateStatus.REJECTED s (StructureBreakEvent.timestamp event) None None None []
    (structure_event_reference event) [reason].

(** The leg of an event on bar [s]: the first of the permitted bars on which it
    is strong enough. *)
Definition earliest_leg (event : StructureBreakEvent) (s : nat) (leg : DisplacementLeg) : Prop :=
  exists e close m f, (s <= e < s + DisplacementConfig.displacement_max_bars config)%nat
    /\ leg_at candles timeframe zones event s (baseline s) e close m f /\ strong config m f
    /\ none_strong candles timeframe config zones event s (baseline s) s e /\ leg_of candles event s e close m f leg.

(** No permitted bar that exists gave a leg: the last one tells what is missing,
    and whether more candles may still give one. *)
Definition still_weak (event : StructureBreakEvent) (s : nat) (v : DisplacementEvaluation) : Prop :=
  exists e close m f, e = Nat.min (s + DisplacementConfig.displacement_max_bars config - 1) (length candles - 1)
    /\ leg_at candles timeframe zones event s (baseline s) e close m f
    /\ none_strong candles timeframe config zones event s (baseline s) s (e + 1)
    /\ v = DisplacementEvaluation.mkDisplacementEvaluation ("DISPLACEMENT:" +:+ structure_event_reference event) (_direction event)
         (if (s + DisplacementConfig.displacement_max_bars config <=? length candles)%nat
          then DisplacementCandidateStatus.EXPIRED else DisplacementCandidateStatus.CANDIDATE)
         s (StructureBreakEvent.timestamp event) (Some e) (Some close) (Some m) f (structure_event_reference event)
         (_failure_reasons m f config).

(** There is a baseline: a full period of bars before the event, with movement. *)
Definition has_baseline (s : nat) : Prop :=
  (DisplacementConfig.displacement_atr_period config <= s)%nat /\ (0 < Qval (baseline s))%Q.

Definition displacement_verdict (event : StructureBreakEvent) (v : DisplacementLeg + DisplacementEvaluation) : Prop :=
  exists s bar, candles !! s = Some bar /\ Candle.timestamp bar = StructureBreakEvent.timestamp event
    /\ match v with
       | inl leg => supported event = true /\ has_baseline s /\ earliest_leg event s leg
       | inr v =>
           supported event = false /\ v = rejected_as event s DisplacementRejectionCode.UNSUPPORTED_STRUCTURE_EVENT
           \/ supported event = true /\ ~ has_baseline s /\ v = rejected_as event s DisplacementRejectionCode.ATR_UNAVAILABLE
           \/ supported event = true /\ has_baseline s /\ still_weak event s v
       end.

Lemma rejected_as_ok event s reason : rejected_evaluation event s reason = Ok (rejected_as event s reason).
Proof. done. Qed.

Section verdicts.
Context (idx : FvgIndex).
Hypothesis Hconfig : DisplacementConfig.valid config = true.
Hypothesis Hspaced : evenly_spaced timeframe candles.
Hypothesis Hzones : Forall (zone_on_candles timeframe candles) zones.
Hypothesis Hidx : indexed candles zones idx.

Lemma period_max_pos : (1 <= DisplacementConfig.displacement_max_bars config)%nat.
Proof. unfold DisplacementConfig.valid in Hconfig. bool_hyps. by apply Nat.leb_le. Qed.

Lemma evaluate_event_ok event s bar : candles !! s = Some bar -> Candle.timestamp bar = StructureBreakEvent.timestamp event ->
  exists v, evaluate_event candles timeframe config idx (_true_ranges candles) event s = Ok v /\ displacement_verdict event v.
Proof.
  intros Hs Ht. unfold evaluate_event. cbv zeta. rewrite !rejected_as_ok. cbn [mbind pyres_bind].
  destruct (supported event) eqn:Esup; cbn [negb].
  2: { eexists. split; [reflexivity|]. exists s, bar. split_and!; [done..|]. by left. }
  destruct (Nat.ltb_spec s (DisplacementConfig.displacement_atr_period config)) as [Hlt|Hge].
  { eexists. split; [reflexivity|]. exists s, bar. split_and!; [done..|]. right. left. split_and!; [done| |done].
    intros [? _]. lia. }
  destruct (dleb _ _) eqn:Eb.
  { eexists. split; [reflexivity|]. exists s, bar. split_and!; [done..|]. right. left. split_and!; [done| |done].
    intros [_ Hb]. apply dleb_true in Eb. rewrite Qval_D0 in Eb. lra. }
  apply dleb_false in Eb. rewrite Qval_D0 in Eb. assert (has_baseline s) as Hb by done.
  pose proof period_max_pos as Hmax. pose proof (lookup_lt_Some _ _ _ Hs) as Hlen.
  set (last := available_end_index candles config s).
  assert (last = Nat.min (s + DisplacementConfig.displacement_max_bars config - 1) (length candles - 1)) as Elast by done.
  assert (exists n, (last + 1 - s = S n /\ s + n = last)%nat) as (n & En & En') by (exists (last - s)%nat; lia). rewrite En.
  destruct (search_end_ok candles timeframe config zones event s (baseline s) idx Hspaced Hzones Hidx (ddiv_fits _ _) Eb s (S n) None)
    as (r & -> & Hr); [lia..|]. cbn [mbind pyres_bind]. destruct r as [leg|l].
  - eexists. split; [reflexivity|]. exists s, bar. split_and!; [done..|].
    destruct Hr as (e & close & m & f & He & H1 & H2 & H3 & H4). exists e, close, m, f. split_and!; [lia|lia|done..].
  - destruct Hr as (Hnone & close & m & f & Hleg & ->). unfold latest_evaluation. rewrite En' in Hleg.
    pose proof Hleg as (first & lastbar & _ & Hl & Hclose & _). unfold at_index. fold last. rewrite Hl.
    cbn [mbind pyres_bind]. rewrite <-Hclose.
    assert ((last =? last_permitted_index config s)%nat = (s + DisplacementConfig.displacement_max_bars config <=? length candles)%nat) as ->.
    { unfold last_permitted_index. destruct (Nat.leb_spec (s + DisplacementConfig.displacement_max_bars config) (length candles));
        [apply Nat.eqb_eq|apply Nat.eqb_neq]; lia. }
    assert (none_strong candles timeframe config zones event s (baseline s) s (last + 1)) as Hnone' by (by replace (last + 1)%nat with (s + S n)%nat by lia).
    unfold validated, DisplacementEvaluation.validate_evaluation. cbn [DisplacementEvaluation.status].
    match goal with |- context [if ?b then _ else _] => assert (b = true) as -> by (by destruct (_ <=? _)%nat) end.
    cbn [mbind pyres_bind]. eexists. split; [reflexivity|]. exists s, bar. split_and!; [done..|]. right. right.
    split_and!; [done..|]. by exists last, close, m, f.
Qed.
End verdicts.

Definition legs_in (vs : list (DisplacementLeg + DisplacementEvaluation)) : list DisplacementLeg :=
  omap (fun v => match v with inl leg => Some leg | inr _ => None end) vs.
Definition evaluations_in (vs : list (DisplacementLeg + DisplacementEvaluation)) : list DisplacementEvaluation :=
  omap (fun v => match v with inl _ => None | inr e => Some e end) vs.

(** Every event gets its verdict. *)
Lemma analysis_verdicts : DisplacementConfig.valid config = true ->
  _validate_inputs candles timeframe events zones config = Ok tt ->
  exists vs, Forall2 displacement_verdict events vs
    /\ analyze_displacement candles timeframe events config zones =
       Ok (DisplacementAnalysisResult.mkDisplacementAnalysisResult timeframe config (length candles)
             (data_cutoff_at candles timeframe) (legs_in vs) (evaluations_in vs)).
Proof.
  intros Hconf Hv. destruct (displacement_inputs candles timeframe events zones config Hv) as (Hs & Hev & Hz).
  destruct (build_index timeframe candles Hs zones Hz) as (idx & Eidx & Hidx).
  assert (exists vs, Forall2 displacement_verdict events vs
    /\ py_fold (displacement_step candles timeframe config idx (_true_ranges candles)) ([], []) events
       = Ok (legs_in vs, evaluations_in vs)) as (vs & Hvs & Efold).
  2: { exists vs. split; [done|]. unfold analyze_displacement. rewrite Hv. cbn [mbind pyres_bind]. rewrite Eidx.
       cbn [mbind pyres_bind]. by rewrite Efold. }
  clear Hv. induction events as [|event evs IH] using rev_ind; [by exists []|].
  apply Forall_app in Hev as [Hevs Hevent%Forall_inv]. destruct (IH Hevs) as (vs & Hvs & E).
  destruct Hevent as [(s & bar & Hbar & Ht) _].
  destruct (evaluate_event_ok idx Hconf Hs Hz Hidx event s bar Hbar Ht) as (v & Ev & Hverdict).
  exists (vs ++ [v]). split; [by apply Forall2_app; [|constructor]|].
  rewrite py_fold_app, E. cbn [mbind pyres_bind py_fold]. unfold displacement_step.
  rewrite (index_get_open timeframe candles s bar _ Hs Hbar Ht). cbn [mbind pyres_bind]. rewrite Ev. cbn [mbind pyres_bind].
  unfold legs_in, evaluations_in. rewrite !omap_app. destruct v; cbn; by rewrite ?app_nil_r.
Qed.

(** C31. On checked input the analysis succeeds with one verdict per structure
    event, in order. An event gets a leg exactly when some permitted bar makes
    it strong enough, and then the leg ends on the first such bar; otherwise it
    is rejected for want of support or of a baseline, or it is reported with
    what its last permitted bar misses, expired exactly when all permitted bars
    exist. The gaps of a leg are those a scan of all gaps finds: the index by
    last source candle loses none and reorders none. *)
Theorem displacement_exact : DisplacementConfig.valid config = true ->
  _validate_inputs candles timeframe events zones config = Ok tt ->
  exists vs, Forall2 displacement_verdict events vs
    /\ analyze_displacement candles timeframe events config zones =
       Ok (DisplacementAnalysisResult.mkDisplacementAnalysisResult timeframe config (length candles)
             (data_cutoff_at candles timeframe) (legs_in vs) (evaluations_in vs)).
Proof. apply analysis_verdicts. Qed.
End analysis.
