(* ===== verification/DisplacementExact.v ===== *)
(** The numbers of a displacement leg, and its permanence: on a price grid the
    sums and moves of a leg are exact and its ratios are rounded once; a leg, an
    expiry and a rejection are not revised by later candles, events or gaps. *)
From Stdlib Require Import ZArith QArith Qabs Lia Lqa.
From stdpp Require Import base list strings numbers sets gmap.
From S2P Require Import Prelude Decimal Time Candle Grid Indicators Structure Engine Fvg Displacement DisplacementTheory.
Local Open Scope Z_scope.

(** ** Strength on a grid *)

Section exact.
Context (g : Z) (candles : list Candle).
Hypothesis Hgrid : Forall (on_grid g) candles.
Hypothesis Hfew : Z.of_nat (length candles) <= 10 ^ 9.

Abbreviation u := (units g).
Abbreviation P := DISPLACEMENT_PREC.

(** The move of a candle or of a leg in the direction of the leg, in units. *)
Definition sign (direction : DisplacementDirection) : Z :=
  match direction with DisplacementDirection.BULLISH => 1 | DisplacementDirection.BEARISH => -1 end.
Definition body_units (direction : DisplacementDirection) (c : Candle) : Z :=
  sign direction * (u (Candle.close c) - u (Candle.open c)).
(** How far the candle went against a leg that opened at [start_open]. *)
Definition against (direction : DisplacementDirection) (start_open : dec) (c : Candle) : Z :=
  match direction with
  | DisplacementDirection.BULLISH => u start_open - u (Candle.low c)
  | DisplacementDirection.BEARISH => u (Candle.high c) - u start_open
  end.
(** The true range of bar [i]. *)
Definition range_units (i : nat) : Z :=
  match candles !! i with
  | None => 0
  | Some c =>
      let span := u (Candle.high c) - u (Candle.low c) in
      match i with
      | O => span
      | S j => match candles !! j with
               | None => span
               | Some d => Z.max (Z.max span (Z.abs (u (Candle.high c) - u (Candle.close d))))
                             (Z.abs (u (Candle.low c) - u (Candle.close d)))
               end
      end
  end.

Lemma price_bounds a : grid_price g a -> on g a (u a) /\ 0 <= u a < 10 ^ 24.
Proof. intros H. split; [by apply grid_price_on|apply H]. Qed.

Lemma candle_grid i c : candles !! i = Some c -> on_grid g c.
Proof. intros H. rewrite Forall_lookup in Hgrid. eauto. Qed.

Lemma signed_body_on direction c : on_grid g c -> on g (signed_body direction c) (body_units direction c)
  /\ Z.abs (body_units direction c) < 10 ^ 24.
Proof.
  intros (Ho & _ & _ & Hc). destruct (price_bounds _ Ho), (price_bounds _ Hc).
  assert (Z.abs (body_units direction c) < 10 ^ 24) as Hb by (unfold body_units; destruct direction; cbn [sign]; lia).
  split; [|done]. unfold signed_body, body_units.
  replace (multiplier direction) with (D (sign direction)) by (by destruct direction).
  apply (on_scale g (p := P)); [apply (on_sub g (p := P)); [done..|]|]; unfold DISPLACEMENT_PREC; [lia|].
  fold (body_units direction c). lia.
Qed.

Lemma body_sums_on direction l : Forall (on_grid g) l -> Z.of_nat (length l) <= 10 ^ 9 ->
  on g (fst (foldl (body_step direction) (D 0, D 0) l)) (zsum (map (fun c => Z.max (body_units direction c) 0) l))
  /\ on g (snd (foldl (body_step direction) (D 0, D 0) l)) (zsum (map (fun c => Z.max (- body_units direction c) 0) l)).
Proof.
  induction l as [|c l IH] using rev_ind; intros Hl Hlen; [split; apply on_0|].
  apply Forall_app in Hl as [Hl Hc%Forall_inv]. rewrite length_app in Hlen. cbn [length] in Hlen.
  destruct IH as [H1 H2]; [done|lia|]. rewrite foldl_app, !map_app. cbn [foldl map]. rewrite !zsum_snoc.
  destruct (foldl (body_step direction) (D 0, D 0) l) as [a b]. cbn [body_step fst snd] in *.
  destruct (signed_body_on direction c Hc) as [Hon Hb].
  assert (forall f : Candle -> Z, (forall x, x ∈ l -> Z.abs (f x) < 10 ^ 24) -> 0 <= zsum (map (fun x => Z.max (f x) 0) l) <= 10 ^ 9 * 10 ^ 24) as Hsum.
  { intros f Hf. assert (Forall (fun x => 0 <= x <= 10 ^ 24) (map (fun x => Z.max (f x) 0) l)) as Hall.
    { apply Forall_forall. intros y (x & -> & Hx)%list_elem_of_fmap. specialize (Hf x Hx). lia. }
    pose proof (zsum_bound _ _ Hall). rewrite length_map in *. nia. }
  assert (forall x, x ∈ l -> Z.abs (body_units direction x) < 10 ^ 24) as Hbs.
  { intros x Hx. rewrite Forall_forall in Hl. by apply signed_body_on, Hl. }
  pose proof (Hsum _ Hbs). pose proof (Hsum (fun x => - body_units direction x) ltac:(intros x Hx; specialize (Hbs x Hx); lia)).
  assert (10 ^ P = 10 ^ 34) as HP by reflexivity.
  split; (apply (on_add g (p := P)); [done|apply on_max; [|apply on_0]|rewrite HP; lia]); [done|].
  apply (on_neg g (p := P)); [done|]. rewrite HP. lia.
Qed.

Lemma max_of_members l x : x ∈ l -> (forall y, y ∈ l -> y <= x) -> foldr Z.max 0 l = Z.max x 0.
Proof.
  induction l as [|y l IH]; intros Hx Hmax; [by apply not_elem_of_nil in Hx|]. cbn [foldr].
  destruct (decide (x ∈ l)) as [Hin|Hin].
  - rewrite IH; [|done|intros z Hz; apply Hmax; by right]. specialize (Hmax y ltac:(by left)). lia.
  - apply elem_of_cons in Hx as [->|]; [|done].
    assert (forall k, (forall z, z ∈ k -> z <= y) -> foldr Z.max 0 k <= Z.max y 0) as Hle.
    { induction k as [|z k IHk]; intros Hk; cbn [foldr]; [lia|].
      specialize (IHk ltac:(intros ? ?; apply Hk; by right)). specialize (Hk z ltac:(by left)). lia. }
    specialize (Hle l ltac:(intros z Hz; apply Hmax; by right)).
    assert (0 <= foldr Z.max 0 l) by (clear; induction l; cbn [foldr]; lia). lia.
Qed.

Lemma worst_on s e direction start_open worst : Forall (on_grid g) (leg_bars candles s e) -> grid_price g start_open ->
  worst_price candles s e direction = Ok worst ->
  on g (adverse_of direction start_open worst) (foldr Z.max 0 (map (against direction start_open) (leg_bars candles s e))).
Proof.
  intros Hb Hs Hw. destruct (price_bounds _ Hs) as [S1 S2]. rewrite Forall_forall in Hb. unfold worst_price in Hw.
  destruct direction; (destruct (_ : option dec) as [w|] eqn:Em in Hw; [|done]); injection Hw as ->.
  - apply (py_min_spec dltb) in Em as [Hin Hmin]. apply list_elem_of_fmap in Hin as (c & -> & Hc).
    destruct (Hb c Hc) as (_ & _ & Hlow & _). destruct (price_bounds _ Hlow) as [L1 L2].
    rewrite (max_of_members _ (against DisplacementDirection.BULLISH start_open c)).
    + apply on_max; [|apply on_0]. apply (on_sub g (p := P)); [done..|]. unfold DISPLACEMENT_PREC. lia.
    + by apply list_elem_of_fmap_2.
    + intros y (d & -> & Hd)%list_elem_of_fmap. cbn [against]. destruct (Hb d Hd) as (_ & _ & Hlow' & _).
      specialize (Hmin (Candle.low d) ltac:(by apply list_elem_of_fmap_2)). apply dltb_false in Hmin.
      apply (on_le g _ _ _ _ L1 (grid_price_on g _ Hlow')) in Hmin. lia.
  - apply (py_min_spec (rev_lt dltb)) in Em as [Hin Hmin]. unfold rev_lt in Hmin. apply list_elem_of_fmap in Hin as (c & -> & Hc).
    destruct (Hb c Hc) as (_ & Hhigh & _). destruct (price_bounds _ Hhigh) as [L1 L2].
    rewrite (max_of_members _ (against DisplacementDirection.BEARISH start_open c)).
    + apply on_max; [|apply on_0]. apply (on_sub g (p := P)); [done..|]. unfold DISPLACEMENT_PREC. lia.
    + by apply list_elem_of_fmap_2.
    + intros y (d & -> & Hd)%list_elem_of_fmap. cbn [against]. destruct (Hb d Hd) as (_ & Hhigh' & _).
      specialize (Hmin (Candle.high d) ltac:(by apply list_elem_of_fmap_2)). apply dltb_false in Hmin.
      apply (on_le g _ _ _ _ (grid_price_on g _ Hhigh') L1) in Hmin. lia.
Qed.

Hypothesis Hwf : Forall candle_wf candles.

(** The true ranges are exact, so the baseline is rounded once. *)
Lemma range_on i c : candles !! i = Some c -> on g (true_range_at candles i c) (range_units i)
  /\ 0 <= range_units i <= 2 * 10 ^ 24.
Proof.
  intros Hc. destruct (candle_grid i c Hc) as (_ & Hh & Hl & _). destruct (price_bounds _ Hh), (price_bounds _ Hl).
  assert (u (Candle.low c) <= u (Candle.high c)) as Hlh.
  { apply (on_le g (Candle.low c) (Candle.high c)); [by apply price_bounds..|]. apply candle_low_high.
    rewrite Forall_lookup in Hwf. eauto. }
  assert (10 ^ DEFAULT_PREC = 10 ^ 28) as HP by reflexivity.
  assert (on g (dsub DEFAULT_PREC (Candle.high c) (Candle.low c)) (u (Candle.high c) - u (Candle.low c))) as Hspan
    by (apply (on_sub g (p := DEFAULT_PREC)); [done..|rewrite HP; lia]).
  unfold true_range_at, range_units. rewrite Hc. cbv zeta. destruct i as [|j]; [split; [done|lia]|].
  destruct (candles !! j) as [d|] eqn:Hd; [|split; [done|lia]].
  destruct (candle_grid j d Hd) as (_ & _ & _ & Hk). destruct (price_bounds _ Hk).
  split; [|lia]. apply on_max; [apply on_max; [exact Hspan|]|];
    (apply (on_distance g (p := DEFAULT_PREC)); [assumption|assumption|rewrite HP; lia]).
Qed.

Lemma ranges_on a n : (a + n <= length candles)%nat ->
  Forall2 (on g) (slice (_true_ranges candles) a (a + n)) (map range_units (seq a n)).
Proof.
  intros Hn. apply Forall2_same_length_lookup_2.
  - unfold slice. rewrite length_take, length_drop, true_ranges_length, length_map, length_seq. lia.
  - intros k x y Hx Hy. unfold slice in Hx. apply lookup_take_Some in Hx as [Hx Hk]. rewrite lookup_drop in Hx.
    apply list_lookup_fmap_Some in Hy as (i & -> & [-> _]%lookup_seq).
    unfold _true_ranges in Hx. apply list_lookup_fmap_Some in Hx as ([i c] & -> & Hi).
    rewrite enumerate_lookup in Hi. apply fmap_Some in Hi as (c' & Hc & [= -> ->]). by apply range_on.
Qed.

Lemma leg_bars_grid s e : Forall (on_grid g) (leg_bars candles s e) /\ Z.of_nat (length (leg_bars candles s e)) <= 10 ^ 9.
Proof.
  unfold leg_bars, slice. split; [by apply Forall_take, Forall_drop|]. rewrite length_take, length_drop. lia.
Qed.

Lemma total_units direction l :
  zsum (map (fun c => Z.max (body_units direction c) 0) l) + zsum (map (fun c => Z.max (- body_units direction c) 0) l)
  = zsum (map (fun c => Z.abs (body_units direction c)) l).
Proof. induction l as [|c l IH]; [done|]. unfold zsum in *. cbn [map foldr]. lia. Qed.

Lemma total_small direction l : Forall (on_grid g) l -> Z.of_nat (length l) <= 10 ^ 9 ->
  Z.abs (zsum (map (fun c => Z.abs (body_units direction c)) l)) < 10 ^ 34.
Proof.
  intros Hl Hlen. assert (Forall (fun x => 0 <= x <= 10 ^ 24) (map (fun c => Z.abs (body_units direction c)) l)) as Hall.
  { apply Forall_forall. intros y (c & -> & Hc)%list_elem_of_fmap. rewrite Forall_forall in Hl.
    destruct (signed_body_on direction c (Hl c Hc)). lia. }
  pose proof (zsum_bound _ _ Hall). rewrite length_map in *. nia.
Qed.

Lemma baseline_rounds config s : let period := DisplacementConfig.displacement_atr_period config in
  (period <= s <= length candles)%nat -> (0 < period)%nat ->
  rounds_to P (inject_Z (zsum (map range_units (seq (s - period) period))) * p10 g / inject_Z (Z.of_nat period))
    (Qval (baseline_of config (_true_ranges candles) s)).
Proof.
  intros period Hs Hpos. unfold baseline_of. fold period. cbv zeta.
  pose proof (ranges_on (s - period) period ltac:(lia)) as Hr. replace (s - period + period)%nat with s in Hr by lia.
  assert (on g (dsum P (slice (_true_ranges candles) (s - period) s)) (zsum (map range_units (seq (s - period) period)))) as Hon.
  { apply (on_dsum g (p := P) _ _ (2 * 10 ^ 24)); [exact Hr| |].
    - apply Forall_forall. intros y (i & -> & Hi)%list_elem_of_fmap. rewrite list_elem_of_In, in_seq in Hi.
      destruct (lookup_lt_is_Some_2 candles i) as [c Hc]; [lia|]. by apply (range_on i c).
    - rewrite length_map, length_seq. replace (10 ^ P) with (10 ^ 34) by reflexivity. lia. }
  unfold on in Hon. rewrite <-Hon, <-(Qval_D (Z.of_nat period)). apply ddiv_rounds. rewrite Qval_D.
  intros H. assert (Z.of_nat period = 0) as H' by exact (proj1 (inject_Z_injective _ 0) H).
  clear - Hpos H'. lia.
Qed.

(** On a price grid the strength of a leg is exact: [_metrics] returns, whatever
    the bars of the leg. The baseline is the mean true range of the period before
    the event, rounded once; the net move, the sums of bodies with and against
    the leg and their total, and the adverse move are exact whole units; the
    three ratios to the baseline and the efficiency of the bodies are quotients
    rounded once. *)
Theorem displacement_strength_exact config direction s e : has_baseline candles config s -> (s <= e < length candles)%nat ->
  let bars := leg_bars candles s e in
  let period := DisplacementConfig.displacement_atr_period config in
  exists m first last, _metrics candles s e direction (baseline_of config (_true_ranges candles) s) = Ok m
  /\ candles !! s = Some first /\ candles !! e = Some last
  /\ let base := DisplacementStrengthMetrics.atr_baseline m in
     ((0 < period)%nat -> rounds_to P (inject_Z (zsum (map range_units (seq (s - period) period))) * p10 g / inject_Z (Z.of_nat period))
         (Qval base))
  /\ on g (DisplacementStrengthMetrics.net_move m) (sign direction * (u (Candle.close last) - u (Candle.open first)))
  /\ on g (DisplacementStrengthMetrics.directional_body_sum m) (zsum (map (fun c => Z.max (body_units direction c) 0) bars))
  /\ on g (DisplacementStrengthMetrics.opposing_body_sum m) (zsum (map (fun c => Z.max (- body_units direction c) 0) bars))
  /\ on g (DisplacementStrengthMetrics.total_body_sum m) (zsum (map (fun c => Z.abs (body_units direction c)) bars))
  /\ on g (DisplacementStrengthMetrics.adverse_price m) (foldr Z.max 0 (map (against direction (Candle.open first)) bars))
  /\ rounds_to P (Qval (DisplacementStrengthMetrics.net_move m) / Qval base) (Qval (DisplacementStrengthMetrics.net_atr_ratio m))
  /\ rounds_to P (Qval (DisplacementStrengthMetrics.directional_body_sum m) / Qval base)
       (Qval (DisplacementStrengthMetrics.body_atr_ratio m))
  /\ rounds_to P (Qval (DisplacementStrengthMetrics.adverse_price m) / Qval base)
       (Qval (DisplacementStrengthMetrics.adverse_atr_ratio m))
  /\ ((0 < Qval (DisplacementStrengthMetrics.total_body_sum m))%Q ->
        rounds_to P (Qval (DisplacementStrengthMetrics.directional_body_sum m) / Qval (DisplacementStrengthMetrics.total_body_sum m))
          (Qval (DisplacementStrengthMetrics.body_efficiency m))).
Proof.
  intros [Hperiod Hbase] [Hse He]. destruct (lookup_lt_is_Some_2 candles e He) as [last Hl].
  destruct (lookup_lt_is_Some_2 candles s) as [first Hf]; [lia|].
  destruct (candle_grid s first Hf) as (Ho & _). destruct (candle_grid e last Hl) as (_ & _ & _ & Hc).
  destruct (price_bounds _ Ho) as [O1 O2], (price_bounds _ Hc) as [C1 C2]. destruct (leg_bars_grid s e) as [Hb Hn].
  destruct (body_sums_on direction _ Hb Hn) as [D1 D2]. pose proof (total_units direction (leg_bars candles s e)) as Ht.
  destruct (metrics_ok candles s e direction (baseline_of config (_true_ranges candles) s) first last Hf Hl Hse
    ltac:(unfold baseline_of; apply ddiv_fits) Hbase) as (worst & Hw & Hm).
  pose proof (worst_on s e direction _ worst Hb Ho Hw) as Ha.
  assert (10 ^ P = 10 ^ 34) as HP by reflexivity.
  assert (~ Qval (baseline_of config (_true_ranges candles) s) == 0)%Q as Hnz by lra.
  cbv zeta in Hm |- *. eexists _, first, last. rewrite Hm. split; [reflexivity|].
  cbn [DisplacementStrengthMetrics.net_move DisplacementStrengthMetrics.directional_body_sum
    DisplacementStrengthMetrics.opposing_body_sum DisplacementStrengthMetrics.total_body_sum
    DisplacementStrengthMetrics.adverse_price DisplacementStrengthMetrics.net_atr_ratio
    DisplacementStrengthMetrics.body_atr_ratio DisplacementStrengthMetrics.adverse_atr_ratio
    DisplacementStrengthMetrics.body_efficiency DisplacementStrengthMetrics.atr_baseline].
  refine (conj Hf (conj Hl (conj _ (conj _ (conj D1 (conj D2 (conj _ (conj Ha (conj _ (conj _ (conj _ _))))))))))).
  - intros Hpos. apply baseline_rounds; [lia|exact Hpos].
  - replace (multiplier direction) with (D (sign direction)) by (by destruct direction).
    apply (on_scale g (p := P)); [apply (on_sub g (p := P)); [exact C1|exact O1|rewrite HP; lia]|].
    rewrite HP. destruct direction; cbn [sign]; lia.
  - rewrite <-Ht. apply (on_add g (p := P)); [exact D1|exact D2|]. rewrite Ht, HP. by apply total_small.
  - by apply ddiv_rounds.
  - by apply ddiv_rounds.
  - by apply ddiv_rounds.
  - intros Hpos. rewrite (proj2 (dltb_true _ _)) by (rewrite Qval_D0; exact Hpos). apply ddiv_rounds. lra.
Qed.
End exact.

(** ** Permanence *)

Section extension.
Context (timeframe : Timeframe) (config : DisplacementConfig).
Context (candles more : list Candle) (zones later : list GapZone).
Hypothesis Hspaced : evenly_spaced timeframe (candles ++ more).
Hypothesis Hzones : Forall (zone_on_candles timeframe candles) zones.
(** The later gaps are confirmed after the candles known so far. *)
Hypothesis Hlater : Forall (fun z => Forall (fun c =>
  Candle.timestamp c + timeframe_duration timeframe < GapZone.confirmed_at z) candles) later.

Lemma spaced_before : evenly_spaced timeframe candles.
Proof.
  intros i c d Hc Hd. apply (Hspaced i); by apply lookup_app_l_Some.
Qed.

Lemma leg_bars_before s e : (e < length candles)%nat -> leg_bars (candles ++ more) s e = leg_bars candles s e.
Proof.
  intros He. unfold leg_bars. rewrite <-(take_app_length candles more) at 2. by rewrite slice_take by lia.
Qed.

Lemma baseline_before s : (s <= length candles)%nat ->
  baseline_of config (_true_ranges (candles ++ more)) s = baseline_of config (_true_ranges candles) s.
Proof.
  intros Hs. unfold baseline_of. cbv zeta.
  assert (_true_ranges candles = take (length candles) (_true_ranges (candles ++ more))) as ->.
  { by rewrite <-true_ranges_take, take_app_length. }
  by rewrite slice_take by lia.
Qed.

Lemma sources_before zone : zone ∈ zones -> sources (candles ++ more) zone = sources candles zone.
Proof.
  intros Hz. rewrite Forall_forall in Hzones. destruct (Hzones zone Hz) as [_ Hs]. unfold sources.
  apply omap_ext_in. intros t Ht.
  destruct (proj1 (elem_of_map_lookup Candle.timestamp candles t) (Hs t Ht)) as (i & c & Hi & Hc).
  transitivity (Some i); [|symmetry]; unfold timestamp_to_index.
  - apply (index_by_open timeframe); [done|]. exists c. split; [by apply lookup_app_l_Some|done].
  - apply (index_by_open timeframe); [exact spaced_before|]. eauto.
Qed.

Lemma gaps_before direction s e close : (exists c, c ∈ candles /\ close = Candle.timestamp c + timeframe_duration timeframe) ->
  gaps_of (candles ++ more) (zones ++ later) direction s e close = gaps_of candles zones direction s e close.
Proof.
  intros (c & Hc & ->). unfold gaps_of. do 2 f_equal. rewrite List.filter_app, (list_filter_none _ later), app_nil_r.
  - apply filter_ext_in. intros z Hz%list_elem_of_In. unfold in_leg. by rewrite sources_before.
  - intros z Hz. rewrite Forall_forall in Hlater. specialize (Hlater z Hz). rewrite Forall_forall in Hlater.
    specialize (Hlater c Hc). unfold in_leg. by rewrite (proj2 (Z.ltb_lt _ _) Hlater), andb_false_r.
Qed.

Lemma leg_at_before event s base e close m f : (s <= e)%nat -> (e < length candles)%nat ->
  leg_at (candles ++ more) timeframe (zones ++ later) event s base e close m f
  <-> leg_at candles timeframe zones event s base e close m f.
Proof.
  intros Hse He. unfold leg_at, _metrics, at_index, worst_price. rewrite !lookup_app_l, (leg_bars_before s e He) by lia.
  split; intros (first & last & H1 & H2 & H3 & H4 & H5); exists first, last; split_and!; try done;
    rewrite H5, ?gaps_before; try done; exists last; (split; [by eapply list_elem_of_lookup_2|done]).
Qed.

(** What later candles, events and gaps do not revise. *)
Definition settled (v : DisplacementLeg + DisplacementEvaluation) : Prop :=
  match v with
  | inl _ => True
  | inr e => DisplacementEvaluation.status e <> DisplacementCandidateStatus.CANDIDATE
  end.

Lemma earliest_unique event s e close m f e' close' m' f' :
  let base := baseline_of config (_true_ranges candles) s in
  (s <= e < length candles)%nat -> (s <= e')%nat ->
  leg_at candles timeframe zones event s base e close m f -> strong config m f ->
  none_strong candles timeframe config zones event s base s e ->
  leg_at (candles ++ more) timeframe (zones ++ later) event s base e' close' m' f' -> strong config m' f' ->
  none_strong (candles ++ more) timeframe config (zones ++ later) event s base s e' ->
  e' = e /\ close' = close /\ m' = m /\ f' = f.
Proof.
  intros base He He' H1 H2 H3 G1 G2 G3. destruct (lt_eq_lt_dec e e') as [[Hlt | <-]|Hlt].
  - exfalso. apply (G3 e close m f); [lia| |done]. by apply leg_at_before; [lia..|].
  - split; [done|]. apply leg_at_before in G1; [|lia..]. by apply (leg_at_inj _ _ _ _ _ _ _ _ _ _ _ _ _ G1 H1).
  - exfalso. apply leg_at_before in G1; [|lia..]. apply (H3 e' close' m' f'); [lia|done..].
Qed.

Lemma same_start event s s' bar bar' :
  candles !! s = Some bar -> Candle.timestamp bar = StructureBreakEvent.timestamp event ->
  (candles ++ more) !! s' = Some bar' -> Candle.timestamp bar' = StructureBreakEvent.timestamp event -> s' = s.
Proof.
  intros H1 H2 H3 H4. symmetry. apply (evenly_spaced_inj timeframe (candles ++ more) s s' bar bar'); try done; [|congruence].
  by apply lookup_app_l_Some.
Qed.

Lemma has_baseline_before s : (s < length candles)%nat -> has_baseline (candles ++ more) config s <-> has_baseline candles config s.
Proof. intros Hs. unfold has_baseline. by rewrite baseline_before by lia. Qed.

Lemma leg_of_before event s e close m f leg : (s <= e < length candles)%nat ->
  leg_of (candles ++ more) event s e close m f leg <-> leg_of candles event s e close m f leg.
Proof. intros He. unfold leg_of. by rewrite !lookup_app_l by lia. Qed.

Lemma leg_of_unique cs event s e close m f leg leg' : leg_of cs event s e close m f leg -> leg_of cs event s e close m f leg' -> leg = leg'.
Proof. intros (a & b & H1 & H2 & ->) (a' & b' & G1 & G2 & ->). by simplify_eq. Qed.

Lemma verdict_settled event v v' : (1 <= DisplacementConfig.displacement_max_bars config)%nat ->
  displacement_verdict candles timeframe config zones event v ->
  displacement_verdict (candles ++ more) timeframe config (zones ++ later) event v' -> settled v -> v' = v.
Proof.
  intros Hmax (s & bar & Hs & Ht & Hv) (s' & bar' & Hs' & Ht' & Hv') Hset.
  pose proof (same_start event s s' bar bar' Hs Ht Hs' Ht') as ->. pose proof (lookup_lt_Some _ _ _ Hs) as Hlen.
  pose proof (has_baseline_before s Hlen) as Hb. pose proof (baseline_before s ltac:(lia)) as Hbase.
  destruct v as [leg|ev].
  - destruct Hv as (Hsup & Hhas & e & close & m & f & He & H1 & H2 & H3 & H4).
    pose proof H1 as (_ & lastb & _ & Hl%lookup_lt_Some & _).
    destruct v' as [leg'|ev'].
    + destruct Hv' as (_ & _ & e' & close' & m' & f' & He' & G1 & G2 & G3 & G4). rewrite Hbase in *.
      destruct (earliest_unique event s e close m f e' close' m' f') as (-> & -> & -> & ->); [lia|lia|done..|].
      f_equal. apply (leg_of_before event s e) in G4; [|lia]. by eapply leg_of_unique.
    + destruct Hv' as [[? _]|[(_ & Hn & _)|(_ & _ & e' & close' & m' & f' & He' & G1 & G2 & _)]]; [congruence|tauto|].
      exfalso. rewrite Hbase in *. rewrite length_app in He'. apply (G2 e close m f); [lia| |done]. apply leg_at_before; [lia..|done].
  - destruct Hv as [[Hsup ->]|[(Hsup & Hn & ->)|(Hsup & Hhas & e & close & m & f & He & H1 & H2 & ->)]].
    + destruct v' as [leg'|ev'].
      * destruct Hv' as (? & _). congruence.
      * destruct Hv' as [[_ ->]|[(? & _)|(? & _)]]; [done|congruence|congruence].
    + destruct v' as [leg'|ev'].
      * destruct Hv' as (_ & ? & _). tauto.
      * destruct Hv' as [[? _]|[(_ & _ & ->)|(_ & ? & _)]]; [congruence|done|tauto].
    + cbn in Hset. destruct (Nat.leb_spec (s + DisplacementConfig.displacement_max_bars config) (length candles)) as [Hfull|]; [|done].
      rewrite Nat.min_l in He by lia.
      destruct v' as [leg'|ev'].
      * destruct Hv' as (_ & _ & e' & close' & m' & f' & He' & G1 & G2 & _). exfalso. rewrite Hbase in *.
        apply leg_at_before in G1; [|lia..]. by apply (H2 e' close' m' f'); [lia|..].
      * destruct Hv' as [[? _]|[(_ & ? & _)|(_ & _ & e' & close' & m' & f' & He' & G1 & _ & ->)]]; [congruence|tauto|].
        rewrite length_app in He' |- *. rewrite Nat.min_l in He' by lia.
        assert (e' = e) as -> by lia. rewrite Hbase in G1.
        apply leg_at_before in G1; [|lia..]. destruct (leg_at_inj _ _ _ _ _ _ _ _ _ _ _ _ _ G1 H1) as (-> & -> & ->).
        by rewrite (proj2 (Nat.leb_le _ _)) by lia.
Qed.
End extension.

(** C32. What the engine reports is not revised: with more candles, later
    events and gaps confirmed later, every leg is still there, unchanged, and so
    is every rejected or expired evaluation; only an event still reported as a
    candidate may change. *)
Theorem displacement_verdicts_final timeframe config candles more events later_events zones later :
  DisplacementConfig.valid config = true ->
  _validate_inputs candles timeframe events zones config = Ok tt ->
  _validate_inputs (candles ++ more) timeframe (events ++ later_events) (zones ++ later) config = Ok tt ->
  Forall (fun z => Forall (fun c => Candle.timestamp c + timeframe_duration timeframe < GapZone.confirmed_at z) candles) later ->
  exists r r', analyze_displacement candles timeframe events config zones = Ok r
    /\ analyze_displacement (candles ++ more) timeframe (events ++ later_events) config (zones ++ later) = Ok r'
    /\ (forall leg, leg ∈ DisplacementAnalysisResult.legs r -> leg ∈ DisplacementAnalysisResult.legs r')
    /\ (forall e, e ∈ DisplacementAnalysisResult.evaluations r ->
          DisplacementEvaluation.status e <> DisplacementCandidateStatus.CANDIDATE ->
          e ∈ DisplacementAnalysisResult.evaluations r').
Proof.
  intros Hconf Hv Hv' Hlater.
  destruct (displacement_inputs candles timeframe events zones config Hv) as (_ & _ & Hz).
  destruct (displacement_inputs _ timeframe _ _ config Hv') as (Hs & _ & _).
  destruct (analysis_verdicts candles timeframe events config zones Hconf Hv) as (vs & Hvs & E).
  destruct (analysis_verdicts _ timeframe _ config _ Hconf Hv') as (vs' & Hvs' & E').
  eexists _, _. split; [exact E|]. split; [exact E'|].
  cbn [DisplacementAnalysisResult.legs DisplacementAnalysisResult.evaluations].
  apply Forall2_app_inv_l in Hvs' as (vs1 & vs2 & Hvs1 & _ & ->).
  assert (forall v, v ∈ vs -> settled v -> v ∈ vs1) as Hkept.
  { intros v [i Hi]%list_elem_of_lookup Hset. destruct (Forall2_lookup_r _ _ _ _ _ Hvs Hi) as (event & Hev & Hverdict).
    destruct (Forall2_lookup_l _ _ _ _ _ Hvs1 Hev) as (v' & Hi' & Hverdict').
    rewrite <-(verdict_settled timeframe config candles more zones later Hs Hz Hlater event v v'
      (period_max_pos config Hconf) Hverdict Hverdict' Hset). by eapply list_elem_of_lookup_2. }
  unfold legs_in, evaluations_in. rewrite !omap_app. split.
  - intros leg (v & Hin & Hv0)%list_elem_of_omap. destruct v as [l|]; [|done]. injection Hv0 as ->.
    apply elem_of_app. left. apply list_elem_of_omap. exists (inl leg). split; [by apply Hkept|done].
  - intros e (v & Hin & Hv0)%list_elem_of_omap Hst. destruct v as [|e0]; [done|]. injection Hv0 as ->.
    apply elem_of_app. left. apply list_elem_of_omap. exists (inr e). split; [by apply Hkept|done].
Qed.

(** ** A sample: two breaks and the gap their legs share *)

Definition dp_bar (n o h l c : Z) : Candle := Candle.mkCandle (n * 900000000) (D o) (D h) (D l) (D c) (D 10).

Definition dp_bars : list Candle :=
  [dp_bar 0 100 104 98 103; dp_bar 1 103 105 99 101; dp_bar 2 101 109 100 108; dp_bar 3 108 118 107 117].

Definition dp_more : list Candle := [dp_bar 4 117 119 110 112].

Definition dp_event (n : Z) (broken : string) : StructureBreakEvent :=
  StructureBreakEvent.mkStructureBreakEvent StructureEventType.BOS StructureDirection.BULLISH (D 105) (n * 900000000)
    broken StructureBreakBasis.CLOSE ((n + 1) * 900000000) None TrendState.BULLISH.

Definition dp_gap : GapZone :=
  GapZone.mkGapZone "FVG:1" GapZoneType.FVG GapDirection.BULLISH (D 105) (D 107) (4 * 900000000) (4 * 900000000)
    GapZoneStatus.OPEN GapLifecycleState.ACTIVE [900000000; 2 * 900000000; 3 * 900000000] None (D 0) 0 (4 * 900000000) [].

Definition dp_config : DisplacementConfig :=
  DisplacementConfig.mkDisplacementConfig (D 1) 2 2 (D 1) (D 1) (Dec 5 (-1)) (D 1) true.

Definition dp_report (candles : list Candle) (events : list StructureBreakEvent)
    : option (list (nat * nat * dec * list string) * list (DisplacementCandidateStatus * list DisplacementRejectionCode)) :=
  match analyze_displacement candles Timeframe.FIFTEEN_MINUTES events dp_config [dp_gap] with
  | Ok r => Some
      (map (fun l => (DisplacementLeg.start_bar_index l, DisplacementLeg.end_bar_index l,
                      DisplacementStrengthMetrics.net_atr_ratio (DisplacementLeg.strength_metrics l),
                      DisplacementLeg.associated_fvg l)) (DisplacementAnalysisResult.legs r),
       map (fun e => (DisplacementEvaluation.status e, DisplacementEvaluation.reason_codes e))
         (DisplacementAnalysisResult.evaluations r))
  | Raise _ => None
  end.

(** The first end of the first event lacks its gap, the second one qualifies;
    the gap may start two bars before the leg. *)
Example dp_sample_runs :
  dp_report dp_bars [dp_event 2 "S1"; dp_event 3 "S2"] =
    Some ([(2%nat, 3%nat, Dec 2666666666666666666666666666666667 (-33), ["FVG:1"]);
           (3%nat, 3%nat, Dec 12 (-1), ["FVG:1"])], []).
Proof. vm_compute. reflexivity. Qed.

Lemma dp_valid : DisplacementConfig.valid dp_config = true.
Proof. by vm_compute. Qed.

Lemma displacement_exact_witness : exists vs,
  Forall2 (displacement_verdict dp_bars Timeframe.FIFTEEN_MINUTES dp_config [dp_gap]) [dp_event 2 "S1"] vs.
Proof.
  assert (_validate_inputs dp_bars Timeframe.FIFTEEN_MINUTES [dp_event 2 "S1"] [dp_gap] dp_config = Ok tt) as Hv by (by vm_compute).
  destruct (displacement_exact dp_bars Timeframe.FIFTEEN_MINUTES [dp_event 2 "S1"] dp_config [dp_gap] dp_valid Hv) as (vs & H & _).
  exists vs. exact H.
Defined.

Lemma dp_bars_grid : Forall (on_grid 0) dp_bars /\ Z.of_nat (length dp_bars) <= 10 ^ 9 /\ Forall candle_wf dp_bars
  /\ has_baseline dp_bars dp_config 2.
Proof.
  refine (conj _ (conj _ (conj _ _))).
  - apply Forall_forall. intros c Hc. unfold dp_bars in Hc. repeat (apply elem_of_cons in Hc as [->|Hc]);
      [repeat split; by vm_compute..|by apply not_elem_of_nil in Hc].
  - by vm_compute.
  - apply Forall_forall. intros c Hc%list_elem_of_In. apply valid_candle_wf. revert c Hc. apply List.forallb_forall. by vm_compute.
  - split; [cbn; lia|]. rewrite <-(Qval_D0). apply dltb_true. by vm_compute.
Qed.

Lemma displacement_strength_exact_witness : exists m, _metrics dp_bars 2 3 DisplacementDirection.BULLISH
    (baseline_of dp_config (_true_ranges dp_bars) 2) = Ok m /\ on 0 (DisplacementStrengthMetrics.net_move m) 16.
Proof.
  destruct dp_bars_grid as (H1 & H2 & H3 & H4).
  destruct (displacement_strength_exact 0 dp_bars H1 H2 H3 dp_config DisplacementDirection.BULLISH 2 3 H4 ltac:(cbn; lia))
    as (m & first & last & Hm & Hf & Hl & _ & Hnet & _).
  injection Hf as <-. injection Hl as <-. exists m. split; [exact Hm|exact Hnet].
Defined.

Lemma displacement_verdicts_final_witness :
  exists r', analyze_displacement (dp_bars ++ dp_more) Timeframe.FIFTEEN_MINUTES ([dp_event 2 "S1"] ++ [dp_event 4 "S3"]) dp_config
    ([dp_gap] ++ []) = Ok r'.
Proof.
  destruct (displacement_verdicts_final Timeframe.FIFTEEN_MINUTES dp_config dp_bars dp_more [dp_event 2 "S1"] [dp_event 4 "S3"]
    [dp_gap] [] dp_valid eq_refl eq_refl (List.Forall_nil _)) as (r & r' & _ & E & _).
  exists r'. exact E.
Defined.
