(* ===== verification/OrderBlocks.v ===== *)
(** The order block engine: [engines/smc/order_blocks.py] and
    [schemas/order_block.py].

    The candidate of a structure break, its context, the life of the block and
    of the breaker it may leave behind, and the scheduled replay. Blocks and
    breakers are mutable objects held by an archive and by work lists; here the
    archives are the store and the work lists hold positions in them. *)
From Stdlib Require Import ZArith Lia.
From stdpp Require Import base list strings numbers sets gmap.
From S2P Require Import Prelude Decimal Time Candle Indicators Structure Engine LiquidityTypes.
Local Open Scope Z_scope.

(** ** Schemas *)

Module OrderBlockDirection.
Inductive OrderBlockDirection := BULLISH | BEARISH.
#[global] Instance OrderBlockDirection_eqdec : EqDecision OrderBlockDirection := ltac:(solve_decision).
Definition value (d : OrderBlockDirection) : string := match d with BULLISH => "bullish" | BEARISH => "bearish" end.
End OrderBlockDirection.
Abbreviation OrderBlockDirection := OrderBlockDirection.OrderBlockDirection.

Module OrderBlockZoneBasis.
Inductive OrderBlockZoneBasis := BODY | WICK.
#[global] Instance OrderBlockZoneBasis_eqdec : EqDecision OrderBlockZoneBasis := ltac:(solve_decision).
End OrderBlockZoneBasis.
Abbreviation OrderBlockZoneBasis := OrderBlockZoneBasis.OrderBlockZoneBasis.

Module OrderBlockProbeBasis.
Inductive OrderBlockProbeBasis := CLOSE | WICK.
#[global] Instance OrderBlockProbeBasis_eqdec : EqDecision OrderBlockProbeBasis := ltac:(solve_decision).
End OrderBlockProbeBasis.
Abbreviation OrderBlockProbeBasis := OrderBlockProbeBasis.OrderBlockProbeBasis.

Module OrderBlockRankPolicy.
Inductive OrderBlockRankPolicy := EXTREME_THEN_BODY | BODY_THEN_EXTREME.
#[global] Instance OrderBlockRankPolicy_eqdec : EqDecision OrderBlockRankPolicy := ltac:(solve_decision).
End OrderBlockRankPolicy.
Abbreviation OrderBlockRankPolicy := OrderBlockRankPolicy.OrderBlockRankPolicy.

Module OrderBlockStatus.
Inductive OrderBlockStatus := CANDIDATE | VALIDATED | MITIGATED | INVALIDATED | EXPIRED.
#[global] Instance OrderBlockStatus_eqdec : EqDecision OrderBlockStatus := ltac:(solve_decision).
End OrderBlockStatus.
Abbreviation OrderBlockStatus := OrderBlockStatus.OrderBlockStatus.

Module BreakerBlockStatus.
Inductive BreakerBlockStatus := CANDIDATE | ACTIVE | INVALIDATED | EXPIRED.
#[global] Instance BreakerBlockStatus_eqdec : EqDecision BreakerBlockStatus := ltac:(solve_decision).
End BreakerBlockStatus.
Abbreviation BreakerBlockStatus := BreakerBlockStatus.BreakerBlockStatus.

Module OrderBlockEventType.
Inductive OrderBlockEventType :=
| OB_CREATED | OB_VALIDATED | OB_MITIGATED | OB_INVALIDATED | OB_EXPIRED
| BREAKER_CREATED | BREAKER_ACTIVATED | BREAKER_INVALIDATED | BREAKER_EXPIRED.
#[global] Instance OrderBlockEventType_eqdec : EqDecision OrderBlockEventType := ltac:(solve_decision).
Definition value (t : OrderBlockEventType) : string :=
  match t with
  | OB_CREATED => "OB_CREATED" | OB_VALIDATED => "OB_VALIDATED" | OB_MITIGATED => "OB_MITIGATED"
  | OB_INVALIDATED => "OB_INVALIDATED" | OB_EXPIRED => "OB_EXPIRED"
  | BREAKER_CREATED => "BREAKER_CREATED" | BREAKER_ACTIVATED => "BREAKER_ACTIVATED"
  | BREAKER_INVALIDATED => "BREAKER_INVALIDATED" | BREAKER_EXPIRED => "BREAKER_EXPIRED"
  end.
End OrderBlockEventType.
Abbreviation OrderBlockEventType := OrderBlockEventType.OrderBlockEventType.

Module OrderBlockRejectionCode.
Inductive OrderBlockRejectionCode := DISPLACEMENT_REQUIRED | OB_NO_CANDIDATE.
#[global] Instance OrderBlockRejectionCode_eqdec : EqDecision OrderBlockRejectionCode := ltac:(solve_decision).
End OrderBlockRejectionCode.
Abbreviation OrderBlockRejectionCode := OrderBlockRejectionCode.OrderBlockRejectionCode.

Module OrderBlockConfig.
Record OrderBlockConfig := mkOrderBlockConfig {
  tick_size : dec;
  ob_search_lookback_bars : nat;
  ob_require_displacement : bool;
  ob_require_context : bool;
  ob_context_proximity_ticks : Z;
  ob_context_proximity_atr_ratio : dec;
  ob_candidate_rank_policy : OrderBlockRankPolicy;
  ob_zone_basis : OrderBlockZoneBasis;
  ob_validation_buffer_ticks : Z;
  ob_validation_max_bars : Z;
  ob_require_midpoint_hold : bool;
  ob_midpoint_probe_basis : OrderBlockProbeBasis;
  ob_invalidation_basis : OrderBlockProbeBasis;
  ob_invalidation_buffer_ticks : Z;
  ob_max_age_bars : Z;
  breaker_enabled : bool;
  breaker_retest_max_bars : Z
}.
Definition valid (c : OrderBlockConfig) : bool :=
  dltb (D 0) (tick_size c) && (1 <=? ob_search_lookback_bars c)%nat && (0 <=? ob_context_proximity_ticks c)
  && dleb (D 0) (ob_context_proximity_atr_ratio c) && (0 <=? ob_validation_buffer_ticks c)
  && (1 <=? ob_validation_max_bars c) && (0 <=? ob_invalidation_buffer_ticks c)
  && (1 <=? ob_max_age_bars c) && (1 <=? breaker_retest_max_bars c).
End OrderBlockConfig.
Abbreviation OrderBlockConfig := OrderBlockConfig.OrderBlockConfig.

Module OrderBlockDisplacementLink.
Record OrderBlockDisplacementLink := mkOrderBlockDisplacementLink {
  displacement_id : string;
  structure_event : string;
  confirmed_at : datetime
}.
End OrderBlockDisplacementLink.
Abbreviation OrderBlockDisplacementLink := OrderBlockDisplacementLink.OrderBlockDisplacementLink.

(** [OrderBlockStatus | BreakerBlockStatus] *)
Inductive ZoneStatus :=
| BlockStatus (s : OrderBlockStatus)
| BreakerStatus (s : BreakerBlockStatus).
#[global] Instance ZoneStatus_eqdec : EqDecision ZoneStatus := ltac:(solve_decision).

Module OrderBlockLifecycleEvent.
Record OrderBlockLifecycleEvent := mkOrderBlockLifecycleEvent {
  event_id : string;
  type : OrderBlockEventType;
  zone_id : string;
  bar_timestamp : datetime;
  confirmed_at : datetime;
  from_status : option ZoneStatus;
  to_status : ZoneStatus;
  mean_threshold_held : option bool
}.
End OrderBlockLifecycleEvent.
Abbreviation OrderBlockLifecycleEvent := OrderBlockLifecycleEvent.OrderBlockLifecycleEvent.

Module OrderBlockZone.
Record OrderBlockZone := mkOrderBlockZone {
  zone_id : string;
  direction : OrderBlockDirection;
  origin_candle_index : nat;
  origin_candle_timestamp : datetime;
  body_low : dec;
  body_high : dec;
  wick_low : dec;
  wick_high : dec;
  zone_low : dec;
  zone_high : dec;
  mean_threshold : dec;
  zone_basis : OrderBlockZoneBasis;
  created_at : datetime;
  validated_at : option datetime;
  mitigated_at : option datetime;
  invalidated_at : option datetime;
  status : OrderBlockStatus;
  source_structure_event : string;
  source_broken_structure_id : string;
  displacement_confirmed : bool;
  context_references : list string;
  breaker_zone_id : option string;
  lifecycle : list OrderBlockLifecycleEvent
}.
Definition fields_valid (z : OrderBlockZone) : bool :=
  forallb (dltb (D 0))
    [body_low z; body_high z; wick_low z; wick_high z; zone_low z; zone_high z; mean_threshold z].
Definition status_recorded (z : OrderBlockZone) : bool :=
  match status z with
  | OrderBlockStatus.VALIDATED => negb (bool_decide (validated_at z = None))
  | OrderBlockStatus.MITIGATED => negb (bool_decide (validated_at z = None)) && negb (bool_decide (mitigated_at z = None))
  | OrderBlockStatus.INVALIDATED => negb (bool_decide (validated_at z = None)) && negb (bool_decide (invalidated_at z = None))
  | _ => true
  end.
Definition validate_zone (z : OrderBlockZone) : bool :=
  fields_valid z
  && negb (dleb (body_high z) (body_low z))
  && negb (dltb (body_low z) (wick_low z) || dltb (wick_high z) (body_high z))
  && negb (dleb (zone_high z) (zone_low z))
  && (dleb (zone_low z) (mean_threshold z) && dleb (mean_threshold z) (zone_high z))
  && status_recorded z.
End OrderBlockZone.
Abbreviation OrderBlockZone := OrderBlockZone.OrderBlockZone.

Module BreakerBlockZone.
Record BreakerBlockZone := mkBreakerBlockZone {
  zone_id : string;
  origin_order_block_id : string;
  direction : OrderBlockDirection;
  zone_low : dec;
  zone_high : dec;
  mean_threshold : dec;
  created_at : datetime;
  activated_at : option datetime;
  invalidated_at : option datetime;
  status : BreakerBlockStatus;
  lifecycle : list OrderBlockLifecycleEvent
}.
Definition validate_zone (z : BreakerBlockZone) : bool :=
  forallb (dltb (D 0)) [zone_low z; zone_high z; mean_threshold z]
  && negb (dleb (zone_high z) (zone_low z))
  && (dleb (zone_low z) (mean_threshold z) && dleb (mean_threshold z) (zone_high z))
  && negb (bool_decide (status z = BreakerBlockStatus.ACTIVE) && bool_decide (activated_at z = None))
  && negb (bool_decide (status z = BreakerBlockStatus.INVALIDATED) && bool_decide (invalidated_at z = None)).
End BreakerBlockZone.
Abbreviation BreakerBlockZone := BreakerBlockZone.BreakerBlockZone.

Module OrderBlockRejection.
Record OrderBlockRejection := mkOrderBlockRejection {
  code : OrderBlockRejectionCode;
  structure_event : string;
  rejected_at : datetime
}.
End OrderBlockRejection.
Abbreviation OrderBlockRejection := OrderBlockRejection.OrderBlockRejection.

Module OrderBlockAnalysisResult.
Record OrderBlockAnalysisResult := mkOrderBlockAnalysisResult {
  timeframe : Timeframe;
  config : OrderBlockConfig;
  candle_count : nat;
  data_cutoff_at : option datetime;
  order_blocks : list OrderBlockZone;
  breaker_blocks : list BreakerBlockZone;
  rejections : list OrderBlockRejection
}.
End OrderBlockAnalysisResult.
Abbreviation OrderBlockAnalysisResult := OrderBlockAnalysisResult.OrderBlockAnalysisResult.

(** ** The engine's state *)

Module _OrderBlockState.
Record _OrderBlockState := mk_OrderBlockState {
  zone_id : string;
  direction : OrderBlockDirection;
  origin_candle_index : nat;
  origin : Candle;
  body_low : dec;
  body_high : dec;
  wick_low : dec;
  wick_high : dec;
  zone_low : dec;
  zone_high : dec;
  mean_threshold : dec;
  created_at : datetime;
  created_bar_index : nat;
  source_structure_event : string;
  source_broken_structure_id : string;
  displacement_confirmed : bool;
  context_references : list string;
  status : OrderBlockStatus;
  validated_at : option datetime;
  validation_bar_index : option nat;
  mitigated_at : option datetime;
  invalidated_at : option datetime;
  breaker_zone_id : option string;
  lifecycle : list OrderBlockLifecycleEvent
}.
(** The assignments of the code: what happened to the block, the rest kept. *)
Definition set_life (z : _OrderBlockState) (status : OrderBlockStatus) (validated_at : option datetime)
    (validation_bar_index : option nat) (mitigated_at invalidated_at : option datetime)
    (breaker_zone_id : option string) (lifecycle : list OrderBlockLifecycleEvent) : _OrderBlockState :=
  mk_OrderBlockState (zone_id z) (direction z) (origin_candle_index z) (origin z) (body_low z) (body_high z)
    (wick_low z) (wick_high z) (zone_low z) (zone_high z) (mean_threshold z) (created_at z) (created_bar_index z)
    (source_structure_event z) (source_broken_structure_id z) (displacement_confirmed z) (context_references z)
    status validated_at validation_bar_index mitigated_at invalidated_at breaker_zone_id lifecycle.
Definition set_validated (z : _OrderBlockState) (at_ : datetime) (bar_index : nat) : _OrderBlockState :=
  set_life z (status z) (Some at_) (Some bar_index) (mitigated_at z) (invalidated_at z) (breaker_zone_id z) (lifecycle z).
Definition set_mitigated_at (z : _OrderBlockState) (at_ : datetime) : _OrderBlockState :=
  set_life z (status z) (validated_at z) (validation_bar_index z) (Some at_) (invalidated_at z) (breaker_zone_id z) (lifecycle z).
Definition set_invalidated_at (z : _OrderBlockState) (at_ : datetime) : _OrderBlockState :=
  set_life z (status z) (validated_at z) (validation_bar_index z) (mitigated_at z) (Some at_) (breaker_zone_id z) (lifecycle z).
Definition set_breaker (z : _OrderBlockState) (breaker_zone_id : string) : _OrderBlockState :=
  set_life z (status z) (validated_at z) (validation_bar_index z) (mitigated_at z) (invalidated_at z)
    (Some breaker_zone_id) (lifecycle z).
Definition terminal (z : _OrderBlockState) : bool :=
  match status z with OrderBlockStatus.INVALIDATED | OrderBlockStatus.EXPIRED => true | _ => false end.
End _OrderBlockState.
Abbreviation _OrderBlockState := _OrderBlockState._OrderBlockState.

Module _BreakerState.
Record _BreakerState := mk_BreakerState {
  zone_id : string;
  origin_order_block_id : string;
  direction : OrderBlockDirection;
  zone_low : dec;
  zone_high : dec;
  mean_threshold : dec;
  created_at : datetime;
  created_bar_index : nat;
  status : BreakerBlockStatus;
  activated_at : option datetime;
  activation_bar_index : option nat;
  invalidated_at : option datetime;
  lifecycle : list OrderBlockLifecycleEvent
}.
Definition set_life (b : _BreakerState) (status : BreakerBlockStatus) (activated_at : option datetime)
    (activation_bar_index : option nat) (invalidated_at : option datetime)
    (lifecycle : list OrderBlockLifecycleEvent) : _BreakerState :=
  mk_BreakerState (zone_id b) (origin_order_block_id b) (direction b) (zone_low b) (zone_high b) (mean_threshold b)
    (created_at b) (created_bar_index b) status activated_at activation_bar_index invalidated_at lifecycle.
Definition set_activated (b : _BreakerState) (at_ : datetime) (bar_index : nat) : _BreakerState :=
  set_life b (status b) (Some at_) (Some bar_index) (invalidated_at b) (lifecycle b).
Definition set_invalidated_at (b : _BreakerState) (at_ : datetime) : _BreakerState :=
  set_life b (status b) (activated_at b) (activation_bar_index b) (Some at_) (lifecycle b).
Definition terminal (b : _BreakerState) : bool :=
  match status b with BreakerBlockStatus.INVALIDATED | BreakerBlockStatus.EXPIRED => true | _ => false end.
End _BreakerState.
Abbreviation _BreakerState := _BreakerState._BreakerState.

(** ** Input *)

Definition OrderBlockInputError (msg : string) : pyexc := Exc "OrderBlockInputError" msg.

Definition _validate_inputs (candles : list Candle) (timeframe : Timeframe) (structure_events : list StructureBreakEvent)
    (qualified_displacements : list OrderBlockDisplacementLink) (config : OrderBlockConfig)
    (atr_result : option ATRResult) : pyres unit :=
  _ ← validate_alignment "OrderBlockInputError" (OrderBlockConfig.tick_size config) candles;
  _ ← validate_spacing "OrderBlockInputError" timeframe candles;
  _ ← validate_structure_events "OrderBlockInputError" timeframe candles structure_events;
  _ ← py_for (fun displacement =>
        raise_if (negb (bool_decide (OrderBlockDisplacementLink.confirmed_at displacement
                                     ∈ candle_close_times timeframe candles)))
          (OrderBlockInputError "displacement confirmed_at must match an available candle close"))
        qualified_displacements;
  validate_atr_alignment "OrderBlockInputError" candles atr_result.

Definition _direction (event : StructureBreakEvent) : OrderBlockDirection :=
  match StructureBreakEvent.direction event with
  | StructureDirection.BULLISH => OrderBlockDirection.BULLISH
  | StructureDirection.BEARISH => OrderBlockDirection.BEARISH
  end.

Definition _interval_distance (value lower upper : dec) : dec :=
  if dltb value lower then dsub DEFAULT_PREC lower value
  else if dltb upper value then dsub DEFAULT_PREC value upper
  else D 0.

(** [Decimal(n) * config.tick_size] *)
Definition in_ticks (config : OrderBlockConfig) (n : Z) : dec := dmul DEFAULT_PREC (D n) (OrderBlockConfig.tick_size config).

(** ** Context *)

Section context.
Context (direction : OrderBlockDirection) (candidate : Candle) (candidate_index : nat).
Context (confirmed_swings : list ConfirmedSwing) (liquidity_pools : list LiquidityPool).
Context (atr_result : option ATRResult) (config : OrderBlockConfig).

Definition context_swing_kind : SwingKind :=
  match direction with OrderBlockDirection.BULLISH => SwingKind.LOW | OrderBlockDirection.BEARISH => SwingKind.HIGH end.

Definition context_pool_side : LiquidityDirection :=
  match direction with
  | OrderBlockDirection.BULLISH => LiquidityDirection.SELL_SIDE
  | OrderBlockDirection.BEARISH => LiquidityDirection.BUY_SIDE
  end.

Definition context_probe : dec :=
  match direction with
  | OrderBlockDirection.BULLISH => Candle.low candidate
  | OrderBlockDirection.BEARISH => Candle.high candidate
  end.

(** [atr_result.points\[candidate_index - 1\].atr] *)
Definition context_atr : option dec :=
  match atr_result with
  | Some atr =>
      if (0 <? candidate_index)%nat then ATRResult.points atr !! (candidate_index - 1)%nat ≫= ATRPoint.atr else None
  | None => None
  end.

Definition maximum_distance (atr : option dec) : dec :=
  dmax (in_ticks config (OrderBlockConfig.ob_context_proximity_ticks config))
    (match atr with
     | Some atr => dmul DEFAULT_PREC (OrderBlockConfig.ob_context_proximity_atr_ratio config) atr
     | None => D 0
     end).

(** The latest swing of the side that is confirmed when the candidate opens. *)
Definition swing_context : list (dec * string) :=
  let eligible := List.filter (fun swing =>
    bool_decide (ConfirmedSwing.kind swing = context_swing_kind)
    && (ConfirmedSwing.confirmed_at swing <=? Candle.timestamp candidate)) confirmed_swings in
  match py_max (lex_lt (on_key ConfirmedSwing.confirmed_at Z.ltb) (on_key ConfirmedSwing.swing_id str_lt)) eligible with
  | Some latest =>
      [(dabs DEFAULT_PREC (dsub DEFAULT_PREC context_probe (ConfirmedSwing.price latest)),
        "SWING:" +:+ ConfirmedSwing.swing_id latest)]
  | None => []
  end.

(** One pool, as it was known when the candidate opened. *)
Definition pool_context (pool : LiquidityPool) : pyres (list (dec * string)) :=
  snapshot ← LiquidityPool.snapshot_at pool (Candle.timestamp candidate);
  Ok match snapshot with
     | Some known =>
         if bool_decide (LiquidityPool.direction known = context_pool_side)
            && negb (bool_decide (LiquidityPool.state known = LiquidityPoolState.TAKEN)
                     || bool_decide (LiquidityPool.state known = LiquidityPoolState.EXPIRED))
         then [(_interval_distance context_probe (LiquidityPool.lower_bound known) (LiquidityPool.upper_bound known),
                "LIQUIDITY:" +:+ LiquidityPool.pool_id known)]
         else []
     | None => []
     end.

(** The references at the least distance, sorted. *)
Definition nearest_references (contexts : list (dec * string)) : option (list string) :=
  match py_min dltb (map fst contexts) with
  | None => None
  | Some nearest_distance =>
      Some (map snd (List.filter (fun item => deqb (fst item) nearest_distance) (sort_by (on_key snd str_lt) contexts)))
  end.

Definition _context_for_candidate : pyres (option (list string)) :=
  if negb (OrderBlockConfig.ob_require_context config) then Ok (Some [])
  else if dltb (D 0) (OrderBlockConfig.ob_context_proximity_atr_ratio config) && bool_decide (context_atr = None)
  then Ok None
  else
    pool_contexts ← py_map pool_context liquidity_pools;
    Ok (nearest_references
          (List.filter (fun item => dleb (fst item) (maximum_distance context_atr))
             (swing_context ++ concat pool_contexts))).
End context.

(** ** Candidates *)

Module _Candidate.
Record _Candidate := mk_Candidate {
  index : nat;
  candle : Candle;
  context_references : list string
}.
Definition body_size (c : _Candidate) : dec :=
  dabs DEFAULT_PREC (dsub DEFAULT_PREC (Candle.close (candle c)) (Candle.open (candle c))).
End _Candidate.
Abbreviation _Candidate := _Candidate._Candidate.

Definition is_directional_opposite (direction : OrderBlockDirection) (bar : Candle) : bool :=
  match direction with
  | OrderBlockDirection.BULLISH => dltb (Candle.close bar) (Candle.open bar)
  | OrderBlockDirection.BEARISH => dltb (Candle.open bar) (Candle.close bar)
  end.

(** The components of the ranking keys. *)
Definition by_extreme (direction : OrderBlockDirection) : _Candidate -> _Candidate -> bool :=
  match direction with
  | OrderBlockDirection.BULLISH => on_key (fun item => Candle.low (_Candidate.candle item)) dltb
  | OrderBlockDirection.BEARISH => on_key (fun item => dneg DEFAULT_PREC (Candle.high (_Candidate.candle item))) dltb
  end.
Definition by_body : _Candidate -> _Candidate -> bool :=
  on_key (fun item => dneg DEFAULT_PREC (_Candidate.body_size item)) dltb.
Definition by_recency : _Candidate -> _Candidate -> bool := on_key (fun item => - Z.of_nat (_Candidate.index item)) Z.ltb.

Definition candidate_rank (policy : OrderBlockRankPolicy) (direction : OrderBlockDirection) : _Candidate -> _Candidate -> bool :=
  match policy with
  | OrderBlockRankPolicy.EXTREME_THEN_BODY => lex_lt (by_extreme direction) (lex_lt by_body by_recency)
  | OrderBlockRankPolicy.BODY_THEN_EXTREME => lex_lt by_body (lex_lt (by_extreme direction) by_recency)
  end.

Section select.
Context (direction : OrderBlockDirection) (candles : list Candle).
Context (confirmed_swings : list ConfirmedSwing) (liquidity_pools : list LiquidityPool).
Context (atr_result : option ATRResult) (config : OrderBlockConfig).

(** The body of the search loop. *)
Definition candidate_at (index : nat) : pyres (list _Candidate) :=
  match candles !! index with
  | None => Raise (Exc "IndexError" "list index out of range")
  | Some bar =>
      if negb (is_directional_opposite direction bar) then Ok []
      else
        context ← _context_for_candidate direction bar index confirmed_swings liquidity_pools atr_result config;
        Ok match context with
           | Some references => [_Candidate.mk_Candidate index bar references]
           | None => []
           end
  end.

Definition _select_candidate (break_index : nat) : pyres (option _Candidate) :=
  let start := (break_index - OrderBlockConfig.ob_search_lookback_bars config)%nat in
  found ← py_map candidate_at (seq start (break_index - start));
  Ok (py_min (candidate_rank (OrderBlockConfig.ob_candidate_rank_policy config) direction) (concat found)).
End select.

(** ** Events *)

Definition lifecycle_event (event_type : OrderBlockEventType) (zone_id : string) (candle : Candle) (confirmed_at : datetime)
    (from_status : option ZoneStatus) (to_status : ZoneStatus) (mean_threshold_held : option bool) : OrderBlockLifecycleEvent :=
  OrderBlockLifecycleEvent.mkOrderBlockLifecycleEvent
    (OrderBlockEventType.value event_type +:+ ":" +:+ zone_id +:+ ":" +:+ isoformat (Candle.timestamp candle))
    event_type zone_id (Candle.timestamp candle) confirmed_at from_status to_status mean_threshold_held.

Definition _append_ob_event (zone : _OrderBlockState) (event_type : OrderBlockEventType) (candle : Candle)
    (confirmed_at : datetime) (to_status : OrderBlockStatus) (mean_threshold_held : option bool) : _OrderBlockState :=
  let previous := _OrderBlockState.status zone in
  _OrderBlockState.set_life zone to_status (_OrderBlockState.validated_at zone) (_OrderBlockState.validation_bar_index zone)
    (_OrderBlockState.mitigated_at zone) (_OrderBlockState.invalidated_at zone) (_OrderBlockState.breaker_zone_id zone)
    (_OrderBlockState.lifecycle zone
     ++ [lifecycle_event event_type (_OrderBlockState.zone_id zone) candle confirmed_at (Some (BlockStatus previous))
           (BlockStatus to_status) mean_threshold_held]).

Definition _append_breaker_event (breaker : _BreakerState) (event_type : OrderBlockEventType) (candle : Candle)
    (confirmed_at : datetime) (to_status : BreakerBlockStatus) : _BreakerState :=
  let previous := _BreakerState.status breaker in
  _BreakerState.set_life breaker to_status (_BreakerState.activated_at breaker) (_BreakerState.activation_bar_index breaker)
    (_BreakerState.invalidated_at breaker)
    (_BreakerState.lifecycle breaker
     ++ [lifecycle_event event_type (_BreakerState.zone_id breaker) candle confirmed_at (Some (BreakerStatus previous))
           (BreakerStatus to_status) None]).

(** ** Creation *)

Definition _new_order_block (event : StructureBreakEvent) (event_ref : string) (direction : OrderBlockDirection)
    (candidate : _Candidate) (created_at : datetime) (created_bar_index : nat) (creation_candle : Candle)
    (displacement_confirmed : bool) (config : OrderBlockConfig) : _OrderBlockState :=
  let bar := _Candidate.candle candidate in
  let body_low := dmin (Candle.open bar) (Candle.close bar) in
  let body_high := dmax (Candle.open bar) (Candle.close bar) in
  let '(zone_low, zone_high) :=
    match OrderBlockConfig.ob_zone_basis config with
    | OrderBlockZoneBasis.BODY => (body_low, body_high)
    | OrderBlockZoneBasis.WICK => (Candle.low bar, Candle.high bar)
    end in
  let zone_id := "OB:" +:+ OrderBlockDirection.value direction +:+ ":" +:+ event_ref in
  _OrderBlockState.mk_OrderBlockState zone_id direction (_Candidate.index candidate) bar body_low body_high
    (Candle.low bar) (Candle.high bar) zone_low zone_high
    (ddiv DEFAULT_PREC (dadd DEFAULT_PREC (Candle.open bar) (Candle.close bar)) (D 2))
    created_at created_bar_index event_ref (StructureBreakEvent.broken_structure_id event) displacement_confirmed
    (_Candidate.context_references candidate) OrderBlockStatus.CANDIDATE None None None None None
    [lifecycle_event OrderBlockEventType.OB_CREATED zone_id creation_candle created_at None
       (BlockStatus OrderBlockStatus.CANDIDATE) None].

Definition opposite (d : OrderBlockDirection) : OrderBlockDirection :=
  match d with
  | OrderBlockDirection.BULLISH => OrderBlockDirection.BEARISH
  | OrderBlockDirection.BEARISH => OrderBlockDirection.BULLISH
  end.

(** The breaker, and the block that now names it. *)
Definition _new_breaker (zone : _OrderBlockState) (candle : Candle) (confirmed_at : datetime) (bar_index : nat)
    : _BreakerState * _OrderBlockState :=
  let direction := opposite (_OrderBlockState.direction zone) in
  let zone_id := "BREAKER:" +:+ OrderBlockDirection.value direction +:+ ":" +:+ _OrderBlockState.zone_id zone in
  (_BreakerState.mk_BreakerState zone_id (_OrderBlockState.zone_id zone) direction (_OrderBlockState.zone_low zone)
     (_OrderBlockState.zone_high zone) (_OrderBlockState.mean_threshold zone) confirmed_at bar_index
     BreakerBlockStatus.CANDIDATE None None None
     [lifecycle_event OrderBlockEventType.BREAKER_CREATED zone_id candle confirmed_at None
        (BreakerStatus BreakerBlockStatus.CANDIDATE) None],
   _OrderBlockState.set_breaker zone zone_id).

(** [displacement_by_structure\[link.structure_event\].append(link)] *)
Definition displacement_by_structure (links : list OrderBlockDisplacementLink) : gmap string (list OrderBlockDisplacementLink) :=
  foldl (fun m link =>
    <[OrderBlockDisplacementLink.structure_event link :=
        default [] (m !! OrderBlockDisplacementLink.structure_event link) ++ [link]]> m) ∅ links.

Definition displacement_order : OrderBlockDisplacementLink -> OrderBlockDisplacementLink -> bool :=
  lex_lt (on_key OrderBlockDisplacementLink.confirmed_at Z.ltb) (on_key OrderBlockDisplacementLink.displacement_id str_lt).

(** What creating one block reads. *)
Section creation.
Context (candles : list Candle) (timeframe : Timeframe) (config : OrderBlockConfig) (cutoff : option datetime).
Context (links : gmap string (list OrderBlockDisplacementLink)).
Context (confirmed_swings : list ConfirmedSwing) (liquidity_pools : list LiquidityPool) (atr_result : option ATRResult).

Definition Created : Type := list _OrderBlockState * list OrderBlockRejection.

Definition rejection (code : OrderBlockRejectionCode) (event : StructureBreakEvent) : OrderBlockRejection :=
  OrderBlockRejection.mkOrderBlockRejection code (structure_event_reference event) (StructureBreakEvent.confirmed_at event).

(** [available_displacements] *)
Definition available_displacements (event_ref : string) (cutoff : datetime) : list OrderBlockDisplacementLink :=
  sort_by displacement_order
    (List.filter (fun item => OrderBlockDisplacementLink.confirmed_at item <=? cutoff) (default [] (links !! event_ref))).

(** The loop over [structure_events]. *)
Definition create_step (st : Created) (event : StructureBreakEvent) : pyres Created :=
  let '(order_blocks, rejections) := st in
  match cutoff with
  | None => Ok st
  | Some cutoff =>
      if cutoff <? StructureBreakEvent.confirmed_at event then Ok st
      else
        let event_ref := structure_event_reference event in
        let available := available_displacements event_ref cutoff in
        let required := OrderBlockConfig.ob_require_displacement config in
        match required, available with
        | true, [] => Ok (order_blocks, rejections ++ [rejection OrderBlockRejectionCode.DISPLACEMENT_REQUIRED event])
        | _, _ =>
            let creation_time :=
              match required, available with
              | true, first :: _ =>
                  Z.max (StructureBreakEvent.confirmed_at event) (OrderBlockDisplacementLink.confirmed_at first)
              | _, _ => StructureBreakEvent.confirmed_at event
              end in
            creation_bar_index ← index_get (close_to_index timeframe candles) creation_time;
            let displacement_confirmed :=
              match available with
              | first :: _ => OrderBlockDisplacementLink.confirmed_at first <=? creation_time
              | [] => false
              end in
            break_index ← index_get (timestamp_to_index candles) (StructureBreakEvent.timestamp event);
            let direction := _direction event in
            candidate ← _select_candidate direction candles confirmed_swings liquidity_pools atr_result config break_index;
            match candidate with
            | None => Ok (order_blocks, rejections ++ [rejection OrderBlockRejectionCode.OB_NO_CANDIDATE event])
            | Some candidate =>
                match candles !! creation_bar_index with
                | None => Raise (Exc "IndexError" "list index out of range")
                | Some creation_candle =>
                    Ok (order_blocks ++ [_new_order_block event event_ref direction candidate creation_time
                                           creation_bar_index creation_candle displacement_confirmed config], rejections)
                end
            end
        end
  end.
End creation.

(** ** The life of a block and of a breaker *)

Section life.
Context (config : OrderBlockConfig).

Definition _validation_passes (zone : _OrderBlockState) (candle : Candle) : bool :=
  let buffer := in_ticks config (OrderBlockConfig.ob_validation_buffer_ticks config) in
  match _OrderBlockState.direction zone with
  | OrderBlockDirection.BULLISH =>
      dltb (dadd DEFAULT_PREC (Candle.high (_OrderBlockState.origin zone)) buffer) (Candle.high candle)
  | OrderBlockDirection.BEARISH =>
      dltb (Candle.low candle) (dsub DEFAULT_PREC (Candle.low (_OrderBlockState.origin zone)) buffer)
  end.

(** The price a basis observes on one side of the candle. *)
Definition probe_of (basis : OrderBlockProbeBasis) (direction : OrderBlockDirection) (candle : Candle) : dec :=
  match basis, direction with
  | OrderBlockProbeBasis.CLOSE, _ => Candle.close candle
  | OrderBlockProbeBasis.WICK, OrderBlockDirection.BULLISH => Candle.low candle
  | OrderBlockProbeBasis.WICK, OrderBlockDirection.BEARISH => Candle.high candle
  end.

Definition _hard_invalidation (direction : OrderBlockDirection) (zone_low zone_high : dec) (candle : Candle) : bool :=
  let buffer := in_ticks config (OrderBlockConfig.ob_invalidation_buffer_ticks config) in
  let probe := probe_of (OrderBlockConfig.ob_invalidation_basis config) direction candle in
  match direction with
  | OrderBlockDirection.BULLISH => dltb probe (dsub DEFAULT_PREC zone_low buffer)
  | OrderBlockDirection.BEARISH => dltb (dadd DEFAULT_PREC zone_high buffer) probe
  end.

Definition _midpoint_holds (zone : _OrderBlockState) (candle : Candle) : bool :=
  if negb (OrderBlockConfig.ob_require_midpoint_hold config) then true
  else
    let probe := probe_of (OrderBlockConfig.ob_midpoint_probe_basis config) (_OrderBlockState.direction zone) candle in
    match _OrderBlockState.direction zone with
    | OrderBlockDirection.BULLISH => dleb (_OrderBlockState.mean_threshold zone) probe
    | OrderBlockDirection.BEARISH => dleb probe (_OrderBlockState.mean_threshold zone)
    end.

Definition overlaps (zone_low zone_high : dec) (candle : Candle) : bool :=
  dleb (Candle.low candle) zone_high && dleb zone_low (Candle.high candle).

(** The branch of a block that waits for its validation. *)
Definition update_candidate (zone : _OrderBlockState) (bar_index : nat) (candle : Candle) (confirmed_at : datetime)
    : _OrderBlockState :=
  if _validation_passes zone candle then
    _OrderBlockState.set_validated
      (_append_ob_event zone OrderBlockEventType.OB_VALIDATED candle confirmed_at OrderBlockStatus.VALIDATED None)
      confirmed_at bar_index
  else if OrderBlockConfig.ob_validation_max_bars config
          <=? Z.of_nat bar_index - Z.of_nat (_OrderBlockState.created_bar_index zone) + 1 then
    _append_ob_event zone OrderBlockEventType.OB_EXPIRED candle confirmed_at OrderBlockStatus.EXPIRED None
  else zone.

(** The mitigation and the expiry of a validated block that was not invalidated. *)
Definition observe_zone (zone : _OrderBlockState) (validation_bar_index bar_index : nat) (candle : Candle)
    (confirmed_at : datetime) : _OrderBlockState :=
  let overlap := overlaps (_OrderBlockState.zone_low zone) (_OrderBlockState.zone_high zone) candle in
  let zone :=
    if bool_decide (_OrderBlockState.status zone = OrderBlockStatus.VALIDATED) && overlap
       && _midpoint_holds zone candle then
      _OrderBlockState.set_mitigated_at
        (_append_ob_event zone OrderBlockEventType.OB_MITIGATED candle confirmed_at OrderBlockStatus.MITIGATED (Some true))
        confirmed_at
    else zone in
  if (bool_decide (_OrderBlockState.status zone = OrderBlockStatus.VALIDATED)
      || bool_decide (_OrderBlockState.status zone = OrderBlockStatus.MITIGATED))
     && (OrderBlockConfig.ob_max_age_bars config <? Z.of_nat bar_index - Z.of_nat validation_bar_index) then
    _append_ob_event zone OrderBlockEventType.OB_EXPIRED candle confirmed_at OrderBlockStatus.EXPIRED None
  else zone.

(** The body of the loop over [active_order_blocks]: the block afterwards, and
    the breaker it left. *)
Definition update_order_block (bar_index : nat) (candle : Candle) (confirmed_at : datetime) (zone : _OrderBlockState)
    : pyres (_OrderBlockState * option _BreakerState) :=
  if (bar_index <? _OrderBlockState.created_bar_index zone)%nat || _OrderBlockState.terminal zone then Ok (zone, None)
  else if bool_decide (_OrderBlockState.status zone = OrderBlockStatus.CANDIDATE) then
    Ok (update_candidate zone bar_index candle confirmed_at, None)
  else
    match _OrderBlockState.validated_at zone, _OrderBlockState.validation_bar_index zone with
    | Some validated_at, Some validation_bar_index =>
        if Candle.timestamp candle <=? validated_at then Ok (zone, None)
        else if _hard_invalidation (_OrderBlockState.direction zone) (_OrderBlockState.zone_low zone)
                  (_OrderBlockState.zone_high zone) candle then
          let zone :=
            _OrderBlockState.set_invalidated_at
              (_append_ob_event zone OrderBlockEventType.OB_INVALIDATED candle confirmed_at OrderBlockStatus.INVALIDATED None)
              confirmed_at in
          if OrderBlockConfig.breaker_enabled config then
            let '(new_breaker, zone) := _new_breaker zone candle confirmed_at bar_index in Ok (zone, Some new_breaker)
          else Ok (zone, None)
        else Ok (observe_zone zone validation_bar_index bar_index candle confirmed_at, None)
    | _, _ => Raise (Exc "AssertionError" "")
    end.

(** The body of the loop over [active_breakers]. *)
Definition update_breaker (bar_index : nat) (candle : Candle) (confirmed_at : datetime) (breaker : _BreakerState)
    : pyres _BreakerState :=
  if _BreakerState.terminal breaker then Ok breaker
  else if bool_decide (_BreakerState.status breaker = BreakerBlockStatus.CANDIDATE) then
    if (bar_index <=? _BreakerState.created_bar_index breaker)%nat then Ok breaker
    else
      let activation :=
        overlaps (_BreakerState.zone_low breaker) (_BreakerState.zone_high breaker) candle
        && match _BreakerState.direction breaker with
           | OrderBlockDirection.BULLISH => dltb (_BreakerState.zone_high breaker) (Candle.close candle)
           | OrderBlockDirection.BEARISH => dltb (Candle.close candle) (_BreakerState.zone_low breaker)
           end in
      if activation then
        Ok (_BreakerState.set_activated
              (_append_breaker_event breaker OrderBlockEventType.BREAKER_ACTIVATED candle confirmed_at BreakerBlockStatus.ACTIVE)
              confirmed_at bar_index)
      else if OrderBlockConfig.breaker_retest_max_bars config
              <? Z.of_nat bar_index - Z.of_nat (_BreakerState.created_bar_index breaker) then
        Ok (_append_breaker_event breaker OrderBlockEventType.BREAKER_EXPIRED candle confirmed_at BreakerBlockStatus.EXPIRED)
      else Ok breaker
  else
    match _BreakerState.activation_bar_index breaker with
    | None => Raise (Exc "AssertionError" "")
    | Some activation_bar_index =>
        if (bar_index <=? activation_bar_index)%nat then Ok breaker
        else if _hard_invalidation (_BreakerState.direction breaker) (_BreakerState.zone_low breaker)
                  (_BreakerState.zone_high breaker) candle then
          Ok (_BreakerState.set_invalidated_at
                (_append_breaker_event breaker OrderBlockEventType.BREAKER_INVALIDATED candle confirmed_at
                   BreakerBlockStatus.INVALIDATED) confirmed_at)
        else Ok breaker
    end.
End life.

(** ** The replay *)

Module OrderBlockReplay.
Record OrderBlockReplay := mkOrderBlockReplay {
  order_blocks : list _OrderBlockState;
  breakers : list _BreakerState;
  future_order_blocks : gmap nat (list nat);
  active_order_blocks : list nat;
  active_breakers : list nat
}.
End OrderBlockReplay.
Abbreviation OrderBlockReplay := OrderBlockReplay.OrderBlockReplay.

(** [future_order_blocks\[zone.created_bar_index\].append((position, zone))] *)
Definition schedule (order_blocks : list _OrderBlockState) : gmap nat (list nat) :=
  foldl (fun m '(position, zone) =>
    <[_OrderBlockState.created_bar_index zone :=
        default [] (m !! _OrderBlockState.created_bar_index zone) ++ [position]]> m) ∅ (enumerate order_blocks).

Section replay.
Context (timeframe : Timeframe) (config : OrderBlockConfig).

Definition update_active_block (bar_index : nat) (candle : Candle) (confirmed_at : datetime)
    (st : list _OrderBlockState * list _BreakerState * list nat) (position : nat)
    : pyres (list _OrderBlockState * list _BreakerState * list nat) :=
  let '(order_blocks, breakers, active_breakers) := st in
  match order_blocks !! position with
  | None => Ok st
  | Some zone =>
      '(zone, new_breaker) ← update_order_block config bar_index candle confirmed_at zone;
      Ok (<[position := zone]> order_blocks,
          match new_breaker with Some b => breakers ++ [b] | None => breakers end,
          match new_breaker with Some _ => active_breakers ++ [length breakers] | None => active_breakers end)
  end.

Definition update_active_breaker (bar_index : nat) (candle : Candle) (confirmed_at : datetime)
    (breakers : list _BreakerState) (position : nat) : pyres (list _BreakerState) :=
  match breakers !! position with
  | None => Ok breakers
  | Some breaker =>
      breaker ← update_breaker config bar_index candle confirmed_at breaker;
      Ok (<[position := breaker]> breakers)
  end.

Definition block_alive (order_blocks : list _OrderBlockState) (position : nat) : bool :=
  match order_blocks !! position with Some zone => negb (_OrderBlockState.terminal zone) | None => false end.
Definition breaker_alive (breakers : list _BreakerState) (position : nat) : bool :=
  match breakers !! position with Some breaker => negb (_BreakerState.terminal breaker) | None => false end.

Definition replay_step (st : OrderBlockReplay) (item : nat * Candle) : pyres OrderBlockReplay :=
  let '(bar_index, candle) := item in
  let confirmed_at := Candle.timestamp candle + timeframe_duration timeframe in
  let created := default [] (OrderBlockReplay.future_order_blocks st !! bar_index) in
  let active_order_blocks := sort_by Nat.ltb (OrderBlockReplay.active_order_blocks st ++ created) in
  updated ← py_fold (update_active_block bar_index candle confirmed_at)
              (OrderBlockReplay.order_blocks st, OrderBlockReplay.breakers st, OrderBlockReplay.active_breakers st) active_order_blocks;
  let '(order_blocks, breakers, active_breakers) := updated in
  breakers ← py_fold (update_active_breaker bar_index candle confirmed_at) breakers active_breakers;
  Ok (OrderBlockReplay.mkOrderBlockReplay order_blocks breakers (delete bar_index (OrderBlockReplay.future_order_blocks st))
        (List.filter (block_alive order_blocks) active_order_blocks)
        (List.filter (breaker_alive breakers) active_breakers)).

Definition replay (candles : list Candle) (order_blocks : list _OrderBlockState) : pyres OrderBlockReplay :=
  py_fold replay_step (OrderBlockReplay.mkOrderBlockReplay order_blocks [] (schedule order_blocks) [] []) (enumerate candles).
End replay.

(** ** The result *)

Definition _to_order_block_schema (config : OrderBlockConfig) (zone : _OrderBlockState) : pyres OrderBlockZone :=
  validated OrderBlockZone.validate_zone
    (OrderBlockZone.mkOrderBlockZone (_OrderBlockState.zone_id zone) (_OrderBlockState.direction zone)
      (_OrderBlockState.origin_candle_index zone) (Candle.timestamp (_OrderBlockState.origin zone))
      (_OrderBlockState.body_low zone) (_OrderBlockState.body_high zone) (_OrderBlockState.wick_low zone)
      (_OrderBlockState.wick_high zone) (_OrderBlockState.zone_low zone) (_OrderBlockState.zone_high zone)
      (_OrderBlockState.mean_threshold zone) (OrderBlockConfig.ob_zone_basis config) (_OrderBlockState.created_at zone)
      (_OrderBlockState.validated_at zone) (_OrderBlockState.mitigated_at zone) (_OrderBlockState.invalidated_at zone)
      (_OrderBlockState.status zone) (_OrderBlockState.source_structure_event zone)
      (_OrderBlockState.source_broken_structure_id zone) (_OrderBlockState.displacement_confirmed zone)
      (_OrderBlockState.context_references zone) (_OrderBlockState.breaker_zone_id zone) (_OrderBlockState.lifecycle zone)).

Definition _to_breaker_schema (breaker : _BreakerState) : pyres BreakerBlockZone :=
  validated BreakerBlockZone.validate_zone
    (BreakerBlockZone.mkBreakerBlockZone (_BreakerState.zone_id breaker) (_BreakerState.origin_order_block_id breaker)
      (_BreakerState.direction breaker) (_BreakerState.zone_low breaker) (_BreakerState.zone_high breaker)
      (_BreakerState.mean_threshold breaker) (_BreakerState.created_at breaker) (_BreakerState.activated_at breaker)
      (_BreakerState.invalidated_at breaker) (_BreakerState.status breaker) (_BreakerState.lifecycle breaker)).

Definition analyze_order_blocks (candles : list Candle) (timeframe : Timeframe) (structure_events : list StructureBreakEvent)
    (config : OrderBlockConfig) (qualified_displacements : list OrderBlockDisplacementLink)
    (confirmed_swings : list ConfirmedSwing) (liquidity_pools : list LiquidityPool) (atr_result : option ATRResult)
    : pyres OrderBlockAnalysisResult :=
  _ ← _validate_inputs candles timeframe structure_events qualified_displacements config atr_result;
  let cutoff := data_cutoff_at candles timeframe in
  let links := match cutoff with Some _ => displacement_by_structure qualified_displacements | None => ∅ end in
  created ← py_fold (create_step candles timeframe config cutoff links confirmed_swings liquidity_pools atr_result)
              ([], []) structure_events;
  let '(order_blocks, rejections) := created in
  final ← replay timeframe config candles order_blocks;
  blocks ← py_map (_to_order_block_schema config) (OrderBlockReplay.order_blocks final);
  breakers ← py_map _to_breaker_schema (OrderBlockReplay.breakers final);
  Ok (OrderBlockAnalysisResult.mkOrderBlockAnalysisResult timeframe config (length candles) cutoff blocks breakers rejections).
