(* ===== verification/OrderBlocksTheory.v ===== *)
(** Theorems on the replay of [engines/smc/order_blocks.py]: every block and
    every breaker lives a life of its own, which follows the lifecycle
    protocol; the work lists, the schedule of creations and the merging of
    positions change nothing. *)
From Stdlib Require Import ZArith QArith Lia Lqa Sorting.Sorted Sorting.Permutation.
From stdpp Require Import base list strings numbers sets gmap sorting.
From S2P Require Import Prelude Decimal Time Candle Indicators Structure Engine LiquidityTypes OrderBlocks.
Local Open Scope Z_scope.

Abbreviation OB := _OrderBlockState (only parsing).
Abbreviation BB := _BreakerState (only parsing).
Abbreviation ob_event := OrderBlockLifecycleEvent (only parsing).

(** ** The lifecycle protocol *)

(** The transitions of blocks and breakers. A block is validated, mitigated at
    most once, and ends invalidated or expired; a breaker expires only before
    its activation. *)
Inductive zone_step : OrderBlockEventType -> ZoneStatus -> ZoneStatus -> Prop :=
| step_validated : zone_step OrderBlockEventType.OB_VALIDATED
    (BlockStatus OrderBlockStatus.CANDIDATE) (BlockStatus OrderBlockStatus.VALIDATED)
| step_unvalidated : zone_step OrderBlockEventType.OB_EXPIRED
    (BlockStatus OrderBlockStatus.CANDIDATE) (BlockStatus OrderBlockStatus.EXPIRED)
| step_mitigated : zone_step OrderBlockEventType.OB_MITIGATED
    (BlockStatus OrderBlockStatus.VALIDATED) (BlockStatus OrderBlockStatus.MITIGATED)
| step_invalidated s : s = OrderBlockStatus.VALIDATED \/ s = OrderBlockStatus.MITIGATED ->
    zone_step OrderBlockEventType.OB_INVALIDATED (BlockStatus s) (BlockStatus OrderBlockStatus.INVALIDATED)
| step_expired s : s = OrderBlockStatus.VALIDATED \/ s = OrderBlockStatus.MITIGATED ->
    zone_step OrderBlockEventType.OB_EXPIRED (BlockStatus s) (BlockStatus OrderBlockStatus.EXPIRED)
| step_activated : zone_step OrderBlockEventType.BREAKER_ACTIVATED
    (BreakerStatus BreakerBlockStatus.CANDIDATE) (BreakerStatus BreakerBlockStatus.ACTIVE)
| step_breaker_expired : zone_step OrderBlockEventType.BREAKER_EXPIRED
    (BreakerStatus BreakerBlockStatus.CANDIDATE) (BreakerStatus BreakerBlockStatus.EXPIRED)
| step_breaker_invalidated : zone_step OrderBlockEventType.BREAKER_INVALIDATED
    (BreakerStatus BreakerBlockStatus.ACTIVE) (BreakerStatus BreakerBlockStatus.INVALIDATED).

Inductive zone_start : OrderBlockEventType -> ZoneStatus -> Prop :=
| start_block : zone_start OrderBlockEventType.OB_CREATED (BlockStatus OrderBlockStatus.CANDIDATE)
| start_breaker : zone_start OrderBlockEventType.BREAKER_CREATED (BreakerStatus BreakerBlockStatus.CANDIDATE).

(** The history of the zone [id]: it starts with a creation, every event leaves
    the status the previous one reached, confirmation times never decrease. *)
Inductive zone_history (id : string) : list ob_event -> ZoneStatus -> Prop :=
| history_created e : OrderBlockLifecycleEvent.zone_id e = id -> OrderBlockLifecycleEvent.from_status e = None ->
    zone_start (OrderBlockLifecycleEvent.type e) (OrderBlockLifecycleEvent.to_status e) ->
    zone_history id [e] (OrderBlockLifecycleEvent.to_status e)
| history_snoc events last e s : zone_history id (events ++ [last]) s ->
    OrderBlockLifecycleEvent.zone_id e = id -> OrderBlockLifecycleEvent.from_status e = Some s ->
    zone_step (OrderBlockLifecycleEvent.type e) s (OrderBlockLifecycleEvent.to_status e) ->
    OrderBlockLifecycleEvent.confirmed_at last <= OrderBlockLifecycleEvent.confirmed_at e ->
    zone_history id (events ++ [last; e]) (OrderBlockLifecycleEvent.to_status e).

(** The confirmation of the last event of a type. *)
Definition time_of (t : OrderBlockEventType) (events : list ob_event) : option datetime :=
  OrderBlockLifecycleEvent.confirmed_at <$>
    list.last (List.filter (fun e => bool_decide (OrderBlockLifecycleEvent.type e = t)) events).

(** The confirmation of the first event. *)
Definition first_time (events : list ob_event) : option datetime := OrderBlockLifecycleEvent.confirmed_at <$> head events.

(** The events [l] are a history of [id] up to [now] that reached [s]. *)
Definition recorded (now : datetime) (id : string) (l : list ob_event) (s : ZoneStatus) : Prop :=
  exists events last, l = events ++ [last] /\ zone_history id l s /\ OrderBlockLifecycleEvent.confirmed_at last <= now.

(** What every reachable block satisfies: its history is a run of the protocol
    up to [now] and its time stamps are those of its events. *)
Record block_ok (now : datetime) (z : OB) : Prop := {
  bo_history : recorded now (_OrderBlockState.zone_id z) (_OrderBlockState.lifecycle z) (BlockStatus (_OrderBlockState.status z));
  bo_validated : _OrderBlockState.validated_at z = time_of OrderBlockEventType.OB_VALIDATED (_OrderBlockState.lifecycle z);
  bo_mitigated : _OrderBlockState.mitigated_at z = time_of OrderBlockEventType.OB_MITIGATED (_OrderBlockState.lifecycle z);
  bo_invalidated : _OrderBlockState.invalidated_at z = time_of OrderBlockEventType.OB_INVALIDATED (_OrderBlockState.lifecycle z);
  bo_index : _OrderBlockState.validation_bar_index z = None <-> _OrderBlockState.validated_at z = None;
  bo_breaker : _OrderBlockState.breaker_zone_id z <> None -> _OrderBlockState.status z = OrderBlockStatus.INVALIDATED;
  bo_created : first_time (_OrderBlockState.lifecycle z) = Some (_OrderBlockState.created_at z)
}.

Record breaker_ok (now : datetime) (b : BB) : Prop := {
  br_history : recorded now (_BreakerState.zone_id b) (_BreakerState.lifecycle b) (BreakerStatus (_BreakerState.status b));
  br_activated : _BreakerState.activated_at b = time_of OrderBlockEventType.BREAKER_ACTIVATED (_BreakerState.lifecycle b);
  br_invalidated : _BreakerState.invalidated_at b = time_of OrderBlockEventType.BREAKER_INVALIDATED (_BreakerState.lifecycle b);
  br_index : _BreakerState.activation_bar_index b = None <-> _BreakerState.activated_at b = None;
  br_created : first_time (_BreakerState.lifecycle b) = Some (_BreakerState.created_at b)
}.

#[local] Arguments time_of : simpl never.
#[local] Arguments first_time : simpl never.

Lemma first_time_snoc events e t : first_time events = Some t -> first_time (events ++ [e]) = Some t.
Proof. by destruct events. Qed.

Lemma time_of_snoc t events e : time_of t (events ++ [e]) =
  if bool_decide (OrderBlockLifecycleEvent.type e = t) then Some (OrderBlockLifecycleEvent.confirmed_at e) else time_of t events.
Proof.
  unfold time_of. rewrite List.filter_app. cbn [List.filter].
  destruct (bool_decide _); [by rewrite last_snoc | by rewrite app_nil_r].
Qed.

(** A status was reached by an event of its own. *)
Lemma history_reached id events s : zone_history id events s ->
  match s with
  | BlockStatus OrderBlockStatus.VALIDATED => time_of OrderBlockEventType.OB_VALIDATED events <> None
  | BlockStatus OrderBlockStatus.MITIGATED =>
      time_of OrderBlockEventType.OB_VALIDATED events <> None /\ time_of OrderBlockEventType.OB_MITIGATED events <> None
  | BlockStatus OrderBlockStatus.INVALIDATED =>
      time_of OrderBlockEventType.OB_VALIDATED events <> None /\ time_of OrderBlockEventType.OB_INVALIDATED events <> None
  | BreakerStatus BreakerBlockStatus.ACTIVE => time_of OrderBlockEventType.BREAKER_ACTIVATED events <> None
  | BreakerStatus BreakerBlockStatus.INVALIDATED =>
      time_of OrderBlockEventType.BREAKER_ACTIVATED events <> None
      /\ time_of OrderBlockEventType.BREAKER_INVALIDATED events <> None
  | _ => True
  end.
Proof.
  induction 1 as [e _ _ Hs | events last e s _ IH _ _ Hstep _]; [inversion Hs; done|].
  change (events ++ [last; e]) with (events ++ [last] ++ [e]). rewrite app_assoc.
  revert IH. generalize (events ++ [last]). intros evs IH.
  inversion Hstep; subst;
    repeat match goal with H : _ \/ _ |- _ => destruct H as [-> | ->] end; cbn in IH |- *; rewrite ?time_of_snoc;
    repeat match goal with H : _ = OrderBlockLifecycleEvent.type e |- _ => rewrite <-H; clear H end; cbn; naive_solver.
Qed.

Lemma recorded_later now now' id l s : now <= now' -> recorded now id l s -> recorded now' id l s.
Proof. intros Hle (events & last & -> & H & Ht). exists events, last. split_and!; [done..|lia]. Qed.

Lemma recorded_append now t id l s ev c to held : recorded now id l s -> now <= t -> zone_step ev s to ->
  recorded t id (l ++ [lifecycle_event ev id c t (Some s) to held]) to.
Proof.
  intros (events & last & -> & H & Ht) Hle Hstep. exists (events ++ [last]). eexists. split_and!; [done| |cbn; lia].
  rewrite <-app_assoc. cbn [app].
  match goal with |- zone_history _ (_ ++ [_; ?e]) ?s' => change s' with (OrderBlockLifecycleEvent.to_status e) end.
  eapply history_snoc; [exact H|done..|cbn; lia].
Qed.

Lemma recorded_created id ev c t s held : zone_start ev s -> recorded t id [lifecycle_event ev id c t None s held] s.
Proof.
  intros H. exists [], (lifecycle_event ev id c t None s held). split_and!; [done| |cbn; lia].
  match goal with |- zone_history _ [?e] ?s' => change s' with (OrderBlockLifecycleEvent.to_status e) end.
  by apply history_created.
Qed.

Lemma block_ok_later now now' z : now <= now' -> block_ok now z -> block_ok now' z.
Proof. intros Hle []. constructor; try done. by eapply recorded_later. Qed.

Lemma breaker_ok_later now now' b : now <= now' -> breaker_ok now b -> breaker_ok now' b.
Proof. intros Hle []. constructor; try done. by eapply recorded_later. Qed.

(** ** One bar of one block *)

(** What never changes of a block and of a breaker. *)
Definition block_frame (z : OB) : OB :=
  _OrderBlockState.set_life z OrderBlockStatus.CANDIDATE None None None None None [].
Definition breaker_frame (b : BB) : BB := _BreakerState.set_life b BreakerBlockStatus.CANDIDATE None None None [].

(** The breaker [b] that the block [z] left. *)
Definition breaker_of (z : OB) (b : BB) : Prop :=
  _OrderBlockState.status z = OrderBlockStatus.INVALIDATED
  /\ _OrderBlockState.breaker_zone_id z = Some (_BreakerState.zone_id b)
  /\ _BreakerState.origin_order_block_id b = _OrderBlockState.zone_id z
  /\ _BreakerState.direction b = opposite (_OrderBlockState.direction z)
  /\ _BreakerState.zone_low b = _OrderBlockState.zone_low z
  /\ _BreakerState.zone_high b = _OrderBlockState.zone_high z
  /\ _BreakerState.mean_threshold b = _OrderBlockState.mean_threshold z
  /\ Some (_BreakerState.created_at b) = _OrderBlockState.invalidated_at z.

Section bar.
Context (config : OrderBlockConfig) (i : nat) (c : Candle) (t : datetime).

Lemma update_candidate_ok now z : block_ok now z -> now <= t ->
  _OrderBlockState.status z = OrderBlockStatus.CANDIDATE ->
  block_ok t (update_candidate config z i c t) /\ block_frame (update_candidate config z i c t) = block_frame z
  /\ _OrderBlockState.breaker_zone_id (update_candidate config z i c t) = _OrderBlockState.breaker_zone_id z.
Proof.
  intros Hz Hle Hs. pose proof Hz as [H1 H2 H3 H4 H5 H6 H7]. rewrite Hs in H1, H6. unfold update_candidate.
  destruct (_validation_passes config z c); [|destruct (_ <=? _)].
  - split; [|done]. constructor; cbn; rewrite ?Hs, ?time_of_snoc; cbn; try done; try (by apply first_time_snoc).
    + eapply recorded_append; [done..|constructor].
    + naive_solver.
  - split; [|done]. constructor; cbn; rewrite ?Hs, ?time_of_snoc; cbn; try done; try (by apply first_time_snoc).
    + eapply recorded_append; [done..|constructor].
    + naive_solver.
  - split; [|done]. by eapply block_ok_later.
Qed.

(** The mitigation, when it happens, and then the expiry. *)
Lemma observe_zone_ok now z k : block_ok now z -> now <= t ->
  _OrderBlockState.status z = OrderBlockStatus.VALIDATED \/ _OrderBlockState.status z = OrderBlockStatus.MITIGATED ->
  block_ok t (observe_zone config z k i c t) /\ block_frame (observe_zone config z k i c t) = block_frame z
  /\ _OrderBlockState.breaker_zone_id (observe_zone config z k i c t) = _OrderBlockState.breaker_zone_id z.
Proof.
  intros Hz Hle Hs. unfold observe_zone. cbv zeta.
  set (z1 := if _ && _ && _ then _ else z).
  assert (block_ok t z1 /\ block_frame z1 = block_frame z
    /\ _OrderBlockState.breaker_zone_id z1 = _OrderBlockState.breaker_zone_id z) as (H1 & H2 & H3).
  { unfold z1. destruct (_ && _ && _) eqn:E; [|by split; [eapply block_ok_later|]].
    bool_hyps. destruct Hz as [G1 G2 G3 G4 G5 G6 G7]. split; [|done].
    match goal with H : _ = OrderBlockStatus.VALIDATED |- _ => rename H into Hv end. rewrite Hv in G1, G6.
    constructor; cbn; rewrite ?Hv, ?time_of_snoc; cbn; try done; try (by apply first_time_snoc).
    - eapply recorded_append; [done..|constructor].
    - naive_solver. }
  clearbody z1. destruct (_ && _) eqn:E; [|done]. bool_hyps. rewrite <-H2, <-H3. split; [|done].
  destruct H1 as [G1 G2 G3 G4 G5 G6 G7].
  assert (_OrderBlockState.status z1 = OrderBlockStatus.VALIDATED \/ _OrderBlockState.status z1 = OrderBlockStatus.MITIGATED) as Hs1.
  { match goal with H : (_ || _)%bool = true |- _ => apply orb_true_iff in H as [H|H]; apply bool_decide_eq_true in H end; auto. }
  constructor; cbn; rewrite ?time_of_snoc; cbn; try done; try (by apply first_time_snoc).
  - eapply recorded_append; [done..| by constructor].
  - intros Hb%G6. destruct Hs1; congruence.
Qed.

(** One bar never fails on a block: it keeps what identifies the block, and
    makes a breaker exactly when it sets the block's breaker. *)
Lemma update_order_block_ok now z : block_ok now z -> now <= t ->
  exists z' born, update_order_block config i c t z = Ok (z', born) /\ block_ok t z' /\ block_frame z' = block_frame z
  /\ match born with
     | Some b => breaker_ok t b /\ breaker_of z' b /\ _BreakerState.created_bar_index b = i
         /\ _BreakerState.status b = BreakerBlockStatus.CANDIDATE
     | None => _OrderBlockState.breaker_zone_id z' = _OrderBlockState.breaker_zone_id z
     end.
Proof.
  intros Hz Hle. unfold update_order_block.
  destruct (_ || _) eqn:E1; [eexists _, _; split_and!; [done|by eapply block_ok_later|done..]|].
  destruct (bool_decide _) eqn:E2; bool_hyps.
  { destruct (update_candidate_ok now z) as (H1 & H2 & H3); [done..|]. eexists _, _. split_and!; done. }
  pose proof Hz as [G1 G2 G3 G4 G5 G6 G7].
  assert (_OrderBlockState.status z = OrderBlockStatus.VALIDATED \/ _OrderBlockState.status z = OrderBlockStatus.MITIGATED) as Hs.
  { unfold _OrderBlockState.terminal in *. destruct (_OrderBlockState.status z); naive_solver. }
  assert (exists v, _OrderBlockState.validated_at z = Some v) as [v Hv].
  { apply not_eq_None_Some. rewrite G2. destruct G1 as (ev & l & _ & Hh%history_reached & _). destruct Hs as [Hs|Hs]; rewrite Hs in Hh; tauto. }
  destruct (_OrderBlockState.validation_bar_index z) as [k|] eqn:Hk; [|naive_solver]. rewrite Hv.
  destruct (_ <=? _); [eexists _, _; split_and!; [done|by eapply block_ok_later|done..]|].
  destruct (_hard_invalidation _ _ _ _ _).
  2: { destruct (observe_zone_ok now z k) as (H1 & H2 & H3); [done..|]. eexists _, _. split_and!; done. }
  destruct (OrderBlockConfig.breaker_enabled config).
  - eexists _, _. split; [reflexivity|]. split_and!; try done.
    + constructor; cbn; rewrite ?time_of_snoc; cbn; try done; try (by apply first_time_snoc); [|by rewrite Hk, Hv].
      eapply recorded_append; [done..| by constructor].
    + constructor; cbn; try done; try (by apply first_time_snoc). apply recorded_created. constructor.
  - eexists _, _. split; [reflexivity|]. split_and!; try done.
    constructor; cbn; rewrite ?time_of_snoc; cbn; try done; try (by apply first_time_snoc); [|by rewrite Hk, Hv].
    eapply recorded_append; [done..| by constructor].
Qed.

Lemma update_breaker_ok now b : breaker_ok now b -> now <= t ->
  exists b', update_breaker config i c t b = Ok b' /\ breaker_ok t b' /\ breaker_frame b' = breaker_frame b.
Proof.
  intros Hb Hle. unfold update_breaker.
  destruct (_BreakerState.terminal b) eqn:E1; [eexists; split_and!; [done|by eapply breaker_ok_later|done]|].
  pose proof Hb as [G1 G2 G3 G4 G5].
  destruct (bool_decide _) eqn:E2; bool_hyps.
  { match goal with H : _ = BreakerBlockStatus.CANDIDATE |- _ => rename H into Hs end. rewrite Hs in G1.
    destruct (_ <=? _)%nat; [eexists; split_and!; [done|by eapply breaker_ok_later|done]|].
    destruct (overlaps _ _ _ && _); [|destruct (_ <? _)].
    - eexists. split_and!; [done| |done]. constructor; cbn; rewrite ?Hs, ?time_of_snoc; cbn; try done; try (by apply first_time_snoc).
      eapply recorded_append; [done..|constructor].
    - eexists. split_and!; [done| |done]. constructor; cbn; rewrite ?Hs, ?time_of_snoc; cbn; try done; try (by apply first_time_snoc).
      eapply recorded_append; [done..|constructor].
    - eexists. split_and!; [done|by eapply breaker_ok_later|done]. }
  assert (_BreakerState.status b = BreakerBlockStatus.ACTIVE) as Hs.
  { unfold _BreakerState.terminal in *. by destruct (_BreakerState.status b). }
  destruct (_BreakerState.activation_bar_index b) as [k|] eqn:Hk.
  2: { exfalso. destruct G1 as (ev & l & _ & Hh%history_reached & _). rewrite Hs, <-G2 in Hh. by apply Hh, G4. }
  destruct (_ <=? _)%nat; [eexists; split_and!; [done|by eapply breaker_ok_later|done]|].
  destruct (_hard_invalidation _ _ _ _ _); [|eexists; split_and!; [done|by eapply breaker_ok_later|done]].
  rewrite Hs in G1. eexists. split_and!; [done| |done].
  constructor; cbn; rewrite ?Hs, ?time_of_snoc; cbn; try done; try (by apply first_time_snoc); [|by rewrite Hk].
  eapply recorded_append; [done..|constructor].
Qed.
End bar.

(** ** Independent lives *)

Section lives.
Context (timeframe : Timeframe) (config : OrderBlockConfig).

(** What one bar makes of a block by itself, and the breaker it leaves. *)
Definition block_result (bar : nat * Candle) (z : OB) : OB * option BB :=
  match update_order_block config (fst bar) (snd bar) (Candle.timestamp (snd bar) + timeframe_duration timeframe) z with
  | Ok r => r
  | Raise _ => (z, None)
  end.
Definition block_next (bar : nat * Candle) (z : OB) : OB := fst (block_result bar z).
Definition block_born (bar : nat * Candle) (z : OB) : option BB := snd (block_result bar z).
Definition breaker_next (bar : nat * Candle) (b : BB) : BB :=
  match update_breaker config (fst bar) (snd bar) (Candle.timestamp (snd bar) + timeframe_duration timeframe) b with
  | Ok b' => b'
  | Raise _ => b
  end.

(** The lives of a block and of a breaker over [bars]. *)
Definition block_after (bars : list (nat * Candle)) (z : OB) : OB := foldl (fun z bar => block_next bar z) z bars.
Definition breaker_after (bars : list (nat * Candle)) (b : BB) : BB := foldl (fun b bar => breaker_next bar b) b bars.

(** The breakers the blocks leave, bar by bar and in the order of the blocks. *)
Fixpoint births (zs : list OB) (bars : list (nat * Candle)) : list BB :=
  match bars with
  | [] => []
  | bar :: rest => omap (block_born bar) zs ++ births (map (block_next bar) zs) rest
  end.

Lemma block_after_snoc bars bar z : block_after (bars ++ [bar]) z = block_next bar (block_after bars z).
Proof. unfold block_after. by rewrite foldl_app. Qed.

Lemma breaker_after_snoc bars bar b : breaker_after (bars ++ [bar]) b = breaker_next bar (breaker_after bars b).
Proof. unfold breaker_after. by rewrite foldl_app. Qed.

Lemma births_snoc zs bars bar : births zs (bars ++ [bar]) = births zs bars ++ omap (block_born bar) (map (block_after bars) zs).
Proof.
  revert zs. induction bars as [|b bars IH]; intros zs; cbn.
  - rewrite app_nil_r. f_equal. by rewrite map_id.
  - rewrite IH, <-app_assoc. do 2 f_equal. by rewrite map_map.
Qed.

(** A bar changes neither a block that is not there yet nor one that ended. *)
Lemma block_result_idle bar z : (fst bar < _OrderBlockState.created_bar_index z)%nat \/ _OrderBlockState.terminal z = true ->
  block_result bar z = (z, None).
Proof.
  intros H. unfold block_result, update_order_block.
  destruct (Nat.ltb_spec (fst bar) (_OrderBlockState.created_bar_index z)); cbn; [done|].
  destruct H as [H|H]; [lia|]. by rewrite H.
Qed.

Lemma breaker_next_ended bar b : _BreakerState.terminal b = true -> breaker_next bar b = b.
Proof. intros H. unfold breaker_next, update_breaker. by rewrite H. Qed.

(** A breaker waits at least for the bar after its creation. *)
Lemma breaker_after_early bars b : _BreakerState.status b = BreakerBlockStatus.CANDIDATE ->
  Forall (fun bar => (fst bar <= _BreakerState.created_bar_index b)%nat) bars -> breaker_after bars b = b.
Proof.
  intros Hs. induction bars as [|bar bars IH] using rev_ind; intros Hb; [done|].
  apply Forall_app in Hb as [Hb Hbar%Forall_inv]. rewrite breaker_after_snoc, IH by done.
  unfold breaker_next, update_breaker, _BreakerState.terminal. rewrite Hs, bool_decide_eq_true_2 by done.
  by rewrite (proj2 (Nat.leb_le _ _) Hbar).
Qed.
End lives.

(** ** Work on a store of blocks, position by position *)

Section store.
Context (config : OrderBlockConfig) (timeframe : Timeframe) (i : nat) (c : Candle).
Let t := Candle.timestamp c + timeframe_duration timeframe.

Lemma update_active_blocks ps bs brs act : StronglySorted lt ps ->
  (forall p z, p ∈ ps -> bs !! p = Some z -> exists r, update_order_block config i c t z = Ok r) ->
  exists bs', py_fold (update_active_block config i c t) (bs, brs, act) ps =
      Ok (bs', brs ++ omap (fun p => bs !! p ≫= block_born timeframe config (i, c)) ps,
          act ++ seq (length brs) (length (omap (fun p => bs !! p ≫= block_born timeframe config (i, c)) ps)))
    /\ stepped (block_next timeframe config (i, c)) ps bs bs'.
Proof.
  revert bs brs act. induction ps as [|p ps IH]; intros bs brs act Hs Hok.
  { exists bs. cbn. rewrite !app_nil_r. split; [done|]. apply stepped_nil. }
  apply StronglySorted_inv in Hs as [Hs Hp]. rewrite Forall_forall in Hp.
  assert (p ∉ ps) as Hnin by (intros H%Hp; lia).
  cbn [py_fold]. unfold update_active_block at 1. destruct (bs !! p) as [z|] eqn:Ez.
  - destruct (Hok p z) as [[z' born] Hr]; [by left|done|]. rewrite Hr. cbn [mbind pyres_bind].
    assert (block_result timeframe config (i, c) z = (z', born)) as Er.
    { unfold block_result. cbn [fst snd]. fold t. by rewrite Hr. }
    assert (z' = block_next timeframe config (i, c) z) as -> by (unfold block_next; by rewrite Er).
    assert (forall q, q ∈ ps -> <[p:=block_next timeframe config (i, c) z]> bs !! q = bs !! q) as Hsame.
    { intros q Hq. rewrite list_lookup_insert_ne; [done|]. intros ->. done. }
    edestruct (IH (<[p:=block_next timeframe config (i, c) z]> bs)) as (bs' & E & Hbs'); [done| |rewrite E].
    { intros q y Hq. rewrite Hsame by done. apply Hok. by right. }
    assert (omap (fun q => <[p:=block_next timeframe config (i, c) z]> bs !! q ≫= block_born timeframe config (i, c)) ps
      = omap (fun q => bs !! q ≫= block_born timeframe config (i, c)) ps) as ->.
    { apply omap_ext_in. intros q Hq. by rewrite Hsame. }
    exists bs'. split; [|by eapply stepped_cons].
    f_equal. cbn [omap list_omap]. rewrite Ez. cbn [mbind option_bind].
    replace (block_born timeframe config (i, c) z) with born by (unfold block_born; by rewrite Er).
    destruct born; cbn [length]; rewrite <-?app_assoc; [|done].
    rewrite length_app, Nat.add_1_r. done.
  - edestruct (IH bs) as (bs' & E & Hbs'); [done| |rewrite E].
    { intros q y Hq. apply Hok. by right. }
    exists bs'. split; [cbn [omap list_omap]; by rewrite Ez | by apply stepped_absent].
Qed.

Lemma update_active_breakers ps bs : StronglySorted lt ps ->
  (forall p b, p ∈ ps -> bs !! p = Some b -> exists b', update_breaker config i c t b = Ok b') ->
  exists bs', py_fold (update_active_breaker config i c t) bs ps = Ok bs'
    /\ stepped (breaker_next timeframe config (i, c)) ps bs bs'.
Proof.
  revert bs. induction ps as [|p ps IH]; intros bs Hs Hok; [exists bs; split; [done|apply stepped_nil]|].
  apply StronglySorted_inv in Hs as [Hs Hp]. rewrite Forall_forall in Hp.
  assert (p ∉ ps) as Hnin by (intros H%Hp; lia).
  cbn [py_fold]. unfold update_active_breaker at 1. destruct (bs !! p) as [b|] eqn:Eb.
  - destruct (Hok p b) as [b' Hr]; [by left|done|]. rewrite Hr. cbn [mbind pyres_bind].
    assert (b' = breaker_next timeframe config (i, c) b) as ->.
    { unfold breaker_next. cbn [fst snd]. fold t. by rewrite Hr. }
    edestruct (IH (<[p:=breaker_next timeframe config (i, c) b]> bs)) as (bs' & E & Hbs'); [done| |rewrite E].
    { intros q y Hq. rewrite list_lookup_insert_ne by (intros ->; done). apply Hok. by right. }
    exists bs'. split; [done|by eapply stepped_cons].
  - edestruct (IH bs) as (bs' & E & Hbs'); [done| |rewrite E].
    { intros q y Hq. apply Hok. by right. }
    exists bs'. split; [done|by apply stepped_absent].
Qed.
End store.

(** ** The schedule *)

Lemma schedule_spec zs n : default [] (schedule zs !! n) =
  List.filter (fun p => match zs !! p with Some z => (_OrderBlockState.created_bar_index z =? n)%nat | None => false end)
    (seq 0 (length zs)).
Proof.
  induction zs as [|z zs IH] using rev_ind; [unfold schedule; cbn; by rewrite lookup_empty|].
  unfold schedule. rewrite enumerate_app, foldl_app. cbn [foldl]. fold (schedule zs).
  rewrite length_app, Nat.add_1_r, seq_S, List.filter_app. cbn [Nat.add List.filter].
  rewrite lookup_app_r, Nat.sub_diag by lia. cbn [lookup list_lookup].
  assert (List.filter (fun p => match (zs ++ [z]) !! p with
      Some z => (_OrderBlockState.created_bar_index z =? n)%nat | None => false end) (seq 0 (length zs))
    = default [] (schedule zs !! n)) as ->.
  { rewrite IH. apply filter_ext_in. intros p Hp%in_seq. by rewrite lookup_app_l by lia. }
  destruct (Nat.eqb_spec (_OrderBlockState.created_bar_index z) n) as [->|Hne].
  - by rewrite lookup_insert_eq.
  - by rewrite lookup_insert_ne, app_nil_r by done.
Qed.

(** ** The replay is the independent lives *)

(** A block as its creation leaves it, on its bar. *)
Definition created_ok (timeframe : Timeframe) (candles : list Candle) (z : OB) : Prop :=
  (exists c, candles !! _OrderBlockState.created_bar_index z = Some c
     /\ _OrderBlockState.created_at z = Candle.timestamp c + timeframe_duration timeframe)
  /\ block_ok (_OrderBlockState.created_at z) z
  /\ _OrderBlockState.status z = OrderBlockStatus.CANDIDATE
  /\ _OrderBlockState.breaker_zone_id z = None.

Section replay.
Context (timeframe : Timeframe) (config : OrderBlockConfig) (candles : list Candle) (zs : list OB).
Hypothesis Hspaced : evenly_spaced timeframe candles.

Let bars n := take n (enumerate candles).

(** The instant at which bar [n] opens. *)
Definition clock (n : nat) : datetime :=
  match candles with [] => 0 | c :: _ => Candle.timestamp c + Z.of_nat n * timeframe_duration timeframe end.

Lemma clock_open n c : candles !! n = Some c -> Candle.timestamp c = clock n.
Proof.
  intros H. unfold clock. destruct candles as [|c0 l] eqn:E; [done|].
  pose proof (evenly_spaced_nth timeframe candles 0 n c0 c) as Hn. rewrite E in Hn.
  specialize (Hn Hspaced eq_refl H). lia.
Qed.

Lemma clock_close n c : candles !! n = Some c -> Candle.timestamp c + timeframe_duration timeframe = clock (S n).
Proof.
  intros H. rewrite (clock_open n c H). unfold clock. destruct candles; [done|]. lia.
Qed.

Lemma clock_mono m n : (m <= n)%nat -> clock m <= clock n.
Proof. intros H. unfold clock. pose proof (timeframe_duration_pos timeframe). destruct candles; [lia|]. nia. Qed.

Lemma bars_S n c : candles !! n = Some c -> bars (S n) = bars n ++ [(n, c)].
Proof.
  intros H. unfold bars. apply take_S_r. by rewrite enumerate_lookup, H.
Qed.

Hypothesis Hcreated : Forall (created_ok timeframe candles) zs.

Lemma created_clock z : z ∈ zs -> _OrderBlockState.created_at z = clock (S (_OrderBlockState.created_bar_index z)).
Proof.
  intros Hz. pose proof (proj1 (Forall_forall _ _) Hcreated z Hz) as ((c & Hc & ->) & _). by apply clock_close.
Qed.

(** A block at bar [n]: its life so far never failed. *)
Lemma block_after_ok n z : z ∈ zs -> (n <= length candles)%nat ->
  let z' := block_after timeframe config (bars n) z in
  block_frame z' = block_frame z
  /\ block_ok (Z.max (clock n) (_OrderBlockState.created_at z)) z'
  /\ ((n <= _OrderBlockState.created_bar_index z)%nat -> z' = z).
Proof.
  intros Hz. induction n as [|n IH]; intros Hn.
  { cbn. unfold bars. cbn. pose proof (proj1 (Forall_forall _ _) Hcreated z Hz) as (_ & Hok & _).
    split_and!; [done| |done]. eapply block_ok_later; [|exact Hok]. lia. }
  destruct (lookup_lt_is_Some_2 candles n) as [c Hc]; [lia|]. destruct IH as (Hf & Hok & Hearly); [lia|].
  cbv zeta. rewrite (bars_S n c Hc), block_after_snoc. pose proof (clock_mono n (S n)).
  destruct (decide (n < _OrderBlockState.created_bar_index z)%nat) as [Hlt|Hge].
  - rewrite (Hearly ltac:(lia)). unfold block_next. rewrite block_result_idle by (by left). cbn [fst].
    split_and!; [done| |done]. rewrite (Hearly ltac:(lia)) in Hok. eapply block_ok_later; [|exact Hok]. lia.
  - pose proof (created_clock z Hz) as Hcl.
    pose proof (clock_mono (S (_OrderBlockState.created_bar_index z)) (S n)).
    destruct (update_order_block_ok config n c (clock (S n)) _ _ Hok) as (z' & born & Hr & Hok' & Hf' & _); [lia|].
    unfold block_next, block_result. cbn [fst snd]. rewrite (clock_close n c Hc), Hr. cbn [fst].
    split_and!; [congruence| |lia]. eapply block_ok_later; [|exact Hok']. lia.
Qed.

Lemma block_step_ok n c z : z ∈ zs -> candles !! n = Some c ->
  exists r, update_order_block config n c (Candle.timestamp c + timeframe_duration timeframe)
    (block_after timeframe config (bars n) z) = Ok r.
Proof.
  intros Hz Hc. pose proof (lookup_lt_Some _ _ _ Hc).
  destruct (block_after_ok n z Hz) as (Hf & Hok & Hearly); [lia|]. pose proof (clock_mono n (S n)).
  destruct (decide (n < _OrderBlockState.created_bar_index z)%nat) as [Hlt|Hge].
  - rewrite (Hearly ltac:(lia)). unfold update_order_block.
    rewrite (proj2 (Nat.ltb_lt _ _) Hlt). cbn. eauto.
  - pose proof (created_clock z Hz) as Hcl.
    pose proof (clock_mono (S (_OrderBlockState.created_bar_index z)) (S n)).
    destruct (update_order_block_ok config n c (clock (S n)) _ _ Hok) as (z' & born & Hr & _); [lia|].
    rewrite (clock_close n c Hc). eauto.
Qed.

(** What a bar leaves, when it leaves a breaker. *)
Lemma block_born_ok n c z b : z ∈ zs -> candles !! n = Some c ->
  block_born timeframe config (n, c) (block_after timeframe config (bars n) z) = Some b ->
  breaker_ok (clock (S n)) b /\ breaker_of (block_after timeframe config (bars (S n)) z) b
  /\ _BreakerState.created_bar_index b = n /\ _BreakerState.status b = BreakerBlockStatus.CANDIDATE.
Proof.
  intros Hz Hc Hb. pose proof (lookup_lt_Some _ _ _ Hc).
  destruct (block_after_ok n z Hz) as (Hf & Hok & Hearly); [lia|]. pose proof (clock_mono n (S n)).
  rewrite (bars_S n c Hc), block_after_snoc. unfold block_born, block_next in *.
  destruct (decide (n < _OrderBlockState.created_bar_index z)%nat) as [Hlt|Hge].
  - rewrite (Hearly ltac:(lia)), block_result_idle in Hb by (by left). done.
  - pose proof (created_clock z Hz) as Hcl.
    pose proof (clock_mono (S (_OrderBlockState.created_bar_index z)) (S n)).
    destruct (update_order_block_ok config n c (clock (S n)) _ _ Hok) as (z' & born & Hr & _ & _ & Hborn); [lia|].
    unfold block_result in *. cbn [fst snd] in *. rewrite (clock_close n c Hc), Hr in *. cbn [fst snd] in *.
    by subst born.
Qed.

(** ** The work lists *)

Let blocks n : list OB := map (block_after timeframe config (bars n)) zs.
Let born n : list BB := births timeframe config zs (bars n).
Let breakers n : list BB := map (breaker_after timeframe config (bars n)) (born n).

(** A block of the archive that bar [n] still has to look at. *)
Definition scheduled (n p : nat) : bool :=
  match zs !! p with Some z => (_OrderBlockState.created_bar_index z <? n)%nat | None => false end.

Record sim (n : nat) (st : OrderBlockReplay) : Prop := {
  sim_blocks : OrderBlockReplay.order_blocks st = blocks n;
  sim_breakers : OrderBlockReplay.breakers st = breakers n;
  sim_future : forall k, (n <= k)%nat -> OrderBlockReplay.future_order_blocks st !! k = schedule zs !! k;
  sim_active : OrderBlockReplay.active_order_blocks st =
    List.filter (fun p => scheduled n p && block_alive (blocks n) p) (seq 0 (length zs));
  sim_active_breakers : OrderBlockReplay.active_breakers st = List.filter (breaker_alive (breakers n)) (seq 0 (length (breakers n)))
}.

Lemma born_ok n : (n <= length candles)%nat ->
  Forall (fun b => breaker_ok (clock (S (_BreakerState.created_bar_index b))) b
    /\ _BreakerState.status b = BreakerBlockStatus.CANDIDATE /\ (_BreakerState.created_bar_index b < n)%nat) (born n).
Proof.
  induction n as [|n IH]; intros Hn; [constructor|].
  destruct (lookup_lt_is_Some_2 candles n) as [c Hc]; [lia|].
  unfold born. rewrite (bars_S n c Hc), births_snoc. apply Forall_app. split.
  - eapply Forall_impl; [apply IH; lia|]. cbn. intros b (H1 & H2 & H3). split_and!; [done..|lia].
  - apply Forall_forall. intros b (z & Hz & Hb)%list_elem_of_omap.
    apply list_elem_of_fmap in Hz as (z0 & -> & Hz0).
    destruct (block_born_ok n c z0 b Hz0 Hc Hb) as (H1 & _ & H3 & H4). rewrite H3. split_and!; [done..|lia].
Qed.

(** A breaker at bar [n]: its life so far never failed. *)
Lemma breaker_after_ok n b : (n <= length candles)%nat ->
  breaker_ok (clock (S (_BreakerState.created_bar_index b))) b -> _BreakerState.status b = BreakerBlockStatus.CANDIDATE ->
  let b' := breaker_after timeframe config (bars n) b in
  breaker_frame b' = breaker_frame b
  /\ breaker_ok (Z.max (clock n) (clock (S (_BreakerState.created_bar_index b)))) b'
  /\ ((n <= S (_BreakerState.created_bar_index b))%nat -> b' = b).
Proof.
  intros Hn Hb Hs. induction n as [|n IH]; [split_and!; [done|eapply breaker_ok_later; [|exact Hb]; lia|done]|].
  assert ((S n <= S (_BreakerState.created_bar_index b))%nat ->
    breaker_after timeframe config (bars (S n)) b = b) as Hearly.
  { intros Hle. apply breaker_after_early; [done|]. apply Forall_forall. intros [k c] Hk%elem_of_enumerate_lt. cbn. lia. }
  destruct (lookup_lt_is_Some_2 candles n) as [c Hc]; [lia|]. destruct IH as (Hf & Hok & _); [lia|].
  cbv zeta. split_and!; [| |done]; (destruct (decide (S n <= S (_BreakerState.created_bar_index b))%nat) as [Hle|Hgt];
    [rewrite Hearly by done; done || (eapply breaker_ok_later; [|exact Hb]; lia)|]);
    rewrite (bars_S n c Hc), breaker_after_snoc; pose proof (clock_mono n (S n));
    pose proof (clock_mono (S (_BreakerState.created_bar_index b)) n);
    destruct (update_breaker_ok config n c (clock (S n)) _ _ Hok) as (b' & Hr & Hok' & Hf'); [lia| |lia|];
    unfold breaker_next; cbn [fst snd]; rewrite (clock_close n c Hc), Hr; [congruence|].
  eapply breaker_ok_later; [|exact Hok']. lia.
Qed.

Lemma breaker_step_ok n c b : candles !! n = Some c -> b ∈ breakers n \/ _BreakerState.created_bar_index b = n
    /\ _BreakerState.status b = BreakerBlockStatus.CANDIDATE ->
  exists b', update_breaker config n c (Candle.timestamp c + timeframe_duration timeframe) b = Ok b'.
Proof.
  intros Hc Hb. pose proof (lookup_lt_Some _ _ _ Hc). destruct Hb as [Hb|[Hcr Hs]].
  - apply list_elem_of_fmap in Hb as (b0 & -> & Hb0).
    pose proof (proj1 (Forall_forall _ _) (born_ok n ltac:(lia)) _ Hb0) as (H1 & H2 & H3).
    destruct (breaker_after_ok n b0) as (_ & Hok & _); [lia|done..|].
    pose proof (clock_mono n (S n)). pose proof (clock_mono (S (_BreakerState.created_bar_index b0)) n).
    destruct (update_breaker_ok config n c (clock (S n)) _ _ Hok) as (b' & Hr & _); [lia|].
    rewrite (clock_close n c Hc). eauto.
  - unfold update_breaker, _BreakerState.terminal. rewrite Hs, Hcr, bool_decide_eq_true_2, (proj2 (Nat.leb_le n n)) by (done || lia).
    eauto.
Qed.

Lemma blocks_lookup n p : blocks n !! p = block_after timeframe config (bars n) <$> zs !! p.
Proof. apply list_lookup_fmap. Qed.

(** The blocks bar [n] visits are those it can change. *)
Lemma unvisited_idle n c p z : candles !! n = Some c -> blocks n !! p = Some z ->
  scheduled n p && block_alive (blocks n) p || match zs !! p with
    Some z => (_OrderBlockState.created_bar_index z =? n)%nat | None => false end = false ->
  block_result timeframe config (n, c) z = (z, None).
Proof.
  intros Hc Hz H. apply block_result_idle. unfold block_alive, scheduled in H. rewrite Hz in H.
  rewrite blocks_lookup in Hz. apply fmap_Some in Hz as (z0 & Hz0 & ->). rewrite Hz0 in H.
  pose proof (lookup_lt_Some _ _ _ Hc).
  destruct (block_after_ok n z0) as (Hf & _ & _); [by eapply list_elem_of_lookup_2|lia|].
  assert (_OrderBlockState.created_bar_index (block_after timeframe config (bars n) z0)
    = _OrderBlockState.created_bar_index z0) as -> by (by injection Hf).
  apply orb_false_iff in H as [H1 H2]. apply Nat.eqb_neq in H2. cbn [fst].
  apply andb_false_iff in H1 as [H1|H1]; [left; apply Nat.ltb_ge in H1; lia | right; by apply negb_false_iff].
Qed.

Lemma sim_step n c st : candles !! n = Some c -> sim n st ->
  exists st', replay_step timeframe config st (n, c) = Ok st' /\ sim (S n) st'.
Proof.
  intros Hc [S1 S2 S3 S4 S5]. pose proof (lookup_lt_Some _ _ _ Hc) as Hlt. unfold replay_step.
  rewrite S1, S2, S4, S5, (S3 n) by lia. rewrite schedule_spec, sort_positions.
  2: { intros p Hp%andb_true_iff. destruct Hp as [Hp _]. unfold scheduled in Hp. destruct (zs !! p) as [z|]; [|done].
       apply Nat.eqb_neq. apply Nat.ltb_lt in Hp. lia. }
  set (visit := fun p => scheduled n p && block_alive (blocks n) p || _).
  assert (length (blocks n) = length zs) as Hlen by apply length_map.
  edestruct (update_active_blocks config timeframe n c (List.filter visit (seq 0 (length zs))) (blocks n) (breakers n))
    as (bs' & E & Hst); [apply filter_seq_sorted| |rewrite E; clear E].
  { intros p z Hp Hz. rewrite blocks_lookup in Hz. apply fmap_Some in Hz as (z0 & Hz0 & ->).
    apply block_step_ok; [by eapply list_elem_of_lookup_2|done]. }
  cbn [mbind pyres_bind].
  assert (bs' = blocks (S n)) as ->.
  { rewrite (stepped_all _ _ _ _ Hst).
    - unfold blocks. rewrite (bars_S n c Hc), map_map. apply map_ext. intros z. by rewrite block_after_snoc.
    - intros p z Hz Hp. unfold block_next. rewrite (unvisited_idle n c p z Hc Hz); [done|].
      apply not_true_is_false. intros Hv. apply Hp, list_elem_of_In, filter_In. split; [|exact Hv].
      apply in_seq. apply lookup_lt_Some in Hz. lia. }
  rewrite <-Hlen, omap_positions; [|intros p z Hz Hp; unfold block_born; by rewrite (unvisited_idle n c p z Hc Hz)].
  set (new := omap (block_born timeframe config (n, c)) (blocks n)).
  assert (Forall (fun b => _BreakerState.created_bar_index b = n /\ _BreakerState.status b = BreakerBlockStatus.CANDIDATE) new) as Hnew.
  { apply Forall_forall. intros b (z & Hz & Hb)%list_elem_of_omap. apply list_elem_of_fmap in Hz as (z0 & -> & Hz0).
    by destruct (block_born_ok n c z0 b Hz0 Hc Hb) as (_ & _ & H3 & H4). }
  assert (breakers (S n) = map (breaker_next timeframe config (n, c)) (breakers n ++ new)) as Hbreakers.
  { unfold breakers, born. rewrite (bars_S n c Hc), births_snoc, map_app.
    fold (born n). fold (blocks n). fold new. rewrite map_app, map_map. f_equal.
    - apply map_ext. intros b. by rewrite breaker_after_snoc.
    - apply map_ext_in. intros b Hb%list_elem_of_In. rewrite breaker_after_snoc. f_equal.
      rewrite Forall_forall in Hnew. destruct (Hnew b Hb) as [Hcr Hs]. apply breaker_after_early; [done|].
      apply Forall_forall. intros [k d] Hk%elem_of_enumerate_lt. cbn. lia. }
  assert (List.filter (breaker_alive (breakers n)) (seq 0 (length (breakers n))) ++ seq (length (breakers n)) (length new)
    = List.filter (breaker_alive (breakers n ++ new)) (seq 0 (length (breakers n ++ new)))) as Hact.
  { rewrite length_app, seq_app, List.filter_app. cbn [Nat.add]. f_equal.
    - apply filter_ext_in. intros p Hp%in_seq. unfold breaker_alive. by rewrite lookup_app_l by lia.
    - symmetry. apply list_filter_all. intros p Hp%list_elem_of_In%in_seq. unfold breaker_alive.
      rewrite lookup_app_r by lia. destruct (lookup_lt_is_Some_2 new (p - length (breakers n))) as [b Hb]; [lia|].
      rewrite Hb. rewrite Forall_lookup in Hnew. destruct (Hnew _ _ Hb) as [_ Hs].
      unfold _BreakerState.terminal. by rewrite Hs. }
  rewrite Hact.
  edestruct (update_active_breakers config timeframe n c
    (List.filter (breaker_alive (breakers n ++ new)) (seq 0 (length (breakers n ++ new)))) (breakers n ++ new))
    as (bs'' & E & Hst'); [apply filter_seq_sorted| |rewrite E; clear E].
  { intros p b _ Hb. apply (breaker_step_ok n c b Hc). apply list_elem_of_lookup_2, elem_of_app in Hb as [Hb|Hb]; [by left|].
    right. rewrite Forall_forall in Hnew. by apply Hnew. }
  cbn [mbind pyres_bind]. eexists. split; [reflexivity|].
  assert (bs'' = breakers (S n)) as ->.
  { rewrite Hbreakers. apply (stepped_all _ _ _ _ Hst'). intros p b Hb Hp. apply breaker_next_ended.
    apply not_false_is_true. intros Hal. apply Hp, list_elem_of_In, filter_In.
    split; [apply in_seq; apply lookup_lt_Some in Hb; lia|]. unfold breaker_alive. by rewrite Hb, Hal. }
  constructor; cbn [OrderBlockReplay.order_blocks OrderBlockReplay.breakers OrderBlockReplay.future_order_blocks OrderBlockReplay.active_order_blocks
    OrderBlockReplay.active_breakers]; [done|done| | |].
  - intros k Hk. rewrite lookup_delete_ne by lia. apply S3. lia.
  - rewrite filter_andb, Hlen. apply filter_ext_in. intros p Hp%in_seq.
    destruct (lookup_lt_is_Some_2 zs p) as [z Hz]; [lia|].
    unfold visit, scheduled, block_alive. rewrite !blocks_lookup, Hz. cbn.
    rewrite (bars_S n c Hc), block_after_snoc.
    set (z' := block_after timeframe config (bars n) z).
    destruct (_OrderBlockState.terminal z') eqn:Et.
    + unfold block_next. rewrite block_result_idle by (by right). cbn. rewrite Et. cbn. by rewrite !andb_false_r.
    + destruct (_OrderBlockState.terminal (block_next _ _ _ _)); rewrite ?andb_false_r, ?andb_true_r; [done|].
      destruct (Nat.ltb_spec (_OrderBlockState.created_bar_index z) n),
        (Nat.eqb_spec (_OrderBlockState.created_bar_index z) n), (Nat.ltb_spec (_OrderBlockState.created_bar_index z) (S n));
        cbn; lia || done.
  - rewrite filter_andb. rewrite Hbreakers, length_map. apply filter_ext_in. intros p Hp%in_seq. rewrite <-Hbreakers.
    destruct (lookup_lt_is_Some_2 (breakers n ++ new) p) as [b Hb]; [lia|].
    unfold breaker_alive. rewrite Hbreakers, list_lookup_fmap, Hb. cbn.
    destruct (_BreakerState.terminal b) eqn:Et; [|done]. by rewrite breaker_next_ended, Et.
Qed.

(** The replay returns, with the archive of the independent lives. *)
Lemma replay_lives : exists final, replay timeframe config candles zs = Ok final /\ sim (length candles) final.
Proof.
  assert (forall n, (n <= length candles)%nat -> exists st,
    py_fold (replay_step timeframe config) (OrderBlockReplay.mkOrderBlockReplay zs [] (schedule zs) [] []) (bars n) = Ok st /\ sim n st) as H.
  { induction n as [|n IH]; intros Hn.
    - eexists. split; [reflexivity|]. constructor; cbn; try done.
      + unfold blocks. by rewrite map_id.
      + symmetry. apply list_filter_none. intros p _. unfold scheduled. by destruct (zs !! p).
    - destruct (lookup_lt_is_Some_2 candles n) as [c Hc]; [lia|]. destruct IH as (st & E & Hsim); [lia|].
      destruct (sim_step n c st Hc Hsim) as (st' & E' & Hsim'). exists st'. split; [|done].
      rewrite (bars_S n c Hc), py_fold_app, E. cbn [mbind pyres_bind py_fold]. by rewrite E'. }
  destruct (H (length candles)) as (st & E & Hsim); [lia|]. exists st. split; [|done].
  unfold replay. rewrite <-E. unfold bars. rewrite take_ge; [done|].
  unfold enumerate. rewrite length_zip, length_seq. lia.
Qed.
End replay.
