(* ===== verification/OrderBlocksResult.v ===== *)
(** Theorems on [analyze_order_blocks]: which blocks are created and from
    which candle, that the analysis returns the independent lives of
    [OrderBlocksTheory], that what it returns passes the schemas and follows
    the protocol, and that the context of a candidate is point-in-time. *)
From Stdlib Require Import ZArith QArith Lia Lqa Sorting.Sorted Sorting.Permutation.
From stdpp Require Import base list strings numbers sets gmap sorting.
From S2P Require Import Prelude Decimal Time Candle Indicators Structure Engine LiquidityTypes OrderBlocks OrderBlocksTheory.
Local Open Scope Z_scope.

(** ** Links and their order *)

Lemma displacement_by_structure_spec links ref : default [] (displacement_by_structure links !! ref) =
  List.filter (fun link => bool_decide (OrderBlockDisplacementLink.structure_event link = ref)) links.
Proof.
  induction links as [|link links IH] using rev_ind; [unfold displacement_by_structure; cbn; by rewrite lookup_empty|].
  unfold displacement_by_structure. rewrite foldl_app. cbn [foldl]. fold (displacement_by_structure links).
  rewrite List.filter_app, <-IH. cbn [List.filter].
  destruct (decide (OrderBlockDisplacementLink.structure_event link = ref)) as [->|Hne].
  - by rewrite lookup_insert_eq, bool_decide_eq_true_2.
  - by rewrite lookup_insert_ne, bool_decide_eq_false_2, app_nil_r.
Qed.

Lemma sorted_head_least {A} (lt : A -> A -> bool) `{!StrictWeak lt} l x rest y : sort_by lt l = x :: rest -> y ∈ l ->
  x ∈ l /\ lt y x = false.
Proof.
  intros E Hy. pose proof (sort_by_ordered lt l) as Hs. rewrite E in Hs. apply StronglySorted_inv in Hs as [_ Hs].
  assert (forall z, z ∈ l <-> z ∈ x :: rest) as Hin by (intros z; by rewrite <-E, elem_of_sort_by).
  split; [apply Hin; by left|]. apply Hin in Hy. apply elem_of_cons in Hy as [->|Hy]; [by apply (sw_irrefl lt)|].
  rewrite List.Forall_forall in Hs. by apply Hs, list_elem_of_In.
Qed.

(** ** Context *)

Section select.
Context (direction : OrderBlockDirection) (candles : list Candle) (swings : list ConfirmedSwing).
Context (pools : list LiquidityPool) (atr_result : option ATRResult) (config : OrderBlockConfig).

Lemma snapshot_total p cutoff : LiquidityPool.validate_pool p = true -> entries_ok p ->
  exists q, LiquidityPool.snapshot_at p cutoff = Ok q.
Proof.
  intros Hv He. destruct (snapshot_at_spec p cutoff Hv He) as [H1 H2].
  destruct (Z.lt_ge_cases cutoff (LiquidityPool.created_at p)) as [Hc|Hc]; [eauto|].
  destruct (H2 Hc) as (q & Hq & _). eauto.
Qed.

Lemma context_total bar index : pools_ok pools ->
  exists r, _context_for_candidate direction bar index swings pools atr_result config = Ok r.
Proof.
  intros Hp. unfold _context_for_candidate. destruct (negb _); [eauto|]. destruct (_ && _); [eauto|].
  assert (exists l, py_map (pool_context direction bar) pools = Ok l) as [l ->]; [|cbn; eauto].
  induction Hp as [|p ps [Hv He] _ [l Hl]]; [by exists []|]. cbn [py_map].
  unfold pool_context at 1. destruct (snapshot_total p (Candle.timestamp bar) Hv He) as [q ->]. cbn. rewrite Hl. eauto.
Qed.

(** A candle of the search that may become an order block. *)
Definition eligible (cand : _Candidate) : Prop :=
  candles !! _Candidate.index cand = Some (_Candidate.candle cand)
  /\ is_directional_opposite direction (_Candidate.candle cand) = true
  /\ _context_for_candidate direction (_Candidate.candle cand) (_Candidate.index cand) swings pools atr_result config
     = Ok (Some (_Candidate.context_references cand)).

(** The candle is among the [ob_search_lookback_bars] before the break. *)
Definition in_window (break_index : nat) (cand : _Candidate) : Prop :=
  (break_index - OrderBlockConfig.ob_search_lookback_bars config <= _Candidate.index cand < break_index)%nat.

Lemma candidate_at_ok index bar : pools_ok pools -> candles !! index = Some bar ->
  exists l, candidate_at direction candles swings pools atr_result config index = Ok l
    /\ forall cand, cand ∈ l <-> _Candidate.index cand = index /\ eligible cand.
Proof.
  intros Hp Hbar. unfold candidate_at. rewrite Hbar.
  destruct (is_directional_opposite direction bar) eqn:Eo; cbn [negb].
  2: { exists []. split; [done|]. intros cand. split; [by intros ?%not_elem_of_nil|].
       intros (<- & H1 & H2 & _). congruence. }
  destruct (context_total bar index Hp) as [r Hr]. rewrite Hr. cbn [mbind pyres_bind].
  eexists. split; [reflexivity|]. intros [k b refs]. unfold eligible. cbn. destruct r as [references|].
  - rewrite list_elem_of_singleton. split.
    + intros [= -> -> ->]. done.
    + intros (-> & H1 & _ & H3). rewrite Hbar in H1. injection H1 as <-. rewrite Hr in H3. by injection H3 as <-.
  - split; [by intros ?%not_elem_of_nil|]. intros (-> & H1 & _ & H3). rewrite Hbar in H1. injection H1 as <-. congruence.
Qed.
End select.

(** Two candidates neither of which ranks before the other are on the same bar. *)
Lemma lex_lt_tie {A} (lt1 lt2 : A -> A -> bool) x y : lex_lt lt1 lt2 x y = false -> lex_lt lt1 lt2 y x = false ->
  lt2 x y = false /\ lt2 y x = false.
Proof. unfold lex_lt. destruct (lt1 x y), (lt1 y x); cbn; auto; discriminate. Qed.

Lemma candidate_rank_cases policy direction : candidate_rank policy direction = lex_lt (by_extreme direction) (lex_lt by_body by_recency)
  \/ candidate_rank policy direction = lex_lt by_body (lex_lt (by_extreme direction) by_recency).
Proof. destruct policy; [by left|by right]. Qed.

Lemma by_recency_tie a b : by_recency a b = false /\ by_recency b a = false -> _Candidate.index a = _Candidate.index b.
Proof. unfold by_recency, on_key. rewrite !Z.ltb_ge. lia. Qed.

Lemma rank_total policy direction a b : candidate_rank policy direction a b = false ->
  candidate_rank policy direction b a = false -> _Candidate.index a = _Candidate.index b.
Proof.
  intros H1 H2. apply by_recency_tie.
  destruct (candidate_rank_cases policy direction) as [E|E]; rewrite E in H1, H2;
    destruct (lex_lt_tie _ _ _ _ H1 H2) as [H3 H4]; exact (lex_lt_tie _ _ _ _ H3 H4).
Qed.

#[export] Instance by_extreme_sw direction : StrictWeak (by_extreme direction).
Proof. destruct direction; apply _. Qed.
#[export] Instance candidate_rank_sw policy direction : StrictWeak (candidate_rank policy direction).
Proof. destruct policy; apply _. Qed.

(** ** Selection *)

Section selection.
Context (direction : OrderBlockDirection) (candles : list Candle) (swings : list ConfirmedSwing).
Context (pools : list LiquidityPool) (atr_result : option ATRResult) (config : OrderBlockConfig).

Abbreviation eligible := (eligible direction candles swings pools atr_result config).
Abbreviation rank := (candidate_rank (OrderBlockConfig.ob_candidate_rank_policy config) direction).

(** The chosen candidate: eligible, and ranked before every other of the search. *)
Definition chosen (break_index : nat) (cand : _Candidate) : Prop :=
  eligible cand /\ in_window config break_index cand
  /\ forall other, eligible other -> in_window config break_index other ->
       _Candidate.index other <> _Candidate.index cand -> rank cand other = true.

Lemma candidates_in a k : pools_ok pools -> (a + k <= length candles)%nat ->
  exists ls, py_map (candidate_at direction candles swings pools atr_result config) (seq a k) = Ok ls
    /\ forall cand, cand ∈ concat ls <-> (a <= _Candidate.index cand < a + k)%nat /\ eligible cand.
Proof.
  intros Hp. revert a. induction k as [|k IH]; intros a Hb.
  { exists []. split; [done|]. intros cand. cbn. split; [by intros ?%not_elem_of_nil | lia]. }
  destruct (IH (S a)) as (ls & E & Hls); [lia|]. destruct (lookup_lt_is_Some_2 candles a) as [bar Hbar]; [lia|].
  destruct (candidate_at_ok direction candles swings pools atr_result config a bar Hp Hbar) as (l & El & Hl).
  exists (l :: ls). cbn [seq py_map]. rewrite El, E. split; [done|]. intros cand. cbn [concat].
  rewrite elem_of_app, Hl, Hls. split; [intros [[<- ?]|[? ?]]; split; auto; lia|].
  intros [? ?]. destruct (decide (_Candidate.index cand = a)); [by left|right; split; [lia|done]].
Qed.

Lemma select_candidate_ok break_index : pools_ok pools -> (break_index <= length candles)%nat ->
  exists r, _select_candidate direction candles swings pools atr_result config break_index = Ok r
    /\ match r with
       | Some cand => chosen break_index cand
       | None => forall cand, eligible cand -> ~ in_window config break_index cand
       end.
Proof.
  intros Hp Hlen. unfold _select_candidate.
  set (start := (break_index - OrderBlockConfig.ob_search_lookback_bars config)%nat).
  destruct (candidates_in start (break_index - start) Hp) as (ls & E & Hls'); [lia|].
  assert (forall cand, cand ∈ concat ls <-> in_window config break_index cand /\ eligible cand) as Hls.
  { intros cand. rewrite Hls'. unfold in_window. fold start. split; intros [? ?]; split; auto; lia. }
  rewrite E. cbn [mbind pyres_bind]. eexists. split; [reflexivity|].
  destruct (py_min _ _) as [cand|] eqn:Em.
  - apply (py_min_spec rank) in Em as [Hin Hmin]. apply Hls in Hin as [Hw He].
    split; [done|]. split; [done|]. intros other Ho Hwo Hne.
    apply not_false_is_true. intros Hf. apply Hne.
    symmetry. apply (rank_total _ _ _ _ Hf). apply Hmin. by apply Hls.
  - apply py_min_None in Em. intros cand He Hw. assert (cand ∈ concat ls) as Hin by (by apply Hls).
    rewrite Em in Hin. by apply not_elem_of_nil in Hin.
Qed.
End selection.

(** ** Creation *)

Section creation.
Context (candles : list Candle) (timeframe : Timeframe) (config : OrderBlockConfig).
Context (displacements : list OrderBlockDisplacementLink).
Context (swings : list ConfirmedSwing) (pools : list LiquidityPool) (atr_result : option ATRResult).

(** The links that name an event. *)
Definition displacements_of (event : StructureBreakEvent) : list OrderBlockDisplacementLink :=
  List.filter (fun link => bool_decide (OrderBlockDisplacementLink.structure_event link = structure_event_reference event))
    displacements.

(** The instant a block of [event] is created: the confirmation of the event, or
    of its first displacement when one is required and is later. *)
Definition creation_instant (event : StructureBreakEvent) (instant : datetime) : Prop :=
  if OrderBlockConfig.ob_require_displacement config then
    exists first, first ∈ displacements_of event
      /\ (forall d, d ∈ displacements_of event ->
            OrderBlockDisplacementLink.confirmed_at first <= OrderBlockDisplacementLink.confirmed_at d)
      /\ instant = Z.max (StructureBreakEvent.confirmed_at event) (OrderBlockDisplacementLink.confirmed_at first)
  else instant = StructureBreakEvent.confirmed_at event.

(** A required displacement is missing. *)
Definition lacks_displacement (event : StructureBreakEvent) : Prop :=
  OrderBlockConfig.ob_require_displacement config = true /\ displacements_of event = [].

(** The block of [event], made from [cand]. *)
Definition block_of_event (event : StructureBreakEvent) (z : _OrderBlockState) : Prop :=
  exists break_index break_bar cand instant k c confirmed,
    candles !! break_index = Some break_bar /\ Candle.timestamp break_bar = StructureBreakEvent.timestamp event
    /\ chosen (_direction event) candles swings pools atr_result config break_index cand
    /\ creation_instant event instant
    /\ candles !! k = Some c /\ Candle.timestamp c + timeframe_duration timeframe = instant
    /\ (confirmed = true <-> exists d, d ∈ displacements_of event /\ OrderBlockDisplacementLink.confirmed_at d <= instant)
    /\ z = _new_order_block event (structure_event_reference event) (_direction event) cand instant k c confirmed config.

(** What becomes of one event: a block or a rejection. *)
Definition event_verdict (event : StructureBreakEvent) (v : _OrderBlockState + OrderBlockRejection) : Prop :=
  match v with
  | inl z => ~ lacks_displacement event /\ block_of_event event z
  | inr r =>
      OrderBlockRejection.structure_event r = structure_event_reference event
      /\ OrderBlockRejection.rejected_at r = StructureBreakEvent.confirmed_at event
      /\ match OrderBlockRejection.code r with
         | OrderBlockRejectionCode.DISPLACEMENT_REQUIRED => lacks_displacement event
         | OrderBlockRejectionCode.OB_NO_CANDIDATE =>
             ~ lacks_displacement event
             /\ exists break_index break_bar, candles !! break_index = Some break_bar
                  /\ Candle.timestamp break_bar = StructureBreakEvent.timestamp event
                  /\ forall cand, eligible (_direction event) candles swings pools atr_result config cand ->
                       ~ in_window config break_index cand
         end
  end.

Definition blocks_in {A B} (vs : list (A + B)) : list A := omap (fun v => match v with inl a => Some a | inr _ => None end) vs.
Definition rejections_in {A B} (vs : list (A + B)) : list B := omap (fun v => match v with inl _ => None | inr b => Some b end) vs.

Hypothesis Hspaced : evenly_spaced timeframe candles.
Hypothesis Hpools : pools_ok pools.
Hypothesis Hlinks : Forall (fun d => OrderBlockDisplacementLink.confirmed_at d ∈ candle_close_times timeframe candles) displacements.

Let cutoff := data_cutoff_at candles timeframe.
Let links := match cutoff with Some _ => displacement_by_structure displacements | None => ∅ end.

Lemma closes_by_cutoff c i : candles !! i = Some c ->
  exists cut, cutoff = Some cut /\ Candle.timestamp c + timeframe_duration timeframe <= cut.
Proof.
  intros Hc. unfold cutoff, data_cutoff_at. pose proof (lookup_lt_Some _ _ _ Hc).
  destruct (list.last candles) as [l|] eqn:El.
  2: { apply last_None in El. by rewrite El in Hc. }
  eexists. split; [reflexivity|]. rewrite last_lookup in El.
  pose proof (evenly_spaced_nth timeframe candles i _ c l Hspaced Hc El). pose proof (timeframe_duration_pos timeframe). nia.
Qed.

Lemma link_close d : d ∈ displacements -> exists i c, candles !! i = Some c
  /\ Candle.timestamp c + timeframe_duration timeframe = OrderBlockDisplacementLink.confirmed_at d.
Proof.
  intros Hd. pose proof (proj1 (Forall_forall _ _) Hlinks d Hd) as H. by apply elem_of_map_lookup in H.
Qed.

(** All links that name the event are available. *)
Lemma available_all event cut : cutoff = Some cut ->
  available_displacements links (structure_event_reference event) cut = sort_by displacement_order (displacements_of event).
Proof.
  intros Hcut. unfold available_displacements, links. rewrite Hcut, displacement_by_structure_spec. f_equal.
  apply list_filter_all. intros d [Hd _]%list_elem_of_In%filter_In. apply list_elem_of_In in Hd.
  destruct (link_close d Hd) as (i & c & Hc & <-). destruct (closes_by_cutoff c i Hc) as (cut' & Hcut' & Hle).
  rewrite Hcut in Hcut'. injection Hcut' as <-. by apply Z.leb_le.
Qed.

Lemma index_get_close i c : candles !! i = Some c ->
  index_get (close_to_index timeframe candles) (Candle.timestamp c + timeframe_duration timeframe) = Ok i.
Proof.
  intros Hc. unfold index_get, close_to_index.
  by rewrite (proj2 (index_by_close timeframe candles _ i Hspaced)) by eauto.
Qed.

(** The verdict, applied to the blocks and rejections so far. *)
Definition add_verdict (st : Created) (v : _OrderBlockState + OrderBlockRejection) : Created :=
  match v with inl z => (fst st ++ [z], snd st) | inr r => (fst st, snd st ++ [r]) end.

Lemma new_block_created event ref cand instant k c confirmed : candles !! k = Some c ->
  Candle.timestamp c + timeframe_duration timeframe = instant ->
  created_ok timeframe candles (_new_order_block event ref (_direction event) cand instant k c confirmed config).
Proof.
  intros Hk Hi. unfold created_ok, _new_order_block.
  destruct (OrderBlockConfig.ob_zone_basis config); cbn; (refine (conj _ (conj _ (conj _ _))); [by eauto| |done|done]);
    (constructor; cbn; [by apply recorded_created; constructor|done..]).
Qed.

(** The instant of creation is that of a candle's close, with the displacements of the event sorted. *)
Lemma creation_instant_close event instant : event_on_candle timeframe candles event -> creation_instant event instant ->
  exists k c, candles !! k = Some c /\ Candle.timestamp c + timeframe_duration timeframe = instant.
Proof.
  intros [(i & c & Hi & Ht) Hc] H. unfold creation_instant in H.
  assert (Candle.timestamp c + timeframe_duration timeframe = StructureBreakEvent.confirmed_at event) as Hclose by lia.
  destruct (OrderBlockConfig.ob_require_displacement config); [|subst; eauto].
  destruct H as (first & Hin & _ & ->). apply list_elem_of_In, filter_In in Hin as [Hin _]. apply list_elem_of_In in Hin.
  destruct (link_close first Hin) as (j & d & Hj & Hd).
  destruct (Z.max_spec (StructureBreakEvent.confirmed_at event) (OrderBlockDisplacementLink.confirmed_at first))
    as [[_ ->]|[_ ->]]; eauto.
Qed.

Lemma first_displacement event first rest d : sort_by displacement_order (displacements_of event) = first :: rest ->
  d ∈ displacements_of event ->
  first ∈ displacements_of event
  /\ OrderBlockDisplacementLink.confirmed_at first <= OrderBlockDisplacementLink.confirmed_at d.
Proof.
  intros E Hd. destruct (sorted_head_least displacement_order _ first rest d E Hd) as [H1 H2].
  split; [done|]. unfold displacement_order, lex_lt, on_key in H2. apply orb_false_iff in H2 as [H2 _]. lia.
Qed.

Lemma create_step_ok st event : event_on_candle timeframe candles event ->
  exists v, create_step candles timeframe config cutoff links swings pools atr_result st event = Ok (add_verdict st v)
    /\ event_verdict event v /\ match v with inl z => created_ok timeframe candles z | inr _ => True end.
Proof.
  intros Hev. pose proof Hev as [(i & bar & Hi & Ht) Hc]. destruct st as [bs rs].
  destruct (closes_by_cutoff bar i Hi) as (cut & Hcut & Hle).
  unfold create_step. rewrite Hcut, (proj2 (Z.ltb_ge _ _)) by lia. rewrite (available_all event cut Hcut).
  set (available := sort_by displacement_order (displacements_of event)).
  assert (forall d, d ∈ available <-> d ∈ displacements_of event) as Hav by (intros d; apply elem_of_sort_by).
  destruct (decide (lacks_displacement event)) as [[Hr Hn]|Hn].
  { assert (available = []) as -> by (unfold available; by rewrite Hn). rewrite Hr.
    exists (inr (rejection OrderBlockRejectionCode.DISPLACEMENT_REQUIRED event)). by split_and!. }
  set (required := OrderBlockConfig.ob_require_displacement config) in *.
  set (instant := match required, available with true, first :: _ => Z.max _ _ | _, _ => _ end).
  set (confirmed := match available with first :: _ => _ | [] => false end).
  assert (creation_instant event instant) as Hinst.
  { unfold creation_instant. fold required. unfold instant. destruct required eqn:Er; [|done].
    destruct available as [|first rest] eqn:Ea.
    - exfalso. apply Hn. split; [done|]. destruct (displacements_of event) as [|d l] eqn:Ed; [done|].
      exfalso. apply (not_elem_of_nil d), Hav. by left.
    - assert (first ∈ displacements_of event) as Hf by (apply Hav; by left).
      exists first. split_and!; [done| |done]. intros d Hd. by eapply (first_displacement event first rest). }
  assert (confirmed = true <-> exists d, d ∈ displacements_of event /\ OrderBlockDisplacementLink.confirmed_at d <= instant) as Hconf.
  { unfold confirmed. destruct available as [|first rest] eqn:Ea.
    - split; [done|]. intros (d & Hd%Hav & _). by apply not_elem_of_nil in Hd.
    - rewrite Z.leb_le. split; [intros H; exists first; split; [apply Hav; by left|done]|].
      intros (d & Hd & Hdi). destruct (first_displacement event first rest d Ea Hd). lia. }
  destruct (creation_instant_close event instant Hev Hinst) as (k & c & Hk & Hkt).
  pose proof (lookup_lt_Some _ _ _ Hi) as Hlt.
  destruct (select_candidate_ok (_direction event) candles swings pools atr_result config i Hpools ltac:(lia)) as (r & Er & Hsel).
  assert (forall A B : pyres Created, match required, available with true, [] => A | _, _ => B end = B) as Hpass.
  { intros A B. destruct required eqn:Erq; [|done]. destruct available as [|first rest] eqn:Ea; [|done].
    exfalso. apply Hn. split; [done|]. destruct (displacements_of event) as [|d l] eqn:Ed; [done|].
    exfalso. apply (not_elem_of_nil d), Hav. by left. }
  rewrite Hpass, <-Hkt, (index_get_close k c Hk), (index_get_open timeframe candles i bar _ Hspaced Hi Ht). cbn [mbind pyres_bind]. rewrite Er.
  cbn [mbind pyres_bind]. destruct r as [cand|].
  - rewrite Hk. eexists (inl _). split; [reflexivity|]. split; [|by apply new_block_created].
    split; [done|]. exists i, bar, cand, instant, k, c, confirmed. rewrite <-Hkt in *. by split_and!.
  - exists (inr (rejection OrderBlockRejectionCode.OB_NO_CANDIDATE event)). split; [done|]. split; [|done].
    split_and!; [done..|]. cbn. split; [done|]. by exists i, bar.
Qed.

Lemma blocks_in_snoc {A B : Type} (vs : list (A + B)) v :
  blocks_in (vs ++ [v]) = blocks_in vs ++ match v with inl a => [a] | inr _ => [] end.
Proof. unfold blocks_in. rewrite omap_app. by destruct v. Qed.

Lemma create_all events : Forall (event_on_candle timeframe candles) events ->
  exists vs, py_fold (create_step candles timeframe config cutoff links swings pools atr_result) ([], []) events
      = Ok (blocks_in vs, rejections_in vs)
    /\ Forall2 event_verdict events vs /\ Forall (created_ok timeframe candles) (blocks_in vs).
Proof.
  induction events as [|event events IH] using rev_ind; intros Hev; [by exists []|].
  apply Forall_app in Hev as [Hevs Hevent%Forall_inv]. destruct (IH Hevs) as (vs & E & Hvs & Hok).
  destruct (create_step_ok (blocks_in vs, rejections_in vs) event Hevent) as (v & Ev & Hv & Hcr).
  exists (vs ++ [v]). rewrite py_fold_app, E. cbn [mbind pyres_bind py_fold]. rewrite Ev. split_and!.
  - unfold blocks_in, rejections_in. rewrite !omap_app. destruct v; cbn; by rewrite ?app_nil_r.
  - by apply Forall2_app; [|constructor].
  - rewrite blocks_in_snoc. apply Forall_app. split; [done|]. destruct v; [by constructor|constructor].
Qed.
End creation.

(** ** The schemas *)

(** The prices of a candle and the sum of its open and close are exact in the
    default context: at most 28 significant digits. *)
Definition narrow (c : Candle) : Prop :=
  fits DEFAULT_PREC (Candle.open c) /\ fits DEFAULT_PREC (Candle.close c)
  /\ fits DEFAULT_PREC (Candle.low c) /\ fits DEFAULT_PREC (Candle.high c)
  /\ exists s, fits DEFAULT_PREC s /\ (Qval (Candle.open c) + Qval (Candle.close c) == Qval s)%Q.

Definition geometry (z : _OrderBlockState) : Prop :=
  (0 < Qval (_OrderBlockState.wick_low z) /\ Qval (_OrderBlockState.wick_low z) <= Qval (_OrderBlockState.body_low z)
   /\ Qval (_OrderBlockState.body_low z) < Qval (_OrderBlockState.body_high z)
   /\ Qval (_OrderBlockState.body_high z) <= Qval (_OrderBlockState.wick_high z)
   /\ 0 < Qval (_OrderBlockState.zone_low z) /\ Qval (_OrderBlockState.zone_low z) < Qval (_OrderBlockState.zone_high z)
   /\ Qval (_OrderBlockState.zone_low z) <= Qval (_OrderBlockState.mean_threshold z)
   /\ Qval (_OrderBlockState.mean_threshold z) <= Qval (_OrderBlockState.zone_high z))%Q.

Lemma mean_between bar lo hi : narrow bar -> fits DEFAULT_PREC lo -> fits DEFAULT_PREC hi ->
  (Qval lo <= Qval (Candle.open bar) -> Qval lo <= Qval (Candle.close bar) ->
   Qval (Candle.open bar) <= Qval hi -> Qval (Candle.close bar) <= Qval hi ->
   Qval lo <= Qval (ddiv DEFAULT_PREC (dadd DEFAULT_PREC (Candle.open bar) (Candle.close bar)) (D 2))
   /\ Qval (ddiv DEFAULT_PREC (dadd DEFAULT_PREC (Candle.open bar) (Candle.close bar)) (D 2)) <= Qval hi)%Q.
Proof.
  intros (_ & _ & _ & _ & s & Hs & Hsum) Hlo Hhi L1 L2 H1 H2.
  pose proof (dadd_exact (p := DEFAULT_PREC) _ _ _ Hs Hsum) as Hadd.
  assert (~ Qval (D 2) == 0)%Q as H2nz by (rewrite Qval_D; discriminate).
  assert (Qval (dadd DEFAULT_PREC (Candle.open bar) (Candle.close bar)) / Qval (D 2)
    == (Qval (Candle.open bar) + Qval (Candle.close bar)) / 2)%Q as Hq.
  { rewrite Hadd, <-Hsum, Qval_D. reflexivity. }
  apply ddiv_between; [done..| |]; rewrite Hq; [apply Qle_shift_div_l | apply Qle_shift_div_r]; lra.
Qed.

(** A candidate's candle has a body, which makes a proper zone. *)
Lemma new_block_geometry event ref direction cand instant k c confirmed config :
  is_directional_opposite direction (_Candidate.candle cand) = true ->
  candle_wf (_Candidate.candle cand) -> narrow (_Candidate.candle cand) ->
  geometry (_new_order_block event ref direction cand instant k c confirmed config).
Proof.
  set (bar := _Candidate.candle cand). intros Ho (W1 & W2 & W3 & W4 & W5 & _) Hn.
  pose proof Hn as (F1 & F2 & F3 & F4 & _).
  pose proof (dmin_le (Candle.open bar) (Candle.close bar)) as [M1 M2].
  pose proof (dmax_ge (Candle.open bar) (Candle.close bar)) as [M3 M4].
  assert (Qval (dmin (Candle.open bar) (Candle.close bar)) < Qval (dmax (Candle.open bar) (Candle.close bar))
    /\ Qval (Candle.low bar) <= Qval (dmin (Candle.open bar) (Candle.close bar))
    /\ Qval (dmax (Candle.open bar) (Candle.close bar)) <= Qval (Candle.high bar))%Q as (B1 & B2 & B3).
  { unfold is_directional_opposite in Ho. split_and!.
    - destruct direction; dec_to_Q; lra.
    - unfold dmin. by case_dec.
    - apply dmax_lub. by split. }
  pose proof (mean_between bar _ _ Hn (fits_dmin _ _ _ F1 F2) (fits_dmax _ _ _ F1 F2) M1 M2 M3 M4).
  pose proof (mean_between bar _ _ Hn F3 F4 W2 W3 W4 W5).
  unfold geometry, _new_order_block. fold bar.
  destruct (OrderBlockConfig.ob_zone_basis config); cbn -[dmin dmax ddiv dadd]; split_and!; lra.
Qed.

Lemma positive_field x : (0 < Qval x)%Q -> dltb (D 0) x = true.
Proof. intros H. apply dltb_true. by rewrite Qval_D0. Qed.

Lemma order_block_schema_ok config now z : geometry z -> block_ok now z ->
  exists g, _to_order_block_schema config z = Ok g.
Proof.
  intros (G1 & G2 & G3 & G4 & G5 & G6 & G7 & G8) [H1 H2 H3 H4 _ _].
  unfold _to_order_block_schema, validated.
  match goal with |- context [OrderBlockZone.validate_zone ?x] => set (g := x) end.
  assert (OrderBlockZone.validate_zone g = true) as ->; [|by eexists].
  unfold OrderBlockZone.validate_zone, OrderBlockZone.fields_valid, g. cbn -[dltb dleb D].
  rewrite !positive_field by lra.
  assert (dleb (_OrderBlockState.body_high z) (_OrderBlockState.body_low z) = false) as -> by (apply dleb_false; lra).
  assert (dltb (_OrderBlockState.body_low z) (_OrderBlockState.wick_low z) = false) as -> by (apply dltb_false; lra).
  assert (dltb (_OrderBlockState.wick_high z) (_OrderBlockState.body_high z) = false) as -> by (apply dltb_false; lra).
  assert (dleb (_OrderBlockState.zone_high z) (_OrderBlockState.zone_low z) = false) as -> by (apply dleb_false; lra).
  rewrite !(proj2 (dleb_true _ _)) by lra. cbn.
  destruct H1 as (ev & l & _ & Hh%history_reached & _). rewrite <-H2, <-H3, <-H4 in Hh.
  unfold OrderBlockZone.status_recorded. cbn.
  destruct (_OrderBlockState.status z); rewrite ?bool_decide_eq_false_2 by tauto; done.
Qed.

Lemma breaker_schema_ok now b : breaker_ok now b ->
  (0 < Qval (_BreakerState.zone_low b) /\ Qval (_BreakerState.zone_low b) < Qval (_BreakerState.zone_high b)
   /\ Qval (_BreakerState.zone_low b) <= Qval (_BreakerState.mean_threshold b)
   /\ Qval (_BreakerState.mean_threshold b) <= Qval (_BreakerState.zone_high b))%Q ->
  exists g, _to_breaker_schema b = Ok g.
Proof.
  intros [H1 H2 H3 _] (G1 & G2 & G3 & G4). unfold _to_breaker_schema, validated.
  match goal with |- context [BreakerBlockZone.validate_zone ?x] => set (g := x) end.
  assert (BreakerBlockZone.validate_zone g = true) as ->; [|by eexists].
  unfold BreakerBlockZone.validate_zone, g. cbn -[dltb dleb D].
  rewrite !positive_field by lra.
  assert (dleb (_BreakerState.zone_high b) (_BreakerState.zone_low b) = false) as -> by (apply dleb_false; lra).
  rewrite !(proj2 (dleb_true _ _)) by lra. cbn.
  destruct H1 as (ev & l & _ & Hh%history_reached & _). rewrite <-H2, <-H3 in Hh.
  destruct (_BreakerState.status b); cbn in Hh; repeat case_bool_decide; cbn; tauto || done.
Qed.

(** ** The analysis *)

Section analysis.
Context (candles : list Candle) (timeframe : Timeframe) (events : list StructureBreakEvent) (config : OrderBlockConfig).
Context (displacements : list OrderBlockDisplacementLink).
Context (swings : list ConfirmedSwing) (pools : list LiquidityPool) (atr_result : option ATRResult).

Abbreviation verdict := (event_verdict candles timeframe config displacements swings pools atr_result).
Abbreviation creation := (py_fold (create_step candles timeframe config (data_cutoff_at candles timeframe)
    (match data_cutoff_at candles timeframe with Some _ => displacement_by_structure displacements | None => ∅ end)
    swings pools atr_result) ([], []) events).
Abbreviation analysis := (analyze_order_blocks candles timeframe events config displacements swings pools atr_result).

Lemma order_block_inputs :
  _validate_inputs candles timeframe events displacements config atr_result = Ok tt ->
  evenly_spaced timeframe candles /\ Forall (event_on_candle timeframe candles) events
  /\ Forall (fun d => OrderBlockDisplacementLink.confirmed_at d ∈ candle_close_times timeframe candles) displacements.
Proof.
  intros (_ & _ & ([] & H1 & ([] & H2 & ([] & H3 & _)%bind_ok)%bind_ok)%bind_ok)%bind_ok.
  apply validate_spacing_ok in H1. apply validate_structure_events_ok in H2. apply py_for_ok in H3.
  split_and!; [done..|]. eapply Forall_impl; [exact H3|]. intros d Hd%raise_if_ok.
  by apply negb_false_iff, bool_decide_eq_true in Hd.
Qed.

(** The analysis, with the creation and the replay replaced by what they are. *)
Lemma analysis_lives : _validate_inputs candles timeframe events displacements config atr_result = Ok tt -> pools_ok pools ->
  exists vs, Forall2 verdict events vs /\ Forall (created_ok timeframe candles) (blocks_in vs)
    /\ creation = Ok (blocks_in vs, rejections_in vs)
    /\ analysis =
      (blocks ← py_map (_to_order_block_schema config)
                  (map (block_after timeframe config (enumerate candles)) (blocks_in vs));
       breakers ← py_map _to_breaker_schema
                    (map (breaker_after timeframe config (enumerate candles))
                       (births timeframe config (blocks_in vs) (enumerate candles)));
       Ok (OrderBlockAnalysisResult.mkOrderBlockAnalysisResult timeframe config (length candles)
             (data_cutoff_at candles timeframe) blocks breakers (rejections_in vs))).
Proof.
  intros Hv Hp. destruct (order_block_inputs Hv) as (Hs & Hev & Hl).
  destruct (create_all candles timeframe config displacements swings pools atr_result Hs Hp Hl events Hev)
    as (vs & Ec & Hvs & Hcr).
  destruct (replay_lives timeframe config candles (blocks_in vs) Hs Hcr) as (final & Er & [S1 S2 _ _ _]).
  exists vs. split; [done|]. split; [done|]. split; [exact Ec|].
  unfold analyze_order_blocks. rewrite Hv. cbn [mbind pyres_bind]. cbv zeta. rewrite Ec. cbn [mbind pyres_bind].
  rewrite Er. cbn [mbind pyres_bind].
  assert (take (length candles) (enumerate candles) = enumerate candles) as Ht.
  { apply take_ge. unfold enumerate. rewrite length_zip, length_seq. lia. }
  by rewrite S1, S2, Ht.
Qed.

(** C20. The scheduled replay is an optimisation of nothing: on checked input
    the analysis returns what it would return if every block lived its own
    life from its creation, touched by no other block, and every breaker one
    of its own from the bar that invalidated its block; breakers are listed by
    that bar and then in the order of their blocks. The schedule of future
    blocks, the lists of active ones, their sorting by position and the
    removal of ended ones change nothing, and no step fails. *)
Theorem order_blocks_live_independently :
  _validate_inputs candles timeframe events displacements config atr_result = Ok tt -> pools_ok pools ->
  exists created rejections, creation = Ok (created, rejections)
    /\ analysis =
      (blocks ← py_map (_to_order_block_schema config) (map (block_after timeframe config (enumerate candles)) created);
       breakers ← py_map _to_breaker_schema
                    (map (breaker_after timeframe config (enumerate candles))
                       (births timeframe config created (enumerate candles)));
       Ok (OrderBlockAnalysisResult.mkOrderBlockAnalysisResult timeframe config (length candles)
             (data_cutoff_at candles timeframe) blocks breakers rejections)).
Proof.
  intros Hv Hp. destruct (analysis_lives Hv Hp) as (vs & _ & _ & Ec & E). by exists (blocks_in vs), (rejections_in vs).
Qed.
End analysis.
