(* ===== verification/OrderBlocksContract.v ===== *)
(** What [analyze_order_blocks] promises its callers: every order block it
    returns comes from the verdict on a structure break, passes its schema and
    has lived by the protocol; every breaker has the block it came from; the
    context of a candidate is what was known when its candle opened. *)
From Stdlib Require Import ZArith QArith Lia Lqa.
From stdpp Require Import base list strings numbers sets gmap.
From S2P Require Import Prelude Decimal Time Candle Indicators Structure Engine LiquidityTypes.
From S2P Require Import OrderBlocks OrderBlocksTheory OrderBlocksResult.
Local Open Scope Z_scope.

(** ** The abstract contract *)

(** A returned block that passes its schema and whose fields are those of a run
    of the protocol. *)
Record lawful_block (g : OrderBlockZone) : Prop := {
  lb_valid : OrderBlockZone.validate_zone g = true;
  lb_history : zone_history (OrderBlockZone.zone_id g) (OrderBlockZone.lifecycle g) (BlockStatus (OrderBlockZone.status g));
  lb_validated : OrderBlockZone.validated_at g = time_of OrderBlockEventType.OB_VALIDATED (OrderBlockZone.lifecycle g);
  lb_mitigated : OrderBlockZone.mitigated_at g = time_of OrderBlockEventType.OB_MITIGATED (OrderBlockZone.lifecycle g);
  lb_invalidated : OrderBlockZone.invalidated_at g = time_of OrderBlockEventType.OB_INVALIDATED (OrderBlockZone.lifecycle g);
  lb_created : Some (OrderBlockZone.created_at g) = first_time (OrderBlockZone.lifecycle g)
}.

Record lawful_breaker (b : BreakerBlockZone) : Prop := {
  lbr_valid : BreakerBlockZone.validate_zone b = true;
  lbr_history : zone_history (BreakerBlockZone.zone_id b) (BreakerBlockZone.lifecycle b) (BreakerStatus (BreakerBlockZone.status b));
  lbr_activated : BreakerBlockZone.activated_at b = time_of OrderBlockEventType.BREAKER_ACTIVATED (BreakerBlockZone.lifecycle b);
  lbr_invalidated : BreakerBlockZone.invalidated_at b = time_of OrderBlockEventType.BREAKER_INVALIDATED (BreakerBlockZone.lifecycle b);
  lbr_created : Some (BreakerBlockZone.created_at b) = first_time (BreakerBlockZone.lifecycle b)
}.

(** The returned breaker [b] is the one the returned block [g] left. *)
Definition left_by (g : OrderBlockZone) (b : BreakerBlockZone) : Prop :=
  OrderBlockZone.status g = OrderBlockStatus.INVALIDATED
  /\ OrderBlockZone.breaker_zone_id g = Some (BreakerBlockZone.zone_id b)
  /\ BreakerBlockZone.origin_order_block_id b = OrderBlockZone.zone_id g
  /\ BreakerBlockZone.direction b = opposite (OrderBlockZone.direction g)
  /\ BreakerBlockZone.zone_low b = OrderBlockZone.zone_low g
  /\ BreakerBlockZone.zone_high b = OrderBlockZone.zone_high g
  /\ BreakerBlockZone.mean_threshold b = OrderBlockZone.mean_threshold g
  /\ Some (BreakerBlockZone.created_at b) = OrderBlockZone.invalidated_at g.

(** The returned block [g] is the created block [z], as far as creation decides. *)
Definition created_as (z : _OrderBlockState) (g : OrderBlockZone) : Prop :=
  OrderBlockZone.zone_id g = _OrderBlockState.zone_id z
  /\ OrderBlockZone.direction g = _OrderBlockState.direction z
  /\ OrderBlockZone.origin_candle_index g = _OrderBlockState.origin_candle_index z
  /\ OrderBlockZone.origin_candle_timestamp g = Candle.timestamp (_OrderBlockState.origin z)
  /\ (OrderBlockZone.zone_low g, OrderBlockZone.zone_high g) = (_OrderBlockState.zone_low z, _OrderBlockState.zone_high z)
  /\ OrderBlockZone.mean_threshold g = _OrderBlockState.mean_threshold z
  /\ OrderBlockZone.created_at g = _OrderBlockState.created_at z
  /\ OrderBlockZone.source_structure_event g = _OrderBlockState.source_structure_event z
  /\ OrderBlockZone.displacement_confirmed g = _OrderBlockState.displacement_confirmed z
  /\ OrderBlockZone.context_references g = _OrderBlockState.context_references z.

(** ** Ended lives *)

Section ended.
Context (timeframe : Timeframe) (config : OrderBlockConfig).

Lemma block_after_app bars bars' z :
  block_after timeframe config (bars ++ bars') z = block_after timeframe config bars' (block_after timeframe config bars z).
Proof. unfold block_after. by rewrite foldl_app. Qed.

Lemma block_after_ended bars z : _OrderBlockState.terminal z = true -> block_after timeframe config bars z = z.
Proof.
  intros H. induction bars as [|bar bars IH] using rev_ind; [done|].
  rewrite block_after_snoc, IH. unfold block_next. by rewrite block_result_idle by (by right).
Qed.

(** A block that has left a breaker, or should have. *)
Definition marked (z : _OrderBlockState) : Prop :=
  _OrderBlockState.breaker_zone_id z <> None
  \/ OrderBlockConfig.breaker_enabled config = true /\ _OrderBlockState.status z = OrderBlockStatus.INVALIDATED.

(** Only the branch that makes a breaker marks a block. *)
Lemma marked_by_birth i c t z z' : update_order_block config i c t z = Ok (z', None) -> marked z' -> marked z.
Proof.
  intros E. unfold marked. destruct (OrderBlockConfig.breaker_enabled config) eqn:Hb; revert E;
    unfold update_order_block, update_candidate, observe_zone; rewrite ?Hb;
    repeat case_match; intros [= <-]; cbn; try done; try tauto; repeat case_match; cbn in *; intuition congruence.
Qed.
End ended.

(** ** From created blocks to returned ones *)

Section returned.
Context (timeframe : Timeframe) (config : OrderBlockConfig) (candles : list Candle) (zs : list _OrderBlockState).
Hypothesis Hspaced : evenly_spaced timeframe candles.
Hypothesis Hcreated : Forall (created_ok timeframe candles) zs.

Abbreviation final := (block_after timeframe config (enumerate candles)).
Abbreviation left := (births timeframe config zs (enumerate candles)).

Lemma all_bars : enumerate candles = take (length candles) (enumerate candles).
Proof. symmetry. apply take_ge. unfold enumerate. rewrite length_zip, length_seq. lia. Qed.

Lemma final_ok z : z ∈ zs -> exists now, block_ok now (final z) /\ block_frame (final z) = block_frame z.
Proof.
  intros Hz. rewrite all_bars.
  destruct (block_after_ok timeframe config candles zs Hspaced Hcreated (length candles) z Hz) as (H1 & H2 & _); [lia|]. eauto.
Qed.

(** A breaker was born of a block that stays as that bar left it. *)
Lemma born_of b : b ∈ left -> exists z now, z ∈ zs /\ breaker_ok now b /\ breaker_of (final z) b
  /\ _BreakerState.status b = BreakerBlockStatus.CANDIDATE.
Proof.
  assert (forall n, (n <= length candles)%nat -> b ∈ births timeframe config zs (take n (enumerate candles)) ->
    exists k c z, candles !! k = Some c /\ z ∈ zs
      /\ block_born timeframe config (k, c) (block_after timeframe config (take k (enumerate candles)) z) = Some b) as Hfind.
  { induction n as [|n IH]; intros Hn; [by intros ?%not_elem_of_nil|].
    destruct (lookup_lt_is_Some_2 candles n) as [c Hc]; [lia|].
    rewrite (bars_S candles n c Hc), births_snoc. intros [H|H]%elem_of_app; [apply IH; [lia|done]|].
    apply list_elem_of_omap in H as (z & Hz & Hb). apply list_elem_of_fmap in Hz as (z0 & -> & Hz0). eauto 10. }
  intros Hb. rewrite all_bars in Hb. destruct (Hfind (length candles) ltac:(lia) Hb) as (k & c & z & Hc & Hz & Hborn).
  destruct (block_born_ok timeframe config candles zs Hspaced Hcreated k c z b Hz Hc Hborn) as (H1 & H2 & _ & H4).
  exists z. eexists. split_and!; [done|exact H1| |done].
  rewrite <-(take_drop (S k) (enumerate candles)), block_after_app, block_after_ended; [done|].
  unfold _OrderBlockState.terminal. by rewrite (proj1 H2).
Qed.

(** A marked block left a breaker. *)
Lemma left_of z : z ∈ zs -> marked config (final z) -> exists b, b ∈ left /\ breaker_of (final z) b.
Proof.
  intros Hz.
  assert (forall n, (n <= length candles)%nat -> let bars := take n (enumerate candles) in
    marked config (block_after timeframe config bars z) ->
    exists b, b ∈ births timeframe config zs bars /\ breaker_of (block_after timeframe config bars z) b) as Hall;
    [|rewrite all_bars; by apply Hall].
  cbv zeta. induction n as [|n IH]; intros Hn Hs.
  { pose proof (proj1 (Forall_forall _ _) Hcreated z Hz) as (_ & _ & Hc & Hn0). rewrite take_0 in Hs. destruct Hs as [Hs|[_ Hs]]; cbn in Hs; congruence. }
  destruct (lookup_lt_is_Some_2 candles n) as [c Hc]; [lia|].
  destruct (block_step_ok timeframe config candles zs Hspaced Hcreated n c z Hz Hc) as [[z' born] Hr].
  pose proof (fun b => block_born_ok timeframe config candles zs Hspaced Hcreated n c z b Hz Hc) as Hborn.
  rewrite (bars_S candles n c Hc), births_snoc, block_after_snoc in *.
  unfold block_born, block_next, block_result in Hborn, Hs |- *. cbn [fst snd] in *. rewrite Hr in *. cbn [fst snd] in *.
  destruct born as [b|].
  - destruct (Hborn b eq_refl) as (_ & Hof & _). rewrite (bars_S candles n c Hc), block_after_snoc in Hof.
    unfold block_next, block_result in Hof. cbn [fst snd] in Hof. rewrite Hr in Hof.
    exists b. split; [|done]. apply elem_of_app. right. apply list_elem_of_omap.
    exists (block_after timeframe config (take n (enumerate candles)) z). cbn [fst snd]. rewrite Hr. split; [by apply list_elem_of_fmap_2|done].
  - pose proof (marked_by_birth config n c _ _ _ Hr Hs) as Hs0. destruct (IH ltac:(lia) Hs0) as (b & Hin & Hof).
    exists b. split; [apply elem_of_app; by left|]. revert Hr. unfold update_order_block, _OrderBlockState.terminal.
    rewrite (proj1 Hof), orb_true_r. by intros [= <-].
Qed.

Lemma last_ok b : b ∈ left -> exists now,
  breaker_ok now (breaker_after timeframe config (enumerate candles) b)
  /\ breaker_frame (breaker_after timeframe config (enumerate candles) b) = breaker_frame b.
Proof.
  rewrite all_bars. intros Hb.
  pose proof (born_ok timeframe config candles zs Hspaced Hcreated (length candles) ltac:(lia)) as H.
  rewrite Forall_forall in H. destruct (H b Hb) as (H1 & H2 & _).
  destruct (breaker_after_ok timeframe config candles Hspaced (length candles) b) as (H3 & H4 & _); [lia|done..|]. eauto.
Qed.
End returned.

(** ** Schemas *)

Lemma schema_created config z z' g : block_frame z' = block_frame z -> _to_order_block_schema config z' = Ok g -> created_as z g.
Proof.
  intros Hf [_ <-]%validated_ok. unfold created_as. cbn.
  assert (forall {A} (f : _OrderBlockState -> A), (forall y, f (block_frame y) = f y) -> f z' = f z) as Hp.
  { intros A f H. by rewrite <-(H z'), Hf, H. }
  by rewrite !Hp.
Qed.

Lemma schema_lawful config now z g : block_ok now z -> _to_order_block_schema config z = Ok g -> lawful_block g.
Proof.
  intros [(ev & l & _ & H1 & _) H2 H3 H4 _ _ H5] Hg. apply validated_ok in Hg as [Hv <-]. by constructor.
Qed.

Lemma breaker_schema_lawful now b g : breaker_ok now b -> _to_breaker_schema b = Ok g -> lawful_breaker g.
Proof.
  intros [(ev & l & _ & H1 & _) H2 H3 _ H4] Hg. apply validated_ok in Hg as [Hv <-]. by constructor.
Qed.

Lemma schema_left_by config z b b' g gb : breaker_of z b -> breaker_frame b' = breaker_frame b ->
  _to_order_block_schema config z = Ok g -> _to_breaker_schema b' = Ok gb -> left_by g gb.
Proof.
  intros H Hf [_ <-]%validated_ok [_ <-]%validated_ok. unfold left_by. cbn.
  assert (forall {A} (f : _BreakerState -> A), (forall y, f (breaker_frame y) = f y) -> f b' = f b) as Hp.
  { intros A f E. by rewrite <-(E b'), Hf, E. }
  by rewrite !Hp.
Qed.

(** ** The contract *)

Section contract.
Context (candles : list Candle) (timeframe : Timeframe) (events : list StructureBreakEvent) (config : OrderBlockConfig).
Context (displacements : list OrderBlockDisplacementLink).
Context (swings : list ConfirmedSwing) (pools : list LiquidityPool) (atr_result : option ATRResult).

Abbreviation verdict := (event_verdict candles timeframe config displacements swings pools atr_result).
Abbreviation final := (block_after timeframe config (enumerate candles)).
Abbreviation last_of := (breaker_after timeframe config (enumerate candles)).

(** A block keeps the geometry of its candle, whatever happens to it. *)
Lemma verdict_geometry event z : Forall candle_wf candles -> Forall narrow candles ->
  verdict event (inl z) -> geometry z.
Proof.
  intros Hw Hn (_ & bi & bb & cand & instant & k & c & confirmed & _ & _ & [(Hc & Ho & _) _] & _ & _ & _ & _ & ->).
  rewrite Forall_lookup in Hw, Hn. eapply new_block_geometry; eauto.
Qed.

Lemma created_geometry vs : Forall candle_wf candles -> Forall narrow candles -> Forall2 verdict events vs ->
  Forall geometry (blocks_in vs).
Proof.
  intros Hw Hn. induction 1 as [|event v es vs Hv _ IH]; [constructor|].
  destruct v as [z|r]; [|done]. constructor; [|done]. by eapply verdict_geometry.
Qed.

(** Everything the analysis returns, from the lives of what it created. *)
Lemma analysis_returns :
  _validate_inputs candles timeframe events displacements config atr_result = Ok tt -> pools_ok pools ->
  Forall candle_wf candles -> Forall narrow candles ->
  exists vs r, Forall2 verdict events vs /\ Forall (created_ok timeframe candles) (blocks_in vs)
    /\ analyze_order_blocks candles timeframe events config displacements swings pools atr_result = Ok r
    /\ OrderBlockAnalysisResult.rejections r = rejections_in vs
    /\ Forall2 (fun z g => _to_order_block_schema config (final z) = Ok g) (blocks_in vs) (OrderBlockAnalysisResult.order_blocks r)
    /\ Forall2 (fun b g => _to_breaker_schema (last_of b) = Ok g)
         (births timeframe config (blocks_in vs) (enumerate candles)) (OrderBlockAnalysisResult.breaker_blocks r).
Proof.
  intros Hv Hp Hw Hn.
  destruct (analysis_lives candles timeframe events config displacements swings pools atr_result Hv Hp)
    as (vs & Hvs & Hcr & _ & E).
  destruct (order_block_inputs candles timeframe events config displacements atr_result Hv) as (Hs & _ & _).
  pose proof (created_geometry vs Hw Hn Hvs) as Hg. rewrite Forall_forall in Hg.
  assert (exists gs, py_map (_to_order_block_schema config) (map final (blocks_in vs)) = Ok gs) as [gs Egs].
  { apply py_map_all. intros z' (z & -> & Hz)%list_elem_of_fmap.
    destruct (final_ok timeframe config candles _ Hs Hcr z Hz) as (now & Hok & Hf).
    eapply order_block_schema_ok; [|exact Hok]. specialize (Hg z Hz).
    change (geometry (block_frame (final z))). rewrite Hf. exact Hg. }
  assert (exists bs, py_map _to_breaker_schema (map last_of (births timeframe config (blocks_in vs) (enumerate candles))) = Ok bs)
    as [bs Ebs].
  { apply py_map_all. intros b' (b & -> & Hb)%list_elem_of_fmap.
    destruct (last_ok timeframe config candles _ Hs Hcr b Hb) as (now & Hok & Hf).
    eapply breaker_schema_ok; [exact Hok|].
    destruct (born_of timeframe config candles _ Hs Hcr b Hb) as (z & _ & Hz & _ & (_ & _ & _ & _ & B1 & B2 & B3 & _) & _).
    destruct (final_ok timeframe config candles _ Hs Hcr z Hz) as (_ & _ & Hfz).
    assert (geometry (block_frame (final z))) as (_ & _ & _ & _ & G) by (rewrite Hfz; exact (Hg z Hz)).
    pose proof (f_equal _BreakerState.zone_low Hf) as F1. pose proof (f_equal _BreakerState.zone_high Hf) as F2.
    pose proof (f_equal _BreakerState.mean_threshold Hf) as F3. cbn in F1, F2, F3, G. by rewrite F1, F2, F3, B1, B2, B3. }
  eexists vs, _. split; [done|]. split; [done|]. split; [rewrite E, Egs, Ebs; reflexivity|].
  cbn [OrderBlockAnalysisResult.rejections OrderBlockAnalysisResult.order_blocks OrderBlockAnalysisResult.breaker_blocks].
  apply py_map_ok in Egs, Ebs. split_and!; [done|by apply Forall2_fmap_l in Egs|by apply Forall2_fmap_l in Ebs].
Qed.

(** Each structure break gets one verdict, in order: a rejection that says
    why, or a block made from the candle of the look-back window that ranks
    before every other eligible one, at the instant of the break or of its first
    displacement. What is returned are those rejections and those blocks. *)
Theorem order_block_creation_exact :
  _validate_inputs candles timeframe events displacements config atr_result = Ok tt -> pools_ok pools ->
  Forall candle_wf candles -> Forall narrow candles ->
  exists vs r, analyze_order_blocks candles timeframe events config displacements swings pools atr_result = Ok r
    /\ Forall2 verdict events vs
    /\ OrderBlockAnalysisResult.rejections r = rejections_in vs
    /\ Forall2 created_as (blocks_in vs) (OrderBlockAnalysisResult.order_blocks r).
Proof.
  intros Hv Hp Hw Hn. destruct (analysis_returns Hv Hp Hw Hn) as (vs & r & Hvs & Hcr & E & Hr & Hz & _).
  destruct (order_block_inputs candles timeframe events config displacements atr_result Hv) as (Hs & _ & _).
  exists vs, r. split_and!; [done..|]. eapply Forall2_impl_in_l; [exact Hz|].
  intros z g Hin Hg. destruct (final_ok timeframe config candles _ Hs Hcr z Hin) as (_ & _ & Hf).
  by apply (schema_created config z (final z) g).
Qed.

(** Everything returned is lawful, breakers have their blocks and blocks their
    breakers. *)
Lemma returned_lawful :
  _validate_inputs candles timeframe events displacements config atr_result = Ok tt -> pools_ok pools ->
  Forall candle_wf candles -> Forall narrow candles ->
  exists r, analyze_order_blocks candles timeframe events config displacements swings pools atr_result = Ok r
    /\ Forall lawful_block (OrderBlockAnalysisResult.order_blocks r)
    /\ Forall lawful_breaker (OrderBlockAnalysisResult.breaker_blocks r)
    /\ (forall b, b ∈ OrderBlockAnalysisResult.breaker_blocks r ->
          exists g, g ∈ OrderBlockAnalysisResult.order_blocks r /\ left_by g b)
    /\ forall g, g ∈ OrderBlockAnalysisResult.order_blocks r ->
          OrderBlockZone.breaker_zone_id g <> None
          \/ OrderBlockConfig.breaker_enabled config = true /\ OrderBlockZone.status g = OrderBlockStatus.INVALIDATED ->
          exists b, b ∈ OrderBlockAnalysisResult.breaker_blocks r /\ left_by g b.
Proof.
  intros Hv Hp Hw Hn. destruct (analysis_returns Hv Hp Hw Hn) as (vs & r & _ & Hcr & E & _ & Hz & Hb).
  destruct (order_block_inputs candles timeframe events config displacements atr_result Hv) as (Hs & _ & _).
  exists r. split; [done|]. refine (conj _ (conj _ (conj _ _))).
  - apply Forall_forall. intros g Hg. destruct (Forall2_elem_r _ _ _ g Hz Hg) as (z & Hin & Hgz).
    destruct (final_ok timeframe config candles _ Hs Hcr z Hin) as (now & Hok & _). by eapply schema_lawful.
  - apply Forall_forall. intros g Hg. destruct (Forall2_elem_r _ _ _ g Hb Hg) as (b & Hin & Hgb).
    destruct (last_ok timeframe config candles _ Hs Hcr b Hin) as (now & Hok & _). by eapply breaker_schema_lawful.
  - intros g Hg. destruct (Forall2_elem_r _ _ _ g Hb Hg) as (b & Hin & Hgb).
    destruct (born_of timeframe config candles _ Hs Hcr b Hin) as (z & now & Hzin & _ & Hof & _).
    destruct (Forall2_elem_l _ _ _ z Hz Hzin) as (gz & Hgz & Egz).
    destruct (last_ok timeframe config candles _ Hs Hcr b Hin) as (_ & _ & Hf).
    exists gz. split; [done|]. by eapply (schema_left_by config (final z) b (last_of b)).
  - intros g Hg Hst. destruct (Forall2_elem_r _ _ _ g Hz Hg) as (z & Hin & Hgz).
    assert (marked config (final z)) as Hst' by (apply validated_ok in Hgz as [_ <-]; exact Hst).
    destruct (left_of timeframe config candles _ Hs Hcr z Hin Hst') as (b & Hbin & Hof).
    destruct (Forall2_elem_l _ _ _ b Hb Hbin) as (gb & Hgb & Egb).
    destruct (last_ok timeframe config candles _ Hs Hcr b Hbin) as (_ & _ & Hf).
    exists gb. split; [done|]. by eapply (schema_left_by config (final z) b (last_of b)).
Qed.

(** C21. Whatever the bars, the analysis of checked input succeeds; each block
    passes its schema, its lifecycle is a run of the protocol with confirmations
    in order, and its time stamps are those of its events; so is each breaker,
    which has its invalidated block among those returned, with the same bounds
    and the opposite direction; and when breakers are enabled no invalidated
    block is without its breaker. *)
Theorem order_blocks_follow_protocol :
  _validate_inputs candles timeframe events displacements config atr_result = Ok tt -> pools_ok pools ->
  Forall candle_wf candles -> Forall narrow candles ->
  exists r, analyze_order_blocks candles timeframe events config displacements swings pools atr_result = Ok r
    /\ Forall lawful_block (OrderBlockAnalysisResult.order_blocks r)
    /\ Forall lawful_breaker (OrderBlockAnalysisResult.breaker_blocks r)
    /\ (forall b, b ∈ OrderBlockAnalysisResult.breaker_blocks r ->
          exists g, g ∈ OrderBlockAnalysisResult.order_blocks r /\ left_by g b)
    /\ (OrderBlockConfig.breaker_enabled config = true -> forall g, g ∈ OrderBlockAnalysisResult.order_blocks r ->
          OrderBlockZone.status g = OrderBlockStatus.INVALIDATED ->
          exists b, b ∈ OrderBlockAnalysisResult.breaker_blocks r /\ left_by g b).
Proof.
  intros Hv Hp Hw Hn. destruct (returned_lawful Hv Hp Hw Hn) as (r & E & Hz & Hb & Hof & Hleft).
  exists r. split_and!; [done..|]. intros Hbe g Hg Hst. by apply Hleft; [|right].
Qed.
End contract.

(** ** The context is point-in-time *)

(** The pools as they were known at [at_]. *)
Definition pools_known (at_ : datetime) (pools : list LiquidityPool) : list LiquidityPool :=
  omap (fun pool => match LiquidityPool.snapshot_at pool at_ with Ok known => known | Raise _ => None end) pools.

Definition swings_known (at_ : datetime) (swings : list ConfirmedSwing) : list ConfirmedSwing :=
  List.filter (fun swing => ConfirmedSwing.confirmed_at swing <=? at_) swings.

(** The average true range up to the bar before [index]. *)
Definition atr_known (index : nat) (atr : ATRResult) : ATRResult :=
  ATRResult.mkATRResult (ATRResult.config atr) (take index (ATRResult.points atr)).

Section known.
Context (direction : OrderBlockDirection) (bar : Candle) (at_ : datetime).
Hypothesis Hat : Candle.timestamp bar <= at_.

Lemma context_atr_known index atr : context_atr index (atr_known index <$> atr) = context_atr index atr.
Proof.
  unfold context_atr. destruct atr as [atr|]; [|done]. cbn [fmap option_fmap option_map].
  destruct (Nat.ltb_spec 0 index); [|done]. cbn [atr_known ATRResult.points]. by rewrite lookup_take_lt by lia.
Qed.

Lemma swing_context_known swings : swing_context direction bar (swings_known at_ swings) = swing_context direction bar swings.
Proof.
  unfold swing_context, swings_known. cbv zeta. rewrite filter_andb.
  match goal with |- match py_max _ ?l with _ => _ end = match py_max _ ?l' with _ => _ end => assert (l = l') as -> end; [|done].
  apply filter_ext_in. intros swing _. destruct (Z.leb_spec (ConfirmedSwing.confirmed_at swing) (Candle.timestamp bar)).
  - rewrite andb_true_r, (proj2 (Z.leb_le _ at_)) by lia. by rewrite ?andb_true_r.
  - by rewrite ?andb_false_r, ?andb_false_l.
Qed.

Lemma pool_contexts_known pools : pools_ok pools ->
  (fun l => concat l) <$> py_map (pool_context direction bar) (pools_known at_ pools)
  = (fun l => concat l) <$> py_map (pool_context direction bar) pools.
Proof.
  induction 1 as [|pool pools [Hv He] _ IH]; [done|]. unfold pools_known in *. cbn [omap list_omap py_map].
  destruct (snapshot_at_spec pool at_ Hv He) as [Hnone Hsome].
  destruct (Z.lt_ge_cases at_ (LiquidityPool.created_at pool)) as [Hc|Hc].
  - rewrite (Hnone Hc), IH. destruct (snapshot_at_spec pool (Candle.timestamp bar) Hv He) as [Hn _].
    unfold pool_context at 2. rewrite Hn by lia. cbn. by destruct (py_map _ pools).
  - destruct (Hsome Hc) as (known & -> & _ & _ & _ & _ & Hearlier). cbn [py_map].
    assert (pool_context direction bar known = pool_context direction bar pool) as ->
      by (unfold pool_context; by rewrite Hearlier).
    destruct (pool_context direction bar pool); [|done].
    revert IH. destruct (py_map _ _), (py_map _ pools); cbn; congruence.
Qed.
End known.

(** The context that qualifies a candidate is what was known when its
    candle opened: later swings, later pools, what happened to a pool later,
    and the volatility of later bars do not change it. *)
Theorem order_block_context_point_in_time direction bar index swings pools atr config at_ :
  pools_ok pools -> Candle.timestamp bar <= at_ ->
  _context_for_candidate direction bar index (swings_known at_ swings) (pools_known at_ pools)
    (atr_known index <$> atr) config
  = _context_for_candidate direction bar index swings pools atr config.
Proof.
  intros Hp Hat. unfold _context_for_candidate. rewrite context_atr_known, (swing_context_known direction bar at_ Hat).
  destruct (negb _); [done|]. destruct (_ && _); [done|].
  pose proof (pool_contexts_known direction bar at_ Hat pools Hp) as H. revert H.
  destruct (py_map _ _), (py_map _ pools); cbn; congruence.
Qed.

(** ** A sample: a break of structure, its block, the breaker it leaves *)

Definition ob_bar (n o h l c : Z) : Candle := Candle.mkCandle (n * 900000000) (D o) (D h) (D l) (D c) (D 10).

Definition ob_bars : list Candle :=
  [ob_bar 0 100 104 98 103; ob_bar 1 103 105 96 99; ob_bar 2 99 110 98 109; ob_bar 3 109 112 107 111;
   ob_bar 4 111 113 100 108; ob_bar 5 108 109 90 92; ob_bar 6 92 102 91 94; ob_bar 7 94 110 93 108].

Definition ob_break (broken : string) : StructureBreakEvent :=
  StructureBreakEvent.mkStructureBreakEvent StructureEventType.BOS StructureDirection.BULLISH (D 105) (2 * 900000000)
    broken StructureBreakBasis.CLOSE (3 * 900000000) None TrendState.BULLISH.

Definition ob_config : OrderBlockConfig :=
  OrderBlockConfig.mkOrderBlockConfig (D 1) 10 false false 5 (D 0) OrderBlockRankPolicy.EXTREME_THEN_BODY
    OrderBlockZoneBasis.BODY 0 5 false OrderBlockProbeBasis.CLOSE OrderBlockProbeBasis.CLOSE 0 50 true 20.

Definition ob_statuses : option (list OrderBlockStatus * list BreakerBlockStatus) :=
  match analyze_order_blocks ob_bars Timeframe.FIFTEEN_MINUTES [ob_break "S1"] ob_config [] [] [pool_example] None with
  | Ok r => Some (map OrderBlockZone.status (OrderBlockAnalysisResult.order_blocks r),
                  map BreakerBlockZone.status (OrderBlockAnalysisResult.breaker_blocks r))
  | Raise _ => None
  end.

(** The block ends below its zone, its breaker is activated by the next bar and
    ends above it. *)
Example ob_sample_runs : ob_statuses = Some ([OrderBlockStatus.INVALIDATED], [BreakerBlockStatus.INVALIDATED]).
Proof. by vm_compute. Qed.

Lemma ob_bars_ok : _validate_inputs ob_bars Timeframe.FIFTEEN_MINUTES [ob_break "S1"] [] ob_config None = Ok tt
  /\ pools_ok [pool_example] /\ Forall candle_wf ob_bars /\ Forall narrow ob_bars.
Proof.
  refine (conj _ (conj _ (conj _ _))).
  - by vm_compute.
  - constructor; [|constructor]. split; [by vm_compute|]. repeat constructor; discriminate.
  - apply Forall_forall. intros c Hc%list_elem_of_In. apply valid_candle_wf. revert c Hc.
    apply List.forallb_forall. by vm_compute.
  - unfold ob_bars. repeat constructor; try (unfold fits; cbn; lia); unfold ob_bar; cbn;
      match goal with |- exists s, _ /\ (Qval (D ?o) + Qval (D ?c) == _)%Q =>
        exists (D (o + c)); split; [by vm_compute | rewrite !Qval_D; reflexivity] end.
Qed.

Lemma order_block_creation_exact_witness :
  exists (vs : list (_OrderBlockState + OrderBlockRejection)) r, analyze_order_blocks ob_bars Timeframe.FIFTEEN_MINUTES [ob_break "S1"] ob_config [] [] [pool_example] None = Ok r
    /\ Forall2 created_as (blocks_in vs) (OrderBlockAnalysisResult.order_blocks r).
Proof.
  destruct ob_bars_ok as (H1 & H2 & H3 & H4).
  destruct (order_block_creation_exact ob_bars Timeframe.FIFTEEN_MINUTES [ob_break "S1"] ob_config [] [] [pool_example] None
    H1 H2 H3 H4) as (vs & r & E & _ & _ & H). exists vs, r. split; [exact E | exact H].
Defined.

Lemma order_blocks_follow_protocol_witness :
  exists r, analyze_order_blocks ob_bars Timeframe.FIFTEEN_MINUTES [ob_break "S1"] ob_config [] [] [pool_example] None = Ok r
    /\ Forall lawful_block (OrderBlockAnalysisResult.order_blocks r).
Proof.
  destruct ob_bars_ok as (H1 & H2 & H3 & H4).
  destruct (order_blocks_follow_protocol ob_bars Timeframe.FIFTEEN_MINUTES [ob_break "S1"] ob_config [] [] [pool_example] None
    H1 H2 H3 H4) as (r & E & H & _). exists r. split; [exact E | exact H].
Defined.

Lemma order_blocks_live_independently_witness :
  exists created rejections breakers,
    analyze_order_blocks ob_bars Timeframe.FIFTEEN_MINUTES [ob_break "S1"] ob_config [] [] [pool_example] None
    = (blocks ← py_map (_to_order_block_schema ob_config)
                  (map (block_after Timeframe.FIFTEEN_MINUTES ob_config (enumerate ob_bars)) created);
       breakers ← py_map _to_breaker_schema breakers;
       Ok (OrderBlockAnalysisResult.mkOrderBlockAnalysisResult Timeframe.FIFTEEN_MINUTES ob_config 8
             (data_cutoff_at ob_bars Timeframe.FIFTEEN_MINUTES) blocks breakers rejections)).
Proof.
  destruct ob_bars_ok as (H1 & H2 & _ & _).
  destruct (order_blocks_live_independently ob_bars Timeframe.FIFTEEN_MINUTES [ob_break "S1"] ob_config [] [] [pool_example] None
    H1 H2) as (created & rejections & _ & E). eexists created, rejections, _. exact E.
Defined.

(** A candidate's high two ticks above the pool, which was swept later. *)
Definition ob_context_config : OrderBlockConfig :=
  OrderBlockConfig.mkOrderBlockConfig (D 1) 10 false true 5 (D 0) OrderBlockRankPolicy.EXTREME_THEN_BODY
    OrderBlockZoneBasis.BODY 0 5 false OrderBlockProbeBasis.CLOSE OrderBlockProbeBasis.CLOSE 0 50 true 20.

Lemma order_block_context_point_in_time_witness :
  _context_for_candidate OrderBlockDirection.BEARISH (ob_bar 1 99 103 98 102) 1 (swings_known 900000000 [])
    (pools_known 900000000 [pool_example]) (atr_known 1 <$> None) ob_context_config = Ok (Some ["LIQUIDITY:LIQ:1"]).
Proof.
  etransitivity.
  - apply order_block_context_point_in_time; [exact (proj1 (proj2 ob_bars_ok)) | discriminate].
  - by vm_compute.
Defined.
