(* ===== verification/Risk.v ===== *)
(** The risk engine: [engines/risk/calculations.py] and [schemas/risk.py].

    One structural stop, one opposing-liquidity target, and every rejection.
    [RiskPlan] objects go through their validator, so that "the engine never
    raises" is a theorem about the computation and not an assumption. *)
From Stdlib Require Import ZArith QArith Lia Lqa.
From stdpp Require Import base list strings numbers sets.
From S2P Require Import Prelude Decimal Time Candle Signal LiquidityTypes.
Local Open Scope Z_scope.

(** ** Schemas *)

Module RiskDirection.
Inductive RiskDirection := LONG | SHORT.
#[global] Instance RiskDirection_eqdec : EqDecision RiskDirection := ltac:(solve_decision).
End RiskDirection.
Abbreviation RiskDirection := RiskDirection.RiskDirection.

Module RiskDecision.
Inductive RiskDecision := LONG | SHORT | NO_TRADE.
#[global] Instance RiskDecision_eqdec : EqDecision RiskDecision := ltac:(solve_decision).
End RiskDecision.
Abbreviation RiskDecision := RiskDecision.RiskDecision.

Module RiskEntryReference.
Inductive RiskEntryReference := MIDPOINT | NEAR_EDGE | FAR_EDGE.
#[global] Instance RiskEntryReference_eqdec : EqDecision RiskEntryReference := ltac:(solve_decision).
End RiskEntryReference.
Abbreviation RiskEntryReference := RiskEntryReference.RiskEntryReference.

Module RiskTargetSource.
Inductive RiskTargetSource := NEAREST_OPPOSING_LIQUIDITY.
End RiskTargetSource.
Abbreviation RiskTargetSource := RiskTargetSource.RiskTargetSource.

Module RiskReasonCode.
Inductive RiskReasonCode :=
| RISK_ACCEPTED | CANDIDATE_NOT_AVAILABLE | ATR_UNAVAILABLE | STOP_LEVEL_INVALID
| RISK_DISTANCE_BELOW_MINIMUM | RISK_DISTANCE_ABOVE_ATR_MAXIMUM | STRUCTURAL_TARGET_UNAVAILABLE
| DIRECTIONAL_LEVELS_INVALID | REWARD_DISTANCE_INVALID | RR_BELOW_MINIMUM.
#[global] Instance RiskReasonCode_eqdec : EqDecision RiskReasonCode := ltac:(solve_decision).
End RiskReasonCode.
Abbreviation RiskReasonCode := RiskReasonCode.RiskReasonCode.

Module RiskEngineConfig.
Record RiskEngineConfig := mkRiskEngineConfig {
  entry_reference : RiskEntryReference;
  stop_buffer_ticks : Z;
  atr_buffer : dec;
  min_distance_ticks : Z;
  max_distance_atr_ratio : dec;
  target_source : RiskTargetSource;
  target_min_distance_ticks : Z;
  min_rr : dec
}.
Definition valid (c : RiskEngineConfig) : bool :=
  (0 <=? stop_buffer_ticks c) && dleb (D 0) (atr_buffer c) && (1 <=? min_distance_ticks c)
  && dltb (D 0) (max_distance_atr_ratio c) && (1 <=? target_min_distance_ticks c) && dltb (D 0) (min_rr c).
End RiskEngineConfig.
Abbreviation RiskEngineConfig := RiskEngineConfig.RiskEngineConfig.

Module RiskCandidate.
Record RiskCandidate := mkRiskCandidate {
  candidate_id : string;
  direction : RiskDirection;
  entry_zone : EntryZone;
  structural_invalidation_level : dec;
  structural_invalidation_source : string;
  confirmed_at : datetime
}.
Definition require_structural_invalidation_outside_entry (c : RiskCandidate) : bool :=
  negb (String.length (candidate_id c) =? 0)%nat && EntryZone.validate_bounds (entry_zone c)
  && dltb (D 0) (structural_invalidation_level c)
  && negb (String.length (structural_invalidation_source c) =? 0)%nat
  && match direction c with
     | RiskDirection.LONG => negb (dleb (EntryZone.low (entry_zone c)) (structural_invalidation_level c))
     | RiskDirection.SHORT => negb (dleb (structural_invalidation_level c) (EntryZone.high (entry_zone c)))
     end.
End RiskCandidate.
Abbreviation RiskCandidate := RiskCandidate.RiskCandidate.

Module RiskSelectionMetadata.
Record RiskSelectionMetadata := mkRiskSelectionMetadata {
  entry_method : RiskEntryReference;
  entry_raw : dec;
  entry_rounding : string;
  stop_source : string;
  stop_source_id : string;
  stop_structural_level : dec;
  stop_tick_buffer : dec;
  stop_atr_buffer : dec;
  stop_selected_buffer : dec;
  stop_rounding : string;
  target_source : RiskTargetSource;
  target_source_id : string;
  target_source_structure : list string;
  target_raw_level : dec;
  target_rounding : string;
  target_selection_rule : string
}.
Definition valid (m : RiskSelectionMetadata) : bool :=
  dltb (D 0) (entry_raw m) && dltb (D 0) (stop_structural_level m) && dleb (D 0) (stop_tick_buffer m)
  && dleb (D 0) (stop_atr_buffer m) && dleb (D 0) (stop_selected_buffer m) && dltb (D 0) (target_raw_level m).
End RiskSelectionMetadata.
Abbreviation RiskSelectionMetadata := RiskSelectionMetadata.RiskSelectionMetadata.

Module RiskPlan.
Record RiskPlan := mkRiskPlan {
  candidate_id : string;
  decision : RiskDecision;
  decision_time : datetime;
  entry_zone : option EntryZone;
  entry_reference : option dec;
  take_profit : option dec;
  stop_loss : option dec;
  risk : option dec;
  reward : option dec;
  risk_reward : option dec;
  selection_metadata : option RiskSelectionMetadata;
  reason_codes : list RiskReasonCode
}.

Definition is_some {A} (o : option A) : bool := match o with Some _ => true | None => false end.

(** [Field(default=None, gt=0)] *)
Definition positive (o : option dec) : bool := match o with Some x => dltb (D 0) x | None => true end.

Definition levels_present (p : RiskPlan) : list bool :=
  [is_some (entry_zone p); is_some (entry_reference p); is_some (take_profit p); is_some (stop_loss p);
   is_some (risk p); is_some (reward p); is_some (risk_reward p); is_some (selection_metadata p)].

(** The consistency rules of an accepted plan. *)
Definition levels_consistent (decision : RiskDecision) (zone : EntryZone)
    (entry take_profit stop_loss risk reward risk_reward : dec) : bool :=
  deqb risk_reward (ddiv DEFAULT_PREC reward risk) &&
  match decision with
  | RiskDecision.LONG =>
      dltb stop_loss (EntryZone.low zone) && dleb (EntryZone.low zone) (EntryZone.high zone)
      && dltb (EntryZone.high zone) take_profit
      && deqb risk (dsub DEFAULT_PREC entry stop_loss)
      && deqb reward (dsub DEFAULT_PREC take_profit entry)
  | _ =>
      dltb take_profit (EntryZone.low zone) && dleb (EntryZone.low zone) (EntryZone.high zone)
      && dltb (EntryZone.high zone) stop_loss
      && deqb risk (dsub DEFAULT_PREC stop_loss entry)
      && deqb reward (dsub DEFAULT_PREC entry take_profit)
  end.

Definition validate_plan (p : RiskPlan) : bool :=
  positive (entry_reference p) && positive (take_profit p) && positive (stop_loss p)
  && positive (risk p) && positive (reward p) && positive (risk_reward p)
  && negb (length (reason_codes p) =? 0)%nat
  && match decision p with
     | RiskDecision.NO_TRADE => negb (existsb id (levels_present p))
     | _ =>
         match entry_zone p, entry_reference p, take_profit p, stop_loss p, risk p, reward p,
               risk_reward p, selection_metadata p with
         | Some zone, Some entry, Some tp, Some sl, Some r, Some w, Some rr, Some _ =>
             levels_consistent (decision p) zone entry tp sl r w rr
         | _, _, _, _, _, _, _, _ => false
         end
     end.
End RiskPlan.
Abbreviation RiskPlan := RiskPlan.RiskPlan.

(** ** The engine *)

Definition _entry_reference (candidate : RiskCandidate) (config : RiskEngineConfig) : dec :=
  let zone := RiskCandidate.entry_zone candidate in
  match RiskEngineConfig.entry_reference config, RiskCandidate.direction candidate with
  | RiskEntryReference.MIDPOINT, _ =>
      ddiv DEFAULT_PREC (dadd DEFAULT_PREC (EntryZone.low zone) (EntryZone.high zone)) (D 2)
  | RiskEntryReference.NEAR_EDGE, RiskDirection.LONG => EntryZone.high zone
  | RiskEntryReference.NEAR_EDGE, RiskDirection.SHORT => EntryZone.low zone
  | RiskEntryReference.FAR_EDGE, RiskDirection.LONG => EntryZone.low zone
  | RiskEntryReference.FAR_EDGE, RiskDirection.SHORT => EntryZone.high zone
  end.

(** [(value / tick_size).to_integral_value(rounding=...) * tick_size] *)
Definition tick_rounded (mode : rounding) (value tick_size : dec) : pyres dec :=
  q ← ddiv_py DEFAULT_PREC value tick_size;
  Ok (dmul DEFAULT_PREC (to_integral mode q) tick_size).

Definition _round_nearest_tick := tick_rounded ROUND_HALF_UP.
Definition _floor_tick := tick_rounded ROUND_FLOOR.
Definition _ceil_tick := tick_rounded ROUND_CEILING.

Definition _rejected (candidate : RiskCandidate) (reason : RiskReasonCode) : pyres RiskPlan :=
  validated RiskPlan.validate_plan
    (RiskPlan.mkRiskPlan (RiskCandidate.candidate_id candidate) RiskDecision.NO_TRADE
      (RiskCandidate.confirmed_at candidate) None None None None None None None None [reason]).

(** The keys of the two [min] calls. *)
Definition long_key_lt : LiquidityPool -> LiquidityPool -> bool :=
  lex_lt (on_key LiquidityPool.lower_bound dltb)
    (lex_lt (on_key LiquidityPool.created_at Z.ltb) (on_key LiquidityPool.pool_id str_lt)).

Definition short_key_lt : LiquidityPool -> LiquidityPool -> bool :=
  lex_lt (on_key (fun pool => dneg DEFAULT_PREC (LiquidityPool.upper_bound pool)) dltb)
    (lex_lt (on_key LiquidityPool.created_at Z.ltb) (on_key LiquidityPool.pool_id str_lt)).

Definition visible_active (candidate : RiskCandidate) (pool : LiquidityPool) : bool :=
  (LiquidityPool.created_at pool <=? RiskCandidate.confirmed_at candidate)
  && (LiquidityPool.updated_at pool <=? RiskCandidate.confirmed_at candidate)
  && bool_decide (LiquidityPool.state pool = LiquidityPoolState.ACTIVE).

Definition eligible_target (candidate : RiskCandidate) (entry_reference minimum : dec) (pool : LiquidityPool) : bool :=
  visible_active candidate pool &&
  match RiskCandidate.direction candidate with
  | RiskDirection.LONG =>
      bool_decide (LiquidityPool.direction pool = LiquidityDirection.BUY_SIDE)
      && dltb (dadd DEFAULT_PREC entry_reference minimum) (LiquidityPool.lower_bound pool)
  | RiskDirection.SHORT =>
      bool_decide (LiquidityPool.direction pool = LiquidityDirection.SELL_SIDE)
      && dltb (LiquidityPool.upper_bound pool) (dsub DEFAULT_PREC entry_reference minimum)
  end.

Definition _select_target_pool (candidate : RiskCandidate) (pools : list LiquidityPool) (entry_reference : dec)
    (config : RiskEngineConfig) (tick_size : dec) : option LiquidityPool :=
  let minimum := dmul DEFAULT_PREC (D (RiskEngineConfig.target_min_distance_ticks config)) tick_size in
  let eligible := List.filter (eligible_target candidate entry_reference minimum) pools in
  match RiskCandidate.direction candidate with
  | RiskDirection.LONG => py_min long_key_lt eligible
  | RiskDirection.SHORT => py_min short_key_lt eligible
  end.

Definition selection_rule (direction : RiskDirection) : string :=
  "nearest active opposing liquidity in the "
  +:+ (match direction with RiskDirection.LONG => "long" | RiskDirection.SHORT => "short" end)
  +:+ " reward direction; ties use created_at then pool_id".

(** The stop side of the plan: [(tick_buffer, atr_buffer, selected_buffer, stop_loss, risk)]. *)
Definition stop_side (candidate : RiskCandidate) (config : RiskEngineConfig) (tick_size : dec)
    (atr_at_decision : option dec) (entry_reference : dec) : pyres (dec * dec * dec * dec * dec) :=
  let tick_buffer := dmul DEFAULT_PREC (D (RiskEngineConfig.stop_buffer_ticks config)) tick_size in
  let atr_buffer := match atr_at_decision with
    | Some atr => dmul DEFAULT_PREC (RiskEngineConfig.atr_buffer config) atr
    | None => D 0 end in
  let selected_buffer := dmax tick_buffer atr_buffer in
  let structural_level := RiskCandidate.structural_invalidation_level candidate in
  match RiskCandidate.direction candidate with
  | RiskDirection.LONG =>
      stop_loss ← _floor_tick (dsub DEFAULT_PREC structural_level selected_buffer) tick_size;
      Ok (tick_buffer, atr_buffer, selected_buffer, stop_loss, dsub DEFAULT_PREC entry_reference stop_loss)
  | RiskDirection.SHORT =>
      stop_loss ← _ceil_tick (dadd DEFAULT_PREC structural_level selected_buffer) tick_size;
      Ok (tick_buffer, atr_buffer, selected_buffer, stop_loss, dsub DEFAULT_PREC stop_loss entry_reference)
  end.

(** The target side: [(target_raw, take_profit, reward, ordered)]. *)
Definition target_side (candidate : RiskCandidate) (tick_size entry_reference stop_loss : dec)
    (target_pool : LiquidityPool) : pyres (dec * dec * dec * bool) :=
  let zone := RiskCandidate.entry_zone candidate in
  match RiskCandidate.direction candidate with
  | RiskDirection.LONG =>
      let target_raw := LiquidityPool.lower_bound target_pool in
      take_profit ← _floor_tick target_raw tick_size;
      Ok (target_raw, take_profit, dsub DEFAULT_PREC take_profit entry_reference,
          dltb stop_loss (EntryZone.low zone) && dleb (EntryZone.low zone) (EntryZone.high zone)
          && dltb (EntryZone.high zone) take_profit)
  | RiskDirection.SHORT =>
      let target_raw := LiquidityPool.upper_bound target_pool in
      take_profit ← _ceil_tick target_raw tick_size;
      Ok (target_raw, take_profit, dsub DEFAULT_PREC entry_reference take_profit,
          dltb take_profit (EntryZone.low zone) && dleb (EntryZone.low zone) (EntryZone.high zone)
          && dltb (EntryZone.high zone) stop_loss)
  end.

Definition calculate_risk_plan (candidate : RiskCandidate) (liquidity_pools : list LiquidityPool)
    (config : RiskEngineConfig) (tick_size : dec) (atr_at_decision : option dec) : pyres RiskPlan :=
  _ ← raise_if (dleb tick_size (D 0)) (Exc "ValueError" "tick_size must be finite and positive");
  _ ← raise_if (match atr_at_decision with Some atr => dleb atr (D 0) | None => false end)
        (Exc "ValueError" "atr_at_decision must be finite and positive when supplied");
  _ ← raise_if (existsb (fun pool =>
          (LiquidityPool.created_at pool <=? RiskCandidate.confirmed_at candidate)
          && (RiskCandidate.confirmed_at candidate <? LiquidityPool.updated_at pool)) liquidity_pools)
        (Exc "RiskInputError" "liquidity pools must be point-in-time snapshots at the candidate confirmation");
  let entry_raw := _entry_reference candidate config in
  entry_reference ← _round_nearest_tick entry_raw tick_size;
  if dltb (D 0) (RiskEngineConfig.atr_buffer config) && bool_decide (atr_at_decision = None)
  then _rejected candidate RiskReasonCode.ATR_UNAVAILABLE else
  '(tick_buffer, atr_buffer, selected_buffer, stop_loss, risk) ←
     stop_side candidate config tick_size atr_at_decision entry_reference;
  if dleb stop_loss (D 0) || dleb risk (D 0) then _rejected candidate RiskReasonCode.STOP_LEVEL_INVALID
  else if dltb risk (dmul DEFAULT_PREC (D (RiskEngineConfig.min_distance_ticks config)) tick_size)
  then _rejected candidate RiskReasonCode.RISK_DISTANCE_BELOW_MINIMUM
  else match atr_at_decision with
  | None => _rejected candidate RiskReasonCode.ATR_UNAVAILABLE
  | Some atr =>
      ratio ← ddiv_py DEFAULT_PREC risk atr;
      if dltb (RiskEngineConfig.max_distance_atr_ratio config) ratio
      then _rejected candidate RiskReasonCode.RISK_DISTANCE_ABOVE_ATR_MAXIMUM
      else match _select_target_pool candidate liquidity_pools entry_reference config tick_size with
      | None => _rejected candidate RiskReasonCode.STRUCTURAL_TARGET_UNAVAILABLE
      | Some target_pool =>
          '(target_raw, take_profit, reward, ordered) ←
             target_side candidate tick_size entry_reference stop_loss target_pool;
          if negb ordered then _rejected candidate RiskReasonCode.DIRECTIONAL_LEVELS_INVALID
          else if dleb reward (D 0) then _rejected candidate RiskReasonCode.REWARD_DISTANCE_INVALID
          else
            risk_reward ← ddiv_py DEFAULT_PREC reward risk;
            if dltb risk_reward (RiskEngineConfig.min_rr config)
            then _rejected candidate RiskReasonCode.RR_BELOW_MINIMUM
            else
              let direction := RiskCandidate.direction candidate in
              let level_rounding := match direction with
                | RiskDirection.LONG => "ROUND_FLOOR_TO_TICK"
                | RiskDirection.SHORT => "ROUND_CEILING_TO_TICK" end in
              metadata ← validated RiskSelectionMetadata.valid
                (RiskSelectionMetadata.mkRiskSelectionMetadata (RiskEngineConfig.entry_reference config) entry_raw
                  "ROUND_HALF_UP_TO_TICK" "SETUP_STRUCTURAL_INVALIDATION"
                  (RiskCandidate.structural_invalidation_source candidate)
                  (RiskCandidate.structural_invalidation_level candidate)
                  tick_buffer atr_buffer selected_buffer level_rounding
                  (RiskEngineConfig.target_source config) (LiquidityPool.pool_id target_pool)
                  (LiquidityPool.source_structure target_pool) target_raw level_rounding
                  (selection_rule direction));
              validated RiskPlan.validate_plan
                (RiskPlan.mkRiskPlan (RiskCandidate.candidate_id candidate)
                  (match direction with RiskDirection.LONG => RiskDecision.LONG
                                      | RiskDirection.SHORT => RiskDecision.SHORT end)
                  (RiskCandidate.confirmed_at candidate) (Some (RiskCandidate.entry_zone candidate))
                  (Some entry_reference) (Some take_profit) (Some stop_loss) (Some risk) (Some reward)
                  (Some risk_reward) (Some metadata) [RiskReasonCode.RISK_ACCEPTED])
      end
  end.
