(* ===== verification/RiskTheory.v ===== *)
(** Theorems on the risk engine of [engines/risk/calculations.py]. *)
From Stdlib Require Import ZArith QArith Lia Lqa.
From stdpp Require Import base list strings numbers sets.
From S2P Require Import Prelude Decimal Time Candle Signal LiquidityTypes Risk.
Local Open Scope Z_scope.

(** ** The calculation never raises *)

(** Well-formed arguments: what the schemas of the arguments and the guards of
    the function establish. *)
Record risk_inputs (candidate : RiskCandidate) (pools : list LiquidityPool) (config : RiskEngineConfig)
    (tick_size : dec) (atr : option dec) : Prop := {
  ri_candidate : RiskCandidate.require_structural_invalidation_outside_entry candidate = true;
  ri_config : RiskEngineConfig.valid config = true;
  ri_tick : (0 < Qval tick_size)%Q;
  ri_atr : forall a, atr = Some a -> (0 < Qval a)%Q;
  ri_pools : Forall (fun pool => LiquidityPool.validate_pool pool = true) pools;
  ri_point_in_time : Forall (fun pool =>
    LiquidityPool.created_at pool <= RiskCandidate.confirmed_at candidate ->
    LiquidityPool.updated_at pool <= RiskCandidate.confirmed_at candidate) pools
}.

Definition rejected_plan (candidate : RiskCandidate) (reason : RiskReasonCode) : RiskPlan :=
  RiskPlan.mkRiskPlan (RiskCandidate.candidate_id candidate) RiskDecision.NO_TRADE
    (RiskCandidate.confirmed_at candidate) None None None None None None None None [reason].

Lemma rejected_ok candidate reason : _rejected candidate reason = Ok (rejected_plan candidate reason).
Proof. reflexivity. Qed.

Lemma rejected_valid candidate reason : RiskPlan.validate_plan (rejected_plan candidate reason) = true.
Proof. reflexivity. Qed.

Lemma tick_rounded_ok mode value tick_size : (0 < Qval tick_size)%Q ->
  tick_rounded mode value tick_size =
  Ok (dmul DEFAULT_PREC (to_integral mode (ddiv DEFAULT_PREC value tick_size)) tick_size).
Proof. intros H. unfold tick_rounded. by rewrite ddiv_py_ok by lra. Qed.

Lemma ceil_tick_pos value tick_size : (0 < Qval value)%Q -> (0 < Qval tick_size)%Q ->
  (0 < Qval (dmul DEFAULT_PREC (to_integral ROUND_CEILING (ddiv DEFAULT_PREC value tick_size)) tick_size))%Q.
Proof.
  intros Hv Ht. apply dmul_pos; [|done].
  destruct (to_integral_ceiling (ddiv DEFAULT_PREC value tick_size)) as [H _].
  pose proof (proj2 (ddiv_pos (p := DEFAULT_PREC) value tick_size Ht) Hv). lra.
Qed.

Lemma candidate_zone candidate : RiskCandidate.require_structural_invalidation_outside_entry candidate = true ->
  (0 < Qval (EntryZone.low (RiskCandidate.entry_zone candidate))
   /\ Qval (EntryZone.low (RiskCandidate.entry_zone candidate))
      <= Qval (EntryZone.high (RiskCandidate.entry_zone candidate))
   /\ 0 < Qval (RiskCandidate.structural_invalidation_level candidate))%Q.
Proof.
  unfold RiskCandidate.require_structural_invalidation_outside_entry, EntryZone.validate_bounds.
  intros H. bool_hyps. dec_to_Q. rewrite Qval_D0 in *. split_and!; lra.
Qed.

Lemma entry_reference_pos candidate config :
  RiskCandidate.require_structural_invalidation_outside_entry candidate = true ->
  (0 < Qval (_entry_reference candidate config))%Q.
Proof.
  intros (H1 & H2 & _)%candidate_zone. unfold _entry_reference.
  destruct (RiskEngineConfig.entry_reference config); [|destruct (RiskCandidate.direction candidate); lra..].
  apply ddiv_pos; [rewrite Qval_D; reflexivity|]. apply dadd_pos; lra.
Qed.

Lemma dmul_D_nonneg n x : 0 <= n -> (0 <= Qval x)%Q -> (0 <= Qval (dmul DEFAULT_PREC (D n) x))%Q.
Proof.
  intros Hn Hx. apply dmul_nonneg; [|done]. rewrite Qval_D. change 0%Q with (inject_Z 0). by rewrite <-Zle_Qle.
Qed.

(** The stop side succeeds, with nonnegative buffers. *)
Lemma stop_side_ok candidate pools config tick_size atr entry : risk_inputs candidate pools config tick_size atr ->
  exists tb ab sb sl r, stop_side candidate config tick_size atr entry = Ok (tb, ab, sb, sl, r)
    /\ (0 <= Qval tb /\ 0 <= Qval ab /\ 0 <= Qval sb)%Q
    /\ r = match RiskCandidate.direction candidate with
           | RiskDirection.LONG => dsub DEFAULT_PREC entry sl
           | RiskDirection.SHORT => dsub DEFAULT_PREC sl entry end.
Proof.
  intros [_ Hc Ht Ha _ _]. unfold RiskEngineConfig.valid in Hc. bool_hyps. dec_to_Q. rewrite Qval_D0 in *.
  unfold stop_side, _floor_tick, _ceil_tick. rewrite !tick_rounded_ok by done. cbn [mbind pyres_bind].
  set (tb := dmul DEFAULT_PREC (D (RiskEngineConfig.stop_buffer_ticks config)) tick_size).
  set (ab := match atr with Some a => _ | None => _ end).
  assert (0 <= Qval tb)%Q as Htb by (apply dmul_D_nonneg; [by apply Z.leb_le|lra]).
  assert (0 <= Qval ab)%Q as Hab.
  { unfold ab. destruct atr as [a|]; [|rewrite Qval_D0; lra].
    specialize (Ha a eq_refl). apply dmul_nonneg; lra. }
  pose proof (dmax_ge tb ab).
  destruct (RiskCandidate.direction candidate); eexists _, _, _, _, _; (split; [reflexivity|]); (split; [|done]);
    split_and!; lra.
Qed.

Lemma target_side_ok candidate pools config tick_size atr entry sl pool :
  risk_inputs candidate pools config tick_size atr -> LiquidityPool.validate_pool pool = true ->
  exists raw tp w ordered, target_side candidate tick_size entry sl pool = Ok (raw, tp, w, ordered)
    /\ (0 < Qval raw)%Q
    /\ raw = match RiskCandidate.direction candidate with
             | RiskDirection.LONG => LiquidityPool.lower_bound pool
             | RiskDirection.SHORT => LiquidityPool.upper_bound pool end
    /\ (RiskCandidate.direction candidate = RiskDirection.SHORT -> 0 < Qval tp)%Q
    /\ w = match RiskCandidate.direction candidate with
           | RiskDirection.LONG => dsub DEFAULT_PREC tp entry
           | RiskDirection.SHORT => dsub DEFAULT_PREC entry tp end
    /\ ordered = let zone := RiskCandidate.entry_zone candidate in
         match RiskCandidate.direction candidate with
         | RiskDirection.LONG => dltb sl (EntryZone.low zone) && dleb (EntryZone.low zone) (EntryZone.high zone)
             && dltb (EntryZone.high zone) tp
         | RiskDirection.SHORT => dltb tp (EntryZone.low zone) && dleb (EntryZone.low zone) (EntryZone.high zone)
             && dltb (EntryZone.high zone) sl end.
Proof.
  intros [_ _ Ht _ _ _] Hv. unfold LiquidityPool.validate_pool in Hv. bool_hyps. dec_to_Q. rewrite Qval_D0 in *.
  unfold target_side, _floor_tick, _ceil_tick. rewrite !tick_rounded_ok by done. cbn [mbind pyres_bind].
  destruct (RiskCandidate.direction candidate); eexists _, _, _, _; split_and!; try done.
  intros _. by apply ceil_tick_pos.
Qed.

Lemma select_target_elem candidate pools entry config tick_size pool :
  _select_target_pool candidate pools entry config tick_size = Some pool ->
  pool ∈ pools /\ eligible_target candidate entry
    (dmul DEFAULT_PREC (D (RiskEngineConfig.target_min_distance_ticks config)) tick_size) pool = true.
Proof.
  unfold _select_target_pool.
  destruct (RiskCandidate.direction candidate); intros H%py_min_mem; apply list_elem_of_In, filter_In in H as [H1 H2];
    (split; [by apply list_elem_of_In|done]).
Qed.

(** The plan built once every test has passed is valid. *)
Lemma accepted_plan_valid candidate config entry tp sl r w rr metadata :
  RiskCandidate.require_structural_invalidation_outside_entry candidate = true ->
  RiskEngineConfig.valid config = true ->
  dleb sl (D 0) || dleb r (D 0) = false -> dleb w (D 0) = false -> dltb rr (RiskEngineConfig.min_rr config) = false ->
  rr = ddiv DEFAULT_PREC w r ->
  match RiskCandidate.direction candidate with
  | RiskDirection.LONG => r = dsub DEFAULT_PREC entry sl /\ w = dsub DEFAULT_PREC tp entry
      /\ dltb sl (EntryZone.low (RiskCandidate.entry_zone candidate))
         && dleb (EntryZone.low (RiskCandidate.entry_zone candidate)) (EntryZone.high (RiskCandidate.entry_zone candidate))
         && dltb (EntryZone.high (RiskCandidate.entry_zone candidate)) tp = true
  | RiskDirection.SHORT => r = dsub DEFAULT_PREC sl entry /\ w = dsub DEFAULT_PREC entry tp
      /\ dltb tp (EntryZone.low (RiskCandidate.entry_zone candidate))
         && dleb (EntryZone.low (RiskCandidate.entry_zone candidate)) (EntryZone.high (RiskCandidate.entry_zone candidate))
         && dltb (EntryZone.high (RiskCandidate.entry_zone candidate)) sl = true
      /\ (0 < Qval tp)%Q
  end ->
  RiskPlan.validate_plan
    (RiskPlan.mkRiskPlan (RiskCandidate.candidate_id candidate)
      (match RiskCandidate.direction candidate with RiskDirection.LONG => RiskDecision.LONG
                                                  | RiskDirection.SHORT => RiskDecision.SHORT end)
      (RiskCandidate.confirmed_at candidate) (Some (RiskCandidate.entry_zone candidate))
      (Some entry) (Some tp) (Some sl) (Some r) (Some w) (Some rr) (Some metadata) [RiskReasonCode.RISK_ACCEPTED]) = true.
Proof.
  intros Hcand Hcfg Hslr Hw Hrr Err Hdir. destruct (candidate_zone _ Hcand) as (Z1 & Z2 & _).
  unfold RiskEngineConfig.valid in Hcfg. bool_hyps.
  assert (0 < Qval sl /\ 0 < Qval r /\ 0 < Qval w /\ 0 < Qval rr)%Q as (Psl & Pr & Pw & Prr).
  { dec_to_Q. rewrite Qval_D0 in *. split_and!; lra. }
  assert (0 < Qval entry /\ 0 < Qval tp)%Q as [Pe Pt].
  { destruct (RiskCandidate.direction candidate).
    - destruct Hdir as (-> & _ & Ho). bool_hyps. dec_to_Q. apply dsub_pos in Pr. split; lra.
    - destruct Hdir as (_ & -> & _ & Ht). apply dsub_pos in Pw. split; lra. }
  unfold RiskPlan.validate_plan, RiskPlan.levels_consistent. cbn.
  rewrite !(fun x => proj2 (dltb_true (D 0) x)) by (rewrite Qval_D0; done). cbn.
  destruct (RiskCandidate.direction candidate); destruct Hdir as (E1 & E2 & Ho & _) || destruct Hdir as (E1 & E2 & Ho).
  - rewrite Err, Ho, <-E1, <-E2, !deqb_refl. done.
  - rewrite Err, Ho, <-E1, <-E2, !deqb_refl. done.
Qed.

Lemma point_in_time_ok candidate pools config tick_size atr : risk_inputs candidate pools config tick_size atr ->
  existsb (fun pool => (LiquidityPool.created_at pool <=? RiskCandidate.confirmed_at candidate)
    && (RiskCandidate.confirmed_at candidate <? LiquidityPool.updated_at pool)) pools = false.
Proof.
  intros [_ _ _ _ _ H]. induction H as [|pool pools Hp _ IH]; cbn; [done|]. rewrite IH, orb_false_r.
  destruct (Z.leb_spec (LiquidityPool.created_at pool) (RiskCandidate.confirmed_at candidate)); [|done].
  cbn. apply Z.ltb_ge. auto.
Qed.

Lemma risk_guards candidate pools config tick_size atr : risk_inputs candidate pools config tick_size atr ->
  dleb tick_size (D 0) = false /\ match atr with Some a => dleb a (D 0) | None => false end = false.
Proof.
  intros [_ _ Ht Ha _ _]. split; [dec_to_Q; by rewrite Qval_D0|].
  destruct atr as [a|]; [|done]. specialize (Ha a eq_refl). dec_to_Q. by rewrite Qval_D0.
Qed.

(** ** A worked example *)

Definition risk_config_example : RiskEngineConfig :=
  RiskEngineConfig.mkRiskEngineConfig RiskEntryReference.MIDPOINT 1 (D 0) 1 (D 100)
    RiskTargetSource.NEAREST_OPPOSING_LIQUIDITY 1 (D 1).

Definition risk_candidate_example : RiskCandidate :=
  RiskCandidate.mkRiskCandidate "setup" RiskDirection.LONG (EntryZone.mkEntryZone (D 90) (D 92)) (D 88) "s" 50.

Lemma risk_example_inputs :
  risk_inputs risk_candidate_example [pool_example] risk_config_example (D 1) (Some (D 2)).
Proof.
  constructor; try reflexivity; [intros a [= <-]; reflexivity|by repeat constructor|].
  repeat constructor; discriminate.
Qed.

(** The level facts an accepted plan carries. *)
Definition accepted_levels (candidate : RiskCandidate) (pools : list LiquidityPool) (config : RiskEngineConfig)
    (tick_size : dec) (atr : option dec) (plan : RiskPlan) : Prop :=
  exists entry tp sl r w rr a pool metadata,
    RiskPlan.entry_reference plan = Some entry /\ RiskPlan.take_profit plan = Some tp
    /\ RiskPlan.stop_loss plan = Some sl /\ RiskPlan.risk plan = Some r /\ RiskPlan.reward plan = Some w
    /\ RiskPlan.risk_reward plan = Some rr /\ atr = Some a
    /\ RiskPlan.selection_metadata plan = Some metadata
    /\ RiskPlan.entry_zone plan = Some (RiskCandidate.entry_zone candidate)
    /\ RiskPlan.decision plan = match RiskCandidate.direction candidate with
         | RiskDirection.LONG => RiskDecision.LONG | RiskDirection.SHORT => RiskDecision.SHORT end
    /\ _select_target_pool candidate pools entry config tick_size = Some pool
    /\ RiskSelectionMetadata.target_source_id metadata = LiquidityPool.pool_id pool
    /\ (Qval (dmul DEFAULT_PREC (D (RiskEngineConfig.min_distance_ticks config)) tick_size) <= Qval r)%Q
    /\ (Qval (ddiv DEFAULT_PREC r a) <= Qval (RiskEngineConfig.max_distance_atr_ratio config))%Q
    /\ (Qval (RiskEngineConfig.min_rr config) <= Qval rr)%Q.

(** C27. With well-formed arguments the risk calculation never raises: no
    division, tick rounding or model constructor fails, and the plan passes its
    own validator.  It is either a rejection with one reason and no level, or a
    plan in the candidate's direction whose levels are ordered around the entry
    zone and whose risk, ATR ratio and reward-to-risk ratio respect the
    configured limits. *)
Theorem risk_plan_total_and_valid candidate pools config tick_size atr :
  risk_inputs candidate pools config tick_size atr ->
  exists plan, calculate_risk_plan candidate pools config tick_size atr = Ok plan
    /\ RiskPlan.validate_plan plan = true
    /\ ((exists reason, reason <> RiskReasonCode.RISK_ACCEPTED /\ plan = rejected_plan candidate reason)
        \/ accepted_levels candidate pools config tick_size atr plan).
Proof.
  intros Hin. pose proof Hin as [Hcand Hcfg Ht Ha Hpools _].
  destruct (risk_guards _ _ _ _ _ Hin) as [G1 G2]. pose proof (point_in_time_ok _ _ _ _ _ Hin) as G3.
  assert (forall reason, reason <> RiskReasonCode.RISK_ACCEPTED -> exists plan,
    _rejected candidate reason = Ok plan /\ RiskPlan.validate_plan plan = true
    /\ ((exists reason, reason <> RiskReasonCode.RISK_ACCEPTED /\ plan = rejected_plan candidate reason)
        \/ accepted_levels candidate pools config tick_size atr plan)) as Hrej.
  { intros reason Hr. exists (rejected_plan candidate reason). split_and!; [done|done|]. left. eauto. }
  unfold calculate_risk_plan. rewrite G1, G2, G3. cbn [raise_if mbind pyres_bind].
  unfold _round_nearest_tick. rewrite tick_rounded_ok by done. cbn [mbind pyres_bind].
  set (entry := dmul DEFAULT_PREC (to_integral ROUND_HALF_UP _) tick_size).
  destruct (_ && bool_decide (atr = None)); [by apply Hrej|].
  destruct (stop_side_ok candidate pools config tick_size atr entry Hin)
    as (tb & ab & sb & sl & r & -> & (B1 & B2 & B3) & Hr). cbn [mbind pyres_bind].
  destruct (dleb sl (D 0) || dleb r (D 0)) eqn:E1; [by apply Hrej|].
  destruct (dltb r _) eqn:E2; [by apply Hrej|].
  destruct atr as [a|]; [|by apply Hrej]. specialize (Ha a eq_refl).
  rewrite ddiv_py_ok by lra. cbn [mbind pyres_bind].
  destruct (dltb _ (ddiv DEFAULT_PREC r a)) eqn:E3; [by apply Hrej|].
  destruct (_select_target_pool _ _ _ _ _) as [pool|] eqn:Esel; [|by apply Hrej].
  destruct (select_target_elem _ _ _ _ _ _ Esel) as [Hpin _].
  rewrite Forall_forall in Hpools.
  destruct (target_side_ok candidate pools config tick_size (Some a) entry sl pool Hin (Hpools _ Hpin))
    as (raw & tp & w & ordered & -> & Hraw & _ & Hshort & Hw & Hord). cbn [mbind pyres_bind].
  destruct ordered eqn:Eord; cbn [negb]; [|by apply Hrej].
  destruct (dleb w (D 0)) eqn:E4; [by apply Hrej|].
  assert (0 < Qval r)%Q as Hrpos by (bool_hyps; dec_to_Q; rewrite Qval_D0 in *; lra).
  rewrite ddiv_py_ok by lra. cbn [mbind pyres_bind].
  destruct (dltb (ddiv DEFAULT_PREC w r) (RiskEngineConfig.min_rr config)) eqn:E5; [by apply Hrej|].
  destruct (candidate_zone _ Hcand) as (_ & _ & Hstruct).
  match goal with |- context [validated RiskSelectionMetadata.valid ?m] =>
    assert (RiskSelectionMetadata.valid m = true) as Hm;
      [|rewrite (proj2 (validated_ok RiskSelectionMetadata.valid m m) (conj Hm eq_refl))] end.
  { unfold RiskSelectionMetadata.valid. cbn. rewrite !andb_true_iff, !dltb_true, !dleb_true, !Qval_D0.
    pose proof (entry_reference_pos candidate config Hcand). split_and!; done. }
  cbn [mbind pyres_bind]. unfold validated.
  rewrite (accepted_plan_valid candidate config entry tp sl r w); [|done|done|done|done|done|done|].
  - eexists. split; [reflexivity|]. split.
    + apply (accepted_plan_valid candidate config); try done.
      destruct (RiskCandidate.direction candidate); split_and!; auto.
    + right. eexists entry, tp, sl, r, w, _, a, pool, _. cbn. dec_to_Q. split_and!; done.
  - destruct (RiskCandidate.direction candidate); split_and!; auto.
Qed.

Lemma risk_plan_total_and_valid_witness :
  exists plan, calculate_risk_plan risk_candidate_example [pool_example] risk_config_example (D 1) (Some (D 2)) = Ok plan
    /\ RiskPlan.validate_plan plan = true.
Proof.
  destruct (risk_plan_total_and_valid risk_candidate_example [pool_example] risk_config_example (D 1) (Some (D 2))
    risk_example_inputs) as (plan & H1 & H2 & _).
  exists plan. split; [exact H1 | exact H2].
Defined.

(** The example plan is accepted, with its target one tick under the pool. *)
Example risk_example_accepted :
  match calculate_risk_plan risk_candidate_example [pool_example] risk_config_example (D 1) (Some (D 2)) with
  | Ok plan => (RiskPlan.decision plan, RiskPlan.stop_loss plan, RiskPlan.take_profit plan, RiskPlan.risk_reward plan)
  | Raise _ => (RiskDecision.NO_TRADE, None, None, None)
  end = (RiskDecision.LONG, Some (D 87), Some (D 99), Some (D 2)).
Proof. vm_compute. reflexivity. Qed.

(** ** The target *)

Lemma lex_lt_false {A} (lt1 lt2 : A -> A -> bool) x y : lex_lt lt1 lt2 x y = false ->
  lt1 x y = false /\ (lt1 y x = true \/ lt2 x y = false).
Proof. unfold lex_lt. destruct (lt1 x y), (lt1 y x); auto. Qed.

#[export] Instance long_key_sw : StrictWeak long_key_lt.
Proof. repeat (apply lex_lt_sw || apply on_key_sw || apply _). Qed.
#[export] Instance short_key_sw : StrictWeak short_key_lt.
Proof. repeat (apply lex_lt_sw || apply on_key_sw || apply _). Qed.

(** [pool] is at least as near as [q], and not later on ties. *)
Definition not_farther (direction : RiskDirection) (pool q : LiquidityPool) : Prop :=
  match direction with
  | RiskDirection.LONG =>
      (Qval (LiquidityPool.lower_bound pool) <= Qval (LiquidityPool.lower_bound q))%Q
      /\ ((Qval (LiquidityPool.lower_bound pool) == Qval (LiquidityPool.lower_bound q))%Q ->
          LiquidityPool.created_at pool <= LiquidityPool.created_at q)
  | RiskDirection.SHORT =>
      (Qval (dround DEFAULT_PREC (LiquidityPool.upper_bound q))
        <= Qval (dround DEFAULT_PREC (LiquidityPool.upper_bound pool)))%Q
      /\ ((Qval (dround DEFAULT_PREC (LiquidityPool.upper_bound pool))
            == Qval (dround DEFAULT_PREC (LiquidityPool.upper_bound q)))%Q ->
          LiquidityPool.created_at pool <= LiquidityPool.created_at q)
  end.

Lemma Qval_dneg a : (Qval (dneg DEFAULT_PREC a) == - Qval (dround DEFAULT_PREC a))%Q.
Proof.
  unfold dneg. pose proof (dround_spec DEFAULT_PREC (dopp a) ltac:(done)) as H1.
  pose proof (rounds_to_opp _ _ _ (dround_spec DEFAULT_PREC a ltac:(done))) as H2.
  rewrite Qval_dopp in H1.
  apply Qle_antisym; [exact (rounds_to_mono _ _ _ _ _ default_prec_valid (Qle_refl _) H1 H2)
                     |exact (rounds_to_mono _ _ _ _ _ default_prec_valid (Qle_refl _) H2 H1)].
Qed.

(** The target is the nearest pool the candidate may use: an active,
    visible pool of the opposing side beyond the minimum distance, at least as
    near as every other such pool and the oldest of equally near ones; there is
    no target exactly when no pool qualifies. *)
Theorem risk_target_is_nearest candidate pools entry config tick_size :
  let minimum := dmul DEFAULT_PREC (D (RiskEngineConfig.target_min_distance_ticks config)) tick_size in
  match _select_target_pool candidate pools entry config tick_size with
  | Some pool => pool ∈ pools /\ eligible_target candidate entry minimum pool = true
      /\ forall q, q ∈ pools -> eligible_target candidate entry minimum q = true ->
           not_farther (RiskCandidate.direction candidate) pool q
  | None => forall q, q ∈ pools -> eligible_target candidate entry minimum q = false
  end.
Proof.
  intros minimum.
  destruct (_select_target_pool candidate pools entry config tick_size) as [pool|] eqn:E.
  - destruct (select_target_elem _ _ _ _ _ _ E) as [H1 H2]. split_and!; [done|done|].
    intros q Hq He. unfold _select_target_pool in E. fold minimum in E.
    assert (q ∈ List.filter (eligible_target candidate entry minimum) pools) as Hin.
    { apply list_elem_of_In, filter_In. split; [by apply list_elem_of_In|done]. }
    unfold not_farther. destruct (RiskCandidate.direction candidate).
    + apply py_min_spec in E as [_ Hmin]; [|apply _]. specialize (Hmin q Hin).
      apply lex_lt_false in Hmin as [Ha Hb]. unfold on_key in Ha, Hb. dec_to_Q. split; [done|].
      intros Heq. destruct Hb as [Hb|Hb]; [dec_to_Q; lra|].
      apply lex_lt_false in Hb as [Hb _]. unfold on_key in Hb. lia.
    + apply py_min_spec in E as [_ Hmin]; [|apply _]. specialize (Hmin q Hin).
      apply lex_lt_false in Hmin as [Ha Hb]. unfold on_key in Ha, Hb. dec_to_Q. rewrite !Qval_dneg in Ha.
      split; [lra|]. intros Heq. destruct Hb as [Hb|Hb]; [dec_to_Q; rewrite !Qval_dneg in Hb; lra|].
      apply lex_lt_false in Hb as [Hb _]. unfold on_key in Hb. lia.
  - intros q Hq. destruct (eligible_target candidate entry minimum q) eqn:He; [|done]. exfalso.
    assert (q ∈ List.filter (eligible_target candidate entry minimum) pools) as Hin.
    { apply list_elem_of_In, filter_In. split; [by apply list_elem_of_In|done]. }
    unfold _select_target_pool in E. fold minimum in E.
    assert (List.filter (eligible_target candidate entry minimum) pools = []) as E'
      by (destruct (RiskCandidate.direction candidate); by apply py_min_None in E).
    rewrite E' in Hin. by apply elem_of_nil in Hin.
Qed.

(** ** What the plan does not depend on *)

Definition with_min_rr (config : RiskEngineConfig) (min_rr : dec) : RiskEngineConfig :=
  RiskEngineConfig.mkRiskEngineConfig (RiskEngineConfig.entry_reference config)
    (RiskEngineConfig.stop_buffer_ticks config) (RiskEngineConfig.atr_buffer config)
    (RiskEngineConfig.min_distance_ticks config) (RiskEngineConfig.max_distance_atr_ratio config)
    (RiskEngineConfig.target_source config) (RiskEngineConfig.target_min_distance_ticks config) min_rr.

(** The pools known at the candidate's confirmation. *)
Definition known_pools (candidate : RiskCandidate) (pools : list LiquidityPool) : list LiquidityPool :=
  List.filter (fun pool => LiquidityPool.created_at pool <=? RiskCandidate.confirmed_at candidate) pools.

Lemma filter_known candidate entry minimum pools :
  List.filter (eligible_target candidate entry minimum) (known_pools candidate pools)
  = List.filter (eligible_target candidate entry minimum) pools.
Proof.
  unfold known_pools. induction pools as [|pool pools IH]; [done|]. cbn.
  destruct (LiquidityPool.created_at pool <=? _) eqn:E; cbn; rewrite IH; [done|].
  unfold eligible_target, visible_active. by rewrite E.
Qed.

Lemma existsb_known candidate pools :
  existsb (fun pool => (LiquidityPool.created_at pool <=? RiskCandidate.confirmed_at candidate)
    && (RiskCandidate.confirmed_at candidate <? LiquidityPool.updated_at pool)) (known_pools candidate pools)
  = existsb (fun pool => (LiquidityPool.created_at pool <=? RiskCandidate.confirmed_at candidate)
    && (RiskCandidate.confirmed_at candidate <? LiquidityPool.updated_at pool)) pools.
Proof.
  unfold known_pools. induction pools as [|pool pools IH]; [done|]. cbn.
  destruct (LiquidityPool.created_at pool <=? _) eqn:E; cbn; rewrite IH; [by rewrite E|done].
Qed.

(** The target is never stretched to reach the required ratio: changing
    [min_rr] either keeps an accepted plan exactly as it is or rejects it for
    its ratio.  And the plan looks at nothing later than the candidate: pools
    created after its confirmation can be removed without any effect. *)
Theorem risk_plan_independence candidate pools config tick_size atr :
  calculate_risk_plan candidate (known_pools candidate pools) config tick_size atr
    = calculate_risk_plan candidate pools config tick_size atr
  /\ forall plan rr min_rr, calculate_risk_plan candidate pools config tick_size atr = Ok plan ->
       RiskPlan.risk_reward plan = Some rr ->
       calculate_risk_plan candidate pools (with_min_rr config min_rr) tick_size atr
       = if dltb rr min_rr then _rejected candidate RiskReasonCode.RR_BELOW_MINIMUM else Ok plan.
Proof.
  split.
  - assert (forall entry, _select_target_pool candidate (known_pools candidate pools) entry config tick_size
      = _select_target_pool candidate pools entry config tick_size) as Hsel.
    { intros entry. unfold _select_target_pool. by rewrite filter_known. }
    unfold calculate_risk_plan. rewrite existsb_known.
    destruct (raise_if (dleb tick_size (D 0)) _); [|done]. cbn [mbind pyres_bind].
    destruct (raise_if match atr with Some a => _ | None => _ end _); [|done]. cbn [mbind pyres_bind].
    destruct (raise_if (existsb _ _) _); [|done]. cbn [mbind pyres_bind].
    destruct (_round_nearest_tick _ _) as [entry|]; [|done]. cbn [mbind pyres_bind]. by rewrite Hsel.
  - intros plan rr min_rr Hp Hrr. unfold calculate_risk_plan in Hp |- *. cbn [with_min_rr
      RiskEngineConfig.entry_reference RiskEngineConfig.atr_buffer RiskEngineConfig.min_distance_ticks
      RiskEngineConfig.max_distance_atr_ratio RiskEngineConfig.min_rr RiskEngineConfig.target_source] in *.
    assert (forall reason, _rejected candidate reason = Ok plan -> False) as Hrej.
    { intros reason [= <-]. done. }
    apply bind_ok in Hp as ([] & -> & Hp). apply bind_ok in Hp as ([] & -> & Hp).
    apply bind_ok in Hp as ([] & -> & Hp). apply bind_ok in Hp as (entry & Hentry & Hp).
    change (_entry_reference candidate (with_min_rr config min_rr)) with (_entry_reference candidate config).
    rewrite Hentry. cbn [mbind pyres_bind].
    destruct (_ && bool_decide (atr = None)); [by apply Hrej in Hp|].
    change (stop_side candidate (with_min_rr config min_rr) tick_size atr entry)
      with (stop_side candidate config tick_size atr entry).
    apply bind_ok in Hp as ([[[[tb ab] sb] sl] r] & -> & Hp). cbn [mbind pyres_bind].
    destruct (dleb sl (D 0) || dleb r (D 0)); [by apply Hrej in Hp|].
    destruct (dltb r _); [by apply Hrej in Hp|]. destruct atr as [a|]; [|by apply Hrej in Hp].
    apply bind_ok in Hp as (ratio & -> & Hp). cbn [mbind pyres_bind].
    destruct (dltb _ ratio); [by apply Hrej in Hp|].
    change (_select_target_pool candidate pools entry (with_min_rr config min_rr) tick_size)
      with (_select_target_pool candidate pools entry config tick_size).
    destruct (_select_target_pool _ _ _ _ _) as [pool|]; [|by apply Hrej in Hp].
    apply bind_ok in Hp as ([[[raw tp] w] ordered] & -> & Hp). cbn [mbind pyres_bind].
    destruct ordered; cbn [negb] in *; [|by apply Hrej in Hp].
    destruct (dleb w (D 0)); [by apply Hrej in Hp|].
    apply bind_ok in Hp as (rr' & -> & Hp). cbn [mbind pyres_bind].
    destruct (dltb rr' (RiskEngineConfig.min_rr config)); [by apply Hrej in Hp|].
    assert (rr' = rr) as ->.
    { apply bind_ok in Hp as (m & _ & Hp). apply validated_ok in Hp as [_ <-]. cbn in Hrr. congruence. }
    destruct (dltb rr min_rr); [done|exact Hp].
Qed.

Lemma risk_plan_independence_witness :
  exists plan, calculate_risk_plan risk_candidate_example [pool_example] risk_config_example (D 1) (Some (D 2)) = Ok plan
    /\ calculate_risk_plan risk_candidate_example [pool_example] (with_min_rr risk_config_example (D 5)) (D 1) (Some (D 2))
       = _rejected risk_candidate_example RiskReasonCode.RR_BELOW_MINIMUM.
Proof.
  eexists. split; [vm_compute; reflexivity|].
  rewrite (proj2 (risk_plan_independence risk_candidate_example [pool_example] risk_config_example (D 1) (Some (D 2)))
    _ (D 2) (D 5) ltac:(vm_compute; reflexivity) ltac:(vm_compute; reflexivity)).
  vm_compute. reflexivity.
Defined.
