(* ===== verification/SetupTypes.v ===== *)
(** The data of composite entry setups: [schemas/entry_setup.py]. *)
From Stdlib Require Import ZArith Lia.
From stdpp Require Import base list strings numbers.
From S2P Require Import Prelude Decimal Time Candle Signal Structure Fvg LiquidityTypes Displacement OrderBlocks.
Local Open Scope Z_scope.

Module EntrySetupStatus.
Inductive EntrySetupStatus := FORMING | WAITING_RETRACE | READY | INVALIDATED.
#[global] Instance EntrySetupStatus_eqdec : EqDecision EntrySetupStatus := ltac:(solve_decision).
End EntrySetupStatus.
Abbreviation EntrySetupStatus := EntrySetupStatus.EntrySetupStatus.

Module EntrySetupDirection.
Inductive EntrySetupDirection := BULLISH | BEARISH.
#[global] Instance EntrySetupDirection_eqdec : EqDecision EntrySetupDirection := ltac:(solve_decision).
Definition value (d : EntrySetupDirection) : string := match d with BULLISH => "bullish" | BEARISH => "bearish" end.
End EntrySetupDirection.
Abbreviation EntrySetupDirection := EntrySetupDirection.EntrySetupDirection.

Module SetupFVGSelectionPolicy.
Inductive SetupFVGSelectionPolicy := FIRST_CONFIRMED | NEAREST_TO_MSS_CLOSE | NARROWEST | WIDEST.
#[global] Instance SetupFVGSelectionPolicy_eqdec : EqDecision SetupFVGSelectionPolicy := ltac:(solve_decision).
End SetupFVGSelectionPolicy.
Abbreviation SetupFVGSelectionPolicy := SetupFVGSelectionPolicy.SetupFVGSelectionPolicy.

Module SetupRetestMode.
Inductive SetupRetestMode := TOUCH | CLOSE_IN_ZONE | REJECTION_CLOSE.
#[global] Instance SetupRetestMode_eqdec : EqDecision SetupRetestMode := ltac:(solve_decision).
End SetupRetestMode.
Abbreviation SetupRetestMode := SetupRetestMode.SetupRetestMode.

Module SetupEntryZoneSource.
Inductive SetupEntryZoneSource := FVG | ORDER_BLOCK | INTERSECTION.
#[global] Instance SetupEntryZoneSource_eqdec : EqDecision SetupEntryZoneSource := ltac:(solve_decision).
End SetupEntryZoneSource.
Abbreviation SetupEntryZoneSource := SetupEntryZoneSource.SetupEntryZoneSource.

Module SetupInvalidationSource.
Inductive SetupInvalidationSource := LIQUIDITY_SWEEP_EXTREME | ORDER_BLOCK_EXTREME | ENTRY_ZONE_EXTREME.
#[global] Instance SetupInvalidationSource_eqdec : EqDecision SetupInvalidationSource := ltac:(solve_decision).
End SetupInvalidationSource.
Abbreviation SetupInvalidationSource := SetupInvalidationSource.SetupInvalidationSource.

Module EntrySetupReasonCode.
Inductive EntrySetupReasonCode :=
| DUAL_SWEEP_REJECTED | LIQUIDITY_TAKEN_BEFORE_MSS | MSS_STAGE_EXPIRED | DISPLACEMENT_STAGE_EXPIRED | FVG_UNAVAILABLE
| FVG_RETEST_EXPIRED | SETUP_TOTAL_EXPIRED | OPPOSITE_MSS | FVG_TERMINAL | ENTRY_ZONE_UNAVAILABLE
| INVALIDATION_SOURCE_UNAVAILABLE | ATR_UNAVAILABLE | INVALIDATION_LEVEL_INVALID.
#[global] Instance EntrySetupReasonCode_eqdec : EqDecision EntrySetupReasonCode := ltac:(solve_decision).
End EntrySetupReasonCode.
Abbreviation EntrySetupReasonCode := EntrySetupReasonCode.EntrySetupReasonCode.

Module EntrySetupConfig.
Record EntrySetupConfig := mkEntrySetupConfig {
  tick_size : dec;
  signal_allow_dual_sweep : bool;
  signal_max_bars_sweep_to_mss : Z;
  signal_max_bars_mss_to_displacement : Z;
  signal_max_bars_fvg_to_retest : Z;
  signal_fvg_selection_policy : SetupFVGSelectionPolicy;
  signal_retest_mode : SetupRetestMode;
  signal_entry_zone_source : SetupEntryZoneSource;
  signal_allow_zero_width_entry_zone : bool;
  signal_setup_max_total_bars : Z;
  setup_invalidation_source : SetupInvalidationSource;
  setup_invalidation_buffer_ticks : Z;
  setup_invalidation_buffer_atr_ratio : dec
}.
Definition valid (c : EntrySetupConfig) : bool :=
  dltb (D 0) (tick_size c) && (1 <=? signal_max_bars_sweep_to_mss c) && (1 <=? signal_max_bars_mss_to_displacement c)
  && (1 <=? signal_max_bars_fvg_to_retest c) && (1 <=? signal_setup_max_total_bars c)
  && (0 <=? setup_invalidation_buffer_ticks c) && dleb (D 0) (setup_invalidation_buffer_atr_ratio c).
End EntrySetupConfig.
Abbreviation EntrySetupConfig := EntrySetupConfig.EntrySetupConfig.

Module CompositeEntrySetup.
Record CompositeEntrySetup := mkCompositeEntrySetup {
  setup_id : string;
  setup_status : EntrySetupStatus;
  direction : EntrySetupDirection;
  liquidity_event : LiquidityInteraction;
  structure_event : option StructureBreakEvent;
  displacement_event : option DisplacementLeg;
  fvg : option GapZone;
  order_block : option OrderBlockZone;
  entry_zone : option EntryZone;
  invalidation_level : option dec;
  retest_timestamp : option datetime;
  confirmed_at : datetime;
  reason_codes : list EntrySetupReasonCode
}.
(** The levels of a READY setup. *)
Definition levels_valid (s : CompositeEntrySetup) : bool :=
  match entry_zone s, invalidation_level s with
  | Some zone, Some level =>
      match direction s with
      | EntrySetupDirection.BULLISH => negb (dleb (EntryZone.low zone) level)
      | EntrySetupDirection.BEARISH => negb (dleb level (EntryZone.high zone))
      end
  | _, _ => false
  end.
Definition validate_setup (s : CompositeEntrySetup) : bool :=
  opt_positive (invalidation_level s)
  && negb (bool_decide (setup_status s = EntrySetupStatus.WAITING_RETRACE) && negb (is_some (fvg s)))
  && if bool_decide (setup_status s = EntrySetupStatus.READY) then
       is_some (structure_event s) && is_some (displacement_event s) && is_some (fvg s) && is_some (retest_timestamp s)
       && levels_valid s
     else negb (is_some (entry_zone s)) && negb (is_some (invalidation_level s)).
End CompositeEntrySetup.
Abbreviation CompositeEntrySetup := CompositeEntrySetup.CompositeEntrySetup.

Module EntrySetupAnalysisResult.
Record EntrySetupAnalysisResult := mkEntrySetupAnalysisResult {
  timeframe : Timeframe;
  config : EntrySetupConfig;
  candle_count : nat;
  data_cutoff_at : option datetime;
  setups : list CompositeEntrySetup
}.
End EntrySetupAnalysisResult.
Abbreviation EntrySetupAnalysisResult := EntrySetupAnalysisResult.EntrySetupAnalysisResult.
