(* ===== verification/EntrySetup.v ===== *)
(** Composite entry setups: [engines/ict/high_probability_entry.py].

    A liquidity sweep, the structure shift and the displacement that answer it,
    the gap the displacement left, and its retest make a setup. *)
From Stdlib Require Import ZArith Lia.
From stdpp Require Import base list strings numbers gmap.
From S2P Require Import Prelude Dict Decimal Time Candle Signal Indicators Structure Engine Fvg LiquidityTypes Displacement OrderBlocks Risk SetupTypes.
Local Open Scope Z_scope.

Definition EntrySetupInputError (msg : string) : pyexc := Exc "EntrySetupInputError" msg.

(** [\[x for x in l if f(x)\]], stopping at the first exception. *)
Fixpoint py_filter {A} (f : A -> pyres bool) (l : list A) : pyres (list A) :=
  match l with
  | [] => Ok []
  | x :: l' =>
      match f x with
      | Ok keep => match py_filter f l' with Ok rest => Ok (if keep then x :: rest else rest) | Raise e => Raise e end
      | Raise e => Raise e
      end
  end.

(** [bisect_right] on a list sorted by confirmation. *)
Definition _first_after {A} (confirmed_at : A -> datetime) (items : list A) (timestamp : datetime) : option A :=
  items !! bisect (fun item => confirmed_at item <=? timestamp) items 0 (length items).

(** [TERMINAL_FVG_STATES] *)
Definition terminal_fvg (s : GapLifecycleState) : bool :=
  match s with
  | GapLifecycleState.FILLED | GapLifecycleState.INVERTED | GapLifecycleState.INVALIDATED | GapLifecycleState.EXPIRED => true
  | _ => false
  end.

(** [event_type.value] *)
Definition gap_event_value (t : GapLifecycleEventType) : string :=
  match t with
  | GapLifecycleEventType.FVG_CREATED => "FVG_CREATED"
  | GapLifecycleEventType.FVG_RETEST => "FVG_RETEST"
  | GapLifecycleEventType.FVG_FILLED => "FVG_FILLED"
  | GapLifecycleEventType.FVG_INVERTED => "FVG_INVERTED"
  | GapLifecycleEventType.FVG_EXPIRED => "FVG_EXPIRED"
  | GapLifecycleEventType.IFVG_CREATED => "IFVG_CREATED"
  | GapLifecycleEventType.IFVG_RETEST => "IFVG_RETEST"
  | GapLifecycleEventType.IFVG_FILLED => "IFVG_FILLED"
  | GapLifecycleEventType.IFVG_INVALIDATED => "IFVG_INVALIDATED"
  | GapLifecycleEventType.IFVG_EXPIRED => "IFVG_EXPIRED"
  end.

(** ** Input *)

Definition _validate_inputs (candles : list Candle) (timeframe : Timeframe) (liquidity_events : list LiquidityInteraction)
    (structure_events : list StructureBreakEvent) (displacement_events : list DisplacementLeg) (fvg_zones : list GapZone)
    (config : EntrySetupConfig) (atr_result : option ATRResult) : pyres unit :=
  let timestamps := map Candle.timestamp candles in
  let close_times := candle_close_times timeframe candles in
  let aligned timestamp confirmed_at := bool_decide (timestamp ∈ timestamps) && bool_decide (confirmed_at ∈ close_times) in
  _ ← validate_alignment "EntrySetupInputError" (EntrySetupConfig.tick_size config) candles;
  _ ← validate_spacing "EntrySetupInputError" timeframe candles;
  _ ← py_for (fun event =>
        raise_if (negb (aligned (LiquidityInteraction.timestamp event) (LiquidityInteraction.confirmed_at event)))
          (EntrySetupInputError "liquidity event must align with an available candle")) liquidity_events;
  _ ← py_for (fun event =>
        raise_if (negb (aligned (StructureBreakEvent.timestamp event) (StructureBreakEvent.confirmed_at event)))
          (EntrySetupInputError "structure event must align with an available candle")) structure_events;
  _ ← py_for (fun event =>
        raise_if (negb (aligned (DisplacementLeg.timestamp event) (DisplacementLeg.confirmed_at event)))
          (EntrySetupInputError "displacement event must align with an available candle")) displacement_events;
  _ ← py_for (fun zone =>
        raise_if (negb (bool_decide (GapZone.confirmed_at zone ∈ close_times)))
          (EntrySetupInputError "FVG confirmation must align with an available candle")) fvg_zones;
  validate_atr_alignment "EntrySetupInputError" candles atr_result.

(** ** Directions *)

Definition _direction_from_sweep (event : LiquidityInteraction) : EntrySetupDirection :=
  match LiquidityInteraction.direction event with
  | LiquidityDirection.SELL_SIDE => EntrySetupDirection.BULLISH
  | LiquidityDirection.BUY_SIDE => EntrySetupDirection.BEARISH
  end.

Definition _desired_structure_direction (direction : EntrySetupDirection) : StructureDirection :=
  match direction with
  | EntrySetupDirection.BULLISH => StructureDirection.BULLISH
  | EntrySetupDirection.BEARISH => StructureDirection.BEARISH
  end.

(** [opposite_direction] *)
Definition opposite_structure (direction : StructureDirection) : StructureDirection :=
  match direction with
  | StructureDirection.BULLISH => StructureDirection.BEARISH
  | StructureDirection.BEARISH => StructureDirection.BULLISH
  end.

Definition _desired_displacement_direction (direction : EntrySetupDirection) : DisplacementDirection :=
  match direction with
  | EntrySetupDirection.BULLISH => DisplacementDirection.BULLISH
  | EntrySetupDirection.BEARISH => DisplacementDirection.BEARISH
  end.

(** ** The state of zones at an instant *)

(** [sorted(zone.lifecycle, key=lambda item: (item.occurred_at, item.event_type.value))] *)
Definition gap_event_order : GapLifecycleEvent -> GapLifecycleEvent -> bool :=
  lex_lt (on_key GapLifecycleEvent.occurred_at Z.ltb) (on_key (fun e => gap_event_value (GapLifecycleEvent.event_type e)) str_lt).

(** The events before the [break] of the loops. *)
Fixpoint take_until {A} (at_ : A -> datetime) (timestamp : datetime) (l : list A) : list A :=
  match l with
  | [] => []
  | x :: rest => if timestamp <? at_ x then [] else x :: take_until at_ timestamp rest
  end.

Definition gap_events_until (zone : GapZone) (timestamp : datetime) : list GapLifecycleEvent :=
  take_until GapLifecycleEvent.occurred_at timestamp (sort_by gap_event_order (GapZone.lifecycle zone)).

Definition _fvg_state_at (zone : GapZone) (timestamp : datetime) : GapLifecycleState :=
  match list.last (gap_events_until zone timestamp) with
  | Some event => GapLifecycleEvent.to_state event
  | None =>
      if GapZone.last_updated_at zone <=? timestamp then GapZone.lifecycle_state zone else GapLifecycleState.ACTIVE
  end.

Definition _fvg_terminal_at (zone : GapZone) (timestamp : datetime) : option datetime :=
  match List.find (fun event => terminal_fvg (GapLifecycleEvent.to_state event)) (gap_events_until zone timestamp) with
  | Some event => Some (GapLifecycleEvent.occurred_at event)
  | None =>
      if bool_decide (GapZone.lifecycle zone = []) && terminal_fvg (GapZone.lifecycle_state zone)
         && (GapZone.last_updated_at zone <=? timestamp)
      then Some (GapZone.last_updated_at zone) else None
  end.

(** [key=lambda item: (item.confirmed_at, item.event_id)] *)
Definition block_event_order : OrderBlockLifecycleEvent -> OrderBlockLifecycleEvent -> bool :=
  lex_lt (on_key OrderBlockLifecycleEvent.confirmed_at Z.ltb) (on_key OrderBlockLifecycleEvent.event_id str_lt).

(** [at is not None and at <= timestamp] *)
Definition reached_by (at_ : option datetime) (timestamp : datetime) : bool :=
  match at_ with Some t => t <=? timestamp | None => false end.

Definition _order_block_state_at (zone : OrderBlockZone) (timestamp : datetime) : OrderBlockStatus :=
  let events := take_until OrderBlockLifecycleEvent.confirmed_at timestamp (sort_by block_event_order (OrderBlockZone.lifecycle zone)) in
  let states := omap (fun event =>
    match OrderBlockLifecycleEvent.to_status event with BlockStatus s => Some s | BreakerStatus _ => None end) events in
  match list.last states with
  | Some state => state
  | None =>
      if reached_by (OrderBlockZone.invalidated_at zone) timestamp then OrderBlockStatus.INVALIDATED
      else if reached_by (OrderBlockZone.mitigated_at zone) timestamp then OrderBlockStatus.MITIGATED
      else if reached_by (OrderBlockZone.validated_at zone) timestamp then OrderBlockStatus.VALIDATED
      else OrderBlockStatus.CANDIDATE
  end.

(** ** The choice of the gap *)

Definition desired_gap_direction (direction : EntrySetupDirection) : GapDirection :=
  match direction with
  | EntrySetupDirection.BULLISH => GapDirection.BULLISH
  | EntrySetupDirection.BEARISH => GapDirection.BEARISH
  end.

Definition gap_eligible (leg : DisplacementLeg) (mss : StructureBreakEvent) (direction : EntrySetupDirection) (zone : GapZone) : bool :=
  bool_decide (GapZone.zone_id zone ∈ DisplacementLeg.associated_fvg leg)
  && bool_decide (GapZone.type zone = GapZoneType.FVG)
  && bool_decide (GapZone.direction zone = desired_gap_direction direction)
  && (StructureBreakEvent.confirmed_at mss <? GapZone.confirmed_at zone)
  && (GapZone.confirmed_at zone <=? DisplacementLeg.confirmed_at leg)
  && match _fvg_state_at zone (DisplacementLeg.confirmed_at leg) with
     | GapLifecycleState.ACTIVE | GapLifecycleState.PARTIALLY_FILLED => true
     | _ => false
     end.

Definition midpoint (a b : dec) : dec := ddiv DEFAULT_PREC (dadd DEFAULT_PREC a b) (D 2).
Definition gap_width (zone : GapZone) : dec := dsub DEFAULT_PREC (GapZone.upper zone) (GapZone.lower zone).

(** The key of each policy. *)
Definition gap_order (policy : SetupFVGSelectionPolicy) (mss_close : dec) : GapZone -> GapZone -> bool :=
  match policy with
  | SetupFVGSelectionPolicy.FIRST_CONFIRMED => lex_lt (on_key GapZone.confirmed_at Z.ltb) (on_key GapZone.zone_id str_lt)
  | SetupFVGSelectionPolicy.NEAREST_TO_MSS_CLOSE =>
      lex_lt (on_key (fun zone => dabs DEFAULT_PREC (dsub DEFAULT_PREC (midpoint (GapZone.lower zone) (GapZone.upper zone)) mss_close)) dltb)
        (on_key GapZone.zone_id str_lt)
  | SetupFVGSelectionPolicy.NARROWEST =>
      lex_lt (on_key gap_width dltb) (lex_lt (on_key GapZone.confirmed_at Z.ltb) (on_key GapZone.zone_id str_lt))
  | SetupFVGSelectionPolicy.WIDEST =>
      lex_lt (on_key (fun zone => dneg DEFAULT_PREC (gap_width zone)) dltb)
        (lex_lt (on_key GapZone.confirmed_at Z.ltb) (on_key GapZone.zone_id str_lt))
  end.

Definition _select_fvg (zones : list GapZone) (leg : DisplacementLeg) (mss : StructureBreakEvent) (mss_close : dec)
    (direction : EntrySetupDirection) (config : EntrySetupConfig) : option GapZone :=
  py_min (gap_order (EntrySetupConfig.signal_fvg_selection_policy config) mss_close)
    (List.filter (gap_eligible leg mss direction) zones).

(** ** The retest *)

Definition _retest_passes (zone : GapZone) (candle : Candle) (direction : EntrySetupDirection) (mode : SetupRetestMode) : bool :=
  match mode, direction with
  | SetupRetestMode.TOUCH, _ => dleb (Candle.low candle) (GapZone.upper zone) && dleb (GapZone.lower zone) (Candle.high candle)
  | SetupRetestMode.CLOSE_IN_ZONE, _ =>
      dleb (GapZone.lower zone) (Candle.close candle) && dleb (Candle.close candle) (GapZone.upper zone)
  | SetupRetestMode.REJECTION_CLOSE, EntrySetupDirection.BULLISH =>
      dleb (Candle.low candle) (GapZone.upper zone) && dltb (GapZone.upper zone) (Candle.close candle)
  | SetupRetestMode.REJECTION_CLOSE, EntrySetupDirection.BEARISH =>
      dleb (GapZone.lower zone) (Candle.high candle) && dltb (Candle.close candle) (GapZone.lower zone)
  end.

Definition desired_block_direction (direction : EntrySetupDirection) : OrderBlockDirection :=
  match direction with
  | EntrySetupDirection.BULLISH => OrderBlockDirection.BULLISH
  | EntrySetupDirection.BEARISH => OrderBlockDirection.BEARISH
  end.

Definition usable_block (s : OrderBlockStatus) : bool :=
  match s with OrderBlockStatus.VALIDATED | OrderBlockStatus.MITIGATED => true | _ => false end.

Definition block_eligible (direction : EntrySetupDirection) (retest_open retest_close : datetime) (zone : OrderBlockZone) : bool :=
  bool_decide (OrderBlockZone.direction zone = desired_block_direction direction)
  && reached_by (OrderBlockZone.validated_at zone) retest_open
  && usable_block (_order_block_state_at zone retest_open) && usable_block (_order_block_state_at zone retest_close).

Definition block_order (fvg_midpoint : dec) : OrderBlockZone -> OrderBlockZone -> bool :=
  lex_lt (on_key (fun zone => dabs DEFAULT_PREC (dsub DEFAULT_PREC (OrderBlockZone.mean_threshold zone) fvg_midpoint)) dltb)
    (lex_lt (on_key (fun zone => default 0 (OrderBlockZone.validated_at zone)) Z.ltb) (on_key OrderBlockZone.zone_id str_lt)).

Definition _select_order_block (zones : list OrderBlockZone) (fvg : GapZone) (direction : EntrySetupDirection)
    (retest_open retest_close : datetime) : option OrderBlockZone :=
  py_min (block_order (midpoint (GapZone.lower fvg) (GapZone.upper fvg)))
    (List.filter (block_eligible direction retest_open retest_close) zones).

(** ** The levels *)

(** [EntryZone(low=..., high=...)] *)
Definition new_entry_zone (low high : dec) : pyres (option EntryZone) :=
  zone ← validated EntryZone.validate_bounds (EntryZone.mkEntryZone low high);
  Ok (Some zone).

Definition _entry_zone (fvg : GapZone) (order_block : option OrderBlockZone) (config : EntrySetupConfig) : pyres (option EntryZone) :=
  match EntrySetupConfig.signal_entry_zone_source config, order_block with
  | SetupEntryZoneSource.FVG, _ => new_entry_zone (GapZone.lower fvg) (GapZone.upper fvg)
  | _, None => Ok None
  | SetupEntryZoneSource.ORDER_BLOCK, Some block => new_entry_zone (OrderBlockZone.zone_low block) (OrderBlockZone.zone_high block)
  | SetupEntryZoneSource.INTERSECTION, Some block =>
      let lower := dmax (GapZone.lower fvg) (OrderBlockZone.zone_low block) in
      let upper := dmin (GapZone.upper fvg) (OrderBlockZone.zone_high block) in
      if dltb upper lower then Ok None
      else if deqb lower upper && negb (EntrySetupConfig.signal_allow_zero_width_entry_zone config) then Ok None
      else new_entry_zone lower upper
  end.

(** The price the invalidation starts from. *)
Definition invalidation_source (direction : EntrySetupDirection) (source_sweep_candle : Candle) (entry_zone : EntryZone)
    (order_block : option OrderBlockZone) (config : EntrySetupConfig) : option dec :=
  match EntrySetupConfig.setup_invalidation_source config, direction with
  | SetupInvalidationSource.LIQUIDITY_SWEEP_EXTREME, EntrySetupDirection.BULLISH => Some (Candle.low source_sweep_candle)
  | SetupInvalidationSource.LIQUIDITY_SWEEP_EXTREME, EntrySetupDirection.BEARISH => Some (Candle.high source_sweep_candle)
  | SetupInvalidationSource.ORDER_BLOCK_EXTREME, EntrySetupDirection.BULLISH => OrderBlockZone.zone_low <$> order_block
  | SetupInvalidationSource.ORDER_BLOCK_EXTREME, EntrySetupDirection.BEARISH => OrderBlockZone.zone_high <$> order_block
  | SetupInvalidationSource.ENTRY_ZONE_EXTREME, EntrySetupDirection.BULLISH => Some (EntryZone.low entry_zone)
  | SetupInvalidationSource.ENTRY_ZONE_EXTREME, EntrySetupDirection.BEARISH => Some (EntryZone.high entry_zone)
  end.

(** [atr_result.points\[retest_index\].atr] *)
Definition atr_of (atr_result : option ATRResult) (retest_index : nat) : pyres (option dec) :=
  match atr_result with
  | None => Ok None
  | Some atr =>
      match ATRResult.points atr !! retest_index with
      | Some point => Ok (ATRPoint.atr point)
      | None => Raise (Exc "IndexError" "list index out of range")
      end
  end.

Definition invalidation_buffer (atr : option dec) (config : EntrySetupConfig) : dec :=
  dmax (dmul DEFAULT_PREC (D (EntrySetupConfig.setup_invalidation_buffer_ticks config)) (EntrySetupConfig.tick_size config))
    (match atr with
     | Some a => dmul DEFAULT_PREC (EntrySetupConfig.setup_invalidation_buffer_atr_ratio config) a
     | None => D 0
     end).

(** A level, or the reason why there is none. *)
Definition _invalidation_level (direction : EntrySetupDirection) (source_sweep_candle : Candle) (entry_zone : EntryZone)
    (order_block : option OrderBlockZone) (retest_index : nat) (config : EntrySetupConfig) (atr_result : option ATRResult)
    : pyres (dec + EntrySetupReasonCode) :=
  match invalidation_source direction source_sweep_candle entry_zone order_block config with
  | None => Ok (inr EntrySetupReasonCode.INVALIDATION_SOURCE_UNAVAILABLE)
  | Some source_price =>
      atr ← atr_of atr_result retest_index;
      if dltb (D 0) (EntrySetupConfig.setup_invalidation_buffer_atr_ratio config)
         && match atr with Some a => dleb a (D 0) | None => true end
      then Ok (inr EntrySetupReasonCode.ATR_UNAVAILABLE)
      else
        let buffer := invalidation_buffer atr config in
        match direction with
        | EntrySetupDirection.BULLISH =>
            level ← tick_rounded ROUND_FLOOR (dsub DEFAULT_PREC source_price buffer) (EntrySetupConfig.tick_size config);
            Ok (if dleb level (D 0) || dleb (EntryZone.low entry_zone) level
                then inr EntrySetupReasonCode.INVALIDATION_LEVEL_INVALID else inl level)
        | EntrySetupDirection.BEARISH =>
            level ← tick_rounded ROUND_CEILING (dadd DEFAULT_PREC source_price buffer) (EntrySetupConfig.tick_size config);
            Ok (if dleb level (EntryZone.high entry_zone)
                then inr EntrySetupReasonCode.INVALIDATION_LEVEL_INVALID else inl level)
        end
  end.

(** ** One sweep *)

Definition _setup (source : LiquidityInteraction) (direction : EntrySetupDirection) (status : EntrySetupStatus)
    (confirmed_at : datetime) (structure : option StructureBreakEvent) (displacement : option DisplacementLeg)
    (fvg : option GapZone) (order_block : option OrderBlockZone) (entry_zone : option EntryZone)
    (invalidation_level : option dec) (retest_timestamp : option datetime) (reasons : list EntrySetupReasonCode)
    : pyres CompositeEntrySetup :=
  validated CompositeEntrySetup.validate_setup
    (CompositeEntrySetup.mkCompositeEntrySetup
       ("HPE:" +:+ EntrySetupDirection.value direction +:+ ":" +:+ LiquidityInteraction.event_id source) status direction source
       structure displacement fvg order_block entry_zone invalidation_level retest_timestamp confirmed_at reasons).

(** A setup without levels. *)
Definition open_setup (source : LiquidityInteraction) (status : EntrySetupStatus) (confirmed_at : datetime)
    (structure : option StructureBreakEvent) (displacement : option DisplacementLeg) (fvg : option GapZone)
    (order_block : option OrderBlockZone) (reasons : list EntrySetupReasonCode) : pyres CompositeEntrySetup :=
  _setup source (_direction_from_sweep source) status confirmed_at structure displacement fvg order_block None None None reasons.

(** A stage is over when the setup or the stage took too long. *)
Definition stage_status (total_distance stage_distance stage_max : Z) (config : EntrySetupConfig) (open_ : EntrySetupStatus)
    (stage_reason : EntrySetupReasonCode) : EntrySetupStatus * list EntrySetupReasonCode :=
  if EntrySetupConfig.signal_setup_max_total_bars config <? total_distance
  then (EntrySetupStatus.INVALIDATED, [EntrySetupReasonCode.SETUP_TOTAL_EXPIRED])
  else if stage_max <? stage_distance then (EntrySetupStatus.INVALIDATED, [stage_reason])
  else (open_, []).

(** [key=lambda item: (item.confirmed_at, item.event_id)] *)
Definition interaction_order : LiquidityInteraction -> LiquidityInteraction -> bool :=
  lex_lt (on_key LiquidityInteraction.confirmed_at Z.ltb) (on_key LiquidityInteraction.event_id str_lt).
(** [key=lambda event: (event.confirmed_at, structure_event_reference(event))] *)
Definition break_order : StructureBreakEvent -> StructureBreakEvent -> bool :=
  lex_lt (on_key StructureBreakEvent.confirmed_at Z.ltb) (on_key structure_event_reference str_lt).
(** [key=lambda event: (event.confirmed_at, event.leg_id)] *)
Definition leg_order : DisplacementLeg -> DisplacementLeg -> bool :=
  lex_lt (on_key DisplacementLeg.confirmed_at Z.ltb) (on_key DisplacementLeg.leg_id str_lt).

(** The first shift against the setup in an interval. *)
Definition opposite_between (direction : EntrySetupDirection) (after limit : datetime) (mss_events : list StructureBreakEvent)
    : option StructureBreakEvent :=
  List.find (fun event => negb (bool_decide (StructureBreakEvent.direction event = _desired_structure_direction direction))
                          && (after <? StructureBreakEvent.confirmed_at event)
                          && (StructureBreakEvent.confirmed_at event <=? limit)) mss_events.

Definition taken_between (sweep : LiquidityInteraction) (limit : datetime) (taken_events : list LiquidityInteraction)
    : option LiquidityInteraction :=
  List.find (fun event => bool_decide (LiquidityInteraction.pool_id event = LiquidityInteraction.pool_id sweep)
                          && (LiquidityInteraction.confirmed_at sweep <? LiquidityInteraction.confirmed_at event)
                          && (LiquidityInteraction.confirmed_at event <=? limit)) (sort_by interaction_order taken_events).

(** [first_pre_mss_invalidator], with its reason. *)
Definition pre_mss_invalidator (taken : option LiquidityInteraction) (opposite : option StructureBreakEvent)
    : option (datetime * EntrySetupReasonCode) :=
  let of_taken e := Some (LiquidityInteraction.confirmed_at e, EntrySetupReasonCode.LIQUIDITY_TAKEN_BEFORE_MSS) in
  let of_opposite e := Some (StructureBreakEvent.confirmed_at e, EntrySetupReasonCode.OPPOSITE_MSS) in
  match taken, opposite with
  | Some t, Some o =>
      if StructureBreakEvent.confirmed_at o <? LiquidityInteraction.confirmed_at t then of_opposite o else of_taken t
  | Some t, None => of_taken t
  | None, Some o => of_opposite o
  | None, None => None
  end.

Section analysis.
Context (candles : list Candle) (timeframe : Timeframe) (config : EntrySetupConfig) (order_blocks : list OrderBlockZone)
  (atr_result : option ATRResult) (dual_event_ids : list string) (cutoff : datetime).

(** [close_to_index\[t\]] *)
Definition close_index (t : datetime) : pyres nat := index_get (close_to_index timeframe candles) t.
(** [candles\[timestamp_to_index\[t\]\]] *)
Definition candle_at (t : datetime) : pyres Candle :=
  index ← index_get (timestamp_to_index candles) t;
  match candles !! index with Some candle => Ok candle | None => Raise (Exc "IndexError" "list index out of range") end.
Definition current_index : Z := Z.of_nat (length candles) - 1.

Definition mss_matches (sweep : LiquidityInteraction) (sweep_index : nat) (event : StructureBreakEvent) : pyres bool :=
  if bool_decide (StructureBreakEvent.direction event = _desired_structure_direction (_direction_from_sweep sweep))
     && (LiquidityInteraction.confirmed_at sweep <? StructureBreakEvent.confirmed_at event)
  then
    index ← close_index (StructureBreakEvent.confirmed_at event);
    let distance := Z.of_nat index - Z.of_nat sweep_index in
    Ok ((1 <=? distance) && (distance <=? EntrySetupConfig.signal_max_bars_sweep_to_mss config)
        && (distance <=? EntrySetupConfig.signal_setup_max_total_bars config))
  else Ok false.

Definition leg_matches (sweep : LiquidityInteraction) (sweep_index : nat) (mss : StructureBreakEvent) (leg : DisplacementLeg) : pyres bool :=
  if bool_decide (DisplacementLeg.direction leg = _desired_displacement_direction (_direction_from_sweep sweep))
     && bool_decide (DisplacementLeg.associated_structure_break leg = structure_event_reference mss)
     && (StructureBreakEvent.confirmed_at mss <? DisplacementLeg.confirmed_at leg)
  then
    index ← close_index (DisplacementLeg.confirmed_at leg);
    mss_index ← close_index (StructureBreakEvent.confirmed_at mss);
    let distance := Z.of_nat index - Z.of_nat mss_index in
    Ok ((1 <=? distance) && (distance <=? EntrySetupConfig.signal_max_bars_mss_to_displacement config)
        && (Z.of_nat index - Z.of_nat sweep_index <=? EntrySetupConfig.signal_setup_max_total_bars config))
  else Ok false.

(** [needs_ob] *)
Definition needs_order_block : bool :=
  match EntrySetupConfig.signal_entry_zone_source config with
  | SetupEntryZoneSource.ORDER_BLOCK | SetupEntryZoneSource.INTERSECTION => true
  | SetupEntryZoneSource.FVG =>
      bool_decide (EntrySetupConfig.setup_invalidation_source config = SetupInvalidationSource.ORDER_BLOCK_EXTREME)
  end.

(** The setup a retest makes. *)
Definition retest_setup (sweep : LiquidityInteraction) (source_candle : Candle) (mss : StructureBreakEvent) (leg : DisplacementLeg)
    (selected_fvg : GapZone) (bar_index : nat) (candle : Candle) : pyres CompositeEntrySetup :=
  let direction := _direction_from_sweep sweep in
  let decision_at := Candle.timestamp candle + timeframe_duration timeframe in
  let selected_ob :=
    if needs_order_block then _select_order_block order_blocks selected_fvg direction (Candle.timestamp candle) decision_at else None in
  let invalidated reason :=
    open_setup sweep EntrySetupStatus.INVALIDATED decision_at (Some mss) (Some leg) (Some selected_fvg) selected_ob [reason] in
  entry ← _entry_zone selected_fvg selected_ob config;
  match entry with
  | None => invalidated EntrySetupReasonCode.ENTRY_ZONE_UNAVAILABLE
  | Some zone =>
      invalidation ← _invalidation_level direction source_candle zone selected_ob bar_index config atr_result;
      match invalidation with
      | inr reason => invalidated reason
      | inl level =>
          _setup sweep direction EntrySetupStatus.READY decision_at (Some mss) (Some leg) (Some selected_fvg) selected_ob
            (Some zone) (Some level) (Some (Candle.timestamp candle)) []
      end
  end.

(** One bar after the gap: what completes the setup, if anything. *)
Definition retest_bar (sweep : LiquidityInteraction) (sweep_index : nat) (source_candle : Candle) (mss : StructureBreakEvent)
    (leg : DisplacementLeg) (selected_fvg : GapZone) (fvg_index : nat) (mss_events : list StructureBreakEvent)
    (item : nat * Candle) : pyres (option CompositeEntrySetup) :=
  let '(bar_index, candle) := item in
  let direction := _direction_from_sweep sweep in
  let decision_at := Candle.timestamp candle + timeframe_duration timeframe in
  let invalidated confirmed_at reason :=
    setup ← open_setup sweep EntrySetupStatus.INVALIDATED confirmed_at (Some mss) (Some leg) (Some selected_fvg) None [reason];
    Ok (Some setup) in
  if EntrySetupConfig.signal_setup_max_total_bars config <? Z.of_nat bar_index - Z.of_nat sweep_index
  then invalidated decision_at EntrySetupReasonCode.SETUP_TOTAL_EXPIRED
  else
    match opposite_between direction (StructureBreakEvent.confirmed_at mss) decision_at mss_events with
    | Some opposite => invalidated (StructureBreakEvent.confirmed_at opposite) EntrySetupReasonCode.OPPOSITE_MSS
    | None =>
        match _fvg_terminal_at selected_fvg decision_at with
        | Some terminal_at => invalidated terminal_at EntrySetupReasonCode.FVG_TERMINAL
        | None =>
            if EntrySetupConfig.signal_max_bars_fvg_to_retest config <? Z.of_nat bar_index - Z.of_nat fvg_index
            then invalidated decision_at EntrySetupReasonCode.FVG_RETEST_EXPIRED
            else if Candle.timestamp candle <=? GapZone.confirmed_at selected_fvg then Ok None
            else if negb (_retest_passes selected_fvg candle direction (EntrySetupConfig.signal_retest_mode config)) then Ok None
            else
              setup ← retest_setup sweep source_candle mss leg selected_fvg bar_index candle;
              Ok (Some setup)
        end
    end.

(** The loop over the bars after the gap. *)
Fixpoint first_completed (step : nat * Candle -> pyres (option CompositeEntrySetup)) (bars : list (nat * Candle))
    : pyres (option CompositeEntrySetup) :=
  match bars with
  | [] => Ok None
  | item :: rest =>
      match step item with
      | Ok (Some setup) => Ok (Some setup)
      | Ok None => first_completed step rest
      | Raise e => Raise e
      end
  end.

(** [enumerate(candles)] from [fvg_index + 1]. *)
Definition bars_after (fvg_index : nat) : list (nat * Candle) := drop (fvg_index + 1) (enumerate candles).

Definition after_displacement (sweep : LiquidityInteraction) (sweep_index : nat) (source_candle : Candle) (mss : StructureBreakEvent)
    (leg : DisplacementLeg) (fvg_zones : list GapZone) (mss_events : list StructureBreakEvent) : pyres CompositeEntrySetup :=
  let direction := _direction_from_sweep sweep in
  mss_candle ← candle_at (StructureBreakEvent.timestamp mss);
  match _select_fvg fvg_zones leg mss (Candle.close mss_candle) direction config with
  | None =>
      open_setup sweep EntrySetupStatus.INVALIDATED (DisplacementLeg.confirmed_at leg) (Some mss) (Some leg) None None
        [EntrySetupReasonCode.FVG_UNAVAILABLE]
  | Some selected_fvg =>
      fvg_index ← close_index (GapZone.confirmed_at selected_fvg);
      completed ← first_completed (retest_bar sweep sweep_index source_candle mss leg selected_fvg fvg_index mss_events)
                    (bars_after fvg_index);
      match completed with
      | Some setup => Ok setup
      | None =>
          let '(status, reasons) :=
            stage_status (current_index - Z.of_nat sweep_index) (current_index - Z.of_nat fvg_index)
              (EntrySetupConfig.signal_max_bars_fvg_to_retest config) config EntrySetupStatus.WAITING_RETRACE
              EntrySetupReasonCode.FVG_RETEST_EXPIRED in
          open_setup sweep status cutoff (Some mss) (Some leg) (Some selected_fvg) None reasons
      end
  end.

Definition after_mss (sweep : LiquidityInteraction) (sweep_index : nat) (source_candle : Candle) (mss : StructureBreakEvent)
    (legs : list DisplacementLeg) (fvg_zones : list GapZone) (mss_events : list StructureBreakEvent) : pyres CompositeEntrySetup :=
  let direction := _direction_from_sweep sweep in
  matching_legs ← py_filter (leg_matches sweep sweep_index mss) legs;
  let leg := head matching_legs in
  let displacement_limit := from_option DisplacementLeg.confirmed_at cutoff leg in
  match opposite_between direction (StructureBreakEvent.confirmed_at mss) displacement_limit mss_events with
  | Some opposite =>
      open_setup sweep EntrySetupStatus.INVALIDATED (StructureBreakEvent.confirmed_at opposite) (Some mss) None None None
        [EntrySetupReasonCode.OPPOSITE_MSS]
  | None =>
      match leg with
      | None =>
          mss_index ← close_index (StructureBreakEvent.confirmed_at mss);
          let '(status, reasons) :=
            stage_status (current_index - Z.of_nat sweep_index) (current_index - Z.of_nat mss_index)
              (EntrySetupConfig.signal_max_bars_mss_to_displacement config) config EntrySetupStatus.FORMING
              EntrySetupReasonCode.DISPLACEMENT_STAGE_EXPIRED in
          open_setup sweep status cutoff (Some mss) None None None reasons
      | Some leg => after_displacement sweep sweep_index source_candle mss leg fvg_zones mss_events
      end
  end.

Definition _evaluate_sweep (sweep : LiquidityInteraction) (taken_events : list LiquidityInteraction)
    (mss_events : list StructureBreakEvent) (legs : list DisplacementLeg) (fvg_zones : list GapZone) : pyres CompositeEntrySetup :=
  let direction := _direction_from_sweep sweep in
  sweep_index ← close_index (LiquidityInteraction.confirmed_at sweep);
  source_candle ← candle_at (LiquidityInteraction.timestamp sweep);
  if bool_decide (LiquidityInteraction.event_id sweep ∈ dual_event_ids) && negb (EntrySetupConfig.signal_allow_dual_sweep config)
  then
    open_setup sweep EntrySetupStatus.INVALIDATED (LiquidityInteraction.confirmed_at sweep) None None None None
      [EntrySetupReasonCode.DUAL_SWEEP_REJECTED]
  else
    matching_mss ← py_filter (mss_matches sweep sweep_index) mss_events;
    let mss := head matching_mss in
    let mss_limit := from_option StructureBreakEvent.confirmed_at cutoff mss in
    match pre_mss_invalidator (taken_between sweep mss_limit taken_events)
            (opposite_between direction (LiquidityInteraction.confirmed_at sweep) mss_limit mss_events) with
    | Some (confirmed_at, reason) => open_setup sweep EntrySetupStatus.INVALIDATED confirmed_at None None None None [reason]
    | None =>
        match mss with
        | None =>
            let distance := current_index - Z.of_nat sweep_index in
            let '(status, reasons) :=
              stage_status distance distance (EntrySetupConfig.signal_max_bars_sweep_to_mss config) config EntrySetupStatus.FORMING
                EntrySetupReasonCode.MSS_STAGE_EXPIRED in
            open_setup sweep status cutoff None None None None reasons
        | Some mss => after_mss sweep sweep_index source_candle mss legs fvg_zones mss_events
        end
    end.
End analysis.

(** ** All sweeps *)

(** The evidence of an analysis, indexed. *)
Module Evidence.
Record Evidence := mkEvidence {
  mss_by_direction : list (StructureDirection * list StructureBreakEvent);
  taken_by_pool : list (string * list LiquidityInteraction);
  legs_by_structure : list ((string * DisplacementDirection) * list DisplacementLeg);
  zones_by_id : list (string * list (nat * GapZone))
}.
End Evidence.
Abbreviation Evidence := Evidence.Evidence.

(** [taken_events], in the order given. *)
Definition taken_of (liquidity_events : list LiquidityInteraction) : list LiquidityInteraction :=
  List.filter (fun event => bool_decide (LiquidityInteraction.type event = LiquidityInteractionType.TAKEN)) liquidity_events.
Definition sorted_mss (structure_events : list StructureBreakEvent) : list StructureBreakEvent :=
  sort_by break_order (List.filter (fun event => bool_decide (StructureBreakEvent.type event = StructureEventType.MSS)) structure_events).
Definition sorted_sweeps (liquidity_events : list LiquidityInteraction) : list LiquidityInteraction :=
  sort_by interaction_order
    (List.filter (fun event => bool_decide (LiquidityInteraction.type event = LiquidityInteractionType.SWEEP)) liquidity_events).
Definition dual_ids (dual_sweeps : list DualSweepGroup) : list string :=
  flat_map (fun group => DualSweepGroup.buy_side_event_ids group ++ DualSweepGroup.sell_side_event_ids group) dual_sweeps.

Definition evidence (liquidity_events : list LiquidityInteraction) (structure_events : list StructureBreakEvent)
    (displacement_events : list DisplacementLeg) (fvg_zones : list GapZone) : Evidence :=
  Evidence.mkEvidence
    (group_by StructureBreakEvent.direction (sorted_mss structure_events))
    (group_by LiquidityInteraction.pool_id (sort_by interaction_order (taken_of liquidity_events)))
    (group_by (fun leg => (DisplacementLeg.associated_structure_break leg, DisplacementLeg.direction leg))
       (sort_by leg_order displacement_events))
    (group_by (fun item => GapZone.zone_id (snd item)) (enumerate fvg_zones)).

Section detection.
Context (candles : list Candle) (timeframe : Timeframe) (config : EntrySetupConfig).

(** The first shift in the direction of the setup, if it comes in time. *)
Definition selected_mss (e : Evidence) (sweep : LiquidityInteraction) (sweep_index : nat) : pyres (option StructureBreakEvent) :=
  let desired := _desired_structure_direction (_direction_from_sweep sweep) in
  match _first_after StructureBreakEvent.confirmed_at (group_get (Evidence.mss_by_direction e) desired)
          (LiquidityInteraction.confirmed_at sweep) with
  | None => Ok None
  | Some mss =>
      index ← close_index candles timeframe (StructureBreakEvent.confirmed_at mss);
      Ok (if Z.min (EntrySetupConfig.signal_max_bars_sweep_to_mss config) (EntrySetupConfig.signal_setup_max_total_bars config)
             <? Z.of_nat index - Z.of_nat sweep_index
          then None else Some mss)
  end.

(** The first displacement linked to the shift, if it comes in time. *)
Definition selected_leg (e : Evidence) (sweep : LiquidityInteraction) (sweep_index : nat) (mss : StructureBreakEvent)
    : pyres (option DisplacementLeg) :=
  let key := (structure_event_reference mss, _desired_displacement_direction (_direction_from_sweep sweep)) in
  match _first_after DisplacementLeg.confirmed_at (group_get (Evidence.legs_by_structure e) key) (StructureBreakEvent.confirmed_at mss) with
  | None => Ok None
  | Some leg =>
      index ← close_index candles timeframe (DisplacementLeg.confirmed_at leg);
      mss_index ← close_index candles timeframe (StructureBreakEvent.confirmed_at mss);
      Ok (if (EntrySetupConfig.signal_max_bars_mss_to_displacement config <? Z.of_nat index - Z.of_nat mss_index)
             || (EntrySetupConfig.signal_setup_max_total_bars config <? Z.of_nat index - Z.of_nat sweep_index)
          then None else Some leg)
  end.

(** The zones a displacement names, in the order of the input. *)
Definition linked_zones (e : Evidence) (leg : DisplacementLeg) : list GapZone :=
  map snd (sort_by (on_key fst Nat.ltb)
    (flat_map (fun identity => group_get (Evidence.zones_by_id e) identity) (fromkeys (DisplacementLeg.associated_fvg leg)))).

Definition evaluate_indexed (order_blocks : list OrderBlockZone) (atr_result : option ATRResult) (dual_event_ids : list string)
    (cutoff : datetime) (e : Evidence) (sweep : LiquidityInteraction) : pyres CompositeEntrySetup :=
  let desired := _desired_structure_direction (_direction_from_sweep sweep) in
  let opposite :=
    _first_after StructureBreakEvent.confirmed_at (group_get (Evidence.mss_by_direction e) (opposite_structure desired))
      (LiquidityInteraction.confirmed_at sweep) in
  sweep_index ← close_index candles timeframe (LiquidityInteraction.confirmed_at sweep);
  mss ← selected_mss e sweep sweep_index;
  leg ← match mss with None => Ok None | Some mss => selected_leg e sweep sweep_index mss end;
  let taken :=
    _first_after LiquidityInteraction.confirmed_at (group_get (Evidence.taken_by_pool e) (LiquidityInteraction.pool_id sweep))
      (LiquidityInteraction.confirmed_at sweep) in
  _evaluate_sweep candles timeframe config order_blocks atr_result dual_event_ids cutoff sweep
    (option_list taken) (sort_by break_order (option_list mss ++ option_list opposite)) (option_list leg)
    (match leg with Some leg => linked_zones e leg | None => [] end).
End detection.

Definition detect_high_probability_entry_setups (candles : list Candle) (timeframe : Timeframe)
    (liquidity_events : list LiquidityInteraction) (structure_events : list StructureBreakEvent)
    (displacement_events : list DisplacementLeg) (fvg_zones : list GapZone) (config : EntrySetupConfig)
    (dual_sweeps : list DualSweepGroup) (order_blocks : list OrderBlockZone) (atr_result : option ATRResult)
    : pyres EntrySetupAnalysisResult :=
  _ ← _validate_inputs candles timeframe liquidity_events structure_events displacement_events fvg_zones config atr_result;
  match data_cutoff_at candles timeframe with
  | None => Ok (EntrySetupAnalysisResult.mkEntrySetupAnalysisResult timeframe config 0 None [])
  | Some cutoff =>
      setups ← py_map (evaluate_indexed candles timeframe config order_blocks atr_result (dual_ids dual_sweeps) cutoff
                         (evidence liquidity_events structure_events displacement_events fvg_zones))
                 (sorted_sweeps liquidity_events);
      Ok (EntrySetupAnalysisResult.mkEntrySetupAnalysisResult timeframe config (length candles) (Some cutoff) setups)
  end.

(** ** [engines/risk/calculations.py] *)

Definition risk_candidate_from_setup (setup : CompositeEntrySetup) : pyres RiskCandidate :=
  if negb (bool_decide (CompositeEntrySetup.setup_status setup = EntrySetupStatus.READY))
  then Raise (Exc "ValueError" "only a READY setup can become a risk candidate")
  else
    match CompositeEntrySetup.entry_zone setup, CompositeEntrySetup.invalidation_level setup with
    | Some zone, Some level =>
        validated RiskCandidate.require_structural_invalidation_outside_entry
          (RiskCandidate.mkRiskCandidate (CompositeEntrySetup.setup_id setup)
             (match CompositeEntrySetup.direction setup with
              | EntrySetupDirection.BULLISH => RiskDirection.LONG
              | EntrySetupDirection.BEARISH => RiskDirection.SHORT
              end) zone level ("setup:" +:+ CompositeEntrySetup.setup_id setup +:+ ":invalidation")
             (CompositeEntrySetup.confirmed_at setup))
    | _, _ => Raise (Exc "AssertionError" "")
    end.
