(* ===== verification/EntrySetupTheory.v ===== *)
(** Composite entry setups: the indexes of
    [detect_high_probability_entry_setups] find what [_evaluate_sweep] finds in
    the whole evidence. *)
From Stdlib Require Import ZArith Lia Sorting.Sorted Sorting.Permutation.
From stdpp Require Import base list strings numbers gmap sorting.
From S2P Require Import Prelude Dict SortedIndex Decimal Time Candle Signal Indicators Structure Engine Fvg LiquidityTypes Displacement OrderBlocks Risk SetupTypes EntrySetup.
Local Open Scope Z_scope.

(** ** Searches *)

Lemma find_ext_in {A} (p q : A -> bool) l : (forall x, x ∈ l -> p x = q x) -> List.find p l = List.find q l.
Proof.
  induction l as [|x l IH]; intros H; [done|]. cbn [List.find]. rewrite (H x) by by left. destruct (q x); [done|].
  apply IH. intros y Hy. apply H. by right.
Qed.

Lemma find_filter {A} (p q : A -> bool) l : List.find p (List.filter q l) = List.find (fun x => q x && p x) l.
Proof. induction l as [|x l IH]; [done|]. cbn. destruct (q x); cbn; [by rewrite IH|done]. Qed.

Lemma find_head {A} (p : A -> bool) l : head (List.filter p l) = List.find p l.
Proof. induction l as [|x l IH]; [done|]. cbn. by destruct (p x). Qed.

Lemma find_Some_in {A} (p : A -> bool) l x : List.find p l = Some x -> x ∈ l /\ p x = true.
Proof. intros H%List.find_some. by rewrite list_elem_of_In. Qed.

Lemma find_None_in {A} (p : A -> bool) l x : List.find p l = None -> x ∈ l -> p x = false.
Proof. rewrite list_elem_of_In. intros H Hx. exact (List.find_none p l H x Hx). Qed.

(** Searching with a condition that, once lost, stays lost. *)
Lemma find_bounded {A} (p q : A -> bool) l :
  StronglySorted (fun x y => p x = true -> p y = true -> q y = true -> q x = true) l ->
  List.find (fun x => p x && q x) l = match List.find p l with Some x => if q x then Some x else None | None => None end.
Proof.
  induction 1 as [|x l _ IH Hx]; [done|]. cbn [List.find]. destruct (p x) eqn:Ep; cbn [andb]; [|exact IH].
  destruct (q x) eqn:Eq; [done|]. rewrite Forall_forall in Hx.
  destruct (List.find _ l) as [y|] eqn:Ey; [|done]. apply find_Some_in in Ey as [Hy [Hpy Hqy]%andb_prop].
  by specialize (Hx y Hy eq_refl Hpy Hqy).
Qed.

(** The only element that can be found. *)
Lemma find_only {A} (p : A -> bool) l (o : option A) :
  (forall x, x ∈ l -> p x = true -> o = Some x) -> (forall x, o = Some x -> x ∈ l /\ p x = true) -> List.find p l = o.
Proof.
  intros H1 H2. destruct (List.find p l) as [x|] eqn:E.
  - apply find_Some_in in E as [Hx Hp]. symmetry. by apply H1.
  - destruct o as [x|]; [|done]. destruct (H2 x eq_refl) as [Hx Hp]. by rewrite (find_None_in _ _ _ E Hx) in Hp.
Qed.

Lemma py_filter_pure {A} (f : A -> pyres bool) (g : A -> bool) l :
  (forall x, x ∈ l -> f x = Ok (g x)) -> py_filter f l = Ok (List.filter g l).
Proof.
  induction l as [|x l IH]; intros H; [done|]. cbn [py_filter List.filter]. rewrite (H x) by by left.
  rewrite IH by (intros y Hy; apply H; by right). by destruct (g x).
Qed.

Lemma sort_by_option_list {A} (lt : A -> A -> bool) (o : option A) : sort_by lt (option_list o) = option_list o.
Proof. by destruct o. Qed.

Lemma elem_of_option_list {A} (o : option A) x : x ∈ option_list o <-> o = Some x.
Proof. destruct o; cbn; [rewrite list_elem_of_singleton|rewrite elem_of_nil]; naive_solver. Qed.

(** ** The first after an instant *)

(** Confirmations in order. *)
Definition in_order {A} (at_ : A -> datetime) (l : list A) : Prop := StronglySorted (fun x y => at_ x <= at_ y) l.

Lemma sort_in_order {A} (at_ : A -> datetime) (lt : A -> A -> bool) `{!StrictWeak lt} l :
  in_order at_ (sort_by (lex_lt (on_key at_ Z.ltb) lt) l).
Proof.
  apply (StronglySorted_weaken (fun x y => lex_lt (on_key at_ Z.ltb) lt y x = false)); [|apply sort_by_ordered; apply _].
  intros x y. unfold lex_lt, on_key. destruct (Z.ltb_spec (at_ y) (at_ x)); [done|lia].
Qed.

Lemma sorted_filter {A} (R : A -> A -> Prop) (p : A -> bool) l : StronglySorted R l -> StronglySorted R (List.filter p l).
Proof.
  induction 1 as [|x l Hl IH Hx]; cbn; [constructor|]. destruct (p x); [|done]. constructor; [done|].
  apply Forall_forall. intros y Hy%list_elem_of_In. apply filter_In in Hy as [Hy%list_elem_of_In _].
  rewrite Forall_forall in Hx. by apply Hx.
Qed.

Lemma first_after_find {A} (at_ : A -> datetime) l t : in_order at_ l -> _first_after at_ l t = List.find (fun x => t <? at_ x) l.
Proof.
  intros Hl. unfold _first_after.
  destruct (bisect_mono (fun x => at_ x <=? t) l 0 ltac:(lia)) as (Hr & H1 & H2).
  { intros i j x y Hij Hx Hy. rewrite !Z.leb_le. destruct (decide (i = j)) as [->|Hne]; [by simplify_eq|].
    pose proof (sorted_lookup _ l Hl i j x y ltac:(lia) Hx Hy) as H. cbn in H. lia. }
  set (s := bisect _ _ _ _) in *. rewrite <-(take_drop s l) at 2.
  assert (forall a b, List.find (fun x => t <? at_ x) a = None -> List.find (fun x => t <? at_ x) (a ++ b) = List.find (fun x => t <? at_ x) b) as Happ.
  { intros a b. induction a as [|x a IH]; [done|]. cbn. by destruct (t <? at_ x). }
  rewrite Happ.
  - destruct (drop s l) as [|x rest] eqn:Ed.
    + cbn. apply lookup_ge_None. assert (length (drop s l) = 0%nat) as E by by rewrite Ed. rewrite length_drop in E. lia.
    + assert (l !! s = Some x) as Ex by (pose proof (lookup_drop l s 0) as E; rewrite Ed, Nat.add_0_r in E; by rewrite <-E).
      rewrite Ex. cbn. specialize (H2 s x ltac:(lia) Ex). cbn in H2. destruct (Z.leb_spec (at_ x) t), (Z.ltb_spec t (at_ x)); done || lia.
  - apply find_only; [|done]. intros x [i Hi]%list_elem_of_lookup. apply lookup_take_Some in Hi as [Hi Hlt].
    specialize (H1 i x ltac:(lia) Hi). cbn in H1. destruct (Z.leb_spec (at_ x) t), (Z.ltb_spec t (at_ x)); done || lia.
Qed.

(** The first of a group after an instant. *)
Lemma first_after_group {A K} `{EqDecision K} (at_ : A -> datetime) (key : A -> K) k l t : in_order at_ l ->
  _first_after at_ (group_get (group_by key l) k) t = List.find (fun x => bool_decide (key x = k) && (t <? at_ x)) l.
Proof. intros Hl. rewrite group_get_by, first_after_find by by apply sorted_filter. apply find_filter. Qed.

(** A search up to a limit looks at the first only. *)
Lemma find_until {A} (at_ : A -> datetime) (p : A -> bool) l t limit : in_order at_ l ->
  List.find (fun x => p x && (t <? at_ x) && (at_ x <=? limit)) l
  = match List.find (fun x => p x && (t <? at_ x)) l with Some x => if at_ x <=? limit then Some x else None | None => None end.
Proof.
  intros Hl. apply find_bounded. eapply StronglySorted_weaken; [|exact Hl]. cbn. intros x y Hxy _ _. rewrite !Z.leb_le. lia.
Qed.

(** ** Closes and bars *)

Section bars.
Context (candles : list Candle) (timeframe : Timeframe) (Hs : evenly_spaced timeframe candles).

(** An instant at which a candle closes. *)
Definition closes (t : datetime) : Prop :=
  exists i c, candles !! i = Some c /\ Candle.timestamp c + timeframe_duration timeframe = t.

(** The bar that closes then. *)
Definition bar_of (t : datetime) : nat := default 0%nat (close_to_index timeframe candles !! t).

Lemma bar_of_spec t : closes t ->
  close_index candles timeframe t = Ok (bar_of t)
  /\ exists c, candles !! bar_of t = Some c /\ Candle.timestamp c + timeframe_duration timeframe = t.
Proof using Hs.
  intros (i & c & Hi & Ht). unfold close_index, bar_of, index_get.
  assert (close_to_index timeframe candles !! t = Some i) as -> by (apply (index_by_close timeframe); eauto). eauto.
Qed.

Lemma bar_of_lt t u : closes t -> closes u -> t < u <-> (bar_of t < bar_of u)%nat.
Proof using Hs.
  intros (_ & c & Hc & <-)%bar_of_spec (_ & d & Hd & <-)%bar_of_spec.
  pose proof (evenly_spaced_nth _ _ _ _ _ _ Hs Hc Hd). pose proof (timeframe_duration_pos timeframe). nia.
Qed.

Lemma bar_of_le t u : closes t -> closes u -> t <= u <-> (bar_of t <= bar_of u)%nat.
Proof using Hs. intros Ht Hu. pose proof (bar_of_lt u t Hu Ht). lia. Qed.

Lemma candle_at_ok t : t ∈ map Candle.timestamp candles -> exists c, candle_at candles t = Ok c /\ c ∈ candles /\ Candle.timestamp c = t.
Proof using Hs.
  intros (i & c & Hi & Ht)%elem_of_map_lookup. exists c. unfold candle_at. rewrite (index_get_open timeframe candles i c t) by done.
  cbn. rewrite Hi. split; [done|]. split; [by eapply list_elem_of_lookup_2|done].
Qed.
End bars.

(** ** What a sweep looks for *)

Section sweep.
Context (candles : list Candle) (timeframe : Timeframe) (config : EntrySetupConfig) (Hs : evenly_spaced timeframe candles).
Context (sweep : LiquidityInteraction) (Hsweep : closes candles timeframe (LiquidityInteraction.confirmed_at sweep)).

Local Abbreviation bar := (bar_of candles timeframe).
Local Abbreviation swept_at := (LiquidityInteraction.confirmed_at sweep).
Local Abbreviation sweep_index := (bar swept_at).

(** A shift in the direction of the setup, after the sweep. *)
Definition shift_after (x : StructureBreakEvent) : bool :=
  bool_decide (StructureBreakEvent.direction x = _desired_structure_direction (_direction_from_sweep sweep))
  && (swept_at <? StructureBreakEvent.confirmed_at x).

(** It comes in time. *)
Definition shift_in_time (x : StructureBreakEvent) : bool :=
  let distance := Z.of_nat (bar (StructureBreakEvent.confirmed_at x)) - Z.of_nat sweep_index in
  (distance <=? EntrySetupConfig.signal_max_bars_sweep_to_mss config) && (distance <=? EntrySetupConfig.signal_setup_max_total_bars config).

Definition first_shift (mss_events : list StructureBreakEvent) : option StructureBreakEvent :=
  List.find (fun x => shift_after x && shift_in_time x) mss_events.

Definition shifts_close : list StructureBreakEvent -> Prop :=
  Forall (fun x => closes candles timeframe (StructureBreakEvent.confirmed_at x)).

Lemma first_shift_spec l : in_order StructureBreakEvent.confirmed_at l -> shifts_close l ->
  first_shift l = match List.find shift_after l with Some x => if shift_in_time x then Some x else None | None => None end.
Proof using Hs.
  intros Hl Hc. apply find_bounded. induction Hl as [|x l Hl IH Hx]; [constructor|].
  apply Forall_cons in Hc as [Hcx Hc]. constructor; [by apply IH|].
  unfold shifts_close in Hc. rewrite Forall_forall in Hx, Hc |- *. intros y Hy _ _.
  pose proof (proj1 (bar_of_le candles timeframe Hs _ _ Hcx (Hc y Hy)) (Hx y Hy)). unfold shift_in_time. rewrite !andb_true_iff, !Z.leb_le. lia.
Qed.

(** The candidates [_evaluate_sweep] collects; it takes the first. *)
Lemma matching_shifts l : shifts_close l ->
  py_filter (mss_matches candles timeframe config sweep sweep_index) l = Ok (List.filter (fun x => shift_after x && shift_in_time x) l).
Proof using Hs Hsweep.
  unfold shifts_close. rewrite Forall_forall. intros Hc. apply py_filter_pure. intros x Hx. unfold mss_matches. fold (shift_after x).
  destruct (shift_after x) eqn:Ea; [|done]. destruct (bar_of_spec candles timeframe Hs _ (Hc x Hx)) as (-> & _). cbn [mbind pyres_bind andb].
  f_equal. unfold shift_in_time. rewrite (proj2 (Z.leb_le 1 _)); [done|].
  apply andb_prop in Ea as [_ Ea%Z.ltb_lt]. pose proof (proj1 (bar_of_lt candles timeframe Hs _ _ Hsweep (Hc x Hx)) Ea). lia.
Qed.

(** [selected_mss] *)
Lemma selected_mss_spec e l : in_order StructureBreakEvent.confirmed_at l -> shifts_close l ->
  Evidence.mss_by_direction e = group_by StructureBreakEvent.direction l ->
  selected_mss candles timeframe config e sweep sweep_index = Ok (first_shift l).
Proof using Hs.
  intros Hl Hc He. rewrite first_shift_spec by done. unfold selected_mss. rewrite He, first_after_group by done.
  fold shift_after. change (fun x => bool_decide _ && _) with shift_after.
  destruct (List.find shift_after l) as [x|] eqn:Ex; [|done]. apply find_Some_in in Ex as [Hx _].
  unfold shifts_close in Hc. rewrite Forall_forall in Hc. destruct (bar_of_spec candles timeframe Hs _ (Hc x Hx)) as (-> & _). cbn [mbind pyres_bind].
  f_equal. unfold shift_in_time. by destruct (Z.leb_spec (Z.of_nat (bar (StructureBreakEvent.confirmed_at x)) - Z.of_nat sweep_index) (EntrySetupConfig.signal_max_bars_sweep_to_mss config)),
    (Z.leb_spec (Z.of_nat (bar (StructureBreakEvent.confirmed_at x)) - Z.of_nat sweep_index) (EntrySetupConfig.signal_setup_max_total_bars config)),
    (Z.ltb_spec (Z.min (EntrySetupConfig.signal_max_bars_sweep_to_mss config) (EntrySetupConfig.signal_setup_max_total_bars config))
       (Z.of_nat (bar (StructureBreakEvent.confirmed_at x)) - Z.of_nat sweep_index)); cbn; try done; lia.
Qed.

(** *** Shifts against the setup *)

Definition opposite_after (x : StructureBreakEvent) : bool :=
  negb (bool_decide (StructureBreakEvent.direction x = _desired_structure_direction (_direction_from_sweep sweep)))
  && (swept_at <? StructureBreakEvent.confirmed_at x).

Lemma opposite_between_spec l limit : in_order StructureBreakEvent.confirmed_at l ->
  opposite_between (_direction_from_sweep sweep) swept_at limit l
  = match List.find opposite_after l with
    | Some x => if StructureBreakEvent.confirmed_at x <=? limit then Some x else None
    | None => None
    end.
Proof using. intros Hl. unfold opposite_between. by apply (find_until StructureBreakEvent.confirmed_at (fun x => negb (bool_decide _))). Qed.

(** None up to an instant: the search may start there. *)
Lemma opposite_between_later l from limit : swept_at <= from ->
  opposite_between (_direction_from_sweep sweep) swept_at from l = None ->
  opposite_between (_direction_from_sweep sweep) from limit l = opposite_between (_direction_from_sweep sweep) swept_at limit l.
Proof using.
  intros Hf Hn. apply find_ext_in. intros x Hx. pose proof (find_None_in _ _ _ Hn Hx) as E. cbn in E.
  destruct (negb _); [|done]. cbn [andb] in *.
  destruct (Z.ltb_spec swept_at (StructureBreakEvent.confirmed_at x)), (Z.leb_spec (StructureBreakEvent.confirmed_at x) from),
    (Z.ltb_spec from (StructureBreakEvent.confirmed_at x)); try done; lia.
Qed.

(** [opposite] *)
Lemma opposite_first_after l : in_order StructureBreakEvent.confirmed_at l ->
  _first_after StructureBreakEvent.confirmed_at
    (group_get (group_by StructureBreakEvent.direction l) (opposite_structure (_desired_structure_direction (_direction_from_sweep sweep)))) swept_at
  = List.find opposite_after l.
Proof using.
  intros Hl. rewrite first_after_group by done. apply find_ext_in. intros x _. unfold opposite_after. f_equal.
  destruct (_desired_structure_direction _), (StructureBreakEvent.direction x); by vm_compute.
Qed.

(** The two shifts [detect_high_probability_entry_setups] hands over. *)
Definition two_shifts (l : list StructureBreakEvent) : list StructureBreakEvent :=
  sort_by break_order (option_list (first_shift l) ++ option_list (List.find opposite_after l)).

Lemma elem_of_two_shifts l x : x ∈ two_shifts l <-> first_shift l = Some x \/ List.find opposite_after l = Some x.
Proof using. unfold two_shifts. by rewrite elem_of_sort_by, elem_of_app, !elem_of_option_list. Qed.

Lemma two_shifts_ordered l : in_order StructureBreakEvent.confirmed_at (two_shifts l).
Proof using. apply sort_in_order, _. Qed.

Lemma two_shifts_subset l x : x ∈ two_shifts l -> x ∈ l.
Proof using. by intros [[H _]%find_Some_in|[H _]%find_Some_in]%elem_of_two_shifts. Qed.

Lemma two_shifts_first l : first_shift (two_shifts l) = first_shift l.
Proof using.
  unfold first_shift at 1. apply find_only.
  - intros x [H|[_ H]%find_Some_in]%elem_of_two_shifts [Hp _]%andb_prop; [done|]. exfalso. unfold opposite_after, shift_after in *.
    destruct (bool_decide _); cbn in H, Hp; done.
  - intros x Hx. split; [apply elem_of_two_shifts; by left|]. by apply find_Some_in in Hx as [_ Hp].
Qed.

Lemma two_shifts_opposite l : List.find opposite_after (two_shifts l) = List.find opposite_after l.
Proof using.
  apply find_only.
  - intros x [[_ H]%find_Some_in|H]%elem_of_two_shifts Hp; [|done]. exfalso. unfold opposite_after, shift_after in *.
    destruct (bool_decide _); cbn in H, Hp; done.
  - intros x Hx. split; [apply elem_of_two_shifts; by right|]. by apply find_Some_in in Hx as [_ Hp].
Qed.

Lemma two_shifts_between l limit : in_order StructureBreakEvent.confirmed_at l ->
  opposite_between (_direction_from_sweep sweep) swept_at limit (two_shifts l) = opposite_between (_direction_from_sweep sweep) swept_at limit l.
Proof using. intros Hl. rewrite !opposite_between_spec by (done || apply two_shifts_ordered). by rewrite two_shifts_opposite. Qed.

(** *** Displacements that answer a shift *)

Section leg.
Context (mss : StructureBreakEvent) (Hmss : closes candles timeframe (StructureBreakEvent.confirmed_at mss)).

Definition leg_after (leg : DisplacementLeg) : bool :=
  bool_decide (DisplacementLeg.direction leg = _desired_displacement_direction (_direction_from_sweep sweep))
  && bool_decide (DisplacementLeg.associated_structure_break leg = structure_event_reference mss)
  && (StructureBreakEvent.confirmed_at mss <? DisplacementLeg.confirmed_at leg).

Definition leg_in_time (leg : DisplacementLeg) : bool :=
  let index := Z.of_nat (bar (DisplacementLeg.confirmed_at leg)) in
  (index - Z.of_nat (bar (StructureBreakEvent.confirmed_at mss)) <=? EntrySetupConfig.signal_max_bars_mss_to_displacement config)
  && (index - Z.of_nat sweep_index <=? EntrySetupConfig.signal_setup_max_total_bars config).

Definition first_leg (legs : list DisplacementLeg) : option DisplacementLeg :=
  List.find (fun x => leg_after x && leg_in_time x) legs.

Definition legs_close : list DisplacementLeg -> Prop :=
  Forall (fun x => closes candles timeframe (DisplacementLeg.confirmed_at x)).

Lemma first_leg_spec l : in_order DisplacementLeg.confirmed_at l -> legs_close l ->
  first_leg l = match List.find leg_after l with Some x => if leg_in_time x then Some x else None | None => None end.
Proof using Hs.
  intros Hl Hc. apply find_bounded. induction Hl as [|x l Hl IH Hx]; [constructor|].
  apply Forall_cons in Hc as [Hcx Hc]. constructor; [by apply IH|].
  unfold legs_close in Hc. rewrite Forall_forall in Hx, Hc |- *. intros y Hy _ _.
  pose proof (proj1 (bar_of_le candles timeframe Hs _ _ Hcx (Hc y Hy)) (Hx y Hy)). unfold leg_in_time. rewrite !andb_true_iff, !Z.leb_le. lia.
Qed.

Lemma matching_legs l : legs_close l ->
  py_filter (leg_matches candles timeframe config sweep sweep_index mss) l = Ok (List.filter (fun x => leg_after x && leg_in_time x) l).
Proof using Hs Hmss.
  unfold legs_close. rewrite Forall_forall. intros Hc. apply py_filter_pure. intros x Hx. unfold leg_matches. fold (leg_after x).
  destruct (leg_after x) eqn:Ea; [|done]. destruct (bar_of_spec candles timeframe Hs _ (Hc x Hx)) as (-> & _).
  destruct (bar_of_spec candles timeframe Hs _ Hmss) as (-> & _). cbn [mbind pyres_bind andb].
  f_equal. unfold leg_in_time. rewrite (proj2 (Z.leb_le 1 _)); [done|].
  apply andb_prop in Ea as [_ Ea%Z.ltb_lt]. pose proof (proj1 (bar_of_lt candles timeframe Hs _ _ Hmss (Hc x Hx)) Ea). lia.
Qed.

(** [selected_leg] *)
Lemma selected_leg_spec e l : in_order DisplacementLeg.confirmed_at l -> legs_close l ->
  Evidence.legs_by_structure e = group_by (fun leg => (DisplacementLeg.associated_structure_break leg, DisplacementLeg.direction leg)) l ->
  selected_leg candles timeframe config e sweep sweep_index mss = Ok (first_leg l).
Proof using Hs Hmss.
  intros Hl Hc He. rewrite first_leg_spec by done. unfold selected_leg. rewrite He, first_after_group by done.
  rewrite (find_ext_in _ leg_after).
  2:{ intros x _. unfold leg_after. f_equal. rewrite andb_comm. repeat case_bool_decide; cbn; naive_solver congruence. }
  destruct (List.find leg_after l) as [x|] eqn:Ex; [|done]. apply find_Some_in in Ex as [Hx _].
  unfold legs_close in Hc. rewrite Forall_forall in Hc. destruct (bar_of_spec candles timeframe Hs _ (Hc x Hx)) as (-> & _).
  destruct (bar_of_spec candles timeframe Hs _ Hmss) as (-> & _). cbn [mbind pyres_bind].
  f_equal. unfold leg_in_time. by destruct (Z.leb_spec (Z.of_nat (bar (DisplacementLeg.confirmed_at x)) - Z.of_nat (bar (StructureBreakEvent.confirmed_at mss)))
      (EntrySetupConfig.signal_max_bars_mss_to_displacement config)),
    (Z.ltb_spec (EntrySetupConfig.signal_max_bars_mss_to_displacement config)
       (Z.of_nat (bar (DisplacementLeg.confirmed_at x)) - Z.of_nat (bar (StructureBreakEvent.confirmed_at mss)))),
    (Z.leb_spec (Z.of_nat (bar (DisplacementLeg.confirmed_at x)) - Z.of_nat sweep_index) (EntrySetupConfig.signal_setup_max_total_bars config)),
    (Z.ltb_spec (EntrySetupConfig.signal_setup_max_total_bars config) (Z.of_nat (bar (DisplacementLeg.confirmed_at x)) - Z.of_nat sweep_index));
    cbn; try done; lia.
Qed.

Lemma first_leg_alone l : first_leg (option_list (first_leg l)) = first_leg l.
Proof using.
  unfold first_leg at 1. apply find_only.
  - by intros x Hx%elem_of_option_list _.
  - intros x Hx. rewrite elem_of_option_list. split; [done|]. by apply find_Some_in in Hx as [_ Hp].
Qed.
End leg.

(** *** The pool taken *)

Lemma taken_between_spec events limit :
  taken_between sweep limit events
  = match List.find (fun x => bool_decide (LiquidityInteraction.pool_id x = LiquidityInteraction.pool_id sweep)
                              && (swept_at <? LiquidityInteraction.confirmed_at x)) (sort_by interaction_order events) with
    | Some x => if LiquidityInteraction.confirmed_at x <=? limit then Some x else None
    | None => None
    end.
Proof using. apply (find_until LiquidityInteraction.confirmed_at (fun x => bool_decide _)). apply sort_in_order, _. Qed.

(** [taken] *)
Lemma taken_between_first e events limit :
  Evidence.taken_by_pool e = group_by LiquidityInteraction.pool_id (sort_by interaction_order events) ->
  taken_between sweep limit
    (option_list (_first_after LiquidityInteraction.confirmed_at
       (group_get (Evidence.taken_by_pool e) (LiquidityInteraction.pool_id sweep)) swept_at))
  = taken_between sweep limit events.
Proof using.
  intros He. rewrite !taken_between_spec, He, first_after_group, sort_by_option_list by apply sort_in_order, _.
  destruct (List.find _ (sort_by interaction_order events)) as [x|] eqn:E; [|done].
  apply find_Some_in in E as [_ E]. cbn in E |- *. by rewrite E.
Qed.
End sweep.

(** ** The zones of a displacement *)

Lemma omap_enumerate_id {A} (l : list A) : omap Some (enumerate l) = enumerate l.
Proof. induction (enumerate l) as [|x k IH]; [done|]. cbn. by rewrite IH. Qed.

Lemma linked_zones_spec e leg zones :
  Evidence.zones_by_id e = group_by (fun item => GapZone.zone_id (snd item)) (enumerate zones) ->
  linked_zones e leg = List.filter (fun zone => bool_decide (GapZone.zone_id zone ∈ DisplacementLeg.associated_fvg leg)) zones.
Proof.
  intros He. unfold linked_zones. rewrite He.
  set (items := List.filter (fun item => bool_decide (GapZone.zone_id (snd item) ∈ DisplacementLeg.associated_fvg leg)) (enumerate zones)).
  rewrite (flat_map_ext_in _ (fun k => List.filter (fun item => true && bool_decide (Some (GapZone.zone_id (snd item)) = Some k)) (enumerate zones))).
  2:{ intros k _. rewrite group_get_by. apply filter_ext_in. intros x _. cbn [andb]. apply bool_decide_ext. naive_solver. }
  transitivity (map snd items).
  - f_equal. apply (StronglySorted_unique_strong (fun x y => on_key fst Nat.ltb y x = false)); [| |subst items|].
    + intros [i x] [j y] Hx%elem_of_sort_by Hy. unfold on_key. cbn [fst]. rewrite !Nat.ltb_ge. intros H1 H2.
      assert (i = j) as <- by lia. f_equal. apply elem_of_flat_map in Hx as (k & _ & [Hx _]%list_elem_of_In%filter_In).
      apply list_elem_of_In, filter_In in Hy as [Hy _]. apply list_elem_of_In, elem_of_enumerate in Hx, Hy. congruence.
    + apply (sort_by_ordered (on_key fst Nat.ltb)).
    + apply sorted_filter. rewrite <-(omap_enumerate_id zones). eapply StronglySorted_weaken; [|apply (omap_enumerate_sorted Some fst); naive_solver].
      intros x y Hxy. unfold on_key. apply Nat.ltb_ge. cbn in Hxy |- *. lia.
    + rewrite <-sort_by_Permutation, flat_map_by_key by apply NoDup_fromkeys. unfold items.
      erewrite (filter_ext_in _ _ (enumerate zones)); [done|]. intros x _. cbn. apply bool_decide_ext. apply elem_of_fromkeys.
  - unfold items. clear items He. induction zones as [|zone zones IH] using rev_ind; [done|].
    rewrite enumerate_app, !List.filter_app, map_app, IH. f_equal. cbn. by case_bool_decide.
Qed.

(** ** The evaluation *)

Lemma first_completed_ext f g bars : (forall item, f item = g item) -> first_completed f bars = first_completed g bars.
Proof. intros H. induction bars as [|b bars IH]; [done|]. cbn [first_completed]. rewrite H. by destruct (g b) as [[|]|]. Qed.

Lemma select_linked zones leg mss close direction config :
  _select_fvg (List.filter (fun zone => bool_decide (GapZone.zone_id zone ∈ DisplacementLeg.associated_fvg leg)) zones) leg mss close direction config
  = _select_fvg zones leg mss close direction config.
Proof.
  unfold _select_fvg. rewrite filter_andb. f_equal. apply filter_ext_in. intros zone _. unfold gap_eligible. by case_bool_decide.
Qed.

Section evaluation.
Context (candles : list Candle) (timeframe : Timeframe) (config : EntrySetupConfig) (order_blocks : list OrderBlockZone)
  (atr_result : option ATRResult) (dual_event_ids : list string) (cutoff : datetime).
Context (Hs : evenly_spaced timeframe candles).
Context (sweep : LiquidityInteraction) (Hsweep : closes candles timeframe (LiquidityInteraction.confirmed_at sweep)).

Local Abbreviation evaluate := (_evaluate_sweep candles timeframe config order_blocks atr_result dual_event_ids cutoff sweep).
Local Abbreviation swept_at := (LiquidityInteraction.confirmed_at sweep).
Local Abbreviation direction := (_direction_from_sweep sweep).

Lemma retest_bar_later index source mss leg fvg fvg_index l l' item :
  swept_at <= StructureBreakEvent.confirmed_at mss ->
  (forall limit, opposite_between direction swept_at limit l' = opposite_between direction swept_at limit l) ->
  opposite_between direction swept_at (StructureBreakEvent.confirmed_at mss) l = None ->
  retest_bar timeframe config order_blocks atr_result sweep index source mss leg fvg fvg_index l' item
  = retest_bar timeframe config order_blocks atr_result sweep index source mss leg fvg fvg_index l item.
Proof using.
  intros Hle Hl Hn. destruct item as [bar candle]. unfold retest_bar.
  by rewrite !(opposite_between_later sweep _ (StructureBreakEvent.confirmed_at mss)), Hl by (done || by rewrite Hl).
Qed.

Lemma after_displacement_later index source mss leg zones l l' :
  swept_at <= StructureBreakEvent.confirmed_at mss ->
  (forall limit, opposite_between direction swept_at limit l' = opposite_between direction swept_at limit l) ->
  opposite_between direction swept_at (StructureBreakEvent.confirmed_at mss) l = None ->
  after_displacement candles timeframe config order_blocks atr_result cutoff sweep index source mss leg
    (List.filter (fun zone => bool_decide (GapZone.zone_id zone ∈ DisplacementLeg.associated_fvg leg)) zones) l'
  = after_displacement candles timeframe config order_blocks atr_result cutoff sweep index source mss leg zones l.
Proof using.
  intros Hle Hl Hn. unfold after_displacement. destruct (candle_at candles _) as [mss_candle|]; [|done]. cbn [mbind pyres_bind].
  rewrite select_linked. destruct (_select_fvg zones _ _ _ _ _) as [fvg|]; [|done]. destruct (close_index _ _ _) as [fvg_index|]; [|done].
  cbn [mbind pyres_bind]. erewrite first_completed_ext; [done|]. intros item. by apply retest_bar_later.
Qed.

(** The evidence of a sweep is enough. *)
Lemma evaluate_selected taken taken' mss_events legs zones :
  in_order StructureBreakEvent.confirmed_at mss_events -> shifts_close candles timeframe mss_events ->
  legs_close candles timeframe legs ->
  (forall limit, taken_between sweep limit taken' = taken_between sweep limit taken) ->
  evaluate taken' (two_shifts candles timeframe config sweep mss_events)
    (option_list (first_shift candles timeframe config sweep mss_events ≫= fun mss => first_leg candles timeframe config sweep mss legs))
    (match first_shift candles timeframe config sweep mss_events ≫= fun mss => first_leg candles timeframe config sweep mss legs with
     | Some leg => List.filter (fun zone => bool_decide (GapZone.zone_id zone ∈ DisplacementLeg.associated_fvg leg)) zones
     | None => []
     end)
  = evaluate taken mss_events legs zones.
Proof using Hs Hsweep.
  intros Hm Hmc Hlc Ht. set (small := two_shifts candles timeframe config sweep mss_events).
  assert (shifts_close candles timeframe small) as Hsc.
  { unfold shifts_close in *. rewrite Forall_forall in Hmc |- *. intros x Hx. eapply Hmc, two_shifts_subset, Hx. }
  assert (forall limit, opposite_between direction swept_at limit small = opposite_between direction swept_at limit mss_events) as Ho
    by (intros; by apply two_shifts_between).
  unfold _evaluate_sweep. destruct (bar_of_spec candles timeframe Hs _ Hsweep) as (-> & _). cbn [mbind pyres_bind].
  destruct (candle_at candles _) as [source|]; [|done]. cbn [mbind pyres_bind]. destruct (_ && negb _); [done|].
  rewrite !matching_shifts by done. cbn [mbind pyres_bind]. rewrite !find_head.
  pose proof (two_shifts_first candles timeframe config sweep mss_events) as Hf. fold small in Hf. unfold first_shift in Hf at 1.
  rewrite Hf. fold (first_shift candles timeframe config sweep mss_events).
  destruct (first_shift _ _ _ _ _) as [mss|] eqn:Emss; cbn [from_option mbind option_bind].
  2:{ by rewrite Ht, Ho. }
  apply find_Some_in in Emss as [Hmss [[_ Hafter%Z.ltb_lt]%andb_prop _]%andb_prop].
  assert (closes candles timeframe (StructureBreakEvent.confirmed_at mss)) as Hmcl by (unfold shifts_close in Hmc; rewrite Forall_forall in Hmc; auto).
  rewrite Ht, Ho. destruct (pre_mss_invalidator _ _) as [[at_ reason]|] eqn:Epre; [done|].
  assert (opposite_between direction swept_at (StructureBreakEvent.confirmed_at mss) mss_events = None) as Hn.
  { unfold pre_mss_invalidator in Epre. destruct (opposite_between _ _ _ _); [|done]. destruct (taken_between _ _ _); [|done]. by case_match. }
  unfold after_mss. set (leg := first_leg candles timeframe config sweep mss legs).
  assert (legs_close candles timeframe (option_list leg)) as Hlo.
  { unfold legs_close in *. rewrite Forall_forall in Hlc |- *. intros x [Hx _]%elem_of_option_list%find_Some_in. auto. }
  rewrite !matching_legs by done. cbn [mbind pyres_bind]. rewrite !find_head.
  pose proof (first_leg_alone candles timeframe config sweep mss legs) as Hl. fold leg in Hl. unfold first_leg in Hl at 1.
  rewrite Hl. change (List.find _ legs) with leg.
  rewrite !(opposite_between_later sweep _ (StructureBreakEvent.confirmed_at mss)), Ho by (try lia; by rewrite ?Ho).
  destruct (opposite_between direction swept_at (from_option _ _ leg) mss_events); [done|]. destruct leg as [leg|]; [|done].
  apply after_displacement_later; [lia|done..].
Qed.
End evaluation.

(** ** All sweeps *)

(** What the checks of the inputs establish. *)
Record checked_inputs (candles : list Candle) (timeframe : Timeframe) (liquidity_events : list LiquidityInteraction)
    (structure_events : list StructureBreakEvent) (displacement_events : list DisplacementLeg) (fvg_zones : list GapZone)
    (atr_result : option ATRResult) : Prop := {
  ci_spaced : evenly_spaced timeframe candles;
  ci_liquidity : forall e, e ∈ liquidity_events ->
    LiquidityInteraction.timestamp e ∈ map Candle.timestamp candles /\ closes candles timeframe (LiquidityInteraction.confirmed_at e);
  ci_structure : forall e, e ∈ structure_events ->
    StructureBreakEvent.timestamp e ∈ map Candle.timestamp candles /\ closes candles timeframe (StructureBreakEvent.confirmed_at e);
  ci_displacement : forall e, e ∈ displacement_events -> closes candles timeframe (DisplacementLeg.confirmed_at e);
  ci_zones : forall z, z ∈ fvg_zones -> closes candles timeframe (GapZone.confirmed_at z);
  ci_atr : forall atr, atr_result = Some atr -> length (ATRResult.points atr) = length candles
}.

Lemma validate_inputs_checked candles timeframe liquidity_events structure_events displacement_events fvg_zones config atr_result u :
  _validate_inputs candles timeframe liquidity_events structure_events displacement_events fvg_zones config atr_result = Ok u ->
  checked_inputs candles timeframe liquidity_events structure_events displacement_events fvg_zones atr_result.
Proof.
  destruct u. intros (_ & _ & ([] & Hs%validate_spacing_ok & ([] & H1%py_for_ok & ([] & H2%py_for_ok & ([] & H3%py_for_ok &
    ([] & H4%py_for_ok & H5)%bind_ok)%bind_ok)%bind_ok)%bind_ok)%bind_ok)%bind_ok.
  rewrite Forall_forall in H1. rewrite Forall_forall in H2. rewrite Forall_forall in H3. rewrite Forall_forall in H4.
  split; [done| | | | |].
  - intros e [?%bool_decide_eq_true ?%bool_decide_eq_true%elem_of_map_lookup]%H1%raise_if_ok%negb_false_iff%andb_prop. done.
  - intros e [?%bool_decide_eq_true ?%bool_decide_eq_true%elem_of_map_lookup]%H2%raise_if_ok%negb_false_iff%andb_prop. done.
  - intros e [_ ?%bool_decide_eq_true%elem_of_map_lookup]%H3%raise_if_ok%negb_false_iff%andb_prop. done.
  - intros z ?%H4%raise_if_ok%negb_false_iff%bool_decide_eq_true%elem_of_map_lookup. done.
  - intros atr ->. cbn in H5. apply bind_ok in H5 as (_ & H%raise_if_ok%negb_false_iff%Nat.eqb_eq & _). done.
Qed.

Lemma aligned_shifts candles timeframe structure_events :
  (forall e, e ∈ structure_events ->
     StructureBreakEvent.timestamp e ∈ map Candle.timestamp candles /\ closes candles timeframe (StructureBreakEvent.confirmed_at e)) ->
  shifts_close candles timeframe (sorted_mss structure_events).
Proof. intros H. apply Forall_forall. intros x [Hx _]%elem_of_sort_by%list_elem_of_In%filter_In. by apply H, list_elem_of_In. Qed.

Lemma aligned_legs candles timeframe displacement_events :
  (forall e, e ∈ displacement_events -> closes candles timeframe (DisplacementLeg.confirmed_at e)) ->
  legs_close candles timeframe (sort_by leg_order displacement_events).
Proof. intros H. apply Forall_forall. intros x Hx%elem_of_sort_by. auto. Qed.

Lemma sorted_sweep_in liquidity_events sweep : sweep ∈ sorted_sweeps liquidity_events -> sweep ∈ liquidity_events.
Proof. by intros [H%list_elem_of_In _]%elem_of_sort_by%list_elem_of_In%filter_In. Qed.

(** One sweep, from the indexes and from the whole evidence. *)
Lemma evaluate_indexed_whole candles timeframe config order_blocks atr_result dual_event_ids cutoff liquidity_events structure_events
    displacement_events fvg_zones sweep :
  checked_inputs candles timeframe liquidity_events structure_events displacement_events fvg_zones atr_result ->
  sweep ∈ sorted_sweeps liquidity_events ->
  evaluate_indexed candles timeframe config order_blocks atr_result dual_event_ids cutoff
    (evidence liquidity_events structure_events displacement_events fvg_zones) sweep
  = _evaluate_sweep candles timeframe config order_blocks atr_result dual_event_ids cutoff sweep
      (taken_of liquidity_events) (sorted_mss structure_events) (sort_by leg_order displacement_events) fvg_zones.
Proof.
  intros [Hs Hliq Hstr Hdis _ _] Hsweep%sorted_sweep_in. apply Hliq in Hsweep as [_ Hsweep].
  pose proof (aligned_shifts _ _ _ Hstr) as Hmc. pose proof (aligned_legs _ _ _ Hdis) as Hlc.
  assert (in_order StructureBreakEvent.confirmed_at (sorted_mss structure_events)) as Hm by apply sort_in_order, _.
  assert (in_order DisplacementLeg.confirmed_at (sort_by leg_order displacement_events)) as Hl by apply sort_in_order, _.
  set (e := evidence _ _ _ _). unfold evaluate_indexed. cbv zeta.
  destruct (bar_of_spec candles timeframe Hs _ Hsweep) as (-> & _). cbn [mbind pyres_bind].
  rewrite (selected_mss_spec _ _ _ Hs _ e (sorted_mss structure_events)) by done. cbn [mbind pyres_bind].
  change (Evidence.mss_by_direction e) with (group_by StructureBreakEvent.direction (sorted_mss structure_events)).
  rewrite (opposite_first_after sweep (sorted_mss structure_events)) by done.
  rewrite <-(evaluate_selected candles timeframe config order_blocks atr_result dual_event_ids cutoff Hs sweep Hsweep
    (taken_of liquidity_events)
    (option_list (_first_after LiquidityInteraction.confirmed_at (group_get (Evidence.taken_by_pool e) (LiquidityInteraction.pool_id sweep))
       (LiquidityInteraction.confirmed_at sweep)))) by (done || by intros; apply taken_between_first).
  unfold two_shifts.
  destruct (first_shift _ _ _ _ _) as [mss|] eqn:Emss; [|done]. cbn [mbind option_bind].
  apply find_Some_in in Emss as Hmss. destruct Hmss as [Hmss _]. unfold shifts_close in Hmc. rewrite Forall_forall in Hmc.
  rewrite (selected_leg_spec _ _ _ Hs _ mss (Hmc _ Hmss) e (sort_by leg_order displacement_events)) by done. cbn [mbind pyres_bind].
  destruct (first_leg _ _ _ _ _ _) as [leg|]; [|done]. by rewrite (linked_zones_spec e leg fvg_zones).
Qed.

(** The detection without indexes: every sweep is evaluated on all the takings,
    on all the shifts and displacements in their order, and on all the gaps. *)
Definition reference_entry_setups (candles : list Candle) (timeframe : Timeframe)
    (liquidity_events : list LiquidityInteraction) (structure_events : list StructureBreakEvent)
    (displacement_events : list DisplacementLeg) (fvg_zones : list GapZone) (config : EntrySetupConfig)
    (dual_sweeps : list DualSweepGroup) (order_blocks : list OrderBlockZone) (atr_result : option ATRResult)
    : pyres EntrySetupAnalysisResult :=
  _ ← _validate_inputs candles timeframe liquidity_events structure_events displacement_events fvg_zones config atr_result;
  match data_cutoff_at candles timeframe with
  | None => Ok (EntrySetupAnalysisResult.mkEntrySetupAnalysisResult timeframe config 0 None [])
  | Some cutoff =>
      setups ← py_map (fun sweep =>
        _evaluate_sweep candles timeframe config order_blocks atr_result (dual_ids dual_sweeps) cutoff sweep
          (taken_of liquidity_events) (sorted_mss structure_events) (sort_by leg_order displacement_events) fvg_zones)
        (sorted_sweeps liquidity_events);
      Ok (EntrySetupAnalysisResult.mkEntrySetupAnalysisResult timeframe config (length candles) (Some cutoff) setups)
  end.

Lemma detect_reference candles timeframe liquidity_events structure_events displacement_events fvg_zones config dual_sweeps order_blocks
    atr_result :
  detect_high_probability_entry_setups candles timeframe liquidity_events structure_events displacement_events fvg_zones config dual_sweeps
    order_blocks atr_result
  = reference_entry_setups candles timeframe liquidity_events structure_events displacement_events fvg_zones config dual_sweeps
      order_blocks atr_result.
Proof.
  unfold detect_high_probability_entry_setups, reference_entry_setups.
  destruct (_validate_inputs _ _ _ _ _ _ _ _) as [u|] eqn:E; [|done]. cbn [mbind pyres_bind].
  apply validate_inputs_checked in E. destruct (data_cutoff_at _ _); [|done]. erewrite py_map_ext; [done|].
  intros sweep Hsweep. by apply evaluate_indexed_whole.
Qed.

(** C16. The indexes of [detect_high_probability_entry_setups] (the first shift
    for and against, the first taking of the pool, the first displacement of
    the shift, found by bisection in dictionaries, and the gaps the
    displacement names) lose nothing: on every input the detection returns, or
    raises, what it would by evaluating every sweep on all the evidence. *)
Theorem indexed_detection_exact candles timeframe liquidity_events structure_events displacement_events fvg_zones config dual_sweeps
    order_blocks atr_result :
  detect_high_probability_entry_setups candles timeframe liquidity_events structure_events displacement_events fvg_zones config dual_sweeps
    order_blocks atr_result
  = reference_entry_setups candles timeframe liquidity_events structure_events displacement_events fvg_zones config dual_sweeps
      order_blocks atr_result.
Proof. apply detect_reference. Qed.
