(* ===== verification/EntrySetupContract.v ===== *)
(** Composite entry setups: on checked inputs the detection returns one valid
    setup per sweep, and a READY setup rests on the whole chain of evidence. *)
From Stdlib Require Import ZArith QArith Lia Lqa Sorting.Sorted.
From stdpp Require Import base list strings numbers gmap sorting.
From S2P Require Import Prelude Dict SortedIndex Decimal Time Candle Signal Indicators Structure Engine Fvg LiquidityTypes Displacement OrderBlocks Risk RiskTheory SetupTypes EntrySetup EntrySetupTheory.
Local Open Scope Z_scope.

(** ** Values of the constructors *)

Lemma open_setup_ok source status confirmed structure displacement fvg block reasons :
  status <> EntrySetupStatus.READY -> (status = EntrySetupStatus.WAITING_RETRACE -> is_Some fvg) ->
  open_setup source status confirmed structure displacement fvg block reasons
  = Ok (CompositeEntrySetup.mkCompositeEntrySetup
          ("HPE:" +:+ EntrySetupDirection.value (_direction_from_sweep source) +:+ ":" +:+ LiquidityInteraction.event_id source)
          status (_direction_from_sweep source) source structure displacement fvg block None None None confirmed reasons).
Proof.
  intros Hr Hw. unfold open_setup, _setup, validated, CompositeEntrySetup.validate_setup. cbn -[String.append].
  rewrite (bool_decide_eq_false_2 (status = EntrySetupStatus.READY)) by done. destruct status; [done| |done..].
  by destruct (Hw eq_refl) as [z ->].
Qed.

Lemma new_entry_zone_ok low high : (0 < Qval low)%Q -> (Qval low <= Qval high)%Q ->
  new_entry_zone low high = Ok (Some (EntryZone.mkEntryZone low high)).
Proof.
  intros Hl Hh. unfold new_entry_zone, validated, EntryZone.validate_bounds. cbn [EntryZone.low EntryZone.high].
  pose proof Qval_D0. rewrite (proj2 (dltb_true _ low)), (proj2 (dltb_true _ high)), (proj2 (dltb_false high low)) by lra. done.
Qed.

Lemma gap_bounds zone : GapZone.validate_zone zone = true ->
  (0 < Qval (GapZone.lower zone))%Q /\ (Qval (GapZone.lower zone) < Qval (GapZone.upper zone))%Q.
Proof.
  unfold GapZone.validate_zone. rewrite !andb_true_iff, negb_true_iff, dleb_false, !dltb_true. pose proof Qval_D0. intros. split; [lra|tauto].
Qed.

Lemma block_bounds zone : OrderBlockZone.validate_zone zone = true ->
  (0 < Qval (OrderBlockZone.zone_low zone))%Q /\ (Qval (OrderBlockZone.zone_low zone) < Qval (OrderBlockZone.zone_high zone))%Q.
Proof.
  unfold OrderBlockZone.validate_zone, OrderBlockZone.fields_valid. cbn [forallb].
  rewrite !andb_true_iff, !negb_true_iff, !dleb_false, !dltb_true. pose proof Qval_D0. intros. split; [lra|tauto].
Qed.

(** The entry zone is a zone. *)
Lemma entry_zone_ok gap block config : GapZone.validate_zone gap = true ->
  (forall b, block = Some b -> OrderBlockZone.validate_zone b = true) ->
  exists o, _entry_zone gap block config = Ok o
    /\ forall zone, o = Some zone -> (0 < Qval (EntryZone.low zone))%Q /\ (Qval (EntryZone.low zone) <= Qval (EntryZone.high zone))%Q.
Proof.
  intros [Hg1 Hg2]%gap_bounds Hb. assert (forall low high, (0 < Qval low)%Q -> (Qval low <= Qval high)%Q ->
    exists o, new_entry_zone low high = Ok o
    /\ forall zone, o = Some zone -> (0 < Qval (EntryZone.low zone))%Q /\ (Qval (EntryZone.low zone) <= Qval (EntryZone.high zone))%Q) as Hz.
  { intros low high Hl Hh. rewrite new_entry_zone_ok by done. eexists. split; [done|]. by intros zone [= <-]. }
  unfold _entry_zone. destruct (EntrySetupConfig.signal_entry_zone_source config); [apply Hz; lra| |];
    (destruct block as [b|]; [|by exists None]); destruct (block_bounds b (Hb b eq_refl)) as [Hb1 Hb2]; [apply Hz; lra|].
  destruct (dltb _ (dmax _ _)) eqn:E; [by exists None|]. destruct (_ && _); [by exists None|]. apply dltb_false in E.
  apply Hz; [|done]. pose proof (dmax_ge (GapZone.lower gap) (OrderBlockZone.zone_low b)). lra.
Qed.

(** Where an invalidation level lies. *)
Definition beyond_entry (direction : EntrySetupDirection) (zone : EntryZone) (level : dec) : Prop :=
  match direction with
  | EntrySetupDirection.BULLISH => (0 < Qval level)%Q /\ (Qval level < Qval (EntryZone.low zone))%Q
  | EntrySetupDirection.BEARISH => (Qval (EntryZone.high zone) < Qval level)%Q
  end.

Lemma invalidation_level_ok direction source zone block index config atr_result :
  (0 < Qval (EntrySetupConfig.tick_size config))%Q ->
  (forall atr, atr_result = Some atr -> (index < length (ATRResult.points atr))%nat) ->
  exists r, _invalidation_level direction source zone block index config atr_result = Ok r
    /\ forall level, r = inl level -> beyond_entry direction zone level.
Proof.
  intros Ht Ha. unfold _invalidation_level. destruct (invalidation_source _ _ _ _ _) as [price|]; [|by eexists].
  assert (exists a, atr_of atr_result index = Ok a) as [a ->].
  { unfold atr_of. destruct atr_result as [atr|]; [|eauto].
    destruct (lookup_lt_is_Some_2 (ATRResult.points atr) index) as [point ->]; [by apply Ha|]. eauto. }
  cbn [mbind pyres_bind]. destruct (_ && _); [by eexists|]. pose proof Qval_D0 as H0.
  destruct direction; rewrite tick_rounded_ok by done; cbn [mbind pyres_bind]; eexists; (split; [done|]); intros level; case_match eqn:E;
    try done; intros [= <-].
  - apply orb_false_elim in E as [E1%dleb_false E2%dleb_false]. rewrite H0 in E1. done.
  - by apply dleb_false in E.
Qed.

Lemma ready_setup_ok source structure displacement fvg block zone level retest confirmed :
  (0 < Qval (EntryZone.low zone))%Q -> (Qval (EntryZone.low zone) <= Qval (EntryZone.high zone))%Q ->
  beyond_entry (_direction_from_sweep source) zone level ->
  _setup source (_direction_from_sweep source) EntrySetupStatus.READY confirmed (Some structure) (Some displacement) (Some fvg) block
    (Some zone) (Some level) (Some retest) []
  = Ok (CompositeEntrySetup.mkCompositeEntrySetup
          ("HPE:" +:+ EntrySetupDirection.value (_direction_from_sweep source) +:+ ":" +:+ LiquidityInteraction.event_id source)
          EntrySetupStatus.READY (_direction_from_sweep source) source (Some structure) (Some displacement) (Some fvg) block
          (Some zone) (Some level) (Some retest) confirmed []).
Proof.
  intros Hl Hh Hb. unfold _setup, validated, CompositeEntrySetup.validate_setup, CompositeEntrySetup.levels_valid. cbn -[String.append].
  pose proof Qval_D0 as H0.
  assert (dltb (D 0) level = true) as ->. { apply dltb_true. rewrite H0. unfold beyond_entry in Hb. destruct (_direction_from_sweep source); lra. }
  unfold beyond_entry in Hb. destruct (_direction_from_sweep source).
  - by rewrite (proj2 (dleb_false (EntryZone.low zone) level)) by lra.
  - by rewrite (proj2 (dleb_false level (EntryZone.high zone))) by lra.
Qed.

(** ** What a setup promises *)

(** Inputs that satisfy their schemas. *)
Record valid_evidence (fvg_zones : list GapZone) (order_blocks : list OrderBlockZone) (config : EntrySetupConfig) : Prop := {
  ve_zones : forall z, z ∈ fvg_zones -> GapZone.validate_zone z = true;
  ve_blocks : forall b, b ∈ order_blocks -> OrderBlockZone.validate_zone b = true;
  ve_config : EntrySetupConfig.valid config = true
}.

Section contract.
Context (candles : list Candle) (timeframe : Timeframe) (liquidity_events : list LiquidityInteraction)
  (structure_events : list StructureBreakEvent) (displacement_events : list DisplacementLeg) (fvg_zones : list GapZone)
  (config : EntrySetupConfig) (dual_event_ids : list string) (order_blocks : list OrderBlockZone) (atr_result : option ATRResult)
  (cutoff : datetime) (sweep : LiquidityInteraction).

Local Abbreviation bar := (bar_of candles timeframe).
Local Abbreviation direction := (_direction_from_sweep sweep).

(** The chain before the retest: the sweep, the shift that answers it, the
    displacement that answers the shift, and the gap it left. *)
Record linked_evidence (mss : StructureBreakEvent) (leg : DisplacementLeg) (gap : GapZone) : Prop := {
  le_dual : LiquidityInteraction.event_id sweep ∈ dual_event_ids -> EntrySetupConfig.signal_allow_dual_sweep config = true;
  le_structure : mss ∈ structure_events /\ StructureBreakEvent.type mss = StructureEventType.MSS
    /\ StructureBreakEvent.direction mss = _desired_structure_direction direction;
  le_structure_bars : 1 <= Z.of_nat (bar (StructureBreakEvent.confirmed_at mss)) - Z.of_nat (bar (LiquidityInteraction.confirmed_at sweep))
    <= EntrySetupConfig.signal_max_bars_sweep_to_mss config;
  le_displacement : leg ∈ displacement_events /\ DisplacementLeg.direction leg = _desired_displacement_direction direction
    /\ DisplacementLeg.associated_structure_break leg = structure_event_reference mss;
  le_displacement_bars : 1 <= Z.of_nat (bar (DisplacementLeg.confirmed_at leg)) - Z.of_nat (bar (StructureBreakEvent.confirmed_at mss))
    <= EntrySetupConfig.signal_max_bars_mss_to_displacement config;
  le_gap : gap ∈ fvg_zones /\ GapZone.zone_id gap ∈ DisplacementLeg.associated_fvg leg
    /\ GapZone.type gap = GapZoneType.FVG /\ GapZone.direction gap = desired_gap_direction direction
    /\ StructureBreakEvent.confirmed_at mss < GapZone.confirmed_at gap <= DisplacementLeg.confirmed_at leg;
  le_untaken : forall e, e ∈ liquidity_events -> LiquidityInteraction.type e = LiquidityInteractionType.TAKEN ->
    LiquidityInteraction.pool_id e = LiquidityInteraction.pool_id sweep ->
    ~ LiquidityInteraction.confirmed_at sweep < LiquidityInteraction.confirmed_at e <= StructureBreakEvent.confirmed_at mss
}.

(** No shift against the setup since the sweep. *)
Definition unopposed_until (t : datetime) : Prop :=
  forall e, e ∈ structure_events -> StructureBreakEvent.type e = StructureEventType.MSS ->
    StructureBreakEvent.direction e <> _desired_structure_direction direction ->
    ~ LiquidityInteraction.confirmed_at sweep < StructureBreakEvent.confirmed_at e <= t.

(** No retest of the gap before a bar. *)
Definition no_retest_before (gap : GapZone) (index : nat) : Prop :=
  forall k c, (k < index)%nat -> candles !! k = Some c -> GapZone.confirmed_at gap < Candle.timestamp c ->
    _retest_passes gap c direction (EntrySetupConfig.signal_retest_mode config) = false.

(** The chain of a READY setup, up to the retest and the levels. *)
Record ready_chain (s : CompositeEntrySetup) (mss : StructureBreakEvent) (leg : DisplacementLeg) (gap : GapZone)
    (index : nat) (candle : Candle) (zone : EntryZone) (level : dec) : Prop := {
  rc_linked : linked_evidence mss leg gap;
  rc_parts : CompositeEntrySetup.structure_event s = Some mss /\ CompositeEntrySetup.displacement_event s = Some leg
    /\ CompositeEntrySetup.fvg s = Some gap /\ CompositeEntrySetup.retest_timestamp s = Some (Candle.timestamp candle);
  rc_retest : candles !! index = Some candle
    /\ CompositeEntrySetup.confirmed_at s = Candle.timestamp candle + timeframe_duration timeframe
    /\ GapZone.confirmed_at gap < Candle.timestamp candle
    /\ _retest_passes gap candle direction (EntrySetupConfig.signal_retest_mode config) = true;
  rc_first : no_retest_before gap index;
  rc_bars : Z.of_nat index - Z.of_nat (bar (GapZone.confirmed_at gap)) <= EntrySetupConfig.signal_max_bars_fvg_to_retest config
    /\ Z.of_nat index - Z.of_nat (bar (LiquidityInteraction.confirmed_at sweep)) <= EntrySetupConfig.signal_setup_max_total_bars config;
  rc_unopposed : unopposed_until (CompositeEntrySetup.confirmed_at s);
  rc_alive : _fvg_terminal_at gap (CompositeEntrySetup.confirmed_at s) = None;
  rc_levels : CompositeEntrySetup.entry_zone s = Some zone /\ CompositeEntrySetup.invalidation_level s = Some level
    /\ (0 < Qval (EntryZone.low zone))%Q /\ (Qval (EntryZone.low zone) <= Qval (EntryZone.high zone))%Q
    /\ beyond_entry direction zone level
}.

(** Every setup. *)
Record sound_setup (s : CompositeEntrySetup) : Prop := {
  ss_source : CompositeEntrySetup.liquidity_event s = sweep /\ CompositeEntrySetup.direction s = direction
    /\ CompositeEntrySetup.setup_id s = "HPE:" +:+ EntrySetupDirection.value direction +:+ ":" +:+ LiquidityInteraction.event_id sweep;
  ss_schema : CompositeEntrySetup.validate_setup s = true;
  ss_cutoff : CompositeEntrySetup.confirmed_at s <= cutoff;
  ss_status : match CompositeEntrySetup.setup_status s with
              | EntrySetupStatus.INVALIDATED => exists reason, CompositeEntrySetup.reason_codes s = [reason]
              | EntrySetupStatus.READY => CompositeEntrySetup.reason_codes s = []
                  /\ exists mss leg gap index candle zone level, ready_chain s mss leg gap index candle zone level
              | _ => CompositeEntrySetup.reason_codes s = [] /\ CompositeEntrySetup.confirmed_at s = cutoff
              end
}.

Lemma open_setup_sound status confirmed structure displacement fvg block reasons :
  confirmed <= cutoff ->
  match status with
  | EntrySetupStatus.INVALIDATED => exists reason, reasons = [reason]
  | EntrySetupStatus.READY => False
  | EntrySetupStatus.WAITING_RETRACE => reasons = [] /\ confirmed = cutoff /\ is_Some fvg
  | EntrySetupStatus.FORMING => reasons = [] /\ confirmed = cutoff
  end ->
  exists s, open_setup sweep status confirmed structure displacement fvg block reasons = Ok s /\ sound_setup s.
Proof using.
  intros Hc Hst. assert (status <> EntrySetupStatus.READY /\ (status = EntrySetupStatus.WAITING_RETRACE -> is_Some fvg)) as [Hr Hw].
  { destruct status; split; naive_solver. }
  pose proof (open_setup_ok sweep status confirmed structure displacement fvg block reasons Hr Hw) as E. eexists. split; [exact E|].
  unfold open_setup, _setup in E. apply validated_ok in E as [Hv _]. split; [done|exact Hv|done|]. cbn.
  destruct status; naive_solver.
Qed.

Lemma invalidated_sound confirmed structure displacement fvg block reason : confirmed <= cutoff ->
  exists s, open_setup sweep EntrySetupStatus.INVALIDATED confirmed structure displacement fvg block [reason] = Ok s /\ sound_setup s.
Proof using. intros. apply open_setup_sound; [done|eauto]. Qed.

(** A stage that is still open, or has expired. *)
Lemma stage_sound total stage maximum open_ expired structure displacement fvg :
  open_ = EntrySetupStatus.FORMING \/ open_ = EntrySetupStatus.WAITING_RETRACE /\ is_Some fvg ->
  exists s, (let '(status, reasons) := stage_status total stage maximum config open_ expired in
             open_setup sweep status cutoff structure displacement fvg None reasons) = Ok s /\ sound_setup s.
Proof using.
  intros Ho. unfold stage_status. destruct (_ <? total); [apply invalidated_sound; lia|].
  destruct (_ <? stage); [apply invalidated_sound; lia|]. apply open_setup_sound; [lia|]. by destruct Ho as [->|[-> Hf]].
Qed.

(** *** The evaluation keeps its promise *)

Context (Hin : checked_inputs candles timeframe liquidity_events structure_events displacement_events fvg_zones atr_result)
  (Hve : valid_evidence fvg_zones order_blocks config) (Hcut : data_cutoff_at candles timeframe = Some cutoff).

Lemma bar_cutoff index candle : candles !! index = Some candle -> Candle.timestamp candle + timeframe_duration timeframe <= cutoff.
Proof using Hin Hcut.
  intros Hi. destruct Hin as [Hs _ _ _ _ _]. unfold data_cutoff_at in Hcut. rewrite last_lookup in Hcut.
  destruct (candles !! _) as [c|] eqn:El; [|done]. injection Hcut as <-. pose proof (evenly_spaced_nth _ _ _ _ _ _ Hs Hi El).
  apply lookup_lt_Some in Hi. pose proof (timeframe_duration_pos timeframe). nia.
Qed.

Lemma closes_cutoff t : closes candles timeframe t -> t <= cutoff.
Proof using Hin Hcut. intros (i & c & Hi & <-). by eapply bar_cutoff. Qed.

Lemma opposite_none from limit :
  opposite_between direction from limit (sorted_mss structure_events) = None ->
  forall e, e ∈ structure_events -> StructureBreakEvent.type e = StructureEventType.MSS ->
    StructureBreakEvent.direction e <> _desired_structure_direction direction -> ~ from < StructureBreakEvent.confirmed_at e <= limit.
Proof using.
  intros H e He Ht Hd [H1 H2]. assert (e ∈ sorted_mss structure_events) as Hin'.
  { apply elem_of_sort_by, list_elem_of_In, filter_In. split; [by apply list_elem_of_In|by apply bool_decide_eq_true]. }
  pose proof (find_None_in _ _ _ H Hin') as E. cbn in E. rewrite bool_decide_eq_false_2 in E by done. cbn in E. lia.
Qed.

Lemma unopposed_later from limit : unopposed_until from ->
  opposite_between direction from limit (sorted_mss structure_events) = None -> unopposed_until limit.
Proof using.
  intros Hu Ho e He Ht Hd [H1 H2]. apply (Hu e He Ht Hd). split; [done|].
  pose proof (opposite_none _ _ Ho e He Ht Hd). lia.
Qed.

Lemma take_until_le {A} (at_ : A -> datetime) t l x : x ∈ take_until at_ t l -> at_ x <= t.
Proof using.
  induction l as [|y l IH]; cbn [take_until]; [by intros ?%not_elem_of_nil|]. destruct (Z.ltb_spec t (at_ y)); [by intros ?%not_elem_of_nil|].
  intros [->|Hx]%elem_of_cons; [lia|auto].
Qed.

Lemma terminal_by gap t u : _fvg_terminal_at gap t = Some u -> u <= t.
Proof using.
  unfold _fvg_terminal_at. destruct (List.find _ _) as [e|] eqn:E.
  - intros [= <-]. apply find_Some_in in E as [E _]. by eapply take_until_le.
  - destruct (_ && _ && _) eqn:Eb; [|done]. intros [= <-]. apply andb_prop in Eb as [_ Eb]. lia.
Qed.

Lemma selected_block gap opened closed b :
  (if needs_order_block config then _select_order_block order_blocks gap direction opened closed else None) = Some b ->
  OrderBlockZone.validate_zone b = true.
Proof using Hve.
  destruct (needs_order_block config); [|done]. intros [Hb _]%py_min_mem%list_elem_of_In%filter_In. apply (ve_blocks _ _ _ Hve). by apply list_elem_of_In.
Qed.

Lemma tick_positive : (0 < Qval (EntrySetupConfig.tick_size config))%Q.
Proof using Hve.
  destruct Hve as [_ _ Hc]. unfold EntrySetupConfig.valid in Hc. rewrite !andb_true_iff in Hc. destruct Hc as [[[[[[H _] _] _] _] _] _].
  apply dltb_true in H. pose proof Qval_D0. lra.
Qed.

Lemma retest_setup_sound source mss leg gap index candle : linked_evidence mss leg gap ->
  candles !! index = Some candle -> GapZone.confirmed_at gap < Candle.timestamp candle ->
  _retest_passes gap candle direction (EntrySetupConfig.signal_retest_mode config) = true -> no_retest_before gap index ->
  Z.of_nat index - Z.of_nat (bar (GapZone.confirmed_at gap)) <= EntrySetupConfig.signal_max_bars_fvg_to_retest config ->
  Z.of_nat index - Z.of_nat (bar (LiquidityInteraction.confirmed_at sweep)) <= EntrySetupConfig.signal_setup_max_total_bars config ->
  unopposed_until (Candle.timestamp candle + timeframe_duration timeframe) ->
  _fvg_terminal_at gap (Candle.timestamp candle + timeframe_duration timeframe) = None ->
  exists s, retest_setup timeframe config order_blocks atr_result sweep source mss leg gap index candle = Ok s /\ sound_setup s.
Proof using Hin Hve Hcut.
  intros Hl Hi Hgap Hpass Hfirst Hb1 Hb2 Hu Ha. pose proof (bar_cutoff _ _ Hi) as Hc. unfold retest_setup. cbv zeta.
  pose proof (selected_block gap (Candle.timestamp candle) (Candle.timestamp candle + timeframe_duration timeframe)) as Hblock.
  set (block := if needs_order_block config then _ else _) in *.
  destruct (entry_zone_ok gap block config) as (o & -> & Hz); [apply (ve_zones _ _ _ Hve), Hl|exact Hblock|]. cbn [mbind pyres_bind].
  destruct o as [zone|]; [|by apply invalidated_sound]. destruct (Hz zone eq_refl) as [Hz1 Hz2].
  destruct (invalidation_level_ok direction source zone block index config atr_result) as (r & -> & Hr); [apply tick_positive| |].
  { intros atr Hatr. rewrite (ci_atr _ _ _ _ _ _ _ Hin atr Hatr). by eapply lookup_lt_Some. }
  cbn [mbind pyres_bind]. destruct r as [level|reason]; [|by apply invalidated_sound]. specialize (Hr level eq_refl).
  pose proof (ready_setup_ok sweep mss leg gap block zone level (Candle.timestamp candle)
    (Candle.timestamp candle + timeframe_duration timeframe) Hz1 Hz2 Hr) as E. eexists. split; [exact E|].
  unfold _setup in E. apply validated_ok in E as [Hv _]. split; [done|exact Hv|done|]. split; [done|].
  exists mss, leg, gap, index, candle, zone, level. by split.
Qed.

Local Abbreviation mss_events := (sorted_mss structure_events).
Local Abbreviation sweep_index := (bar (LiquidityInteraction.confirmed_at sweep)).

Lemma retest_bar_sound source mss leg gap index candle : linked_evidence mss leg gap ->
  candles !! index = Some candle -> no_retest_before gap index -> unopposed_until (StructureBreakEvent.confirmed_at mss) ->
  exists o, retest_bar timeframe config order_blocks atr_result sweep sweep_index source mss leg gap (bar (GapZone.confirmed_at gap))
              mss_events (index, candle) = Ok o
    /\ (forall s, o = Some s -> sound_setup s) /\ (o = None -> no_retest_before gap (S index)).
Proof using Hin Hve Hcut.
  intros Hl Hi Hfirst Hu. pose proof (bar_cutoff _ _ Hi) as Hc. unfold retest_bar. cbv zeta.
  assert (forall confirmed reason, confirmed <= cutoff -> exists o,
    (setup ← open_setup sweep EntrySetupStatus.INVALIDATED confirmed (Some mss) (Some leg) (Some gap) None [reason]; Ok (Some setup)) = Ok o
    /\ (forall s, o = Some s -> sound_setup s) /\ (o = None -> no_retest_before gap (S index))) as Hinv.
  { intros confirmed reason Hle. destruct (invalidated_sound confirmed (Some mss) (Some leg) (Some gap) None reason Hle) as (s & -> & Hsnd).
    exists (Some s). split; [done|]. split; [by intros ? [= <-]|done]. }
  assert ((GapZone.confirmed_at gap < Candle.timestamp candle ->
             _retest_passes gap candle direction (EntrySetupConfig.signal_retest_mode config) = false) ->
          no_retest_before gap (S index)) as Hnext.
  { intros Hp k c Hk Hkc Hkt. destruct (decide (k = index)) as [->|Hne]; [|by apply (Hfirst k c); [lia|..]].
    assert (c = candle) as -> by congruence. auto. }
  destruct (Z.ltb_spec (EntrySetupConfig.signal_setup_max_total_bars config) (Z.of_nat index - Z.of_nat sweep_index)); [by apply Hinv|].
  destruct (opposite_between _ _ _ _) as [e|] eqn:Eo.
  { apply Hinv. apply find_Some_in in Eo as [_ Eo]. apply andb_prop in Eo as [_ Eo]. lia. }
  pose proof (unopposed_later _ _ Hu Eo) as Hu'.
  destruct (_fvg_terminal_at _ _) as [t|] eqn:Et. { apply Hinv. apply terminal_by in Et. lia. }
  destruct (Z.ltb_spec (EntrySetupConfig.signal_max_bars_fvg_to_retest config) (Z.of_nat index - Z.of_nat (bar (GapZone.confirmed_at gap)))); [by apply Hinv|].
  destruct (Z.leb_spec (Candle.timestamp candle) (GapZone.confirmed_at gap)).
  { exists None. split; [done|]. split; [done|]. intros _. apply Hnext. lia. }
  destruct (_retest_passes _ _ _ _) eqn:Ep; cbn [negb].
  2:{ exists None. split; [done|]. split; [done|]. intros _. by apply Hnext. }
  destruct (retest_setup_sound source mss leg gap index candle) as (s & -> & Hsnd); [done..|].
  cbn [mbind pyres_bind]. exists (Some s). split; [done|]. split; [by intros ? [= <-]|done].
Qed.

(** The loop over the bars after the gap ends. *)
Lemma bars_sound source mss leg gap n : linked_evidence mss leg gap -> unopposed_until (StructureBreakEvent.confirmed_at mss) ->
  no_retest_before gap n ->
  exists o, first_completed (retest_bar timeframe config order_blocks atr_result sweep sweep_index source mss leg gap
                               (bar (GapZone.confirmed_at gap)) mss_events) (drop n (enumerate candles)) = Ok o
    /\ forall s, o = Some s -> sound_setup s.
Proof using Hin Hve Hcut.
  intros Hl Hu. remember (length candles - n)%nat as rest eqn:Er. revert n Er. induction rest as [|rest IH]; intros n Er Hn.
  - rewrite drop_ge; [by exists None|]. unfold enumerate. rewrite length_zip_with_l; rewrite ?length_seq; lia.
  - destruct (lookup_lt_is_Some_2 candles n) as [candle Hc]; [lia|].
    rewrite (drop_S (enumerate candles) (n, candle) n) by (by rewrite enumerate_lookup, Hc). cbn [first_completed].
    destruct (retest_bar_sound source mss leg gap n candle Hl Hc Hn Hu) as (o & -> & Hs1 & Hs2).
    destruct o as [s|]; [by exists (Some s)|]. apply IH; [lia|auto].
Qed.

Lemma after_displacement_sound source mss leg : LiquidityInteraction.confirmed_at sweep < StructureBreakEvent.confirmed_at mss ->
  (forall gap, gap ∈ fvg_zones -> gap_eligible leg mss direction gap = true -> linked_evidence mss leg gap) ->
  mss ∈ structure_events -> leg ∈ displacement_events -> unopposed_until (StructureBreakEvent.confirmed_at mss) ->
  exists s, after_displacement candles timeframe config order_blocks atr_result cutoff sweep sweep_index source mss leg fvg_zones mss_events = Ok s
    /\ sound_setup s.
Proof using Hin Hve Hcut.
  intros Hlt Hlinked Hm Hleg Hu. unfold after_displacement. cbv zeta. pose proof Hin as [Hs _ Hstr Hdis Hgaps _].
  destruct (candle_at_ok candles timeframe Hs _ (proj1 (Hstr mss Hm))) as (mss_candle & -> & _ & _). cbn [mbind pyres_bind].
  destruct (_select_fvg _ _ _ _ _ _) as [gap|] eqn:Eg; [|by apply invalidated_sound, closes_cutoff, Hdis].
  apply py_min_mem, list_elem_of_In, filter_In in Eg as [Eg1%list_elem_of_In Eg2]. pose proof (Hlinked gap Eg1 Eg2) as Hl.
  destruct (bar_of_spec candles timeframe Hs _ (Hgaps gap Eg1)) as (-> & c & Hc & Hct). cbn [mbind pyres_bind].
  destruct (bars_sound source mss leg gap (bar (GapZone.confirmed_at gap) + 1)) as (o & Eo & Hsnd); [done..| |].
  { intros k d Hk Hd Hlt'. pose proof (evenly_spaced_nth _ _ _ _ _ _ Hs Hd Hc). pose proof (timeframe_duration_pos timeframe). nia. }
  unfold bars_after. rewrite Eo. cbn [mbind pyres_bind]. destruct o as [s|]; [eauto|]. apply stage_sound. right. eauto.
Qed.

Lemma after_mss_sound source mss : LiquidityInteraction.confirmed_at sweep < StructureBreakEvent.confirmed_at mss ->
  (forall leg gap, leg ∈ displacement_events -> leg_after sweep mss leg = true -> leg_in_time candles timeframe config sweep mss leg = true ->
     gap ∈ fvg_zones -> gap_eligible leg mss direction gap = true -> linked_evidence mss leg gap) ->
  mss ∈ structure_events -> unopposed_until (StructureBreakEvent.confirmed_at mss) ->
  exists s, after_mss candles timeframe config order_blocks atr_result cutoff sweep sweep_index source mss
              (sort_by leg_order displacement_events) fvg_zones mss_events = Ok s /\ sound_setup s.
Proof using Hin Hve Hcut.
  intros Hlt Hlinked Hm Hu. pose proof Hin as [Hs _ Hstr Hdis _ _]. unfold after_mss. cbv zeta.
  rewrite (matching_legs candles timeframe config Hs sweep mss (proj2 (Hstr mss Hm))) by by apply aligned_legs. cbn [mbind pyres_bind].
  rewrite find_head. destruct (List.find _ _) as [leg|] eqn:El; cbn [from_option].
  - apply find_Some_in in El as [El1%elem_of_sort_by [El2 El3]%andb_prop].
    destruct (opposite_between _ _ _ _) as [e|] eqn:Eo.
    { apply invalidated_sound. apply find_Some_in in Eo as [_ Eo]. apply andb_prop in Eo as [_ Eo].
      pose proof (closes_cutoff _ (Hdis leg El1)). lia. }
    apply after_displacement_sound; try done. intros gap Hg He. by apply Hlinked.
  - destruct (opposite_between _ _ _ _) as [e|] eqn:Eo.
    { apply invalidated_sound. apply find_Some_in in Eo as [_ Eo]. apply andb_prop in Eo as [_ Eo]. lia. }
    destruct (bar_of_spec candles timeframe Hs _ (proj2 (Hstr mss Hm))) as (-> & _). cbn [mbind pyres_bind]. apply stage_sound. by left.
Qed.

Lemma pre_mss_at taken opposite at_ reason : pre_mss_invalidator taken opposite = Some (at_, reason) ->
  (exists e, taken = Some e /\ at_ = LiquidityInteraction.confirmed_at e) \/ (exists e, opposite = Some e /\ at_ = StructureBreakEvent.confirmed_at e).
Proof using. unfold pre_mss_invalidator. destruct taken, opposite; try case_match; naive_solver. Qed.

Lemma pre_mss_none taken opposite : pre_mss_invalidator taken opposite = None -> taken = None /\ opposite = None.
Proof using. unfold pre_mss_invalidator. destruct taken, opposite; try case_match; naive_solver. Qed.

Lemma evaluate_sound : sweep ∈ liquidity_events ->
  exists s, _evaluate_sweep candles timeframe config order_blocks atr_result dual_event_ids cutoff sweep (taken_of liquidity_events)
              mss_events (sort_by leg_order displacement_events) fvg_zones = Ok s /\ sound_setup s.
Proof using Hin Hve Hcut.
  intros Hsweep. pose proof Hin as [Hs Hliq Hstr _ _ _]. destruct (Hliq sweep Hsweep) as [Hopen Hclose].
  unfold _evaluate_sweep. cbv zeta. destruct (bar_of_spec candles timeframe Hs _ Hclose) as (-> & _). cbn [mbind pyres_bind].
  destruct (candle_at_ok candles timeframe Hs _ Hopen) as (source & -> & _ & _). cbn [mbind pyres_bind].
  destruct (_ && negb _) eqn:Edual; [by apply invalidated_sound, closes_cutoff|].
  rewrite (matching_shifts candles timeframe config Hs sweep Hclose) by by apply aligned_shifts. cbn [mbind pyres_bind]. rewrite find_head.
  pose proof (find_Some_in (fun x => shift_after sweep x && shift_in_time candles timeframe config sweep x) mss_events) as Hfound.
  destruct (List.find _ mss_events) as [mss|]; cbn [from_option].
  - specialize (Hfound mss eq_refl) as [Hm [Ha Ht]%andb_prop]. apply andb_prop in Ha as [Hd%bool_decide_eq_true Hlt%Z.ltb_lt].
    apply elem_of_sort_by, list_elem_of_In, filter_In in Hm as [Hm%list_elem_of_In Htype%bool_decide_eq_true].
    pose proof (closes_cutoff _ (proj2 (Hstr mss Hm))) as Hmc.
    destruct (pre_mss_invalidator _ _) as [[at_ reason]|] eqn:Epre.
    + apply invalidated_sound. apply pre_mss_at in Epre as [(e & E & ->)|(e & E & ->)];
        apply find_Some_in in E as [_ [_ E]%andb_prop]; lia.
    + apply pre_mss_none in Epre as [Etaken Eopp]. apply after_mss_sound; [done| |done|].
      * intros leg gap Hleg Hla Hlt' Hgap Hge. unfold shift_in_time in Ht. apply andb_prop in Ht as [Ht1%Z.leb_le Ht2%Z.leb_le].
        unfold leg_after in Hla. rewrite !andb_true_iff in Hla. destruct Hla as [[Hl1%bool_decide_eq_true Hl2%bool_decide_eq_true] Hl3%Z.ltb_lt].
        unfold leg_in_time in Hlt'. apply andb_prop in Hlt' as [Hl4%Z.leb_le Hl5%Z.leb_le].
        unfold gap_eligible in Hge. rewrite !andb_true_iff in Hge.
        destruct Hge as [[[[[G1%bool_decide_eq_true G2%bool_decide_eq_true] G3%bool_decide_eq_true] G4%Z.ltb_lt] G5%Z.leb_le] _].
        pose proof (proj1 (bar_of_lt candles timeframe Hs _ _ Hclose (proj2 (Hstr mss Hm))) Hlt).
        pose proof (proj1 (bar_of_lt candles timeframe Hs _ _ (proj2 (Hstr mss Hm)) (ci_displacement _ _ _ _ _ _ _ Hin leg Hleg)) Hl3).
        split; [|by split_and!|lia|by split_and!|lia|by split_and!|].
        { intros Hdual. rewrite bool_decide_eq_true_2 in Edual by done. cbn in Edual. by apply negb_false_iff in Edual. }
        intros e He Het Hep [He1 He2]. unfold taken_between in Etaken. eapply (find_None_in _ _ e) in Etaken.
        { cbn in Etaken. rewrite bool_decide_eq_true_2 in Etaken by done. cbn in Etaken. lia. }
        apply elem_of_sort_by, list_elem_of_In, filter_In. split; [by apply list_elem_of_In|by apply bool_decide_eq_true].
      * exact (opposite_none _ _ Eopp).
  - destruct (pre_mss_invalidator _ _) as [[at_ reason]|] eqn:Epre.
    + apply invalidated_sound. apply pre_mss_at in Epre as [(e & E & ->)|(e & E & ->)];
        apply find_Some_in in E as [_ [_ E]%andb_prop]; lia.
    + apply stage_sound. by left.
Qed.
End contract.

(** ** The detection *)

Section detection.
Context (candles : list Candle) (timeframe : Timeframe) (liquidity_events : list LiquidityInteraction)
  (structure_events : list StructureBreakEvent) (displacement_events : list DisplacementLeg) (fvg_zones : list GapZone)
  (config : EntrySetupConfig) (dual_sweeps : list DualSweepGroup) (order_blocks : list OrderBlockZone) (atr_result : option ATRResult).

Lemma detection_sound u : valid_evidence fvg_zones order_blocks config ->
  _validate_inputs candles timeframe liquidity_events structure_events displacement_events fvg_zones config atr_result = Ok u ->
  exists r, detect_high_probability_entry_setups candles timeframe liquidity_events structure_events displacement_events fvg_zones config
              dual_sweeps order_blocks atr_result = Ok r
    /\ EntrySetupAnalysisResult.data_cutoff_at r = data_cutoff_at candles timeframe
    /\ Forall2 (fun sweep s => exists cutoff, data_cutoff_at candles timeframe = Some cutoff
         /\ sound_setup candles timeframe liquidity_events structure_events displacement_events fvg_zones config (dual_ids dual_sweeps)
              cutoff sweep s)
        (sorted_sweeps liquidity_events) (EntrySetupAnalysisResult.setups r).
Proof using.
  intros Hve Hv. rewrite detect_reference. unfold reference_entry_setups. rewrite Hv. cbn [mbind pyres_bind].
  pose proof (validate_inputs_checked _ _ _ _ _ _ _ _ _ Hv) as Hin.
  destruct (data_cutoff_at candles timeframe) as [cutoff|] eqn:Hcut.
  - assert (forall sweep, sweep ∈ sorted_sweeps liquidity_events -> exists s, _evaluate_sweep candles timeframe config order_blocks atr_result
      (dual_ids dual_sweeps) cutoff sweep (taken_of liquidity_events) (sorted_mss structure_events) (sort_by leg_order displacement_events)
      fvg_zones = Ok s /\ sound_setup candles timeframe liquidity_events structure_events displacement_events fvg_zones config
      (dual_ids dual_sweeps) cutoff sweep s) as He.
    { intros sweep Hsweep%sorted_sweep_in. by apply evaluate_sound with (atr_result := atr_result). }
    destruct (py_map_all (fun sweep => _evaluate_sweep candles timeframe config order_blocks atr_result
      (dual_ids dual_sweeps) cutoff sweep (taken_of liquidity_events) (sorted_mss structure_events) (sort_by leg_order displacement_events)
      fvg_zones) (sorted_sweeps liquidity_events)) as [setups Es].
    { intros sweep Hsweep. destruct (He sweep Hsweep) as (s & E & _). eauto. }
    rewrite Es. cbn [mbind pyres_bind]. eexists. split; [done|]. split; [done|]. cbn [EntrySetupAnalysisResult.setups].
    apply py_map_ok in Es. eapply Forall2_impl_in_l; [exact Es|]. intros sweep s Hsweep E. exists cutoff. split; [done|].
    destruct (He sweep Hsweep) as (s' & E' & Hsnd). cbn in E. rewrite E in E'. by injection E' as <-.
  - eexists. split; [done|]. split; [done|]. cbn [EntrySetupAnalysisResult.setups]. destruct Hin as [_ Hliq _ _ _ _].
    destruct (sorted_sweeps liquidity_events) as [|sweep rest] eqn:E; [constructor|].
    assert (sweep ∈ liquidity_events) as (_ & i & c & Hi & _)%Hliq by (apply sorted_sweep_in; rewrite E; by left).
    unfold data_cutoff_at in Hcut. destruct (list.last candles) eqn:El; [done|]. apply last_None in El. by rewrite El in Hi.
Qed.

Lemma detected_setup r s : valid_evidence fvg_zones order_blocks config ->
  detect_high_probability_entry_setups candles timeframe liquidity_events structure_events displacement_events fvg_zones config
    dual_sweeps order_blocks atr_result = Ok r ->
  s ∈ EntrySetupAnalysisResult.setups r ->
  exists sweep cutoff, sweep ∈ liquidity_events /\ LiquidityInteraction.type sweep = LiquidityInteractionType.SWEEP
    /\ data_cutoff_at candles timeframe = Some cutoff
    /\ sound_setup candles timeframe liquidity_events structure_events displacement_events fvg_zones config (dual_ids dual_sweeps)
         cutoff sweep s.
Proof using.
  intros Hve Hr Hs. assert (exists u, _validate_inputs candles timeframe liquidity_events structure_events displacement_events fvg_zones
    config atr_result = Ok u) as [u Hu] by (apply bind_ok in Hr as (u & Hu & _); eauto).
  destruct (detection_sound u Hve Hu) as (r' & Hr' & _ & H). assert (r' = r) as -> by congruence.
  destruct (Forall2_elem_r _ _ _ _ H Hs) as (sweep & Hsweep & cutoff & Hcut & Hsnd). exists sweep, cutoff. split_and!; [| |done..].
  - by apply sorted_sweep_in.
  - apply elem_of_sort_by, list_elem_of_In, filter_In in Hsweep as [_ H']. by apply bool_decide_eq_true in H'.
Qed.
End detection.

(** What a READY setup becomes for the risk engine. *)
Definition candidate_of (setup : CompositeEntrySetup) (zone : EntryZone) (level : dec) : RiskCandidate :=
  RiskCandidate.mkRiskCandidate (CompositeEntrySetup.setup_id setup)
    (match CompositeEntrySetup.direction setup with
     | EntrySetupDirection.BULLISH => RiskDirection.LONG
     | EntrySetupDirection.BEARISH => RiskDirection.SHORT
     end) zone level ("setup:" +:+ CompositeEntrySetup.setup_id setup +:+ ":invalidation") (CompositeEntrySetup.confirmed_at setup).

(** ** The properties *)

(** C19. On evidence that satisfies its schemas and passes the checks of the
    inputs, [detect_high_probability_entry_setups] returns (no lookup misses,
    the loop over the bars ends, every setup it builds passes its own schema):
    one setup per sweep, in the order of confirmation, confirmed by the cutoff;
    a setup that still forms or waits has no reason and is dated at the cutoff,
    an invalidated one has exactly one reason. *)
Theorem entry_setups_returned candles timeframe liquidity_events structure_events displacement_events fvg_zones config dual_sweeps
    order_blocks atr_result :
  valid_evidence fvg_zones order_blocks config ->
  _validate_inputs candles timeframe liquidity_events structure_events displacement_events fvg_zones config atr_result = Ok tt ->
  exists r, detect_high_probability_entry_setups candles timeframe liquidity_events structure_events displacement_events fvg_zones config
              dual_sweeps order_blocks atr_result = Ok r
    /\ EntrySetupAnalysisResult.data_cutoff_at r = data_cutoff_at candles timeframe
    /\ Forall2 (fun sweep s => CompositeEntrySetup.liquidity_event s = sweep /\ CompositeEntrySetup.validate_setup s = true
         /\ exists cutoff, data_cutoff_at candles timeframe = Some cutoff /\ CompositeEntrySetup.confirmed_at s <= cutoff
         /\ match CompositeEntrySetup.setup_status s with
            | EntrySetupStatus.INVALIDATED => exists reason, CompositeEntrySetup.reason_codes s = [reason]
            | EntrySetupStatus.READY => CompositeEntrySetup.reason_codes s = []
            | _ => CompositeEntrySetup.reason_codes s = [] /\ CompositeEntrySetup.confirmed_at s = cutoff
            end)
        (sorted_sweeps liquidity_events) (EntrySetupAnalysisResult.setups r).
Proof.
  intros Hve Hv. destruct (detection_sound candles timeframe liquidity_events structure_events displacement_events fvg_zones config
    dual_sweeps order_blocks atr_result tt Hve Hv) as (r & Hr & Hc & H).
  exists r. split; [done|]. split; [done|]. eapply Forall2_impl; [exact H|]. intros sweep s (cutoff & Hcut & [[Hsrc _] Hsch Hle Hst]).
  split; [done|]. split; [done|]. exists cutoff. split_and!; [done..|]. destruct (CompositeEntrySetup.setup_status s); naive_solver.
Qed.

(** C17. A READY setup rests on the whole chain of evidence: a sweep of the
    input (not part of a dual sweep, unless allowed); a shift in the direction
    of the setup within the bars allowed, its pool not taken before; a
    displacement that names the shift, within its own bars; a gap the
    displacement names, confirmed between the shift and the displacement; the
    first bar after the gap that retests it, within the bars allowed, with no
    shift against the setup since the sweep and the gap alive; and levels with
    the invalidation beyond the entry zone. *)
Theorem ready_setup_chain candles timeframe liquidity_events structure_events displacement_events fvg_zones config dual_sweeps
    order_blocks atr_result r s :
  valid_evidence fvg_zones order_blocks config ->
  detect_high_probability_entry_setups candles timeframe liquidity_events structure_events displacement_events fvg_zones config
    dual_sweeps order_blocks atr_result = Ok r ->
  s ∈ EntrySetupAnalysisResult.setups r -> CompositeEntrySetup.setup_status s = EntrySetupStatus.READY ->
  exists sweep mss leg gap index candle zone level,
    sweep ∈ liquidity_events /\ LiquidityInteraction.type sweep = LiquidityInteractionType.SWEEP
    /\ CompositeEntrySetup.liquidity_event s = sweep
    /\ ready_chain candles timeframe liquidity_events structure_events displacement_events fvg_zones config (dual_ids dual_sweeps) sweep
         s mss leg gap index candle zone level.
Proof.
  intros Hve Hr Hs Hst. destruct (detected_setup candles timeframe liquidity_events structure_events displacement_events fvg_zones config
    dual_sweeps order_blocks atr_result r s Hve Hr Hs) as (sweep & cutoff & Hin & Ht & _ & [[Hsrc _] _ _ Hss]).
  rewrite Hst in Hss. destruct Hss as [_ (mss & leg & gap & index & candle & zone & level & H)].
  exists sweep, mss, leg, gap, index, candle, zone, level. by split_and!.
Qed.

(** The risk engine takes exactly the READY setups of a detection:
    [risk_candidate_from_setup] returns a candidate that passes its schema, with
    the entry zone and the invalidation level of the setup, and refuses every
    other setup. *)
Theorem ready_setup_candidate candles timeframe liquidity_events structure_events displacement_events fvg_zones config dual_sweeps
    order_blocks atr_result r s :
  valid_evidence fvg_zones order_blocks config ->
  detect_high_probability_entry_setups candles timeframe liquidity_events structure_events displacement_events fvg_zones config
    dual_sweeps order_blocks atr_result = Ok r ->
  s ∈ EntrySetupAnalysisResult.setups r ->
  if bool_decide (CompositeEntrySetup.setup_status s = EntrySetupStatus.READY)
  then exists zone level, CompositeEntrySetup.entry_zone s = Some zone /\ CompositeEntrySetup.invalidation_level s = Some level
    /\ risk_candidate_from_setup s = Ok (candidate_of s zone level)
    /\ RiskCandidate.require_structural_invalidation_outside_entry (candidate_of s zone level) = true
  else risk_candidate_from_setup s = Raise (Exc "ValueError" "only a READY setup can become a risk candidate").
Proof.
  intros Hve Hr Hs. destruct (detected_setup candles timeframe liquidity_events structure_events displacement_events fvg_zones config
    dual_sweeps order_blocks atr_result r s Hve Hr Hs) as (sweep & cutoff & _ & _ & _ & [(_ & Hd & Hid) _ _ Hss]).
  unfold risk_candidate_from_setup. case_bool_decide as Hst; cbn [negb]; [|done].
  rewrite Hst in Hss. destruct Hss as [_ (mss & leg & gap & index & candle & zone & level & [_ _ _ _ _ _ _ (Ez & El & Hl & Hh & Hb)])].
  exists zone, level. rewrite Ez, El. fold (candidate_of s zone level). split; [done|]. split; [done|].
  assert (RiskCandidate.require_structural_invalidation_outside_entry (candidate_of s zone level) = true) as Hv.
  { unfold RiskCandidate.require_structural_invalidation_outside_entry, candidate_of, EntryZone.validate_bounds. cbn -[String.append].
    rewrite Hid, Hd. cbn [String.append String.length Nat.eqb negb andb]. pose proof Qval_D0 as H0.
    rewrite (proj2 (dltb_true (D 0) (EntryZone.low zone))), (proj2 (dltb_true (D 0) (EntryZone.high zone))),
      (proj2 (dltb_false (EntryZone.high zone) (EntryZone.low zone))) by lra.
    unfold beyond_entry in Hb. destruct (_direction_from_sweep sweep).
    - by rewrite (proj2 (dltb_true (D 0) level)), (proj2 (dleb_false (EntryZone.low zone) level)) by lra.
    - by rewrite (proj2 (dltb_true (D 0) level)), (proj2 (dleb_false level (EntryZone.high zone))) by lra. }
  split; [|done]. by apply validated_ok.
Qed.

(** ** A sample: a sweep, its shift, its displacement, the gap and its retest *)

Definition es_bar (n o h l c : Z) : Candle := Candle.mkCandle (n * 900000000) (D o) (D h) (D l) (D c) (D 10).

Definition es_bars : list Candle :=
  [es_bar 0 100 102 98 100; es_bar 1 100 101 94 99; es_bar 2 99 106 99 105; es_bar 3 105 112 104 111;
   es_bar 4 111 118 110 117; es_bar 5 117 117 109 114; es_bar 6 114 115 108 112].

Definition es_sweep : LiquidityInteraction :=
  LiquidityInteraction.mkLiquidityInteraction "SWEEP:1" LiquidityInteractionType.SWEEP LiquidityDirection.SELL_SIDE (D 97) 0
    (Some (2 * 900000000)) LiquidityConfirmation.CLOSE_BACK ["L1"] "POOL:1" 900000000 (2 * 900000000).

Definition es_mss : StructureBreakEvent :=
  StructureBreakEvent.mkStructureBreakEvent StructureEventType.MSS StructureDirection.BULLISH (D 104) (2 * 900000000) "S1"
    StructureBreakBasis.CLOSE (3 * 900000000) None TrendState.BEARISH.

Definition es_leg : DisplacementLeg :=
  DisplacementLeg.mkDisplacementLeg "LEG:1" DisplacementCandidateStatus.QUALIFIED DisplacementDirection.BULLISH 3 4 (3 * 900000000)
    (4 * 900000000) (4 * 900000000) (5 * 900000000)
    (DisplacementStrengthMetrics.mkDisplacementStrengthMetrics (D 5) (D 12) (D 12) (D 0) (D 12) (D 1) (Dec 24 (-1)) (Dec 24 (-1)) (D 0) (D 0))
    ["FVG:1"] (structure_event_reference es_mss).

Definition es_gap : GapZone :=
  GapZone.mkGapZone "FVG:1" GapZoneType.FVG GapDirection.BULLISH (D 106) (D 110) (5 * 900000000) (5 * 900000000)
    GapZoneStatus.OPEN GapLifecycleState.ACTIVE [2 * 900000000; 3 * 900000000; 4 * 900000000] None (D 0) 0 (5 * 900000000) [].

Definition es_config : EntrySetupConfig :=
  EntrySetupConfig.mkEntrySetupConfig (D 1) false 5 5 5 SetupFVGSelectionPolicy.FIRST_CONFIRMED SetupRetestMode.TOUCH
    SetupEntryZoneSource.FVG false 20 SetupInvalidationSource.LIQUIDITY_SWEEP_EXTREME 1 (D 0).

Definition es_detect (candles : list Candle) : pyres EntrySetupAnalysisResult :=
  detect_high_probability_entry_setups candles Timeframe.FIFTEEN_MINUTES [es_sweep] [es_mss] [es_leg] [es_gap] es_config [] [] None.

Definition es_ready : CompositeEntrySetup :=
  CompositeEntrySetup.mkCompositeEntrySetup "HPE:bullish:SWEEP:1" EntrySetupStatus.READY EntrySetupDirection.BULLISH es_sweep
    (Some es_mss) (Some es_leg) (Some es_gap) None (Some (EntryZone.mkEntryZone (D 106) (D 110))) (Some (D 93))
    (Some (6 * 900000000)) (7 * 900000000) [].

(** The bar that opens when the gap is confirmed is no retest; the next one is. *)
Example es_sample_runs :
  es_detect es_bars = Ok (EntrySetupAnalysisResult.mkEntrySetupAnalysisResult Timeframe.FIFTEEN_MINUTES es_config 7
                            (Some (7 * 900000000)) [es_ready])
  /\ (fun r => map CompositeEntrySetup.setup_status (EntrySetupAnalysisResult.setups r))
       <$> (match es_detect (take 6 es_bars) with Ok r => Some r | Raise _ => None end) = Some [EntrySetupStatus.WAITING_RETRACE].
Proof. split; vm_compute; reflexivity. Qed.

Lemma es_valid : valid_evidence [es_gap] [] es_config.
Proof.
  split; [|intros b Hb; by apply not_elem_of_nil in Hb|by vm_compute]. intros z ->%list_elem_of_singleton. by vm_compute.
Qed.

Lemma es_checked : _validate_inputs es_bars Timeframe.FIFTEEN_MINUTES [es_sweep] [es_mss] [es_leg] [es_gap] es_config None = Ok tt.
Proof. by vm_compute. Qed.

Lemma entry_setups_returned_witness : exists r, es_detect es_bars = Ok r.
Proof.
  destruct (entry_setups_returned es_bars Timeframe.FIFTEEN_MINUTES [es_sweep] [es_mss] [es_leg] [es_gap] es_config [] [] None
    es_valid es_checked) as (r & Hr & _). exists r. exact Hr.
Defined.

Lemma ready_setup_chain_witness : exists mss, mss ∈ [es_mss] /\ CompositeEntrySetup.structure_event es_ready = Some mss.
Proof.
  destruct (ready_setup_chain es_bars Timeframe.FIFTEEN_MINUTES [es_sweep] [es_mss] [es_leg] [es_gap] es_config [] [] None _ es_ready
    es_valid (proj1 es_sample_runs) (list_elem_of_here _ _) eq_refl)
    as (sweep & mss & leg & gap & index & candle & zone & level & _ & _ & _ & H).
  exists mss. split; [exact (proj1 (le_structure _ _ _ _ _ _ _ _ _ _ _ _ (rc_linked _ _ _ _ _ _ _ _ _ _ _ _ _ _ _ _ _ H)))|].
  exact (proj1 (rc_parts _ _ _ _ _ _ _ _ _ _ _ _ _ _ _ _ _ H)).
Defined.

Lemma ready_setup_candidate_witness : exists candidate, risk_candidate_from_setup es_ready = Ok candidate.
Proof.
  pose proof (ready_setup_candidate es_bars Timeframe.FIFTEEN_MINUTES [es_sweep] [es_mss] [es_leg] [es_gap] es_config [] [] None _ es_ready
    es_valid (proj1 es_sample_runs) (list_elem_of_here _ _)) as H.
  cbn in H. destruct H as (zone & level & _ & _ & H & _). exists (candidate_of es_ready zone level). exact H.
Defined.
