(* ===== verification/EntrySetupFinal.v ===== *)
(** Composite entry setups in time: what a detection settled, a later detection
    over more candles and more evidence keeps. *)
From Stdlib Require Import ZArith QArith Lia Lqa Sorting.Sorted.
From stdpp Require Import base list strings numbers gmap sorting.
From S2P Require Import Prelude Dict SortedIndex Decimal Time Candle Signal Indicators Structure Engine Fvg LiquidityTypes Displacement OrderBlocks Risk SetupTypes EntrySetup EntrySetupTheory EntrySetupContract.
Local Open Scope Z_scope.

(** ** Evidence known at an instant *)

Definition known_at {A} (at_ : A -> datetime) (now : datetime) (l : list A) : list A := List.filter (fun x => at_ x <=? now) l.

Section known.
Context {A : Type} (at_ : A -> datetime) (now : datetime).

Lemma elem_of_known l x : x ∈ known_at at_ now l <-> x ∈ l /\ at_ x <= now.
Proof. unfold known_at. rewrite !list_elem_of_In, filter_In. by rewrite Z.leb_le. Qed.

(** The known part of an ordered list comes first. *)
Lemma known_prefix l : in_order at_ l -> exists rest, l = known_at at_ now l ++ rest /\ forall x, x ∈ rest -> now < at_ x.
Proof.
  induction 1 as [|x l Hl (rest & E & Hr) Hx]; [exists []; split; [done|intros x Hx; by apply not_elem_of_nil in Hx]|].
  unfold known_at in *. cbn [List.filter]. destruct (Z.leb_spec (at_ x) now) as [Hle|Hlt].
  - exists rest. split; [by rewrite E at 1|done].
  - exists (x :: l). assert (forall y, y ∈ l -> now < at_ y) as Hl'.
    { rewrite Forall_forall in Hx. intros y Hy. specialize (Hx y Hy). cbn in Hx. lia. }
    rewrite list_filter_none; [|intros y Hy; apply Z.leb_gt; auto]. split; [done|]. intros y [->|Hy]%elem_of_cons; auto.
Qed.

Lemma find_known_some p l x : in_order at_ l -> List.find p (known_at at_ now l) = Some x -> List.find p l = Some x.
Proof.
  intros (rest & E & _)%known_prefix. rewrite E at 2. generalize (known_at at_ now l). intros k.
  induction k as [|y k IH]; [done|]. cbn. by destruct (p y).
Qed.

Lemma find_known_none p l x : List.find p (known_at at_ now l) = None -> List.find p l = Some x -> now < at_ x.
Proof.
  intros Hn [Hx Hp]%find_Some_in. destruct (Z.lt_ge_cases now (at_ x)) as [|Hle]; [done|].
  assert (x ∈ known_at at_ now l) as Hk by (by apply elem_of_known). by rewrite (find_None_in _ _ _ Hn Hk) in Hp.
Qed.

(** A search bounded by the instant. *)
Lemma find_known_bounded p l : (forall x, p x = true -> at_ x <= now) -> List.find p (known_at at_ now l) = List.find p l.
Proof.
  intros H. unfold known_at. rewrite find_filter. apply find_ext_in. intros x _. destruct (p x) eqn:E; [|by rewrite andb_false_r].
  by rewrite (proj2 (Z.leb_le _ _) (H x E)).
Qed.
End known.

(** ** A prefix of the candles *)

Section prefix.
Context (candles : list Candle) (timeframe : Timeframe) (n : nat) (now : datetime).
Context (Hs : evenly_spaced timeframe candles) (Hnow : data_cutoff_at (take n candles) timeframe = Some now).
Local Abbreviation earlier := (take n candles).

Lemma earlier_spaced : evenly_spaced timeframe earlier.
Proof using Hs. intros i c d [Hc _]%lookup_take_Some [Hd _]%lookup_take_Some. by apply (Hs i). Qed.

Lemma now_close : exists c, candles !! (length earlier - 1)%nat = Some c /\ Candle.timestamp c + timeframe_duration timeframe = now
  /\ (0 < length earlier)%nat.
Proof using Hnow.
  unfold data_cutoff_at in Hnow. rewrite last_lookup in Hnow. destruct (earlier !! _) as [c|] eqn:E; [|done]. injection Hnow as Hc.
  exists c. pose proof (lookup_lt_Some _ _ _ E). apply lookup_take_Some in E as [E _]. rewrite <-Nat.sub_1_r in E. split_and!; [done..|lia].
Qed.

Lemma closes_earlier t : closes earlier timeframe t <-> closes candles timeframe t /\ t <= now.
Proof using Hs Hnow.
  destruct now_close as (l & Hl & <- & Hpos). pose proof (timeframe_duration_pos timeframe) as Hd. split.
  - intros (i & c & Hi & <-). pose proof (lookup_lt_Some _ _ _ Hi). apply lookup_take_Some in Hi as [Hi _].
    split; [by exists i, c|]. pose proof (evenly_spaced_nth _ _ _ _ _ _ Hs Hi Hl). nia.
  - intros [(i & c & Hi & <-) Hle]. exists i, c. split; [|done]. pose proof (evenly_spaced_nth _ _ _ _ _ _ Hs Hi Hl).
    apply lookup_take_Some. split; [done|]. rewrite length_take in *. nia.
Qed.

Lemma bar_earlier t : closes earlier timeframe t -> bar_of earlier timeframe t = bar_of candles timeframe t.
Proof using Hs Hnow.
  intros Ht. destruct (bar_of_spec earlier timeframe earlier_spaced t Ht) as (_ & c & [Hc _]%lookup_take_Some & Hct).
  apply closes_earlier in Ht as [Ht _]. destruct (bar_of_spec candles timeframe Hs t Ht) as (_ & d & Hd & Hdt).
  eapply (evenly_spaced_inj timeframe candles); [done..|lia].
Qed.

Lemma bar_now t : closes candles timeframe t -> now < t <-> (length earlier <= bar_of candles timeframe t)%nat.
Proof using Hs Hnow.
  destruct now_close as (l & Hl & <- & Hpos). intros (_ & c & Hc & <-)%(bar_of_spec candles timeframe Hs).
  pose proof (evenly_spaced_nth _ _ _ _ _ _ Hs Hl Hc). pose proof (timeframe_duration_pos timeframe). nia.
Qed.

Lemma candle_at_earlier t : t ∈ map Candle.timestamp earlier -> candle_at earlier t = candle_at candles t.
Proof using Hs.
  intros Ht. destruct (candle_at_ok earlier timeframe earlier_spaced t Ht) as (c & -> & [i Hi]%list_elem_of_lookup & Hct).
  apply lookup_take_Some in Hi as [Hi _].
  destruct (candle_at_ok candles timeframe Hs t) as (d & -> & [j Hj]%list_elem_of_lookup & Hdt); [apply elem_of_map_lookup; eauto|].
  assert (i = j) as <- by (eapply (evenly_spaced_inj timeframe candles); [done..|lia]). by simplify_eq.
Qed.

Lemma enumerate_earlier m : exists rest, drop m (enumerate candles) = drop m (enumerate earlier) ++ rest.
Proof using.
  rewrite enumerate_take. exists (drop (m - length (take n (enumerate candles))) (drop n (enumerate candles))).
  by rewrite <-drop_app, take_drop.
Qed.
End prefix.

(** The ATR of the candles so far. *)
Definition atr_prefix (n : nat) (atr_result atr_result' : option ATRResult) : Prop :=
  match atr_result, atr_result' with
  | None, None => True
  | Some atr, Some atr' => ATRResult.points atr = take n (ATRResult.points atr')
  | _, _ => False
  end.

(** A READY setup stays as it is, an invalidated one stays invalidated. *)
Definition settled (s s' : CompositeEntrySetup) : Prop :=
  match CompositeEntrySetup.setup_status s with
  | EntrySetupStatus.READY => s' = s
  | EntrySetupStatus.INVALIDATED => CompositeEntrySetup.setup_status s' = EntrySetupStatus.INVALIDATED
  | _ => True
  end.

Section final.
Context (candles : list Candle) (timeframe : Timeframe) (n : nat) (now cutoff : datetime) (config : EntrySetupConfig)
  (order_blocks : list OrderBlockZone) (atr_result atr_result' : option ATRResult) (dual_event_ids : list string).
Context (Hs : evenly_spaced timeframe candles) (Hnow : data_cutoff_at (take n candles) timeframe = Some now)
  (Hcut : data_cutoff_at candles timeframe = Some cutoff) (Hatr : atr_prefix n atr_result atr_result')
  (Hconfig : EntrySetupConfig.valid config = true).
Context (sweep : LiquidityInteraction).
Local Abbreviation earlier := (take n candles).
Local Abbreviation direction := (_direction_from_sweep sweep).
Local Abbreviation swept_at := (LiquidityInteraction.confirmed_at sweep).

Lemma atr_earlier index : (index < length earlier)%nat -> atr_of atr_result index = atr_of atr_result' index.
Proof using Hatr.
  rewrite length_take. intros H. unfold atr_of, atr_prefix in *. destruct atr_result as [a|], atr_result' as [b|]; try done.
  rewrite Hatr, lookup_take_lt by lia. done.
Qed.

Lemma opposite_bounded l from limit : limit <= now ->
  opposite_between direction from limit (known_at StructureBreakEvent.confirmed_at now l) = opposite_between direction from limit l.
Proof using. intros Hle. apply find_known_bounded. intros x [_ H]%andb_prop. lia. Qed.

Lemma retest_bar_earlier sweep_index source mss leg gap gap_index l index candle : candles !! index = Some candle -> (index < length earlier)%nat ->
  retest_bar timeframe config order_blocks atr_result sweep sweep_index source mss leg gap gap_index
    (known_at StructureBreakEvent.confirmed_at now l) (index, candle)
  = retest_bar timeframe config order_blocks atr_result' sweep sweep_index source mss leg gap gap_index l (index, candle).
Proof using Hs Hnow Hatr.
  intros Hc Hi. assert (Candle.timestamp candle + timeframe_duration timeframe <= now) as Hle.
  { apply (closes_earlier candles timeframe n now Hs Hnow). exists index, candle. split; [by rewrite lookup_take_lt by (rewrite length_take in Hi; lia)|done]. }
  unfold retest_bar. cbv zeta. rewrite opposite_bounded by done. unfold retest_setup, _invalidation_level. by rewrite atr_earlier by done.
Qed.

Lemma first_completed_app f g pre rest s : (forall item, item ∈ pre -> f item = g item) ->
  first_completed f pre = Ok (Some s) -> first_completed g (pre ++ rest) = Ok (Some s).
Proof using.
  induction pre as [|item pre IH]; intros H; [done|]. cbn [first_completed app]. rewrite H by by left.
  destruct (g item) as [[x|]|]; [done| |done]. apply IH. intros. apply H. by right.
Qed.

Lemma first_completed_none f bars item : first_completed f bars = Ok None -> item ∈ bars -> f item = Ok None.
Proof using.
  induction bars as [|b bars IH]; [by intros _ ?%not_elem_of_nil|]. cbn [first_completed].
  destruct (f b) as [[x|]|] eqn:E; [done| |done]. intros H [->|Hin]%elem_of_cons; auto.
Qed.

(** A bar that completes nothing is within the limits. *)
Lemma retest_bar_none sweep_index source mss leg gap gap_index l index candle :
  retest_bar timeframe config order_blocks atr_result sweep sweep_index source mss leg gap gap_index l (index, candle) = Ok None ->
  Z.of_nat index - Z.of_nat sweep_index <= EntrySetupConfig.signal_setup_max_total_bars config
  /\ Z.of_nat index - Z.of_nat gap_index <= EntrySetupConfig.signal_max_bars_fvg_to_retest config.
Proof using.
  unfold retest_bar. cbv zeta.
  assert (forall m : pyres CompositeEntrySetup, (setup ← m; Ok (Some setup)) <> Ok None) as Hm by (by intros []).
  destruct (Z.ltb_spec (EntrySetupConfig.signal_setup_max_total_bars config) (Z.of_nat index - Z.of_nat sweep_index)); [by intros ?%Hm|].
  destruct (opposite_between _ _ _ _); [by intros ?%Hm|]. destruct (_fvg_terminal_at _ _); [by intros ?%Hm|].
  destruct (Z.ltb_spec (EntrySetupConfig.signal_max_bars_fvg_to_retest config) (Z.of_nat index - Z.of_nat gap_index)); [by intros ?%Hm|].
  lia.
Qed.

Lemma settled_eq (m : pyres CompositeEntrySetup) s s' : m = Ok s -> m = Ok s' -> settled s s'.
Proof using. intros -> [= <-]. unfold settled. by destruct (CompositeEntrySetup.setup_status s) eqn:E. Qed.

Lemma limits_positive : 1 <= EntrySetupConfig.signal_max_bars_fvg_to_retest config.
Proof using Hconfig. unfold EntrySetupConfig.valid in Hconfig. rewrite !andb_true_iff, !Z.leb_le in Hconfig. tauto. Qed.

Lemma select_known zones leg mss close : DisplacementLeg.confirmed_at leg <= now ->
  _select_fvg (known_at GapZone.confirmed_at now zones) leg mss close direction config = _select_fvg zones leg mss close direction config.
Proof using.
  intros Hle. unfold _select_fvg, known_at. rewrite filter_andb. f_equal. apply filter_ext_in. intros zone _.
  destruct (gap_eligible leg mss direction zone) eqn:E; [|by rewrite andb_false_r]. unfold gap_eligible in E. rewrite !andb_true_iff in E.
  destruct E as [[_ E%Z.leb_le] _]. by rewrite (proj2 (Z.leb_le _ now)) by lia.
Qed.

(** The evidence of both detections. *)
Context (zones : list GapZone) (Hzones : forall z, z ∈ zones -> closes candles timeframe (GapZone.confirmed_at z)).
Context (l : list StructureBreakEvent) (Hl : in_order StructureBreakEvent.confirmed_at l).
Local Abbreviation bar := (bar_of candles timeframe).

Lemma after_displacement_settled source mss leg s s' :
  StructureBreakEvent.timestamp mss ∈ map Candle.timestamp earlier -> closes earlier timeframe (DisplacementLeg.confirmed_at leg) ->
  leg_in_time candles timeframe config sweep mss leg = true ->
  after_displacement earlier timeframe config order_blocks atr_result now sweep (bar swept_at) source mss leg
    (known_at GapZone.confirmed_at now zones) (known_at StructureBreakEvent.confirmed_at now l) = Ok s ->
  after_displacement candles timeframe config order_blocks atr_result' cutoff sweep (bar swept_at) source mss leg zones l = Ok s' ->
  settled s s'.
Proof using Hs Hnow Hatr Hconfig Hzones.
  intros Hm Hleg Htime. pose proof (proj1 (closes_earlier candles timeframe n now Hs Hnow _) Hleg) as [Hleg' Hnowleg].
  unfold after_displacement. cbv zeta. rewrite (candle_at_earlier candles timeframe n Hs _ Hm) by done.
  destruct (candle_at candles _) as [mss_candle|]; [|done]. cbn [mbind pyres_bind]. rewrite select_known by done.
  destruct (_select_fvg _ _ _ _ _ _) as [gap|] eqn:Eg; [|apply settled_eq].
  apply py_min_mem, list_elem_of_In, filter_In in Eg as [Eg%list_elem_of_In Ege]. unfold gap_eligible in Ege. rewrite !andb_true_iff in Ege.
  destruct Ege as [[[_ _] Ege%Z.leb_le] _]. pose proof (Hzones gap Eg) as Hg.
  assert (closes earlier timeframe (GapZone.confirmed_at gap)) as Hge by (apply (closes_earlier candles timeframe n now Hs Hnow); split; [done|lia]).
  destruct (bar_of_spec earlier timeframe (earlier_spaced candles timeframe n Hs) _ Hge) as (-> & c & Hc & _).
  destruct (bar_of_spec candles timeframe Hs _ Hg) as (-> & _). rewrite (bar_earlier candles timeframe n now Hs Hnow) in * by done.
  cbn [mbind pyres_bind]. unfold bars_after. destruct (enumerate_earlier candles n (bar (GapZone.confirmed_at gap) + 1)) as [rest ->].
  destruct (first_completed _ (drop _ (enumerate earlier))) as [[x|]|] eqn:Ef; cbn [mbind pyres_bind]; [| |done].
  - rewrite (first_completed_app (retest_bar timeframe config order_blocks atr_result sweep (bar swept_at) source mss leg gap
      (bar (GapZone.confirmed_at gap)) (known_at StructureBreakEvent.confirmed_at now l)) _ _ rest x); [apply settled_eq| |done].
    intros [index candle] Hin%list_elem_of_lookup. destruct Hin as [k Hk]. rewrite lookup_drop in Hk.
    assert ((index, candle) ∈ enumerate earlier) as Hi by (by eapply list_elem_of_lookup_2). apply elem_of_enumerate in Hi.
    pose proof (lookup_lt_Some _ _ _ Hi). apply lookup_take_Some in Hi as [Hi _]. by apply retest_bar_earlier.
  - intros E _. unfold settled. revert E. unfold stage_status.
    assert (current_index earlier - Z.of_nat (bar swept_at) <= EntrySetupConfig.signal_setup_max_total_bars config
      /\ current_index earlier - Z.of_nat (bar (GapZone.confirmed_at gap)) <= EntrySetupConfig.signal_max_bars_fvg_to_retest config) as [H1 H2].
    { unfold current_index. pose proof (lookup_lt_Some _ _ _ Hc). pose proof limits_positive.
      destruct (decide (bar (GapZone.confirmed_at gap) = length earlier - 1)%nat) as [Eq|Hne].
      - pose proof (proj1 (bar_of_le candles timeframe Hs _ _ Hg Hleg') Ege). unfold leg_in_time in Htime.
        apply andb_prop in Htime as [_ Htime%Z.leb_le]. lia.
      - destruct (lookup_lt_is_Some_2 earlier (length earlier - 1)) as [last Hlast]; [lia|].
        destruct (retest_bar_none _ _ _ _ _ _ _ (length earlier - 1)%nat last (first_completed_none _ _ _ Ef ltac:(
          apply (list_elem_of_lookup_2 _ (length earlier - 1 - (bar (GapZone.confirmed_at gap) + 1))%nat);
          rewrite lookup_drop, enumerate_lookup;
          replace (bar (GapZone.confirmed_at gap) + 1 + (length earlier - 1 - (bar (GapZone.confirmed_at gap) + 1)))%nat
            with (length earlier - 1)%nat by lia; by rewrite Hlast))) as [H1 H2]. lia. }
    rewrite (proj2 (Z.ltb_ge _ _) H1), (proj2 (Z.ltb_ge _ _) H2). rewrite open_setup_ok by (done || eauto). by intros [= <-].
Qed.

(** *** Stages *)

Lemma open_invalidated confirmed structure displacement fvg block reasons s :
  open_setup sweep EntrySetupStatus.INVALIDATED confirmed structure displacement fvg block reasons = Ok s ->
  CompositeEntrySetup.setup_status s = EntrySetupStatus.INVALIDATED.
Proof using. rewrite open_setup_ok by done. by intros [= <-]. Qed.

Definition expired (total stage maximum : Z) : Prop :=
  EntrySetupConfig.signal_setup_max_total_bars config < total \/ maximum < stage.

Lemma stage_invalidated total stage maximum reason confirmed structure s : expired total stage maximum ->
  (let '(status, reasons) := stage_status total stage maximum config EntrySetupStatus.FORMING reason in
   open_setup sweep status confirmed structure None None None reasons) = Ok s ->
  CompositeEntrySetup.setup_status s = EntrySetupStatus.INVALIDATED.
Proof using.
  intros He. unfold stage_status. destruct (Z.ltb_spec (EntrySetupConfig.signal_setup_max_total_bars config) total); [apply open_invalidated|].
  destruct (Z.ltb_spec maximum stage); [apply open_invalidated|]. destruct He; lia.
Qed.

Lemma stage_settled total stage maximum reason confirmed structure s s' :
  (expired total stage maximum -> CompositeEntrySetup.setup_status s' = EntrySetupStatus.INVALIDATED) ->
  (let '(status, reasons) := stage_status total stage maximum config EntrySetupStatus.FORMING reason in
   open_setup sweep status confirmed structure None None None reasons) = Ok s -> settled s s'.
Proof using.
  intros He. unfold stage_status, settled.
  destruct (Z.ltb_spec (EntrySetupConfig.signal_setup_max_total_bars config) total);
    [intros E%open_invalidated; rewrite E; apply He; by left|].
  destruct (Z.ltb_spec maximum stage); [intros E%open_invalidated; rewrite E; apply He; by right|].
  rewrite open_setup_ok by done. by intros [= <-].
Qed.

Lemma opposite_grow from limit limit' o : limit <= limit' ->
  opposite_between direction from limit l = Some o -> opposite_between direction from limit' l = Some o.
Proof using Hl.
  intros Hle. unfold opposite_between. rewrite !(find_until StructureBreakEvent.confirmed_at (fun x => negb (bool_decide _))) by done.
  destruct (List.find _ l) as [x|]; [|done]. destruct (Z.leb_spec (StructureBreakEvent.confirmed_at x) limit); [|done].
  destruct (Z.leb_spec (StructureBreakEvent.confirmed_at x) limit'); [done|lia].
Qed.

Lemma now_cutoff : now <= cutoff.
Proof using Hs Hnow Hcut.
  destruct (now_close candles timeframe n now Hnow) as (c & Hc & <- & _). unfold data_cutoff_at in Hcut. rewrite last_lookup in Hcut.
  destruct (candles !! _) as [d|] eqn:Hd; [|done]. injection Hcut as <-. pose proof (evenly_spaced_nth _ _ _ _ _ _ Hs Hc Hd).
  apply lookup_lt_Some in Hc. pose proof (timeframe_duration_pos timeframe). nia.
Qed.

Lemma current_earlier t : closes candles timeframe t -> now < t -> current_index earlier < Z.of_nat (bar t).
Proof using Hs Hnow. intros Ht Hlt. apply (bar_now candles timeframe n now Hs Hnow) in Hlt; [|done]. unfold current_index. lia. Qed.

Lemma current_grows : current_index earlier <= current_index candles.
Proof using. unfold current_index. rewrite length_take. lia. Qed.

(** *** After the shift *)

Context (legs : list DisplacementLeg) (Hlegs : in_order DisplacementLeg.confirmed_at legs) (Hlegc : legs_close candles timeframe legs).
Context (Hsweep : closes earlier timeframe swept_at).

Lemma known_closes {A} (at_ : A -> datetime) k : Forall (fun x => closes candles timeframe (at_ x)) k ->
  Forall (fun x => closes earlier timeframe (at_ x)) (known_at at_ now k).
Proof using Hs Hnow.
  rewrite !Forall_forall. intros H x [Hx Hle]%elem_of_known. apply (closes_earlier candles timeframe n now Hs Hnow). auto.
Qed.

Lemma legs_in_time mss leg : closes earlier timeframe (StructureBreakEvent.confirmed_at mss) ->
  leg ∈ known_at DisplacementLeg.confirmed_at now legs ->
  leg_in_time earlier timeframe config sweep mss leg = leg_in_time candles timeframe config sweep mss leg.
Proof using Hs Hnow Hlegc Hsweep.
  intros Hm Hleg. pose proof (known_closes DisplacementLeg.confirmed_at legs Hlegc) as H. rewrite Forall_forall in H.
  unfold leg_in_time. by rewrite !(bar_earlier candles timeframe n now Hs Hnow) by auto.
Qed.

Lemma after_mss_settled source mss s s' :
  StructureBreakEvent.timestamp mss ∈ map Candle.timestamp earlier -> closes earlier timeframe (StructureBreakEvent.confirmed_at mss) ->
  after_mss earlier timeframe config order_blocks atr_result now sweep (bar swept_at) source mss
    (known_at DisplacementLeg.confirmed_at now legs) (known_at GapZone.confirmed_at now zones)
    (known_at StructureBreakEvent.confirmed_at now l) = Ok s ->
  after_mss candles timeframe config order_blocks atr_result' cutoff sweep (bar swept_at) source mss legs zones l = Ok s' ->
  settled s s'.
Proof using Hs Hnow Hcut Hatr Hconfig Hzones Hl Hlegs Hlegc Hsweep.
  intros Hm Hmc. pose proof (proj1 (closes_earlier candles timeframe n now Hs Hnow _) Hmc) as [Hmc' _].
  unfold after_mss. cbv zeta. rewrite <-(bar_earlier candles timeframe n now Hs Hnow _ Hsweep) at 1 2.
  rewrite (matching_legs earlier timeframe config (earlier_spaced candles timeframe n Hs) sweep mss Hmc) by by apply known_closes.
  rewrite (bar_earlier candles timeframe n now Hs Hnow _ Hsweep), (matching_legs candles timeframe config Hs sweep mss Hmc') by done.
  cbn [mbind pyres_bind]. rewrite !find_head.
  rewrite (find_ext_in _ (fun x => leg_after sweep mss x && leg_in_time candles timeframe config sweep mss x) (known_at _ _ _))
    by (intros x Hx; by rewrite legs_in_time).
  destruct (List.find _ (known_at _ _ _)) as [leg|] eqn:Ek; cbn [from_option].
  - rewrite (find_known_some _ _ _ _ _ Hlegs Ek). cbn [from_option]. apply find_Some_in in Ek as [[Hleg Hle]%elem_of_known [_ Ht]%andb_prop].
    rewrite opposite_bounded by done. destruct (opposite_between _ _ _ _); [apply settled_eq|].
    apply after_displacement_settled; [done| |done]. apply (closes_earlier candles timeframe n now Hs Hnow). split; [|done].
    unfold legs_close in Hlegc. rewrite Forall_forall in Hlegc. auto.
  - pose proof (fun leg => find_known_none DisplacementLeg.confirmed_at now _ legs leg Ek) as Hlater. cbn beta in Hlater.
    assert (forall leg, List.find (fun x => leg_after sweep mss x && leg_in_time candles timeframe config sweep mss x) legs = Some leg ->
      closes candles timeframe (DisplacementLeg.confirmed_at leg) /\ leg_in_time candles timeframe config sweep mss leg = true) as Hfound.
    { intros leg [Hin [_ Ht]%andb_prop]%find_Some_in. unfold legs_close in Hlegc. rewrite Forall_forall in Hlegc. auto. }
    set (o := List.find _ legs) in *. rewrite opposite_bounded by lia.
    assert (now <= from_option DisplacementLeg.confirmed_at cutoff o) as Hlim.
    { destruct o as [leg|]; cbn; [specialize (Hlater leg eq_refl); lia|apply now_cutoff]. }
    destruct (opposite_between direction _ now l) as [e|] eqn:Ee.
    { rewrite (opposite_grow _ _ _ _ Hlim Ee). apply settled_eq. }
    destruct (bar_of_spec earlier timeframe (earlier_spaced candles timeframe n Hs) _ Hmc) as (-> & _). cbn [mbind pyres_bind].
    rewrite (bar_earlier candles timeframe n now Hs Hnow _ Hmc). intros Es Es'. eapply stage_settled; [|exact Es]. intros Hx. revert Es'.
    destruct (opposite_between direction (StructureBreakEvent.confirmed_at mss) (from_option _ _ o) l); [apply open_invalidated|].
    destruct o as [leg|].
    + destruct (Hfound leg eq_refl) as [Hc Ht]. pose proof (current_earlier _ Hc (Hlater leg eq_refl)). unfold leg_in_time in Ht.
      apply andb_prop in Ht as [Ht1%Z.leb_le Ht2%Z.leb_le]. destruct Hx; lia.
    + destruct (bar_of_spec candles timeframe Hs _ Hmc') as (-> & _). cbn [mbind pyres_bind]. apply stage_invalidated.
      pose proof current_grows. destruct Hx; [left|right]; lia.
Qed.

(** *** The whole evaluation *)

Context (taken taken' : list LiquidityInteraction)
  (Htaken : sort_by interaction_order taken = known_at LiquidityInteraction.confirmed_at now (sort_by interaction_order taken')).
Context (Hopen : LiquidityInteraction.timestamp sweep ∈ map Candle.timestamp earlier) (Hlc : shifts_close candles timeframe l)
  (Hlopen : forall x, x ∈ known_at StructureBreakEvent.confirmed_at now l -> StructureBreakEvent.timestamp x ∈ map Candle.timestamp earlier).

Lemma taken_bounded limit : limit <= now -> taken_between sweep limit taken = taken_between sweep limit taken'.
Proof using Htaken. intros Hle. unfold taken_between. rewrite Htaken. apply find_known_bounded. intros x [_ H]%andb_prop. lia. Qed.

Lemma taken_grow limit limit' t : limit <= limit' -> taken_between sweep limit taken' = Some t -> taken_between sweep limit' taken' = Some t.
Proof using.
  intros Hle. rewrite !taken_between_spec. destruct (List.find _ _) as [x|]; [|done].
  destruct (Z.leb_spec (LiquidityInteraction.confirmed_at x) limit); [|done].
  destruct (Z.leb_spec (LiquidityInteraction.confirmed_at x) limit'); [done|lia].
Qed.

(** What invalidates a setup before its shift does so for ever. *)
Lemma pre_mss_grow limit' v : now <= limit' ->
  pre_mss_invalidator (taken_between sweep now taken') (opposite_between direction swept_at now l) = Some v ->
  pre_mss_invalidator (taken_between sweep limit' taken') (opposite_between direction swept_at limit' l) = Some v.
Proof using Hl.
  intros Hle. assert (forall t, taken_between sweep now taken' = None -> taken_between sweep limit' taken' = Some t ->
    now < LiquidityInteraction.confirmed_at t) as H1.
  { intros t Hn Ht. apply find_Some_in in Ht as [Hin Hp]. pose proof (find_None_in _ _ _ Hn Hin) as Hn'. cbn in Hn', Hp.
    apply andb_prop in Hp as [Hp _]. rewrite Hp in Hn'. cbn in Hn'. lia. }
  assert (forall o, opposite_between direction swept_at now l = None -> opposite_between direction swept_at limit' l = Some o ->
    now < StructureBreakEvent.confirmed_at o) as H2.
  { intros o Hn Ho. apply find_Some_in in Ho as [Hin Hp]. pose proof (find_None_in _ _ _ Hn Hin) as Hn'. cbn in Hn', Hp.
    apply andb_prop in Hp as [Hp _]. rewrite Hp in Hn'. cbn in Hn'. lia. }
  destruct (taken_between sweep now taken') as [t|] eqn:Et, (opposite_between direction swept_at now l) as [o|] eqn:Eo.
  - by rewrite (taken_grow _ _ _ Hle Et), (opposite_grow _ _ _ _ Hle Eo).
  - rewrite (taken_grow _ _ _ Hle Et). intros E. apply find_Some_in in Et as [_ [_ Et]%andb_prop].
    destruct (opposite_between direction swept_at limit' l) as [o|]; [|done]. specialize (H2 o eq_refl eq_refl). cbn in E |- *.
    destruct (Z.ltb_spec (StructureBreakEvent.confirmed_at o) (LiquidityInteraction.confirmed_at t)); [lia|done].
  - rewrite (opposite_grow _ _ _ _ Hle Eo). intros E. apply find_Some_in in Eo as [_ [_ Eo]%andb_prop].
    destruct (taken_between sweep limit' taken') as [t|]; [|done]. specialize (H1 t eq_refl eq_refl). cbn in E |- *.
    destruct (Z.ltb_spec (StructureBreakEvent.confirmed_at o) (LiquidityInteraction.confirmed_at t)); [done|lia].
  - done.
Qed.

Lemma shifts_in_time x : x ∈ known_at StructureBreakEvent.confirmed_at now l ->
  shift_in_time earlier timeframe config sweep x = shift_in_time candles timeframe config sweep x.
Proof using Hs Hnow Hlc Hsweep.
  intros Hx. pose proof (known_closes StructureBreakEvent.confirmed_at l Hlc) as H. rewrite Forall_forall in H.
  unfold shift_in_time. by rewrite !(bar_earlier candles timeframe n now Hs Hnow) by auto.
Qed.

Lemma evaluate_settled s s' :
  _evaluate_sweep earlier timeframe config order_blocks atr_result dual_event_ids now sweep taken
    (known_at StructureBreakEvent.confirmed_at now l) (known_at DisplacementLeg.confirmed_at now legs)
    (known_at GapZone.confirmed_at now zones) = Ok s ->
  _evaluate_sweep candles timeframe config order_blocks atr_result' dual_event_ids cutoff sweep taken' l legs zones = Ok s' ->
  settled s s'.
Proof using Hs Hnow Hcut Hatr Hconfig Hzones Hl Hlegs Hlegc Hsweep Htaken Hopen Hlc Hlopen.
  pose proof (proj1 (closes_earlier candles timeframe n now Hs Hnow _) Hsweep) as [Hsweep' _].
  unfold _evaluate_sweep. cbv zeta.
  destruct (bar_of_spec earlier timeframe (earlier_spaced candles timeframe n Hs) _ Hsweep) as (-> & _).
  destruct (bar_of_spec candles timeframe Hs _ Hsweep') as (-> & _). cbn [mbind pyres_bind].
  rewrite (candle_at_earlier candles timeframe n Hs _ Hopen). destruct (candle_at candles _) as [source|]; [|done]. cbn [mbind pyres_bind].
  destruct (_ && negb _); [apply settled_eq|].
  rewrite (matching_shifts earlier timeframe config (earlier_spaced candles timeframe n Hs) sweep Hsweep) by by apply known_closes.
  rewrite (matching_shifts candles timeframe config Hs sweep Hsweep') by done. cbn [mbind pyres_bind]. rewrite !find_head.
  rewrite (bar_earlier candles timeframe n now Hs Hnow _ Hsweep).
  rewrite (find_ext_in _ (fun x => shift_after sweep x && shift_in_time candles timeframe config sweep x) (known_at _ _ _))
    by (intros x Hx; by rewrite shifts_in_time).
  destruct (List.find _ (known_at _ _ _)) as [mss|] eqn:Ek; cbn [from_option].
  - rewrite (find_known_some _ _ _ _ _ Hl Ek). cbn [from_option]. apply find_Some_in in Ek as [Hmk _].
    pose proof (proj1 (elem_of_known _ _ _ _) Hmk) as [_ Hle]. rewrite taken_bounded, opposite_bounded by done.
    destruct (pre_mss_invalidator _ _) as [[? ?]|]; [apply settled_eq|]. apply after_mss_settled; [by apply Hlopen|].
    pose proof (known_closes StructureBreakEvent.confirmed_at l Hlc) as H. rewrite Forall_forall in H. auto.
  - pose proof (fun x => find_known_none StructureBreakEvent.confirmed_at now _ l x Ek) as Hlater. cbn beta in Hlater.
    assert (forall x, List.find (fun x => shift_after sweep x && shift_in_time candles timeframe config sweep x) l = Some x ->
      closes candles timeframe (StructureBreakEvent.confirmed_at x) /\ shift_in_time candles timeframe config sweep x = true) as Hfound.
    { intros x [Hin [_ Ht]%andb_prop]%find_Some_in. unfold shifts_close in Hlc. rewrite Forall_forall in Hlc. auto. }
    set (o := List.find _ l) in *. rewrite taken_bounded, opposite_bounded by lia.
    assert (now <= from_option StructureBreakEvent.confirmed_at cutoff o) as Hlim.
    { destruct o as [x|]; cbn; [specialize (Hlater x eq_refl); lia|apply now_cutoff]. }
    destruct (pre_mss_invalidator (taken_between sweep now taken') _) as [v|] eqn:Ev.
    { rewrite (pre_mss_grow _ _ Hlim Ev). destruct v. apply settled_eq. }
    intros Es Es'. eapply stage_settled; [|exact Es]. intros Hx. revert Es'.
    destruct (pre_mss_invalidator _ (opposite_between _ _ (from_option _ _ o) _)) as [[? ?]|]; [apply open_invalidated|].
    destruct o as [x|].
    + destruct (Hfound x eq_refl) as [Hc Ht]. pose proof (current_earlier _ Hc (Hlater x eq_refl)). unfold shift_in_time in Ht.
      apply andb_prop in Ht as [Ht1%Z.leb_le Ht2%Z.leb_le]. destruct Hx; lia.
    + apply stage_invalidated. pose proof current_grows. destruct Hx; [left|right]; lia.
Qed.
End final.

(** ** Two detections *)

Lemma known_filter_comm {A} (p q : A -> bool) l : List.filter p (List.filter q l) = List.filter q (List.filter p l).
Proof. rewrite !filter_andb. apply filter_ext_in. intros x _. apply andb_comm. Qed.

(** Selecting, sorting and knowing commute. *)
Lemma known_sorted {A} (at_ : A -> datetime) (lt : A -> A -> bool) `{!StrictWeak lt} (p : A -> bool) now l :
  sort_by lt (List.filter p (known_at at_ now l)) = known_at at_ now (sort_by lt (List.filter p l)).
Proof. unfold known_at. by rewrite filter_sort_by, known_filter_comm by done. Qed.

Lemma known_prefix_lookup {A} (at_ : A -> datetime) now l i x : in_order at_ l -> known_at at_ now l !! i = Some x -> l !! i = Some x.
Proof. intros (rest & E & _)%(known_prefix at_ now). rewrite E at 2. apply lookup_app_l_Some. Qed.

Lemma detection_reference_ok candles timeframe liquidity_events structure_events displacement_events fvg_zones config dual_sweeps
    order_blocks atr_result r now :
  detect_high_probability_entry_setups candles timeframe liquidity_events structure_events displacement_events fvg_zones config
    dual_sweeps order_blocks atr_result = Ok r ->
  data_cutoff_at candles timeframe = Some now ->
  checked_inputs candles timeframe liquidity_events structure_events displacement_events fvg_zones atr_result
  /\ Forall2 (fun sweep s => _evaluate_sweep candles timeframe config order_blocks atr_result (dual_ids dual_sweeps) now sweep
      (taken_of liquidity_events) (sorted_mss structure_events) (sort_by leg_order displacement_events) fvg_zones = Ok s)
      (sorted_sweeps liquidity_events) (EntrySetupAnalysisResult.setups r).
Proof.
  rewrite detect_reference. unfold reference_entry_setups. intros (u & Hu & H)%bind_ok Hnow. rewrite Hnow in H.
  split; [by eapply validate_inputs_checked|]. apply bind_ok in H as (setups & Hm & [= <-]). by apply py_map_ok in Hm.
Qed.

Lemma valid_known now fvg_zones order_blocks config : valid_evidence fvg_zones order_blocks config ->
  valid_evidence (known_at GapZone.confirmed_at now fvg_zones) order_blocks config.
Proof. intros [Hz Hb Hc]. split; [|done..]. intros z [Hz' _]%elem_of_known. auto. Qed.

Lemma evaluated_source candles timeframe liquidity_events structure_events displacement_events fvg_zones config dual_event_ids order_blocks
    atr_result now sweep s : valid_evidence fvg_zones order_blocks config ->
  checked_inputs candles timeframe liquidity_events structure_events displacement_events fvg_zones atr_result ->
  data_cutoff_at candles timeframe = Some now -> sweep ∈ liquidity_events ->
  _evaluate_sweep candles timeframe config order_blocks atr_result dual_event_ids now sweep (taken_of liquidity_events)
    (sorted_mss structure_events) (sort_by leg_order displacement_events) fvg_zones = Ok s ->
  CompositeEntrySetup.liquidity_event s = sweep.
Proof.
  intros Hve Hin Hnow Hsweep E. destruct (evaluate_sound candles timeframe liquidity_events structure_events displacement_events fvg_zones
    config dual_event_ids order_blocks atr_result now sweep Hin Hve Hnow Hsweep) as (s0 & E0 & [(Hsrc & _) _ _ _]).
  rewrite E in E0. injection E0 as ->. done.
Qed.

(** C18. Settled setups are final: run on the first candles, with the events
    and the gaps confirmed by their close, and then on all candles with all of
    them, [detect_high_probability_entry_setups] reports the sweeps of the first
    run first and in the same order; a setup that was READY is the same setup,
    field by field, and one that was INVALIDATED is still INVALIDATED. Later
    evidence may only complete or invalidate what still formed or waited. *)
Theorem entry_setups_settled candles timeframe n now liquidity_events structure_events displacement_events fvg_zones config dual_sweeps
    order_blocks atr_result atr_result' r r' :
  valid_evidence fvg_zones order_blocks config -> data_cutoff_at (take n candles) timeframe = Some now -> atr_prefix n atr_result atr_result' ->
  detect_high_probability_entry_setups (take n candles) timeframe
    (known_at LiquidityInteraction.confirmed_at now liquidity_events) (known_at StructureBreakEvent.confirmed_at now structure_events)
    (known_at DisplacementLeg.confirmed_at now displacement_events) (known_at GapZone.confirmed_at now fvg_zones)
    config dual_sweeps order_blocks atr_result = Ok r ->
  detect_high_probability_entry_setups candles timeframe liquidity_events structure_events displacement_events fvg_zones config
    dual_sweeps order_blocks atr_result' = Ok r' ->
  forall i s, EntrySetupAnalysisResult.setups r !! i = Some s ->
    exists s', EntrySetupAnalysisResult.setups r' !! i = Some s'
      /\ CompositeEntrySetup.liquidity_event s' = CompositeEntrySetup.liquidity_event s /\ settled s s'.
Proof.
  intros Hve Hnow Hatr Hr Hr' i s Hi.
  assert (exists cutoff, data_cutoff_at candles timeframe = Some cutoff) as [cutoff Hcut].
  { unfold data_cutoff_at in *. destruct (list.last candles) eqn:E; [eauto|]. apply last_None in E as ->. by rewrite take_nil in Hnow. }
  destruct (detection_reference_ok _ _ _ _ _ _ _ _ _ _ _ _ Hr Hnow) as [HK H]. pose proof HK as [_ KL KS _ _ _].
  destruct (detection_reference_ok _ _ _ _ _ _ _ _ _ _ _ _ Hr' Hcut) as [HF H']. pose proof HF as [Hs HL HS HD HG _].
  destruct (Forall2_lookup_r _ _ _ _ _ H Hi) as (sweep & Hsweep & E).
  assert (sweep ∈ known_at LiquidityInteraction.confirmed_at now liquidity_events) as Hknown
    by (apply sorted_sweep_in; by eapply list_elem_of_lookup_2).
  destruct (KL _ Hknown) as [Hopen Hclose]. pose proof (proj1 (proj1 (elem_of_known _ _ _ _) Hknown)) as Hin.
  unfold sorted_sweeps in Hsweep. rewrite known_sorted in Hsweep by typeclasses eauto.
  apply known_prefix_lookup in Hsweep; [|apply sort_in_order, _].
  destruct (Forall2_lookup_l _ _ _ _ _ H' Hsweep) as (s' & Hs' & E'). exists s'. split; [done|].
  split; [by rewrite (evaluated_source _ _ _ _ _ _ _ _ _ _ _ _ _ Hve HF Hcut Hin E'),
            (evaluated_source _ _ _ _ _ _ _ _ _ _ _ _ _ (valid_known _ _ _ _ Hve) HK Hnow Hknown E)|].
  assert (sorted_mss (known_at StructureBreakEvent.confirmed_at now structure_events)
    = known_at StructureBreakEvent.confirmed_at now (sorted_mss structure_events)) as Em by (apply known_sorted, _).
  assert (sort_by leg_order (known_at DisplacementLeg.confirmed_at now displacement_events)
    = known_at DisplacementLeg.confirmed_at now (sort_by leg_order displacement_events)) as El
    by (unfold known_at; by rewrite filter_sort_by by typeclasses eauto).
  rewrite Em, El in E.
  refine (evaluate_settled candles timeframe n now cutoff config order_blocks atr_result atr_result' (dual_ids dual_sweeps) Hs Hnow Hcut
    Hatr (ve_config _ _ _ Hve) sweep fvg_zones HG (sorted_mss structure_events) _ (sort_by leg_order displacement_events) _ _ Hclose
    (taken_of (known_at LiquidityInteraction.confirmed_at now liquidity_events)) (taken_of liquidity_events) _ Hopen _ _ s s' E E').
  - apply sort_in_order, _.
  - apply sort_in_order, _.
  - by apply aligned_legs.
  - unfold taken_of. apply known_sorted, _.
  - by apply aligned_shifts.
  - intros x Hx. rewrite <-Em in Hx. apply KS. apply elem_of_sort_by, list_elem_of_In, filter_In in Hx as [Hx _]. by apply list_elem_of_In.
Qed.

(** The sample of [EntrySetupContract], with a bar to come. *)
Lemma entry_setups_settled_witness : exists r', es_detect (es_bars ++ [es_bar 7 112 116 111 115]) = Ok r'
  /\ EntrySetupAnalysisResult.setups r' !! 0%nat = Some es_ready.
Proof.
  destruct (es_detect (es_bars ++ [es_bar 7 112 116 111 115])) as [r'|e] eqn:E; [|vm_compute in E; discriminate E].
  exists r'. split; [reflexivity|].
  destruct (entry_setups_settled (es_bars ++ [es_bar 7 112 116 111 115]) Timeframe.FIFTEEN_MINUTES 7 (7 * 900000000) [es_sweep] [es_mss] [es_leg]
    [es_gap] es_config [] [] None None _ r' es_valid eq_refl I (proj1 es_sample_runs) E 0%nat es_ready eq_refl) as (s' & Hs' & _ & Hset).
  rewrite Hs'. f_equal. exact Hset.
Defined.

(** The reason of an expired setup is not final: a shift against it that comes
    after the expiry replaces the reason, and an expired setup is dated at the
    cutoff, not at the bar of its expiry. *)
Definition es_quiet (n : Z) : Candle := es_bar n 100 101 99 100.

Definition es_late_opposite : StructureBreakEvent :=
  StructureBreakEvent.mkStructureBreakEvent StructureEventType.MSS StructureDirection.BEARISH (D 100) (9 * 900000000) "S2"
    StructureBreakBasis.CLOSE (10 * 900000000) None TrendState.BULLISH.

Definition es_reasons (r : pyres EntrySetupAnalysisResult) : option (list (datetime * list EntrySetupReasonCode)) :=
  match r with
  | Ok r => Some (map (fun s => (CompositeEntrySetup.confirmed_at s, CompositeEntrySetup.reason_codes s)) (EntrySetupAnalysisResult.setups r))
  | Raise _ => None
  end.

Example expired_reason_drifts :
  let bars := map es_quiet [0; 1; 2; 3; 4; 5; 6; 7; 8; 9] in
  let detect n events := es_reasons (detect_high_probability_entry_setups (take n bars) Timeframe.FIFTEEN_MINUTES [es_sweep] events [] []
                                       es_config [] [] None) in
  detect 8%nat [] = Some [(8 * 900000000, [EntrySetupReasonCode.MSS_STAGE_EXPIRED])]
  /\ detect 9%nat [] = Some [(9 * 900000000, [EntrySetupReasonCode.MSS_STAGE_EXPIRED])]
  /\ detect 10%nat [es_late_opposite] = Some [(10 * 900000000, [EntrySetupReasonCode.OPPOSITE_MSS])].
Proof. split_and!; vm_compute; reflexivity. Qed.
