(* ===== verification/Lifecycle.v ===== *)
(** The signal lifecycle: [schemas/signal_lifecycle.py] and
    [engines/signal/lifecycle.py].

    A published signal waits for its entry, becomes active and ends in one of
    four terminal statuses, decided from closed OHLC bars only. The entry is
    decided by a callback; [Execution] gives the one the program uses, and the
    theorems here hold for every callback that keeps the contract
    [EntryResolver]. *)
From Stdlib Require Import ZArith QArith Lia Lqa.
From stdpp Require Import base list strings numbers sets.
From S2P Require Import Prelude Decimal Time Candle Signal.
Local Open Scope Z_scope.

(** ** Schemas *)

Module SignalLifecycleStatus.
Inductive SignalLifecycleStatus := WAITING | ACTIVE | TP_HIT | SL_HIT | CANCELLED | AMBIGUOUS.
#[global] Instance SignalLifecycleStatus_eqdec : EqDecision SignalLifecycleStatus := ltac:(solve_decision).
End SignalLifecycleStatus.
Abbreviation SignalLifecycleStatus := SignalLifecycleStatus.SignalLifecycleStatus.

Module SignalLifecycleEventType.
Inductive SignalLifecycleEventType :=
| CREATED | ACTIVATED | TAKE_PROFIT_HIT | STOP_LOSS_HIT | CANCELLED | AMBIGUOUS.
#[global] Instance SignalLifecycleEventType_eqdec : EqDecision SignalLifecycleEventType := ltac:(solve_decision).
End SignalLifecycleEventType.
Abbreviation SignalLifecycleEventType := SignalLifecycleEventType.SignalLifecycleEventType.

Module SignalLifecycleReasonCode.
Inductive SignalLifecycleReasonCode :=
| SIGNAL_CREATED | ENTRY_ZONE_TOUCHED | ENTRY_EXECUTION_CONFIRMED | TAKE_PROFIT_TOUCHED
| STOP_LOSS_TOUCHED | TP_AND_SL_TOUCHED_SAME_CANDLE | ENTRY_AND_EXIT_ORDER_UNKNOWN
| STRUCTURAL_INVALIDATION_BEFORE_ENTRY | ENTRY_AND_INVALIDATION_ORDER_UNKNOWN
| CONSERVATIVE_STOP_FIRST.
End SignalLifecycleReasonCode.
Abbreviation SignalLifecycleReasonCode := SignalLifecycleReasonCode.SignalLifecycleReasonCode.

Module SameCandlePolicy.
Inductive SameCandlePolicy := AMBIGUOUS | CONSERVATIVE_STOP_FIRST.
#[global] Instance SameCandlePolicy_eqdec : EqDecision SameCandlePolicy := ltac:(solve_decision).
End SameCandlePolicy.
Abbreviation SameCandlePolicy := SameCandlePolicy.SameCandlePolicy.

Module SignalLifecycleConfig.
Record SignalLifecycleConfig := mkSignalLifecycleConfig {
  same_candle_policy : SameCandlePolicy
}.
End SignalLifecycleConfig.
Abbreviation SignalLifecycleConfig := SignalLifecycleConfig.SignalLifecycleConfig.

Module SignalLifecycleCandidate.
Record SignalLifecycleCandidate := mkSignalLifecycleCandidate {
  signal_id : string;
  direction : SignalDecision;
  entry_zone : EntryZone;
  entry_reference : dec;
  take_profit : dec;
  stop_loss : dec;
  created_at : datetime
}.
Definition validate_trade_levels (c : SignalLifecycleCandidate) : bool :=
  let low := EntryZone.low (entry_zone c) in
  let high := EntryZone.high (entry_zone c) in
  nonempty (signal_id c) && EntryZone.validate_bounds (entry_zone c)
  && dltb (D 0) (entry_reference c) && dltb (D 0) (take_profit c) && dltb (D 0) (stop_loss c)
  && match direction c with SignalDecision.NO_TRADE => false | _ => true end
  && (dleb low (entry_reference c) && dleb (entry_reference c) high)
  && match direction c with
     | SignalDecision.LONG => dltb (stop_loss c) low && dleb low high && dltb high (take_profit c)
     | _ => dltb (take_profit c) low && dleb low high && dltb high (stop_loss c)
     end.
End SignalLifecycleCandidate.
Abbreviation SignalLifecycleCandidate := SignalLifecycleCandidate.SignalLifecycleCandidate.

Module StructuralInvalidation.
Record StructuralInvalidation := mkStructuralInvalidation {
  confirmed_at : datetime;
  source_structure : string;
  reason : string
}.
End StructuralInvalidation.
Abbreviation StructuralInvalidation := StructuralInvalidation.StructuralInvalidation.

Module SignalLifecycleEvent.
Record SignalLifecycleEvent := mkSignalLifecycleEvent {
  event_type : SignalLifecycleEventType;
  from_status : option SignalLifecycleStatus;
  to_status : SignalLifecycleStatus;
  occurred_at : datetime;
  bar_timestamp : option datetime;
  price : option dec;
  reason_code : SignalLifecycleReasonCode;
  detail : string
}.
Definition valid (e : SignalLifecycleEvent) : bool := opt_positive (price e) && nonempty (detail e).
End SignalLifecycleEvent.
Abbreviation SignalLifecycleEvent := SignalLifecycleEvent.SignalLifecycleEvent.

(** [TERMINAL_STATUSES] *)
Definition TERMINAL_STATUSES (s : SignalLifecycleStatus) : bool :=
  match s with
  | SignalLifecycleStatus.TP_HIT | SignalLifecycleStatus.SL_HIT
  | SignalLifecycleStatus.CANCELLED | SignalLifecycleStatus.AMBIGUOUS => true
  | _ => false
  end.

Module SignalLifecycleResult.
Record SignalLifecycleResult := mkSignalLifecycleResult {
  signal_id : string;
  status : SignalLifecycleStatus;
  created_at : datetime;
  activated_at : option datetime;
  terminal_at : option datetime;
  last_evaluated_at : datetime;
  events : list SignalLifecycleEvent
}.
Definition validate_status_timestamps (r : SignalLifecycleResult) : bool :=
  negb (length (events r) =? 0)%nat
  && Bool.eqb (TERMINAL_STATUSES (status r)) (is_some (terminal_at r))
  && negb (match status r with
           | SignalLifecycleStatus.ACTIVE | SignalLifecycleStatus.TP_HIT | SignalLifecycleStatus.SL_HIT => true
           | _ => false end && negb (is_some (activated_at r)))
  && negb (match status r with
           | SignalLifecycleStatus.WAITING | SignalLifecycleStatus.CANCELLED => true
           | _ => false end && is_some (activated_at r)).
End SignalLifecycleResult.
Abbreviation SignalLifecycleResult := SignalLifecycleResult.SignalLifecycleResult.

(** ** The entry callback *)

(** What the lifecycle reads of [EntryExecutionEvidence]; [execution_reason]
    is the text the f-string prints. *)
Module EntryExecutionEvidence.
Record EntryExecutionEvidence := mkEntryExecutionEvidence {
  executed : bool;
  executed_at : option datetime;
  executed_entry_price : option dec;
  source_bar_timestamp : datetime;
  execution_reason : string
}.
End EntryExecutionEvidence.
Abbreviation EntryExecutionEvidence := EntryExecutionEvidence.EntryExecutionEvidence.

(** [EntryExecutionResolver]: candidate, bar, previous bar and bar close. *)
Definition EntryExecutionResolver : Type :=
  SignalLifecycleCandidate -> Candle -> option Candle -> datetime -> pyres EntryExecutionEvidence.

(** The contract of a resolver: an executed entry carries a positive price and
    an instant that is the bar's open or its close. *)
Class EntryResolver (resolve : EntryExecutionResolver) : Prop := {
  resolver_evidence : forall signal bar previous close evidence,
    resolve signal bar previous close = Ok evidence ->
    EntryExecutionEvidence.executed evidence = true ->
    exists at_ price,
      EntryExecutionEvidence.executed_at evidence = Some at_
      /\ EntryExecutionEvidence.executed_entry_price evidence = Some price
      /\ (at_ = Candle.timestamp bar \/ at_ = close) /\ (0 < Qval price)%Q
}.

(** ** The engine *)

Definition Lifecycle_validate_inputs (signal : SignalLifecycleCandidate) (candles : list Candle)
    (timeframe : Timeframe) (invalidation : option StructuralInvalidation) : pyres unit :=
  _ ← validate_spacing "SignalLifecycleInputError" timeframe candles;
  raise_if (match invalidation with
            | Some inv => StructuralInvalidation.confirmed_at inv <? SignalLifecycleCandidate.created_at signal
            | None => false end)
    (Exc "SignalLifecycleInputError" "structural invalidation cannot predate signal creation").

Definition _take_profit_touched (signal : SignalLifecycleCandidate) (bar : Candle) : bool :=
  match SignalLifecycleCandidate.direction signal with
  | SignalDecision.LONG => dleb (SignalLifecycleCandidate.take_profit signal) (Candle.high bar)
  | _ => dleb (Candle.low bar) (SignalLifecycleCandidate.take_profit signal)
  end.

Definition _stop_loss_touched (signal : SignalLifecycleCandidate) (bar : Candle) : bool :=
  match SignalLifecycleCandidate.direction signal with
  | SignalDecision.LONG => dleb (Candle.low bar) (SignalLifecycleCandidate.stop_loss signal)
  | _ => dleb (SignalLifecycleCandidate.stop_loss signal) (Candle.high bar)
  end.

Definition _exit_event (status : SignalLifecycleStatus) (bar : Candle) (occurred_at : datetime)
    (price : dec) (reason : SignalLifecycleReasonCode) : pyres SignalLifecycleEvent :=
  let is_tp := bool_decide (status = SignalLifecycleStatus.TP_HIT) in
  validated SignalLifecycleEvent.valid (SignalLifecycleEvent.mkSignalLifecycleEvent
    (if is_tp then SignalLifecycleEventType.TAKE_PROFIT_HIT else SignalLifecycleEventType.STOP_LOSS_HIT)
    (Some SignalLifecycleStatus.ACTIVE) status occurred_at (Some (Candle.timestamp bar)) (Some price) reason
    (if is_tp then "Take profit was touched." else "Stop loss was touched.")).

Definition _invalidation_event (invalidation : StructuralInvalidation) (from_status : SignalLifecycleStatus)
    (bar_timestamp : option datetime) : pyres SignalLifecycleEvent :=
  validated SignalLifecycleEvent.valid (SignalLifecycleEvent.mkSignalLifecycleEvent
    SignalLifecycleEventType.CANCELLED (Some from_status) SignalLifecycleStatus.CANCELLED
    (StructuralInvalidation.confirmed_at invalidation) bar_timestamp None
    SignalLifecycleReasonCode.STRUCTURAL_INVALIDATION_BEFORE_ENTRY
    ("Structure invalidated before activation: " +:+ StructuralInvalidation.reason invalidation
     +:+ " (source=" +:+ StructuralInvalidation.source_structure invalidation +:+ ").")).

(** The local variables of the replay loop. *)
Module LifecycleState.
Record LifecycleState := mkLifecycleState {
  status : SignalLifecycleStatus;
  activated_at : option datetime;
  terminal_at : option datetime;
  last_evaluated_at : datetime;
  events : list SignalLifecycleEvent
}.
End LifecycleState.
Abbreviation LifecycleState := LifecycleState.LifecycleState.

Section replay.
Context (signal : SignalLifecycleCandidate) (timeframe : Timeframe) (config : SignalLifecycleConfig).
Context (entry_execution_resolver : EntryExecutionResolver).
Context (structural_invalidation : option StructuralInvalidation).

Definition created_event : SignalLifecycleEvent :=
  SignalLifecycleEvent.mkSignalLifecycleEvent SignalLifecycleEventType.CREATED None
    SignalLifecycleStatus.WAITING (SignalLifecycleCandidate.created_at signal) None None
    SignalLifecycleReasonCode.SIGNAL_CREATED
    "Signal accepted with immutable entry, take-profit, and stop-loss levels.".

(** The state before the first bar. *)
Definition replay_init : pyres LifecycleState :=
  let created_at := SignalLifecycleCandidate.created_at signal in
  created ← validated SignalLifecycleEvent.valid created_event;
  match structural_invalidation with
  | Some inv =>
      if StructuralInvalidation.confirmed_at inv =? created_at then
        event ← _invalidation_event inv SignalLifecycleStatus.WAITING None;
        Ok (LifecycleState.mkLifecycleState SignalLifecycleStatus.CANCELLED None
              (Some (StructuralInvalidation.confirmed_at inv)) created_at [created; event])
      else Ok (LifecycleState.mkLifecycleState SignalLifecycleStatus.WAITING None None created_at [created])
  | None => Ok (LifecycleState.mkLifecycleState SignalLifecycleStatus.WAITING None None created_at [created])
  end.

(** The invalidation of a signal that still waits: the state the loop breaks
    with, or [None] when the bar is not affected. *)
Definition invalidate_waiting (inv : StructuralInvalidation) (st : LifecycleState) (bar : Candle) (bar_close : datetime)
    (entry_executed : bool) : pyres (option LifecycleState) :=
  let invalidated_at := StructuralInvalidation.confirmed_at inv in
  if invalidated_at <=? Candle.timestamp bar then
    event ← _invalidation_event inv SignalLifecycleStatus.WAITING None;
    Ok (Some (LifecycleState.mkLifecycleState SignalLifecycleStatus.CANCELLED (LifecycleState.activated_at st) (Some invalidated_at)
      (Z.max (LifecycleState.last_evaluated_at st) invalidated_at) (LifecycleState.events st ++ [event])))
  else if invalidated_at <=? bar_close then
    if entry_executed then
      event ← validated SignalLifecycleEvent.valid (SignalLifecycleEvent.mkSignalLifecycleEvent
        SignalLifecycleEventType.AMBIGUOUS (Some SignalLifecycleStatus.WAITING) SignalLifecycleStatus.AMBIGUOUS
        bar_close (Some (Candle.timestamp bar)) None
        SignalLifecycleReasonCode.ENTRY_AND_INVALIDATION_ORDER_UNKNOWN
        "Entry and confirmed structural invalidation occurred in the same OHLC interval; their order is unknown.");
      Ok (Some (LifecycleState.mkLifecycleState SignalLifecycleStatus.AMBIGUOUS (LifecycleState.activated_at st) (Some bar_close)
        bar_close (LifecycleState.events st ++ [event])))
    else
      event ← _invalidation_event inv SignalLifecycleStatus.WAITING (Some (Candle.timestamp bar));
      Ok (Some (LifecycleState.mkLifecycleState SignalLifecycleStatus.CANCELLED (LifecycleState.activated_at st) (Some invalidated_at)
        bar_close (LifecycleState.events st ++ [event])))
  else Ok None.

(** The exit of a trade that is active in this bar. *)
Definition resolve_exit (st : LifecycleState) (bar : Candle) (bar_close : datetime) (tp_touched sl_touched : bool) : pyres LifecycleState :=
  let finish status event :=
    Ok (LifecycleState.mkLifecycleState status (LifecycleState.activated_at st) (Some bar_close) bar_close (LifecycleState.events st ++ [event])) in
  if tp_touched && sl_touched then
    match SignalLifecycleConfig.same_candle_policy config with
    | SameCandlePolicy.CONSERVATIVE_STOP_FIRST =>
        event ← validated SignalLifecycleEvent.valid (SignalLifecycleEvent.mkSignalLifecycleEvent
          SignalLifecycleEventType.STOP_LOSS_HIT (Some SignalLifecycleStatus.ACTIVE) SignalLifecycleStatus.SL_HIT
          bar_close (Some (Candle.timestamp bar)) (Some (SignalLifecycleCandidate.stop_loss signal))
          SignalLifecycleReasonCode.CONSERVATIVE_STOP_FIRST
          "TP and SL were both touched in one OHLC candle; the configured conservative policy records SL first.");
        finish SignalLifecycleStatus.SL_HIT event
    | SameCandlePolicy.AMBIGUOUS =>
        event ← validated SignalLifecycleEvent.valid (SignalLifecycleEvent.mkSignalLifecycleEvent
          SignalLifecycleEventType.AMBIGUOUS (Some SignalLifecycleStatus.ACTIVE) SignalLifecycleStatus.AMBIGUOUS
          bar_close (Some (Candle.timestamp bar)) None
          SignalLifecycleReasonCode.TP_AND_SL_TOUCHED_SAME_CANDLE
          "TP and SL were both touched in one OHLC candle; tick order is unknown.");
        finish SignalLifecycleStatus.AMBIGUOUS event
    end
  else if tp_touched then
    event ← _exit_event SignalLifecycleStatus.TP_HIT bar bar_close
      (SignalLifecycleCandidate.take_profit signal) SignalLifecycleReasonCode.TAKE_PROFIT_TOUCHED;
    finish SignalLifecycleStatus.TP_HIT event
  else if sl_touched then
    event ← _exit_event SignalLifecycleStatus.SL_HIT bar bar_close
      (SignalLifecycleCandidate.stop_loss signal) SignalLifecycleReasonCode.STOP_LOSS_TOUCHED;
    finish SignalLifecycleStatus.SL_HIT event
  else Ok (LifecycleState.mkLifecycleState (LifecycleState.status st) (LifecycleState.activated_at st) (LifecycleState.terminal_at st) bar_close
             (LifecycleState.events st)).

(** The activation of a waiting signal whose entry was executed in this bar,
    and what the same bar decides after it. *)
Definition activate (st : LifecycleState) (bar : Candle) (bar_close : datetime) (entry_execution : EntryExecutionEvidence)
    (tp_touched sl_touched : bool) : pyres LifecycleState :=
  match EntryExecutionEvidence.executed_at entry_execution,
        EntryExecutionEvidence.executed_entry_price entry_execution with
  | Some executed_at, Some executed_entry_price =>
      event ← validated SignalLifecycleEvent.valid (SignalLifecycleEvent.mkSignalLifecycleEvent
        SignalLifecycleEventType.ACTIVATED (Some SignalLifecycleStatus.WAITING) SignalLifecycleStatus.ACTIVE
        executed_at (Some (Candle.timestamp bar)) (Some executed_entry_price)
        SignalLifecycleReasonCode.ENTRY_EXECUTION_CONFIRMED
        ("Entry activated from conservative execution evidence: "
         +:+ EntryExecutionEvidence.execution_reason entry_execution +:+ "."));
      let active := LifecycleState.mkLifecycleState SignalLifecycleStatus.ACTIVE (Some executed_at) (LifecycleState.terminal_at st)
        bar_close (LifecycleState.events st ++ [event]) in
      let open_fill := executed_at =? Candle.timestamp bar in
      if (tp_touched || sl_touched) && negb open_fill then
        ambiguous ← validated SignalLifecycleEvent.valid (SignalLifecycleEvent.mkSignalLifecycleEvent
          SignalLifecycleEventType.AMBIGUOUS (Some SignalLifecycleStatus.ACTIVE) SignalLifecycleStatus.AMBIGUOUS
          bar_close (Some (Candle.timestamp bar)) None
          SignalLifecycleReasonCode.ENTRY_AND_EXIT_ORDER_UNKNOWN
          "Entry and at least one exit were touched in the same OHLC candle; the exit cannot be proven to occur after activation.");
        Ok (LifecycleState.mkLifecycleState SignalLifecycleStatus.AMBIGUOUS (Some executed_at) (Some bar_close) bar_close
              (LifecycleState.events active ++ [ambiguous]))
      else if negb (tp_touched || sl_touched) then Ok active
      else resolve_exit active bar bar_close tp_touched sl_touched
  | _, _ => Raise (Exc "AssertionError" "")
  end.

(** One iteration, from a status that is not terminal. *)
Definition bar_step (previous_bar : option Candle) (bar : Candle) (st : LifecycleState) : pyres LifecycleState :=
  let bar_close := Candle.timestamp bar + timeframe_duration timeframe in
  if Candle.timestamp bar <? SignalLifecycleCandidate.created_at signal then Ok st
  else
    let tp_touched := _take_profit_touched signal bar in
    let sl_touched := _stop_loss_touched signal bar in
    match LifecycleState.status st with
    | SignalLifecycleStatus.WAITING =>
        entry_execution ← entry_execution_resolver signal bar previous_bar bar_close;
        let entry_executed := EntryExecutionEvidence.executed entry_execution in
        broken ← match structural_invalidation with
          | Some inv => invalidate_waiting inv st bar bar_close entry_executed
          | None => Ok None end;
        match broken with
        | Some st' => Ok st'
        | None =>
            if negb entry_executed then
              Ok (LifecycleState.mkLifecycleState (LifecycleState.status st) (LifecycleState.activated_at st) (LifecycleState.terminal_at st) bar_close
                    (LifecycleState.events st))
            else activate st bar bar_close entry_execution tp_touched sl_touched
        end
    | _ => resolve_exit st bar bar_close tp_touched sl_touched
    end.

(** The loop; every [break] of the code leaves a terminal status, at which the
    loop stops. *)
Fixpoint replay_bars (previous_bar : option Candle) (bars : list Candle) (st : LifecycleState) : pyres LifecycleState :=
  match bars with
  | [] => Ok st
  | bar :: rest =>
      if TERMINAL_STATUSES (LifecycleState.status st) then Ok st
      else st' ← bar_step previous_bar bar st; replay_bars (Some bar) rest st'
  end.

Definition replay_signal_lifecycle (candles : list Candle) : pyres SignalLifecycleResult :=
  _ ← Lifecycle_validate_inputs signal candles timeframe structural_invalidation;
  init ← replay_init;
  st ← replay_bars None candles init;
  validated SignalLifecycleResult.validate_status_timestamps
    (SignalLifecycleResult.mkSignalLifecycleResult (SignalLifecycleCandidate.signal_id signal)
      (LifecycleState.status st) (SignalLifecycleCandidate.created_at signal) (LifecycleState.activated_at st)
      (LifecycleState.terminal_at st) (LifecycleState.last_evaluated_at st) (LifecycleState.events st)).
End replay.
