(* ===== verification/LifecycleTheory.v ===== *)
(** Theorems on the signal lifecycle of [engines/signal/lifecycle.py]. *)
From Stdlib Require Import ZArith QArith Lia Lqa.
From stdpp Require Import base list strings numbers sets.
From S2P Require Import Prelude Decimal Time Candle Signal Lifecycle.
Local Open Scope Z_scope.

(** ** The state machine of a signal

    The transitions a signal may make, each with the event that records it. *)
Definition records (e : SignalLifecycleEvent) (ty : SignalLifecycleEventType) (s s' : SignalLifecycleStatus)
    (price : option dec) : Prop :=
  SignalLifecycleEvent.event_type e = ty /\ SignalLifecycleEvent.from_status e = Some s
  /\ SignalLifecycleEvent.to_status e = s' /\ SignalLifecycleEvent.price e = price.

Inductive transition (signal : SignalLifecycleCandidate) :
    SignalLifecycleStatus -> SignalLifecycleEvent -> SignalLifecycleStatus -> Prop :=
| cancelled e :
    records e SignalLifecycleEventType.CANCELLED SignalLifecycleStatus.WAITING SignalLifecycleStatus.CANCELLED None ->
    transition signal SignalLifecycleStatus.WAITING e SignalLifecycleStatus.CANCELLED
| activated e price :
    records e SignalLifecycleEventType.ACTIVATED SignalLifecycleStatus.WAITING SignalLifecycleStatus.ACTIVE (Some price) ->
    (0 < Qval price)%Q ->
    transition signal SignalLifecycleStatus.WAITING e SignalLifecycleStatus.ACTIVE
| undecided s e :
    s = SignalLifecycleStatus.WAITING \/ s = SignalLifecycleStatus.ACTIVE ->
    records e SignalLifecycleEventType.AMBIGUOUS s SignalLifecycleStatus.AMBIGUOUS None ->
    transition signal s e SignalLifecycleStatus.AMBIGUOUS
| target_hit e :
    records e SignalLifecycleEventType.TAKE_PROFIT_HIT SignalLifecycleStatus.ACTIVE SignalLifecycleStatus.TP_HIT
      (Some (SignalLifecycleCandidate.take_profit signal)) ->
    transition signal SignalLifecycleStatus.ACTIVE e SignalLifecycleStatus.TP_HIT
| stop_hit e :
    records e SignalLifecycleEventType.STOP_LOSS_HIT SignalLifecycleStatus.ACTIVE SignalLifecycleStatus.SL_HIT
      (Some (SignalLifecycleCandidate.stop_loss signal)) ->
    transition signal SignalLifecycleStatus.ACTIVE e SignalLifecycleStatus.SL_HIT.

(** Reachability, with the events of the run. *)
Inductive run (signal : SignalLifecycleCandidate) (s : SignalLifecycleStatus) :
    list SignalLifecycleEvent -> SignalLifecycleStatus -> Prop :=
| run_nil : run signal s [] s
| run_snoc es s' e s'' : run signal s es s' -> transition signal s' e s'' -> run signal s (es ++ [e]) s''.

Lemma transition_live signal s e s' : transition signal s e s' -> TERMINAL_STATUSES s = false.
Proof. destruct 1 as [| |? ? [-> | ->]| |]; done. Qed.

Lemma transition_not_waiting signal s e s' : transition signal s e s' -> s' <> SignalLifecycleStatus.WAITING.
Proof. by destruct 1. Qed.

Lemma run_waiting signal s es : run signal s es SignalLifecycleStatus.WAITING -> es = [].
Proof. inversion 1 as [|? ? ? ? ? Ht]; subst; [done|]. by apply transition_not_waiting in Ht. Qed.

(** Events in order of time, from [lo] to [hi]. *)
Fixpoint timed (lo : datetime) (es : list SignalLifecycleEvent) (hi : datetime) : Prop :=
  match es with
  | [] => lo <= hi
  | e :: es' => lo <= SignalLifecycleEvent.occurred_at e /\ timed (SignalLifecycleEvent.occurred_at e) es' hi
  end.

Lemma timed_app lo es e mid hi : timed lo es mid -> mid <= SignalLifecycleEvent.occurred_at e ->
  SignalLifecycleEvent.occurred_at e <= hi -> timed lo (es ++ [e]) hi.
Proof. revert lo; induction es as [|e' es IH]; cbn; [lia|]. intros lo [? ?]; auto. Qed.

Lemma timed_weaken lo es mid hi : timed lo es mid -> mid <= hi -> timed lo es hi.
Proof. revert lo; induction es as [|e' es IH]; cbn; [lia|]. intros lo [? ?]; eauto. Qed.

Lemma timed_le lo es hi : timed lo es hi -> lo <= hi.
Proof. revert lo; induction es as [|e es IH]; cbn; [done|]. intros lo [? ?%IH]. lia. Qed.

(** The instant of the activation and of the terminal event of a run. *)
Definition activation_of (es : list SignalLifecycleEvent) : option datetime :=
  head (map SignalLifecycleEvent.occurred_at
    (List.filter (fun e => bool_decide (SignalLifecycleEvent.event_type e = SignalLifecycleEventType.ACTIVATED)) es)).

Definition termination_of (s : SignalLifecycleStatus) (es : list SignalLifecycleEvent) : option datetime :=
  if TERMINAL_STATUSES s then SignalLifecycleEvent.occurred_at <$> list.last es else None.

(** What the replay state says at every bar: the events are a run of the
    machine, in order, and the three timestamps are read off it. *)
Record consistent (signal : SignalLifecycleCandidate) (st : LifecycleState) : Prop := {
  co_events : exists es, LifecycleState.events st = created_event signal :: es
    /\ run signal SignalLifecycleStatus.WAITING es (LifecycleState.status st)
    /\ timed (SignalLifecycleCandidate.created_at signal) es (LifecycleState.last_evaluated_at st)
    /\ LifecycleState.activated_at st = activation_of es
    /\ LifecycleState.terminal_at st = termination_of (LifecycleState.status st) es;
  co_valid : Forall (fun e => SignalLifecycleEvent.valid e = true) (LifecycleState.events st)
}.

(** In a consistent state the activation instant is present for exactly the
    statuses that need it. *)
Lemma run_activation signal es s : run signal SignalLifecycleStatus.WAITING es s ->
  match s with
  | SignalLifecycleStatus.WAITING | SignalLifecycleStatus.CANCELLED => activation_of es = None
  | SignalLifecycleStatus.AMBIGUOUS => True
  | _ => activation_of es <> None
  end.
Proof.
  induction 1 as [|es s e s' Hr IH Ht]; [done|]. unfold activation_of in *.
  rewrite List.filter_app, map_app. inversion Ht as [e' Hrec|e' p Hrec ?| |e' Hrec|e' Hrec]; subst;
    try done; destruct Hrec as (Hty & _); cbn; rewrite Hty; cbn.
  - by rewrite app_nil_r.
  - destruct (map _ _); cbn; done.
  - by rewrite app_nil_r.
  - by rewrite app_nil_r.
Qed.

Lemma run_termination signal es s : run signal SignalLifecycleStatus.WAITING es s ->
  is_some (termination_of s es) = TERMINAL_STATUSES s.
Proof.
  intros H. unfold termination_of. inversion H as [|es' s' e s'' Hr Ht]; subst; [done|].
  rewrite last_snoc. cbn. by destruct (TERMINAL_STATUSES s).
Qed.

Definition result_of (signal : SignalLifecycleCandidate) (st : LifecycleState) : SignalLifecycleResult :=
  SignalLifecycleResult.mkSignalLifecycleResult (SignalLifecycleCandidate.signal_id signal)
    (LifecycleState.status st) (SignalLifecycleCandidate.created_at signal) (LifecycleState.activated_at st)
    (LifecycleState.terminal_at st) (LifecycleState.last_evaluated_at st) (LifecycleState.events st).

Lemma consistent_valid signal st : consistent signal st ->
  SignalLifecycleResult.validate_status_timestamps (result_of signal st) = true.
Proof.
  intros [(es & Hev & Hr & _ & Ha & Ht) _].
  unfold SignalLifecycleResult.validate_status_timestamps, result_of. cbn.
  rewrite Hev, Ha, Ht, (run_termination _ _ _ Hr). apply run_activation in Hr.
  destruct (LifecycleState.status st), (activation_of es); done.
Qed.

(** Adding an event. *)
Lemma consistent_snoc signal st e s' a t la : consistent signal st ->
  transition signal (LifecycleState.status st) e s' -> SignalLifecycleEvent.valid e = true ->
  LifecycleState.last_evaluated_at st <= SignalLifecycleEvent.occurred_at e
    \/ LifecycleState.status st = SignalLifecycleStatus.WAITING
       /\ SignalLifecycleCandidate.created_at signal <= SignalLifecycleEvent.occurred_at e ->
  SignalLifecycleEvent.occurred_at e <= la ->
  a = match SignalLifecycleEvent.event_type e with
      | SignalLifecycleEventType.ACTIVATED => Some (SignalLifecycleEvent.occurred_at e)
      | _ => LifecycleState.activated_at st end ->
  t = (if TERMINAL_STATUSES s' then Some (SignalLifecycleEvent.occurred_at e) else None) ->
  consistent signal (LifecycleState.mkLifecycleState s' a t la (LifecycleState.events st ++ [e])).
Proof.
  intros [(es & Hev & Hr & Hti & Ha & Ht) Hv] Htr Hve Hocc Hla -> ->. constructor; cbn.
  - exists (es ++ [e]). split_and!.
    + by rewrite Hev.
    + by eapply run_snoc.
    + destruct Hocc as [Hocc | [Hw Hocc]]; [eapply timed_app; [done|lia..]|].
      rewrite Hw in Hr. apply run_waiting in Hr as ->. cbn. lia.
    + rewrite Ha. unfold activation_of. rewrite List.filter_app, map_app. cbn.
      remember (LifecycleState.status st) as s eqn:Hs.
      destruct Htr as [e Hrec|e p Hrec ?|s e ? Hrec|e Hrec|e Hrec];
        destruct Hrec as (Hty & _); rewrite Hty; cbn; rewrite ?app_nil_r; try done.
      by apply run_waiting in Hr as ->.
    + unfold termination_of. by rewrite last_snoc.
  - apply Forall_app. split; [done|by constructor].
Qed.

(** ** The reference outcome

    The outcome of a signal read off the bars directly: the first bar, of those
    that open at or after the creation of the signal, whose close sees the
    invalidation or whose evidence executes the entry, and the first bar from
    there on that touches an exit. *)
Definition fate : Type := SignalLifecycleStatus * option datetime * option datetime.

Definition fate_of (st : LifecycleState) : fate := (LifecycleState.status st, LifecycleState.activated_at st, LifecycleState.terminal_at st).

Section reference.
Context (signal : SignalLifecycleCandidate) (timeframe : Timeframe) (config : SignalLifecycleConfig).
Context (inv : option StructuralInvalidation).

Definition close_of (bar : Candle) : datetime := Candle.timestamp bar + timeframe_duration timeframe.
Definition touched (bar : Candle) : bool := _take_profit_touched signal bar || _stop_loss_touched signal bar.

Definition invalidated_by (t : datetime) : bool :=
  match inv with Some i => StructuralInvalidation.confirmed_at i <=? t | None => false end.

(** The status an active trade leaves a touching bar with. *)
Definition exit_status (bar : Candle) : SignalLifecycleStatus :=
  if _take_profit_touched signal bar && _stop_loss_touched signal bar then
    match SignalLifecycleConfig.same_candle_policy config with
    | SameCandlePolicy.CONSERVATIVE_STOP_FIRST => SignalLifecycleStatus.SL_HIT
    | SameCandlePolicy.AMBIGUOUS => SignalLifecycleStatus.AMBIGUOUS
    end
  else if _take_profit_touched signal bar then SignalLifecycleStatus.TP_HIT else SignalLifecycleStatus.SL_HIT.

(** The fate of a trade active since [at_]: the first touching bar decides. *)
Definition active_fate (at_ : datetime) (bars : list Candle) : fate :=
  match head (List.filter touched bars) with
  | Some bar => (exit_status bar, Some at_, Some (close_of bar))
  | None => (SignalLifecycleStatus.ACTIVE, Some at_, None)
  end.

Definition cancelled_fate : fate :=
  (SignalLifecycleStatus.CANCELLED, None, StructuralInvalidation.confirmed_at <$> inv).

(** [entry] is the execution instant the evidence of a bar gives, if it
    executes. *)
Fixpoint waiting_fate (entry : option Candle -> Candle -> option datetime)
    (live : list (option Candle * Candle)) : fate :=
  match live with
  | [] => (SignalLifecycleStatus.WAITING, None, None)
  | (previous, bar) :: rest =>
      if invalidated_by (Candle.timestamp bar) then cancelled_fate
      else if invalidated_by (close_of bar) then
        if is_some (entry previous bar)
        then (SignalLifecycleStatus.AMBIGUOUS, None, Some (close_of bar)) else cancelled_fate
      else match entry previous bar with
      | None => waiting_fate entry rest
      | Some at_ =>
          if touched bar && negb (at_ =? Candle.timestamp bar)
          then (SignalLifecycleStatus.AMBIGUOUS, Some at_, Some (close_of bar))
          else active_fate at_ (bar :: map snd rest)
      end
  end.

(** The bars, with the bar before each, and those that count. *)
Definition with_previous (previous : option Candle) (candles : list Candle) : list (option Candle * Candle) :=
  zip (previous :: map Some candles) candles.

Definition live_bars (previous : option Candle) (candles : list Candle) : list (option Candle * Candle) :=
  List.filter (fun pb => SignalLifecycleCandidate.created_at signal <=? Candle.timestamp pb.2)
    (with_previous previous candles).

Definition reference_fate (entry : option Candle -> Candle -> option datetime) (candles : list Candle) : fate :=
  if invalidated_by (SignalLifecycleCandidate.created_at signal) then cancelled_fate
  else waiting_fate entry (live_bars None candles).
End reference.

Lemma exit_status_terminal signal config bar : TERMINAL_STATUSES (exit_status signal config bar) = true.
Proof.
  unfold exit_status. destruct (_take_profit_touched signal bar), (_stop_loss_touched signal bar),
    (SignalLifecycleConfig.same_candle_policy config); done.
Qed.

(** ** Every step keeps the state consistent *)

(** The facts the constructors of the arguments establish. *)
Record lifecycle_inputs (signal : SignalLifecycleCandidate) (inv : option StructuralInvalidation) : Prop := {
  li_signal : SignalLifecycleCandidate.validate_trade_levels signal = true;
  li_inv : forall i, inv = Some i ->
    SignalLifecycleCandidate.created_at signal <= StructuralInvalidation.confirmed_at i
}.

Lemma candidate_prices signal : SignalLifecycleCandidate.validate_trade_levels signal = true ->
  dltb (D 0) (SignalLifecycleCandidate.take_profit signal) = true
  /\ dltb (D 0) (SignalLifecycleCandidate.stop_loss signal) = true.
Proof. unfold SignalLifecycleCandidate.validate_trade_levels. intros H. by bool_hyps. Qed.

Lemma nonempty_app c s1 s2 : nonempty (String c s1 +:+ s2) = true.
Proof. done. Qed.

Lemma invalidation_event_ok inv s bar_ts : _invalidation_event inv s bar_ts =
  Ok (SignalLifecycleEvent.mkSignalLifecycleEvent
    SignalLifecycleEventType.CANCELLED (Some s) SignalLifecycleStatus.CANCELLED
    (StructuralInvalidation.confirmed_at inv) bar_ts None
    SignalLifecycleReasonCode.STRUCTURAL_INVALIDATION_BEFORE_ENTRY
    ("Structure invalidated before activation: " +:+ StructuralInvalidation.reason inv
     +:+ " (source=" +:+ StructuralInvalidation.source_structure inv +:+ ").")).
Proof. reflexivity. Qed.

Section steps.
Context (signal : SignalLifecycleCandidate) (timeframe : Timeframe) (config : SignalLifecycleConfig).
Context (resolve : EntryExecutionResolver) `{HR : !EntryResolver resolve}.
Context (inv : option StructuralInvalidation) (HI : lifecycle_inputs signal inv).

Let good (hi : datetime) (st : LifecycleState) : Prop :=
  consistent signal st /\ LifecycleState.last_evaluated_at st <= hi.

Lemma replay_init_ok : exists st, replay_init signal inv = Ok st /\ consistent signal st
  /\ LifecycleState.last_evaluated_at st = SignalLifecycleCandidate.created_at signal
  /\ LifecycleState.status st = match inv with
       | Some i => if StructuralInvalidation.confirmed_at i =? SignalLifecycleCandidate.created_at signal
                   then SignalLifecycleStatus.CANCELLED else SignalLifecycleStatus.WAITING
       | None => SignalLifecycleStatus.WAITING end
  /\ LifecycleState.activated_at st = None
  /\ LifecycleState.terminal_at st = match inv with
       | Some i => if StructuralInvalidation.confirmed_at i =? SignalLifecycleCandidate.created_at signal
                   then Some (StructuralInvalidation.confirmed_at i) else None
       | None => None end.
Proof.
  clear HI. unfold replay_init. change (validated _ _) with (Ok (created_event signal)). cbn [mbind pyres_bind].
  assert (consistent signal (LifecycleState.mkLifecycleState SignalLifecycleStatus.WAITING None None
    (SignalLifecycleCandidate.created_at signal) [created_event signal])) as H0.
  { constructor; cbn; [|by repeat constructor]. exists []. split_and!; cbn; try done. apply run_nil. }
  destruct inv as [i|]; [destruct (Z.eqb_spec (StructuralInvalidation.confirmed_at i) (SignalLifecycleCandidate.created_at signal)) as [E|E]|];
    [rewrite invalidation_event_ok; cbn [mbind pyres_bind]|..]; eexists; (split; [reflexivity|]);
    (split; [|done]); try done.
  apply (consistent_snoc _ _ _ _ _ _ _ H0); cbn; try done; try lia. by apply cancelled.
Qed.

Lemma invalidate_waiting_ok i st bar close executed :
  SignalLifecycleCandidate.created_at signal <= StructuralInvalidation.confirmed_at i ->
  consistent signal st -> LifecycleState.status st = SignalLifecycleStatus.WAITING ->
  LifecycleState.activated_at st = None ->
  LifecycleState.last_evaluated_at st <= Candle.timestamp bar <= close ->
  exists r, invalidate_waiting i st bar close executed = Ok r /\
    match r with
    | Some st' => good close st' /\ StructuralInvalidation.confirmed_at i <= close
        /\ fate_of st' = (if invalidated_by (Some i) (Candle.timestamp bar) then cancelled_fate (Some i)
             else if executed then (SignalLifecycleStatus.AMBIGUOUS, None, Some close) else cancelled_fate (Some i))
    | None => close < StructuralInvalidation.confirmed_at i
    end.
Proof.
  intros Hi Hc Hw Ha Hla.
  unfold invalidate_waiting. rewrite !invalidation_event_ok. cbn [mbind pyres_bind].
  unfold invalidated_by, cancelled_fate, fate_of. cbn [fmap option_fmap option_map].
  destruct (Z.leb_spec (StructuralInvalidation.confirmed_at i) (Candle.timestamp bar)).
  - eexists. split; [done|]. cbn. rewrite Ha. split_and!; try done; [split; cbn|]; try lia.
    apply consistent_snoc; cbn; try done; try lia; [|auto]. rewrite Hw. by apply cancelled.
  - destruct (Z.leb_spec (StructuralInvalidation.confirmed_at i) close); [|by eexists].
    destruct executed; cbn [validated]; eexists; (split; [reflexivity|]); cbn; rewrite Ha;
      (split_and!; try done; split; cbn; try lia); apply consistent_snoc; cbn; try done; try lia; auto; rewrite Hw.
    + apply undecided; [by left | done].
    + by apply cancelled.
Qed.

Lemma resolve_exit_ok st bar close :
  let tp := _take_profit_touched signal bar in let sl := _stop_loss_touched signal bar in
  consistent signal st -> LifecycleState.status st = SignalLifecycleStatus.ACTIVE ->
  LifecycleState.last_evaluated_at st <= close ->
  exists st', resolve_exit signal config st bar close tp sl = Ok st' /\ good close st'
    /\ LifecycleState.activated_at st' = LifecycleState.activated_at st
    /\ (LifecycleState.status st', LifecycleState.terminal_at st') =
       (if tp || sl then exit_status signal config bar else SignalLifecycleStatus.ACTIVE,
        if tp || sl then Some close else None).
Proof.
  intros tp sl Hc Ha Hla. destruct (candidate_prices _ (li_signal _ _ HI)) as [Htp Hsl].
  assert (LifecycleState.terminal_at st = None) as Hterm.
  { destruct Hc as [(es & _ & _ & _ & _ & ->) _]. by rewrite Ha. }
  unfold exit_status. fold tp sl. clearbody tp sl.
  unfold resolve_exit, _exit_event, validated, SignalLifecycleEvent.valid. cbn [SignalLifecycleEvent.price opt_positive].
  rewrite Htp, Hsl. cbn.
  destruct tp, sl; cbn; [destruct (SignalLifecycleConfig.same_candle_policy config)|..];
    eexists; (split; [reflexivity|]); cbn; rewrite ?Ha; (split; [split; [|cbn; lia]|by rewrite ?Ha, ?Hterm]).
  5: { destruct st as [s a t la es]. cbn in *. subst. destruct Hc as [(es' & ? & ? & ? & ? & ?) Hv].
       constructor; cbn in *; [|done]. exists es'. split_and!; try done. eauto using timed_weaken. }
  all: apply consistent_snoc; cbn; try done; try lia; auto; rewrite ?Ha;
    unfold SignalLifecycleEvent.valid; cbn; rewrite ?Htp, ?Hsl; try done.
  - apply undecided; [by right | done].
  - by apply stop_hit.
  - by apply target_hit.
  - by apply stop_hit.
Qed.

Lemma activate_ok st bar evidence a p : let close := close_of timeframe bar in
  consistent signal st -> LifecycleState.status st = SignalLifecycleStatus.WAITING ->
  SignalLifecycleCandidate.created_at signal <= Candle.timestamp bar ->
  LifecycleState.last_evaluated_at st <= Candle.timestamp bar ->
  LifecycleState.terminal_at st = None ->
  EntryExecutionEvidence.executed_at evidence = Some a ->
  EntryExecutionEvidence.executed_entry_price evidence = Some p ->
  a = Candle.timestamp bar \/ a = close -> (0 < Qval p)%Q ->
  exists st', activate signal config st bar close evidence (_take_profit_touched signal bar) (_stop_loss_touched signal bar) = Ok st'
    /\ good close st'
    /\ fate_of st' = (if touched signal bar && negb (a =? Candle.timestamp bar)
          then (SignalLifecycleStatus.AMBIGUOUS, Some a, Some close)
          else active_fate signal timeframe config a [bar]).
Proof.
  intros close Hc Hw Hcr Hla Hterm Ha Hp Hat Hpos. pose proof (timeframe_duration_pos timeframe) as Hd.
  assert (Candle.timestamp bar < close) by (unfold close, close_of; lia).
  assert (dltb (D 0) p = true) as Hp' by (dec_to_Q; rewrite Qval_D0; lra).
  unfold activate. rewrite Ha, Hp.
  set (ev := SignalLifecycleEvent.mkSignalLifecycleEvent SignalLifecycleEventType.ACTIVATED _ _ _ _ _ _ _).
  assert (validated SignalLifecycleEvent.valid ev = Ok ev) as ->.
  { apply validated_ok. split; [|done]. unfold SignalLifecycleEvent.valid, ev. cbn [SignalLifecycleEvent.price opt_positive].
    by rewrite Hp'. }
  cbn [mbind pyres_bind].
  set (active := LifecycleState.mkLifecycleState SignalLifecycleStatus.ACTIVE _ _ _ _).
  assert (consistent signal active) as Hac.
  { apply consistent_snoc; cbn; try done; try lia.
    - rewrite Hw. by apply (activated _ _ p).
    - unfold SignalLifecycleEvent.valid. cbn. by rewrite Hp'. }
  unfold active_fate. cbn [List.filter head]. unfold touched.
  destruct (_take_profit_touched signal bar || _stop_loss_touched signal bar) eqn:Ht; cbn [andb negb].
  - destruct (Z.eqb_spec a (Candle.timestamp bar)) as [->|Hne]; cbn [negb].
    + destruct (resolve_exit_ok active bar close) as (st' & -> & Hg & Ha' & Hf); [done|done|cbn; lia|].
      exists st'. split_and!; try done. unfold fate_of. rewrite Ht in Hf. cbn in Hf |- *. injection Hf as -> ->.
      by rewrite Ha'.
    + eexists. split; [reflexivity|]. split; [|done]. split; [|cbn; lia].
      apply consistent_snoc; cbn; try done; try lia. apply undecided; [by right | done].
  - eexists. split; [reflexivity|]. split; [split; [done | cbn; lia]|]. unfold fate_of. cbn. by rewrite Hterm.
Qed.

(** One bar of a waiting signal, given the evidence of the resolver. *)
Lemma bar_waiting st previous bar evidence : let close := close_of timeframe bar in
  consistent signal st -> LifecycleState.status st = SignalLifecycleStatus.WAITING ->
  SignalLifecycleCandidate.created_at signal <= Candle.timestamp bar ->
  LifecycleState.last_evaluated_at st <= Candle.timestamp bar ->
  resolve signal bar previous close = Ok evidence ->
  exists st', bar_step signal timeframe config resolve inv previous bar st = Ok st' /\ good close st'
    /\ forall entry, entry previous bar = (if EntryExecutionEvidence.executed evidence
                                          then EntryExecutionEvidence.executed_at evidence else None) ->
       fate_of st' = waiting_fate signal timeframe config inv entry [(previous, bar)].
Proof.
  intros close Hc Hw Hcr Hla Hev. pose proof (timeframe_duration_pos timeframe) as Hd.
  assert (Candle.timestamp bar < close) by (unfold close, close_of; lia).
  assert (LifecycleState.activated_at st = None /\ LifecycleState.terminal_at st = None) as [Hact Hterm].
  { destruct Hc as [(es & _ & Hr & _ & -> & ->) _]. rewrite Hw in Hr |- *. by apply run_waiting in Hr as ->. }
  unfold bar_step. destruct (Z.ltb_spec (Candle.timestamp bar) (SignalLifecycleCandidate.created_at signal)); [lia|].
  rewrite Hw. fold (close_of timeframe bar) close. rewrite Hev. cbn [mbind pyres_bind].
  assert (exists broken, match inv with
      | Some i => invalidate_waiting i st bar close (EntryExecutionEvidence.executed evidence)
      | None => Ok None end = Ok broken /\
    match broken with
    | Some st' => good close st' /\ invalidated_by inv close = true
        /\ fate_of st' = (if invalidated_by inv (Candle.timestamp bar) then cancelled_fate inv
             else if EntryExecutionEvidence.executed evidence
             then (SignalLifecycleStatus.AMBIGUOUS, None, Some close) else cancelled_fate inv)
    | None => invalidated_by inv close = false
    end) as (broken & -> & Hb).
  { pose proof (li_inv _ _ HI) as Hli. clear HI. destruct inv as [i|]; [|by exists None].
    destruct (invalidate_waiting_ok i st bar close (EntryExecutionEvidence.executed evidence)) as (r & -> & Hr); auto; [lia|].
    exists r. split; [done|]. unfold invalidated_by in *.
    destruct r as [st'|]; [|lia]. destruct Hr as (? & ? & ?). split_and!; try done. lia. }
  cbn [mbind pyres_bind].
  destruct broken as [st'|].
  - destruct Hb as (Hg & Hinv & Hf). exists st'. split_and!; try done. intros entry He.
    cbn [waiting_fate]. fold close. rewrite Hf, Hinv, He.
    destruct (EntryExecutionEvidence.executed evidence) eqn:Hex; [|done].
    destruct (resolver_evidence _ _ _ _ _ Hev Hex) as (a & p & -> & _). done.
  - assert (invalidated_by inv (Candle.timestamp bar) = false) as Hts.
    { unfold invalidated_by in *. destruct inv; [lia | done]. }
    destruct (EntryExecutionEvidence.executed evidence) eqn:Hex; cbn [negb].
    + destruct (resolver_evidence _ _ _ _ _ Hev Hex) as (a & p & Ha & Hp & Hat & Hpos).
      destruct (activate_ok st bar evidence a p) as (st' & Hst & Hg & Hf); try done.
      exists st'. split; [exact Hst|]. split; [done|].
      intros entry He. cbn [waiting_fate]. fold close. rewrite Hf, Hts, Hb, He, Ha. done.
    + eexists. split; [done|]. split.
      * split; [|cbn; lia]. destruct st as [s x t la es]. cbn in *. subst.
        destruct Hc as [(es' & ? & ? & ? & ? & ?) Hv]. constructor; cbn in *; [|done].
        exists es'. split_and!; try done. eapply timed_weaken; [done|lia].
      * intros entry He. unfold fate_of. cbn. fold close. by rewrite Hts, Hb, He, Hact, Hterm.
Qed.
End steps.

(** ** The loop *)

Section loop.
Context (signal : SignalLifecycleCandidate) (timeframe : Timeframe) (config : SignalLifecycleConfig).
Context (resolve : EntryExecutionResolver) `{HR : !EntryResolver resolve}.
Context (inv : option StructuralInvalidation) (HI : lifecycle_inputs signal inv).

(** The instant up to which a bar may find the state evaluated. *)
Definition horizon (bar : Candle) : datetime :=
  Z.max (SignalLifecycleCandidate.created_at signal) (Candle.timestamp bar).

(** An exception of a bar is an exception of the callback. *)
Definition resolver_error (candles : list Candle) (e : pyexc) : Prop :=
  exists previous bar, bar ∈ candles
    /\ SignalLifecycleCandidate.created_at signal <= Candle.timestamp bar
    /\ resolve signal bar previous (close_of timeframe bar) = Raise e.

Lemma bar_step_ok previous bar st :
  consistent signal st -> TERMINAL_STATUSES (LifecycleState.status st) = false ->
  LifecycleState.last_evaluated_at st <= horizon bar ->
  outcome (fun st' => consistent signal st'
             /\ LifecycleState.last_evaluated_at st' <= Z.max (SignalLifecycleCandidate.created_at signal) (close_of timeframe bar))
          (resolver_error [bar])
          (bar_step signal timeframe config resolve inv previous bar st).
Proof.
  intros Hc Ht Hla. pose proof (timeframe_duration_pos timeframe) as Hd. unfold horizon in Hla.
  assert (Candle.timestamp bar < close_of timeframe bar) by (unfold close_of; lia).
  destruct (Z.ltb_spec (Candle.timestamp bar) (SignalLifecycleCandidate.created_at signal)) as [Hlt|Hge].
  { unfold bar_step. rewrite (proj2 (Z.ltb_lt _ _) Hlt). cbn. split; [done | lia]. }
  destruct (LifecycleState.status st) eqn:Hs; try done.
  - destruct (resolve signal bar previous (close_of timeframe bar)) as [evidence|e] eqn:Hev.
    + destruct (bar_waiting signal timeframe config resolve inv HI st previous bar evidence)
        as (st' & -> & [? ?] & _); try done; [lia|]. cbn. split; [done | lia].
    + unfold bar_step. rewrite (proj2 (Z.ltb_ge _ _) Hge), Hs. fold (close_of timeframe bar). rewrite Hev. cbn.
      exists previous, bar. split_and!; [constructor|done..].
  - unfold bar_step. rewrite (proj2 (Z.ltb_ge _ _) Hge), Hs. fold (close_of timeframe bar).
    destruct (resolve_exit_ok signal config inv HI st bar (close_of timeframe bar))
      as (st' & -> & [? ?] & _); [done|done|lia|]. cbn. split; [done | lia].
Qed.

Lemma evenly_spaced_tail bar bars : evenly_spaced timeframe (bar :: bars) -> evenly_spaced timeframe bars.
Proof. intros H i c d Hc Hd. apply (H (S i)); done. Qed.

Lemma next_horizon bar bars : evenly_spaced timeframe (bar :: bars) ->
  match bars with
  | next :: _ => Candle.timestamp next = close_of timeframe bar
  | [] => True end.
Proof. intros H. destruct bars as [|next bars]; [done|]. apply (H 0%nat); done. Qed.

Lemma replay_bars_ok bars previous st : evenly_spaced timeframe bars ->
  consistent signal st ->
  (forall bar rest, bars = bar :: rest -> LifecycleState.last_evaluated_at st <= horizon bar) ->
  outcome (consistent signal) (resolver_error bars)
          (replay_bars signal timeframe config resolve inv previous bars st).
Proof.
  revert previous st. induction bars as [|bar bars IH]; intros previous st He Hc Hla; cbn [replay_bars]; [done|].
  destruct (TERMINAL_STATUSES (LifecycleState.status st)) eqn:Ht; [done|].
  eapply outcome_bind.
  - eapply outcome_weaken; [apply bar_step_ok; eauto|intros ? H; exact H|].
    intros e (p & b & Hb & ? & ?). exists p, b. split_and!; try done. set_solver.
  - intros st' _ [Hc' Hla']. pose proof (next_horizon _ _ He) as Hn.
    eapply outcome_weaken; [apply IH; [by eapply evenly_spaced_tail|done|]|done|].
    + intros next rest ->. unfold horizon. lia.
    + intros e (p & b & Hb & ? & ?). exists p, b. split_and!; try done. by constructor.
Qed.

(** A terminal state is left alone. *)
Lemma replay_bars_terminal bars previous st : TERMINAL_STATUSES (LifecycleState.status st) = true ->
  replay_bars signal timeframe config resolve inv previous bars st = Ok st.
Proof. intros H. destruct bars; cbn [replay_bars]; [done|]. by rewrite H. Qed.

Lemma replay_bars_app bars1 bars2 previous st :
  replay_bars signal timeframe config resolve inv previous (bars1 ++ bars2) st =
  (replay_bars signal timeframe config resolve inv previous bars1 st ≫=
   replay_bars signal timeframe config resolve inv
     (match list.last bars1 with Some b => Some b | None => previous end) bars2).
Proof.
  revert previous st. induction bars1 as [|bar bars1 IH]; intros previous st; [done|].
  cbn [app replay_bars]. destruct (TERMINAL_STATUSES (LifecycleState.status st)) eqn:Ht.
  - cbn [mbind pyres_bind]. by rewrite replay_bars_terminal.
  - destruct (bar_step _ _ _ _ _ _ _ _) as [st'|e]; cbn [mbind pyres_bind]; [|done].
    rewrite IH. destruct bars1 as [|b bars1]; [done|].
    change (list.last (bar :: b :: bars1)) with (list.last (b :: bars1)).
    destruct (list.last (b :: bars1)) eqn:E; [done|]. by apply last_None in E.
Qed.

(** ** The loop computes the reference outcome *)

Lemma live_bars_cons previous bar bars : live_bars signal previous (bar :: bars) =
  (if SignalLifecycleCandidate.created_at signal <=? Candle.timestamp bar then [(previous, bar)] else [])
    ++ live_bars signal (Some bar) bars.
Proof. unfold live_bars. cbn. by destruct (_ <=? _). Qed.

Lemma later_live bars previous bar : evenly_spaced timeframe (bar :: bars) ->
  SignalLifecycleCandidate.created_at signal <= Candle.timestamp bar ->
  map snd (live_bars signal previous bars) = bars.
Proof.
  intros He Hc. revert previous bar He Hc. induction bars as [|b bars IH]; intros previous bar He Hc; [done|].
  assert (Candle.timestamp b = close_of timeframe bar) as Hb by (apply (He 0%nat); done).
  pose proof (timeframe_duration_pos timeframe). unfold close_of in Hb.
  rewrite live_bars_cons. rewrite (proj2 (Z.leb_le _ _)) by lia. cbn. f_equal.
  apply (IH _ b); [by eapply evenly_spaced_tail | lia].
Qed.

Lemma active_loop bars previous st a : evenly_spaced timeframe bars ->
  consistent signal st -> LifecycleState.status st = SignalLifecycleStatus.ACTIVE -> LifecycleState.activated_at st = Some a ->
  (forall bar rest, bars = bar :: rest -> LifecycleState.last_evaluated_at st <= Candle.timestamp bar
     /\ SignalLifecycleCandidate.created_at signal <= Candle.timestamp bar) ->
  exists st', replay_bars signal timeframe config resolve inv previous bars st = Ok st'
    /\ fate_of st' = active_fate signal timeframe config a bars.
Proof.
  revert previous st. induction bars as [|bar bars IH]; intros previous st He Hc Hs Ha Hla; cbn [replay_bars].
  { exists st. split; [done|]. unfold fate_of. rewrite Hs, Ha.
    destruct Hc as [(es & _ & _ & _ & _ & ->) _]. by rewrite Hs. }
  destruct (Hla _ _ eq_refl) as [H1 H2]. pose proof (timeframe_duration_pos timeframe) as Hd.
  rewrite Hs. cbn [TERMINAL_STATUSES]. unfold bar_step at 1. rewrite (proj2 (Z.ltb_ge _ _) H2), Hs.
  fold (close_of timeframe bar).
  destruct (resolve_exit_ok signal config inv HI st bar (close_of timeframe bar))
    as (st' & -> & [Hc' Hla'] & Ha' & Hf); [done|done|unfold close_of; lia|]. cbn [mbind pyres_bind].
  unfold active_fate. cbn [List.filter head]. unfold touched at 1.
  destruct (_ || _); injection Hf as Hs' Ht'.
  - exists st'. rewrite replay_bars_terminal.
    + split; [done|]. unfold fate_of. by rewrite Hs', Ht', Ha', Ha.
    + rewrite Hs'. apply exit_status_terminal.
  - apply IH; [by eapply evenly_spaced_tail|done|done|by rewrite Ha'|].
    intros next rest ->. apply next_horizon in He. unfold close_of in *. lia.
Qed.

Lemma waiting_loop entry bars previous st : evenly_spaced timeframe bars ->
  consistent signal st -> LifecycleState.status st = SignalLifecycleStatus.WAITING ->
  (forall bar rest, bars = bar :: rest -> LifecycleState.last_evaluated_at st <= horizon bar) ->
  (forall previous' bar, (previous', bar) ∈ with_previous previous bars -> exists evidence,
     resolve signal bar previous' (close_of timeframe bar) = Ok evidence
     /\ entry previous' bar = (if EntryExecutionEvidence.executed evidence
                              then EntryExecutionEvidence.executed_at evidence else None)) ->
  exists st', replay_bars signal timeframe config resolve inv previous bars st = Ok st'
    /\ fate_of st' = waiting_fate signal timeframe config inv entry (live_bars signal previous bars).
Proof.
  revert previous st. induction bars as [|bar bars IH]; intros previous st He Hc Hs Hla Hent; cbn [replay_bars].
  { exists st. split; [done|]. unfold fate_of. destruct Hc as [(es & _ & Hr & _ & -> & ->) _].
    rewrite Hs in Hr |- *. by apply run_waiting in Hr as ->. }
  specialize (Hla _ _ eq_refl). unfold horizon in Hla. pose proof (timeframe_duration_pos timeframe) as Hd.
  pose proof (next_horizon _ _ He) as Hn. pose proof (evenly_spaced_tail _ _ He) as He'.
  rewrite Hs. cbn [TERMINAL_STATUSES]. rewrite live_bars_cons.
  destruct (Z.leb_spec (SignalLifecycleCandidate.created_at signal) (Candle.timestamp bar)) as [Hcr|Hcr].
  2: { unfold bar_step at 1. rewrite (proj2 (Z.ltb_lt _ _) Hcr). apply IH; try done.
       - intros next rest ->. unfold horizon, close_of in *. lia.
       - intros p b Hb. apply Hent. by right. }
  destruct (Hent previous bar) as (evidence & Hev & Hentry); [constructor|].
  destruct (bar_waiting signal timeframe config resolve inv HI st previous bar evidence)
    as (st' & -> & [Hc' Hla'] & Hf); try done; [lia|]. specialize (Hf entry Hentry). cbn [mbind pyres_bind app].
  cbn [waiting_fate] in Hf |- *. unfold cancelled_fate in *.
  repeat (match goal with |- context [if invalidated_by ?i ?t then _ else _] => destruct (invalidated_by i t) end);
    [rewrite replay_bars_terminal by (injection Hf as ->; done); eauto..| |].
  { destruct (is_some _); rewrite replay_bars_terminal by (injection Hf as ->; done); eauto. }
  destruct (entry previous bar) as [a|].
  - rewrite (later_live _ _ bar) by done. destruct (touched signal bar) eqn:Ht; cbn [andb] in Hf |- *.
    + destruct (a =? Candle.timestamp bar); cbn [negb] in Hf |- *.
      * unfold active_fate in *. cbn [List.filter] in Hf |- *. rewrite Ht in Hf |- *. cbn [head] in *.
        exists st'. split; [|done]. apply replay_bars_terminal. injection Hf as -> _ _.
        apply exit_status_terminal.
      * rewrite replay_bars_terminal by (injection Hf as ->; done); eauto.
    + unfold active_fate in *. cbn [List.filter] in Hf |- *. rewrite Ht in Hf |- *. cbn [head] in Hf.
      injection Hf as Hs' Ha' Ht'. apply (active_loop bars (Some bar) st' a); try done.
      intros next rest ->. unfold close_of in *. lia.
  - injection Hf as Hs' Ha' Ht'. apply IH; try done.
    + intros next rest ->. unfold horizon, close_of in *. lia.
    + intros p b Hb. apply Hent. by right.
Qed.
End loop.

(** ** The properties *)

Lemma validate_inputs_ok signal candles timeframe inv :
  Lifecycle_validate_inputs signal candles timeframe inv = Ok tt <->
  evenly_spaced timeframe candles
  /\ (forall i, inv = Some i -> SignalLifecycleCandidate.created_at signal <= StructuralInvalidation.confirmed_at i).
Proof.
  unfold Lifecycle_validate_inputs. rewrite bind_ok. split.
  - intros ([] & H1%validate_spacing_ok & H2%raise_if_ok). split; [done|]. intros i ->. lia.
  - intros [H1 H2]. exists tt. rewrite validate_spacing_ok, raise_if_ok. split; [done|].
    destruct inv as [i|]; [|done]. specialize (H2 i eq_refl). lia.
Qed.

Lemma validate_inputs_error signal candles timeframe inv e :
  Lifecycle_validate_inputs signal candles timeframe inv = Raise e ->
  exists msg, e = Exc "SignalLifecycleInputError" msg.
Proof.
  unfold Lifecycle_validate_inputs, validate_spacing.
  assert (forall l, match py_for (fun '(previous, current) =>
      let actual_delta := Candle.timestamp current - Candle.timestamp previous in
      _ ← raise_if (actual_delta <=? 0)
            (Exc "SignalLifecycleInputError" "candles must have unique timestamps in ascending order");
      raise_if (negb (actual_delta =? timeframe_duration timeframe))
        (Exc "SignalLifecycleInputError" "candle sequence contains a timeframe gap")) l with
    | Raise e => exists msg, e = Exc "SignalLifecycleInputError" msg | Ok _ => True end) as H.
  { induction l as [|[p c] l IH]; cbn; [done|].
    destruct (_ <=? 0); cbn; [eauto|]. destruct (negb _); cbn; [eauto | done]. }
  specialize (H (pairwise candles)). destruct (py_for _ _) as [[]|e']; cbn; [|intros [= <-]; done].
  destruct inv as [i|]; [|done]. destruct (_ <? _); cbn; [|done]. intros [= <-]. eauto.
Qed.

(** The code's result, from the state the loop ends in. *)
Lemma replay_result signal timeframe config resolve `{!EntryResolver resolve} inv candles :
  SignalLifecycleCandidate.validate_trade_levels signal = true ->
  Lifecycle_validate_inputs signal candles timeframe inv = Ok tt ->
  exists init, replay_init signal inv = Ok init /\ consistent signal init
    /\ (forall bar rest, candles = bar :: rest -> LifecycleState.last_evaluated_at init <= horizon signal bar)
    /\ outcome (consistent signal) (resolver_error signal timeframe resolve candles)
         (replay_bars signal timeframe config resolve inv None candles init)
    /\ replay_signal_lifecycle signal timeframe config resolve inv candles =
       (st ← replay_bars signal timeframe config resolve inv None candles init; Ok (result_of signal st)).
Proof.
  intros Hv Hin. pose proof (proj1 (validate_inputs_ok _ _ _ _) Hin) as [He Hi].
  assert (lifecycle_inputs signal inv) as HI by (by constructor).
  destruct (replay_init_ok signal inv) as (init & Hinit & Hc & Hla & _).
  assert (forall bar rest, candles = bar :: rest -> LifecycleState.last_evaluated_at init <= horizon signal bar) as Hh.
  { intros bar rest ->. rewrite Hla. unfold horizon. lia. }
  exists init. pose proof (replay_bars_ok signal timeframe config resolve inv HI candles None init He Hc Hh) as Ho.
  split_and!; try done. unfold replay_signal_lifecycle. rewrite Hin, Hinit. cbn [mbind pyres_bind].
  destruct (replay_bars _ _ _ _ _ _ _ _) as [st|e]; [|done]. cbn [mbind pyres_bind].
  apply validated_ok. split; [by apply consistent_valid | done].
Qed.

(** C29. The lifecycle replay is total and its result is a run of the state
    machine. For a valid signal and a callback that keeps its contract the
    replay either fails its input checks with [SignalLifecycleInputError], or
    passes on an exception the callback itself raised on a bar that opens at
    or after the creation, or returns a result that passes its schema: no
    assertion, event or result can fail. The events of the result are the
    creation followed by a run of allowed transitions from WAITING to the
    final status, so nothing follows a terminal status; each is a valid event,
    they are in order of time and not after [last_evaluated_at]; and
    [activated_at] and [terminal_at] are the instants of the activation and of
    the terminal event. *)
Theorem lifecycle_total_and_consistent signal timeframe config resolve `{!EntryResolver resolve} inv candles :
  SignalLifecycleCandidate.validate_trade_levels signal = true ->
  match replay_signal_lifecycle signal timeframe config resolve inv candles with
  | Ok r =>
      SignalLifecycleResult.validate_status_timestamps r = true
      /\ Forall (fun e => SignalLifecycleEvent.valid e = true) (SignalLifecycleResult.events r)
      /\ exists es, SignalLifecycleResult.events r = created_event signal :: es
         /\ run signal SignalLifecycleStatus.WAITING es (SignalLifecycleResult.status r)
         /\ timed (SignalLifecycleCandidate.created_at signal) es (SignalLifecycleResult.last_evaluated_at r)
         /\ SignalLifecycleResult.activated_at r = activation_of es
         /\ SignalLifecycleResult.terminal_at r = termination_of (SignalLifecycleResult.status r) es
  | Raise e =>
      (exists msg, e = Exc "SignalLifecycleInputError" msg)
      \/ Lifecycle_validate_inputs signal candles timeframe inv = Ok tt
         /\ resolver_error signal timeframe resolve candles e
  end.
Proof.
  intros Hv. destruct (Lifecycle_validate_inputs signal candles timeframe inv) as [[]|e] eqn:Hin.
  - destruct (replay_result signal timeframe config resolve inv candles Hv Hin) as (init & _ & _ & _ & Ho & ->).
    destruct (replay_bars _ _ _ _ _ _ _ _) as [st|e]; cbn in Ho |- *; [|by right].
    pose proof (consistent_valid _ _ Ho) as Hok. destruct Ho as [(es & ? & ? & ? & ? & ?) ?].
    split_and!; try done. by exists es.
  - unfold replay_signal_lifecycle. rewrite Hin. cbn. left. by eapply validate_inputs_error.
Qed.

(** The replay against the reference, for use by the clients of the lifecycle. *)
Lemma lifecycle_reference signal timeframe config resolve `{!EntryResolver resolve} inv candles entry :
  SignalLifecycleCandidate.validate_trade_levels signal = true ->
  Lifecycle_validate_inputs signal candles timeframe inv = Ok tt ->
  (forall previous bar, (previous, bar) ∈ with_previous None candles -> exists evidence,
     resolve signal bar previous (close_of timeframe bar) = Ok evidence
     /\ entry previous bar = (if EntryExecutionEvidence.executed evidence
                             then EntryExecutionEvidence.executed_at evidence else None)) ->
  exists r, replay_signal_lifecycle signal timeframe config resolve inv candles = Ok r
    /\ (SignalLifecycleResult.status r, SignalLifecycleResult.activated_at r, SignalLifecycleResult.terminal_at r)
       = reference_fate signal timeframe config inv entry candles.
Proof.
  intros Hv Hin Hent. pose proof (proj1 (validate_inputs_ok _ _ _ _) Hin) as [He Hi].
  assert (lifecycle_inputs signal inv) as HI by (by constructor).
  destruct (replay_result signal timeframe config resolve inv candles Hv Hin) as (init & Hinit & Hc & Hh & _ & ->).
  destruct (replay_init_ok signal inv) as (init' & Hinit' & _ & _ & Hs & Ha & Ht).
  assert (init' = init) as -> by congruence.
  enough (exists st, replay_bars signal timeframe config resolve inv None candles init = Ok st
    /\ fate_of st = reference_fate signal timeframe config inv entry candles) as (st & -> & Hf).
  { exists (result_of signal st). by split. }
  unfold reference_fate. destruct (invalidated_by inv (SignalLifecycleCandidate.created_at signal)) eqn:Hinv.
  - unfold invalidated_by in Hinv. destruct inv as [i|]; [|done]. specialize (Hi i eq_refl).
    rewrite (proj2 (Z.eqb_eq _ _)) in Hs, Ht by lia. exists init. rewrite replay_bars_terminal by (by rewrite Hs).
    split; [done|]. unfold fate_of. by rewrite Hs, Ha, Ht.
  - apply waiting_loop; try done. rewrite Hs. unfold invalidated_by in Hinv. destruct inv as [i|]; [|done].
    by rewrite (proj2 (Z.eqb_neq _ _)) by lia.
Qed.

(** C4. The replay decides the fate of a signal as the documentation of the
    engine says, by first touches. When every call of the callback returns,
    the status, the activation and the termination of the result are those of
    [reference_fate]: bars that open before the creation are ignored; the
    first remaining bar whose close sees the structural invalidation cancels
    the signal, or leaves it ambiguous when that bar also executes the entry
    and the invalidation came after its open; the first bar that executes the
    entry before that activates it; a bar that executes the entry at its close
    and touches an exit is ambiguous; otherwise the first bar from the
    activation on that touches an exit decides, the configured policy
    settling a bar that touches both. *)
Theorem lifecycle_refines_first_touch signal timeframe config resolve `{!EntryResolver resolve} inv candles entry :
  SignalLifecycleCandidate.validate_trade_levels signal = true ->
  Lifecycle_validate_inputs signal candles timeframe inv = Ok tt ->
  (forall previous bar, (previous, bar) ∈ with_previous None candles -> exists evidence,
     resolve signal bar previous (close_of timeframe bar) = Ok evidence
     /\ entry previous bar = (if EntryExecutionEvidence.executed evidence
                             then EntryExecutionEvidence.executed_at evidence else None)) ->
  exists r, replay_signal_lifecycle signal timeframe config resolve inv candles = Ok r
    /\ (SignalLifecycleResult.status r, SignalLifecycleResult.activated_at r, SignalLifecycleResult.terminal_at r)
       = reference_fate signal timeframe config inv entry candles.
Proof. intros. by apply lifecycle_reference. Qed.

Lemma bar_step_events signal timeframe config resolve inv previous bar st st' :
  bar_step signal timeframe config resolve inv previous bar st = Ok st' ->
  exists es, LifecycleState.events st' = LifecycleState.events st ++ es.
Proof.
  assert (forall A (m : pyres A) (f : A -> pyres LifecycleState) r, (m ≫= f) = Ok r -> exists a, f a = Ok r) as B.
  { intros A m f r H. apply bind_ok in H as (a & _ & H). eauto. }
  assert (forall s b c t l r, resolve_exit signal config s b c t l = Ok r ->
    exists es, LifecycleState.events r = LifecycleState.events s ++ es) as X.
  { intros s b c t l r. unfold resolve_exit.
    destruct (t && l), (SignalLifecycleConfig.same_candle_policy config), t, l; intros H;
      repeat (apply B in H as [? H]); injection H as <-; cbn; eauto; exists []; by rewrite app_nil_r. }
  unfold bar_step. destruct (_ <? _); [intros [= <-]; exists []; by rewrite app_nil_r|].
  destruct (LifecycleState.status st); try apply X.
  intros (ev & _ & (br & Hbr & H)%bind_ok)%bind_ok. destruct br as [s|].
  - injection H as <-. destruct inv as [i|]; [|done]. unfold invalidate_waiting in Hbr.
    destruct (_ <=? _); [|destruct (_ <=? _); [destruct (EntryExecutionEvidence.executed ev)|]];
      try discriminate Hbr;
      apply bind_ok in Hbr as (? & _ & Hbr); injection Hbr as <-; cbn; eauto.
  - destruct (negb _); [injection H as <-; exists []; by rewrite app_nil_r|]. unfold activate in H.
    destruct (EntryExecutionEvidence.executed_at ev), (EntryExecutionEvidence.executed_entry_price ev); try done.
    apply B in H as [e H]. destruct (_ && _).
    + apply B in H as [e' H]. injection H as <-. cbn. eexists. by rewrite <-app_assoc.
    + destruct (negb _); [injection H as <-; cbn; eauto|]. apply X in H as [es H].
      cbn in H. rewrite H, <-app_assoc. eauto.
Qed.

Lemma replay_bars_events signal timeframe config resolve inv previous bars st st' :
  replay_bars signal timeframe config resolve inv previous bars st = Ok st' ->
  exists es, LifecycleState.events st' = LifecycleState.events st ++ es.
Proof.
  revert previous st. induction bars as [|bar bars IH]; intros previous st; cbn [replay_bars].
  { intros [= <-]. exists []. by rewrite app_nil_r. }
  destruct (TERMINAL_STATUSES _); [intros [= <-]; exists []; by rewrite app_nil_r|].
  intros (s & [es1 H1]%bar_step_events & [es2 H2]%IH)%bind_ok. rewrite H2, H1, <-app_assoc. eauto.
Qed.

(** No lookahead and finality. When later candles arrive, a replay that
    had ended keeps its result, and otherwise the events already reported
    stay as they are and only new ones are appended; an exception already
    raised is raised again. *)
Theorem lifecycle_no_lookahead signal timeframe config resolve `{!EntryResolver resolve} inv candles more :
  SignalLifecycleCandidate.validate_trade_levels signal = true ->
  Lifecycle_validate_inputs signal (candles ++ more) timeframe inv = Ok tt ->
  match replay_signal_lifecycle signal timeframe config resolve inv candles,
        replay_signal_lifecycle signal timeframe config resolve inv (candles ++ more) with
  | Ok r, Ok r' =>
      (exists es, SignalLifecycleResult.events r' = SignalLifecycleResult.events r ++ es)
      /\ (TERMINAL_STATUSES (SignalLifecycleResult.status r) = true -> r' = r)
  | Ok r, Raise _ => TERMINAL_STATUSES (SignalLifecycleResult.status r) = false
  | Raise e, m => m = Raise e
  end.
Proof.
  intros Hv Hin.
  assert (Lifecycle_validate_inputs signal candles timeframe inv = Ok tt) as Hin1.
  { apply validate_inputs_ok in Hin as [He Hi]. apply validate_inputs_ok. split; [|done].
    intros i c d Hc Hd. apply (He i); by apply lookup_app_l_Some. }
  destruct (replay_result signal timeframe config resolve inv _ Hv Hin) as (init & Hinit & _ & _ & _ & ->).
  destruct (replay_result signal timeframe config resolve inv _ Hv Hin1) as (init' & Hinit' & _ & _ & _ & ->).
  assert (init' = init) as -> by congruence. rewrite replay_bars_app.
  destruct (replay_bars signal timeframe config resolve inv None candles init) as [st|e]; cbn [mbind pyres_bind]; [|done].
  destruct (TERMINAL_STATUSES (LifecycleState.status st)) eqn:Ht.
  - rewrite replay_bars_terminal by done. cbn. split; [|done]. exists []. by rewrite app_nil_r.
  - destruct (replay_bars _ _ _ _ _ _ more st) as [st'|e] eqn:Hst'; cbn; [|done].
    split; [by eapply replay_bars_events | congruence].
Qed.

(** ** Concrete replays *)

(** A callback that fills at an open inside the zone and never otherwise. *)
Definition open_inside_resolver : EntryExecutionResolver := fun signal bar _ _ =>
  let zone := SignalLifecycleCandidate.entry_zone signal in
  if dleb (EntryZone.low zone) (Candle.open bar) && dleb (Candle.open bar) (EntryZone.high zone)
     && dltb (D 0) (Candle.open bar)
  then Ok (EntryExecutionEvidence.mkEntryExecutionEvidence true (Some (Candle.timestamp bar))
             (Some (Candle.open bar)) (Candle.timestamp bar) "OPEN_INSIDE_ZONE")
  else Ok (EntryExecutionEvidence.mkEntryExecutionEvidence false None None (Candle.timestamp bar) "NO_ZONE_INTERACTION").

#[export] Instance open_inside_resolver_ok : EntryResolver open_inside_resolver.
Proof.
  constructor. intros signal bar previous close evidence. unfold open_inside_resolver.
  destruct (_ && dltb (D 0) (Candle.open bar)) eqn:E; intros [= <-]; cbn; [|done]. intros _.
  bool_hyps. dec_to_Q. rewrite Qval_D0 in *. eauto 10.
Qed.

Definition signal_example : SignalLifecycleCandidate :=
  SignalLifecycleCandidate.mkSignalLifecycleCandidate "s1" SignalDecision.LONG
    (EntryZone.mkEntryZone (D 100) (D 102)) (D 101) (D 110) (D 95) 0.

Definition bar_example (minute open_ high_ low_ close_ : Z) : Candle :=
  Candle.mkCandle (minute * 60000000) (D open_) (D high_) (D low_) (D close_) (D 1).

(** Above the zone, then an open inside it, then the target. *)
Definition bars_example : list Candle :=
  [bar_example 0 104 106 103 103; bar_example 1 101 104 100 103; bar_example 2 103 111 102 110].

Definition config_example : SignalLifecycleConfig :=
  SignalLifecycleConfig.mkSignalLifecycleConfig SameCandlePolicy.AMBIGUOUS.

Definition invalidation_example : StructuralInvalidation :=
  StructuralInvalidation.mkStructuralInvalidation 60000000 "swing" "close below".

Example lifecycle_reaches_target :
  SignalLifecycleResult.status <$> replay_signal_lifecycle signal_example Timeframe.ONE_MINUTE config_example
    open_inside_resolver None bars_example = Ok SignalLifecycleStatus.TP_HIT.
Proof. vm_compute. reflexivity. Qed.

Example lifecycle_cancelled_by_structure :
  SignalLifecycleResult.status <$> replay_signal_lifecycle signal_example Timeframe.ONE_MINUTE config_example
    open_inside_resolver (Some invalidation_example) bars_example = Ok SignalLifecycleStatus.CANCELLED.
Proof. vm_compute. reflexivity. Qed.

Lemma lifecycle_total_and_consistent_witness :
  exists r, replay_signal_lifecycle signal_example Timeframe.ONE_MINUTE config_example open_inside_resolver None
              bars_example = Ok r
    /\ SignalLifecycleResult.validate_status_timestamps r = true.
Proof.
  pose proof (lifecycle_total_and_consistent signal_example Timeframe.ONE_MINUTE config_example
    open_inside_resolver None bars_example ltac:(vm_compute; reflexivity)) as H.
  destruct (replay_signal_lifecycle _ _ _ _ _ _) as [r|e] eqn:E.
  - exists r. split; [reflexivity | exact (proj1 H)].
  - exfalso. vm_compute in E. discriminate E.
Defined.

Lemma lifecycle_refines_first_touch_witness :
  exists r, replay_signal_lifecycle signal_example Timeframe.ONE_MINUTE config_example open_inside_resolver
              (Some invalidation_example) bars_example = Ok r
    /\ SignalLifecycleResult.terminal_at r = Some 60000000.
Proof.
  destruct (lifecycle_refines_first_touch signal_example Timeframe.ONE_MINUTE config_example
    open_inside_resolver (Some invalidation_example) bars_example
    (fun _ bar => if dleb (D 100) (Candle.open bar) && dleb (Candle.open bar) (D 102) && dltb (D 0) (Candle.open bar)
                  then Some (Candle.timestamp bar) else None)) as (r & Hr & Hf).
  - vm_compute. reflexivity.
  - vm_compute. reflexivity.
  - intros previous bar _. unfold open_inside_resolver. cbn [SignalLifecycleCandidate.entry_zone signal_example
      EntryZone.low EntryZone.high]. destruct (_ && dltb (D 0) (Candle.open bar)); eexists; (split; [reflexivity|]); reflexivity.
  - exists r. split; [exact Hr|]. match type of Hf with _ = ?f => assert (f = (SignalLifecycleStatus.CANCELLED, None, Some 60000000))
      as Hv by (vm_compute; reflexivity) end. congruence.
Defined.

Lemma lifecycle_no_lookahead_witness :
  replay_signal_lifecycle signal_example Timeframe.ONE_MINUTE config_example open_inside_resolver None
    (bars_example ++ [bar_example 3 90 91 80 85])
  = replay_signal_lifecycle signal_example Timeframe.ONE_MINUTE config_example open_inside_resolver None bars_example.
Proof.
  pose proof (lifecycle_no_lookahead signal_example Timeframe.ONE_MINUTE config_example open_inside_resolver None
    bars_example [bar_example 3 90 91 80 85] ltac:(vm_compute; reflexivity) ltac:(vm_compute; reflexivity)) as H.
  destruct (replay_signal_lifecycle _ _ _ _ _ bars_example) as [r|e] eqn:E; [|exact H].
  assert (TERMINAL_STATUSES (SignalLifecycleResult.status r) = true) as Ht.
  { vm_compute in E. injection E as <-. reflexivity. }
  destruct (replay_signal_lifecycle _ _ _ _ _ (bars_example ++ _)) as [r'|e']; [|congruence].
  f_equal. exact (proj2 H Ht).
Defined.
