(* ===== verification/Execution.v ===== *)
(** The execution policy of the backtest: [backtesting/execution.py],
    [schemas/execution.py] and [core/financial.py].

    Fills are computed from one closed candle at a time, with spread, slippage
    and commission in basis points, in decimal arithmetic of the default
    context. Every object goes through its schema, whose cross-checks of the
    arithmetic are part of what the code does. *)
From Stdlib Require Import ZArith QArith Qabs Lia Lqa.
From stdpp Require Import base list strings numbers sets.
From S2P Require Import Prelude Decimal Time Candle Signal Lifecycle.
Local Open Scope Z_scope.

Abbreviation prec := DEFAULT_PREC (only parsing).

(** ** [core/financial.py] *)

Module FinancialOutcome.
Inductive FinancialOutcome := PROFIT | LOSS | FLAT.
#[global] Instance FinancialOutcome_eqdec : EqDecision FinancialOutcome := ltac:(solve_decision).
End FinancialOutcome.
Abbreviation FinancialOutcome := FinancialOutcome.FinancialOutcome.

Definition classify_financial_outcome (net_pnl : dec) : FinancialOutcome :=
  if dltb (D 0) net_pnl then FinancialOutcome.PROFIT
  else if dltb net_pnl (D 0) then FinancialOutcome.LOSS
  else FinancialOutcome.FLAT.

(** ** Schemas *)

Module ExecutionPolicyName.
Inductive ExecutionPolicyName := CONSERVATIVE_MARKET_FILL.
#[global] Instance ExecutionPolicyName_eqdec : EqDecision ExecutionPolicyName := ltac:(solve_decision).
End ExecutionPolicyName.
Abbreviation ExecutionPolicyName := ExecutionPolicyName.ExecutionPolicyName.

Module ExecutionExitReason.
Inductive ExecutionExitReason := TAKE_PROFIT | STOP_LOSS.
#[global] Instance ExecutionExitReason_eqdec : EqDecision ExecutionExitReason := ltac:(solve_decision).
End ExecutionExitReason.
Abbreviation ExecutionExitReason := ExecutionExitReason.ExecutionExitReason.

Module EntryExecutionReason.
Inductive EntryExecutionReason :=
| OPEN_INSIDE_ZONE | BOUNDARY_TOUCH_FROM_BELOW | BOUNDARY_TOUCH_FROM_ABOVE | ZONE_SKIPPED | NO_ZONE_INTERACTION.
#[global] Instance EntryExecutionReason_eqdec : EqDecision EntryExecutionReason := ltac:(solve_decision).
(** [str(member)], which is what an f-string prints. *)
Definition str (r : EntryExecutionReason) : string :=
  "EntryExecutionReason." +:+
  match r with
  | OPEN_INSIDE_ZONE => "OPEN_INSIDE_ZONE"
  | BOUNDARY_TOUCH_FROM_BELOW => "BOUNDARY_TOUCH_FROM_BELOW"
  | BOUNDARY_TOUCH_FROM_ABOVE => "BOUNDARY_TOUCH_FROM_ABOVE"
  | ZONE_SKIPPED => "ZONE_SKIPPED"
  | NO_ZONE_INTERACTION => "NO_ZONE_INTERACTION"
  end.
End EntryExecutionReason.
Abbreviation EntryExecutionReason := EntryExecutionReason.EntryExecutionReason.

Module TradingCostConfig.
Record TradingCostConfig := mkTradingCostConfig {
  commission_bps_per_side : dec;
  spread_bps : dec;
  slippage_bps_per_side : dec
}.
Definition valid (c : TradingCostConfig) : bool :=
  dleb (D 0) (commission_bps_per_side c) && dleb (D 0) (spread_bps c) && dleb (D 0) (slippage_bps_per_side c).
End TradingCostConfig.
Abbreviation TradingCostConfig := TradingCostConfig.TradingCostConfig.

Module ExecutionConfig.
Record ExecutionConfig := mkExecutionConfig {
  policy : ExecutionPolicyName;
  costs : TradingCostConfig
}.
End ExecutionConfig.
Abbreviation ExecutionConfig := ExecutionConfig.ExecutionConfig.

Module EntryExecutionRequest.
Record EntryExecutionRequest := mkEntryExecutionRequest {
  candidate_id : string;
  direction : SignalDecision;
  entry_zone_low : dec;
  entry_zone_high : dec;
  entry_reference : dec;
  stop_loss : dec;
  candle : Candle;
  previous_close : option dec;
  candle_close_at : datetime
}.
Definition validate_entry_levels (r : EntryExecutionRequest) : bool :=
  nonempty (candidate_id r)
  && dltb (D 0) (entry_zone_low r) && dltb (D 0) (entry_zone_high r)
  && dltb (D 0) (entry_reference r) && dltb (D 0) (stop_loss r) && opt_positive (previous_close r)
  && negb (bool_decide (direction r = SignalDecision.NO_TRADE))
  && (dleb (entry_zone_low r) (entry_reference r) && dleb (entry_reference r) (entry_zone_high r))
  && match direction r with
     | SignalDecision.LONG => dltb (stop_loss r) (entry_zone_low r)
     | _ => dltb (entry_zone_high r) (stop_loss r)
     end.
End EntryExecutionRequest.
Abbreviation EntryExecutionRequest := EntryExecutionRequest.EntryExecutionRequest.

Module EntryExecutionResult.
Record EntryExecutionResult := mkEntryExecutionResult {
  execution_policy : ExecutionPolicyName;
  candidate_id : string;
  direction : SignalDecision;
  executed : bool;
  execution_reason : EntryExecutionReason;
  requested_entry_price : dec;
  stop_loss : dec;
  base_entry_execution_price : option dec;
  executed_entry_price : option dec;
  entry_gap_detected : bool;
  entry_spread_cost : dec;
  entry_slippage : dec;
  planned_risk : dec;
  actual_entry_risk : option dec;
  executed_at : option datetime;
  source_bar_timestamp : datetime
}.

Definition fields_valid (r : EntryExecutionResult) : bool :=
  dltb (D 0) (requested_entry_price r) && dltb (D 0) (stop_loss r)
  && opt_positive (base_entry_execution_price r) && opt_positive (executed_entry_price r)
  && dleb (D 0) (entry_spread_cost r) && dleb (D 0) (entry_slippage r)
  && dltb (D 0) (planned_risk r) && opt_positive (actual_entry_risk r).

Definition executable_reason (reason : EntryExecutionReason) : bool :=
  match reason with
  | EntryExecutionReason.OPEN_INSIDE_ZONE | EntryExecutionReason.BOUNDARY_TOUCH_FROM_BELOW
  | EntryExecutionReason.BOUNDARY_TOUCH_FROM_ABOVE => true
  | _ => false
  end.

(** The checks on executed evidence. *)
Definition fill_consistent (r : EntryExecutionResult) (base price risk : dec) : bool :=
  executable_reason (execution_reason r)
  && deqb (entry_slippage r) (dabs prec (dsub prec price base))
  && negb (dltb (dabs prec (dsub prec price (requested_entry_price r))) (entry_slippage r))
  && deqb risk (dabs prec (dsub prec price (stop_loss r))).

Definition validate_execution_evidence (r : EntryExecutionResult) : bool :=
  fields_valid r
  && deqb (planned_risk r) (dabs prec (dsub prec (requested_entry_price r) (stop_loss r)))
  && match executed r, base_entry_execution_price r, executed_entry_price r, actual_entry_risk r, executed_at r with
     | true, Some base, Some price, Some risk, Some _ => fill_consistent r base price risk
     | true, _, _, _, _ => false
     | false, Some _, Some _, Some _, Some _ => false
     | false, _, _, _, _ => deqb (entry_spread_cost r) (D 0) && deqb (entry_slippage r) (D 0)
     end.
End EntryExecutionResult.
Abbreviation EntryExecutionResult := EntryExecutionResult.EntryExecutionResult.

Module ExecutionRequest.
Record ExecutionRequest := mkExecutionRequest {
  candidate_id : string;
  direction : SignalDecision;
  entry_execution : EntryExecutionResult;
  stop_loss : dec;
  take_profit : dec;
  candle : Candle;
  was_active_before_open : bool;
  lifecycle_status : SignalLifecycleStatus;
  lifecycle_terminal_at : datetime
}.
Definition validate_request (r : ExecutionRequest) : bool :=
  let entry_reference := EntryExecutionResult.requested_entry_price (entry_execution r) in
  nonempty (candidate_id r) && dltb (D 0) (stop_loss r) && dltb (D 0) (take_profit r)
  && negb (bool_decide (direction r = SignalDecision.NO_TRADE))
  && match lifecycle_status r with
     | SignalLifecycleStatus.TP_HIT | SignalLifecycleStatus.SL_HIT | SignalLifecycleStatus.AMBIGUOUS => true
     | _ => false end
  && EntryExecutionResult.executed (entry_execution r)
  && bool_decide (EntryExecutionResult.candidate_id (entry_execution r) = candidate_id r)
  && bool_decide (EntryExecutionResult.direction (entry_execution r) = direction r)
  && match direction r with
     | SignalDecision.LONG => dltb (stop_loss r) entry_reference && dltb entry_reference (take_profit r)
     | _ => dltb (take_profit r) entry_reference && dltb entry_reference (stop_loss r)
     end.
End ExecutionRequest.
Abbreviation ExecutionRequest := ExecutionRequest.ExecutionRequest.

Module ExecutionResult.
Record ExecutionResult := mkExecutionResult {
  execution_policy : ExecutionPolicyName;
  candidate_id : string;
  direction : SignalDecision;
  entry_execution : EntryExecutionResult;
  exit_reason : ExecutionExitReason;
  requested_exit_price : dec;
  base_execution_price : dec;
  executed_entry_price : dec;
  executed_exit_price : dec;
  gap_detected : bool;
  spread_cost : dec;
  exit_slippage : dec;
  slippage : dec;
  gap_slippage : dec;
  commission_cost : dec;
  gross_pnl : dec;
  net_pnl : dec;
  planned_risk : dec;
  actual_entry_risk : dec;
  gross_r : dec;
  net_r : dec;
  financial_outcome : FinancialOutcome;
  executed_at : datetime;
  source_bar_timestamp : datetime
}.

Definition fields_valid (r : ExecutionResult) : bool :=
  dltb (D 0) (requested_exit_price r) && dltb (D 0) (base_execution_price r)
  && dltb (D 0) (executed_entry_price r) && dltb (D 0) (executed_exit_price r)
  && dleb (D 0) (spread_cost r) && dleb (D 0) (exit_slippage r) && dleb (D 0) (slippage r)
  && dleb (D 0) (gap_slippage r) && dleb (D 0) (commission_cost r)
  && dltb (D 0) (planned_risk r) && dltb (D 0) (actual_entry_risk r).

(** The result repeats its entry. *)
Definition preserves_entry (r : ExecutionResult) : bool :=
  let entry := entry_execution r in
  EntryExecutionResult.executed entry
  && bool_decide (candidate_id r = EntryExecutionResult.candidate_id entry)
  && bool_decide (direction r = EntryExecutionResult.direction entry)
  && bool_decide (execution_policy r = EntryExecutionResult.execution_policy entry)
  && match EntryExecutionResult.executed_entry_price entry with
     | Some price => deqb (executed_entry_price r) price | None => false end
  && deqb (planned_risk r) (EntryExecutionResult.planned_risk entry)
  && match EntryExecutionResult.actual_entry_risk entry with
     | Some risk => deqb (actual_entry_risk r) risk | None => false end.

Definition validate_arithmetic (r : ExecutionResult) : bool :=
  fields_valid r && preserves_entry r
  && deqb (gross_pnl r)
       (match direction r with
        | SignalDecision.LONG => dsub prec (executed_exit_price r) (executed_entry_price r)
        | _ => dsub prec (executed_entry_price r) (executed_exit_price r) end)
  && deqb (net_pnl r) (dsub prec (dsub prec (gross_pnl r) (spread_cost r)) (commission_cost r))
  && deqb (exit_slippage r) (dabs prec (dsub prec (executed_exit_price r) (base_execution_price r)))
  && deqb (slippage r) (dadd prec (EntryExecutionResult.entry_slippage (entry_execution r)) (exit_slippage r))
  && deqb (gross_r r) (ddiv prec (gross_pnl r) (planned_risk r))
  && deqb (net_r r) (ddiv prec (net_pnl r) (planned_risk r))
  && bool_decide (financial_outcome r = classify_financial_outcome (net_pnl r))
  && deqb (gap_slippage r) (dabs prec (dsub prec (base_execution_price r) (requested_exit_price r)))
  && (gap_detected r || deqb (gap_slippage r) (D 0)).
End ExecutionResult.
Abbreviation ExecutionResult := ExecutionResult.ExecutionResult.

(** ** The entry *)

Definition BASIS_POINTS : dec := D 10000.

(** [price * bps / BASIS_POINTS] *)
Definition bps_of (price bps : dec) : dec := ddiv prec (dmul prec price bps) BASIS_POINTS.

(** [gap_skipped] *)
Definition gap_skipped (request : EntryExecutionRequest) : bool :=
  let low := EntryExecutionRequest.entry_zone_low request in
  let high := EntryExecutionRequest.entry_zone_high request in
  let open_price := Candle.open (EntryExecutionRequest.candle request) in
  match EntryExecutionRequest.previous_close request with
  | Some previous_close =>
      (dltb previous_close low && dltb high open_price) || (dltb high previous_close && dltb open_price low)
  | None => false
  end.

(** The reason, and the base price with the instant of the fill. *)
Definition entry_point (request : EntryExecutionRequest) : EntryExecutionReason * option (dec * datetime) :=
  let low := EntryExecutionRequest.entry_zone_low request in
  let high := EntryExecutionRequest.entry_zone_high request in
  let candle := EntryExecutionRequest.candle request in
  let open_price := Candle.open candle in
  if dleb low open_price && dleb open_price high then
    (EntryExecutionReason.OPEN_INSIDE_ZONE, Some (open_price, Candle.timestamp candle))
  else if dltb open_price low && dleb low (Candle.high candle) then
    (EntryExecutionReason.BOUNDARY_TOUCH_FROM_BELOW, Some (low, EntryExecutionRequest.candle_close_at request))
  else if dltb high open_price && dleb (Candle.low candle) high then
    (EntryExecutionReason.BOUNDARY_TOUCH_FROM_ABOVE, Some (high, EntryExecutionRequest.candle_close_at request))
  else (if gap_skipped request then EntryExecutionReason.ZONE_SKIPPED
        else EntryExecutionReason.NO_ZONE_INTERACTION, None).

Definition execute_entry_candle (request : EntryExecutionRequest) (config : ExecutionConfig) : pyres EntryExecutionResult :=
  let costs := ExecutionConfig.costs config in
  let reference := EntryExecutionRequest.entry_reference request in
  let stop_loss := EntryExecutionRequest.stop_loss request in
  let direction := EntryExecutionRequest.direction request in
  let candle := EntryExecutionRequest.candle request in
  let planned_risk := dabs prec (dsub prec reference stop_loss) in
  match entry_point request with
  | (reason, None) =>
      validated EntryExecutionResult.validate_execution_evidence
        (EntryExecutionResult.mkEntryExecutionResult (ExecutionConfig.policy config)
          (EntryExecutionRequest.candidate_id request) direction false reason reference stop_loss None None
          (gap_skipped request) (D 0) (D 0) planned_risk None None (Candle.timestamp candle))
  | (reason, Some (base, executed_at)) =>
      let slippage := bps_of base (TradingCostConfig.slippage_bps_per_side costs) in
      let executed_price := match direction with
        | SignalDecision.LONG => dadd prec base slippage
        | _ => dsub prec base slippage end in
      _ ← raise_if (dleb executed_price (D 0))
            (Exc "ValueError" "configured slippage produced a non-positive entry price");
      let actual_entry_risk := dabs prec (dsub prec executed_price stop_loss) in
      _ ← raise_if (dleb actual_entry_risk (D 0))
            (Exc "ValueError" "executed entry price must differ from stop loss");
      validated EntryExecutionResult.validate_execution_evidence
        (EntryExecutionResult.mkEntryExecutionResult (ExecutionConfig.policy config)
          (EntryExecutionRequest.candidate_id request) direction true reason reference stop_loss (Some base)
          (Some executed_price) (gap_skipped request)
          (bps_of base (TradingCostConfig.spread_bps costs)) slippage planned_risk (Some actual_entry_risk)
          (Some executed_at) (Candle.timestamp candle))
  end.

(** What the lifecycle reads of an entry result. *)
Definition evidence_of (r : EntryExecutionResult) : EntryExecutionEvidence :=
  EntryExecutionEvidence.mkEntryExecutionEvidence (EntryExecutionResult.executed r)
    (EntryExecutionResult.executed_at r) (EntryExecutionResult.executed_entry_price r)
    (EntryExecutionResult.source_bar_timestamp r) (EntryExecutionReason.str (EntryExecutionResult.execution_reason r)).

Definition entry_request (signal : SignalLifecycleCandidate) (bar : Candle) (previous_bar : option Candle)
    (bar_close : datetime) : EntryExecutionRequest :=
  EntryExecutionRequest.mkEntryExecutionRequest (SignalLifecycleCandidate.signal_id signal)
    (SignalLifecycleCandidate.direction signal)
    (EntryZone.low (SignalLifecycleCandidate.entry_zone signal))
    (EntryZone.high (SignalLifecycleCandidate.entry_zone signal))
    (SignalLifecycleCandidate.entry_reference signal) (SignalLifecycleCandidate.stop_loss signal)
    bar (Candle.close <$> previous_bar) bar_close.

Definition build_entry_execution_resolver (config : ExecutionConfig) : EntryExecutionResolver :=
  fun signal bar previous_bar bar_close =>
    request ← validated EntryExecutionRequest.validate_entry_levels (entry_request signal bar previous_bar bar_close);
    evidence_of <$> execute_entry_candle request config.

(** ** The exit *)

Definition _opening_gap_reason (request : ExecutionRequest) : option ExecutionExitReason :=
  let open_price := Candle.open (ExecutionRequest.candle request) in
  match ExecutionRequest.direction request with
  | SignalDecision.LONG =>
      if dltb open_price (ExecutionRequest.stop_loss request) then Some ExecutionExitReason.STOP_LOSS
      else if dltb (ExecutionRequest.take_profit request) open_price then Some ExecutionExitReason.TAKE_PROFIT
      else None
  | _ =>
      if dltb (ExecutionRequest.stop_loss request) open_price then Some ExecutionExitReason.STOP_LOSS
      else if dltb open_price (ExecutionRequest.take_profit request) then Some ExecutionExitReason.TAKE_PROFIT
      else None
  end.

(** The exit reason and whether it is an opening gap; [None] when the order
    inside the bar stays unknown. *)
Definition exit_decision (request : ExecutionRequest) : option (ExecutionExitReason * bool) :=
  match (if ExecutionRequest.was_active_before_open request then _opening_gap_reason request else None) with
  | Some reason => Some (reason, true)
  | None =>
      match ExecutionRequest.lifecycle_status request with
      | SignalLifecycleStatus.AMBIGUOUS => None
      | SignalLifecycleStatus.TP_HIT => Some (ExecutionExitReason.TAKE_PROFIT, false)
      | _ => Some (ExecutionExitReason.STOP_LOSS, false)
      end
  end.

(** [requested] and [base]. *)
Definition requested_price (request : ExecutionRequest) (reason : ExecutionExitReason) : dec :=
  match reason with
  | ExecutionExitReason.TAKE_PROFIT => ExecutionRequest.take_profit request
  | ExecutionExitReason.STOP_LOSS => ExecutionRequest.stop_loss request
  end.

Definition base_price (request : ExecutionRequest) (reason : ExecutionExitReason) (gap_detected : bool) : dec :=
  if gap_detected && bool_decide (reason = ExecutionExitReason.STOP_LOSS)
  then Candle.open (ExecutionRequest.candle request) else requested_price request reason.

Definition execute_terminal_candle (request : ExecutionRequest) (config : ExecutionConfig) : pyres (option ExecutionResult) :=
  let costs := ExecutionConfig.costs config in
  let entry := ExecutionRequest.entry_execution request in
  let direction := ExecutionRequest.direction request in
  match exit_decision request with
  | None => Ok None
  | Some (reason, gap_detected) =>
      let requested := requested_price request reason in
      let base := base_price request reason gap_detected in
      let exit_slippage := bps_of base (TradingCostConfig.slippage_bps_per_side costs) in
      match EntryExecutionResult.executed_entry_price entry with
      | None => Raise (Exc "AssertionError" "")
      | Some executed_entry =>
          let executed_exit := match direction with
            | SignalDecision.LONG => dsub prec base exit_slippage
            | _ => dadd prec base exit_slippage end in
          let gross_pnl := match direction with
            | SignalDecision.LONG => dsub prec executed_exit executed_entry
            | _ => dsub prec executed_entry executed_exit end in
          _ ← raise_if (dleb executed_entry (D 0) || dleb executed_exit (D 0))
                (Exc "ValueError" "configured slippage produced a non-positive execution price");
          let spread_cost := EntryExecutionResult.entry_spread_cost entry in
          match EntryExecutionResult.base_entry_execution_price entry,
                EntryExecutionResult.actual_entry_risk entry with
          | Some entry_base, Some actual_entry_risk =>
              let commission_cost := bps_of (dadd prec entry_base base)
                (TradingCostConfig.commission_bps_per_side costs) in
              let net_pnl := dsub prec (dsub prec gross_pnl spread_cost) commission_cost in
              let planned_risk := EntryExecutionResult.planned_risk entry in
              gross_r ← ddiv_py prec gross_pnl planned_risk;
              net_r ← ddiv_py prec net_pnl planned_risk;
              result ← validated ExecutionResult.validate_arithmetic
                (ExecutionResult.mkExecutionResult (ExecutionConfig.policy config)
                  (ExecutionRequest.candidate_id request) direction entry reason requested base executed_entry
                  executed_exit gap_detected spread_cost exit_slippage
                  (dadd prec (EntryExecutionResult.entry_slippage entry) exit_slippage)
                  (dabs prec (dsub prec base requested)) commission_cost gross_pnl net_pnl planned_risk
                  actual_entry_risk gross_r net_r (classify_financial_outcome net_pnl)
                  (if gap_detected then Candle.timestamp (ExecutionRequest.candle request)
                   else ExecutionRequest.lifecycle_terminal_at request)
                  (Candle.timestamp (ExecutionRequest.candle request)));
              Ok (Some result)
          | _, _ => Raise (Exc "AssertionError" "")
          end
      end
  end.
