(* ===== verification/ExecutionTheory.v ===== *)
(** Theorems on the execution policy of [backtesting/execution.py]. *)
From Stdlib Require Import ZArith QArith Qabs Lia Lqa.
From stdpp Require Import base list strings numbers sets.
From S2P Require Import Prelude Decimal Time Candle Signal Lifecycle LifecycleTheory Execution.
Local Open Scope Z_scope.

(** The arithmetic is used through its laws. *)
#[local] Opaque dround dadd dsub dmul ddiv dabs dltb dleb deqb.

(** ** Entries *)

Definition costs_valid (config : ExecutionConfig) : Prop :=
  TradingCostConfig.valid (ExecutionConfig.costs config) = true.

(** A request as its constructors leave it, with prices the decimal context
    represents. *)
Record entry_inputs (request : EntryExecutionRequest) : Prop := {
  ei_request : EntryExecutionRequest.validate_entry_levels request = true;
  ei_candle : candle_wf (EntryExecutionRequest.candle request);
  ei_low : fits prec (EntryExecutionRequest.entry_zone_low request);
  ei_high : fits prec (EntryExecutionRequest.entry_zone_high request);
  ei_open : fits prec (Candle.open (EntryExecutionRequest.candle request))
}.

Lemma bps_nonneg price bps : (0 < Qval price)%Q -> (0 <= Qval bps)%Q -> (0 <= Qval (bps_of price bps))%Q.
Proof.
  intros Hp Hb. apply ddiv_nonneg; [unfold BASIS_POINTS; rewrite Qval_D; reflexivity|].
  apply dmul_nonneg; [lra | done].
Qed.

Lemma bps_zero price bps : (Qval bps == 0)%Q -> (Qval (bps_of price bps) == 0)%Q.
Proof.
  intros Hb. assert (0 < Qval BASIS_POINTS)%Q as Hd by (unfold BASIS_POINTS; rewrite Qval_D; reflexivity).
  assert (Qval (dmul prec price bps) == 0)%Q as Hm.
  { apply (rounds_sign _ _ (dmul_rounds price bps)). rewrite Hb. ring. }
  unfold bps_of. apply (rounds_sign _ _ (ddiv_rounds (p := prec) (dmul prec price bps) BASIS_POINTS ltac:(lra))).
  rewrite Hm. field. lra.
Qed.

Lemma bps_fits price bps : fits prec (bps_of price bps).
Proof. apply ddiv_fits. Qed.

#[local] Opaque bps_of.

Lemma costs_nonneg config : costs_valid config ->
  (0 <= Qval (TradingCostConfig.commission_bps_per_side (ExecutionConfig.costs config)))%Q
  /\ (0 <= Qval (TradingCostConfig.spread_bps (ExecutionConfig.costs config)))%Q
  /\ (0 <= Qval (TradingCostConfig.slippage_bps_per_side (ExecutionConfig.costs config)))%Q.
Proof. unfold costs_valid, TradingCostConfig.valid. intros H. bool_hyps. dec_to_Q. rewrite Qval_D0 in *. done. Qed.

(** The prices of a valid request. *)
Lemma request_levels request : EntryExecutionRequest.validate_entry_levels request = true ->
  let low := Qval (EntryExecutionRequest.entry_zone_low request) in
  let high := Qval (EntryExecutionRequest.entry_zone_high request) in
  let reference := Qval (EntryExecutionRequest.entry_reference request) in
  let stop := Qval (EntryExecutionRequest.stop_loss request) in
  (0 < low /\ low <= reference <= high /\ 0 < stop
   /\ match EntryExecutionRequest.direction request with
      | SignalDecision.LONG => stop < low
      | SignalDecision.SHORT => high < stop
      | SignalDecision.NO_TRADE => False end)%Q.
Proof.
  unfold EntryExecutionRequest.validate_entry_levels. intros H. bool_hyps. dec_to_Q. rewrite Qval_D0 in *.
  destruct (EntryExecutionRequest.direction request); dec_to_Q; split_and!; done.
Qed.

(** Where the candle meets the zone: the price of the zone nearest to the open. *)
Definition meets_zone (request : EntryExecutionRequest) : Prop :=
  let candle := EntryExecutionRequest.candle request in
  (Qval (Candle.low candle) <= Qval (EntryExecutionRequest.entry_zone_high request)
   /\ Qval (EntryExecutionRequest.entry_zone_low request) <= Qval (Candle.high candle))%Q.

Definition nearest_in_zone (request : EntryExecutionRequest) (base : dec) : Prop :=
  let open_price := Qval (Candle.open (EntryExecutionRequest.candle request)) in
  let low := Qval (EntryExecutionRequest.entry_zone_low request) in
  let high := Qval (EntryExecutionRequest.entry_zone_high request) in
  (low <= Qval base <= high
   /\ forall q, low <= q <= high -> Qabs (open_price - Qval base) <= Qabs (open_price - q))%Q.

Lemma Qabs_le_abs a b : (a <= b /\ 0 <= a \/ b <= a /\ a <= 0)%Q -> (Qabs a <= Qabs b)%Q.
Proof.
  intros [[H1 H2] | [H1 H2]].
  - rewrite (Qabs_pos a), (Qabs_pos b) by lra. done.
  - rewrite (Qabs_neg a), (Qabs_neg b) by lra. lra.
Qed.

(** The trichotomy of the entry point. *)
Lemma entry_point_spec request : entry_inputs request ->
  let candle := EntryExecutionRequest.candle request in
  match entry_point request with
  | (reason, None) => ~ meets_zone request
      /\ reason = (if gap_skipped request then EntryExecutionReason.ZONE_SKIPPED
                   else EntryExecutionReason.NO_ZONE_INTERACTION)
  | (reason, Some (base, at_)) => meets_zone request /\ nearest_in_zone request base
      /\ fits prec base /\ EntryExecutionResult.executable_reason reason = true
      /\ (Qval (Candle.low candle) <= Qval base <= Qval (Candle.high candle))%Q
      /\ at_ = (if dleb (EntryExecutionRequest.entry_zone_low request) (Candle.open candle)
                   && dleb (Candle.open candle) (EntryExecutionRequest.entry_zone_high request)
                then Candle.timestamp candle else EntryExecutionRequest.candle_close_at request)
  end.
Proof.
  intros [Hr Hc Hl Hh Ho] candle. apply request_levels in Hr. cbv zeta in Hr.
  destruct Hr as (H1 & H2 & _). unfold candle_wf in Hc. fold candle in Hc, Ho.
  unfold entry_point, meets_zone, nearest_in_zone. fold candle.
  set (low := EntryExecutionRequest.entry_zone_low request) in *.
  set (high := EntryExecutionRequest.entry_zone_high request) in *.
  destruct (dleb low (Candle.open candle) && dleb (Candle.open candle) high) eqn:E1.
  { bool_hyps. dec_to_Q. split_and!; try done; try lra.
    intros q Hq. apply Qabs_le_abs. destruct (Qlt_le_dec (Qval (Candle.open candle)) q); [right|left]; lra. }
  destruct (dltb (Candle.open candle) low && dleb low (Candle.high candle)) eqn:E2.
  { bool_hyps. dec_to_Q. split_and!; try done; try lra. intros q Hq. apply Qabs_le_abs. right. lra. }
  destruct (dltb high (Candle.open candle) && dleb (Candle.low candle) high) eqn:E3.
  { bool_hyps. dec_to_Q. split_and!; try done; try lra. intros q Hq. apply Qabs_le_abs. left. lra. }
  split; [|done]. intros [Hm1 Hm2].
  apply andb_false_iff in E1, E2, E3. destruct E1, E2, E3; dec_to_Q; lra.
Qed.

(** The slippage and the price of a fill at [base]. *)
Definition fill_slippage (config : ExecutionConfig) (base : dec) : dec :=
  bps_of base (TradingCostConfig.slippage_bps_per_side (ExecutionConfig.costs config)).

Definition fill_price (request : EntryExecutionRequest) (config : ExecutionConfig) (base : dec) : dec :=
  match EntryExecutionRequest.direction request with
  | SignalDecision.LONG => dadd prec base (fill_slippage config base)
  | _ => dsub prec base (fill_slippage config base)
  end.

(** The two cross-checks of the result schema that a fill can fail. *)
Definition fill_accepted (request : EntryExecutionRequest) (config : ExecutionConfig) (base : dec) : bool :=
  let price := fill_price request config base in
  deqb (fill_slippage config base) (dabs prec (dsub prec price base))
  && negb (dltb (dabs prec (dsub prec price (EntryExecutionRequest.entry_reference request)))
                (fill_slippage config base)).

(** A fill is never better than its base, and always on the trade's side of
    the stop. *)
Definition adverse (direction : SignalDecision) (base price stop : dec) : Prop :=
  match direction with
  | SignalDecision.LONG => (Qval stop < Qval base <= Qval price)%Q
  | _ => (Qval price <= Qval base < Qval stop)%Q
  end.

Lemma fill_adverse request config base : EntryExecutionRequest.validate_entry_levels request = true ->
  costs_valid config -> nearest_in_zone request base -> fits prec base ->
  (0 <= Qval (fill_slippage config base))%Q /\
  adverse (EntryExecutionRequest.direction request) base (fill_price request config base)
    (EntryExecutionRequest.stop_loss request).
Proof.
  intros (H1 & H2 & _ & H3)%request_levels (_ & _ & Hs)%costs_nonneg [Hb _] Hf.
  assert (0 <= Qval (fill_slippage config base))%Q as Hsl by (apply bps_nonneg; [lra | done]).
  split; [done|]. unfold adverse, fill_price.
  destruct (EntryExecutionRequest.direction request); [split; [lra | by apply dadd_ge]|split; [by apply dsub_le | lra]|done].
Qed.

Lemma dabs_nz_pos a b : ~ (Qval a == Qval b)%Q -> (0 < Qval (dabs prec (dsub prec a b)))%Q.
Proof. intros H. apply dabs_pos. intros E. apply H. by apply (dsub_sign (p := prec)). Qed.

Definition executed_result (request : EntryExecutionRequest) (config : ExecutionConfig)
    (reason : EntryExecutionReason) (base : dec) (at_ : datetime) : EntryExecutionResult :=
  EntryExecutionResult.mkEntryExecutionResult (ExecutionConfig.policy config)
    (EntryExecutionRequest.candidate_id request) (EntryExecutionRequest.direction request) true reason
    (EntryExecutionRequest.entry_reference request) (EntryExecutionRequest.stop_loss request) (Some base)
    (Some (fill_price request config base)) (gap_skipped request)
    (bps_of base (TradingCostConfig.spread_bps (ExecutionConfig.costs config))) (fill_slippage config base)
    (dabs prec (dsub prec (EntryExecutionRequest.entry_reference request) (EntryExecutionRequest.stop_loss request)))
    (Some (dabs prec (dsub prec (fill_price request config base) (EntryExecutionRequest.stop_loss request))))
    (Some at_) (Candle.timestamp (EntryExecutionRequest.candle request)).

Definition skipped_result (request : EntryExecutionRequest) (config : ExecutionConfig)
    (reason : EntryExecutionReason) : EntryExecutionResult :=
  EntryExecutionResult.mkEntryExecutionResult (ExecutionConfig.policy config)
    (EntryExecutionRequest.candidate_id request) (EntryExecutionRequest.direction request) false reason
    (EntryExecutionRequest.entry_reference request) (EntryExecutionRequest.stop_loss request) None None
    (gap_skipped request) (D 0) (D 0)
    (dabs prec (dsub prec (EntryExecutionRequest.entry_reference request) (EntryExecutionRequest.stop_loss request)))
    None None (Candle.timestamp (EntryExecutionRequest.candle request)).

(** The outcome of the entry, by the entry point. *)
Definition entry_outcome (request : EntryExecutionRequest) (config : ExecutionConfig) : pyres EntryExecutionResult :=
  match entry_point request with
  | (reason, None) => Ok (skipped_result request config reason)
  | (reason, Some (base, at_)) =>
      if dleb (fill_price request config base) (D 0) then
        Raise (Exc "ValueError" "configured slippage produced a non-positive entry price")
      else if fill_accepted request config base then Ok (executed_result request config reason base at_)
      else Raise (Exc "ValidationError" "")
  end.

Lemma dltb_D0 a : (0 < Qval a)%Q -> dltb (D 0) a = true.
Proof. intros. dec_to_Q. by rewrite Qval_D0. Qed.
Lemma dleb_D0 a : (0 <= Qval a)%Q -> dleb (D 0) a = true.
Proof. intros. dec_to_Q. by rewrite Qval_D0. Qed.

Lemma planned_risk_pos request : EntryExecutionRequest.validate_entry_levels request = true ->
  (0 < Qval (dabs prec (dsub prec (EntryExecutionRequest.entry_reference request)
                                 (EntryExecutionRequest.stop_loss request))))%Q.
Proof.
  intros (H1 & H2 & H3 & H4)%request_levels. apply dabs_nz_pos.
  destruct (EntryExecutionRequest.direction request); [lra|lra|done].
Qed.

Lemma execute_entry_outcome request config : entry_inputs request -> costs_valid config ->
  execute_entry_candle request config = entry_outcome request config.
Proof.
  intros Hin Hcosts. pose proof (entry_point_spec request Hin) as Hp. destruct Hin as [Hr Hc _ _ _].
  pose proof (request_levels request Hr) as (H1 & H2 & H3 & H4). pose proof (planned_risk_pos request Hr) as Hpr.
  destruct (costs_nonneg config Hcosts) as (_ & Hspread & _).
  unfold execute_entry_candle, entry_outcome. destruct (entry_point request) as [reason [[base at_]|]].
  2: { apply validated_ok. split; [|done].
       unfold EntryExecutionResult.validate_execution_evidence, EntryExecutionResult.fields_valid, skipped_result.
       cbn [EntryExecutionResult.requested_entry_price EntryExecutionResult.stop_loss
            EntryExecutionResult.base_entry_execution_price EntryExecutionResult.executed_entry_price
            EntryExecutionResult.entry_spread_cost EntryExecutionResult.entry_slippage
            EntryExecutionResult.planned_risk EntryExecutionResult.actual_entry_risk
            EntryExecutionResult.executed opt_positive].
       rewrite !dltb_D0 by (done || lra). rewrite deqb_refl. reflexivity. }
  destruct Hp as (_ & Hn & Hf & Hex & _ & _). pose proof Hn as [Hb _].
  destruct (fill_adverse request config base Hr Hcosts Hn Hf) as [Hsl Hadv].
  fold (fill_slippage config base) (fill_price request config base).
  destruct (dleb (fill_price request config base) (D 0)) eqn:Hpos; [done|]. cbn [raise_if mbind pyres_bind].
  assert (0 < Qval (fill_price request config base))%Q as Hpp by (dec_to_Q; rewrite Qval_D0 in *; lra).
  assert (0 < Qval (dabs prec (dsub prec (fill_price request config base) (EntryExecutionRequest.stop_loss request))))%Q as Hrisk.
  { apply dabs_nz_pos. unfold adverse in Hadv. destruct (EntryExecutionRequest.direction request); lra. }
  assert (dleb (dabs prec (dsub prec (fill_price request config base) (EntryExecutionRequest.stop_loss request))) (D 0) = false)
    as -> by (dec_to_Q; rewrite Qval_D0; lra).
  cbn [raise_if mbind pyres_bind]. fold (executed_result request config reason base at_). unfold validated.
  assert (EntryExecutionResult.validate_execution_evidence (executed_result request config reason base at_)
          = fill_accepted request config base) as ->; [|done].
  unfold EntryExecutionResult.validate_execution_evidence, EntryExecutionResult.fields_valid,
    EntryExecutionResult.fill_consistent, executed_result.
  cbn [EntryExecutionResult.requested_entry_price EntryExecutionResult.stop_loss
       EntryExecutionResult.base_entry_execution_price EntryExecutionResult.executed_entry_price
       EntryExecutionResult.entry_spread_cost EntryExecutionResult.entry_slippage
       EntryExecutionResult.planned_risk EntryExecutionResult.actual_entry_risk
       EntryExecutionResult.executed EntryExecutionResult.executed_at EntryExecutionResult.execution_reason opt_positive].
  rewrite !dltb_D0 by (done || lra). rewrite !dleb_D0 by (done || (apply bps_nonneg; [lra|done])).
  rewrite !deqb_refl, Hex. cbn [andb]. by rewrite andb_true_r.
Qed.

(** C28. The entry policy in full. For a valid request and a valid candle
    whose prices the decimal context represents: the candle fails to meet the
    zone exactly when no entry is executed, and then the result is always
    returned, without costs, and says whether the market gapped over the
    zone. Otherwise the fill is based on the price of the zone nearest to the
    open, a price the candle traded, at the open when the open lies inside the
    zone and at the close of the bar when the boundary was touched later; the
    executed price is the base moved against the trade by the slippage, still
    on the trade's side of the stop, so the guard against an entry on the stop
    never fires; and the only exceptions are a fill that slippage drives to
    zero or below and a fill that fails the schema's two arithmetic
    cross-checks. *)
Theorem entry_policy_exact request config : entry_inputs request -> costs_valid config ->
  let candle := EntryExecutionRequest.candle request in
  match entry_point request with
  | (reason, None) =>
      ~ meets_zone request
      /\ reason = (if gap_skipped request then EntryExecutionReason.ZONE_SKIPPED
                   else EntryExecutionReason.NO_ZONE_INTERACTION)
      /\ execute_entry_candle request config = Ok (skipped_result request config reason)
  | (reason, Some (base, at_)) =>
      meets_zone request /\ nearest_in_zone request base
      /\ (Qval (Candle.low candle) <= Qval base <= Qval (Candle.high candle))%Q
      /\ at_ = (if dleb (EntryExecutionRequest.entry_zone_low request) (Candle.open candle)
                   && dleb (Candle.open candle) (EntryExecutionRequest.entry_zone_high request)
                then Candle.timestamp candle else EntryExecutionRequest.candle_close_at request)
      /\ adverse (EntryExecutionRequest.direction request) base (fill_price request config base)
           (EntryExecutionRequest.stop_loss request)
      /\ execute_entry_candle request config =
         (if dleb (fill_price request config base) (D 0) then
            Raise (Exc "ValueError" "configured slippage produced a non-positive entry price")
          else if fill_accepted request config base then Ok (executed_result request config reason base at_)
          else Raise (Exc "ValidationError" ""))
  end.
Proof.
  intros Hin Hcosts candle. rewrite (execute_entry_outcome request config Hin Hcosts). unfold entry_outcome.
  pose proof (entry_point_spec request Hin) as Hp. destruct (entry_point request) as [reason [[base at_]|]].
  - destruct Hp as (Hm & Hn & Hf & _ & Ht & Ha). split_and!; try done; try apply Ht.
    eapply fill_adverse; eauto. apply Hin.
  - destruct Hp. by split_and!.
Qed.

(** A fill close to the planned entry is refused. When the amounts
    involved are represented exactly, an executable LONG fill with a positive
    price is rejected by the result's own schema, with an exception that ends
    the backtest, exactly when the planned entry lies strictly between the
    base price and the base price plus twice the slippage: the schema takes
    the distance of the fill from the planned entry for an upper bound of the
    slippage, which it is not when the market opened at a better price. *)
Theorem entry_near_reference_refused request config reason base at_ :
  entry_inputs request -> costs_valid config ->
  entry_point request = (reason, Some (base, at_)) ->
  EntryExecutionRequest.direction request = SignalDecision.LONG ->
  let price := fill_price request config base in
  let slippage := fill_slippage config base in
  let reference := EntryExecutionRequest.entry_reference request in
  (Qval price == Qval base + Qval slippage)%Q ->
  (Qval (dsub prec price reference) == Qval price - Qval reference)%Q ->
  (execute_entry_candle request config = Raise (Exc "ValidationError" "")
   <-> (Qval base < Qval reference < Qval base + 2 * Qval slippage)%Q)
  /\ (execute_entry_candle request config = Ok (executed_result request config reason base at_)
   <-> ~ (Qval base < Qval reference < Qval base + 2 * Qval slippage)%Q).
Proof.
  intros Hin Hcosts Hpt Hdir price slippage reference Hprice Hdist.
  rewrite (execute_entry_outcome request config Hin Hcosts). unfold entry_outcome. rewrite Hpt.
  pose proof (entry_point_spec request Hin) as Hp. rewrite Hpt in Hp. destruct Hp as (_ & Hn & Hf & _).
  destruct (fill_adverse request config base (ei_request _ Hin) Hcosts Hn Hf) as [Hsl Hadv].
  destruct Hn as [Hz _]. destruct (request_levels request (ei_request _ Hin)) as (H0 & _).
  fold price slippage. assert (dleb price (D 0) = false) as ->.
  { dec_to_Q. rewrite Qval_D0. fold slippage in Hsl. lra. }
  unfold fill_accepted. fold price slippage reference.
  assert (Qval (dabs prec (dsub prec price base)) == Qval slippage)%Q as Hd1.
  { rewrite dabs_val by apply dsub_fits.
    assert (Qval (dsub prec price base) == Qval slippage)%Q as ->; [|by apply Qabs_pos].
    apply dsub_exact; [apply bps_fits | lra]. }
  rewrite (proj2 (deqb_true _ _)) by (by symmetry). cbn [andb].
  pose proof (dabs_val (p := prec) _ (dsub_fits price reference)) as Hd2. rewrite Hdist in Hd2.
  destruct (dltb _ slippage) eqn:E; dec_to_Q; rewrite Hd2 in E; cbn [negb];
    (split; split; [intros ?|intros ?|intros ?|intros ?]); try done; try congruence.
  - apply Qabs_Qlt_condition in E. lra.
  - exfalso. apply Qabs_Qlt_condition in E. apply H. lra.
  - exfalso. apply (Qlt_not_le _ _ (proj2 (Qabs_Qlt_condition (Qval price - Qval reference) (Qval slippage)) ltac:(lra))). lra.
  - intros Hbad. apply (Qlt_not_le _ _ (proj2 (Qabs_Qlt_condition (Qval price - Qval reference) (Qval slippage)) ltac:(lra))). lra.
Qed.

(** ** The resolver the backtest installs *)

Lemma entry_result_valid request config r : execute_entry_candle request config = Ok r ->
  EntryExecutionResult.validate_execution_evidence r = true.
Proof.
  unfold execute_entry_candle. destruct (entry_point request) as [reason [[base at_]|]].
  - intros ([] & _ & ([] & _ & H)%bind_ok)%bind_ok. by apply validated_ok in H as [H <-].
  - intros H. by apply validated_ok in H as [H <-].
Qed.

Lemma entry_result_shape request config r : execute_entry_candle request config = Ok r ->
  EntryExecutionResult.executed r = true ->
  exists reason base at_, entry_point request = (reason, Some (base, at_))
    /\ r = executed_result request config reason base at_
    /\ (0 < Qval (fill_price request config base))%Q.
Proof.
  unfold execute_entry_candle. destruct (entry_point request) as [reason [[base at_]|]].
  - intros ([] & Hp & ([] & _ & H)%bind_ok)%bind_ok _. apply validated_ok in H as [_ <-].
    exists reason, base, at_. split_and!; try done. apply raise_if_ok in Hp. dec_to_Q. by rewrite Qval_D0 in Hp.
  - intros H. apply validated_ok in H as [_ <-]. done.
Qed.

(** The production callback keeps the contract of the lifecycle. *)
#[export] Instance build_entry_execution_resolver_contract config :
  EntryResolver (build_entry_execution_resolver config).
Proof.
  constructor. intros signal bar previous close evidence. unfold build_entry_execution_resolver.
  intros (request & [_ <-]%validated_ok & H)%bind_ok.
  destruct (execute_entry_candle _ _) as [r|e] eqn:Hr; [|done]. injection H as <-. cbn. intros Hex.
  destruct (entry_result_shape _ _ _ Hr Hex) as (reason & base & at_ & Hpt & -> & Hpos). cbn.
  exists at_, (fill_price (entry_request signal bar previous close) config base). split_and!; try done.
  unfold entry_point in Hpt. cbn in Hpt. repeat case_match; simplify_eq; auto.
Qed.

(** Bars as the market data layer delivers them. *)
Definition bar_ok (bar : Candle) : Prop := candle_wf bar /\ fits prec (Candle.open bar).

Record market_signal (signal : SignalLifecycleCandidate) : Prop := {
  ms_signal : SignalLifecycleCandidate.validate_trade_levels signal = true;
  ms_low : fits prec (EntryZone.low (SignalLifecycleCandidate.entry_zone signal));
  ms_high : fits prec (EntryZone.high (SignalLifecycleCandidate.entry_zone signal))
}.

Lemma entry_request_inputs signal bar previous close : market_signal signal -> bar_ok bar ->
  (forall p, previous = Some p -> bar_ok p) ->
  entry_inputs (entry_request signal bar previous close).
Proof.
  intros [Hs Hl Hh] [Hb Ho] Hp. constructor; try done.
  unfold SignalLifecycleCandidate.validate_trade_levels, EntryZone.validate_bounds in Hs.
  unfold EntryExecutionRequest.validate_entry_levels, entry_request. cbn. bool_hyps.
  repeat match goal with H : _ = true |- _ => rewrite H end. cbn [andb].
  assert (opt_positive (Candle.close <$> previous) = true) as ->.
  { destruct previous as [p|]; [|done]. destruct (Hp p eq_refl) as [Hw _]. unfold candle_wf in Hw. cbn.
    apply dltb_D0. lra. }
  destruct (SignalLifecycleCandidate.direction signal); [| |done]; bool_hyps; cbn; done.
Qed.

(** With no slippage configured every fill is accepted. *)
Lemma zero_slippage_accepted request config base : EntryExecutionRequest.validate_entry_levels request = true ->
  (Qval (TradingCostConfig.slippage_bps_per_side (ExecutionConfig.costs config)) == 0)%Q ->
  nearest_in_zone request base -> fits prec base ->
  dleb (fill_price request config base) (D 0) = false /\ fill_accepted request config base = true.
Proof.
  intros (H1 & _)%request_levels Hz [Hb _] Hf.
  pose proof (bps_zero base _ Hz) as Hs. fold (fill_slippage config base) in Hs.
  assert (Qval (fill_price request config base) == Qval base)%Q as Hp.
  { unfold fill_price. destruct (EntryExecutionRequest.direction request);
      [apply dadd_exact | apply dsub_exact | apply dsub_exact]; (done || lra). }
  split; [dec_to_Q; rewrite Qval_D0, Hp; lra|]. unfold fill_accepted. apply andb_true_intro. split.
  - apply deqb_true. rewrite dabs_val by apply dsub_fits.
    assert (Qval (dsub prec (fill_price request config base) base) == 0)%Q as -> by (by apply (dsub_sign (p := prec))).
    by rewrite Hs.
  - apply negb_true_iff, dltb_false. rewrite Hs. apply dabs_nonneg.
Qed.

(** The instant at which a bar executes the entry of a signal, by geometry. *)
Definition entry_instant (timeframe : Timeframe) (signal : SignalLifecycleCandidate) (bar : Candle) : option datetime :=
  let low := EntryZone.low (SignalLifecycleCandidate.entry_zone signal) in
  let high := EntryZone.high (SignalLifecycleCandidate.entry_zone signal) in
  if dleb (Candle.low bar) high && dleb low (Candle.high bar)
  then Some (if dleb low (Candle.open bar) && dleb (Candle.open bar) high
             then Candle.timestamp bar else close_of timeframe bar)
  else None.

Lemma production_evidence signal timeframe config previous bar : market_signal signal -> costs_valid config ->
  (Qval (TradingCostConfig.slippage_bps_per_side (ExecutionConfig.costs config)) == 0)%Q ->
  bar_ok bar -> (forall p, previous = Some p -> bar_ok p) ->
  exists evidence, build_entry_execution_resolver config signal bar previous (close_of timeframe bar) = Ok evidence
    /\ entry_instant timeframe signal bar =
       (if EntryExecutionEvidence.executed evidence then EntryExecutionEvidence.executed_at evidence else None).
Proof.
  intros Hs Hcosts Hz Hb Hp.
  pose proof (entry_request_inputs signal bar previous (close_of timeframe bar) Hs Hb Hp) as Hin.
  unfold build_entry_execution_resolver.
  rewrite (proj2 (validated_ok _ _ _) (conj (ei_request _ Hin) eq_refl)). cbn [mbind pyres_bind].
  rewrite execute_entry_outcome by done. unfold entry_outcome.
  pose proof (entry_point_spec _ Hin) as Hpt.
  destruct (entry_point _) as [reason [[base at_]|]].
  - destruct Hpt as ([Hm1 Hm2] & Hn & Hf & _ & _ & Hat).
    destruct (zero_slippage_accepted _ config base (ei_request _ Hin) Hz Hn Hf) as [-> ->].
    eexists. split; [reflexivity|]. cbn. unfold entry_instant. cbn in Hm1, Hm2, Hat.
    rewrite (proj2 (dleb_true _ _) Hm1), (proj2 (dleb_true _ _) Hm2). cbn. by rewrite Hat.
  - destruct Hpt as [Hm _]. eexists. split; [reflexivity|]. cbn. unfold entry_instant.
    destruct (dleb _ _ && dleb _ (Candle.high bar)) eqn:E; [|done]. exfalso. apply Hm. bool_hyps. dec_to_Q. by split.
Qed.

Lemma with_previous_bars previous bars p b : (p, b) ∈ with_previous previous bars ->
  b ∈ bars /\ (p = previous \/ exists q, p = Some q /\ q ∈ bars).
Proof.
  revert previous; induction bars as [|bar bars IH]; intros previous; [by intros ?%elem_of_nil|].
  intros [H|H]%elem_of_cons.
  - injection H as -> ->. split; [constructor | by left].
  - destruct (IH (Some bar) H) as [Hb Hp]. split; [by constructor|]. right.
    destruct Hp as [-> | (q & -> & Hq)]; eexists; (split; [done|]); [constructor | by constructor].
Qed.

(** The lifecycle with the callback the backtest installs. With no
    slippage configured, a replay over checked candles always returns, and the
    fate of the signal is the first-touch reference with an entry at the first
    bar whose range meets the entry zone: at its open when the open lies
    inside the zone, at its close otherwise. *)
Theorem production_lifecycle_total signal timeframe lifecycle_config config inv candles :
  market_signal signal -> costs_valid config ->
  (Qval (TradingCostConfig.slippage_bps_per_side (ExecutionConfig.costs config)) == 0)%Q ->
  Forall bar_ok candles ->
  Lifecycle_validate_inputs signal candles timeframe inv = Ok tt ->
  exists r,
    replay_signal_lifecycle signal timeframe lifecycle_config (build_entry_execution_resolver config) inv candles = Ok r
    /\ (SignalLifecycleResult.status r, SignalLifecycleResult.activated_at r, SignalLifecycleResult.terminal_at r)
       = reference_fate signal timeframe lifecycle_config inv (fun _ => entry_instant timeframe signal) candles.
Proof.
  intros Hs Hcosts Hz Hb Hin. apply lifecycle_reference; [apply _|apply Hs|done|].
  intros previous bar [Hbar Hprev]%with_previous_bars. rewrite Forall_forall in Hb.
  apply production_evidence; auto. intros p ->. destruct Hprev as [|(q & [= ->] & Hq)]; [done|auto].
Qed.

(** ** Exits *)

(** An entry the policy produced for the request's signal. *)
Record exit_inputs (request : ExecutionRequest) (config : ExecutionConfig) : Prop := {
  xi_request : ExecutionRequest.validate_request request = true;
  xi_entry : EntryExecutionResult.validate_execution_evidence (ExecutionRequest.entry_execution request) = true;
  xi_candle : candle_wf (ExecutionRequest.candle request);
  xi_costs : costs_valid config
}.

(** The executed entry, its base and its risk. *)
Lemma executed_entry entry : EntryExecutionResult.validate_execution_evidence entry = true ->
  EntryExecutionResult.executed entry = true ->
  exists base price risk, EntryExecutionResult.base_entry_execution_price entry = Some base
    /\ EntryExecutionResult.executed_entry_price entry = Some price
    /\ EntryExecutionResult.actual_entry_risk entry = Some risk
    /\ (0 < Qval base /\ 0 < Qval price /\ 0 < Qval risk /\ 0 < Qval (EntryExecutionResult.planned_risk entry)
        /\ 0 <= Qval (EntryExecutionResult.entry_spread_cost entry)
        /\ 0 <= Qval (EntryExecutionResult.entry_slippage entry))%Q.
Proof.
  unfold EntryExecutionResult.validate_execution_evidence, EntryExecutionResult.fields_valid.
  intros H Hex. bool_hyps. rewrite Hex in *.
  destruct (EntryExecutionResult.base_entry_execution_price entry) as [base|]; [|done].
  destruct (EntryExecutionResult.executed_entry_price entry) as [price|]; [|done].
  destruct (EntryExecutionResult.actual_entry_risk entry) as [risk|]; [|done].
  cbn [opt_positive] in *. dec_to_Q. rewrite Qval_D0 in *. exists base, price, risk. split_and!; done.
Qed.

Section exits.
Context (request : ExecutionRequest) (config : ExecutionConfig).
Let direction := ExecutionRequest.direction request.
Let entry := ExecutionRequest.entry_execution request.

Definition exit_slippage_of (base : dec) : dec :=
  bps_of base (TradingCostConfig.slippage_bps_per_side (ExecutionConfig.costs config)).

Definition exit_price (base : dec) : dec :=
  match direction with
  | SignalDecision.LONG => dsub prec base (exit_slippage_of base)
  | _ => dadd prec base (exit_slippage_of base)
  end.

Definition gross_of (exit entry_price : dec) : dec :=
  match direction with
  | SignalDecision.LONG => dsub prec exit entry_price
  | _ => dsub prec entry_price exit
  end.

(** The net result of an exit at [base]. *)
Definition net_of (base entry_base entry_price : dec) : dec :=
  dsub prec (dsub prec (gross_of (exit_price base) entry_price) (EntryExecutionResult.entry_spread_cost entry))
    (bps_of (dadd prec entry_base base) (TradingCostConfig.commission_bps_per_side (ExecutionConfig.costs config))).

(** A price at least as bad for the trade. *)
Definition no_better (price than : dec) : Prop :=
  match direction with
  | SignalDecision.LONG => (Qval price <= Qval than)%Q
  | _ => (Qval than <= Qval price)%Q
  end.

Definition terminal_result (reason : ExecutionExitReason) (gap_detected : bool)
    (entry_base entry_price risk : dec) : ExecutionResult :=
  let requested := requested_price request reason in
  let base := base_price request reason gap_detected in
  let gross := gross_of (exit_price base) entry_price in
  let net := net_of base entry_base entry_price in
  let planned := EntryExecutionResult.planned_risk entry in
  ExecutionResult.mkExecutionResult (ExecutionConfig.policy config) (ExecutionRequest.candidate_id request)
    direction entry reason requested base entry_price (exit_price base) gap_detected
    (EntryExecutionResult.entry_spread_cost entry) (exit_slippage_of base)
    (dadd prec (EntryExecutionResult.entry_slippage entry) (exit_slippage_of base))
    (dabs prec (dsub prec base requested))
    (bps_of (dadd prec entry_base base) (TradingCostConfig.commission_bps_per_side (ExecutionConfig.costs config)))
    gross net planned risk (ddiv prec gross planned) (ddiv prec net planned) (classify_financial_outcome net)
    (if gap_detected then Candle.timestamp (ExecutionRequest.candle request)
     else ExecutionRequest.lifecycle_terminal_at request)
    (Candle.timestamp (ExecutionRequest.candle request)).

Hypothesis HI : exit_inputs request config.

Lemma exit_levels : (0 < Qval (ExecutionRequest.stop_loss request) /\ 0 < Qval (ExecutionRequest.take_profit request))%Q
  /\ nonempty (ExecutionRequest.candidate_id request) = true
  /\ EntryExecutionResult.executed entry = true
  /\ EntryExecutionResult.candidate_id entry = ExecutionRequest.candidate_id request
  /\ EntryExecutionResult.direction entry = direction
  /\ match direction with
     | SignalDecision.LONG => (Qval (ExecutionRequest.stop_loss request) < Qval (ExecutionRequest.take_profit request))%Q
     | SignalDecision.SHORT => (Qval (ExecutionRequest.take_profit request) < Qval (ExecutionRequest.stop_loss request))%Q
     | SignalDecision.NO_TRADE => False end.
Proof.
  destruct HI as [Hr _ _ _]. unfold ExecutionRequest.validate_request in Hr. cbv zeta in Hr. bool_hyps.
  unfold entry, direction. dec_to_Q. rewrite Qval_D0 in *. split_and!; try done.
  destruct (ExecutionRequest.direction request); [..|done]; bool_hyps; dec_to_Q; lra.
Qed.

Lemma requested_pos reason : (0 < Qval (requested_price request reason))%Q.
Proof. destruct exit_levels as [[H1 H2] _]. by destruct reason. Qed.

Lemma base_pos reason gap : (0 < Qval (base_price request reason gap))%Q.
Proof.
  unfold base_price. destruct (gap && _); [|apply requested_pos].
  pose proof (xi_candle _ _ HI) as H. unfold candle_wf in H. lra.
Qed.

Lemma exit_slippage_nonneg reason gap : (0 <= Qval (exit_slippage_of (base_price request reason gap)))%Q.
Proof.
  destruct (costs_nonneg config (xi_costs _ _ HI)) as (_ & _ & H). apply bps_nonneg; [apply base_pos | exact H].
Qed.

(** The stop side of an opening gap. *)
Lemma exit_decision_base reason gap : exit_decision request = Some (reason, gap) ->
  no_better (base_price request reason gap) (requested_price request reason)
  /\ (gap = false -> base_price request reason gap = requested_price request reason)
  /\ (reason = ExecutionExitReason.TAKE_PROFIT -> base_price request reason gap = requested_price request reason).
Proof.
  intros H. unfold base_price. destruct gap; cbn [andb].
  2: { split_and!; try done. unfold no_better. destruct direction; lra. }
  destruct (bool_decide (reason = ExecutionExitReason.STOP_LOSS)) eqn:E; bool_hyps.
  2: { split_and!; try done. unfold no_better. destruct direction; lra. }
  subst reason. split_and!; try done. unfold exit_decision in H. cbn [requested_price].
  destruct (ExecutionRequest.was_active_before_open request).
  2: { destruct (ExecutionRequest.lifecycle_status request); done. }
  unfold _opening_gap_reason in H. unfold no_better. fold direction in H.
  pose proof exit_levels as (_ & _ & _ & _ & _ & Hlv).
  destruct direction; repeat case_match; simplify_eq; dec_to_Q; try lra; done.
Qed.

Lemma exit_price_no_better reason gap : fits prec (base_price request reason gap) ->
  no_better (exit_price (base_price request reason gap)) (base_price request reason gap).
Proof.
  intros Hf. pose proof (exit_slippage_nonneg reason gap). unfold no_better, exit_price.
  destruct direction; [by apply dsub_le | by apply dadd_ge | by apply dadd_ge].
Qed.

Lemma commission_nonneg reason gap entry_base : (0 < Qval entry_base)%Q ->
  (0 <= Qval (bps_of (dadd prec entry_base (base_price request reason gap))
                     (TradingCostConfig.commission_bps_per_side (ExecutionConfig.costs config))))%Q.
Proof.
  intros H. pose proof (base_pos reason gap). apply bps_nonneg.
  - apply dadd_pos; [done | lra].
  - destruct (costs_nonneg config (xi_costs _ _ HI)) as (Hc & _). exact Hc.
Qed.

Lemma net_le_gross reason gap entry_base entry_price : (0 < Qval entry_base)%Q ->
  (0 <= Qval (EntryExecutionResult.entry_spread_cost entry))%Q ->
  (Qval (net_of (base_price request reason gap) entry_base entry_price)
   <= Qval (gross_of (exit_price (base_price request reason gap)) entry_price))%Q.
Proof.
  intros Hb Hs. unfold net_of.
  eapply Qle_trans; [apply dsub_le; [apply dsub_fits | by apply commission_nonneg]|].
  apply dsub_le; [|done]. unfold gross_of. destruct direction; apply dsub_fits.
Qed.

(** The only schema check an exit can fail: slippage measured from the base. *)
Definition exit_accepted (base : dec) : bool :=
  deqb (exit_slippage_of base) (dabs prec (dsub prec (exit_price base) base)).

Lemma terminal_result_valid reason gap entry_base entry_price risk :
  exit_decision request = Some (reason, gap) ->
  EntryExecutionResult.base_entry_execution_price entry = Some entry_base ->
  EntryExecutionResult.executed_entry_price entry = Some entry_price ->
  EntryExecutionResult.actual_entry_risk entry = Some risk ->
  dltb (D 0) (exit_price (base_price request reason gap)) = true ->
  ExecutionResult.validate_arithmetic (terminal_result reason gap entry_base entry_price risk)
  = exit_accepted (base_price request reason gap).
Proof.
  intros Hd Hb Hp Hk Hpos. pose proof exit_levels as (_ & _ & Hex & Hid & Hdir & _).
  destruct (executed_entry entry (xi_entry _ _ HI) Hex) as (b & pr & k & Hb' & Hp' & Hk' & H1 & H2 & H3 & H4 & H5 & H6).
  replace b with entry_base in * by congruence. replace pr with entry_price in * by congruence.
  replace k with risk in * by congruence. clear Hb' Hp' Hk'.
  pose proof (exit_slippage_nonneg reason gap) as Hs. pose proof (commission_nonneg reason gap entry_base H1) as Hc.
  pose proof (base_pos reason gap) as Hbp. pose proof (requested_pos reason) as Hrp.
  destruct (exit_decision_base reason gap Hd) as (_ & Hng & _).
  unfold ExecutionResult.validate_arithmetic.
  assert (ExecutionResult.fields_valid (terminal_result reason gap entry_base entry_price risk) = true) as ->.
  { unfold ExecutionResult.fields_valid, terminal_result.
    cbn [ExecutionResult.requested_exit_price ExecutionResult.base_execution_price ExecutionResult.executed_entry_price
         ExecutionResult.executed_exit_price ExecutionResult.spread_cost ExecutionResult.exit_slippage
         ExecutionResult.slippage ExecutionResult.gap_slippage ExecutionResult.commission_cost
         ExecutionResult.planned_risk ExecutionResult.actual_entry_risk].
    pose proof (dadd_nonneg (p := prec) _ _ H6 Hs) as Hsum.
    pose proof (dabs_nonneg (p := prec) (dsub prec (base_price request reason gap) (requested_price request reason))) as Hgap.
    rewrite Hpos, !dltb_D0, !dleb_D0 by assumption. reflexivity. }
  assert (ExecutionResult.preserves_entry (terminal_result reason gap entry_base entry_price risk) = true) as ->.
  { unfold ExecutionResult.preserves_entry, terminal_result.
    cbn [ExecutionResult.entry_execution ExecutionResult.candidate_id ExecutionResult.direction
         ExecutionResult.execution_policy ExecutionResult.executed_entry_price ExecutionResult.planned_risk
         ExecutionResult.actual_entry_risk].
    rewrite Hex, Hp, Hk, !deqb_refl. rewrite !bool_decide_eq_true_2 by (congruence || by destruct (ExecutionConfig.policy _), (EntryExecutionResult.execution_policy _)).
    reflexivity. }
  unfold terminal_result.
  cbn [ExecutionResult.entry_execution ExecutionResult.direction ExecutionResult.executed_entry_price
       ExecutionResult.executed_exit_price ExecutionResult.base_execution_price ExecutionResult.requested_exit_price
       ExecutionResult.gross_pnl ExecutionResult.net_pnl ExecutionResult.spread_cost ExecutionResult.commission_cost
       ExecutionResult.exit_slippage ExecutionResult.slippage ExecutionResult.gross_r ExecutionResult.net_r
       ExecutionResult.planned_risk ExecutionResult.financial_outcome ExecutionResult.gap_slippage
       ExecutionResult.gap_detected].
  fold (gross_of (exit_price (base_price request reason gap)) entry_price).
  unfold net_of. rewrite !deqb_refl. rewrite bool_decide_eq_true_2 by done. cbn [andb].
  fold (exit_accepted (base_price request reason gap)).
  enough (gap || deqb (dabs prec (dsub prec (base_price request reason gap) (requested_price request reason))) (D 0)
          = true) as -> by (by rewrite !andb_true_r).
  destruct gap; [done|]. rewrite Hng by done. cbn [orb]. apply deqb_true. rewrite Qval_D0, dabs_val by apply dsub_fits.
  assert (Qval (dsub prec (requested_price request reason) (requested_price request reason)) == 0)%Q as ->; [|reflexivity].
  apply (dsub_sign (p := prec)). reflexivity.
Qed.

(** The outcome of the exit. *)
Lemma execute_terminal_outcome : exists entry_base entry_price risk,
  EntryExecutionResult.base_entry_execution_price entry = Some entry_base
  /\ EntryExecutionResult.executed_entry_price entry = Some entry_price
  /\ EntryExecutionResult.actual_entry_risk entry = Some risk
  /\ (0 < Qval entry_base)%Q /\ (0 <= Qval (EntryExecutionResult.entry_spread_cost entry))%Q
  /\ execute_terminal_candle request config =
     match exit_decision request with
     | None => Ok None
     | Some (reason, gap) =>
         let base := base_price request reason gap in
         if dleb (exit_price base) (D 0) then
           Raise (Exc "ValueError" "configured slippage produced a non-positive execution price")
         else if exit_accepted base then Ok (Some (terminal_result reason gap entry_base entry_price risk))
         else Raise (Exc "ValidationError" "")
     end.
Proof.
  pose proof exit_levels as (_ & _ & Hex & _).
  destruct (executed_entry entry (xi_entry _ _ HI) Hex) as (b & pr & k & Hb & Hp & Hk & H1 & H2 & H3 & H4 & H5 & H6).
  exists b, pr, k. split_and!; try done. unfold execute_terminal_candle.
  destruct (exit_decision request) as [[reason gap]|] eqn:Hd; [|done]. cbv zeta.
  fold entry direction. rewrite Hb, Hp, Hk.
  fold (exit_slippage_of (base_price request reason gap)).
  fold (exit_price (base_price request reason gap)).
  fold (gross_of (exit_price (base_price request reason gap)) pr).
  assert (dleb pr (D 0) = false) as -> by (dec_to_Q; rewrite Qval_D0; lra). cbn [orb].
  destruct (dleb (exit_price (base_price request reason gap)) (D 0)) eqn:Hpos; [done|].
  cbn [raise_if mbind pyres_bind]. rewrite !ddiv_py_ok by lra. cbn [mbind pyres_bind].
  fold (net_of (base_price request reason gap) b pr).
  fold (terminal_result reason gap b pr k).
  unfold validated. rewrite terminal_result_valid; try done; [by destruct (exit_accepted _)|].
  dec_to_Q. rewrite Qval_D0 in *. lra.
Qed.
End exits.

(** Prices of the exit that the context represents. *)
Definition exit_prices_fit (request : ExecutionRequest) : Prop :=
  fits prec (Candle.open (ExecutionRequest.candle request)) /\ fits prec (ExecutionRequest.stop_loss request)
  /\ fits prec (ExecutionRequest.take_profit request).

Lemma base_fits request reason gap : exit_prices_fit request -> fits prec (base_price request reason gap).
Proof. intros (H1 & H2 & H3). unfold base_price. destruct (_ && _); [done|]. by destruct reason. Qed.

(** What an executed exit is. *)
Lemma terminal_some request config r : exit_inputs request config ->
  execute_terminal_candle request config = Ok (Some r) ->
  exists reason gap entry_base entry_price risk,
    exit_decision request = Some (reason, gap)
    /\ r = terminal_result request config reason gap entry_base entry_price risk
    /\ EntryExecutionResult.executed_entry_price (ExecutionRequest.entry_execution request) = Some entry_price
    /\ (Qval (ExecutionResult.net_pnl r) <= Qval (ExecutionResult.gross_pnl r))%Q
    /\ ExecutionResult.validate_arithmetic r = true.
Proof.
  intros HI H. destruct (execute_terminal_outcome request config HI) as (b & pr & k & Hb & Hp & Hk & H1 & H2 & Heq).
  rewrite Heq in H. destruct (exit_decision request) as [[reason gap]|] eqn:Hd; [|done]. cbv zeta in H.
  destruct (dleb _ (D 0)) eqn:Hpos; [done|]. destruct (exit_accepted _ _ _) eqn:Hac; [|done].
  injection H as <-. exists reason, gap, b, pr, k. split_and!; try done.
  - by apply net_le_gross.
  - rewrite terminal_result_valid; try done. dec_to_Q. rewrite Qval_D0 in *. lra.
Qed.

(** The exit policy is total and conservative. For a terminal request
    whose entry is a valid executed result, the policy returns nothing exactly
    when the bar stays ambiguous; otherwise it returns a result that passes
    its schema, or refuses a price driven to zero by slippage or a slippage
    that is not the distance of the rounded price. In the result the reason is
    the opening gap if the trade was open before the bar and the open is
    beyond a level, and the lifecycle's verdict otherwise; the base price is
    never better for the trade than the level, equals the open exactly for a
    stop gapped over and the level in every other case, so a target gapped
    over gets no improvement; the executed price is never better than the
    base; and costs only lower the result. No assertion can fail. *)
Theorem exit_policy_conservative request config : exit_inputs request config -> exit_prices_fit request ->
  match execute_terminal_candle request config with
  | Ok None => exit_decision request = None
  | Ok (Some r) =>
      exit_decision request = Some (ExecutionResult.exit_reason r, ExecutionResult.gap_detected r)
      /\ ExecutionResult.validate_arithmetic r = true
      /\ no_better request (ExecutionResult.base_execution_price r) (ExecutionResult.requested_exit_price r)
      /\ ExecutionResult.base_execution_price r =
         match ExecutionResult.exit_reason r, ExecutionResult.gap_detected r with
         | ExecutionExitReason.STOP_LOSS, true => Candle.open (ExecutionRequest.candle request)
         | ExecutionExitReason.STOP_LOSS, false => ExecutionRequest.stop_loss request
         | ExecutionExitReason.TAKE_PROFIT, _ => ExecutionRequest.take_profit request end
      /\ no_better request (ExecutionResult.executed_exit_price r) (ExecutionResult.base_execution_price r)
      /\ (Qval (ExecutionResult.net_pnl r) <= Qval (ExecutionResult.gross_pnl r))%Q
  | Raise e => exists reason gap, exit_decision request = Some (reason, gap)
      /\ (e = Exc "ValueError" "configured slippage produced a non-positive execution price"
          \/ e = Exc "ValidationError" "" /\ exit_accepted request config (base_price request reason gap) = false)
  end.
Proof.
  intros HI Hfit. destruct (execute_terminal_candle request config) as [[r|]|e] eqn:H.
  - destruct (terminal_some request config r HI H) as (reason & gap & b & pr & k & Hd & -> & _ & Hnet & Hv).
    destruct (exit_decision_base request config HI reason gap Hd) as (H1 & _ & _).
    split_and!; try done.
    + cbn. by destruct reason, gap.
    + by apply exit_price_no_better; [|apply base_fits].
  - destruct (execute_terminal_outcome request config HI) as (b & pr & k & _ & _ & _ & _ & _ & Heq).
    rewrite Heq in H. destruct (exit_decision request) as [[reason gap]|]; [|done]. cbv zeta in H. by repeat case_match.
  - destruct (execute_terminal_outcome request config HI) as (b & pr & k & _ & _ & _ & _ & _ & Heq).
    rewrite Heq in H. destruct (exit_decision request) as [[reason gap]|]; [|done]. cbv zeta in H.
    exists reason, gap. split; [done|]. destruct (dleb _ _); [left; congruence|].
    destruct (exit_accepted _ _ _); [done|]. right. split; [congruence|done].
Qed.

(** A stopped trade always loses. When entry and exit both come from the
    execution policy for the same stop, an exit for the stop's reason has a
    negative net result and is classified as a loss, whatever the candle and
    the costs: the entry is never beyond the stop, the exit never better than
    it, and neither cost can help. *)
Theorem stop_exit_is_a_loss entry_request request config r :
  entry_inputs entry_request -> exit_inputs request config -> exit_prices_fit request ->
  execute_entry_candle entry_request config = Ok (ExecutionRequest.entry_execution request) ->
  EntryExecutionRequest.stop_loss entry_request = ExecutionRequest.stop_loss request ->
  execute_terminal_candle request config = Ok (Some r) ->
  ExecutionResult.exit_reason r = ExecutionExitReason.STOP_LOSS ->
  (Qval (ExecutionResult.net_pnl r) < 0)%Q
  /\ ExecutionResult.financial_outcome r = FinancialOutcome.LOSS.
Proof.
  intros Hin HI Hfit Hentry Hstop H Hreason. pose proof (xi_costs _ _ HI) as Hcosts.
  destruct (exit_levels request config HI) as (_ & _ & Hex & _ & Hdir & _).
  destruct (terminal_some request config r HI H) as (reason & gap & b & pr & k & Hd & -> & Hp & Hnet & _).
  cbn in Hreason. subst reason.
  destruct (exit_decision_base request config HI _ gap Hd) as (H1 & _ & _). cbn [requested_price] in H1.
  pose proof (exit_price_no_better request config HI ExecutionExitReason.STOP_LOSS gap (base_fits request _ gap Hfit)) as H2.
  destruct (entry_result_shape _ _ _ Hentry Hex) as (reason & base & at_ & Hpt & He & _).
  pose proof (entry_point_spec entry_request Hin) as Hspec. rewrite Hpt in Hspec. destruct Hspec as (_ & Hn & Hf & _).
  destruct (fill_adverse entry_request config base (ei_request _ Hin) Hcosts Hn Hf) as [_ Hadv].
  rewrite He in Hp, Hdir. cbn in Hp, Hdir. injection Hp as <-. rewrite Hstop, Hdir in Hadv.
  set (exit := exit_price request config (base_price request ExecutionExitReason.STOP_LOSS gap)) in *.
  assert (Qval (gross_of request exit (fill_price entry_request config base)) < 0)%Q as Hgross.
  { unfold gross_of, no_better, adverse in *.
    destruct (ExecutionRequest.direction request); apply (dsub_sign (p := prec)); lra. }
  assert (Qval (ExecutionResult.net_pnl (terminal_result request config ExecutionExitReason.STOP_LOSS gap b
            (fill_price entry_request config base) k)) < 0)%Q as Hneg by (eapply Qle_lt_trans; [exact Hnet | exact Hgross]).
  split; [exact Hneg|]. unfold terminal_result in Hneg |- *.
  cbn [ExecutionResult.net_pnl ExecutionResult.financial_outcome] in Hneg |- *.
  unfold classify_financial_outcome.
  rewrite (proj2 (dltb_false _ _)) by (rewrite Qval_D0; lra). by rewrite (proj2 (dltb_true _ _)) by (rewrite Qval_D0; lra).
Qed.

(** ** Concrete fills *)

(** A signal long from the zone 99 to 101 with its planned entry at 100.01,
    over a bar that opens at 100, two basis points of slippage. *)
Definition near_request : EntryExecutionRequest :=
  EntryExecutionRequest.mkEntryExecutionRequest "s1" SignalDecision.LONG (D 99) (D 101) (Dec 10001 (-2)) (D 95)
    (Candle.mkCandle 0 (D 100) (D 102) (D 98) (D 101) (D 1)) None 60000000.

Definition costs_example (slippage : Z) : ExecutionConfig :=
  ExecutionConfig.mkExecutionConfig ExecutionPolicyName.CONSERVATIVE_MARKET_FILL
    (TradingCostConfig.mkTradingCostConfig (D 4) (D 1) (D slippage)).

Lemma near_request_inputs : entry_inputs near_request.
Proof. constructor; try (vm_compute; reflexivity). apply valid_candle_wf. vm_compute. reflexivity. Qed.

Lemma entry_policy_exact_witness :
  meets_zone near_request /\ execute_entry_candle near_request (costs_example 2) = Raise (Exc "ValidationError" "").
Proof.
  pose proof (entry_policy_exact near_request (costs_example 2) near_request_inputs ltac:(vm_compute; reflexivity)) as H.
  assert (entry_point near_request = (EntryExecutionReason.OPEN_INSIDE_ZONE, Some (D 100, 0))) as Hp
    by (vm_compute; reflexivity).
  cbv zeta in H. rewrite Hp in H. destruct H as (Hm & _ & _ & _ & _ & He). split; [exact Hm|].
  rewrite He. vm_compute. reflexivity.
Defined.

Lemma entry_near_reference_refused_witness :
  execute_entry_candle near_request (costs_example 2) = Raise (Exc "ValidationError" "").
Proof.
  apply (entry_near_reference_refused near_request (costs_example 2) EntryExecutionReason.OPEN_INSIDE_ZONE (D 100) 0
    near_request_inputs); try (vm_compute; reflexivity). split; vm_compute; reflexivity.
Defined.

(** The same order without slippage is accepted. *)
Example entry_without_slippage :
  EntryExecutionResult.executed <$> execute_entry_candle near_request (costs_example 0) = Ok true.
Proof. vm_compute. reflexivity. Qed.

Lemma production_lifecycle_total_witness :
  exists r, replay_signal_lifecycle signal_example Timeframe.ONE_MINUTE config_example
              (build_entry_execution_resolver (costs_example 0)) None bars_example = Ok r
    /\ SignalLifecycleResult.activated_at r = Some 60000000.
Proof.
  destruct (production_lifecycle_total signal_example Timeframe.ONE_MINUTE config_example (costs_example 0) None
    bars_example) as (r & Hr & Hf).
  - constructor; vm_compute; reflexivity.
  - vm_compute. reflexivity.
  - vm_compute. reflexivity.
  - unfold bars_example. repeat (apply Forall_cons; split); [..|apply Forall_nil; exact I];
      (split; [apply valid_candle_wf|]; vm_compute; reflexivity).
  - vm_compute. reflexivity.
  - exists r. split; [exact Hr|].
    match type of Hf with _ = ?f => assert (f.1.2 = Some 60000000) as Hv by (vm_compute; reflexivity) end.
    rewrite <-Hf in Hv. exact Hv.
Defined.

(** The entry above without slippage, then a bar that gaps over the stop. *)
Definition entry_example : EntryExecutionResult :=
  match execute_entry_candle near_request (costs_example 0) with
  | Ok r => r
  | Raise _ => skipped_result near_request (costs_example 0) EntryExecutionReason.ZONE_SKIPPED
  end.

Definition exit_example : ExecutionRequest :=
  ExecutionRequest.mkExecutionRequest "s1" SignalDecision.LONG entry_example (D 95) (D 110)
    (Candle.mkCandle 60000000 (D 93) (D 94) (D 90) (D 91) (D 1)) true SignalLifecycleStatus.SL_HIT 120000000.

Lemma exit_example_inputs : exit_inputs exit_example (costs_example 0).
Proof. constructor; try (vm_compute; reflexivity). apply valid_candle_wf. vm_compute. reflexivity. Qed.

Lemma exit_policy_conservative_witness :
  exists r, execute_terminal_candle exit_example (costs_example 0) = Ok (Some r)
    /\ ExecutionResult.base_execution_price r = D 93.
Proof.
  pose proof (exit_policy_conservative exit_example (costs_example 0) exit_example_inputs
    ltac:(split; [|split]; vm_compute; reflexivity)) as H.
  destruct (execute_terminal_candle exit_example (costs_example 0)) as [[r|]|e] eqn:E.
  - exists r. split; [reflexivity|]. destruct H as (Hd & _ & _ & Hb & _). rewrite Hb.
    assert (exit_decision exit_example = Some (ExecutionExitReason.STOP_LOSS, true)) as Hd' by (vm_compute; reflexivity).
    rewrite Hd' in Hd. injection Hd as <- <-. reflexivity.
  - exfalso. vm_compute in E. discriminate E.
  - exfalso. vm_compute in E. discriminate E.
Defined.

Lemma stop_exit_is_a_loss_witness :
  exists r, execute_terminal_candle exit_example (costs_example 0) = Ok (Some r)
    /\ ExecutionResult.financial_outcome r = FinancialOutcome.LOSS.
Proof.
  destruct (execute_terminal_candle exit_example (costs_example 0)) as [[r|]|e] eqn:E.
  - exists r. split; [reflexivity|].
    apply (stop_exit_is_a_loss near_request exit_example (costs_example 0) r near_request_inputs exit_example_inputs
      ltac:(split; [|split]; vm_compute; reflexivity) ltac:(vm_compute; reflexivity) eq_refl E).
    vm_compute in E. injection E as <-. reflexivity.
  - exfalso. vm_compute in E. discriminate E.
  - exfalso. vm_compute in E. discriminate E.
Defined.
