(* ===== verification/Crt.v ===== *)
(** Candle range theory: [schemas/crt.py] and [engines/crt/detector.py].

    The detector checks formally confirmed sweeps against the candles and
    turns each into a confirmation or a rejection. *)
From Stdlib Require Import ZArith QArith Lia Lqa Sorting.Permutation.
From stdpp Require Import base list strings numbers sets gmap.
From S2P Require Import Prelude Decimal Time Candle Signal.
Local Open Scope Z_scope.

(** ** Schemas *)

Module CRTSweptSide.
Inductive CRTSweptSide := HIGH | LOW.
#[global] Instance CRTSweptSide_eqdec : EqDecision CRTSweptSide := ltac:(solve_decision).
End CRTSweptSide.
Abbreviation CRTSweptSide := CRTSweptSide.CRTSweptSide.

Module CRTDirection.
Inductive CRTDirection := BULLISH | BEARISH.
#[global] Instance CRTDirection_eqdec : EqDecision CRTDirection := ltac:(solve_decision).
End CRTDirection.
Abbreviation CRTDirection := CRTDirection.CRTDirection.

Module CRTEntryRelation.
Inductive CRTEntryRelation := BUY_BELOW_THIRD_CANDLE_OPEN | SELL_ABOVE_THIRD_CANDLE_OPEN.
#[global] Instance CRTEntryRelation_eqdec : EqDecision CRTEntryRelation := ltac:(solve_decision).
End CRTEntryRelation.
Abbreviation CRTEntryRelation := CRTEntryRelation.CRTEntryRelation.

Module CRTConfirmationStatus.
Inductive CRTConfirmationStatus := SWEEP_CANDLE_CLOSED.
End CRTConfirmationStatus.
Abbreviation CRTConfirmationStatus := CRTConfirmationStatus.CRTConfirmationStatus.

Module CRTSignalUse.
Inductive CRTSignalUse := CONFIRMATION | FILTER.
#[global] Instance CRTSignalUse_eqdec : EqDecision CRTSignalUse := ltac:(solve_decision).
End CRTSignalUse.
Abbreviation CRTSignalUse := CRTSignalUse.CRTSignalUse.

Module CRTSignalMatchStatus.
Inductive CRTSignalMatchStatus := DISABLED | NOT_USED | MISSING | MATCH | DIRECTION_CONFLICT.
#[global] Instance CRTSignalMatchStatus_eqdec : EqDecision CRTSignalMatchStatus := ltac:(solve_decision).
End CRTSignalMatchStatus.
Abbreviation CRTSignalMatchStatus := CRTSignalMatchStatus.CRTSignalMatchStatus.

Module CRTRejectionCode.
Inductive CRTRejectionCode :=
| UNKNOWN_RANGE_CANDLE | UNKNOWN_MANIPULATION_CANDLE | NON_CONSECUTIVE_CANDLES
| LEVEL_DOES_NOT_MATCH_RANGE_BOUNDARY | SWEEP_CONFIRMED_BEFORE_CANDLE_CLOSE
| EVIDENCE_NOT_YET_CONFIRMED | DUAL_SIDE_SWEEP_NEEDS_FORMALIZATION.
#[global] Instance CRTRejectionCode_eqdec : EqDecision CRTRejectionCode := ltac:(solve_decision).
End CRTRejectionCode.
Abbreviation CRTRejectionCode := CRTRejectionCode.CRTRejectionCode.

Module CRTConfig.
Record CRTConfig := mkCRTConfig {
  enabled : bool;
  signal_uses : list CRTSignalUse;
  weight : option Z
}.
Definition require_unique_signal_uses (c : CRTConfig) : bool :=
  match weight c with Some w => 0 <=? w | None => true end && bool_decide (NoDup (signal_uses c)).
End CRTConfig.
Abbreviation CRTConfig := CRTConfig.CRTConfig.

Module CRTSweepEvidence.
Record CRTSweepEvidence := mkCRTSweepEvidence {
  evidence_id : string;
  source_event_id : string;
  range_candle_timestamp : datetime;
  manipulation_candle_timestamp : datetime;
  swept_side : CRTSweptSide;
  level : dec;
  confirmed_at : datetime
}.
End CRTSweepEvidence.
Abbreviation CRTSweepEvidence := CRTSweepEvidence.CRTSweepEvidence.

Module CRTConfirmation.
Record CRTConfirmation := mkCRTConfirmation {
  confirmation_id : string;
  status : CRTConfirmationStatus;
  direction : CRTDirection;
  timeframe : Timeframe;
  range_candle_timestamp : datetime;
  range_high : dec;
  range_low : dec;
  manipulation_candle_timestamp : datetime;
  manipulation_closed_at : datetime;
  swept_side : CRTSweptSide;
  sweep_level : dec;
  source_event_id : string;
  confirmed_at : datetime;
  third_candle_timestamp : option datetime;
  third_candle_open : option dec;
  entry_relation : CRTEntryRelation;
  opposite_wick_reference : dec
}.
Definition validate_reference_roles (c : CRTConfirmation) : bool :=
  dltb (D 0) (range_high c) && dltb (D 0) (range_low c) && dltb (D 0) (sweep_level c)
  && opt_positive (third_candle_open c) && dltb (D 0) (opposite_wick_reference c)
  && negb (dleb (range_high c) (range_low c))
  && Bool.eqb (is_some (third_candle_timestamp c)) (is_some (third_candle_open c))
  && negb (confirmed_at c <? manipulation_closed_at c).
End CRTConfirmation.
Abbreviation CRTConfirmation := CRTConfirmation.CRTConfirmation.

Module CRTRejection.
Record CRTRejection := mkCRTRejection {
  evidence_ids : list string;
  code : CRTRejectionCode;
  evaluated_at : datetime
}.
Definition valid (r : CRTRejection) : bool := negb (length (evidence_ids r) =? 0)%nat.
End CRTRejection.
Abbreviation CRTRejection := CRTRejection.CRTRejection.

Module CRTAnalysisResult.
Record CRTAnalysisResult := mkCRTAnalysisResult {
  enabled : bool;
  timeframe : Timeframe;
  data_cutoff_at : option datetime;
  confirmations : list CRTConfirmation;
  rejections : list CRTRejection
}.
End CRTAnalysisResult.
Abbreviation CRTAnalysisResult := CRTAnalysisResult.CRTAnalysisResult.

(** ** The detector *)

(** [cutoff] *)
Definition crt_cutoff (duration : Z) (candles : list Candle) : option datetime :=
  (fun c => Candle.timestamp c + duration) <$> list.last candles.

(** [cutoff or t]: an instant is always true as a Python value. *)
Definition cutoff_or (cutoff : option datetime) (t : datetime) : datetime :=
  match cutoff with Some c => c | None => t end.

Definition rejected (evidence : CRTSweepEvidence) (cutoff : option datetime) (code : CRTRejectionCode) : pyres CRTRejection :=
  validated CRTRejection.valid
    (CRTRejection.mkCRTRejection [CRTSweepEvidence.evidence_id evidence] code
      (cutoff_or cutoff (CRTSweepEvidence.confirmed_at evidence))).

(** The rejection code of [_validate_evidence], or the two candles it found;
    the two dictionary lookups after it repeat the ones here. *)
Definition _validate_evidence (evidence : CRTSweepEvidence) (candles : list Candle) (by_timestamp : gmap Z nat)
    (duration : Z) (cutoff : option datetime) : CRTRejectionCode + (nat * nat * Candle * Candle) :=
  match by_timestamp !! CRTSweepEvidence.range_candle_timestamp evidence with
  | None => inl CRTRejectionCode.UNKNOWN_RANGE_CANDLE
  | Some range_index =>
  match by_timestamp !! CRTSweepEvidence.manipulation_candle_timestamp evidence with
  | None => inl CRTRejectionCode.UNKNOWN_MANIPULATION_CANDLE
  | Some manipulation_index =>
      if negb (manipulation_index =? range_index + 1)%nat then inl CRTRejectionCode.NON_CONSECUTIVE_CANDLES
      else match candles !! range_index, candles !! manipulation_index with
      | Some range_candle, Some manipulation_candle =>
          let expected_level := match CRTSweepEvidence.swept_side evidence with
            | CRTSweptSide.HIGH => Candle.high range_candle
            | CRTSweptSide.LOW => Candle.low range_candle end in
          if negb (deqb (CRTSweepEvidence.level evidence) expected_level)
          then inl CRTRejectionCode.LEVEL_DOES_NOT_MATCH_RANGE_BOUNDARY
          else if CRTSweepEvidence.confirmed_at evidence <? Candle.timestamp manipulation_candle + duration
          then inl CRTRejectionCode.SWEEP_CONFIRMED_BEFORE_CANDLE_CLOSE
          else if match cutoff with Some c => c <? CRTSweepEvidence.confirmed_at evidence | None => true end
          then inl CRTRejectionCode.EVIDENCE_NOT_YET_CONFIRMED
          else inr (range_index, manipulation_index, range_candle, manipulation_candle)
      | _, _ => inl CRTRejectionCode.UNKNOWN_RANGE_CANDLE
      end
  end
  end.

(** The confirmation of accepted evidence. *)
Definition crt_confirmation (evidence : CRTSweepEvidence) (timeframe : Timeframe) (duration : Z)
    (range_candle manipulation_candle : Candle) (third : option Candle) : CRTConfirmation :=
  let bullish := bool_decide (CRTSweepEvidence.swept_side evidence = CRTSweptSide.LOW) in
  CRTConfirmation.mkCRTConfirmation ("CRT:" +:+ CRTSweepEvidence.evidence_id evidence)
    CRTConfirmationStatus.SWEEP_CANDLE_CLOSED
    (if bullish then CRTDirection.BULLISH else CRTDirection.BEARISH) timeframe
    (Candle.timestamp range_candle) (Candle.high range_candle) (Candle.low range_candle)
    (CRTSweepEvidence.manipulation_candle_timestamp evidence) (Candle.timestamp manipulation_candle + duration)
    (CRTSweepEvidence.swept_side evidence) (CRTSweepEvidence.level evidence)
    (CRTSweepEvidence.source_event_id evidence) (CRTSweepEvidence.confirmed_at evidence)
    (Candle.timestamp <$> third) (Candle.open <$> third)
    (if bullish then CRTEntryRelation.BUY_BELOW_THIRD_CANDLE_OPEN else CRTEntryRelation.SELL_ABOVE_THIRD_CANDLE_OPEN)
    (if bullish then Candle.high range_candle else Candle.low range_candle).

(** The two lists the loop appends to. *)
Definition CrtLists : Type := list CRTConfirmation * list CRTRejection.

Section detector.
Context (candles : list Candle) (timeframe : Timeframe) (duration : Z) (cutoff : option datetime).
Context (by_timestamp : gmap Z nat).

(** The inner loop's body. *)
Definition judge_evidence (acc : CrtLists) (evidence : CRTSweepEvidence) : pyres CrtLists :=
  match _validate_evidence evidence candles by_timestamp duration cutoff with
  | inl code => rejection ← rejected evidence cutoff code; Ok (acc.1, acc.2 ++ [rejection])
  | inr (_, manipulation_index, range_candle, manipulation_candle) =>
      confirmation ← validated CRTConfirmation.validate_reference_roles
        (crt_confirmation evidence timeframe duration range_candle manipulation_candle
           (candles !! (manipulation_index + 1)%nat));
      Ok (acc.1 ++ [confirmation], acc.2)
  end.

(** [len({item.swept_side ...}) > 1] *)
Definition dual_sided (group : list CRTSweepEvidence) : bool :=
  bool_decide (CRTSweptSide.HIGH ∈ map CRTSweepEvidence.swept_side group)
  && bool_decide (CRTSweptSide.LOW ∈ map CRTSweepEvidence.swept_side group).

(** The outer loop's body; a group is never empty. *)
Definition judge_group (acc : CrtLists) (group : list CRTSweepEvidence) : pyres CrtLists :=
  if dual_sided group then
    match py_min Z.ltb (map CRTSweepEvidence.confirmed_at group) with
    | None => Raise (Exc "ValueError" "min() iterable argument is empty")
    | Some earliest =>
        rejection ← validated CRTRejection.valid
          (CRTRejection.mkCRTRejection (sort_by str_lt (map CRTSweepEvidence.evidence_id group))
            CRTRejectionCode.DUAL_SIDE_SWEEP_NEEDS_FORMALIZATION (cutoff_or cutoff earliest));
        Ok (acc.1, acc.2 ++ [rejection])
    end
  else py_fold judge_evidence acc group.
End detector.

(** [grouped]: a dictionary keeps the order in which its keys were added. *)
Definition Groups : Type := list ((datetime * datetime) * list CRTSweepEvidence).

Definition group_key (evidence : CRTSweepEvidence) : datetime * datetime :=
  (CRTSweepEvidence.range_candle_timestamp evidence, CRTSweepEvidence.manipulation_candle_timestamp evidence).

(** [grouped\[key\].append(evidence)] on a [defaultdict(list)]. *)
Fixpoint group_append (groups : Groups) (evidence : CRTSweepEvidence) : Groups :=
  match groups with
  | [] => [(group_key evidence, [evidence])]
  | (key, group) :: rest =>
      if bool_decide (key = group_key evidence) then (key, group ++ [evidence]) :: rest
      else (key, group) :: group_append rest evidence
  end.

(** [key=lambda item: (item\[0\]\[1\], item\[0\]\[0\])] *)
Definition group_lt : (datetime * datetime) * list CRTSweepEvidence -> (datetime * datetime) * list CRTSweepEvidence -> bool :=
  lex_lt (on_key (fun item => item.1.2) Z.ltb) (on_key (fun item => item.1.1) Z.ltb).

Definition confirmation_lt : CRTConfirmation -> CRTConfirmation -> bool :=
  lex_lt (on_key CRTConfirmation.confirmed_at Z.ltb) (on_key CRTConfirmation.confirmation_id str_lt).

Definition analyze_crt (candles : list Candle) (timeframe : Timeframe) (config : CRTConfig)
    (confirmed_sweeps : list CRTSweepEvidence) : pyres CRTAnalysisResult :=
  let duration := timeframe_duration timeframe in
  _ ← validate_spacing "CRTInputError" timeframe candles;
  let cutoff := crt_cutoff duration candles in
  if negb (CRTConfig.enabled config) then
    Ok (CRTAnalysisResult.mkCRTAnalysisResult false timeframe cutoff [] [])
  else
    _ ← raise_if (negb (bool_decide (NoDup (map CRTSweepEvidence.evidence_id confirmed_sweeps))))
          (Exc "CRTInputError" "CRT sweep evidence ids must be unique");
    let by_timestamp := index_by Candle.timestamp candles in
    let grouped := foldl group_append [] confirmed_sweeps in
    '(confirmations, rejections) ←
      py_fold (fun acc item => judge_group candles timeframe duration cutoff by_timestamp acc item.2) ([], [])
        (sort_by group_lt grouped);
    Ok (CRTAnalysisResult.mkCRTAnalysisResult true timeframe cutoff (sort_by confirmation_lt confirmations) rejections).
