(* ===== verification/CrtTheory.v ===== *)
(** Theorems on the candle range detector of [engines/crt/detector.py]. *)
From Stdlib Require Import ZArith QArith Lia Lqa Sorting.Permutation Sorting.Sorted.
From stdpp Require Import base list strings numbers sets gmap.
From S2P Require Import Prelude Decimal Time Candle Signal Crt.
Local Open Scope Z_scope.

(** ** The dictionaries *)

(** The groups hold the evidence of each key in its order. *)
Definition groups_of (groups : Groups) (l : list CRTSweepEvidence) : Prop :=
  NoDup (map fst groups)
  /\ (forall key g, (key, g) ∈ groups -> g = List.filter (fun e => bool_decide (group_key e = key)) l /\ g <> [])
  /\ Permutation (concat (map snd groups)) l.

Lemma group_append_spec groups l e : groups_of groups l -> groups_of (group_append groups e) (l ++ [e]).
Proof.
  intros (Hnd & Hg & Hp).
  assert (forall gs, map fst (group_append gs e) =
    if bool_decide (group_key e ∈ map fst gs) then map fst gs else map fst gs ++ [group_key e]) as Hkeys.
  { induction gs as [|[k g] gs IH]; [done|]. cbn.
    destruct (decide (k = group_key e)) as [->|Hne].
    - by rewrite !bool_decide_eq_true_2 by (done || constructor).
    - rewrite (bool_decide_eq_false_2 (k = _)) by done. cbn. rewrite IH.
      rewrite (bool_decide_ext (group_key e ∈ k :: map fst gs) (group_key e ∈ map fst gs)) by set_solver.
      by case_bool_decide. }
  assert (forall gs, Permutation (concat (map snd (group_append gs e))) (concat (map snd gs) ++ [e])) as Hperm.
  { induction gs as [|[k g] gs IH]; [done|]. cbn. case_bool_decide; cbn.
    - rewrite <-!app_assoc. apply Permutation_app_head. by rewrite Permutation_app_comm.
    - rewrite IH. by rewrite app_assoc. }
  assert (forall gs key g, NoDup (map fst gs) -> (key, g) ∈ group_append gs e ->
    (key <> group_key e /\ (key, g) ∈ gs)
    \/ (key = group_key e /\ ((exists g', (key, g') ∈ gs /\ g = g' ++ [e]) \/ ((key ∉ map fst gs) /\ g = [e])))) as Hin.
  { induction gs as [|[k g0] gs IH]; intros key g Hndg; cbn.
    - intros [= -> ->]%list_elem_of_singleton. right. split; [done|]. right. split; [set_solver|done].
    - apply NoDup_cons in Hndg as [Hk Hndg]. destruct (decide (k = group_key e)) as [E|E];
        [rewrite bool_decide_eq_true_2 by done | rewrite bool_decide_eq_false_2 by done].
      + intros [[= -> ->]|H]%elem_of_cons; [right; split; [done|]; left; exists g0; split; [constructor|done]|].
        left. split; [|by constructor]. intros ->. apply Hk. rewrite E. apply list_elem_of_fmap. by exists (group_key e, g).
      + intros [[= -> ->]|H]%elem_of_cons; [left; split; [done|constructor]|].
        destruct (IH key g Hndg H) as [[H1 H2]|[-> [(g' & H1 & H2)|[H1 ->]]]].
        * left. split; [done|by constructor].
        * right. split; [done|]. left. exists g'. split; [by constructor|done].
        * right. split; [done|]. right. split; [|done]. set_solver. }
  split_and!.
  - rewrite Hkeys. case_bool_decide; [done|]. apply NoDup_app. split_and!; [done|set_solver|apply NoDup_singleton].
  - intros key g H. rewrite List.filter_app. cbn. destruct (Hin groups key g Hnd H) as [[Hne H']|[-> [(g' & H' & ->)|[Hno ->]]]].
    + destruct (Hg _ _ H') as [-> Hn]. rewrite bool_decide_eq_false_2 by congruence. by rewrite app_nil_r.
    + destruct (Hg _ _ H') as [<- Hn]. rewrite bool_decide_eq_true_2 by done. split; [done|]. by destruct g'.
    + rewrite bool_decide_eq_true_2 by done. split; [|done].
      destruct (List.filter (fun e0 => bool_decide (group_key e0 = group_key e)) l) as [|x xs] eqn:E; [done|].
      exfalso. assert (x ∈ List.filter (fun e0 => bool_decide (group_key e0 = group_key e)) l) as Hx by (rewrite E; constructor).
      apply list_elem_of_In, filter_In in Hx as [Hx Hk]. apply bool_decide_eq_true in Hk.
      apply list_elem_of_In in Hx. rewrite <-Hp in Hx. apply list_elem_of_In, in_concat in Hx as (g & Hgi & Hxg).
      apply list_elem_of_In, list_elem_of_fmap in Hgi as ([k g'] & -> & Hgi). cbn in Hxg.
      pose proof (Hg _ _ Hgi) as [-> _]. apply filter_In in Hxg as [_ Hxk]. apply bool_decide_eq_true in Hxk.
      apply Hno. rewrite <-Hk, Hxk. apply list_elem_of_fmap. by eexists (k, _).
  - rewrite Hperm. by rewrite Hp.
Qed.

Lemma groups_spec l : groups_of (foldl group_append [] l) l.
Proof.
  induction l as [|e l IH] using rev_ind; [|rewrite foldl_app; by apply group_append_spec].
  split_and!; [constructor|by intros ?? ?%elem_of_nil|done].
Qed.

(** ** The verdict on one piece of evidence *)

Section detector.
Context (candles : list Candle) (timeframe : Timeframe) (He : evenly_spaced timeframe candles).
Let duration := timeframe_duration timeframe.
Let cutoff := crt_cutoff duration candles.
Let by_timestamp := index_by Candle.timestamp candles.

(** What makes evidence formal: its two candles are consecutive, its level is
    the boundary of the first that it claims to sweep, and it was confirmed
    after the second closed and not after the data ends. *)
Definition formal (evidence : CRTSweepEvidence) (i : nat) (range_candle manipulation_candle : Candle) : Prop :=
  candles !! i = Some range_candle /\ candles !! S i = Some manipulation_candle
  /\ Candle.timestamp range_candle = CRTSweepEvidence.range_candle_timestamp evidence
  /\ Candle.timestamp manipulation_candle = CRTSweepEvidence.manipulation_candle_timestamp evidence
  /\ (Qval (CRTSweepEvidence.level evidence) ==
      Qval (match CRTSweepEvidence.swept_side evidence with
            | CRTSweptSide.HIGH => Candle.high range_candle | CRTSweptSide.LOW => Candle.low range_candle end))%Q
  /\ Candle.timestamp manipulation_candle + duration <= CRTSweepEvidence.confirmed_at evidence
  /\ exists c, cutoff = Some c /\ CRTSweepEvidence.confirmed_at evidence <= c.

Lemma validate_evidence_formal evidence :
  match _validate_evidence evidence candles by_timestamp duration cutoff with
  | inr (i, j, range_candle, manipulation_candle) => j = S i /\ formal evidence i range_candle manipulation_candle
  | inl code => (forall i rc mc, ~ formal evidence i rc mc)
      /\ code <> CRTRejectionCode.DUAL_SIDE_SWEEP_NEEDS_FORMALIZATION
  end.
Proof.
  unfold _validate_evidence, formal.
  destruct (by_timestamp !! CRTSweepEvidence.range_candle_timestamp evidence) as [i|] eqn:Ei.
  2: { split; [|done]. intros i rc mc (Hi & _ & Ht & _).
       assert (by_timestamp !! CRTSweepEvidence.range_candle_timestamp evidence = Some i) as E
         by (apply (index_by_open timeframe); eauto). congruence. }
  apply (index_by_open timeframe) in Ei as (rc & Hrc & Hrt); [|done].
  destruct (by_timestamp !! CRTSweepEvidence.manipulation_candle_timestamp evidence) as [j|] eqn:Ej.
  2: { split; [|done]. intros i' rc' mc (_ & Hi & _ & Ht & _).
       assert (by_timestamp !! CRTSweepEvidence.manipulation_candle_timestamp evidence = Some (S i')) as E
         by (apply (index_by_open timeframe); eauto). congruence. }
  apply (index_by_open timeframe) in Ej as (mc & Hmc & Hmt); [|done].
  assert (forall i' rc' mc', candles !! i' = Some rc' -> candles !! S i' = Some mc' ->
    Candle.timestamp rc' = CRTSweepEvidence.range_candle_timestamp evidence ->
    Candle.timestamp mc' = CRTSweepEvidence.manipulation_candle_timestamp evidence ->
    i' = i /\ S i' = j /\ rc' = rc /\ mc' = mc) as Huniq.
  { intros i' rc' mc' H1 H2 H3 H4.
    assert (i' = i) as -> by (eapply (evenly_spaced_inj timeframe candles); eauto; congruence).
    assert (S i = j) as <- by (eapply (evenly_spaced_inj timeframe candles); eauto; congruence).
    split_and!; congruence. }
  destruct (Nat.eqb_spec j (i + 1)) as [->|Hne]; cbn [negb].
  2: { split; [|done]. intros i' rc' mc' (H1 & H2 & H3 & H4 & _). destruct (Huniq _ _ _ H1 H2 H3 H4) as (-> & H & _). lia. }
  rewrite Hrc, Hmc.
  destruct (deqb _ _) eqn:El; cbn [negb].
  2: { split; [|done]. intros i' rc' mc' (H1 & H2 & H3 & H4 & H5 & _).
       destruct (Huniq _ _ _ H1 H2 H3 H4) as (_ & _ & -> & _). apply deqb_false in El. apply El. rewrite H5.
       by destruct (CRTSweepEvidence.swept_side evidence). }
  destruct (Z.ltb_spec (CRTSweepEvidence.confirmed_at evidence) (Candle.timestamp mc + duration)) as [Hc|Hc].
  { split; [|done]. intros i' rc' mc' (H1 & H2 & H3 & H4 & _ & H5 & _).
    destruct (Huniq _ _ _ H1 H2 H3 H4) as (_ & _ & _ & ->). lia. }
  destruct cutoff as [c|].
  2: { split; [|done]. by intros i' rc' mc' (_ & _ & _ & _ & _ & _ & c & ? & _). }
  destruct (Z.ltb_spec c (CRTSweepEvidence.confirmed_at evidence)) as [Hcc|Hcc].
  { split; [|done]. intros i' rc' mc' (_ & _ & _ & _ & _ & _ & c' & [= <-] & ?). lia. }
  split; [lia|]. replace (S i) with (i + 1)%nat by lia. apply deqb_true in El.
  split_and!; try done. by exists c.
Qed.

Lemma formal_unique evidence i rc mc i' rc' mc' :
  formal evidence i rc mc -> formal evidence i' rc' mc' -> i = i' /\ rc = rc' /\ mc = mc'.
Proof.
  intros (H1 & H2 & H3 & _) (H1' & H2' & H3' & _).
  assert (i = i') as -> by (eapply (evenly_spaced_inj timeframe candles); eauto; congruence).
  split_and!; congruence.
Qed.

(** The pure verdict: a confirmation or a rejection. *)
Definition verdict (evidence : CRTSweepEvidence) : CRTRejection + CRTConfirmation :=
  match _validate_evidence evidence candles by_timestamp duration cutoff with
  | inl code => inl (CRTRejection.mkCRTRejection [CRTSweepEvidence.evidence_id evidence] code
      (cutoff_or cutoff (CRTSweepEvidence.confirmed_at evidence)))
  | inr (_, j, range_candle, manipulation_candle) =>
      inr (crt_confirmation evidence timeframe duration range_candle manipulation_candle (candles !! (j + 1)%nat))
  end.

Definition confirmation_of (evidence : CRTSweepEvidence) : option CRTConfirmation :=
  match verdict evidence with inr c => Some c | inl _ => None end.
Definition rejection_of (evidence : CRTSweepEvidence) : option CRTRejection :=
  match verdict evidence with inl r => Some r | inr _ => None end.

(** The confirmations and the rejections of a group. *)
Definition group_verdict (group : list CRTSweepEvidence) : CrtLists :=
  if dual_sided group then
    ([], [CRTRejection.mkCRTRejection (sort_by str_lt (map CRTSweepEvidence.evidence_id group))
            CRTRejectionCode.DUAL_SIDE_SWEEP_NEEDS_FORMALIZATION
            (match py_min Z.ltb (map CRTSweepEvidence.confirmed_at group) with
             | Some earliest => cutoff_or cutoff earliest | None => 0 end)])
  else (omap confirmation_of group, omap rejection_of group).

Hypothesis Hbars : Forall (fun c => candle_wf c /\ (Qval (Candle.low c) < Qval (Candle.high c))%Q) candles.

Lemma confirmation_valid evidence i rc mc third :
  formal evidence i rc mc -> (forall c, third = Some c -> c ∈ candles) ->
  CRTConfirmation.validate_reference_roles (crt_confirmation evidence timeframe duration rc mc third) = true.
Proof.
  intros (H1 & H2 & _ & _ & Hl & Hc & _) Hthird. rewrite Forall_forall in Hbars.
  destruct (Hbars rc) as [Hw Hlt]; [by eapply list_elem_of_lookup_2|]. unfold candle_wf in Hw.
  unfold CRTConfirmation.validate_reference_roles, crt_confirmation.
  cbn [CRTConfirmation.range_high CRTConfirmation.range_low CRTConfirmation.sweep_level
       CRTConfirmation.third_candle_open CRTConfirmation.third_candle_timestamp
       CRTConfirmation.opposite_wick_reference CRTConfirmation.confirmed_at CRTConfirmation.manipulation_closed_at].
  assert (forall a, (0 < Qval a)%Q -> dltb (D 0) a = true) as P by (intros; dec_to_Q; by rewrite Qval_D0).
  rewrite (P (Candle.high rc)), (P (Candle.low rc)) by lra.
  rewrite (P (CRTSweepEvidence.level evidence)) by (rewrite Hl; destruct (CRTSweepEvidence.swept_side evidence); lra).
  rewrite (P (if bool_decide _ then _ else _)) by (destruct (bool_decide _); lra).
  rewrite (proj2 (dleb_false _ _)) by done. rewrite (proj2 (Z.ltb_ge _ _)) by done.
  destruct third as [c|]; [|done]. destruct (Hbars c (Hthird c eq_refl)) as [Hwc _]. unfold candle_wf in Hwc.
  cbn. by rewrite (P (Candle.open c)) by lra.
Qed.

Lemma judge_evidence_ok acc evidence : judge_evidence candles timeframe duration cutoff by_timestamp acc evidence =
  Ok (acc.1 ++ match confirmation_of evidence with Some c => [c] | None => [] end,
      acc.2 ++ match rejection_of evidence with Some r => [r] | None => [] end).
Proof.
  unfold judge_evidence, confirmation_of, rejection_of, verdict.
  pose proof (validate_evidence_formal evidence) as H.
  destruct (_validate_evidence _ _ _ _ _) as [code|[[[i j] rc] mc]].
  - cbn. by rewrite app_nil_r.
  - destruct H as [-> Hf].
    rewrite (proj2 (validated_ok _ _ _) (conj (confirmation_valid evidence i rc mc (candles !! (S i + 1)%nat) Hf
      (fun c Hc => list_elem_of_lookup_2 _ _ _ Hc)) eq_refl)).
    cbn. by rewrite app_nil_r.
Qed.

Lemma judge_group_ok acc group : group <> [] ->
  judge_group candles timeframe duration cutoff by_timestamp acc group =
  Ok (acc.1 ++ (group_verdict group).1, acc.2 ++ (group_verdict group).2).
Proof.
  intros Hne. unfold judge_group, group_verdict. destruct (dual_sided group).
  - destruct (py_min _ _) eqn:E; [|by apply py_min_None, map_eq_nil in E].
    assert (CRTRejection.valid (CRTRejection.mkCRTRejection (sort_by str_lt (map CRTSweepEvidence.evidence_id group))
      CRTRejectionCode.DUAL_SIDE_SWEEP_NEEDS_FORMALIZATION (cutoff_or cutoff z)) = true) as Hv.
    { unfold CRTRejection.valid. cbn [CRTRejection.evidence_ids].
      rewrite <-(Permutation_length (sort_by_Permutation str_lt (map CRTSweepEvidence.evidence_id group))), length_map.
      by destruct group. }
    rewrite (proj2 (validated_ok _ _ _) (conj Hv eq_refl)). cbn. by rewrite app_nil_r.
  - clear Hne. revert acc. induction group as [|e group IH]; intros [cs rs]; cbn [py_fold omap list_omap].
    + cbn. by rewrite !app_nil_r.
    + rewrite judge_evidence_ok, IH. cbn. f_equal. rewrite <-!app_assoc.
      unfold confirmation_of, rejection_of. by destruct (verdict e).
Qed.

Lemma judge_groups_ok acc (groups : Groups) : Forall (fun kg => kg.2 <> []) groups ->
  py_fold (fun acc item => judge_group candles timeframe duration cutoff by_timestamp acc item.2) acc groups =
  Ok (acc.1 ++ flat_map (fun kg => (group_verdict kg.2).1) groups,
      acc.2 ++ flat_map (fun kg => (group_verdict kg.2).2) groups).
Proof.
  revert acc. induction groups as [|[k g] groups IH]; intros [cs rs] Hg; cbn [py_fold flat_map].
  - cbn. by rewrite !app_nil_r.
  - inversion_clear Hg as [|? ? Hg1 Hg2]. cbn [snd]. rewrite judge_group_ok, IH by done. cbn. by rewrite <-!app_assoc.
Qed.
End detector.

(** ** The detector as a whole *)

#[local] Instance confirmation_lt_sw : StrictWeak confirmation_lt.
Proof. unfold confirmation_lt. apply _. Qed.


(** No other evidence sweeps the other side of the same two candles. *)
Definition single_sided (sweeps : list CRTSweepEvidence) (evidence : CRTSweepEvidence) : Prop :=
  forall e, e ∈ sweeps -> group_key e = group_key evidence ->
    CRTSweepEvidence.swept_side e = CRTSweepEvidence.swept_side evidence.

Lemma dual_sided_group sweeps evidence : evidence ∈ sweeps ->
  dual_sided (List.filter (fun e => bool_decide (group_key e = group_key evidence)) sweeps) = false
  <-> single_sided sweeps evidence.
Proof.
  intros Hin. unfold dual_sided, single_sided. set (g := List.filter _ sweeps).
  assert (forall e, e ∈ g <-> e ∈ sweeps /\ group_key e = group_key evidence) as Hg.
  { intros e. unfold g. rewrite list_elem_of_In, filter_In, bool_decide_eq_true, <-list_elem_of_In. done. }
  assert (evidence ∈ g) as Hev by by apply Hg.
  rewrite andb_false_iff, !bool_decide_eq_false.
  assert (forall side, side ∈ map CRTSweepEvidence.swept_side g <->
    exists e, e ∈ g /\ CRTSweepEvidence.swept_side e = side) as Hs.
  { intros side. rewrite list_elem_of_fmap. naive_solver. }
  rewrite !Hs. split.
  - intros Hn e He Hk. assert (e ∈ g) as Heg by by apply Hg.
    destruct (CRTSweepEvidence.swept_side e) eqn:E1, (CRTSweepEvidence.swept_side evidence) eqn:E2; try done;
      destruct Hn as [Hn|Hn]; destruct Hn; eauto.
  - intros Hss. destruct (CRTSweepEvidence.swept_side evidence) eqn:E; [right|left]; intros (e & [He Hk]%Hg & Hside);
      specialize (Hss e He Hk); congruence.
Qed.

Definition confirmed_id (candles : list Candle) (timeframe : Timeframe) (e : CRTSweepEvidence) : option string :=
  match verdict candles timeframe e with inr _ => Some (CRTSweepEvidence.evidence_id e) | inl _ => None end.

(** Every identifier of a group is confirmed or rejected. *)
Lemma group_verdict_ids candles timeframe group :
  Permutation (map CRTSweepEvidence.evidence_id group)
    ((if dual_sided group then [] else omap (confirmed_id candles timeframe) group)
     ++ flat_map CRTRejection.evidence_ids (group_verdict candles timeframe group).2)
  /\ map CRTConfirmation.confirmation_id (group_verdict candles timeframe group).1
     = map (String.append "CRT:") (if dual_sided group then [] else omap (confirmed_id candles timeframe) group).
Proof.
  unfold group_verdict. destruct (dual_sided group); cbn [fst snd flat_map app CRTRejection.evidence_ids].
  - split; [|done]. rewrite app_nil_r. apply sort_by_Permutation.
  - induction group as [|e group [IH1 IH2]]; [done|]. cbn [omap list_omap map flat_map].
    assert (match verdict candles timeframe e with
            | inl r => confirmed_id candles timeframe e = None /\ confirmation_of candles timeframe e = None
                /\ rejection_of candles timeframe e = Some r /\ CRTRejection.evidence_ids r = [CRTSweepEvidence.evidence_id e]
            | inr c => confirmed_id candles timeframe e = Some (CRTSweepEvidence.evidence_id e)
                /\ confirmation_of candles timeframe e = Some c /\ rejection_of candles timeframe e = None
                /\ CRTConfirmation.confirmation_id c = "CRT:" +:+ CRTSweepEvidence.evidence_id e end) as H.
    { unfold confirmed_id, confirmation_of, rejection_of, verdict.
      by destruct (_validate_evidence _ _ _ _ _) as [code|[[[i j] rc] mc]]. }
    destruct (verdict candles timeframe e) as [r|c]; destruct H as (-> & -> & -> & H); cbn; rewrite H; cbn.
    + split; [|exact IH2]. rewrite IH1. apply Permutation_middle.
    + split; [by rewrite IH1 | by rewrite IH2].
Qed.

(** C30. The range detector decides every sweep, exactly once. On evenly
    spaced candles of positive range and evidence with distinct identifiers
    the analysis returns; every identifier ends up in exactly one confirmation
    or one rejection; evidence is confirmed exactly when no other evidence
    sweeps the other side of the same two candles and it is formal: two
    consecutive candles of the series, the level equal to the boundary of the
    first on the swept side, and a confirmation time between the close of the
    second and the end of the data; the confirmation carries the first
    candle's range and, if there is one, the open of the candle after the
    second; and the confirmations are in order of confirmation. *)
Theorem crt_decides_every_sweep candles timeframe config sweeps :
  CRTConfig.enabled config = true -> evenly_spaced timeframe candles ->
  Forall (fun c => candle_wf c /\ (Qval (Candle.low c) < Qval (Candle.high c))%Q) candles ->
  NoDup (map CRTSweepEvidence.evidence_id sweeps) ->
  exists r, analyze_crt candles timeframe config sweeps = Ok r
    /\ (forall c, c ∈ CRTAnalysisResult.confirmations r <->
         exists evidence i rc mc, evidence ∈ sweeps /\ single_sided sweeps evidence
           /\ formal candles timeframe evidence i rc mc
           /\ c = crt_confirmation evidence timeframe (timeframe_duration timeframe) rc mc (candles !! S (S i)))
    /\ (exists confirmed,
         Permutation (map CRTConfirmation.confirmation_id (CRTAnalysisResult.confirmations r))
           (map (String.append "CRT:") confirmed)
         /\ Permutation (map CRTSweepEvidence.evidence_id sweeps)
              (confirmed ++ flat_map CRTRejection.evidence_ids (CRTAnalysisResult.rejections r)))
    /\ ordered confirmation_lt (CRTAnalysisResult.confirmations r).
Proof.
  intros Hen He Hbars Hnd. destruct (groups_spec sweeps) as (_ & Hg & Hp).
  set (groups := foldl group_append [] sweeps) in *.
  set (sorted := sort_by group_lt groups).
  assert (Permutation groups sorted) as Hs by apply sort_by_Permutation.
  assert (Forall (fun kg => kg.2 <> []) sorted) as Hne.
  { rewrite <-Hs. apply Forall_forall. intros [k g] Hkg. by apply (Hg k g). }
  unfold analyze_crt. rewrite (proj2 (validate_spacing_ok _ _ _) He), Hen. cbn [mbind pyres_bind negb].
  rewrite bool_decide_eq_true_2 by done. cbn [negb raise_if mbind pyres_bind].
  fold groups. fold sorted. rewrite (judge_groups_ok candles timeframe He Hbars) by done. cbn [mbind pyres_bind fst snd app].
  eexists. split; [reflexivity|]. cbn [CRTAnalysisResult.confirmations CRTAnalysisResult.rejections].
  split; [|split].
  - intros c. rewrite elem_of_sort_by, elem_of_flat_map. split.
    + intros ([k g] & Hkg & Hc). unfold sorted in Hkg. rewrite elem_of_sort_by in Hkg. cbn [snd] in Hc.
      destruct (Hg k g Hkg) as [-> _]. unfold group_verdict in Hc. destruct (dual_sided _) eqn:Hd; [by apply elem_of_nil in Hc|].
      cbn [fst] in Hc. apply list_elem_of_omap in Hc as (e & Hin & Hv).
      apply list_elem_of_In, filter_In in Hin as [Hin Hk]. apply bool_decide_eq_true in Hk. apply list_elem_of_In in Hin.
      subst k. apply dual_sided_group in Hd; [|done].
      unfold confirmation_of, verdict in Hv. pose proof (validate_evidence_formal candles timeframe He e) as Hf.
      destruct (_validate_evidence _ _ _ _ _) as [code|[[[i j] rc] mc]]; [done|]. destruct Hf as [-> Hf].
      injection Hv as <-. exists e, i, rc, mc. split_and!; try done. by rewrite Nat.add_1_r.
    + intros (e & i & rc & mc & Hin & Hss & Hf & ->).
      assert (exists k g, (k, g) ∈ groups /\ e ∈ g) as (k & g & Hkg & Heg).
      { rewrite <-Hp in Hin. apply list_elem_of_In, in_concat in Hin as (g & Hgi & Heg).
        apply list_elem_of_In, list_elem_of_fmap in Hgi as ([k g'] & -> & Hgi). exists k, g'. split; [done|].
        by apply list_elem_of_In. }
      exists (k, g). unfold sorted. rewrite elem_of_sort_by. split; [done|]. cbn [snd].
      destruct (Hg k g Hkg) as [-> _]. pose proof Heg as Hk. apply list_elem_of_In, filter_In in Hk as [_ Hk].
      apply bool_decide_eq_true in Hk. subst k. apply dual_sided_group in Hss; [|done].
      unfold group_verdict. rewrite Hss. cbn [fst]. apply list_elem_of_omap. exists e. split; [done|].
      unfold confirmation_of, verdict. pose proof (validate_evidence_formal candles timeframe He e) as Hv.
      destruct (_validate_evidence _ _ _ _ _) as [code|[[[i' j] rc'] mc']]; [destruct (proj1 Hv _ _ _ Hf)|].
      destruct Hv as [-> Hv]. destruct (formal_unique _ _ He _ _ _ _ _ _ _ Hf Hv) as (-> & -> & ->).
      by rewrite Nat.add_1_r.
  - exists (flat_map (fun kg => if dual_sided kg.2 then [] else omap (confirmed_id candles timeframe) kg.2) sorted). split.
    + rewrite <-sort_by_Permutation. match goal with |- Permutation ?a ?b => enough (a = b) as -> by done end. clear Hne Hs.
      induction sorted as [|[k g] l IH]; [done|]. cbn [flat_map]. rewrite !map_app, IH.
      f_equal. apply group_verdict_ids.
    + rewrite <-Hp at 1. rewrite Hs. clear. induction sorted as [|[k g] l IH]; [done|].
      cbn [map concat flat_map snd]. rewrite map_app, IH, flat_map_app.
      rewrite (proj1 (group_verdict_ids candles timeframe g)), <-!app_assoc. apply Permutation_app_head.
      rewrite !app_assoc. apply Permutation_app_tail. apply Permutation_app_comm.
  - apply (sort_by_ordered confirmation_lt).
Qed.

(** ** Concrete sweeps *)

Definition bar_example (minute open_ high_ low_ close_ : Z) : Candle :=
  Candle.mkCandle (minute * 60000000) (D open_) (D high_) (D low_) (D close_) (D 1).

Definition sweep_bars_example : list Candle :=
  [bar_example 0 100 105 95 101; bar_example 1 101 104 93 102; bar_example 2 102 106 101 105].

Definition sweep_example (id : string) (side : CRTSweptSide) (level minute : Z) : CRTSweepEvidence :=
  CRTSweepEvidence.mkCRTSweepEvidence id "event" 0 60000000 side (D level) (minute * 60000000).

Definition crt_config_example : CRTConfig := CRTConfig.mkCRTConfig true [CRTSignalUse.FILTER] (Some 2).

(** One formal sweep; a second one at a wrong level. *)
Lemma crt_decides_every_sweep_witness :
  exists r, analyze_crt sweep_bars_example Timeframe.ONE_MINUTE crt_config_example
              [sweep_example "a" CRTSweptSide.LOW 95 2; sweep_example "b" CRTSweptSide.LOW 94 2] = Ok r
    /\ length (CRTAnalysisResult.confirmations r) = 1%nat /\ length (CRTAnalysisResult.rejections r) = 1%nat.
Proof.
  destruct (crt_decides_every_sweep sweep_bars_example Timeframe.ONE_MINUTE crt_config_example
    [sweep_example "a" CRTSweptSide.LOW 95 2; sweep_example "b" CRTSweptSide.LOW 94 2]) as (r & Hr & _).
  - reflexivity.
  - apply (validate_spacing_ok "CRTInputError"). vm_compute. reflexivity.
  - unfold sweep_bars_example. repeat (apply Forall_cons; split); [..|apply Forall_nil; exact I];
      (split; [apply valid_candle_wf|]; vm_compute; reflexivity).
  - apply (bool_decide_unpack _). vm_compute. exact I.
  - exists r. split; [exact Hr|]. vm_compute in Hr. injection Hr as <-. split; reflexivity.
Defined.

(** A first candle without range makes the detector raise: the level is its
    boundary, but the schema of the confirmation refuses the range. *)
Lemma crt_flat_range_raises :
  analyze_crt [bar_example 0 100 100 100 100; bar_example 1 100 104 98 102] Timeframe.ONE_MINUTE crt_config_example
    [sweep_example "a" CRTSweptSide.LOW 100 2] = Raise (Exc "ValidationError" "").
Proof. vm_compute. reflexivity. Qed.
