(* ===== verification/Score.v ===== *)
(** The signal score: [schemas/signal_score.py] and [engines/signal/score.py].

    Signed weights of confirmed evidence are added up and compared with two
    thresholds; the candle range confirmation can veto the outcome. *)
From Stdlib Require Import ZArith Lia.
From stdpp Require Import base list strings numbers sets gmap.
From S2P Require Import Prelude Decimal Time Candle Signal Crt.
Local Open Scope Z_scope.

(** ** Schemas *)

Module SignalScoreDecision.
Inductive SignalScoreDecision := LONG_CANDIDATE | SHORT_CANDIDATE | NO_TRADE.
#[global] Instance SignalScoreDecision_eqdec : EqDecision SignalScoreDecision := ltac:(solve_decision).
End SignalScoreDecision.
Abbreviation SignalScoreDecision := SignalScoreDecision.SignalScoreDecision.

Module SignalEvidenceDirection.
Inductive SignalEvidenceDirection := BULLISH | BEARISH | NEUTRAL.
#[global] Instance SignalEvidenceDirection_eqdec : EqDecision SignalEvidenceDirection := ltac:(solve_decision).
End SignalEvidenceDirection.
Abbreviation SignalEvidenceDirection := SignalEvidenceDirection.SignalEvidenceDirection.

Module SignalScoreComponent.
Inductive SignalScoreComponent :=
| MACD | BOS | MSS | LIQUIDITY_SWEEP | FVG | ORDER_BLOCK | DISPLACEMENT | SUPPORT_RESISTANCE | HTF_ALIGNMENT.
#[global] Instance SignalScoreComponent_eqdec : EqDecision SignalScoreComponent := ltac:(solve_decision).
(** The members in their order. *)
Definition members : list SignalScoreComponent :=
  [MACD; BOS; MSS; LIQUIDITY_SWEEP; FVG; ORDER_BLOCK; DISPLACEMENT; SUPPORT_RESISTANCE; HTF_ALIGNMENT].
End SignalScoreComponent.
Abbreviation SignalScoreComponent := SignalScoreComponent.SignalScoreComponent.

Module SignalScoreReasonCode.
Inductive SignalScoreReasonCode :=
| SCORE_LONG_THRESHOLD_MET | SCORE_SHORT_THRESHOLD_MET | SCORE_BELOW_THRESHOLDS | HTF_CONFLICT_VETO
| CRT_CONFIRMATION_MATCH | CRT_CONFIRMATION_MISSING | CRT_CONFIRMATION_CONFLICT
| CRT_FILTER_MISSING | CRT_FILTER_DIRECTION_CONFLICT.
#[global] Instance SignalScoreReasonCode_eqdec : EqDecision SignalScoreReasonCode := ltac:(solve_decision).
End SignalScoreReasonCode.
Abbreviation SignalScoreReasonCode := SignalScoreReasonCode.SignalScoreReasonCode.

Module EmpiricalValidationStatus.
Inductive EmpiricalValidationStatus := UNVALIDATED | BACKTESTED | VALIDATED.
End EmpiricalValidationStatus.
Abbreviation EmpiricalValidationStatus := EmpiricalValidationStatus.EmpiricalValidationStatus.

Module SignalScoreThresholds.
Record SignalScoreThresholds := mkSignalScoreThresholds {
  long_threshold : Z;
  short_threshold : Z;
  veto_on_htf_conflict : bool
}.
Definition validate_threshold_order (t : SignalScoreThresholds) : bool :=
  (0 <? long_threshold t) && (short_threshold t <? 0) && negb (long_threshold t <=? short_threshold t).
End SignalScoreThresholds.
Abbreviation SignalScoreThresholds := SignalScoreThresholds.SignalScoreThresholds.

Module SignalScoreWeights.
Record SignalScoreWeights := mkSignalScoreWeights {
  macd : Z;
  bos : Z;
  mss : Z;
  liquidity_sweep : Z;
  fvg : Z;
  order_block : Z;
  displacement : Z;
  support_resistance : Z;
  htf_alignment : Z
}.
(** [getattr(self, component.value)] *)
Definition weight_of (w : SignalScoreWeights) (component : SignalScoreComponent) : Z :=
  match component with
  | SignalScoreComponent.MACD => macd w
  | SignalScoreComponent.BOS => bos w
  | SignalScoreComponent.MSS => mss w
  | SignalScoreComponent.LIQUIDITY_SWEEP => liquidity_sweep w
  | SignalScoreComponent.FVG => fvg w
  | SignalScoreComponent.ORDER_BLOCK => order_block w
  | SignalScoreComponent.DISPLACEMENT => displacement w
  | SignalScoreComponent.SUPPORT_RESISTANCE => support_resistance w
  | SignalScoreComponent.HTF_ALIGNMENT => htf_alignment w
  end.
Definition as_component_map (w : SignalScoreWeights) : list (SignalScoreComponent * Z) :=
  map (fun component => (component, weight_of w component)) SignalScoreComponent.members.
(** [Field(ge=0)] of every weight. *)
Definition valid (w : SignalScoreWeights) : bool := forallb (fun cw => 0 <=? cw.2) (as_component_map w).
End SignalScoreWeights.
Abbreviation SignalScoreWeights := SignalScoreWeights.SignalScoreWeights.

Module StrategyScoreConfig.
Record StrategyScoreConfig := mkStrategyScoreConfig {
  metadata : EmpiricalValidationStatus;
  signal : SignalScoreThresholds;
  weights : SignalScoreWeights;
  crt : CRTConfig
}.
End StrategyScoreConfig.
Abbreviation StrategyScoreConfig := StrategyScoreConfig.StrategyScoreConfig.

Module SignalComponentEvidence.
Record SignalComponentEvidence := mkSignalComponentEvidence {
  direction : SignalEvidenceDirection;
  confirmed_at : datetime;
  source_ids : list string
}.
End SignalComponentEvidence.
Abbreviation SignalComponentEvidence := SignalComponentEvidence.SignalComponentEvidence.

Module SignalScoreEvidence.
(** [components] is a dictionary. *)
Record SignalScoreEvidence := mkSignalScoreEvidence {
  decision_time : datetime;
  components : SignalScoreComponent -> option SignalComponentEvidence;
  higher_timeframe_conflict : bool;
  crt_confirmation : option CRTConfirmation
}.
Definition prevent_future_evidence (e : SignalScoreEvidence) : bool :=
  forallb (fun component => match components e component with
    | Some ev => SignalComponentEvidence.confirmed_at ev <=? decision_time e | None => true end)
    SignalScoreComponent.members
  && match crt_confirmation e with
     | Some c => CRTConfirmation.confirmed_at c <=? decision_time e | None => true end.
End SignalScoreEvidence.
Abbreviation SignalScoreEvidence := SignalScoreEvidence.SignalScoreEvidence.

Module SignalScoreResult.
Record SignalScoreResult := mkSignalScoreResult {
  decision : SignalScoreDecision;
  score : Z;
  score_breakdown : list (SignalScoreComponent * Z);
  crt_score_contribution : Z;
  crt_confirmation_status : CRTSignalMatchStatus;
  decision_time : datetime;
  strategy_version : string;
  empirical_validation_status : EmpiricalValidationStatus;
  reason_codes : list SignalScoreReasonCode
}.
Definition breakdown_sum (b : list (SignalScoreComponent * Z)) : Z := foldl Z.add 0 (map snd b).
Definition validate_score_audit (r : SignalScoreResult) : bool :=
  forallb (fun c => bool_decide (c ∈ map fst (score_breakdown r))) SignalScoreComponent.members
  && (breakdown_sum (score_breakdown r) + crt_score_contribution r =? score r).
End SignalScoreResult.
Abbreviation SignalScoreResult := SignalScoreResult.SignalScoreResult.

(** ** The engine *)

Definition _component_contribution (weight : Z) (direction : SignalEvidenceDirection) : Z :=
  match direction with
  | SignalEvidenceDirection.BULLISH => weight
  | SignalEvidenceDirection.BEARISH => - weight
  | SignalEvidenceDirection.NEUTRAL => 0
  end.

Definition _crt_contribution (evidence : SignalScoreEvidence) (config : StrategyScoreConfig) : Z :=
  let crt := StrategyScoreConfig.crt config in
  match CRTConfig.enabled crt, CRTConfig.weight crt, SignalScoreEvidence.crt_confirmation evidence with
  | true, Some weight, Some confirmation =>
      match CRTConfirmation.direction confirmation with
      | CRTDirection.BULLISH => weight
      | CRTDirection.BEARISH => - weight
      end
  | _, _, _ => 0
  end.

Definition _crt_match_status (decision : SignalScoreDecision) (evidence : SignalScoreEvidence)
    (config : StrategyScoreConfig) : CRTSignalMatchStatus :=
  let crt := StrategyScoreConfig.crt config in
  if negb (CRTConfig.enabled crt) then CRTSignalMatchStatus.DISABLED
  else if bool_decide (CRTConfig.signal_uses crt = []) && bool_decide (CRTConfig.weight crt = None)
  then CRTSignalMatchStatus.NOT_USED
  else match SignalScoreEvidence.crt_confirmation evidence with
  | None => CRTSignalMatchStatus.MISSING
  | Some confirmation =>
      match decision with
      | SignalScoreDecision.NO_TRADE => CRTSignalMatchStatus.NOT_USED
      | _ =>
          let expected := match decision with
            | SignalScoreDecision.LONG_CANDIDATE => CRTDirection.BULLISH
            | _ => CRTDirection.BEARISH end in
          if bool_decide (CRTConfirmation.direction confirmation = expected)
          then CRTSignalMatchStatus.MATCH else CRTSignalMatchStatus.DIRECTION_CONFLICT
      end
  end.

(** [score_breakdown] *)
Definition score_breakdown_of (evidence : SignalScoreEvidence) (config : StrategyScoreConfig) :
    list (SignalScoreComponent * Z) :=
  map (fun '(component, weight) =>
    (component, _component_contribution weight
       (match SignalScoreEvidence.components evidence component with
        | Some ev => SignalComponentEvidence.direction ev
        | None => SignalEvidenceDirection.NEUTRAL end)))
    (SignalScoreWeights.as_component_map (StrategyScoreConfig.weights config)).

(** The decision before the candle range filter, with its reason. *)
Definition threshold_decision (evidence : SignalScoreEvidence) (config : StrategyScoreConfig) (score : Z) :
    SignalScoreDecision * SignalScoreReasonCode :=
  let signal := StrategyScoreConfig.signal config in
  if SignalScoreEvidence.higher_timeframe_conflict evidence && SignalScoreThresholds.veto_on_htf_conflict signal
  then (SignalScoreDecision.NO_TRADE, SignalScoreReasonCode.HTF_CONFLICT_VETO)
  else if SignalScoreThresholds.long_threshold signal <=? score
  then (SignalScoreDecision.LONG_CANDIDATE, SignalScoreReasonCode.SCORE_LONG_THRESHOLD_MET)
  else if score <=? SignalScoreThresholds.short_threshold signal
  then (SignalScoreDecision.SHORT_CANDIDATE, SignalScoreReasonCode.SCORE_SHORT_THRESHOLD_MET)
  else (SignalScoreDecision.NO_TRADE, SignalScoreReasonCode.SCORE_BELOW_THRESHOLDS).

(** [use in config.crt.signal_uses] *)
Definition crt_use (config : StrategyScoreConfig) (use : CRTSignalUse) : bool :=
  CRTConfig.enabled (StrategyScoreConfig.crt config)
  && bool_decide (use ∈ CRTConfig.signal_uses (StrategyScoreConfig.crt config)).

Definition confirmation_reasons (config : StrategyScoreConfig) (status : CRTSignalMatchStatus) : list SignalScoreReasonCode :=
  if crt_use config CRTSignalUse.CONFIRMATION then
    match status with
    | CRTSignalMatchStatus.MATCH => [SignalScoreReasonCode.CRT_CONFIRMATION_MATCH]
    | CRTSignalMatchStatus.MISSING => [SignalScoreReasonCode.CRT_CONFIRMATION_MISSING]
    | CRTSignalMatchStatus.DIRECTION_CONFLICT => [SignalScoreReasonCode.CRT_CONFIRMATION_CONFLICT]
    | _ => []
    end
  else [].

(** The filter: the final decision and the reason it adds. *)
Definition crt_filter (config : StrategyScoreConfig) (decision : SignalScoreDecision) (status : CRTSignalMatchStatus) :
    SignalScoreDecision * list SignalScoreReasonCode :=
  if negb (bool_decide (decision = SignalScoreDecision.NO_TRADE)) && crt_use config CRTSignalUse.FILTER then
    match status with
    | CRTSignalMatchStatus.MISSING => (SignalScoreDecision.NO_TRADE, [SignalScoreReasonCode.CRT_FILTER_MISSING])
    | CRTSignalMatchStatus.DIRECTION_CONFLICT =>
        (SignalScoreDecision.NO_TRADE, [SignalScoreReasonCode.CRT_FILTER_DIRECTION_CONFLICT])
    | _ => (decision, [])
    end
  else (decision, []).

Definition calculate_signal_score (evidence : SignalScoreEvidence) (config : StrategyScoreConfig)
    (strategy_version : string) : pyres SignalScoreResult :=
  let score_breakdown := score_breakdown_of evidence config in
  let crt_contribution := _crt_contribution evidence config in
  let score := SignalScoreResult.breakdown_sum score_breakdown + crt_contribution in
  let '(decision, reason) := threshold_decision evidence config score in
  let crt_status := _crt_match_status decision evidence config in
  let '(final, filter_reasons) := crt_filter config decision crt_status in
  validated SignalScoreResult.validate_score_audit
    (SignalScoreResult.mkSignalScoreResult final score score_breakdown crt_contribution crt_status
      (SignalScoreEvidence.decision_time evidence) strategy_version (StrategyScoreConfig.metadata config)
      ([reason] ++ confirmation_reasons config crt_status ++ filter_reasons)).

(** ** Theorems *)

(** *** Sums over the components *)

Definition component_sum (f : SignalScoreComponent -> Z) : Z := foldl Z.add 0 (map f SignalScoreComponent.members).

(** The signed contribution of a component. *)
Definition signed (evidence : SignalScoreEvidence) (component : SignalScoreComponent) : Z :=
  match SignalScoreEvidence.components evidence component with
  | Some ev => match SignalComponentEvidence.direction ev with
    | SignalEvidenceDirection.BULLISH => 1
    | SignalEvidenceDirection.BEARISH => -1
    | SignalEvidenceDirection.NEUTRAL => 0 end
  | None => 0
  end.

Definition crt_signed (evidence : SignalScoreEvidence) : Z :=
  match SignalScoreEvidence.crt_confirmation evidence with
  | Some c => match CRTConfirmation.direction c with CRTDirection.BULLISH => 1 | CRTDirection.BEARISH => -1 end
  | None => 0
  end.

(** The weight the candle range confirmation has in the score. *)
Definition crt_weight (config : StrategyScoreConfig) : Z :=
  if CRTConfig.enabled (StrategyScoreConfig.crt config)
  then default 0 (CRTConfig.weight (StrategyScoreConfig.crt config)) else 0.

Definition score_of (evidence : SignalScoreEvidence) (config : StrategyScoreConfig) : Z :=
  component_sum (fun c => SignalScoreWeights.weight_of (StrategyScoreConfig.weights config) c * signed evidence c)
  + crt_weight config * crt_signed evidence.

Lemma component_sum_mono f g : (forall c, f c <= g c) -> component_sum f <= component_sum g.
Proof.
  intros H. unfold component_sum.
  assert (forall l a b, a <= b -> foldl Z.add a (map f l) <= foldl Z.add b (map g l)) as G.
  { induction l as [|c l IH]; intros a b Hab; cbn; [done|]. apply IH. specialize (H c). lia. }
  by apply G.
Qed.

Lemma component_sum_opp f : component_sum (fun c => - f c) = - component_sum f.
Proof. unfold component_sum. cbn. lia. Qed.

Lemma component_sum_ext f g : (forall c, f c = g c) -> component_sum f = component_sum g.
Proof. intros H. unfold component_sum. f_equal. apply map_ext. exact H. Qed.

Lemma code_score evidence config :
  SignalScoreResult.breakdown_sum (score_breakdown_of evidence config) + _crt_contribution evidence config
  = score_of evidence config.
Proof.
  unfold score_of. f_equal.
  - unfold SignalScoreResult.breakdown_sum, score_breakdown_of, component_sum, SignalScoreWeights.as_component_map.
    rewrite !map_map. f_equal. apply map_ext. intros c. cbn. unfold signed, _component_contribution.
    destruct (SignalScoreEvidence.components evidence c) as [ev|]; [|lia].
    destruct (SignalComponentEvidence.direction ev); lia.
  - unfold _crt_contribution, crt_weight, crt_signed. destruct (StrategyScoreConfig.crt config) as [enabled uses weight].
    cbn [CRTConfig.enabled CRTConfig.weight]. destruct enabled, weight, (SignalScoreEvidence.crt_confirmation evidence) as [c|]; cbn; try lia.
    destruct (CRTConfirmation.direction c); lia.
Qed.

(** *** The decision *)

(** The candle range filter lets a direction pass. *)
Definition crt_gate (evidence : SignalScoreEvidence) (config : StrategyScoreConfig) (direction : CRTDirection) : Prop :=
  crt_use config CRTSignalUse.FILTER = true ->
  exists c, SignalScoreEvidence.crt_confirmation evidence = Some c /\ CRTConfirmation.direction c = direction.

Definition vetoed (evidence : SignalScoreEvidence) (config : StrategyScoreConfig) : Prop :=
  SignalScoreEvidence.higher_timeframe_conflict evidence = true
  /\ SignalScoreThresholds.veto_on_htf_conflict (StrategyScoreConfig.signal config) = true.

(** What the code returns. *)
Definition final_decision (evidence : SignalScoreEvidence) (config : StrategyScoreConfig) : SignalScoreDecision :=
  let decision := (threshold_decision evidence config (score_of evidence config)).1 in
  (crt_filter config decision (_crt_match_status decision evidence config)).1.

Lemma calculate_signal_score_ok evidence config version :
  exists r, calculate_signal_score evidence config version = Ok r
    /\ SignalScoreResult.score r = score_of evidence config
    /\ SignalScoreResult.decision r = final_decision evidence config
    /\ SignalScoreResult.validate_score_audit r = true.
Proof.
  unfold calculate_signal_score, final_decision. rewrite code_score.
  destruct (threshold_decision _ _ _) as [decision reason]. cbn [fst].
  destruct (crt_filter _ _ _) as [final reasons]. cbn [fst].
  match goal with |- context [validated ?v ?x] => set (r := x);
    assert (v r = true) as Hv; [|exists r; rewrite (proj2 (validated_ok v r r) (conj Hv eq_refl)); by split_and!] end.
  unfold SignalScoreResult.validate_score_audit, r. cbn [SignalScoreResult.score_breakdown
    SignalScoreResult.crt_score_contribution SignalScoreResult.score].
  rewrite code_score, Z.eqb_refl, andb_true_r. apply forallb_forall. intros c Hc. apply bool_decide_eq_true.
  unfold score_breakdown_of, SignalScoreWeights.as_component_map. rewrite map_map. cbn [fst].
  apply list_elem_of_fmap. exists (c, SignalScoreWeights.weight_of (StrategyScoreConfig.weights config) c).
  split; [done|]. apply list_elem_of_fmap. exists c. split; [done|]. by apply list_elem_of_In.
Qed.

Lemma crt_filter_gate evidence config decision direction :
  decision = match direction with CRTDirection.BULLISH => SignalScoreDecision.LONG_CANDIDATE
                                | CRTDirection.BEARISH => SignalScoreDecision.SHORT_CANDIDATE end ->
  (crt_gate evidence config direction /\
     (crt_filter config decision (_crt_match_status decision evidence config)).1 = decision)
  \/ (~ crt_gate evidence config direction /\
     (crt_filter config decision (_crt_match_status decision evidence config)).1 = SignalScoreDecision.NO_TRADE).
Proof.
  intros ->. unfold crt_filter, crt_gate, _crt_match_status.
  destruct (crt_use config CRTSignalUse.FILTER) eqn:Hu; [|left; rewrite andb_false_r; by split].
  unfold crt_use in Hu. apply andb_true_iff in Hu as [Hen Hin]. apply bool_decide_eq_true in Hin. rewrite Hen.
  rewrite (bool_decide_eq_false_2 (CRTConfig.signal_uses _ = [])) by (intros E; rewrite E in Hin; set_solver).
  cbn [negb andb]. destruct (SignalScoreEvidence.crt_confirmation evidence) as [c|].
  2: { right. split; [by intros (? & ? & _)|]. by destruct direction. }
  destruct direction, (CRTConfirmation.direction c) eqn:Ec; cbn;
    first [left; split; [by eauto | reflexivity] | right; split; [|reflexivity]; intros (c' & [= <-] & ?); congruence].
Qed.

Definition valid_config (config : StrategyScoreConfig) : Prop :=
  SignalScoreThresholds.validate_threshold_order (StrategyScoreConfig.signal config) = true
  /\ SignalScoreWeights.valid (StrategyScoreConfig.weights config) = true
  /\ CRTConfig.require_unique_signal_uses (StrategyScoreConfig.crt config) = true.

Lemma final_decision_spec evidence config : valid_config config ->
  let signal := StrategyScoreConfig.signal config in
  (final_decision evidence config = SignalScoreDecision.LONG_CANDIDATE <->
     ~ vetoed evidence config /\ SignalScoreThresholds.long_threshold signal <= score_of evidence config
     /\ crt_gate evidence config CRTDirection.BULLISH)
  /\ (final_decision evidence config = SignalScoreDecision.SHORT_CANDIDATE <->
     ~ vetoed evidence config /\ score_of evidence config <= SignalScoreThresholds.short_threshold signal
     /\ crt_gate evidence config CRTDirection.BEARISH).
Proof.
  intros (Ht & _) signal. unfold SignalScoreThresholds.validate_threshold_order in Ht. fold signal in Ht. bool_hyps.
  unfold final_decision, threshold_decision, vetoed. fold signal.
  assert (forall s, (crt_filter config SignalScoreDecision.NO_TRADE s).1 = SignalScoreDecision.NO_TRADE) as Hn by done.
  destruct (SignalScoreEvidence.higher_timeframe_conflict evidence && SignalScoreThresholds.veto_on_htf_conflict signal) eqn:Hv.
  { cbn [fst]. rewrite Hn. apply andb_true_iff in Hv. split; (split; [done|]); by intros (? & _). }
  assert (~ (SignalScoreEvidence.higher_timeframe_conflict evidence = true
             /\ SignalScoreThresholds.veto_on_htf_conflict signal = true)) as Hv'.
  { intros [E1 E2]. by rewrite E1, E2 in Hv. }
  destruct (Z.leb_spec (SignalScoreThresholds.long_threshold signal) (score_of evidence config)).
  { cbn [fst]. destruct (crt_filter_gate evidence config _ CRTDirection.BULLISH eq_refl) as [[Hg ->] | [Hg ->]];
      (split; (split; [intros E; try done|])); intros (? & ? & ?); try done; lia. }
  destruct (Z.leb_spec (score_of evidence config) (SignalScoreThresholds.short_threshold signal)).
  { cbn [fst]. destruct (crt_filter_gate evidence config _ CRTDirection.BEARISH eq_refl) as [[Hg ->] | [Hg ->]];
      (split; (split; [intros E; try done|])); intros (? & ? & ?); try done; lia. }
  cbn [fst]. rewrite Hn. split; (split; [done|]); intros (? & ? & ?); lia.
Qed.

Lemma weights_nonneg w : SignalScoreWeights.valid w = true -> forall c, 0 <= SignalScoreWeights.weight_of w c.
Proof.
  unfold SignalScoreWeights.valid, SignalScoreWeights.as_component_map. rewrite forallb_forall. intros Hw c.
  specialize (Hw (c, SignalScoreWeights.weight_of w c)). cbn in Hw. apply Z.leb_le, Hw. destruct c; cbn; tauto.
Qed.

Lemma score_bounds evidence config : valid_config config ->
  Z.abs (score_of evidence config) <=
  component_sum (SignalScoreWeights.weight_of (StrategyScoreConfig.weights config)) + crt_weight config.
Proof.
  intros (_ & Hw & Hc). pose proof (weights_nonneg _ Hw) as Hpos.
  assert (0 <= crt_weight config) as Hcw.
  { unfold crt_weight, CRTConfig.require_unique_signal_uses in *.
    destruct (StrategyScoreConfig.crt config) as [enabled uses weight]. cbn in *.
    destruct enabled, weight; cbn in *; bool_hyps; lia. }
  assert (forall c, -1 <= signed evidence c <= 1) as Hs.
  { intros c. unfold signed. destruct (SignalScoreEvidence.components evidence c) as [ev|]; [|lia].
    destruct (SignalComponentEvidence.direction ev); lia. }
  assert (-1 <= crt_signed evidence <= 1) as Hcs.
  { unfold crt_signed. destruct (SignalScoreEvidence.crt_confirmation evidence) as [c|]; [|lia].
    destruct (CRTConfirmation.direction c); lia. }
  unfold score_of. set (w := SignalScoreWeights.weight_of (StrategyScoreConfig.weights config)) in *.
  pose proof (component_sum_mono (fun c => w c * signed evidence c) w) as H1.
  pose proof (component_sum_mono (fun c => - w c) (fun c => w c * signed evidence c)) as H2.
  rewrite component_sum_opp in H2.
  assert (component_sum (fun c => w c * signed evidence c) <= component_sum w) by (apply H1; intros c; specialize (Hpos c); specialize (Hs c); nia).
  assert (- component_sum w <= component_sum (fun c => w c * signed evidence c)) by (apply H2; intros c; specialize (Hpos c); specialize (Hs c); nia).
  nia.
Qed.

(** C35. The score never fails its audit and decides as documented. Whatever
    the evidence and configuration the calculation returns, with the score
    equal to the sum of the signed weights of the evidence plus the signed
    weight of the candle range confirmation. With a valid configuration the
    score is bounded by the sum of the weights, and the decision is LONG
    exactly when no higher-timeframe veto applies, the score reaches the long
    threshold and, where the candle range filter is used, a bullish
    confirmation is present; SHORT symmetrically; NO_TRADE otherwise. *)
Theorem score_decision_exact evidence config version : valid_config config ->
  let signal := StrategyScoreConfig.signal config in
  exists r, calculate_signal_score evidence config version = Ok r
    /\ SignalScoreResult.validate_score_audit r = true
    /\ SignalScoreResult.score r = score_of evidence config
    /\ Z.abs (SignalScoreResult.score r) <=
       component_sum (SignalScoreWeights.weight_of (StrategyScoreConfig.weights config)) + crt_weight config
    /\ (SignalScoreResult.decision r = SignalScoreDecision.LONG_CANDIDATE <->
          ~ vetoed evidence config /\ SignalScoreThresholds.long_threshold signal <= SignalScoreResult.score r
          /\ crt_gate evidence config CRTDirection.BULLISH)
    /\ (SignalScoreResult.decision r = SignalScoreDecision.SHORT_CANDIDATE <->
          ~ vetoed evidence config /\ SignalScoreResult.score r <= SignalScoreThresholds.short_threshold signal
          /\ crt_gate evidence config CRTDirection.BEARISH).
Proof.
  intros Hv signal. destruct (calculate_signal_score_ok evidence config version) as (r & Hr & Hs & Hd & Ha).
  exists r. rewrite Hs, Hd. split_and!; try done; [by apply score_bounds | apply final_decision_spec | apply final_decision_spec]; done.
Qed.

(** The same evidence with every direction reversed. *)
Record mirrored (evidence evidence' : SignalScoreEvidence) : Prop := {
  mi_conflict : SignalScoreEvidence.higher_timeframe_conflict evidence' = SignalScoreEvidence.higher_timeframe_conflict evidence;
  mi_signed : forall c, signed evidence' c = - signed evidence c;
  mi_crt : crt_signed evidence' = - crt_signed evidence
}.

Lemma crt_gate_signed evidence config direction : crt_gate evidence config direction <->
  (crt_use config CRTSignalUse.FILTER = true ->
   crt_signed evidence = match direction with CRTDirection.BULLISH => 1 | CRTDirection.BEARISH => -1 end).
Proof.
  unfold crt_gate, crt_signed. split; intros H Hu; specialize (H Hu).
  - destruct H as (c & -> & ->). by destruct direction.
  - destruct (SignalScoreEvidence.crt_confirmation evidence) as [c|]; [|by destruct direction].
    exists c. split; [done|]. by destruct (CRTConfirmation.direction c), direction.
Qed.

(** The score has no directional bias. When the two thresholds are
    symmetric, reversing every direction of the evidence negates the score and
    exchanges LONG and SHORT. *)
Theorem score_mirror_symmetry evidence evidence' config version :
  valid_config config ->
  SignalScoreThresholds.long_threshold (StrategyScoreConfig.signal config)
    = - SignalScoreThresholds.short_threshold (StrategyScoreConfig.signal config) ->
  mirrored evidence evidence' ->
  exists r r', calculate_signal_score evidence config version = Ok r
    /\ calculate_signal_score evidence' config version = Ok r'
    /\ SignalScoreResult.score r' = - SignalScoreResult.score r
    /\ (SignalScoreResult.decision r = SignalScoreDecision.LONG_CANDIDATE <->
        SignalScoreResult.decision r' = SignalScoreDecision.SHORT_CANDIDATE)
    /\ (SignalScoreResult.decision r = SignalScoreDecision.SHORT_CANDIDATE <->
        SignalScoreResult.decision r' = SignalScoreDecision.LONG_CANDIDATE).
Proof.
  intros Hv Hsym [Hc Hs Hcrt].
  destruct (calculate_signal_score_ok evidence config version) as (r & Hr & Hsr & Hdr & _).
  destruct (calculate_signal_score_ok evidence' config version) as (r' & Hr' & Hsr' & Hdr' & _).
  assert (score_of evidence' config = - score_of evidence config) as Hneg.
  { unfold score_of. rewrite Hcrt.
    rewrite (component_sum_ext _ (fun c => - (SignalScoreWeights.weight_of (StrategyScoreConfig.weights config) c * signed evidence c)))
      by (intros c; rewrite Hs; lia).
    rewrite component_sum_opp. lia. }
  exists r, r'. split_and!; try done; [by rewrite Hsr, Hsr'|..]; rewrite Hdr, Hdr';
    destruct (final_decision_spec evidence config Hv) as [HL HS], (final_decision_spec evidence' config Hv) as [HL' HS'];
    rewrite ?HL, ?HS, ?HL', ?HS', !crt_gate_signed, Hneg, Hcrt; unfold vetoed; rewrite Hc;
    split; intros (H1 & H2 & H3); (split_and!; [done|lia|intros Hu; specialize (H3 Hu); lia]).
Qed.

(** At least as bullish, component by component. *)
Record more_bullish (evidence evidence' : SignalScoreEvidence) : Prop := {
  mb_conflict : SignalScoreEvidence.higher_timeframe_conflict evidence' = SignalScoreEvidence.higher_timeframe_conflict evidence;
  mb_signed : forall c, signed evidence c <= signed evidence' c;
  mb_crt : SignalScoreEvidence.crt_confirmation evidence' = SignalScoreEvidence.crt_confirmation evidence
}.

(** More bullish evidence never turns a LONG away. When components only
    become more bullish, the score does not fall, a LONG decision stays LONG
    and a SHORT decision of the more bullish evidence was already SHORT. *)
Theorem score_monotone evidence evidence' config version :
  valid_config config -> more_bullish evidence evidence' ->
  exists r r', calculate_signal_score evidence config version = Ok r
    /\ calculate_signal_score evidence' config version = Ok r'
    /\ SignalScoreResult.score r <= SignalScoreResult.score r'
    /\ (SignalScoreResult.decision r = SignalScoreDecision.LONG_CANDIDATE ->
        SignalScoreResult.decision r' = SignalScoreDecision.LONG_CANDIDATE)
    /\ (SignalScoreResult.decision r' = SignalScoreDecision.SHORT_CANDIDATE ->
        SignalScoreResult.decision r = SignalScoreDecision.SHORT_CANDIDATE).
Proof.
  intros Hv [Hc Hs Hcrt].
  destruct (calculate_signal_score_ok evidence config version) as (r & Hr & Hsr & Hdr & _).
  destruct (calculate_signal_score_ok evidence' config version) as (r' & Hr' & Hsr' & Hdr' & _).
  assert (crt_signed evidence' = crt_signed evidence) as Hcs by (unfold crt_signed; by rewrite Hcrt).
  assert (forall c, 0 <= SignalScoreWeights.weight_of (StrategyScoreConfig.weights config) c) as Hpos
    by (apply weights_nonneg, Hv).
  assert (score_of evidence config <= score_of evidence' config) as Hle.
  { unfold score_of. rewrite Hcs. apply Z.add_le_mono_r, component_sum_mono. intros c.
    specialize (Hpos c). specialize (Hs c). nia. }
  exists r, r'. rewrite Hsr, Hsr', Hdr, Hdr'.
  destruct (final_decision_spec evidence config Hv) as [HL HS], (final_decision_spec evidence' config Hv) as [HL' HS'].
  split_and!; try done; rewrite ?HL, ?HS, ?HL', ?HS', !crt_gate_signed, Hcs; unfold vetoed; rewrite Hc;
    intros (H1 & H2 & H3); (split_and!; [done|lia|done]).
Qed.

(** *** Concrete scores *)

Definition score_config_example : StrategyScoreConfig :=
  StrategyScoreConfig.mkStrategyScoreConfig EmpiricalValidationStatus.UNVALIDATED
    (SignalScoreThresholds.mkSignalScoreThresholds 5 (-5) true)
    (SignalScoreWeights.mkSignalScoreWeights 1 2 3 2 1 2 1 1 3)
    (CRTConfig.mkCRTConfig false [] None).

Definition evidence_example (direction : SignalEvidenceDirection) : SignalScoreEvidence :=
  SignalScoreEvidence.mkSignalScoreEvidence 0 (fun c => match c with
    | SignalScoreComponent.MSS | SignalScoreComponent.HTF_ALIGNMENT =>
        Some (SignalComponentEvidence.mkSignalComponentEvidence direction 0 ["a"])
    | _ => None end) false None.

Lemma score_config_example_valid : valid_config score_config_example.
Proof. split_and!; vm_compute; reflexivity. Qed.

Lemma score_decision_exact_witness :
  exists r, calculate_signal_score (evidence_example SignalEvidenceDirection.BULLISH) score_config_example "v1" = Ok r
    /\ SignalScoreResult.decision r = SignalScoreDecision.LONG_CANDIDATE.
Proof.
  destruct (score_decision_exact (evidence_example SignalEvidenceDirection.BULLISH) score_config_example "v1"
    score_config_example_valid) as (r & Hr & _ & Hs & _ & HL & _).
  exists r. split; [exact Hr|]. apply HL. rewrite Hs. split_and!.
  - intros [H _]. discriminate H.
  - vm_compute. discriminate.
  - intros H. discriminate H.
Defined.

Lemma score_mirror_symmetry_witness :
  exists r', calculate_signal_score (evidence_example SignalEvidenceDirection.BEARISH) score_config_example "v1" = Ok r'
    /\ SignalScoreResult.score r' = -6.
Proof.
  destruct (score_mirror_symmetry (evidence_example SignalEvidenceDirection.BULLISH)
    (evidence_example SignalEvidenceDirection.BEARISH) score_config_example "v1" score_config_example_valid eq_refl)
    as (r & r' & Hr & Hr' & Hs & _).
  - constructor; [reflexivity|intros []; reflexivity|reflexivity].
  - exists r'. split; [exact Hr'|]. rewrite Hs. vm_compute in Hr. injection Hr as <-. reflexivity.
Defined.

Lemma score_monotone_witness :
  exists r r', calculate_signal_score (evidence_example SignalEvidenceDirection.NEUTRAL) score_config_example "v1" = Ok r
    /\ calculate_signal_score (evidence_example SignalEvidenceDirection.BULLISH) score_config_example "v1" = Ok r'
    /\ SignalScoreResult.score r <= SignalScoreResult.score r'.
Proof.
  destruct (score_monotone (evidence_example SignalEvidenceDirection.NEUTRAL)
    (evidence_example SignalEvidenceDirection.BULLISH) score_config_example "v1" score_config_example_valid)
    as (r & r' & Hr & Hr' & Hle & _).
  - constructor; [reflexivity|intros []; discriminate|reflexivity].
  - exists r, r'. split_and!; [exact Hr|exact Hr'|exact Hle].
Defined.
