(* ===== verification/Resampling.v ===== *)
(** Candle order and resampling: [market_data/normalization.py] and
    [market_data/resampling.py].

    Timestamps are already UTC instants, so the errors of naive datetimes do
    not occur. Volumes are added in the default decimal context. *)
From Stdlib Require Import ZArith QArith Lia Lqa String Sorting.Sorted Sorting.Permutation.
From stdpp Require Import base strings numbers list sets.
From S2P Require Import Prelude Decimal Time Candle.
Local Open Scope Z_scope.

(** ** [market_data/normalization.py] *)

Definition validate_candle_alignment (candles : list Candle) (timeframe : Timeframe) : pyres unit :=
  py_for (fun candle =>
    let utc_timestamp := Candle.timestamp candle in
    raise_if (negb (timeframe_bucket_start utc_timestamp timeframe =? utc_timestamp))
      (Exc "TimeframeAlignmentError"
        ("Candle timestamp " +:+ isoformat utc_timestamp +:+ " is not aligned to " +:+ to_binance_interval timeframe)))
    candles.

(** [len(set(timestamps)) != len(timestamps)] *)
Definition has_duplicates (timestamps : list datetime) : bool := negb (bool_decide (NoDup timestamps)).

Definition validate_gap (timeframe : Timeframe) (pair : Candle * Candle) : pyres unit :=
  let interval := timeframe_duration timeframe in
  let '(previous, current) := pair in
  let actual_delta := Candle.timestamp current - Candle.timestamp previous in
  _ ← raise_if (interval <? actual_delta)
        (Exc "MissingCandleError" ("Missing " +:+ to_binance_interval timeframe +:+ " candle between "
          +:+ isoformat (Candle.timestamp previous) +:+ " and " +:+ isoformat (Candle.timestamp current)));
  raise_if (actual_delta <? interval)
    (Exc "TimeframeAlignmentError" ("Candle spacing is smaller than the " +:+ to_binance_interval timeframe +:+ " interval")).

Definition _validate_ordered_candles (ordered : list Candle) (timeframe : Timeframe)
    (expected_timestamps : option (list datetime)) : pyres unit :=
  _ ← raise_if (bool_decide (ordered = [])) (Exc "EmptyCandleSetError" "Provider returned no closed candles");
  let timestamps := map Candle.timestamp ordered in
  _ ← raise_if (has_duplicates timestamps)
        (Exc "DuplicateTimestampError" "Provider returned duplicate candle timestamps");
  _ ← validate_candle_alignment ordered timeframe;
  match expected_timestamps with
  | Some expected =>
      raise_if (negb (bool_decide (timestamps = expected)))
        (Exc "SessionCalendarMismatchError" "Provider candles do not match the versioned session calendar")
  | None => py_for (validate_gap timeframe) (pairwise ordered)
  end.

Definition by_timestamp : Candle -> Candle -> bool := on_key Candle.timestamp Z.ltb.

Definition normalize_candle_order (candles : list Candle) (timeframe : Timeframe) : pyres (list Candle) :=
  let ordered := sort_by by_timestamp candles in
  _ ← _validate_ordered_candles ordered timeframe None;
  Ok ordered.

Definition validate_candle_order (candles : list Candle) (timeframe : Timeframe)
    (expected_timestamps : option (list datetime)) : pyres (list Candle) :=
  _ ← raise_if (existsb (fun '(previous, current) => Candle.timestamp current <? Candle.timestamp previous)
                 (pairwise candles))
        (Exc "OutOfOrderTimestampError" "Provider returned candle timestamps outside chronological order");
  _ ← _validate_ordered_candles candles timeframe expected_timestamps;
  Ok candles.

(** ** [market_data/resampling.py] *)

Definition CanonicalResamplingError (msg : string) : pyexc := Exc "CanonicalResamplingError" msg.

(** [==] of candles: timestamps and numeric values. *)
Definition candle_eqb (a b : Candle) : bool :=
  (Candle.timestamp a =? Candle.timestamp b) && deqb (Candle.open a) (Candle.open b)
  && deqb (Candle.high a) (Candle.high b) && deqb (Candle.low a) (Candle.low b)
  && deqb (Candle.close a) (Candle.close b) && deqb (Candle.volume a) (Candle.volume b).

(** [except MarketDataError as exc: raise CanonicalResamplingError(str(exc))];
    normalisation raises no other error. *)
Definition as_resampling_error {A} (m : pyres A) : pyres A :=
  match m with
  | Raise (Exc _ msg) => Raise (CanonicalResamplingError msg)
  | Ok _ => m
  end.

(** The dictionary [grouped], in insertion order. *)
Definition Buckets : Type := list (datetime * list Candle).

(** [grouped.setdefault(bucket_start, []).append(candle)] *)
Fixpoint bucket_append (bucket_start : datetime) (candle : Candle) (grouped : Buckets) : Buckets :=
  match grouped with
  | [] => [(bucket_start, [candle])]
  | (key, candles) :: rest =>
      if key =? bucket_start then (key, candles ++ [candle]) :: rest
      else (key, candles) :: bucket_append bucket_start candle rest
  end.

Definition grouped_by (target : Timeframe) (eligible : list Candle) : Buckets :=
  foldl (fun grouped candle =>
    bucket_append (timeframe_bucket_start (Candle.timestamp candle) target) candle grouped) [] eligible.

(** [tuple(bucket_start + index * source_duration for index in range(expected_count))] *)
Definition expected_opens (bucket_start source_duration : Z) (expected_count : nat) : list datetime :=
  map (fun index => bucket_start + Z.of_nat index * source_duration) (seq 0 expected_count).

Definition max_high (cs : list Candle) : option dec := py_max dltb (map Candle.high cs).
Definition min_low (cs : list Candle) : option dec := py_min dltb (map Candle.low cs).
Definition total_volume (cs : list Candle) : dec := dsum DEFAULT_PREC (map Candle.volume cs).

(** The candle of a complete bucket; [None] is an [IndexError] or a
    [ValueError] of the empty bucket, which the grouping never builds. *)
Definition derived_candle (bucket_start : datetime) (cs : list Candle) : option Candle :=
  match head cs, last cs, max_high cs, min_low cs with
  | Some first, Some final, Some high, Some low =>
      Some (Candle.mkCandle bucket_start (Candle.open first) high low (Candle.close final) (total_volume cs))
  | _, _, _, _ => None
  end.

(** One iteration over the sorted buckets. *)
Definition derive_step (cutoff source_duration target_duration : Z) (derived : list Candle)
    (entry : datetime * list Candle) : pyres (list Candle) :=
  let '(bucket_start, members) := entry in
  if cutoff <? bucket_start + target_duration then Ok derived
  else
    let constituents := sort_by by_timestamp members in
    if negb (bool_decide (map Candle.timestamp constituents
               = expected_opens bucket_start source_duration (Z.to_nat (target_duration / source_duration))))
    then Ok derived
    else match derived_candle bucket_start constituents with
         | None => Raise (Exc "IndexError" "tuple index out of range")
         | Some candle => candle ← validated valid_candle candle; Ok (derived ++ [candle])
         end.

Definition resample_canonical_candles (candles : list Candle) (source_timeframe target_timeframe : Timeframe)
    (cutoff : datetime) : pyres (list Candle) :=
  let source_duration := timeframe_duration source_timeframe in
  let target_duration := timeframe_duration target_timeframe in
  _ ← raise_if ((target_duration <? source_duration) || negb (target_duration mod source_duration =? 0))
        (CanonicalResamplingError "target timeframe must be an integer multiple of canonical source timeframe");
  let eligible_input := List.filter (fun candle => Candle.timestamp candle + source_duration <=? cutoff) candles in
  if bool_decide (eligible_input = []) then Ok []
  else
    normalized ← as_resampling_error (normalize_candle_order eligible_input source_timeframe);
    _ ← raise_if (negb (list_eqb candle_eqb normalized eligible_input))
          (CanonicalResamplingError "canonical source candles must already be in ascending order");
    if bool_decide (target_timeframe = source_timeframe) then Ok normalized
    else
      py_fold (derive_step cutoff source_duration target_duration) []
        (sort_by (on_key fst Z.ltb) (grouped_by target_timeframe normalized)).

Example resample_two_minutes :
  let c t o h l cl v := Candle.mkCandle (t * 60000000) (D o) (D h) (D l) (D cl) (D v) in
  resample_canonical_candles [c 0 10 12 9 11 5; c 1 11 15 10 14 6; c 2 14 14 8 9 7; c 3 9 9 9 9 1]
    Timeframe.ONE_MINUTE Timeframe.THREE_MINUTES 240000000 = Ok [c 0 10 15 8 9 18].
Proof. vm_compute. reflexivity. Qed.
