(* ===== verification/ResamplingTheory.v ===== *)
(** Theorems on resampling: [market_data/resampling.py]. *)
From Stdlib Require Import ZArith QArith Lia Lqa String Sorting.Sorted Sorting.Permutation.
From stdpp Require Import base strings numbers list sets.
From S2P Require Import Prelude Decimal Time Candle Resampling.
Local Open Scope Z_scope.

(** ** Sorted candles *)

#[global] Instance by_timestamp_strict : StrictWeak by_timestamp.
Proof. unfold by_timestamp. apply _. Qed.

(** Strictly ascending timestamps. *)
Definition ascending (cs : list Candle) : Prop := StronglySorted Z.lt (map Candle.timestamp cs).

Lemma ascending_ordered cs : ascending cs -> ordered by_timestamp cs.
Proof.
  unfold ascending, ordered. induction cs as [|c cs IH]; intros H; [constructor|].
  cbn [map] in H. apply StronglySorted_inv in H as [H Hc]. constructor; [by apply IH|].
  apply Forall_forall. intros x Hx. unfold by_timestamp, on_key. apply Z.ltb_ge.
  rewrite Forall_forall in Hc. enough (Candle.timestamp c < Candle.timestamp x) by lia.
  apply Hc. by apply list_elem_of_fmap_2.
Qed.

Lemma ascending_sorted cs : ascending cs -> sort_by by_timestamp cs = cs.
Proof. intros H. apply sort_by_id. by apply ascending_ordered. Qed.

Lemma ascending_filter (p : Candle -> bool) cs : ascending cs -> ascending (List.filter p cs).
Proof.
  unfold ascending. induction cs as [|c cs IH]; intros H; [done|]. cbn [map] in H.
  apply StronglySorted_inv in H as [H Hc]. cbn [List.filter]. destruct (p c); [|by apply IH].
  cbn [map]. constructor; [by apply IH|]. rewrite Forall_forall in *. intros t Ht. apply Hc.
  apply list_elem_of_fmap in Ht as (x & -> & Hx). apply list_elem_of_fmap_2.
  apply list_elem_of_In. apply list_elem_of_In, List.filter_In in Hx. tauto.
Qed.

Lemma ascending_nodup cs : ascending cs -> NoDup (map Candle.timestamp cs).
Proof.
  unfold ascending. induction 1 as [|t l _ IH Ht]; [constructor|]. apply NoDup_cons. split; [|done].
  intros Hin. rewrite Forall_forall in Ht. specialize (Ht t Hin). lia.
Qed.

Lemma evenly_spaced_ascending tf cs : evenly_spaced tf cs -> ascending cs.
Proof.
  unfold ascending. induction cs as [|c cs IH]; intros H; cbn [map]; [constructor|].
  assert (evenly_spaced tf cs) as Hcs by (intros i a b Ha Hb; apply (H (S i)); done).
  constructor; [by apply IH|]. apply Forall_forall. intros t Ht.
  apply list_elem_of_fmap in Ht as (x & -> & Hx). apply list_elem_of_lookup_1 in Hx as [i Hi].
  pose proof (evenly_spaced_nth tf (c :: cs) 0 (S i) c x H eq_refl Hi). pose proof (timeframe_duration_pos tf). nia.
Qed.

(** ** The checks on the source *)

(** A source the resampler accepts: spaced and aligned. *)
Definition canonical (tf : Timeframe) (cs : list Candle) : Prop :=
  evenly_spaced tf cs /\ Forall (fun c => timeframe_bucket_start (Candle.timestamp c) tf = Candle.timestamp c) cs.

Lemma validate_gap_ok tf previous current : validate_gap tf (previous, current) = Ok tt <->
  Candle.timestamp current = Candle.timestamp previous + timeframe_duration tf.
Proof.
  unfold validate_gap. split.
  - intros H. apply bind_ok in H as ([] & H1 & H2). bool_hyps. lia.
  - intros H. apply bind_ok. exists tt. rewrite !raise_if_ok. lia.
Qed.

Lemma validate_ordered_ok tf cs : cs <> [] ->
  (_validate_ordered_candles cs tf None = Ok tt <-> canonical tf cs).
Proof.
  intros Hne. unfold _validate_ordered_candles, canonical, has_duplicates. rewrite (bool_decide_false (cs = [])) by done. cbn [raise_if mbind pyres_bind].
  assert (py_for (validate_gap tf) (pairwise cs) = Ok tt <-> evenly_spaced tf cs) as Hgap.
  { rewrite py_for_ok, pairwise_Forall. unfold evenly_spaced. split; intros H i a b Ha Hb; specialize (H i a b Ha Hb).
    - exact (proj1 (validate_gap_ok tf a b) H).
    - exact (proj2 (validate_gap_ok tf a b) H). }
  assert (validate_candle_alignment cs tf = Ok tt <->
    Forall (fun c => timeframe_bucket_start (Candle.timestamp c) tf = Candle.timestamp c) cs) as Hal.
  { unfold validate_candle_alignment. rewrite py_for_ok. apply Forall_iff. intros c. rewrite raise_if_ok, negb_false_iff. apply Z.eqb_eq. }
  split.
  - intros H. apply bind_ok in H as ([] & _ & H). apply bind_ok in H as ([] & H1 & H2). tauto.
  - intros [H1 H2]. apply bind_ok. exists tt. split.
    + apply raise_if_ok. rewrite bool_decide_true; [done|]. by apply ascending_nodup, (evenly_spaced_ascending tf).
    + apply bind_ok. exists tt. tauto.
Qed.

Lemma canonical_dec tf cs : canonical tf cs \/ ~ canonical tf cs.
Proof.
  destruct (decide (cs = [])) as [->|Hne]; [left; split; [done|constructor]|].
  rewrite <-validate_ordered_ok by done. destruct (_validate_ordered_candles cs tf None) as [[]|e]; [by left|by right].
Qed.

Lemma list_eqb_timestamps l k : list_eqb candle_eqb l k = true -> map Candle.timestamp l = map Candle.timestamp k.
Proof.
  unfold list_eqb. intros H. bool_hyps. apply Nat.eqb_eq in H. revert k H H0. induction l as [|a l IH]; intros [|b k] Hl Hf; try done.
  cbn [zip zip_with forallb map] in *. bool_hyps. cbn in Hl. unfold candle_eqb in *. bool_hyps. f_equal; [lia|]. apply IH; [lia|done].
Qed.

Lemma list_eqb_candle_refl l : list_eqb candle_eqb l l = true.
Proof.
  unfold list_eqb. rewrite Nat.eqb_refl. induction l as [|a l IH]; [done|]. cbn [zip zip_with forallb andb].
  apply andb_true_iff. split; [|exact IH]. unfold candle_eqb. by rewrite Z.eqb_refl, !deqb_refl.
Qed.

(** The part of the input the cutoff admits. *)
Definition eligible_input (src : Timeframe) (cutoff : datetime) (candles : list Candle) : list Candle :=
  List.filter (fun candle => Candle.timestamp candle + timeframe_duration src <=? cutoff) candles.

Definition buckets_of (tgt : Timeframe) (eligible : list Candle) : Buckets :=
  sort_by (on_key fst Z.ltb) (grouped_by tgt eligible).

Section Resample.
Context (src tgt : Timeframe).
Abbreviation d := (timeframe_duration src).
Abbreviation D' := (timeframe_duration tgt).
Hypothesis Hle : d <= D'.
Hypothesis Hmod : D' mod d = 0.

Lemma resample_canonical candles cutoff : canonical src (eligible_input src cutoff candles) ->
  resample_canonical_candles candles src tgt cutoff =
  let eligible := eligible_input src cutoff candles in
  if bool_decide (tgt = src) then Ok eligible
  else py_fold (derive_step cutoff d D') [] (buckets_of tgt eligible).
Proof.
  intros Hc. unfold resample_canonical_candles. fold (eligible_input src cutoff candles).
  rewrite (proj2 (Z.ltb_ge _ _)) by done. rewrite Hmod. cbn [orb negb Z.eqb raise_if mbind pyres_bind].
  set (E := eligible_input src cutoff candles) in *. cbv zeta. destruct (decide (E = [])) as [->|Hne].
  { rewrite bool_decide_true by done. by case_bool_decide. }
  rewrite (bool_decide_false (E = [])) by done. unfold normalize_candle_order.
  assert (ascending E) as Ha by (eapply evenly_spaced_ascending; apply Hc).
  rewrite ascending_sorted by done. rewrite (proj2 (validate_ordered_ok src E Hne) Hc).
  cbn [mbind pyres_bind as_resampling_error]. rewrite list_eqb_candle_refl. done.
Qed.

Lemma resample_refuses candles cutoff : ~ canonical src (eligible_input src cutoff candles) ->
  exists msg, resample_canonical_candles candles src tgt cutoff = Raise (CanonicalResamplingError msg).
Proof.
  intros Hc. unfold resample_canonical_candles. fold (eligible_input src cutoff candles).
  rewrite (proj2 (Z.ltb_ge _ _)) by done. rewrite Hmod. cbn [orb negb Z.eqb raise_if mbind pyres_bind].
  set (E := eligible_input src cutoff candles) in *. destruct (decide (E = [])) as [E0|Hne].
  { exfalso. apply Hc. rewrite E0. split; [intros i a b Ha; done|constructor]. }
  rewrite (bool_decide_false (E = [])) by done. unfold normalize_candle_order.
  destruct (_validate_ordered_candles (sort_by by_timestamp E) src None) as [[]|[cls msg]] eqn:Ev;
    cbn [mbind pyres_bind as_resampling_error]; [|eauto].
  destruct (list_eqb candle_eqb (sort_by by_timestamp E) E) eqn:Eq; cbn [negb raise_if mbind pyres_bind]; [|eauto].
  exfalso. apply Hc. apply list_eqb_timestamps in Eq.
  assert (sort_by by_timestamp E <> []) as Hne'.
  { intros E0. apply Hne. apply Permutation_nil. rewrite <-E0. symmetry. apply sort_by_Permutation. }
  apply validate_ordered_ok in Ev; [|done].
  assert (ascending (sort_by by_timestamp E)) as Ha by (eapply evenly_spaced_ascending; apply Ev).
  unfold ascending in Ha. rewrite Eq in Ha. apply ascending_sorted in Ha. by rewrite Ha in Ev.
Qed.
End Resample.

(** ** Grouping *)

Definition members (tgt : Timeframe) (b : datetime) (cs : list Candle) : list Candle :=
  List.filter (fun c => timeframe_bucket_start (Candle.timestamp c) tgt =? b) cs.

(** The dictionary of the buckets [keys]. *)
Definition table (keys : list datetime) (f : datetime -> list Candle) : Buckets := map (fun k => (k, f k)) keys.

Lemma bucket_append_table b c keys f f' : NoDup keys -> (forall k, k <> b -> f' k = f k) -> f' b = f b ++ [c] ->
  (b ∉ keys -> f b = []) ->
  bucket_append b c (table keys f) = table (if bool_decide (b ∈ keys) then keys else keys ++ [b]) f'.
Proof.
  intros Hnd Hne Hb. induction keys as [|k keys IH]; intros Hnone; cbn [table map bucket_append].
  - rewrite bool_decide_false by apply not_elem_of_nil. cbn. rewrite Hb, Hnone; [done|apply not_elem_of_nil].
  - apply NoDup_cons in Hnd as [Hk Hnd]. destruct (Z.eqb_spec k b) as [->|Hkb].
    + rewrite bool_decide_true by constructor. unfold table. cbn [map]. rewrite Hb. f_equal.
      apply map_ext_in. intros x Hx. rewrite Hne; [done|]. intros ->. apply Hk. by apply list_elem_of_In.
    + fold (table keys f). rewrite IH; [|done|intros H; apply Hnone; rewrite elem_of_cons; naive_solver].
      rewrite (bool_decide_ext (b ∈ k :: keys) (b ∈ keys)) by (rewrite elem_of_cons; naive_solver).
      case_bool_decide; unfold table; cbn [map app]; by rewrite Hne.
Qed.

(** Grouping builds the nonempty buckets of [cs], each once. *)
Lemma grouped_by_table tgt cs : exists keys, grouped_by tgt cs = table keys (fun b => members tgt b cs) /\ NoDup keys
  /\ forall b, b ∈ keys <-> members tgt b cs <> [].
Proof.
  unfold grouped_by. induction cs as [|c cs IH] using rev_ind.
  { exists []. split; [done|]. split; [constructor|]. intros b. cbn. rewrite elem_of_nil. naive_solver. }
  destruct IH as (keys & Hg & Hnd & Hkeys). rewrite foldl_app, Hg. cbn [foldl].
  set (b0 := timeframe_bucket_start (Candle.timestamp c) tgt).
  assert (forall b, members tgt b (cs ++ [c]) = members tgt b cs ++ (if b0 =? b then [c] else [])) as Happ.
  { intros b. unfold members. rewrite List.filter_app. cbn [List.filter]. fold b0. by destruct (b0 =? b). }
  rewrite (bucket_append_table _ _ _ _ (fun b => members tgt b (cs ++ [c]))).
  - eexists. split; [done|]. split.
    + case_bool_decide; [done|]. apply NoDup_app. split; [done|]. split; [|apply NoDup_singleton].
      intros k Hk Hk'. apply list_elem_of_singleton in Hk' as ->. done.
    + intros b. rewrite Happ. destruct (Z.eqb_spec b0 b) as [<-|Hne].
      * split; [by destruct (members tgt b0 cs)|]. intros _. case_bool_decide; [done|].
        apply elem_of_app. right. by apply list_elem_of_singleton.
      * rewrite app_nil_r, <-Hkeys. case_bool_decide; [done|]. rewrite elem_of_app, list_elem_of_singleton. naive_solver.
  - done.
  - intros k Hk. rewrite Happ. destruct (Z.eqb_spec b0 k); [congruence|]. by rewrite app_nil_r.
  - rewrite Happ. by rewrite Z.eqb_refl.
  - intros H. destruct (members tgt b0 cs) eqn:E; [done|]. destruct H. apply Hkeys. by rewrite E.
Qed.

Lemma buckets_of_table tgt cs : exists keys, buckets_of tgt cs = table keys (fun b => members tgt b cs)
  /\ StronglySorted Z.lt keys /\ forall b, b ∈ keys <-> members tgt b cs <> [].
Proof.
  destruct (grouped_by_table tgt cs) as (keys & Hg & Hnd & Hkeys). unfold buckets_of. rewrite Hg.
  exists (sort_by Z.ltb keys). split; [|split].
  - unfold table. clear. induction keys as [|k keys IH]; [done|]. cbn [map sort_by foldr].
    change (foldr (insert_by Z.ltb) [] keys) with (sort_by Z.ltb keys).
    change (foldr (insert_by (on_key fst Z.ltb)) [] ?l) with (sort_by (on_key fst Z.ltb) l). rewrite IH.
    generalize (sort_by Z.ltb keys). intros l. induction l as [|x l IHl]; [done|]. cbn [map insert_by].
    unfold on_key at 1. cbn [fst]. destruct (x <? k); [|done]. cbn [map]. by rewrite IHl.
  - assert (NoDup (sort_by Z.ltb keys)) as Hnd' by by rewrite <-(sort_by_Permutation Z.ltb keys).
    pose proof (sort_by_ordered Z.ltb keys) as Ho. unfold ordered in Ho.
    induction Ho as [|x l _ IH Hx]; [constructor|]. apply NoDup_cons in Hnd' as [Hin Hnd'].
    constructor; [by apply IH|]. rewrite Forall_forall in *. intros y Hy. specialize (Hx y Hy). apply Z.ltb_ge in Hx.
    enough (x <> y) by lia. intros ->. done.
  - intros b. by rewrite elem_of_sort_by, Hkeys.
Qed.

(** ** The candle of a bucket *)

Lemma wf_valid_candle c : candle_wf c -> valid_candle c = true.
Proof.
  unfold candle_wf, valid_candle, validate_ohlc, dmax, dmin. intros (H1 & H2 & H3 & H4 & H5 & H6).
  rewrite !andb_true_iff, !negb_true_iff, !dltb_true, dleb_true, !dltb_false, !Qval_D0.
  split_and!; try lra; [destruct (dltb (Candle.open c) (Candle.close c))|destruct (dltb (Candle.close c) (Candle.open c))]; lra.
Qed.

Lemma max_high_spec cs m : max_high cs = Some m ->
  (exists c, c ∈ cs /\ m = Candle.high c) /\ forall c, c ∈ cs -> (Qval (Candle.high c) <= Qval m)%Q.
Proof.
  unfold max_high, py_max. intros H. apply (py_min_spec (rev_lt dltb)) in H as [H1 H2].
  split; [apply list_elem_of_fmap in H1 as (c & -> & Hc); eauto|].
  intros c Hc. specialize (H2 (Candle.high c) (list_elem_of_fmap_2 Candle.high _ _ Hc)). by apply dltb_false in H2.
Qed.

Lemma min_low_spec cs m : min_low cs = Some m ->
  (exists c, c ∈ cs /\ m = Candle.low c) /\ forall c, c ∈ cs -> (Qval m <= Qval (Candle.low c))%Q.
Proof.
  unfold min_low. intros H. apply (py_min_spec dltb) in H as [H1 H2].
  split; [apply list_elem_of_fmap in H1 as (c & -> & Hc); eauto|].
  intros c Hc. specialize (H2 (Candle.low c) (list_elem_of_fmap_2 Candle.low _ _ Hc)). by apply dltb_false in H2.
Qed.

(** The candle [c] summarises the candles [cs] of the bucket [b]. *)
Record summarises (b : datetime) (cs : list Candle) (c : Candle) : Prop := {
  su_timestamp : Candle.timestamp c = b;
  su_open : exists first, head cs = Some first /\ Candle.open c = Candle.open first;
  su_close : exists final, last cs = Some final /\ Candle.close c = Candle.close final;
  su_high : (exists x, x ∈ cs /\ Candle.high c = Candle.high x) /\ forall x, x ∈ cs -> (Qval (Candle.high x) <= Qval (Candle.high c))%Q;
  su_low : (exists x, x ∈ cs /\ Candle.low c = Candle.low x) /\ forall x, x ∈ cs -> (Qval (Candle.low c) <= Qval (Candle.low x))%Q;
  su_volume : Candle.volume c = dsum DEFAULT_PREC (map Candle.volume cs)
}.

Lemma derived_candle_total b cs : cs <> [] -> exists c, derived_candle b cs = Some c.
Proof.
  intros Hne. unfold derived_candle. destruct cs as [|x cs]; [done|]. cbn [head].
  destruct (last (x :: cs)) eqn:El; [|by apply last_None in El].
  unfold max_high, min_low, py_max. cbn [map py_min]. eauto.
Qed.

Lemma derived_candle_summarises b cs c : derived_candle b cs = Some c -> summarises b cs c.
Proof.
  unfold derived_candle. destruct (head cs) as [first|] eqn:Eh; [|done]. destruct (last cs) as [final|] eqn:El; [|done].
  destruct (max_high cs) as [high|] eqn:Emax; [|done]. destruct (min_low cs) as [low|] eqn:Emin; [|done].
  intros [= <-]. split; cbn; eauto; [by apply max_high_spec|by apply min_low_spec].
Qed.

Lemma derived_candle_valid b cs c : Forall (fun x => valid_candle x = true) cs -> derived_candle b cs = Some c ->
  valid_candle c = true.
Proof.
  intros Hv H. apply derived_candle_summarises in H as [_ (x & Hx & Ho) (y & Hy & Hc) [(h & Hh & Eh) Hmax] [(l & Hl & El) Hmin] Hvol].
  rewrite Forall_forall in Hv.
  assert (x ∈ cs) as Hxin by (destruct cs; [done|injection Hx as ->; constructor]).
  assert (y ∈ cs) as Hyin by by apply last_Some_elem_of.
  pose proof (valid_candle_wf _ (Hv x Hxin)) as (X1 & X2 & X3 & X4 & X5 & X6).
  pose proof (valid_candle_wf _ (Hv y Hyin)) as (Y1 & Y2 & Y3 & Y4 & Y5 & Y6).
  pose proof (valid_candle_wf _ (Hv l Hl)) as (L1 & _).
  pose proof (Hmax x Hxin). pose proof (Hmax y Hyin). pose proof (Hmin x Hxin). pose proof (Hmin y Hyin).
  apply wf_valid_candle. unfold candle_wf. rewrite Ho, Hc. split_and!; try lra.
  - rewrite El. lra.
  - rewrite Hvol. apply dsum_nonneg. apply Forall_forall. intros v Hvin. apply list_elem_of_fmap in Hvin as (z & -> & Hz).
    pose proof (valid_candle_wf _ (Hv z Hz)) as (_ & _ & _ & _ & _ & Z6). exact Z6.
Qed.

(** ** Bucket bounds *)

Lemma bucket_start_whole t tf : timeframe_bucket_start t tf mod US_PER_SECOND = 0.
Proof.
  unfold timeframe_bucket_start, day_start, US_PER_DAY. destruct tf; try apply Z.mod_mul; try done.
  - rewrite Z.mul_assoc. by apply Z.mod_mul.
  - set (x := t / (86400 * US_PER_SECOND)). set (w := isoweekday _ - 1).
    replace (x * (86400 * US_PER_SECOND) - w * (86400 * US_PER_SECOND)) with ((x * 86400 - w * 86400) * US_PER_SECOND) by ring.
    by apply Z.mod_mul.
Qed.

Lemma bucket_start_bounds t tf : whole_or_recent t ->
  timeframe_bucket_start t tf <= t < timeframe_bucket_start t tf + timeframe_duration tf.
Proof.
  intros Ht. rewrite bucket_start_floor by done. pose proof (timeframe_duration_pos tf) as Hd.
  pose proof (Z.div_mod (t - bucket_origin tf) (timeframe_duration tf) ltac:(lia)).
  pose proof (Z.mod_pos_bound (t - bucket_origin tf) _ Hd). lia.
Qed.

Lemma elem_expected b step n t : t ∈ expected_opens b step n <-> exists i, 0 <= i < Z.of_nat n /\ t = b + i * step.
Proof.
  unfold expected_opens. rewrite list_elem_of_fmap. split.
  - intros (i & -> & Hi). apply elem_of_seq in Hi. exists (Z.of_nat i). lia.
  - intros (i & Hi & ->). exists (Z.to_nat i). rewrite elem_of_seq. split; [by rewrite Z2Nat.id by lia|lia].
Qed.

(** ** The result *)

Section Derive.
Context (src tgt : Timeframe).
Abbreviation d := (timeframe_duration src).
Abbreviation D' := (timeframe_duration tgt).
Hypothesis Hle : d <= D'.
Hypothesis Hmod : D' mod d = 0.

Let count : nat := Z.to_nat (D' / d).

Lemma count_spec : Z.of_nat count * d = D' /\ (0 < count)%nat.
Proof using Hle Hmod.
  pose proof (timeframe_duration_pos src) as Hd. unfold count.
  assert (1 <= D' / d) by (apply Z.div_le_lower_bound; lia).
  pose proof (Z.div_mod D' d ltac:(lia)). rewrite Z2Nat.id by lia. lia.
Qed.

(** Bucket [b] is complete and closed at [cutoff]. *)
Definition complete (cutoff b : Z) (cs : list Candle) : bool :=
  (b + D' <=? cutoff) && bool_decide (map Candle.timestamp cs = expected_opens b d (Z.to_nat (D' / d))).

Definition derive1 (cutoff : Z) (eligible : list Candle) (b : Z) : option Candle :=
  let cs := members tgt b eligible in if complete cutoff b cs then derived_candle b cs else None.

Lemma members_valid b cs : Forall (fun x => valid_candle x = true) cs ->
  Forall (fun x => valid_candle x = true) (members tgt b cs).
Proof.
  rewrite !Forall_forall. intros H x Hx. apply H. apply list_elem_of_In in Hx. unfold members in Hx.
  apply List.filter_In in Hx as [Hx _]. by apply list_elem_of_In.
Qed.

Lemma derive_fold cutoff cs keys acc : ascending cs -> Forall (fun x => valid_candle x = true) cs ->
  Forall (fun b => members tgt b cs <> []) keys ->
  py_fold (derive_step cutoff d D') acc (table keys (fun b => members tgt b cs))
  = Ok (acc ++ omap (derive1 cutoff cs) keys).
Proof.
  intros Ha Hv. revert acc. induction keys as [|b keys IH]; intros acc Hk; unfold table; cbn [map py_fold].
  { by rewrite app_nil_r. }
  apply Forall_cons in Hk as [Hb Hk]. fold (table keys (fun b => members tgt b cs)).
  unfold derive_step at 1. rewrite ascending_sorted by by apply ascending_filter.
  change (omap (derive1 cutoff cs) (b :: keys)) with (match derive1 cutoff cs b with
    Some c => c :: omap (derive1 cutoff cs) keys | None => omap (derive1 cutoff cs) keys end).
  unfold derive1 at 1, complete. cbv zeta. rewrite Z.ltb_antisym. destruct (b + D' <=? cutoff); cbn [negb andb]; [|by apply IH].
  case_bool_decide as E; cbn [negb]; [|by apply IH].
  destruct (derived_candle_total b (members tgt b cs) Hb) as (c & Hc). rewrite Hc. unfold validated.
  rewrite (derived_candle_valid b (members tgt b cs) c (members_valid b cs Hv) Hc). cbn [mbind pyres_bind].
  rewrite IH by done. by rewrite <-app_assoc.
Qed.

Lemma derive1_ascending cutoff cs keys : StronglySorted Z.lt keys -> ascending (omap (derive1 cutoff cs) keys).
Proof.
  unfold ascending. induction 1 as [|b keys _ IH Hb]; [constructor|].
  change (omap (derive1 cutoff cs) (b :: keys)) with (match derive1 cutoff cs b with
    Some c => c :: omap (derive1 cutoff cs) keys | None => omap (derive1 cutoff cs) keys end).
  destruct (derive1 cutoff cs b) as [c|] eqn:E; [|done]. cbn [map]. constructor; [done|].
  apply Forall_forall. intros t Ht. apply list_elem_of_fmap in Ht as (x & -> & Hx).
  apply list_elem_of_omap in Hx as (b' & Hb' & Ex). rewrite Forall_forall in Hb. specialize (Hb b' Hb').
  unfold derive1 in *. destruct (complete _ b _); [|done]. destruct (complete _ b' _); [|done].
  apply derived_candle_summarises, su_timestamp in E, Ex. lia.
Qed.

(** The derived candles. *)
Lemma resample_derived candles cutoff : tgt <> src -> canonical src (eligible_input src cutoff candles) ->
  Forall (fun x => valid_candle x = true) (eligible_input src cutoff candles) ->
  exists out, resample_canonical_candles candles src tgt cutoff = Ok out /\ ascending out
  /\ forall c, c ∈ out <-> exists b, derive1 cutoff (eligible_input src cutoff candles) b = Some c.
Proof using Hle Hmod.
  intros Hne Hc Hv. rewrite (resample_canonical src tgt Hle Hmod candles cutoff Hc). cbv zeta.
  set (E := eligible_input src cutoff candles) in *. rewrite bool_decide_false by done.
  destruct (buckets_of_table tgt E) as (keys & -> & Hs & Hk).
  assert (ascending E) as Ha by (eapply evenly_spaced_ascending; apply Hc).
  rewrite derive_fold; [|done|done|apply Forall_forall; intros b Hb; by apply Hk].
  cbn [app]. eexists. split; [done|]. split; [by apply derive1_ascending|]. intros c. rewrite list_elem_of_omap. split.
  - intros (b & _ & H). eauto.
  - intros (b & H). exists b. split; [|done]. apply Hk. unfold derive1 in H. destruct (complete _ _ _); [|done].
    intros E0. by rewrite E0 in H.
Qed.
End Derive.

(** C36. Resampling valid candles never fails but with its own error, and that
    exactly when the closed source candles are not a spaced, aligned sequence.
    Otherwise it returns candles in ascending order, and precisely one for
    every bucket that is closed at the cutoff and whose source candles are all
    present; each opens with the first and closes with the last of them, spans
    their highest high and lowest low, and has the sum of their volumes. *)
Theorem resample_exact src tgt candles cutoff : tgt <> src ->
  timeframe_duration src <= timeframe_duration tgt -> timeframe_duration tgt mod timeframe_duration src = 0 ->
  Forall (fun x => valid_candle x = true) candles ->
  let eligible := eligible_input src cutoff candles in
  (~ canonical src eligible ->
     exists msg, resample_canonical_candles candles src tgt cutoff = Raise (CanonicalResamplingError msg))
  /\ (canonical src eligible ->
     exists out, resample_canonical_candles candles src tgt cutoff = Ok out /\ ascending out
     /\ (forall c, c ∈ out -> valid_candle c = true /\ exists b, let cs := members tgt b eligible in
           complete src tgt cutoff b cs = true /\ summarises b cs c)
     /\ (forall b, complete src tgt cutoff b (members tgt b eligible) = true ->
           exists c, c ∈ out /\ summarises b (members tgt b eligible) c)).
Proof.
  intros Hne Hle Hmod Hv. cbv zeta. split; [by apply resample_refuses|]. intros Hc.
  set (E := eligible_input src cutoff candles) in *.
  assert (Forall (fun x => valid_candle x = true) E) as HvE.
  { rewrite Forall_forall in *. intros x Hx. apply Hv. apply list_elem_of_In in Hx. unfold E, eligible_input in Hx.
    apply List.filter_In in Hx as [Hx _]. by apply list_elem_of_In. }
  destruct (resample_derived src tgt Hle Hmod candles cutoff Hne Hc HvE) as (out & Ho & Ha & Hel).
  exists out. split; [done|]. split; [done|]. split.
  - intros c Hcin. apply Hel in Hcin as (b & Hd). unfold derive1 in Hd. fold E in Hd.
    destruct (complete _ _ _ _ _) eqn:Ec; [|done].
    split; [by eapply derived_candle_valid; [apply members_valid, HvE|]|]. exists b. split; [done|]. by apply derived_candle_summarises.
  - intros b Hb. assert (members tgt b E <> []) as Hm.
    { intros E0. rewrite E0 in Hb. unfold complete in Hb. bool_hyps. destruct (count_spec src tgt Hle Hmod) as [_ Hn].
      unfold expected_opens in *. destruct (Z.to_nat _); [lia|done]. }
    destruct (derived_candle_total b _ Hm) as (c & Hcd). exists c. split; [|by apply derived_candle_summarises].
    apply Hel. exists b. unfold derive1. fold E. by rewrite Hb.
Qed.

(** Two ascending lists with the same elements are equal. *)
Lemma ascending_eq l k : ascending l -> ascending k -> (forall c, c ∈ l <-> c ∈ k) -> l = k.
Proof.
  unfold ascending. revert k. induction l as [|x l IH]; intros [|y k] Hl Hk Hel; [done| | |].
  - assert (y ∈ []) as H by (apply Hel; constructor). by apply elem_of_nil in H.
  - assert (x ∈ []) as H by (apply Hel; constructor). by apply elem_of_nil in H.
  - cbn [map] in *. apply StronglySorted_inv in Hl as [Hl Hx], Hk as [Hk Hy]. rewrite Forall_forall in Hx, Hy.
    assert (forall z, z ∈ l -> Candle.timestamp x < Candle.timestamp z) as Hxl by (intros z Hz; apply Hx; by apply list_elem_of_fmap_2).
    assert (forall z, z ∈ k -> Candle.timestamp y < Candle.timestamp z) as Hyk by (intros z Hz; apply Hy; by apply list_elem_of_fmap_2).
    assert (x = y) as ->.
    { assert (x ∈ y :: k) as H1 by (apply Hel; constructor). assert (y ∈ x :: l) as H2 by (apply Hel; constructor).
      apply elem_of_cons in H1 as [|H1]; [done|]. apply elem_of_cons in H2 as [|H2]; [done|].
      specialize (Hxl y H2). specialize (Hyk x H1). lia. }
    f_equal. apply IH; [done|done|]. intros c. specialize (Hel c). rewrite !elem_of_cons in Hel. split; intros Hc.
    + destruct (proj1 Hel (or_intror Hc)) as [->|]; [specialize (Hxl y Hc); lia|done].
    + destruct (proj2 Hel (or_intror Hc)) as [->|]; [specialize (Hyk y Hc); lia|done].
Qed.

Lemma eligible_earlier src c1 c2 candles : c1 <= c2 ->
  eligible_input src c1 candles
  = List.filter (fun c => Candle.timestamp c + timeframe_duration src <=? c1) (eligible_input src c2 candles).
Proof.
  intros Hc. unfold eligible_input. induction candles as [|c cs IH]; [done|]. cbn [List.filter].
  destruct (Z.leb_spec (Candle.timestamp c + timeframe_duration src) c2) as [H|H]; cbn [List.filter].
  - destruct (Candle.timestamp c + timeframe_duration src <=? c1); by rewrite IH.
  - rewrite (proj2 (Z.leb_gt _ _)) by lia. exact IH.
Qed.

(** A cut of a spaced sequence by time is a prefix. *)
Lemma ascending_cut (bound : Z) cs : ascending cs -> exists n,
  List.filter (fun c => Candle.timestamp c <=? bound) cs = take n cs.
Proof.
  unfold ascending. induction cs as [|c cs IH]; intros Ha; [by exists 0%nat|]. cbn [map] in Ha.
  apply StronglySorted_inv in Ha as [Ha Hc]. cbn [List.filter]. destruct (Z.leb_spec (Candle.timestamp c) bound) as [H|H].
  - destruct (IH Ha) as (n & ->). by exists (S n).
  - exists 0%nat. cbn [take]. rewrite Forall_forall in Hc.
    assert (forall x, x ∈ cs -> bound < Candle.timestamp x) as Hall.
    { intros x Hx. specialize (Hc _ (list_elem_of_fmap_2 Candle.timestamp _ _ Hx)). lia. }
    clear -Hall. induction cs as [|x cs IH]; [done|]. cbn [List.filter].
    rewrite (proj2 (Z.leb_gt _ _)) by (apply Hall; constructor). apply IH. intros y Hy. apply Hall. by constructor.
Qed.

Lemma canonical_cut src c1 cs : canonical src cs ->
  canonical src (List.filter (fun c => Candle.timestamp c + timeframe_duration src <=? c1) cs).
Proof.
  intros [Hs Hal]. assert (ascending cs) as Ha by by eapply evenly_spaced_ascending.
  destruct (ascending_cut (c1 - timeframe_duration src) cs Ha) as (n & Hn).
  assert (List.filter (fun c => Candle.timestamp c + timeframe_duration src <=? c1) cs = take n cs) as ->.
  { rewrite <-Hn. apply List.filter_ext. intros c. destruct (Z.leb_spec (Candle.timestamp c + timeframe_duration src) c1),
      (Z.leb_spec (Candle.timestamp c) (c1 - timeframe_duration src)); lia || done. }
  split; [|by apply Forall_take]. intros i a b Hia Hib. rewrite lookup_take_Some in *. apply (Hs i); tauto.
Qed.

Lemma filter_comm {A} (p q : A -> bool) l : List.filter p (List.filter q l) = List.filter q (List.filter p l).
Proof.
  induction l as [|x l IH]; [done|]. cbn [List.filter].
  destruct (q x) eqn:Eq, (p x) eqn:Ep; cbn [List.filter]; rewrite ?Eq, ?Ep, ?IH; done.
Qed.

Lemma elem_members tgt b cs x : x ∈ members tgt b cs <-> x ∈ cs /\ timeframe_bucket_start (Candle.timestamp x) tgt = b.
Proof. unfold members. rewrite !list_elem_of_In, List.filter_In, Z.eqb_eq. done. Qed.

Section PointInTime.
Context (src tgt : Timeframe).
Abbreviation d := (timeframe_duration src).
Abbreviation D' := (timeframe_duration tgt).
Hypothesis Hle : d <= D'.
Hypothesis Hmod : D' mod d = 0.

Let opens (b : Z) := expected_opens b d (Z.to_nat (D' / d)).

Lemma opens_bound b t : t ∈ opens b -> t + d <= b + D'.
Proof using Hle Hmod.
  intros H. apply elem_expected in H as (i & Hi & ->). destruct (count_spec src tgt Hle Hmod) as [Hn _].
  pose proof (timeframe_duration_pos src). nia.
Qed.

(** A bucket that closed by [c1] has the same members before and after. *)
Lemma members_final c1 cs b : canonical src cs -> b + D' <= c1 ->
  let cut := List.filter (fun c => Candle.timestamp c + d <=? c1) cs in
  map Candle.timestamp (members tgt b cs) = opens b \/ map Candle.timestamp (members tgt b cut) = opens b ->
  members tgt b cut = members tgt b cs.
Proof using Hle Hmod.
  cbv zeta. intros [Hs Hal] Hb Hcase. unfold members at 1. rewrite filter_comm. fold (members tgt b cs).
  apply list_filter_all. intros y Hy. apply Z.leb_le. destruct Hcase as [Hcase|Hcase].
  { enough (Candle.timestamp y + d <= b + D') by lia. apply opens_bound. rewrite <-Hcase. by apply list_elem_of_fmap_2. }
  destruct (count_spec src tgt Hle Hmod) as [Hn Hpos]. pose proof (timeframe_duration_pos src) as Hd.
  assert (b ∈ map Candle.timestamp (members tgt b (List.filter (fun c => Candle.timestamp c + d <=? c1) cs))) as Hbin.
  { rewrite Hcase. apply elem_expected. exists 0. lia. }
  apply list_elem_of_fmap in Hbin as (x & Ex & Hx). apply elem_members in Hx as [Hx _].
  apply list_elem_of_In, List.filter_In in Hx as [Hx _]. apply list_elem_of_In in Hx.
  apply elem_members in Hy as [Hy Hyb]. rewrite Forall_forall in Hal.
  assert (whole_or_recent (Candle.timestamp y)) as Hw by (right; rewrite <-(Hal y Hy); apply bucket_start_whole).
  pose proof (bucket_start_bounds (Candle.timestamp y) tgt Hw) as Hbound. rewrite Hyb in Hbound.
  apply list_elem_of_lookup_1 in Hx as [i Hi], Hy as [j Hj].
  pose proof (evenly_spaced_nth src cs i j x y Hs Hi Hj) as Hij. rewrite <-Ex in Hij.
  assert (Z.of_nat j - Z.of_nat i < Z.of_nat (Z.to_nat (D' / d))) by nia. nia.
Qed.

Lemma derive1_cut c1 c2 cs b c : canonical src cs -> c1 <= c2 ->
  derive1 src tgt c1 (List.filter (fun c => Candle.timestamp c + d <=? c1) cs) b = Some c <->
  derive1 src tgt c2 cs b = Some c /\ Candle.timestamp c + D' <= c1.
Proof using Hle Hmod.
  intros Hc H12. unfold derive1, complete. cbv zeta. fold (opens b).
  pose proof (members_final c1 cs b Hc) as Hm. cbv zeta in Hm.
  set (cut := List.filter (fun c => Candle.timestamp c + d <=? c1) cs) in *. split.
  - intros H. destruct (Z.leb_spec (b + D') c1) as [Hb|Hb]; cbn [andb] in H; [|done].
    case_bool_decide as E; [|done]. pose proof (Hm Hb (or_intror E)) as Em. rewrite Em in E, H.
    rewrite bool_decide_true by exact E.
    rewrite (proj2 (Z.leb_le _ _)) by lia. cbn [andb]. split; [done|].
    apply derived_candle_summarises, su_timestamp in H. lia.
  - intros [H Ht]. destruct (Z.leb_spec (b + D') c2) as [Hb2|Hb2]; cbn [andb] in H; [|done].
    case_bool_decide as E; [|done]. pose proof (su_timestamp _ _ _ (derived_candle_summarises _ _ _ H)) as Eb.
    assert (b + D' <= c1) as Hb by lia. rewrite (Hm Hb (or_introl E)). rewrite bool_decide_true by exact E.
    by rewrite (proj2 (Z.leb_le _ _)) by lia.
Qed.
End PointInTime.

(** Nothing is returned but for a source the checks accept. *)
Lemma resample_accepts src tgt candles cutoff out : resample_canonical_candles candles src tgt cutoff = Ok out ->
  timeframe_duration src <= timeframe_duration tgt /\ timeframe_duration tgt mod timeframe_duration src = 0
  /\ canonical src (eligible_input src cutoff candles).
Proof.
  intros H. pose proof H as H0. unfold resample_canonical_candles in H0. apply bind_ok in H0 as ([] & H0 & _). bool_hyps.
  assert (timeframe_duration src <= timeframe_duration tgt) as Hle by lia.
  assert (timeframe_duration tgt mod timeframe_duration src = 0) as Hmod by lia. refine (conj Hle (conj Hmod _)).
  destruct (canonical_dec src (eligible_input src cutoff candles)) as [|Hc]; [done|].
  destruct (resample_refuses src tgt Hle Hmod _ _ Hc) as (msg & E). congruence.
Qed.

Lemma eligible_valid src c candles : Forall (fun x => valid_candle x = true) candles ->
  Forall (fun x => valid_candle x = true) (eligible_input src c candles).
Proof.
  rewrite !Forall_forall. intros Hv x Hx. apply Hv. apply list_elem_of_In in Hx. unfold eligible_input in Hx.
  apply List.filter_In in Hx as [Hx _]. by apply list_elem_of_In.
Qed.

(** The result is always ascending. *)
Lemma resample_ascending src tgt candles cutoff out : Forall (fun x => valid_candle x = true) candles ->
  resample_canonical_candles candles src tgt cutoff = Ok out -> ascending out.
Proof.
  intros Hv H. destruct (resample_accepts _ _ _ _ _ H) as (Hle & Hmod & Hc).
  destruct (decide (tgt = src)) as [E|Hne].
  - rewrite (resample_canonical src tgt Hle Hmod _ _ Hc) in H. cbv zeta in H. rewrite bool_decide_true in H by done.
    injection H as <-. eapply evenly_spaced_ascending, Hc.
  - destruct (resample_derived src tgt Hle Hmod candles cutoff Hne Hc (eligible_valid _ _ _ Hv)) as (o & Ho & Ha & _).
    congruence.
Qed.

(** An earlier cutoff returns what closed by then of a later one. *)
Lemma resample_cut src tgt candles c1 c2 out : Forall (fun x => valid_candle x = true) candles -> c1 <= c2 ->
  resample_canonical_candles candles src tgt c2 = Ok out ->
  resample_canonical_candles candles src tgt c1
  = Ok (List.filter (fun c => Candle.timestamp c + timeframe_duration tgt <=? c1) out).
Proof.
  intros Hv H12 H. destruct (resample_accepts _ _ _ _ _ H) as (Hle & Hmod & Hc).
  pose proof (canonical_cut src c1 _ Hc) as Hc1. rewrite <-(eligible_earlier src c1 c2 candles H12) in Hc1.
  destruct (decide (tgt = src)) as [->|Hne].
  { rewrite (resample_canonical src src Hle Hmod _ _ Hc) in H. rewrite (resample_canonical src src Hle Hmod _ _ Hc1).
    cbv zeta in *. rewrite bool_decide_true in * by done. injection H as <-. f_equal. by apply eligible_earlier. }
  destruct (resample_derived src tgt Hle Hmod candles c1 Hne Hc1 (eligible_valid _ _ _ Hv)) as (out1 & -> & Ha1 & Hel1). f_equal.
  destruct (resample_derived src tgt Hle Hmod candles c2 Hne Hc (eligible_valid _ _ _ Hv)) as (out2 & Ho2 & Ha2 & Hel2).
  assert (out2 = out) as -> by congruence.
  apply ascending_eq; [done|by apply ascending_filter|]. intros c.
  rewrite (list_elem_of_In (List.filter _ _) c), List.filter_In, <-list_elem_of_In, Z.leb_le, Hel1, Hel2.
  rewrite (eligible_earlier src c1 c2 candles H12).
  setoid_rewrite (derive1_cut src tgt Hle Hmod c1 c2 (eligible_input src c2 candles) _ c Hc H12).
  naive_solver.
Qed.

(** Rows that close after the cutoff do not matter. *)
Lemma resample_ignores_later src tgt candles later_rows c :
  Forall (fun x => c < Candle.timestamp x + timeframe_duration src) later_rows ->
  resample_canonical_candles (candles ++ later_rows) src tgt c = resample_canonical_candles candles src tgt c.
Proof.
  intros Hl. unfold resample_canonical_candles. rewrite List.filter_app.
  assert (List.filter (fun x => Candle.timestamp x + timeframe_duration src <=? c) later_rows = []) as ->.
  { induction Hl as [|x l Hx _ IH]; [done|]. cbn [List.filter]. by rewrite (proj2 (Z.leb_gt _ _)) by lia. }
  by rewrite app_nil_r.
Qed.

(** Resampling is point-in-time: what a later cutoff returns for buckets
    closed by an earlier one is exactly what the earlier cutoff returned, on
    the same rows or with any rows beyond the later cutoff added. *)
Theorem resample_point_in_time src tgt candles later_rows c1 c2 out : tgt <> src ->
  timeframe_duration src <= timeframe_duration tgt -> timeframe_duration tgt mod timeframe_duration src = 0 ->
  Forall (fun x => valid_candle x = true) candles -> c1 <= c2 ->
  Forall (fun x => c2 < Candle.timestamp x + timeframe_duration src) later_rows ->
  resample_canonical_candles (candles ++ later_rows) src tgt c2 = Ok out ->
  resample_canonical_candles candles src tgt c1
  = Ok (List.filter (fun c => Candle.timestamp c + timeframe_duration tgt <=? c1) out).
Proof.
  intros _ _ _ Hv H12 Hlater H. apply resample_cut with c2; [done..|]. by rewrite resample_ignores_later in H.
Qed.

(** ** Witnesses *)

Definition sample_candles : list Candle :=
  let c t o h l cl v := Candle.mkCandle (t * 60000000) (D o) (D h) (D l) (D cl) (D v) in
  [c 0 10 12 9 11 5; c 1 11 15 10 14 6; c 2 14 14 8 9 7; c 3 9 9 9 9 1].

Lemma sample_valid : Forall (fun x => valid_candle x = true) sample_candles.
Proof. repeat (apply List.Forall_cons; [vm_compute; reflexivity|]). apply List.Forall_nil. Qed.

Lemma sample_canonical : canonical Timeframe.ONE_MINUTE (eligible_input Timeframe.ONE_MINUTE 240000000 sample_candles).
Proof. apply validate_ordered_ok; [discriminate|vm_compute; reflexivity]. Qed.

Lemma resample_exact_witness : exists out,
  resample_canonical_candles sample_candles Timeframe.ONE_MINUTE Timeframe.THREE_MINUTES 240000000 = Ok out /\ ascending out.
Proof.
  assert (Timeframe.THREE_MINUTES <> Timeframe.ONE_MINUTE) as Hne by discriminate.
  assert (timeframe_duration Timeframe.ONE_MINUTE <= timeframe_duration Timeframe.THREE_MINUTES) as Hle by (vm_compute; discriminate).
  destruct (proj2 (resample_exact Timeframe.ONE_MINUTE Timeframe.THREE_MINUTES sample_candles 240000000 Hne Hle eq_refl sample_valid)
    sample_canonical) as (out & H1 & H2 & _).
  exists out. split; [exact H1|exact H2].
Defined.

Lemma resample_point_in_time_witness :
  resample_canonical_candles sample_candles Timeframe.ONE_MINUTE Timeframe.THREE_MINUTES 170000000 = Ok [].
Proof.
  assert (Timeframe.THREE_MINUTES <> Timeframe.ONE_MINUTE) as Hne by discriminate.
  assert (timeframe_duration Timeframe.ONE_MINUTE <= timeframe_duration Timeframe.THREE_MINUTES) as Hle by (vm_compute; discriminate).
  exact (resample_point_in_time Timeframe.ONE_MINUTE Timeframe.THREE_MINUTES sample_candles [] 170000000 240000000 _
    Hne Hle eq_refl sample_valid ltac:(lia) (List.Forall_nil _) eq_refl).
Defined.
