(* ===== verification/MtfTypes.v ===== *)
(** The data of multi-timeframe analysis: [schemas/multi_timeframe.py].

    A dictionary keyed by timeframes is the list of its items; the string keys
    of the results are the values of the timeframes, and stand here as the
    timeframes themselves. *)
From Stdlib Require Import ZArith Lia.
From stdpp Require Import base list strings numbers.
From S2P Require Import Prelude Dict Decimal Time Candle Signal Structure.
Local Open Scope Z_scope.

(** [set(l).issubset(k)], and [set(l) == set(k)]. *)
Definition subset_of {A} `{EqDecision A} (l k : list A) : bool := forallb (fun x => bool_decide (x ∈ k)) l.
Definition same_set {A} `{EqDecision A} (l k : list A) : bool := subset_of l k && subset_of k l.

(** ** Enumerations *)

Module MTFRole.
Inductive MTFRole := MARKET_BIAS | MARKET_STRUCTURE | SETUP | TRIGGER | CONTEXT_ONLY.
#[global] Instance MTFRole_eqdec : EqDecision MTFRole := ltac:(solve_decision).
End MTFRole.
Abbreviation MTFRole := MTFRole.MTFRole.

Definition LEGACY_MTF_ROLES : list (Timeframe * MTFRole) :=
  [(Timeframe.ONE_HOUR, MTFRole.MARKET_BIAS); (Timeframe.FIFTEEN_MINUTES, MTFRole.MARKET_STRUCTURE);
   (Timeframe.FIVE_MINUTES, MTFRole.SETUP); (Timeframe.THREE_MINUTES, MTFRole.TRIGGER);
   (Timeframe.ONE_MINUTE, MTFRole.TRIGGER)].

Module MTFGapPolicy.
Inductive MTFGapPolicy := REQUIRE_CONTIGUOUS | SESSION_CALENDAR.
#[global] Instance MTFGapPolicy_eqdec : EqDecision MTFGapPolicy := ltac:(solve_decision).
End MTFGapPolicy.
Abbreviation MTFGapPolicy := MTFGapPolicy.MTFGapPolicy.

Module MTFDirection.
Inductive MTFDirection := BULLISH | BEARISH.
#[global] Instance MTFDirection_eqdec : EqDecision MTFDirection := ltac:(solve_decision).
Definition value (d : MTFDirection) : string := match d with BULLISH => "bullish" | BEARISH => "bearish" end.
End MTFDirection.
Abbreviation MTFDirection := MTFDirection.MTFDirection.

Module MTFAlignmentStatus.
Inductive MTFAlignmentStatus := ALIGNED | PARTIALLY_ALIGNED | CONFLICTING.
#[global] Instance MTFAlignmentStatus_eqdec : EqDecision MTFAlignmentStatus := ltac:(solve_decision).
End MTFAlignmentStatus.
Abbreviation MTFAlignmentStatus := MTFAlignmentStatus.MTFAlignmentStatus.

Module MTFEligibility.
Inductive MTFEligibility := LONG_ELIGIBLE | SHORT_ELIGIBLE | NO_TRADE.
#[global] Instance MTFEligibility_eqdec : EqDecision MTFEligibility := ltac:(solve_decision).
End MTFEligibility.
Abbreviation MTFEligibility := MTFEligibility.MTFEligibility.

Module MTFPriceArrayProbe.
Inductive MTFPriceArrayProbe := MIDPOINT | ENTIRE_ZONE.
#[global] Instance MTFPriceArrayProbe_eqdec : EqDecision MTFPriceArrayProbe := ltac:(solve_decision).
End MTFPriceArrayProbe.
Abbreviation MTFPriceArrayProbe := MTFPriceArrayProbe.MTFPriceArrayProbe.

Module MTFPriceArray.
Inductive MTFPriceArray := PREMIUM | DISCOUNT | EQUILIBRIUM.
#[global] Instance MTFPriceArray_eqdec : EqDecision MTFPriceArray := ltac:(solve_decision).
End MTFPriceArray.
Abbreviation MTFPriceArray := MTFPriceArray.MTFPriceArray.

Module MTFReasonCode.
Inductive MTFReasonCode :=
| MTF_INCOMPLETE_BUCKET | MTF_STATE_UNAVAILABLE | MTF_STATE_STALE | MTF_WARMUP_INCOMPLETE | MTF_NOT_ALIGNED
| MTF_VETO_CONFLICT | MTF_SIGNAL_TIMEFRAME_CONFLICT | MTF_OPPOSITE_DIRECTION_ALIGNED | MTF_BIDIRECTIONAL_ALIGNMENT
| DEALING_RANGE_UNAVAILABLE | ENTRY_ZONE_UNAVAILABLE | PRICE_ARRAY_CONFLICT.
#[global] Instance MTFReasonCode_eqdec : EqDecision MTFReasonCode := ltac:(solve_decision).
End MTFReasonCode.
Abbreviation MTFReasonCode := MTFReasonCode.MTFReasonCode.

(** ** Configuration *)

Module MTFConfig.
Record MTFConfig := mkMTFConfig {
  mtf_source_timeframe : Timeframe;
  mtf_target_timeframes : list Timeframe;
  mtf_role_by_timeframe : list (Timeframe * MTFRole);
  mtf_availability_required : list Timeframe;
  mtf_warmup_bars : list (Timeframe * Z);
  mtf_gap_policy : MTFGapPolicy;
  mtf_session_calendar_id : option string;
  mtf_required_timeframes : list Timeframe;
  mtf_min_aligned_timeframes : Z;
  mtf_veto_timeframes : list Timeframe;
  mtf_signal_timeframe : Timeframe;
  mtf_require_signal_timeframe_alignment : bool;
  mtf_state_max_age_bars : list (Timeframe * Z);
  mtf_require_price_array_gate : bool;
  mtf_dealing_range_timeframe : Timeframe;
  mtf_dealing_range_max_span_bars : Z;
  mtf_price_array_probe : MTFPriceArrayProbe
}.
Definition set_roles (c : MTFConfig) (roles : list (Timeframe * MTFRole)) : MTFConfig :=
  mkMTFConfig (mtf_source_timeframe c) (mtf_target_timeframes c) roles (mtf_availability_required c) (mtf_warmup_bars c)
    (mtf_gap_policy c) (mtf_session_calendar_id c) (mtf_required_timeframes c) (mtf_min_aligned_timeframes c)
    (mtf_veto_timeframes c) (mtf_signal_timeframe c) (mtf_require_signal_timeframe_alignment c) (mtf_state_max_age_bars c)
    (mtf_require_price_array_gate c) (mtf_dealing_range_timeframe c) (mtf_dealing_range_max_span_bars c) (mtf_price_array_probe c).

(** The roles configured, or those of the historical timeframes. *)
Definition resolved_roles (c : MTFConfig) : option (list (Timeframe * MTFRole)) :=
  match mtf_role_by_timeframe c with
  | [] =>
      if subset_of (mtf_target_timeframes c) (map fst LEGACY_MTF_ROLES)
      then Some (List.filter (fun '(tf, _) => bool_decide (tf ∈ mtf_target_timeframes c)) LEGACY_MTF_ROLES)
      else None
  | roles => Some roles
  end.

(** The timeframes that decide something. *)
Definition authority (c : MTFConfig) : list Timeframe :=
  mtf_required_timeframes c ++ mtf_availability_required c ++ mtf_veto_timeframes c ++ [mtf_signal_timeframe c]
  ++ (if mtf_require_price_array_gate c then [mtf_dealing_range_timeframe c] else []).

(** The constraints of the fields. *)
Definition fields_valid (c : MTFConfig) : bool :=
  (1 <=? mtf_min_aligned_timeframes c) && (1 <=? mtf_dealing_range_max_span_bars c)
  && forallb (fun '(_, n) => 1 <=? n) (mtf_warmup_bars c) && forallb (fun '(_, n) => 1 <=? n) (mtf_state_max_age_bars c).

Definition collections_valid (c : MTFConfig) (roles : list (Timeframe * MTFRole)) : bool :=
  let targets := mtf_target_timeframes c in
  let required := mtf_required_timeframes c in
  negb (bool_decide (targets = [])) && bool_decide (NoDup targets)
  && negb (bool_decide (required = [])) && bool_decide (NoDup required)
  && same_set (map fst roles) targets
  && bool_decide (NoDup (mtf_availability_required c)) && subset_of (mtf_availability_required c) targets
  && (bool_decide (mtf_warmup_bars c = []) || same_set (map fst (mtf_warmup_bars c)) targets)
  && forallb (fun '(tf, role) => negb (bool_decide (role = MTFRole.CONTEXT_ONLY) && bool_decide (tf ∈ authority c))) roles
  && subset_of required targets && subset_of (mtf_veto_timeframes c) required
  && (mtf_min_aligned_timeframes c <=? Z.of_nat (length required))
  && bool_decide (mtf_signal_timeframe c ∈ targets) && bool_decide (mtf_dealing_range_timeframe c ∈ targets)
  && same_set (map fst (mtf_state_max_age_bars c)) targets
  && (bool_decide (mtf_gap_policy c <> MTFGapPolicy.SESSION_CALENDAR)
      || match mtf_session_calendar_id c with Some s => nonempty s | None => false end).

(** The construction of a configuration, which fills in the roles. *)
Definition validate_collections (c : MTFConfig) : pyres MTFConfig :=
  match resolved_roles c with
  | Some roles =>
      if fields_valid c && collections_valid c roles then Ok (set_roles c roles) else Raise (Exc "ValidationError" "")
  | None => Raise (Exc "ValidationError" "")
  end.
End MTFConfig.
Abbreviation MTFConfig := MTFConfig.MTFConfig.

(** ** Bars and issues *)

Module MTFDerivedBar.
Record MTFDerivedBar := mkMTFDerivedBar {
  timeframe : Timeframe;
  timestamp : datetime;
  close_time : datetime;
  open : dec;
  high : dec;
  low : dec;
  close : dec;
  volume : dec;
  source_bar_timestamps : list datetime
}.
Definition valid (b : MTFDerivedBar) : bool :=
  dltb (D 0) (open b) && dltb (D 0) (high b) && dltb (D 0) (low b) && dltb (D 0) (close b) && dleb (D 0) (volume b).
End MTFDerivedBar.
Abbreviation MTFDerivedBar := MTFDerivedBar.MTFDerivedBar.

Module MTFDataQualityIssue.
Record MTFDataQualityIssue := mkMTFDataQualityIssue {
  code : MTFReasonCode;
  timeframe : Timeframe;
  bucket_start : datetime;
  bucket_end : datetime
}.
End MTFDataQualityIssue.
Abbreviation MTFDataQualityIssue := MTFDataQualityIssue.MTFDataQualityIssue.

Module MTFResampleResult.
Record MTFResampleResult := mkMTFResampleResult {
  decision_time : datetime;
  bars : list (Timeframe * list MTFDerivedBar);
  issues : list MTFDataQualityIssue
}.
End MTFResampleResult.
Abbreviation MTFResampleResult := MTFResampleResult.MTFResampleResult.

(** ** States and the verdict *)

Module MTFStructureStateEvent.
Record MTFStructureStateEvent := mkMTFStructureStateEvent {
  event_id : string;
  timeframe : Timeframe;
  state : TrendState;
  source_bar_timestamp : datetime;
  source_bar_close_time : datetime;
  confirmed_at : datetime
}.
Definition validate_availability (e : MTFStructureStateEvent) : bool :=
  negb (confirmed_at e <? source_bar_close_time e).
End MTFStructureStateEvent.
Abbreviation MTFStructureStateEvent := MTFStructureStateEvent.MTFStructureStateEvent.

Module MTFTimeframeSnapshot.
Record MTFTimeframeSnapshot := mkMTFTimeframeSnapshot {
  timeframe : Timeframe;
  role : MTFRole;
  state : TrendState;
  available : bool;
  stale : bool;
  state_event_id : option string;
  state_confirmed_at : option datetime;
  source_bar_timestamp : option datetime;
  source_bar_close_time : option datetime;
  latest_closed_bar_at : option datetime;
  bars_since_state : option Z;
  closed_bar_count : Z;
  reason_codes : list MTFReasonCode
}.
Definition valid (s : MTFTimeframeSnapshot) : bool :=
  match bars_since_state s with Some n => 0 <=? n | None => true end && (0 <=? closed_bar_count s).
End MTFTimeframeSnapshot.
Abbreviation MTFTimeframeSnapshot := MTFTimeframeSnapshot.MTFTimeframeSnapshot.

Module MTFDealingRange.
Record MTFDealingRange := mkMTFDealingRange {
  timeframe : Timeframe;
  lower : dec;
  upper : dec;
  equilibrium : dec;
  latest_swing_low_id : string;
  latest_swing_high_id : string;
  classification : MTFPriceArray
}.
Definition validate_range (r : MTFDealingRange) : bool :=
  dltb (D 0) (lower r) && dltb (D 0) (upper r) && dltb (D 0) (equilibrium r)
  && dltb (lower r) (upper r)
  && deqb (equilibrium r) (ddiv DEFAULT_PREC (dadd DEFAULT_PREC (lower r) (upper r)) (D 2)).
End MTFDealingRange.
Abbreviation MTFDealingRange := MTFDealingRange.MTFDealingRange.

Module MTFAnalysisResult.
Record MTFAnalysisResult := mkMTFAnalysisResult {
  snapshot_id : string;
  decision_time : datetime;
  candidate_direction : MTFDirection;
  alignment : MTFAlignmentStatus;
  eligibility : MTFEligibility;
  trade_allowed : bool;
  bullish_count : Z;
  bearish_count : Z;
  timeframes : list (Timeframe * MTFTimeframeSnapshot);
  entry_zone : option EntryZone;
  dealing_range : option MTFDealingRange;
  reason_codes : list MTFReasonCode
}.
End MTFAnalysisResult.
Abbreviation MTFAnalysisResult := MTFAnalysisResult.MTFAnalysisResult.
