(* ===== verification/MultiTimeframe.v ===== *)
(** Multi-timeframe analysis: [engines/structure/multi_timeframe.py].

    The closed buckets of the coarser timeframes, the latest usable structure
    state of each, and the verdict on a candidate direction. *)
From Stdlib Require Import ZArith Lia.
From stdpp Require Import base list strings numbers gmap.
From S2P Require Import Prelude Dict Decimal Time Candle Signal Structure Resampling MtfTypes.
Local Open Scope Z_scope.

Definition MultiTimeframeInputError (msg : string) : pyexc := Exc "MultiTimeframeInputError" msg.

(** A gap between candles is left to the completeness of the buckets. *)
Definition _validate_source (candles : list Candle) (config : MTFConfig) : pyres unit :=
  let source_duration := timeframe_duration (MTFConfig.mtf_source_timeframe config) in
  _ ← py_for (fun target =>
        let target_duration := timeframe_duration target in
        raise_if ((target_duration <? source_duration) || negb (target_duration mod source_duration =? 0))
          (MultiTimeframeInputError "every target duration must be an integer multiple of source duration"))
      (MTFConfig.mtf_target_timeframes config);
  py_for (fun '(previous, current) =>
      raise_if (Candle.timestamp current - Candle.timestamp previous <=? 0)
        (MultiTimeframeInputError "source candles must have unique timestamps in ascending order"))
    (pairwise candles).

(** ** Resampling *)

(** The boundaries of the current bucket, and the buckets. *)
Definition group_step (target : Timeframe) (st : option (datetime * datetime) * Buckets) (candle : Candle)
    : option (datetime * datetime) * Buckets :=
  let '(bucket, grouped) := st in
  let fresh :=
    let start := timeframe_bucket_start (Candle.timestamp candle) target in
    (start, start + timeframe_duration target) in
  let bucket :=
    match bucket with
    | Some (start, end_) => if end_ <=? Candle.timestamp candle then fresh else (start, end_)
    | None => fresh
    end in
  (Some bucket, bucket_append (fst bucket) candle grouped).

Definition group_candles (target : Timeframe) (eligible : list Candle) : Buckets :=
  snd (foldl (group_step target) (None, []) eligible).

(** The opens a bucket has to consist of; none means that the venue was closed. *)
Definition expected_of (config : MTFConfig) (session_expected_opens : option (list (Timeframe * list datetime)))
    (target : Timeframe) (start : datetime) : list datetime :=
  let source_duration := timeframe_duration (MTFConfig.mtf_source_timeframe config) in
  let target_duration := timeframe_duration target in
  match MTFConfig.mtf_gap_policy config with
  | MTFGapPolicy.REQUIRE_CONTIGUOUS =>
      expected_opens start source_duration (Z.to_nat (target_duration / source_duration))
  | MTFGapPolicy.SESSION_CALENDAR =>
      let opens := default [] (dict_get (default [] session_expected_opens) target) in
      sort_by Z.ltb (List.filter (fun t => (start <=? t) && (t <? start + target_duration)) opens)
  end.

Definition derived_bar (target : Timeframe) (start : datetime) (constituents : list Candle) : pyres MTFDerivedBar :=
  match derived_candle start constituents with
  | None => Raise (Exc "IndexError" "list index out of range")
  | Some c =>
      validated MTFDerivedBar.valid
        (MTFDerivedBar.mkMTFDerivedBar target start (start + timeframe_duration target) (Candle.open c) (Candle.high c)
           (Candle.low c) (Candle.close c) (Candle.volume c) (map Candle.timestamp constituents))
  end.

(** One bucket: a bar, an issue, or nothing yet. *)
Definition bucket_step (config : MTFConfig) (session_expected_opens : option (list (Timeframe * list datetime)))
    (resolved_time : datetime) (target : Timeframe) (st : list MTFDerivedBar * list MTFDataQualityIssue)
    (entry : datetime * list Candle) : pyres (list MTFDerivedBar * list MTFDataQualityIssue) :=
  let '(bars, issues) := st in
  let '(start, constituents) := entry in
  let end_ := start + timeframe_duration target in
  if resolved_time <? end_ then Ok st
  else
    let expected := expected_of config session_expected_opens target start in
    if bool_decide (MTFConfig.mtf_gap_policy config = MTFGapPolicy.SESSION_CALENDAR) && bool_decide (expected = []) then Ok st
    else if bool_decide (map Candle.timestamp constituents <> expected) then
      Ok (bars, issues ++ [MTFDataQualityIssue.mkMTFDataQualityIssue MTFReasonCode.MTF_INCOMPLETE_BUCKET target start end_])
    else
      bar ← derived_bar target start constituents;
      Ok (bars ++ [bar], issues).

Definition target_step (config : MTFConfig) (session_expected_opens : option (list (Timeframe * list datetime)))
    (resolved_time : datetime) (eligible_source : list Candle)
    (st : list (Timeframe * list MTFDerivedBar) * list MTFDataQualityIssue) (target : Timeframe)
    : pyres (list (Timeframe * list MTFDerivedBar) * list MTFDataQualityIssue) :=
  let '(bars, issues) := st in
  '(target_bars, issues) ← py_fold (bucket_step config session_expected_opens resolved_time target) ([], issues)
                             (group_candles target eligible_source);
  Ok (bars ++ [(target, target_bars)], issues).

Definition eligible_source (config : MTFConfig) (resolved_time : datetime) (candles : list Candle) : list Candle :=
  List.filter (fun candle =>
    Candle.timestamp candle + timeframe_duration (MTFConfig.mtf_source_timeframe config) <=? resolved_time) candles.

Definition resample_closed_candles (candles : list Candle) (decision_time : datetime) (config : MTFConfig)
    (session_expected_opens : option (list (Timeframe * list datetime))) : pyres MTFResampleResult :=
  let eligible_source := eligible_source config decision_time candles in
  _ ← _validate_source eligible_source config;
  _ ← raise_if (bool_decide (MTFConfig.mtf_gap_policy config = MTFGapPolicy.SESSION_CALENDAR)
                && bool_decide (session_expected_opens = None))
        (MultiTimeframeInputError "SESSION_CALENDAR requires explicit expected source opens");
  '(bars, issues) ← py_fold (target_step config session_expected_opens decision_time eligible_source) ([], [])
                      (MTFConfig.mtf_target_timeframes config);
  Ok (MTFResampleResult.mkMTFResampleResult decision_time bars issues).

(** ** The state of a timeframe *)

(** [{bar.timestamp: index for index, bar in enumerate(bars)}] *)
Definition index_by_timestamp (bars : list MTFDerivedBar) : gmap Z nat :=
  foldl (fun m '(index, bar) => <[MTFDerivedBar.timestamp bar := index]> m) ∅ (enumerate bars).

(** A state that is known, of a bar that exists. *)
Definition event_eligible (timeframe : Timeframe) (bars : list MTFDerivedBar) (decision_time : datetime)
    (event : MTFStructureStateEvent) : bool :=
  bool_decide (MTFStructureStateEvent.timeframe event = timeframe)
  && (MTFStructureStateEvent.confirmed_at event <=? decision_time)
  && (MTFStructureStateEvent.source_bar_close_time event <=? decision_time)
  && match index_by_timestamp bars !! MTFStructureStateEvent.source_bar_timestamp event with
     | Some index =>
         match bars !! index with
         | Some bar => MTFDerivedBar.close_time bar =? MTFStructureStateEvent.source_bar_close_time event
         | None => false
         end
     | None => false
     end.

(** [key=lambda item: (item.confirmed_at, item.event_id)] *)
Definition state_event_order : MTFStructureStateEvent -> MTFStructureStateEvent -> bool :=
  lex_lt (on_key MTFStructureStateEvent.confirmed_at Z.ltb) (on_key MTFStructureStateEvent.event_id str_lt).

(** The reasons that are known before the state. *)
Definition issue_codes (timeframe : Timeframe) (bars : list MTFDerivedBar) (issues : list MTFDataQualityIssue)
    (minimum_history : Z) : list MTFReasonCode :=
  (if existsb (fun issue => bool_decide (MTFDataQualityIssue.timeframe issue = timeframe)) issues
   then [MTFReasonCode.MTF_INCOMPLETE_BUCKET] else [])
  ++ (if Z.of_nat (length bars) <? minimum_history then [MTFReasonCode.MTF_WARMUP_INCOMPLETE] else []).

Definition _snapshot_for_timeframe (timeframe : Timeframe) (bars : list MTFDerivedBar)
    (state_events : list MTFStructureStateEvent) (decision_time : datetime) (max_age : Z)
    (issues : list MTFDataQualityIssue) (role : MTFRole) (minimum_history : Z) : pyres MTFTimeframeSnapshot :=
  let eligible := List.filter (event_eligible timeframe bars decision_time) state_events in
  let latest_bar_at := MTFDerivedBar.close_time <$> list.last bars in
  let codes := issue_codes timeframe bars issues minimum_history in
  let count := Z.of_nat (length bars) in
  match (if count <? minimum_history then None else py_max state_event_order eligible) with
  | None =>
      validated MTFTimeframeSnapshot.valid
        (MTFTimeframeSnapshot.mkMTFTimeframeSnapshot timeframe role TrendState.INSUFFICIENT_DATA false false None None None None
           latest_bar_at None count (fromkeys (codes ++ [MTFReasonCode.MTF_STATE_UNAVAILABLE])))
  | Some event =>
      match index_by_timestamp bars !! MTFStructureStateEvent.source_bar_timestamp event with
      | None => Raise (Exc "KeyError" "")
      | Some source_index =>
          let bars_since := count - 1 - Z.of_nat source_index in
          let stale := max_age <? bars_since in
          let state := if stale then TrendState.INSUFFICIENT_DATA else MTFStructureStateEvent.state event in
          let codes := codes ++ (if stale then [MTFReasonCode.MTF_STATE_STALE] else []) in
          let available := negb stale && bool_decide (state <> TrendState.INSUFFICIENT_DATA) in
          let codes :=
            codes ++ (if negb available && bool_decide (MTFReasonCode.MTF_STATE_STALE ∉ codes)
                      then [MTFReasonCode.MTF_STATE_UNAVAILABLE] else []) in
          validated MTFTimeframeSnapshot.valid
            (MTFTimeframeSnapshot.mkMTFTimeframeSnapshot timeframe role state available stale
               (Some (MTFStructureStateEvent.event_id event)) (Some (MTFStructureStateEvent.confirmed_at event))
               (Some (MTFStructureStateEvent.source_bar_timestamp event))
               (Some (MTFStructureStateEvent.source_bar_close_time event)) latest_bar_at (Some bars_since) count
               (fromkeys codes))
      end
  end.

(** ** The dealing range *)

Definition swing_eligible (bars : list MTFDerivedBar) (decision_time : datetime) (swing : ConfirmedSwing) : bool :=
  (ConfirmedSwing.confirmed_at swing <=? decision_time)
  && bool_decide (is_Some (index_by_timestamp bars !! ConfirmedSwing.pivot_timestamp swing)).

(** [key=lambda swing: (swing.confirmed_at, swing.swing_id)] *)
Definition latest_swing_order : ConfirmedSwing -> ConfirmedSwing -> bool :=
  lex_lt (on_key ConfirmedSwing.confirmed_at Z.ltb) (on_key ConfirmedSwing.swing_id str_lt).

Definition latest_swing (kind : SwingKind) (eligible : list ConfirmedSwing) : option ConfirmedSwing :=
  py_max latest_swing_order (List.filter (fun swing => bool_decide (ConfirmedSwing.kind swing = kind)) eligible).

(** [(a + b) / Decimal(2)] *)
Definition half_sum (a b : dec) : dec := ddiv DEFAULT_PREC (dadd DEFAULT_PREC a b) (D 2).

Definition zone_probe (entry_zone : EntryZone) (candidate_direction : MTFDirection) (probe_basis : MTFPriceArrayProbe) : dec :=
  match probe_basis, candidate_direction with
  | MTFPriceArrayProbe.MIDPOINT, _ => half_sum (EntryZone.low entry_zone) (EntryZone.high entry_zone)
  | MTFPriceArrayProbe.ENTIRE_ZONE, MTFDirection.BULLISH => EntryZone.high entry_zone
  | MTFPriceArrayProbe.ENTIRE_ZONE, MTFDirection.BEARISH => EntryZone.low entry_zone
  end.

Definition classify (probe equilibrium : dec) : MTFPriceArray :=
  if deqb probe equilibrium then MTFPriceArray.EQUILIBRIUM
  else if dltb probe equilibrium then MTFPriceArray.DISCOUNT
  else MTFPriceArray.PREMIUM.

Definition _dealing_range (timeframe : Timeframe) (bars : list MTFDerivedBar) (swings : list ConfirmedSwing)
    (decision_time : datetime) (max_span : Z) (entry_zone : option EntryZone) (candidate_direction : MTFDirection)
    (probe_basis : MTFPriceArrayProbe) : pyres (option MTFDealingRange) :=
  match entry_zone with
  | None => Ok None
  | Some zone =>
      let eligible := List.filter (swing_eligible bars decision_time) swings in
      match latest_swing SwingKind.HIGH eligible, latest_swing SwingKind.LOW eligible with
      | Some high, Some low =>
          match index_by_timestamp bars !! ConfirmedSwing.pivot_timestamp high,
                index_by_timestamp bars !! ConfirmedSwing.pivot_timestamp low with
          | Some high_index, Some low_index =>
              if (max_span <? Z.abs (Z.of_nat high_index - Z.of_nat low_index))
                 || dleb (ConfirmedSwing.price high) (ConfirmedSwing.price low)
              then Ok None
              else
                let equilibrium := half_sum (ConfirmedSwing.price low) (ConfirmedSwing.price high) in
                range ← validated MTFDealingRange.validate_range
                  (MTFDealingRange.mkMTFDealingRange timeframe (ConfirmedSwing.price low) (ConfirmedSwing.price high)
                     equilibrium (ConfirmedSwing.swing_id low) (ConfirmedSwing.swing_id high)
                     (classify (zone_probe zone candidate_direction probe_basis) equilibrium));
                Ok (Some range)
          | _, _ => Raise (Exc "KeyError" "")
          end
      | _, _ => Ok None
      end
  end.

(** ** The verdict *)

Definition Verdict : Type := MTFAlignmentStatus * MTFEligibility * bool * list MTFReasonCode.

Definition snapshot_step (candles_resampled : MTFResampleResult) (structure_state_events : list MTFStructureStateEvent)
    (config : MTFConfig) (minimum_history_by_timeframe : option (list (Timeframe * Z)))
    (timeframe : Timeframe) : pyres (Timeframe * MTFTimeframeSnapshot) :=
  bars ← dict_index (MTFResampleResult.bars candles_resampled) timeframe;
  max_age ← dict_index (MTFConfig.mtf_state_max_age_bars config) timeframe;
  role ← dict_index (MTFConfig.mtf_role_by_timeframe config) timeframe;
  snapshot ← _snapshot_for_timeframe timeframe bars structure_state_events (MTFResampleResult.decision_time candles_resampled)
    max_age (MTFResampleResult.issues candles_resampled) role
    (Z.max (default 1 (dict_get (MTFConfig.mtf_warmup_bars config) timeframe))
           (default 1 (dict_get (default [] minimum_history_by_timeframe) timeframe)));
  Ok (timeframe, snapshot).

(** [\[snapshots\[timeframe.value\] for timeframe in timeframes\]] *)
Definition snapshots_of (snapshots : list (Timeframe * MTFTimeframeSnapshot)) (timeframes : list Timeframe)
    : pyres (list MTFTimeframeSnapshot) := py_map (dict_index snapshots) timeframes.

Definition count_state (state : TrendState) (l : list MTFTimeframeSnapshot) : Z :=
  Z.of_nat (length (List.filter (fun item => bool_decide (MTFTimeframeSnapshot.state item = state)) l)).

Definition any_state (state : TrendState) (l : list MTFTimeframeSnapshot) : bool :=
  existsb (fun item => bool_decide (MTFTimeframeSnapshot.state item = state)) l.

(** The state that supports a direction, and the one against it. *)
Definition supporting (direction : MTFDirection) : TrendState :=
  match direction with MTFDirection.BULLISH => TrendState.BULLISH | MTFDirection.BEARISH => TrendState.BEARISH end.
Definition opposite (direction : MTFDirection) : MTFDirection :=
  match direction with MTFDirection.BULLISH => MTFDirection.BEARISH | MTFDirection.BEARISH => MTFDirection.BULLISH end.

(** [long_veto] and [short_veto] *)
Definition vetoed (veto : list MTFTimeframeSnapshot) (direction : MTFDirection) : bool :=
  any_state (supporting (opposite direction)) veto.

(** [long_aligned] and [short_aligned] *)
Definition aligned (config : MTFConfig) (required veto : list MTFTimeframeSnapshot) (signal_state : TrendState)
    (direction : MTFDirection) : bool :=
  (MTFConfig.mtf_min_aligned_timeframes config <=? count_state (supporting direction) required)
  && negb (vetoed veto direction) && forallb MTFTimeframeSnapshot.available veto
  && (negb (MTFConfig.mtf_require_signal_timeframe_alignment config) || bool_decide (signal_state = supporting direction)).

Definition eligible_for (direction : MTFDirection) : MTFEligibility :=
  match direction with
  | MTFDirection.BULLISH => MTFEligibility.LONG_ELIGIBLE
  | MTFDirection.BEARISH => MTFEligibility.SHORT_ELIGIBLE
  end.

(** The chain of cases on the direction. *)
Definition directional_verdict (config : MTFConfig) (required veto : list MTFTimeframeSnapshot) (signal_state : TrendState)
    (direction : MTFDirection) : Verdict :=
  let desired_aligned := aligned config required veto signal_state direction in
  let opposite_aligned := aligned config required veto signal_state (opposite direction) in
  let conflict reason := (MTFAlignmentStatus.CONFLICTING, MTFEligibility.NO_TRADE, false, [reason]) in
  if desired_aligned && opposite_aligned then conflict MTFReasonCode.MTF_BIDIRECTIONAL_ALIGNMENT
  else if desired_aligned then (MTFAlignmentStatus.ALIGNED, eligible_for direction, true, [])
  else if opposite_aligned then conflict MTFReasonCode.MTF_OPPOSITE_DIRECTION_ALIGNED
  else if vetoed veto direction then conflict MTFReasonCode.MTF_VETO_CONFLICT
  else if MTFConfig.mtf_require_signal_timeframe_alignment config
          && bool_decide (signal_state = supporting (opposite direction))
  then conflict MTFReasonCode.MTF_SIGNAL_TIMEFRAME_CONFLICT
  else
    (MTFAlignmentStatus.PARTIALLY_ALIGNED, MTFEligibility.NO_TRADE, false,
     MTFReasonCode.MTF_NOT_ALIGNED
     :: (if existsb (fun item => negb (MTFTimeframeSnapshot.available item)) required
         then [MTFReasonCode.MTF_STATE_UNAVAILABLE] else [])).

(** [trade_allowed = False; eligibility = NO_TRADE] with further reasons; an
    alignment becomes partial when [demote]. *)
Definition refuse (demote : bool) (reasons : list MTFReasonCode) (v : Verdict) : Verdict :=
  let '(alignment, _, _, known) := v in
  (if demote && bool_decide (alignment = MTFAlignmentStatus.ALIGNED) then MTFAlignmentStatus.PARTIALLY_ALIGNED else alignment,
   MTFEligibility.NO_TRADE, false, known ++ reasons).

Definition completeness_gate (required : list MTFTimeframeSnapshot) (v : Verdict) : Verdict :=
  if existsb (fun item => bool_decide (MTFReasonCode.MTF_INCOMPLETE_BUCKET ∈ MTFTimeframeSnapshot.reason_codes item)) required
  then refuse true [MTFReasonCode.MTF_INCOMPLETE_BUCKET] v else v.

Definition unavailable (item : MTFTimeframeSnapshot) : bool :=
  negb (MTFTimeframeSnapshot.available item) || negb (bool_decide (MTFTimeframeSnapshot.reason_codes item = [])).

Definition availability_gate (mandatory : list MTFTimeframeSnapshot) (v : Verdict) : Verdict :=
  match List.filter unavailable mandatory with
  | [] => v
  | missing => refuse true (MTFReasonCode.MTF_STATE_UNAVAILABLE :: flat_map MTFTimeframeSnapshot.reason_codes missing) v
  end.

(** [gate_passes] *)
Definition gate_passes (direction : MTFDirection) (classification : MTFPriceArray) : bool :=
  match direction with
  | MTFDirection.BULLISH => bool_decide (classification <> MTFPriceArray.PREMIUM)
  | MTFDirection.BEARISH => bool_decide (classification <> MTFPriceArray.DISCOUNT)
  end.

Definition price_gate (config : MTFConfig) (bars : list (Timeframe * list MTFDerivedBar)) (decision_time : datetime)
    (direction : MTFDirection) (entry_zone : option EntryZone)
    (swings_by_timeframe : option (list (Timeframe * list ConfirmedSwing))) (v : Verdict)
    : pyres (Verdict * option MTFDealingRange) :=
  if negb (MTFConfig.mtf_require_price_array_gate config) then Ok (v, None)
  else if bool_decide (is_Some entry_zone) then
    let range_timeframe := MTFConfig.mtf_dealing_range_timeframe config in
    let range_swings := default [] (dict_get (default [] swings_by_timeframe) range_timeframe) in
    range_bars ← dict_index bars range_timeframe;
    range ← _dealing_range range_timeframe range_bars range_swings decision_time
      (MTFConfig.mtf_dealing_range_max_span_bars config) entry_zone direction (MTFConfig.mtf_price_array_probe config);
    match range with
    | None => Ok (refuse false [MTFReasonCode.DEALING_RANGE_UNAVAILABLE] v, None)
    | Some r =>
        Ok (if gate_passes direction (MTFDealingRange.classification r) then v
            else refuse false [MTFReasonCode.PRICE_ARRAY_CONFLICT] v, Some r)
    end
  else Ok (refuse false [MTFReasonCode.ENTRY_ZONE_UNAVAILABLE] v, None).

(** The snapshots in the order of the role map. *)
Definition ordered_snapshots (config : MTFConfig) (snapshots : list (Timeframe * MTFTimeframeSnapshot))
    : list (Timeframe * MTFTimeframeSnapshot) :=
  omap (fun '(timeframe, _) => (fun s => (timeframe, s)) <$> dict_get snapshots timeframe)
    (MTFConfig.mtf_role_by_timeframe config).

Fixpoint join (sep : string) (l : list string) : string :=
  match l with
  | [] => ""
  | [s] => s
  | s :: rest => s +:+ sep +:+ join sep rest
  end.

Definition analyze_multi_timeframe (candles : list Candle) (decision_time : datetime) (candidate_direction : MTFDirection)
    (structure_state_events : list MTFStructureStateEvent) (config : MTFConfig) (entry_zone : option EntryZone)
    (swings_by_timeframe : option (list (Timeframe * list ConfirmedSwing)))
    (session_expected_opens : option (list (Timeframe * list datetime)))
    (minimum_history_by_timeframe : option (list (Timeframe * Z))) : pyres MTFAnalysisResult :=
  resampled ← resample_closed_candles candles decision_time config session_expected_opens;
  snapshots ← py_map (snapshot_step resampled structure_state_events config minimum_history_by_timeframe)
    (MTFConfig.mtf_target_timeframes config);
  required ← snapshots_of snapshots (MTFConfig.mtf_required_timeframes config);
  veto ← snapshots_of snapshots (MTFConfig.mtf_veto_timeframes config);
  signal ← dict_index snapshots (MTFConfig.mtf_signal_timeframe config);
  mandatory ← snapshots_of snapshots (MTFConfig.mtf_availability_required config);
  let verdict :=
    availability_gate mandatory
      (completeness_gate required
         (directional_verdict config required veto (MTFTimeframeSnapshot.state signal) candidate_direction)) in
  '((alignment, eligibility, trade_allowed, reasons), dealing_range) ←
    price_gate config (MTFResampleResult.bars resampled) decision_time candidate_direction entry_zone swings_by_timeframe verdict;
  Ok (MTFAnalysisResult.mkMTFAnalysisResult
        ("MTF:" +:+ MTFDirection.value candidate_direction +:+ ":" +:+ isoformat decision_time +:+ ":"
         +:+ join "," (map to_binance_interval (MTFConfig.mtf_required_timeframes config)))
        decision_time candidate_direction alignment eligibility trade_allowed
        (count_state TrendState.BULLISH required) (count_state TrendState.BEARISH required)
        (ordered_snapshots config snapshots) entry_zone dealing_range (fromkeys reasons)).
