(* ===== verification/MultiTimeframeTheory.v ===== *)
(** Theorems on the closed bars of multi-timeframe analysis:
    [engines/structure/multi_timeframe.py], [resample_closed_candles]. *)
From Stdlib Require Import ZArith QArith Lia Sorting.Sorted.
From stdpp Require Import base strings numbers list sets sorting.
From S2P Require Import Prelude Dict Decimal Time Candle Resampling ResamplingTheory MtfTypes MultiTimeframe.
Local Open Scope Z_scope.

(** ** The starts of the buckets *)

Definition starts (tgt : Timeframe) (cs : list Candle) : list datetime :=
  fromkeys (map (fun c => timeframe_bucket_start (Candle.timestamp c) tgt) cs).

Lemma grouped_by_starts tgt cs : grouped_by tgt cs = table (starts tgt cs) (fun b => members tgt b cs).
Proof.
  unfold grouped_by, starts. induction cs as [|c cs IH] using rev_ind; [done|].
  rewrite foldl_app, IH, map_app. cbn [foldl map]. rewrite fromkeys_snoc.
  set (b0 := timeframe_bucket_start (Candle.timestamp c) tgt). set (keys := fromkeys _).
  assert (forall b, members tgt b (cs ++ [c]) = members tgt b cs ++ (if b0 =? b then [c] else [])) as Happ.
  { intros b. unfold members. rewrite List.filter_app. cbn [List.filter]. fold b0. by destruct (b0 =? b). }
  assert (forall b, b ∉ keys -> members tgt b cs = []) as Hnone.
  { intros b Hb. apply list_filter_none. intros x Hx. apply Z.eqb_neq. intros Ex. apply Hb, elem_of_fromkeys.
    rewrite <-Ex. by apply (list_elem_of_fmap_2 (fun c => timeframe_bucket_start (Candle.timestamp c) tgt)). }
  assert (NoDup keys) as Hnd.
  { unfold keys. clear. induction (map _ cs) as [|x l IH] using rev_ind; [constructor|]. rewrite fromkeys_snoc. case_decide; [done|].
    apply NoDup_app. split; [done|]. split; [|apply NoDup_singleton]. intros k Hk Hk'. by apply list_elem_of_singleton in Hk' as ->. }
  rewrite (bucket_append_table _ _ _ _ (fun b => members tgt b (cs ++ [c]))); [|done| | |by apply Hnone].
  - case_bool_decide; case_decide; done.
  - intros k Hk. rewrite Happ. destruct (Z.eqb_spec b0 k); [congruence|]. by rewrite app_nil_r.
  - rewrite Happ. by rewrite Z.eqb_refl.
Qed.

Lemma elem_of_starts tgt cs b : b ∈ starts tgt cs <-> members tgt b cs <> [].
Proof.
  unfold starts. rewrite elem_of_fromkeys, list_elem_of_fmap. split.
  - intros (c & -> & Hc) E. assert (c ∈ members tgt (timeframe_bucket_start (Candle.timestamp c) tgt) cs) as H by by apply elem_members.
    rewrite E in H. by apply not_elem_of_nil in H.
  - intros H. destruct (members tgt b cs) as [|c l] eqn:E; [done|].
    assert (c ∈ members tgt b cs) as Hc by (rewrite E; by left). apply elem_members in Hc as [Hc <-]. by exists c.
Qed.

(** Instants of the buckets: the ones the code buckets without truncation. *)
Definition whole_times (cs : list Candle) : Prop := Forall (fun c => whole_or_recent (Candle.timestamp c)) cs.

Lemma bucket_start_mono tf t u : whole_or_recent t -> whole_or_recent u -> t <= u ->
  timeframe_bucket_start t tf <= timeframe_bucket_start u tf.
Proof.
  intros Ht Hu Htu. rewrite !bucket_start_floor by done. pose proof (timeframe_duration_pos tf).
  assert ((t - bucket_origin tf) / timeframe_duration tf <= (u - bucket_origin tf) / timeframe_duration tf) by (apply Z.div_le_mono; lia).
  nia.
Qed.

Lemma bucket_start_same tf t u : whole_or_recent t -> whole_or_recent u ->
  timeframe_bucket_start t tf <= u < timeframe_bucket_start t tf + timeframe_duration tf ->
  timeframe_bucket_start u tf = timeframe_bucket_start t tf.
Proof. intros Ht Hu H. by apply (bucket_partition t u tf Ht Hu). Qed.

Lemma ascending_snoc cs c : ascending (cs ++ [c]) <-> ascending cs /\ Forall (fun x => Candle.timestamp x < Candle.timestamp c) cs.
Proof.
  unfold ascending. rewrite map_app. induction cs as [|x cs IH]; cbn [map app].
  { split; intros _; repeat constructor. }
  rewrite Forall_cons. split.
  - intros H. apply StronglySorted_inv in H as [H Hx]. apply IH in H as [Ha Hc]. rewrite Forall_app in Hx. destruct Hx as [Hx Hxc].
    apply Forall_cons in Hxc as [Hxc _]. split; [by constructor|done].
  - intros [H [Hxc Hc]]. apply StronglySorted_inv in H as [H Hx]. constructor; [by apply IH|]. apply Forall_app.
    split; [done|]. by repeat constructor.
Qed.

Lemma starts_sorted tgt cs : ascending cs -> whole_times cs -> StronglySorted Z.lt (starts tgt cs).
Proof.
  unfold starts. induction cs as [|c cs IH] using rev_ind; intros Ha Hw; [constructor|].
  apply ascending_snoc in Ha as [Ha Hc]. apply Forall_app in Hw as [Hw Hwc]. apply Forall_cons in Hwc as [Hwc _].
  rewrite map_app. cbn [map]. rewrite fromkeys_snoc. specialize (IH Ha Hw). case_decide as Hin; [done|].
  apply StronglySorted_app. split_and!; [|done|repeat constructor]. intros x y Hx Hy. apply list_elem_of_singleton in Hy as ->.
  rewrite elem_of_fromkeys in Hx. pose proof Hx as Hx'. apply list_elem_of_fmap in Hx' as (z & -> & Hz). rewrite Forall_forall in Hc, Hw.
  specialize (Hc z Hz). pose proof (bucket_start_mono tgt _ _ (Hw z Hz) Hwc ltac:(lia)).
  enough (timeframe_bucket_start (Candle.timestamp z) tgt <> timeframe_bucket_start (Candle.timestamp c) tgt) by lia.
  intros E. apply Hin, elem_of_fromkeys. by rewrite <-E.
Qed.

(** The boundaries kept between candles are those of the last candle, so the
    buckets are those of the instants themselves. *)
Lemma group_candles_exact tgt cs : ascending cs -> whole_times cs -> group_candles tgt cs = grouped_by tgt cs.
Proof.
  intros Ha Hw. unfold group_candles, grouped_by.
  enough (foldl (group_step tgt) (None, []) cs
    = ((fun c => (timeframe_bucket_start (Candle.timestamp c) tgt, timeframe_bucket_start (Candle.timestamp c) tgt + timeframe_duration tgt))
         <$> list.last cs,
       foldl (fun grouped candle => bucket_append (timeframe_bucket_start (Candle.timestamp candle) tgt) candle grouped) [] cs))
    as -> by done.
  induction cs as [|c cs IH] using rev_ind; [done|]. apply ascending_snoc in Ha as [Ha Hc].
  apply Forall_app in Hw as [Hw Hwc]. apply Forall_cons in Hwc as [Hwc _].
  rewrite !foldl_app, (IH Ha Hw), last_snoc. cbn [foldl fmap option_fmap option_map].
  assert (forall b g, fst b = timeframe_bucket_start (Candle.timestamp c) tgt ->
    b = (timeframe_bucket_start (Candle.timestamp c) tgt, timeframe_bucket_start (Candle.timestamp c) tgt + timeframe_duration tgt) ->
    (Some b, bucket_append (fst b) c g) = (Some (timeframe_bucket_start (Candle.timestamp c) tgt,
      timeframe_bucket_start (Candle.timestamp c) tgt + timeframe_duration tgt),
      bucket_append (timeframe_bucket_start (Candle.timestamp c) tgt) c g)) as Hstep by (intros b g -> ->; done).
  unfold group_step. destruct (list.last cs) as [z|] eqn:El; cbn [fmap option_fmap option_map]; [|by apply Hstep].
  destruct (Z.leb_spec (timeframe_bucket_start (Candle.timestamp z) tgt + timeframe_duration tgt) (Candle.timestamp c)) as [H|H];
    [by apply Hstep|].
  apply last_Some_elem_of in El. rewrite Forall_forall in Hc, Hw. specialize (Hc z El). specialize (Hw z El).
  pose proof (bucket_start_bounds _ tgt Hw).
  pose proof (bucket_start_same tgt _ _ Hw Hwc ltac:(lia)) as E. apply Hstep; cbn [fst]; congruence.
Qed.

(** ** What becomes of a bucket *)

Section buckets.
Context (config : MTFConfig) (session_expected_opens : option (list (Timeframe * list datetime))).
Abbreviation expected := (expected_of config session_expected_opens).

(** The bucket starting at [b] has ended, and the venue was open in it. *)
Definition due_bucket (now : datetime) (tgt : Timeframe) (b : datetime) : bool :=
  (b + timeframe_duration tgt <=? now)
  && negb (bool_decide (MTFConfig.mtf_gap_policy config = MTFGapPolicy.SESSION_CALENDAR) && bool_decide (expected tgt b = [])).

(** All its candles are there, and no others. *)
Definition complete_bucket (tgt : Timeframe) (cs : list Candle) (b : datetime) : bool :=
  bool_decide (map Candle.timestamp (members tgt b cs) = expected tgt b).

Definition bar_of (tgt : Timeframe) (cs : list Candle) (b : datetime) : option MTFDerivedBar :=
  (fun c => MTFDerivedBar.mkMTFDerivedBar tgt b (b + timeframe_duration tgt) (Candle.open c) (Candle.high c) (Candle.low c)
     (Candle.close c) (Candle.volume c) (map Candle.timestamp (members tgt b cs))) <$> derived_candle b (members tgt b cs).

Definition closed_bar (now : datetime) (tgt : Timeframe) (cs : list Candle) (b : datetime) : option MTFDerivedBar :=
  if due_bucket now tgt b && complete_bucket tgt cs b then bar_of tgt cs b else None.

Definition bad_bucket (now : datetime) (tgt : Timeframe) (cs : list Candle) (b : datetime) : option MTFDataQualityIssue :=
  if due_bucket now tgt b && negb (complete_bucket tgt cs b)
  then Some (MTFDataQualityIssue.mkMTFDataQualityIssue MTFReasonCode.MTF_INCOMPLETE_BUCKET tgt b (b + timeframe_duration tgt))
  else None.

Definition closed_bars (now : datetime) (cs : list Candle) (tgt : Timeframe) : list MTFDerivedBar :=
  omap (closed_bar now tgt cs) (starts tgt cs).
Definition bad_buckets (now : datetime) (cs : list Candle) (tgt : Timeframe) : list MTFDataQualityIssue :=
  omap (bad_bucket now tgt cs) (starts tgt cs).

Lemma derived_bar_ok tgt cs b : Forall (fun x => valid_candle x = true) cs -> members tgt b cs <> [] ->
  exists bar, bar_of tgt cs b = Some bar /\ derived_bar tgt b (members tgt b cs) = Ok bar.
Proof.
  intros Hv Hne. destruct (derived_candle_total b _ Hne) as (c & Hc). unfold bar_of, derived_bar. rewrite Hc. eexists. split; [done|].
  apply validated_ok. split; [|done]. pose proof (derived_candle_valid _ _ _ (members_valid tgt b cs Hv) Hc) as H.
  unfold valid_candle in H. unfold MTFDerivedBar.valid. cbn. bool_hyps. by repeat (apply andb_true_iff; split).
Qed.

(** The loop over the buckets. *)
Lemma bucket_fold now tgt cs keys bars issues : Forall (fun x => valid_candle x = true) cs ->
  Forall (fun b => members tgt b cs <> []) keys ->
  py_fold (bucket_step config session_expected_opens now tgt) (bars, issues) (table keys (fun b => members tgt b cs))
  = Ok (bars ++ omap (closed_bar now tgt cs) keys, issues ++ omap (bad_bucket now tgt cs) keys).
Proof.
  intros Hv. revert bars issues. induction keys as [|b keys IH]; intros bars issues Hk; unfold table; cbn [map py_fold].
  { by rewrite !app_nil_r. }
  apply Forall_cons in Hk as [Hb Hk]. fold (table keys (fun b => members tgt b cs)).
  change (omap ?f (b :: keys)) with (match f b with Some c => c :: omap f keys | None => omap f keys end).
  unfold closed_bar at 1, bad_bucket at 1, due_bucket, complete_bucket, bucket_step at 1. rewrite Z.ltb_antisym.
  destruct (b + timeframe_duration tgt <=? now); cbn [negb andb]; [|by apply IH].
  destruct (bool_decide (MTFConfig.mtf_gap_policy config = _) && _); cbn [negb andb]; [by apply IH|].
  destruct (decide (map Candle.timestamp (members tgt b cs) = expected tgt b)) as [E|E].
  - rewrite bool_decide_false by tauto. rewrite bool_decide_true by done. cbn [negb].
    destruct (derived_bar_ok tgt cs b Hv Hb) as (bar & -> & ->). cbn [mbind pyres_bind]. rewrite IH by done. by rewrite <-app_assoc.
  - rewrite bool_decide_true by done. rewrite bool_decide_false by done. cbn [negb]. rewrite IH by done. by rewrite <-app_assoc.
Qed.

Lemma target_fold now cs targets bars issues : ascending cs -> whole_times cs -> Forall (fun x => valid_candle x = true) cs ->
  py_fold (target_step config session_expected_opens now cs) (bars, issues) targets
  = Ok (bars ++ map (fun tgt => (tgt, closed_bars now cs tgt)) targets, issues ++ flat_map (bad_buckets now cs) targets).
Proof.
  intros Ha Hw Hv. revert bars issues. induction targets as [|tgt targets IH]; intros bars issues; cbn [map py_fold flat_map].
  { by rewrite !app_nil_r. }
  unfold target_step at 1. rewrite group_candles_exact, grouped_by_starts by done.
  rewrite bucket_fold; [|done|apply Forall_forall; intros b; apply elem_of_starts]. cbn [mbind pyres_bind app].
  rewrite IH. by rewrite <-!app_assoc.
Qed.
End buckets.

(** ** The source *)

Definition multiples (config : MTFConfig) : Prop :=
  Forall (fun tgt => timeframe_duration (MTFConfig.mtf_source_timeframe config) <= timeframe_duration tgt
                     /\ timeframe_duration tgt mod timeframe_duration (MTFConfig.mtf_source_timeframe config) = 0)
    (MTFConfig.mtf_target_timeframes config).

Lemma ascending_pairwise cs : ascending cs <-> Forall (fun '(x, y) => Candle.timestamp x < Candle.timestamp y) (pairwise cs).
Proof.
  unfold ascending. induction cs as [|x cs IH]; [split; intros _; constructor|]. destruct cs as [|y cs]; [split; intros _; repeat constructor|].
  change (pairwise (x :: y :: cs)) with ((x, y) :: pairwise (y :: cs)). rewrite Forall_cons, <-IH. cbn [map] in *. split.
  - intros H. apply StronglySorted_inv in H as [H Hx]. apply Forall_cons in Hx as [Hx _]. done.
  - intros [Hx H]. constructor; [done|]. apply StronglySorted_inv in H as [H Hy]. constructor; [done|].
    eapply Forall_impl; [exact Hy|]. cbn. lia.
Qed.

Lemma py_for_raise {A} (f : A -> pyres unit) (cls : string) l :
  (forall x, x ∈ l -> f x = Ok tt \/ exists msg, f x = Raise (Exc cls msg)) ->
  py_for f l = Ok tt \/ exists msg, py_for f l = Raise (Exc cls msg).
Proof.
  induction l as [|x l IH]; intros H; cbn [py_for]; [by left|]. destruct (H x) as [->|[msg ->]]; [by left| |eauto].
  apply IH. intros y Hy. apply H. by right.
Qed.

Lemma raise_if_cases (b : bool) cls msg : raise_if b (Exc cls msg) = Ok tt \/ exists m, raise_if b (Exc cls msg) = Raise (Exc cls m).
Proof. destruct b; cbn; eauto. Qed.

Lemma validate_source_ok config cs : _validate_source cs config = Ok tt <-> multiples config /\ ascending cs.
Proof.
  unfold _validate_source, multiples. rewrite bind_ok, ascending_pairwise. split.
  - intros ([] & H1 & H2). rewrite py_for_ok in H1. apply py_for_ok in H2. split; (eapply Forall_impl; [eassumption|]).
    + intros tgt H. apply raise_if_ok in H. bool_hyps. split; lia.
    + intros [x y] H. apply raise_if_ok in H. lia.
  - intros [H1 H2]. exists tt. rewrite !py_for_ok. split; (eapply Forall_impl; [eassumption|]).
    + intros tgt [Ha Hb]. apply raise_if_ok. apply orb_false_iff. split; [lia|]. rewrite Hb. done.
    + intros [x y] H. apply raise_if_ok. lia.
Qed.

Lemma validate_source_raises config cs : ~ (multiples config /\ ascending cs) ->
  exists msg, _validate_source cs config = Raise (MultiTimeframeInputError msg).
Proof.
  intros H. rewrite <-validate_source_ok in H. revert H. unfold _validate_source, MultiTimeframeInputError.
  match goal with |- context [py_for ?f ?l ≫= _] =>
    destruct (py_for_raise f "MultiTimeframeInputError" l) as [->|[msg ->]]; [intros; apply raise_if_cases| |cbn; eauto] end.
  cbn [mbind pyres_bind].
  match goal with |- context [py_for ?f ?l] =>
    destruct (py_for_raise f "MultiTimeframeInputError" l) as [->|[msg ->]]; [intros [x y] _; apply raise_if_cases|done|eauto] end.
Qed.

(** The opens of the sessions are there when the policy asks for them. *)
Definition calendar_given (config : MTFConfig) (session_expected_opens : option (list (Timeframe * list datetime))) : Prop :=
  MTFConfig.mtf_gap_policy config = MTFGapPolicy.SESSION_CALENDAR -> is_Some session_expected_opens.

(** Without the bookkeeping of the loops. *)
Definition resampled (config : MTFConfig) (session_expected_opens : option (list (Timeframe * list datetime)))
    (now : datetime) (cs : list Candle) : MTFResampleResult :=
  MTFResampleResult.mkMTFResampleResult now
    (map (fun tgt => (tgt, closed_bars config session_expected_opens now cs tgt)) (MTFConfig.mtf_target_timeframes config))
    (flat_map (bad_buckets config session_expected_opens now cs) (MTFConfig.mtf_target_timeframes config)).

Section resample.
Context (config : MTFConfig) (session_expected_opens : option (list (Timeframe * list datetime))).
Context (candles : list Candle) (now : datetime).
Hypothesis Hv : Forall (fun c => valid_candle c = true) candles.
Hypothesis Hw : whole_times candles.

Lemma eligible_source_Forall (P : Candle -> Prop) : Forall P candles -> Forall P (eligible_source config now candles).
Proof.
  rewrite !Forall_forall. intros H x Hx. apply list_elem_of_In, List.filter_In in Hx as [Hx _]. by apply H, list_elem_of_In.
Qed.

Lemma resample_ok : multiples config -> ascending (eligible_source config now candles) ->
  calendar_given config session_expected_opens ->
  resample_closed_candles candles now config session_expected_opens
  = Ok (resampled config session_expected_opens now (eligible_source config now candles)).
Proof using Hv Hw.
  intros Hm Ha Hc. unfold resample_closed_candles. rewrite (proj2 (validate_source_ok _ _)) by done. cbn [mbind pyres_bind].
  rewrite (proj2 (raise_if_ok _ _ tt)).
  2:{ case_bool_decide as E; [|done]. destruct (Hc E) as [x ->]. by rewrite bool_decide_false. }
  cbn [mbind pyres_bind]. rewrite target_fold; [done|done|apply (eligible_source_Forall _ Hw)|apply (eligible_source_Forall _ Hv)].
Qed.

Lemma resample_refused :
  ~ (multiples config /\ ascending (eligible_source config now candles) /\ calendar_given config session_expected_opens) ->
  exists msg, resample_closed_candles candles now config session_expected_opens = Raise (MultiTimeframeInputError msg).
Proof.
  intros H. unfold resample_closed_candles.
  destruct (_validate_source (eligible_source config now candles) config) as [[]|e] eqn:E.
  - apply validate_source_ok in E. cbn [mbind pyres_bind]. unfold MultiTimeframeInputError.
    destruct (bool_decide (MTFConfig.mtf_gap_policy config = MTFGapPolicy.SESSION_CALENDAR) && bool_decide (session_expected_opens = None)) eqn:B;
      [cbn; eauto|]. destruct H. destruct E as [E1 E2]. split_and!; [done..|]. intros Hg. rewrite bool_decide_true in B by done.
    apply bool_decide_eq_false in B. by apply not_eq_None_Some.
  - destruct (validate_source_raises config (eligible_source config now candles)) as [msg E'].
    { intros H'. apply validate_source_ok in H'. congruence. }
    exists msg. rewrite E in E'. injection E' as ->. done.
Qed.
End resample.

(** ** What is returned *)

Definition candle_of (bar : MTFDerivedBar) : Candle :=
  Candle.mkCandle (MTFDerivedBar.timestamp bar) (MTFDerivedBar.open bar) (MTFDerivedBar.high bar) (MTFDerivedBar.low bar)
    (MTFDerivedBar.close bar) (MTFDerivedBar.volume bar).

(** The bar [bar] of [tgt] is made of the candles [ms]. *)
Record made_of (tgt : Timeframe) (ms : list Candle) (bar : MTFDerivedBar) : Prop := {
  mo_timeframe : MTFDerivedBar.timeframe bar = tgt;
  mo_close_time : MTFDerivedBar.close_time bar = MTFDerivedBar.timestamp bar + timeframe_duration tgt;
  mo_sources : MTFDerivedBar.source_bar_timestamps bar = map Candle.timestamp ms;
  mo_summary : summarises (MTFDerivedBar.timestamp bar) ms (candle_of bar)
}.

Section result.
Context (config : MTFConfig) (opens : option (list (Timeframe * list datetime))) (now : datetime) (cs : list Candle).
Abbreviation complete := (complete_bucket config opens).

Lemma bar_of_made_of tgt b bar : bar_of tgt cs b = Some bar ->
  MTFDerivedBar.timestamp bar = b /\ made_of tgt (members tgt b cs) bar.
Proof.
  unfold bar_of. intros H. apply fmap_Some in H as (c & Hc & ->). cbn. split; [done|].
  pose proof (derived_candle_summarises _ _ _ Hc) as Hs. split; cbn; [done..|]. unfold candle_of. cbn.
  pose proof (su_timestamp _ _ _ Hs) as E. by destruct c; cbn in *; subst.
Qed.

Lemma closed_bar_spec tgt b bar : closed_bar config opens now tgt cs b = Some bar ->
  MTFDerivedBar.timestamp bar = b /\ due_bucket config opens now tgt b = true /\ complete tgt cs b = true
  /\ made_of tgt (members tgt b cs) bar.
Proof.
  unfold closed_bar. destruct (due_bucket _ _ _ _ _), (complete _ _ _); cbn [andb]; try done.
  intros H. apply bar_of_made_of in H. naive_solver.
Qed.

Lemma closed_bars_sorted tgt : ascending cs -> whole_times cs ->
  StronglySorted Z.lt (map MTFDerivedBar.timestamp (closed_bars config opens now cs tgt)).
Proof.
  intros Ha Hw. unfold closed_bars. pose proof (starts_sorted tgt cs Ha Hw) as Hs.
  induction Hs as [|b keys _ IH Hb]; [constructor|].
  change (omap ?f (b :: keys)) with (match f b with Some c => c :: omap f keys | None => omap f keys end).
  destruct (closed_bar config opens now tgt cs b) as [bar|] eqn:E; [|done]. cbn [map]. constructor; [done|].
  apply Forall_forall. intros t Ht. apply list_elem_of_fmap in Ht as (x & -> & Hx).
  apply list_elem_of_omap in Hx as (b' & Hb' & Ex). rewrite Forall_forall in Hb. specialize (Hb b' Hb').
  apply closed_bar_spec in E as [-> _], Ex as [-> _]. done.
Qed.

Lemma elem_of_closed_bars tgt bar : Forall (fun x => valid_candle x = true) cs ->
  bar ∈ closed_bars config opens now cs tgt <->
  let b := MTFDerivedBar.timestamp bar in
  members tgt b cs <> [] /\ due_bucket config opens now tgt b = true /\ complete tgt cs b = true
  /\ bar_of tgt cs b = Some bar.
Proof.
  intros Hv. cbv zeta. unfold closed_bars. rewrite list_elem_of_omap. split.
  - intros (b & Hb & E). pose proof (closed_bar_spec _ _ _ E) as (<- & H1 & H2 & _). apply elem_of_starts in Hb.
    split_and!; [done..|]. unfold closed_bar in E. by rewrite H1, H2 in E.
  - intros (H & H1 & H2 & E). exists (MTFDerivedBar.timestamp bar). split; [by apply elem_of_starts|].
    unfold closed_bar. by rewrite H1, H2.
Qed.

Lemma elem_of_bad_buckets tgt i : i ∈ bad_buckets config opens now cs tgt <->
  exists b, i = MTFDataQualityIssue.mkMTFDataQualityIssue MTFReasonCode.MTF_INCOMPLETE_BUCKET tgt b (b + timeframe_duration tgt)
    /\ members tgt b cs <> [] /\ due_bucket config opens now tgt b = true /\ complete tgt cs b = false.
Proof.
  unfold bad_buckets. rewrite list_elem_of_omap. split.
  - intros (b & Hb & E). apply elem_of_starts in Hb. exists b. unfold bad_bucket in E.
    destruct (due_bucket _ _ _ _ _), (complete _ _ _); naive_solver.
  - intros (b & -> & Hm & H1 & H2). exists b. split; [by apply elem_of_starts|]. unfold bad_bucket. by rewrite H1, H2.
Qed.
End result.

(** C15. The closed bars of the coarser timeframes are exact. The analysis
    refuses its source, with its own error, just when a target is no multiple of
    the source timeframe, the visible candles are not strictly ascending, or the
    calendar is missing. Otherwise every target has one bar for each bucket that
    has ended and whose candles are exactly the expected ones, in ascending
    order; the bar opens with the first, closes with the last, spans their
    extremes, and records them. Every other bucket that has ended is reported,
    once per target, and nothing else is. *)
Theorem resample_closed_exact config opens candles now :
  Forall (fun c => valid_candle c = true) candles -> whole_times candles ->
  let cs := eligible_source config now candles in
  let accepted := multiples config /\ ascending cs /\ calendar_given config opens in
  (~ accepted -> exists msg, resample_closed_candles candles now config opens = Raise (MultiTimeframeInputError msg))
  /\ (accepted -> exists r, resample_closed_candles candles now config opens = Ok r
      /\ map fst (MTFResampleResult.bars r) = MTFConfig.mtf_target_timeframes config
      /\ (forall tgt bars, (tgt, bars) ∈ MTFResampleResult.bars r ->
            StronglySorted Z.lt (map MTFDerivedBar.timestamp bars)
            /\ (forall bar, bar ∈ bars -> let b := MTFDerivedBar.timestamp bar in
                  due_bucket config opens now tgt b = true /\ complete_bucket config opens tgt cs b = true
                  /\ made_of tgt (members tgt b cs) bar)
            /\ (forall b, members tgt b cs <> [] -> due_bucket config opens now tgt b = true ->
                  complete_bucket config opens tgt cs b = true -> exists bar, bar ∈ bars /\ MTFDerivedBar.timestamp bar = b))
      /\ (forall i, i ∈ MTFResampleResult.issues r <-> exists tgt b, tgt ∈ MTFConfig.mtf_target_timeframes config
            /\ members tgt b cs <> [] /\ due_bucket config opens now tgt b = true /\ complete_bucket config opens tgt cs b = false
            /\ i = MTFDataQualityIssue.mkMTFDataQualityIssue MTFReasonCode.MTF_INCOMPLETE_BUCKET tgt b (b + timeframe_duration tgt))).
Proof.
  intros Hv Hw. cbv zeta. split; [by apply resample_refused|]. intros (Hm & Ha & Hc).
  pose proof (eligible_source_Forall config candles now _ Hv) as HvE. pose proof (eligible_source_Forall config candles now _ Hw) as HwE.
  rewrite (resample_ok config opens candles now Hv Hw Hm Ha Hc). eexists. split; [done|].
  set (cs := eligible_source config now candles) in *. unfold resampled. cbn [MTFResampleResult.bars MTFResampleResult.issues].
  rewrite map_map. cbn [fst]. rewrite map_id. split; [done|]. split.
  - intros tgt bars Hin. apply list_elem_of_fmap in Hin as (tgt' & [= <- ->] & _). split; [by apply closed_bars_sorted|]. split.
    + intros bar Hbar. apply (elem_of_closed_bars config opens now cs tgt bar HvE) in Hbar as (_ & H1 & H2 & H3).
      split_and!; [done..|]. by apply bar_of_made_of in H3 as [_ H3].
    + intros b Hne Hd Hcb. destruct (derived_bar_ok tgt cs b HvE Hne) as (bar & Hbar & _). exists bar.
      pose proof (bar_of_made_of cs tgt b bar Hbar) as [Et _]. split; [|done]. apply elem_of_closed_bars; [done|]. by rewrite Et.
  - intros i. rewrite elem_of_flat_map. setoid_rewrite elem_of_bad_buckets. naive_solver.
Qed.

(** ** Point in time *)

(** Candles open where their timeframe opens. *)
Definition aligned_to (src : Timeframe) (cs : list Candle) : Prop :=
  Forall (fun c => timeframe_bucket_start (Candle.timestamp c) src = Candle.timestamp c) cs.

Lemma aligned_whole src cs : aligned_to src cs -> whole_times cs.
Proof. intros H. eapply Forall_impl; [exact H|]. intros c E. right. rewrite <-E. apply bucket_start_whole. Qed.

(** The coarser grid is part of the finer one. *)
Lemma origins_agree src tgt : timeframe_duration tgt mod timeframe_duration src = 0 ->
  (bucket_origin tgt - bucket_origin src) mod timeframe_duration src = 0.
Proof. destruct src, tgt; vm_compute; congruence. Qed.

Lemma aligned_ends_inside src tgt t : timeframe_duration tgt mod timeframe_duration src = 0 ->
  timeframe_bucket_start t src = t -> t + timeframe_duration src <= timeframe_bucket_start t tgt + timeframe_duration tgt.
Proof.
  intros Hm Ht. assert (whole_or_recent t) as Hw by (right; rewrite <-Ht; apply bucket_start_whole).
  pose proof (bucket_start_bounds t tgt Hw) as Hb. pose proof (origins_agree src tgt Hm) as Ho.
  rewrite bucket_start_floor in Ht, Hb |- * by done. pose proof (timeframe_duration_pos src) as Hd.
  pose proof (Z.div_mod (timeframe_duration tgt) (timeframe_duration src) ltac:(lia)) as E1.
  pose proof (Z.div_mod (bucket_origin tgt - bucket_origin src) (timeframe_duration src) ltac:(lia)) as E2.
  rewrite Hm in E1. rewrite Ho in E2. clear Hm Ho.
  generalize dependent ((bucket_origin tgt - bucket_origin src) / timeframe_duration src).
  generalize dependent (timeframe_duration tgt / timeframe_duration src).
  generalize dependent ((t - bucket_origin tgt) / timeframe_duration tgt).
  generalize dependent ((t - bucket_origin src) / timeframe_duration src).
  generalize dependent (timeframe_duration src). generalize dependent (timeframe_duration tgt). intros D d Hd q Ht k Hk m Hm n Hn.
  assert (d * q + bucket_origin src < d * (k * m + m + n) + bucket_origin src) by nia.
  assert (q + 1 <= k * m + m + n) by nia. nia.
Qed.

Section cut.
Context (config : MTFConfig) (opens : option (list (Timeframe * list datetime))) (t1 t2 : datetime) (candles : list Candle).
Hypothesis H12 : t1 <= t2.
Abbreviation src := (MTFConfig.mtf_source_timeframe config).
Let cs1 : list Candle := eligible_source config t1 candles.
Let cs2 : list Candle := eligible_source config t2 candles.
Hypothesis Ha : ascending cs2.
Hypothesis Hal : aligned_to src cs2.

Lemma eligible_cut : cs1 = List.filter (fun c => Candle.timestamp c + timeframe_duration src <=? t1) cs2.
Proof using H12. apply (eligible_earlier src t1 t2 candles H12). Qed.

Lemma eligible_prefix : exists n, cs1 = take n cs2.
Proof using H12 Ha.
  destruct (ascending_cut (t1 - timeframe_duration src) cs2 Ha) as [n Hn]. exists n. rewrite eligible_cut, <-Hn.
  apply List.filter_ext. intros c. destruct (Z.leb_spec (Candle.timestamp c + timeframe_duration src) t1),
    (Z.leb_spec (Candle.timestamp c) (t1 - timeframe_duration src)); lia || done.
Qed.

Context (tgt : Timeframe).
Hypothesis Hm : timeframe_duration tgt mod timeframe_duration src = 0.

(** All candles of a bucket that has ended by [t1] are visible then. *)
Lemma members_cut b : b + timeframe_duration tgt <= t1 -> members tgt b cs1 = members tgt b cs2.
Proof using H12 Hal Hm.
  intros Hb. rewrite eligible_cut. unfold members at 1. rewrite filter_comm. fold (members tgt b cs2). apply list_filter_all.
  intros c Hc. apply elem_members in Hc as [Hc Eb]. apply Z.leb_le. unfold aligned_to in Hal. rewrite Forall_forall in Hal.
  pose proof (aligned_ends_inside src tgt _ Hm (Hal c Hc)). lia.
Qed.

Lemma due_cut b : due_bucket config opens t1 tgt b = (b + timeframe_duration tgt <=? t1) && due_bucket config opens t2 tgt b.
Proof using H12.
  unfold due_bucket. destruct (Z.leb_spec (b + timeframe_duration tgt) t1) as [H|H]; [|done].
  by rewrite (proj2 (Z.leb_le _ t2)) by lia.
Qed.

(** Every attribute of the buckets that ended by [t1] is final. *)
Lemma omap_starts_cut {A} (f1 f2 : datetime -> option A) (visible : A -> bool) :
  (forall b, b + timeframe_duration tgt <= t1 -> f1 b = f2 b) ->
  (forall b, t1 < b + timeframe_duration tgt -> f1 b = None) ->
  (forall b x, f2 b = Some x -> visible x = (b + timeframe_duration tgt <=? t1)) ->
  omap f1 (starts tgt cs1) = List.filter visible (omap f2 (starts tgt cs2)).
Proof using H12 Ha Hal Hm.
  intros Hf Hnone Hvis.
  assert (forall l, omap f1 l = List.filter visible (omap f2 l)) as Heq.
  { intros l. induction l as [|b l IH]; [done|].
    change (omap ?f (b :: l)) with (match f b with Some c => c :: omap f l | None => omap f l end).
    destruct (Z.leb_spec (b + timeframe_duration tgt) t1) as [H|H].
    - rewrite (Hf b H). destruct (f2 b) as [x|] eqn:E; [|done]. cbn [List.filter].
      rewrite (Hvis b x E), (proj2 (Z.leb_le _ _) H). by rewrite IH.
    - rewrite (Hnone b H). destruct (f2 b) as [x|] eqn:E; [|done]. cbn [List.filter].
      by rewrite (Hvis b x E), (proj2 (Z.leb_gt _ _) H). }
  rewrite <-Heq. destruct eligible_prefix as [n Hn]. rewrite <-(take_drop n cs2), <-Hn. unfold starts. rewrite map_app.
  destruct (fromkeys_prefix (map (fun c => timeframe_bucket_start (Candle.timestamp c) tgt) cs1)
    (map (fun c => timeframe_bucket_start (Candle.timestamp c) tgt) (drop n cs2))) as (rest & E & Hr).
  pose proof E as E'. rewrite <-map_app, Hn, take_drop in E'. rewrite E, omap_app. fold (starts tgt cs1).
  enough (omap f1 rest = []) as -> by by rewrite app_nil_r. apply elem_of_nil_inv. intros x Hx.
  apply list_elem_of_omap in Hx as (b & Hb & Ex). destruct (Z.leb_spec (b + timeframe_duration tgt) t1) as [H|H]; [|by rewrite Hnone in Ex].
  apply (Hr b Hb). rewrite <-elem_of_fromkeys. fold (starts tgt cs1). apply elem_of_starts. rewrite (members_cut b H).
  apply elem_of_starts. unfold starts. rewrite E'. apply elem_of_app. by right.
Qed.

Lemma closed_bars_cut :
  closed_bars config opens t1 cs1 tgt
  = List.filter (fun bar => MTFDerivedBar.close_time bar <=? t1) (closed_bars config opens t2 cs2 tgt).
Proof using H12 Ha Hal Hm.
  apply omap_starts_cut.
  - intros b Hb. unfold closed_bar, complete_bucket, bar_of. rewrite (members_cut b Hb), due_cut.
    by rewrite (proj2 (Z.leb_le _ _) Hb).
  - intros b Hb. unfold closed_bar. rewrite due_cut. by rewrite (proj2 (Z.leb_gt _ _) Hb).
  - intros b x E. apply closed_bar_spec in E as (<- & _ & _ & Hmo). by rewrite (mo_close_time _ _ _ Hmo).
Qed.

Lemma bad_buckets_cut :
  bad_buckets config opens t1 cs1 tgt
  = List.filter (fun i => MTFDataQualityIssue.bucket_end i <=? t1) (bad_buckets config opens t2 cs2 tgt).
Proof using H12 Ha Hal Hm.
  apply omap_starts_cut.
  - intros b Hb. unfold bad_bucket, complete_bucket. rewrite (members_cut b Hb), due_cut. by rewrite (proj2 (Z.leb_le _ _) Hb).
  - intros b Hb. unfold bad_bucket. rewrite due_cut. by rewrite (proj2 (Z.leb_gt _ _) Hb).
  - intros b x E. unfold bad_bucket in E. destruct (_ && _); [|done]. by injection E as <-.
Qed.
End cut.

(** What was seen at [t1] is what closed by [t1] of what is seen at [t2]. *)
Lemma resample_cut_closed config opens candles t1 t2 r2 :
  Forall (fun c => valid_candle c = true) candles -> aligned_to (MTFConfig.mtf_source_timeframe config) candles -> t1 <= t2 ->
  resample_closed_candles candles t2 config opens = Ok r2 ->
  resample_closed_candles candles t1 config opens
  = Ok (MTFResampleResult.mkMTFResampleResult t1
          (map (fun '(tgt, bars) => (tgt, List.filter (fun bar => MTFDerivedBar.close_time bar <=? t1) bars)) (MTFResampleResult.bars r2))
          (List.filter (fun i => MTFDataQualityIssue.bucket_end i <=? t1) (MTFResampleResult.issues r2))).
Proof.
  intros Hv Hal H12 H. pose proof (aligned_whole _ _ Hal) as Hw.
  assert (multiples config /\ ascending (eligible_source config t2 candles) /\ calendar_given config opens) as (Hm & Ha & Hc).
  { unfold resample_closed_candles in H. apply bind_ok in H as ([] & H1 & H). apply bind_ok in H as ([] & H2 & _).
    apply validate_source_ok in H1 as [Hm Ha]. split_and!; [done..|]. intros Hg. apply raise_if_ok in H2.
    rewrite bool_decide_true in H2 by done. apply bool_decide_eq_false in H2. by apply not_eq_None_Some. }
  rewrite (resample_ok config opens candles t2 Hv Hw Hm Ha Hc) in H. injection H as <-.
  pose proof (eligible_source_Forall config candles t2 _ Hal) as Hal2.
  assert (ascending (eligible_source config t1 candles)) as Ha1.
  { rewrite (eligible_cut config t1 t2 candles H12). by apply ascending_filter. }
  rewrite (resample_ok config opens candles t1 Hv Hw Hm Ha1 Hc). unfold resampled, multiples in *. f_equal.
  cbn [MTFResampleResult.bars MTFResampleResult.issues]. rewrite map_map. clear Hc. f_equal.
  - apply map_ext_in. intros tgt Htgt. rewrite Forall_forall in Hm. f_equal.
    apply closed_bars_cut; [done..|]. apply Hm. by apply list_elem_of_In.
  - rewrite list_filter_flat_map. apply flat_map_ext_in. intros tgt Htgt. rewrite Forall_forall in Hm.
    apply bad_buckets_cut; [done..|]. by apply Hm.
Qed.
