(* ===== verification/MultiTimeframeVerdict.v ===== *)
(** Theorems on the states and the verdict of multi-timeframe analysis:
    [engines/structure/multi_timeframe.py], [analyze_multi_timeframe]. *)
From Stdlib Require Import ZArith QArith Lia Lqa Sorting.Sorted.
From stdpp Require Import base strings numbers list sets gmap.
From S2P Require Import Prelude Dict Decimal Time Candle Signal Structure Resampling ResamplingTheory MtfTypes MultiTimeframe MultiTimeframeTheory.
Local Open Scope Z_scope.

(** ** Sets as lists *)

Lemma subset_of_spec {A} `{EqDecision A} (l k : list A) : subset_of l k = true <-> forall x, x ∈ l -> x ∈ k.
Proof.
  unfold subset_of. rewrite forallb_forall. split; intros H x Hx.
  - specialize (H x ltac:(by apply list_elem_of_In)). by apply bool_decide_eq_true in H.
  - apply bool_decide_eq_true, H. by apply list_elem_of_In.
Qed.

Lemma same_set_spec {A} `{EqDecision A} (l k : list A) : same_set l k = true <-> forall x, x ∈ l <-> x ∈ k.
Proof. unfold same_set. rewrite andb_true_iff, !subset_of_spec. naive_solver. Qed.

(** ** Configurations *)

(** What the construction of a configuration guarantees. *)
Record config_ok (c : MTFConfig) : Prop := {
  co_max_age : forall tf, tf ∈ MTFConfig.mtf_target_timeframes c -> is_Some (dict_get (MTFConfig.mtf_state_max_age_bars c) tf);
  co_roles : forall tf, is_Some (dict_get (MTFConfig.mtf_role_by_timeframe c) tf) <-> tf ∈ MTFConfig.mtf_target_timeframes c;
  co_required : forall tf, tf ∈ MTFConfig.mtf_required_timeframes c -> tf ∈ MTFConfig.mtf_target_timeframes c;
  co_veto : forall tf, tf ∈ MTFConfig.mtf_veto_timeframes c -> tf ∈ MTFConfig.mtf_target_timeframes c;
  co_mandatory : forall tf, tf ∈ MTFConfig.mtf_availability_required c -> tf ∈ MTFConfig.mtf_target_timeframes c;
  co_signal : MTFConfig.mtf_signal_timeframe c ∈ MTFConfig.mtf_target_timeframes c;
  co_range : MTFConfig.mtf_dealing_range_timeframe c ∈ MTFConfig.mtf_target_timeframes c
}.

Lemma validated_config_ok raw c : MTFConfig.validate_collections raw = Ok c -> config_ok c.
Proof.
  unfold MTFConfig.validate_collections. destruct (MTFConfig.resolved_roles raw) as [roles|]; [|done].
  destruct (MTFConfig.fields_valid raw && MTFConfig.collections_valid raw roles) eqn:E; [|done]. intros [= <-].
  apply andb_true_iff in E as [_ E]. unfold MTFConfig.collections_valid in E. rewrite !andb_true_iff, !bool_decide_eq_true in E.
  rewrite !same_set_spec, !subset_of_spec in E.
  destruct E as [[[[[[[[[[[[[[[_ _] _] _] Hroles] _] Hmand] _] _] Hreq] Hveto] _] Hsig] Hrange] Hage] _].
  split; cbn; try done.
  - intros tf Htf. by apply dict_get_is_Some, Hage.
  - intros tf. by rewrite dict_get_is_Some, Hroles.
  - intros tf Htf. by apply Hreq, Hveto.
Qed.

(** ** The state of a timeframe *)

Lemma index_by_timestamp_spec bars t i : index_by_timestamp bars !! t = Some i ->
  exists bar, bars !! i = Some bar /\ MTFDerivedBar.timestamp bar = t.
Proof.
  unfold index_by_timestamp. revert i. induction bars as [|bar bars IH] using rev_ind; intros i; [intros H; change ((∅ : gmap Z nat) !! t = Some i) in H; by rewrite lookup_empty in H|].
  rewrite enumerate_app, foldl_app. cbn [foldl]. destruct (decide (MTFDerivedBar.timestamp bar = t)) as [<-|Hne].
  - rewrite lookup_insert_eq. intros [= <-]. exists bar. by rewrite lookup_app_r, Nat.sub_diag.
  - rewrite lookup_insert_ne by done. intros H. destruct (IH i H) as (x & Hx & Et). exists x. by rewrite lookup_app_l by by eapply lookup_lt_Some.
Qed.

#[local] Instance state_event_order_strict : StrictWeak state_event_order.
Proof. unfold state_event_order. apply _. Qed.
#[local] Instance latest_swing_order_strict : StrictWeak latest_swing_order.
Proof. unfold latest_swing_order. apply _. Qed.

Section snapshot.
Context (tf : Timeframe) (bars : list MTFDerivedBar) (events : list MTFStructureStateEvent) (now : datetime) (max_age : Z)
  (issues : list MTFDataQualityIssue) (role : MTFRole) (minimum : Z).

(** The latest state that is known and belongs to a bar. *)
Definition latest_state (e : MTFStructureStateEvent) (age : Z) : Prop :=
  e ∈ events /\ event_eligible tf bars now e = true
  /\ (forall e', e' ∈ events -> event_eligible tf bars now e' = true -> state_event_order e e' = false)
  /\ exists i, index_by_timestamp bars !! MTFStructureStateEvent.source_bar_timestamp e = Some i
       /\ age = Z.of_nat (length bars) - 1 - Z.of_nat i.

(** What decides whether the state may be used. *)
Definition usable_state (e : MTFStructureStateEvent) (age : Z) : Prop :=
  minimum <= Z.of_nat (length bars) /\ age <= max_age /\ MTFStructureStateEvent.state e <> TrendState.INSUFFICIENT_DATA.

Definition issue_for : bool := existsb (fun issue => bool_decide (MTFDataQualityIssue.timeframe issue = tf)) issues.

Lemma eligible_index e : event_eligible tf bars now e = true ->
  exists i, index_by_timestamp bars !! MTFStructureStateEvent.source_bar_timestamp e = Some i /\ (i < length bars)%nat.
Proof.
  unfold event_eligible. intros H. apply andb_true_iff in H as [_ H].
  destruct (index_by_timestamp bars !! _) as [i|] eqn:E; [|done]. exists i. split; [done|].
  apply index_by_timestamp_spec in E as (bar & Hb & _). by eapply lookup_lt_Some.
Qed.

Lemma latest_event_spec e : py_max state_event_order (List.filter (event_eligible tf bars now) events) = Some e ->
  exists age, latest_state e age /\ 0 <= age.
Proof.
  unfold py_max. intros H. apply (py_min_spec (rev_lt state_event_order)) in H as [Hin Hmax].
  apply list_elem_of_In, List.filter_In in Hin as [Hin He]. apply list_elem_of_In in Hin.
  destruct (eligible_index e He) as (i & Hi & Hlt). exists (Z.of_nat (length bars) - 1 - Z.of_nat i). split; [|lia].
  split_and!; [done..| |by exists i]. intros e' Hin' He'. specialize (Hmax e'). unfold rev_lt in Hmax. apply Hmax.
  apply list_elem_of_In, List.filter_In. split; [by apply list_elem_of_In|done].
Qed.

Lemma no_event : py_max state_event_order (List.filter (event_eligible tf bars now) events) = None ->
  forall e, e ∈ events -> event_eligible tf bars now e = false.
Proof.
  intros H e He. apply (py_min_None (rev_lt state_event_order)) in H. destruct (event_eligible tf bars now e) eqn:E; [|done].
  assert (e ∈ []) as Hn; [|by apply not_elem_of_nil in Hn]. rewrite <-H. apply list_elem_of_In, List.filter_In. by rewrite <-list_elem_of_In.
Qed.

Lemma warmup_codes : minimum <= Z.of_nat (length bars) ->
  issue_codes tf bars issues minimum = if issue_for then [MTFReasonCode.MTF_INCOMPLETE_BUCKET] else [].
Proof. intros H. unfold issue_codes, issue_for. rewrite (proj2 (Z.ltb_ge _ _)) by done. by rewrite app_nil_r. Qed.

(** Why no state may be used. *)
Definition no_state : Prop :=
  Z.of_nat (length bars) < minimum
  \/ (forall e, e ∈ events -> event_eligible tf bars now e = false)
  \/ exists e age, latest_state e age /\ ~ usable_state e age.

(** What is known of the snapshot of a timeframe. *)
Record snapshot_of (s : MTFTimeframeSnapshot) : Prop := {
  so_timeframe : MTFTimeframeSnapshot.timeframe s = tf;
  so_role : MTFTimeframeSnapshot.role s = role;
  so_count : MTFTimeframeSnapshot.closed_bar_count s = Z.of_nat (length bars);
  so_used : MTFTimeframeSnapshot.available s = true ->
    exists e age, latest_state e age /\ usable_state e age
      /\ MTFTimeframeSnapshot.state s = MTFStructureStateEvent.state e
      /\ MTFTimeframeSnapshot.state_event_id s = Some (MTFStructureStateEvent.event_id e)
      /\ MTFTimeframeSnapshot.bars_since_state s = Some age;
  so_unused : MTFTimeframeSnapshot.available s = false ->
    no_state /\ MTFTimeframeSnapshot.state s = TrendState.INSUFFICIENT_DATA;
  so_reasons : MTFTimeframeSnapshot.reason_codes s = [] <-> MTFTimeframeSnapshot.available s = true /\ issue_for = false;
  so_incomplete : MTFReasonCode.MTF_INCOMPLETE_BUCKET ∈ MTFTimeframeSnapshot.reason_codes s <-> issue_for = true
}.

Lemma snapshot_absent : no_state ->
  snapshot_of (MTFTimeframeSnapshot.mkMTFTimeframeSnapshot tf role TrendState.INSUFFICIENT_DATA false false None None None None
    (MTFDerivedBar.close_time <$> list.last bars) None (Z.of_nat (length bars))
    (fromkeys (issue_codes tf bars issues minimum ++ [MTFReasonCode.MTF_STATE_UNAVAILABLE]))).
Proof.
  intros Hno. split; cbn; try done.
  - rewrite fromkeys_nil. split; [intros E; by apply app_nil in E as [_ E]|by intros [? _]].
  - rewrite elem_of_fromkeys, elem_of_app, list_elem_of_singleton. unfold issue_codes, issue_for. rewrite elem_of_app.
    destruct (existsb _ _), (_ <? _); rewrite ?list_elem_of_singleton, ?elem_of_nil; naive_solver.
Qed.

Lemma snapshot_ok : exists s, _snapshot_for_timeframe tf bars events now max_age issues role minimum = Ok s /\ snapshot_of s.
Proof.
  unfold _snapshot_for_timeframe. destruct (Z.ltb_spec (Z.of_nat (length bars)) minimum) as [Hmin|Hmin].
  { eexists. split; [apply validated_ok; split; [|done]; unfold MTFTimeframeSnapshot.valid; cbn; lia|]. apply snapshot_absent. by left. }
  destruct (py_max state_event_order _) as [e|] eqn:E.
  2:{ eexists. split; [apply validated_ok; split; [|done]; unfold MTFTimeframeSnapshot.valid; cbn; lia|]. apply snapshot_absent. right. left.
      by apply no_event. }
  destruct (latest_event_spec e E) as (age & Hl & Hage). pose proof Hl as (_ & _ & _ & i & Hi & Ea). rewrite Hi. cbv zeta.
  rewrite <-Ea. rewrite warmup_codes by done. eexists. split.
  { apply validated_ok. split; [|done]. unfold MTFTimeframeSnapshot.valid. cbn. lia. }
  destruct (Z.ltb_spec max_age age) as [Hstale|Hfresh]; cbn [negb andb].
  - split; cbn; try done.
    + intros _. split; [|done]. right. right. exists e, age. split; [done|]. intros (_ & ? & _). lia.
    + rewrite fromkeys_nil. destruct issue_for; cbn; naive_solver.
    + rewrite elem_of_fromkeys. destruct issue_for; set_solver.
  - destruct (decide (MTFStructureStateEvent.state e = TrendState.INSUFFICIENT_DATA)) as [Hs|Hs].
    + rewrite Hs. split; cbn; try done.
      * intros _. split; [|done]. right. right. exists e, age. split; [done|]. by intros (_ & _ & ?).
      * rewrite fromkeys_nil. destruct issue_for; cbn; naive_solver.
      * rewrite elem_of_fromkeys. destruct issue_for; set_solver.
    + rewrite bool_decide_true by done. split; cbn; try done.
      * intros _. exists e, age. done.
      * rewrite !app_nil_r, fromkeys_nil. destruct issue_for; naive_solver.
      * rewrite !app_nil_r, elem_of_fromkeys. destruct issue_for; set_solver.
Qed.
End snapshot.

(** ** The verdict *)

(** A verdict allows the trade exactly when there is no reason against it. *)
Definition coherent (direction : MTFDirection) (v : Verdict) : Prop :=
  let '(alignment, eligibility, trade_allowed, reasons) := v in
  (trade_allowed = true <-> reasons = [])
  /\ eligibility = (if trade_allowed then eligible_for direction else MTFEligibility.NO_TRADE)
  /\ (trade_allowed = true -> alignment = MTFAlignmentStatus.ALIGNED).

Definition allowed (v : Verdict) : bool := let '(_, _, trade_allowed, _) := v in trade_allowed.

Lemma refuse_coherent demote direction reasons v : reasons <> [] -> coherent direction (refuse demote reasons v).
Proof.
  destruct v as [[[a e] t] known]. intros Hr. cbn. split_and!; [|done|done]. split; [done|].
  intros E. by apply app_nil in E as [_ E].
Qed.

Lemma refuse_allowed demote reasons v : allowed (refuse demote reasons v) = false.
Proof. by destruct v as [[[a e] t] known]. Qed.

Lemma directional_coherent config required veto signal direction :
  coherent direction (directional_verdict config required veto signal direction)
  /\ allowed (directional_verdict config required veto signal direction)
     = aligned config required veto signal direction && negb (aligned config required veto signal (opposite direction)).
Proof.
  unfold directional_verdict.
  destruct (aligned config required veto signal direction), (aligned config required veto signal (opposite direction));
    cbn [andb negb]; try done.
  destruct (vetoed veto direction); [done|]. by case_match.
Qed.

Lemma completeness_gate_ok direction required v : coherent direction v ->
  coherent direction (completeness_gate required v)
  /\ allowed (completeness_gate required v) = allowed v && forallb (fun item =>
       bool_decide (MTFReasonCode.MTF_INCOMPLETE_BUCKET ∉ MTFTimeframeSnapshot.reason_codes item)) required.
Proof.
  intros Hv. unfold completeness_gate.
  assert (forallb (fun item => bool_decide (MTFReasonCode.MTF_INCOMPLETE_BUCKET ∉ MTFTimeframeSnapshot.reason_codes item)) required
    = negb (existsb (fun item => bool_decide (MTFReasonCode.MTF_INCOMPLETE_BUCKET ∈ MTFTimeframeSnapshot.reason_codes item)) required)) as ->.
  { induction required as [|x l IH]; [done|]. cbn [forallb existsb]. rewrite IH, negb_orb. f_equal.
    repeat case_bool_decide; tauto. }
  destruct (existsb _ _); cbn [negb]; [|by rewrite andb_true_r]. rewrite andb_false_r. split; [by apply refuse_coherent|apply refuse_allowed].
Qed.

Lemma availability_gate_ok direction mandatory v : coherent direction v ->
  coherent direction (availability_gate mandatory v)
  /\ allowed (availability_gate mandatory v) = allowed v && forallb (fun item => negb (unavailable item)) mandatory.
Proof.
  intros Hv. unfold availability_gate.
  assert (forallb (fun item => negb (unavailable item)) mandatory = bool_decide (List.filter unavailable mandatory = [])) as ->.
  { induction mandatory as [|x l IH]; [done|]. cbn [forallb List.filter]. by destruct (unavailable x). }
  destruct (List.filter unavailable mandatory) as [|x l].
  - rewrite bool_decide_true by done. by rewrite andb_true_r.
  - rewrite bool_decide_false by done. rewrite andb_false_r. split; [by apply refuse_coherent|apply refuse_allowed].
Qed.

(** The side of the range on which the direction may enter. *)
Definition price_side (direction : MTFDirection) (probe equilibrium : dec) : Prop :=
  match direction with
  | MTFDirection.BULLISH => (Qval probe <= Qval equilibrium)%Q
  | MTFDirection.BEARISH => (Qval equilibrium <= Qval probe)%Q
  end.

Lemma gate_passes_side direction probe equilibrium :
  gate_passes direction (classify probe equilibrium) = true <-> price_side direction probe equilibrium.
Proof.
  unfold gate_passes, classify, price_side.
  destruct (deqb probe equilibrium) eqn:E; [apply deqb_true in E|].
  - destruct direction; (split; [intros _; lra|intros _; by apply bool_decide_eq_true]).
  - apply not_true_iff_false in E. rewrite deqb_true in E. destruct (dltb probe equilibrium) eqn:L.
    + apply dltb_true in L. destruct direction; cbn; (split; [intros H; try discriminate H; lra|intros H; try lra; done]).
    + apply dltb_false in L. destruct direction; cbn; (split; [intros H; try discriminate H; lra|intros H; try done]).
      exfalso. apply E. lra.
Qed.

(** ** The dealing range *)

(** The range between the latest known swings of both kinds. *)
Record range_of (tf : Timeframe) (bars : list MTFDerivedBar) (swings : list ConfirmedSwing) (now : datetime) (max_span : Z)
    (zone : EntryZone) (direction : MTFDirection) (basis : MTFPriceArrayProbe) (r : MTFDealingRange) : Prop := {
  ro_swings : exists high low, latest_swing SwingKind.HIGH (List.filter (swing_eligible bars now) swings) = Some high
    /\ latest_swing SwingKind.LOW (List.filter (swing_eligible bars now) swings) = Some low
    /\ MTFDealingRange.upper r = ConfirmedSwing.price high /\ MTFDealingRange.lower r = ConfirmedSwing.price low;
  ro_ordered : (Qval (MTFDealingRange.lower r) < Qval (MTFDealingRange.upper r))%Q;
  ro_equilibrium : MTFDealingRange.equilibrium r = half_sum (MTFDealingRange.lower r) (MTFDealingRange.upper r);
  ro_class : MTFDealingRange.classification r = classify (zone_probe zone direction basis) (MTFDealingRange.equilibrium r)
}.

Lemma latest_swing_spec kind bars now swings s : latest_swing kind (List.filter (swing_eligible bars now) swings) = Some s ->
  s ∈ swings /\ is_Some (index_by_timestamp bars !! ConfirmedSwing.pivot_timestamp s).
Proof.
  unfold latest_swing, py_max. intros H. apply py_min_mem in H.
  apply list_elem_of_In, List.filter_In in H as [H _]. apply List.filter_In in H as [H He]. split; [by apply list_elem_of_In|].
  unfold swing_eligible in He. bool_hyps. done.
Qed.

Lemma half_sum_pos a b : (0 < Qval a)%Q -> (0 < Qval b)%Q -> (0 < Qval (half_sum a b))%Q.
Proof.
  intros Ha Hb. unfold half_sum. rewrite ddiv_pos by done. apply dadd_pos; try done; lra.
Qed.

Lemma dealing_range_ok tf bars swings now max_span zone direction basis :
  Forall (fun s => (0 < Qval (ConfirmedSwing.price s))%Q) swings ->
  exists o, _dealing_range tf bars swings now max_span (Some zone) direction basis = Ok o
    /\ forall r, o = Some r -> range_of tf bars swings now max_span zone direction basis r.
Proof.
  intros Hpos. unfold _dealing_range. rewrite Forall_forall in Hpos.
  destruct (latest_swing SwingKind.HIGH _) as [high|] eqn:Eh; [|by exists None].
  destruct (latest_swing SwingKind.LOW _) as [low|] eqn:El; [|by exists None].
  destruct (latest_swing_spec _ _ _ _ _ Eh) as [Hh [hi ->]]. destruct (latest_swing_spec _ _ _ _ _ El) as [Hl [li ->]].
  destruct (_ || _) eqn:Eb; [by exists None|]. apply orb_false_iff in Eb as [_ Eb]. apply dleb_false in Eb.
  eexists. split.
  - match goal with |- context [validated _ ?r] => rewrite (proj2 (validated_ok MTFDealingRange.validate_range r r)); [done|] end.
    split; [|done]. unfold MTFDealingRange.validate_range. cbn [MTFDealingRange.lower MTFDealingRange.upper MTFDealingRange.equilibrium].
    fold (half_sum (ConfirmedSwing.price low) (ConfirmedSwing.price high)).
    pose proof (Hpos _ Hh) as H1. pose proof (Hpos _ Hl) as H2.
    rewrite deqb_refl, !andb_true_iff, !dltb_true, !Qval_D0. split_and!; try done. by apply half_sum_pos.
  - intros r [= <-]. split; cbn; [by exists high, low|done|done|done].
Qed.

(** ** Permission *)

Definition state_of (snaps : list (Timeframe * MTFTimeframeSnapshot)) (tf : Timeframe) : TrendState :=
  match dict_get snaps tf with Some s => MTFTimeframeSnapshot.state s | None => TrendState.INSUFFICIENT_DATA end.

Definition all_snapshots (snaps : list (Timeframe * MTFTimeframeSnapshot)) (tfs : list Timeframe) (P : MTFTimeframeSnapshot -> Prop) : Prop :=
  forall tf, tf ∈ tfs -> exists s, dict_get snaps tf = Some s /\ P s.

(** The timeframes support a direction. *)
Record supported (config : MTFConfig) (snaps : list (Timeframe * MTFTimeframeSnapshot)) (direction : MTFDirection) : Prop := {
  su_quorum : MTFConfig.mtf_min_aligned_timeframes config <=
    Z.of_nat (length (List.filter (fun tf => bool_decide (state_of snaps tf = supporting direction)) (MTFConfig.mtf_required_timeframes config)));
  su_veto : all_snapshots snaps (MTFConfig.mtf_veto_timeframes config) (fun s =>
    MTFTimeframeSnapshot.available s = true /\ MTFTimeframeSnapshot.state s <> supporting (opposite direction));
  su_signal : MTFConfig.mtf_require_signal_timeframe_alignment config = true ->
    state_of snaps (MTFConfig.mtf_signal_timeframe config) = supporting direction
}.

(** Everything a trade needs. *)
Record permitted (config : MTFConfig) (snaps : list (Timeframe * MTFTimeframeSnapshot)) (direction : MTFDirection)
    (zone : option EntryZone) (range : option MTFDealingRange) : Prop := {
  pe_supported : supported config snaps direction;
  pe_unopposed : ~ supported config snaps (opposite direction);
  pe_complete : all_snapshots snaps (MTFConfig.mtf_required_timeframes config) (fun s =>
    MTFReasonCode.MTF_INCOMPLETE_BUCKET ∉ MTFTimeframeSnapshot.reason_codes s);
  pe_available : all_snapshots snaps (MTFConfig.mtf_availability_required config) (fun s =>
    MTFTimeframeSnapshot.available s = true /\ MTFTimeframeSnapshot.reason_codes s = []);
  pe_price : MTFConfig.mtf_require_price_array_gate config = true -> exists z r, zone = Some z /\ range = Some r
    /\ price_side direction (zone_probe z direction (MTFConfig.mtf_price_array_probe config)) (MTFDealingRange.equilibrium r)
}.

(** The snapshots of some timeframes. *)
Definition taken_from (snaps : list (Timeframe * MTFTimeframeSnapshot)) : list Timeframe -> list MTFTimeframeSnapshot -> Prop :=
  Forall2 (fun tf s => dict_get snaps tf = Some s).

Lemma snapshots_of_ok snaps tfs : (forall tf, tf ∈ tfs -> is_Some (dict_get snaps tf)) ->
  exists l, snapshots_of snaps tfs = Ok l /\ taken_from snaps tfs l.
Proof.
  intros H. unfold snapshots_of, taken_from. destruct (py_map_all (dict_index snaps) tfs) as [l Hl].
  { intros tf Htf. destruct (H tf Htf) as [s Hs]. exists s. unfold dict_index. by rewrite Hs. }
  exists l. split; [done|]. apply py_map_ok in Hl. eapply Forall2_impl; [exact Hl|]. intros tf s. unfold dict_index.
  destruct (dict_get snaps tf); congruence.
Qed.

Lemma all_taken snaps tfs l (p : MTFTimeframeSnapshot -> bool) (P : MTFTimeframeSnapshot -> Prop) : taken_from snaps tfs l ->
  (forall s, p s = true <-> P s) -> forallb p l = true <-> all_snapshots snaps tfs P.
Proof.
  intros Hl Hp. unfold all_snapshots. induction Hl as [|tf s tfs l Hs _ IH]; cbn [forallb].
  { split; [|done]. intros _ tf Htf. by apply not_elem_of_nil in Htf. }
  rewrite andb_true_iff, IH, Hp. split.
  - intros [H1 H2] tf' Htf. apply elem_of_cons in Htf as [->|Htf]; [eauto|auto].
  - intros H. split; [|intros tf' Htf; apply H; by right]. destruct (H tf ltac:(by left)) as (s' & Hs' & HP). congruence.
Qed.

Lemma count_taken snaps tfs l state : taken_from snaps tfs l ->
  count_state state l = Z.of_nat (length (List.filter (fun tf => bool_decide (state_of snaps tf = state)) tfs)).
Proof.
  intros Hl. unfold count_state. f_equal. induction Hl as [|tf s tfs l Hs _ IH]; [done|]. cbn [List.filter].
  assert (state_of snaps tf = MTFTimeframeSnapshot.state s) as -> by (unfold state_of; by rewrite Hs).
  destruct (bool_decide _); cbn [length]; by rewrite IH.
Qed.

Lemma aligned_supported config snaps required veto signal direction :
  taken_from snaps (MTFConfig.mtf_required_timeframes config) required ->
  taken_from snaps (MTFConfig.mtf_veto_timeframes config) veto ->
  dict_get snaps (MTFConfig.mtf_signal_timeframe config) = Some signal ->
  aligned config required veto (MTFTimeframeSnapshot.state signal) direction = true <-> supported config snaps direction.
Proof.
  intros Hreq Hveto Hsig. unfold aligned. rewrite !andb_true_iff, Z.leb_le, (count_taken _ _ _ _ Hreq).
  assert ((negb (vetoed veto direction) = true /\ forallb MTFTimeframeSnapshot.available veto = true) <->
    all_snapshots snaps (MTFConfig.mtf_veto_timeframes config) (fun s =>
      MTFTimeframeSnapshot.available s = true /\ MTFTimeframeSnapshot.state s <> supporting (opposite direction))) as Hv.
  { rewrite <-(all_taken snaps _ veto (fun s => MTFTimeframeSnapshot.available s
      && negb (bool_decide (MTFTimeframeSnapshot.state s = supporting (opposite direction)))) _ Hveto).
    - unfold vetoed, any_state. clear. induction veto as [|s l IH]; [done|]. cbn [existsb forallb].
      rewrite negb_orb, !andb_true_iff, <-IH. tauto.
    - intros s. by rewrite andb_true_iff, negb_true_iff, bool_decide_eq_false. }
  assert (state_of snaps (MTFConfig.mtf_signal_timeframe config) = MTFTimeframeSnapshot.state signal) as Es by (unfold state_of; by rewrite Hsig).
  rewrite negb_true_iff in Hv. rewrite orb_true_iff, !negb_true_iff, bool_decide_eq_true. split.
  - intros [[[Hq Hn] Ha] Hs]. split; [done|by apply Hv|]. rewrite Es. intros Hr. destruct Hs as [Hs|Hs]; congruence.
  - intros [Hq Hn Hs]. apply Hv in Hn as [H1 H2]. split_and!; [done..|]. rewrite Es in Hs.
    destruct (MTFConfig.mtf_require_signal_timeframe_alignment config); [right; auto|by left].
Qed.

(** ** The analysis *)

(** The bars of a timeframe a bar table has. *)
Definition min_history (config : MTFConfig) (minimum_history_by_timeframe : option (list (Timeframe * Z))) (tf : Timeframe) : Z :=
  Z.max (default 1 (dict_get (MTFConfig.mtf_warmup_bars config) tf))
        (default 1 (dict_get (default [] minimum_history_by_timeframe) tf)).

(** What the snapshot [s] of [tf] says of the bars and issues of [r]. *)
Definition snapshot_for (config : MTFConfig) (r : MTFResampleResult) (events : list MTFStructureStateEvent)
    (minimum_history_by_timeframe : option (list (Timeframe * Z))) (tf : Timeframe) (s : MTFTimeframeSnapshot) : Prop :=
  exists bars max_age role, dict_get (MTFResampleResult.bars r) tf = Some bars
    /\ dict_get (MTFConfig.mtf_state_max_age_bars config) tf = Some max_age
    /\ dict_get (MTFConfig.mtf_role_by_timeframe config) tf = Some role
    /\ snapshot_of tf bars events (MTFResampleResult.decision_time r) max_age (MTFResampleResult.issues r) role
         (min_history config minimum_history_by_timeframe tf) s.

Section analysis.
Context (config : MTFConfig) (r : MTFResampleResult) (events : list MTFStructureStateEvent) (mh : option (list (Timeframe * Z))).
Hypothesis Hconfig : config_ok config.
Hypothesis Hbars : map fst (MTFResampleResult.bars r) = MTFConfig.mtf_target_timeframes config.

Lemma snapshot_step_ok tf : tf ∈ MTFConfig.mtf_target_timeframes config ->
  exists s, snapshot_step r events config mh tf = Ok (tf, s) /\ snapshot_for config r events mh tf s.
Proof using Hconfig Hbars.
  intros Htf. unfold snapshot_step, dict_index.
  assert (is_Some (dict_get (MTFResampleResult.bars r) tf)) as [bars Eb] by (apply dict_get_is_Some; by rewrite Hbars).
  destruct (co_max_age _ Hconfig tf Htf) as [max_age Ea]. destruct (proj2 (co_roles _ Hconfig tf) Htf) as [role Er].
  rewrite Eb, Ea, Er. cbn [mbind pyres_bind].
  destruct (snapshot_ok tf bars events (MTFResampleResult.decision_time r) max_age (MTFResampleResult.issues r) role
    (min_history config mh tf)) as (s & Es & Hs). unfold min_history in Es. rewrite Es. cbn [mbind pyres_bind].
  exists s. split; [done|]. by exists bars, max_age, role.
Qed.

Lemma snapshots_ok : exists snaps,
  py_map (snapshot_step r events config mh) (MTFConfig.mtf_target_timeframes config) = Ok snaps
  /\ (forall tf, tf ∈ MTFConfig.mtf_target_timeframes config -> is_Some (dict_get snaps tf))
  /\ (forall tf s, dict_get snaps tf = Some s -> snapshot_for config r events mh tf s).
Proof using Hconfig Hbars.
  destruct (py_map_all (snapshot_step r events config mh) (MTFConfig.mtf_target_timeframes config)) as [snaps Hs].
  { intros tf Htf. destruct (snapshot_step_ok tf Htf) as (s & Es & _). eauto. }
  exists snaps. split; [done|]. apply py_map_ok in Hs.
  assert (map fst snaps = MTFConfig.mtf_target_timeframes config) as Hkeys.
  { assert (forall tf, tf ∈ MTFConfig.mtf_target_timeframes config -> forall y, snapshot_step r events config mh tf = Ok y -> fst y = tf) as Hfst.
    { intros tf Htf y Hy. destruct (snapshot_step_ok tf Htf) as (s & Es & _). rewrite Es in Hy. by injection Hy as <-. }
    clear -Hs Hfst. induction Hs as [|tf y l k Hy _ IH]; [done|]. cbn [map]. f_equal.
    - apply (Hfst tf); [by left|done].
    - apply IH. intros t Ht. apply Hfst. by right. }
  split; [intros tf Htf; apply dict_get_is_Some; by rewrite Hkeys|].
  intros tf s Hd. apply dict_get_elem in Hd. destruct (Forall2_elem_r _ _ _ _ Hs Hd) as (tf' & Htf & Ey).
  destruct (snapshot_step_ok tf' Htf) as (s' & Es & Hfor). rewrite Es in Ey. by injection Ey as -> ->.
Qed.

Lemma ordered_snapshots_get snaps tf : tf ∈ map fst (MTFConfig.mtf_role_by_timeframe config) ->
  dict_get (ordered_snapshots config snaps) tf = dict_get snaps tf.
Proof.
  unfold ordered_snapshots. induction (MTFConfig.mtf_role_by_timeframe config) as [|[t role] roles IH]; cbn [map fst].
  { intros H. by apply not_elem_of_nil in H. }
  intros H. change (omap ?f ((t, role) :: roles)) with (match f (t, role) with Some y => y :: omap f roles | None => omap f roles end).
  cbv beta iota. destruct (decide (t = tf)) as [->|Hne].
  - destruct (dict_get snaps tf) as [s|] eqn:E; cbn [fmap option_fmap option_map dict_get].
    + by rewrite decide_True.
    + destruct (decide (tf ∈ map fst roles)) as [Hin|Hin]; [by rewrite IH|].
      match goal with |- ?x = None => destruct x eqn:Ex; [|done] end. exfalso. apply dict_get_elem in Ex.
      apply list_elem_of_omap in Ex as ([t' role'] & Ht & Et). destruct (dict_get snaps t') eqn:Es; [|done].
      injection Et as -> ->. congruence.
  - apply elem_of_cons in H as [H|H]; [congruence|].
    destruct (dict_get snaps t); cbn [fmap option_fmap option_map dict_get]; [rewrite decide_False by done|]; by apply IH.
Qed.

Lemma ordered_snapshots_keys snaps : (forall tf, tf ∈ MTFConfig.mtf_target_timeframes config -> is_Some (dict_get snaps tf)) ->
  map fst (ordered_snapshots config snaps) = map fst (MTFConfig.mtf_role_by_timeframe config).
Proof using Hconfig.
  intros Hs. unfold ordered_snapshots.
  assert (forall x, x ∈ MTFConfig.mtf_role_by_timeframe config -> is_Some (dict_get snaps (fst x))) as Hr.
  { intros [tf role] Hx. apply Hs. apply (co_roles _ Hconfig). apply dict_get_is_Some. by apply (list_elem_of_fmap_2 fst _ _ Hx). }
  induction (MTFConfig.mtf_role_by_timeframe config) as [|[t role] roles IH]; [done|].
  change (omap ?f ((t, role) :: roles)) with (match f (t, role) with Some y => y :: omap f roles | None => omap f roles end).
  cbv beta iota. destruct (Hr (t, role) ltac:(by left)) as [s Es]. cbn [fst] in Es. rewrite Es.
  cbn [fmap option_fmap option_map map fst]. f_equal. apply IH. intros x Hx. apply Hr. by right.
Qed.
End analysis.

(** ** The price gate *)

Definition range_swings (config : MTFConfig) (swings : option (list (Timeframe * list ConfirmedSwing))) : list ConfirmedSwing :=
  default [] (dict_get (default [] swings) (MTFConfig.mtf_dealing_range_timeframe config)).

Lemma price_gate_ok config bars now direction zone swings v :
  is_Some (dict_get bars (MTFConfig.mtf_dealing_range_timeframe config)) ->
  Forall (fun s => (0 < Qval (ConfirmedSwing.price s))%Q) (range_swings config swings) -> coherent direction v ->
  exists v' range, price_gate config bars now direction zone swings v = Ok (v', range) /\ coherent direction v'
    /\ (allowed v' = true <-> allowed v = true /\ (MTFConfig.mtf_require_price_array_gate config = true -> exists z r,
          zone = Some z /\ range = Some r
          /\ price_side direction (zone_probe z direction (MTFConfig.mtf_price_array_probe config)) (MTFDealingRange.equilibrium r)))
    /\ (forall r, range = Some r -> exists z b, zone = Some z
          /\ dict_get bars (MTFConfig.mtf_dealing_range_timeframe config) = Some b
          /\ range_of (MTFConfig.mtf_dealing_range_timeframe config) b (range_swings config swings) now
               (MTFConfig.mtf_dealing_range_max_span_bars config) z direction (MTFConfig.mtf_price_array_probe config) r).
Proof.
  intros [b Hb] Hpos Hv. unfold price_gate. destruct (MTFConfig.mtf_require_price_array_gate config); cbn [negb].
  2:{ exists v, None. split_and!; [done|done| |done]. split; [by intros H; split|by intros [H _]]. }
  assert (forall reasons range, reasons <> [] ->
    (forall r, range = Some r -> exists z, zone = Some z
       /\ ~ price_side direction (zone_probe z direction (MTFConfig.mtf_price_array_probe config)) (MTFDealingRange.equilibrium r)) ->
    coherent direction (refuse false reasons v) /\ (allowed (refuse false reasons v) = true <-> allowed v = true /\ (true = true -> exists z r,
      zone = Some z /\ range = Some r
      /\ price_side direction (zone_probe z direction (MTFConfig.mtf_price_array_probe config)) (MTFDealingRange.equilibrium r)))) as Hno.
  { intros reasons range Hr Hside. split; [by apply refuse_coherent|]. rewrite refuse_allowed. split; [done|].
    intros [_ H]. destruct (H eq_refl) as (z & r & Ez & -> & Hp). destruct (Hside r eq_refl) as (z' & Ez' & Hn). congruence. }
  destruct zone as [z|].
  2:{ rewrite bool_decide_false by (by intros [x Hx]). exists (refuse false [MTFReasonCode.ENTRY_ZONE_UNAVAILABLE] v), None.
      destruct (Hno [MTFReasonCode.ENTRY_ZONE_UNAVAILABLE] None) as [H1 H2]; [done|done|]. by split_and!. }
  rewrite bool_decide_true by eauto. unfold dict_index. rewrite Hb. cbn [mbind pyres_bind].
  fold (range_swings config swings).
  destruct (dealing_range_ok (MTFConfig.mtf_dealing_range_timeframe config) b (range_swings config swings) now
    (MTFConfig.mtf_dealing_range_max_span_bars config) z direction (MTFConfig.mtf_price_array_probe config) Hpos) as (o & -> & Ho).
  cbn [mbind pyres_bind]. destruct o as [r|].
  2:{ destruct (Hno [MTFReasonCode.DEALING_RANGE_UNAVAILABLE] None) as [H1 H2]; [done|done|]. eexists _, None. by split_and!. }
  specialize (Ho r eq_refl). eexists _, (Some r). split; [done|]. rewrite (ro_class _ _ _ _ _ _ _ _ _ Ho).
  destruct (gate_passes direction _) eqn:Eg.
  - apply gate_passes_side in Eg. split_and!; [done| |].
    + split; [intros H; split; [done|]; by exists z, r|by intros [H _]].
    + intros r' [= <-]. by exists z, b.
  - destruct (Hno [MTFReasonCode.PRICE_ARRAY_CONFLICT] (Some r)) as [H1 H2]; [done| |].
    + intros r' [= <-]. exists z. split; [done|]. rewrite <-gate_passes_side. by rewrite Eg.
    + split_and!; [done|done|]. intros r' [= <-]. by exists z, b.
Qed.

(** All that the gates before the price ask for. *)
Definition gates_pass (config : MTFConfig) (snaps : list (Timeframe * MTFTimeframeSnapshot)) (direction : MTFDirection) : Prop :=
  supported config snaps direction /\ ~ supported config snaps (opposite direction)
  /\ all_snapshots snaps (MTFConfig.mtf_required_timeframes config) (fun s =>
       MTFReasonCode.MTF_INCOMPLETE_BUCKET ∉ MTFTimeframeSnapshot.reason_codes s)
  /\ all_snapshots snaps (MTFConfig.mtf_availability_required config) (fun s =>
       MTFTimeframeSnapshot.available s = true /\ MTFTimeframeSnapshot.reason_codes s = []).

Lemma gates_allowed config snaps required veto signal mandatory direction :
  taken_from snaps (MTFConfig.mtf_required_timeframes config) required ->
  taken_from snaps (MTFConfig.mtf_veto_timeframes config) veto ->
  dict_get snaps (MTFConfig.mtf_signal_timeframe config) = Some signal ->
  taken_from snaps (MTFConfig.mtf_availability_required config) mandatory ->
  let v := availability_gate mandatory (completeness_gate required
             (directional_verdict config required veto (MTFTimeframeSnapshot.state signal) direction)) in
  coherent direction v
  /\ (allowed v = true <-> gates_pass config snaps direction).
Proof.
  intros Hreq Hveto Hsig Hmand. cbv zeta. unfold gates_pass.
  destruct (directional_coherent config required veto (MTFTimeframeSnapshot.state signal) direction) as [C1 A1].
  destruct (completeness_gate_ok direction required _ C1) as [C2 A2].
  destruct (availability_gate_ok direction mandatory _ C2) as [C3 A3]. split; [done|].
  rewrite A3, A2, A1, !andb_true_iff, negb_true_iff, <-not_true_iff_false.
  rewrite !(aligned_supported config snaps required veto signal _ Hreq Hveto Hsig).
  rewrite (all_taken snaps _ required (fun item => bool_decide (MTFReasonCode.MTF_INCOMPLETE_BUCKET ∉ MTFTimeframeSnapshot.reason_codes item))
    (fun s => MTFReasonCode.MTF_INCOMPLETE_BUCKET ∉ MTFTimeframeSnapshot.reason_codes s) Hreq);
    [|intros s; apply bool_decide_eq_true].
  rewrite (all_taken snaps _ mandatory (fun item => negb (unavailable item))
    (fun s => MTFTimeframeSnapshot.available s = true /\ MTFTimeframeSnapshot.reason_codes s = []) Hmand); [tauto|].
  intros s. unfold unavailable. rewrite negb_orb, !negb_involutive, andb_true_iff, bool_decide_eq_true. done.
Qed.

(** ** The result *)

(** The inputs the analysis accepts. *)
Record mtf_inputs (raw config : MTFConfig) (candles : list Candle) (now : datetime) (opens : option (list (Timeframe * list datetime)))
    (swings : option (list (Timeframe * list ConfirmedSwing))) : Prop := {
  mi_config : MTFConfig.validate_collections raw = Ok config;
  mi_valid : Forall (fun c => valid_candle c = true) candles;
  mi_times : whole_times candles;
  mi_multiples : multiples config;
  mi_ascending : ascending (eligible_source config now candles);
  mi_calendar : calendar_given config opens;
  mi_swings : Forall (fun s => (0 < Qval (ConfirmedSwing.price s))%Q) (range_swings config swings)
}.

Lemma all_snapshots_ext config snaps snaps' tfs P :
  (forall tf, tf ∈ MTFConfig.mtf_target_timeframes config -> dict_get snaps' tf = dict_get snaps tf) ->
  (forall tf, tf ∈ tfs -> tf ∈ MTFConfig.mtf_target_timeframes config) ->
  all_snapshots snaps tfs P -> all_snapshots snaps' tfs P.
Proof. intros E Ht H tf Htf. rewrite E by auto. auto. Qed.

Lemma supported_ext config snaps snaps' direction : config_ok config ->
  (forall tf, tf ∈ MTFConfig.mtf_target_timeframes config -> dict_get snaps' tf = dict_get snaps tf) ->
  supported config snaps direction -> supported config snaps' direction.
Proof.
  intros Hc E [Hq Hv Hs].
  assert (forall tf, tf ∈ MTFConfig.mtf_target_timeframes config -> state_of snaps' tf = state_of snaps tf) as Est
    by (intros tf Htf; unfold state_of; by rewrite E).
  split.
  - revert Hq. enough (List.filter (fun tf => bool_decide (state_of snaps' tf = supporting direction)) (MTFConfig.mtf_required_timeframes config)
      = List.filter (fun tf => bool_decide (state_of snaps tf = supporting direction)) (MTFConfig.mtf_required_timeframes config)) as -> by done.
    apply List.filter_ext_in. intros tf Htf. apply bool_decide_ext. rewrite Est; [done|]. by apply (co_required _ Hc), list_elem_of_In.
  - eapply all_snapshots_ext; [exact E|apply (co_veto _ Hc)|done].
  - intros Hr. rewrite Est by apply (co_signal _ Hc). auto.
Qed.

Lemma gates_ext config snaps snaps' direction : config_ok config ->
  (forall tf, tf ∈ MTFConfig.mtf_target_timeframes config -> dict_get snaps' tf = dict_get snaps tf) ->
  gates_pass config snaps' direction <-> gates_pass config snaps direction.
Proof.
  intros Hc E. assert (forall s s', (forall tf, tf ∈ MTFConfig.mtf_target_timeframes config -> dict_get s' tf = dict_get s tf) ->
    (forall tf, tf ∈ MTFConfig.mtf_target_timeframes config -> dict_get s tf = dict_get s' tf) ->
    gates_pass config s direction -> gates_pass config s' direction) as H.
  { intros s s' E1 E2 (S1 & S2 & S3 & S4). split_and!; [by eapply supported_ext| | |].
    - intros S. apply S2. by eapply supported_ext.
    - eapply all_snapshots_ext; [exact E1|apply (co_required _ Hc)|done].
    - eapply all_snapshots_ext; [exact E1|apply (co_mandatory _ Hc)|done]. }
  split; apply H; intros; by rewrite E.
Qed.

Lemma analysis_exact raw config candles now direction events zone swings opens mh :
  mtf_inputs raw config candles now opens swings ->
  exists r res, resample_closed_candles candles now config opens = Ok r
  /\ analyze_multi_timeframe candles now direction events config zone swings opens mh = Ok res
  /\ (let snaps := MTFAnalysisResult.timeframes res in
      map fst snaps = map fst (MTFConfig.mtf_role_by_timeframe config)
      /\ (forall tf s, dict_get snaps tf = Some s -> snapshot_for config r events mh tf s)
      /\ (MTFAnalysisResult.trade_allowed res = true <-> permitted config snaps direction zone (MTFAnalysisResult.dealing_range res)))
  /\ (MTFAnalysisResult.trade_allowed res = true <-> MTFAnalysisResult.reason_codes res = [])
  /\ MTFAnalysisResult.eligibility res
     = (if MTFAnalysisResult.trade_allowed res then eligible_for direction else MTFEligibility.NO_TRADE)
  /\ (MTFAnalysisResult.trade_allowed res = true -> MTFAnalysisResult.alignment res = MTFAlignmentStatus.ALIGNED)
  /\ (forall d, MTFAnalysisResult.dealing_range res = Some d -> exists z b, zone = Some z
      /\ dict_get (MTFResampleResult.bars r) (MTFConfig.mtf_dealing_range_timeframe config) = Some b
      /\ range_of (MTFConfig.mtf_dealing_range_timeframe config) b (range_swings config swings) now
           (MTFConfig.mtf_dealing_range_max_span_bars config) z direction (MTFConfig.mtf_price_array_probe config) d).
Proof.
  intros [Hraw Hv Hw Hm Ha Hcal Hpos]. pose proof (validated_config_ok _ _ Hraw) as Hc.
  pose proof (resample_ok config opens candles now Hv Hw Hm Ha Hcal) as Er. set (r := resampled config opens now _) in Er.
  assert (map fst (MTFResampleResult.bars r) = MTFConfig.mtf_target_timeframes config) as Hbars.
  { unfold r, resampled. cbn [MTFResampleResult.bars]. rewrite map_map. cbn [fst]. apply map_id. }
  destruct (snapshots_ok config r events mh Hc Hbars) as (snaps & Esnaps & Hsome & Hfor).
  destruct (snapshots_of_ok snaps (MTFConfig.mtf_required_timeframes config)) as (required & Ereq & Hreq).
  { intros tf Htf. by apply Hsome, (co_required _ Hc). }
  destruct (snapshots_of_ok snaps (MTFConfig.mtf_veto_timeframes config)) as (veto & Eveto & Hveto).
  { intros tf Htf. by apply Hsome, (co_veto _ Hc). }
  destruct (snapshots_of_ok snaps (MTFConfig.mtf_availability_required config)) as (mandatory & Emand & Hmand).
  { intros tf Htf. by apply Hsome, (co_mandatory _ Hc). }
  destruct (Hsome _ (co_signal _ Hc)) as [signal Esig].
  destruct (gates_allowed config snaps required veto signal mandatory direction Hreq Hveto Esig Hmand) as [Hcoh Hallow].
  cbv zeta in Hcoh, Hallow. set (v := availability_gate mandatory _) in *.
  destruct (price_gate_ok config (MTFResampleResult.bars r) now direction zone swings v) as
    ([[[alignment eligibility] trade] reasons] & range & Egate & Hcoh' & Hallow' & Hrange); [|done|done|].
  { apply dict_get_is_Some. rewrite Hbars. apply (co_range _ Hc). }
  exists r. unfold analyze_multi_timeframe. rewrite Er. cbn [mbind pyres_bind]. rewrite Esnaps. cbn [mbind pyres_bind].
  rewrite Ereq. cbn [mbind pyres_bind]. rewrite Eveto. cbn [mbind pyres_bind]. unfold dict_index at 1. rewrite Esig.
  cbn [mbind pyres_bind]. rewrite Emand. cbn [mbind pyres_bind]. fold v. rewrite Egate. cbn [mbind pyres_bind].
  eexists. split; [done|]. split; [done|]. cbn [MTFAnalysisResult.timeframes MTFAnalysisResult.trade_allowed
    MTFAnalysisResult.dealing_range MTFAnalysisResult.reason_codes MTFAnalysisResult.eligibility MTFAnalysisResult.alignment].
  destruct Hcoh' as (H1 & H2 & H3). cbn [allowed] in Hallow'. cbv zeta. rewrite fromkeys_nil.
  assert (forall tf, tf ∈ MTFConfig.mtf_target_timeframes config -> dict_get (ordered_snapshots config snaps) tf = dict_get snaps tf) as Eord.
  { intros tf Htf. apply ordered_snapshots_get. by apply dict_get_is_Some, (co_roles _ Hc). }
  split_and!; try done; [by apply ordered_snapshots_keys| |].
  - intros tf s Hs. assert (tf ∈ MTFConfig.mtf_target_timeframes config) as Htf.
    { apply (co_roles _ Hc), dict_get_is_Some. rewrite <-(ordered_snapshots_keys config Hc snaps Hsome). apply dict_get_is_Some. eauto. }
    rewrite Eord in Hs by done. auto.
  - rewrite Hallow', Hallow. rewrite <-(gates_ext config snaps (ordered_snapshots config snaps) direction Hc Eord).
    split; [intros ((S1 & S2 & S3 & S4) & S5); by split|intros [S1 S2 S3 S4 S5]; done].
Qed.

(** The snapshots do not depend on the direction asked about. *)
Lemma timeframes_agree config candles now direction direction' events zone swings opens mh res res' :
  analyze_multi_timeframe candles now direction events config zone swings opens mh = Ok res ->
  analyze_multi_timeframe candles now direction' events config zone swings opens mh = Ok res' ->
  MTFAnalysisResult.timeframes res = MTFAnalysisResult.timeframes res'.
Proof.
  unfold analyze_multi_timeframe. intros H H'.
  apply bind_ok in H as (r & Er & H). apply bind_ok in H as (snaps & Es & H). apply bind_ok in H' as (r' & Er' & H').
  rewrite Er in Er'. injection Er' as <-. apply bind_ok in H' as (snaps' & Es' & H'). rewrite Es in Es'. injection Es' as <-.
  repeat (apply bind_ok in H as (? & _ & H)). repeat (apply bind_ok in H' as (? & _ & H')).
  repeat match goal with x : (_ * option MTFDealingRange)%type |- _ => destruct x as [[[[? ?] ?] ?] ?] end.
  injection H as <-. injection H' as <-. done.
Qed.

(** C14. The verdict is exact. On accepted inputs the analysis always returns. A
    trade is allowed just when no reason speaks against it: enough required
    timeframes are in the candidate's state and no vetoing one is unknown or
    opposed, the opposite direction does not qualify as well, no required
    timeframe has an incomplete bucket, every mandatory one has a fresh state
    without reservation, and, if asked for, the entry lies on the right side of
    the middle of the dealing range. Each timeframe reports its latest known
    state if warm and fresh, and why not otherwise. Never are both directions
    allowed. *)
Theorem mtf_verdict_exact raw config candles now direction events zone swings opens mh :
  mtf_inputs raw config candles now opens swings ->
  exists r res, resample_closed_candles candles now config opens = Ok r
  /\ analyze_multi_timeframe candles now direction events config zone swings opens mh = Ok res
  /\ (let snaps := MTFAnalysisResult.timeframes res in
      map fst snaps = map fst (MTFConfig.mtf_role_by_timeframe config)
      /\ (forall tf s, dict_get snaps tf = Some s -> snapshot_for config r events mh tf s)
      /\ (MTFAnalysisResult.trade_allowed res = true <-> permitted config snaps direction zone (MTFAnalysisResult.dealing_range res)))
  /\ (MTFAnalysisResult.trade_allowed res = true <-> MTFAnalysisResult.reason_codes res = [])
  /\ MTFAnalysisResult.eligibility res
     = (if MTFAnalysisResult.trade_allowed res then eligible_for direction else MTFEligibility.NO_TRADE)
  /\ (forall d, MTFAnalysisResult.dealing_range res = Some d -> exists z b, zone = Some z
      /\ dict_get (MTFResampleResult.bars r) (MTFConfig.mtf_dealing_range_timeframe config) = Some b
      /\ range_of (MTFConfig.mtf_dealing_range_timeframe config) b (range_swings config swings) now
           (MTFConfig.mtf_dealing_range_max_span_bars config) z direction (MTFConfig.mtf_price_array_probe config) d)
  /\ (forall res', analyze_multi_timeframe candles now (opposite direction) events config zone swings opens mh = Ok res' ->
      MTFAnalysisResult.trade_allowed res = true -> MTFAnalysisResult.trade_allowed res' = false).
Proof.
  intros Hin. destruct (analysis_exact raw config candles now direction events zone swings opens mh Hin)
    as (r & res & Er & Eres & (Hkeys & Hfor & Hallow) & Hreason & Helig & _ & Hrange).
  exists r, res. split_and!; try done. intros res' Eres' Ht.
  destruct (analysis_exact raw config candles now (opposite direction) events zone swings opens mh Hin)
    as (r' & res'' & _ & Eres'' & (_ & _ & Hallow') & _).
  assert (res'' = res') as -> by congruence. apply not_true_iff_false. rewrite Hallow'. intros Hp.
  apply Hallow in Ht. apply (pe_unopposed _ _ _ _ _ Ht). rewrite (timeframes_agree _ _ _ _ _ _ _ _ _ _ _ _ Eres Eres').
  apply (pe_supported _ _ _ _ _ Hp).
Qed.
