(* ===== verification/MultiTimeframeHistory.v ===== *)
(** Multi-timeframe analysis over time: nothing depends on what was not known,
    and nothing closed is revised. The file ends with a sample that witnesses
    the theorems on [engines/structure/multi_timeframe.py]. *)
From Stdlib Require Import ZArith QArith Lia Sorting.Sorted.
From stdpp Require Import base strings numbers list sets gmap.
From S2P Require Import Prelude Dict Decimal Time Candle Signal Structure Resampling ResamplingTheory MtfTypes MultiTimeframe MultiTimeframeTheory MultiTimeframeVerdict.
Local Open Scope Z_scope.

Definition known_events (now : datetime) (events : list MTFStructureStateEvent) : list MTFStructureStateEvent :=
  List.filter (fun e => MTFStructureStateEvent.confirmed_at e <=? now) events.
Definition known_swings (now : datetime) (swings : list ConfirmedSwing) : list ConfirmedSwing :=
  List.filter (fun s => ConfirmedSwing.confirmed_at s <=? now) swings.

Lemma filter_implied {A} (p q : A -> bool) l : (forall x, p x = true -> q x = true) -> List.filter p (List.filter q l) = List.filter p l.
Proof.
  intros H. rewrite filter_andb. apply List.filter_ext. intros x. destruct (p x) eqn:E; [by rewrite (H x E)|apply andb_false_r].
Qed.

Lemma resample_decision_time candles now config opens r : resample_closed_candles candles now config opens = Ok r ->
  MTFResampleResult.decision_time r = now.
Proof.
  unfold resample_closed_candles. intros H. apply bind_ok in H as (? & _ & H). apply bind_ok in H as (? & _ & H).
  apply bind_ok in H as ([bars issues] & _ & H). by injection H as <-.
Qed.

Lemma eligible_events_known tf bars now events :
  List.filter (event_eligible tf bars now) (known_events now events) = List.filter (event_eligible tf bars now) events.
Proof. apply filter_implied. intros e. unfold event_eligible. rewrite !andb_true_iff. tauto. Qed.

Lemma eligible_swings_known bars now swings :
  List.filter (swing_eligible bars now) (known_swings now swings) = List.filter (swing_eligible bars now) swings.
Proof. apply filter_implied. intros e. unfold swing_eligible. rewrite !andb_true_iff. tauto. Qed.

Lemma snapshot_step_known r events events' config mh tf :
  known_events (MTFResampleResult.decision_time r) events = known_events (MTFResampleResult.decision_time r) events' ->
  snapshot_step r events config mh tf = snapshot_step r events' config mh tf.
Proof.
  intros E. unfold snapshot_step.
  destruct (dict_index (MTFResampleResult.bars r) tf) as [bars|]; [|done]. cbn [mbind pyres_bind].
  assert (forall max_age role m,
    _snapshot_for_timeframe tf bars events (MTFResampleResult.decision_time r) max_age (MTFResampleResult.issues r) role m
    = _snapshot_for_timeframe tf bars events' (MTFResampleResult.decision_time r) max_age (MTFResampleResult.issues r) role m) as Es.
  { intros max_age role m. unfold _snapshot_for_timeframe. by rewrite <-eligible_events_known, E, eligible_events_known. }
  destruct (dict_index _ tf); [|done]. cbn [mbind pyres_bind]. destruct (dict_index _ tf); [|done]. cbn [mbind pyres_bind]. by rewrite Es.
Qed.

Lemma price_gate_known config bars now direction zone swings swings' v :
  known_swings now (range_swings config swings) = known_swings now (range_swings config swings') ->
  price_gate config bars now direction zone swings v = price_gate config bars now direction zone swings' v.
Proof.
  intros E. unfold price_gate. fold (range_swings config swings) (range_swings config swings').
  assert (forall tf b span z basis, _dealing_range tf b (range_swings config swings) now span z direction basis
    = _dealing_range tf b (range_swings config swings') now span z direction basis) as Er.
  { intros tf b span z basis. unfold _dealing_range. by rewrite <-eligible_swings_known, E, eligible_swings_known. }
  destruct (negb _); [done|]. case_match; [|done]. destruct (dict_index bars _); [|done]. cbn [mbind pyres_bind]. by rewrite Er.
Qed.

Lemma analysis_known config candles candles' now direction events events' zone swings swings' opens mh :
  eligible_source config now candles = eligible_source config now candles' ->
  known_events now events = known_events now events' ->
  known_swings now (range_swings config swings) = known_swings now (range_swings config swings') ->
  analyze_multi_timeframe candles now direction events config zone swings opens mh
  = analyze_multi_timeframe candles' now direction events' config zone swings' opens mh.
Proof.
  intros Ec Ee Es. unfold analyze_multi_timeframe.
  assert (resample_closed_candles candles now config opens = resample_closed_candles candles' now config opens) as ->
    by (unfold resample_closed_candles; by rewrite Ec).
  destruct (resample_closed_candles candles' now config opens) as [r|] eqn:Er; [|done]. cbn [mbind pyres_bind].
  apply resample_decision_time in Er.
  assert (py_map (snapshot_step r events config mh) (MTFConfig.mtf_target_timeframes config)
    = py_map (snapshot_step r events' config mh) (MTFConfig.mtf_target_timeframes config)) as ->.
  { induction (MTFConfig.mtf_target_timeframes config) as [|tf l IH]; [done|]. cbn [py_map].
    rewrite IH. by rewrite (snapshot_step_known r events events') by by rewrite Er. }
  destruct (py_map _ _) as [snaps|]; [|done]. cbn [mbind pyres_bind].
  do 2 (destruct (snapshots_of snaps _) as [?|]; [|done]; cbn [mbind pyres_bind]).
  destruct (dict_index snaps _) as [?|]; [|done]. cbn [mbind pyres_bind].
  destruct (snapshots_of snaps _) as [?|]; [|done]. cbn [mbind pyres_bind].
  by rewrite (price_gate_known config _ now direction zone swings swings').
Qed.

(** C40. Multi-timeframe analysis is point-in-time. What is decided depends only
    on the candles closed, the states and the swings confirmed by then: inputs
    that agree on these give the same result, errors included. And time revises
    nothing: of candles that open on the grid of the source timeframe, the bars
    and issues seen at an earlier instant are those of a later view that had
    closed by then. *)
Theorem mtf_point_in_time config candles direction events zone swings opens mh t1 t2 r2 :
  Forall (fun c => valid_candle c = true) candles -> aligned_to (MTFConfig.mtf_source_timeframe config) candles -> t1 <= t2 ->
  resample_closed_candles candles t2 config opens = Ok r2 ->
  (forall candles' events' swings',
     eligible_source config t1 candles = eligible_source config t1 candles' ->
     known_events t1 events = known_events t1 events' ->
     known_swings t1 (range_swings config swings) = known_swings t1 (range_swings config swings') ->
     analyze_multi_timeframe candles t1 direction events config zone swings opens mh
     = analyze_multi_timeframe candles' t1 direction events' config zone swings' opens mh)
  /\ resample_closed_candles candles t1 config opens
     = Ok (MTFResampleResult.mkMTFResampleResult t1
             (map (fun '(tgt, bars) => (tgt, List.filter (fun bar => MTFDerivedBar.close_time bar <=? t1) bars)) (MTFResampleResult.bars r2))
             (List.filter (fun i => MTFDataQualityIssue.bucket_end i <=? t1) (MTFResampleResult.issues r2))).
Proof. intros Hv Hal H12 H. split; [intros; by apply analysis_known|by apply (resample_cut_closed config opens candles t1 t2)]. Qed.

(** ** A sample *)

Definition mtf_minute (n : Z) : datetime := n * 60000000.

Definition mtf_candles : list Candle :=
  let c t o h l cl := Candle.mkCandle (mtf_minute t) (D o) (D h) (D l) (D cl) (D 5) in
  [c 0 10 20 9 11; c 1 11 15 10 14; c 2 14 14 8 9; c 3 9 12 5 11; c 4 11 13 10 12; c 5 12 14 11 13; c 6 13 15 12 14].

Definition mtf_raw : MTFConfig :=
  MTFConfig.mkMTFConfig Timeframe.ONE_MINUTE [Timeframe.THREE_MINUTES; Timeframe.ONE_MINUTE] [] [Timeframe.THREE_MINUTES] []
    MTFGapPolicy.REQUIRE_CONTIGUOUS None [Timeframe.THREE_MINUTES] 1 [Timeframe.THREE_MINUTES] Timeframe.THREE_MINUTES true
    [(Timeframe.THREE_MINUTES, 2); (Timeframe.ONE_MINUTE, 5)] true Timeframe.THREE_MINUTES 4 MTFPriceArrayProbe.MIDPOINT.
Definition mtf_config : MTFConfig :=
  MTFConfig.set_roles mtf_raw [(Timeframe.THREE_MINUTES, MTFRole.TRIGGER); (Timeframe.ONE_MINUTE, MTFRole.TRIGGER)].

Definition mtf_events : list MTFStructureStateEvent :=
  [MTFStructureStateEvent.mkMTFStructureStateEvent "S1" Timeframe.THREE_MINUTES TrendState.BEARISH (mtf_minute 0) (mtf_minute 3) (mtf_minute 3);
   MTFStructureStateEvent.mkMTFStructureStateEvent "S2" Timeframe.THREE_MINUTES TrendState.BULLISH (mtf_minute 3) (mtf_minute 6) (mtf_minute 6)].

Definition mtf_swings : option (list (Timeframe * list ConfirmedSwing)) :=
  let s id kind t price := ConfirmedSwing.mkConfirmedSwing id id kind 0 (mtf_minute t) (D price) (mtf_minute t) (mtf_minute 6) [] [] in
  Some [(Timeframe.THREE_MINUTES, [s "H" SwingKind.HIGH 0 20; s "L" SwingKind.LOW 3 5])].

Definition mtf_zone : option EntryZone := Some (EntryZone.mkEntryZone (D 8) (D 10)).

Example mtf_trade : 
  (fun r => (MTFAnalysisResult.trade_allowed r, MTFAnalysisResult.eligibility r, MTFAnalysisResult.reason_codes r))
    <$> analyze_multi_timeframe mtf_candles (mtf_minute 7) MTFDirection.BULLISH mtf_events mtf_config mtf_zone mtf_swings None None
  = Ok (true, MTFEligibility.LONG_ELIGIBLE, []).
Proof. vm_compute. reflexivity. Qed.

Lemma mtf_candles_valid : Forall (fun c => valid_candle c = true) mtf_candles.
Proof. repeat constructor. Qed.

Lemma mtf_candles_aligned : aligned_to Timeframe.ONE_MINUTE mtf_candles.
Proof. repeat constructor. Qed.

Lemma mtf_candles_times : whole_times mtf_candles.
Proof. apply (aligned_whole Timeframe.ONE_MINUTE), mtf_candles_aligned. Qed.

Lemma mtf_candles_ascending now : ascending (eligible_source mtf_config now mtf_candles).
Proof. apply ascending_filter, ascending_pairwise. repeat constructor. Qed.

Lemma mtf_multiples : multiples mtf_config.
Proof. repeat constructor; vm_compute; congruence. Qed.

Lemma mtf_sample_inputs now : mtf_inputs mtf_raw mtf_config mtf_candles now None mtf_swings.
Proof.
  split; [reflexivity|apply mtf_candles_valid|apply mtf_candles_times|apply mtf_multiples|apply mtf_candles_ascending|done|].
  repeat constructor.
Qed.

Lemma resample_closed_exact_witness : exists r, resample_closed_candles mtf_candles (mtf_minute 7) mtf_config None = Ok r
  /\ map fst (MTFResampleResult.bars r) = [Timeframe.THREE_MINUTES; Timeframe.ONE_MINUTE].
Proof.
  destruct (proj2 (resample_closed_exact mtf_config None mtf_candles (mtf_minute 7) mtf_candles_valid mtf_candles_times)) as (r & H1 & H2 & _).
  - split; [apply mtf_multiples|]. split; [apply mtf_candles_ascending|done].
  - exists r. split; [exact H1|exact H2].
Defined.

Lemma mtf_verdict_exact_witness : exists r res, resample_closed_candles mtf_candles (mtf_minute 7) mtf_config None = Ok r
  /\ analyze_multi_timeframe mtf_candles (mtf_minute 7) MTFDirection.BULLISH mtf_events mtf_config mtf_zone mtf_swings None None = Ok res
  /\ MTFAnalysisResult.eligibility res
     = (if MTFAnalysisResult.trade_allowed res then MTFEligibility.LONG_ELIGIBLE else MTFEligibility.NO_TRADE).
Proof.
  destruct (mtf_verdict_exact mtf_raw mtf_config mtf_candles (mtf_minute 7) MTFDirection.BULLISH mtf_events mtf_zone mtf_swings None None
    (mtf_sample_inputs (mtf_minute 7))) as (r & res & H1 & H2 & _ & _ & H3 & _).
  exists r, res. split; [exact H1|]. split; [exact H2|exact H3].
Defined.

Lemma mtf_point_in_time_witness : exists r2, resample_closed_candles mtf_candles (mtf_minute 7) mtf_config None = Ok r2
  /\ resample_closed_candles mtf_candles (mtf_minute 4) mtf_config None
     = Ok (MTFResampleResult.mkMTFResampleResult (mtf_minute 4)
             (map (fun '(tgt, bars) => (tgt, List.filter (fun bar => MTFDerivedBar.close_time bar <=? mtf_minute 4) bars)) (MTFResampleResult.bars r2))
             (List.filter (fun i => MTFDataQualityIssue.bucket_end i <=? mtf_minute 4) (MTFResampleResult.issues r2))).
Proof.
  eexists. split; [vm_compute; reflexivity|].
  eapply (proj2 (mtf_point_in_time mtf_config mtf_candles MTFDirection.BULLISH mtf_events mtf_zone mtf_swings None None
    (mtf_minute 4) (mtf_minute 7) _ mtf_candles_valid mtf_candles_aligned ltac:(vm_compute; congruence) ltac:(vm_compute; reflexivity))).
Defined.
