(* ===== verification/Metrics.v ===== *)
(** Performance metrics of a backtest: [metrics/financial.py],
    [backtesting/metrics.py], and the trades and metrics of
    [schemas/backtest.py].

    Rates, averages and drawdowns are decimals of the default context. The
    [analysis_snapshot] of a trade is not kept: no code modelled here reads it. *)
From Stdlib Require Import ZArith QArith Lia Lqa.
From stdpp Require Import base strings numbers list sets.
From S2P Require Import Prelude Decimal Time Candle Signal Lifecycle Execution.
Local Open Scope Z_scope.

(** ** Schemas *)

Module MarketSymbol.
Inductive MarketSymbol := XAUUSD | BTCUSDT | ETHUSDT.
#[global] Instance MarketSymbol_eqdec : EqDecision MarketSymbol := ltac:(solve_decision).
Definition value (s : MarketSymbol) : string :=
  match s with XAUUSD => "XAUUSD" | BTCUSDT => "BTCUSDT" | ETHUSDT => "ETHUSDT" end.
End MarketSymbol.
Abbreviation MarketSymbol := MarketSymbol.MarketSymbol.

(** The value of a timeframe is its Binance interval. *)
Abbreviation timeframe_value := to_binance_interval (only parsing).

Module SignalResult.
Inductive SignalResult := WIN | LOSS | CANCELLED | AMBIGUOUS.
#[global] Instance SignalResult_eqdec : EqDecision SignalResult := ltac:(solve_decision).
End SignalResult.
Abbreviation SignalResult := SignalResult.SignalResult.

(** [==] of optional decimals. *)
Definition opt_deqb (a b : option dec) : bool :=
  match a, b with
  | Some x, Some y => deqb x y
  | None, None => true
  | _, _ => false
  end.

(** [==] of two entry results: field by field, decimals by value. *)
Definition entry_eqb (a b : EntryExecutionResult) : bool :=
  bool_decide (EntryExecutionResult.execution_policy a = EntryExecutionResult.execution_policy b)
  && bool_decide (EntryExecutionResult.candidate_id a = EntryExecutionResult.candidate_id b)
  && bool_decide (EntryExecutionResult.direction a = EntryExecutionResult.direction b)
  && bool_decide (EntryExecutionResult.executed a = EntryExecutionResult.executed b)
  && bool_decide (EntryExecutionResult.execution_reason a = EntryExecutionResult.execution_reason b)
  && deqb (EntryExecutionResult.requested_entry_price a) (EntryExecutionResult.requested_entry_price b)
  && deqb (EntryExecutionResult.stop_loss a) (EntryExecutionResult.stop_loss b)
  && opt_deqb (EntryExecutionResult.base_entry_execution_price a) (EntryExecutionResult.base_entry_execution_price b)
  && opt_deqb (EntryExecutionResult.executed_entry_price a) (EntryExecutionResult.executed_entry_price b)
  && bool_decide (EntryExecutionResult.entry_gap_detected a = EntryExecutionResult.entry_gap_detected b)
  && deqb (EntryExecutionResult.entry_spread_cost a) (EntryExecutionResult.entry_spread_cost b)
  && deqb (EntryExecutionResult.entry_slippage a) (EntryExecutionResult.entry_slippage b)
  && deqb (EntryExecutionResult.planned_risk a) (EntryExecutionResult.planned_risk b)
  && opt_deqb (EntryExecutionResult.actual_entry_risk a) (EntryExecutionResult.actual_entry_risk b)
  && bool_decide (EntryExecutionResult.executed_at a = EntryExecutionResult.executed_at b)
  && bool_decide (EntryExecutionResult.source_bar_timestamp a = EntryExecutionResult.source_bar_timestamp b).

Definition opt_entry_eqb (a b : option EntryExecutionResult) : bool :=
  match a, b with
  | Some x, Some y => entry_eqb x y
  | None, None => true
  | _, _ => false
  end.

(** [entry is not None and entry.executed] *)
Definition entry_executed (entry : option EntryExecutionResult) : bool :=
  match entry with Some e => EntryExecutionResult.executed e | None => false end.

Module BacktestTrade.
Record BacktestTrade := mkBacktestTrade {
  candidate_id : string;
  symbol : MarketSymbol;
  timeframe : Timeframe;
  direction : SignalDecision;
  entry_zone : EntryZone;
  entry_reference : dec;
  status : SignalLifecycleStatus;
  created_at : datetime;
  activated_at : option datetime;
  closed_at : option datetime;
  result : option SignalResult;
  financial_outcome : option FinancialOutcome;
  entry_execution : option EntryExecutionResult;
  execution : option ExecutionResult;
  gross_r : option dec;
  trading_cost_r : option dec;
  pnl_r : option dec
}.

Definition fields_valid (t : BacktestTrade) : bool :=
  dltb (D 0) (entry_reference t)
  && match trading_cost_r t with Some x => dleb (D 0) x | None => true end.

(** The checks on the entry. *)
Definition entry_consistent (t : BacktestTrade) : bool :=
  Bool.eqb (is_some (activated_at t)) (entry_executed (entry_execution t))
  && match entry_execution t with
     | Some entry =>
         bool_decide (EntryExecutionResult.candidate_id entry = candidate_id t)
         && deqb (EntryExecutionResult.requested_entry_price entry) (entry_reference t)
         && bool_decide (EntryExecutionResult.executed_at entry = activated_at t)
     | None => true
     end.

Definition price_resolved (s : SignalLifecycleStatus) : bool :=
  match s with SignalLifecycleStatus.TP_HIT | SignalLifecycleStatus.SL_HIT => true | _ => false end.

(** [expected_cost_r] *)
Definition cost_r (execution : ExecutionResult) : dec :=
  ddiv prec (dadd prec (ExecutionResult.spread_cost execution) (ExecutionResult.commission_cost execution))
    (ExecutionResult.planned_risk execution).

(** The checks on the exit. *)
Definition exit_consistent (t : BacktestTrade) : bool :=
  Bool.eqb (price_resolved (status t)) (is_some (execution t))
  && match execution t with
     | Some execution =>
         opt_entry_eqb (Some (ExecutionResult.entry_execution execution)) (entry_execution t)
         && bool_decide (financial_outcome t = Some (ExecutionResult.financial_outcome execution))
         && opt_deqb (gross_r t) (Some (ExecutionResult.gross_r execution))
         && opt_deqb (pnl_r t) (Some (ExecutionResult.net_r execution))
         && opt_deqb (trading_cost_r t) (Some (cost_r execution))
     | None =>
         negb (is_some (financial_outcome t) || is_some (gross_r t) || is_some (trading_cost_r t) || is_some (pnl_r t))
     end.

Definition validate_execution_evidence (t : BacktestTrade) : bool :=
  fields_valid t
  && (dleb (EntryZone.low (entry_zone t)) (entry_reference t) && dleb (entry_reference t) (EntryZone.high (entry_zone t)))
  && entry_consistent t && exit_consistent t.
End BacktestTrade.
Abbreviation BacktestTrade := BacktestTrade.BacktestTrade.

(** ** [metrics/financial.py] *)

Module MetricExecutionStatus.
Inductive MetricExecutionStatus := EXECUTED | NOT_EXECUTED | AMBIGUOUS_EXIT | UNKNOWN_LEGACY.
#[global] Instance MetricExecutionStatus_eqdec : EqDecision MetricExecutionStatus := ltac:(solve_decision).
End MetricExecutionStatus.
Abbreviation MetricExecutionStatus := MetricExecutionStatus.MetricExecutionStatus.

Module FinancialMetricObservation.
Record FinancialMetricObservation := mkFinancialMetricObservation {
  stable_id : string;
  lifecycle_status : option SignalLifecycleStatus;
  execution_status : MetricExecutionStatus;
  financial_outcome : option FinancialOutcome;
  gross_pnl : option dec;
  net_pnl : option dec;
  gross_r : option dec;
  net_r : option dec;
  closed_at : option datetime;
  legacy_planned_r : option dec
}.

Definition actual_values (o : FinancialMetricObservation) : list (option dec) :=
  [gross_pnl o; net_pnl o; gross_r o; net_r o].

Definition resolved_check (o : FinancialMetricObservation) (outcome : FinancialOutcome) : pyres unit :=
  _ ← raise_if (negb (forallb is_some (actual_values o)))
        (Exc "ValueError" "resolved financial observation requires complete actual results");
  _ ← raise_if (negb (bool_decide (execution_status o = MetricExecutionStatus.EXECUTED)))
        (Exc "ValueError" "resolved financial observation must be executed");
  match net_pnl o with
  | None => Raise (Exc "AssertionError" "")
  | Some net =>
      _ ← raise_if (negb (bool_decide (classify_financial_outcome net = outcome)))
            (Exc "ValueError" "financial_outcome must match canonical net_pnl");
      raise_if (negb (is_some (closed_at o))) (Exc "ValueError" "resolved financial observation requires closed_at")
  end.

(** [__post_init__] *)
Definition post_init (o : FinancialMetricObservation) : pyres unit :=
  _ ← match financial_outcome o with
      | None => raise_if (existsb is_some (actual_values o))
                  (Exc "ValueError" "unresolved financial observation cannot carry actual results")
      | Some outcome => resolved_check o outcome
      end;
  raise_if (is_some (legacy_planned_r o) && existsb is_some (actual_values o))
    (Exc "ValueError" "legacy planned R cannot be mixed with actual execution").

(** The constructor. *)
Definition make (o : FinancialMetricObservation) : pyres FinancialMetricObservation :=
  _ ← post_init o; Ok o.
End FinancialMetricObservation.
Abbreviation FinancialMetricObservation := FinancialMetricObservation.FinancialMetricObservation.

Module FinancialMetricSummary.
Record FinancialMetricSummary := mkFinancialMetricSummary {
  signal_count : Z;
  executed_trade_count : Z;
  resolved_financial_trade_count : Z;
  win_count : Z;
  loss_count : Z;
  flat_count : Z;
  financial_win_rate : dec;
  financial_loss_rate : dec;
  lifecycle_tp_hits : Z;
  lifecycle_sl_hits : Z;
  price_resolved_trade_count : Z;
  tp_hit_rate : dec;
  sl_hit_rate : dec;
  cancelled_count : Z;
  ambiguous_count : Z;
  average_net_r : option dec;
  median_net_r : option dec;
  total_gross_pnl : dec;
  total_net_pnl : dec;
  profit_factor : option dec;
  maximum_drawdown_net_r : dec;
  legacy_signal_count : Z;
  legacy_planned_r_count : Z;
  legacy_average_planned_r : option dec
}.
End FinancialMetricSummary.
Abbreviation FinancialMetricSummary := FinancialMetricSummary.FinancialMetricSummary.

(** The execution status of a trade. *)
Definition trade_execution_status (t : BacktestTrade) : MetricExecutionStatus :=
  let executed := entry_executed (BacktestTrade.entry_execution t) in
  if is_some (BacktestTrade.execution t) then MetricExecutionStatus.EXECUTED
  else if bool_decide (BacktestTrade.status t = SignalLifecycleStatus.AMBIGUOUS) && executed
  then MetricExecutionStatus.AMBIGUOUS_EXIT
  else if executed then MetricExecutionStatus.EXECUTED
  else MetricExecutionStatus.NOT_EXECUTED.

Definition backtest_financial_observation (trade : BacktestTrade) : pyres FinancialMetricObservation :=
  let execution := BacktestTrade.execution trade in
  FinancialMetricObservation.make (FinancialMetricObservation.mkFinancialMetricObservation
    (BacktestTrade.candidate_id trade) (Some (BacktestTrade.status trade)) (trade_execution_status trade)
    (ExecutionResult.financial_outcome <$> execution) (ExecutionResult.gross_pnl <$> execution)
    (ExecutionResult.net_pnl <$> execution) (ExecutionResult.gross_r <$> execution)
    (ExecutionResult.net_r <$> execution) (BacktestTrade.closed_at trade) None).

(** The columns of a persisted signal that its observation reads. *)
Module PersistedSignal.
Record PersistedSignal := mkPersistedSignal {
  id : string;
  status : option SignalLifecycleStatus;
  closed_at : option datetime;
  pnl_r : option dec;
  execution_evidence_schema_version : option string;
  executed_entry_price : option dec;
  gross_pnl : option dec;
  net_pnl : option dec;
  gross_r : option dec;
  net_r : option dec;
  financial_outcome : option FinancialOutcome
}.
End PersistedSignal.
Abbreviation PersistedSignal := PersistedSignal.PersistedSignal.

Definition persisted_signal_financial_observation (signal : PersistedSignal) : pyres FinancialMetricObservation :=
  match PersistedSignal.execution_evidence_schema_version signal with
  | None =>
      FinancialMetricObservation.make (FinancialMetricObservation.mkFinancialMetricObservation
        (PersistedSignal.id signal) (PersistedSignal.status signal) MetricExecutionStatus.UNKNOWN_LEGACY
        None None None None None (PersistedSignal.closed_at signal) (PersistedSignal.pnl_r signal))
  | Some _ =>
      let has_entry := is_some (PersistedSignal.executed_entry_price signal) in
      let status :=
        if bool_decide (PersistedSignal.status signal = Some SignalLifecycleStatus.AMBIGUOUS) && has_entry
        then MetricExecutionStatus.AMBIGUOUS_EXIT
        else if has_entry then MetricExecutionStatus.EXECUTED else MetricExecutionStatus.NOT_EXECUTED in
      FinancialMetricObservation.make (FinancialMetricObservation.mkFinancialMetricObservation
        (PersistedSignal.id signal) (PersistedSignal.status signal) status
        (PersistedSignal.financial_outcome signal) (PersistedSignal.gross_pnl signal) (PersistedSignal.net_pnl signal)
        (PersistedSignal.gross_r signal) (PersistedSignal.net_r signal) (PersistedSignal.closed_at signal) None)
  end.

(** [sum(p(item) for item in l)] *)
Definition count {A} (p : A -> bool) (l : list A) : Z := Z.of_nat (length (List.filter p l)).

(** [Decimal(a) / Decimal(b) if b else Decimal(0)] *)
Definition rate (a b : Z) : dec := if b =? 0 then D 0 else ddiv prec (D a) (D b).

(** [sum(l, start=Decimal(0)) / Decimal(len(l)) if l else None] *)
Definition average (l : list dec) : option dec :=
  match l with [] => None | _ => Some (ddiv prec (dsum prec l) (D (Z.of_nat (length l)))) end.

(** [statistics.median] of a non-empty list. *)
Definition median (l : list dec) : option dec :=
  let data := sort_by dltb l in
  let n := length data in
  if (n mod 2 =? 1)%nat then data !! (n / 2)%nat
  else match data !! (n / 2 - 1)%nat, data !! (n / 2)%nat with
       | Some a, Some b => Some (ddiv prec (dadd prec a b) (D 2))
       | _, _ => None
       end.

(** [item.financial_outcome is not None] *)
Definition is_resolved (o : FinancialMetricObservation) : bool :=
  is_some (FinancialMetricObservation.financial_outcome o).

Definition has_outcome (f : FinancialOutcome) (o : FinancialMetricObservation) : bool :=
  bool_decide (FinancialMetricObservation.financial_outcome o = Some f).

Definition has_status (s : SignalLifecycleStatus) (o : FinancialMetricObservation) : bool :=
  bool_decide (FinancialMetricObservation.lifecycle_status o = Some s).

Definition is_executed (o : FinancialMetricObservation) : bool :=
  match FinancialMetricObservation.execution_status o with
  | MetricExecutionStatus.EXECUTED | MetricExecutionStatus.AMBIGUOUS_EXIT => true
  | _ => false
  end.

(** The order of the equity curve, [(closed_at, stable_id)]; the constructor of
    a resolved observation demands [closed_at]. *)
Definition closing_order : FinancialMetricObservation -> FinancialMetricObservation -> bool :=
  lex_lt (on_key (fun o => default 0 (FinancialMetricObservation.closed_at o)) Z.ltb)
    (on_key FinancialMetricObservation.stable_id str_lt).

(** The loop of the drawdown: equity, peak and maximum. *)
Definition drawdown_step (state : dec * dec * dec) (net_r : dec) : dec * dec * dec :=
  let '(equity, peak, maximum_drawdown) := state in
  let equity := dadd prec equity net_r in
  let peak := dmax peak equity in
  (equity, peak, dmax maximum_drawdown (dsub prec peak equity)).

Definition maximum_drawdown (ordered : list dec) : dec :=
  snd (foldl drawdown_step (D 0, D 0, D 0) ordered).

Definition profit_factor_of (net_pnl : list dec) : option dec :=
  let positive := dsum prec (List.filter (fun v => dltb (D 0) v) net_pnl) in
  let negative := dabs prec (dsum prec (List.filter (fun v => dltb v (D 0)) net_pnl)) in
  if dltb (D 0) negative then Some (ddiv prec positive negative) else None.

Definition resolved_of (observations : list FinancialMetricObservation) : list FinancialMetricObservation :=
  List.filter is_resolved observations.

(** [typed_net_r], [typed_gross_pnl] and [typed_net_pnl]. *)
Definition typed (value : FinancialMetricObservation -> option dec) (resolved : list FinancialMetricObservation) : list dec :=
  omap value resolved.

(** The summary built once the assertions hold. *)
Definition summary_of (observations : list FinancialMetricObservation) : FinancialMetricSummary :=
  let resolved := resolved_of observations in
  let wins := count (has_outcome FinancialOutcome.PROFIT) resolved in
  let losses := count (has_outcome FinancialOutcome.LOSS) resolved in
  let flats := count (has_outcome FinancialOutcome.FLAT) resolved in
  let tp_hits := count (has_status SignalLifecycleStatus.TP_HIT) observations in
  let sl_hits := count (has_status SignalLifecycleStatus.SL_HIT) observations in
  let net_r := typed FinancialMetricObservation.net_r resolved in
  let gross_pnl := typed FinancialMetricObservation.gross_pnl resolved in
  let net_pnl := typed FinancialMetricObservation.net_pnl resolved in
  let ordered := sort_by closing_order resolved in
  let legacy_values := typed FinancialMetricObservation.legacy_planned_r observations in
  FinancialMetricSummary.mkFinancialMetricSummary
    (Z.of_nat (length observations)) (count is_executed observations) (Z.of_nat (length resolved))
    wins losses flats (rate wins (wins + losses)) (rate losses (wins + losses))
    tp_hits sl_hits (tp_hits + sl_hits) (rate tp_hits (tp_hits + sl_hits)) (rate sl_hits (tp_hits + sl_hits))
    (count (has_status SignalLifecycleStatus.CANCELLED) observations)
    (count (has_status SignalLifecycleStatus.AMBIGUOUS) observations)
    (average net_r) (match net_r with [] => None | _ => median net_r end)
    (dsum prec gross_pnl) (dsum prec net_pnl) (profit_factor_of net_pnl)
    (maximum_drawdown (typed FinancialMetricObservation.net_r ordered))
    (count (fun o => bool_decide (FinancialMetricObservation.execution_status o = MetricExecutionStatus.UNKNOWN_LEGACY))
       observations)
    (Z.of_nat (length legacy_values)) (average legacy_values).

Definition summarize_financial_observations (observations : list FinancialMetricObservation)
    : pyres FinancialMetricSummary :=
  let resolved := resolved_of observations in
  _ ← raise_if (negb (forallb is_some (map FinancialMetricObservation.net_r resolved)
                      && forallb is_some (map FinancialMetricObservation.gross_pnl resolved)
                      && forallb is_some (map FinancialMetricObservation.net_pnl resolved)))
        (Exc "AssertionError" "");
  Ok (summary_of observations).

(** ** [schemas/backtest.py], [backtesting/metrics.py] *)

Module PerformanceMetrics.
Record PerformanceMetrics := mkPerformanceMetrics {
  total_signals : Z;
  activated_signals : Z;
  executed_trades : Z;
  resolved_financial_trades : Z;
  price_resolved_trades : Z;
  wins : Z;
  losses : Z;
  flats : Z;
  win_rate : dec;
  loss_rate : dec;
  lifecycle_tp_hits : Z;
  lifecycle_sl_hits : Z;
  tp_hit_rate : dec;
  sl_hit_rate : dec;
  cancelled : Z;
  ambiguous : Z;
  average_r : option dec;
  median_r : option dec;
  average_net_r : option dec;
  median_net_r : option dec;
  total_gross_pnl : dec;
  total_net_pnl : dec;
  profit_factor : option dec;
  maximum_drawdown : dec
}.

Definition is_rate (x : dec) : bool := dleb (D 0) x && dleb x (D 1).

Definition fields_valid (m : PerformanceMetrics) : bool :=
  forallb (fun n => 0 <=? n)
    [total_signals m; activated_signals m; executed_trades m; resolved_financial_trades m; price_resolved_trades m;
     wins m; losses m; flats m; lifecycle_tp_hits m; lifecycle_sl_hits m; cancelled m; ambiguous m]
  && forallb is_rate [win_rate m; loss_rate m; tp_hit_rate m; sl_hit_rate m]
  && match profit_factor m with Some x => dleb (D 0) x | None => true end
  && dleb (D 0) (maximum_drawdown m).

Definition validate_metric_semantics (m : PerformanceMetrics) : bool :=
  fields_valid m
  && (activated_signals m =? executed_trades m)
  && (executed_trades m <=? total_signals m)
  && (resolved_financial_trades m =? wins m + losses m + flats m)
  && (resolved_financial_trades m <=? executed_trades m)
  && (price_resolved_trades m =? lifecycle_tp_hits m + lifecycle_sl_hits m)
  && (price_resolved_trades m =? resolved_financial_trades m)
  && (deqb (win_rate m) (rate (wins m) (wins m + losses m))
      && deqb (loss_rate m) (rate (losses m) (wins m + losses m)))
  && (deqb (tp_hit_rate m) (rate (lifecycle_tp_hits m) (price_resolved_trades m))
      && deqb (sl_hit_rate m) (rate (lifecycle_sl_hits m) (price_resolved_trades m)))
  && (opt_deqb (average_r m) (average_net_r m) && opt_deqb (median_r m) (median_net_r m)).
End PerformanceMetrics.
Abbreviation PerformanceMetrics := PerformanceMetrics.PerformanceMetrics.

(** [BacktestMetrics] extends the overall metrics. *)
Module BacktestMetrics.
Record BacktestMetrics := mkBacktestMetrics {
  overall : PerformanceMetrics;
  long_performance : PerformanceMetrics;
  short_performance : PerformanceMetrics;
  performance_by_symbol : list (string * PerformanceMetrics);
  performance_by_timeframe : list (string * PerformanceMetrics)
}.
End BacktestMetrics.
Abbreviation BacktestMetrics := BacktestMetrics.BacktestMetrics.

Definition metrics_of_summary (s : FinancialMetricSummary) : PerformanceMetrics :=
  PerformanceMetrics.mkPerformanceMetrics
    (FinancialMetricSummary.signal_count s) (FinancialMetricSummary.executed_trade_count s)
    (FinancialMetricSummary.executed_trade_count s) (FinancialMetricSummary.resolved_financial_trade_count s)
    (FinancialMetricSummary.price_resolved_trade_count s) (FinancialMetricSummary.win_count s)
    (FinancialMetricSummary.loss_count s) (FinancialMetricSummary.flat_count s)
    (FinancialMetricSummary.financial_win_rate s) (FinancialMetricSummary.financial_loss_rate s)
    (FinancialMetricSummary.lifecycle_tp_hits s) (FinancialMetricSummary.lifecycle_sl_hits s)
    (FinancialMetricSummary.tp_hit_rate s) (FinancialMetricSummary.sl_hit_rate s)
    (FinancialMetricSummary.cancelled_count s) (FinancialMetricSummary.ambiguous_count s)
    (FinancialMetricSummary.average_net_r s) (FinancialMetricSummary.median_net_r s)
    (FinancialMetricSummary.average_net_r s) (FinancialMetricSummary.median_net_r s)
    (FinancialMetricSummary.total_gross_pnl s) (FinancialMetricSummary.total_net_pnl s)
    (FinancialMetricSummary.profit_factor s) (FinancialMetricSummary.maximum_drawdown_net_r s).

Definition _slice_metrics (trades : list BacktestTrade) : pyres PerformanceMetrics :=
  observations ← py_map backtest_financial_observation trades;
  summary ← summarize_financial_observations observations;
  validated PerformanceMetrics.validate_metric_semantics (metrics_of_summary summary).

(** [sorted({key(trade) for trade in trades})] *)
Definition sorted_keys (key : BacktestTrade -> string) (trades : list BacktestTrade) : list string :=
  sort_by str_lt (remove_dups (map key trades)).

(** [{k: _slice_metrics(\[trade ... if key(trade) == k\]) for k in keys}] *)
Definition metrics_by (key : BacktestTrade -> string) (trades : list BacktestTrade)
    : pyres (list (string * PerformanceMetrics)) :=
  py_map (fun k =>
    m ← _slice_metrics (List.filter (fun trade => bool_decide (key trade = k)) trades);
    Ok (k, m)) (sorted_keys key trades).

Definition has_direction (d : SignalDecision) (trade : BacktestTrade) : bool :=
  bool_decide (BacktestTrade.direction trade = d).

Definition calculate_backtest_metrics (trades : list BacktestTrade) : pyres BacktestMetrics :=
  overall ← _slice_metrics trades;
  long ← _slice_metrics (List.filter (has_direction SignalDecision.LONG) trades);
  short ← _slice_metrics (List.filter (has_direction SignalDecision.SHORT) trades);
  by_symbol ← metrics_by (fun t => MarketSymbol.value (BacktestTrade.symbol t)) trades;
  by_timeframe ← metrics_by (fun t => timeframe_value (BacktestTrade.timeframe t)) trades;
  validated (fun m => PerformanceMetrics.validate_metric_semantics (BacktestMetrics.overall m))
    (BacktestMetrics.mkBacktestMetrics overall long short by_symbol by_timeframe).
