(* ===== verification/MetricsTheory.v ===== *)
(** Theory of the performance metrics: when they are computed, what they
    count, the drawdown they report, and how the slices add up. *)
From Stdlib Require Import ZArith QArith Lia Lqa Sorting.Sorted Sorting.Permutation.
From stdpp Require Import base strings numbers sorting list sets.
From S2P Require Import Prelude Decimal Time Candle Signal Lifecycle Execution Metrics.
Local Open Scope Z_scope.

(** ** Counting *)

Lemma count_map {A B} (p : B -> bool) (f : A -> B) l : count p (map f l) = count (fun x => p (f x)) l.
Proof.
  unfold count. induction l as [|x l IH]; cbn [map List.filter]; [done|].
  destruct (p (f x)); cbn [length]; lia.
Qed.

Lemma count_cons {A} (p : A -> bool) x l : count p (x :: l) = (if p x then 1 else 0) + count p l.
Proof. unfold count. cbn [List.filter]. destruct (p x); cbn [length]; lia. Qed.

Lemma count_ext {A} (p q : A -> bool) l : (forall x, x ∈ l -> p x = q x) -> count p l = count q l.
Proof.
  induction l as [|x l IH]; intros H; [done|]. rewrite !count_cons, H by constructor.
  rewrite IH; [done|]. intros; apply H. by constructor.
Qed.

Lemma count_le {A} (p q : A -> bool) l : (forall x, x ∈ l -> p x = true -> q x = true) -> count p l <= count q l.
Proof.
  induction l as [|x l IH]; intros H; [done|]. rewrite !count_cons.
  pose proof (H x ltac:(constructor)) as Hx.
  assert (count p l <= count q l) by (apply IH; intros y Hy; apply H; by constructor).
  destruct (p x); [rewrite Hx by done; lia|]. destruct (q x); lia.
Qed.

Lemma count_all {A} (l : list A) : count (fun _ => true) l = Z.of_nat (length l).
Proof. induction l as [|x l IH]; [done|]. rewrite count_cons, IH. cbn [length]. lia. Qed.

Lemma count_filter {A} (p q : A -> bool) l : count p (List.filter q l) = count (fun x => p x && q x) l.
Proof.
  induction l as [|x l IH]; [done|]. cbn [List.filter]. rewrite count_cons.
  destruct (q x); [rewrite count_cons|]; rewrite IH; destruct (p x); cbn; lia.
Qed.

Lemma count_length {A} (p : A -> bool) l : Z.of_nat (length (List.filter p l)) = count p l.
Proof. done. Qed.

Lemma count_add {A} (p q r : A -> bool) l :
  (forall x, x ∈ l -> (if r x then 1 else 0) = (if p x then 1 else 0) + (if q x then 1 else 0)) ->
  count r l = count p l + count q l.
Proof.
  induction l as [|x l IH]; intros H; [done|]. rewrite !count_cons, IH, H; [lia|constructor|].
  intros; apply H. by constructor.
Qed.

Lemma count_nonneg {A} (p : A -> bool) l : 0 <= count p l.
Proof. unfold count. lia. Qed.

(** ** Equality of decimals is reflexive *)

Lemma opt_deqb_refl a : opt_deqb a a = true.
Proof. destruct a; [apply deqb_refl|done]. Qed.

(** ** Trades *)

(** What every trade object satisfies: its own validator and that of its
    execution. *)
Definition trade_ok (t : BacktestTrade) : Prop :=
  BacktestTrade.validate_execution_evidence t = true
  /\ forall e, BacktestTrade.execution t = Some e -> ExecutionResult.validate_arithmetic e = true.

(** A trade with a result but without a closing instant. *)
Definition lacks_close (t : BacktestTrade) : bool :=
  is_some (BacktestTrade.execution t) && negb (is_some (BacktestTrade.closed_at t)).

Definition is_closed (t : BacktestTrade) : bool := is_some (BacktestTrade.execution t).
Definition is_activated (t : BacktestTrade) : bool := is_some (BacktestTrade.activated_at t).
Definition in_status (s : SignalLifecycleStatus) (t : BacktestTrade) : bool := bool_decide (BacktestTrade.status t = s).

(** The net result of a trade satisfies [p]. *)
Definition net_such (p : dec -> bool) (t : BacktestTrade) : bool :=
  match BacktestTrade.execution t with Some e => p (ExecutionResult.net_pnl e) | None => false end.

(** The observation the code derives of a trade. *)
Definition observation_of (t : BacktestTrade) : FinancialMetricObservation :=
  let execution := BacktestTrade.execution t in
  FinancialMetricObservation.mkFinancialMetricObservation
    (BacktestTrade.candidate_id t) (Some (BacktestTrade.status t)) (trade_execution_status t)
    (ExecutionResult.financial_outcome <$> execution) (ExecutionResult.gross_pnl <$> execution)
    (ExecutionResult.net_pnl <$> execution) (ExecutionResult.gross_r <$> execution)
    (ExecutionResult.net_r <$> execution) (BacktestTrade.closed_at t) None.

Definition CLOSED_AT_MISSING : pyexc := Exc "ValueError" "resolved financial observation requires closed_at".

Lemma trade_outcome t e : trade_ok t -> BacktestTrade.execution t = Some e ->
  ExecutionResult.financial_outcome e = classify_financial_outcome (ExecutionResult.net_pnl e).
Proof.
  intros [_ H] He. specialize (H e He). unfold ExecutionResult.validate_arithmetic in H. bool_hyps. assumption.
Qed.

Lemma trade_price_resolved t : trade_ok t -> BacktestTrade.price_resolved (BacktestTrade.status t) = is_closed t.
Proof.
  intros [H _]. unfold BacktestTrade.validate_execution_evidence, BacktestTrade.exit_consistent in H. bool_hyps.
  by apply Bool.eqb_prop.
Qed.

Lemma trade_activated t : trade_ok t -> is_activated t = entry_executed (BacktestTrade.entry_execution t).
Proof.
  intros [H _]. unfold BacktestTrade.validate_execution_evidence, BacktestTrade.entry_consistent in H. bool_hyps.
  by apply Bool.eqb_prop.
Qed.

Lemma entry_eqb_executed a b : entry_eqb a b = true ->
  EntryExecutionResult.executed a = EntryExecutionResult.executed b.
Proof. unfold entry_eqb. intros H. bool_hyps. assumption. Qed.

Lemma result_entry_executed e : ExecutionResult.validate_arithmetic e = true ->
  EntryExecutionResult.executed (ExecutionResult.entry_execution e) = true.
Proof. unfold ExecutionResult.validate_arithmetic, ExecutionResult.preserves_entry. intros H. bool_hyps. assumption. Qed.

Lemma trade_entry_matches t e : trade_ok t -> BacktestTrade.execution t = Some e ->
  opt_entry_eqb (Some (ExecutionResult.entry_execution e)) (BacktestTrade.entry_execution t) = true.
Proof.
  intros [H _] E. unfold BacktestTrade.validate_execution_evidence, BacktestTrade.exit_consistent in H. rewrite E in H.
  bool_hyps. assumption.
Qed.

(** A closed trade was activated: its entry is the executed one of its exit. *)
Lemma trade_closed_activated t : trade_ok t -> is_closed t = true -> is_activated t = true.
Proof.
  intros Hok Hc. rewrite (trade_activated t Hok). unfold is_closed in Hc.
  destruct (BacktestTrade.execution t) as [e|] eqn:E; [|done].
  pose proof (result_entry_executed e (proj2 Hok e E)) as He.
  pose proof (trade_entry_matches t e Hok E) as Hm.
  destruct (BacktestTrade.entry_execution t) as [entry|]; [|done].
  cbn [opt_entry_eqb] in Hm. cbn [entry_executed]. by rewrite <-(entry_eqb_executed _ _ Hm).
Qed.

Lemma observation_total t : trade_ok t ->
  backtest_financial_observation t = if lacks_close t then Raise CLOSED_AT_MISSING else Ok (observation_of t).
Proof.
  intros Hok. pose proof (trade_outcome t) as Ho.
  unfold backtest_financial_observation, FinancialMetricObservation.make, FinancialMetricObservation.post_init, lacks_close.
  destruct (BacktestTrade.execution t) as [e|] eqn:E.
  - specialize (Ho e Hok eq_refl). unfold FinancialMetricObservation.resolved_check.
    unfold observation_of, trade_execution_status. rewrite !E. cbn. rewrite Ho, !bool_decide_true by done. cbn.
    destruct (BacktestTrade.closed_at t); done.
  - unfold observation_of. rewrite !E. done.
Qed.

Lemma py_map_if {A B} (f : A -> pyres B) (b : A -> bool) e (g : A -> B) l :
  (forall x, x ∈ l -> f x = if b x then Raise e else Ok (g x)) ->
  py_map f l = if existsb b l then Raise e else Ok (map g l).
Proof.
  induction l as [|x l IH]; intros H; cbn [py_map existsb map]; [done|].
  rewrite H by constructor. rewrite IH by (intros; apply H; by constructor).
  destruct (b x); [done|]. cbn [orb]. by destruct (existsb b l).
Qed.

(** ** One slice *)

Definition slice_of (trades : list BacktestTrade) : PerformanceMetrics :=
  metrics_of_summary (summary_of (map observation_of trades)).

Lemma resolved_map l : resolved_of (map observation_of l) = map observation_of (List.filter is_closed l).
Proof.
  unfold resolved_of. induction l as [|t l IH]; cbn [map List.filter]; [done|]. rewrite IH.
  unfold is_resolved, is_closed, observation_of at 1. cbn [FinancialMetricObservation.financial_outcome].
  by destruct (BacktestTrade.execution t).
Qed.

(** A column of the closed trades. *)
Definition column (f : ExecutionResult -> dec) (l : list BacktestTrade) : list dec :=
  omap (fun t => f <$> BacktestTrade.execution t) l.

Lemma typed_map (value : FinancialMetricObservation -> option dec) f l :
  (forall t, value (observation_of t) = f <$> BacktestTrade.execution t) ->
  typed value (map observation_of l) = column f l.
Proof. intros H. unfold typed, column. rewrite omap_map. by apply omap_ext_in. Qed.

Lemma column_filter f l : column f (List.filter is_closed l) = column f l.
Proof.
  unfold column. induction l as [|t l IH]; cbn [List.filter omap list_omap]; [done|].
  unfold is_closed at 1. destruct (BacktestTrade.execution t) eqn:E; cbn [is_some omap list_omap]; rewrite ?E; cbn [fmap option_fmap option_map];
    by rewrite <-?IH.
Qed.

Lemma closed_values_some (f : ExecutionResult -> dec) l :
  forallb is_some (map (fun t => f <$> BacktestTrade.execution t) (List.filter is_closed l)) = true.
Proof.
  apply forallb_forall. intros o (t & <- & [_ Ht]%filter_In)%in_map_iff. unfold is_closed in Ht.
  by destruct (BacktestTrade.execution t).
Qed.

Lemma summarize_total l : summarize_financial_observations (map observation_of l) = Ok (summary_of (map observation_of l)).
Proof.
  unfold summarize_financial_observations. rewrite resolved_map, !map_map. cbn.
  by rewrite !closed_values_some.
Qed.

Section slice.
Context (trades : list BacktestTrade).
Context (Hok : forall t, t ∈ trades -> trade_ok t).

(** The sign the outcome stands for. *)
Definition outcome_test (f : FinancialOutcome) (net_pnl : dec) : bool :=
  match f with
  | FinancialOutcome.PROFIT => dltb (D 0) net_pnl
  | FinancialOutcome.LOSS => dltb net_pnl (D 0)
  | FinancialOutcome.FLAT => deqb net_pnl (D 0)
  end.

Lemma classify_test n f : bool_decide (Some (classify_financial_outcome n) = Some f) = outcome_test f n.
Proof using Type.
  unfold classify_financial_outcome, outcome_test.
  destruct (dltb (D 0) n) eqn:E1; destruct (dltb n (D 0)) eqn:E2; destruct (deqb n (D 0)) eqn:E3; try (exfalso; dlra);
    destruct f; done.
Qed.

(** The counts of a slice, on its trades. *)
Lemma slice_outcome f :
  count (has_outcome f) (resolved_of (map observation_of trades)) = count (net_such (outcome_test f)) trades.
Proof.
  rewrite resolved_map, count_map, count_filter. apply count_ext. intros t Ht.
  pose proof (trade_outcome t) as Ho. unfold has_outcome, net_such, is_closed, observation_of.
  cbn [FinancialMetricObservation.financial_outcome].
  destruct (BacktestTrade.execution t) as [e|]; [|done]. cbn [fmap option_fmap option_map is_some].
  by rewrite (Ho e (Hok t Ht) eq_refl), andb_true_r, classify_test.
Qed.

Lemma slice_status s : count (has_status s) (map observation_of trades) = count (in_status s) trades.
Proof using Type.
  rewrite count_map. apply count_ext. intros t _. unfold has_status, in_status. cbn.
  by apply bool_decide_ext; split; [intros [= ->]|intros ->].
Qed.

Lemma slice_executed : count is_executed (map observation_of trades) = count is_activated trades.
Proof.
  rewrite count_map. apply count_ext. intros t Ht. specialize (Hok t Ht).
  unfold is_executed, observation_of. cbn [FinancialMetricObservation.execution_status]. unfold trade_execution_status.
  pose proof (trade_closed_activated t Hok) as Hc. unfold is_closed in Hc. rewrite (trade_activated t Hok) in *.
  destruct (is_some (BacktestTrade.execution t)); [by rewrite Hc|].
  by destruct (entry_executed _), (bool_decide (BacktestTrade.status t = _)).
Qed.

Lemma slice_resolved : Z.of_nat (length (resolved_of (map observation_of trades))) = count is_closed trades.
Proof using Type. by rewrite resolved_map, length_map. Qed.

Lemma outcomes_partition : count is_closed trades
  = count (net_such (outcome_test FinancialOutcome.PROFIT)) trades
    + count (net_such (outcome_test FinancialOutcome.LOSS)) trades
    + count (net_such (outcome_test FinancialOutcome.FLAT)) trades.
Proof using Type.
  clear Hok. induction trades as [|t l IH]; [done|]. rewrite !count_cons. cut (
    (if is_closed t then 1 else 0)
    = (if net_such (outcome_test FinancialOutcome.PROFIT) t then 1 else 0)
      + (if net_such (outcome_test FinancialOutcome.LOSS) t then 1 else 0)
      + (if net_such (outcome_test FinancialOutcome.FLAT) t then 1 else 0)); [lia|].
  unfold is_closed, net_such, outcome_test. destruct (BacktestTrade.execution t) as [e|]; [|done]. cbn [is_some].
  destruct (dltb (D 0) _) eqn:E1; destruct (dltb _ (D 0)) eqn:E2; destruct (deqb _ _) eqn:E3; try done; exfalso; dlra.
Qed.

Lemma statuses_partition : count is_closed trades
  = count (in_status SignalLifecycleStatus.TP_HIT) trades + count (in_status SignalLifecycleStatus.SL_HIT) trades.
Proof.
  apply count_add. intros t Ht. rewrite <-(trade_price_resolved t (Hok t Ht)). unfold in_status.
  by destruct (BacktestTrade.status t).
Qed.

Lemma closed_le_activated : count is_closed trades <= count is_activated trades.
Proof. apply count_le. intros t Ht. apply trade_closed_activated. auto. Qed.
End slice.

(** A rate is a fraction: between zero and one, and the rounded quotient. *)
Lemma rate_is_rate a b : 0 <= a <= b -> PerformanceMetrics.is_rate (rate a b) = true.
Proof.
  intros Hab. unfold PerformanceMetrics.is_rate, rate. destruct (Z.eqb_spec b 0); [done|].
  assert (0 < Qval (D b))%Q as Hb by (rewrite Qval_D; change 0%Q with (inject_Z 0); rewrite <-Zlt_Qlt; lia).
  rewrite andb_true_iff, !dleb_true, !Qval_D. split.
  - apply (ddiv_nonneg (p := prec)); [done|]. rewrite Qval_D. change 0%Q with (inject_Z 0). rewrite <-Zle_Qle. lia.
  - apply (ddiv_le_1 (p := prec)); [done|]. rewrite !Qval_D, <-Zle_Qle. lia.
Qed.

Lemma profit_factor_nonneg l x : profit_factor_of l = Some x -> dleb (D 0) x = true.
Proof.
  unfold profit_factor_of. destruct (dltb (D 0) (dabs _ _)) eqn:E; [|done]. intros [= <-].
  rewrite dltb_true, Qval_D in E. apply dleb_true. rewrite Qval_D.
  apply (ddiv_nonneg (p := prec)); [exact E|]. apply (dsum_nonneg (p := prec)). apply Forall_forall.
  intros v Hv. apply list_elem_of_In, filter_In in Hv as [_ Hv]. apply dltb_true in Hv. rewrite Qval_D0 in Hv. lra.
Qed.

(** ** The drawdown *)

(** The equity after each prefix, from [s] on. *)
Fixpoint equity_curve (s : dec) (l : list dec) : list dec :=
  s :: match l with [] => [] | x :: l' => equity_curve (dadd prec s x) l' end.

(** [d] is the largest drop, as the code computes it, from a point of the curve
    to a later one. *)
Definition largest_drop (curve : list dec) (d : dec) : Prop :=
  (exists i j x y, (i <= j)%nat /\ curve !! i = Some x /\ curve !! j = Some y /\ (Qval d == Qval (dsub prec x y))%Q)
  /\ forall i j x y, (i <= j)%nat -> curve !! i = Some x -> curve !! j = Some y -> (Qval (dsub prec x y) <= Qval d)%Q.

(** The invariant of the loop, whose state has seen the curve [c ++ \[e\]]. *)
Definition drawdown_inv (c : list dec) (state : dec * dec * dec) : Prop :=
  let '(equity, peak, d) := state in
  list.last c = Some equity
  /\ (exists x, x ∈ c /\ (Qval peak == Qval x)%Q) /\ (forall x, x ∈ c -> (Qval x <= Qval peak)%Q)
  /\ largest_drop c d.

Lemma drawdown_step_inv c state x equity peak d : state = (equity, peak, d) ->
  drawdown_inv c state -> drawdown_inv (c ++ [dadd prec equity x]) (drawdown_step state x).
Proof.
  intros -> (Hl & (xp & Hxp & Ep) & Hmax & (i & j & a & b & Hij & Ha & Hb & Ed) & Hd).
  set (e := dadd prec equity x).
  assert (forall y, y ∈ c ++ [e] -> (Qval y <= Qval (dmax peak e))%Q) as Hpk.
  { intros y [Hy|Hy]%elem_of_app; pose proof (dmax_ge peak e) as [H1 H2]; [specialize (Hmax y Hy); lra|].
    apply list_elem_of_singleton in Hy as ->. lra. }
  assert (exists y, y ∈ c ++ [e] /\ (Qval (dmax peak e) == Qval y)%Q) as (y & Hy & Ey).
  { unfold dmax. destruct (dltb peak e); [exists e | exists xp]; rewrite elem_of_app, list_elem_of_singleton; (split; [auto|]); [reflexivity|exact Ep]. }
  unfold drawdown_step. fold e. refine (conj _ (conj _ (conj Hpk (conj _ _)))).
  - by rewrite last_snoc.
  - eauto.
  - apply list_elem_of_lookup in Hy as [iy Hy].
    pose proof (dmax_ge d (dsub prec (dmax peak e) e)) as Hge.
    destruct (dltb d (dsub prec (dmax peak e) e)) eqn:E; unfold dmax at 1; rewrite E.
    + exists iy, (length c), y, e. refine (conj _ (conj Hy (conj (list_lookup_middle c [] e _ eq_refl) _))).
      { apply lookup_lt_Some in Hy. rewrite length_app in Hy. cbn in Hy. lia. }
      apply Qle_antisym; apply (dsub_mono (p := prec)); lra.
    + exists i, j, a, b. refine (conj Hij (conj _ (conj _ Ed))); by apply lookup_app_l_Some.
  - intros k m u v Hkm Hu Hv. pose proof (dmax_ge d (dsub prec (dmax peak e) e)) as [H1 H2].
    apply lookup_app_Some in Hv as [Hv|[Hge Hv]].
    + apply lookup_app_Some in Hu as [Hu|[Hge _]]; [specialize (Hd k m u v Hkm Hu Hv); lra|].
      apply lookup_lt_Some in Hv. lia.
    + apply list_lookup_singleton_Some in Hv as [_ <-].
      eapply Qle_trans; [|exact H2]. apply (dsub_mono (p := prec)); [|lra]. apply Hpk. eauto using list_elem_of_lookup_2.
Qed.

Lemma equity_curve_snoc s l x : equity_curve s (l ++ [x])
  = equity_curve s l ++ [dadd prec (default (D 0) (list.last (equity_curve s l))) x].
Proof.
  revert s; induction l as [|y l IH]; intros s; cbn [equity_curve app]; [done|].
  rewrite IH. f_equal. cbn [app]. f_equal. f_equal. by destruct l.
Qed.

Lemma drawdown_loop l : drawdown_inv (equity_curve (D 0) l) (foldl drawdown_step (D 0, D 0, D 0) l).
Proof.
  induction l as [|x l IH] using rev_ind.
  - cbn. refine (conj eq_refl (conj _ (conj _ (conj _ _)))).
    + exists (D 0). split; [by constructor|done].
    + intros x ->%list_elem_of_singleton. lra.
    + exists 0%nat, 0%nat, (D 0), (D 0). by refine (conj _ (conj _ (conj _ _))).
    + intros i j a b _ [_ <-]%list_lookup_singleton_Some [_ <-]%list_lookup_singleton_Some. by vm_compute.
  - rewrite foldl_app, equity_curve_snoc. cbn [foldl].
    destruct (foldl drawdown_step _ l) as [[equity peak] d] eqn:E. pose proof IH as (Hl & _). rewrite Hl. cbn [default].
    by apply (drawdown_step_inv _ _ x equity peak d).
Qed.

Lemma maximum_drawdown_spec l : largest_drop (equity_curve (D 0) l) (maximum_drawdown l).
Proof.
  unfold maximum_drawdown. pose proof (drawdown_loop l) as H. destruct (foldl _ _ l) as [[equity peak] d].
  by destruct H as (_ & _ & _ & H).
Qed.

Lemma maximum_drawdown_nonneg l : dleb (D 0) (maximum_drawdown l) = true.
Proof.
  apply dleb_true. destruct (maximum_drawdown_spec l) as [_ H].
  pose proof (H 0%nat 0%nat (D 0) (D 0) ltac:(lia)) as H0. rewrite Qval_D0.
  assert (equity_curve (D 0) l !! 0%nat = Some (D 0)) as E by (by destruct l). specialize (H0 E E).
  pose proof (proj2 (dsub_nonneg (p := prec) (D 0) (D 0)) (Qle_refl _)). lra.
Qed.

(** ** Every slice passes its schema *)

Lemma slice_valid trades : (forall t, t ∈ trades -> trade_ok t) ->
  PerformanceMetrics.validate_metric_semantics (slice_of trades) = true.
Proof.
  intros Hok. unfold slice_of, metrics_of_summary, summary_of. cbv zeta.
  rewrite !slice_outcome, !slice_status, slice_executed, slice_resolved by done.
  pose proof (outcomes_partition trades) as HP. pose proof (statuses_partition trades Hok) as HS.
  pose proof (closed_le_activated trades Hok) as HC. pose proof (count_nonneg is_closed trades).
  assert (count is_activated trades <= Z.of_nat (length trades)) as HT
    by (rewrite <-count_all; by apply count_le).
  set (w := count (net_such (outcome_test FinancialOutcome.PROFIT)) trades) in *.
  set (l := count (net_such (outcome_test FinancialOutcome.LOSS)) trades) in *.
  set (f := count (net_such (outcome_test FinancialOutcome.FLAT)) trades) in *.
  set (tp := count (in_status SignalLifecycleStatus.TP_HIT) trades) in *.
  set (sl := count (in_status SignalLifecycleStatus.SL_HIT) trades) in *.
  assert (0 <= w /\ 0 <= l /\ 0 <= f /\ 0 <= tp /\ 0 <= sl) as (? & ? & ? & ? & ?)
    by (repeat split; apply count_nonneg).
  unfold PerformanceMetrics.validate_metric_semantics, PerformanceMetrics.fields_valid. cbn [forallb
    PerformanceMetrics.total_signals PerformanceMetrics.activated_signals PerformanceMetrics.executed_trades
    PerformanceMetrics.resolved_financial_trades PerformanceMetrics.price_resolved_trades PerformanceMetrics.wins
    PerformanceMetrics.losses PerformanceMetrics.flats PerformanceMetrics.win_rate PerformanceMetrics.loss_rate
    PerformanceMetrics.lifecycle_tp_hits PerformanceMetrics.lifecycle_sl_hits PerformanceMetrics.tp_hit_rate
    PerformanceMetrics.sl_hit_rate PerformanceMetrics.cancelled PerformanceMetrics.ambiguous PerformanceMetrics.average_r
    PerformanceMetrics.median_r PerformanceMetrics.average_net_r PerformanceMetrics.median_net_r
    PerformanceMetrics.profit_factor PerformanceMetrics.maximum_drawdown
    FinancialMetricSummary.signal_count FinancialMetricSummary.executed_trade_count
    FinancialMetricSummary.resolved_financial_trade_count FinancialMetricSummary.price_resolved_trade_count
    FinancialMetricSummary.win_count FinancialMetricSummary.loss_count FinancialMetricSummary.flat_count
    FinancialMetricSummary.financial_win_rate FinancialMetricSummary.financial_loss_rate
    FinancialMetricSummary.lifecycle_tp_hits FinancialMetricSummary.lifecycle_sl_hits FinancialMetricSummary.tp_hit_rate
    FinancialMetricSummary.sl_hit_rate FinancialMetricSummary.cancelled_count FinancialMetricSummary.ambiguous_count
    FinancialMetricSummary.average_net_r FinancialMetricSummary.median_net_r FinancialMetricSummary.profit_factor
    FinancialMetricSummary.maximum_drawdown_net_r].
  rewrite length_map, !deqb_refl, !opt_deqb_refl, !rate_is_rate, maximum_drawdown_nonneg by lia.
  assert (match profit_factor_of (typed FinancialMetricObservation.net_pnl (resolved_of (map observation_of trades))) with
          | Some x => dleb (D 0) x | None => true end = true) as ->.
  { destruct (profit_factor_of _) eqn:E; [|done]. by apply profit_factor_nonneg in E. }
  assert (0 <= count (in_status SignalLifecycleStatus.CANCELLED) trades) by apply count_nonneg.
  assert (0 <= count (in_status SignalLifecycleStatus.AMBIGUOUS) trades) by apply count_nonneg.
  repeat match goal with |- context [?a <=? ?b] => rewrite (proj2 (Z.leb_le a b)) by lia end.
  repeat match goal with |- context [?a =? ?b] => rewrite (proj2 (Z.eqb_eq a b)) by lia end. done.
Qed.

Lemma slice_total trades : (forall t, t ∈ trades -> trade_ok t) ->
  _slice_metrics trades = if existsb lacks_close trades then Raise CLOSED_AT_MISSING else Ok (slice_of trades).
Proof.
  intros Hok. unfold _slice_metrics.
  rewrite (py_map_if _ lacks_close CLOSED_AT_MISSING observation_of) by (intros; apply observation_total; auto).
  destruct (existsb lacks_close trades); [done|]. cbn [mbind pyres_bind]. rewrite summarize_total.
  cbn [mbind pyres_bind]. apply validated_ok. split; [by apply slice_valid|done].
Qed.

(** ** The slices together *)

Definition of_key (key : BacktestTrade -> string) (k : string) (trades : list BacktestTrade) : list BacktestTrade :=
  List.filter (fun trade => bool_decide (key trade = k)) trades.

Lemma existsb_filter {A} (p q : A -> bool) l : existsb p l = false -> existsb p (List.filter q l) = false.
Proof.
  intros H. apply not_true_iff_false. intros (x & [Hx _]%filter_In & Hp)%existsb_exists.
  apply not_true_iff_false in H. apply H, existsb_exists. eauto.
Qed.

Lemma filter_ok {P : BacktestTrade -> Prop} q l : (forall t, t ∈ l -> P t) -> forall t, t ∈ List.filter q l -> P t.
Proof. intros H t Ht. apply H. rewrite list_elem_of_In in *. by apply filter_In in Ht as [? _]. Qed.

Lemma metrics_by_total key trades : (forall t, t ∈ trades -> trade_ok t) -> existsb lacks_close trades = false ->
  metrics_by key trades = Ok (map (fun k => (k, slice_of (of_key key k trades))) (sorted_keys key trades)).
Proof.
  intros Hok Hc. unfold metrics_by. apply py_map_total. intros k _.
  rewrite slice_total by (by apply filter_ok). rewrite (existsb_filter lacks_close) by done. reflexivity.
Qed.

Lemma calculate_total trades : (forall t, t ∈ trades -> trade_ok t) ->
  calculate_backtest_metrics trades =
  if existsb lacks_close trades then Raise CLOSED_AT_MISSING
  else Ok (BacktestMetrics.mkBacktestMetrics (slice_of trades)
    (slice_of (List.filter (has_direction SignalDecision.LONG) trades))
    (slice_of (List.filter (has_direction SignalDecision.SHORT) trades))
    (map (fun k => (k, slice_of (of_key (fun t => MarketSymbol.value (BacktestTrade.symbol t)) k trades)))
       (sorted_keys (fun t => MarketSymbol.value (BacktestTrade.symbol t)) trades))
    (map (fun k => (k, slice_of (of_key (fun t => timeframe_value (BacktestTrade.timeframe t)) k trades)))
       (sorted_keys (fun t => timeframe_value (BacktestTrade.timeframe t)) trades))).
Proof.
  intros Hok. unfold calculate_backtest_metrics. rewrite (slice_total trades Hok).
  destruct (existsb lacks_close trades) eqn:Hc; [done|]. cbn [mbind pyres_bind].
  do 2 (rewrite slice_total by (by apply filter_ok); rewrite (existsb_filter lacks_close) by done; cbn [mbind pyres_bind]).
  rewrite !metrics_by_total by done. cbn [mbind pyres_bind]. apply validated_ok. split; [|done]. by apply slice_valid.
Qed.

(** ** What the metrics say *)

(** The overall counters, on the trades. *)
Record counters_exact (trades : list BacktestTrade) (o : PerformanceMetrics) : Prop := {
  ce_total : PerformanceMetrics.total_signals o = Z.of_nat (length trades);
  ce_executed : PerformanceMetrics.executed_trades o = count is_activated trades;
  ce_resolved : PerformanceMetrics.resolved_financial_trades o = count is_closed trades;
  ce_wins : PerformanceMetrics.wins o = count (net_such (fun net => dltb (D 0) net)) trades;
  ce_losses : PerformanceMetrics.losses o = count (net_such (fun net => dltb net (D 0))) trades;
  ce_flats : PerformanceMetrics.flats o = count (net_such (fun net => deqb net (D 0))) trades;
  ce_tp : PerformanceMetrics.lifecycle_tp_hits o = count (in_status SignalLifecycleStatus.TP_HIT) trades;
  ce_sl : PerformanceMetrics.lifecycle_sl_hits o = count (in_status SignalLifecycleStatus.SL_HIT) trades;
  ce_cancelled : PerformanceMetrics.cancelled o = count (in_status SignalLifecycleStatus.CANCELLED) trades;
  ce_ambiguous : PerformanceMetrics.ambiguous o = count (in_status SignalLifecycleStatus.AMBIGUOUS) trades
}.

Lemma slice_counters trades : (forall t, t ∈ trades -> trade_ok t) -> counters_exact trades (slice_of trades).
Proof.
  intros Hok. unfold slice_of, metrics_of_summary, summary_of. cbv zeta.
  rewrite !slice_outcome, !slice_status, slice_executed, slice_resolved, length_map by done.
  by constructor.
Qed.

(** A rate is the rounded quotient, or zero. *)
Definition rate_of (x : dec) (a b : Z) : Prop :=
  (b = 0 /\ (Qval x == 0)%Q) \/ (b <> 0 /\ rounds_to prec (inject_Z a / inject_Z b) (Qval x)).

Lemma rate_exact a b : rate_of (rate a b) a b.
Proof.
  unfold rate_of, rate. destruct (Z.eqb_spec b 0) as [->|Hb]; [left; split; [done|apply Qval_D]|right; split; [done|]].
  rewrite <-(Qval_D a), <-(Qval_D b). apply (ddiv_rounds (p := prec)). rewrite Qval_D. intros E. apply Hb.
  change 0%Q with (inject_Z 0) in E. by apply inject_Z_injective.
Qed.

(** C34. The metrics of a backtest fail only when some closed trade lacks its
    closing instant; otherwise they pass their schema and report the exact
    counts of their trades, and rates that are the rounded quotients of those
    counts. *)
Theorem metrics_exact trades : (forall t, t ∈ trades -> trade_ok t) ->
  match calculate_backtest_metrics trades with
  | Ok m =>
      let o := BacktestMetrics.overall m in
      Forall (fun t => is_closed t = true -> exists at_, BacktestTrade.closed_at t = Some at_) trades
      /\ PerformanceMetrics.validate_metric_semantics o = true /\ counters_exact trades o
      /\ rate_of (PerformanceMetrics.win_rate o) (PerformanceMetrics.wins o)
           (PerformanceMetrics.wins o + PerformanceMetrics.losses o)
      /\ rate_of (PerformanceMetrics.loss_rate o) (PerformanceMetrics.losses o)
           (PerformanceMetrics.wins o + PerformanceMetrics.losses o)
      /\ rate_of (PerformanceMetrics.tp_hit_rate o) (PerformanceMetrics.lifecycle_tp_hits o)
           (PerformanceMetrics.resolved_financial_trades o)
      /\ rate_of (PerformanceMetrics.sl_hit_rate o) (PerformanceMetrics.lifecycle_sl_hits o)
           (PerformanceMetrics.resolved_financial_trades o)
  | Raise e =>
      e = CLOSED_AT_MISSING
      /\ exists t, t ∈ trades /\ is_closed t = true /\ BacktestTrade.closed_at t = None
  end.
Proof.
  intros Hok. rewrite calculate_total by done. destruct (existsb lacks_close trades) eqn:Hc.
  - split; [done|]. apply existsb_exists in Hc as (t & Ht & Hl). exists t. rewrite list_elem_of_In. unfold lacks_close in Hl.
    bool_hyps. split; [done|]. split; [done|]. by destruct (BacktestTrade.closed_at t).
  - cbn [BacktestMetrics.overall]. pose proof (slice_counters trades Hok) as Hce.
    refine (conj _ (conj (slice_valid trades Hok) (conj Hce _))).
    + apply Forall_forall. intros t Ht Hcl. destruct (BacktestTrade.closed_at t) eqn:E; [eauto|exfalso].
      apply not_true_iff_false in Hc. apply Hc, existsb_exists. exists t. rewrite <-list_elem_of_In.
      split; [done|]. unfold lacks_close, is_closed in *. by rewrite Hcl, E.
    + rewrite (ce_resolved _ _ Hce), (statuses_partition trades Hok), <-(ce_tp _ _ Hce), <-(ce_sl _ _ Hce).
      refine (conj _ (conj _ (conj _ _))); apply rate_exact.
Qed.

(** ** The equity curve *)

(** [t] closes no later than [u], ties broken by the identifier. *)
Definition closes_before (t u : BacktestTrade) : Prop :=
  default 0 (BacktestTrade.closed_at t) < default 0 (BacktestTrade.closed_at u)
  \/ default 0 (BacktestTrade.closed_at t) = default 0 (BacktestTrade.closed_at u)
     /\ str_lt (BacktestTrade.candidate_id u) (BacktestTrade.candidate_id t) = false.

Definition trade_order : BacktestTrade -> BacktestTrade -> bool := on_key observation_of closing_order.

Lemma trade_order_false t u : trade_order u t = false -> closes_before t u.
Proof.
  unfold trade_order, on_key, closing_order, lex_lt, on_key, closes_before, observation_of.
  cbn [FinancialMetricObservation.closed_at FinancialMetricObservation.stable_id].
  repeat match goal with |- context [Z.ltb ?a ?b] => destruct (Z.ltb_spec a b) end; try done; intros; (left; lia) || (right; split; [lia|done]).
Qed.

#[local] Instance closing_order_sw : StrictWeak closing_order.
Proof. unfold closing_order. apply lex_lt_sw; apply on_key_sw; typeclasses eauto. Qed.

Lemma insert_by_map {A B} (f : A -> B) lt x l : insert_by lt (f x) (map f l) = map f (insert_by (on_key f lt) x l).
Proof.
  induction l as [|y l IH]; cbn [insert_by map]; [done|]. unfold on_key at 1. destruct (lt (f y) (f x)); [|done].
  cbn [map]. by rewrite IH.
Qed.

Lemma sort_by_map {A B} (f : A -> B) lt l : sort_by lt (map f l) = map f (sort_by (on_key f lt) l).
Proof.
  induction l as [|x l IH]; [done|]. cbn [map]. unfold sort_by in *. cbn [foldr]. rewrite IH. apply insert_by_map.
Qed.

(** The closed trades in the order of their equity curve. *)
Definition by_close (trades : list BacktestTrade) : list BacktestTrade :=
  sort_by trade_order (List.filter is_closed trades).

Lemma slice_drawdown trades :
  PerformanceMetrics.maximum_drawdown (slice_of trades) = maximum_drawdown (column ExecutionResult.net_r (by_close trades)).
Proof.
  unfold slice_of, metrics_of_summary, summary_of.
  cbn [PerformanceMetrics.maximum_drawdown FinancialMetricSummary.maximum_drawdown_net_r].
  rewrite resolved_map, sort_by_map, (typed_map _ ExecutionResult.net_r) by done. done.
Qed.

Lemma by_close_sorted trades : StronglySorted closes_before (by_close trades).
Proof.
  unfold by_close. assert (StrictWeak trade_order) by (apply on_key_sw; typeclasses eauto).
  pose proof (sort_by_ordered trade_order (List.filter is_closed trades)) as H1. unfold ordered in H1.
  induction H1 as [|t l _ IH Ht]; constructor; [done|].
  eapply List.Forall_impl; [|exact Ht]. intros u. apply trade_order_false.
Qed.

(** The reported drawdown is the largest drop of the curve of rounded
    cumulative net results, in closing order: there are two points of the
    curve, the later no earlier than the first, whose rounded difference it
    is, and no other two differ by more. *)
Theorem drawdown_exact trades m : (forall t, t ∈ trades -> trade_ok t) ->
  calculate_backtest_metrics trades = Ok m ->
  exists ordered, Permutation ordered (List.filter is_closed trades) /\ StronglySorted closes_before ordered
    /\ largest_drop (equity_curve (D 0) (column ExecutionResult.net_r ordered))
         (PerformanceMetrics.maximum_drawdown (BacktestMetrics.overall m)).
Proof.
  intros Hok H. rewrite calculate_total in H by done. destruct (existsb _ _); [done|]. injection H as <-.
  cbn [BacktestMetrics.overall]. exists (by_close trades). rewrite slice_drawdown.
  refine (conj _ (conj (by_close_sorted trades) (maximum_drawdown_spec _))).
  symmetry. apply sort_by_Permutation.
Qed.

(** ** The order of the trades does not matter *)

Lemma count_Permutation {A} (p : A -> bool) l k : Permutation l k -> count p l = count p k.
Proof. intros H. unfold count. by rewrite (filter_Permutation p l k H). Qed.

Lemma by_close_Permutation l k : NoDup (map BacktestTrade.candidate_id l) -> Permutation l k -> by_close l = by_close k.
Proof.
  intros Hnd Hp.
  assert (StrictWeak trade_order) by (apply on_key_sw; typeclasses eauto).
  apply (StronglySorted_unique_strong (fun x y => trade_order y x = false)); try apply sort_by_ordered; try typeclasses eauto.
  - unfold by_close. intros t u Ht Hu H1%trade_order_false H2%trade_order_false.
    rewrite elem_of_sort_by, list_elem_of_In in Ht, Hu. apply filter_In in Ht as [Ht _], Hu as [Hu _].
    rewrite <-list_elem_of_In in Ht, Hu. rewrite <-Hp in Hu.
    apply (NoDup_key BacktestTrade.candidate_id l); [done..|]. unfold closes_before in H1, H2.
    apply str_lt_total; destruct H1 as [?|[? ?]], H2 as [?|[? ?]]; lia || done.
  - unfold by_close. rewrite <-!sort_by_Permutation. by apply filter_Permutation.
Qed.

Lemma existsb_Permutation {A} (p : A -> bool) l k : Permutation l k -> existsb p l = existsb p k.
Proof.
  intros H. apply eq_true_iff_eq. rewrite !existsb_exists. setoid_rewrite <-list_elem_of_In. by setoid_rewrite H.
Qed.

(** The counters, as a list of projections. *)
Definition counters : list (PerformanceMetrics -> Z) :=
  [PerformanceMetrics.total_signals; PerformanceMetrics.executed_trades; PerformanceMetrics.resolved_financial_trades;
   PerformanceMetrics.wins; PerformanceMetrics.losses; PerformanceMetrics.flats; PerformanceMetrics.lifecycle_tp_hits;
   PerformanceMetrics.lifecycle_sl_hits; PerformanceMetrics.cancelled; PerformanceMetrics.ambiguous].

(** Each counter counts the trades that pass a test. *)
Lemma counters_are_counts (f : PerformanceMetrics -> Z) : f ∈ counters ->
  exists p, forall l, (forall t, t ∈ l -> trade_ok t) -> f (slice_of l) = count p l.
Proof.
  assert (forall g, (exists p, forall l o, counters_exact l o -> g o = count p l) ->
    exists p, forall l, (forall t, t ∈ l -> trade_ok t) -> g (slice_of l) = count p l) as Hg.
  { intros g [p Hp]. exists p. intros l Hl. by apply Hp, slice_counters. }
  intros Hf. apply Hg. unfold counters in Hf. rewrite !elem_of_cons in Hf.
  destruct Hf as [->|[->|[->|[->|[->|[->|[->|[->|[->|[->|Hf]]]]]]]]]]; [..|by apply elem_of_nil in Hf].
  { exists (fun _ => true). intros l o H. by rewrite (ce_total _ _ H), count_all. }
  all: eexists; intros l o []; eassumption.
Qed.

(** Reordering the trades of a backtest changes no counter, no rate and not the
    drawdown, provided their identifiers differ (rounded sums may change in
    their last digit). *)
Theorem metrics_order_free trades trades' m : (forall t, t ∈ trades -> trade_ok t) ->
  NoDup (map BacktestTrade.candidate_id trades) -> Permutation trades trades' ->
  calculate_backtest_metrics trades = Ok m ->
  exists m', calculate_backtest_metrics trades' = Ok m'
    /\ Forall (fun f => f (BacktestMetrics.overall m') = f (BacktestMetrics.overall m)) counters
    /\ PerformanceMetrics.win_rate (BacktestMetrics.overall m') = PerformanceMetrics.win_rate (BacktestMetrics.overall m)
    /\ PerformanceMetrics.tp_hit_rate (BacktestMetrics.overall m') = PerformanceMetrics.tp_hit_rate (BacktestMetrics.overall m)
    /\ PerformanceMetrics.maximum_drawdown (BacktestMetrics.overall m')
       = PerformanceMetrics.maximum_drawdown (BacktestMetrics.overall m).
Proof.
  intros Hok Hnd Hp H. assert (forall t, t ∈ trades' -> trade_ok t) as Hok' by (intros t; rewrite <-Hp; auto).
  rewrite calculate_total in H by done. rewrite calculate_total by done.
  rewrite <-(existsb_Permutation lacks_close _ _ Hp). destruct (existsb _ _); [done|]. injection H as <-.
  eexists. split; [done|]. cbn [BacktestMetrics.overall].
  assert (Forall (fun f : PerformanceMetrics -> Z => f (slice_of trades') = f (slice_of trades)) counters) as Hc.
  { apply Forall_forall. intros f Hf. destruct (counters_are_counts f Hf) as [p Hcp].
    rewrite !Hcp by done. symmetry. by apply count_Permutation. }
  refine (conj Hc _).
  rewrite !slice_drawdown, (by_close_Permutation _ _ Hnd Hp). split_and!; [| |done];
    unfold slice_of, metrics_of_summary, summary_of; cbv zeta;
    cbn [PerformanceMetrics.win_rate PerformanceMetrics.tp_hit_rate FinancialMetricSummary.financial_win_rate
         FinancialMetricSummary.tp_hit_rate];
    rewrite ?slice_outcome, ?slice_status by done; by rewrite ?(fun p => count_Permutation p _ _ Hp).
Qed.

(** ** The slices add up *)

Definition zsum (l : list Z) : Z := foldr Z.add 0 l.

Lemma zsum_zero {A} (f : A -> Z) ks : (forall k, k ∈ ks -> f k = 0) -> zsum (map f ks) = 0.
Proof.
  induction ks as [|k ks IH]; intros H; [done|]. cbn [map zsum foldr]. fold (zsum (map f ks)).
  rewrite H by constructor. rewrite IH; [done|]. intros; apply H. by constructor.
Qed.

Lemma zsum_add {A} (f g : A -> Z) ks : zsum (map (fun k => f k + g k) ks) = zsum (map f ks) + zsum (map g ks).
Proof.
  induction ks as [|k ks IH]; [done|]. cbn [map zsum foldr].
  fold (zsum (map f ks)) (zsum (map g ks)) (zsum (map (fun k => f k + g k) ks)). lia.
Qed.

Lemma zsum_single {A} `{EqDecision A} (k : A) c ks : NoDup ks -> k ∈ ks ->
  zsum (map (fun k' => if bool_decide (k = k') then c else 0) ks) = c.
Proof.
  induction 1 as [|k' ks Hk' _ IH]; intros Hk; [by apply elem_of_nil in Hk|].
  cbn [map zsum foldr]. fold (zsum (map (fun k' => if bool_decide (k = k') then c else 0) ks)).
  apply elem_of_cons in Hk as [->|Hk].
  - rewrite bool_decide_true by done. rewrite zsum_zero; [lia|]. intros k Hk. rewrite bool_decide_false by congruence. done.
  - rewrite bool_decide_false by congruence. rewrite IH by done. lia.
Qed.

(** Counting key by key counts every trade once. *)
Lemma count_by_key key p ks trades : NoDup ks -> (forall t, t ∈ trades -> key t ∈ ks) ->
  zsum (map (fun k => count p (of_key key k trades)) ks) = count p trades.
Proof.
  intros Hnd. induction trades as [|t l IH]; intros Hks; [by apply zsum_zero|].
  rewrite count_cons, <-IH by (intros; apply Hks; by constructor).
  rewrite <-(zsum_single (key t) (if p t then 1 else 0) ks Hnd) by (apply Hks; constructor).
  rewrite <-zsum_add. f_equal. apply map_ext. intros k. unfold of_key. cbn [List.filter].
  case_bool_decide; [by rewrite count_cons|lia].
Qed.

Lemma sorted_keys_spec key trades :
  NoDup (sorted_keys key trades) /\ StronglySorted (fun a b => str_lt b a = false) (sorted_keys key trades)
  /\ forall k, k ∈ sorted_keys key trades <-> exists t, t ∈ trades /\ key t = k.
Proof.
  unfold sorted_keys. refine (conj _ (conj (sort_by_ordered str_lt _) _)).
  - rewrite <-sort_by_Permutation. apply NoDup_remove_dups.
  - intros k. rewrite elem_of_sort_by, elem_of_remove_dups, list_elem_of_fmap. naive_solver.
Qed.

(** The slices by symbol and by timeframe have one entry per symbol and per
    timeframe that occurs, in order, and every counter of the report is the
    sum over the slices; the two directions cover all trades with one. *)
Theorem metrics_slices_add_up trades m : (forall t, t ∈ trades -> trade_ok t) ->
  calculate_backtest_metrics trades = Ok m ->
  Forall (fun f => zsum (map (fun slice => f (snd slice)) (BacktestMetrics.performance_by_symbol m)) = f (BacktestMetrics.overall m)
      /\ zsum (map (fun slice => f (snd slice)) (BacktestMetrics.performance_by_timeframe m)) = f (BacktestMetrics.overall m)
      /\ (Forall (fun t => BacktestTrade.direction t <> SignalDecision.NO_TRADE) trades ->
          f (BacktestMetrics.long_performance m) + f (BacktestMetrics.short_performance m) = f (BacktestMetrics.overall m)))
    counters
  /\ NoDup (map fst (BacktestMetrics.performance_by_symbol m))
  /\ StronglySorted (fun a b => str_lt b a = false) (map fst (BacktestMetrics.performance_by_symbol m))
  /\ (forall k, k ∈ map fst (BacktestMetrics.performance_by_symbol m)
       <-> exists t, t ∈ trades /\ MarketSymbol.value (BacktestTrade.symbol t) = k).
Proof.
  intros Hok H. rewrite calculate_total in H by done. destruct (existsb _ _); [done|]. injection H as <-.
  cbn [BacktestMetrics.overall BacktestMetrics.performance_by_symbol BacktestMetrics.performance_by_timeframe
       BacktestMetrics.long_performance BacktestMetrics.short_performance].
  rewrite !map_map. cbn [fst snd]. rewrite map_id.
  refine (conj _ (sorted_keys_spec _ trades)). apply Forall_forall. intros f Hf.
  destruct (counters_are_counts f Hf) as [p Hp]. rewrite !Hp by (try done; by apply filter_ok).
  assert (forall key, zsum (map (fun k => f (slice_of (of_key key k trades))) (sorted_keys key trades)) = count p trades) as Hby.
  { intros key. destruct (sorted_keys_spec key trades) as (Hnd & _ & Hks).
    rewrite <-(count_by_key key p (sorted_keys key trades)); [|done|intros t Ht; apply Hks; eauto].
    f_equal. apply map_ext. intros k. by apply Hp, filter_ok. }
  rewrite !map_map. cbn [snd]. refine (conj (Hby _) (conj (Hby _) _)). intros Hd. symmetry. rewrite !count_filter. apply count_add.
  intros t Ht. rewrite Forall_forall in Hd. specialize (Hd t Ht). unfold has_direction.
  by destruct (p t), (BacktestTrade.direction t).
Qed.

(** ** A concrete backtest *)

(** A winning and a losing trade, the entry of [entry_example] filled at 100 with
    its planned stop at 98, and a trade that never filled. *)
Definition example_entry (id : string) : EntryExecutionResult :=
  EntryExecutionResult.mkEntryExecutionResult ExecutionPolicyName.CONSERVATIVE_MARKET_FILL id SignalDecision.LONG true
    EntryExecutionReason.OPEN_INSIDE_ZONE (D 100) (D 98) (Some (D 100)) (Some (D 100)) false (D 0) (D 0) (D 2)
    (Some (D 2)) (Some 0) 0.

Definition example_execution (id : string) (reason : ExecutionExitReason) (exit : Z) (at_ : datetime) : ExecutionResult :=
  let pnl := D (exit - 100) in
  ExecutionResult.mkExecutionResult ExecutionPolicyName.CONSERVATIVE_MARKET_FILL id SignalDecision.LONG (example_entry id)
    reason (D exit) (D exit) (D 100) (D exit) false (D 0) (D 0) (D 0) (D 0) (D 0) pnl pnl (D 2) (D 2)
    (ddiv prec pnl (D 2)) (ddiv prec pnl (D 2)) (classify_financial_outcome pnl) at_ at_.

Definition example_closed (id : string) (symbol : MarketSymbol) (reason : ExecutionExitReason) (exit : Z) (at_ : datetime) : BacktestTrade :=
  let e := example_execution id reason exit at_ in
  BacktestTrade.mkBacktestTrade id symbol Timeframe.ONE_HOUR SignalDecision.LONG
    (EntryZone.mkEntryZone (D 99) (D 101)) (D 100)
    (match reason with ExecutionExitReason.TAKE_PROFIT => SignalLifecycleStatus.TP_HIT | _ => SignalLifecycleStatus.SL_HIT end)
    0 (Some 0) (Some at_) None (Some (ExecutionResult.financial_outcome e)) (Some (example_entry id)) (Some e)
    (Some (ExecutionResult.gross_r e)) (Some (BacktestTrade.cost_r e)) (Some (ExecutionResult.net_r e)).

Definition example_trades : list BacktestTrade :=
  [example_closed "a" MarketSymbol.BTCUSDT ExecutionExitReason.STOP_LOSS 98 30;
   example_closed "b" MarketSymbol.BTCUSDT ExecutionExitReason.TAKE_PROFIT 104 20;
   BacktestTrade.mkBacktestTrade "c" MarketSymbol.XAUUSD Timeframe.ONE_HOUR SignalDecision.SHORT
     (EntryZone.mkEntryZone (D 99) (D 101)) (D 100) SignalLifecycleStatus.CANCELLED 0 None (Some 10)
     (Some SignalResult.CANCELLED) None None None None None None].

Lemma example_trades_ok t : t ∈ example_trades -> trade_ok t.
Proof.
  unfold example_trades. rewrite !elem_of_cons, elem_of_nil. intros [->|[->|[->|[]]]];
    (split; [by vm_compute | intros e [= <-] || intros e E; by vm_compute || discriminate E]).
Qed.

Definition example_metrics : BacktestMetrics :=
  match calculate_backtest_metrics example_trades with
  | Ok m => m
  | Raise _ => BacktestMetrics.mkBacktestMetrics (slice_of []) (slice_of []) (slice_of []) [] []
  end.

Lemma metrics_exact_witness :
  (forall t, t ∈ example_trades -> trade_ok t)
  /\ counters_exact example_trades (BacktestMetrics.overall example_metrics)
  /\ PerformanceMetrics.wins (BacktestMetrics.overall example_metrics) = 1
  /\ PerformanceMetrics.win_rate (BacktestMetrics.overall example_metrics) = Dec 5 (-1).
Proof.
  pose proof (metrics_exact example_trades example_trades_ok) as H.
  split; [exact example_trades_ok|]. unfold example_metrics in *.
  destruct (calculate_backtest_metrics example_trades) as [m|e] eqn:E; [|by vm_compute in E].
  destruct H as (_ & _ & H & _). split; [exact H|].
  revert E. vm_compute. intros [= <-]. by split.
Defined.

Lemma drawdown_exact_witness :
  exists m, calculate_backtest_metrics example_trades = Ok m
    /\ PerformanceMetrics.maximum_drawdown (BacktestMetrics.overall m) = D 1
    /\ exists ordered, StronglySorted closes_before ordered
         /\ largest_drop (equity_curve (D 0) (column ExecutionResult.net_r ordered)) (D 1).
Proof.
  assert (calculate_backtest_metrics example_trades = Ok example_metrics) as E by (by vm_compute).
  assert (PerformanceMetrics.maximum_drawdown (BacktestMetrics.overall example_metrics) = D 1) as Hd by (by vm_compute).
  exists example_metrics. refine (conj E (conj Hd _)).
  destruct (drawdown_exact example_trades example_metrics example_trades_ok E) as (o & _ & Hs & H).
  exists o. rewrite Hd in H. exact (conj Hs H).
Defined.

Lemma metrics_order_free_witness :
  exists m', calculate_backtest_metrics (reverse example_trades) = Ok m'
    /\ PerformanceMetrics.maximum_drawdown (BacktestMetrics.overall m')
       = PerformanceMetrics.maximum_drawdown (BacktestMetrics.overall example_metrics).
Proof.
  destruct (metrics_order_free example_trades (reverse example_trades) example_metrics example_trades_ok)
    as (m' & E & _ & _ & _ & H).
  - apply (bool_decide_unpack (NoDup (map BacktestTrade.candidate_id example_trades))). by vm_compute.
  - symmetry. apply reverse_Permutation.
  - by vm_compute.
  - exists m'. exact (conj E H).
Defined.

Lemma metrics_slices_add_up_witness :
  exists m, calculate_backtest_metrics example_trades = Ok m
    /\ map fst (BacktestMetrics.performance_by_symbol m) = ["BTCUSDT"; "XAUUSD"]
    /\ zsum (map (fun slice => PerformanceMetrics.total_signals (snd slice)) (BacktestMetrics.performance_by_symbol m)) = 3.
Proof.
  assert (calculate_backtest_metrics example_trades = Ok example_metrics) as E by (by vm_compute).
  exists example_metrics. refine (conj E (conj _ _)); [by vm_compute|].
  destruct (metrics_slices_add_up example_trades example_metrics example_trades_ok E) as [H _].
  unfold counters in H. rewrite Forall_cons in H. destruct H as ((H & _) & _).
  etransitivity; [exact H|]. by vm_compute.
Defined.
