(* ===== verification/Runner.v ===== *)
(** The backtest runner: [backtesting/runner.py] with the schemas it exchanges
    with the strategy engine ([schemas/strategy.py]) and its input
    ([schemas/backtest.py]).

    The engine is behind the protocol [DeterministicStrategyEngine], so it is an
    argument here: a state, its configuration, and one [evaluate]. The content
    hashes of the report ([backtesting/identity.py]) are not modelled; the
    effective sources they are computed from are. *)
From Stdlib Require Import ZArith QArith Lia Lqa.
From stdpp Require Import base strings numbers pretty list sets.
From S2P Require Import Prelude Decimal Time Candle Signal Lifecycle Execution Metrics Resampling.
Local Open Scope Z_scope.

Definition BacktestInputError (msg : string) : pyexc := Exc "BacktestInputError" msg.

(** ** Inputs *)

Definition SeriesKey : Type := MarketSymbol * Timeframe.

Module HistoricalCandleSeries.
Record HistoricalCandleSeries := mkHistoricalCandleSeries {
  symbol : MarketSymbol;
  timeframe : Timeframe;
  candles : list Candle
}.
Definition key (s : HistoricalCandleSeries) : SeriesKey := (symbol s, timeframe s).
End HistoricalCandleSeries.
Abbreviation HistoricalCandleSeries := HistoricalCandleSeries.HistoricalCandleSeries.

(** [HistoricalOHLCInput] is its [series]. *)
Definition require_unique_series (series : list HistoricalCandleSeries) : bool :=
  negb (bool_decide (series = []) )
  && forallb (fun s => negb (length (HistoricalCandleSeries.candles s) =? 0)%nat) series
  && bool_decide (NoDup (map HistoricalCandleSeries.key series)).

Module BacktestConfig.
Record BacktestConfig := mkBacktestConfig {
  evaluation_timeframe : Timeframe;
  required_timeframes : list Timeframe;
  same_candle_policy : SameCandlePolicy
}.
Definition validate_timeframes (c : BacktestConfig) : bool :=
  negb (bool_decide (required_timeframes c = [])) && bool_decide (NoDup (required_timeframes c))
  && bool_decide (evaluation_timeframe c ∈ required_timeframes c).
End BacktestConfig.
Abbreviation BacktestConfig := BacktestConfig.BacktestConfig.

(** ** The strategy protocol *)

Module StrategyIdentity.
Record StrategyIdentity := mkStrategyIdentity {
  strategy_version : string;
  config_hash : string;
  algorithm_build_hash : string
}.
#[global] Instance StrategyIdentity_eqdec : EqDecision StrategyIdentity := ltac:(solve_decision).
End StrategyIdentity.
Abbreviation StrategyIdentity := StrategyIdentity.StrategyIdentity.

#[global] Instance StructuralInvalidation_eqdec : EqDecision StructuralInvalidation := ltac:(solve_decision).

Module StrategyEvaluationContext.
Record StrategyEvaluationContext := mkStrategyEvaluationContext {
  symbol : MarketSymbol;
  as_of : datetime;
  candles_by_timeframe : list (Timeframe * list Candle)
}.
Definition prevent_future_or_unsorted_candles (c : StrategyEvaluationContext) : bool :=
  forallb (fun '(timeframe, candles) =>
      forallb (fun candle => negb (as_of c <? Candle.timestamp candle + timeframe_duration timeframe)) candles
      && forallb (fun '(previous, current) => negb (Candle.timestamp current <=? Candle.timestamp previous))
           (pairwise candles))
    (candles_by_timeframe c).
End StrategyEvaluationContext.
Abbreviation StrategyEvaluationContext := StrategyEvaluationContext.StrategyEvaluationContext.

(** The snapshot and the metadata a candidate carries: the runner compares them
    and copies the snapshot to the trade. *)
Class CandidateSnapshot (T : Type) := {
  snapshot_captured_at : T -> datetime;
  snapshot_eqb : T -> T -> bool
}.

Module DeterministicSignalCandidate.
Record DeterministicSignalCandidate {T : Type} := mkDeterministicSignalCandidate {
  candidate_id : string;
  symbol : MarketSymbol;
  timeframe : Timeframe;
  direction : SignalDecision;
  entry_zone : EntryZone;
  entry_reference : dec;
  take_profit : dec;
  stop_loss : dec;
  risk_reward : dec;
  algorithm_score : Z;
  created_at : datetime;
  analysis_snapshot : T;
  strategy_identity : StrategyIdentity
}.
#[global] Arguments DeterministicSignalCandidate : clear implicits.

(** Field constraints and [validate_candidate]; the risk and the reward are
    rounded differences. *)
Definition validate_candidate `{CandidateSnapshot T} (c : DeterministicSignalCandidate T) : bool :=
  let low := EntryZone.low (entry_zone c) in
  let high := EntryZone.high (entry_zone c) in
  let is_long := bool_decide (direction c = SignalDecision.LONG) in
  let risk := if is_long then dsub prec (entry_reference c) (stop_loss c) else dsub prec (stop_loss c) (entry_reference c) in
  let reward := if is_long then dsub prec (take_profit c) (entry_reference c) else dsub prec (entry_reference c) (take_profit c) in
  let ordered :=
    if is_long then dltb (stop_loss c) low && dleb low high && dltb high (take_profit c)
    else dltb (take_profit c) low && dleb low high && dltb high (stop_loss c) in
  nonempty (candidate_id c) && EntryZone.validate_bounds (entry_zone c)
  && dltb (D 0) (entry_reference c) && dltb (D 0) (take_profit c) && dltb (D 0) (stop_loss c) && dltb (D 0) (risk_reward c)
  && negb (bool_decide (direction c = SignalDecision.NO_TRADE))
  && (dleb low (entry_reference c) && dleb (entry_reference c) high)
  && (snapshot_captured_at (analysis_snapshot c) =? created_at c)
  && ordered && dltb (D 0) risk && dltb (D 0) reward
  && deqb (risk_reward c) (ddiv prec reward risk).

(** [==] of two candidates. *)
Definition eqb `{CandidateSnapshot T} (a b : DeterministicSignalCandidate T) : bool :=
  bool_decide (candidate_id a = candidate_id b) && bool_decide (symbol a = symbol b)
  && bool_decide (timeframe a = timeframe b) && bool_decide (direction a = direction b)
  && deqb (EntryZone.low (entry_zone a)) (EntryZone.low (entry_zone b))
  && deqb (EntryZone.high (entry_zone a)) (EntryZone.high (entry_zone b))
  && deqb (entry_reference a) (entry_reference b) && deqb (take_profit a) (take_profit b)
  && deqb (stop_loss a) (stop_loss b) && deqb (risk_reward a) (risk_reward b)
  && (algorithm_score a =? algorithm_score b) && (created_at a =? created_at b)
  && snapshot_eqb (analysis_snapshot a) (analysis_snapshot b)
  && bool_decide (strategy_identity a = strategy_identity b).
End DeterministicSignalCandidate.
Abbreviation DeterministicSignalCandidate := DeterministicSignalCandidate.DeterministicSignalCandidate.

Module StrategySignalInvalidation.
Record StrategySignalInvalidation := mkStrategySignalInvalidation {
  candidate_id : string;
  event : StructuralInvalidation
}.
End StrategySignalInvalidation.
Abbreviation StrategySignalInvalidation := StrategySignalInvalidation.StrategySignalInvalidation.

(** What the checks read of [DeterministicStrategyEvaluation]. *)
Module StrategyEvaluation.
Record StrategyEvaluation := mkStrategyEvaluation {
  as_of : datetime;
  strategy_identity : StrategyIdentity;
  final_deterministic_decision : SignalDecision
}.
End StrategyEvaluation.
Abbreviation StrategyEvaluation := StrategyEvaluation.StrategyEvaluation.

Module StrategyEvaluationResult.
Record StrategyEvaluationResult {T : Type} := mkStrategyEvaluationResult {
  evaluated_at : datetime;
  candidates : list (DeterministicSignalCandidate T);
  invalidations : list StrategySignalInvalidation;
  evaluation : option StrategyEvaluation
}.
#[global] Arguments StrategyEvaluationResult : clear implicits.

Definition validate_unique_point_in_time_outputs {T} (r : StrategyEvaluationResult T) : bool :=
  bool_decide (NoDup (map DeterministicSignalCandidate.candidate_id (candidates r)))
  && bool_decide (NoDup (map StrategySignalInvalidation.candidate_id (invalidations r)))
  && forallb (fun candidate => negb (evaluated_at r <? DeterministicSignalCandidate.created_at candidate)) (candidates r)
  && forallb (fun item => negb (evaluated_at r <? StructuralInvalidation.confirmed_at (StrategySignalInvalidation.event item)))
       (invalidations r)
  && match evaluation r with
     | Some e =>
         (StrategyEvaluation.as_of e =? evaluated_at r)
         && bool_decide (StrategyEvaluation.final_deterministic_decision e
              = match candidates r with [c] => DeterministicSignalCandidate.direction c | _ => SignalDecision.NO_TRADE end)
     | None => true
     end.
End StrategyEvaluationResult.
Abbreviation StrategyEvaluationResult := StrategyEvaluationResult.StrategyEvaluationResult.

(** [DeterministicStrategyEngine]; [configured_identity] is what
    [build_strategy_identity] computes of its configuration. The state is
    whatever the engine keeps between evaluations. *)
Module StrategyEngine.
Record StrategyEngine {T State : Type} := mkStrategyEngine {
  strategy_identity : StrategyIdentity;
  configured_identity : StrategyIdentity;
  execution : ExecutionConfig;
  evaluate : State -> StrategyEvaluationContext -> pyres (StrategyEvaluationResult T * State)
}.
#[global] Arguments StrategyEngine : clear implicits.
End StrategyEngine.
Abbreviation StrategyEngine := StrategyEngine.StrategyEngine.

(** ** The series *)

Definition SeriesMap : Type := list (SeriesKey * list Candle).

(** [mapping\[key\]] *)
Definition assoc {K A} `{EqDecision K} (key : K) (m : list (K * A)) : option A :=
  snd <$> List.find (fun entry => bool_decide (fst entry = key)) m.

Definition series_get (series_map : SeriesMap) (key : SeriesKey) : pyres (list Candle) :=
  match assoc key series_map with
  | Some candles => Ok candles
  | None => Raise (Exc "KeyError" "")
  end.

(** [item.timestamp + duration <= cutoff] *)
Definition closed_by (timeframe : Timeframe) (cutoff : datetime) (candle : Candle) : bool :=
  Candle.timestamp candle + timeframe_duration timeframe <=? cutoff.

(** [_IndexedCandleSeries]: [from_candles] and [closed]. *)
Module _IndexedCandleSeries.
Record _IndexedCandleSeries := mk_IndexedCandleSeries {
  candles : list Candle;
  close_times : list datetime
}.
Definition from_candles (candles : list Candle) (timeframe : Timeframe) : _IndexedCandleSeries :=
  mk_IndexedCandleSeries candles (map (fun candle => Candle.timestamp candle + timeframe_duration timeframe) candles).
Definition closed (s : _IndexedCandleSeries) (cutoff : datetime) : list Candle :=
  take (bisect (fun t => negb (cutoff <? t)) (close_times s) 0 (length (close_times s))) (candles s).
End _IndexedCandleSeries.
Abbreviation _IndexedCandleSeries := _IndexedCandleSeries._IndexedCandleSeries.

(** The candles of a series visible at [as_of], in the two modes. *)
Definition visible_candles (optimized : bool) (timeframe : Timeframe) (candles : list Candle) (as_of : datetime) : list Candle :=
  if optimized then _IndexedCandleSeries.closed (_IndexedCandleSeries.from_candles candles timeframe) as_of
  else List.filter (closed_by timeframe as_of) candles.

(** *** [_validate_external_series] *)

Definition field_mismatch (provided expected : Candle) : option string :=
  if negb (deqb (Candle.open provided) (Candle.open expected)) then Some "open"
  else if negb (deqb (Candle.high provided) (Candle.high expected)) then Some "high"
  else if negb (deqb (Candle.low provided) (Candle.low expected)) then Some "low"
  else if negb (deqb (Candle.close provided) (Candle.close expected)) then Some "close"
  else if negb (deqb (Candle.volume provided) (Candle.volume expected)) then Some "volume"
  else None.

Definition _validate_external_series (symbol : MarketSymbol) (timeframe : Timeframe) (external canonical : list Candle) : pyres unit :=
  let where_ := MarketSymbol.value symbol +:+ " external " +:+ timeframe_value timeframe in
  _ ← raise_if (negb (length external =? length canonical)%nat)
        (BacktestInputError (where_ +:+ " candle count does not match canonical resampling"));
  py_for (fun '(index, (provided, expected)) =>
    _ ← raise_if (negb (Candle.timestamp provided =? Candle.timestamp expected))
          (BacktestInputError (where_ +:+ " timestamp mismatch at index " +:+ pretty (Z.of_nat index)));
    match field_mismatch provided expected with
    | Some field_name =>
        Raise (BacktestInputError (where_ +:+ " " +:+ field_name +:+ " mismatch at " +:+ isoformat (Candle.timestamp provided)))
    | None => Ok tt
    end) (enumerate (zip external canonical)).

(** *** [_validate_and_index] *)

Definition supplied (historical : list HistoricalCandleSeries) (key : SeriesKey) : option (list Candle) :=
  assoc key (map (fun item => (HistoricalCandleSeries.key item, HistoricalCandleSeries.candles item)) historical).

(** [min(config.required_timeframes, key=timeframe_duration)] *)
Definition canonical_timeframe_of (config : BacktestConfig) : pyres Timeframe :=
  match py_min (on_key timeframe_duration Z.ltb) (BacktestConfig.required_timeframes config) with
  | Some timeframe => Ok timeframe
  | None => Raise (Exc "ValueError" "min() iterable argument is empty")
  end.

(** The symbols of the input; the order of a set matters only for which error
    of several is raised. *)
Definition input_symbols (historical : list HistoricalCandleSeries) : list MarketSymbol :=
  remove_dups (map HistoricalCandleSeries.symbol historical).

Definition validate_history_spacing (item : HistoricalCandleSeries) : pyres unit :=
  py_for (fun '(previous, current) =>
    let delta := Candle.timestamp current - Candle.timestamp previous in
    _ ← raise_if (delta <=? 0) (BacktestInputError "historical candles must have unique ascending timestamps");
    raise_if (negb (delta =? timeframe_duration (HistoricalCandleSeries.timeframe item)))
      (BacktestInputError (MarketSymbol.value (HistoricalCandleSeries.symbol item) +:+ " "
        +:+ timeframe_value (HistoricalCandleSeries.timeframe item) +:+ " contains a candle gap")))
    (pairwise (HistoricalCandleSeries.candles item)).

(** [except CanonicalResamplingError as exc: raise BacktestInputError(...)] *)
Definition as_input_error {A} (symbol : MarketSymbol) (m : pyres A) : pyres A :=
  match m with
  | Raise (Exc cls msg) =>
      if String.eqb cls "CanonicalResamplingError"
      then Raise (BacktestInputError (MarketSymbol.value symbol +:+ " canonical resampling failed: " +:+ msg))
      else m
  | Ok _ => m
  end.

(** One series of one symbol, derived from its canonical source. *)
Definition derive_series (historical : list HistoricalCandleSeries) (canonical_timeframe : Timeframe)
    (symbol : MarketSymbol) (source : list Candle) (cutoff : datetime) (timeframe : Timeframe)
    : pyres (SeriesKey * list Candle) :=
  derived ← as_input_error symbol (resample_canonical_candles source canonical_timeframe timeframe cutoff);
  _ ← match supplied historical (symbol, timeframe) with
      | Some external =>
          if bool_decide (timeframe = canonical_timeframe) then Ok tt
          else _validate_external_series symbol timeframe external derived
      | None => Ok tt
      end;
  Ok ((symbol, timeframe), derived).

Definition derive_symbol (historical : list HistoricalCandleSeries) (config : BacktestConfig)
    (canonical_timeframe : Timeframe) (symbol : MarketSymbol) : pyres SeriesMap :=
  match supplied historical (symbol, canonical_timeframe) with
  | None => Raise (Exc "KeyError" "")
  | Some source =>
      match list.last source with
      | None => Raise (Exc "IndexError" "tuple index out of range")
      | Some final =>
          let cutoff := Candle.timestamp final + timeframe_duration canonical_timeframe in
          py_map (derive_series historical canonical_timeframe symbol source cutoff)
            (BacktestConfig.required_timeframes config)
      end
  end.

Definition _validate_and_index (historical : list HistoricalCandleSeries) (config : BacktestConfig) : pyres SeriesMap :=
  canonical_timeframe ← canonical_timeframe_of config;
  _ ← py_for (fun symbol =>
        raise_if (negb (is_some (supplied historical (symbol, canonical_timeframe))))
          (BacktestInputError (MarketSymbol.value symbol +:+ " is missing canonical "
            +:+ timeframe_value canonical_timeframe +:+ " source data"))) (input_symbols historical);
  _ ← py_for validate_history_spacing historical;
  mconcat ← py_map (derive_symbol historical config canonical_timeframe) (input_symbols historical);
  Ok (concat mconcat).

(** *** [_evaluation_events] and [_effective_canonical_sources] *)

Definition Event : Type := datetime * MarketSymbol.

Definition event_order : Event -> Event -> bool :=
  lex_lt (on_key fst Z.ltb) (on_key (fun event => MarketSymbol.value (snd event)) str_lt).

Definition raw_events (series_map : SeriesMap) (evaluation_timeframe : Timeframe) : list Event :=
  flat_map (fun '((symbol, timeframe), candles) =>
      if bool_decide (timeframe = evaluation_timeframe)
      then map (fun candle => (Candle.timestamp candle + timeframe_duration evaluation_timeframe, symbol)) candles
      else [])
    series_map.

Definition _evaluation_events (series_map : SeriesMap) (evaluation_timeframe : Timeframe) : pyres (list Event) :=
  let ordered := sort_by event_order (raw_events series_map evaluation_timeframe) in
  _ ← raise_if (bool_decide (ordered = []))
        (BacktestInputError "canonical source produced no closed evaluation candles");
  Ok ordered.

(** The last event of a symbol. *)
Definition last_evaluation (events : list Event) (symbol : MarketSymbol) : option datetime :=
  fst <$> list.last (List.filter (fun event => bool_decide (snd event = symbol)) events).

Definition _effective_canonical_sources (series_map : SeriesMap) (canonical_timeframe : Timeframe) (events : list Event)
    : pyres (list (MarketSymbol * list Candle)) :=
  let sources := List.filter (fun entry => bool_decide (snd (fst entry) = canonical_timeframe)) series_map in
  let missing := List.filter (fun symbol => negb (is_some (last_evaluation events symbol))) (map (fun e => fst (fst e)) sources) in
  _ ← raise_if (negb (bool_decide (missing = [])
                      && forallb (fun event => bool_decide (snd event ∈ map (fun e => fst (fst e)) sources)) events))
        (BacktestInputError ("canonical source produced no evaluation event for: "
          +:+ String.concat ", " (sort_by str_lt (map MarketSymbol.value missing))));
  Ok (map (fun '((symbol, _), candles) =>
        (symbol, List.filter (closed_by canonical_timeframe (default 0 (last_evaluation events symbol))) candles)) sources).

(** ** The signals of a run *)

Module _RuntimeSignal.
Record _RuntimeSignal {T : Type} := mk_RuntimeSignal {
  candidate : DeterministicSignalCandidate T;
  invalidation : option StructuralInvalidation;
  lifecycle : option SignalLifecycleResult;
  entry_execution : option EntryExecutionResult;
  execution : option ExecutionResult;
  execution_evaluated : bool
}.
#[global] Arguments _RuntimeSignal : clear implicits.
Definition fresh {T} (candidate : DeterministicSignalCandidate T) : _RuntimeSignal T :=
  mk_RuntimeSignal _ candidate None None None None false.
Definition with_invalidation {T} (r : _RuntimeSignal T) (event : StructuralInvalidation) : _RuntimeSignal T :=
  mk_RuntimeSignal _ (candidate r) (Some event) (lifecycle r) (entry_execution r) (execution r) (execution_evaluated r).
End _RuntimeSignal.
Abbreviation _RuntimeSignal := _RuntimeSignal._RuntimeSignal.

Definition RuntimeKey : Type := MarketSymbol * string.

(** The dictionary [runtimes], in insertion order. *)
Definition Runtimes (T : Type) : Type := list (RuntimeKey * _RuntimeSignal T).

Definition runtime_set {T} (key : RuntimeKey) (runtime : _RuntimeSignal T) (runtimes : Runtimes T) : Runtimes T :=
  map (fun entry => if bool_decide (fst entry = key) then (key, runtime) else entry) runtimes.

Definition _lifecycle_candidate {T} (candidate : DeterministicSignalCandidate T) : pyres SignalLifecycleCandidate :=
  validated SignalLifecycleCandidate.validate_trade_levels
    (SignalLifecycleCandidate.mkSignalLifecycleCandidate
      (DeterministicSignalCandidate.candidate_id candidate) (DeterministicSignalCandidate.direction candidate)
      (DeterministicSignalCandidate.entry_zone candidate) (DeterministicSignalCandidate.entry_reference candidate)
      (DeterministicSignalCandidate.take_profit candidate) (DeterministicSignalCandidate.stop_loss candidate)
      (DeterministicSignalCandidate.created_at candidate)).

(** *** The replay with the capturing callback *)

Section capture.
Context (signal : SignalLifecycleCandidate) (timeframe : Timeframe) (config : SignalLifecycleConfig).
Context (execution_config : ExecutionConfig) (invalidation : option StructuralInvalidation).

(** [policy_resolver(signal, bar, previous_bar, bar_close)] *)
Definition policy_result (bar : Candle) (previous_bar : option Candle) (bar_close : datetime) : pyres EntryExecutionResult :=
  request ← validated EntryExecutionRequest.validate_entry_levels (entry_request signal bar previous_bar bar_close);
  execute_entry_candle request execution_config.

(** What one iteration of the replay leaves in [captured_entry]: the callback
    runs for a bar that is not skipped while the signal waits. *)
Definition capture_step (previous_bar : option Candle) (bar : Candle) (st : LifecycleState)
    (captured_entry : option EntryExecutionResult) : pyres (option EntryExecutionResult) :=
  if Candle.timestamp bar <? SignalLifecycleCandidate.created_at signal then Ok captured_entry
  else
    match LifecycleState.status st with
    | SignalLifecycleStatus.WAITING =>
        resolved ← policy_result bar previous_bar (Candle.timestamp bar + timeframe_duration timeframe);
        Ok (if EntryExecutionResult.executed resolved then Some resolved else captured_entry)
    | _ => Ok captured_entry
    end.

(** The loop of the lifecycle replay with the variable its callback assigns. *)
Fixpoint replay_capturing (previous_bar : option Candle) (bars : list Candle) (st : LifecycleState)
    (captured_entry : option EntryExecutionResult) : pyres (LifecycleState * option EntryExecutionResult) :=
  match bars with
  | [] => Ok (st, captured_entry)
  | bar :: rest =>
      if TERMINAL_STATUSES (LifecycleState.status st) then Ok (st, captured_entry)
      else
        captured' ← capture_step previous_bar bar st captured_entry;
        st' ← bar_step signal timeframe config (build_entry_execution_resolver execution_config) invalidation previous_bar bar st;
        replay_capturing (Some bar) rest st' captured'
  end.

Definition replay_with_capture (candles : list Candle) : pyres (SignalLifecycleResult * option EntryExecutionResult) :=
  _ ← Lifecycle_validate_inputs signal candles timeframe invalidation;
  init ← replay_init signal invalidation;
  result ← replay_capturing None candles init None;
  let '(st, captured_entry) := result in
  lifecycle ← validated SignalLifecycleResult.validate_status_timestamps
    (SignalLifecycleResult.mkSignalLifecycleResult (SignalLifecycleCandidate.signal_id signal)
      (LifecycleState.status st) (SignalLifecycleCandidate.created_at signal) (LifecycleState.activated_at st)
      (LifecycleState.terminal_at st) (LifecycleState.last_evaluated_at st) (LifecycleState.events st));
  Ok (lifecycle, captured_entry).
End capture.

Definition _evaluate_execution {T} (candidate : DeterministicSignalCandidate T) (lifecycle : SignalLifecycleResult)
    (visible : list Candle) (config : ExecutionConfig) (entry_execution : option EntryExecutionResult)
    : pyres (option ExecutionResult) :=
  if bool_decide (SignalLifecycleResult.status lifecycle = SignalLifecycleStatus.CANCELLED) then Ok None
  else
    match entry_execution with
    | None => Ok None
    | Some entry =>
        match list.last (SignalLifecycleResult.events lifecycle) with
        | None => Raise (Exc "IndexError" "tuple index out of range")
        | Some terminal_event =>
            match SignalLifecycleEvent.bar_timestamp terminal_event, SignalLifecycleResult.terminal_at lifecycle with
            | Some bar_timestamp, Some terminal_at =>
                match List.find (fun item => Candle.timestamp item =? bar_timestamp) visible with
                | None => Raise (BacktestInputError "terminal execution candle is not point-in-time visible")
                | Some candle =>
                    request ← validated ExecutionRequest.validate_request
                      (ExecutionRequest.mkExecutionRequest (DeterministicSignalCandidate.candidate_id candidate)
                        (DeterministicSignalCandidate.direction candidate) entry
                        (DeterministicSignalCandidate.stop_loss candidate)
                        (DeterministicSignalCandidate.take_profit candidate) candle
                        (EntryExecutionResult.source_bar_timestamp entry <? Candle.timestamp candle)
                        (SignalLifecycleResult.status lifecycle) terminal_at);
                    execute_terminal_candle request config
                end
            | _, _ => Raise (BacktestInputError "price terminal lifecycle lacks its source candle")
            end
        end
    end.

(** The assignment of [runtime.entry_execution]. *)
Definition merge_entry (current captured : option EntryExecutionResult) : pyres (option EntryExecutionResult) :=
  match captured, current with
  | None, _ => Ok current
  | Some entry, Some known =>
      if entry_eqb known entry then Ok (Some entry)
      else Raise (BacktestInputError "entry execution changed during point-in-time replay")
  | Some entry, None => Ok (Some entry)
  end.

(** The body of the loop over the runtimes of the event's symbol. *)
Definition evaluate_runtime {T} (policy : SameCandlePolicy) (execution_config : ExecutionConfig) (visible : list Candle)
    (runtime : _RuntimeSignal T) : pyres (_RuntimeSignal T) :=
  let candidate := _RuntimeSignal.candidate runtime in
  signal ← _lifecycle_candidate candidate;
  replayed ← replay_with_capture signal (DeterministicSignalCandidate.timeframe candidate)
    (SignalLifecycleConfig.mkSignalLifecycleConfig policy) execution_config (_RuntimeSignal.invalidation runtime) visible;
  let '(lifecycle, captured) := replayed in
  entry_execution ← merge_entry (_RuntimeSignal.entry_execution runtime) captured;
  if negb (_RuntimeSignal.execution_evaluated runtime) && TERMINAL_STATUSES (SignalLifecycleResult.status lifecycle)
  then
    execution ← _evaluate_execution candidate lifecycle visible execution_config entry_execution;
    Ok (_RuntimeSignal.mk_RuntimeSignal _ candidate (_RuntimeSignal.invalidation runtime) (Some lifecycle) entry_execution
          execution true)
  else
    Ok (_RuntimeSignal.mk_RuntimeSignal _ candidate (_RuntimeSignal.invalidation runtime) (Some lifecycle) entry_execution
          (_RuntimeSignal.execution runtime) (_RuntimeSignal.execution_evaluated runtime)).

(** [_to_trade]: the status, result and closing instant the execution decides. *)
Definition trade_outcome_of (lifecycle : SignalLifecycleResult) (execution : option ExecutionResult)
    : SignalLifecycleStatus * option SignalResult * option datetime :=
  match execution with
  | Some e =>
      match ExecutionResult.exit_reason e with
      | ExecutionExitReason.TAKE_PROFIT =>
          (SignalLifecycleStatus.TP_HIT, Some SignalResult.WIN, Some (ExecutionResult.executed_at e))
      | ExecutionExitReason.STOP_LOSS =>
          (SignalLifecycleStatus.SL_HIT, Some SignalResult.LOSS, Some (ExecutionResult.executed_at e))
      end
  | None =>
      (SignalLifecycleResult.status lifecycle,
       match SignalLifecycleResult.status lifecycle with
       | SignalLifecycleStatus.CANCELLED => Some SignalResult.CANCELLED
       | SignalLifecycleStatus.AMBIGUOUS => Some SignalResult.AMBIGUOUS
       | _ => None
       end, SignalLifecycleResult.terminal_at lifecycle)
  end.

Definition _to_trade {T} (runtime : _RuntimeSignal T) : pyres BacktestTrade :=
  match _RuntimeSignal.lifecycle runtime with
  | None => Raise (BacktestInputError "candidate lifecycle was never evaluated")
  | Some lifecycle =>
      let candidate := _RuntimeSignal.candidate runtime in
      let execution := _RuntimeSignal.execution runtime in
      let '(status, result, closed_at) := trade_outcome_of lifecycle execution in
      cost_r ← match execution with
               | Some e => Some <$> ddiv_py prec (dadd prec (ExecutionResult.spread_cost e) (ExecutionResult.commission_cost e))
                                      (ExecutionResult.planned_risk e)
               | None => Ok None
               end;
      validated BacktestTrade.validate_execution_evidence
        (BacktestTrade.mkBacktestTrade (DeterministicSignalCandidate.candidate_id candidate)
          (DeterministicSignalCandidate.symbol candidate) (DeterministicSignalCandidate.timeframe candidate)
          (DeterministicSignalCandidate.direction candidate) (DeterministicSignalCandidate.entry_zone candidate)
          (DeterministicSignalCandidate.entry_reference candidate) status
          (DeterministicSignalCandidate.created_at candidate) (SignalLifecycleResult.activated_at lifecycle) closed_at result
          (ExecutionResult.financial_outcome <$> execution) (_RuntimeSignal.entry_execution runtime) execution
          (ExecutionResult.gross_r <$> execution) cost_r (ExecutionResult.net_r <$> execution))
  end.

(** ** One evaluation *)

Section run.
Context {T State : Type} `{CandidateSnapshot T} (engine : StrategyEngine T State) (optimized : bool).
Context (config : BacktestConfig) (series_map : SeriesMap).

Definition evaluation_context (as_of : datetime) (symbol : MarketSymbol) : pyres StrategyEvaluationContext :=
  candles ← py_map (fun timeframe =>
    candles ← series_get series_map (symbol, timeframe);
    Ok (timeframe, visible_candles optimized timeframe candles as_of)) (BacktestConfig.required_timeframes config);
  validated StrategyEvaluationContext.prevent_future_or_unsorted_candles
    (StrategyEvaluationContext.mkStrategyEvaluationContext symbol as_of candles).

Definition _validate_strategy_output (context : StrategyEvaluationContext) (output : StrategyEvaluationResult T)
    (runtimes : Runtimes T) : pyres unit :=
  let identity := StrategyEngine.strategy_identity engine in
  _ ← raise_if (negb (StrategyEvaluationResult.evaluated_at output =? StrategyEvaluationContext.as_of context))
        (BacktestInputError "strategy evaluated_at must equal context as_of");
  _ ← match StrategyEvaluationResult.evaluation output with
      | Some evaluation =>
          raise_if (negb (bool_decide (StrategyEvaluation.strategy_identity evaluation = identity)))
            (BacktestInputError "evaluation strategy identity does not match engine")
      | None => Ok tt
      end;
  py_for (fun candidate =>
    let symbol := DeterministicSignalCandidate.symbol candidate in
    _ ← raise_if (negb (bool_decide (DeterministicSignalCandidate.strategy_identity candidate = identity)))
          (BacktestInputError "candidate strategy identity does not match engine");
    _ ← raise_if (negb (bool_decide (symbol = StrategyEvaluationContext.symbol context)))
          (BacktestInputError "strategy returned a candidate for another symbol");
    _ ← raise_if (negb (is_some (assoc (K := SeriesKey) (symbol, DeterministicSignalCandidate.timeframe candidate) series_map)))
          (BacktestInputError "candidate timeframe has no historical series");
    raise_if (negb (is_some (assoc (K := RuntimeKey) (symbol, DeterministicSignalCandidate.candidate_id candidate) runtimes))
              && (DeterministicSignalCandidate.created_at candidate <? StrategyEvaluationContext.as_of context))
      (BacktestInputError "strategy revealed a historical candidate after its creation time"))
    (StrategyEvaluationResult.candidates output).

(** [for candidate in output.candidates] *)
Definition admit_candidate (as_of : datetime) (runtimes : Runtimes T) (candidate : DeterministicSignalCandidate T)
    : pyres (Runtimes T) :=
  let key := (DeterministicSignalCandidate.symbol candidate, DeterministicSignalCandidate.candidate_id candidate) in
  match assoc (K := RuntimeKey) key runtimes with
  | None =>
      _ ← raise_if (negb (DeterministicSignalCandidate.created_at candidate =? as_of))
            (BacktestInputError "a candidate must first appear at its point-in-time creation");
      Ok (runtimes ++ [(key, _RuntimeSignal.fresh candidate)])
  | Some existing =>
      _ ← raise_if (negb (DeterministicSignalCandidate.eqb (_RuntimeSignal.candidate existing) candidate))
            (BacktestInputError "candidate id was reused with different content");
      Ok runtimes
  end.

(** [for invalidation in output.invalidations] *)
Definition admit_invalidation (as_of : datetime) (symbol : MarketSymbol) (runtimes : Runtimes T)
    (invalidation : StrategySignalInvalidation) : pyres (Runtimes T) :=
  let key := (symbol, StrategySignalInvalidation.candidate_id invalidation) in
  let event := StrategySignalInvalidation.event invalidation in
  match assoc (K := RuntimeKey) key runtimes with
  | None => Raise (BacktestInputError "invalidation references an unknown candidate")
  | Some runtime =>
      match _RuntimeSignal.invalidation runtime with
      | None =>
          _ ← raise_if (negb (StructuralInvalidation.confirmed_at event =? as_of))
                (BacktestInputError "an invalidation must first appear at its point-in-time confirmation");
          Ok (runtime_set key (_RuntimeSignal.with_invalidation runtime event) runtimes)
      | Some known =>
          _ ← raise_if (negb (bool_decide (known = event)))
                (BacktestInputError "confirmed invalidation cannot be replaced or rewritten");
          Ok runtimes
      end
  end.

(** [for (runtime_symbol, _), runtime in runtimes.items()] *)
Definition evaluate_runtimes (as_of : datetime) (symbol : MarketSymbol) (runtimes : Runtimes T) : pyres (Runtimes T) :=
  py_map (fun '(key, runtime) =>
    if negb (bool_decide (fst key = symbol)) then Ok (key, runtime)
    else
      let timeframe := DeterministicSignalCandidate.timeframe (_RuntimeSignal.candidate runtime) in
      signal_series ← series_get series_map (symbol, timeframe);
      runtime' ← evaluate_runtime (BacktestConfig.same_candle_policy config) (StrategyEngine.execution engine)
        (visible_candles optimized timeframe signal_series as_of) runtime;
      Ok (key, runtime')) runtimes.

(** The state of the loop over the events. *)
Definition RunState : Type := State * Runtimes T * Z.

Definition event_step (state : RunState) (event : Event) : pyres RunState :=
  let '(engine_state, runtimes, evaluation_count) := state in
  let '(as_of, symbol) := event in
  context ← evaluation_context as_of symbol;
  evaluated ← StrategyEngine.evaluate engine engine_state context;
  let '(output, engine_state') := evaluated in
  _ ← _validate_strategy_output context output runtimes;
  admitted ← py_fold (admit_candidate as_of) runtimes (StrategyEvaluationResult.candidates output);
  invalidated ← py_fold (admit_invalidation as_of symbol) admitted (StrategyEvaluationResult.invalidations output);
  runtimes' ← evaluate_runtimes as_of symbol invalidated;
  Ok (engine_state', runtimes', evaluation_count + 1).

Definition replay_events (engine_state : State) (events : list Event) : pyres RunState :=
  py_fold event_step (engine_state, [], 0) events.
End run.

(** ** The run *)

(** What the report says besides the identities of the run. *)
Module BacktestReport.
Record BacktestReport := mkBacktestReport {
  started_at : datetime;
  ended_at : datetime;
  engine_evaluations : Z;
  trades : list BacktestTrade;
  metrics : BacktestMetrics
}.
End BacktestReport.
Abbreviation BacktestReport := BacktestReport.BacktestReport.

(** The order of the trades. *)
Definition runtime_order {T} : RuntimeKey * _RuntimeSignal T -> RuntimeKey * _RuntimeSignal T -> bool :=
  let candidate_of entry := _RuntimeSignal.candidate (snd entry) in
  lex_lt (on_key (fun entry => DeterministicSignalCandidate.created_at (candidate_of entry)) Z.ltb)
    (lex_lt (on_key (fun entry => MarketSymbol.value (DeterministicSignalCandidate.symbol (candidate_of entry))) str_lt)
       (on_key (fun entry => DeterministicSignalCandidate.candidate_id (candidate_of entry)) str_lt)).

Definition run_backtest {T State} `{CandidateSnapshot T} (engine : StrategyEngine T State) (engine_state : State)
    (optimized : bool) (historical : list HistoricalCandleSeries) (config : BacktestConfig) : pyres BacktestReport :=
  _ ← raise_if (negb (bool_decide (StrategyEngine.configured_identity engine = StrategyEngine.strategy_identity engine)))
        (BacktestInputError "engine strategy config and identity do not match");
  series_map ← _validate_and_index historical config;
  events ← _evaluation_events series_map (BacktestConfig.evaluation_timeframe config);
  canonical_timeframe ← canonical_timeframe_of config;
  _ ← _effective_canonical_sources series_map canonical_timeframe events;
  final ← replay_events engine optimized config series_map engine_state events;
  let '(_, runtimes, evaluation_count) := final in
  trades ← py_map (fun entry => _to_trade (snd entry)) (sort_by runtime_order runtimes);
  metrics ← calculate_backtest_metrics trades;
  match head events, list.last events with
  | Some first, Some final => Ok (BacktestReport.mkBacktestReport (fst first) (fst final) evaluation_count trades metrics)
  | _, _ => Raise (Exc "IndexError" "list index out of range")
  end.

Definition run_backtest_optimized {T State} `{CandidateSnapshot T} (engine : StrategyEngine T State) (engine_state : State)
    (historical : list HistoricalCandleSeries) (config : BacktestConfig) : pyres BacktestReport :=
  run_backtest engine engine_state true historical config.

Definition run_backtest_incremental {T State} `{CandidateSnapshot T} (engine : StrategyEngine T State) (engine_state : State)
    (historical : list HistoricalCandleSeries) (config : BacktestConfig) : pyres BacktestReport :=
  run_backtest engine engine_state true historical config.
