(* ===== verification/RunnerTheory.v ===== *)
(** Theory of the backtest runner: its two ways of looking up visible candles
    agree, it never looks ahead of the evaluated instant, the replay event by
    event computes what one replay at the end would, and which signals its
    report accepts. *)
From Stdlib Require Import ZArith QArith Lia Lqa Sorting.Sorted Sorting.Permutation.
From stdpp Require Import base strings numbers pretty list sets.
From S2P Require Import Prelude Decimal Time Candle Signal Lifecycle LifecycleTheory Execution ExecutionTheory.
From S2P Require Import Metrics MetricsTheory Resampling ResamplingTheory Runner.
Local Open Scope Z_scope.

(** ** Prefix lookup *)

Lemma filter_prefix {A} (p : A -> bool) l n : (n <= length l)%nat ->
  (forall i x, (i < n)%nat -> l !! i = Some x -> p x = true) ->
  (forall i x, (n <= i)%nat -> l !! i = Some x -> p x = false) ->
  List.filter p l = take n l.
Proof.
  revert n; induction l as [|x l IH]; intros n Hn Ht Hf; [by destruct n|]. cbn [List.filter].
  destruct n as [|n].
  - rewrite (Hf 0%nat x) by (lia || done). cbn [take]. rewrite (IH 0%nat); [done|lia|intros; lia|].
    intros i y _ Hy. by apply (Hf (S i) y); [lia|].
  - rewrite (Ht 0%nat x) by (lia || done). cbn [take]. f_equal. apply IH; [cbn in Hn; lia| |].
    + intros i y Hi Hy. apply (Ht (S i) y); [lia|done].
    + intros i y Hi Hy. apply (Hf (S i) y); [lia|done].
Qed.

(** On an ascending series the binary search finds the closed candles. *)
Lemma visible_indexed timeframe candles as_of : ascending candles ->
  visible_candles true timeframe candles as_of = visible_candles false timeframe candles as_of.
Proof.
  intros Ha. unfold visible_candles, _IndexedCandleSeries.closed, _IndexedCandleSeries.from_candles.
  cbn [_IndexedCandleSeries.candles _IndexedCandleSeries.close_times].
  set (close := fun candle => Candle.timestamp candle + timeframe_duration timeframe).
  assert (forall i x t, candles !! i = Some x -> map close candles !! i = Some t -> t = close x) as Hmap.
  { intros i x t Hx Ht. rewrite list_lookup_fmap, Hx in Ht. by injection Ht. }
  destruct (bisect_mono (fun t => negb (as_of <? t)) (map close candles) 0) as (Hr & H1 & H2); [lia| |].
  { intros i j x y Hij Hx Hy. rewrite !negb_true_iff, !Z.ltb_ge. rewrite list_lookup_fmap in Hx, Hy.
    destruct (candles !! i) as [a|] eqn:Ei; [|done]. destruct (candles !! j) as [b|] eqn:Ej; [|done].
    injection Hx as <-. injection Hy as <-. destruct (decide (i = j)) as [->|]; [naive_solver lia|].
    pose proof (sorted_lookup Z.lt _ Ha i j (Candle.timestamp a) (Candle.timestamp b) ltac:(lia)) as Hlt.
    rewrite !list_lookup_fmap, Ei, Ej in Hlt. specialize (Hlt eq_refl eq_refl). unfold close. lia. }
  set (n := bisect _ _ _ _) in *. rewrite length_map in Hr. symmetry. apply filter_prefix; [lia| |].
  - intros i x Hi Hx. specialize (H1 i (close x) ltac:(lia)). rewrite list_lookup_fmap, Hx in H1.
    specialize (H1 eq_refl). apply negb_true_iff, Z.ltb_ge in H1. by apply Z.leb_le.
  - intros i x Hi Hx. specialize (H2 i (close x) Hi). rewrite list_lookup_fmap, Hx in H2.
    specialize (H2 eq_refl). apply negb_false_iff, Z.ltb_lt in H2. by apply Z.leb_gt.
Qed.

(** ** The series map *)

Lemma assoc_elem {K A} `{EqDecision K} (key : K) (m : list (K * A)) a : assoc key m = Some a -> (key, a) ∈ m.
Proof.
  unfold assoc. destruct (List.find _ m) as [[k b]|] eqn:E; [|done]. intros [= <-].
  apply find_some in E as [Hin E]. apply bool_decide_eq_true in E. cbn in E. subst. by apply list_elem_of_In.
Qed.

Definition history_valid (historical : list HistoricalCandleSeries) : Prop :=
  Forall (fun s => Forall (fun c => valid_candle c = true) (HistoricalCandleSeries.candles s)) historical.

Lemma supplied_valid historical key candles : history_valid historical -> supplied historical key = Some candles ->
  Forall (fun c => valid_candle c = true) candles.
Proof.
  intros Hv H. apply assoc_elem, list_elem_of_fmap in H as (s & [= _ ->] & Hs).
  unfold history_valid in Hv. rewrite Forall_forall in Hv. by apply Hv.
Qed.

Lemma as_input_error_ok {A} symbol (m : pyres A) a : as_input_error symbol m = Ok a -> m = Ok a.
Proof. destruct m as [|[cls msg]]; cbn; [done|]. by destruct (String.eqb _ _). Qed.

Lemma derive_series_ok historical ctf symbol source cutoff timeframe entry :
  derive_series historical ctf symbol source cutoff timeframe = Ok entry ->
  fst entry = (symbol, timeframe) /\ resample_canonical_candles source ctf timeframe cutoff = Ok (snd entry).
Proof.
  unfold derive_series. intros (derived & Hd%as_input_error_ok & H)%bind_ok. apply bind_ok in H as ([] & _ & H).
  by injection H as <-.
Qed.

Lemma derive_symbol_ok historical config ctf symbol entries :
  derive_symbol historical config ctf symbol = Ok entries ->
  exists source final, supplied historical (symbol, ctf) = Some source /\ list.last source = Some final
    /\ Forall2 (fun timeframe entry => fst entry = (symbol, timeframe)
         /\ resample_canonical_candles source ctf timeframe (Candle.timestamp final + timeframe_duration ctf) = Ok (snd entry))
       (BacktestConfig.required_timeframes config) entries.
Proof.
  unfold derive_symbol. destruct (supplied _ _) as [source|]; [|done]. destruct (list.last source) as [final|] eqn:El; [|done].
  intros H%py_map_ok. exists source, final. refine (conj eq_refl (conj El _)).
  eapply Forall2_impl; [exact H|]. intros timeframe entry. apply derive_series_ok.
Qed.

Lemma validate_and_index_ok historical config series_map : _validate_and_index historical config = Ok series_map ->
  exists ctf parts, canonical_timeframe_of config = Ok ctf /\ series_map = concat parts
    /\ Forall2 (fun symbol entries => derive_symbol historical config ctf symbol = Ok entries)
         (input_symbols historical) parts.
Proof.
  unfold _validate_and_index. intros (ctf & Hc & H)%bind_ok. apply bind_ok in H as ([] & _ & H).
  apply bind_ok in H as ([] & _ & H). apply bind_ok in H as (parts & Hp%py_map_ok & [= <-]). eauto.
Qed.

Lemma series_ascending historical config series_map key candles : history_valid historical ->
  _validate_and_index historical config = Ok series_map -> (key, candles) ∈ series_map -> ascending candles.
Proof.
  intros Hv (ctf & parts & _ & -> & Hp)%validate_and_index_ok Hin.
  apply list_elem_of_In, in_concat in Hin as (part & Hpart & Hin). apply list_elem_of_In in Hpart, Hin.
  apply list_elem_of_lookup in Hpart as [i Hi]. destruct (Forall2_lookup_r _ _ _ _ _ Hp Hi) as (symbol & _ & Hd).
  apply derive_symbol_ok in Hd as (source & final & Hs & _ & Hd). apply list_elem_of_lookup in Hin as [j Hj].
  destruct (Forall2_lookup_r _ _ _ _ _ Hd Hj) as (timeframe & _ & _ & Hr).
  eapply resample_ascending; [|exact Hr]. by eapply supplied_valid.
Qed.

(** ** The two modes agree *)

Lemma py_fold_ext {A S} (f g : S -> A -> pyres S) l s : (forall s x, x ∈ l -> f s x = g s x) -> py_fold f s l = py_fold g s l.
Proof.
  revert s; induction l as [|x l IH]; intros s Hfg; cbn [py_fold]; [done|]. rewrite Hfg by constructor.
  destruct (g s x); [|done]. apply IH. intros; apply Hfg. by constructor.
Qed.

Lemma py_for_ext {A} (f g : A -> pyres unit) l : (forall x, x ∈ l -> f x = g x) -> py_for f l = py_for g l.
Proof.
  induction l as [|x l IH]; intros Hfg; cbn [py_for]; [done|]. rewrite Hfg by constructor.
  rewrite IH; [done|]. intros; apply Hfg. by constructor.
Qed.

Lemma bind_ext {A B} (m : pyres A) (f g : A -> pyres B) : (forall a, f a = g a) -> (m ≫= f) = (m ≫= g).
Proof. intros Hfg. destruct m; cbn; auto. Qed.

Section steps.
Context {T State : Type} `{CandidateSnapshot T} (engine : StrategyEngine T State) (config : BacktestConfig).

(** Two series maps, each with its mode, that show the same candles at [as_of]. *)
Definition same_view (o o' : bool) (m m' : SeriesMap) (as_of : datetime) : Prop :=
  Forall2 (fun e e' => fst e = fst e'
    /\ visible_candles o (snd (fst e)) (snd e) as_of = visible_candles o' (snd (fst e)) (snd e') as_of) m m'.

Lemma same_view_assoc o o' m m' as_of symbol timeframe : same_view o o' m m' as_of ->
  match assoc (K := SeriesKey) (symbol, timeframe) m, assoc (K := SeriesKey) (symbol, timeframe) m' with
  | Some candles, Some candles' => visible_candles o timeframe candles as_of = visible_candles o' timeframe candles' as_of
  | None, None => True
  | _, _ => False
  end.
Proof using Type.
  unfold assoc. induction 1 as [|[k c] [k' c'] m m' [Hk Hv] _ IH]; cbn [List.find]; [done|]. cbn in Hk, Hv. subst k'.
  cbn [fst]. case_bool_decide as E; [|exact IH]. cbn. by rewrite E in Hv.
Qed.

Lemma evaluation_context_view o o' m m' as_of symbol : same_view o o' m m' as_of ->
  evaluation_context o config m as_of symbol = evaluation_context o' config m' as_of symbol.
Proof using Type.
  intros Hv. unfold evaluation_context. f_equal. apply py_map_ext. intros timeframe _. unfold series_get.
  pose proof (same_view_assoc o o' m m' as_of symbol timeframe Hv) as E.
  revert E. destruct (assoc _ m), (assoc _ m'); intros E; [cbn [mbind pyres_bind]; by rewrite E|done..].
Qed.

Lemma evaluate_runtimes_view o o' m m' as_of symbol runtimes : same_view o o' m m' as_of ->
  evaluate_runtimes engine o config m as_of symbol runtimes = evaluate_runtimes engine o' config m' as_of symbol runtimes.
Proof using Type.
  intros Hv. unfold evaluate_runtimes. apply py_map_ext. intros [key runtime] _.
  destruct (negb _); [done|]. unfold series_get.
  pose proof (same_view_assoc o o' m m' as_of symbol
    (DeterministicSignalCandidate.timeframe (_RuntimeSignal.candidate runtime)) Hv) as E.
  revert E. destruct (assoc _ m), (assoc _ m'); intros E; [cbn [mbind pyres_bind]; by rewrite E|done..].
Qed.

Lemma validate_output_view o o' m m' as_of context output runtimes : same_view o o' m m' as_of ->
  _validate_strategy_output engine m context output runtimes = _validate_strategy_output engine m' context output runtimes.
Proof using Type.
  intros Hv. unfold _validate_strategy_output. do 2 (apply bind_ext; intros []).
  apply py_for_ext. intros candidate _. do 2 (apply bind_ext; intros []).
  pose proof (same_view_assoc o o' m m' as_of (DeterministicSignalCandidate.symbol candidate)
    (DeterministicSignalCandidate.timeframe candidate) Hv) as E.
  revert E. by destruct (assoc _ m), (assoc _ m').
Qed.

Lemma event_step_view o o' m m' state event : same_view o o' m m' (fst event) ->
  event_step engine o config m state event = event_step engine o' config m' state event.
Proof using Type.
  intros Hv. destruct state as [[engine_state runtimes] n], event as [as_of symbol]. cbn [fst] in Hv. unfold event_step.
  rewrite (evaluation_context_view o o' m m') by done. apply bind_ext. intros context. apply bind_ext. intros [output st].
  rewrite (validate_output_view o o' m m' as_of) by done. apply bind_ext. intros []. do 2 (apply bind_ext; intros ?).
  by rewrite (evaluate_runtimes_view o o' m m').
Qed.

Lemma replay_events_view o o' m m' engine_state events : (forall event, event ∈ events -> same_view o o' m m' (fst event)) ->
  replay_events engine o config m engine_state events = replay_events engine o' config m' engine_state events.
Proof using Type. intros Hv. unfold replay_events. apply py_fold_ext. intros. apply event_step_view. auto. Qed.
End steps.

(** The indexed lookup changes nothing: for every engine, every history of
    valid candles and every configuration, the optimised run returns what the
    reference run returns, the error included. *)
Theorem optimized_run_equivalent {T State} `{CandidateSnapshot T} (engine : StrategyEngine T State) engine_state historical config :
  history_valid historical ->
  run_backtest_optimized engine engine_state historical config = run_backtest engine engine_state false historical config.
Proof.
  intros Hv. unfold run_backtest_optimized, run_backtest. apply bind_ext. intros [].
  destruct (_validate_and_index historical config) as [m|] eqn:Hm; [|done]. cbn [mbind pyres_bind].
  do 3 (apply bind_ext; intros ?). rewrite (replay_events_view engine config true false m m); [done|].
  intros event _. unfold same_view. apply Forall_Forall2_diag, Forall_forall. intros [key candles] Hin. split; [done|].
  apply visible_indexed. by eapply series_ascending.
Qed.

(** ** No look-ahead *)

(** [later] continues [historical]: the same series, with rows appended that
    all close after [horizon]. *)
Definition continues (horizon : datetime) (historical later : list HistoricalCandleSeries) : Prop :=
  Forall2 (fun s s' => HistoricalCandleSeries.key s = HistoricalCandleSeries.key s'
    /\ exists rows, HistoricalCandleSeries.candles s' = HistoricalCandleSeries.candles s ++ rows
         /\ Forall (fun c => horizon < Candle.timestamp c + timeframe_duration (HistoricalCandleSeries.timeframe s)) rows)
    historical later.

(** Every canonical source reaches [horizon]. *)
Definition covers (historical : list HistoricalCandleSeries) (config : BacktestConfig) (horizon : datetime) : Prop :=
  forall ctf symbol source final, canonical_timeframe_of config = Ok ctf ->
    supplied historical (symbol, ctf) = Some source -> list.last source = Some final ->
    horizon <= Candle.timestamp final + timeframe_duration ctf.

Lemma continues_supplied horizon historical later symbol timeframe : continues horizon historical later ->
  match supplied historical (symbol, timeframe), supplied later (symbol, timeframe) with
  | Some source, Some source' => exists rows, source' = source ++ rows
      /\ Forall (fun c => horizon < Candle.timestamp c + timeframe_duration timeframe) rows
  | None, None => True
  | _, _ => False
  end.
Proof.
  unfold supplied, assoc. induction 1 as [|s s' l l' (Hk & rows & Hc & Hr) _ IH]; cbn [map List.find]; [done|].
  cbn [fst]. rewrite <-Hk. case_bool_decide as E; [|exact IH]. cbn. exists rows. split; [done|].
  unfold HistoricalCandleSeries.key in E. injection E as _ <-. exact Hr.
Qed.

Lemma continues_symbols horizon historical later : continues horizon historical later ->
  input_symbols historical = input_symbols later.
Proof.
  intros Hc. unfold input_symbols. f_equal. induction Hc as [|s s' l l' (Hk & _) _ IH]; cbn [map]; [done|].
  unfold HistoricalCandleSeries.key in Hk. injection Hk as -> _. by rewrite IH.
Qed.

Lemma last_after horizon timeframe source rows final final' :
  Forall (fun c => horizon < Candle.timestamp c + timeframe_duration timeframe) rows ->
  list.last source = Some final -> list.last (source ++ rows) = Some final' ->
  horizon <= Candle.timestamp final + timeframe_duration timeframe ->
  horizon <= Candle.timestamp final' + timeframe_duration timeframe.
Proof.
  intros Hr Hl Hl' Hf. destruct rows as [|row rows] using rev_ind.
  - rewrite app_nil_r in Hl'. by simplify_eq.
  - rewrite app_assoc, last_snoc in Hl'. injection Hl' as <-. apply Forall_app in Hr as [_ Hr].
    apply Forall_cons in Hr as [Hr _]. cbn beta in Hr. lia.
Qed.

(** Two accepted histories of which one continues the other derive the same
    candles as far as the horizon. *)
Lemma derived_agree horizon ctf timeframe source rows final final' derived derived' as_of :
  Forall (fun c => valid_candle c = true) source -> Forall (fun c => valid_candle c = true) (source ++ rows) ->
  Forall (fun c => horizon < Candle.timestamp c + timeframe_duration ctf) rows ->
  list.last source = Some final -> list.last (source ++ rows) = Some final' ->
  as_of <= horizon -> horizon <= Candle.timestamp final + timeframe_duration ctf ->
  resample_canonical_candles source ctf timeframe (Candle.timestamp final + timeframe_duration ctf) = Ok derived ->
  resample_canonical_candles (source ++ rows) ctf timeframe (Candle.timestamp final' + timeframe_duration ctf) = Ok derived' ->
  List.filter (closed_by timeframe as_of) derived = List.filter (closed_by timeframe as_of) derived'.
Proof.
  intros Hv Hv' Hr Hl Hl' Has Hh H H'.
  pose proof (last_after horizon ctf source rows final final' Hr Hl Hl' Hh) as Hh'.
  pose proof (fun Hle => resample_cut ctf timeframe source as_of _ derived Hv Hle H) as E.
  pose proof (fun Hle => resample_cut ctf timeframe (source ++ rows) as_of _ derived' Hv' Hle H') as E'.
  specialize (E ltac:(lia)). specialize (E' ltac:(lia)).
  rewrite resample_ignores_later in E'; [unfold closed_by; congruence|].
  eapply Forall_impl; [exact Hr|]. cbn. intros c ?. lia.
Qed.

Lemma Forall2_concat {A B} (P : A -> B -> Prop) (l : list (list A)) (k : list (list B)) :
  Forall2 (Forall2 P) l k -> Forall2 P (concat l) (concat k).
Proof. induction 1; cbn; [constructor|]. by apply Forall2_app. Qed.

Lemma Forall2_same_l {A B C} (P : A -> B -> Prop) (Q : A -> C -> Prop) (R : B -> C -> Prop) l k m :
  Forall2 P l k -> Forall2 Q l m -> (forall a b c, a ∈ l -> P a b -> Q a c -> R b c) -> Forall2 R k m.
Proof.
  intros HP. revert m; induction HP as [|a b l k Hab _ IH]; intros m HQ HR; inversion HQ; subst; [constructor|].
  constructor; [eapply HR; eauto; constructor|]. apply IH; [done|]. intros; eapply HR; eauto. by constructor.
Qed.

Section causality.
Context (historical later : list HistoricalCandleSeries) (config : BacktestConfig) (horizon : datetime).
Context (Hv : history_valid historical) (Hv' : history_valid later).
Context (Hc : continues horizon historical later) (Hcov : covers historical config horizon).

Lemma series_agree m m' as_of : as_of <= horizon ->
  _validate_and_index historical config = Ok m -> _validate_and_index later config = Ok m' ->
  same_view false false m m' as_of.
Proof.
  intros Has (ctf & parts & Hctf & -> & Hp)%validate_and_index_ok (ctf' & parts' & Hctf' & -> & Hp')%validate_and_index_ok.
  assert (ctf' = ctf) as -> by congruence. rewrite <-(continues_symbols horizon _ _ Hc) in Hp'.
  apply Forall2_concat. eapply Forall2_same_l; [exact Hp|exact Hp'|]. cbn. intros symbol part part' _ Hd Hd'.
  apply derive_symbol_ok in Hd as (source & final & Hs & Hl & Hd), Hd' as (source' & final' & Hs' & Hl' & Hd').
  pose proof (continues_supplied horizon historical later symbol ctf Hc) as Hsup. rewrite Hs, Hs' in Hsup.
  destruct Hsup as (rows & -> & Hr).
  eapply Forall2_same_l; [exact Hd|exact Hd'|]. cbn. intros timeframe [k candles] [k' candles'] _ [E Hr1] [E' Hr2].
  cbn in E, E'. subst k k'. split; [done|]. cbn [fst snd visible_candles].
  eapply (derived_agree horizon ctf timeframe source rows final final'); eauto using supplied_valid.
Qed.
End causality.

(** The events up to [horizon]. *)
Definition up_to (horizon : datetime) (events : list Event) : list Event :=
  List.filter (fun event => fst event <=? horizon) events.

Lemma up_to_raw horizon m timeframe : up_to horizon (raw_events m timeframe)
  = flat_map (fun '((symbol, tf), candles) =>
      if bool_decide (tf = timeframe)
      then map (fun candle => (Candle.timestamp candle + timeframe_duration timeframe, symbol))
             (List.filter (closed_by timeframe horizon) candles)
      else []) m.
Proof.
  unfold up_to, raw_events. induction m as [|[[symbol tf] candles] m IH]; cbn [flat_map List.filter]; [done|].
  rewrite List.filter_app, IH. f_equal. case_bool_decide; [|done].
  induction candles as [|c cs IHc]; [done|]. cbn [map List.filter fst]. unfold closed_by at 1.
  destruct (_ <=? horizon); cbn [map]; by rewrite IHc.
Qed.

Lemma up_to_events horizon m m' timeframe : same_view false false m m' horizon ->
  up_to horizon (raw_events m timeframe) = up_to horizon (raw_events m' timeframe).
Proof.
  intros Hv. rewrite !up_to_raw. induction Hv as [|[[s tf] c] [[s' tf'] c'] m m' [Hk Hview] _ IH]; [done|].
  cbn in Hk, Hview. injection Hk as <- <-. cbn [flat_map]. rewrite IH. f_equal. case_bool_decide; [|done]. subst tf.
  by rewrite Hview.
Qed.

#[local] Instance event_order_sw : StrictWeak event_order.
Proof. unfold event_order. apply lex_lt_sw; apply on_key_sw; typeclasses eauto. Qed.

(** C22. The backtest never looks ahead: when a history is continued by later
    rows, everything up to the horizon stays as it was. The events up to then
    are the same, and evaluating them, in either mode, leaves the same engine
    state and the same signals, each with the same invalidation, lifecycle,
    entry and exit. *)
Theorem backtest_no_lookahead {T State} `{CandidateSnapshot T} (engine : StrategyEngine T State) engine_state
    historical later config horizon optimized optimized' m m' events events' :
  history_valid historical -> history_valid later -> continues horizon historical later -> covers historical config horizon ->
  _validate_and_index historical config = Ok m -> _validate_and_index later config = Ok m' ->
  _evaluation_events m (BacktestConfig.evaluation_timeframe config) = Ok events ->
  _evaluation_events m' (BacktestConfig.evaluation_timeframe config) = Ok events' ->
  up_to horizon events = up_to horizon events'
  /\ replay_events engine optimized config m engine_state (up_to horizon events)
     = replay_events engine optimized' config m' engine_state (up_to horizon events').
Proof.
  intros Hv Hv' Hc Hcov Hm Hm' He He'.
  assert (up_to horizon events = up_to horizon events') as Eev.
  { unfold _evaluation_events in He, He'. apply bind_ok in He as ([] & _ & [= <-]), He' as ([] & _ & [= <-]).
    unfold up_to. rewrite !filter_sort_by by typeclasses eauto. f_equal. apply up_to_events.
    by apply (series_agree historical later config horizon). }
  split; [done|]. rewrite Eev.
  assert (forall o n k, _validate_and_index n config = Ok k -> history_valid n ->
    replay_events engine o config k engine_state (up_to horizon events')
    = replay_events engine false config k engine_state (up_to horizon events')) as Hmode.
  { intros [] n k Hk Hn; [|done]. apply replay_events_view. intros event _. unfold same_view.
    apply Forall_Forall2_diag, Forall_forall. intros [key candles] Hin. split; [done|].
    apply visible_indexed. by eapply series_ascending. }
  rewrite (Hmode optimized historical m), (Hmode optimized' later m') by done.
  apply replay_events_view. intros event Hev. apply list_elem_of_In in Hev. unfold up_to in Hev. apply filter_In in Hev as [_ Hev].
  apply Z.leb_le in Hev. by apply (series_agree historical later config horizon).
Qed.
