(* ===== verification/RunnerReplay.v ===== *)
(** The signals of a backtest: replaying a signal again at every evaluation
    comes to the same as replaying it once at the last, and which signals
    the report can represent. *)
From Stdlib Require Import ZArith QArith Lia Lqa Sorting.Sorted Sorting.Permutation.
From stdpp Require Import base strings numbers pretty sorting list sets.
From S2P Require Import Prelude Decimal Time Candle Signal Lifecycle LifecycleTheory Execution ExecutionTheory.
From S2P Require Import Metrics MetricsTheory Resampling ResamplingTheory Runner RunnerTheory.
Local Open Scope Z_scope.

(** Membership in an enumerated list. *)
Ltac enumerated := rewrite ?elem_of_cons, ?elem_of_nil in *; tauto || naive_solver.

(** ** One replay with its captured entry *)

Section replay.
Context (signal : SignalLifecycleCandidate) (timeframe : Timeframe) (config : SignalLifecycleConfig) (exec : ExecutionConfig).

Abbreviation loop inv := (replay_capturing signal timeframe config exec inv).
Abbreviation step inv := (bar_step signal timeframe config (build_entry_execution_resolver exec) inv).
Abbreviation capture := (capture_step signal timeframe exec).

Lemma policy_result_evidence bar previous close :
  build_entry_execution_resolver exec signal bar previous close = evidence_of <$> policy_result signal exec bar previous close.
Proof using Type.
  unfold build_entry_execution_resolver, policy_result. destruct (validated _ _); [|done]. cbn [mbind pyres_bind]. done.
Qed.

(** The state of the capturing loop is that of the plain loop. *)
Lemma replay_capturing_state inv previous bars st captured :
  fst <$> loop inv previous bars st captured
  = replay_bars signal timeframe config (build_entry_execution_resolver exec) inv previous bars st.
Proof using Type.
  revert previous st captured; induction bars as [|bar bars IH]; intros previous st captured; [done|].
  cbn [replay_capturing replay_bars]. destruct (TERMINAL_STATUSES _); [done|]. unfold capture_step.
  destruct (Candle.timestamp bar <? _) eqn:Ets.
  { cbn [mbind pyres_bind]. destruct (step inv previous bar st); [apply IH|done]. }
  destruct (LifecycleState.status st) eqn:Es; cbn [mbind pyres_bind];
    try (destruct (step inv previous bar st); [apply IH|done]).
  destruct (policy_result _ _ _ _ _) as [r|e] eqn:Ep; cbn [mbind pyres_bind].
  - destruct (step inv previous bar st); [apply IH|done].
  - unfold bar_step. rewrite Ets, Es, policy_result_evidence, Ep. done.
Qed.

Lemma replay_capturing_terminal inv previous bars st captured : TERMINAL_STATUSES (LifecycleState.status st) = true ->
  loop inv previous bars st captured = Ok (st, captured).
Proof using Type. intros Ht. destruct bars; cbn [replay_capturing]; [done|]. by rewrite Ht. Qed.

Lemma replay_capturing_app inv bars1 bars2 previous st captured :
  loop inv previous (bars1 ++ bars2) st captured =
  (loop inv previous bars1 st captured ≫= fun '(st', captured') =>
     loop inv (match list.last bars1 with Some b => Some b | None => previous end) bars2 st' captured').
Proof using Type.
  revert previous st captured. induction bars1 as [|bar bars1 IH]; intros previous st captured; [done|].
  cbn [app replay_capturing]. destruct (TERMINAL_STATUSES (LifecycleState.status st)) eqn:Ht.
  - cbn [mbind pyres_bind]. by rewrite replay_capturing_terminal.
  - destruct (capture _ _ _ _) as [captured'|e]; cbn [mbind pyres_bind]; [|done].
    destruct (step inv previous bar st) as [st'|e]; cbn [mbind pyres_bind]; [|done].
    rewrite IH. destruct bars1 as [|b bars1]; [done|].
    change (list.last (bar :: b :: bars1)) with (list.last (b :: bars1)).
    destruct (list.last (b :: bars1)) eqn:E; [done|]. by apply last_None in E.
Qed.

(** An invalidation confirmed after the close of a bar does not affect it. *)
Lemma bar_step_later_invalidation i previous bar st :
  Candle.timestamp bar + timeframe_duration timeframe < StructuralInvalidation.confirmed_at i ->
  step (Some i) previous bar st = step None previous bar st.
Proof using Type.
  intros Hi. unfold bar_step. destruct (_ <? _); [done|]. destruct (LifecycleState.status st); try done.
  destruct (build_entry_execution_resolver _ _ _ _ _); [|done]. cbn [mbind pyres_bind].
  unfold invalidate_waiting. pose proof (timeframe_duration_pos timeframe).
  rewrite (proj2 (Z.leb_gt _ _)) by lia. by rewrite (proj2 (Z.leb_gt _ _)) by lia.
Qed.

Lemma replay_later_invalidation i previous bars st captured :
  Forall (fun bar => Candle.timestamp bar + timeframe_duration timeframe < StructuralInvalidation.confirmed_at i) bars ->
  loop (Some i) previous bars st captured = loop None previous bars st captured.
Proof using Type.
  intros Hb. revert previous st captured; induction Hb as [|bar bars Hbar _ IH]; intros previous st captured; [done|].
  cbn [replay_capturing]. destruct (TERMINAL_STATUSES _); [done|]. apply bind_ext. intros captured'.
  rewrite bar_step_later_invalidation by done. apply bind_ext. intros st'. apply IH.
Qed.

Lemma init_later_invalidation i : SignalLifecycleCandidate.created_at signal < StructuralInvalidation.confirmed_at i ->
  replay_init signal (Some i) = replay_init signal None.
Proof using Type.
  intros Hi. unfold replay_init. apply bind_ext. intros created. by rewrite (proj2 (Z.eqb_neq _ _)) by lia.
Qed.

(** *** What a captured entry means *)

(** An executed entry of the signal. *)
Definition entry_of_signal (e : EntryExecutionResult) : Prop :=
  EntryExecutionResult.executed e = true
  /\ EntryExecutionResult.candidate_id e = SignalLifecycleCandidate.signal_id signal
  /\ EntryExecutionResult.requested_entry_price e = SignalLifecycleCandidate.entry_reference signal.

(** The captured entry and the state agree: an entry is captured from the bar
    that activates the signal, or from one in which the signal ends without
    having been activated. *)
Definition capture_inv (st : LifecycleState) (captured : option EntryExecutionResult) : Prop :=
  match captured with
  | None => LifecycleState.activated_at st = None
      /\ LifecycleState.status st ∈ [SignalLifecycleStatus.WAITING; SignalLifecycleStatus.CANCELLED]
  | Some e => entry_of_signal e
      /\ (LifecycleState.activated_at st = None
          /\ LifecycleState.status st ∈ [SignalLifecycleStatus.CANCELLED; SignalLifecycleStatus.AMBIGUOUS]
        \/ LifecycleState.activated_at st = EntryExecutionResult.executed_at e /\ is_some (LifecycleState.activated_at st) = true
          /\ LifecycleState.status st ∈ [SignalLifecycleStatus.ACTIVE; SignalLifecycleStatus.TP_HIT;
               SignalLifecycleStatus.SL_HIT; SignalLifecycleStatus.AMBIGUOUS])
  end.

Lemma policy_result_entry bar previous close r : policy_result signal exec bar previous close = Ok r ->
  EntryExecutionResult.executed r = true -> entry_of_signal r.
Proof using Type.
  unfold policy_result. intros (request & [_ <-]%validated_ok & Hr)%bind_ok Hex.
  destruct (entry_result_shape _ _ _ Hr Hex) as (reason & base & at_ & _ & -> & _). by repeat split.
Qed.

Lemma resolve_exit_cases st bar close tp sl st' : resolve_exit signal config st bar close tp sl = Ok st' ->
  LifecycleState.activated_at st' = LifecycleState.activated_at st
  /\ LifecycleState.status st' ∈ [LifecycleState.status st; SignalLifecycleStatus.TP_HIT; SignalLifecycleStatus.SL_HIT;
       SignalLifecycleStatus.AMBIGUOUS].
Proof using Type.
  unfold resolve_exit. destruct (tp && sl), (SignalLifecycleConfig.same_candle_policy config), tp, sl; intros Hr;
    repeat (apply bind_ok in Hr as (? & _ & Hr)); injection Hr as <-; cbn; split; try done; enumerated.
Qed.

(** What one step does to the status and the activation. *)
Lemma bar_step_cases inv previous bar st st' : step inv previous bar st = Ok st' ->
  if Candle.timestamp bar <? SignalLifecycleCandidate.created_at signal then st' = st
  else match LifecycleState.status st with
  | SignalLifecycleStatus.WAITING => exists r,
      policy_result signal exec bar previous (Candle.timestamp bar + timeframe_duration timeframe) = Ok r
      /\ (if EntryExecutionResult.executed r then
            LifecycleState.activated_at st' = LifecycleState.activated_at st
              /\ LifecycleState.status st' ∈ [SignalLifecycleStatus.CANCELLED; SignalLifecycleStatus.AMBIGUOUS]
            \/ LifecycleState.activated_at st' = EntryExecutionResult.executed_at r /\ is_some (LifecycleState.activated_at st') = true
              /\ LifecycleState.status st' ∈ [SignalLifecycleStatus.ACTIVE; SignalLifecycleStatus.TP_HIT;
                   SignalLifecycleStatus.SL_HIT; SignalLifecycleStatus.AMBIGUOUS]
          else LifecycleState.activated_at st' = LifecycleState.activated_at st
              /\ LifecycleState.status st' ∈ [SignalLifecycleStatus.WAITING; SignalLifecycleStatus.CANCELLED])
  | _ => LifecycleState.activated_at st' = LifecycleState.activated_at st
      /\ LifecycleState.status st' ∈ [LifecycleState.status st; SignalLifecycleStatus.TP_HIT; SignalLifecycleStatus.SL_HIT;
           SignalLifecycleStatus.AMBIGUOUS]
  end.
Proof using Type.
  unfold bar_step. destruct (_ <? _); [by intros [= <-]|].
  destruct (LifecycleState.status st) eqn:Es; try (intros Hr%resolve_exit_cases; by rewrite Es in Hr).
  rewrite policy_result_evidence. destruct (policy_result _ _ _ _ _) as [r|e]; cbn [fmap pyres_fmap mbind pyres_bind]; [|done].
  intros (broken & Hbroken & Hst)%bind_ok. exists r. split; [done|]. cbn [EntryExecutionEvidence.executed evidence_of] in *.
  destruct broken as [s|].
  - injection Hst as <-. destruct inv as [i|]; [|done]. unfold invalidate_waiting in Hbroken.
    destruct (_ <=? Candle.timestamp bar).
    { apply bind_ok in Hbroken as (? & _ & [= <-]). destruct (EntryExecutionResult.executed r); [left|]; cbn; enumerated. }
    destruct (_ <=? _); [|done]. destruct (EntryExecutionResult.executed r);
      apply bind_ok in Hbroken as (? & _ & [= <-]); [left|]; cbn; enumerated.
  - destruct (EntryExecutionResult.executed r); cbn [negb] in Hst; [|injection Hst as <-; cbn; enumerated].
    right. unfold activate in Hst. cbn [EntryExecutionEvidence.executed_at EntryExecutionEvidence.executed_entry_price evidence_of] in Hst.
    destruct (EntryExecutionResult.executed_at r), (EntryExecutionResult.executed_entry_price r); try done.
    apply bind_ok in Hst as (event & _ & Hst). destruct (_ && _).
    + apply bind_ok in Hst as (? & _ & [= <-]). cbn. split_and!; try done. enumerated.
    + destruct (negb _); [injection Hst as <-; cbn; split_and!; try done; enumerated|].
      apply resolve_exit_cases in Hst as [Ha Hs]. cbn in Ha, Hs. rewrite Ha. by split_and!.
Qed.

Lemma capture_step_inv inv previous bar st st' captured captured' :
  TERMINAL_STATUSES (LifecycleState.status st) = false -> capture_inv st captured ->
  capture previous bar st captured = Ok captured' -> step inv previous bar st = Ok st' -> capture_inv st' captured'.
Proof using Type.
  intros Ht Hinv Hcap Hst%bar_step_cases. unfold capture_step in Hcap.
  destruct (_ <? _); [by simplify_eq|].
  destruct (LifecycleState.status st) eqn:Es; try done.
  - destruct Hst as (r & Hr & Hst). rewrite Hr in Hcap. cbn [mbind pyres_bind] in Hcap. injection Hcap as <-.
    destruct captured as [e|]; cbn [capture_inv] in Hinv.
    { rewrite Es in Hinv. exfalso. destruct Hinv as (_ & [(_ & ?)|(_ & _ & ?)]); enumerated. }
    destruct Hinv as [Ha _]. rewrite Ha in Hst. destruct (EntryExecutionResult.executed r) eqn:Ex; cbn [capture_inv]; [|exact Hst].
    split; [by eapply policy_result_entry|]. exact Hst.
  - injection Hcap as <-. destruct captured as [e|]; cbn [capture_inv] in *; rewrite Es in Hinv.
    + destruct Hinv as (He & [(_ & ?)|(Ha & Hsome & _)]); [enumerated|]. split; [done|]. right. destruct Hst as [-> Hs].
      split_and!; [done..|]. enumerated.
    + destruct Hinv as [_ ?]. enumerated.
Qed.

Lemma replay_capturing_inv inv previous bars st captured st' captured' :
  capture_inv st captured -> loop inv previous bars st captured = Ok (st', captured') -> capture_inv st' captured'.
Proof using Type.
  revert previous st captured; induction bars as [|bar bars IH]; intros previous st captured Hinv; cbn [replay_capturing].
  { by intros [= <- <-]. }
  destruct (TERMINAL_STATUSES _) eqn:Ht; [by intros [= <- <-]|].
  intros (c & Hc & (s & Hs & Hr)%bind_ok)%bind_ok. eapply IH; [|exact Hr]. by eapply capture_step_inv.
Qed.

(** A captured entry is never replaced by later bars. *)
Lemma captured_kept inv previous bars st e st' captured' :
  capture_inv st (Some e) -> loop inv previous bars st (Some e) = Ok (st', captured') -> captured' = Some e.
Proof using Type.
  revert previous st; induction bars as [|bar bars IH]; intros previous st Hinv; cbn [replay_capturing]; [by intros [= _ <-]|].
  destruct (TERMINAL_STATUSES _) eqn:Ht; [by intros [= _ <-]|].
  intros (c & Hc & (s & Hs & Hr)%bind_ok)%bind_ok.
  assert (c = Some e) as ->.
  { unfold capture_step in Hc. destruct (_ <? _); [by injection Hc|].
    destruct (LifecycleState.status st) eqn:Es; try (by injection Hc). exfalso.
    cbn [capture_inv] in Hinv. rewrite Es in Hinv. destruct Hinv as (_ & [(_ & ?)|(_ & _ & ?)]); enumerated. }
  eapply IH; [|exact Hr]. by eapply capture_step_inv.
Qed.

Lemma replay_init_capture inv st : replay_init signal inv = Ok st -> capture_inv st None.
Proof using Type.
  unfold replay_init. intros (created & _ & Hst)%bind_ok. destruct inv as [i|]; [|injection Hst as <-; cbn; enumerated].
  destruct (_ =? _); [apply bind_ok in Hst as (? & _ & [= <-])|injection Hst as <-]; cbn; enumerated.
Qed.
End replay.

(** ** Evaluating a signal again *)

Lemma entry_eqb_refl e : entry_eqb e e = true.
Proof.
  unfold entry_eqb. rewrite !bool_decide_true by done. by rewrite !deqb_refl, !opt_deqb_refl.
Qed.

Section again.
Context {T : Type} (policy : SameCandlePolicy) (exec : ExecutionConfig).

Abbreviation config := (SignalLifecycleConfig.mkSignalLifecycleConfig policy).
Abbreviation evaluate := (evaluate_runtime (T := T) policy exec).

(** A signal that was never evaluated. *)
Definition unevaluated (candidate : DeterministicSignalCandidate T) (invalidation : option StructuralInvalidation) : _RuntimeSignal T :=
  _RuntimeSignal.mk_RuntimeSignal _ candidate invalidation None None None false.

(** The one-shot evaluation: the lifecycle replayed once over [visible]. *)
Definition one_shot (visible : list Candle) (candidate : DeterministicSignalCandidate T)
    (invalidation : option StructuralInvalidation) : pyres (_RuntimeSignal T) :=
  evaluate visible (unevaluated candidate invalidation).

Lemma replay_with_capture_ok signal timeframe inv candles lifecycle captured :
  replay_with_capture signal timeframe config exec inv candles = Ok (lifecycle, captured) ->
  exists init st, replay_init signal inv = Ok init
    /\ replay_capturing signal timeframe config exec inv None candles init None = Ok (st, captured)
    /\ lifecycle = result_of signal st /\ capture_inv signal st captured
    /\ SignalLifecycleResult.validate_status_timestamps lifecycle = true.
Proof using Type.
  unfold replay_with_capture. intros ([] & _ & (init & Hinit & ([st cap] & Hloop & Hr)%bind_ok)%bind_ok)%bind_ok.
  apply bind_ok in Hr as (r & [Hvalid <-]%validated_ok & [= <- <-]).
  exists init, st. refine (conj Hinit (conj Hloop (conj eq_refl (conj _ Hvalid)))).
  eapply replay_capturing_inv; [|exact Hloop]. by eapply replay_init_capture.
Qed.

Lemma one_shot_ok visible candidate inv r : one_shot visible candidate inv = Ok r ->
  exists signal lifecycle captured execution,
    _lifecycle_candidate candidate = Ok signal
    /\ replay_with_capture signal (DeterministicSignalCandidate.timeframe candidate) config exec inv visible = Ok (lifecycle, captured)
    /\ r = _RuntimeSignal.mk_RuntimeSignal _ candidate inv (Some lifecycle) captured execution
             (TERMINAL_STATUSES (SignalLifecycleResult.status lifecycle))
    /\ (if TERMINAL_STATUSES (SignalLifecycleResult.status lifecycle)
        then _evaluate_execution candidate lifecycle visible exec captured = Ok execution else execution = None).
Proof using Type.
  unfold one_shot, evaluate_runtime, unevaluated. cbn [_RuntimeSignal.candidate _RuntimeSignal.invalidation
    _RuntimeSignal.entry_execution _RuntimeSignal.execution_evaluated _RuntimeSignal.execution].
  intros (signal & Hs & ([lifecycle captured] & Hr & (entry & He & H)%bind_ok)%bind_ok)%bind_ok.
  assert (entry = captured) as -> by (destruct captured; cbn in He; congruence).
  exists signal, lifecycle, captured. cbn [negb andb] in H. destruct (TERMINAL_STATUSES _) eqn:Ht.
  - apply bind_ok in H as (execution & Hx & [= <-]). by exists execution.
  - injection H as <-. by exists None.
Qed.

Lemma evaluate_execution_more (candidate : DeterministicSignalCandidate T) lifecycle visible more captured execution :
  _evaluate_execution candidate lifecycle visible exec captured = Ok execution ->
  _evaluate_execution candidate lifecycle (visible ++ more) exec captured = Ok execution.
Proof using Type.
  unfold _evaluate_execution. destruct (bool_decide _); [done|]. destruct captured as [entry|]; [|done].
  destruct (list.last _); [|done]. destruct (SignalLifecycleEvent.bar_timestamp _), (SignalLifecycleResult.terminal_at lifecycle); try done.
  assert (forall p, match List.find p visible with Some c => List.find p (visible ++ more) = Some c | None => True end) as Hf.
  { intros p. induction visible as [|c cs IH]; cbn [List.find app]; [done|]. by destruct (p c). }
  specialize (Hf (fun item => Candle.timestamp item =? z)).
  destruct (List.find _ visible); [by rewrite Hf|done].
Qed.

(** The invalidation known later, as the runner admits it. *)
Definition later_invalidation (candidate : DeterministicSignalCandidate T) (visible : list Candle)
    (known later : option StructuralInvalidation) : Prop :=
  later = known \/ known = None /\ exists i, later = Some i
    /\ DeterministicSignalCandidate.created_at candidate < StructuralInvalidation.confirmed_at i
    /\ Forall (fun bar => Candle.timestamp bar + timeframe_duration (DeterministicSignalCandidate.timeframe candidate)
         < StructuralInvalidation.confirmed_at i) visible.

Lemma lifecycle_candidate_created (candidate : DeterministicSignalCandidate T) signal : _lifecycle_candidate candidate = Ok signal ->
  SignalLifecycleCandidate.created_at signal = DeterministicSignalCandidate.created_at candidate.
Proof using Type. unfold _lifecycle_candidate. by intros [_ <-]%validated_ok. Qed.

(** Evaluating an evaluated signal on more candles, its invalidation known or
    new, is evaluating it once on all of them. *)
Lemma evaluate_again visible more candidate inv inv' r : one_shot visible candidate inv = Ok r ->
  later_invalidation candidate visible inv inv' ->
  evaluate (visible ++ more) (_RuntimeSignal.mk_RuntimeSignal _ candidate inv' (_RuntimeSignal.lifecycle r)
    (_RuntimeSignal.entry_execution r) (_RuntimeSignal.execution r) (_RuntimeSignal.execution_evaluated r))
  = one_shot (visible ++ more) candidate inv'.
Proof using Type.
  intros (signal & lc & cap & execution & Hs & Hr & -> & Hx)%one_shot_ok Hinv.
  apply replay_with_capture_ok in Hr as (init & st & Hinit & Hloop & -> & Hci & _).
  cbn [_RuntimeSignal.lifecycle _RuntimeSignal.entry_execution _RuntimeSignal.execution _RuntimeSignal.execution_evaluated].
  set (tf := DeterministicSignalCandidate.timeframe candidate) in *.
  assert (replay_init signal inv' = Ok init
    /\ replay_capturing signal tf config exec inv' None visible init None = Ok (st, cap)) as [Hinit' Hloop'].
  { destruct Hinv as [->|(-> & i & -> & Hcr & Hb)]; [done|].
    rewrite init_later_invalidation by (by rewrite (lifecycle_candidate_created _ _ Hs)).
    by rewrite replay_later_invalidation. }
  unfold one_shot, evaluate_runtime, unevaluated. cbn [_RuntimeSignal.candidate _RuntimeSignal.invalidation
    _RuntimeSignal.entry_execution _RuntimeSignal.execution_evaluated _RuntimeSignal.execution].
  rewrite Hs. cbn [mbind pyres_bind]. fold tf.
  destruct (replay_with_capture signal tf config exec inv' (visible ++ more)) as [[lc2 cap2]|] eqn:E2; [|done].
  cbn [mbind pyres_bind].
  apply replay_with_capture_ok in E2 as (init2 & st2 & Hi2 & Hl2 & -> & _ & _).
  assert (init2 = init) as -> by congruence. rewrite replay_capturing_app, Hloop' in Hl2. cbn [mbind pyres_bind] in Hl2.
  assert (merge_entry cap cap2 = Ok cap2 /\ merge_entry None cap2 = Ok cap2) as [-> ->].
  { destruct cap as [e|].
    - apply captured_kept in Hl2; [|done]. subst cap2. cbn. by rewrite entry_eqb_refl.
    - by destruct cap2. }
  cbn [mbind pyres_bind]. cbn [result_of SignalLifecycleResult.status] in Hx |- *.
  destruct (TERMINAL_STATUSES (LifecycleState.status st)) eqn:Ht; cbn [negb andb].
  - rewrite replay_capturing_terminal in Hl2 by done. injection Hl2 as <- <-. rewrite Ht.
    by rewrite (evaluate_execution_more _ _ _ _ _ _ Hx).
  - by subst execution.
Qed.
End again.

(** ** The events of one symbol are strictly increasing *)

Lemma series_keys historical config m : BacktestConfig.validate_timeframes config = true ->
  _validate_and_index historical config = Ok m -> NoDup (map fst m).
Proof.
  unfold BacktestConfig.validate_timeframes. intros Hcfg (ctf & parts & _ & -> & Hp)%validate_and_index_ok. bool_hyps.
  assert (NoDup (input_symbols historical)) as Hnd by apply NoDup_remove_dups.
  assert (Forall2 (fun symbol part => map (B := SeriesKey) fst part = map (pair symbol) (BacktestConfig.required_timeframes config))
    (input_symbols historical) parts) as Hk.
  { eapply Forall2_impl; [exact Hp|]. cbn. intros symbol part (source & final & _ & _ & Hd)%derive_symbol_ok.
    clear -Hd. induction Hd as [|tf e tfs part [He _] _ IH]; [done|]. change (fst e :: map fst part = (symbol, tf) :: map (pair symbol) tfs). by f_equal. }
  clear Hp. induction Hk as [|symbol part symbols parts Hpart Hrest IH]; [constructor|].
  apply NoDup_cons in Hnd as [Hs Hnd]. cbn [concat]. rewrite map_app. apply NoDup_app. refine (conj _ (conj _ (IH Hnd))).
  - rewrite Hpart. by apply (NoDup_fmap_2 (pair symbol)).
  - intros key Hkey Hin. rewrite Hpart in Hkey. apply list_elem_of_fmap in Hkey as (tf & -> & _). apply Hs.
    clear -Hin Hrest. induction Hrest as [|s p ss ps Hp _ IH]; [by apply elem_of_nil in Hin|]. cbn [concat] in Hin.
    rewrite map_app, Hp in Hin. apply elem_of_app in Hin as [Hin|Hin]; [|constructor; auto].
    apply list_elem_of_fmap in Hin as (tf' & [= -> _] & _). constructor.
Qed.

Lemma close_times_nodup timeframe candles : ascending candles ->
  NoDup (map (fun candle => Candle.timestamp candle + timeframe_duration timeframe) candles).
Proof.
  intros Ha%ascending_nodup. revert Ha. induction candles as [|c cs IH]; cbn [map]; intros Ha; [constructor|].
  apply NoDup_cons in Ha as [Hc Ha]. constructor; [|auto]. intros Hin. apply Hc.
  apply list_elem_of_fmap in Hin as (c' & E & Hc'). apply list_elem_of_fmap. exists c'. split; [lia|done].
Qed.

Lemma raw_events_nodup m timeframe : NoDup (map fst m) -> (forall key cs, (key, cs) ∈ m -> ascending cs) ->
  NoDup (raw_events m timeframe).
Proof.
  induction m as [|[[symbol tf] candles] m IH]; intros Hnd Ha; [constructor|].
  cbn [map fst] in Hnd. apply NoDup_cons in Hnd as [Hk Hnd]. unfold raw_events. cbn [flat_map].
  fold (raw_events m timeframe). specialize (IH Hnd ltac:(intros; eapply Ha; constructor; eassumption)).
  case_bool_decide as E; [|exact IH]. subst tf. apply NoDup_app. refine (conj _ (conj _ IH)).
  - pose proof (close_times_nodup timeframe candles (Ha _ _ ltac:(constructor))) as Hc.
    apply (NoDup_fmap_1 fst). rewrite <-list_fmap_compose. exact Hc.
  - intros event Hin Hin'. apply list_elem_of_fmap in Hin as (c & -> & _). apply Hk.
    unfold raw_events in Hin'. apply elem_of_flat_map in Hin' as ([[s tf] cs] & Hm & Hin').
    case_bool_decide; [|by apply elem_of_nil in Hin']. subst tf. apply list_elem_of_fmap in Hin' as (c' & [= _ <-] & _).
    apply list_elem_of_fmap. by exists ((symbol, timeframe), cs).
Qed.

(** Events of the same symbol are at increasing instants. *)
Definition events_in_order (events : list Event) : Prop :=
  StronglySorted (fun e e' => snd e = snd e' -> fst e < fst e') events.

Lemma events_increasing m timeframe events : NoDup (map fst m) -> (forall key cs, (key, cs) ∈ m -> ascending cs) ->
  _evaluation_events m timeframe = Ok events -> events_in_order events.
Proof.
  intros Hnd Ha He. unfold _evaluation_events in He. apply bind_ok in He as ([] & _ & [= <-]).
  pose proof (raw_events_nodup m timeframe Hnd Ha) as Hr.
  rewrite (sort_by_Permutation event_order (raw_events m timeframe)) in Hr.
  assert (StrictWeak event_order) by (unfold event_order; apply lex_lt_sw; apply on_key_sw; typeclasses eauto).
  pose proof (sort_by_ordered event_order (raw_events m timeframe)) as Hs. unfold events_in_order, ordered in *.
  revert Hr. induction Hs as [|e l Hl IH He]; intros Hr; [constructor|]. apply NoDup_cons in Hr as [Hin Hr].
  constructor; [auto|]. rewrite List.Forall_forall in *. intros e' Hin' Es. specialize (He e' Hin').
  unfold event_order, lex_lt, on_key in He. destruct (Z.ltb_spec (fst e') (fst e)); [done|].
  destruct (Z.eq_dec (fst e) (fst e')) as [E|]; [|lia]. exfalso. apply Hin. apply list_elem_of_In.
  by replace e with e' by (destruct e, e'; cbn in *; congruence).
Qed.

(** Later cutoffs show more of a series. *)
Lemma visible_extends timeframe candles a b : ascending candles -> a <= b ->
  exists more, List.filter (closed_by timeframe b) candles = List.filter (closed_by timeframe a) candles ++ more.
Proof.
  intros Ha Hab. unfold ascending in Ha. induction candles as [|c cs IH]; [by exists []|]. cbn [map] in Ha.
  apply StronglySorted_inv in Ha as [Ha Hc]. destruct (IH Ha) as (more & E). cbn [List.filter]. unfold closed_by at 1 4.
  destruct (Z.leb_spec (Candle.timestamp c + timeframe_duration timeframe) a) as [H1|H1].
  - rewrite (proj2 (Z.leb_le _ _)) by lia. exists more. cbn [app]. f_equal. exact E.
  - assert (List.filter (closed_by timeframe a) cs = []) as ->; [|by eexists].
    rewrite List.Forall_forall in Hc.
    assert (forall x, x ∈ cs -> Candle.timestamp c < Candle.timestamp x) as Hall
      by (intros x Hx; apply Hc, in_map; by apply list_elem_of_In).
    clear -Hall H1. induction cs as [|x cs IH]; [done|]. cbn [List.filter]. unfold closed_by at 1.
    pose proof (Hall x ltac:(constructor)). rewrite (proj2 (Z.leb_gt _ _)) by lia. apply IH.
    intros; apply Hall. by constructor.
Qed.

(** ** The loop over the events *)

Section events.
Context {T State : Type} `{CandidateSnapshot T} (engine : StrategyEngine T State) (config : BacktestConfig) (m : SeriesMap).
Context (Hasc : forall key cs, (key, cs) ∈ m -> ascending cs).

Abbreviation policy := (BacktestConfig.same_candle_policy config).
Abbreviation exec := (StrategyEngine.execution engine).
Abbreviation Entry := (RuntimeKey * _RuntimeSignal T)%type.

Definition runtime_key (r : _RuntimeSignal T) : RuntimeKey :=
  (DeterministicSignalCandidate.symbol (_RuntimeSignal.candidate r),
   DeterministicSignalCandidate.candidate_id (_RuntimeSignal.candidate r)).

(** The signal is what one replay over the candles closed by [as_of] makes of
    its candidate and invalidation. *)
Definition one_shot_at (as_of : datetime) (r : _RuntimeSignal T) : Prop :=
  let candidate := _RuntimeSignal.candidate r in
  exists series,
    assoc (K := SeriesKey) (DeterministicSignalCandidate.symbol candidate, DeterministicSignalCandidate.timeframe candidate) m
      = Some series
    /\ DeterministicSignalCandidate.created_at candidate <= as_of
    /\ one_shot policy exec
         (List.filter (closed_by (DeterministicSignalCandidate.timeframe candidate) as_of) series) candidate
         (_RuntimeSignal.invalidation r) = Ok r.

(** Between two events: every signal is as of the last event of its symbol. *)
Definition settled (seen : list Event) (entry : Entry) : Prop :=
  let '(key, r) := entry in
  key = runtime_key r /\ exists as_of, last_evaluation seen (fst key) = Some as_of /\ one_shot_at as_of r.

(** Within an event: a new signal, or a settled one, perhaps with a new
    invalidation of the event's symbol. *)
Definition admitted (seen : list Event) (as_of : datetime) (symbol : MarketSymbol) (entry : Entry) : Prop :=
  let '(key, r) := entry in
  key = runtime_key r /\ exists r0,
    (r0 = unevaluated (_RuntimeSignal.candidate r0) None
       /\ DeterministicSignalCandidate.created_at (_RuntimeSignal.candidate r0) = as_of /\ fst key = symbol
     \/ settled seen (key, r0))
    /\ (r = r0 \/ _RuntimeSignal.invalidation r0 = None /\ fst key = symbol
          /\ exists i, StructuralInvalidation.confirmed_at i = as_of /\ r = _RuntimeSignal.with_invalidation r0 i).

Lemma settled_admitted seen as_of symbol entry : settled seen entry -> admitted seen as_of symbol entry.
Proof using Type. destruct entry as [key r]. intros Hs. split; [by destruct Hs|]. exists r. auto. Qed.

Lemma admit_candidate_ok seen as_of symbol runtimes candidate runtimes' :
  DeterministicSignalCandidate.symbol candidate = symbol ->
  Forall (admitted seen as_of symbol) runtimes -> admit_candidate as_of runtimes candidate = Ok runtimes' ->
  Forall (admitted seen as_of symbol) runtimes'.
Proof using Type.
  intros Hs Hr. unfold admit_candidate. destruct (assoc _ _) as [existing|].
  - intros ([] & _ & [= <-])%bind_ok. done.
  - intros ([] & Hc & [= <-])%bind_ok. bool_hyps. apply Z.eqb_eq in Hc. apply Forall_app. split; [done|].
    constructor; [|constructor]. split; [done|]. exists (_RuntimeSignal.fresh candidate). split; [|by left].
    left. by rewrite Hs.
Qed.

Lemma Forall_runtime_set (P : Entry -> Prop) key r runtimes : Forall P runtimes -> P (key, r) ->
  Forall P (runtime_set key r runtimes).
Proof using Type.
  intros Hr Hk. unfold runtime_set. induction Hr as [|e l He _ IH]; cbn [map]; constructor; [|done].
  by case_bool_decide.
Qed.

Lemma admit_invalidation_ok seen as_of symbol runtimes invalidation runtimes' :
  Forall (admitted seen as_of symbol) runtimes -> admit_invalidation as_of symbol runtimes invalidation = Ok runtimes' ->
  Forall (admitted seen as_of symbol) runtimes'.
Proof using Type.
  intros Hr. unfold admit_invalidation. destruct (assoc _ _) as [r|] eqn:E; [|done].
  destruct (_RuntimeSignal.invalidation r) as [known|] eqn:Ei.
  - by intros ([] & _ & [= <-])%bind_ok.
  - intros ([] & Hc & [= <-])%bind_ok. bool_hyps. apply Z.eqb_eq in Hc. apply Forall_runtime_set; [done|].
    apply assoc_elem in E. rewrite Forall_forall in Hr. specialize (Hr _ E) as (Hk & r0 & H0 & Hcase).
    split; [exact Hk|]. exists r0. split; [exact H0|]. right.
    destruct Hcase as [->|(_ & _ & i & _ & ->)]; [|done].
    split; [done|]. split; [done|]. by eexists.
Qed.

Lemma last_evaluation_snoc seen as_of symbol s : last_evaluation (seen ++ [(as_of, symbol)]) s
  = if bool_decide (symbol = s) then Some as_of else last_evaluation seen s.
Proof using Type.
  unfold last_evaluation. rewrite List.filter_app. cbn [List.filter snd]. case_bool_decide.
  - by rewrite last_snoc.
  - by rewrite app_nil_r.
Qed.

Lemma admitted_evaluated seen as_of symbol key r series r' :
  (forall earlier, last_evaluation seen symbol = Some earlier -> earlier < as_of) ->
  admitted seen as_of symbol (key, r) -> fst key = symbol ->
  assoc (K := SeriesKey) (symbol, DeterministicSignalCandidate.timeframe (_RuntimeSignal.candidate r)) m = Some series ->
  evaluate_runtime policy exec
    (List.filter (closed_by (DeterministicSignalCandidate.timeframe (_RuntimeSignal.candidate r)) as_of) series) r = Ok r' ->
  key = runtime_key r' /\ one_shot_at as_of r'.
Proof using Hasc.
  intros Hlast (Hk & r0 & H0 & Hcase) Hsym Hseries Hr.
  assert (forall candidate inv visible, evaluate_runtime policy exec visible r = one_shot policy exec visible candidate inv ->
    visible = List.filter (closed_by (DeterministicSignalCandidate.timeframe (_RuntimeSignal.candidate r)) as_of) series ->
    candidate = _RuntimeSignal.candidate r -> inv = _RuntimeSignal.invalidation r ->
    DeterministicSignalCandidate.created_at candidate <= as_of -> key = runtime_key r' /\ one_shot_at as_of r') as Hdone.
  { intros candidate inv visible Heq -> -> -> Hcr. rewrite Hr in Heq. symmetry in Heq. pose proof Heq as Hone.
    apply one_shot_ok in Heq as (signal & lc & cap & execution & _ & _ & -> & _).
    split; [exact Hk|]. exists series. cbn [_RuntimeSignal.candidate _RuntimeSignal.invalidation].
    rewrite Hk in Hsym. cbn in Hsym. rewrite Hsym. split; [exact Hseries|]. split; [exact Hcr|]. exact Hone. }
  destruct H0 as [(E0 & Hcr & _)|[_ (earlier & He & series0 & Hs0 & Hcr & Hone)]].
  - eapply (Hdone (_RuntimeSignal.candidate r) (_RuntimeSignal.invalidation r)); [|reflexivity..|].
    + unfold one_shot. f_equal. destruct Hcase as [->|(_ & _ & i & _ & ->)]; rewrite E0; done.
    + destruct Hcase as [->|(_ & _ & i & _ & ->)]; cbn; lia.
  - rewrite Hsym in He. specialize (Hlast _ He). cbv zeta in Hs0, Hcr, Hone.
    assert (_RuntimeSignal.candidate r = _RuntimeSignal.candidate r0) as Ec
      by (destruct Hcase as [->|(_ & _ & i & _ & ->)]; done).
    rewrite Hk in Hsym. cbn in Hsym. rewrite Ec in Hsym. rewrite Hsym in Hs0. rewrite Ec in Hseries. assert (series0 = series) as -> by congruence.
    assert (ascending series) as Ha by (eapply Hasc, assoc_elem, Hseries).
    set (tf := DeterministicSignalCandidate.timeframe (_RuntimeSignal.candidate r0)) in *.
    destruct (visible_extends tf series earlier as_of Ha ltac:(lia)) as (more & Hmore).
    eapply (Hdone (_RuntimeSignal.candidate r0) (_RuntimeSignal.invalidation r)); rewrite ?Ec; [|reflexivity..|lia].
    fold tf. rewrite Hmore. rewrite <-(evaluate_again policy exec _ more _ _ (_RuntimeSignal.invalidation r) r0 Hone).
    + f_equal. destruct Hcase as [->|(_ & _ & i & _ & ->)]; by destruct r0.
    + destruct Hcase as [->|(Hn & _ & i & Hi & ->)]; [by left|]. right. split; [done|]. exists i. split; [done|]. split; [lia|].
      apply Forall_forall. intros bar Hbar. apply list_elem_of_In, filter_In in Hbar as [_ Hbar].
      unfold closed_by in Hbar. apply Z.leb_le in Hbar. unfold tf in *. lia.
Qed.

Lemma evaluate_runtimes_settled seen as_of symbol runtimes runtimes' :
  (forall earlier, last_evaluation seen symbol = Some earlier -> earlier < as_of) ->
  Forall (admitted seen as_of symbol) runtimes ->
  evaluate_runtimes engine false config m as_of symbol runtimes = Ok runtimes' ->
  Forall (settled (seen ++ [(as_of, symbol)])) runtimes'.
Proof using Hasc.
  intros Hlast Hr Hm. unfold evaluate_runtimes in Hm. apply py_map_ok in Hm.
  induction Hm as [|[key r] entry runtimes runtimes' Hentry _ IH]; [constructor|]. apply Forall_cons in Hr as [Hr Hrs].
  constructor; [|auto]. cbn [fst] in Hentry. case_bool_decide as Hsym; cbn [negb] in Hentry.
  - apply bind_ok in Hentry as (series & Hs & (r' & Hr' & [= <-])%bind_ok). unfold series_get in Hs.
    destruct (assoc _ m) as [cs|] eqn:Ea; [|done]. injection Hs as ->.
    destruct (admitted_evaluated seen as_of symbol key r series r' Hlast Hr Hsym Ea Hr') as [Hk Hone].
    split; [exact Hk|]. exists as_of. rewrite last_evaluation_snoc, bool_decide_true by done. auto.
  - injection Hentry as <-. destruct Hr as (Hk & r0 & H0 & Hcase).
    destruct Hcase as [->|(_ & ? & _)]; [|done]. destruct H0 as [(_ & _ & ?)|Hs]; [done|].
    destruct Hs as (Hk' & earlier & He & Hone). split; [done|]. exists earlier.
    by rewrite last_evaluation_snoc, bool_decide_false by congruence.
Qed.

Lemma event_step_settled seen as_of symbol es runtimes n es' runtimes' n' :
  (forall earlier, last_evaluation seen symbol = Some earlier -> earlier < as_of) ->
  Forall (settled seen) runtimes ->
  event_step engine false config m (es, runtimes, n) (as_of, symbol) = Ok (es', runtimes', n') ->
  Forall (settled (seen ++ [(as_of, symbol)])) runtimes' /\ n' = n + 1.
Proof using Hasc.
  intros Hlast Hr. unfold event_step.
  intros (context & Hctx & ([output es2] & _ & ([] & Hval & Hrest)%bind_ok)%bind_ok)%bind_ok.
  apply bind_ok in Hrest as (adm & Hadm & (inv & Hinv & (fin & Hfin & [= <- <- <-])%bind_ok)%bind_ok).
  split; [|done]. eapply evaluate_runtimes_settled; [done| |exact Hfin].
  assert (StrategyEvaluationContext.symbol context = symbol) as Hsym.
  { unfold evaluation_context in Hctx. apply bind_ok in Hctx as (c & _ & [_ <-]%validated_ok). done. }
  assert (Forall (fun c => DeterministicSignalCandidate.symbol c = symbol) (StrategyEvaluationResult.candidates output)) as Hcs.
  { unfold _validate_strategy_output in Hval. apply bind_ok in Hval as ([] & _ & ([] & _ & Hval)%bind_ok).
    apply py_for_ok in Hval. eapply Forall_impl; [exact Hval|]. cbn. intros c Hc.
    apply bind_ok in Hc as ([] & _ & ([] & Hc & _)%bind_ok). bool_hyps. congruence. }
  assert (Forall (admitted seen as_of symbol) adm) as Ha.
  { eapply (py_fold_inv (admit_candidate as_of) (Forall (admitted seen as_of symbol))); [| |exact Hadm].
    - eapply Forall_impl; [exact Hr|]. intros entry. apply settled_admitted.
    - intros s c s2 Hc Hs. apply admit_candidate_ok; [|done]. rewrite Forall_forall in Hcs. by apply Hcs. }
  eapply (py_fold_inv (admit_invalidation as_of symbol) (Forall (admitted seen as_of symbol))); [exact Ha| |exact Hinv].
  intros s i s2 _ Hs. by apply admit_invalidation_ok.
Qed.

Lemma replay_events_settled seen events es runtimes n es' runtimes' n' :
  events_in_order (seen ++ events) -> Forall (settled seen) runtimes ->
  py_fold (event_step engine false config m) (es, runtimes, n) events = Ok (es', runtimes', n') ->
  Forall (settled (seen ++ events)) runtimes' /\ n' = n + Z.of_nat (length events).
Proof using Hasc.
  revert seen es runtimes n; induction events as [|[as_of symbol] events IH]; intros seen es runtimes n Hinc Hr Hf; cbn [py_fold] in Hf.
  { injection Hf as <- <- <-. rewrite app_nil_r. split; [done|]. cbn. lia. }
  destruct (event_step _ _ _ _ _ _) as [[[es1 runtimes1] n1]|] eqn:Hstep; [|done].
  apply event_step_settled with (seen := seen) in Hstep as [Hs ->]; [| |done].
  - rewrite cons_middle, app_assoc in Hinc |- *.
    destruct (IH _ _ _ _ Hinc Hs Hf) as [Hfin ->]. split; [done|]. cbn [length]. lia.
  - intros earlier He. unfold last_evaluation in He. destruct (list.last _) as [[t s]|] eqn:El; [|done]. injection He as <-.
    apply last_Some_elem_of, list_elem_of_In, filter_In in El as [Hin Es]. apply bool_decide_eq_true in Es. cbn in Es. subst s.
    unfold events_in_order in Hinc. apply StronglySorted_app in Hinc as (Hcross & _ & _).
    apply (Hcross (t, symbol) (as_of, symbol)); [by apply list_elem_of_In|constructor|done].
Qed.
End events.

Lemma replay_one_shot {T State} `{CandidateSnapshot T} (engine : StrategyEngine T State) engine_state optimized
    historical config m events final runtimes n :
  history_valid historical -> BacktestConfig.validate_timeframes config = true ->
  _validate_and_index historical config = Ok m ->
  _evaluation_events m (BacktestConfig.evaluation_timeframe config) = Ok events ->
  replay_events engine optimized config m engine_state events = Ok (final, runtimes, n) ->
  n = Z.of_nat (length events)
  /\ forall key r, (key, r) ∈ runtimes ->
       key = runtime_key r /\ exists as_of, last_evaluation events (fst key) = Some as_of /\ one_shot_at engine config m as_of r.
Proof.
  intros Hv Hcfg Hm He Hrun.
  assert (forall key cs, (key, cs) ∈ m -> ascending cs) as Hasc by (intros; by eapply series_ascending).
  rewrite (replay_events_view engine config optimized false m m) in Hrun.
  - apply (replay_events_settled engine config m Hasc []) in Hrun as [Hs ->]; [|by eapply events_increasing; [eapply series_keys| |]|constructor].
    cbn [app] in Hs. split; [lia|]. intros key r Hin. rewrite Forall_forall in Hs. exact (Hs _ Hin).
  - intros event _. unfold same_view. apply Forall_Forall2_diag, Forall_forall. intros [key candles] Hin. split; [done|].
    destruct optimized; [|done]. apply visible_indexed. eauto.
Qed.

(** C5. The event-by-event replay of a backtest refines a one-shot
    specification. However the strategy engine behaves, when the run over the
    events returns, it made one evaluation per event, and every signal in its
    table is exactly what a single replay makes of it: its lifecycle over all
    candles closed by the last event of its symbol with its final
    invalidation, its entry as captured by that replay, and its exit executed
    on that lifecycle's terminal bar. *)
Theorem backtest_refines_one_shot {T State} `{CandidateSnapshot T} (engine : StrategyEngine T State) engine_state optimized
    historical config m events final runtimes n :
  history_valid historical -> BacktestConfig.validate_timeframes config = true ->
  _validate_and_index historical config = Ok m ->
  _evaluation_events m (BacktestConfig.evaluation_timeframe config) = Ok events ->
  replay_events engine optimized config m engine_state events = Ok (final, runtimes, n) ->
  n = Z.of_nat (length events)
  /\ forall key r, (key, r) ∈ runtimes ->
       key = runtime_key r /\ exists as_of, last_evaluation events (fst key) = Some as_of /\ one_shot_at engine config m as_of r.
Proof. apply replay_one_shot. Qed.
