(* ===== verification/RunnerReport.v ===== *)
(** The report of a backtest: which signals become trades, and when the report
    and its metrics can be built. *)
From Stdlib Require Import ZArith QArith Lia Lqa Sorting.Sorted Sorting.Permutation.
From stdpp Require Import base strings numbers pretty sorting list sets.
From S2P Require Import Prelude Decimal Time Candle Signal Lifecycle LifecycleTheory Execution ExecutionTheory.
From S2P Require Import Metrics MetricsTheory Resampling ResamplingTheory Runner RunnerTheory RunnerReplay.
Local Open Scope Z_scope.

(** ** The exit of a signal *)

(** A result of the exit policy passed its schema and repeats its entry; no
    result means that the lifecycle was ambiguous. *)
Lemma terminal_candle_result request config result : execute_terminal_candle request config = Ok result ->
  match result with
  | Some x => ExecutionResult.validate_arithmetic x = true
      /\ ExecutionResult.entry_execution x = ExecutionRequest.entry_execution request
  | None => ExecutionRequest.lifecycle_status request = SignalLifecycleStatus.AMBIGUOUS
  end.
Proof.
  unfold execute_terminal_candle. destruct (exit_decision request) as [[reason gap]|] eqn:Ed.
  - destruct (EntryExecutionResult.executed_entry_price _); [|done]. intros ([] & _ & Hx)%bind_ok.
    destruct (EntryExecutionResult.base_entry_execution_price _),
      (EntryExecutionResult.actual_entry_risk (ExecutionRequest.entry_execution request)); try done.
    apply bind_ok in Hx as (gr & _ & (nr & _ & (x & [Hvalid <-]%validated_ok & [= <-])%bind_ok)%bind_ok). done.
  - intros [= <-]. unfold exit_decision in Ed. by repeat case_match.
Qed.

Lemma evaluate_execution_result {T} (candidate : DeterministicSignalCandidate T) lifecycle visible exec captured execution :
  _evaluate_execution candidate lifecycle visible exec captured = Ok execution ->
  match execution with
  | Some x => ExecutionResult.validate_arithmetic x = true /\ captured = Some (ExecutionResult.entry_execution x)
  | None => captured = None \/ BacktestTrade.price_resolved (SignalLifecycleResult.status lifecycle) = false
  end.
Proof.
  unfold _evaluate_execution. case_bool_decide as Hs; [intros [= <-]; right; by rewrite Hs|].
  destruct captured as [entry|]; [|intros [= <-]; by left]. destruct (list.last _); [|done].
  destruct (SignalLifecycleEvent.bar_timestamp _), (SignalLifecycleResult.terminal_at lifecycle); try done.
  destruct (List.find _ _); [|done]. intros (request & [_ <-]%validated_ok & Hx)%bind_ok.
  apply terminal_candle_result in Hx. destruct execution as [x|].
  - destruct Hx as [Hv He]. split; [done|]. by rewrite He.
  - cbn in Hx. rewrite Hx. by right.
Qed.

Lemma result_fields x : ExecutionResult.validate_arithmetic x = true ->
  (0 < Qval (ExecutionResult.planned_risk x) /\ 0 <= Qval (ExecutionResult.spread_cost x)
   /\ 0 <= Qval (ExecutionResult.commission_cost x))%Q.
Proof.
  unfold ExecutionResult.validate_arithmetic, ExecutionResult.fields_valid. intros Hv. bool_hyps.
  repeat match goal with Hx : dltb (D 0) _ = true |- _ => rewrite dltb_true, Qval_D0 in Hx
                    | Hx : dleb (D 0) _ = true |- _ => rewrite dleb_true, Qval_D0 in Hx end.
  split_and!; assumption.
Qed.

Lemma cost_r_total x : ExecutionResult.validate_arithmetic x = true ->
  ddiv_py prec (dadd prec (ExecutionResult.spread_cost x) (ExecutionResult.commission_cost x)) (ExecutionResult.planned_risk x)
  = Ok (BacktestTrade.cost_r x) /\ dleb (D 0) (BacktestTrade.cost_r x) = true.
Proof.
  intros (Hp & Hs & Hc)%result_fields. split; [apply ddiv_py_ok; lra|]. apply dleb_true. rewrite Qval_D0.
  apply (ddiv_nonneg (p := prec)); [done|]. by apply (dadd_nonneg (p := prec)).
Qed.

(** ** From signal to trade *)

(** An entry was captured although the lifecycle never activated the signal. *)
Definition unactivated_entry {T} (r : _RuntimeSignal T) : bool :=
  is_some (_RuntimeSignal.entry_execution r)
  && match _RuntimeSignal.lifecycle r with
     | Some lifecycle => negb (is_some (SignalLifecycleResult.activated_at lifecycle))
     | None => false
     end.

Lemma lifecycle_candidate_levels {T} (candidate : DeterministicSignalCandidate T) signal : _lifecycle_candidate candidate = Ok signal ->
  SignalLifecycleCandidate.validate_trade_levels signal = true
  /\ SignalLifecycleCandidate.signal_id signal = DeterministicSignalCandidate.candidate_id candidate
  /\ SignalLifecycleCandidate.entry_reference signal = DeterministicSignalCandidate.entry_reference candidate
  /\ SignalLifecycleCandidate.entry_zone signal = DeterministicSignalCandidate.entry_zone candidate.
Proof. unfold _lifecycle_candidate. intros [Hv <-]%validated_ok. done. Qed.

Definition VALIDATION_ERROR : pyexc := Exc "ValidationError" "".

(** The trade before its validation. *)
Definition trade_record {T} (candidate : DeterministicSignalCandidate T) (lifecycle : SignalLifecycleResult)
    (entry : option EntryExecutionResult) (execution : option ExecutionResult) : BacktestTrade :=
  let '(status, result, closed_at) := trade_outcome_of lifecycle execution in
  BacktestTrade.mkBacktestTrade (DeterministicSignalCandidate.candidate_id candidate)
    (DeterministicSignalCandidate.symbol candidate) (DeterministicSignalCandidate.timeframe candidate)
    (DeterministicSignalCandidate.direction candidate) (DeterministicSignalCandidate.entry_zone candidate)
    (DeterministicSignalCandidate.entry_reference candidate) status
    (DeterministicSignalCandidate.created_at candidate) (SignalLifecycleResult.activated_at lifecycle) closed_at result
    (ExecutionResult.financial_outcome <$> execution) entry execution
    (ExecutionResult.gross_r <$> execution) (BacktestTrade.cost_r <$> execution) (ExecutionResult.net_r <$> execution).

(** The exit is that of the captured entry, and there is one when the
    lifecycle ended at a price. *)
Definition exit_matches (lifecycle : SignalLifecycleResult) (entry : option EntryExecutionResult)
    (execution : option ExecutionResult) : Prop :=
  match execution with
  | Some x => ExecutionResult.validate_arithmetic x = true /\ entry = Some (ExecutionResult.entry_execution x)
  | None => BacktestTrade.price_resolved (SignalLifecycleResult.status lifecycle) = false
  end.

Lemma to_trade_record {T} (candidate : DeterministicSignalCandidate T) inv lifecycle entry execution evaluated :
  exit_matches lifecycle entry execution ->
  _to_trade (_RuntimeSignal.mk_RuntimeSignal _ candidate inv (Some lifecycle) entry execution evaluated)
  = validated BacktestTrade.validate_execution_evidence (trade_record candidate lifecycle entry execution).
Proof.
  intros Hm. unfold _to_trade, trade_record.
  cbn [_RuntimeSignal.lifecycle _RuntimeSignal.entry_execution _RuntimeSignal.execution _RuntimeSignal.candidate].
  destruct (trade_outcome_of lifecycle execution) as [[status result] closed_at].
  destruct execution as [x|]; [|done]. by rewrite (proj1 (cost_r_total x (proj1 Hm))).
Qed.

Lemma trade_record_exit {T} (candidate : DeterministicSignalCandidate T) lifecycle entry execution :
  exit_matches lifecycle entry execution ->
  BacktestTrade.exit_consistent (trade_record candidate lifecycle entry execution) = true.
Proof.
  intros Hm. unfold BacktestTrade.exit_consistent, trade_record, trade_outcome_of. destruct execution as [x|].
  - destruct Hm as [Hv ->]. destruct (ExecutionResult.exit_reason x);
      cbn [BacktestTrade.status BacktestTrade.execution BacktestTrade.entry_execution BacktestTrade.financial_outcome
           BacktestTrade.gross_r BacktestTrade.pnl_r BacktestTrade.trading_cost_r fmap option_fmap option_map
           BacktestTrade.price_resolved is_some opt_entry_eqb opt_deqb];
      by rewrite entry_eqb_refl, !deqb_refl, bool_decide_true.
  - cbn in Hm |- *. by rewrite Hm.
Qed.

Lemma trade_record_entry {T} (candidate : DeterministicSignalCandidate T) signal st entry execution :
  _lifecycle_candidate candidate = Ok signal -> capture_inv signal st entry ->
  BacktestTrade.entry_consistent (trade_record candidate (result_of signal st) entry execution)
  = negb (is_some entry && negb (is_some (LifecycleState.activated_at st))).
Proof.
  intros (_ & Hid & Href & _)%lifecycle_candidate_levels Hinv.
  unfold BacktestTrade.entry_consistent, trade_record. destruct (trade_outcome_of _ _) as [[status result] closed_at].
  cbn [BacktestTrade.activated_at BacktestTrade.entry_execution BacktestTrade.candidate_id BacktestTrade.entry_reference
       result_of SignalLifecycleResult.activated_at].
  destruct entry as [e|]; cbn [capture_inv is_some entry_executed] in *.
  - destruct Hinv as ((Hex & Hcid & Hreq) & Hcase). rewrite Hex.
    destruct Hcase as [[-> _]|(Ha & Hsome & _)]; [done|]. rewrite Hsome, <-Ha, Hcid, Hid, Hreq, Href, deqb_refl.
    by rewrite !bool_decide_true.
  - destruct Hinv as [-> _]. done.
Qed.

Lemma trade_record_levels {T} (candidate : DeterministicSignalCandidate T) signal lifecycle entry execution :
  _lifecycle_candidate candidate = Ok signal -> exit_matches lifecycle entry execution ->
  let t := trade_record candidate lifecycle entry execution in
  BacktestTrade.fields_valid t = true
  /\ (dleb (EntryZone.low (BacktestTrade.entry_zone t)) (BacktestTrade.entry_reference t)
      && dleb (BacktestTrade.entry_reference t) (EntryZone.high (BacktestTrade.entry_zone t))) = true.
Proof.
  intros (Hlev & _ & Href & Hzone)%lifecycle_candidate_levels Hm. cbv zeta. unfold trade_record.
  destruct (trade_outcome_of _ _) as [[status result] closed_at]. unfold BacktestTrade.fields_valid.
  cbn [BacktestTrade.entry_zone BacktestTrade.entry_reference BacktestTrade.trading_cost_r].
  rewrite <-Href, <-Hzone. unfold SignalLifecycleCandidate.validate_trade_levels in Hlev. bool_hyps.
  rewrite !andb_true_iff. split_and!; try assumption.
  destruct execution as [x|]; [|done]. exact (proj2 (cost_r_total x (proj1 Hm))).
Qed.

Lemma lacks_close_record {T} (candidate : DeterministicSignalCandidate T) lifecycle entry execution :
  lacks_close (trade_record candidate lifecycle entry execution) = false.
Proof.
  unfold lacks_close, trade_record, trade_outcome_of. destruct execution as [x|]; [|done].
  by destruct (ExecutionResult.exit_reason x).
Qed.

(** What becomes of a signal: a validation error when its entry was captured
    without an activation, a checked trade otherwise. *)
Lemma one_shot_trade {T} policy exec visible (candidate : DeterministicSignalCandidate T) inv r :
  one_shot policy exec visible candidate inv = Ok r ->
  if unactivated_entry r then _to_trade r = Raise VALIDATION_ERROR
  else exists lifecycle, _RuntimeSignal.lifecycle r = Some lifecycle
    /\ let t := trade_record candidate lifecycle (_RuntimeSignal.entry_execution r) (_RuntimeSignal.execution r) in
       _to_trade r = Ok t /\ trade_ok t /\ lacks_close t = false.
Proof.
  intros (signal & lc & cap & execution & Hs & Hr & -> & Hx)%one_shot_ok.
  apply replay_with_capture_ok in Hr as (init & st & _ & _ & -> & Hinv & _).
  set (lc := result_of signal st) in *. unfold unactivated_entry.
  cbn [_RuntimeSignal.lifecycle _RuntimeSignal.entry_execution _RuntimeSignal.execution _RuntimeSignal.candidate].
  assert (exit_matches lc cap execution) as Hm.
  { unfold exit_matches. destruct (TERMINAL_STATUSES (SignalLifecycleResult.status lc)) eqn:Ht;
      [|subst execution; by destruct (SignalLifecycleResult.status lc)].
    apply evaluate_execution_result in Hx. destruct execution as [x|]; [done|]. destruct Hx as [->|Hx]; [|done].
    destruct Hinv as [_ Hst]. unfold lc. cbn [result_of SignalLifecycleResult.status] in *. clear -Hst.
    destruct (LifecycleState.status st); try done; enumerated. }
  rewrite to_trade_record by done. unfold validated, BacktestTrade.validate_execution_evidence.
  destruct (trade_record_levels candidate signal lc cap execution Hs Hm) as [Hf Hz]. rewrite Hf, Hz.
  pose proof (trade_record_entry candidate signal st cap execution Hs Hinv) as He. fold lc in He.
  rewrite (trade_record_exit candidate lc cap execution Hm), He. cbn [andb].
  change (SignalLifecycleResult.activated_at lc) with (LifecycleState.activated_at st).
  destruct (is_some cap && negb (is_some (LifecycleState.activated_at st))) eqn:E; cbn [negb andb]; [done|].
  exists lc. split; [done|]. split; [done|]. split; [|apply lacks_close_record]. split.
  - unfold BacktestTrade.validate_execution_evidence. rewrite Hf, Hz, (trade_record_exit candidate lc cap execution Hm), He. done.
  - intros x Hx'. unfold trade_record in Hx'. destruct (trade_outcome_of _ _) as [[? ?] ?]. cbn in Hx'. subst execution. apply Hm.
Qed.

(** ** The whole report *)

Lemma py_map_cases {A B} (f : A -> pyres B) (b : A -> bool) e (P : A -> B -> Prop) l :
  (forall x, x ∈ l -> if b x then f x = Raise e else exists y, f x = Ok y /\ P x y) ->
  if existsb b l then py_map f l = Raise e else exists ys, py_map f l = Ok ys /\ Forall2 P l ys.
Proof.
  induction l as [|x l IH]; intros Hf; cbn [existsb py_map]; [exists []; by split|].
  pose proof (Hf x ltac:(constructor)) as Hx. specialize (IH ltac:(intros; apply Hf; by constructor)).
  destruct (b x); cbn [orb]; [by rewrite Hx|]. destruct Hx as (y & -> & Hy).
  destruct (existsb b l); [by rewrite IH|]. destruct IH as (ys & -> & Hys). exists (y :: ys). by repeat constructor.
Qed.

Lemma trades_metrics trades : Forall (fun t => trade_ok t /\ lacks_close t = false) trades ->
  exists metrics, calculate_backtest_metrics trades = Ok metrics.
Proof.
  intros Ht. rewrite calculate_total by (intros t Hin; rewrite Forall_forall in Ht; by apply Ht).
  assert (existsb lacks_close trades = false) as ->; [|by eexists].
  apply not_true_iff_false. intros (t & Hin & Hl)%existsb_exists. rewrite Forall_forall in Ht.
  destruct (Ht t ltac:(by apply list_elem_of_In)) as [_ ?]. congruence.
Qed.

(** The trades are those of the signals, in the report's order. *)
Definition trades_of {T} (runtimes : Runtimes T) (trades : list BacktestTrade) : Prop :=
  exists ordered, Permutation ordered runtimes
    /\ Forall2 (fun entry t => exists lifecycle, _RuntimeSignal.lifecycle (snd entry) = Some lifecycle
         /\ t = trade_record (_RuntimeSignal.candidate (snd entry)) lifecycle (_RuntimeSignal.entry_execution (snd entry))
                  (_RuntimeSignal.execution (snd entry)) /\ trade_ok t) ordered trades.

(** C33. When the loop over the events has returned, only one thing can keep
    the report from being built: a signal whose entry was captured although
    its lifecycle never activated it, because the invalidation of the signal
    fell into the bar of the entry. Then the run ends with a validation error.
    Otherwise it returns a report with one trade for every signal, each
    passing its schema, and with metrics, whose computation cannot fail on
    these trades. *)
Theorem backtest_report_exact {T State} `{CandidateSnapshot T} (engine : StrategyEngine T State) engine_state optimized
    historical config m events ctf sources final runtimes n :
  history_valid historical -> BacktestConfig.validate_timeframes config = true ->
  StrategyEngine.configured_identity engine = StrategyEngine.strategy_identity engine ->
  _validate_and_index historical config = Ok m ->
  _evaluation_events m (BacktestConfig.evaluation_timeframe config) = Ok events ->
  canonical_timeframe_of config = Ok ctf -> _effective_canonical_sources m ctf events = Ok sources ->
  replay_events engine optimized config m engine_state events = Ok (final, runtimes, n) ->
  if existsb (fun entry => unactivated_entry (snd entry)) runtimes
  then run_backtest engine engine_state optimized historical config = Raise VALIDATION_ERROR
  else exists report, run_backtest engine engine_state optimized historical config = Ok report
    /\ BacktestReport.engine_evaluations report = Z.of_nat (length events)
    /\ trades_of runtimes (BacktestReport.trades report)
    /\ calculate_backtest_metrics (BacktestReport.trades report) = Ok (BacktestReport.metrics report).
Proof.
  intros Hv Hcfg Hid Hm He Hctf Hsrc Hrun.
  destruct (replay_one_shot engine engine_state optimized historical config m events final runtimes n Hv Hcfg Hm He Hrun) as [Hn Hone].
  pose proof (py_map_cases (fun entry => _to_trade (snd entry)) (fun entry => unactivated_entry (snd entry)) VALIDATION_ERROR
    (fun entry t => exists lifecycle, _RuntimeSignal.lifecycle (snd entry) = Some lifecycle
       /\ t = trade_record (_RuntimeSignal.candidate (snd entry)) lifecycle (_RuntimeSignal.entry_execution (snd entry))
                (_RuntimeSignal.execution (snd entry)) /\ trade_ok t /\ lacks_close t = false)
    (sort_by runtime_order runtimes)) as Htrades.
  rewrite (existsb_Permutation _ _ runtimes) in Htrades by (symmetry; apply sort_by_Permutation).
  unfold run_backtest. rewrite bool_decide_true by done. cbn [negb raise_if mbind pyres_bind].
  rewrite Hm. cbn [mbind pyres_bind]. rewrite He. cbn [mbind pyres_bind]. rewrite Hctf. cbn [mbind pyres_bind].
  rewrite Hsrc. cbn [mbind pyres_bind]. rewrite Hrun. cbn [mbind pyres_bind].
  destruct (existsb _ runtimes).
  - rewrite Htrades; [done|]. intros [key r] Hin. rewrite elem_of_sort_by in Hin.
    destruct (Hone key r Hin) as (_ & as_of & _ & series & _ & _ & Hshot). apply one_shot_trade in Hshot. cbn [snd].
    destruct (unactivated_entry r); [done|]. destruct Hshot as (lc & Hlc & Ht & Hok & Hl). eauto 10.
  - destruct Htrades as (trades & Hts & Hall).
    { intros [key r] Hin. rewrite elem_of_sort_by in Hin.
      destruct (Hone key r Hin) as (_ & as_of & _ & series & _ & _ & Hshot). apply one_shot_trade in Hshot. cbn [snd].
      destruct (unactivated_entry r); [done|]. destruct Hshot as (lc & Hlc & Ht & Hok & Hl). eauto 10. }
    rewrite Hts. cbn [mbind pyres_bind].
    assert (Forall (fun t => trade_ok t /\ lacks_close t = false) trades) as Hgood.
    { apply Forall_forall. intros t Hin. apply list_elem_of_lookup in Hin as [i Hi].
      destruct (Forall2_lookup_r _ _ _ _ _ Hall Hi) as (entry & _ & lc & _ & _ & Hok). done. }
    destruct (trades_metrics trades Hgood) as (metrics & Hmetrics). rewrite Hmetrics. cbn [mbind pyres_bind].
    assert (events <> []) as Hne.
    { unfold _evaluation_events in He. apply bind_ok in He as ([] & Hne & [= <-]). bool_hyps. exact Hne. }
    destruct events as [|first rest]; [done|]. cbn [head].
    destruct (list.last _) as [last_event|] eqn:El; [|by apply last_None in El].
    eexists. split; [done|]. cbn [BacktestReport.engine_evaluations BacktestReport.trades BacktestReport.metrics].
    split; [exact Hn|]. split; [|exact Hmetrics]. exists (sort_by runtime_order runtimes). split; [symmetry; apply sort_by_Permutation|].
    eapply Forall2_impl; [exact Hall|]. cbn. intros entry t (lc & ? & ? & ? & _). eauto.
Qed.

(** ** Concrete runs *)

#[export] Instance instant_snapshot : CandidateSnapshot Z := {
  snapshot_captured_at := fun s => s;
  snapshot_eqb := Z.eqb
}.

Definition sample_identity : StrategyIdentity := StrategyIdentity.mkStrategyIdentity "v1" "c" "b".

(** A long from the zone 99 to 101, created at the first close. *)
Definition sample_candidate : DeterministicSignalCandidate Z :=
  DeterministicSignalCandidate.mkDeterministicSignalCandidate _ "s1" MarketSymbol.XAUUSD Timeframe.ONE_MINUTE
    SignalDecision.LONG (EntryZone.mkEntryZone (D 99) (D 101)) (D 100) (D 110) (D 95) (D 2) 70 (minutes 1) (minutes 1)
    sample_identity.

(** An engine that returns the candidate at the first close and, at
    [invalidated_at], its invalidation. *)
Definition sample_evaluate (invalidated_at : datetime) (n : nat) (context : StrategyEvaluationContext)
    : pyres (StrategyEvaluationResult Z * nat) :=
  let as_of := StrategyEvaluationContext.as_of context in
  Ok (StrategyEvaluationResult.mkStrategyEvaluationResult _ as_of
        (if as_of =? minutes 1 then [sample_candidate] else [])
        (if as_of =? invalidated_at
         then [StrategySignalInvalidation.mkStrategySignalInvalidation "s1"
                 (StructuralInvalidation.mkStructuralInvalidation invalidated_at "swing-1" "broken")] else [])
        None, S n).

Definition sample_engine (invalidated_at : datetime) : StrategyEngine Z nat :=
  StrategyEngine.mkStrategyEngine _ _ sample_identity sample_identity (costs_example 0) (sample_evaluate invalidated_at).

Definition sample_bar (minute o h l c : Z) : Candle := Candle.mkCandle (minutes minute) (D o) (D h) (D l) (D c) (D 1).

(** The second bar opens inside the entry zone; the third reaches the target. *)
Definition sample_history : list HistoricalCandleSeries :=
  [HistoricalCandleSeries.mkHistoricalCandleSeries MarketSymbol.XAUUSD Timeframe.ONE_MINUTE
     [sample_bar 0 105 106 104 105; sample_bar 1 100 102 98 101; sample_bar 2 101 111 100 108]].

Definition longer_history : list HistoricalCandleSeries :=
  [HistoricalCandleSeries.mkHistoricalCandleSeries MarketSymbol.XAUUSD Timeframe.ONE_MINUTE
     [sample_bar 0 105 106 104 105; sample_bar 1 100 102 98 101; sample_bar 2 101 111 100 108; sample_bar 3 108 109 90 91]].

Definition sample_config : BacktestConfig :=
  BacktestConfig.mkBacktestConfig Timeframe.ONE_MINUTE [Timeframe.ONE_MINUTE] SameCandlePolicy.AMBIGUOUS.

Definition result_or {A} (m : pyres A) (d : A) : A := match m with Ok a => a | Raise _ => d end.

Definition sample_map : SeriesMap := result_or (_validate_and_index sample_history sample_config) [].
Definition sample_events : list Event := result_or (_evaluation_events sample_map Timeframe.ONE_MINUTE) [].
Definition sample_run (invalidated_at : datetime) : RunState :=
  result_or (replay_events (sample_engine invalidated_at) false sample_config sample_map 0%nat sample_events) (0%nat, [], 0).

Lemma sample_run_valid : history_valid sample_history.
Proof. repeat constructor; by vm_compute. Qed.

(** Left alone, the signal becomes one winning trade. *)
Example sample_report_wins :
  match run_backtest (sample_engine 0) 0%nat false sample_history sample_config with
  | Ok report => map BacktestTrade.status (BacktestReport.trades report) = [SignalLifecycleStatus.TP_HIT]
      /\ PerformanceMetrics.wins (BacktestMetrics.overall (BacktestReport.metrics report)) = 1
      /\ BacktestReport.engine_evaluations report = 3
  | Raise _ => False
  end.
Proof. vm_compute. by repeat split. Qed.

Lemma optimized_run_equivalent_witness :
  history_valid sample_history
  /\ run_backtest_optimized (sample_engine 0) 0%nat sample_history sample_config
     = run_backtest (sample_engine 0) 0%nat false sample_history sample_config.
Proof. split; [exact sample_run_valid|]. apply optimized_run_equivalent. exact sample_run_valid. Defined.

Lemma backtest_no_lookahead_witness :
  exists m m' events events',
    _validate_and_index sample_history sample_config = Ok m /\ _validate_and_index longer_history sample_config = Ok m'
    /\ length events = 3%nat /\ length events' = 4%nat
    /\ replay_events (sample_engine 0) false sample_config m 0%nat (up_to (minutes 3) events)
       = replay_events (sample_engine 0) true sample_config m' 0%nat (up_to (minutes 3) events').
Proof.
  set (m' := result_or (_validate_and_index longer_history sample_config) []).
  set (events' := result_or (_evaluation_events m' Timeframe.ONE_MINUTE) []).
  exists sample_map, m', sample_events, events'.
  refine (conj _ (conj _ (conj _ (conj _ _)))); [by vm_compute..|].
  refine (proj2 (backtest_no_lookahead (sample_engine 0) 0%nat sample_history longer_history sample_config (minutes 3)
    false true sample_map m' sample_events events' sample_run_valid _ _ _ _ _ _ _)); try by vm_compute.
  - repeat constructor; by vm_compute.
  - constructor; [|constructor]. split; [done|]. eexists. split; [reflexivity|]. repeat constructor; by vm_compute.
  - intros ctf symbol source final [= <-]. destruct symbol; intros [= <-] [= <-]. by vm_compute.
Defined.

(** The only signal of a sample run. *)
Definition sample_signal (invalidated_at : datetime) : RuntimeKey * _RuntimeSignal Z :=
  hd (MarketSymbol.XAUUSD, ""%string, _RuntimeSignal.fresh sample_candidate) (snd (fst (sample_run invalidated_at))).

Lemma sample_run_shape invalidated_at : sample_run invalidated_at
  = (fst (fst (sample_run invalidated_at)), snd (fst (sample_run invalidated_at)), snd (sample_run invalidated_at)).
Proof. by destruct (sample_run invalidated_at) as [[? ?] ?]. Qed.

Lemma sample_replay_0 : replay_events (sample_engine 0) false sample_config sample_map 0%nat sample_events
  = Ok (fst (fst (sample_run 0)), snd (fst (sample_run 0)), snd (sample_run 0)).
Proof. rewrite <-sample_run_shape. by vm_compute. Qed.

Lemma sample_replay_2 : replay_events (sample_engine (minutes 2)) false sample_config sample_map 0%nat sample_events
  = Ok (fst (fst (sample_run (minutes 2))), snd (fst (sample_run (minutes 2))), snd (sample_run (minutes 2))).
Proof. rewrite <-sample_run_shape. by vm_compute. Qed.

Lemma backtest_refines_one_shot_witness :
  snd (sample_run 0) = 3 /\ one_shot_at (sample_engine 0) sample_config sample_map (minutes 3) (snd (sample_signal 0)).
Proof.
  split; [by vm_compute|].
  destruct (backtest_refines_one_shot (sample_engine 0) 0%nat false sample_history sample_config sample_map sample_events
    _ _ _ sample_run_valid ltac:(by vm_compute) ltac:(by vm_compute) ltac:(by vm_compute) sample_replay_0) as [_ Hone].
  assert (sample_signal 0 ∈ snd (fst (sample_run 0))) as Hin.
  { assert (snd (fst (sample_run 0)) = [sample_signal 0]) as -> by (by vm_compute). constructor. }
  destruct (sample_signal 0) as [key r] eqn:Es. destruct (Hone key r Hin) as (_ & as_of & Hlast & Hshot).
  assert (fst key = MarketSymbol.XAUUSD) as Hk.
  { change key with (fst (key, r)). rewrite <-Es. by vm_compute. }
  assert (last_evaluation sample_events MarketSymbol.XAUUSD = Some (minutes 3)) as E3 by (by vm_compute).
  rewrite Hk, E3 in Hlast. injection Hlast as <-. exact Hshot.
Defined.

(** The invalidation confirmed at the close of the entry bar: the signal's
    entry is captured, its lifecycle ends ambiguous without an activation, and
    the whole run is lost. *)
Lemma backtest_report_exact_witness :
  unactivated_entry (snd (sample_signal (minutes 2))) = true
  /\ run_backtest (sample_engine (minutes 2)) 0%nat false sample_history sample_config = Raise VALIDATION_ERROR
  /\ exists report, run_backtest (sample_engine 0) 0%nat false sample_history sample_config = Ok report
       /\ BacktestReport.engine_evaluations report = 3.
Proof.
  set (sources := result_or (_effective_canonical_sources sample_map Timeframe.ONE_MINUTE sample_events) []).
  split; [by vm_compute|]. split.
  - pose proof (backtest_report_exact (sample_engine (minutes 2)) 0%nat false sample_history sample_config sample_map
      sample_events Timeframe.ONE_MINUTE sources _ _ _ sample_run_valid ltac:(by vm_compute) eq_refl ltac:(by vm_compute)
      ltac:(by vm_compute) ltac:(by vm_compute) ltac:(by vm_compute) sample_replay_2) as Hr.
    assert (existsb (fun entry => unactivated_entry (snd entry)) (snd (fst (sample_run (minutes 2)))) = true) as Eb by (by vm_compute).
    rewrite Eb in Hr. exact Hr.
  - pose proof (backtest_report_exact (sample_engine 0) 0%nat false sample_history sample_config sample_map
      sample_events Timeframe.ONE_MINUTE sources _ _ _ sample_run_valid ltac:(by vm_compute) eq_refl ltac:(by vm_compute)
      ltac:(by vm_compute) ltac:(by vm_compute) ltac:(by vm_compute) sample_replay_0) as Hr.
    assert (existsb (fun entry => unactivated_entry (snd entry)) (snd (fst (sample_run 0))) = false) as Eb by (by vm_compute).
    rewrite Eb in Hr. destruct Hr as (report & Hreport & Hn & _). exists report. split; [exact Hreport|].
    rewrite Hn. by vm_compute.
Defined.
