(* ===== verification/Strategy.v ===== *)
(** The strategy engine: [engines/strategy_engine.py] with the schemas of
    [schemas/strategy.py].

    The engine composes the engines of the other files. Its steps share what has
    been computed so far: an early return and the handler of errors report it.
    The analysis snapshot of a candidate ([services/snapshot_builder.py]) is an
    argument. *)
From Stdlib Require Import ZArith Lia.
From stdpp Require Import base list strings numbers.
From S2P Require Import Prelude Dict Decimal Time Candle Signal Indicators Structure Engine Fvg LiquidityTypes Liquidity Displacement OrderBlocks Risk SetupTypes EntrySetup Lifecycle Execution Crt Score Resampling MtfTypes MultiTimeframe Metrics Runner.
Local Open Scope Z_scope.

(** ** Configuration *)

Module DeterministicStrategyPipelineConfig.
Record DeterministicStrategyPipelineConfig := mkDeterministicStrategyPipelineConfig {
  signal_timeframe : Timeframe;
  macd : MACDConfig;
  atr : ATRConfig;
  market_structure : list (Timeframe * MarketStructureConfig);
  liquidity : LiquidityConfig;
  fvg : FVGConfig;
  displacement : DisplacementConfig;
  order_block : OrderBlockConfig;
  entry_setup : EntrySetupConfig;
  multi_timeframe : MTFConfig;
  signal_score : StrategyScoreConfig;
  risk : RiskEngineConfig
}.
Definition targets (c : DeterministicStrategyPipelineConfig) : list Timeframe := MTFConfig.mtf_target_timeframes (multi_timeframe c).
(** [tick_sizes], a set. *)
Definition tick_sizes (c : DeterministicStrategyPipelineConfig) : list dec :=
  [LiquidityConfig.tick_size (liquidity c); FVGConfig.tick_size (fvg c); DisplacementConfig.tick_size (displacement c);
   OrderBlockConfig.tick_size (order_block c); EntrySetupConfig.tick_size (entry_setup c)]
  ++ omap (fun tf => MarketStructureConfig.tick_size <$> dict_get (market_structure c) tf) (targets c).
Definition validate_pipeline_coherence (c : DeterministicStrategyPipelineConfig) : bool :=
  subset_of (targets c) (map fst (market_structure c))
  && bool_decide (signal_timeframe c = MTFConfig.mtf_signal_timeframe (multi_timeframe c))
  && forallb (deqb (EntrySetupConfig.tick_size (entry_setup c))) (tick_sizes c).
Definition tick_size (c : DeterministicStrategyPipelineConfig) : dec := EntrySetupConfig.tick_size (entry_setup c).

(** The bars every timeframe needs. *)
Definition minimum_history_by_timeframe (c : DeterministicStrategyPipelineConfig) : pyres (list (Timeframe * Z)) :=
  let result := map (fun '(tf, structure) =>
    (tf, Z.max (default 1 (dict_get (MTFConfig.mtf_warmup_bars (multi_timeframe c)) tf))
           (Z.of_nat (MarketStructureConfig.swing_left_bars structure) + Z.of_nat (MarketStructureConfig.swing_right_bars structure) + 1)))
    (market_structure c) in
  own ← dict_index result (signal_timeframe c);
  Ok (dict_set result (signal_timeframe c)
        (Z.max own
           (Z.max (Z.of_nat (MACDConfig.slow_period (macd c)) + Z.of_nat (MACDConfig.signal_period (macd c)) - 1)
              (Z.max (Z.of_nat (ATRConfig.period (atr c)))
                 (Z.max (Z.of_nat (DisplacementConfig.displacement_atr_period (displacement c)))
                    (EntrySetupConfig.signal_setup_max_total_bars (entry_setup c))))))).
End DeterministicStrategyPipelineConfig.
Abbreviation DeterministicStrategyPipelineConfig := DeterministicStrategyPipelineConfig.DeterministicStrategyPipelineConfig.

Module StrategyConfig.
Record StrategyConfig := mkStrategyConfig {
  execution : ExecutionConfig;
  pipelines : list (MarketSymbol * DeterministicStrategyPipelineConfig)
}.
End StrategyConfig.
Abbreviation StrategyConfig := StrategyConfig.StrategyConfig.

(** ** Evaluations *)

Module DeterministicSMCICTSnapshot.
Record DeterministicSMCICTSnapshot := mkDeterministicSMCICTSnapshot {
  liquidity : LiquidityAnalysisResult;
  fvg : FVGAnalysisResult;
  displacement : DisplacementAnalysisResult;
  order_blocks : OrderBlockAnalysisResult;
  entry_setups : EntrySetupAnalysisResult
}.
End DeterministicSMCICTSnapshot.
Abbreviation DeterministicSMCICTSnapshot := DeterministicSMCICTSnapshot.DeterministicSMCICTSnapshot.

(** The local variables of [evaluate] that an evaluation reports. *)
Module Progress.
Record Progress := mkProgress {
  indicator : option IndicatorAnalysis;
  structures : list (string * MarketStructureResult);
  smc_ict : option DeterministicSMCICTSnapshot;
  mtf_result : option MTFAnalysisResult;
  risk_result : option RiskPlan;
  score_result : option SignalScoreResult;
  candidate_direction : SignalDecision
}.
Definition empty : Progress := mkProgress None [] None None None None SignalDecision.NO_TRADE.
Definition set_indicator (v : IndicatorAnalysis) (p : Progress) : Progress :=
  mkProgress (Some v) (structures p) (smc_ict p) (mtf_result p) (risk_result p) (score_result p) (candidate_direction p).
Definition add_structure (k : string) (v : MarketStructureResult) (p : Progress) : Progress :=
  mkProgress (indicator p) (dict_set (structures p) k v) (smc_ict p) (mtf_result p) (risk_result p) (score_result p) (candidate_direction p).
Definition set_smc_ict (v : DeterministicSMCICTSnapshot) (p : Progress) : Progress :=
  mkProgress (indicator p) (structures p) (Some v) (mtf_result p) (risk_result p) (score_result p) (candidate_direction p).
Definition set_mtf_result (v : MTFAnalysisResult) (p : Progress) : Progress :=
  mkProgress (indicator p) (structures p) (smc_ict p) (Some v) (risk_result p) (score_result p) (candidate_direction p).
Definition set_risk_result (v : RiskPlan) (p : Progress) : Progress :=
  mkProgress (indicator p) (structures p) (smc_ict p) (mtf_result p) (Some v) (score_result p) (candidate_direction p).
Definition set_score_result (v : SignalScoreResult) (p : Progress) : Progress :=
  mkProgress (indicator p) (structures p) (smc_ict p) (mtf_result p) (risk_result p) (Some v) (candidate_direction p).
Definition set_direction (v : SignalDecision) (p : Progress) : Progress :=
  mkProgress (indicator p) (structures p) (smc_ict p) (mtf_result p) (risk_result p) (score_result p) v.
End Progress.
Abbreviation Progress := Progress.Progress.

Module DeterministicStrategyEvaluation.
Record DeterministicStrategyEvaluation := mkDeterministicStrategyEvaluation {
  symbol : MarketSymbol;
  timeframe : Timeframe;
  as_of : datetime;
  data_cutoff_at : datetime;
  strategy_identity : StrategyIdentity;
  indicator_snapshot : option IndicatorAnalysis;
  market_structure_snapshot : list (string * MarketStructureResult);
  smc_ict_snapshot : option DeterministicSMCICTSnapshot;
  multi_timeframe_result : option MTFAnalysisResult;
  score : option Z;
  score_breakdown : list (SignalScoreComponent * Z);
  candidate_direction : SignalDecision;
  risk_result : option RiskPlan;
  final_deterministic_decision : SignalDecision;
  reason_codes : list string
}.
Definition validate_point_in_time_evaluation (e : DeterministicStrategyEvaluation) : bool :=
  negb (bool_decide (reason_codes e = []))
  && negb (as_of e <? data_cutoff_at e)
  && (bool_decide (final_deterministic_decision e = SignalDecision.NO_TRADE)
      || bool_decide (candidate_direction e = final_deterministic_decision e) && is_some (risk_result e)).
(** What the result and the backtest runner read of it. *)
Definition summary (e : DeterministicStrategyEvaluation) : StrategyEvaluation :=
  StrategyEvaluation.mkStrategyEvaluation (as_of e) (strategy_identity e) (final_deterministic_decision e).
End DeterministicStrategyEvaluation.
Abbreviation DeterministicStrategyEvaluation := DeterministicStrategyEvaluation.DeterministicStrategyEvaluation.

(** ** Helpers *)

Definition _has_source_gap (candles : list Candle) (timeframe : Timeframe) : bool :=
  existsb (fun '(previous, current) => negb (Candle.timestamp current - Candle.timestamp previous =? timeframe_duration timeframe))
    (pairwise candles).

Definition _derived_to_candle (bar : MTFDerivedBar) : pyres Candle :=
  validated valid_candle
    (Candle.mkCandle (MTFDerivedBar.timestamp bar) (MTFDerivedBar.open bar) (MTFDerivedBar.high bar) (MTFDerivedBar.low bar)
       (MTFDerivedBar.close bar) (MTFDerivedBar.volume bar)).

(** [trend_state.value] *)
Definition trend_value (s : TrendState) : string :=
  match s with
  | TrendState.BULLISH => "BULLISH"
  | TrendState.BEARISH => "BEARISH"
  | TrendState.RANGE => "RANGE"
  | TrendState.INSUFFICIENT_DATA => "INSUFFICIENT_DATA"
  end.

(** The state of one timeframe, at the close of its last bar. *)
Definition structure_state_event (structures : list (string * MarketStructureResult)) (entry : Timeframe * list Candle)
    : pyres (option MTFStructureStateEvent) :=
  let '(timeframe, candles) := entry in
  structure ← dict_index structures (timeframe_value timeframe);
  match list.last candles with
  | Some source =>
      if bool_decide (MarketStructureResult.trend_state structure = TrendState.INSUFFICIENT_DATA) then Ok None
      else
        let source_close := Candle.timestamp source + timeframe_duration timeframe in
        event ← validated MTFStructureStateEvent.validate_availability
          (MTFStructureStateEvent.mkMTFStructureStateEvent
             ("STRUCTURE_STATE:" +:+ timeframe_value timeframe +:+ ":" +:+ trend_value (MarketStructureResult.trend_state structure)
              +:+ ":" +:+ isoformat source_close)
             timeframe (MarketStructureResult.trend_state structure) (Candle.timestamp source) source_close source_close);
        Ok (Some event)
  | None => Ok None
  end.

Definition _current_structure_state_events (structures : list (string * MarketStructureResult))
    (candles_by_target : list (Timeframe * list Candle)) : pyres (list MTFStructureStateEvent) :=
  events ← py_map (structure_state_event structures) candles_by_target;
  Ok (omap (M := list) (fun event => event) events).

Definition _signal_direction (direction : EntrySetupDirection) : SignalDecision :=
  match direction with
  | EntrySetupDirection.BULLISH => SignalDecision.LONG
  | EntrySetupDirection.BEARISH => SignalDecision.SHORT
  end.

Definition _mtf_direction (direction : EntrySetupDirection) : MTFDirection :=
  match direction with
  | EntrySetupDirection.BULLISH => MTFDirection.BULLISH
  | EntrySetupDirection.BEARISH => MTFDirection.BEARISH
  end.

(** *** The evidence of the score *)

Definition evidence_direction (direction : EntrySetupDirection) : SignalEvidenceDirection :=
  match direction with
  | EntrySetupDirection.BULLISH => SignalEvidenceDirection.BULLISH
  | EntrySetupDirection.BEARISH => SignalEvidenceDirection.BEARISH
  end.

(** A character [str.strip] removes, of the first 256. *)
Definition strippable (c : Ascii.ascii) : bool :=
  let n := Ascii.nat_of_ascii c in
  ((9 <=? n) && (n <=? 13) || (28 <=? n) && (n <=? 32) || (n =? 133) || (n =? 160))%nat.

(** [source.strip()] is not empty. *)
Fixpoint not_blank (s : string) : bool :=
  match s with
  | String c rest => negb (strippable c) || not_blank rest
  | EmptyString => false
  end.

(** [SignalComponentEvidence(direction=..., confirmed_at=..., source_ids=(source_id,))] *)
Definition component_evidence (direction : SignalEvidenceDirection) (confirmed_at : datetime) (source_id : string)
    : pyres SignalComponentEvidence :=
  validated (fun _ => not_blank source_id)
    (SignalComponentEvidence.mkSignalComponentEvidence direction confirmed_at [source_id]).

(** [AssertionError] *)
Definition asserted {A} (o : option A) : pyres A :=
  match o with Some x => Ok x | None => Raise (Exc "AssertionError" "") end.

Definition _score_evidence (setup : CompositeEntrySetup) (indicator : IndicatorAnalysis) (timeframe : Timeframe)
    (mtf_snapshot_id : string) (decision_time : datetime) : pyres SignalScoreEvidence :=
  structure_event ← asserted (CompositeEntrySetup.structure_event setup);
  displacement_event ← asserted (CompositeEntrySetup.displacement_event setup);
  fvg ← asserted (CompositeEntrySetup.fvg setup);
  let direction := evidence_direction (CompositeEntrySetup.direction setup) in
  let sweep := CompositeEntrySetup.liquidity_event setup in
  mss ← component_evidence direction (StructureBreakEvent.confirmed_at structure_event) (structure_event_reference structure_event);
  liquidity_sweep ← component_evidence direction (LiquidityInteraction.confirmed_at sweep) (LiquidityInteraction.event_id sweep);
  gap ← component_evidence direction (GapZone.confirmed_at fvg) (GapZone.zone_id fvg);
  displacement ← component_evidence direction (DisplacementLeg.confirmed_at displacement_event) (DisplacementLeg.leg_id displacement_event);
  htf ← component_evidence direction decision_time mtf_snapshot_id;
  order_block ← match CompositeEntrySetup.order_block setup with
                | Some block =>
                    evidence ← component_evidence direction
                      (default (OrderBlockZone.created_at block) (OrderBlockZone.validated_at block)) (OrderBlockZone.zone_id block);
                    Ok (Some evidence)
                | None => Ok None
                end;
  latest_macd ← match list.last (MACDResult.points (IndicatorAnalysis.macd indicator)) with
                | Some point => Ok point
                | None => Raise (Exc "IndexError" "list index out of range")
                end;
  let matching_crossover :=
    match direction with
    | SignalEvidenceDirection.BULLISH => MACDPoint.bullish_crossover latest_macd
    | _ => MACDPoint.bearish_crossover latest_macd
    end in
  macd ← (if matching_crossover then
            evidence ← component_evidence direction (MACDPoint.timestamp latest_macd + timeframe_duration timeframe)
              ("MACD:" +:+ isoformat (MACDPoint.timestamp latest_macd));
            Ok (Some evidence)
          else Ok None);
  validated SignalScoreEvidence.prevent_future_evidence
    (SignalScoreEvidence.mkSignalScoreEvidence decision_time
       (fun component =>
          match component with
          | SignalScoreComponent.MSS => Some mss
          | SignalScoreComponent.LIQUIDITY_SWEEP => Some liquidity_sweep
          | SignalScoreComponent.FVG => Some gap
          | SignalScoreComponent.DISPLACEMENT => Some displacement
          | SignalScoreComponent.HTF_ALIGNMENT => Some htf
          | SignalScoreComponent.ORDER_BLOCK => order_block
          | SignalScoreComponent.MACD => macd
          | _ => None
          end) false None).

(** ** Outputs *)

(** [metadata] *)
Module CandidateMetadata.
Record CandidateMetadata := mkCandidateMetadata {
  setup_id : string;
  mtf_snapshot_id : string;
  openai_used : bool
}.
#[global] Instance CandidateMetadata_eqdec : EqDecision CandidateMetadata := ltac:(solve_decision).
End CandidateMetadata.
Abbreviation CandidateMetadata := CandidateMetadata.CandidateMetadata.

(** What a candidate carries besides its levels: its snapshot and its metadata. *)
#[global] Instance CandidateSnapshot_metadata {S} `{CandidateSnapshot S} : CandidateSnapshot (S * CandidateMetadata) := {
  snapshot_captured_at := fun c => snapshot_captured_at (fst c);
  snapshot_eqb := fun a b => snapshot_eqb (fst a) (fst b) && bool_decide (snd a = snd b)
}.

(** The exceptions of [except (..., ValueError)]: every input error of the
    engines is a [ValueError], and so is pydantic's error. *)
Definition value_error (e : pyexc) : bool :=
  match e with
  | Exc cls _ => bool_decide (cls ∈ ["ValueError"; "ValidationError"; "SnapshotBuildError"; "IndicatorInputError"; "MarketStructureInputError"; "LiquidityInputError";
      "FVGInputError"; "DisplacementInputError"; "OrderBlockInputError"; "EntrySetupInputError"; "MultiTimeframeInputError"; "RiskInputError"])
  end.

(** How the candles of the targets are built: the step a subclass replaces,
    with the state it keeps. *)
Class TargetCandles (State : Type) := {
  initial_state : State;
  _build_candles_by_target : State -> MarketSymbol -> list Candle -> datetime -> DeterministicStrategyPipelineConfig
    -> State * pyres (list (Timeframe * list Candle))
}.

(** The reference: a full resampling, and no state. *)
Definition resampled_candles (source_candles : list Candle) (as_of : datetime) (config : DeterministicStrategyPipelineConfig)
    : pyres (list (Timeframe * list Candle)) :=
  resampled ← resample_closed_candles source_candles as_of (DeterministicStrategyPipelineConfig.multi_timeframe config) None;
  py_map (fun timeframe =>
    bars ← dict_index (MTFResampleResult.bars resampled) timeframe;
    candles ← py_map _derived_to_candle bars;
    Ok (timeframe, candles)) (DeterministicStrategyPipelineConfig.targets config).

#[global] Instance reference_candles : TargetCandles unit := {
  initial_state := tt;
  _build_candles_by_target := fun _ _ source_candles as_of config => (tt, resampled_candles source_candles as_of config)
}.

(** ** The engine *)

Section engine.
Context {Snapshot State : Type} `{CandidateSnapshot Snapshot} `{TargetCandles State}.
Context (build_analysis_snapshot : StrategyEvaluationContext -> DeterministicStrategyEvaluation -> SignalScoreEvidence
  -> SignalScoreResult -> pyres Snapshot).
Context (strategy_config : StrategyConfig) (strategy_identity : StrategyIdentity).

Definition Candidate : Type := DeterministicSignalCandidate (Snapshot * CandidateMetadata).
(** The result, with the evaluation it summarises. *)
Definition Output : Type := StrategyEvaluationResult (Snapshot * CandidateMetadata) * DeterministicStrategyEvaluation.

(** *** A step of [evaluate]: it goes on, returns early, or raises *)

Inductive Flow (A : Type) :=
| Next (a : A)
| Return (output : Output)
| Throw (e : pyexc).
#[global] Arguments Next {A}.
#[global] Arguments Return {A}.
#[global] Arguments Throw {A}.

Definition Step (A : Type) : Type := State * Progress -> (State * Progress) * Flow A.

#[local] Instance Step_ret : MRet Step := fun A a st => (st, Next a).
#[local] Instance Step_bind : MBind Step := fun A B f m st =>
  match m st with
  | (st', Next a) => f a st'
  | (st', Return output) => (st', Return output)
  | (st', Throw e) => (st', Throw e)
  end.

Definition lift {A} (m : pyres A) : Step A := fun st => (st, match m with Ok a => Next a | Raise e => Throw e end).
Definition report (f : Progress -> Progress) : Step unit := fun st => ((fst st, f (snd st)), Next tt).

(** [StrategyEvaluationResult(...)] *)
Definition result_of (evaluated_at : datetime) (candidates : list Candidate) (evaluation : DeterministicStrategyEvaluation) : pyres Output :=
  result ← validated StrategyEvaluationResult.validate_unique_point_in_time_outputs
    (StrategyEvaluationResult.mkStrategyEvaluationResult _ evaluated_at candidates []
       (Some (DeterministicStrategyEvaluation.summary evaluation)));
  Ok (result, evaluation).

(** The keyword arguments are what has been computed so far. *)
Definition _no_trade (context : StrategyEvaluationContext) (timeframe : Timeframe) (reason : string) (p : Progress) : pyres Output :=
  let as_of := StrategyEvaluationContext.as_of context in
  evaluation ← validated DeterministicStrategyEvaluation.validate_point_in_time_evaluation
    (DeterministicStrategyEvaluation.mkDeterministicStrategyEvaluation (StrategyEvaluationContext.symbol context) timeframe as_of as_of
       strategy_identity (Progress.indicator p) (Progress.structures p) (Progress.smc_ict p) (Progress.mtf_result p)
       (SignalScoreResult.score <$> Progress.score_result p)
       (from_option SignalScoreResult.score_breakdown [] (Progress.score_result p))
       (Progress.candidate_direction p) (Progress.risk_result p) SignalDecision.NO_TRADE [reason]);
  result_of as_of [] evaluation.

Definition _candidate (context : StrategyEvaluationContext) (setup : CompositeEntrySetup) (evaluation : DeterministicStrategyEvaluation)
    (score_evidence : SignalScoreEvidence) (score_result : SignalScoreResult) : pyres Candidate :=
  risk ← asserted (DeterministicStrategyEvaluation.risk_result evaluation);
  entry_zone ← asserted (RiskPlan.entry_zone risk);
  entry_reference ← asserted (RiskPlan.entry_reference risk);
  take_profit ← asserted (RiskPlan.take_profit risk);
  stop_loss ← asserted (RiskPlan.stop_loss risk);
  risk_reward ← asserted (RiskPlan.risk_reward risk);
  mtf ← asserted (DeterministicStrategyEvaluation.multi_timeframe_result evaluation);
  snapshot ← build_analysis_snapshot context evaluation score_evidence score_result;
  validated DeterministicSignalCandidate.validate_candidate
    (DeterministicSignalCandidate.mkDeterministicSignalCandidate _ (CompositeEntrySetup.setup_id setup)
       (StrategyEvaluationContext.symbol context) (DeterministicStrategyEvaluation.timeframe evaluation)
       (_signal_direction (CompositeEntrySetup.direction setup)) entry_zone entry_reference take_profit stop_loss risk_reward
       (SignalScoreResult.score score_result) (StrategyEvaluationContext.as_of context)
       (snapshot, CandidateMetadata.mkCandidateMetadata (CompositeEntrySetup.setup_id setup) (MTFAnalysisResult.snapshot_id mtf) false)
       strategy_identity).

(** *** The stages *)

Section evaluation.
Context (context : StrategyEvaluationContext) (config : DeterministicStrategyPipelineConfig).
Let as_of := StrategyEvaluationContext.as_of context.
Let signal_timeframe := DeterministicStrategyPipelineConfig.signal_timeframe config.
Let mtf_config := DeterministicStrategyPipelineConfig.multi_timeframe config.

(** [return self._no_trade(...)] inside of the [try]. *)
Definition leave {A} (reason : string) : Step A := fun st =>
  (st, match _no_trade context signal_timeframe reason (snd st) with Ok output => Return output | Raise e => Throw e end).

Definition build_candles (source_candles : list Candle) : Step (list (Timeframe * list Candle)) := fun st =>
  let '(state, result) := _build_candles_by_target (fst st) (StrategyEvaluationContext.symbol context) source_candles as_of config in
  ((state, snd st), match result with Ok candles => Next candles | Raise e => Throw e end).

(** [any(len(candles_by_target\[tf\]) < minimum_history\[tf\] for tf in ...)] *)
Fixpoint warmup_incomplete (candles_by_target : list (Timeframe * list Candle)) (minimum_history : list (Timeframe * Z))
    (timeframes : list Timeframe) : pyres bool :=
  match timeframes with
  | [] => Ok false
  | tf :: rest =>
      candles ← dict_index candles_by_target tf;
      minimum ← dict_index minimum_history tf;
      if Z.of_nat (length candles) <? minimum then Ok true else warmup_incomplete candles_by_target minimum_history rest
  end.

(** The loop over the targets. *)
Fixpoint analyze_structures (candles_by_target : list (Timeframe * list Candle)) : Step unit :=
  match candles_by_target with
  | [] => mret tt
  | (timeframe, candles) :: rest =>
      structure_config ← lift (dict_index (DeterministicStrategyPipelineConfig.market_structure config) timeframe);
      structure ← lift (analyze_market_structure candles timeframe structure_config);
      _ ← report (Progress.add_structure (timeframe_value timeframe) structure);
      analyze_structures rest
  end.

Definition _project_displacement_links (displacement : DisplacementAnalysisResult) : list OrderBlockDisplacementLink :=
  map (fun leg => OrderBlockDisplacementLink.mkOrderBlockDisplacementLink (DisplacementLeg.leg_id leg)
                    (DisplacementLeg.associated_structure_break leg) (DisplacementLeg.confirmed_at leg))
    (DisplacementAnalysisResult.legs displacement).

(** The engines of the signal timeframe, each fed with what the earlier found. *)
Definition analyze_signal_timeframe (signal_candles : list Candle) (signal_structure : MarketStructureResult) (atr : ATRResult)
    : pyres DeterministicSMCICTSnapshot :=
  fvg ← analyze_fvg signal_candles signal_timeframe (DeterministicStrategyPipelineConfig.fvg config) (Some atr);
  liquidity ← analyze_liquidity signal_candles signal_timeframe (MarketStructureResult.confirmed_swings signal_structure)
                (DeterministicStrategyPipelineConfig.liquidity config) (Some atr);
  displacement ← analyze_displacement signal_candles signal_timeframe (MarketStructureResult.structure_events signal_structure)
                   (DeterministicStrategyPipelineConfig.displacement config) (FVGAnalysisResult.zones fvg);
  order_blocks ← analyze_order_blocks signal_candles signal_timeframe (MarketStructureResult.structure_events signal_structure)
                   (DeterministicStrategyPipelineConfig.order_block config) (_project_displacement_links displacement)
                   (MarketStructureResult.confirmed_swings signal_structure) (LiquidityAnalysisResult.pools liquidity) (Some atr);
  entry_setups ← detect_high_probability_entry_setups signal_candles signal_timeframe (LiquidityAnalysisResult.interactions liquidity)
                   (MarketStructureResult.structure_events signal_structure) (DisplacementAnalysisResult.legs displacement)
                   (FVGAnalysisResult.zones fvg) (DeterministicStrategyPipelineConfig.entry_setup config)
                   (LiquidityAnalysisResult.dual_sweeps liquidity) (OrderBlockAnalysisResult.order_blocks order_blocks) (Some atr);
  Ok (DeterministicSMCICTSnapshot.mkDeterministicSMCICTSnapshot liquidity fvg displacement order_blocks entry_setups).

(** [ready_now] *)
Definition ready_now (setups : list CompositeEntrySetup) : list CompositeEntrySetup :=
  List.filter (fun setup => bool_decide (CompositeEntrySetup.setup_status setup = EntrySetupStatus.READY)
                            && (CompositeEntrySetup.confirmed_at setup =? as_of)) setups.

Definition swings_by_timeframe (structures : list (string * MarketStructureResult)) : pyres (list (Timeframe * list ConfirmedSwing)) :=
  py_map (fun timeframe =>
    structure ← dict_index structures (timeframe_value timeframe);
    Ok (timeframe, MarketStructureResult.confirmed_swings structure)) (MTFConfig.mtf_target_timeframes mtf_config).

Definition check_multi_timeframe (source_candles : list Candle) (candles_by_target : list (Timeframe * list Candle))
    (minimum_history : list (Timeframe * Z)) (setup : CompositeEntrySetup) (structures : list (string * MarketStructureResult))
    : pyres MTFAnalysisResult :=
  state_events ← _current_structure_state_events structures candles_by_target;
  swings ← swings_by_timeframe structures;
  analyze_multi_timeframe source_candles as_of (_mtf_direction (CompositeEntrySetup.direction setup)) state_events mtf_config
    (CompositeEntrySetup.entry_zone setup) (Some swings) None
    (if bool_decide (MTFConfig.mtf_warmup_bars mtf_config = []) then None else Some minimum_history).

Definition expected_score_decision (direction : SignalDecision) : SignalScoreDecision :=
  if bool_decide (direction = SignalDecision.LONG) then SignalScoreDecision.LONG_CANDIDATE else SignalScoreDecision.SHORT_CANDIDATE.
Definition expected_risk_decision (direction : SignalDecision) : RiskDecision :=
  if bool_decide (direction = SignalDecision.LONG) then RiskDecision.LONG else RiskDecision.SHORT.

(** [atr.points\[-1\].atr] *)
Definition latest_atr (atr : ATRResult) : pyres (option dec) :=
  match list.last (ATRResult.points atr) with
  | Some point => Ok (ATRPoint.atr point)
  | None => Raise (Exc "IndexError" "list index out of range")
  end.

(** The plan of a setup. *)
Definition plan_risk (setup : CompositeEntrySetup) (pools : list LiquidityPool) (atr : ATRResult) : pyres RiskPlan :=
  candidate ← risk_candidate_from_setup setup;
  atr_at_decision ← latest_atr atr;
  calculate_risk_plan candidate pools (DeterministicStrategyPipelineConfig.risk config)
    (DeterministicStrategyPipelineConfig.tick_size config) atr_at_decision.

(** The accepted evaluation, and its candidate. *)
Definition accept (setup : CompositeEntrySetup) (evidence : SignalScoreEvidence) (score_result : SignalScoreResult) (p : Progress)
    : pyres Output :=
  evaluation ← validated DeterministicStrategyEvaluation.validate_point_in_time_evaluation
    (DeterministicStrategyEvaluation.mkDeterministicStrategyEvaluation (StrategyEvaluationContext.symbol context) signal_timeframe as_of as_of
       strategy_identity (Progress.indicator p) (Progress.structures p) (Progress.smc_ict p) (Progress.mtf_result p)
       (Some (SignalScoreResult.score score_result)) (SignalScoreResult.score_breakdown score_result) (Progress.candidate_direction p)
       (Progress.risk_result p) (Progress.candidate_direction p) ["DETERMINISTIC_CANDIDATE_ACCEPTED"]);
  candidate ← _candidate context setup evaluation evidence score_result;
  result_of as_of [candidate] evaluation.

(** The gates after the setup has been chosen. *)
Definition decide_setup (source_candles : list Candle) (candles_by_target : list (Timeframe * list Candle))
    (minimum_history : list (Timeframe * Z)) (indicator : IndicatorAnalysis) (structures : list (string * MarketStructureResult))
    (smc_ict : DeterministicSMCICTSnapshot) (setup : CompositeEntrySetup) : Step Output :=
  let direction := _signal_direction (CompositeEntrySetup.direction setup) in
  _ ← report (Progress.set_direction direction);
  mtf_result ← lift (check_multi_timeframe source_candles candles_by_target minimum_history setup structures);
  _ ← report (Progress.set_mtf_result mtf_result);
  if negb (MTFAnalysisResult.trade_allowed mtf_result) then leave "MULTI_TIMEFRAME_SAFETY_REJECTED"
  else
    evidence ← lift (_score_evidence setup indicator signal_timeframe (MTFAnalysisResult.snapshot_id mtf_result) as_of);
    score_result ← lift (calculate_signal_score evidence (DeterministicStrategyPipelineConfig.signal_score config)
                           (StrategyIdentity.strategy_version strategy_identity));
    _ ← report (Progress.set_score_result score_result);
    if negb (bool_decide (SignalScoreResult.decision score_result = expected_score_decision direction))
    then leave "SIGNAL_SCORE_SAFETY_REJECTED"
    else
      risk_result ← lift (plan_risk setup (LiquidityAnalysisResult.pools (DeterministicSMCICTSnapshot.liquidity smc_ict))
                            (IndicatorAnalysis.atr indicator));
      _ ← report (Progress.set_risk_result risk_result);
      if negb (bool_decide (RiskPlan.decision risk_result = expected_risk_decision direction)) then leave "RISK_SAFETY_REJECTED"
      else fun st => lift (accept setup evidence score_result (snd st)) st.

(** The stages once the candles of the targets are there. *)
Definition analyze_candles (source_candles : list Candle) (candles_by_target : list (Timeframe * list Candle)) : Step Output :=
  minimum_history ← lift (DeterministicStrategyPipelineConfig.minimum_history_by_timeframe config);
  short ← lift (warmup_incomplete candles_by_target minimum_history (MTFConfig.mtf_availability_required mtf_config));
  if (short : bool) then leave "REQUIRED_TIMEFRAME_WARMUP_INCOMPLETE"
  else
    _ ← analyze_structures candles_by_target;
    signal_candles ← lift (dict_index candles_by_target signal_timeframe);
    if bool_decide (signal_candles = []) then leave "SIGNAL_TIMEFRAME_DATA_UNAVAILABLE"
    else
      indicator ← lift (calculate_indicators signal_candles signal_timeframe (DeterministicStrategyPipelineConfig.macd config)
                          (DeterministicStrategyPipelineConfig.atr config));
      _ ← report (Progress.set_indicator indicator);
      structures ← (fun st => (st, Next (Progress.structures (snd st)))) : Step _;
      signal_structure ← lift (dict_index structures (timeframe_value signal_timeframe));
      smc_ict ← lift (analyze_signal_timeframe signal_candles signal_structure (IndicatorAnalysis.atr indicator));
      _ ← report (Progress.set_smc_ict smc_ict);
      match ready_now (EntrySetupAnalysisResult.setups (DeterministicSMCICTSnapshot.entry_setups smc_ict)) with
      | [] => leave "READY_SETUP_UNAVAILABLE"
      | [setup] => decide_setup source_candles candles_by_target minimum_history indicator structures smc_ict setup
      | _ => leave "AMBIGUOUS_READY_SETUPS"
      end.

(** The body of the [try]. *)
Definition analyze (source_candles : list Candle) : Step Output :=
  candles_by_target ← build_candles source_candles;
  analyze_candles source_candles candles_by_target.

(** [except (..., ValueError): return self._no_trade(...)] *)
Definition handle_errors (step : (State * Progress) * Flow Output) : State * pyres Output :=
  match step with
  | ((state, _), Next output) | ((state, _), Return output) => (state, Ok output)
  | ((state, p), Throw e) =>
      (state, if value_error e then _no_trade context signal_timeframe "INVALID_POINT_IN_TIME_INPUT" p else Raise e)
  end.
End evaluation.

Definition evaluate (state : State) (context : StrategyEvaluationContext) : State * pyres Output :=
  match dict_get (StrategyConfig.pipelines strategy_config) (StrategyEvaluationContext.symbol context) with
  | None => (state, _no_trade context Timeframe.ONE_MINUTE "PIPELINE_CONFIG_UNAVAILABLE" Progress.empty)
  | Some config =>
      let mtf_config := DeterministicStrategyPipelineConfig.multi_timeframe config in
      let source_timeframe := MTFConfig.mtf_source_timeframe mtf_config in
      let refuse reason := _no_trade context (DeterministicStrategyPipelineConfig.signal_timeframe config) reason Progress.empty in
      let source_candles := default [] (dict_get (StrategyEvaluationContext.candles_by_timeframe context) source_timeframe) in
      match list.last source_candles with
      | None => (state, refuse "REQUIRED_SOURCE_TIMEFRAME_UNAVAILABLE")
      | Some last =>
          if negb (Candle.timestamp last + timeframe_duration source_timeframe =? StrategyEvaluationContext.as_of context)
          then (state, refuse "SOURCE_DATA_STALE_OR_NON_POINT_IN_TIME")
          else if bool_decide (MTFConfig.mtf_gap_policy mtf_config = MTFGapPolicy.SESSION_CALENDAR)
          then (state, refuse "SESSION_CALENDAR_INPUT_UNAVAILABLE")
          else if _has_source_gap source_candles source_timeframe then (state, refuse "SOURCE_DATA_GAP")
          else handle_errors context config (analyze context config source_candles (state, Progress.empty))
      end
  end.

(** The engine as the backtest runner sees it. *)
Definition strategy_engine : StrategyEngine (Snapshot * CandidateMetadata) State :=
  StrategyEngine.mkStrategyEngine _ _ strategy_identity strategy_identity (StrategyConfig.execution strategy_config)
    (fun state context =>
       match evaluate state context with
       | (state', Ok output) => Ok (fst output, state')
       | (_, Raise e) => Raise e
       end).
End engine.
