(* ===== verification/StrategyTheory.v ===== *)
(** Theorems on the strategy engine: what an evaluation reports, when it yields
    a candidate, and what a candidate rests on. *)
From Stdlib Require Import ZArith QArith Lia Lqa.
From stdpp Require Import base list strings numbers.
From S2P Require Import Prelude Dict Decimal Time Candle Signal Indicators Structure Engine Fvg LiquidityTypes Liquidity Displacement OrderBlocks Risk RiskTheory SetupTypes EntrySetup Lifecycle Execution Crt Score Resampling MtfTypes MultiTimeframe Metrics Runner Strategy.
Local Open Scope Z_scope.

Section engine.
Context {Snapshot State : Type} `{CandidateSnapshot Snapshot} `{TargetCandles State}.
Context (build_analysis_snapshot : StrategyEvaluationContext -> DeterministicStrategyEvaluation -> SignalScoreEvidence
  -> SignalScoreResult -> pyres Snapshot).
Context (strategy_config : StrategyConfig) (strategy_identity : StrategyIdentity).

#[local] Abbreviation evaluate := (evaluate build_analysis_snapshot strategy_config strategy_identity).

(** ** A refusal *)

Definition refusal_evaluation (context : StrategyEvaluationContext) (timeframe : Timeframe) (reason : string) (p : Progress)
    : DeterministicStrategyEvaluation :=
  DeterministicStrategyEvaluation.mkDeterministicStrategyEvaluation (StrategyEvaluationContext.symbol context) timeframe
    (StrategyEvaluationContext.as_of context) (StrategyEvaluationContext.as_of context)
    strategy_identity (Progress.indicator p) (Progress.structures p) (Progress.smc_ict p) (Progress.mtf_result p)
    (SignalScoreResult.score <$> Progress.score_result p)
    (from_option SignalScoreResult.score_breakdown [] (Progress.score_result p))
    (Progress.candidate_direction p) (Progress.risk_result p) SignalDecision.NO_TRADE [reason].

Definition refusal (context : StrategyEvaluationContext) (timeframe : Timeframe) (reason : string) (p : Progress) : Output (Snapshot := Snapshot) :=
  (StrategyEvaluationResult.mkStrategyEvaluationResult _ (StrategyEvaluationContext.as_of context) [] []
     (Some (DeterministicStrategyEvaluation.summary (refusal_evaluation context timeframe reason p))),
   refusal_evaluation context timeframe reason p).

Lemma no_trade_ok context timeframe reason p : _no_trade strategy_identity context timeframe reason p = Ok (refusal context timeframe reason p).
Proof.
  unfold _no_trade. fold (refusal_evaluation context timeframe reason p). unfold validated at 1.
  assert (DeterministicStrategyEvaluation.validate_point_in_time_evaluation (refusal_evaluation context timeframe reason p) = true) as ->.
  { unfold DeterministicStrategyEvaluation.validate_point_in_time_evaluation. cbn. by rewrite Z.ltb_irrefl. }
  cbn [mbind pyres_bind]. unfold result_of, validated, StrategyEvaluationResult.validate_unique_point_in_time_outputs.
  cbn. by rewrite Z.eqb_refl.
Qed.

(** ** Steps *)

#[local] Existing Instance Step_ret.
#[local] Existing Instance Step_bind.
#[local] Abbreviation Step := (Step (Snapshot := Snapshot) (State := State)).

Lemma bind_next {A B} (m : Step A) (f : A -> Step B) st st' b :
  (m ≫= f) st = (st', Next b) <-> exists st1 a, m st = (st1, Next a) /\ f a st1 = (st', Next b).
Proof.
  unfold mbind, Step_bind. destruct (m st) as [st1 [a|output|e]]; split; [eauto|naive_solver|done|naive_solver|done|naive_solver].
Qed.

Lemma lift_next {A} (m : pyres A) st st' (a : A) : (lift m : Step A) st = (st', Next a) <-> m = Ok a /\ st' = st.
Proof. unfold lift. destruct m; naive_solver. Qed.

Lemma report_next f st st' (u : unit) : (report f : Step unit) st = (st', Next u) <-> st' = (fst st, f (snd st)).
Proof. unfold report. destruct u. naive_solver. Qed.

Lemma leave_next {A} context config reason st st' (a : A) :
  (leave strategy_identity context config reason : Step A) st = (st', Next a) -> False.
Proof. unfold leave. rewrite no_trade_ok. done. Qed.

(** An early return is a refusal that reports the progress. *)
Definition refuses {A} (context : StrategyEvaluationContext) (timeframe : Timeframe) (m : Step A) : Prop :=
  forall st st' output, m st = (st', Return output) -> exists reason, output = refusal context timeframe reason (snd st').

Lemma bind_refuses {A B} context timeframe (m : Step A) (f : A -> Step B) :
  refuses context timeframe m -> (forall a, refuses context timeframe (f a)) -> refuses context timeframe (m ≫= f).
Proof.
  intros Hm Hf st st' output. unfold mbind, Step_bind. destruct (m st) as [st1 [a|out|e]] eqn:E; [apply Hf| |done].
  intros [= -> ->]. by eapply Hm.
Qed.

Lemma lift_refuses {A} context timeframe (m : pyres A) : refuses context timeframe (lift m).
Proof. intros st st' output. unfold lift. by destruct m. Qed.
Lemma report_refuses context timeframe f : refuses context timeframe (report f).
Proof. by intros st st' output. Qed.
Lemma leave_refuses {A} context config reason :
  refuses (A := A) context (DeterministicStrategyPipelineConfig.signal_timeframe config) (leave strategy_identity context config reason).
Proof. intros st st' output. unfold leave. rewrite no_trade_ok. intros [= <- <-]. eauto. Qed.

(** ** What the gates compute on the way to a trade *)

Record Trade := mkTrade {
  candles_by_target : list (Timeframe * list Candle);
  minimum_history : list (Timeframe * Z);
  structures : list (string * MarketStructureResult);
  signal_candles : list Candle;
  indicator : IndicatorAnalysis;
  signal_structure : MarketStructureResult;
  smc_ict : DeterministicSMCICTSnapshot;
  setup : CompositeEntrySetup;
  mtf_result : MTFAnalysisResult;
  evidence : SignalScoreEvidence;
  score_result : SignalScoreResult;
  risk_plan : RiskPlan
}.

(** The structures of all targets, one after the other. *)
Definition structures_of (config : DeterministicStrategyPipelineConfig)
    : list (Timeframe * list Candle) -> list (string * MarketStructureResult) -> pyres (list (string * MarketStructureResult)) :=
  fix go targets acc :=
    match targets with
    | [] => Ok acc
    | (timeframe, candles) :: rest =>
        structure_config ← dict_index (DeterministicStrategyPipelineConfig.market_structure config) timeframe;
        structure ← analyze_market_structure candles timeframe structure_config;
        go rest (dict_set acc (timeframe_value timeframe) structure)
    end.

(** Every required target has the history it needs. *)
Definition enough_history (config : DeterministicStrategyPipelineConfig) (t : Trade) : Prop :=
  Forall (fun tf => exists candles minimum, dict_get (candles_by_target t) tf = Some candles /\ dict_get (minimum_history t) tf = Some minimum
            /\ minimum <= Z.of_nat (length candles))
    (MTFConfig.mtf_availability_required (DeterministicStrategyPipelineConfig.multi_timeframe config)).

Definition trade_direction (t : Trade) : SignalDecision := _signal_direction (CompositeEntrySetup.direction (setup t)).

Definition trade_evaluation (context : StrategyEvaluationContext) (config : DeterministicStrategyPipelineConfig) (t : Trade)
    : DeterministicStrategyEvaluation :=
  DeterministicStrategyEvaluation.mkDeterministicStrategyEvaluation (StrategyEvaluationContext.symbol context)
    (DeterministicStrategyPipelineConfig.signal_timeframe config) (StrategyEvaluationContext.as_of context)
    (StrategyEvaluationContext.as_of context) strategy_identity (Some (indicator t)) (structures t) (Some (smc_ict t)) (Some (mtf_result t))
    (Some (SignalScoreResult.score (score_result t))) (SignalScoreResult.score_breakdown (score_result t)) (trade_direction t)
    (Some (risk_plan t)) (trade_direction t) ["DETERMINISTIC_CANDIDATE_ACCEPTED"].

(** Every gate is passed. *)
Record passes_gates (context : StrategyEvaluationContext) (config : DeterministicStrategyPipelineConfig) (source_candles : list Candle)
    (state state' : State) (t : Trade) : Prop := {
  pg_candles : _build_candles_by_target state (StrategyEvaluationContext.symbol context) source_candles
      (StrategyEvaluationContext.as_of context) config = (state', Ok (candles_by_target t));
  pg_minimum : DeterministicStrategyPipelineConfig.minimum_history_by_timeframe config = Ok (minimum_history t);
  pg_history : enough_history config t;
  pg_structures : structures_of config (candles_by_target t) [] = Ok (structures t);
  pg_signal : dict_get (candles_by_target t) (DeterministicStrategyPipelineConfig.signal_timeframe config) = Some (signal_candles t);
  pg_some : signal_candles t <> [];
  pg_indicator : calculate_indicators (signal_candles t) (DeterministicStrategyPipelineConfig.signal_timeframe config)
      (DeterministicStrategyPipelineConfig.macd config) (DeterministicStrategyPipelineConfig.atr config) = Ok (indicator t);
  pg_structure : dict_get (structures t) (timeframe_value (DeterministicStrategyPipelineConfig.signal_timeframe config))
      = Some (signal_structure t);
  pg_smc_ict : analyze_signal_timeframe config (signal_candles t) (signal_structure t) (IndicatorAnalysis.atr (indicator t)) = Ok (smc_ict t);
  pg_ready : ready_now context (EntrySetupAnalysisResult.setups (DeterministicSMCICTSnapshot.entry_setups (smc_ict t))) = [setup t];
  pg_mtf : check_multi_timeframe context config source_candles (candles_by_target t) (minimum_history t) (setup t) (structures t)
      = Ok (mtf_result t);
  pg_allowed : MTFAnalysisResult.trade_allowed (mtf_result t) = true;
  pg_evidence : _score_evidence (setup t) (indicator t) (DeterministicStrategyPipelineConfig.signal_timeframe config)
      (MTFAnalysisResult.snapshot_id (mtf_result t)) (StrategyEvaluationContext.as_of context) = Ok (evidence t);
  pg_score : calculate_signal_score (evidence t) (DeterministicStrategyPipelineConfig.signal_score config)
      (StrategyIdentity.strategy_version strategy_identity) = Ok (score_result t);
  pg_score_decision : SignalScoreResult.decision (score_result t) = expected_score_decision (trade_direction t);
  pg_risk : plan_risk config (setup t) (LiquidityAnalysisResult.pools (DeterministicSMCICTSnapshot.liquidity (smc_ict t)))
      (IndicatorAnalysis.atr (indicator t)) = Ok (risk_plan t);
  pg_risk_decision : RiskPlan.decision (risk_plan t) = expected_risk_decision (trade_direction t)
}.

(** The output of a trade: its only candidate, and the evaluation. *)
Definition trade_output (context : StrategyEvaluationContext) (config : DeterministicStrategyPipelineConfig) (t : Trade)
    (candidate : Candidate (Snapshot := Snapshot)) : Output (Snapshot := Snapshot) :=
  (StrategyEvaluationResult.mkStrategyEvaluationResult _ (StrategyEvaluationContext.as_of context) [candidate] []
     (Some (DeterministicStrategyEvaluation.summary (trade_evaluation context config t))), trade_evaluation context config t).

(** The progress after all gates. *)
Definition trade_progress (t : Trade) : Progress :=
  Progress.mkProgress (Some (indicator t)) (structures t) (Some (smc_ict t)) (Some (mtf_result t)) (Some (risk_plan t))
    (Some (score_result t)) (trade_direction t).

Lemma warmup_spec candles minimum timeframes :
  warmup_incomplete candles minimum timeframes = Ok false
  <-> Forall (fun tf => exists cs n, dict_get candles tf = Some cs /\ dict_get minimum tf = Some n /\ n <= Z.of_nat (length cs)) timeframes.
Proof.
  induction timeframes as [|tf rest IH]; cbn [warmup_incomplete]; [split; [constructor|done]|].
  rewrite list.Forall_cons. unfold dict_index.
  destruct (dict_get candles tf) as [cs|]; cbn [mbind pyres_bind]; [|naive_solver].
  destruct (dict_get minimum tf) as [n|]; cbn [mbind pyres_bind]; [|naive_solver].
  destruct (Z.ltb_spec (Z.of_nat (length cs)) n).
  - split; [done|]. intros [(? & ? & [= <-] & [= <-] & ?) _]. lia.
  - rewrite IH. split; [|tauto]. intros Hr. split; [|done]. eauto 10.
Qed.

Lemma structures_next config targets state p st' :
  (analyze_structures config targets : Step unit) (state, p) = (st', Next tt)
  <-> exists acc, structures_of config targets (Progress.structures p) = Ok acc
      /\ st' = (state, Progress.mkProgress (Progress.indicator p) acc (Progress.smc_ict p) (Progress.mtf_result p) (Progress.risk_result p)
                         (Progress.score_result p) (Progress.candidate_direction p)).
Proof.
  revert p. induction targets as [|[tf candles] rest IH]; intros p; cbn [analyze_structures structures_of].
  - split; [|intros (acc & [= <-] & ->); by destruct p]. intros [= <-]. exists (Progress.structures p). by destruct p.
  - rewrite bind_next. destruct (dict_index _ tf) as [c|e]; cbn [mbind pyres_bind].
    2: { split; [intros (? & ? & Hn & _); done|naive_solver]. }
    transitivity ((lift (analyze_market_structure candles tf c) ≫= (fun s => report (Progress.add_structure (timeframe_value tf) s)
      ≫= (fun _ => analyze_structures config rest)) : Step unit) (state, p) = (st', Next tt)).
    { split; [intros (st1 & a & [[= <-] ->]%lift_next & Hn); exact Hn|]. intros Hn. exists (state, p), c. split; [done|exact Hn]. }
    rewrite bind_next. destruct (analyze_market_structure candles tf c) as [s|e]; cbn [mbind pyres_bind].
    2: { split; [intros (? & ? & Hn & _); done|naive_solver]. }
    transitivity ((analyze_structures config rest : Step unit) (state, Progress.add_structure (timeframe_value tf) s p) = (st', Next tt)).
    + split; [intros (st1 & a & [[= <-] ->]%lift_next & Hn); exact Hn|]. intros Hn. exists (state, p), s. split; [done|exact Hn].
    + rewrite IH. by destruct p.
Qed.

(** ** The body of the evaluation *)

Ltac next_step H x Hx :=
  let st := fresh "st" in apply bind_next in H as (st & x & Hx & H);
  first [apply lift_next in Hx as [Hx ->] | apply report_next in Hx as ->; cbn [fst snd] in H | idtac].

Lemma decide_next context config source_candles candles minimum indicator structures smc_ict setup state p st' output :
  Progress.indicator p = Some indicator -> Progress.structures p = structures -> Progress.smc_ict p = Some smc_ict ->
  (decide_setup build_analysis_snapshot strategy_identity context config source_candles candles minimum indicator structures smc_ict setup : Step _)
    (state, p) = (st', Next output) ->
  let direction := _signal_direction (CompositeEntrySetup.direction setup) in
  exists mtf evidence score plan,
    check_multi_timeframe context config source_candles candles minimum setup structures = Ok mtf
    /\ MTFAnalysisResult.trade_allowed mtf = true
    /\ _score_evidence setup indicator (DeterministicStrategyPipelineConfig.signal_timeframe config) (MTFAnalysisResult.snapshot_id mtf)
         (StrategyEvaluationContext.as_of context) = Ok evidence
    /\ calculate_signal_score evidence (DeterministicStrategyPipelineConfig.signal_score config)
         (StrategyIdentity.strategy_version strategy_identity) = Ok score
    /\ SignalScoreResult.decision score = expected_score_decision direction
    /\ plan_risk config setup (LiquidityAnalysisResult.pools (DeterministicSMCICTSnapshot.liquidity smc_ict))
         (IndicatorAnalysis.atr indicator) = Ok plan
    /\ RiskPlan.decision plan = expected_risk_decision direction
    /\ st' = (state, Progress.mkProgress (Some indicator) structures (Some smc_ict) (Some mtf) (Some plan) (Some score) direction)
    /\ accept build_analysis_snapshot strategy_identity context config setup evidence score (snd st') = Ok output.
Proof.
  intros Hi Hs Hq Hn direction. unfold decide_setup in Hn. fold direction in Hn.
  next_step Hn u Hu. next_step Hn mtf Hm. next_step Hn u' Hu'.
  destruct (MTFAnalysisResult.trade_allowed mtf) eqn:Ea; cbn [negb] in Hn; [|by apply leave_next in Hn].
  next_step Hn ev He. next_step Hn score Hsc. next_step Hn u'' Hu''.
  case_bool_decide as Ed; cbn [negb] in Hn; [|by apply leave_next in Hn].
  next_step Hn plan Hp. next_step Hn u3 Hu3.
  case_bool_decide as Er; cbn [negb] in Hn; [|by apply leave_next in Hn].
  apply lift_next in Hn as [Hn ->].
  exists mtf, ev, score, plan. 
  destruct p; cbn [Progress.indicator Progress.structures Progress.smc_ict] in *; subst. by split_and!.
Qed.

(** The accepted evaluation and its candidate. *)
Definition accepts (context : StrategyEvaluationContext) (config : DeterministicStrategyPipelineConfig) (t : Trade)
    (output : Output (Snapshot := Snapshot)) : Prop :=
  accept build_analysis_snapshot strategy_identity context config (setup t) (evidence t) (score_result t) (trade_progress t) = Ok output.

Lemma analyze_next context config source_candles state st' output :
  (analyze build_analysis_snapshot strategy_identity context config source_candles : Step _) (state, Progress.empty) = (st', Next output) ->
  exists state' t, passes_gates context config source_candles state state' t /\ accepts context config t output
    /\ st' = (state', trade_progress t).
Proof.
  intros Hn. unfold analyze, analyze_candles in Hn. apply bind_next in Hn as (st1 & by_target & Hb & Hn).
  unfold build_candles in Hb. cbn [fst snd] in Hb. destruct (_build_candles_by_target _ _ _ _ _) as [state' result] eqn:Eb.
  destruct result as [cs|]; [|done]. injection Hb as <- <-.
  next_step Hn minimum Hmin. next_step Hn short Hshort. destruct short; [by apply leave_next in Hn|].
  apply bind_next in Hn as (st2 & [] & Hst & Hn). apply structures_next in Hst as (acc & Hacc & ->). cbn in Hacc. cbn [Progress.empty] in Hn.
  next_step Hn signal Hsignal. case_bool_decide as Hsome; [by apply leave_next in Hn|].
  next_step Hn ind Hind. next_step Hn u Hu. apply bind_next in Hn as (st3 & structs & [= <- <-] & Hn). cbn [snd] in Hn.
  cbn [Progress.set_indicator Progress.structures] in Hn.
  next_step Hn own Hown. next_step Hn smc Hsmc. next_step Hn u2 Hu2.
  destruct (ready_now context _) as [|s [|]] eqn:Eready; [by apply leave_next in Hn| |by apply leave_next in Hn].
  unfold Progress.empty, Progress.set_indicator, Progress.set_smc_ict in Hn. cbn in Hn.
  apply decide_next in Hn as (mtf & ev & sc & plan & Hmtf & Hallow & Hev & Hsc & Hd & Hplan & Hr & -> & Hacc'); [|done..].
  exists state', (mkTrade cs minimum acc signal ind own smc s mtf ev sc plan).
  split; [|split; [exact Hacc'|done]]. unfold dict_index in Hsignal, Hown.
  destruct (dict_get cs _) eqn:E1; [|done]. destruct (dict_get acc _) eqn:E2; [|done]. simplify_eq.
  constructor; cbn; try done. by apply warmup_spec.
Qed.

Lemma bind_lift {A B} (m : pyres A) (f : A -> Step B) a st : m = Ok a -> ((lift m : Step A) ≫= f) st = f a st.
Proof. by intros ->. Qed.
Lemma bind_report {B} g (f : unit -> Step B) st : ((report g : Step unit) ≫= f) st = f tt (fst st, g (snd st)).
Proof. done. Qed.

Lemma analyze_accepts context config source_candles state state' t output :
  passes_gates context config source_candles state state' t -> accepts context config t output ->
  (analyze build_analysis_snapshot strategy_identity context config source_candles : Step _) (state, Progress.empty)
  = ((state', trade_progress t), Next output).
Proof.
  intros [] Hacc. unfold analyze, analyze_candles. unfold mbind at 1, Step_bind at 1, build_candles. cbn [fst snd]. rewrite pg_candles0.
  erewrite bind_lift by eassumption. erewrite bind_lift by (apply warmup_spec; exact pg_history0).
  unfold mbind at 1, Step_bind at 1. rewrite (proj2 (structures_next _ _ _ _ _)) by (eexists; split; [exact pg_structures0|reflexivity]).
  erewrite bind_lift by (unfold dict_index; by rewrite pg_signal0). rewrite bool_decide_false by done.
  erewrite bind_lift by eassumption. rewrite bind_report. cbn [fst snd].
  unfold mbind at 1, Step_bind at 1. unfold Progress.empty, Progress.set_indicator. cbn [Progress.structures snd fst].
  erewrite bind_lift by (unfold dict_index; by rewrite pg_structure0). erewrite bind_lift by eassumption. rewrite bind_report.
  rewrite pg_ready0. unfold decide_setup. rewrite bind_report. erewrite bind_lift by eassumption. rewrite bind_report, pg_allowed0. cbn [negb].
  erewrite bind_lift by eassumption. erewrite bind_lift by eassumption. rewrite bind_report.
  rewrite bool_decide_true by done. cbn [negb]. erewrite bind_lift by eassumption. rewrite bind_report.
  rewrite bool_decide_true by done. cbn [negb]. unfold lift. cbn [fst snd].
  match goal with |- context [accept ?a ?b ?c ?d ?e ?f ?g ?p] =>
    replace (accept a b c d e f g p) with (Ok output) by (symmetry; exact Hacc) end. done.
Qed.

(** ** Its candidate *)

(** The candidate of a trade carries the levels of the plan. *)
Definition candidate_of_trade (context : StrategyEvaluationContext) (config : DeterministicStrategyPipelineConfig) (t : Trade)
    (candidate : Candidate (Snapshot := Snapshot)) : Prop :=
  exists zone entry tp sl rr snapshot,
    RiskPlan.entry_zone (risk_plan t) = Some zone /\ RiskPlan.entry_reference (risk_plan t) = Some entry
    /\ RiskPlan.take_profit (risk_plan t) = Some tp /\ RiskPlan.stop_loss (risk_plan t) = Some sl
    /\ RiskPlan.risk_reward (risk_plan t) = Some rr
    /\ build_analysis_snapshot context (trade_evaluation context config t) (evidence t) (score_result t) = Ok snapshot
    /\ candidate = DeterministicSignalCandidate.mkDeterministicSignalCandidate _ (CompositeEntrySetup.setup_id (setup t))
         (StrategyEvaluationContext.symbol context) (DeterministicStrategyPipelineConfig.signal_timeframe config) (trade_direction t)
         zone entry tp sl rr (SignalScoreResult.score (score_result t)) (StrategyEvaluationContext.as_of context)
         (snapshot, CandidateMetadata.mkCandidateMetadata (CompositeEntrySetup.setup_id (setup t))
                      (MTFAnalysisResult.snapshot_id (mtf_result t)) false) strategy_identity
    /\ DeterministicSignalCandidate.validate_candidate candidate = true.

Lemma trade_direction_some t : trade_direction t <> SignalDecision.NO_TRADE.
Proof. unfold trade_direction, _signal_direction. by destruct (CompositeEntrySetup.direction _). Qed.

Lemma trade_evaluation_valid context config t :
  DeterministicStrategyEvaluation.validate_point_in_time_evaluation (trade_evaluation context config t) = true.
Proof.
  unfold DeterministicStrategyEvaluation.validate_point_in_time_evaluation, trade_evaluation.
  cbn -[trade_direction]. rewrite Z.ltb_irrefl, (bool_decide_true (trade_direction t = trade_direction t)) by done.
  cbn. by rewrite orb_true_r.
Qed.

Lemma asserted_ok {A} (o : option A) a : asserted o = Ok a <-> o = Some a.
Proof. unfold asserted. destruct o; naive_solver. Qed.

Lemma accepts_spec context config t output : accepts context config t output
  <-> exists candidate, candidate_of_trade context config t candidate /\ output = trade_output context config t candidate.
Proof.
  unfold accepts, accept. cbn [trade_progress Progress.indicator Progress.structures Progress.smc_ict Progress.mtf_result
    Progress.risk_result Progress.candidate_direction].
  fold (trade_evaluation context config t). unfold validated at 1. rewrite trade_evaluation_valid. cbn [mbind pyres_bind].
  split.
  - intros (candidate & Hc & Ho)%bind_ok. exists candidate. unfold _candidate in Hc. cbn [trade_evaluation
      DeterministicStrategyEvaluation.risk_result DeterministicStrategyEvaluation.multi_timeframe_result asserted mbind pyres_bind] in Hc.
    fold (trade_evaluation context config t) in Hc.
    apply bind_ok in Hc as (zone & Hz%asserted_ok & Hc). apply bind_ok in Hc as (entry & He%asserted_ok & Hc).
    apply bind_ok in Hc as (tp & Ht%asserted_ok & Hc). apply bind_ok in Hc as (sl & Hs%asserted_ok & Hc).
    apply bind_ok in Hc as (rr & Hr%asserted_ok & Hc). apply bind_ok in Hc as (snapshot & Hsn & Hc).
    apply validated_ok in Hc as [Hv Hc]. unfold result_of in Ho. apply bind_ok in Ho as (result & [_ <-]%validated_ok & [= <-]).
    split; [|done]. exists zone, entry, tp, sl, rr, snapshot. subst candidate. by split_and!.
  - intros (candidate & (zone & entry & tp & sl & rr & snapshot & Hz & He & Ht & Hs & Hr & Hsn & Hc & Hv) & ->).
    unfold _candidate. cbn [trade_evaluation DeterministicStrategyEvaluation.risk_result
      DeterministicStrategyEvaluation.multi_timeframe_result DeterministicStrategyEvaluation.timeframe asserted mbind pyres_bind].
    fold (trade_evaluation context config t). rewrite Hz, He, Ht, Hs, Hr. cbn [asserted mbind pyres_bind]. rewrite Hsn. cbn [mbind pyres_bind].
    fold (trade_direction t). rewrite <- Hc. unfold validated at 1. rewrite Hv. cbn [mbind pyres_bind].
    unfold result_of, validated, StrategyEvaluationResult.validate_unique_point_in_time_outputs, trade_output.
    rewrite Hc. cbn. rewrite Z.ltb_irrefl, Z.eqb_refl, !bool_decide_true by (try apply NoDup_singleton; try constructor; done). done.
Qed.

(** ** Whole evaluations *)

(** The input of an evaluation that gets as far as the engines. *)
Definition input_ready (context : StrategyEvaluationContext) (config : DeterministicStrategyPipelineConfig) (source_candles : list Candle) : Prop :=
  let mtf_config := DeterministicStrategyPipelineConfig.multi_timeframe config in
  let source_timeframe := MTFConfig.mtf_source_timeframe mtf_config in
  dict_get (StrategyConfig.pipelines strategy_config) (StrategyEvaluationContext.symbol context) = Some config
  /\ dict_get (StrategyEvaluationContext.candles_by_timeframe context) source_timeframe = Some source_candles
  /\ (exists last, list.last source_candles = Some last
        /\ Candle.timestamp last + timeframe_duration source_timeframe = StrategyEvaluationContext.as_of context)
  /\ MTFConfig.mtf_gap_policy mtf_config <> MTFGapPolicy.SESSION_CALENDAR
  /\ _has_source_gap source_candles source_timeframe = false.

Lemma input_ready_evaluate state context config source_candles : input_ready context config source_candles ->
  evaluate state context = handle_errors strategy_identity context config
    (analyze build_analysis_snapshot strategy_identity context config source_candles (state, Progress.empty)).
Proof.
  intros (Hc & Hs & (last & Hl & Hcl) & Hp & Hg). unfold Strategy.evaluate. rewrite Hc, Hs. cbn [default from_option id].
  by rewrite Hl, Hcl, Z.eqb_refl, bool_decide_false, Hg.
Qed.

Lemma evaluate_cases state context :
  (exists timeframe reason, evaluate state context = (state, Ok (refusal context timeframe reason Progress.empty)))
  \/ exists config source_candles, input_ready context config source_candles.
Proof.
  unfold Strategy.evaluate. destruct (dict_get _ _) as [config|] eqn:Ec; [|rewrite no_trade_ok; eauto].
  destruct (dict_get (StrategyEvaluationContext.candles_by_timeframe context) _) as [source|] eqn:Es;
    cbn [default from_option id]; [|cbn [list.last]; rewrite no_trade_ok; eauto].
  destruct (list.last source) as [last|] eqn:El; [|rewrite no_trade_ok; eauto].
  destruct (Z.eqb_spec (Candle.timestamp last + timeframe_duration
    (MTFConfig.mtf_source_timeframe (DeterministicStrategyPipelineConfig.multi_timeframe config))) (StrategyEvaluationContext.as_of context));
    cbn [negb]; [|rewrite no_trade_ok; eauto].
  case_bool_decide; [rewrite no_trade_ok; eauto|].
  destruct (_has_source_gap source _) eqn:Eg; [rewrite no_trade_ok; eauto|].
  right. exists config, source. split_and!; eauto.
Qed.

Create HintDb refuses discriminated.
#[local] Hint Resolve bind_refuses lift_refuses report_refuses leave_refuses : refuses.

Lemma structures_refuses context config timeframe targets : refuses context timeframe (analyze_structures config targets : Step unit).
Proof. induction targets as [|[tf cs] rest IH]; cbn [analyze_structures]; [by intros st st' output|eauto 8 with refuses]. Qed.
#[local] Hint Resolve structures_refuses : refuses.

Lemma decide_refuses context config source_candles candles minimum indicator structures smc_ict setup :
  refuses context (DeterministicStrategyPipelineConfig.signal_timeframe config)
    (decide_setup build_analysis_snapshot strategy_identity context config source_candles candles minimum indicator structures smc_ict setup : Step _).
Proof.
  unfold decide_setup. apply bind_refuses; [auto with refuses|intros _]. apply bind_refuses; [auto with refuses|intros mtf].
  apply bind_refuses; [auto with refuses|intros _]. destruct (negb _); [auto with refuses|].
  apply bind_refuses; [auto with refuses|intros ev]. apply bind_refuses; [auto with refuses|intros sc].
  apply bind_refuses; [auto with refuses|intros _]. destruct (negb _); [auto with refuses|].
  apply bind_refuses; [auto with refuses|intros plan]. apply bind_refuses; [auto with refuses|intros _].
  destruct (negb _); [auto with refuses|]. intros st st' output. unfold lift. by destruct (accept _ _ _ _ _ _ _ _).
Qed.

Lemma analyze_refuses context config source_candles : refuses context (DeterministicStrategyPipelineConfig.signal_timeframe config)
  (analyze build_analysis_snapshot strategy_identity context config source_candles : Step _).
Proof.
  unfold analyze, analyze_candles. apply bind_refuses.
  { intros st st' output. unfold build_candles. destruct (_build_candles_by_target _ _ _ _ _) as [? []]; done. }
  intros cs. apply bind_refuses; [auto with refuses|intros minimum]. apply bind_refuses; [auto with refuses|intros []]; [auto with refuses|].
  apply bind_refuses; [auto with refuses|intros _]. apply bind_refuses; [auto with refuses|intros signal].
  case_bool_decide; [auto with refuses|]. apply bind_refuses; [auto with refuses|intros ind]. apply bind_refuses; [auto with refuses|intros _].
  apply bind_refuses; [by intros st st' output|intros structs]. apply bind_refuses; [auto with refuses|intros own].
  apply bind_refuses; [auto with refuses|intros smc]. apply bind_refuses; [auto with refuses|intros _].
  destruct (ready_now _ _) as [|s [|]]; auto using decide_refuses with refuses.
Qed.

(** An evaluation of a ready input: a trade, or a refusal, or an exception
    that is not a [ValueError]. *)
Lemma ready_evaluate state context config source_candles : input_ready context config source_candles ->
  match evaluate state context with
  | (state', Ok output) =>
      (exists t candidate, passes_gates context config source_candles state state' t /\ candidate_of_trade context config t candidate
         /\ output = trade_output context config t candidate)
      \/ (exists reason p, output = refusal context (DeterministicStrategyPipelineConfig.signal_timeframe config) reason p)
  | (_, Raise e) => value_error e = false
  end.
Proof.
  intros Hr. rewrite (input_ready_evaluate state context config source_candles Hr). unfold handle_errors.
  destruct (analyze _ _ _ _ _ _) as [[state' p] flow] eqn:E. destruct flow as [output|output|e].
  - left. apply analyze_next in E as (s & t & Hp & (candidate & Hc & Ho)%accepts_spec & [= -> ->]). eauto.
  - right. apply analyze_refuses in E as [reason ->]. eauto.
  - destruct (value_error e) eqn:Ev; [|done]. rewrite no_trade_ok. eauto.
Qed.

Lemma refusal_not_trade context config timeframe reason p t candidate :
  refusal context timeframe reason p <> trade_output context config t candidate.
Proof. done. Qed.

Lemma trade_cases state state' context output :
  evaluate state context = (state', Ok output) -> StrategyEvaluationResult.candidates (fst output) <> [] ->
  exists config source_candles t candidate, input_ready context config source_candles
      /\ passes_gates context config source_candles state state' t /\ candidate_of_trade context config t candidate
      /\ output = trade_output context config t candidate.
Proof.
  intros He Hc. destruct (evaluate_cases state context) as [(tf & reason & E)|(config & source & Hr)].
  { rewrite He in E. by simplify_eq. }
  pose proof (ready_evaluate state context config source Hr) as Hcases. rewrite He in Hcases.
  destruct Hcases as [(t & candidate & Hp & Hcand & ->)|(reason & p & ->)]; [|done]. by exists config, source, t, candidate.
Qed.

(** C1. The engine yields a candidate exactly when the input is ready and
    every gate is passed, in the order of the code: enough history for the
    required timeframes, all engines return, exactly one READY setup is
    confirmed at [as_of], the timeframes allow the trade in its direction, and
    the score and the risk engine decide for that direction. The candidate then
    carries the setup's identity and the levels of the risk plan. *)
Theorem trade_exactly state state' context output :
  (evaluate state context = (state', Ok output) /\ StrategyEvaluationResult.candidates (fst output) <> [])
  <-> exists config source_candles t candidate, input_ready context config source_candles
      /\ passes_gates context config source_candles state state' t /\ candidate_of_trade context config t candidate
      /\ output = trade_output context config t candidate.
Proof.
  split.
  - intros [He Hc]. by apply (trade_cases state).
  - intros (config & source & t & candidate & Hr & Hp & Hc & ->). split; [|done].
    rewrite (input_ready_evaluate _ _ _ _ Hr). unfold handle_errors.
    by erewrite analyze_accepts by (done || (apply accepts_spec; eauto)).
Qed.

(** ** What a candidate rests on *)

(** How an accepted plan was computed. *)
Lemma accepted_plan_inv candidate pools config tick_size atr plan :
  calculate_risk_plan candidate pools config tick_size atr = Ok plan -> RiskPlan.decision plan <> RiskDecision.NO_TRADE ->
  exists a entry tb ab sb sl r pool raw tp w rr,
    atr = Some a /\ _round_nearest_tick (_entry_reference candidate config) tick_size = Ok entry
    /\ stop_side candidate config tick_size atr entry = Ok (tb, ab, sb, sl, r)
    /\ dltb (RiskEngineConfig.max_distance_atr_ratio config) (ddiv DEFAULT_PREC r a) = false
    /\ dltb r (dmul DEFAULT_PREC (D (RiskEngineConfig.min_distance_ticks config)) tick_size) = false
    /\ _select_target_pool candidate pools entry config tick_size = Some pool
    /\ target_side candidate tick_size entry sl pool = Ok (raw, tp, w, true)
    /\ ddiv_py DEFAULT_PREC w r = Ok rr /\ dltb rr (RiskEngineConfig.min_rr config) = false
    /\ RiskPlan.entry_zone plan = Some (RiskCandidate.entry_zone candidate) /\ RiskPlan.entry_reference plan = Some entry
    /\ RiskPlan.stop_loss plan = Some sl /\ RiskPlan.take_profit plan = Some tp /\ RiskPlan.risk_reward plan = Some rr.
Proof using.
  assert (forall reason, _rejected candidate reason = Ok plan -> RiskPlan.decision plan <> RiskDecision.NO_TRADE -> False) as Hrej.
  { intros reason [_ <-]%validated_ok Hd. by apply Hd. }
  intros Hp Hd. unfold calculate_risk_plan in Hp.
  apply bind_ok in Hp as (? & _ & Hp). apply bind_ok in Hp as (? & _ & Hp). apply bind_ok in Hp as (? & _ & Hp).
  apply bind_ok in Hp as (entry & He & Hp). destruct (_ && bool_decide _); [by eapply Hrej in Hp|].
  apply bind_ok in Hp as ([[[[tb ab] sb] sl] r] & Hs & Hp).
  destruct (dleb sl (D 0) || _); [by eapply Hrej in Hp|]. destruct (dltb r _) eqn:Emin; [by eapply Hrej in Hp|].
  destruct atr as [a|]; [|by eapply Hrej in Hp]. apply bind_ok in Hp as (ratio & Hratio & Hp).
  destruct (dltb _ ratio) eqn:Emax; [by eapply Hrej in Hp|].
  destruct (_select_target_pool _ _ _ _ _) as [pool|] eqn:Epool; [|by eapply Hrej in Hp].
  apply bind_ok in Hp as ([[[raw tp] w] ordered] & Ht & Hp). destruct ordered; cbn [negb] in Hp; [|by eapply Hrej in Hp].
  destruct (dleb w _); [by eapply Hrej in Hp|]. apply bind_ok in Hp as (rr & Hrr & Hp).
  destruct (dltb rr _) eqn:Err; [by eapply Hrej in Hp|]. apply bind_ok in Hp as (metadata & _ & Hp).
  apply validated_ok in Hp as [_ <-]. unfold ddiv_py in Hratio. destruct (coef a =? 0); [by destruct (coef r =? 0)|]. injection Hratio as <-.
  exists a, entry, tb, ab, sb, sl, r, pool, raw, tp, w, rr. by split_and!.
Qed.

Definition risk_direction (direction : EntrySetupDirection) : RiskDirection :=
  match direction with EntrySetupDirection.BULLISH => RiskDirection.LONG | EntrySetupDirection.BEARISH => RiskDirection.SHORT end.

(** The levels lie on the right sides of each other. *)
Definition levels_ordered (direction : EntrySetupDirection) (zone : EntryZone) (invalidation entry tp sl : dec) : Prop :=
  (Qval (EntryZone.low zone) <= Qval entry <= Qval (EntryZone.high zone))%Q
  /\ match direction with
     | EntrySetupDirection.BULLISH =>
         (Qval sl < Qval (EntryZone.low zone) /\ Qval invalidation < Qval (EntryZone.low zone) /\ Qval (EntryZone.high zone) < Qval tp)%Q
     | EntrySetupDirection.BEARISH =>
         (Qval (EntryZone.high zone) < Qval sl /\ Qval (EntryZone.high zone) < Qval invalidation /\ Qval tp < Qval (EntryZone.low zone))%Q
     end.

(** A pool of the other side that was active and known at the decision. *)
Definition opposing_pool (direction : EntrySetupDirection) (as_of : datetime) (pool : LiquidityPool) : Prop :=
  LiquidityPool.state pool = LiquidityPoolState.ACTIVE
  /\ LiquidityPool.created_at pool <= as_of /\ LiquidityPool.updated_at pool <= as_of
  /\ LiquidityPool.direction pool = match direction with
       | EntrySetupDirection.BULLISH => LiquidityDirection.BUY_SIDE | EntrySetupDirection.BEARISH => LiquidityDirection.SELL_SIDE end.

Lemma select_target_inv candidate pools entry config tick_size pool :
  _select_target_pool candidate pools entry config tick_size = Some pool ->
  pool ∈ pools /\ visible_active candidate pool = true
  /\ LiquidityPool.direction pool = match RiskCandidate.direction candidate with
       | RiskDirection.LONG => LiquidityDirection.BUY_SIDE | RiskDirection.SHORT => LiquidityDirection.SELL_SIDE end.
Proof using.
  intros [Hin He]%select_target_elem. unfold eligible_target in He. apply andb_true_iff in He as [Hv Hd].
  split; [done|]. split; [done|].
  destruct (RiskCandidate.direction candidate); apply andb_true_iff in Hd as [Hd _]; by apply bool_decide_eq_true in Hd.
Qed.

Lemma candidate_levels (c : Candidate (Snapshot := Snapshot)) direction invalidation :
  DeterministicSignalCandidate.validate_candidate c = true ->
  DeterministicSignalCandidate.direction c = _signal_direction direction ->
  match direction with
  | EntrySetupDirection.BULLISH => negb (dleb (EntryZone.low (DeterministicSignalCandidate.entry_zone c)) invalidation)
  | EntrySetupDirection.BEARISH => negb (dleb invalidation (EntryZone.high (DeterministicSignalCandidate.entry_zone c)))
  end = true ->
  levels_ordered direction (DeterministicSignalCandidate.entry_zone c) invalidation (DeterministicSignalCandidate.entry_reference c)
    (DeterministicSignalCandidate.take_profit c) (DeterministicSignalCandidate.stop_loss c).
Proof using.
  intros Hv Hd Hb. unfold DeterministicSignalCandidate.validate_candidate in Hv. rewrite Hd in Hv. unfold levels_ordered.
  destruct direction; cbn [_signal_direction] in Hv;
    rewrite ?(bool_decide_true (SignalDecision.LONG = SignalDecision.LONG)),
      ?(bool_decide_false (SignalDecision.SHORT = SignalDecision.LONG)) in Hv by done;
    bool_hyps; dec_to_Q; repeat split; try assumption; lra.
Qed.

Lemma ready_now_inv context setups s : ready_now context setups = [s] ->
  s ∈ setups /\ CompositeEntrySetup.setup_status s = EntrySetupStatus.READY
  /\ CompositeEntrySetup.confirmed_at s = StrategyEvaluationContext.as_of context.
Proof using.
  unfold ready_now. intros E. assert (s ∈ [s]) as Hs by by apply list_elem_of_singleton. rewrite <- E in Hs.
  apply list_elem_of_In, filter_In in Hs as [Hin Hs]. bool_hyps. split; [by apply list_elem_of_In|]. split; [done|by apply Z.eqb_eq].
Qed.

Lemma risk_candidate_inv s candidate : risk_candidate_from_setup s = Ok candidate -> exists zone level,
  CompositeEntrySetup.entry_zone s = Some zone /\ CompositeEntrySetup.invalidation_level s = Some level
  /\ RiskCandidate.direction candidate = risk_direction (CompositeEntrySetup.direction s)
  /\ RiskCandidate.entry_zone candidate = zone /\ RiskCandidate.structural_invalidation_level candidate = level
  /\ RiskCandidate.confirmed_at candidate = CompositeEntrySetup.confirmed_at s
  /\ RiskCandidate.require_structural_invalidation_outside_entry candidate = true.
Proof using.
  unfold risk_candidate_from_setup. destruct (negb _); [done|].
  destruct (CompositeEntrySetup.entry_zone s) as [zone|], (CompositeEntrySetup.invalidation_level s) as [level|]; try done.
  intros [Hv <-]%validated_ok. exists zone, level. by split_and!.
Qed.

Lemma expected_decision direction : expected_risk_decision (_signal_direction direction) <> RiskDecision.NO_TRADE.
Proof using. by destruct direction. Qed.

(** C3. Every candidate rests on a READY setup that the detection confirmed
    at [as_of]: it has its direction and its entry zone, the stop is the
    setup's invalidation level moved by the buffer and floored (or ceiled) to
    the tick, the target lies at an opposing pool of liquidity that was active
    and known at [as_of], the levels are ordered around the zone with stop and
    invalidation on the far side, and the reward is at least the configured
    multiple of the risk. *)
Theorem candidate_sound state state' context output candidate :
  evaluate state context = (state', Ok output) -> candidate ∈ StrategyEvaluationResult.candidates (fst output) ->
  exists config source_candles t zone invalidation,
    let direction := CompositeEntrySetup.direction (setup t) in
    let risk := DeterministicStrategyPipelineConfig.risk config in
    let tick_size := DeterministicStrategyPipelineConfig.tick_size config in
    let pools := LiquidityAnalysisResult.pools (DeterministicSMCICTSnapshot.liquidity (smc_ict t)) in
    input_ready context config source_candles /\ passes_gates context config source_candles state state' t
    /\ setup t ∈ EntrySetupAnalysisResult.setups (DeterministicSMCICTSnapshot.entry_setups (smc_ict t))
    /\ CompositeEntrySetup.setup_status (setup t) = EntrySetupStatus.READY
    /\ CompositeEntrySetup.confirmed_at (setup t) = StrategyEvaluationContext.as_of context
    /\ CompositeEntrySetup.entry_zone (setup t) = Some zone /\ CompositeEntrySetup.invalidation_level (setup t) = Some invalidation
    /\ DeterministicSignalCandidate.direction candidate = _signal_direction direction
    /\ DeterministicSignalCandidate.entry_zone candidate = zone
    /\ levels_ordered direction zone invalidation (DeterministicSignalCandidate.entry_reference candidate)
         (DeterministicSignalCandidate.take_profit candidate) (DeterministicSignalCandidate.stop_loss candidate)
    /\ (exists a buffer, match direction with
         | EntrySetupDirection.BULLISH => _floor_tick (dsub DEFAULT_PREC invalidation buffer) tick_size
         | EntrySetupDirection.BEARISH => _ceil_tick (dadd DEFAULT_PREC invalidation buffer) tick_size
         end = Ok (DeterministicSignalCandidate.stop_loss candidate)
         /\ buffer = dmax (dmul DEFAULT_PREC (D (RiskEngineConfig.stop_buffer_ticks risk)) tick_size)
                          (dmul DEFAULT_PREC (RiskEngineConfig.atr_buffer risk) a))
    /\ (exists pool, pool ∈ pools /\ opposing_pool direction (StrategyEvaluationContext.as_of context) pool
         /\ match direction with
            | EntrySetupDirection.BULLISH => _floor_tick (LiquidityPool.lower_bound pool) tick_size
            | EntrySetupDirection.BEARISH => _ceil_tick (LiquidityPool.upper_bound pool) tick_size
            end = Ok (DeterministicSignalCandidate.take_profit candidate))
    /\ (Qval (RiskEngineConfig.min_rr risk) <= Qval (DeterministicSignalCandidate.risk_reward candidate))%Q.
Proof.
  intros He Hc. destruct (trade_cases state state' context output He) as (config & source & t & c & Hr & Hp & Hcand & ->).
  { by intros E; rewrite E in Hc; apply not_elem_of_nil in Hc. }
  cbn in Hc. apply list_elem_of_singleton in Hc as ->.
  destruct Hcand as (zone & entry & tp & sl & rr & snapshot & Ez & Ee & Et & Es & Er & _ & Ec & Hv).
  subst c. cbn [DeterministicSignalCandidate.direction DeterministicSignalCandidate.entry_zone DeterministicSignalCandidate.entry_reference
    DeterministicSignalCandidate.take_profit DeterministicSignalCandidate.stop_loss DeterministicSignalCandidate.risk_reward].
  destruct (ready_now_inv _ _ _ (pg_ready _ _ _ _ _ _ Hp)) as (Hin & Hst & Hat).
  pose proof (pg_risk _ _ _ _ _ _ Hp) as Hplan. unfold plan_risk in Hplan.
  apply bind_ok in Hplan as (rc & Hrc & Hplan). apply bind_ok in Hplan as (atr & _ & Hplan).
  destruct (risk_candidate_inv _ _ Hrc) as (zone' & level & Hz & Hl & Hd & Hz' & Hl' & Ht & Hbeyond).
  assert (RiskPlan.decision (risk_plan t) <> RiskDecision.NO_TRADE) as Hne by (rewrite (pg_risk_decision _ _ _ _ _ _ Hp); apply expected_decision).
  apply accepted_plan_inv in Hplan as (a & e & tb & ab & sb & sl' & r & pool & raw & tp' & w & rr' & -> & _ & Hstop & _ & _ & Hpool & Htarget
    & _ & Hrr & Ez' & Ee' & Es' & Et' & Er'); [|done].
  rewrite Ez in Ez'. rewrite Ee in Ee'. rewrite Es in Es'. rewrite Et in Et'. rewrite Er in Er'. simplify_eq.
  exists config, source, t, (RiskCandidate.entry_zone rc), (RiskCandidate.structural_invalidation_level rc). cbv zeta.
  apply select_target_inv in Hpool as (Hpin & Hvis & Hpd). rewrite Hd in Hpd.
  unfold stop_side in Hstop. unfold target_side in Htarget. rewrite Hd in Hstop, Htarget. split_and!; try done.
  - eapply (candidate_levels _ _ _ Hv); [done|]. cbn. unfold RiskCandidate.require_structural_invalidation_outside_entry in Hbeyond.
    rewrite Hd in Hbeyond. apply andb_true_iff in Hbeyond as [_ Hb]. destruct (CompositeEntrySetup.direction (setup t)); exact Hb.
  - exists a, (dmax (dmul DEFAULT_PREC (D (RiskEngineConfig.stop_buffer_ticks (DeterministicStrategyPipelineConfig.risk config)))
                (DeterministicStrategyPipelineConfig.tick_size config))
       (dmul DEFAULT_PREC (RiskEngineConfig.atr_buffer (DeterministicStrategyPipelineConfig.risk config)) a)). split; [|done].
    destruct (CompositeEntrySetup.direction (setup t)); cbn [risk_direction] in Hstop; apply bind_ok in Hstop as (x & Hx & [= <- <- <- <- <-]); exact Hx.
  - exists pool. split; [done|]. unfold visible_active in Hvis. rewrite Ht, Hat in Hvis. bool_hyps. split.
    + unfold opposing_pool. split_and!; [done|by apply Z.leb_le..|].
      by destruct (CompositeEntrySetup.direction (setup t)).
    + destruct (CompositeEntrySetup.direction (setup t)); cbn [risk_direction] in Htarget; apply bind_ok in Htarget as (x & Hx & Heq);
        by simplify_eq.
  - by apply dltb_false.
Qed.

(** ** Under the backtest runner *)

Lemma evaluation_outputs state context state' output : evaluate state context = (state', Ok output) ->
  StrategyEvaluationResult.evaluated_at (fst output) = StrategyEvaluationContext.as_of context
  /\ StrategyEvaluationResult.invalidations (fst output) = []
  /\ (exists e, StrategyEvaluationResult.evaluation (fst output) = Some e /\ StrategyEvaluation.strategy_identity e = strategy_identity)
  /\ (StrategyEvaluationResult.candidates (fst output) = []
      \/ exists config source_candles c, input_ready context config source_candles /\ StrategyEvaluationResult.candidates (fst output) = [c]
          /\ DeterministicSignalCandidate.symbol c = StrategyEvaluationContext.symbol context
          /\ DeterministicSignalCandidate.timeframe c = DeterministicStrategyPipelineConfig.signal_timeframe config
          /\ DeterministicSignalCandidate.strategy_identity c = strategy_identity
          /\ DeterministicSignalCandidate.created_at c = StrategyEvaluationContext.as_of context).
Proof.
  intros He. destruct (evaluate_cases state context) as [(tf & reason & E)|(config & source & Hr)].
  { rewrite He in E. simplify_eq. cbn. split_and!; eauto. }
  pose proof (ready_evaluate state context config source Hr) as Hcases. rewrite He in Hcases.
  destruct Hcases as [(t & c & _ & Hc & ->)|(reason & p & ->)]; cbn; (split; [done|]; split; [done|]; split; [eauto|]); [|by left].
  right. exists config, source, c. destruct Hc as (zone & entry & tp & sl & rr & snapshot & _ & _ & _ & _ & _ & _ & -> & _). by split_and!.
Qed.

(** C6. The backtest runner never refuses an output of this engine: when
    [evaluate] returns and the signal timeframe of the symbol has a series, the
    checks of the output pass, a candidate that is new to the run is admitted,
    and there are no invalidations to admit. *)
Theorem runner_accepts_evaluation series_map state state' context output runtimes :
  let engine := strategy_engine build_analysis_snapshot strategy_config strategy_identity in
  StrategyEngine.evaluate engine state context = Ok (output, state') ->
  (forall config, dict_get (StrategyConfig.pipelines strategy_config) (StrategyEvaluationContext.symbol context) = Some config ->
     exists candles, assoc (K := SeriesKey) (StrategyEvaluationContext.symbol context, DeterministicStrategyPipelineConfig.signal_timeframe config)
                       series_map = Some candles) ->
  _validate_strategy_output engine series_map context output runtimes = Ok tt
  /\ StrategyEvaluationResult.invalidations output = []
  /\ ((forall c, c ∈ StrategyEvaluationResult.candidates output ->
        assoc (K := RuntimeKey) (DeterministicSignalCandidate.symbol c, DeterministicSignalCandidate.candidate_id c) runtimes = None) ->
      py_fold (admit_candidate (StrategyEvaluationContext.as_of context)) runtimes (StrategyEvaluationResult.candidates output)
      = Ok (runtimes ++ map (fun c => ((DeterministicSignalCandidate.symbol c, DeterministicSignalCandidate.candidate_id c),
                                       _RuntimeSignal.fresh c)) (StrategyEvaluationResult.candidates output))).
Proof.
  intros engine He Hseries. cbn in He. destruct (evaluate state context) as [s' [out|e]] eqn:E; [|done]. injection He as <- <-.
  destruct (evaluation_outputs _ _ _ _ E) as (Hat & Hinv & (e & He & Hid) & Hc). unfold _validate_strategy_output.
  rewrite Hat, He, Hinv, Z.eqb_refl. cbn [negb raise_if mbind pyres_bind engine strategy_engine StrategyEngine.strategy_identity].
  rewrite Hid, bool_decide_true by done. cbn [negb raise_if mbind pyres_bind].
  destruct Hc as [->|(config & source & c & Hr & -> & Hs & Ht & Hi & Hca)].
  { split_and!; [done..|]. intros _. cbn. by rewrite app_nil_r. }
  cbn [py_for py_fold map]. destruct (Hseries config (proj1 Hr)) as [candles Hser]. rewrite Hi, Hs, Ht, Hca, Hser.
  rewrite !bool_decide_true by done. cbn [negb raise_if is_some mbind pyres_bind]. rewrite Z.ltb_irrefl, andb_false_r. cbn [raise_if].
  split_and!; [done..|]. intros Hnew. unfold admit_candidate. rewrite <- Hs, (Hnew c) by by apply list_elem_of_singleton.
  by rewrite Hca, Z.eqb_refl.
Qed.
End engine.
