(* ===== verification/StrategyReport.v ===== *)
(** What an evaluation of the strategy engine reports: for every refusal of
    [engines/strategy_engine.py] its reason, the condition that causes
    it and the evidence that had been computed by then; and for every exception
    the call that raised it. *)
From Stdlib Require Import ZArith Lia.
From stdpp Require Import base list strings numbers.
From S2P Require Import Prelude Dict Decimal Time Candle Signal Indicators Structure Engine Fvg LiquidityTypes Liquidity Displacement OrderBlocks Risk SetupTypes EntrySetup Lifecycle Execution Crt Score Resampling MtfTypes MultiTimeframe Metrics Runner Strategy StrategyTheory.
Local Open Scope Z_scope.

Section engine.
Context {Snapshot State : Type} `{CandidateSnapshot Snapshot} `{TargetCandles State}.
Context (build_analysis_snapshot : StrategyEvaluationContext -> DeterministicStrategyEvaluation -> SignalScoreEvidence
  -> SignalScoreResult -> pyres Snapshot).
Context (strategy_config : StrategyConfig) (strategy_identity : StrategyIdentity).

#[local] Abbreviation evaluate := (evaluate build_analysis_snapshot strategy_config strategy_identity).
#[local] Existing Instance Step_ret.
#[local] Existing Instance Step_bind.
#[local] Abbreviation Step := (Step (Snapshot := Snapshot) (State := State)).

(** ** The checks of the input

    In the order of the code; each refuses with nothing computed. *)

Definition source_timeframe (config : DeterministicStrategyPipelineConfig) : Timeframe :=
  MTFConfig.mtf_source_timeframe (DeterministicStrategyPipelineConfig.multi_timeframe config).

(** The candles of the source timeframe, the last of them [last]. *)
Definition source_ends_with (context : StrategyEvaluationContext) (config : DeterministicStrategyPipelineConfig) (source_candles : list Candle)
    (last : Candle) : Prop :=
  dict_get (StrategyEvaluationContext.candles_by_timeframe context) (source_timeframe config) = Some source_candles
  /\ list.last source_candles = Some last.

Definition closes_now (context : StrategyEvaluationContext) (config : DeterministicStrategyPipelineConfig) (last : Candle) : Prop :=
  Candle.timestamp last + timeframe_duration (source_timeframe config) = StrategyEvaluationContext.as_of context.

Inductive input_refused (context : StrategyEvaluationContext) (config : DeterministicStrategyPipelineConfig) : string -> Prop :=
| no_source :
    dict_get (StrategyEvaluationContext.candles_by_timeframe context) (source_timeframe config) = None
    \/ dict_get (StrategyEvaluationContext.candles_by_timeframe context) (source_timeframe config) = Some [] ->
    input_refused context config "REQUIRED_SOURCE_TIMEFRAME_UNAVAILABLE"
| stale_source source_candles last : source_ends_with context config source_candles last -> ~ closes_now context config last ->
    input_refused context config "SOURCE_DATA_STALE_OR_NON_POINT_IN_TIME"
| no_calendar source_candles last : source_ends_with context config source_candles last -> closes_now context config last ->
    MTFConfig.mtf_gap_policy (DeterministicStrategyPipelineConfig.multi_timeframe config) = MTFGapPolicy.SESSION_CALENDAR ->
    input_refused context config "SESSION_CALENDAR_INPUT_UNAVAILABLE"
| gap_in_source source_candles last : source_ends_with context config source_candles last -> closes_now context config last ->
    MTFConfig.mtf_gap_policy (DeterministicStrategyPipelineConfig.multi_timeframe config) <> MTFGapPolicy.SESSION_CALENDAR ->
    _has_source_gap source_candles (source_timeframe config) = true ->
    input_refused context config "SOURCE_DATA_GAP".

Lemma source_cases context config :
  match list.last (default [] (dict_get (StrategyEvaluationContext.candles_by_timeframe context) (source_timeframe config))) with
  | None => dict_get (StrategyEvaluationContext.candles_by_timeframe context) (source_timeframe config) = None
      \/ dict_get (StrategyEvaluationContext.candles_by_timeframe context) (source_timeframe config) = Some []
  | Some last => exists source_candles, source_ends_with context config source_candles last
  end.
Proof.
  unfold source_ends_with. destruct (dict_get _ _) as [source|]; cbn [default from_option id]; [|by left].
  destruct (list.last source) eqn:El; [eauto|]. right. by apply last_None in El as ->.
Qed.

(** ** How far an evaluation came *)

Section stages.
Context (context : StrategyEvaluationContext) (config : DeterministicStrategyPipelineConfig) (source_candles : list Candle).
Context (state state' : State).
#[local] Abbreviation as_of := (StrategyEvaluationContext.as_of context).
#[local] Abbreviation signal_timeframe := (DeterministicStrategyPipelineConfig.signal_timeframe config).
#[local] Abbreviation required := (MTFConfig.mtf_availability_required (DeterministicStrategyPipelineConfig.multi_timeframe config)).

(** The candles of the targets and the minimum histories are there. *)
Definition has_candles (cs : list (Timeframe * list Candle)) (minimum : list (Timeframe * Z)) : Prop :=
  _build_candles_by_target state (StrategyEvaluationContext.symbol context) source_candles as_of config = (state', Ok cs)
  /\ DeterministicStrategyPipelineConfig.minimum_history_by_timeframe config = Ok minimum.

(** A timeframe has its minimum history. *)
Definition warmed_up (cs : list (Timeframe * list Candle)) (minimum : list (Timeframe * Z)) (tf : Timeframe) : Prop :=
  exists candles n, dict_get cs tf = Some candles /\ dict_get minimum tf = Some n /\ n <= Z.of_nat (length candles).

(** The structure of one target. *)
Definition structure_of (target : Timeframe * list Candle) : pyres MarketStructureResult :=
  structure_config ← dict_index (DeterministicStrategyPipelineConfig.market_structure config) target.1;
  analyze_market_structure target.2 target.1 structure_config.

(** Every target has its structure. *)
Definition has_structures (cs : list (Timeframe * list Candle)) (minimum : list (Timeframe * Z))
    (structures : list (string * MarketStructureResult)) : Prop :=
  has_candles cs minimum /\ Forall (warmed_up cs minimum) required /\ structures_of config cs [] = Ok structures.

(** The signal timeframe has candles, with their indicators. *)
Definition has_indicator cs minimum structures (signal : list Candle) (indicator : IndicatorAnalysis) : Prop :=
  has_structures cs minimum structures /\ dict_get cs signal_timeframe = Some signal /\ signal <> []
  /\ calculate_indicators signal signal_timeframe (DeterministicStrategyPipelineConfig.macd config)
       (DeterministicStrategyPipelineConfig.atr config) = Ok indicator.

(** The engines of the signal timeframe have returned. *)
Definition has_smc_ict cs minimum structures (indicator : IndicatorAnalysis) (smc_ict : DeterministicSMCICTSnapshot) : Prop :=
  exists signal own, has_indicator cs minimum structures signal indicator
  /\ dict_get structures (timeframe_value signal_timeframe) = Some own
  /\ analyze_signal_timeframe config signal own (IndicatorAnalysis.atr indicator) = Ok smc_ict.

Definition ready_setups (smc_ict : DeterministicSMCICTSnapshot) : list CompositeEntrySetup :=
  ready_now context (EntrySetupAnalysisResult.setups (DeterministicSMCICTSnapshot.entry_setups smc_ict)).

(** One setup is ready, and the timeframes have been compared. *)
Definition has_mtf cs minimum structures indicator smc_ict (setup : CompositeEntrySetup) (mtf : MTFAnalysisResult) : Prop :=
  has_smc_ict cs minimum structures indicator smc_ict /\ ready_setups smc_ict = [setup]
  /\ check_multi_timeframe context config source_candles cs minimum setup structures = Ok mtf.

(** The score of a setup. *)
Definition score_of (setup : CompositeEntrySetup) (indicator : IndicatorAnalysis) (mtf : MTFAnalysisResult) : pyres SignalScoreResult :=
  evidence ← _score_evidence setup indicator signal_timeframe (MTFAnalysisResult.snapshot_id mtf) as_of;
  calculate_signal_score evidence (DeterministicStrategyPipelineConfig.signal_score config)
    (StrategyIdentity.strategy_version strategy_identity).

(** The timeframes allow the trade, and it is scored. *)
Definition has_score cs minimum structures indicator smc_ict setup mtf (score : SignalScoreResult) : Prop :=
  has_mtf cs minimum structures indicator smc_ict setup mtf /\ MTFAnalysisResult.trade_allowed mtf = true
  /\ score_of setup indicator mtf = Ok score.

(** The plan of the setup. *)
Definition plan_of (setup : CompositeEntrySetup) (indicator : IndicatorAnalysis) (smc_ict : DeterministicSMCICTSnapshot) : pyres RiskPlan :=
  plan_risk config setup (LiquidityAnalysisResult.pools (DeterministicSMCICTSnapshot.liquidity smc_ict)) (IndicatorAnalysis.atr indicator).

#[local] Abbreviation side setup := (_signal_direction (CompositeEntrySetup.direction setup)).

(** ** Where an evaluation stops

    The reason of the early return, or the exception, and everything that had
    been computed: the indicator, the structures, the engines of the signal
    timeframe, the comparison of the timeframes, the plan, the score, and the
    direction of the setup. *)
Inductive stopped : Progress -> string + pyexc -> Prop :=
| stop_candles e :
    _build_candles_by_target state (StrategyEvaluationContext.symbol context) source_candles as_of config = (state', Raise e) ->
    stopped Progress.empty (inr e)
| stop_minimum cs e :
    _build_candles_by_target state (StrategyEvaluationContext.symbol context) source_candles as_of config = (state', Ok cs) ->
    DeterministicStrategyPipelineConfig.minimum_history_by_timeframe config = Raise e ->
    stopped Progress.empty (inr e)
| stop_missing cs minimum before tf after e : has_candles cs minimum ->
    required = before ++ tf :: after -> Forall (warmed_up cs minimum) before ->
    (candles ← dict_index cs tf; n ← dict_index minimum tf; Ok (candles, n)) = Raise e ->
    stopped Progress.empty (inr e)
| stop_warmup cs minimum before tf after candles n : has_candles cs minimum ->
    required = before ++ tf :: after -> Forall (warmed_up cs minimum) before ->
    dict_get cs tf = Some candles -> dict_get minimum tf = Some n -> Z.of_nat (length candles) < n ->
    stopped Progress.empty (inl "REQUIRED_TIMEFRAME_WARMUP_INCOMPLETE")
| stop_structure cs minimum before target after structures e : has_candles cs minimum ->
    Forall (warmed_up cs minimum) required -> cs = before ++ target :: after ->
    structures_of config before [] = Ok structures -> structure_of target = Raise e ->
    stopped (Progress.mkProgress None structures None None None None SignalDecision.NO_TRADE) (inr e)
| stop_no_signal cs minimum structures e : has_structures cs minimum structures ->
    dict_index cs signal_timeframe = Raise e ->
    stopped (Progress.mkProgress None structures None None None None SignalDecision.NO_TRADE) (inr e)
| stop_signal_empty cs minimum structures : has_structures cs minimum structures ->
    dict_get cs signal_timeframe = Some [] ->
    stopped (Progress.mkProgress None structures None None None None SignalDecision.NO_TRADE) (inl "SIGNAL_TIMEFRAME_DATA_UNAVAILABLE")
| stop_indicator cs minimum structures signal e : has_structures cs minimum structures ->
    dict_get cs signal_timeframe = Some signal -> signal <> [] ->
    calculate_indicators signal signal_timeframe (DeterministicStrategyPipelineConfig.macd config)
      (DeterministicStrategyPipelineConfig.atr config) = Raise e ->
    stopped (Progress.mkProgress None structures None None None None SignalDecision.NO_TRADE) (inr e)
| stop_smc_ict cs minimum structures signal indicator e : has_indicator cs minimum structures signal indicator ->
    (own ← dict_index structures (timeframe_value signal_timeframe);
     analyze_signal_timeframe config signal own (IndicatorAnalysis.atr indicator)) = Raise e ->
    stopped (Progress.mkProgress (Some indicator) structures None None None None SignalDecision.NO_TRADE) (inr e)
| stop_not_ready cs minimum structures indicator smc_ict : has_smc_ict cs minimum structures indicator smc_ict ->
    ready_setups smc_ict = [] ->
    stopped (Progress.mkProgress (Some indicator) structures (Some smc_ict) None None None SignalDecision.NO_TRADE)
      (inl "READY_SETUP_UNAVAILABLE")
| stop_ambiguous cs minimum structures indicator smc_ict : has_smc_ict cs minimum structures indicator smc_ict ->
    (2 <= length (ready_setups smc_ict))%nat ->
    stopped (Progress.mkProgress (Some indicator) structures (Some smc_ict) None None None SignalDecision.NO_TRADE)
      (inl "AMBIGUOUS_READY_SETUPS")
| stop_mtf cs minimum structures indicator smc_ict setup e : has_smc_ict cs minimum structures indicator smc_ict ->
    ready_setups smc_ict = [setup] ->
    check_multi_timeframe context config source_candles cs minimum setup structures = Raise e ->
    stopped (Progress.mkProgress (Some indicator) structures (Some smc_ict) None None None (side setup)) (inr e)
| stop_not_allowed cs minimum structures indicator smc_ict setup mtf : has_mtf cs minimum structures indicator smc_ict setup mtf ->
    MTFAnalysisResult.trade_allowed mtf = false ->
    stopped (Progress.mkProgress (Some indicator) structures (Some smc_ict) (Some mtf) None None (side setup))
      (inl "MULTI_TIMEFRAME_SAFETY_REJECTED")
| stop_score cs minimum structures indicator smc_ict setup mtf e : has_mtf cs minimum structures indicator smc_ict setup mtf ->
    MTFAnalysisResult.trade_allowed mtf = true -> score_of setup indicator mtf = Raise e ->
    stopped (Progress.mkProgress (Some indicator) structures (Some smc_ict) (Some mtf) None None (side setup)) (inr e)
| stop_score_decision cs minimum structures indicator smc_ict setup mtf score :
    has_score cs minimum structures indicator smc_ict setup mtf score ->
    SignalScoreResult.decision score <> expected_score_decision (side setup) ->
    stopped (Progress.mkProgress (Some indicator) structures (Some smc_ict) (Some mtf) None (Some score) (side setup))
      (inl "SIGNAL_SCORE_SAFETY_REJECTED")
| stop_risk cs minimum structures indicator smc_ict setup mtf score e :
    has_score cs minimum structures indicator smc_ict setup mtf score ->
    SignalScoreResult.decision score = expected_score_decision (side setup) -> plan_of setup indicator smc_ict = Raise e ->
    stopped (Progress.mkProgress (Some indicator) structures (Some smc_ict) (Some mtf) None (Some score) (side setup)) (inr e)
| stop_risk_decision cs minimum structures indicator smc_ict setup mtf score plan :
    has_score cs minimum structures indicator smc_ict setup mtf score ->
    SignalScoreResult.decision score = expected_score_decision (side setup) -> plan_of setup indicator smc_ict = Ok plan ->
    RiskPlan.decision plan <> expected_risk_decision (side setup) ->
    stopped (Progress.mkProgress (Some indicator) structures (Some smc_ict) (Some mtf) (Some plan) (Some score) (side setup))
      (inl "RISK_SAFETY_REJECTED")
| stop_accept t e : passes_gates strategy_identity context config source_candles state state' t ->
    accept build_analysis_snapshot strategy_identity context config (setup t) (evidence t) (score_result t) (trade_progress t) = Raise e ->
    stopped (trade_progress t) (inr e).
End stages.

(** ** Every run of the stages is accounted for *)

Section account.
Context (context : StrategyEvaluationContext) (config : DeterministicStrategyPipelineConfig) (source_candles : list Candle) (state : State).
#[local] Abbreviation stops := (stopped context config source_candles state).
#[local] Abbreviation signal_timeframe := (DeterministicStrategyPipelineConfig.signal_timeframe config).

Definition accounted (result : (State * Progress) * Flow (Snapshot := Snapshot) (Output (Snapshot := Snapshot))) : Prop :=
  match result with
  | (_, Next _) => True
  | ((state', p), Return output) => exists reason, stops state' p (inl reason)
      /\ output = refusal strategy_identity context signal_timeframe reason p
  | ((state', p), Throw e) => stops state' p (inr e)
  end.

Lemma accounted_lift {A} (m : pyres A) (f : A -> Step _) state' p :
  (forall a, m = Ok a -> accounted (f a (state', p))) -> (forall e, m = Raise e -> stops state' p (inr e)) ->
  accounted (((lift m : Step A) ≫= f) (state', p)).
Proof. intros Hf He. unfold mbind, Step_bind, lift. destruct m; [by apply Hf|by apply He]. Qed.

Lemma accounted_leave reason state' p : stops state' p (inl reason) ->
  accounted (leave strategy_identity context config reason (state', p)).
Proof. intros Hs. unfold leave. rewrite no_trade_ok. cbn. eauto. Qed.

(** The structures of the targets, as far as they get. *)
Lemma structures_cases targets state' p :
  (exists acc, structures_of config targets (Progress.structures p) = Ok acc
     /\ (analyze_structures config targets : Step unit) (state', p)
        = ((state', Progress.mkProgress (Progress.indicator p) acc (Progress.smc_ict p) (Progress.mtf_result p) (Progress.risk_result p)
              (Progress.score_result p) (Progress.candidate_direction p)), Next tt))
  \/ (exists before target after acc e, targets = before ++ target :: after
     /\ structures_of config before (Progress.structures p) = Ok acc /\ structure_of config target = Raise e
     /\ (analyze_structures config targets : Step unit) (state', p)
        = ((state', Progress.mkProgress (Progress.indicator p) acc (Progress.smc_ict p) (Progress.mtf_result p) (Progress.risk_result p)
              (Progress.score_result p) (Progress.candidate_direction p)), Throw e)).
Proof.
  revert p. induction targets as [|[tf cs] rest IH]; intros p.
  { left. exists (Progress.structures p). split; [done|]. by destruct p. }
  cbn [analyze_structures]. unfold structure_of.
  destruct (dict_index (DeterministicStrategyPipelineConfig.market_structure config) tf) as [c|e] eqn:Ec.
  2: { right. exists [], (tf, cs), rest, (Progress.structures p), e. cbn [fst]. rewrite Ec. by destruct p. }
  rewrite (bind_lift (Ok c) _ c) by done.
  destruct (analyze_market_structure cs tf c) as [s|e] eqn:Es.
  2: { right. exists [], (tf, cs), rest, (Progress.structures p), e. cbn [fst snd]. rewrite Ec. cbn [mbind pyres_bind]. rewrite Es. by destruct p. }
  rewrite (bind_lift (Ok s) _ s), bind_report by done. cbn [fst snd].
  destruct (IH (Progress.add_structure (timeframe_value tf) s p)) as [(acc & Ha & ->)|(before & target & after & acc & e & -> & Ha & He & ->)].
  - left. exists acc. split; [|by destruct p]. cbn [structures_of]. rewrite Ec. cbn [mbind pyres_bind]. rewrite Es. cbn [mbind pyres_bind].
    destruct p. exact Ha.
  - right. exists ((tf, cs) :: before), target, after, acc, e. split; [done|]. split; [|split; [exact He|by destruct p]].
    cbn [structures_of]. rewrite Ec. cbn [mbind pyres_bind]. rewrite Es. cbn [mbind pyres_bind]. destruct p. exact Ha.
Qed.

(** The loop over the required timeframes. *)
Lemma warmup_cases cs minimum timeframes :
  match warmup_incomplete cs minimum timeframes with
  | Ok false => Forall (warmed_up cs minimum) timeframes
  | Ok true => exists before tf after candles n, timeframes = before ++ tf :: after /\ Forall (warmed_up cs minimum) before
      /\ dict_get cs tf = Some candles /\ dict_get minimum tf = Some n /\ Z.of_nat (length candles) < n
  | Raise e => exists before tf after, timeframes = before ++ tf :: after /\ Forall (warmed_up cs minimum) before
      /\ (candles ← dict_index cs tf; n ← dict_index minimum tf; Ok (candles, n)) = Raise e
  end.
Proof.
  induction timeframes as [|tf rest IH]; cbn [warmup_incomplete]; [constructor|].
  unfold dict_index. destruct (dict_get cs tf) as [candles|] eqn:Ec; cbn [mbind pyres_bind].
  2: { exists [], tf, rest. unfold dict_index. rewrite Ec. split_and!; [done|constructor|done]. }
  destruct (dict_get minimum tf) as [n|] eqn:En; cbn [mbind pyres_bind].
  2: { exists [], tf, rest. unfold dict_index. rewrite Ec, En. split_and!; [done|constructor|done]. }
  destruct (Z.ltb_spec (Z.of_nat (length candles)) n) as [Hlt|Hle].
  { exists [], tf, rest, candles, n. split_and!; [done|constructor|done..]. }
  assert (warmed_up cs minimum tf) as Hw by (exists candles, n; done).
  destruct (warmup_incomplete cs minimum rest) as [[]|e].
  - destruct IH as (before & tf' & after & candles' & n' & -> & Hb & H'). exists (tf :: before), tf', after, candles', n'.
    split; [done|]. split; [by constructor|done].
  - by constructor.
  - destruct IH as (before & tf' & after & -> & Hb & H'). exists (tf :: before), tf', after. split; [done|]. split; [by constructor|done].
Qed.

Lemma decide_accounted state' cs minimum structures signal indicator own smc_ict setup :
  has_indicator context config source_candles state state' cs minimum structures signal indicator ->
  dict_get structures (timeframe_value signal_timeframe) = Some own ->
  analyze_signal_timeframe config signal own (IndicatorAnalysis.atr indicator) = Ok smc_ict ->
  ready_setups context smc_ict = [setup] ->
  accounted (decide_setup build_analysis_snapshot strategy_identity context config source_candles cs minimum indicator structures smc_ict setup
    (state', Progress.mkProgress (Some indicator) structures (Some smc_ict) None None None SignalDecision.NO_TRADE)).
Proof.
  intros Hi Ho Hs Hr. assert (has_smc_ict context config source_candles state state' cs minimum structures indicator smc_ict) as Hsmc
    by (exists signal, own; done).
  unfold decide_setup. rewrite bind_report. apply accounted_lift; [intros mtf Hm|intros e He; by eapply stop_mtf].
  assert (has_mtf context config source_candles state state' cs minimum structures indicator smc_ict setup mtf) as Hmtf by done.
  rewrite bind_report. destruct (MTFAnalysisResult.trade_allowed mtf) eqn:Ha; cbn [negb]; [|by eapply accounted_leave, stop_not_allowed].
  apply accounted_lift; [intros evidence Hev|intros e He; eapply stop_score; [done..|by unfold score_of; rewrite He]].
  apply accounted_lift; [intros score Hsc|intros e He; eapply stop_score; [done..|by unfold score_of; rewrite Hev]].
  assert (has_score context config source_candles state state' cs minimum structures indicator smc_ict setup mtf score) as Hscore
    by (split_and!; [done..|unfold score_of; by rewrite Hev]).
  rewrite bind_report. case_bool_decide as Hd; cbn [negb]; [|by eapply accounted_leave, stop_score_decision].
  apply accounted_lift; [intros plan Hp|intros e He; by eapply stop_risk].
  rewrite bind_report. case_bool_decide as Hrd; cbn [negb]; [|by eapply accounted_leave, stop_risk_decision].
  set (t := mkTrade cs minimum structures signal indicator own smc_ict setup mtf evidence score plan).
  assert (passes_gates strategy_identity context config source_candles state state' t) as Hg.
  { destruct Hi as ((Hc & Hw & Hst) & Hsg & Hne & Hin). destruct Hc. by constructor. }
  unfold lift. cbn [snd fst]. destruct (accept _ _ _ _ _ _ _ _) as [output|e] eqn:Eacc; [done|].
  exact (stop_accept context config source_candles state state' t e Hg Eacc).
Qed.

Lemma analyze_accounted :
  accounted (analyze build_analysis_snapshot strategy_identity context config source_candles (state, Progress.empty)).
Proof.
  unfold analyze, analyze_candles. unfold mbind at 1, Step_bind at 1, build_candles. cbn [fst snd].
  destruct (_build_candles_by_target _ _ _ _ _) as [state' [cs|e]] eqn:Eb; [|by apply stop_candles].
  apply accounted_lift; [intros minimum Hmin|intros e He; by eapply stop_minimum].
  assert (has_candles context config source_candles state state' cs minimum) as Hc by done.
  pose proof (warmup_cases cs minimum (MTFConfig.mtf_availability_required (DeterministicStrategyPipelineConfig.multi_timeframe config))) as Hw.
  destruct (warmup_incomplete _ _ _) as [[]|e] eqn:Ew.
  { rewrite (bind_lift (Ok true) _ true) by done. destruct Hw as (before & tf & after & candles & n & H1 & H2 & H3 & H4 & H5).
    by eapply accounted_leave, stop_warmup. }
  2: { destruct Hw as (before & tf & after & H1 & H2 & H3). by eapply stop_missing. }
  rewrite (bind_lift (Ok false) _ false) by done. unfold mbind at 1, Step_bind at 1.
  destruct (structures_cases cs state' Progress.empty) as [(structures & Hst & ->)|(before & target & after & structures & e & H1 & H2 & H3 & ->)].
  2: { by eapply stop_structure. }
  cbn [Progress.empty Progress.indicator Progress.smc_ict Progress.mtf_result Progress.risk_result Progress.score_result
    Progress.candidate_direction Progress.structures] in *.
  assert (has_structures context config source_candles state state' cs minimum structures) as Hs by done.
  apply accounted_lift; [intros signal Hsig|intros e He; by eapply stop_no_signal].
  unfold dict_index in Hsig. destruct (dict_get cs _) as [signal'|] eqn:Esig; [|done]. injection Hsig as ->.
  case_bool_decide as Hne; [subst; by eapply accounted_leave, stop_signal_empty|].
  apply accounted_lift; [intros indicator Hin|intros e He; by eapply stop_indicator].
  assert (has_indicator context config source_candles state state' cs minimum structures signal indicator) as Hi by done.
  rewrite bind_report. unfold mbind at 1, Step_bind at 1. cbn [fst snd Progress.set_indicator Progress.structures].
  apply accounted_lift; [intros own Hown|intros e He; eapply stop_smc_ict; [done|cbn [Progress.structures]; by rewrite He]].
  apply accounted_lift; [intros smc_ict Hsmc|intros e He; eapply stop_smc_ict; [done|cbn [Progress.structures]; by rewrite Hown]].
  unfold dict_index in Hown. destruct (dict_get structures _) as [own'|] eqn:Eown; [|done]. injection Hown as ->.
  assert (has_smc_ict context config source_candles state state' cs minimum structures indicator smc_ict) as Hd by (exists signal, own; done).
  rewrite bind_report. cbn [fst snd Progress.set_smc_ict Progress.indicator Progress.structures Progress.mtf_result Progress.risk_result
    Progress.score_result Progress.candidate_direction]. fold (ready_setups context smc_ict).
  destruct (ready_setups context smc_ict) as [|setup [|setup' setups]] eqn:Er.
  - by eapply accounted_leave, stop_not_ready.
  - by eapply decide_accounted.
  - eapply accounted_leave, stop_ambiguous; [done|]. rewrite Er. cbn. lia.
Qed.

(** ** Every stop is where the stages stop *)

Lemma warmup_prefix cs minimum before rest : Forall (warmed_up cs minimum) before ->
  warmup_incomplete cs minimum (before ++ rest) = warmup_incomplete cs minimum rest.
Proof.
  induction 1 as [|tf before (candles & n & Hc & Hn & Hle) _ IH]; [done|]. cbn [app warmup_incomplete]. unfold dict_index.
  rewrite Hc, Hn. cbn [mbind pyres_bind]. by rewrite (proj2 (Z.ltb_ge _ _)).
Qed.

Lemma structures_raise before target after acc e state' p :
  structures_of config before (Progress.structures p) = Ok acc -> structure_of config target = Raise e ->
  (analyze_structures config (before ++ target :: after) : Step unit) (state', p)
  = ((state', Progress.mkProgress (Progress.indicator p) acc (Progress.smc_ict p) (Progress.mtf_result p) (Progress.risk_result p)
        (Progress.score_result p) (Progress.candidate_direction p)), Throw e).
Proof.
  intros Ha He. revert p Ha. induction before as [|[tf cs] before IH]; intros p Ha.
  - injection Ha as <-. destruct target as [tf cs]. unfold structure_of in He. cbn [fst snd app analyze_structures] in *.
    destruct (dict_index _ tf) as [c|e']; cbn [mbind pyres_bind] in He; [|injection He as ->; by destruct p].
    rewrite (bind_lift (Ok c) _ c) by done. rewrite He. by destruct p.
  - cbn [app analyze_structures structures_of] in *. apply bind_ok in Ha as (c & Hc & Ha). apply bind_ok in Ha as (s & Hs & Ha).
    erewrite bind_lift by eassumption. erewrite bind_lift by eassumption. rewrite bind_report. cbn [fst snd].
    rewrite (IH (Progress.add_structure (timeframe_value tf) s p)) by (by destruct p). by destruct p.
Qed.

(** Where [analyze] stops. *)
Definition ending (p : Progress) (r : string + pyexc) : Flow (Snapshot := Snapshot) (Output (Snapshot := Snapshot)) :=
  match r with
  | inl reason => Return (refusal strategy_identity context signal_timeframe reason p)
  | inr e => Throw e
  end.

Lemma leave_ending reason state' p : (leave strategy_identity context config reason : Step (Output (Snapshot := Snapshot))) (state', p) = ((state', p), ending p (inl reason)).
Proof. unfold leave. by rewrite no_trade_ok. Qed.

Lemma bind_raise {A B} (f : A -> Step B) m e st : m = Raise e -> ((lift m : Step A) ≫= f) st = (st, Throw e).
Proof. by intros ->. Qed.

#[local] Abbreviation run := (analyze build_analysis_snapshot strategy_identity context config source_candles (state, Progress.empty)).

(** The run, stage by stage, on what has been computed. *)
Ltac run_candles :=
  match goal with
  | Hb : _build_candles_by_target _ _ _ _ _ = (_, Ok _) |- _ =>
      unfold analyze, analyze_candles; unfold mbind at 1, Step_bind at 1, build_candles; cbn [fst snd]; rewrite Hb
  end;
  try erewrite bind_lift by eassumption.
Ltac run_structures :=
  run_candles; erewrite bind_lift by (apply warmup_spec; eassumption);
  unfold mbind at 1, Step_bind at 1;
  rewrite (proj2 (structures_next _ _ _ _ _)) by (eexists; split; [eassumption|reflexivity]).
Ltac run_signal :=
  run_structures; erewrite bind_lift by (unfold dict_index; match goal with H : dict_get _ signal_timeframe = Some _ |- _ => by rewrite H end).
Ltac run_indicator :=
  run_signal; rewrite bool_decide_false by done; erewrite bind_lift by eassumption; rewrite bind_report; cbn [fst snd];
  unfold mbind at 1, Step_bind at 1; unfold Progress.empty, Progress.set_indicator; cbn [Progress.structures snd fst].
Ltac run_smc_ict :=
  run_indicator;
  erewrite bind_lift by (unfold dict_index; match goal with H : dict_get _ (timeframe_value _) = Some _ |- _ => by rewrite H end);
  erewrite bind_lift by eassumption; rewrite bind_report; cbn [fst snd]; unfold Progress.set_smc_ict;
  cbn [Progress.indicator Progress.structures Progress.mtf_result Progress.risk_result Progress.score_result Progress.candidate_direction].
Ltac run_ready :=
  run_smc_ict; match goal with H : ready_setups _ _ = _ |- _ => unfold ready_setups in H; rewrite H end; unfold decide_setup; rewrite bind_report.
Ltac run_mtf := run_ready; erewrite bind_lift by eassumption; rewrite bind_report.
Ltac run_score :=
  run_mtf; match goal with H : MTFAnalysisResult.trade_allowed _ = true |- _ => rewrite H; cbn [negb] end;
  do 2 erewrite bind_lift by eassumption; rewrite bind_report.

(** The facts of the stages passed. *)
Ltac unpack :=
  repeat match goal with
  | H : has_candles _ _ _ _ _ _ _ |- _ => destruct H
  | H : has_structures _ _ _ _ _ _ _ _ |- _ => destruct H as (? & ? & ?)
  | H : has_indicator _ _ _ _ _ _ _ _ _ _ |- _ => destruct H as (? & ? & ? & ?)
  | H : has_smc_ict _ _ _ _ _ _ _ _ _ _ |- _ => destruct H as (? & ? & ? & ? & ?)
  | H : has_mtf _ _ _ _ _ _ _ _ _ _ _ _ |- _ => destruct H as (? & ? & ?)
  | H : has_score _ _ _ _ _ _ _ _ _ _ _ _ _ |- _ => destruct H as (? & ? & ?)
  | H : score_of _ _ _ _ _ = Ok _ |- _ => apply bind_ok in H as (? & ? & ?)
  end.

Lemma accept_raises state' t e : passes_gates strategy_identity context config source_candles state state' t ->
  accept build_analysis_snapshot strategy_identity context config (setup t) (evidence t) (score_result t) (trade_progress t) = Raise e ->
  analyze build_analysis_snapshot strategy_identity context config source_candles (state, Progress.empty) = ((state', trade_progress t), Throw e).
Proof.
  intros [] He. fold (ready_setups context (smc_ict t)) in pg_ready. run_score.
  rewrite bool_decide_true by done. cbn [negb]. erewrite bind_lift by eassumption. rewrite bind_report.
  rewrite bool_decide_true by done. cbn [negb]. unfold lift. cbn [fst snd].
  match goal with |- context [accept ?x1 ?x2 ?x3 ?x4 ?x5 ?x6 ?x7 ?x8] =>
    replace (accept x1 x2 x3 x4 x5 x6 x7 x8) with (Raise (A := Output (Snapshot := Snapshot)) e) by (symmetry; exact He) end. done.
Qed.

Lemma stopped_runs state' p r : stops state' p r ->
  analyze build_analysis_snapshot strategy_identity context config source_candles (state, Progress.empty) = ((state', p), ending p r).
Proof.
  intros [e Hb|cs e Hb Hm|cs minimum before tf after e [Hb Hm] Hr Hw He|cs minimum before tf after candles n [Hb Hm] Hr Hw Hc Hn Hlt
    |cs minimum before target after structures e [Hb Hm] Hw -> Hs He|cs minimum structures e ([Hb Hm] & Hw & Hs) He
    |cs minimum structures ([Hb Hm] & Hw & Hs) He| | | | | | | | | | |].
  - unfold analyze. unfold mbind at 1, Step_bind at 1, build_candles. cbn [fst snd]. by rewrite Hb.
  - run_candles. by rewrite (bind_raise _ _ e).
  - run_candles. rewrite Hr, warmup_prefix by done. rewrite (bind_raise _ _ e); [done|]. cbn [warmup_incomplete].
    destruct (dict_index cs tf); cbn [mbind pyres_bind] in *; [|by injection He as ->].
    destruct (dict_index minimum tf); [done|]. by injection He as ->.
  - run_candles. rewrite Hr, warmup_prefix by done. rewrite (bind_lift _ _ true); [apply leave_ending|]. cbn [warmup_incomplete].
    unfold dict_index. rewrite Hc, Hn. cbn [mbind pyres_bind]. by rewrite (proj2 (Z.ltb_lt _ _)).
  - run_candles. erewrite bind_lift by (apply warmup_spec; eassumption). unfold mbind at 1, Step_bind at 1.
    by rewrite (structures_raise before target after structures e).
  - run_structures. by rewrite (bind_raise _ _ e).
  - run_signal. rewrite bool_decide_true by done. apply leave_ending.
  - unpack. run_signal. rewrite bool_decide_false by done. by erewrite bind_raise by eassumption.
  - unpack. run_indicator. rename select (_ = Raise _) into He. unfold dict_index in *.
    destruct (dict_get structures _) as [own|]; cbn [mbind pyres_bind] in He.
    + erewrite bind_lift by done. by erewrite bind_raise by eassumption.
    + injection He as <-. by erewrite bind_raise by done.
  - unpack. run_smc_ict. rename select (ready_setups _ _ = []) into Hr. unfold ready_setups in Hr. rewrite Hr. apply leave_ending.
  - unpack. run_smc_ict. rename select (2 <= _)%nat into Hr. unfold ready_setups in Hr.
    destruct (ready_now _ _) as [|? [|]]; cbn in Hr; [lia|lia|apply leave_ending].
  - unpack. run_ready. by erewrite bind_raise by eassumption.
  - unpack. run_mtf. rename select (MTFAnalysisResult.trade_allowed _ = false) into Ha. rewrite Ha. apply leave_ending.
  - unpack. run_mtf. rename select (MTFAnalysisResult.trade_allowed _ = true) into Ha. rewrite Ha. cbn [negb].
    rename select (score_of _ _ _ _ _ = Raise _) into He. unfold score_of in He.
    destruct (_score_evidence _ _ _ _ _) as [evidence|e'] eqn:Eev; cbn [mbind pyres_bind] in He.
    + erewrite bind_lift by reflexivity. by erewrite bind_raise by eassumption.
    + injection He as <-. by erewrite bind_raise by reflexivity.
  - unpack. run_score. rewrite bool_decide_false by done. apply leave_ending.
  - unpack. run_score. rewrite bool_decide_true by done. cbn [negb]. by erewrite bind_raise by eassumption.
  - unpack. run_score. rewrite bool_decide_true by done. cbn [negb]. erewrite bind_lift by eassumption. rewrite bind_report.
    rewrite bool_decide_false by done. apply leave_ending.
  - rename select (passes_gates _ _ _ _ _ _ _) into Hg. by apply accept_raises.
Qed.


End account.

(** ** Whole evaluations *)

(** Why an evaluation is refused, with the timeframe and the progress it
    reports. *)
Inductive refused (state : State) (context : StrategyEvaluationContext) : State -> Timeframe -> string -> Progress -> Prop :=
| refused_pipeline :
    dict_get (StrategyConfig.pipelines strategy_config) (StrategyEvaluationContext.symbol context) = None ->
    refused state context state Timeframe.ONE_MINUTE "PIPELINE_CONFIG_UNAVAILABLE" Progress.empty
| refused_input config reason :
    dict_get (StrategyConfig.pipelines strategy_config) (StrategyEvaluationContext.symbol context) = Some config ->
    input_refused context config reason ->
    refused state context state (DeterministicStrategyPipelineConfig.signal_timeframe config) reason Progress.empty
| refused_stage config source_candles state' reason p : input_ready strategy_config context config source_candles ->
    stopped context config source_candles state state' p (inl reason) ->
    refused state context state' (DeterministicStrategyPipelineConfig.signal_timeframe config) reason p
| refused_error config source_candles state' e p : input_ready strategy_config context config source_candles ->
    stopped context config source_candles state state' p (inr e) -> value_error e = true ->
    refused state context state' (DeterministicStrategyPipelineConfig.signal_timeframe config) "INVALID_POINT_IN_TIME_INPUT" p.

Lemma input_cases state context :
  (exists timeframe reason, refused state context state timeframe reason Progress.empty
     /\ evaluate state context = (state, Ok (refusal strategy_identity context timeframe reason Progress.empty)))
  \/ exists config source_candles, input_ready strategy_config context config source_candles.
Proof.
  unfold Strategy.evaluate. destruct (dict_get _ _) as [config|] eqn:Ec.
  2: { left. exists Timeframe.ONE_MINUTE, "PIPELINE_CONFIG_UNAVAILABLE". rewrite no_trade_ok. split; [by constructor|done]. }
  pose proof (fun reason => refused_input state context config reason Ec) as Hrefused.
  pose proof (source_cases context config) as Hlast. unfold source_timeframe in Hlast.
  destruct (list.last (default [] _)) as [last|] eqn:El.
  2: { left. rewrite no_trade_ok. eexists _, _. split; [by apply Hrefused, no_source|done]. }
  destruct Hlast as [source He]. pose proof He as [Es _]. unfold source_timeframe in Es.
  destruct (Z.eqb_spec (Candle.timestamp last + timeframe_duration
    (MTFConfig.mtf_source_timeframe (DeterministicStrategyPipelineConfig.multi_timeframe config))) (StrategyEvaluationContext.as_of context)) as [Et|Et];
    cbn [negb].
  2: { left. rewrite no_trade_ok. eexists _, _. split; [by eapply Hrefused, stale_source|done]. }
  case_bool_decide as Ep.
  { left. rewrite no_trade_ok. eexists _, _. split; [by eapply Hrefused, no_calendar|done]. }
  rewrite Es in *. cbn [default from_option id] in *. destruct (_has_source_gap source _) eqn:Eg.
  { left. rewrite no_trade_ok. eexists _, _. split; [by eapply Hrefused, gap_in_source|done]. }
  right. exists config, source. split_and!; eauto.
Qed.

Lemma refused_evaluates state context state' timeframe reason p : refused state context state' timeframe reason p ->
  evaluate state context = (state', Ok (refusal strategy_identity context timeframe reason p)).
Proof.
  intros [Hc|config reason' Hc Hi|config source state1 reason' p' Hr Hs|config source state1 e p' Hr Hs He].
  - unfold Strategy.evaluate. by rewrite Hc, no_trade_ok.
  - unfold Strategy.evaluate. rewrite Hc.
    destruct Hi as [[H'|H']|source last [Hs Hl] Ht|source last [Hs Hl] Ht Hp|source last [Hs Hl] Ht Hp Hg];
      unfold closes_now in *; unfold source_timeframe in *.
    + rewrite H'. cbn [default from_option list.last]. by rewrite no_trade_ok.
    + rewrite H'. cbn [default from_option id list.last]. by rewrite no_trade_ok.
    + rewrite Hs. cbn [default from_option id]. rewrite Hl, (proj2 (Z.eqb_neq _ _) Ht). cbn [negb]. by rewrite no_trade_ok.
    + rewrite Hs. cbn [default from_option id]. rewrite Hl, (proj2 (Z.eqb_eq _ _) Ht), bool_decide_true by done. cbn [negb]. by rewrite no_trade_ok.
    + rewrite Hs. cbn [default from_option id]. rewrite Hl, (proj2 (Z.eqb_eq _ _) Ht), bool_decide_false, Hg by done. cbn [negb]. by rewrite no_trade_ok.
  - rewrite (input_ready_evaluate _ _ _ _ _ _ _ Hr). by rewrite (stopped_runs _ _ _ _ _ _ _ Hs).
  - rewrite (input_ready_evaluate _ _ _ _ _ _ _ Hr). rewrite (stopped_runs _ _ _ _ _ _ _ Hs). cbn [ending handle_errors].
    by rewrite He, no_trade_ok.
Qed.

Lemma evaluation_accounted state context :
  match evaluate state context with
  | (state', Ok output) =>
      (exists config source_candles t candidate, input_ready strategy_config context config source_candles
         /\ passes_gates strategy_identity context config source_candles state state' t
         /\ candidate_of_trade build_analysis_snapshot strategy_identity context config t candidate
         /\ output = trade_output strategy_identity context config t candidate)
      \/ (exists timeframe reason p, refused state context state' timeframe reason p
         /\ output = refusal strategy_identity context timeframe reason p)
  | (state', Raise e) =>
      exists config source_candles p, input_ready strategy_config context config source_candles
        /\ stopped context config source_candles state state' p (inr e) /\ value_error e = false
  end.
Proof.
  destruct (input_cases state context) as [(tf & reason & Hr & ->)|(config & source & Hr)]; [right; eauto|].
  rewrite (input_ready_evaluate build_analysis_snapshot strategy_config strategy_identity state context config source Hr).
  pose proof (analyze_accounted context config source state) as Ha. unfold handle_errors.
  destruct (analyze _ _ _ _ _ _) as [[state' p] [output|output|e]] eqn:E.
  - left. apply analyze_next in E as (s & t & Hp & (candidate & Hc & Ho)%accepts_spec & [= -> ->]). eauto 10.
  - right. destruct Ha as (reason & Hs & ->). eexists _, _, _. split; [by eapply refused_stage|done].
  - cbn in Ha. destruct (value_error e) eqn:Ev; [rewrite no_trade_ok; right|eauto 10].
    eexists _, _, _. split; [by eapply refused_error|done].
Qed.
(** C7. What an evaluation answers, on every input: a trade with its only
    candidate, and then every gate was passed; or a refusal without candidates
    whose one reason is that of the first check that failed, in the order of the
    code, and which reports exactly what had been computed before that check
    ([refused], [stopped]); or an exception, raised by the stage [stopped]
    names, that is not a [ValueError] - every [ValueError] of a stage becomes
    the refusal [INVALID_POINT_IN_TIME_INPUT] with the same progress. And the
    account is exact: whenever the condition of a refusal holds, the evaluation
    is that refusal. *)
Theorem evaluation_reported state context :
  (match evaluate state context with
     | (state', Ok output) =>
         (exists config source_candles t candidate, input_ready strategy_config context config source_candles
            /\ passes_gates strategy_identity context config source_candles state state' t
            /\ candidate_of_trade build_analysis_snapshot strategy_identity context config t candidate
            /\ output = trade_output strategy_identity context config t candidate)
         \/ (exists timeframe reason p, refused state context state' timeframe reason p
            /\ output = refusal strategy_identity context timeframe reason p)
     | (state', Raise e) =>
         exists config source_candles p, input_ready strategy_config context config source_candles
           /\ stopped context config source_candles state state' p (inr e) /\ value_error e = false
     end)
  /\ (forall state' timeframe reason p, refused state context state' timeframe reason p ->
        evaluate state context = (state', Ok (refusal strategy_identity context timeframe reason p))).
Proof. split; [apply evaluation_accounted|intros; by apply refused_evaluates]. Qed.
End engine.
