(* ===== verification/OptimizedStrategy.v ===== *)
(** The optimized strategy engine: [engines/optimized_strategy_engine.py].

    It replaces one step of the strategy engine: the candles of the targets are
    kept between evaluations, per symbol and configuration, and extended with
    the new candles of the source instead of being resampled from all of them. *)
From Stdlib Require Import ZArith Lia.
From stdpp Require Import base list strings numbers.
From S2P Require Import Prelude Dict Decimal Time Candle Signal Metrics Resampling MtfTypes MultiTimeframe Strategy.
Local Open Scope Z_scope.

Module _TargetState.
Record _TargetState := mk_TargetState {
  buckets : Buckets;
  emitted : list datetime;
  bars : list Candle
}.
Definition empty : _TargetState := mk_TargetState [] [] [].
End _TargetState.
Abbreviation _TargetState := _TargetState._TargetState.

Module IncrementalResamplingState.
Record IncrementalResamplingState := mkIncrementalResamplingState {
  source_timeframe : Timeframe;
  target_timeframes : list Timeframe;
  source_candles : list Candle;
  targets : list (Timeframe * _TargetState)
}.

(** [IncrementalResamplingState(source_timeframe, targets)] with its
    [__post_init__]. *)
Definition create (source_timeframe : Timeframe) (target_timeframes : list Timeframe) : IncrementalResamplingState :=
  mkIncrementalResamplingState source_timeframe target_timeframes []
    (foldl (fun targets timeframe => dict_set targets timeframe _TargetState.empty) [] target_timeframes).

Definition reset (s : IncrementalResamplingState) : IncrementalResamplingState := create (source_timeframe s) (target_timeframes s).

(** One candle for one target. The bucket keeps the candle when the
    construction of the bar raises. *)
Definition append_target (source_timeframe timeframe : Timeframe) (candle : Candle) (target : _TargetState)
    : _TargetState * pyres unit :=
  let duration := timeframe_duration timeframe in
  let bucket := timeframe_bucket_start (Candle.timestamp candle) timeframe in
  let buckets := bucket_append bucket candle (_TargetState.buckets target) in
  let constituents := default [] (dict_get buckets bucket) in
  let source_duration := timeframe_duration source_timeframe in
  let expected_count := duration / source_duration in
  let kept := _TargetState.mk_TargetState buckets (_TargetState.emitted target) (_TargetState.bars target) in
  if negb (Z.of_nat (length constituents) =? expected_count) then (kept, Ok tt)
  else if negb (bool_decide (map Candle.timestamp constituents = expected_opens bucket source_duration (Z.to_nat expected_count)))
          || bool_decide (bucket ∈ _TargetState.emitted target) then (kept, Ok tt)
  else
    match derived_candle bucket constituents with
    | None => (kept, Raise (Exc "IndexError" "list index out of range"))
    | Some bar =>
        if valid_candle bar
        then (_TargetState.mk_TargetState buckets (_TargetState.emitted target ++ [bucket]) (_TargetState.bars target ++ [bar]), Ok tt)
        else (kept, Raise (Exc "ValidationError" ""))
    end.

(** [for timeframe in self.target_timeframes] *)
Fixpoint append_targets (source_timeframe : Timeframe) (candle : Candle) (timeframes : list Timeframe)
    (targets : list (Timeframe * _TargetState)) : list (Timeframe * _TargetState) * pyres unit :=
  match timeframes with
  | [] => (targets, Ok tt)
  | timeframe :: rest =>
      match dict_get targets timeframe with
      | None => (targets, Raise (Exc "KeyError" ""))
      | Some target =>
          match append_target source_timeframe timeframe candle target with
          | (target', Ok _) => append_targets source_timeframe candle rest (dict_set targets timeframe target')
          | (target', Raise e) => (dict_set targets timeframe target', Raise e)
          end
      end
  end.

(** [for candle in candles\[len(self.source_candles):\]] *)
Fixpoint append_candles (source_timeframe : Timeframe) (timeframes : list Timeframe) (candles : list Candle)
    (targets : list (Timeframe * _TargetState)) : list (Timeframe * _TargetState) * pyres unit :=
  match candles with
  | [] => (targets, Ok tt)
  | candle :: rest =>
      match append_targets source_timeframe candle timeframes targets with
      | (targets', Ok _) => append_candles source_timeframe timeframes rest targets'
      | (targets', Raise e) => (targets', Raise e)
      end
  end.

(** The known candles are a prefix of the new ones. *)
Definition extends (known candles : list Candle) : bool :=
  negb (length candles <? length known)%nat && list_eqb candle_eqb (take (length known) candles) known.

Definition append (s : IncrementalResamplingState) (candles : list Candle) : IncrementalResamplingState * pyres unit :=
  let s := if extends (source_candles s) candles then s else reset s in
  match append_candles (source_timeframe s) (target_timeframes s) (drop (length (source_candles s)) candles) (targets s) with
  | (targets', Ok _) => (mkIncrementalResamplingState (source_timeframe s) (target_timeframes s) candles targets', Ok tt)
  | (targets', Raise e) =>
      (mkIncrementalResamplingState (source_timeframe s) (target_timeframes s) (source_candles s) targets', Raise e)
  end.

Definition snapshot (s : IncrementalResamplingState) : pyres (list (Timeframe * list Candle)) :=
  py_map (fun timeframe =>
    target ← dict_index (targets s) timeframe;
    Ok (timeframe, _TargetState.bars target)) (target_timeframes s).
End IncrementalResamplingState.
Abbreviation IncrementalResamplingState := IncrementalResamplingState.IncrementalResamplingState.

(** ** The engine *)

Definition StateKey : Type := MarketSymbol * string * list string.

Definition _state_key (symbol : MarketSymbol) (source_timeframe : Timeframe) (target_timeframes : list Timeframe) : StateKey :=
  (symbol, timeframe_value source_timeframe, map timeframe_value target_timeframes).

(** [_incremental_states] *)
Definition IncrementalStates : Type := list (StateKey * IncrementalResamplingState).

(** The state object stays in the dictionary, also when [append] raises. *)
Definition incremental_candles (states : IncrementalStates) (symbol : MarketSymbol) (source_candles : list Candle)
    (config : DeterministicStrategyPipelineConfig) : IncrementalStates * pyres (list (Timeframe * list Candle)) :=
  let source_timeframe := MTFConfig.mtf_source_timeframe (DeterministicStrategyPipelineConfig.multi_timeframe config) in
  let targets := DeterministicStrategyPipelineConfig.targets config in
  let key := _state_key symbol source_timeframe targets in
  let state := default (IncrementalResamplingState.create source_timeframe targets) (dict_get states key) in
  let '(state, appended) := IncrementalResamplingState.append state source_candles in
  (dict_set states key state, _ ← appended; IncrementalResamplingState.snapshot state).

#[global] Instance incremental_target_candles : TargetCandles IncrementalStates := {
  initial_state := [];
  _build_candles_by_target := fun states symbol source_candles _ config => incremental_candles states symbol source_candles config
}.
