(* ===== verification/OptimizedStrategyTheory.v ===== *)
(** The optimized strategy engine evaluates like the reference engine: its
    incremental candles are those of a full resampling. *)
From Stdlib Require Import ZArith QArith Lia Sorting.Sorted.
From stdpp Require Import base strings numbers list sets sorting.
From S2P Require Import Prelude Dict Decimal Time Candle Signal Indicators Structure Liquidity SetupTypes Risk Score Resampling ResamplingTheory MtfTypes MultiTimeframe MultiTimeframeTheory Metrics Runner Strategy StrategyTheory OptimizedStrategy.
Local Open Scope Z_scope.

(** ** One target *)

Lemma omap_single {A B} (f : A -> option B) x : omap (M := list) f [x] = option_list (f x).
Proof. cbn. by destruct (f x). Qed.

Section target.
Context (src tgt : Timeframe).
#[local] Abbreviation d := (timeframe_duration src).
#[local] Abbreviation dur := (timeframe_duration tgt).
Hypothesis Hmultiple : d <= dur /\ dur mod d = 0.

Definition opens_of (b : datetime) : list datetime := expected_opens b d (Z.to_nat (dur / d)).

(** The bucket that starts at [b] has all its candles. *)
Definition full (cs : list Candle) (b : datetime) : bool := bool_decide (map Candle.timestamp (members tgt b cs) = opens_of b).

Definition full_bar (cs : list Candle) (b : datetime) : option Candle :=
  if full cs b then derived_candle b (members tgt b cs) else None.

(** The bars of the full buckets. *)
Definition full_bars (cs : list Candle) : list Candle := omap (full_bar cs) (starts tgt cs).

(** What the incremental state is after the candles [cs]. *)
Definition target_after (cs : list Candle) : _TargetState :=
  _TargetState.mk_TargetState (grouped_by tgt cs) (map Candle.timestamp (full_bars cs)) (full_bars cs).

Lemma duration_multiple : dur = dur / d * d /\ 1 <= dur / d.
Proof using Hmultiple.
  destruct Hmultiple as [Hle Hmod]. pose proof (timeframe_duration_pos src) as Hd.
  pose proof (Z.div_mod dur d ltac:(lia)). split; [lia|]. apply Z.div_le_lower_bound; lia.
Qed.

Lemma full_length cs b : full cs b = true -> Z.of_nat (length (members tgt b cs)) = dur / d.
Proof using Hmultiple.
  intros Hf%bool_decide_eq_true. apply (f_equal length) in Hf. rewrite length_map in Hf. unfold opens_of, expected_opens in Hf.
  rewrite length_map, length_seq in Hf. pose proof duration_multiple. lia.
Qed.

(** The last candle of a full bucket closes with it. *)
Lemma full_end cs b : full cs b = true -> exists x, x ∈ cs /\ Candle.timestamp x + d = b + dur.
Proof using Hmultiple.
  intros Hf%bool_decide_eq_true. destruct duration_multiple as [Hd Hn]. set (n := dur / d) in *.
  assert (b + (n - 1) * d ∈ map Candle.timestamp (members tgt b cs)) as Hin.
  { rewrite Hf. unfold opens_of, expected_opens. fold n. apply list_elem_of_fmap. exists (Z.to_nat (n - 1)).
    split; [rewrite Z2Nat.id by lia; lia|]. apply elem_of_seq. lia. }
  apply list_elem_of_fmap in Hin as (x & Hx & Hin). apply elem_members in Hin as [Hin _]. exists x. split; [done|lia].
Qed.

(** A candle after a full bucket belongs to a later one. *)
Lemma full_closed cs b c : full cs b = true -> (forall x, x ∈ cs -> Candle.timestamp x + d <= Candle.timestamp c) ->
  whole_or_recent (Candle.timestamp c) -> timeframe_bucket_start (Candle.timestamp c) tgt <> b.
Proof using Hmultiple.
  intros Hf Hafter Hw E. pose proof (bucket_start_bounds _ tgt Hw) as Hb. rewrite E in Hb.
  destruct (full_end cs b Hf) as (x & Hin & Hx). specialize (Hafter x Hin). lia.
Qed.

Lemma members_snoc cs c b : members tgt b (cs ++ [c])
  = members tgt b cs ++ (if timeframe_bucket_start (Candle.timestamp c) tgt =? b then [c] else []).
Proof using. unfold members. rewrite List.filter_app. cbn [List.filter]. by destruct (_ =? b). Qed.

(** The next candle, [c], after [cs]. *)
Section step.
Context (cs : list Candle) (c : Candle).
Hypothesis Hasc : ascending cs.
Hypothesis Hwhole : whole_times cs.
Hypothesis Hwc : whole_or_recent (Candle.timestamp c).
Hypothesis Hafter : forall x, x ∈ cs -> Candle.timestamp x + d <= Candle.timestamp c.
#[local] Abbreviation b := (timeframe_bucket_start (Candle.timestamp c) tgt).

Lemma open_bucket : full cs b = false.
Proof using Hmultiple Hwc Hafter. destruct (full cs b) eqn:E; [|done]. by destruct (full_closed cs b c E Hafter Hwc). Qed.

Lemma full_bar_other b' : b' <> b -> full_bar (cs ++ [c]) b' = full_bar cs b'.
Proof using.
  intros Hb. unfold full_bar, full. rewrite members_snoc, (proj2 (Z.eqb_neq _ _)) by done. by rewrite app_nil_r.
Qed.

(** A bucket that is open is the last one. *)
Lemma starts_last : b ∈ starts tgt cs -> exists earlier, starts tgt cs = earlier ++ [b] /\ b ∉ earlier.
Proof using Hasc Hwhole Hwc Hafter.
  intros Hb. pose proof (starts_sorted tgt cs Hasc Hwhole) as Hs. apply list_elem_of_split in Hb as (l & k & E). rewrite E in Hs |- *.
  apply StronglySorted_app in Hs as (Hlk & _ & Hk). apply StronglySorted_inv in Hk as [_ Hk].
  exists l. split.
  - destruct k as [|x k]; [done|]. apply Forall_cons in Hk as [Hx _].
    assert (x ∈ starts tgt cs) as Hin by (rewrite E, elem_of_app; right; right; left).
    unfold starts in Hin. rewrite elem_of_fromkeys in Hin. apply list_elem_of_fmap in Hin as (y & -> & Hy).
    pose proof (Hafter y Hy) as Hyc. pose proof (timeframe_duration_pos src) as Hd. unfold whole_times in Hwhole. rewrite Forall_forall in Hwhole.
    pose proof (bucket_start_mono tgt _ _ (Hwhole y Hy) Hwc ltac:(lia)). lia.
  - intros Hin. specialize (Hlk b b Hin ltac:(by left)). lia.
Qed.

Lemma full_bars_snoc : full_bars (cs ++ [c]) = full_bars cs ++ option_list (full_bar (cs ++ [c]) b).
Proof using Hmultiple Hasc Hwhole Hwc Hafter.
  assert (forall l, b ∉ l -> omap (M := list) (full_bar (cs ++ [c])) l = omap (full_bar cs) l) as Hsame.
  { intros l Hl. induction l as [|x l IH]; [done|]. apply not_elem_of_cons in Hl as [Hx Hl].
    change (omap ?f (x :: l)) with (match f x with Some y => y :: omap f l | None => omap f l end).
    by rewrite full_bar_other, IH. }
  unfold full_bars, starts. rewrite map_app. cbn [map]. rewrite fromkeys_snoc. fold (starts tgt cs).
  case_decide as Hin.
  - destruct (starts_last Hin) as (earlier & E & Hne). rewrite E, !omap_app, Hsame by done.
    assert (full_bar cs b = None) as Hnone by (unfold full_bar; by rewrite open_bucket).
    rewrite !omap_single, Hnone. cbn [option_list].
    by rewrite app_nil_r.
  - rewrite omap_app, Hsame by done. by rewrite omap_single.
Qed.

Lemma not_emitted : b ∉ map Candle.timestamp (full_bars cs).
Proof using Hmultiple Hwc Hafter.
  intros Hin. apply list_elem_of_fmap in Hin as (bar & Eb & Hbar). unfold full_bars in Hbar. apply list_elem_of_omap in Hbar as (b' & _ & Hf).
  unfold full_bar in Hf. destruct (full cs b') eqn:E; [|done]. pose proof (su_timestamp _ _ _ (derived_candle_summarises _ _ _ Hf)) as Et.
  pose proof open_bucket as Ho. rewrite Eb, Et in Ho. congruence.
Qed.

Lemma append_target_after : Forall (fun x => valid_candle x = true) (cs ++ [c]) ->
  IncrementalResamplingState.append_target src tgt c (target_after cs) = (target_after (cs ++ [c]), Ok tt).
Proof using Hmultiple Hasc Hwhole Hwc Hafter.
  intros Hv. unfold IncrementalResamplingState.append_target, target_after. cbn [_TargetState.buckets _TargetState.emitted _TargetState.bars].
  assert (bucket_append b c (grouped_by tgt cs) = grouped_by tgt (cs ++ [c])) as -> by (unfold grouped_by; by rewrite foldl_app).
  assert (dict_get (grouped_by tgt (cs ++ [c])) b = Some (members tgt b (cs ++ [c]))) as Hget.
  { rewrite grouped_by_starts. unfold table. rewrite (dict_get_table (fun b => members tgt b (cs ++ [c]))), decide_True; [done|].
    apply elem_of_starts. rewrite members_snoc, Z.eqb_refl. by destruct (members tgt b cs). }
  rewrite Hget. cbn [default from_option id]. rewrite full_bars_snoc.
  destruct (full (cs ++ [c]) b) eqn:Ef.
  - rewrite (full_length _ _ Ef), Z.eqb_refl. cbn [negb]. apply bool_decide_eq_true in Ef as Et. unfold opens_of in Et.
    rewrite bool_decide_true by done. rewrite (bool_decide_false (b ∈ _)) by apply not_emitted. cbn [negb orb].
    destruct (derived_candle_total b (members tgt b (cs ++ [c]))) as (bar & Hbar).
    { rewrite members_snoc, Z.eqb_refl. by destruct (members tgt b cs). }
    rewrite Hbar, (derived_candle_valid b _ bar (members_valid tgt b _ Hv) Hbar). unfold full_bar. rewrite Ef, Hbar. change (option_list (Some bar)) with [bar].
    rewrite (map_app Candle.timestamp (full_bars cs)). cbn [map]. by rewrite (su_timestamp _ _ _ (derived_candle_summarises _ _ _ Hbar)).
  - unfold full_bar. rewrite Ef. unfold option_list. cbn [option_rect]. rewrite app_nil_r. apply bool_decide_eq_false in Ef. unfold opens_of in Ef.
    destruct (negb (_ =? _)); [done|]. by rewrite bool_decide_false.
Qed.
End step.
End target.

(** ** All targets *)

Section targets.
Context (src : Timeframe) (targets : list Timeframe).
Hypothesis Hmultiples : Forall (fun tgt => timeframe_duration src <= timeframe_duration tgt
  /\ timeframe_duration tgt mod timeframe_duration src = 0) targets.
Hypothesis Hnd : NoDup targets.

(** Candles of a source without gaps. *)
Record good_source (cs : list Candle) : Prop := {
  gs_spaced : evenly_spaced src cs;
  gs_whole : whole_times cs;
  gs_valid : Forall (fun x => valid_candle x = true) cs
}.

Definition targets_after (cs : list Candle) : list (Timeframe * _TargetState) :=
  map (fun tgt => (tgt, target_after src tgt cs)) targets.

Lemma good_source_snoc cs c : good_source (cs ++ [c]) ->
  good_source cs /\ whole_or_recent (Candle.timestamp c)
  /\ forall x, x ∈ cs -> Candle.timestamp x + timeframe_duration src <= Candle.timestamp c.
Proof using.
  intros [Hs Hw Hv]. apply Forall_app in Hw as [Hw Hwc]. apply Forall_app in Hv as [Hv _]. apply Forall_cons in Hwc as [Hwc _].
  assert ((cs ++ [c]) !! length cs = Some c) as Hc by (by rewrite lookup_app_r, Nat.sub_diag by lia).
  split; [split; [|done..]|split; [done|]].
  - intros i a b Ha Hb. apply (Hs i); by apply lookup_app_l_Some.
  - intros x Hx. apply list_elem_of_lookup in Hx as [i Hi]. pose proof (lookup_lt_Some _ _ _ Hi).
    pose proof (evenly_spaced_nth src _ i (length cs) x c Hs (lookup_app_l_Some _ _ _ _ Hi) Hc).
    pose proof (timeframe_duration_pos src). nia.
Qed.

Lemma append_targets_after cs c rest (f : Timeframe -> _TargetState) : good_source (cs ++ [c]) ->
  NoDup rest -> rest ⊆ targets -> (forall tgt, tgt ∈ rest -> f tgt = target_after src tgt cs) ->
  IncrementalResamplingState.append_targets src c rest (map (fun tgt => (tgt, f tgt)) targets)
  = (map (fun tgt => (tgt, if decide (tgt ∈ rest) then target_after src tgt (cs ++ [c]) else f tgt)) targets, Ok tt).
Proof using Hmultiples Hnd.
  intros Hgood. pose proof (good_source_snoc _ _ Hgood) as ([Hs Hw _] & Hwc & Hafter).
  revert f. induction rest as [|tgt rest IH]; intros f Hr Hsub Hf; cbn [IncrementalResamplingState.append_targets].
  - done.
  - apply NoDup_cons in Hr as [Hnew Hr]. assert (tgt ∈ targets) as Hin by (apply Hsub; by left).
    rewrite dict_get_table, decide_True, Hf by (done || by left).
    rewrite append_target_after; [|rewrite Forall_forall in Hmultiples; by apply Hmultiples|by eapply evenly_spaced_ascending|done..|apply Hgood].
    rewrite dict_set_table, IH; [|done|set_solver| |done|done].
    + f_equal. apply map_ext. intros x. destruct (decide (x = tgt)) as [->|Hne].
      * by rewrite (decide_False (P := tgt ∈ rest)), (decide_True (P := tgt ∈ tgt :: rest)) by (done || by left).
      * destruct (decide (x ∈ rest)); [rewrite decide_True by (by right)|rewrite decide_False by (rewrite elem_of_cons; tauto)]; done.
    + intros x Hx. rewrite decide_False by congruence. apply Hf. by right.
Qed.

Lemma append_candles_after cs rest : good_source (cs ++ rest) ->
  IncrementalResamplingState.append_candles src targets rest (targets_after cs) = (targets_after (cs ++ rest), Ok tt).
Proof using Hmultiples Hnd.
  revert cs. induction rest as [|c rest IH]; intros cs Hgood; cbn [IncrementalResamplingState.append_candles]; [by rewrite app_nil_r|].
  rewrite cons_middle, app_assoc in Hgood |- *.
  assert (good_source (cs ++ [c])) as Hc.
  { destruct Hgood as [Hs Hw Hv]. apply Forall_app in Hw as [Hw _], Hv as [Hv _]. split; [|done..].
    intros i a b Ha Hb. apply (Hs i); by apply lookup_app_l_Some. }
  unfold targets_after at 1. rewrite (append_targets_after cs c targets) by done.
  rewrite <- IH by done. f_equal. unfold targets_after. apply map_ext_in. intros tgt Hin%list_elem_of_In. by rewrite decide_True.
Qed.

(** The state of an engine that has seen the candles [cs]. *)
Definition state_after (cs : list Candle) : IncrementalResamplingState :=
  IncrementalResamplingState.mkIncrementalResamplingState src targets cs (targets_after cs).

Lemma create_after : IncrementalResamplingState.create src targets = state_after [].
Proof using Hnd.
  unfold IncrementalResamplingState.create, state_after, targets_after. f_equal. revert Hnd. clear.
  induction targets as [|tgt l IH] using rev_ind; [done|]. intros (Hnd & Hx & _)%list.NoDup_app.
  rewrite foldl_app, IH, map_app by done. cbn [foldl map]. rewrite dict_set_new; [done|].
  rewrite dict_get_table, decide_False; [done|]. intros Hin. by apply (Hx _ Hin), list_elem_of_singleton.
Qed.

Lemma append_after known candles : good_source candles ->
  (IncrementalResamplingState.extends known candles = true -> exists rest, candles = known ++ rest) ->
  IncrementalResamplingState.append (state_after known) candles = (state_after candles, Ok tt).
Proof using Hmultiples Hnd.
  intros Hgood Hext. unfold IncrementalResamplingState.append, IncrementalResamplingState.reset.
  change (IncrementalResamplingState.source_candles (state_after known)) with known.
  change (IncrementalResamplingState.create (IncrementalResamplingState.source_timeframe (state_after known))
    (IncrementalResamplingState.target_timeframes (state_after known))) with (IncrementalResamplingState.create src targets).
  rewrite create_after. destruct (IncrementalResamplingState.extends known candles);
    unfold state_after; cbn [IncrementalResamplingState.source_candles IncrementalResamplingState.source_timeframe
      IncrementalResamplingState.target_timeframes IncrementalResamplingState.targets].
  - destruct (Hext eq_refl) as [rest ->]. rewrite drop_app_length. by rewrite append_candles_after.
  - cbn [length drop]. by rewrite (append_candles_after []).
Qed.

Lemma snapshot_after cs : IncrementalResamplingState.snapshot (state_after cs) = Ok (map (fun tgt => (tgt, full_bars src tgt cs)) targets).
Proof using.
  unfold IncrementalResamplingState.snapshot. cbn [state_after IncrementalResamplingState.targets IncrementalResamplingState.target_timeframes].
  apply py_map_total. intros tgt Hin. unfold dict_index, targets_after. rewrite dict_get_table, decide_True by done. done.
Qed.
End targets.

(** ** The reference *)

Lemma derived_full_bars src tgt config now cs keys :
  timeframe_duration src <= timeframe_duration tgt /\ timeframe_duration tgt mod timeframe_duration src = 0 ->
  MTFConfig.mtf_source_timeframe config = src -> MTFConfig.mtf_gap_policy config <> MTFGapPolicy.SESSION_CALENDAR ->
  Forall (fun x => valid_candle x = true) cs -> (forall x, x ∈ cs -> Candle.timestamp x + timeframe_duration src <= now) ->
  py_map _derived_to_candle (omap (M := list) (closed_bar config None now tgt cs) keys) = Ok (omap (full_bar src tgt cs) keys).
Proof.
  intros Hm Hsrc Hgap Hv Hnow. assert (MTFConfig.mtf_gap_policy config = MTFGapPolicy.REQUIRE_CONTIGUOUS) as Hg
    by (destruct (MTFConfig.mtf_gap_policy config); done).
  induction keys as [|b keys IH]; [done|].
  change (omap ?f (b :: keys)) with (match f b with Some y => y :: omap f keys | None => omap f keys end).
  assert (complete_bucket config None tgt cs b = full src tgt cs b) as Hcomplete.
  { unfold complete_bucket, full, expected_of, opens_of. by rewrite Hg, Hsrc. }
  assert (closed_bar config None now tgt cs b = if full src tgt cs b then bar_of tgt cs b else None) as ->.
  { unfold closed_bar, due_bucket. rewrite Hcomplete. destruct (full src tgt cs b) eqn:Ef; [|by rewrite andb_false_r].
    destruct (full_end src tgt Hm cs b Ef) as (x & Hx & Ex). rewrite (proj2 (Z.leb_le _ now)) by (rewrite <- Ex; auto).
    by rewrite Hg, (bool_decide_false (MTFGapPolicy.REQUIRE_CONTIGUOUS = _)). }
  unfold full_bar at 1. destruct (full src tgt cs b); [|exact IH]. unfold bar_of.
  destruct (derived_candle b (members tgt b cs)) as [c|] eqn:Ec; [|exact IH].
  cbn [fmap option_fmap option_map py_map]. unfold _derived_to_candle at 1. cbn [MTFDerivedBar.timestamp MTFDerivedBar.open MTFDerivedBar.high
    MTFDerivedBar.low MTFDerivedBar.close MTFDerivedBar.volume].
  assert (Candle.mkCandle b (Candle.open c) (Candle.high c) (Candle.low c) (Candle.close c) (Candle.volume c) = c) as ->.
  { pose proof (su_timestamp _ _ _ (derived_candle_summarises _ _ _ Ec)) as Et. destruct c. cbn in *. by subst. }
  unfold validated. rewrite (derived_candle_valid b _ c (members_valid tgt b cs Hv) Ec). by rewrite IH.
Qed.

Lemma reference_after config now cs :
  let mtf := DeterministicStrategyPipelineConfig.multi_timeframe config in
  multiples mtf -> NoDup (MTFConfig.mtf_target_timeframes mtf) -> MTFConfig.mtf_gap_policy mtf <> MTFGapPolicy.SESSION_CALENDAR ->
  good_source (MTFConfig.mtf_source_timeframe mtf) cs ->
  (forall x, x ∈ cs -> Candle.timestamp x + timeframe_duration (MTFConfig.mtf_source_timeframe mtf) <= now) ->
  resampled_candles cs now config
  = Ok (map (fun tgt => (tgt, full_bars (MTFConfig.mtf_source_timeframe mtf) tgt cs)) (DeterministicStrategyPipelineConfig.targets config)).
Proof.
  intros mtf Hm Hnd Hgap [Hs Hw Hv] Hnow. unfold resampled_candles. fold mtf.
  assert (eligible_source mtf now cs = cs) as Hall.
  { unfold eligible_source. apply list_filter_all. intros x Hx. apply Z.leb_le. by apply Hnow. }
  rewrite (resample_ok mtf None cs now Hv Hw Hm) by (rewrite ?Hall; first [by eapply evenly_spaced_ascending|by intros E]).
  rewrite Hall. cbn [mbind pyres_bind]. apply py_map_total. intros tgt Hin. unfold resampled. cbn [MTFResampleResult.bars].
  unfold dict_index. rewrite (dict_get_table (fun tgt => closed_bars mtf None now cs tgt)), decide_True by done. cbn [mbind pyres_bind].
  unfold closed_bars. rewrite (derived_full_bars (MTFConfig.mtf_source_timeframe mtf)); [done| |done..].
  unfold multiples in Hm. rewrite Forall_forall in Hm. by apply Hm.
Qed.

(** ** The stages do not look at the state *)

Section agreement.
Context {Snapshot State1 State2 : Type} `{CandidateSnapshot Snapshot} `{T1 : TargetCandles State1} `{T2 : TargetCandles State2}.
Context (build_analysis_snapshot : StrategyEvaluationContext -> DeterministicStrategyEvaluation -> SignalScoreEvidence
  -> SignalScoreResult -> pyres Snapshot).
Context (strategy_config : StrategyConfig) (strategy_identity : StrategyIdentity).

#[local] Abbreviation Step1 := (Step (Snapshot := Snapshot) (State := State1)).
#[local] Abbreviation Step2 := (Step (Snapshot := Snapshot) (State := State2)).
#[local] Existing Instance Step_ret.
#[local] Existing Instance Step_bind.

(** The two steps do the same, and leave the state alone. *)
Definition agree_steps {A} (m1 : Step1 A) (m2 : Step2 A) : Prop := forall s1 s2 p, exists p' flow,
  m1 (s1, p) = ((s1, p'), flow) /\ m2 (s2, p) = ((s2, p'), flow).

Lemma same_bind {A B} (m1 : Step1 A) (m2 : Step2 A) (f1 : A -> Step1 B) (f2 : A -> Step2 B) :
  agree_steps m1 m2 -> (forall a, agree_steps (f1 a) (f2 a)) -> agree_steps (m1 ≫= f1) (m2 ≫= f2).
Proof.
  intros Hm Hf s1 s2 p. destruct (Hm s1 s2 p) as (p' & flow & E1 & E2). unfold mbind, Step_bind. rewrite E1, E2.
  destruct flow as [a|output|e]; [apply Hf|eauto..].
Qed.

Lemma same_lift {A} (m : pyres A) : agree_steps (lift m) (lift m).
Proof. intros s1 s2 p. unfold lift. eauto. Qed.
Lemma same_report f : agree_steps (report f) (report f).
Proof. intros s1 s2 p. unfold report. cbn. eauto. Qed.
Lemma same_leave {A} context config reason :
  agree_steps (A := A) (leave strategy_identity context config reason) (leave strategy_identity context config reason).
Proof. intros s1 s2 p. unfold leave. cbn [snd]. eauto. Qed.

Create HintDb agreement discriminated.
#[local] Hint Resolve same_lift same_report same_leave same_bind : agreement.

Lemma agree_structures config targets : agree_steps (analyze_structures config targets) (analyze_structures config targets).
Proof. induction targets as [|[tf cs] rest IH]; cbn [analyze_structures]; [by intros s1 s2 p; eexists _, _|]. auto 8 with agreement. Qed.
#[local] Hint Resolve agree_structures : agreement.

Lemma agree_decide context config source_candles candles minimum indicator structures smc_ict setup :
  agree_steps (decide_setup build_analysis_snapshot strategy_identity context config source_candles candles minimum indicator structures smc_ict setup)
    (decide_setup build_analysis_snapshot strategy_identity context config source_candles candles minimum indicator structures smc_ict setup).
Proof.
  unfold decide_setup. apply same_bind; [auto with agreement|intros _]. apply same_bind; [auto with agreement|intros mtf].
  apply same_bind; [auto with agreement|intros _]. destruct (negb _); [auto with agreement|].
  apply same_bind; [auto with agreement|intros ev]. apply same_bind; [auto with agreement|intros sc].
  apply same_bind; [auto with agreement|intros _]. destruct (negb _); [auto with agreement|].
  apply same_bind; [auto with agreement|intros plan]. apply same_bind; [auto with agreement|intros _].
  destruct (negb _); [auto with agreement|]. intros s1 s2 p. unfold lift. cbn [snd]. eauto.
Qed.

Lemma agree_candles context config source_candles candles :
  agree_steps (analyze_candles build_analysis_snapshot strategy_identity context config source_candles candles)
    (analyze_candles build_analysis_snapshot strategy_identity context config source_candles candles).
Proof.
  unfold analyze_candles. apply same_bind; [auto with agreement|intros minimum]. apply same_bind; [auto with agreement|intros []];
    [auto with agreement|].
  apply same_bind; [auto with agreement|intros _]. apply same_bind; [auto with agreement|intros signal].
  case_bool_decide; [auto with agreement|]. apply same_bind; [auto with agreement|intros ind]. apply same_bind; [auto with agreement|intros _].
  apply same_bind; [by intros s1 s2 p; eexists _, _|intros structs]. apply same_bind; [auto with agreement|intros own].
  apply same_bind; [auto with agreement|intros smc]. apply same_bind; [auto with agreement|intros _].
  destruct (ready_now _ _) as [|s [|]]; auto using agree_decide with agreement.
Qed.

(** Two engines that build the same candles report the same. *)
Lemma agree_handled context config source_candles (s1 s1' : State1) (s2 s2' : State2) r :
  _build_candles_by_target s1 (StrategyEvaluationContext.symbol context) source_candles (StrategyEvaluationContext.as_of context) config = (s1', r) ->
  _build_candles_by_target s2 (StrategyEvaluationContext.symbol context) source_candles (StrategyEvaluationContext.as_of context) config = (s2', r) ->
  exists output,
    handle_errors strategy_identity context config
      (analyze build_analysis_snapshot strategy_identity context config source_candles (s1, Progress.empty)) = (s1', output)
    /\ handle_errors strategy_identity context config
      (analyze build_analysis_snapshot strategy_identity context config source_candles (s2, Progress.empty)) = (s2', output).
Proof.
  intros E1 E2. unfold analyze. unfold mbind, Step_bind, build_candles. cbn [fst snd]. rewrite E1, E2.
  destruct r as [candles|e]; [|unfold handle_errors; eauto].
  destruct (agree_candles context config source_candles candles s1' s2' Progress.empty) as (p & flow & -> & ->).
  unfold handle_errors. destruct flow; eauto.
Qed.
End agreement.

(** ** Sequences of evaluations *)

(** The outputs of one engine, evaluated on one context after the other. *)
Fixpoint evaluations {Snapshot State} `{CandidateSnapshot Snapshot} `{TargetCandles State}
    (build_analysis_snapshot : StrategyEvaluationContext -> DeterministicStrategyEvaluation -> SignalScoreEvidence
       -> SignalScoreResult -> pyres Snapshot)
    (strategy_config : StrategyConfig) (strategy_identity : StrategyIdentity) (state : State)
    (contexts : list StrategyEvaluationContext) : list (pyres (Output (Snapshot := Snapshot))) :=
  match contexts with
  | [] => []
  | context :: rest =>
      let '(state', output) := evaluate build_analysis_snapshot strategy_config strategy_identity state context in
      output :: evaluations build_analysis_snapshot strategy_config strategy_identity state' rest
  end.

(** Every candle of every context. *)
Definition context_candles (context : StrategyEvaluationContext) : list Candle :=
  flat_map snd (StrategyEvaluationContext.candles_by_timeframe context).

(** A context that satisfies its schema, with instants that are bucketed
    without truncation. *)
Record good_context (context : StrategyEvaluationContext) : Prop := {
  gc_closed : StrategyEvaluationContext.prevent_future_or_unsorted_candles context = true;
  gc_valid : Forall (fun c => valid_candle c = true) (context_candles context);
  gc_whole : whole_times (context_candles context)
}.

(** Candles that compare equal are written with the same digits. *)
Definition same_digits (candles : list Candle) : Prop :=
  forall a b, a ∈ candles -> b ∈ candles -> candle_eqb a b = true -> a = b.

(** The targets of a pipeline: distinct, and multiples of its source. *)
Definition good_pipeline (config : DeterministicStrategyPipelineConfig) : Prop :=
  multiples (DeterministicStrategyPipelineConfig.multi_timeframe config)
  /\ NoDup (MTFConfig.mtf_target_timeframes (DeterministicStrategyPipelineConfig.multi_timeframe config)).

#[local] Instance timeframe_value_inj : Inj (=) (=) timeframe_value.
Proof. by intros [] []. Qed.

Lemma state_key_inj symbol src targets symbol' src' targets' :
  _state_key symbol src targets = _state_key symbol' src' targets' -> symbol = symbol' /\ src = src' /\ targets = targets'.
Proof. unfold _state_key. intros [= -> Es Et]. apply (inj timeframe_value) in Es. apply (inj (fmap timeframe_value)) in Et. done. Qed.

Lemma pairwise_spaced tf cs : _has_source_gap cs tf = false -> evenly_spaced tf cs.
Proof.
  unfold _has_source_gap. induction cs as [|x cs IH]; intros Hg i c e Hc He; [by destruct i|].
  destruct cs as [|y cs]; [by destruct i|]. change (pairwise (x :: y :: cs)) with ((x, y) :: pairwise (y :: cs)) in Hg.
  cbn [existsb] in Hg. apply orb_false_iff in Hg as [Hxy Hg]. destruct i as [|i].
  - injection Hc as <-. injection He as <-. apply negb_false_iff, Z.eqb_eq in Hxy. lia.
  - by apply (IH Hg i).
Qed.

Lemma extends_prefix known candles all : same_digits all -> (forall x, x ∈ known -> x ∈ all) -> (forall x, x ∈ candles -> x ∈ all) ->
  IncrementalResamplingState.extends known candles = true -> exists rest, candles = known ++ rest.
Proof.
  intros Hd Hk Hc He. unfold IncrementalResamplingState.extends in He. apply andb_true_iff in He as [Hl He].
  exists (drop (length known) candles). assert (take (length known) candles = known) as E; [|by rewrite <- E at 1; rewrite take_drop].
  assert (forall x, x ∈ take (length known) candles -> x ∈ all) as Ht by (intros x Hx; apply Hc; by apply (subseteq_take (length known) candles)).
  revert He Ht Hk. generalize (take (length known) candles). clear Hl Hc. induction known as [|x known IH]; intros [|y l] He Hl Hk; [done..|].
  unfold list_eqb in He. cbn [length zip zip_with forallb] in He. apply andb_true_iff in He as [Hlen He]. apply andb_true_iff in He as [Hxy He].
  assert (y = x) as -> by (apply Hd; [apply Hl; by left|apply Hk; by left|exact Hxy]).
  f_equal. apply IH; [|intros z Hz; apply Hl; by right|intros z Hz; apply Hk; by right].
  unfold list_eqb. apply andb_true_iff. split; [exact Hlen|exact He].
Qed.

Section simulation.
Context {Snapshot : Type} `{CandidateSnapshot Snapshot}.
Context (build_analysis_snapshot : StrategyEvaluationContext -> DeterministicStrategyEvaluation -> SignalScoreEvidence
  -> SignalScoreResult -> pyres Snapshot).
Context (strategy_config : StrategyConfig) (strategy_identity : StrategyIdentity) (all : list Candle).
Hypothesis Hpipelines : Forall (fun '(_, config) => good_pipeline config) (StrategyConfig.pipelines strategy_config).
Hypothesis Hdigits : same_digits all.

(** Every state is that of the candles it has seen. *)
Definition sound_states (states : IncrementalStates) : Prop := forall key state, dict_get states key = Some state ->
  exists symbol src targets known, key = _state_key symbol src targets /\ state = state_after src targets known
    /\ forall x, x ∈ known -> x ∈ all.

Lemma incremental_sound states symbol candles config : sound_states states -> good_pipeline config ->
  good_source (MTFConfig.mtf_source_timeframe (DeterministicStrategyPipelineConfig.multi_timeframe config)) candles ->
  (forall x, x ∈ candles -> x ∈ all) ->
  exists states', incremental_candles states symbol candles config
      = (states', Ok (map (fun tgt => (tgt, full_bars (MTFConfig.mtf_source_timeframe (DeterministicStrategyPipelineConfig.multi_timeframe config))
                                              tgt candles)) (DeterministicStrategyPipelineConfig.targets config)))
    /\ sound_states states'.
Proof using Hdigits.
  intros Hst [Hm Hnd] Hgood Hall. unfold incremental_candles, DeterministicStrategyPipelineConfig.targets.
  set (mtf := DeterministicStrategyPipelineConfig.multi_timeframe config) in *. set (src := MTFConfig.mtf_source_timeframe mtf) in *.
  set (targets := MTFConfig.mtf_target_timeframes mtf) in *. set (key := _state_key symbol src targets).
  assert (exists known, default (IncrementalResamplingState.create src targets) (dict_get states key) = state_after src targets known
            /\ forall x, x ∈ known -> x ∈ all) as (known & -> & Hknown).
  { destruct (dict_get states key) as [state|] eqn:E; cbn [default from_option id].
    - destruct (Hst key state E) as (symbol' & src' & targets' & known & Ek & -> & Hk). apply state_key_inj in Ek as (_ & <- & <-). eauto.
    - exists []. split; [by apply create_after|]. intros x Hx. by apply not_elem_of_nil in Hx. }
  rewrite append_after; [|done|done|done|by apply (extends_prefix known candles all)]. cbn [mbind pyres_bind].
  rewrite snapshot_after. eexists. split; [done|]. intros key' state. rewrite dict_get_set. destruct (decide (key = key')) as [<-|]; [|apply Hst].
  intros [= <-]. exists symbol, src, targets, candles. done.
Qed.

Lemma ready_source context config candles : good_context context -> input_ready strategy_config context config candles ->
  let src := MTFConfig.mtf_source_timeframe (DeterministicStrategyPipelineConfig.multi_timeframe config) in
  good_source src candles /\ (forall x, x ∈ candles -> Candle.timestamp x + timeframe_duration src <= StrategyEvaluationContext.as_of context)
  /\ (forall x, x ∈ candles -> x ∈ context_candles context).
Proof using.
  intros [Hclosed Hv Hw] (_ & Hs & _ & _ & Hgap). apply dict_get_elem in Hs. set (src := MTFConfig.mtf_source_timeframe _) in *.
  assert (forall x, x ∈ candles -> x ∈ context_candles context) as Hin.
  { intros x Hx. unfold context_candles. apply list_elem_of_In, in_flat_map. exists (src, candles). split; by apply list_elem_of_In. }
  split_and!; [|intros x Hx|done].
  - split; [by apply pairwise_spaced| |]; [unfold whole_times in *|]; rewrite Forall_forall in *; auto.
  - unfold StrategyEvaluationContext.prevent_future_or_unsorted_candles in Hclosed. rewrite forallb_forall in Hclosed.
    specialize (Hclosed (src, candles) ltac:(by apply list_elem_of_In)). cbn in Hclosed. apply andb_true_iff in Hclosed as [Hc _].
    rewrite forallb_forall in Hc. specialize (Hc x ltac:(by apply list_elem_of_In)). apply negb_true_iff, Z.ltb_ge in Hc. lia.
Qed.

(** One evaluation. *)
Lemma evaluation_simulated states context : sound_states states -> good_context context ->
  (forall x, x ∈ context_candles context -> x ∈ all) ->
  exists states' output,
    evaluate build_analysis_snapshot strategy_config strategy_identity states context = (states', output)
    /\ evaluate build_analysis_snapshot strategy_config strategy_identity tt context = (tt, output) /\ sound_states states'.
Proof using Hpipelines Hdigits.
  intros Hst Hgood Hall. unfold evaluate. destruct (dict_get (StrategyConfig.pipelines strategy_config) _) as [config|] eqn:Ec; [|eauto].
  destruct (list.last (default [] (dict_get (StrategyEvaluationContext.candles_by_timeframe context) _))) as [last|] eqn:El; [|eauto].
  destruct (Z.eqb_spec (Candle.timestamp last + timeframe_duration (MTFConfig.mtf_source_timeframe
    (DeterministicStrategyPipelineConfig.multi_timeframe config))) (StrategyEvaluationContext.as_of context)) as [Hl|]; cbn [negb]; [|eauto].
  case_bool_decide as Hgap; [eauto|]. destruct (_has_source_gap _ _) eqn:Eg; [eauto|].
  destruct (dict_get (StrategyEvaluationContext.candles_by_timeframe context) _) as [candles|] eqn:Es;
    cbn [default from_option id] in *; [|done].
  assert (input_ready strategy_config context config candles) as Hr by (split_and!; eauto).
  destruct (ready_source context config candles Hgood Hr) as (Hsource & Hclosed & Hin).
  rewrite Forall_forall in Hpipelines. pose proof (Hpipelines _ (dict_get_elem _ _ _ Ec)) as Hp. cbn in Hp.
  destruct (incremental_sound states (StrategyEvaluationContext.symbol context) candles config Hst Hp Hsource) as (states' & E1 & Hst'); [auto|].
  destruct Hp as [Hm Hnd].
  pose proof (reference_after config (StrategyEvaluationContext.as_of context) candles Hm Hnd Hgap Hsource Hclosed) as E2.
  destruct (agree_handled (T1 := incremental_target_candles) (T2 := reference_candles) build_analysis_snapshot strategy_identity context config candles
    states states' tt tt _ E1 ltac:(cbn; by rewrite E2)) as (output & -> & ->). eauto.
Qed.

Lemma evaluations_simulated states contexts : sound_states states -> Forall good_context contexts ->
  (forall context x, context ∈ contexts -> x ∈ context_candles context -> x ∈ all) ->
  evaluations build_analysis_snapshot strategy_config strategy_identity states contexts
  = evaluations build_analysis_snapshot strategy_config strategy_identity tt contexts.
Proof using Hpipelines Hdigits.
  revert states. induction contexts as [|context rest IH]; intros states Hst Hgood Hall; cbn [evaluations]; [done|].
  apply Forall_cons in Hgood as [Hg Hgood].
  destruct (evaluation_simulated states context Hst Hg) as (states' & output & -> & -> & Hst'); [intros x Hx; apply (Hall context x); [by left|done]|].
  f_equal. apply IH; [done..|]. intros c x Hc Hx. apply (Hall c x); [by right|done].
Qed.
End simulation.

(** C2. The optimized engine evaluates any sequence of contexts exactly like
    the reference engine, error for error: its state, extended candle by candle
    and reset when the input is no extension of what it knows, always holds the
    bars that a full resampling would give. This needs what the schemas of the
    contexts say, pipelines whose targets are distinct multiples of their source
    and candles that are written with the same digits when they compare equal. *)
Theorem optimized_engine_equivalent {Snapshot} `{CandidateSnapshot Snapshot} build_analysis_snapshot strategy_config strategy_identity contexts :
  Forall (fun '(_, config) => good_pipeline config) (StrategyConfig.pipelines strategy_config) ->
  Forall good_context contexts -> same_digits (flat_map context_candles contexts) ->
  evaluations build_analysis_snapshot strategy_config strategy_identity (initial_state (TargetCandles := incremental_target_candles)) contexts
  = evaluations (Snapshot := Snapshot) build_analysis_snapshot strategy_config strategy_identity
      (initial_state (TargetCandles := reference_candles)) contexts.
Proof.
  intros Hp Hg Hd. apply (evaluations_simulated build_analysis_snapshot strategy_config strategy_identity (flat_map context_candles contexts));
    [done|done|by intros key state|done|].
  intros context x Hc Hx. apply list_elem_of_In, in_flat_map. exists context. split; by apply list_elem_of_In.
Qed.
