(* ===== verification/Snapshots.v ===== *)
(** The analysis snapshot of a candidate: [schemas/analysis_snapshot.py] (the
    second version) and [services/snapshot_builder.py].

    Instants are UTC already, so normalising them changes nothing; the generic
    metadata of a snapshot are constant and left out. Every refusal of a
    validator is the same [ValidationError]: what it checks is a boolean. *)
From Stdlib Require Import ZArith Lia.
From stdpp Require Import base list strings numbers.
From S2P Require Import Prelude Dict Decimal Time Candle Signal Indicators Structure Engine Fvg LiquidityTypes Displacement OrderBlocks Risk SetupTypes Crt Score MtfTypes Metrics Runner Strategy.
Local Open Scope Z_scope.

(** ** The instants of the evidence *)

(** The instants in a value: what [_reject_datetime_after_cutoff] reaches
    through the fields of models, the values of dictionaries and sequences. *)
Class Times (A : Type) := times : A -> list datetime.

#[global] Instance instant_times : Times Z := fun t => [t].
#[global] Instance list_times {A} `{Times A} : Times (list A) := flat_map times.
#[global] Instance option_times {A} `{Times A} : Times (option A) := from_option times [].
(** An entry of a dictionary: its value. *)
#[global] Instance entry_times {K A} `{Times A} : Times (K * A) := fun entry => times (snd entry).

#[global] Instance MACDPoint_times : Times MACDPoint := fun p => [MACDPoint.timestamp p].
#[global] Instance ATRPoint_times : Times ATRPoint := fun p => [ATRPoint.timestamp p].
#[global] Instance IndicatorAnalysis_times : Times IndicatorAnalysis := fun a =>
  times (IndicatorAnalysis.data_cutoff_at a) ++ times (MACDResult.points (IndicatorAnalysis.macd a))
  ++ times (ATRResult.points (IndicatorAnalysis.atr a)).

#[global] Instance SwingCandidate_times : Times SwingCandidate := fun s =>
  [SwingCandidate.pivot_timestamp s; SwingCandidate.candidate_at s] ++ times (SwingCandidate.resolved_at s).
#[global] Instance ConfirmedSwing_times : Times ConfirmedSwing := fun s =>
  [ConfirmedSwing.pivot_timestamp s; ConfirmedSwing.candidate_at s; ConfirmedSwing.confirmed_at s]
  ++ times (ConfirmedSwing.left_evidence_timestamps s) ++ times (ConfirmedSwing.right_evidence_timestamps s).
#[global] Instance PriceZoneCandidate_times : Times PriceZoneCandidate := fun z =>
  times (PriceZoneCandidate.source_pivot_timestamps z) ++ [PriceZoneCandidate.created_at z; PriceZoneCandidate.updated_at z].
#[global] Instance StructureBreakEvent_times : Times StructureBreakEvent := fun e =>
  [StructureBreakEvent.timestamp e; StructureBreakEvent.confirmed_at e].
#[global] Instance StructureRejection_times : Times StructureRejection := fun r =>
  [StructureRejection.timestamp r; StructureRejection.confirmed_at r].
#[global] Instance MarketStructureResult_times : Times MarketStructureResult := fun r =>
  times (MarketStructureResult.data_cutoff_at r) ++ times (MarketStructureResult.candidate_swings r)
  ++ times (MarketStructureResult.confirmed_swings r) ++ times (MarketStructureResult.support_candidates r)
  ++ times (MarketStructureResult.resistance_candidates r) ++ times (MarketStructureResult.structure_events r)
  ++ times (MarketStructureResult.structure_rejections r).

#[global] Instance LiquidityInteraction_times : Times LiquidityInteraction := fun i =>
  [LiquidityInteraction.created_at i] ++ times (LiquidityInteraction.swept_at i)
  ++ [LiquidityInteraction.timestamp i; LiquidityInteraction.confirmed_at i].
#[global] Instance LiquidityPoolHistoryEntry_times : Times LiquidityPoolHistoryEntry := fun e =>
  [LiquidityPoolHistoryEntry.available_at e] ++ times (LiquidityPoolHistoryEntry.source_pivot_timestamps e)
  ++ times (LiquidityPoolHistoryEntry.members_available_at e) ++ times (LiquidityPoolHistoryEntry.swept_at e).
#[global] Instance LiquidityPool_times : Times LiquidityPool := fun p =>
  [LiquidityPool.created_at p; LiquidityPool.confirmed_at p; LiquidityPool.updated_at p] ++ times (LiquidityPool.swept_at p)
  ++ times (LiquidityPool.source_pivot_timestamps p) ++ times (LiquidityPool.members_available_at p)
  ++ times (LiquidityPool.interactions p) ++ times (LiquidityPool.history p).
#[global] Instance DualSweepGroup_times : Times DualSweepGroup := fun g => [DualSweepGroup.timestamp g; DualSweepGroup.confirmed_at g].
#[global] Instance LiquidityAnalysisResult_times : Times LiquidityAnalysisResult := fun r =>
  times (LiquidityAnalysisResult.data_cutoff_at r) ++ times (LiquidityAnalysisResult.pools r)
  ++ times (LiquidityAnalysisResult.interactions r) ++ times (LiquidityAnalysisResult.dual_sweeps r).

#[global] Instance GapLifecycleEvent_times : Times GapLifecycleEvent := fun e =>
  [GapLifecycleEvent.bar_timestamp e; GapLifecycleEvent.occurred_at e].
#[global] Instance GapZone_times : Times GapZone := fun z =>
  [GapZone.created_at z; GapZone.confirmed_at z] ++ times (GapZone.source_candle_timestamps z)
  ++ [GapZone.last_updated_at z] ++ times (GapZone.lifecycle z).
#[global] Instance FVGRejection_times : Times FVGRejection := fun r => [FVGRejection.third_candle_timestamp r; FVGRejection.confirmed_at r].
#[global] Instance FVGAnalysisResult_times : Times FVGAnalysisResult := fun r =>
  times (FVGAnalysisResult.data_cutoff_at r) ++ times (FVGAnalysisResult.zones r) ++ times (FVGAnalysisResult.rejections r).

#[global] Instance DisplacementLeg_times : Times DisplacementLeg := fun l =>
  [DisplacementLeg.start_timestamp l; DisplacementLeg.end_timestamp l; DisplacementLeg.timestamp l; DisplacementLeg.confirmed_at l].
#[global] Instance DisplacementEvaluation_times : Times DisplacementEvaluation := fun e =>
  [DisplacementEvaluation.start_timestamp e] ++ times (DisplacementEvaluation.last_evaluated_at e).
#[global] Instance DisplacementAnalysisResult_times : Times DisplacementAnalysisResult := fun r =>
  times (DisplacementAnalysisResult.data_cutoff_at r) ++ times (DisplacementAnalysisResult.legs r)
  ++ times (DisplacementAnalysisResult.evaluations r).

#[global] Instance OrderBlockLifecycleEvent_times : Times OrderBlockLifecycleEvent := fun e =>
  [OrderBlockLifecycleEvent.bar_timestamp e; OrderBlockLifecycleEvent.confirmed_at e].
#[global] Instance OrderBlockZone_times : Times OrderBlockZone := fun z =>
  [OrderBlockZone.origin_candle_timestamp z; OrderBlockZone.created_at z] ++ times (OrderBlockZone.validated_at z)
  ++ times (OrderBlockZone.mitigated_at z) ++ times (OrderBlockZone.invalidated_at z) ++ times (OrderBlockZone.lifecycle z).
#[global] Instance BreakerBlockZone_times : Times BreakerBlockZone := fun z =>
  [BreakerBlockZone.created_at z] ++ times (BreakerBlockZone.activated_at z) ++ times (BreakerBlockZone.invalidated_at z)
  ++ times (BreakerBlockZone.lifecycle z).
#[global] Instance OrderBlockRejection_times : Times OrderBlockRejection := fun r => [OrderBlockRejection.rejected_at r].
#[global] Instance OrderBlockAnalysisResult_times : Times OrderBlockAnalysisResult := fun r =>
  times (OrderBlockAnalysisResult.data_cutoff_at r) ++ times (OrderBlockAnalysisResult.order_blocks r)
  ++ times (OrderBlockAnalysisResult.breaker_blocks r) ++ times (OrderBlockAnalysisResult.rejections r).

#[global] Instance CompositeEntrySetup_times : Times CompositeEntrySetup := fun s =>
  times (CompositeEntrySetup.liquidity_event s) ++ times (CompositeEntrySetup.structure_event s)
  ++ times (CompositeEntrySetup.displacement_event s) ++ times (CompositeEntrySetup.fvg s) ++ times (CompositeEntrySetup.order_block s)
  ++ times (CompositeEntrySetup.retest_timestamp s) ++ [CompositeEntrySetup.confirmed_at s].
#[global] Instance EntrySetupAnalysisResult_times : Times EntrySetupAnalysisResult := fun r =>
  times (EntrySetupAnalysisResult.data_cutoff_at r) ++ times (EntrySetupAnalysisResult.setups r).

#[global] Instance MTFTimeframeSnapshot_times : Times MTFTimeframeSnapshot := fun s =>
  times (MTFTimeframeSnapshot.state_confirmed_at s) ++ times (MTFTimeframeSnapshot.source_bar_timestamp s)
  ++ times (MTFTimeframeSnapshot.source_bar_close_time s) ++ times (MTFTimeframeSnapshot.latest_closed_bar_at s).
#[global] Instance MTFAnalysisResult_times : Times MTFAnalysisResult := fun r =>
  [MTFAnalysisResult.decision_time r] ++ times (MTFAnalysisResult.timeframes r).

#[global] Instance SignalComponentEvidence_times : Times SignalComponentEvidence := fun e => [SignalComponentEvidence.confirmed_at e].
#[global] Instance CRTConfirmation_times : Times CRTConfirmation := fun c =>
  [CRTConfirmation.range_candle_timestamp c; CRTConfirmation.manipulation_candle_timestamp c; CRTConfirmation.manipulation_closed_at c;
   CRTConfirmation.confirmed_at c] ++ times (CRTConfirmation.third_candle_timestamp c).
#[global] Instance SignalScoreEvidence_times : Times SignalScoreEvidence := fun e =>
  [SignalScoreEvidence.decision_time e] ++ times (omap (M := list) (SignalScoreEvidence.components e) SignalScoreComponent.members)
  ++ times (SignalScoreEvidence.crt_confirmation e).
#[global] Instance SignalScoreResult_times : Times SignalScoreResult := fun r => [SignalScoreResult.decision_time r].
#[global] Instance RiskPlan_times : Times RiskPlan := fun p => [RiskPlan.decision_time p].

(** ** The sections of a snapshot *)

Module SnapshotSeriesSource.
Inductive SnapshotSeriesSource := CANONICAL | DERIVED.
End SnapshotSeriesSource.
Abbreviation SnapshotSeriesSource := SnapshotSeriesSource.SnapshotSeriesSource.

Module SnapshotCandleSeriesEvidence.
Record SnapshotCandleSeriesEvidence := mkSnapshotCandleSeriesEvidence {
  timeframe : Timeframe;
  source : SnapshotSeriesSource;
  candle_count : nat;
  first_candle_at : datetime;
  last_candle_at : datetime;
  last_candle_close_at : datetime
}.
Definition validate_series_bounds (s : SnapshotCandleSeriesEvidence) : bool :=
  (1 <=? candle_count s)%nat && negb (last_candle_at s <? first_candle_at s)
  && (last_candle_close_at s =? last_candle_at s + timeframe_duration (timeframe s)).
End SnapshotCandleSeriesEvidence.
Abbreviation SnapshotCandleSeriesEvidence := SnapshotCandleSeriesEvidence.SnapshotCandleSeriesEvidence.

Module SnapshotMarketDataEvidence.
Record SnapshotMarketDataEvidence := mkSnapshotMarketDataEvidence {
  source_timeframe : Timeframe;
  data_cutoff_at : datetime;
  series : list (string * SnapshotCandleSeriesEvidence)
}.
Definition validate_series_identity (m : SnapshotMarketDataEvidence) : bool :=
  forallb (fun '(key, value) =>
    bool_decide (key = timeframe_value (SnapshotCandleSeriesEvidence.timeframe value))
    && negb (data_cutoff_at m <? SnapshotCandleSeriesEvidence.last_candle_close_at value)) (series m).
End SnapshotMarketDataEvidence.
Abbreviation SnapshotMarketDataEvidence := SnapshotMarketDataEvidence.SnapshotMarketDataEvidence.

Module SnapshotSMCICTEvidence.
Record SnapshotSMCICTEvidence := mkSnapshotSMCICTEvidence {
  liquidity : LiquidityAnalysisResult;
  fvg : FVGAnalysisResult;
  displacement : DisplacementAnalysisResult;
  order_blocks : OrderBlockAnalysisResult;
  entry_setups : EntrySetupAnalysisResult
}.
End SnapshotSMCICTEvidence.
Abbreviation SnapshotSMCICTEvidence := SnapshotSMCICTEvidence.SnapshotSMCICTEvidence.

Module SnapshotSignalScoreEvidence.
Record SnapshotSignalScoreEvidence := mkSnapshotSignalScoreEvidence {
  evidence : SignalScoreEvidence;
  result : SignalScoreResult
}.
Definition validate_score_times (s : SnapshotSignalScoreEvidence) : bool :=
  SignalScoreEvidence.decision_time (evidence s) =? SignalScoreResult.decision_time (result s).
End SnapshotSignalScoreEvidence.
Abbreviation SnapshotSignalScoreEvidence := SnapshotSignalScoreEvidence.SnapshotSignalScoreEvidence.

Module SnapshotDecisionEvidence.
Record SnapshotDecisionEvidence := mkSnapshotDecisionEvidence {
  deterministic_decision : SignalDecision;
  candidate_direction : SignalDecision;
  decision_at : datetime;
  evidence_cutoff_at : datetime;
  score : option Z;
  score_breakdown : list (SignalScoreComponent * Z);
  entry_zone : option EntryZone;
  entry_reference : option dec;
  take_profit : option dec;
  stop_loss : option dec;
  risk_reward : option dec;
  reason_codes : list string
}.
(** The levels of a trade, ordered around its zone. *)
Definition ordered (decision : SignalDecision) (zone : EntryZone) (take_profit stop_loss : dec) : bool :=
  match decision with
  | SignalDecision.LONG =>
      dltb stop_loss (EntryZone.low zone) && dleb (EntryZone.low zone) (EntryZone.high zone) && dltb (EntryZone.high zone) take_profit
  | _ =>
      dltb take_profit (EntryZone.low zone) && dleb (EntryZone.low zone) (EntryZone.high zone) && dltb (EntryZone.high zone) stop_loss
  end.
Definition validate_decision (d : SnapshotDecisionEvidence) : bool :=
  opt_positive (entry_reference d) && opt_positive (take_profit d) && opt_positive (stop_loss d) && opt_positive (risk_reward d)
  && negb (bool_decide (reason_codes d = []))
  && negb (decision_at d <? evidence_cutoff_at d)
  && if bool_decide (deterministic_decision d = SignalDecision.NO_TRADE) then
       negb (is_some (entry_zone d) || is_some (entry_reference d) || is_some (take_profit d) || is_some (stop_loss d)
             || is_some (risk_reward d))
     else
       bool_decide (candidate_direction d = deterministic_decision d)
       && match score d, entry_zone d, entry_reference d, take_profit d, stop_loss d, risk_reward d with
          | Some _, Some zone, Some reference, Some tp, Some sl, Some _ =>
              dleb (EntryZone.low zone) reference && dleb reference (EntryZone.high zone)
              && ordered (deterministic_decision d) zone tp sl
          | _, _, _, _, _, _ => false
          end.
End SnapshotDecisionEvidence.
Abbreviation SnapshotDecisionEvidence := SnapshotDecisionEvidence.SnapshotDecisionEvidence.

Module AnalysisSnapshotPayloadV2.
Record AnalysisSnapshotPayloadV2 := mkAnalysisSnapshotPayloadV2 {
  symbol : MarketSymbol;
  timeframe : Timeframe;
  as_of : datetime;
  strategy_identity : StrategyIdentity;
  market_data : SnapshotMarketDataEvidence;
  indicators : option IndicatorAnalysis;
  market_structure : list (string * MarketStructureResult);
  smc_ict : option SnapshotSMCICTEvidence;
  multi_timeframe : option MTFAnalysisResult;
  signal_score : option SnapshotSignalScoreEvidence;
  risk : option RiskPlan;
  decision : SnapshotDecisionEvidence
}.
Definition freeze_typed_mappings (p : AnalysisSnapshotPayloadV2) : bool :=
  forallb (fun '(key, result) => bool_decide (key = timeframe_value (MarketStructureResult.timeframe result))) (market_structure p).
End AnalysisSnapshotPayloadV2.
Abbreviation AnalysisSnapshotPayloadV2 := AnalysisSnapshotPayloadV2.AnalysisSnapshotPayloadV2.

#[global] Instance SnapshotCandleSeriesEvidence_times : Times SnapshotCandleSeriesEvidence := fun s =>
  [SnapshotCandleSeriesEvidence.first_candle_at s; SnapshotCandleSeriesEvidence.last_candle_at s;
   SnapshotCandleSeriesEvidence.last_candle_close_at s].
#[global] Instance SnapshotMarketDataEvidence_times : Times SnapshotMarketDataEvidence := fun m =>
  [SnapshotMarketDataEvidence.data_cutoff_at m] ++ times (SnapshotMarketDataEvidence.series m).
#[global] Instance SnapshotSMCICTEvidence_times : Times SnapshotSMCICTEvidence := fun s =>
  times (SnapshotSMCICTEvidence.liquidity s) ++ times (SnapshotSMCICTEvidence.fvg s)
  ++ times (SnapshotSMCICTEvidence.displacement s) ++ times (SnapshotSMCICTEvidence.order_blocks s)
  ++ times (SnapshotSMCICTEvidence.entry_setups s).
#[global] Instance SnapshotSignalScoreEvidence_times : Times SnapshotSignalScoreEvidence := fun s =>
  times (SnapshotSignalScoreEvidence.evidence s) ++ times (SnapshotSignalScoreEvidence.result s).

(** ** Point-in-time checks *)

Definition _reject_datetime_after_cutoff {A} `{Times A} (cutoff : datetime) (section : A) : bool :=
  forallb (fun t => negb (cutoff <? t)) (times section).

Section checks.
Context (payload : AnalysisSnapshotPayloadV2).
Let timeframe := AnalysisSnapshotPayloadV2.timeframe payload.
Let smc_ict := AnalysisSnapshotPayloadV2.smc_ict payload.
Let market_structure := AnalysisSnapshotPayloadV2.market_structure payload.

(** The cutoffs of the results, and whether their timeframe must be the
    snapshot's. *)
Definition result_cutoffs : list (bool * Timeframe * option datetime) :=
  match AnalysisSnapshotPayloadV2.indicators payload with
  | Some indicators => [(true, timeframe, IndicatorAnalysis.data_cutoff_at indicators)]
  | None => []
  end
  ++ map (fun '(_, result) => (false, MarketStructureResult.timeframe result, MarketStructureResult.data_cutoff_at result)) market_structure
  ++ match smc_ict with
     | Some s =>
         let '(SnapshotSMCICTEvidence.mkSnapshotSMCICTEvidence liquidity fvg displacement order_blocks entry_setups) := s in
         [(true, LiquidityAnalysisResult.timeframe liquidity, LiquidityAnalysisResult.data_cutoff_at liquidity);
          (true, FVGAnalysisResult.timeframe fvg, FVGAnalysisResult.data_cutoff_at fvg);
          (true, DisplacementAnalysisResult.timeframe displacement, DisplacementAnalysisResult.data_cutoff_at displacement);
          (true, OrderBlockAnalysisResult.timeframe order_blocks, OrderBlockAnalysisResult.data_cutoff_at order_blocks);
          (true, EntrySetupAnalysisResult.timeframe entry_setups, EntrySetupAnalysisResult.data_cutoff_at entry_setups)]
     | None => []
     end.

Definition _validate_result_cutoffs (cutoff : datetime) : bool :=
  match AnalysisSnapshotPayloadV2.indicators payload with
  | Some indicators =>
      forallb (fun point => negb (cutoff <? MACDPoint.timestamp point + timeframe_duration timeframe))
        (MACDResult.points (IndicatorAnalysis.macd indicators))
      && forallb (fun point => negb (cutoff <? ATRPoint.timestamp point + timeframe_duration timeframe))
           (ATRResult.points (IndicatorAnalysis.atr indicators))
  | None => true
  end
  && forallb (fun '(signal, result_timeframe, result_cutoff) =>
       match result_cutoff with
       | Some t => negb (cutoff <? t) && (negb signal || bool_decide (result_timeframe = timeframe))
       | None => false
       end) result_cutoffs.

Definition structure_consistent (result : MarketStructureResult) : bool :=
  let swing_ids := map ConfirmedSwing.swing_id (MarketStructureResult.confirmed_swings result) in
  forallb (fun candidate =>
    Bool.eqb (bool_decide (SwingCandidate.resolution candidate = CandidateResolution.PENDING))
      (negb (is_some (SwingCandidate.resolved_at candidate)))) (MarketStructureResult.candidate_swings result)
  && forallb (fun swing =>
       let confirmed_at := ConfirmedSwing.confirmed_at swing in
       negb (confirmed_at <=? ConfirmedSwing.pivot_timestamp swing)
       && negb (existsb (fun item => confirmed_at <? item) (ConfirmedSwing.left_evidence_timestamps swing))
       && negb (existsb (fun item => confirmed_at <=? item) (ConfirmedSwing.right_evidence_timestamps swing)))
       (MarketStructureResult.confirmed_swings result)
  && forallb (fun event => bool_decide (StructureBreakEvent.broken_structure_id event ∈ swing_ids))
       (MarketStructureResult.structure_events result).

Definition _validate_structure_semantics : bool := forallb (fun '(_, result) => structure_consistent result) market_structure.

(** A pool has a history: its own validator. *)
Definition pool_consistent (interaction_ids : list string) (pool : LiquidityPool) : bool :=
  match list.last (LiquidityPool.history pool) with
  | Some latest => LiquidityPool.updated_at pool =? LiquidityPoolHistoryEntry.available_at latest
  | None => false
  end
  && negb (bool_decide (LiquidityPool.state pool = LiquidityPoolState.SWEPT) && negb (is_some (LiquidityPool.swept_at pool)))
  && match LiquidityPool.swept_at pool with Some t => negb (t <? LiquidityPool.created_at pool) | None => true end
  && forallb (fun event => bool_decide (LiquidityInteraction.event_id event ∈ interaction_ids)) (LiquidityPool.interactions pool).

Definition _validate_liquidity_semantics : bool :=
  match smc_ict with
  | Some s =>
      let liquidity := SnapshotSMCICTEvidence.liquidity s in
      forallb (pool_consistent (map LiquidityInteraction.event_id (LiquidityAnalysisResult.interactions liquidity)))
        (LiquidityAnalysisResult.pools liquidity)
  | None => true
  end.

(** [status_by_state] *)
Definition status_by_state (state : GapLifecycleState) : GapZoneStatus :=
  match state with
  | GapLifecycleState.ACTIVE => GapZoneStatus.OPEN
  | GapLifecycleState.PARTIALLY_FILLED => GapZoneStatus.PARTIAL
  | GapLifecycleState.FILLED => GapZoneStatus.FILLED
  | GapLifecycleState.INVERTED | GapLifecycleState.INVALIDATED | GapLifecycleState.EXPIRED => GapZoneStatus.INVALIDATED
  end.

Definition gap_consistent (zone_ids : list string) (zone : GapZone) : bool :=
  match head (GapZone.lifecycle zone), list.last (GapZone.lifecycle zone) with
  | Some first, Some latest =>
      (GapLifecycleEvent.occurred_at first =? GapZone.created_at zone) && (GapZone.confirmed_at zone =? GapZone.created_at zone)
      && negb (GapZone.last_updated_at zone <? GapLifecycleEvent.occurred_at latest)
      && bool_decide (GapLifecycleEvent.to_state latest = GapZone.lifecycle_state zone)
      && bool_decide (status_by_state (GapZone.lifecycle_state zone) = GapZone.status zone)
      && negb (existsb (fun '(previous, current) => GapLifecycleEvent.occurred_at current <? GapLifecycleEvent.occurred_at previous)
                 (pairwise (GapZone.lifecycle zone)))
      && match GapZone.origin_fvg_id zone with Some origin => bool_decide (origin ∈ zone_ids) | None => true end
      && bool_decide (GapLifecycleEvent.event_type first
           = match GapZone.type zone with
             | GapZoneType.IFVG => GapLifecycleEventType.IFVG_CREATED
             | GapZoneType.FVG => GapLifecycleEventType.FVG_CREATED
             end)
  | _, _ => false
  end.

Definition _validate_fvg_semantics : bool :=
  match smc_ict with
  | Some s =>
      let zones := FVGAnalysisResult.zones (SnapshotSMCICTEvidence.fvg s) in
      forallb (gap_consistent (map GapZone.zone_id zones)) zones
  | None => true
  end.

(** The latest event of a type. Its presence and instant must be those of the
    field that records it. *)
Definition event_time (type : OrderBlockEventType) (lifecycle : list OrderBlockLifecycleEvent) : option datetime :=
  OrderBlockLifecycleEvent.confirmed_at <$>
    list.last (List.filter (fun event => bool_decide (OrderBlockLifecycleEvent.type event = type)) lifecycle).

Definition block_consistent (breaker_ids : list string) (zone : OrderBlockZone) : bool :=
  let lifecycle := OrderBlockZone.lifecycle zone in
  match head lifecycle, list.last lifecycle with
  | Some first, Some latest =>
      bool_decide (OrderBlockLifecycleEvent.type first = OrderBlockEventType.OB_CREATED)
      && (OrderBlockLifecycleEvent.confirmed_at first =? OrderBlockZone.created_at zone)
      && bool_decide (OrderBlockLifecycleEvent.to_status latest = BlockStatus (OrderBlockZone.status zone))
      && bool_decide (event_time OrderBlockEventType.OB_VALIDATED lifecycle = OrderBlockZone.validated_at zone)
      && bool_decide (event_time OrderBlockEventType.OB_MITIGATED lifecycle = OrderBlockZone.mitigated_at zone)
      && bool_decide (event_time OrderBlockEventType.OB_INVALIDATED lifecycle = OrderBlockZone.invalidated_at zone)
      && match OrderBlockZone.breaker_zone_id zone with Some breaker => bool_decide (breaker ∈ breaker_ids) | None => true end
      && negb (bool_decide (OrderBlockZone.status zone = OrderBlockStatus.CANDIDATE) && is_some (OrderBlockZone.validated_at zone))
  | _, _ => false
  end.

Definition breaker_consistent (order_block_ids : list string) (breaker : BreakerBlockZone) : bool :=
  let lifecycle := BreakerBlockZone.lifecycle breaker in
  bool_decide (BreakerBlockZone.origin_order_block_id breaker ∈ order_block_ids)
  && match head lifecycle, list.last lifecycle with
     | Some first, Some latest =>
         bool_decide (OrderBlockLifecycleEvent.type first = OrderBlockEventType.BREAKER_CREATED)
         && (OrderBlockLifecycleEvent.confirmed_at first =? BreakerBlockZone.created_at breaker)
         && bool_decide (OrderBlockLifecycleEvent.to_status latest = BreakerStatus (BreakerBlockZone.status breaker))
         && bool_decide (event_time OrderBlockEventType.BREAKER_ACTIVATED lifecycle = BreakerBlockZone.activated_at breaker)
         && bool_decide (event_time OrderBlockEventType.BREAKER_INVALIDATED lifecycle = BreakerBlockZone.invalidated_at breaker)
         && negb (bool_decide (BreakerBlockZone.status breaker = BreakerBlockStatus.CANDIDATE)
                  && is_some (BreakerBlockZone.activated_at breaker))
     | _, _ => false
     end.

Definition blocks_consistent (analysis : OrderBlockAnalysisResult) : bool :=
  forallb (block_consistent (map BreakerBlockZone.zone_id (OrderBlockAnalysisResult.breaker_blocks analysis)))
    (OrderBlockAnalysisResult.order_blocks analysis)
  && forallb (breaker_consistent (map OrderBlockZone.zone_id (OrderBlockAnalysisResult.order_blocks analysis)))
       (OrderBlockAnalysisResult.breaker_blocks analysis).

Definition _validate_order_block_semantics : bool :=
  match smc_ict with Some s => blocks_consistent (SnapshotSMCICTEvidence.order_blocks s) | None => true end.

Definition mtf_consistent (cutoff : datetime) (entry : Timeframe * MTFTimeframeSnapshot) : bool :=
  let '(key, snapshot) := entry in
  let closed_fields := [MTFTimeframeSnapshot.source_bar_close_time snapshot; MTFTimeframeSnapshot.latest_closed_bar_at snapshot;
                        MTFTimeframeSnapshot.state_confirmed_at snapshot] in
  bool_decide (key = MTFTimeframeSnapshot.timeframe snapshot)
  && forallb (fun field => match field with Some t => negb (cutoff <? t) | None => true end) closed_fields
  && (negb (MTFTimeframeSnapshot.available snapshot)
      || is_some (MTFTimeframeSnapshot.state_event_id snapshot) && is_some (MTFTimeframeSnapshot.source_bar_timestamp snapshot)
         && forallb is_some closed_fields).

Definition _validate_mtf_semantics (cutoff : datetime) : bool :=
  match AnalysisSnapshotPayloadV2.multi_timeframe payload with
  | Some result =>
      negb (cutoff <? MTFAnalysisResult.decision_time result) && forallb (mtf_consistent cutoff) (MTFAnalysisResult.timeframes result)
  | None => true
  end.

(** *** References *)

(** What [_available_source_times] stores, in its order: identifiers with the
    instants from which they are known. *)
Definition structure_sources (result : MarketStructureResult) : list (string * datetime) :=
  map (fun event => (structure_event_reference event, StructureBreakEvent.confirmed_at event)) (MarketStructureResult.structure_events result)
  ++ map (fun zone => (PriceZoneCandidate.zone_id zone, PriceZoneCandidate.created_at zone))
       (MarketStructureResult.support_candidates result ++ MarketStructureResult.resistance_candidates result).

Definition source_entries : list (string * datetime) :=
  flat_map (fun '(_, result) => structure_sources result) market_structure
  ++ match AnalysisSnapshotPayloadV2.indicators payload with
     | Some indicators =>
         map (fun point => ("MACD:" +:+ isoformat (MACDPoint.timestamp point), MACDPoint.timestamp point + timeframe_duration timeframe))
           (MACDResult.points (IndicatorAnalysis.macd indicators))
     | None => []
     end
  ++ match smc_ict with
     | Some s =>
         map (fun event => (LiquidityInteraction.event_id event, LiquidityInteraction.confirmed_at event))
           (LiquidityAnalysisResult.interactions (SnapshotSMCICTEvidence.liquidity s))
         ++ map (fun zone => (GapZone.zone_id zone, GapZone.confirmed_at zone)) (FVGAnalysisResult.zones (SnapshotSMCICTEvidence.fvg s))
         ++ map (fun leg => (DisplacementLeg.leg_id leg, DisplacementLeg.confirmed_at leg))
              (DisplacementAnalysisResult.legs (SnapshotSMCICTEvidence.displacement s))
         ++ map (fun zone => (OrderBlockZone.zone_id zone, default (OrderBlockZone.created_at zone) (OrderBlockZone.validated_at zone)))
              (OrderBlockAnalysisResult.order_blocks (SnapshotSMCICTEvidence.order_blocks s))
     | None => []
     end
  ++ match AnalysisSnapshotPayloadV2.multi_timeframe payload with
     | Some result => [(MTFAnalysisResult.snapshot_id result, MTFAnalysisResult.decision_time result)]
     | None => []
     end.

Definition _available_source_times : list (string * datetime) :=
  foldl (fun sources '(reference, available_at) => dict_set sources reference available_at) [] source_entries.

Definition _validate_score_references : bool :=
  match AnalysisSnapshotPayloadV2.signal_score payload with
  | Some score =>
      let components := SignalScoreEvidence.components (SnapshotSignalScoreEvidence.evidence score) in
      forallb (fun '(component, contribution) => (contribution =? 0) || is_some (components component))
        (SignalScoreResult.score_breakdown (SnapshotSignalScoreEvidence.result score))
      && forallb (fun evidence =>
           forallb (fun source_id =>
             match dict_get _available_source_times source_id with
             | Some available_at => negb (SignalComponentEvidence.confirmed_at evidence <? available_at)
             | None => false
             end) (SignalComponentEvidence.source_ids evidence)) (omap (M := list) components SignalScoreComponent.members)
  | None => true
  end.

(** [{item.key: item for item in items}.get(key)]: the last one. *)
Definition last_with {A} (key : A -> string) (items : list A) (k : string) : option A :=
  list.last (List.filter (fun item => bool_decide (key item = k)) items).

Definition _validate_risk_references : bool :=
  match AnalysisSnapshotPayloadV2.risk payload with
  | None => true
  | Some risk =>
      if bool_decide (RiskPlan.decision risk = RiskDecision.NO_TRADE) then true
      else match smc_ict, RiskPlan.selection_metadata risk with
      | Some s, Some metadata =>
          match last_with CompositeEntrySetup.setup_id (EntrySetupAnalysisResult.setups (SnapshotSMCICTEvidence.entry_setups s))
                  (RiskPlan.candidate_id risk),
                last_with LiquidityPool.pool_id (LiquidityAnalysisResult.pools (SnapshotSMCICTEvidence.liquidity s))
                  (RiskSelectionMetadata.target_source_id metadata) with
          | Some setup, Some target =>
              negb (RiskPlan.decision_time risk <? CompositeEntrySetup.confirmed_at setup)
              && bool_decide (RiskSelectionMetadata.stop_source_id metadata = "setup:" +:+ RiskPlan.candidate_id risk +:+ ":invalidation")
              && negb (RiskPlan.decision_time risk <? LiquidityPool.updated_at target)
              && bool_decide (LiquidityPool.state target = LiquidityPoolState.ACTIVE)
              && bool_decide (RiskSelectionMetadata.target_source_structure metadata = LiquidityPool.source_structure target)
              && opt_deqb (Some (RiskSelectionMetadata.stop_structural_level metadata)) (CompositeEntrySetup.invalidation_level setup)
              && deqb (RiskSelectionMetadata.target_raw_level metadata)
                   (if bool_decide (RiskPlan.decision risk = RiskDecision.LONG) then LiquidityPool.lower_bound target
                    else LiquidityPool.upper_bound target)
          | _, _ => false
          end
      | _, _ => false
      end
  end.

(** Equality of dictionaries from components. *)
Definition breakdown_eqb (a b : list (SignalScoreComponent * Z)) : bool :=
  forallb (fun component => bool_decide (dict_get a component = dict_get b component)) SignalScoreComponent.members.

(** [risk.decision.value] *)
Definition risk_decision_value (decision : RiskDecision) : SignalDecision :=
  match decision with
  | RiskDecision.LONG => SignalDecision.LONG
  | RiskDecision.SHORT => SignalDecision.SHORT
  | RiskDecision.NO_TRADE => SignalDecision.NO_TRADE
  end.

Definition opt_zone_eqb (a b : option EntryZone) : bool :=
  match a, b with
  | Some x, Some y => deqb (EntryZone.low x) (EntryZone.low y) && deqb (EntryZone.high x) (EntryZone.high y)
  | None, None => true
  | _, _ => false
  end.

Definition _validate_decision_consistency : bool :=
  let decision := AnalysisSnapshotPayloadV2.decision payload in
  match AnalysisSnapshotPayloadV2.signal_score payload with
  | Some score =>
      let result := SnapshotSignalScoreEvidence.result score in
      bool_decide (SnapshotDecisionEvidence.score decision = Some (SignalScoreResult.score result))
      && breakdown_eqb (SnapshotDecisionEvidence.score_breakdown decision) (SignalScoreResult.score_breakdown result)
  | None => negb (is_some (SnapshotDecisionEvidence.score decision)) && bool_decide (SnapshotDecisionEvidence.score_breakdown decision = [])
  end
  && (bool_decide (SnapshotDecisionEvidence.deterministic_decision decision = SignalDecision.NO_TRADE)
      || match AnalysisSnapshotPayloadV2.risk payload with
         | Some risk =>
             bool_decide (risk_decision_value (RiskPlan.decision risk) = SnapshotDecisionEvidence.deterministic_decision decision)
             && opt_zone_eqb (SnapshotDecisionEvidence.entry_zone decision) (RiskPlan.entry_zone risk)
             && opt_deqb (SnapshotDecisionEvidence.entry_reference decision) (RiskPlan.entry_reference risk)
             && opt_deqb (SnapshotDecisionEvidence.take_profit decision) (RiskPlan.take_profit risk)
             && opt_deqb (SnapshotDecisionEvidence.stop_loss decision) (RiskPlan.stop_loss risk)
             && opt_deqb (SnapshotDecisionEvidence.risk_reward decision) (RiskPlan.risk_reward risk)
         | None => false
         end).

Definition _validate_point_in_time_evidence (cutoff : datetime) : bool :=
  _reject_datetime_after_cutoff cutoff (AnalysisSnapshotPayloadV2.market_data payload)
  && _reject_datetime_after_cutoff cutoff (AnalysisSnapshotPayloadV2.indicators payload)
  && _reject_datetime_after_cutoff cutoff market_structure
  && _reject_datetime_after_cutoff cutoff smc_ict
  && _reject_datetime_after_cutoff cutoff (AnalysisSnapshotPayloadV2.multi_timeframe payload)
  && _reject_datetime_after_cutoff cutoff (AnalysisSnapshotPayloadV2.signal_score payload)
  && _reject_datetime_after_cutoff cutoff (AnalysisSnapshotPayloadV2.risk payload)
  && _validate_result_cutoffs cutoff && _validate_structure_semantics && _validate_liquidity_semantics && _validate_fvg_semantics
  && _validate_order_block_semantics && _validate_mtf_semantics cutoff && _validate_score_references && _validate_risk_references
  && _validate_decision_consistency.
End checks.

(** ** The snapshot *)

Module AnalysisSnapshot.
Record AnalysisSnapshot := mkAnalysisSnapshot {
  captured_at : datetime;
  data_cutoff_at : datetime;
  payload : AnalysisSnapshotPayloadV2
}.
(** The payload is parsed again before the checks: what it is made of has been
    validated already. *)
Definition normalize_and_validate_point_in_time (s : AnalysisSnapshot) : bool :=
  let p := payload s in
  negb (captured_at s <? data_cutoff_at s)
  && (AnalysisSnapshotPayloadV2.as_of p =? captured_at s)
  && (SnapshotMarketDataEvidence.data_cutoff_at (AnalysisSnapshotPayloadV2.market_data p) =? data_cutoff_at s)
  && (SnapshotDecisionEvidence.evidence_cutoff_at (AnalysisSnapshotPayloadV2.decision p) =? data_cutoff_at s)
  && (SnapshotDecisionEvidence.decision_at (AnalysisSnapshotPayloadV2.decision p) =? captured_at s)
  && _validate_point_in_time_evidence p (data_cutoff_at s).
End AnalysisSnapshot.
Abbreviation AnalysisSnapshot := AnalysisSnapshot.AnalysisSnapshot.

(** ** The builder *)

Section builder.
Context (strategy_config : StrategyConfig) (expected_identity : StrategyIdentity).

Definition build_error {A} (message : string) : pyres A := Raise (Exc "SnapshotBuildError" message).

(** The watermark of the source candles. *)
Definition source_series (source_timeframe : Timeframe) (source_candles : list Candle)
    : pyres (list (string * SnapshotCandleSeriesEvidence)) :=
  match head source_candles, list.last source_candles with
  | Some first, Some latest =>
      series ← validated SnapshotCandleSeriesEvidence.validate_series_bounds
        (SnapshotCandleSeriesEvidence.mkSnapshotCandleSeriesEvidence source_timeframe SnapshotSeriesSource.CANONICAL
           (length source_candles) (Candle.timestamp first) (Candle.timestamp latest)
           (Candle.timestamp latest + timeframe_duration source_timeframe));
      Ok [(timeframe_value source_timeframe, series)]
  | _, _ => Ok []
  end.

(** The smc_ict section. *)
Definition smc_ict_evidence (s : DeterministicSMCICTSnapshot) : SnapshotSMCICTEvidence :=
  SnapshotSMCICTEvidence.mkSnapshotSMCICTEvidence (DeterministicSMCICTSnapshot.liquidity s) (DeterministicSMCICTSnapshot.fvg s)
    (DeterministicSMCICTSnapshot.displacement s) (DeterministicSMCICTSnapshot.order_blocks s) (DeterministicSMCICTSnapshot.entry_setups s).

(** The decision, with the levels of the plan when it is a trade. *)
Definition decision_evidence (evaluation : DeterministicStrategyEvaluation) : SnapshotDecisionEvidence :=
  let plan := if bool_decide (DeterministicStrategyEvaluation.final_deterministic_decision evaluation = SignalDecision.NO_TRADE)
              then None else DeterministicStrategyEvaluation.risk_result evaluation in
  SnapshotDecisionEvidence.mkSnapshotDecisionEvidence (DeterministicStrategyEvaluation.final_deterministic_decision evaluation)
    (DeterministicStrategyEvaluation.candidate_direction evaluation) (DeterministicStrategyEvaluation.as_of evaluation)
    (DeterministicStrategyEvaluation.data_cutoff_at evaluation) (DeterministicStrategyEvaluation.score evaluation)
    (DeterministicStrategyEvaluation.score_breakdown evaluation) (plan ≫= RiskPlan.entry_zone) (plan ≫= RiskPlan.entry_reference)
    (plan ≫= RiskPlan.take_profit) (plan ≫= RiskPlan.stop_loss) (plan ≫= RiskPlan.risk_reward)
    (DeterministicStrategyEvaluation.reason_codes evaluation).

Definition score_section (score_evidence : option SignalScoreEvidence) (score_result : option SignalScoreResult)
    : pyres (option SnapshotSignalScoreEvidence) :=
  match score_evidence, score_result with
  | Some evidence, Some result =>
      section ← validated SnapshotSignalScoreEvidence.validate_score_times
        (SnapshotSignalScoreEvidence.mkSnapshotSignalScoreEvidence evidence result);
      Ok (Some section)
  | _, _ => Ok None
  end.

Definition build_analysis_snapshot (context : StrategyEvaluationContext) (evaluation : DeterministicStrategyEvaluation)
    (score_evidence : option SignalScoreEvidence) (score_result : option SignalScoreResult) : pyres AnalysisSnapshot :=
  let symbol := DeterministicStrategyEvaluation.symbol evaluation in
  let as_of := DeterministicStrategyEvaluation.as_of evaluation in
  let cutoff := DeterministicStrategyEvaluation.data_cutoff_at evaluation in
  let timeframe := DeterministicStrategyEvaluation.timeframe evaluation in
  if negb (bool_decide (StrategyEvaluationContext.symbol context = symbol)) || negb (StrategyEvaluationContext.as_of context =? as_of)
  then build_error "evaluation context identity does not match evaluation"
  else if negb (bool_decide (DeterministicStrategyEvaluation.strategy_identity evaluation = expected_identity))
  then build_error "evaluation strategy identity is not canonical"
  else
  pipeline ← match dict_get (StrategyConfig.pipelines strategy_config) symbol with
             | Some pipeline =>
                 if bool_decide (DeterministicStrategyPipelineConfig.signal_timeframe pipeline = timeframe) then Ok pipeline
                 else build_error "no canonical pipeline for snapshot evaluation"
             | None => build_error "no canonical pipeline for snapshot evaluation"
             end;
  if negb (Bool.eqb (is_some score_evidence) (is_some score_result))
  then build_error "score evidence and result must be supplied together"
  else
  let source_timeframe := MTFConfig.mtf_source_timeframe (DeterministicStrategyPipelineConfig.multi_timeframe pipeline) in
  series ← source_series source_timeframe (default [] (dict_get (StrategyEvaluationContext.candles_by_timeframe context) source_timeframe));
  let risk := DeterministicStrategyEvaluation.risk_result evaluation in
  if negb (bool_decide (DeterministicStrategyEvaluation.final_deterministic_decision evaluation = SignalDecision.NO_TRADE))
     && negb (is_some risk)
  then build_error "trade snapshot requires accepted risk output"
  else
  decision ← validated SnapshotDecisionEvidence.validate_decision (decision_evidence evaluation);
  market_data ← validated SnapshotMarketDataEvidence.validate_series_identity
    (SnapshotMarketDataEvidence.mkSnapshotMarketDataEvidence source_timeframe cutoff series);
  signal_score ← score_section score_evidence score_result;
  payload ← validated AnalysisSnapshotPayloadV2.freeze_typed_mappings
    (AnalysisSnapshotPayloadV2.mkAnalysisSnapshotPayloadV2 symbol timeframe as_of
       (DeterministicStrategyEvaluation.strategy_identity evaluation) market_data
       (DeterministicStrategyEvaluation.indicator_snapshot evaluation) (DeterministicStrategyEvaluation.market_structure_snapshot evaluation)
       (smc_ict_evidence <$> DeterministicStrategyEvaluation.smc_ict_snapshot evaluation)
       (DeterministicStrategyEvaluation.multi_timeframe_result evaluation) signal_score risk decision);
  validated AnalysisSnapshot.normalize_and_validate_point_in_time (AnalysisSnapshot.mkAnalysisSnapshot as_of cutoff payload).

(** ** The engine with its snapshots *)

(** Snapshots are compared field by field. *)
Context (payload_eqb : AnalysisSnapshotPayloadV2 -> AnalysisSnapshotPayloadV2 -> bool).

#[local] Instance analysis_snapshots : CandidateSnapshot AnalysisSnapshot := {
  snapshot_captured_at := AnalysisSnapshot.captured_at;
  snapshot_eqb := fun a b =>
    (AnalysisSnapshot.captured_at a =? AnalysisSnapshot.captured_at b)
    && (AnalysisSnapshot.data_cutoff_at a =? AnalysisSnapshot.data_cutoff_at b)
    && payload_eqb (AnalysisSnapshot.payload a) (AnalysisSnapshot.payload b)
}.

(** [ConcreteDeterministicStrategyEngine(config)] *)
Definition concrete_evaluate (context : StrategyEvaluationContext) : pyres (Output (Snapshot := AnalysisSnapshot)) :=
  snd (evaluate (fun context evaluation evidence result => build_analysis_snapshot context evaluation (Some evidence) (Some result))
         strategy_config expected_identity tt context).
End builder.

(** ** Reading a stored snapshot *)

(** [status.value] *)
Definition status_value (status : ZoneStatus) : string :=
  match status with
  | BlockStatus OrderBlockStatus.CANDIDATE | BreakerStatus BreakerBlockStatus.CANDIDATE => "CANDIDATE"
  | BlockStatus OrderBlockStatus.VALIDATED => "VALIDATED"
  | BlockStatus OrderBlockStatus.MITIGATED => "MITIGATED"
  | BlockStatus OrderBlockStatus.INVALIDATED | BreakerStatus BreakerBlockStatus.INVALIDATED => "INVALIDATED"
  | BlockStatus OrderBlockStatus.EXPIRED | BreakerStatus BreakerBlockStatus.EXPIRED => "EXPIRED"
  | BreakerStatus BreakerBlockStatus.ACTIVE => "ACTIVE"
  end.

(** A stored snapshot is JSON: a status is the text of its value, and pydantic
    parses it as a member of [OrderBlockStatus | BreakerBlockStatus]. All other
    fields have one type each, and are read back as they were. *)
Section stored.
Context (parse_status : string -> ZoneStatus).

Definition reload_event (event : OrderBlockLifecycleEvent) : OrderBlockLifecycleEvent :=
  let '(OrderBlockLifecycleEvent.mkOrderBlockLifecycleEvent event_id type zone_id bar_timestamp confirmed_at from_status to_status held) := event in
  OrderBlockLifecycleEvent.mkOrderBlockLifecycleEvent event_id type zone_id bar_timestamp confirmed_at
    ((fun status => parse_status (status_value status)) <$> from_status) (parse_status (status_value to_status)) held.

Definition reload_block (zone : OrderBlockZone) : OrderBlockZone :=
  let '(OrderBlockZone.mkOrderBlockZone zone_id direction index timestamp body_low body_high wick_low wick_high zone_low zone_high
          mean_threshold basis created_at validated_at mitigated_at invalidated_at status event broken displacement references breaker
          lifecycle) := zone in
  OrderBlockZone.mkOrderBlockZone zone_id direction index timestamp body_low body_high wick_low wick_high zone_low zone_high
    mean_threshold basis created_at validated_at mitigated_at invalidated_at status event broken displacement references breaker
    (map reload_event lifecycle).

Definition reload_breaker (zone : BreakerBlockZone) : BreakerBlockZone :=
  let '(BreakerBlockZone.mkBreakerBlockZone zone_id origin direction zone_low zone_high mean_threshold created_at activated_at
          invalidated_at status lifecycle) := zone in
  BreakerBlockZone.mkBreakerBlockZone zone_id origin direction zone_low zone_high mean_threshold created_at activated_at
    invalidated_at status (map reload_event lifecycle).

Definition reload_blocks (analysis : OrderBlockAnalysisResult) : OrderBlockAnalysisResult :=
  let '(OrderBlockAnalysisResult.mkOrderBlockAnalysisResult timeframe config count cutoff blocks breakers rejections) := analysis in
  OrderBlockAnalysisResult.mkOrderBlockAnalysisResult timeframe config count cutoff (map reload_block blocks) (map reload_breaker breakers)
    rejections.

Definition reload_setup (setup : CompositeEntrySetup) : CompositeEntrySetup :=
  let '(CompositeEntrySetup.mkCompositeEntrySetup setup_id status direction sweep mss leg gap block zone level retest confirmed_at reasons) :=
    setup in
  CompositeEntrySetup.mkCompositeEntrySetup setup_id status direction sweep mss leg gap (reload_block <$> block) zone level retest
    confirmed_at reasons.

Definition reload_setups (analysis : EntrySetupAnalysisResult) : EntrySetupAnalysisResult :=
  let '(EntrySetupAnalysisResult.mkEntrySetupAnalysisResult timeframe config count cutoff setups) := analysis in
  EntrySetupAnalysisResult.mkEntrySetupAnalysisResult timeframe config count cutoff (map reload_setup setups).

Definition reload_smc_ict (s : SnapshotSMCICTEvidence) : SnapshotSMCICTEvidence :=
  let '(SnapshotSMCICTEvidence.mkSnapshotSMCICTEvidence liquidity fvg displacement order_blocks entry_setups) := s in
  SnapshotSMCICTEvidence.mkSnapshotSMCICTEvidence liquidity fvg displacement (reload_blocks order_blocks) (reload_setups entry_setups).

Definition reload_payload (p : AnalysisSnapshotPayloadV2) : AnalysisSnapshotPayloadV2 :=
  let '(AnalysisSnapshotPayloadV2.mkAnalysisSnapshotPayloadV2 symbol timeframe as_of identity market_data indicators structure smc_ict mtf
          score risk decision) := p in
  AnalysisSnapshotPayloadV2.mkAnalysisSnapshotPayloadV2 symbol timeframe as_of identity market_data indicators structure
    (reload_smc_ict <$> smc_ict) mtf score risk decision.

(** [AnalysisSnapshot.model_validate(json)] *)
Definition read_stored (s : AnalysisSnapshot) : pyres AnalysisSnapshot :=
  validated AnalysisSnapshot.normalize_and_validate_point_in_time
    (AnalysisSnapshot.mkAnalysisSnapshot (AnalysisSnapshot.captured_at s) (AnalysisSnapshot.data_cutoff_at s)
       (reload_payload (AnalysisSnapshot.payload s))).
End stored.
