(* ===== verification/SnapshotsTheory.v ===== *)
(** Theorems on the analysis snapshots: a candidate can be audited from its
    snapshot, what the engines promise is what a snapshot asks of them, and
    when a stored snapshot can be read back. *)
From Stdlib Require Import ZArith QArith Lia Lqa.
From stdpp Require Import base list strings numbers.
From S2P Require Import Prelude Dict Decimal Time Candle Signal Indicators Structure Engine Fvg LiquidityTypes Displacement OrderBlocks Risk SetupTypes Crt Score MtfTypes Metrics Runner Strategy StrategyTheory Snapshots.
Local Open Scope Z_scope.

(** ** References *)

(** The identifier was known at [t]: something of the snapshot has it, and was
    available by then. *)
Definition known (p : AnalysisSnapshotPayloadV2) (id : string) (t : datetime) : Prop :=
  exists available_at, (id, available_at) ∈ source_entries p /\ available_at <= t.

(** A dictionary filled from a list holds the last value of every key. *)
Lemma fill_get {V} (entries d : list (string * V)) k :
  dict_get (foldl (fun d '(k, v) => dict_set d k v) d entries) k
  = match list.last (List.filter (fun '(k', _) => bool_decide (k' = k)) entries) with Some (_, v) => Some v | None => dict_get d k end.
Proof.
  induction entries as [|[k' v] entries IH] using rev_ind; [done|]. rewrite foldl_app, List.filter_app. cbn [foldl List.filter].
  rewrite dict_get_set. case_decide as E.
  - rewrite bool_decide_true by done. by rewrite last_snoc.
  - rewrite bool_decide_false by done. by rewrite app_nil_r.
Qed.

Lemma last_filter_elem {A} (P : A -> bool) (l : list A) x : list.last (List.filter P l) = Some x -> x ∈ l /\ P x = true.
Proof. intros Hx%last_Some_elem_of. by apply list_elem_of_In, filter_In in Hx as [Hx%list_elem_of_In HP]. Qed.

Lemma sources_known p id available_at t :
  dict_get (_available_source_times p) id = Some available_at -> available_at <= t -> known p id t.
Proof.
  unfold _available_source_times. rewrite fill_get. destruct (list.last _) as [[k v]|] eqn:E; [|done]. intros [= ->] Ht.
  apply last_filter_elem in E as [Hin Hk]. bool_hyps. subst k. by exists available_at.
Qed.

Lemma last_with_elem {A} (key : A -> string) items k x : last_with key items k = Some x -> x ∈ items /\ key x = k.
Proof. intros [Hin Hk]%last_filter_elem. by bool_hyps. Qed.

(** ** What a valid snapshot supports *)

(** Every instant of the evidence. *)
Definition evidence_times (p : AnalysisSnapshotPayloadV2) : list datetime :=
  times (AnalysisSnapshotPayloadV2.market_data p) ++ times (AnalysisSnapshotPayloadV2.indicators p)
  ++ times (AnalysisSnapshotPayloadV2.market_structure p) ++ times (AnalysisSnapshotPayloadV2.smc_ict p)
  ++ times (AnalysisSnapshotPayloadV2.multi_timeframe p) ++ times (AnalysisSnapshotPayloadV2.signal_score p)
  ++ times (AnalysisSnapshotPayloadV2.risk p).

(** Nothing the snapshot shows was known only after [t]: what the structure of
    every timeframe confirmed, the pools with their histories and interactions,
    the gap zones, the legs, the order blocks and breaker blocks with their
    lifecycles, the setups, the indicator points, the evidence of the score, and
    the decisions of the other sections. *)
Record nothing_later (t : datetime) (p : AnalysisSnapshotPayloadV2) : Prop := {
  nl_series key s : (key, s) ∈ SnapshotMarketDataEvidence.series (AnalysisSnapshotPayloadV2.market_data p) ->
    SnapshotCandleSeriesEvidence.last_candle_close_at s <= t;
  nl_macd a point : AnalysisSnapshotPayloadV2.indicators p = Some a -> point ∈ MACDResult.points (IndicatorAnalysis.macd a) ->
    MACDPoint.timestamp point <= t;
  nl_atr a point : AnalysisSnapshotPayloadV2.indicators p = Some a -> point ∈ ATRResult.points (IndicatorAnalysis.atr a) ->
    ATRPoint.timestamp point <= t;
  nl_swing key r s : (key, r) ∈ AnalysisSnapshotPayloadV2.market_structure p -> s ∈ MarketStructureResult.confirmed_swings r ->
    ConfirmedSwing.confirmed_at s <= t;
  nl_break key r e : (key, r) ∈ AnalysisSnapshotPayloadV2.market_structure p -> e ∈ MarketStructureResult.structure_events r ->
    StructureBreakEvent.confirmed_at e <= t;
  nl_pool s pool : AnalysisSnapshotPayloadV2.smc_ict p = Some s -> pool ∈ LiquidityAnalysisResult.pools (SnapshotSMCICTEvidence.liquidity s) ->
    LiquidityPool.created_at pool <= t /\ LiquidityPool.updated_at pool <= t
    /\ (forall swept, LiquidityPool.swept_at pool = Some swept -> swept <= t)
    /\ (forall h, h ∈ LiquidityPool.history pool -> LiquidityPoolHistoryEntry.available_at h <= t)
    /\ (forall i, i ∈ LiquidityPool.interactions pool -> LiquidityInteraction.confirmed_at i <= t);
  nl_interaction s i : AnalysisSnapshotPayloadV2.smc_ict p = Some s ->
    i ∈ LiquidityAnalysisResult.interactions (SnapshotSMCICTEvidence.liquidity s) -> LiquidityInteraction.confirmed_at i <= t;
  nl_zone s z : AnalysisSnapshotPayloadV2.smc_ict p = Some s -> z ∈ FVGAnalysisResult.zones (SnapshotSMCICTEvidence.fvg s) ->
    GapZone.confirmed_at z <= t /\ GapZone.last_updated_at z <= t
    /\ (forall e, e ∈ GapZone.lifecycle z -> GapLifecycleEvent.occurred_at e <= t);
  nl_leg s l : AnalysisSnapshotPayloadV2.smc_ict p = Some s -> l ∈ DisplacementAnalysisResult.legs (SnapshotSMCICTEvidence.displacement s) ->
    DisplacementLeg.confirmed_at l <= t;
  nl_block s z : AnalysisSnapshotPayloadV2.smc_ict p = Some s ->
    z ∈ OrderBlockAnalysisResult.order_blocks (SnapshotSMCICTEvidence.order_blocks s) ->
    OrderBlockZone.created_at z <= t /\ (forall e, e ∈ OrderBlockZone.lifecycle z -> OrderBlockLifecycleEvent.confirmed_at e <= t);
  nl_breaker s z : AnalysisSnapshotPayloadV2.smc_ict p = Some s ->
    z ∈ OrderBlockAnalysisResult.breaker_blocks (SnapshotSMCICTEvidence.order_blocks s) ->
    BreakerBlockZone.created_at z <= t /\ (forall e, e ∈ BreakerBlockZone.lifecycle z -> OrderBlockLifecycleEvent.confirmed_at e <= t);
  nl_setup s setup : AnalysisSnapshotPayloadV2.smc_ict p = Some s ->
    setup ∈ EntrySetupAnalysisResult.setups (SnapshotSMCICTEvidence.entry_setups s) ->
    CompositeEntrySetup.confirmed_at setup <= t
    /\ (forall retest, CompositeEntrySetup.retest_timestamp setup = Some retest -> retest <= t);
  nl_mtf mtf : AnalysisSnapshotPayloadV2.multi_timeframe p = Some mtf -> MTFAnalysisResult.decision_time mtf <= t;
  nl_score score component e : AnalysisSnapshotPayloadV2.signal_score p = Some score ->
    SignalScoreEvidence.components (SnapshotSignalScoreEvidence.evidence score) component = Some e ->
    SignalComponentEvidence.confirmed_at e <= t;
  nl_risk plan : AnalysisSnapshotPayloadV2.risk p = Some plan -> RiskPlan.decision_time plan <= t
}.

(** Every contribution to the score has evidence, and all evidence was known
    when it was confirmed. *)
Definition score_supported (p : AnalysisSnapshotPayloadV2) (score : SnapshotSignalScoreEvidence) : Prop :=
  let components := SignalScoreEvidence.components (SnapshotSignalScoreEvidence.evidence score) in
  (forall component contribution, (component, contribution) ∈ SignalScoreResult.score_breakdown (SnapshotSignalScoreEvidence.result score) ->
     contribution <> 0 -> exists e, components component = Some e)
  /\ forall component e id, components component = Some e -> id ∈ SignalComponentEvidence.source_ids e ->
       known p id (SignalComponentEvidence.confirmed_at e).

(** The plan rests on a setup, whose level is the base of the stop, and on an
    active pool, whose near side is the base of the target. *)
Definition plan_supported (s : SnapshotSMCICTEvidence) (plan : RiskPlan) : Prop :=
  exists metadata setup pool level, RiskPlan.selection_metadata plan = Some metadata
    /\ setup ∈ EntrySetupAnalysisResult.setups (SnapshotSMCICTEvidence.entry_setups s)
    /\ CompositeEntrySetup.setup_id setup = RiskPlan.candidate_id plan
    /\ CompositeEntrySetup.confirmed_at setup <= RiskPlan.decision_time plan
    /\ CompositeEntrySetup.invalidation_level setup = Some level
    /\ (Qval (RiskSelectionMetadata.stop_structural_level metadata) == Qval level)%Q
    /\ pool ∈ LiquidityAnalysisResult.pools (SnapshotSMCICTEvidence.liquidity s)
    /\ LiquidityPool.pool_id pool = RiskSelectionMetadata.target_source_id metadata
    /\ LiquidityPool.state pool = LiquidityPoolState.ACTIVE /\ LiquidityPool.updated_at pool <= RiskPlan.decision_time plan
    /\ (Qval (RiskSelectionMetadata.target_raw_level metadata)
        == Qval (match RiskPlan.decision plan with RiskDecision.LONG => LiquidityPool.lower_bound pool | _ => LiquidityPool.upper_bound pool end))%Q.

Lemma members_all component : component ∈ SignalScoreComponent.members.
Proof. apply (bool_decide_unpack _). by destruct component. Qed.

Lemma not_after_cutoff {A} `{Times A} cutoff (section : A) :
  _reject_datetime_after_cutoff cutoff section = true -> Forall (fun t => t <= cutoff) (times section).
Proof.
  unfold _reject_datetime_after_cutoff. rewrite forallb_forall. intros Ht. apply List.Forall_forall. intros t Hin.
  specialize (Ht t Hin). bool_hyps. lia.
Qed.

Lemma score_references_ok p score : AnalysisSnapshotPayloadV2.signal_score p = Some score ->
  _validate_score_references p = true -> score_supported p score.
Proof.
  unfold _validate_score_references. intros -> [Hb Hc]%andb_true_iff. rewrite forallb_forall in Hb, Hc. split.
  - intros component contribution Hin Hn. specialize (Hb _ (proj1 (list_elem_of_In _ _) Hin)). cbn in Hb.
    apply orb_true_iff in Hb as [Hb|Hb]; [lia|]. destruct (SignalScoreEvidence.components _ component); [eauto|done].
  - intros component e id He Hid. assert (e ∈ omap (M := list) (SignalScoreEvidence.components (SnapshotSignalScoreEvidence.evidence score))
      SignalScoreComponent.members) as Hin by (apply list_elem_of_omap; exists component; split; [apply members_all|done]).
    specialize (Hc _ (proj1 (list_elem_of_In _ _) Hin)). rewrite forallb_forall in Hc.
    specialize (Hc _ (proj1 (list_elem_of_In _ _) Hid)). destruct (dict_get _ id) as [t|] eqn:Ed; [|done]. bool_hyps.
    eapply sources_known; [exact Ed|lia].
Qed.

Lemma risk_references_ok p plan : AnalysisSnapshotPayloadV2.risk p = Some plan -> RiskPlan.decision plan <> RiskDecision.NO_TRADE ->
  _validate_risk_references p = true -> exists s, AnalysisSnapshotPayloadV2.smc_ict p = Some s /\ plan_supported s plan.
Proof.
  unfold _validate_risk_references. intros -> Hd. rewrite bool_decide_false by done.
  destruct (AnalysisSnapshotPayloadV2.smc_ict p) as [s|]; [|done].
  destruct (RiskPlan.selection_metadata plan) as [metadata|] eqn:Em; [|done].
  destruct (last_with CompositeEntrySetup.setup_id _ _) as [setup|] eqn:Es; [|done].
  destruct (last_with LiquidityPool.pool_id _ _) as [pool|] eqn:Ep; [|done]. intros Hv. bool_hyps.
  apply last_with_elem in Es as [Hs Hsid]. apply last_with_elem in Ep as [Hp Hpid].
  destruct (CompositeEntrySetup.invalidation_level setup) as [level|] eqn:El; [|done]. cbn [opt_deqb] in *.
  exists s. split; [done|]. exists metadata, setup, pool, level.
  repeat match goal with H : deqb _ _ = true |- _ => apply deqb_true in H end.
  split_and!; try done; try lia.
  match goal with H : (Qval (RiskSelectionMetadata.target_raw_level _) == _)%Q |- _ => rewrite H end.
  case_bool_decide as Hl; [by rewrite Hl|]. by destruct (RiskPlan.decision plan).
Qed.

Lemma valid_times p cutoff : _validate_point_in_time_evidence p cutoff = true -> Forall (fun t => t <= cutoff) (evidence_times p).
Proof.
  unfold _validate_point_in_time_evidence, evidence_times. intros Hv. bool_hyps.
  rewrite !Forall_app. split_and!; by apply not_after_cutoff.
Qed.

Lemma times_list {A} `{Times A} (P : datetime -> Prop) (l : list A) x : Forall P (times l) -> x ∈ l -> Forall P (times x).
Proof.
  unfold times at 1, list_times. rewrite !List.Forall_forall. intros Hl Hx t Ht. apply Hl, in_flat_map.
  exists x. by rewrite <- list_elem_of_In.
Qed.

Lemma times_entry {K A} `{Times A} (P : datetime -> Prop) (l : list (K * A)) k x :
  Forall P (times l) -> (k, x) ∈ l -> Forall P (times x).
Proof. intros Hl Hx. exact (times_list P l (k, x) Hl Hx). Qed.

Lemma times_some {A} `{Times A} (P : datetime -> Prop) (o : option A) x : Forall P (times o) -> o = Some x -> Forall P (times x).
Proof. by intros Ho ->. Qed.

Lemma times_instant t (o : option datetime) x : Forall (fun y => y <= t) (times o) -> o = Some x -> x <= t.
Proof. intros Ho Hx. exact (List.Forall_inv (times_some _ _ _ Ho Hx)). Qed.

(** The instants of a record, one after the other. *)
Ltac split_times H := rewrite ?Forall_app, ?list.Forall_cons in H; destruct_and? H.

Lemma pool_known t (pool : LiquidityPool) : Forall (fun x => x <= t) (times pool) ->
  LiquidityPool.created_at pool <= t /\ LiquidityPool.updated_at pool <= t
  /\ (forall swept, LiquidityPool.swept_at pool = Some swept -> swept <= t)
  /\ (forall h, h ∈ LiquidityPool.history pool -> LiquidityPoolHistoryEntry.available_at h <= t)
  /\ (forall i, i ∈ LiquidityPool.interactions pool -> LiquidityInteraction.confirmed_at i <= t).
Proof.
  unfold times at 1, LiquidityPool_times. intros Hp. split_times Hp. split_and!; try done.
  - intros swept Hsw. by eapply times_instant.
  - intros h Hh. match goal with H : Forall _ (times (LiquidityPool.history _)) |- _ => pose proof (times_list _ _ _ H Hh) as Hx end.
    unfold times at 1, LiquidityPoolHistoryEntry_times in Hx. by split_times Hx.
  - intros i Hin. match goal with H : Forall _ (times (LiquidityPool.interactions _)) |- _ => pose proof (times_list _ _ _ H Hin) as Hx end.
    unfold times at 1, LiquidityInteraction_times in Hx. by split_times Hx.
Qed.

Lemma events_known t (lifecycle : list OrderBlockLifecycleEvent) : Forall (fun x => x <= t) (times lifecycle) ->
  forall e, e ∈ lifecycle -> OrderBlockLifecycleEvent.confirmed_at e <= t.
Proof. intros Hl e He. pose proof (times_list _ _ _ Hl He) as Hx. unfold times, OrderBlockLifecycleEvent_times in Hx. by split_times Hx. Qed.

(** The instants of the evidence are those of [nothing_later] and more. *)
Lemma all_times_known t p : Forall (fun x => x <= t) (evidence_times p) -> nothing_later t p.
Proof.
  unfold evidence_times. rewrite !Forall_app. intros (Hm & Hi & Hst & Hsmc & Hmtf & Hsc & Hr).
  assert (forall s, AnalysisSnapshotPayloadV2.smc_ict p = Some s -> Forall (fun x => x <= t) (times (SnapshotSMCICTEvidence.liquidity s))
    /\ Forall (fun x => x <= t) (times (SnapshotSMCICTEvidence.fvg s)) /\ Forall (fun x => x <= t) (times (SnapshotSMCICTEvidence.displacement s))
    /\ Forall (fun x => x <= t) (times (SnapshotSMCICTEvidence.order_blocks s)) /\ Forall (fun x => x <= t) (times (SnapshotSMCICTEvidence.entry_setups s))) as Hs.
  { intros s E. pose proof (times_some _ _ _ Hsmc E) as Hx. unfold times at 1, SnapshotSMCICTEvidence_times in Hx. by rewrite !Forall_app in Hx. }
  clear Hsmc. constructor.
  - intros key s Hin. unfold times at 1, SnapshotMarketDataEvidence_times in Hm. split_times Hm.
    match goal with H : Forall _ (times (SnapshotMarketDataEvidence.series _)) |- _ => pose proof (times_entry _ _ _ _ H Hin) as Hx end.
    unfold times, SnapshotCandleSeriesEvidence_times in Hx. by split_times Hx.
  - intros a point E Hin. pose proof (times_some _ _ _ Hi E) as Ha. unfold times at 1, IndicatorAnalysis_times in Ha. split_times Ha.
    match goal with H : Forall _ (times (MACDResult.points _)) |- _ => exact (List.Forall_inv (times_list _ _ _ H Hin)) end.
  - intros a point E Hin. pose proof (times_some _ _ _ Hi E) as Ha. unfold times at 1, IndicatorAnalysis_times in Ha. split_times Ha.
    match goal with H : Forall _ (times (ATRResult.points _)) |- _ => exact (List.Forall_inv (times_list _ _ _ H Hin)) end.
  - intros key r s Hin Hs'. pose proof (times_entry _ _ _ _ Hst Hin) as Hx. unfold times at 1, MarketStructureResult_times in Hx. split_times Hx.
    match goal with H : Forall _ (times (MarketStructureResult.confirmed_swings _)) |- _ => pose proof (times_list _ _ _ H Hs') as Hy end.
    unfold times at 1, ConfirmedSwing_times in Hy. by split_times Hy.
  - intros key r s Hin Hs'. pose proof (times_entry _ _ _ _ Hst Hin) as Hx. unfold times at 1, MarketStructureResult_times in Hx. split_times Hx.
    match goal with H : Forall _ (times (MarketStructureResult.structure_events _)) |- _ => pose proof (times_list _ _ _ H Hs') as Hy end.
    unfold times at 1, StructureBreakEvent_times in Hy. by split_times Hy.
  - intros s pool E Hin. destruct (Hs s E) as (Hx & _). unfold times at 1, LiquidityAnalysisResult_times in Hx. split_times Hx.
    match goal with H : Forall _ (times (LiquidityAnalysisResult.pools _)) |- _ => apply pool_known, (times_list _ _ _ H Hin) end.
  - intros s i E Hin. destruct (Hs s E) as (Hx & _). unfold times at 1, LiquidityAnalysisResult_times in Hx. split_times Hx.
    match goal with H : Forall _ (times (LiquidityAnalysisResult.interactions _)) |- _ => pose proof (times_list _ _ _ H Hin) as Hy end.
    unfold times at 1, LiquidityInteraction_times in Hy. by split_times Hy.
  - intros s z E Hin. destruct (Hs s E) as (_ & Hx & _). unfold times at 1, FVGAnalysisResult_times in Hx. split_times Hx.
    match goal with H : Forall _ (times (FVGAnalysisResult.zones _)) |- _ => pose proof (times_list _ _ _ H Hin) as Hy end.
    unfold times at 1, GapZone_times in Hy. split_times Hy. split_and!; try done. intros e He.
    match goal with H : Forall _ (times (GapZone.lifecycle _)) |- _ => pose proof (times_list _ _ _ H He) as Hw end.
    unfold times, GapLifecycleEvent_times in Hw. by split_times Hw.
  - intros s l E Hin. destruct (Hs s E) as (_ & _ & Hx & _). unfold times at 1, DisplacementAnalysisResult_times in Hx. split_times Hx.
    match goal with H : Forall _ (times (DisplacementAnalysisResult.legs _)) |- _ => pose proof (times_list _ _ _ H Hin) as Hy end.
    unfold times, DisplacementLeg_times in Hy. by split_times Hy.
  - intros s z E Hin. destruct (Hs s E) as (_ & _ & _ & Hx & _). unfold times at 1, OrderBlockAnalysisResult_times in Hx. split_times Hx.
    match goal with H : Forall _ (times (OrderBlockAnalysisResult.order_blocks _)) |- _ => pose proof (times_list _ _ _ H Hin) as Hy end.
    unfold times at 1, OrderBlockZone_times in Hy. split_times Hy. split; [done|by apply events_known].
  - intros s z E Hin. destruct (Hs s E) as (_ & _ & _ & Hx & _). unfold times at 1, OrderBlockAnalysisResult_times in Hx. split_times Hx.
    match goal with H : Forall _ (times (OrderBlockAnalysisResult.breaker_blocks _)) |- _ => pose proof (times_list _ _ _ H Hin) as Hy end.
    unfold times at 1, BreakerBlockZone_times in Hy. split_times Hy. split; [done|by apply events_known].
  - intros s setup E Hin. destruct (Hs s E) as (_ & _ & _ & _ & Hx). unfold times at 1, EntrySetupAnalysisResult_times in Hx. split_times Hx.
    match goal with H : Forall _ (times (EntrySetupAnalysisResult.setups _)) |- _ => pose proof (times_list _ _ _ H Hin) as Hy end.
    unfold times at 1, CompositeEntrySetup_times in Hy. split_times Hy. split; [done|]. intros retest Hre. by eapply times_instant.
  - intros mtf E. pose proof (times_some _ _ _ Hmtf E) as Hx. unfold times at 1, MTFAnalysisResult_times in Hx. by split_times Hx.
  - intros score component e E He. pose proof (times_some _ _ _ Hsc E) as Hx. unfold times at 1, SnapshotSignalScoreEvidence_times in Hx.
    split_times Hx. match goal with H : Forall _ (times (SnapshotSignalScoreEvidence.evidence _)) |- _ => rename H into Hy end.
    unfold times at 1, SignalScoreEvidence_times in Hy. split_times Hy.
    match goal with H : Forall _ (times (omap _ _)) |- _ => eapply times_list in H end.
    2: { apply list_elem_of_omap. exists component. split; [apply members_all|exact He]. }
    match goal with H : Forall _ (times e) |- _ => exact (List.Forall_inv H) end.
  - intros plan E. exact (List.Forall_inv (times_some _ _ _ Hr E)).
Qed.

Lemma snapshot_supported snapshot plan score :
  let p := AnalysisSnapshot.payload snapshot in
  AnalysisSnapshot.normalize_and_validate_point_in_time snapshot = true ->
  AnalysisSnapshotPayloadV2.risk p = Some plan -> RiskPlan.decision plan <> RiskDecision.NO_TRADE ->
  AnalysisSnapshotPayloadV2.signal_score p = Some score ->
  Forall (fun t => t <= AnalysisSnapshot.data_cutoff_at snapshot) (evidence_times p)
  /\ nothing_later (AnalysisSnapshot.data_cutoff_at snapshot) p /\ score_supported p score
  /\ exists s, AnalysisSnapshotPayloadV2.smc_ict p = Some s /\ plan_supported s plan.
Proof.
  intros p Hv Hplan Hd Hs. unfold AnalysisSnapshot.normalize_and_validate_point_in_time in Hv. fold p in Hv. bool_hyps.
  match goal with H : _validate_point_in_time_evidence _ _ = true |- _ => rename H into He end.
  split; [by apply valid_times|]. split; [by apply all_times_known, valid_times|]. unfold _validate_point_in_time_evidence in He. bool_hyps.
  split; [by apply score_references_ok|by apply risk_references_ok].
Qed.

(** ** What the builder builds *)

Lemma score_section_some evidence result section :
  score_section (Some evidence) (Some result) = Ok section
  <-> SignalScoreEvidence.decision_time evidence = SignalScoreResult.decision_time result
      /\ section = Some (SnapshotSignalScoreEvidence.mkSnapshotSignalScoreEvidence evidence result).
Proof.
  unfold score_section, validated, SnapshotSignalScoreEvidence.validate_score_times.
  cbn [SnapshotSignalScoreEvidence.evidence SnapshotSignalScoreEvidence.result].
  destruct (Z.eqb_spec (SignalScoreEvidence.decision_time evidence) (SignalScoreResult.decision_time result)); naive_solver.
Qed.

(** A built snapshot: the sections of the evaluation, and the checks passed. *)
Lemma build_inv strategy_config identity context evaluation evidence result snapshot :
  build_analysis_snapshot strategy_config identity context evaluation (Some evidence) (Some result) = Ok snapshot ->
  exists market_data, snapshot = AnalysisSnapshot.mkAnalysisSnapshot (DeterministicStrategyEvaluation.as_of evaluation)
      (DeterministicStrategyEvaluation.data_cutoff_at evaluation)
      (AnalysisSnapshotPayloadV2.mkAnalysisSnapshotPayloadV2 (DeterministicStrategyEvaluation.symbol evaluation)
         (DeterministicStrategyEvaluation.timeframe evaluation) (DeterministicStrategyEvaluation.as_of evaluation)
         (DeterministicStrategyEvaluation.strategy_identity evaluation) market_data
         (DeterministicStrategyEvaluation.indicator_snapshot evaluation) (DeterministicStrategyEvaluation.market_structure_snapshot evaluation)
         (smc_ict_evidence <$> DeterministicStrategyEvaluation.smc_ict_snapshot evaluation)
         (DeterministicStrategyEvaluation.multi_timeframe_result evaluation)
         (Some (SnapshotSignalScoreEvidence.mkSnapshotSignalScoreEvidence evidence result))
         (DeterministicStrategyEvaluation.risk_result evaluation) (decision_evidence evaluation))
    /\ AnalysisSnapshot.normalize_and_validate_point_in_time snapshot = true.
Proof.
  unfold build_analysis_snapshot. intros Hb. destruct (_ || _); [done|]. destruct (negb (bool_decide _)); [done|].
  apply bind_ok in Hb as (pipeline & _ & Hb). cbn [is_some Bool.eqb negb] in Hb.
  apply bind_ok in Hb as (series & _ & Hb). destruct (negb _ && negb _); [done|].
  apply bind_ok in Hb as (decision & [_ <-]%validated_ok & Hb). apply bind_ok in Hb as (market_data & _ & Hb).
  apply bind_ok in Hb as (section & [_ ->]%score_section_some & Hb). apply bind_ok in Hb as (payload & [_ <-]%validated_ok & Hb).
  apply validated_ok in Hb as [Hv <-]. by exists market_data.
Qed.

Section concrete.
Context (strategy_config : StrategyConfig) (identity : StrategyIdentity)
        (payload_eqb : AnalysisSnapshotPayloadV2 -> AnalysisSnapshotPayloadV2 -> bool).
#[local] Instance snapshots : CandidateSnapshot AnalysisSnapshot := analysis_snapshots payload_eqb.

Abbreviation build := (fun context evaluation evidence result =>
  build_analysis_snapshot strategy_config identity context evaluation (Some evidence) (Some result)).

Lemma concrete_run context output : concrete_evaluate strategy_config identity payload_eqb context = Ok output ->
  evaluate build strategy_config identity tt context = (tt, Ok output).
Proof. unfold concrete_evaluate. destruct (evaluate _ _ _ _ _) as [[] result]. cbn [snd]. by intros ->. Qed.

End concrete.

(** ** Reading a stored snapshot back *)

Lemma times_map {A} `{Times A} (f : A -> A) (l : list A) : (forall x, times (f x) = times x) -> times (map f l) = times l.
Proof. intros Hf. unfold times, list_times. induction l as [|x l IH]; [done|]. cbn [map flat_map]. by rewrite Hf, IH. Qed.

Lemma times_fmap {A} `{Times A} (f : A -> A) (o : option A) : (forall x, times (f x) = times x) -> times (f <$> o) = times o.
Proof. intros Hf. destruct o; [apply Hf|done]. Qed.

Lemma last_with_map {A} (key : A -> string) (f : A -> A) items k : (forall x, key (f x) = key x) ->
  last_with key (map f items) k = f <$> last_with key items k.
Proof.
  intros Hf. unfold last_with. rewrite <- fmap_last. f_equal. induction items as [|x items IH]; [done|]. cbn [map List.filter].
  rewrite Hf, IH. by destruct (bool_decide _).
Qed.

Lemma head_map {A B} (f : A -> B) (l : list A) : head (map f l) = f <$> head l.
Proof. by destruct l. Qed.

Lemma map_last {A B} (f : A -> B) (l : list A) : list.last (map f l) = f <$> list.last l.
Proof. apply (fmap_last f). Qed.

Lemma map_reload {A B} (g : A -> B) (f : A -> A) (l : list A) : (forall x, g (f x) = g x) -> map g (map f l) = map g l.
Proof. intros Hf. rewrite map_map. by apply map_ext. Qed.

Lemma forallb_reload {A} (g : A -> bool) (f : A -> A) (l : list A) : (forall x, g (f x) = g x) -> forallb g (map f l) = forallb g l.
Proof. intros Hf. induction l as [|x l IH]; [done|]. cbn [map forallb]. by rewrite Hf, IH. Qed.

Section stored.
Context (parse_status : string -> ZoneStatus).

Abbreviation reload_event := (reload_event parse_status).
Abbreviation reload_block := (reload_block parse_status).
Abbreviation reload_breaker := (reload_breaker parse_status).
Abbreviation reload_setup := (reload_setup parse_status).
Abbreviation reload_payload := (reload_payload parse_status).

Lemma event_times z : times (reload_event z) = times z.
Proof. by destruct z. Qed.
Lemma block_times z : times (reload_block z) = times z.
Proof.
  destruct z. unfold times, OrderBlockZone_times. cbn [Snapshots.reload_block OrderBlockZone.origin_candle_timestamp OrderBlockZone.created_at
    OrderBlockZone.validated_at OrderBlockZone.mitigated_at OrderBlockZone.invalidated_at OrderBlockZone.lifecycle].
  by rewrite (times_map reload_event) by apply event_times.
Qed.
Lemma breaker_times z : times (reload_breaker z) = times z.
Proof.
  destruct z. unfold times, BreakerBlockZone_times. cbn [Snapshots.reload_breaker BreakerBlockZone.created_at BreakerBlockZone.activated_at
    BreakerBlockZone.invalidated_at BreakerBlockZone.lifecycle]. by rewrite (times_map reload_event) by apply event_times.
Qed.
Lemma setup_times s : times (reload_setup s) = times s.
Proof.
  destruct s. unfold times, CompositeEntrySetup_times. cbn [Snapshots.reload_setup CompositeEntrySetup.liquidity_event
    CompositeEntrySetup.structure_event CompositeEntrySetup.displacement_event CompositeEntrySetup.fvg CompositeEntrySetup.order_block
    CompositeEntrySetup.retest_timestamp CompositeEntrySetup.confirmed_at]. by rewrite (times_fmap reload_block) by apply block_times.
Qed.
Lemma blocks_times a : times (reload_blocks parse_status a) = times a.
Proof.
  destruct a. unfold times, OrderBlockAnalysisResult_times. cbn [reload_blocks OrderBlockAnalysisResult.data_cutoff_at
    OrderBlockAnalysisResult.order_blocks OrderBlockAnalysisResult.breaker_blocks OrderBlockAnalysisResult.rejections].
  by rewrite (times_map reload_block), (times_map reload_breaker) by (apply block_times || apply breaker_times).
Qed.
Lemma smc_ict_times s : times (reload_smc_ict parse_status s) = times s.
Proof.
  destruct s as [l f d b e]. unfold times, SnapshotSMCICTEvidence_times. cbn [reload_smc_ict SnapshotSMCICTEvidence.liquidity
    SnapshotSMCICTEvidence.fvg SnapshotSMCICTEvidence.displacement SnapshotSMCICTEvidence.order_blocks SnapshotSMCICTEvidence.entry_setups].
  rewrite blocks_times. do 4 f_equal. destruct e. unfold times, EntrySetupAnalysisResult_times.
  cbn [reload_setups EntrySetupAnalysisResult.data_cutoff_at EntrySetupAnalysisResult.setups].
  by rewrite (times_map reload_setup) by apply setup_times.
Qed.

Ltac event_fields := cbn [OrderBlockLifecycleEvent.type OrderBlockLifecycleEvent.confirmed_at OrderBlockLifecycleEvent.to_status] in *.

Lemma reload_event_time type lifecycle : event_time type (map reload_event lifecycle) = event_time type lifecycle.
Proof.
  unfold event_time. induction lifecycle as [|e l IH] using rev_ind; [done|]. rewrite map_app, !List.filter_app. cbn [map List.filter].
  assert (OrderBlockLifecycleEvent.type (reload_event e) = OrderBlockLifecycleEvent.type e) as -> by by destruct e.
  case_bool_decide; [rewrite !last_snoc; by destruct e|]. by rewrite !app_nil_r.
Qed.

(** The documented order of the union: a text that is a value of the first
    enumeration is parsed as its member, and only other texts reach the
    second. *)
Hypothesis Hblock : forall status, parse_status (status_value (BlockStatus status)) = BlockStatus status.
Hypothesis Hactive : parse_status "ACTIVE" = BreakerStatus BreakerBlockStatus.ACTIVE.

Lemma parse_breaker status status' : parse_status (status_value (BreakerStatus status)) = BreakerStatus status'
  <-> status = BreakerBlockStatus.ACTIVE /\ status' = BreakerBlockStatus.ACTIVE.
Proof.
  pose proof (Hblock OrderBlockStatus.CANDIDATE) as H1. pose proof (Hblock OrderBlockStatus.INVALIDATED) as H2.
  pose proof (Hblock OrderBlockStatus.EXPIRED) as H3. cbn in H1, H2, H3. destruct status; cbn; rewrite ?H1, ?H2, ?H3, ?Hactive; naive_solver.
Qed.

Lemma parse_block status status' : parse_status (status_value status) = BlockStatus status' -> status = BlockStatus status' \/
  exists b, status = BreakerStatus b.
Proof. destruct status as [s|b]; [rewrite Hblock; naive_solver|eauto]. Qed.

Lemma block_consistent_reload ids zone : block_consistent ids zone = true -> block_consistent ids (reload_block zone) = true.
Proof.
  destruct zone. unfold block_consistent. cbn [Snapshots.reload_block OrderBlockZone.lifecycle OrderBlockZone.created_at OrderBlockZone.status
    OrderBlockZone.validated_at OrderBlockZone.mitigated_at OrderBlockZone.invalidated_at OrderBlockZone.breaker_zone_id].
  rewrite !reload_event_time. rewrite head_map, map_last. destruct (head lifecycle) as [first|]; [|done].
  destruct (list.last lifecycle) as [latest|]; [|done]. cbn [fmap option_fmap option_map].
  intros Hv. bool_hyps. destruct first, latest. unfold Snapshots.reload_event. event_fields.
  match goal with H : ?x = BlockStatus _ |- _ => rewrite H, Hblock end.
  repeat (apply andb_true_iff; split); try (by apply bool_decide_eq_true); try done. by apply negb_true_iff.
Qed.

Lemma breaker_consistent_reload ids breaker : breaker_consistent ids breaker = true ->
  breaker_consistent ids (reload_breaker breaker) = true <-> BreakerBlockZone.status breaker = BreakerBlockStatus.ACTIVE.
Proof.
  destruct breaker. unfold breaker_consistent. cbn [Snapshots.reload_breaker BreakerBlockZone.lifecycle BreakerBlockZone.created_at
    BreakerBlockZone.status BreakerBlockZone.activated_at BreakerBlockZone.invalidated_at BreakerBlockZone.origin_order_block_id].
  rewrite !reload_event_time. rewrite head_map, map_last. destruct (head lifecycle) as [first|]; [|by rewrite andb_false_r].
  destruct (list.last lifecycle) as [latest|]; [|by rewrite andb_false_r]. cbn [fmap option_fmap option_map].
  intros Hv. bool_hyps. destruct first, latest. unfold Snapshots.reload_event. event_fields.
  match goal with H : ?x = BreakerStatus _ |- _ => rewrite H end. split.
  - intros Hr. bool_hyps. by match goal with H : parse_status _ = _ |- _ => apply parse_breaker in H as [-> _] end.
  - intros ->. cbn [status_value]. rewrite Hactive.
    repeat (apply andb_true_iff; split); try (by apply bool_decide_eq_true); done.
Qed.

Lemma reject_reload cutoff smc_ict :
  _reject_datetime_after_cutoff cutoff (reload_smc_ict parse_status <$> smc_ict) = _reject_datetime_after_cutoff cutoff smc_ict.
Proof. unfold _reject_datetime_after_cutoff. by rewrite times_fmap by apply smc_ict_times. Qed.

Lemma result_cutoffs_reload p : result_cutoffs (reload_payload p) = result_cutoffs p.
Proof. by destruct p as [? ? ? ? ? ? ? [[? ? ? [] []]|] ? ? ? ?]. Qed.

Lemma liquidity_reload p : _validate_liquidity_semantics (reload_payload p) = _validate_liquidity_semantics p.
Proof. by destruct p as [? ? ? ? ? ? ? [[]|] ? ? ? ?]. Qed.

Lemma fvg_reload p : _validate_fvg_semantics (reload_payload p) = _validate_fvg_semantics p.
Proof. by destruct p as [? ? ? ? ? ? ? [[]|] ? ? ? ?]. Qed.

Lemma sources_reload p : source_entries (reload_payload p) = source_entries p.
Proof.
  destruct p as [? ? ? ? ? ? ? [[? ? ? [? ? ? ? blocks ? ?] ?]|] ? ? ? ?]; [|done]. unfold source_entries.
  cbn [Snapshots.reload_payload fmap option_fmap option_map AnalysisSnapshotPayloadV2.smc_ict reload_smc_ict reload_blocks
    SnapshotSMCICTEvidence.order_blocks OrderBlockAnalysisResult.order_blocks].
  rewrite map_reload by by intros []. done.
Qed.

Lemma score_reload p : _validate_score_references (reload_payload p) = _validate_score_references p.
Proof. unfold _validate_score_references, _available_source_times. rewrite sources_reload. by destruct p. Qed.

Lemma risk_reload p : _validate_risk_references (reload_payload p) = _validate_risk_references p.
Proof.
  destruct p as [? ? ? ? ? ? ? [[? ? ? ? [? ? ? ? setups]]|] ? ? plan ?]; [|done]. unfold _validate_risk_references.
  cbn [Snapshots.reload_payload fmap option_fmap option_map AnalysisSnapshotPayloadV2.smc_ict AnalysisSnapshotPayloadV2.risk reload_smc_ict
    reload_setups SnapshotSMCICTEvidence.entry_setups SnapshotSMCICTEvidence.liquidity EntrySetupAnalysisResult.setups].
  destruct plan as [plan|]; [|done]. rewrite last_with_map by by intros []. by destruct (last_with CompositeEntrySetup.setup_id _ _) as [[]|].
Qed.

(** Only the check of the lifecycles can change its mind. *)
Lemma evidence_reload p cutoff : _validate_point_in_time_evidence p cutoff = true ->
  _validate_point_in_time_evidence (reload_payload p) cutoff = _validate_order_block_semantics (reload_payload p).
Proof.
  intros Hv. unfold _validate_point_in_time_evidence in *.
  assert (AnalysisSnapshotPayloadV2.smc_ict (reload_payload p) = reload_smc_ict parse_status <$> AnalysisSnapshotPayloadV2.smc_ict p) as Es
    by by destruct p.
  assert (_validate_result_cutoffs (reload_payload p) cutoff = _validate_result_cutoffs p cutoff) as Ec
    by (unfold _validate_result_cutoffs; rewrite result_cutoffs_reload; by destruct p).
  rewrite Es, reject_reload, Ec, liquidity_reload, fvg_reload, score_reload, risk_reload. clear Es Ec. bool_hyps.
  assert (forall A (f : AnalysisSnapshotPayloadV2 -> A), (forall p', f (reload_payload p') = f p') -> f (reload_payload p) = f p) as Hf by auto.
  rewrite (Hf _ AnalysisSnapshotPayloadV2.market_data), (Hf _ AnalysisSnapshotPayloadV2.indicators),
    (Hf _ AnalysisSnapshotPayloadV2.market_structure), (Hf _ AnalysisSnapshotPayloadV2.multi_timeframe),
    (Hf _ AnalysisSnapshotPayloadV2.signal_score), (Hf _ AnalysisSnapshotPayloadV2.risk), (Hf _ _validate_structure_semantics),
    (Hf _ (fun p => _validate_mtf_semantics p cutoff)), (Hf _ _validate_decision_consistency) by by intros [].
  repeat match goal with H : _ = true |- _ => rewrite H; clear H end. by rewrite !andb_true_r.
Qed.

Lemma blocks_reload analysis : blocks_consistent analysis = true ->
  blocks_consistent (reload_blocks parse_status analysis) = true
  <-> Forall (fun b => BreakerBlockZone.status b = BreakerBlockStatus.ACTIVE) (OrderBlockAnalysisResult.breaker_blocks analysis).
Proof.
  destruct analysis as [? ? ? ? blocks breakers ?]. unfold blocks_consistent.
  cbn [reload_blocks OrderBlockAnalysisResult.order_blocks OrderBlockAnalysisResult.breaker_blocks].
  rewrite (map_reload BreakerBlockZone.zone_id), (map_reload OrderBlockZone.zone_id) by by intros [].
  rewrite !andb_true_iff, !forallb_forall. intros [Hz Hb]. rewrite List.Forall_forall. split.
  - intros [_ Hr] b Hin. apply (breaker_consistent_reload (map OrderBlockZone.zone_id blocks)); [by apply Hb|]. apply Hr. by apply in_map.
  - intros Ha. split; intros z (z0 & <- & Hin)%in_map_iff; [by apply block_consistent_reload, Hz|].
    by apply breaker_consistent_reload; [apply Hb|apply Ha].
Qed.

(** C10. A snapshot that was valid when it was stored can be read back exactly
    when all its breaker blocks are active: the status of a waiting, an
    invalidated or an expired breaker is stored as a text that is read as the
    status of an order block, and the check of the lifecycles refuses it. *)
Theorem stored_snapshot_readable snapshot :
  AnalysisSnapshot.normalize_and_validate_point_in_time snapshot = true ->
  (exists s, read_stored parse_status snapshot = Ok s)
  <-> forall s b, AnalysisSnapshotPayloadV2.smc_ict (AnalysisSnapshot.payload snapshot) = Some s ->
        b ∈ OrderBlockAnalysisResult.breaker_blocks (SnapshotSMCICTEvidence.order_blocks s) ->
        BreakerBlockZone.status b = BreakerBlockStatus.ACTIVE.
Proof.
  destruct snapshot as [captured cutoff p]. intros Hv.
  assert ((exists s, read_stored parse_status (AnalysisSnapshot.mkAnalysisSnapshot captured cutoff p) = Ok s)
    <-> _validate_order_block_semantics (reload_payload p) = true) as ->.
  { unfold read_stored, validated, AnalysisSnapshot.normalize_and_validate_point_in_time in *.
    cbn [AnalysisSnapshot.payload AnalysisSnapshot.captured_at AnalysisSnapshot.data_cutoff_at] in *. bool_hyps.
    assert (AnalysisSnapshotPayloadV2.as_of (reload_payload p) = AnalysisSnapshotPayloadV2.as_of p
      /\ AnalysisSnapshotPayloadV2.market_data (reload_payload p) = AnalysisSnapshotPayloadV2.market_data p
      /\ AnalysisSnapshotPayloadV2.decision (reload_payload p) = AnalysisSnapshotPayloadV2.decision p) as (-> & -> & ->) by by destruct p.
    rewrite evidence_reload by done.
    repeat match goal with H : ?x = _ |- context [?x] => rewrite H end. cbn [negb andb].
    destruct (_validate_order_block_semantics _); naive_solver. }
  unfold AnalysisSnapshot.normalize_and_validate_point_in_time, _validate_point_in_time_evidence in Hv.
  cbn [AnalysisSnapshot.payload] in *. bool_hyps.
  match goal with H : _validate_order_block_semantics _ = true |- _ => rename H into Hob end.
  destruct p as [? ? ? ? ? ? ? [[? ? ? blocks ?]|] ? ? ? ?]; [|split; [done|by intros _]].
  unfold _validate_order_block_semantics in *. cbn [Snapshots.reload_payload fmap option_fmap option_map AnalysisSnapshotPayloadV2.smc_ict
    reload_smc_ict SnapshotSMCICTEvidence.order_blocks] in *.
  rewrite (blocks_reload _ Hob), List.Forall_forall. split.
  - intros Ha s b [= <-] Hin. by apply Ha, list_elem_of_In.
  - intros Ha b Hin. eapply Ha; [reflexivity|by apply list_elem_of_In].
Qed.
End stored.
