(* ===== verification/SnapshotsContract.v ===== *)
(** What the engines promise is what a snapshot asks of their evidence: market
    structure, gaps, pools and blocks that come out of the engines pass the
    checks of [schemas/analysis_snapshot.py], and so do the plan and the
    decision of a trade. *)
From Stdlib Require Import ZArith QArith Lia Lqa.
From stdpp Require Import base list strings numbers.
From S2P Require Import Prelude Dict Decimal Time Candle Signal Indicators Structure Engine Fvg FvgTheory LiquidityTypes Liquidity LiquidityContract LiquidityRecord Displacement OrderBlocks OrderBlocksTheory OrderBlocksResult OrderBlocksContract Risk RiskTheory SetupTypes EntrySetup Score MtfTypes Metrics Runner Strategy StrategyTheory Snapshots.
Local Open Scope Z_scope.

(** ** Market structure *)

Lemma elem_of_slice {A} (l : list A) i j x : x ∈ slice l i j -> exists k, (i <= k < j)%nat /\ l !! k = Some x.
Proof.
  unfold slice. intros [k Hk]%list_elem_of_lookup. apply lookup_take_Some in Hk as [Hk Hlt]. rewrite lookup_drop in Hk.
  exists (i + k)%nat. split; [lia|done].
Qed.

(** A pending candidate has not been resolved, the others have. *)
Lemma swing_candidate_resolved candles timeframe config i pivot kind candidate swing :
  (1 <= MarketStructureConfig.swing_right_bars config)%nat -> candles !! i = Some pivot ->
  swing_at candles timeframe config i pivot kind = Some (candidate, swing) ->
  Bool.eqb (bool_decide (SwingCandidate.resolution candidate = CandidateResolution.PENDING))
    (negb (is_some (SwingCandidate.resolved_at candidate))) = true.
Proof.
  intros Hr Hi. pose proof (lookup_lt_Some _ _ _ Hi) as Hlt. unfold swing_at. destruct (negb (_left_qualifies _ _ _ _)); [done|].
  intros [= <- _]. cbn [SwingCandidate.resolution SwingCandidate.resolved_at].
  destruct (Nat.eqb_spec (MarketStructureConfig.swing_right_bars config `min` (length candles - i - 1))
    (MarketStructureConfig.swing_right_bars config)) as [E|E]; [|by rewrite bool_decide_true].
  rewrite E, slice_last by lia. destruct (lookup_lt_is_Some_2 candles (i + 1 + MarketStructureConfig.swing_right_bars config - 1)) as [bar ->]; [lia|].
  destruct (_fully_qualifies _ _ _ _ _); by rewrite bool_decide_false.
Qed.

Lemma confirmed_swing_chronological timeframe config candles i pivot kind :
  evenly_spaced timeframe candles -> candles !! i = Some pivot ->
  let swing := confirmed_swing timeframe config candles i pivot kind in
  negb (ConfirmedSwing.confirmed_at swing <=? ConfirmedSwing.pivot_timestamp swing)
  && negb (existsb (fun item => ConfirmedSwing.confirmed_at swing <? item) (ConfirmedSwing.left_evidence_timestamps swing))
  && negb (existsb (fun item => ConfirmedSwing.confirmed_at swing <=? item) (ConfirmedSwing.right_evidence_timestamps swing)) = true.
Proof.
  intros He Hi swing. pose proof (timeframe_duration_pos timeframe) as Hd.
  assert (forall (c : Candle) k, candles !! k = Some c -> Candle.timestamp c = Candle.timestamp pivot + (Z.of_nat k - Z.of_nat i) * timeframe_duration timeframe) as Hat.
  { intros c k Hk. pose proof (evenly_spaced_nth timeframe candles i k pivot c He Hi Hk). lia. }
  unfold swing, confirmed_swing. cbn [ConfirmedSwing.confirmed_at ConfirmedSwing.pivot_timestamp ConfirmedSwing.left_evidence_timestamps
    ConfirmedSwing.right_evidence_timestamps].
  rewrite !andb_true_iff, !negb_true_iff. split_and!; [apply Z.leb_gt; pose proof (Zle_0_nat (MarketStructureConfig.swing_right_bars config)); nia|..]; apply not_true_iff_false; intros (t & Hin & Ht)%existsb_exists;
    apply in_map_iff in Hin as (c & <- & Hin%list_elem_of_In); apply elem_of_slice in Hin as (k & Hk & Hc); rewrite (Hat c k Hc) in Ht;
    pose proof (Z.mul_le_mono_nonneg_r (Z.of_nat k - Z.of_nat i) (Z.of_nat (MarketStructureConfig.swing_right_bars config))
      (timeframe_duration timeframe) ltac:(lia) ltac:(lia)); lia.
Qed.

Lemma structure_accepted candles timeframe config result : MarketStructureConfig.valid config = true -> Forall candle_wf candles ->
  analyze_market_structure candles timeframe config = Ok result -> structure_consistent result = true.
Proof.
  intros Hv Hw Hr. unfold analyze_market_structure in Hr. apply bind_ok in Hr as ([] & Hc & Hr).
  assert (evenly_spaced timeframe candles) as He.
  { unfold _validate_candles in Hc. by apply bind_ok in Hc as ([] & _ & Hc%validate_spacing_ok). }
  assert (1 <= MarketStructureConfig.swing_right_bars config)%nat as Hright.
  { unfold MarketStructureConfig.valid in Hv. bool_hyps. by apply Nat.leb_le. }
  destruct (_detect_swings candles timeframe config) as [candidates confirmed] eqn:Es.
  apply bind_ok in Hr as ([events rejections] & Hev & Hr). apply bind_ok in Hr as (support & _ & Hr).
  apply bind_ok in Hr as (resistance & _ & [= <-]).
  pose proof (structure_breaks_sound timeframe config candles events rejections Hv He Hw) as Hsound. rewrite Es in Hsound.
  destruct (Hsound Hev) as [_ Hlevels]. unfold structure_consistent.
  cbn [MarketStructureResult.candidate_swings MarketStructureResult.confirmed_swings MarketStructureResult.structure_events].
  rewrite !andb_true_iff, !forallb_forall. split_and!.
  - intros candidate Hin. injection Es as <- _. apply in_map_iff in Hin as ([candidate' swing] & <- & Hin%list_elem_of_In).
    apply elem_of_flat_map in Hin as ([i pivot] & Hi & Hin). apply list_elem_of_omap in Hin as (kind & _ & Hs).
    apply list_elem_of_lookup in Hi as [j Hj]. rewrite lookup_drop, enumerate_lookup in Hj. apply bind_Some in Hj as (c & Hc' & [= <- <-]).
    by eapply swing_candidate_resolved.
  - intros swing Hin%list_elem_of_In. assert (swing ∈ (_detect_swings candles timeframe config).2) as Hin' by by rewrite Es.
    apply (elem_of_detect_confirmed timeframe config Hright) in Hin' as (i & pivot & kind & _ & Hi & _ & _ & ->); [|done].
    by apply confirmed_swing_chronological.
  - intros event Hin%list_elem_of_In. destruct (Hlevels event Hin) as (level & candle & Hl & _ & Hid & _).
    apply bool_decide_eq_true. rewrite Hid. by apply list_elem_of_fmap_2.
Qed.

(** ** Fair value gaps *)

Lemma pairwise_snoc {A} (l : list A) a b : pairwise (l ++ [a; b]) = pairwise (l ++ [a]) ++ [(a, b)].
Proof. induction l as [|x [|y l] IH]; [done|done|]. cbn [app pairwise] in *. by rewrite IH. Qed.

(** The events of a gap start with its creation, end in its state, and do not
    go back in time. *)
Lemma gap_history_ends type events s : Fvg.history type events s ->
  (exists first, head events = Some first /\ GapLifecycleEvent.event_type first
     = match type with GapZoneType.FVG => GapLifecycleEventType.FVG_CREATED | GapZoneType.IFVG => GapLifecycleEventType.IFVG_CREATED end)
  /\ (exists latest, list.last events = Some latest /\ GapLifecycleEvent.to_state latest = s)
  /\ existsb (fun '(previous, current) => GapLifecycleEvent.occurred_at current <? GapLifecycleEvent.occurred_at previous)
       (pairwise events) = false.
Proof.
  induction 1 as [e Ht _ Hto _ _|events last e s _ IH Hst Hf Hfill Hn Hat Hid].
  - split_and!; [by exists e..|done].
  - destruct IH as ((first & Hh & Hty) & _ & Hsorted). split_and!.
    + exists first. split; [|done]. rewrite <-Hh. by destruct events.
    + exists e. change [last; e] with ([last] ++ [e]). by rewrite app_assoc, last_snoc.
    + rewrite pairwise_snoc, existsb_app, Hsorted. cbn. by rewrite orb_false_r, (proj2 (Z.ltb_ge _ _)).
Qed.

Lemma status_by_state_public state : status_by_state state = _public_status state.
Proof. by destruct state. Qed.

Lemma fvg_accepted candles timeframe config atr_result result : Forall candle_wf candles ->
  analyze_fvg candles timeframe config atr_result = Ok result ->
  forallb (gap_consistent (map GapZone.zone_id (FVGAnalysisResult.zones result))) (FVGAnalysisResult.zones result) = true.
Proof.
  intros Hw Hr. apply forallb_forall. intros g Hg%list_elem_of_In.
  destruct (fvg_zone_origin candles timeframe config atr_result result Hw Hr g Hg) as (now & z & Hz & Eg & Ho).
  destruct (to_schema_ok now z Hz) as (g' & Eg' & _ & Hh & Hst & _ & Hty & Hor & _ & _ & _ & _ & _ & Hc & Hd1 & Hd2).
  assert (g' = g) as -> by congruence.
  apply gap_history_ends in Hh as ((first & Hf & Hft) & (latest & Hl & Hlt) & Hs). unfold gap_consistent. rewrite Hf, Hl, Hs.
  rewrite Hf in Hd1. injection Hd1 as Hd1. specialize (Hd2 _ Hl).
  rewrite Hd1, Hc, Z.eqb_refl, (proj2 (Z.ltb_ge _ _) Hd2), Hlt, status_by_state_public, Hst, !bool_decide_true by (try done; by destruct (GapZone.type g)).
  cbn. rewrite andb_true_r. destruct (GapZone.origin_fvg_id g) as [origin|] eqn:Eo; [|done].
  apply bool_decide_eq_true, Ho. by rewrite <-Hor.
Qed.

(** ** Order blocks and breakers *)

(** The events of a zone start with a creation, and end in its status; a zone
    that still waits has no other event. *)
Lemma zone_history_ends id events s : OrderBlocksTheory.zone_history id events s ->
  (exists first, head events = Some first /\ OrderBlockLifecycleEvent.type first
     = match s with BlockStatus _ => OrderBlockEventType.OB_CREATED | BreakerStatus _ => OrderBlockEventType.BREAKER_CREATED end)
  /\ (exists latest, list.last events = Some latest /\ OrderBlockLifecycleEvent.to_status latest = s)
  /\ (s = BlockStatus OrderBlockStatus.CANDIDATE -> time_of OrderBlockEventType.OB_VALIDATED events = None)
  /\ (s = BreakerStatus BreakerBlockStatus.CANDIDATE -> time_of OrderBlockEventType.BREAKER_ACTIVATED events = None).
Proof.
  induction 1 as [e _ _ Hs|events last e s _ IH _ _ Hstep _].
  - inversion Hs; split_and!; try (by exists e); intros; unfold time_of; cbn [List.filter]; rewrite bool_decide_false by congruence; done.
  - destruct IH as ((first & Hh & Hty) & _ & _). split_and!.
    + exists first. split; [rewrite <-Hh; by destruct events|]. rewrite Hty. by inversion Hstep.
    + exists e. change [last; e] with ([last] ++ [e]). by rewrite app_assoc, last_snoc.
    + inversion Hstep; congruence.
    + inversion Hstep; congruence.
Qed.

Lemma block_accepted breaker_ids g : lawful_block g ->
  (forall breaker, OrderBlockZone.breaker_zone_id g = Some breaker -> breaker ∈ breaker_ids) ->
  block_consistent breaker_ids g = true.
Proof.
  intros [_ Hh Hv Hm Hi Hc] Hb. apply zone_history_ends in Hh as ((first & Hf & Ht) & (latest & Hl & Hs) & Hw & _).
  unfold block_consistent. unfold first_time in Hc. rewrite Hf in *. injection Hc as ->. rewrite Hl, Ht, Hs, Hv, Hm, Hi, Z.eqb_refl.
  rewrite !bool_decide_true by done. cbn [andb].
  assert (match OrderBlockZone.breaker_zone_id g with Some b => bool_decide (b ∈ breaker_ids) | None => true end = true) as ->.
  { destruct (OrderBlockZone.breaker_zone_id g); [|done]. by apply bool_decide_eq_true, Hb. }
  case_bool_decide as Hst; [|done]. by rewrite Hw by by rewrite Hst.
Qed.

Lemma breaker_accepted order_block_ids b : lawful_breaker b -> BreakerBlockZone.origin_order_block_id b ∈ order_block_ids ->
  breaker_consistent order_block_ids b = true.
Proof.
  intros [_ Hh Ha Hi Hc] Ho. apply zone_history_ends in Hh as ((first & Hf & Ht) & (latest & Hl & Hs) & _ & Hw).
  unfold breaker_consistent. unfold first_time in Hc. rewrite Hf in *. injection Hc as ->. rewrite Hl, Ht, Hs, Ha, Hi, Z.eqb_refl.
  rewrite !bool_decide_true by done. cbn [andb]. case_bool_decide as Hst; [|done]. by rewrite Hw by by rewrite Hst.
Qed.

Lemma blocks_accepted candles timeframe events config displacements swings pools atr_result result :
  pools_ok pools -> Forall candle_wf candles -> Forall narrow candles ->
  analyze_order_blocks candles timeframe events config displacements swings pools atr_result = Ok result ->
  blocks_consistent result = true.
Proof.
  intros Hp Hw Hn Hr. assert (OrderBlocks._validate_inputs candles timeframe events displacements config atr_result = Ok tt) as Hv.
  { unfold analyze_order_blocks in Hr. by apply bind_ok in Hr as ([] & -> & _). }
  destruct (returned_lawful candles timeframe events config displacements swings pools atr_result Hv Hp Hw Hn)
    as (r & E & Hz & Hb & Hof & Hleft). rewrite E in Hr. injection Hr as ->.
  rewrite List.Forall_forall in Hz, Hb. unfold blocks_consistent. rewrite andb_true_iff, !forallb_forall. split.
  - intros g Hg. apply block_accepted; [by apply Hz|]. intros breaker Hbr.
    destruct (Hleft g (proj2 (list_elem_of_In _ _) Hg)) as (b & Hbin & _ & Hid & _); [left; by rewrite Hbr|].
    rewrite Hbr in Hid. injection Hid as ->. by apply list_elem_of_fmap_2.
  - intros b Hb'. apply breaker_accepted; [by apply Hb|].
    destruct (Hof b (proj2 (list_elem_of_In _ _) Hb')) as (g & Hg & _ & _ & -> & _). by apply list_elem_of_fmap_2.
Qed.

(** ** Liquidity *)

Lemma pool_accepted events interaction_ids p : LiquidityPool.validate_pool p = true ->
  LiquidityRecord.recorded events (LiquidityPool.created_at p) (LiquidityPool.swept_at p) (LiquidityPool.interactions p) ->
  map LiquidityInteraction.event_id events = interaction_ids -> pool_consistent interaction_ids p = true.
Proof.
  intros Hv [Hs Hi] <-. unfold LiquidityPool.validate_pool in Hv. unfold pool_consistent.
  destruct (list.last (LiquidityPool.history p)) as [latest|]; [|by rewrite andb_false_r in Hv].
  unfold LiquidityPool.exposes in Hv. bool_hyps. rewrite !andb_true_iff. split_and!.
  - apply Z.eqb_eq. lia.
  - apply negb_true_iff, andb_false_iff.
    match goal with H : _ && _ = false |- _ => apply andb_false_iff in H as [Hn|Hn] end; [by left|right].
    by destruct (LiquidityPool.swept_at p).
  - destruct (LiquidityPool.swept_at p) as [t|]; [|done]. apply negb_true_iff, Z.ltb_ge. by apply Hs.
  - apply forallb_forall. intros e He%list_elem_of_In. apply bool_decide_eq_true, list_elem_of_fmap_2. by apply Hi.
Qed.

Lemma liquidity_accepted candles timeframe swings config atr_result result :
  Forall (fun c => valid_candle c = true) candles -> LiquidityConfig.valid config = true ->
  analyze_liquidity candles timeframe swings config atr_result = Ok result ->
  forallb (pool_consistent (map LiquidityInteraction.event_id (LiquidityAnalysisResult.interactions result)))
    (LiquidityAnalysisResult.pools result) = true.
Proof.
  intros Hc Hv Hr. pose proof (result_recorded _ _ _ _ _ _ Hc Hv Hr) as Hp. rewrite List.Forall_forall in Hp.
  apply forallb_forall. intros p Hin. destruct (Hp p Hin) as [Hvalid Hrec]. by eapply pool_accepted.
Qed.

(** ** The evidence of the engines *)

(** Confirmed swings are confirmed at closes. *)
Lemma confirmed_swings_ok candles timeframe structure_config config result : MarketStructureConfig.valid structure_config = true ->
  analyze_market_structure candles timeframe structure_config = Ok result ->
  Forall (swing_ok config) (MarketStructureResult.confirmed_swings result) ->
  swings_ok timeframe candles config (MarketStructureResult.confirmed_swings result).
Proof.
  intros Hv Hr. unfold analyze_market_structure in Hr. apply bind_ok in Hr as ([] & Hc & Hr).
  assert (evenly_spaced timeframe candles) as He.
  { unfold _validate_candles in Hc. by apply bind_ok in Hc as ([] & _ & Hc%validate_spacing_ok). }
  assert (1 <= MarketStructureConfig.swing_right_bars structure_config)%nat as Hright.
  { unfold MarketStructureConfig.valid in Hv. bool_hyps. by apply Nat.leb_le. }
  destruct (_detect_swings candles timeframe structure_config) as [candidates confirmed] eqn:Es.
  apply bind_ok in Hr as ([events rejections] & _ & Hr). apply bind_ok in Hr as (support & _ & Hr).
  apply bind_ok in Hr as (resistance & _ & [= <-]). cbn [MarketStructureResult.confirmed_swings].
  unfold swings_ok. rewrite !Forall_forall. intros Hs s Hin. split; [by apply Hs|]. intros cutoff _ _.
  assert (s ∈ (_detect_swings candles timeframe structure_config).2) as Hin' by (rewrite Es; by apply list_elem_of_In).
  apply (elem_of_detect_confirmed timeframe structure_config Hright) in Hin' as (i & pivot & kind & _ & Hi & Hlt & _ & ->); [|done].
  unfold confirmed_swing. cbn [ConfirmedSwing.confirmed_at]. set (right := MarketStructureConfig.swing_right_bars structure_config) in *.
  destruct (lookup_lt_is_Some_2 candles (i + right)) as [c Hcl]; [lia|]. exists (i + right)%nat.
  apply (index_by_close timeframe); [done|]. exists c. split; [done|].
  pose proof (evenly_spaced_nth timeframe candles i (i + right) pivot c He Hi Hcl). rewrite Nat2Z.inj_add in *. cbn [ConfirmedSwing.confirmed_at]. nia.
Qed.

(** The structure of one timeframe, as the strategy gets it. *)
Definition structure_of_bars (result : MarketStructureResult) : Prop :=
  exists candles timeframe config, MarketStructureConfig.valid config = true /\ Forall candle_wf candles
    /\ analyze_market_structure candles timeframe config = Ok result.

(** C9. The engines and the snapshots agree. Whatever the bars, as long as no
    swing is within the ticks of a pool of zero and the prices have at most 28
    digits: the structures of all timeframes, and the pools, gaps, order blocks
    and breakers of the signal timeframe, found by the engines in the order the
    strategy runs them, are evidence that passes the four semantic checks of a
    snapshot, so none of these checks can reject an evaluation. *)
Theorem engine_evidence_accepted config structure_config candles structure atr s p :
  LiquidityConfig.valid (DeterministicStrategyPipelineConfig.liquidity config) = true ->
  MarketStructureConfig.valid structure_config = true -> Forall (fun c => valid_candle c = true) candles -> Forall narrow candles ->
  analyze_market_structure candles (DeterministicStrategyPipelineConfig.signal_timeframe config) structure_config = Ok structure ->
  Forall (swing_ok (DeterministicStrategyPipelineConfig.liquidity config)) (MarketStructureResult.confirmed_swings structure) ->
  analyze_signal_timeframe config candles structure atr = Ok s ->
  (forall timeframe result, (timeframe, result) ∈ AnalysisSnapshotPayloadV2.market_structure p -> structure_of_bars result) ->
  AnalysisSnapshotPayloadV2.smc_ict p = Some (smc_ict_evidence s) ->
  _validate_structure_semantics p = true /\ _validate_liquidity_semantics p = true /\ _validate_fvg_semantics p = true
  /\ _validate_order_block_semantics p = true.
Proof.
  intros Hl Hm Hc Hn Hst Hs Hr Hall Hp.
  assert (Forall candle_wf candles) as Hw by (eapply List.Forall_impl; [intros c; apply valid_candle_wf|exact Hc]).
  unfold analyze_signal_timeframe in Hr. apply bind_ok in Hr as (fvg & Hf & Hr). apply bind_ok in Hr as (liquidity & Hli & Hr).
  apply bind_ok in Hr as (displacement & _ & Hr). apply bind_ok in Hr as (blocks & Ho & Hr). apply bind_ok in Hr as (setups & _ & [= <-]).
  unfold _validate_liquidity_semantics, _validate_fvg_semantics, _validate_order_block_semantics. rewrite Hp. split_and!.
  - apply forallb_forall. intros [timeframe result] Hin%list_elem_of_In.
    destruct (Hall timeframe result Hin) as (bars & tf & c & H1 & H2 & H3). by eapply structure_accepted.
  - by eapply liquidity_accepted.
  - by eapply fvg_accepted.
  - eapply blocks_accepted; [|exact Hw|exact Hn|exact Ho].
    eapply analyzed_pools_ok; [exact Hc|exact Hl| |exact Hli]. by eapply confirmed_swings_ok.
Qed.
