(* ===== verification/StrategyExample.v ===== *)
(** A complete run of the strategy engine, from candles to a candidate: the
    theorems of the engine at this input, the optimized engine beside it, and an
    input where the two differ. *)
From Stdlib Require Import ZArith QArith Lia.
From stdpp Require Import base list strings numbers.
From S2P Require Import Prelude Dict Decimal Time Candle Signal Indicators Structure Engine Fvg LiquidityTypes Liquidity Displacement OrderBlocks Risk SetupTypes EntrySetup Lifecycle Execution ExecutionTheory Crt Score Resampling ResamplingTheory MtfTypes MultiTimeframe MultiTimeframeTheory Metrics Runner RunnerReport Strategy StrategyTheory StrategyReport OptimizedStrategy OptimizedStrategyTheory.
Local Open Scope Z_scope.

(** ** The input *)

(** One-minute bars as (open, high, low, close): two rising waves, a pullback
    with a sweep of its lows, a shift with a gap, and the retest of the gap. *)
Definition se_prices : list (Z * Z * Z * Z) :=
    [(114, 115, 111, 112); (112, 113, 108, 109); (109, 110, 105, 106); (106, 107, 102, 103); (103, 104, 100, 101);
     (101, 102, 99, 100); (100, 105, 99, 104); (104, 109, 103, 108); (108, 113, 107, 112); (112, 117, 111, 116);
     (116, 121, 115, 120); (120, 125, 119, 124); (124, 129, 123, 128); (128, 131, 127, 130); (130, 131, 126, 127);
     (127, 128, 123, 124); (124, 125, 120, 121); (121, 122, 117, 118); (118, 119, 115, 116); (116, 117, 114, 115);
     (115, 120, 114, 119); (119, 125, 118, 124); (124, 130, 123, 129); (129, 135, 128, 134); (134, 139, 133, 138);
     (138, 143, 137, 142); (142, 147, 141, 146); (146, 150, 145, 149); (149, 151, 148, 150); (150, 151, 146, 147);
     (147, 148, 142, 143); (143, 146, 142, 145); (145, 147, 144, 146); (146, 147, 141, 142); (142, 143, 138, 139);
     (139, 142, 138, 141); (141, 143, 140, 142); (142, 143, 138, 139); (139, 140, 136, 137); (137, 140, 136, 139);
     (139, 141, 138, 140); (140, 140, 134, 138); (138, 143, 138, 143); (143, 149, 142, 148); (148, 148, 145, 146);
     (146, 146, 141, 144)].

Definition se_bars : list Candle :=
  imap (fun i '(o, h, l, c) => Candle.mkCandle (minutes (Z.of_nat i)) (D o) (D h) (D l) (D c) (D 10)) se_prices.

Definition se_structure : MarketStructureConfig :=
  MarketStructureConfig.mkMarketStructureConfig (D 1) 1 1 SwingTiePolicy.EARLIEST 2 0 StructureBreakBasis.CLOSE 0 1 0.

(** The three minutes decide the direction, the single minutes the entry. *)
Definition se_timeframes : MTFConfig :=
  MTFConfig.mkMTFConfig Timeframe.ONE_MINUTE [Timeframe.THREE_MINUTES; Timeframe.ONE_MINUTE]
    [(Timeframe.THREE_MINUTES, MTFRole.MARKET_BIAS); (Timeframe.ONE_MINUTE, MTFRole.TRIGGER)]
    [Timeframe.THREE_MINUTES; Timeframe.ONE_MINUTE] [] MTFGapPolicy.REQUIRE_CONTIGUOUS None [Timeframe.THREE_MINUTES] 1
    [Timeframe.THREE_MINUTES] Timeframe.ONE_MINUTE false [(Timeframe.THREE_MINUTES, 3); (Timeframe.ONE_MINUTE, 3)] false
    Timeframe.THREE_MINUTES 5 MTFPriceArrayProbe.MIDPOINT.

Definition se_pipeline (timeframes : MTFConfig) : DeterministicStrategyPipelineConfig :=
  DeterministicStrategyPipelineConfig.mkDeterministicStrategyPipelineConfig (MTFConfig.mtf_signal_timeframe timeframes)
    (MACDConfig.mkMACDConfig 2 3 2) (ATRConfig.mkATRConfig 3 ATRSmoothing.WILDER)
    (map (fun tf => (tf, se_structure)) (MTFConfig.mtf_target_timeframes timeframes))
    (LiquidityConfig.mkLiquidityConfig (D 1) true 1 (D 1) (D 0) 2 1 1 3 50 true)
    (FVGConfig.mkFVGConfig (D 1) 1 (D 0) false FVGFillBasis.WICK (D 1) 50 3 true 0)
    (DisplacementConfig.mkDisplacementConfig (D 1) 3 2 (D 1) (Dec 5 (-1)) (Dec 5 (-1)) (D 1) true)
    (OrderBlockConfig.mkOrderBlockConfig (D 1) 10 false false 5 (D 0) OrderBlockRankPolicy.EXTREME_THEN_BODY
       OrderBlockZoneBasis.BODY 0 5 false OrderBlockProbeBasis.CLOSE OrderBlockProbeBasis.CLOSE 0 50 true 20)
    (EntrySetupConfig.mkEntrySetupConfig (D 1) false 5 5 5 SetupFVGSelectionPolicy.FIRST_CONFIRMED SetupRetestMode.TOUCH
       SetupEntryZoneSource.FVG false 20 SetupInvalidationSource.LIQUIDITY_SWEEP_EXTREME 1 (D 0))
    timeframes
    (StrategyScoreConfig.mkStrategyScoreConfig EmpiricalValidationStatus.UNVALIDATED
       (SignalScoreThresholds.mkSignalScoreThresholds 50 (-50) true)
       (SignalScoreWeights.mkSignalScoreWeights 10 10 15 15 15 10 15 5 15) (CRTConfig.mkCRTConfig false [] None))
    (RiskEngineConfig.mkRiskEngineConfig RiskEntryReference.MIDPOINT 1 (D 0) 1 (D 100)
       RiskTargetSource.NEAREST_OPPOSING_LIQUIDITY 1 (Dec 5 (-1))).

Definition se_config (timeframes : MTFConfig) : StrategyConfig :=
  StrategyConfig.mkStrategyConfig (costs_example 0) [(MarketSymbol.XAUUSD, se_pipeline timeframes)].

(** The first [n] bars, at the close of the last. *)
Definition se_context (n : nat) : StrategyEvaluationContext :=
  StrategyEvaluationContext.mkStrategyEvaluationContext MarketSymbol.XAUUSD (minutes (Z.of_nat n))
    [(Timeframe.ONE_MINUTE, take n se_bars)].

Definition se_snapshot (context : StrategyEvaluationContext) (_ : DeterministicStrategyEvaluation) (_ : SignalScoreEvidence)
    (_ : SignalScoreResult) : pyres Z := Ok (StrategyEvaluationContext.as_of context).

Definition se_evaluate (n : nat) : pyres (Output (Snapshot := Z)) :=
  snd (evaluate se_snapshot (se_config se_timeframes) sample_identity tt (se_context n)).

(** ** The run *)

Definition se_candidate : Candidate (Snapshot := Z) :=
  DeterministicSignalCandidate.mkDeterministicSignalCandidate _
    "HPE:bullish:LIQ:SWEEP:SELL_SIDE:LIQ:SWING:SELL_SIDE:LOW:1970-01-01T00:34:00+00:00:1970-01-01T00:41:00+00:00"
    MarketSymbol.XAUUSD Timeframe.ONE_MINUTE SignalDecision.LONG (EntryZone.mkEntryZone (D 140) (D 142)) (D 141) (D 146) (D 132)
    (Dec 5555555555555555555555555556 (-28)) 75 (minutes 46)
    (minutes 46, CandidateMetadata.mkCandidateMetadata
       "HPE:bullish:LIQ:SWEEP:SELL_SIDE:LIQ:SWING:SELL_SIDE:LOW:1970-01-01T00:34:00+00:00:1970-01-01T00:41:00+00:00"
       "MTF:bullish:1970-01-01T00:46:00+00:00:3m" false)
    sample_identity.

(** The bar of the retest yields the candidate. *)
Lemma se_trades : exists output, se_evaluate 46 = Ok output /\ StrategyEvaluationResult.candidates (fst output) = [se_candidate].
Proof.
  assert ((match se_evaluate 46 with Ok output => Some (StrategyEvaluationResult.candidates (fst output)) | Raise _ => None end)
          = Some [se_candidate]) as Hrun by (vm_compute; reflexivity).
  destruct (se_evaluate 46) as [output|e]; [|done]. injection Hrun as Hrun. eauto.
Qed.

Lemma se_valid_config : MTFConfig.validate_collections se_timeframes = Ok se_timeframes
  /\ DeterministicStrategyPipelineConfig.validate_pipeline_coherence (se_pipeline se_timeframes) = true.
Proof. split; vm_compute; reflexivity. Qed.

(** Before there is a reason not to trade. *)
Definition se_reason (n : nat) : list string :=
  match se_evaluate n with Ok output => DeterministicStrategyEvaluation.reason_codes (snd output) | Raise _ => [] end.

Example se_reasons : map se_reason [0; 10; 45]%nat
  = [["REQUIRED_SOURCE_TIMEFRAME_UNAVAILABLE"]; ["REQUIRED_TIMEFRAME_WARMUP_INCOMPLETE"]; ["READY_SETUP_UNAVAILABLE"]].
Proof. vm_compute. reflexivity. Qed.

Lemma se_run n output : se_evaluate n = Ok output ->
  evaluate se_snapshot (se_config se_timeframes) sample_identity tt (se_context n) = (tt, Ok output).
Proof. unfold se_evaluate. destruct (evaluate _ _ _ _ _) as [[] result]. cbn [snd]. by intros ->. Qed.

(** ** The theorems at this run *)

(** Without candles the evaluation is refused by the first check of the input. *)
Lemma evaluation_reported_witness :
  evaluate se_snapshot (se_config se_timeframes) sample_identity tt (se_context 0)
  = (tt, Ok (refusal sample_identity (se_context 0) (DeterministicStrategyPipelineConfig.signal_timeframe (se_pipeline se_timeframes))
               "REQUIRED_SOURCE_TIMEFRAME_UNAVAILABLE" Progress.empty)).
Proof.
  apply (evaluation_reported se_snapshot (se_config se_timeframes) sample_identity tt (se_context 0)).
  apply (refused_input _ _ _ _ _ (se_pipeline se_timeframes)); [reflexivity|]. apply no_source. right. reflexivity.
Defined.

Lemma candidate_sound_witness :
  exists output direction zone invalidation, se_evaluate 46 = Ok output
    /\ levels_ordered direction zone invalidation (DeterministicSignalCandidate.entry_reference se_candidate)
         (DeterministicSignalCandidate.take_profit se_candidate) (DeterministicSignalCandidate.stop_loss se_candidate).
Proof.
  destruct se_trades as (output & Hrun & Hc).
  destruct (candidate_sound se_snapshot (se_config se_timeframes) sample_identity tt tt (se_context 46) output se_candidate
    (se_run 46 output Hrun) ltac:(rewrite Hc; apply list_elem_of_here))
    as (config & source & t & zone & invalidation & _ & _ & _ & _ & _ & _ & _ & _ & _ & Hl & _).
  exists output, (CompositeEntrySetup.direction (setup t)), zone, invalidation. split; [exact Hrun|exact Hl].
Defined.

Definition se_series : SeriesMap := [((MarketSymbol.XAUUSD, Timeframe.ONE_MINUTE), se_bars)].

Lemma runner_accepts_evaluation_witness :
  exists output, se_evaluate 46 = Ok output
    /\ _validate_strategy_output (strategy_engine (State := unit) se_snapshot (se_config se_timeframes) sample_identity) se_series
         (se_context 46) (fst output) [] = Ok tt.
Proof.
  destruct se_trades as (output & Hrun & Hc). exists output. split; [exact Hrun|].
  destruct (runner_accepts_evaluation se_snapshot (se_config se_timeframes) sample_identity se_series tt tt (se_context 46) (fst output) [])
    as [H _]; [|intros config [= <-]; exists se_bars; reflexivity|exact H].
  cbn. rewrite (se_run 46 output Hrun). reflexivity.
Defined.

Lemma se_pipelines : Forall (fun '(_, config) => good_pipeline config) (StrategyConfig.pipelines (se_config se_timeframes)).
Proof.
  repeat constructor; try (vm_compute; congruence); rewrite ?list_elem_of_singleton, ?elem_of_nil; intuition discriminate.
Qed.

(** What makes a context good, as a test. *)
Definition good_contextb (context : StrategyEvaluationContext) : bool :=
  StrategyEvaluationContext.prevent_future_or_unsorted_candles context
  && forallb (fun c => valid_candle c && (0 <=? Candle.timestamp c)) (context_candles context).

Lemma good_contextb_ok context : good_contextb context = true -> good_context context.
Proof.
  unfold good_contextb. intros [Hc Hf]%andb_true_iff. rewrite forallb_forall in Hf.
  split; [done| |]; [|unfold whole_times]; apply List.Forall_forall; intros c Hin; specialize (Hf c Hin);
    apply andb_true_iff in Hf as [Hv Ht]; [done|left; by apply Z.leb_le].
Qed.

Definition se_contexts : list StrategyEvaluationContext := map se_context [44; 46; 45]%nat.

Lemma se_digits : same_digits (flat_map context_candles se_contexts).
Proof.
  assert (forall c, c ∈ flat_map context_candles se_contexts -> c ∈ se_bars) as Hin.
  { intros c Hc. unfold se_contexts, context_candles in Hc. cbn [map flat_map StrategyEvaluationContext.candles_by_timeframe se_context snd] in Hc.
    rewrite !app_nil_r, !elem_of_app in Hc. destruct Hc as [Hc|[Hc|Hc]]; by apply subseteq_take in Hc. }
  intros a b Ha Hb He. apply (NoDup_key Candle.timestamp se_bars); [|by apply Hin..|].
  - apply (bool_decide_unpack _). vm_compute. exact I.
  - unfold candle_eqb in He. bool_hyps. by apply Z.eqb_eq.
Qed.

(** The optimized engine over three contexts, the last of them a step back. *)
Lemma optimized_engine_equivalent_witness :
  evaluations se_snapshot (se_config se_timeframes) sample_identity (initial_state (TargetCandles := incremental_target_candles)) se_contexts
  = evaluations se_snapshot (se_config se_timeframes) sample_identity (initial_state (TargetCandles := reference_candles)) se_contexts.
Proof.
  apply (optimized_engine_equivalent se_snapshot (se_config se_timeframes) sample_identity se_contexts se_pipelines); [|exact se_digits].
  apply List.Forall_forall. intros context Hc. apply good_contextb_ok.
  assert (forallb good_contextb se_contexts = true) as Hall by (vm_compute; reflexivity).
  rewrite forallb_forall in Hall. exact (Hall context Hc).
Defined.

(** ** Where the engines differ *)

(** Five minutes are no multiple of three. The configuration is valid all the
    same; the reference engine refuses it, and the optimized engine makes a bar
    of five minutes from a single candle of three. *)
Definition odd_timeframes : MTFConfig :=
  MTFConfig.mkMTFConfig Timeframe.THREE_MINUTES [Timeframe.FIVE_MINUTES] [(Timeframe.FIVE_MINUTES, MTFRole.TRIGGER)] [] []
    MTFGapPolicy.REQUIRE_CONTIGUOUS None [Timeframe.FIVE_MINUTES] 1 [] Timeframe.FIVE_MINUTES false [(Timeframe.FIVE_MINUTES, 3)] false
    Timeframe.FIVE_MINUTES 5 MTFPriceArrayProbe.MIDPOINT.

Definition odd_candles : list Candle :=
  [Candle.mkCandle 0 (D 100) (D 102) (D 99) (D 101) (D 10); Candle.mkCandle (minutes 3) (D 101) (D 105) (D 100) (D 104) (D 10);
   Candle.mkCandle (minutes 6) (D 104) (D 106) (D 103) (D 105) (D 10)].

Example optimized_engine_differs :
  MTFConfig.validate_collections odd_timeframes = Ok odd_timeframes
  /\ DeterministicStrategyPipelineConfig.validate_pipeline_coherence (se_pipeline odd_timeframes) = true
  /\ resampled_candles odd_candles (minutes 9) (se_pipeline odd_timeframes)
     = Raise (MultiTimeframeInputError "every target duration must be an integer multiple of source duration")
  /\ snd (incremental_candles [] MarketSymbol.XAUUSD odd_candles (se_pipeline odd_timeframes))
     = Ok [(Timeframe.FIVE_MINUTES, [Candle.mkCandle 0 (D 100) (D 102) (D 99) (D 101) (D 10)])].
Proof. split_and!; vm_compute; reflexivity. Qed.
