(* ===== verification/SnapshotExample.v ===== *)
(** The snapshots of complete runs: the candidate of the strategy engine with
    its snapshot, evidence of the engines that passes the checks, a stored
    snapshot that cannot be read back, and two timeframes whose events share a
    reference. *)
From Stdlib Require Import ZArith QArith Lia.
From stdpp Require Import base list strings numbers.
From S2P Require Import Prelude Dict Decimal Time Candle Signal Indicators Structure Engine Fvg LiquidityTypes Liquidity LiquidityContract Displacement OrderBlocks OrderBlocksResult OrderBlocksContract Risk SetupTypes EntrySetup Score MtfTypes Metrics Runner RunnerReport Strategy StrategyTheory Snapshots SnapshotsTheory SnapshotsContract StrategyExample.
Local Open Scope Z_scope.

(** ** A candidate with its snapshot *)

Definition payload_eqb_example (a b : AnalysisSnapshotPayloadV2) : bool :=
  bool_decide (AnalysisSnapshotPayloadV2.symbol a = AnalysisSnapshotPayloadV2.symbol b)
  && (AnalysisSnapshotPayloadV2.as_of a =? AnalysisSnapshotPayloadV2.as_of b).

(** The run of [se_context] with the real snapshot. *)
Local Abbreviation se_concrete := (concrete_evaluate (se_config se_timeframes) sample_identity payload_eqb_example (se_context 46)).

Definition se_concrete_levels (output : pyres (Output (Snapshot := AnalysisSnapshot))) : list (dec * dec * dec) :=
  match output with
  | Ok (result, _) => map (fun c => (DeterministicSignalCandidate.entry_reference c, DeterministicSignalCandidate.take_profit c,
      DeterministicSignalCandidate.stop_loss c)) (StrategyEvaluationResult.candidates result)
  | Raise _ => []
  end.

Lemma se_concrete_trades : exists output candidate, se_concrete = Ok output
  /\ StrategyEvaluationResult.candidates (fst output) = [candidate].
Proof.
  assert (se_concrete_levels se_concrete = [(D 141, D 146, D 132)]) as Hl by (vm_compute; reflexivity).
  destruct se_concrete as [[result evaluation]|e]; [|done]. cbn in Hl. exists (result, evaluation). cbn [fst].
  destruct (StrategyEvaluationResult.candidates result) as [|candidate [|c l]]; [done| |done]. by exists candidate.
Qed.


(** ** Snapshots of evidence alone *)

(** A snapshot at [as_of] without a trade, of structures and of what the engines
    of the signal timeframe found. *)
Definition evidence_payload (timeframe : Timeframe) (as_of : datetime) (structures : list (string * MarketStructureResult))
    (smc_ict : SnapshotSMCICTEvidence) : AnalysisSnapshotPayloadV2 :=
  AnalysisSnapshotPayloadV2.mkAnalysisSnapshotPayloadV2 MarketSymbol.XAUUSD timeframe as_of sample_identity
    (SnapshotMarketDataEvidence.mkSnapshotMarketDataEvidence timeframe as_of []) None structures (Some smc_ict) None None None
    (SnapshotDecisionEvidence.mkSnapshotDecisionEvidence SignalDecision.NO_TRADE SignalDecision.NO_TRADE as_of as_of None []
       None None None None None ["READY_SETUP_UNAVAILABLE"]).

Definition evidence_snapshot (timeframe : Timeframe) (as_of : datetime) (structures : list (string * MarketStructureResult))
    (smc_ict : SnapshotSMCICTEvidence) : AnalysisSnapshot :=
  AnalysisSnapshot.mkAnalysisSnapshot as_of as_of (evidence_payload timeframe as_of structures smc_ict).

(** *** What the engines find *)

Local Abbreviation se_timeframe := (DeterministicStrategyPipelineConfig.signal_timeframe (se_pipeline se_timeframes)).
Local Abbreviation se_structures := (analyze_market_structure se_bars se_timeframe se_structure).

Definition swing_okb (config : LiquidityConfig) (s : ConfirmedSwing) : bool :=
  dltb (D 0) (dsub DEFAULT_PREC (ConfirmedSwing.price s) (ticks config (LiquidityConfig.liquidity_single_pool_half_width_ticks config)))
  && dltb (D 0) (dsub DEFAULT_PREC (ConfirmedSwing.price s) (ticks config (LiquidityConfig.liquidity_cluster_padding_ticks config))).

Lemma se_engines : exists structure atr s, se_structures = Ok structure
  /\ Forall (swing_ok (DeterministicStrategyPipelineConfig.liquidity (se_pipeline se_timeframes))) (MarketStructureResult.confirmed_swings structure)
  /\ analyze_signal_timeframe (se_pipeline se_timeframes) se_bars structure atr = Ok s.
Proof.
  assert (match se_structures, calculate_atr se_bars (ATRConfig.mkATRConfig 3 ATRSmoothing.WILDER) with
    | Ok structure, Ok atr => forallb (swing_okb (DeterministicStrategyPipelineConfig.liquidity (se_pipeline se_timeframes)))
        (MarketStructureResult.confirmed_swings structure)
        && match analyze_signal_timeframe (se_pipeline se_timeframes) se_bars structure atr with Ok _ => true | Raise _ => false end
    | _, _ => false end = true) as Hrun by (vm_compute; reflexivity).
  destruct (analyze_market_structure _ _ _) as [structure|]; [|done]. destruct (calculate_atr _ _) as [atr|]; [|done]. apply andb_true_iff in Hrun as [Hs Hrun].
  destruct (analyze_signal_timeframe _ _ structure atr) as [s|] eqn:E; [|done]. exists structure, atr, s. split_and!; [done| |exact E].
  rewrite forallb_forall in Hs. apply List.Forall_forall. intros swing Hin. specialize (Hs swing Hin). apply andb_true_iff in Hs as [H1 H2].
  by split.
Qed.

(** Whole prices of few digits are narrow. *)
Definition short_candle (c : Candle) : bool :=
  forallb (fun price => (expo price =? 0) && (0 <=? coef price) && (coef price <? 10 ^ 20))
    [Candle.open c; Candle.high c; Candle.low c; Candle.close c].

Lemma short_narrow c : short_candle c = true -> narrow c.
Proof.
  unfold short_candle. cbn [forallb]. intros Hc. bool_hyps. unfold narrow, fits.
  split_and!; try (unfold DEFAULT_PREC; lia). exists (D (coef (Candle.open c) + coef (Candle.close c))).
  split; [unfold D; cbn [coef]; unfold DEFAULT_PREC; lia|].
  destruct (Candle.open c) as [o eo], (Candle.close c) as [cl ec]. cbn [coef expo] in *.
  assert (eo = 0) as -> by lia. assert (ec = 0) as -> by lia. rewrite Qval_D, inject_Z_plus, <-(Qval_D o), <-(Qval_D cl). reflexivity.
Qed.

Lemma engine_evidence_accepted_witness : exists structure atr s, se_structures = Ok structure
  /\ analyze_signal_timeframe (se_pipeline se_timeframes) se_bars structure atr = Ok s
  /\ let p := evidence_payload Timeframe.ONE_MINUTE (minutes 46) [("1m", structure)] (smc_ict_evidence s) in
     _validate_structure_semantics p = true /\ _validate_liquidity_semantics p = true /\ _validate_fvg_semantics p = true
     /\ _validate_order_block_semantics p = true.
Proof.
  destruct se_engines as (structure & atr & s & Hst & Hs & Hr). exists structure, atr, s. split; [exact Hst|]. split; [exact Hr|].
  assert (forallb (fun c => valid_candle c && short_candle c) se_bars = true) as Hbars by (vm_compute; reflexivity).
  rewrite forallb_forall in Hbars.
  assert (forall c, c ∈ se_bars -> valid_candle c = true /\ short_candle c = true) as Hc.
  { intros c Hin%list_elem_of_In. by apply andb_true_iff, Hbars. }
  refine (engine_evidence_accepted (se_pipeline se_timeframes) se_structure se_bars structure atr s
    (evidence_payload Timeframe.ONE_MINUTE (minutes 46) [("1m", structure)] (smc_ict_evidence s)) _ _ _ _ Hst Hs Hr _ eq_refl).
  - vm_compute. reflexivity.
  - vm_compute. reflexivity.
  - apply list.Forall_forall. intros c Hin. apply (Hc c Hin).
  - apply list.Forall_forall. intros c Hin. apply short_narrow, (Hc c Hin).
  - intros timeframe result Hin. apply list_elem_of_singleton in Hin as [= -> ->].
    exists se_bars, se_timeframe, se_structure. split; [vm_compute; reflexivity|]. split; [|exact Hst].
    apply list.Forall_forall. intros c Hin. apply valid_candle_wf, (Hc c Hin).
Defined.

(** *** A snapshot that cannot be read back *)

(** The two enumerations, in the order of the union. *)
Definition parse_status_example (value : string) : ZoneStatus :=
  if bool_decide (value = "CANDIDATE") then BlockStatus OrderBlockStatus.CANDIDATE
  else if bool_decide (value = "VALIDATED") then BlockStatus OrderBlockStatus.VALIDATED
  else if bool_decide (value = "MITIGATED") then BlockStatus OrderBlockStatus.MITIGATED
  else if bool_decide (value = "INVALIDATED") then BlockStatus OrderBlockStatus.INVALIDATED
  else if bool_decide (value = "EXPIRED") then BlockStatus OrderBlockStatus.EXPIRED
  else BreakerStatus BreakerBlockStatus.ACTIVE.

(** The order blocks of [bars], and nothing else. *)
Definition blocks_evidence (bars : list Candle) : pyres SnapshotSMCICTEvidence :=
  let timeframe := Timeframe.FIFTEEN_MINUTES in
  let pipeline := se_pipeline se_timeframes in
  let n := length bars in
  let cutoff := data_cutoff_at bars timeframe in
  order_blocks ← analyze_order_blocks bars timeframe [ob_break "S1"] ob_config [] [] [pool_example] None;
  Ok (SnapshotSMCICTEvidence.mkSnapshotSMCICTEvidence
        (LiquidityAnalysisResult.mkLiquidityAnalysisResult timeframe (DeterministicStrategyPipelineConfig.liquidity pipeline) n cutoff [] [] [])
        (FVGAnalysisResult.mkFVGAnalysisResult timeframe (DeterministicStrategyPipelineConfig.fvg pipeline) n cutoff [] [])
        (DisplacementAnalysisResult.mkDisplacementAnalysisResult timeframe (DeterministicStrategyPipelineConfig.displacement pipeline) n cutoff
           [] [])
        order_blocks
        (EntrySetupAnalysisResult.mkEntrySetupAnalysisResult timeframe (DeterministicStrategyPipelineConfig.entry_setup pipeline) n cutoff [])).

Definition blocks_snapshot (n : nat) : pyres AnalysisSnapshot :=
  let bars := take n ob_bars in
  smc_ict ← blocks_evidence bars;
  Ok (evidence_snapshot Timeframe.FIFTEEN_MINUTES (default 0 (data_cutoff_at bars Timeframe.FIFTEEN_MINUTES)) [] smc_ict).

Definition breaker_statuses (n : nat) : list BreakerBlockStatus :=
  match blocks_evidence (take n ob_bars) with
  | Ok s => map BreakerBlockZone.status (OrderBlockAnalysisResult.breaker_blocks (SnapshotSMCICTEvidence.order_blocks s))
  | Raise _ => []
  end.

(** While the breaker waits and after it ended the snapshot is lost; while it
    is active, it is not. *)
Example read_back_fails : map (fun n => (breaker_statuses n,
    match blocks_snapshot n with
    | Ok s => (AnalysisSnapshot.normalize_and_validate_point_in_time s, match read_stored parse_status_example s with Ok _ => true | Raise _ => false end)
    | Raise _ => (false, false)
    end)) [5; 6; 7; 8]%nat
  = [([], (true, true)); ([BreakerBlockStatus.CANDIDATE], (true, false)); ([BreakerBlockStatus.ACTIVE], (true, true));
     ([BreakerBlockStatus.INVALIDATED], (true, false))].
Proof. vm_compute. reflexivity. Qed.

Lemma stored_snapshot_readable_witness : exists snapshot, blocks_snapshot 8 = Ok snapshot
  /\ ~ exists s, read_stored parse_status_example snapshot = Ok s.
Proof.
  assert (match blocks_snapshot 8 with
    | Ok snapshot => AnalysisSnapshot.normalize_and_validate_point_in_time snapshot
        && match AnalysisSnapshotPayloadV2.smc_ict (AnalysisSnapshot.payload snapshot) with
           | Some s => existsb (fun b => negb (bool_decide (BreakerBlockZone.status b = BreakerBlockStatus.ACTIVE)))
               (OrderBlockAnalysisResult.breaker_blocks (SnapshotSMCICTEvidence.order_blocks s))
           | None => false
           end
    | Raise _ => false
    end = true) as Hrun by (vm_compute; reflexivity).
  destruct (blocks_snapshot 8) as [snapshot|]; [|done]. apply andb_true_iff in Hrun as [Hv Hb]. exists snapshot. split; [reflexivity|].
  destruct (AnalysisSnapshotPayloadV2.smc_ict _) as [s|] eqn:Es; [|done]. apply existsb_exists in Hb as (b & Hin & Hb).
  intros Hread. apply negb_true_iff, bool_decide_eq_false in Hb. apply Hb.
  apply (proj1 (stored_snapshot_readable parse_status_example (fun status => ltac:(destruct status; vm_compute; reflexivity))
    ltac:(vm_compute; reflexivity) snapshot Hv) Hread s b Es). by apply list_elem_of_In.
Defined.

(** ** A reference of two timeframes *)

(** Closes of one-minute bars: waves of twelve minutes that turn on the
    three-minute boundaries. *)
Fixpoint wave (n : nat) (price step : Z) : list Z :=
  match n with O => [] | S n => (price + step) :: wave n (price + step) step end.
Definition wave_closes : list Z :=
  300 :: wave 12 300 5 ++ wave 12 360 (-10) ++ wave 12 240 6 ++ wave 12 312 (-14) ++ wave 12 144 8 ++ wave 12 240 (-18) ++ wave 11 24 18
  ++ wave 6 222 25.
Definition wave_bars : list Candle :=
  imap (fun i close =>
    let open := default 300 (wave_closes !! (i - 1)%nat) in
    let wick := if bool_decide (Z.of_nat i mod 3 = 0) then 1 else 0 in
    Candle.mkCandle (minutes (Z.of_nat i)) (D open) (D (Z.max open close + wick)) (D (Z.min open close - wick)) (D close) (D 10)) wave_closes.

(** The same prices in bars of three minutes. *)
Fixpoint by_three (bars : list Candle) : list Candle :=
  match bars with
  | a :: b :: c :: rest =>
      Candle.mkCandle (Candle.timestamp a) (Candle.open a) (dmax (Candle.high a) (dmax (Candle.high b) (Candle.high c)))
        (dmin (Candle.low a) (dmin (Candle.low b) (Candle.low c))) (Candle.close c) (D 30) :: by_three rest
  | _ => []
  end.

Definition wave_payload : pyres AnalysisSnapshotPayloadV2 :=
  single ← analyze_market_structure wave_bars Timeframe.ONE_MINUTE se_structure;
  triple ← analyze_market_structure (by_three wave_bars) Timeframe.THREE_MINUTES se_structure;
  smc_ict ← blocks_evidence ob_bars;
  Ok (evidence_payload Timeframe.ONE_MINUTE (minutes 91) [("1m", single); ("3m", triple)] smc_ict).

Definition wave_reference : string := "MSS:bullish:1970-01-01T01:24:00+00:00:HIGH:1970-01-01T01:00:00+00:00".

(** The shift of the single minutes is confirmed in minute 85, but its reference
    is that of the shift of the three minutes, and stands for minute 87:
    evidence that cites it in minute 85 predates its source. *)
Example shared_reference :
  match wave_payload with
  | Ok p => (map snd (List.filter (fun '(id, _) => bool_decide (id = wave_reference)) (source_entries p)),
             dict_get (_available_source_times p) wave_reference)
  | Raise _ => ([], None)
  end = ([minutes 85; minutes 87], Some (minutes 87)).
Proof. vm_compute. reflexivity. Qed.
