(* ===== verification/Admission.v ===== *)
(** Resource admission: [core/admission.py].

    One fixed-window budget counts the admitted requests of a cost class, in
    total and per subject and account. The lock makes every [check] atomic, so
    a run is a sequence of checks; the quotient of the clock by the window
    length, which the code computes in floating point, is an argument. *)
From Stdlib Require Import ZArith Lia Sorting.Sorted.
From stdpp Require Import base strings numbers gmap countable list sets.
From S2P Require Import Prelude.
Local Open Scope Z_scope.

Module CostClass.
Inductive CostClass :=
| CHEAP_READ | HISTORY_READ | ANALYTICS_READ | FINANCIAL_COMMAND | PROVIDER_TRIGGERING | ADMIN_SECURITY.
#[global] Instance CostClass_eqdec : EqDecision CostClass := ltac:(solve_decision).
Definition all : list CostClass :=
  [CHEAP_READ; HISTORY_READ; ANALYTICS_READ; FINANCIAL_COMMAND; PROVIDER_TRIGGERING; ADMIN_SECURITY].
Definition index (c : CostClass) : nat :=
  match c with CHEAP_READ => 0 | HISTORY_READ => 1 | ANALYTICS_READ => 2 | FINANCIAL_COMMAND => 3
             | PROVIDER_TRIGGERING => 4 | ADMIN_SECURITY => 5 end.
#[global] Instance CostClass_countable : Countable CostClass.
Proof. apply (inj_countable' index (fun n => default CHEAP_READ (all !! n))). by intros []. Defined.
End CostClass.
Abbreviation CostClass := CostClass.CostClass.

Module AdmissionContext.
Record AdmissionContext := mkAdmissionContext {
  route : string;
  cost : CostClass;
  subject : option string;
  account : option string
}.
End AdmissionContext.
Abbreviation AdmissionContext := AdmissionContext.AdmissionContext.

(** [AppError] with the fields admission reads, and any other exception. *)
Inductive raised :=
| AppError (status_code : Z) (code : string)
| OtherException (cls : string).

(** A call that returns or raises. *)
Definition verdict (A : Type) : Type := A + raised.

Definition admission_error (status : Z) : raised :=
  AppError status (if status =? 429 then "RESOURCE_RATE_LIMITED" else "RESOURCE_UNAVAILABLE").

(** The backend's answer is [None] ([true]), another value ([false]) or an exception. *)
Definition check_admission (result : verdict bool) : verdict unit :=
  match result with
  | inl true => inl tt
  | inl false => inr (admission_error 503)
  | inr (AppError status _) => inr (admission_error (if status =? 429 then 429 else 503))
  | inr (OtherException _) => inr (admission_error 503)
  end.

(** ** [LocalCostBudget] *)

Definition Key : Type := CostClass * option string * option string.

Module LocalCostBudget.
Record LocalCostBudget := mkLocalCostBudget {
  limits : CostClass -> Z;
  max_keys : Z;
  counts : gmap Key Z;
  window : option Z
}.
(** The constructor's guards on the quotas and the key bound. *)
Definition init (limits : CostClass -> Z) (max_keys : Z) : pyres LocalCostBudget :=
  _ ← raise_if (negb (forallb (fun c => (1 <=? limits c) && (limits c <=? 1000000)) CostClass.all))
        (Exc "ValueError" "all cost classes require finite positive quotas");
  _ ← raise_if (negb ((16 <=? max_keys) && (max_keys <=? 100000))) (Exc "ValueError" "invalid budget bounds");
  Ok (mkLocalCostBudget limits max_keys ∅ None).
(** [self._counts.clear(); self._window = current] *)
Definition roll (b : LocalCostBudget) (current : Z) : LocalCostBudget :=
  if bool_decide (window b = Some current) then b
  else mkLocalCostBudget (limits b) (max_keys b) ∅ (Some current).
Definition with_counts (b : LocalCostBudget) (counts : gmap Key Z) : LocalCostBudget :=
  mkLocalCostBudget (limits b) (max_keys b) counts (window b).
End LocalCostBudget.
Abbreviation LocalCostBudget := LocalCostBudget.LocalCostBudget.

Definition context_keys (context : AdmissionContext) : list Key :=
  (AdmissionContext.cost context, None, None)
  :: match AdmissionContext.subject context with
     | Some subject => [(AdmissionContext.cost context, Some subject, AdmissionContext.account context)]
     | None => []
     end.

(** [self._counts.get(k, 0)] *)
Definition get (counts : gmap Key Z) (k : Key) : Z := default 0 (counts !! k).

Definition increment (counts : gmap Key Z) (key : Key) : gmap Key Z := <[key := get counts key + 1]> counts.

(** The state after the call, and its outcome. *)
Definition check (b : LocalCostBudget) (current : Z) (context : AdmissionContext) : LocalCostBudget * verdict unit :=
  let b := LocalCostBudget.roll b current in
  let counts := LocalCostBudget.counts b in
  let keys := context_keys context in
  if LocalCostBudget.max_keys b <? Z.of_nat (size counts)
       + Z.of_nat (length (List.filter (fun k => bool_decide (counts !! k = None)) keys))
  then (b, inr (admission_error 503))
  else if existsb (fun k => LocalCostBudget.limits b (AdmissionContext.cost context) <=? get counts k) keys
  then (b, inr (admission_error 429))
  else (LocalCostBudget.with_counts b (foldl increment counts keys), inl tt).

(** [part in route] *)
Fixpoint contains (part route : string) : bool :=
  if String.prefix part route then true
  else match route with EmptyString => false | String _ rest => contains part rest end.

(** [route.endswith(suffix)] *)
Fixpoint ends_with (suffix route : string) : bool :=
  if String.eqb suffix route then true
  else match route with EmptyString => false | String _ rest => ends_with suffix rest end.

Definition operation_cost (route method : string) : CostClass :=
  if contains "/paper/" route then
    if negb (String.eqb method "GET") then CostClass.FINANCIAL_COMMAND
    else if ends_with "/analytics" route then CostClass.ANALYTICS_READ
    else if existsb (fun part => contains part route) ["/journal"; "/trades"; "/fills"; "/retention-candidate"]
    then CostClass.HISTORY_READ
    else CostClass.CHEAP_READ
  else if existsb (fun part => contains part route) ["/analysis"; "/signals"; "/evaluations"; "/market"]
  then CostClass.PROVIDER_TRIGGERING
  else CostClass.CHEAP_READ.

(** ** The budget over a run *)

(** The checks of a run with their windows, contexts and outcomes. *)
Definition Outcome : Type := Z * AdmissionContext * verdict unit.

Fixpoint run (b : LocalCostBudget) (hist : list Outcome) (requests : list (Z * AdmissionContext)) :
    LocalCostBudget * list Outcome :=
  match requests with
  | [] => (b, hist)
  | (current, context) :: rest =>
      let '(b', v) := check b current context in run b' (hist ++ [(current, context, v)]) rest
  end.

(** How often key [k] was charged in window [w]. *)
Definition charged (w : Z) (k : Key) (o : Outcome) : bool :=
  match o with
  | (w', context, inl _) => (w' =? w) && bool_decide (k ∈ context_keys context)
  | (_, _, inr _) => false
  end.
Definition admitted (w : Z) (k : Key) (hist : list Outcome) : Z := Z.of_nat (length (List.filter (charged w k) hist)).

Lemma admitted_snoc w k hist o :
  admitted w k (hist ++ [o]) = admitted w k hist + (if charged w k o then 1 else 0).
Proof.
  unfold admitted. rewrite List.filter_app, length_app. cbn [List.filter]. destruct (charged w k o); cbn [length]; lia.
Qed.

Lemma admitted_future w k hist : Forall (fun o : Outcome => o.1.1 < w) hist -> admitted w k hist = 0.
Proof.
  unfold admitted. induction 1 as [|[[w' context] v] hist Hw _ IH]; [done|]. cbn [List.filter charged].
  cbn in Hw. destruct v; [|exact IH]. destruct (Z.eqb_spec w' w); [lia|exact IH].
Qed.

Lemma context_keys_nodup context : NoDup (context_keys context).
Proof.
  unfold context_keys. destruct (AdmissionContext.subject context); [|apply NoDup_singleton].
  apply NoDup_cons. split; [|apply NoDup_singleton]. intros H. apply list_elem_of_singleton in H. congruence.
Qed.

Lemma context_keys_cost context k : k ∈ context_keys context -> k.1.1 = AdmissionContext.cost context.
Proof.
  unfold context_keys. intros H. apply elem_of_cons in H as [->|H]; [done|].
  destruct (AdmissionContext.subject context); [by apply list_elem_of_singleton in H as ->|by apply elem_of_nil in H].
Qed.

Lemma get_increment counts key k : get (increment counts key) k = get counts k + (if bool_decide (k = key) then 1 else 0).
Proof.
  unfold increment, get. case_bool_decide as E; [subst; by rewrite lookup_insert_eq|].
  rewrite lookup_insert_ne by done. lia.
Qed.

Lemma get_increments keys counts k : NoDup keys ->
  get (foldl increment counts keys) k = get counts k + (if bool_decide (k ∈ keys) then 1 else 0).
Proof.
  revert counts. induction keys as [|key keys IH]; intros counts Hnd; cbn [foldl].
  - rewrite bool_decide_false; [lia|]. by apply not_elem_of_nil.
  - apply NoDup_cons in Hnd as [Hk Hnd]. rewrite IH, get_increment by done.
    destruct (decide (k = key)) as [->|Hne].
    + rewrite (bool_decide_true (key = key)) by done. rewrite (bool_decide_false (key ∈ keys)) by done.
      rewrite bool_decide_true by constructor. lia.
    + rewrite (bool_decide_false (k = key)) by done. rewrite (bool_decide_ext (k ∈ key :: keys) (k ∈ keys)); [lia|].
      rewrite elem_of_cons. naive_solver.
Qed.

Definition missing (counts : gmap Key Z) (keys : list Key) : Z :=
  Z.of_nat (length (List.filter (fun k => bool_decide (counts !! k = None)) keys)).

Lemma size_increments keys counts : NoDup keys ->
  Z.of_nat (size (foldl increment counts keys)) = Z.of_nat (size counts) + missing counts keys.
Proof.
  revert counts. induction keys as [|key keys IH]; intros counts Hnd; cbn [foldl]; [unfold missing; cbn; lia|].
  apply NoDup_cons in Hnd as [Hk Hnd]. rewrite IH by done.
  assert (missing (increment counts key) keys = missing counts keys) as ->.
  { unfold missing. do 2 f_equal. apply List.filter_ext_in. intros k Hin. apply list_elem_of_In in Hin.
    unfold increment. rewrite lookup_insert_ne; [done|]. by intros <-. }
  unfold missing. cbn [List.filter]. unfold increment. case_bool_decide as E; cbn [length].
  - rewrite map_size_insert_None by done. lia.
  - destruct (counts !! key) as [v|] eqn:Ev; [|done]. rewrite map_size_insert_Some by done. lia.
Qed.

(** What the counters of a budget mean for the history of its checks. *)
Record budget_inv (limits : CostClass -> Z) (max_keys : Z) (b : LocalCostBudget) (hist : list Outcome) : Prop := {
  bi_limits : LocalCostBudget.limits b = limits;
  bi_max : LocalCostBudget.max_keys b = max_keys;
  bi_size : Z.of_nat (size (LocalCostBudget.counts b)) <= max_keys;
  bi_window : Forall (fun o : Outcome => exists w, LocalCostBudget.window b = Some w /\ o.1.1 <= w) hist;
  bi_counts : forall w k, LocalCostBudget.window b = Some w -> get (LocalCostBudget.counts b) k = admitted w k hist;
  bi_quota : forall w k, admitted w k hist <= limits k.1.1
}.

Lemma forallb_pointwise {A} (f g : A -> bool) l : (forall x, f x = g x) -> forallb f l = forallb g l.
Proof. intros H. induction l as [|x l IH]; cbn; [done|]. by rewrite H, IH. Qed.

Section Budget.
Context (limits : CostClass -> Z) (max_keys : Z).
Hypothesis Hmax : 0 <= max_keys.

(** A budget whose window is the current one: the counters are those of the
    history. *)
Lemma roll_inv b hist current : budget_inv limits max_keys b hist ->
  (forall w, LocalCostBudget.window b = Some w -> w <= current) ->
  budget_inv limits max_keys (LocalCostBudget.roll b current) hist
  /\ LocalCostBudget.window (LocalCostBudget.roll b current) = Some current.
Proof.
  intros HI Hle. unfold LocalCostBudget.roll. case_bool_decide as E; [done|]. split; [|done].
  destruct HI as [H1 H2 H3 H4 H5 H6].
  assert (Forall (fun o : Outcome => o.1.1 < current) hist) as Hlt.
  { eapply Forall_impl; [exact H4|]. cbn. intros o (w & Hw & Ho). specialize (Hle w Hw).
    assert (w <> current) by congruence. lia. }
  split; cbn; try done.
  - eapply Forall_impl; [exact Hlt|]. cbn. intros o Ho. exists current. split; [done|lia].
  - intros w k [= <-]. unfold get. rewrite lookup_empty. cbn. symmetry. by apply admitted_future.
Qed.

(** The outcome of a check is decided by the history. *)
Definition allowed (b : LocalCostBudget) (hist : list Outcome) (current : Z) (context : AdmissionContext) : bool :=
  (Z.of_nat (size (LocalCostBudget.counts (LocalCostBudget.roll b current)))
     + missing (LocalCostBudget.counts (LocalCostBudget.roll b current)) (context_keys context) <=? max_keys)
  && forallb (fun k => admitted current k hist <? limits (AdmissionContext.cost context)) (context_keys context).

Lemma check_spec b hist current context : budget_inv limits max_keys b hist ->
  (forall w, LocalCostBudget.window b = Some w -> w <= current) ->
  let '(b', v) := check b current context in
  budget_inv limits max_keys b' (hist ++ [(current, context, v)]) /\ LocalCostBudget.window b' = Some current
  /\ (v = inl tt <-> allowed b hist current context = true).
Proof.
  intros HI0 Hle. destruct (roll_inv b hist current HI0 Hle) as [HI Hw]. unfold check, allowed.
  set (r := LocalCostBudget.roll b current) in *. fold (missing (LocalCostBudget.counts r) (context_keys context)).
  rewrite (bi_limits _ _ _ _ HI), (bi_max _ _ _ _ HI).
  rewrite (forallb_pointwise _ (fun k => get (LocalCostBudget.counts r) k <? limits (AdmissionContext.cost context)))
    by (intros k; by rewrite (bi_counts _ _ _ _ HI current k Hw)).
  pose proof (context_keys_nodup context) as Hnd. destruct HI as [H1 H2 H3 H4 H5 H6].
  destruct (_ <? _) eqn:E1; [|destruct (existsb _ _) eqn:E2].
  1,2: refine (conj _ (conj _ _)); [split; try done|done|].
  all: try (apply Forall_app; split; [done|]; apply Forall_singleton; exists current; split; [done|cbn; lia]).
  all: try (intros w k; rewrite admitted_snoc; cbn [charged]; rewrite ?Z.add_0_r; auto; fail).
  - apply Z.ltb_lt in E1. rewrite (proj2 (Z.leb_gt _ _)) by lia. done.
  - assert (forallb (fun k => get (LocalCostBudget.counts r) k <? limits (AdmissionContext.cost context)) (context_keys context) = false) as ->;
      [|by rewrite andb_false_r].
    apply not_true_is_false. intros Hall. rewrite forallb_forall in Hall. apply existsb_exists in E2 as (k & Hk & E2).
    specialize (Hall k Hk). lia.
  - assert (forall k, k ∈ context_keys context -> get (LocalCostBudget.counts r) k < limits (AdmissionContext.cost context)) as Hall.
    { intros k Hk. destruct (Z.ltb_spec (get (LocalCostBudget.counts r) k) (limits (AdmissionContext.cost context))); [done|].
      rewrite <-not_true_iff_false in E2. destruct E2. apply existsb_exists. exists k.
      split; [by apply list_elem_of_In|by apply Z.leb_le]. }
    apply Z.ltb_ge in E1.
    refine (conj _ (conj _ _)); [split; cbn [LocalCostBudget.counts LocalCostBudget.window LocalCostBudget.with_counts]; try done|done|].
    + rewrite size_increments by done. exact E1.
    + apply Forall_app; split; [done|]. apply Forall_singleton. exists current. split; [done|cbn; lia].
    + intros w k Hw'. assert (w = current) as -> by congruence. rewrite get_increments by done.
      rewrite admitted_snoc, (H5 current k Hw). cbn [charged]. by rewrite Z.eqb_refl.
    + intros w k. rewrite admitted_snoc. cbn [charged]. destruct (Z.eqb_spec current w) as [<-|]; cbn [andb]; [|rewrite Z.add_0_r; auto].
      case_bool_decide as Hk; [|rewrite Z.add_0_r; auto]. specialize (Hall k Hk). rewrite (H5 current k Hw) in Hall.
      rewrite (context_keys_cost _ _ Hk). lia.
    + split; [intros _|done]. apply andb_true_iff. split; [by apply Z.leb_le|]. apply forallb_forall. intros k Hk.
      apply Z.ltb_lt. apply Hall. by apply list_elem_of_In.
Qed.
End Budget.

Lemma run_inv limits max_keys requests b hist : 0 <= max_keys ->
  budget_inv limits max_keys b hist -> StronglySorted Z.le (fst <$> requests) ->
  (forall w, LocalCostBudget.window b = Some w -> Forall (fun r : Z * AdmissionContext => w <= r.1) requests) ->
  forall b' hist', run b hist requests = (b', hist') ->
  budget_inv limits max_keys b' hist'
  /\ (forall w, LocalCostBudget.window b' = Some w ->
        LocalCostBudget.window b = Some w \/ w ∈ fst <$> requests).
Proof.
  intros Hm. revert b hist. induction requests as [|[current context] requests IH]; intros b hist HI Hs Hw b' hist' Hrun;
    cbn [run] in Hrun.
  - injection Hrun as <- <-. auto.
  - pose proof (check_spec limits max_keys Hm b hist current context HI) as Hc.
    destruct (check b current context) as [b1 v]. cbn [fmap list_fmap fst] in Hs. apply StronglySorted_inv in Hs as [Hs Hle].
    destruct Hc as (HI1 & Hw1 & _); [intros w Hbw; specialize (Hw w Hbw); by inversion Hw|].
    destruct (IH b1 (hist ++ [(current, context, v)]) HI1 Hs) with b' hist' as [HI' Hw']; [|done|].
    + intros w Hbw. assert (w = current) as -> by congruence. exact (proj1 (Forall_fmap fst (Z.le current) requests) Hle).
    + split; [done|]. intros w H. right. cbn [fmap list_fmap fst]. destruct (Hw' w H) as [E|Hin]; [|by constructor].
      assert (w = current) as -> by congruence. constructor.
Qed.

(** C38. The budget: over any run of checks, no class is admitted more often
    in one window than its quota, nor is any subject and account; the table
    never holds more than [max_keys] counters; refused requests are not
    charged; and the budget is not stricter than that: a request is admitted
    exactly when the table has room and no quota of its keys is used up. *)
Theorem budget_enforced limits max_keys b requests : LocalCostBudget.init limits max_keys = Ok b ->
  StronglySorted Z.le (fst <$> requests) ->
  let '(b', hist) := run b [] requests in
  (forall w k, admitted w k hist <= limits k.1.1)
  /\ Z.of_nat (size (LocalCostBudget.counts b')) <= max_keys
  /\ (forall current context, Forall (fun r : Z * AdmissionContext => r.1 <= current) requests ->
        ((check b' current context).2 = inl tt <-> allowed limits max_keys b' hist current context = true)).
Proof.
  intros Hinit Hs. unfold LocalCostBudget.init in Hinit. apply bind_ok in Hinit as ([] & H1 & Hinit).
  apply bind_ok in Hinit as ([] & H2 & Hinit). injection Hinit as <-. bool_hyps.
  match goal with H : forallb _ _ = true |- _ => rename H into Hq end.
  assert (forall c, 1 <= limits c) as Hl.
  { intros c. rewrite forallb_forall in Hq. specialize (Hq c). destruct (1 <=? limits c) eqn:E; [lia|].
    enough (false && (limits c <=? 1000000) = true) by done. apply Hq. destruct c; cbn; tauto. }
  set (b0 := LocalCostBudget.mkLocalCostBudget limits max_keys ∅ None).
  assert (budget_inv limits max_keys b0 []) as HI.
  { split; unfold b0; cbn [LocalCostBudget.counts]; try done; [rewrite map_size_empty; lia|].
    intros w k. specialize (Hl k.1.1). unfold admitted. cbn [List.filter length]. lia. }
  destruct (run b0 [] requests) as [b' hist] eqn:Er.
  destruct (run_inv limits max_keys requests b0 [] ltac:(lia) HI Hs ltac:(done) _ _ Er) as [HI' Hw'].
  split_and!; [apply HI'|apply HI'|]. intros current context Hcur.
  pose proof (check_spec limits max_keys ltac:(lia) b' hist current context HI') as Hc.
  destruct (check b' current context) as [b2 v]. apply Hc. intros w Hw.
  destruct (Hw' w Hw) as [?|Hin]; [done|]. apply list_elem_of_fmap in Hin as (r & -> & Hr).
  rewrite Forall_forall in Hcur. by apply Hcur.
Qed.

(** Two requests of one subject against a quota of one, then a new window. *)
Definition sample_requests : list (Z * AdmissionContext) :=
  let c := AdmissionContext.mkAdmissionContext "/paper/journal" CostClass.HISTORY_READ (Some "user") None in
  [(0, c); (0, c); (1, c)].

Lemma budget_enforced_witness :
  let '(b', hist) := run (LocalCostBudget.mkLocalCostBudget (fun _ => 1) 16 ∅ None) [] sample_requests in
  admitted 0 (CostClass.HISTORY_READ, Some "user"%string, None) hist <= 1.
Proof.
  assert (StronglySorted Z.le (fst <$> sample_requests)) as Hs by
    (cbn; repeat first [apply SSorted_nil | apply SSorted_cons | apply List.Forall_nil | apply List.Forall_cons | lia]).
  pose proof (budget_enforced (fun _ => 1) 16 _ sample_requests eq_refl Hs) as H.
  destruct (run _ [] sample_requests) as [b' hist].
  exact (proj1 H 0 (CostClass.HISTORY_READ, Some "user"%string, None)).
Defined.
