(* ===== verification/Jobs.v ===== *)
(** Evaluation jobs: [services/evaluation_jobs.py] and
    [schemas/evaluation_job.py].

    The handlers run on one event loop, so the code between two [await]s is
    atomic: every such piece is a function on the state, and [step] interleaves
    them. A job is an object shared by the table and its task; it is named by
    its identifier. What the evaluation service answers (the binding of a
    request, the prepared data, the evaluated identity, the bodies or an
    exception) and the readings of the clocks are arguments. *)
From Stdlib Require Import ZArith Lia String Sorting.Permutation.
From stdpp Require Import base strings numbers list sets relations.
From S2P Require Import Prelude Time.
Local Open Scope Z_scope.

Module EvaluationStatus.
Inductive EvaluationStatus := PENDING | RUNNING | COMPLETED | FAILED | CANCELLED.
#[global] Instance EvaluationStatus_eqdec : EqDecision EvaluationStatus := ltac:(solve_decision).
End EvaluationStatus.
Abbreviation EvaluationStatus := EvaluationStatus.EvaluationStatus.

(** [status in TERMINAL_EVALUATION_STATUSES] *)
Definition TERMINAL_EVALUATION_STATUSES (s : EvaluationStatus) : bool :=
  match s with
  | EvaluationStatus.COMPLETED | EvaluationStatus.FAILED | EvaluationStatus.CANCELLED => true
  | EvaluationStatus.PENDING | EvaluationStatus.RUNNING => false
  end.

Module EvaluationFailure.
Record EvaluationFailure := mkEvaluationFailure { code : string; message : string }.
Definition valid (f : EvaluationFailure) : bool :=
  (1 <=? String.length (code f))%nat && (1 <=? String.length (message f))%nat.
End EvaluationFailure.
Abbreviation EvaluationFailure := EvaluationFailure.EvaluationFailure.

Module ProductionAnalysisRequest.
Record ProductionAnalysisRequest := mkProductionAnalysisRequest {
  symbol : string;
  timeframe : option Timeframe;
  cutoff : option datetime
}.
End ProductionAnalysisRequest.
Abbreviation ProductionAnalysisRequest := ProductionAnalysisRequest.ProductionAnalysisRequest.

(** The progress of an [asyncio] task: before its first instruction, at its
    [await], and finished; with [cancel()] requested or not. *)
Module Task.
Inductive Phase := Scheduled | Suspended | Done.
#[global] Instance Phase_eqdec : EqDecision Phase := ltac:(solve_decision).
Record Task := mkTask { phase : Phase; cancelling : bool }.
End Task.
Abbreviation Task := Task.Task.

(** [AppError]s by their code, and the built-in exceptions. *)
Inductive failure :=
| AppError (code message : string)
| TimeoutError
| CancelledError
| OtherException.

Section Jobs.
(** The identity of a strategy and the identity of market data. *)
Context {StrategyIdentity EvaluationDataIdentity : Type}.

Record _Job := mkJob {
  evaluation_id : string;
  request : ProductionAnalysisRequest;
  timeframe : Timeframe;
  cutoff : datetime;
  strategy_identity : StrategyIdentity;
  created_at : datetime;
  status : EvaluationStatus;
  started_at : option datetime;
  completed_at : option datetime;
  data : option EvaluationDataIdentity;
  job_failure : option EvaluationFailure;
  bodies : option (string * string);
  task : Task;
  terminal_monotonic : option Z
}.

Record EvaluationJobResponse := mkEvaluationJobResponse {
  r_evaluation_id : string;
  r_symbol : string;
  canonical_timeframe : Timeframe;
  r_cutoff : datetime;
  r_strategy_identity : StrategyIdentity;
  market_data_identity : option EvaluationDataIdentity;
  r_created_at : datetime;
  r_started_at : option datetime;
  r_completed_at : option datetime;
  r_status : EvaluationStatus;
  result_available : bool;
  r_failure : option EvaluationFailure
}.

Definition validate_lifecycle (r : EvaluationJobResponse) : bool :=
  Bool.eqb (TERMINAL_EVALUATION_STATUSES (r_status r)) (bool_decide (is_Some (r_completed_at r)))
  && Bool.eqb (result_available r) (bool_decide (r_status r = EvaluationStatus.COMPLETED))
  && Bool.eqb (bool_decide (is_Some (r_failure r))) (bool_decide (r_status r = EvaluationStatus.FAILED))
  && negb (bool_decide (r_status r = EvaluationStatus.COMPLETED) && negb (bool_decide (is_Some (market_data_identity r))))
  && negb (bool_decide (r_status r = EvaluationStatus.RUNNING) && negb (bool_decide (is_Some (r_started_at r))))
  && match r_failure r with Some f => EvaluationFailure.valid f | None => true end.

Definition _status (job : _Job) : pyres EvaluationJobResponse :=
  validated validate_lifecycle
    (mkEvaluationJobResponse (evaluation_id job) (ProductionAnalysisRequest.symbol (request job)) (timeframe job)
       (cutoff job) (strategy_identity job) (data job) (created_at job) (started_at job) (completed_at job)
       (status job) (bool_decide (status job = EvaluationStatus.COMPLETED)) (job_failure job)).

(** The limits of the constructor. *)
Record Limits := mkLimits { max_active : Z; max_jobs : Z; max_retained_bytes : Z; retention : Z }.
Definition valid_limits (l : Limits) : bool :=
  (0 <? max_active l) && (0 <? max_jobs l) && (0 <? max_retained_bytes l) && (0 <? retention l).

(** [self._jobs], in insertion order, and [self._closed]. *)
Record EvaluationJobs := mkEvaluationJobs { jobs : list _Job; closed : bool }.

Definition terminal (job : _Job) : bool := TERMINAL_EVALUATION_STATUSES (status job).

(** [job.terminal_monotonic or 0] *)
Definition terminal_key (job : _Job) : Z := default 0 (terminal_monotonic job).

Definition _terminal_jobs (js : list _Job) : list _Job :=
  sort_by (on_key terminal_key Z.ltb) (List.filter terminal js).

(** [self._jobs.pop(id)] *)
Definition pop (id : string) (js : list _Job) : pyres (list _Job) :=
  if existsb (fun j => bool_decide (evaluation_id j = id)) js
  then Ok (List.filter (fun j => negb (bool_decide (evaluation_id j = id))) js)
  else Raise (Exc "KeyError" id).

(** The [i]-th reading of the clock in the loop is [clock i]. *)
Definition expire_one (retention : Z) (clock : nat -> Z) (js : list _Job) (entry : nat * _Job) : pyres (list _Job) :=
  match terminal_monotonic entry.2 with
  | None => Raise (Exc "AssertionError" "")
  | Some since => if retention <=? clock entry.1 - since then pop (evaluation_id entry.2) js else Ok js
  end.

Definition _expire (retention : Z) (clock : nat -> Z) (js : list _Job) : pyres (list _Job) :=
  py_fold (expire_one retention clock) js (enumerate (_terminal_jobs js)).

Definition active (js : list _Job) : Z := Z.of_nat (length (List.filter (fun j => negb (terminal j)) js)).

(** [while len(self._jobs) >= self._max_jobs and self._terminal_jobs(): ...] *)
Fixpoint evict_jobs (fuel : nat) (max_jobs : Z) (js : list _Job) : pyres (list _Job) :=
  match _terminal_jobs js with
  | [] => Ok js
  | oldest :: _ =>
      if max_jobs <=? Z.of_nat (length js) then
        match fuel with
        | O => Raise (Exc "out of fuel" "")
        | S fuel' => js ← pop (evaluation_id oldest) js; evict_jobs fuel' max_jobs js
        end
      else Ok js
  end.

(** [sum(map(len, bodies))] *)
Definition body_size (b : string * string) : Z := Z.of_nat (String.length b.1) + Z.of_nat (String.length b.2).

Fixpoint retained_size (js : list _Job) : Z :=
  match js with
  | [] => 0
  | j :: js' => match bodies j with Some b => body_size b | None => 0 end + retained_size js'
  end.

(** [while retained_size()+size > self._max_retained_bytes: ...] *)
Fixpoint evict_bodies (fuel : nat) (max_retained_bytes size : Z) (js : list _Job) : pyres (list _Job) :=
  if max_retained_bytes <? retained_size js + size then
    match _terminal_jobs js with
    | [] => Raise (Exc "IndexError" "list index out of range")
    | oldest :: _ =>
        match fuel with
        | O => Raise (Exc "out of fuel" "")
        | S fuel' => js ← pop (evaluation_id oldest) js; evict_bodies fuel' max_retained_bytes size js
        end
    end
  else Ok js.

Definition BUSY : pyexc := Exc "STRATEGY_EVALUATION_BUSY" "Evaluation capacity is busy. Retry later.".

(** The job [create] adds; its task is scheduled. *)
Definition new_job (binding : Timeframe * StrategyIdentity) (request : ProductionAnalysisRequest)
    (uuid : string) (now utc : datetime) : _Job :=
  mkJob uuid request binding.1
    (default (timeframe_bucket_start now binding.1) (ProductionAnalysisRequest.cutoff request))
    binding.2 utc EvaluationStatus.PENDING None None None None None (Task.mkTask Task.Scheduled false) None.

(** The state [create] leaves, and the response or the exception. The loops
    raise on corrupted tables only ([evictions_terminate]); what they leave
    then is not modelled. *)
Definition create (limits : Limits) (binding : pyres (Timeframe * StrategyIdentity)) (clock : nat -> Z)
    (uuid : string) (now utc : datetime) (request : ProductionAnalysisRequest) (st : EvaluationJobs) :
    EvaluationJobs * pyres EvaluationJobResponse :=
  match binding with
  | Raise e => (st, Raise e)
  | Ok binding =>
      match _expire (retention limits) clock (jobs st) with
      | Raise e => (st, Raise e)
      | Ok js =>
          if closed st || (max_active limits <=? active js) then (mkEvaluationJobs js (closed st), Raise BUSY)
          else match evict_jobs (length js) (max_jobs limits) js with
          | Raise e => (mkEvaluationJobs js (closed st), Raise e)
          | Ok js =>
              if max_jobs limits <=? Z.of_nat (length js) then (mkEvaluationJobs js (closed st), Raise BUSY)
              else
                let job := new_job binding request uuid now utc in
                (mkEvaluationJobs (js ++ [job]) (closed st), _status job)
          end
      end
  end.

(** The job [id] is changed, if the table still has it. *)
Definition update (id : string) (f : _Job -> _Job) (st : EvaluationJobs) : EvaluationJobs :=
  mkEvaluationJobs (map (fun j => if bool_decide (evaluation_id j = id) then f j else j) (jobs st)) (closed st).

(** The assignments of [_run]. *)
Definition with_start (utc : datetime) (j : _Job) : _Job :=
  mkJob (evaluation_id j) (request j) (timeframe j) (cutoff j) (strategy_identity j) (created_at j)
    EvaluationStatus.RUNNING (Some utc) (completed_at j) (data j) (job_failure j) (bodies j)
    (Task.mkTask Task.Suspended (Task.cancelling (task j))) (terminal_monotonic j).
Definition with_data (d : EvaluationDataIdentity) (j : _Job) : _Job :=
  mkJob (evaluation_id j) (request j) (timeframe j) (cutoff j) (strategy_identity j) (created_at j)
    (status j) (started_at j) (completed_at j) (Some d) (job_failure j) (bodies j) (task j) (terminal_monotonic j).
Definition with_identity (i : StrategyIdentity) (j : _Job) : _Job :=
  mkJob (evaluation_id j) (request j) (timeframe j) (cutoff j) i (created_at j)
    (status j) (started_at j) (completed_at j) (data j) (job_failure j) (bodies j) (task j) (terminal_monotonic j).
Definition with_task (t : Task) (j : _Job) : _Job :=
  mkJob (evaluation_id j) (request j) (timeframe j) (cutoff j) (strategy_identity j) (created_at j)
    (status j) (started_at j) (completed_at j) (data j) (job_failure j) (bodies j) t (terminal_monotonic j).

(** The end of [_run] with its [finally]: the task is finished. *)
Definition with_end (s : EvaluationStatus) (f : option EvaluationFailure) (b : option (string * string))
    (utc : datetime) (mono : Z) (j : _Job) : _Job :=
  mkJob (evaluation_id j) (request j) (timeframe j) (cutoff j) (strategy_identity j) (created_at j)
    s (started_at j) (Some utc) (data j) f b (Task.mkTask Task.Done (Task.cancelling (task j))) (Some mono).

(** The [except] clauses of [_run]. *)
Definition failed (e : failure) (utc : datetime) (mono : Z) (j : _Job) : _Job :=
  match e with
  | CancelledError => with_end EvaluationStatus.CANCELLED (job_failure j) (bodies j) utc mono j
  | AppError code message =>
      with_end EvaluationStatus.FAILED (Some (EvaluationFailure.mkEvaluationFailure code message)) (bodies j) utc mono j
  | TimeoutError =>
      with_end EvaluationStatus.FAILED (Some (EvaluationFailure.mkEvaluationFailure "STRATEGY_EVALUATION_TIMEOUT"
        "Evaluation exceeded its execution lifetime.")) (bodies j) utc mono j
  | OtherException =>
      with_end EvaluationStatus.FAILED (Some (EvaluationFailure.mkEvaluationFailure "STRATEGY_EVALUATION_FAILED"
        "Evaluation could not complete.")) (bodies j) utc mono j
  end.

(** What [complete_response] came back with, from the [await] to the end. *)
Definition finish (limits : Limits) (id : string) (outcome : (string * string) + failure) (utc : datetime) (mono : Z)
    (st : EvaluationJobs) : EvaluationJobs :=
  match outcome with
  | inr e => update id (failed e utc mono) st
  | inl b =>
      let size := body_size b in
      if max_retained_bytes limits <? size then
        update id (failed (AppError "EVALUATION_RESULT_TOO_LARGE"
          "The complete result exceeds available retention capacity.") utc mono) st
      else match evict_bodies (length (jobs st)) (max_retained_bytes limits) size (jobs st) with
      | Raise _ => update id (failed OtherException utc mono) st
      | Ok js =>
          update id (fun j => with_end EvaluationStatus.COMPLETED (job_failure j) (Some b) utc mono j)
            (mkEvaluationJobs js (closed st))
      end
  end.

(** [_get]; [authorized] is the answer of [_authorize_cutoff]. *)
Definition NOT_FOUND : pyexc := Exc "EVALUATION_NOT_FOUND" "Evaluation does not exist or has expired.".

Definition _get (limits : Limits) (id : string) (authorized : pyres unit) (clock : nat -> Z) (st : EvaluationJobs) :
    EvaluationJobs * pyres _Job :=
  match _expire (retention limits) clock (jobs st) with
  | Raise e => (st, Raise e)
  | Ok js =>
      (mkEvaluationJobs js (closed st),
       match List.find (fun j => bool_decide (evaluation_id j = id)) js with
       | None => Raise NOT_FOUND
       | Some job => _ ← authorized; Ok job
       end)
  end.

Definition result (job : _Job) (signal : bool) : pyres string :=
  match bodies job with
  | Some b =>
      if bool_decide (status job = EvaluationStatus.COMPLETED) then Ok (if signal then b.1 else b.2)
      else Raise (Exc "EVALUATION_NOT_COMPLETED" "A complete validated result is not available.")
  | None => Raise (Exc "EVALUATION_NOT_COMPLETED" "A complete validated result is not available.")
  end.

(** [job.task.cancel()] on a task that is not finished. *)
Definition request_cancel (j : _Job) : _Job :=
  if bool_decide (Task.phase (task j) = Task.Done) then j else with_task (Task.mkTask (Task.phase (task j)) true) j.

(** [cancel] up to its [await]. *)
Definition cancel_start (id : string) (st : EvaluationJobs) : EvaluationJobs :=
  update id (fun j => if terminal j then j else request_cancel j) st.

(** [cancel] after its [await]: the task is finished. *)
Definition cancel_end (id : string) (utc : datetime) (mono : Z) (st : EvaluationJobs) : EvaluationJobs :=
  update id (fun j =>
    if bool_decide (status j = EvaluationStatus.PENDING)
    then with_end EvaluationStatus.CANCELLED (job_failure j) (bodies j) utc mono j else j) st.

(** [aclose] up to its [await], and after it. *)
Definition aclose_start (st : EvaluationJobs) : EvaluationJobs :=
  mkEvaluationJobs (map request_cancel (jobs st)) true.
Definition aclose_end (st : EvaluationJobs) : EvaluationJobs := mkEvaluationJobs [] (closed st).

(** ** The interleaving *)

Definition phase_of (p : Task.Phase) (j : _Job) : Prop := Task.phase (task j) = p.

(** What the evaluation service promises of its answer for job [j]: bodies
    come after the prepared data, and an error has a code and a message. *)
Definition answers (j : _Job) (outcome : (string * string) + failure) : Prop :=
  match outcome with
  | inl _ => data j <> None
  | inr (AppError code message) => EvaluationFailure.valid (EvaluationFailure.mkEvaluationFailure code message) = true
  | inr _ => True
  end.

Inductive step (limits : Limits) (st : EvaluationJobs) : EvaluationJobs -> Prop :=
| step_create binding clock uuid now utc request :
    Forall (fun j => evaluation_id j <> uuid) (jobs st) ->
    step limits st (create limits binding clock uuid now utc request st).1
| step_start j utc : j ∈ jobs st -> phase_of Task.Scheduled j -> Task.cancelling (task j) = false ->
    step limits st (update (evaluation_id j) (with_start utc) st)
| step_drop j : j ∈ jobs st -> phase_of Task.Scheduled j -> Task.cancelling (task j) = true ->
    step limits st (update (evaluation_id j) (with_task (Task.mkTask Task.Done true)) st)
| step_prepared j d : j ∈ jobs st -> phase_of Task.Suspended j ->
    step limits st (update (evaluation_id j) (with_data d) st)
| step_evaluated j i : j ∈ jobs st -> phase_of Task.Suspended j ->
    step limits st (update (evaluation_id j) (with_identity i) st)
| step_finish j outcome utc mono : j ∈ jobs st -> phase_of Task.Suspended j -> answers j outcome ->
    step limits st (finish limits (evaluation_id j) outcome utc mono st)
| step_get id authorized clock : step limits st (_get limits id authorized clock st).1
| step_cancel_start j : j ∈ jobs st -> step limits st (cancel_start (evaluation_id j) st)
| step_cancel_end j utc mono : j ∈ jobs st -> phase_of Task.Done j ->
    step limits st (cancel_end (evaluation_id j) utc mono st)
| step_aclose_start : step limits st (aclose_start st)
| step_aclose_end : closed st = true -> Forall (phase_of Task.Done) (jobs st) -> step limits st (aclose_end st).

Inductive reachable (limits : Limits) : EvaluationJobs -> Prop :=
| reachable_init : reachable limits (mkEvaluationJobs [] false)
| reachable_step st st' : reachable limits st -> step limits st st' -> reachable limits st'.

(** ** Removing finished jobs *)

Inductive drops : list _Job -> list _Job -> Prop :=
| drops_refl js : drops js js
| drops_one l1 j l2 js : terminal j = true -> drops (l1 ++ l2) js -> drops (l1 ++ j :: l2) js.

Lemma drops_trans js1 js2 js3 : drops js1 js2 -> drops js2 js3 -> drops js1 js3.
Proof. induction 1; [done|]. intros. constructor; auto. Qed.

Lemma elem_terminal_jobs js j : j ∈ _terminal_jobs js <-> j ∈ js /\ terminal j = true.
Proof.
  unfold _terminal_jobs. by rewrite elem_of_sort_by, !list_elem_of_In, List.filter_In.
Qed.

Lemma pop_middle l1 j l2 : NoDup (evaluation_id <$> l1 ++ j :: l2) -> pop (evaluation_id j) (l1 ++ j :: l2) = Ok (l1 ++ l2).
Proof.
  intros Hnd. unfold pop. replace (existsb _ _) with true.
  2: { symmetry. apply existsb_exists. exists j. split; [apply in_elt|]. by rewrite bool_decide_true. }
  f_equal. rewrite List.filter_app. cbn [List.filter]. rewrite bool_decide_true by done. cbn [negb].
  rewrite fmap_app in Hnd. apply NoDup_app in Hnd as (_ & H1 & H2). cbn in H2. apply NoDup_cons in H2 as [H2 _].
  assert (forall l, evaluation_id j ∉ evaluation_id <$> l ->
    List.filter (fun j0 => negb (bool_decide (evaluation_id j0 = evaluation_id j))) l = l) as Hf.
  { induction l as [|x l IH]; intros Hx; [done|]. cbn [fmap list_fmap] in Hx. apply not_elem_of_cons in Hx as [Hx1 Hx2].
    cbn [List.filter]. rewrite bool_decide_false by congruence. cbn [negb]. f_equal. by apply IH. }
  rewrite !Hf; [done|done|]. intros Hin. apply (H1 _ Hin). cbn. constructor.
Qed.

Lemma pop_terminal js j : NoDup (evaluation_id <$> js) -> j ∈ js -> terminal j = true ->
  exists js', pop (evaluation_id j) js = Ok js' /\ drops js js' /\ S (length js') = length js
    /\ (forall x, x ∈ js -> evaluation_id x <> evaluation_id j -> x ∈ js').
Proof.
  intros Hnd Hj Ht. apply list_elem_of_split in Hj as (l1 & l2 & ->). exists (l1 ++ l2).
  split_and!; [by apply pop_middle|by repeat constructor|rewrite !length_app; cbn; lia|].
  intros x Hx Hne. rewrite elem_of_app in *. rewrite elem_of_cons in Hx. naive_solver.
Qed.

Lemma drops_nodup js js' : drops js js' -> NoDup (evaluation_id <$> js) -> NoDup (evaluation_id <$> js').
Proof.
  induction 1 as [|l1 j l2 js Ht _ IH]; [done|]. intros H. apply IH. rewrite fmap_app in *.
  eapply sublist_NoDup; [exact H|]. apply sublist_app; [done|]. cbn. by apply sublist_cons.
Qed.

Lemma drops_elem js js' x : drops js js' -> x ∈ js' -> x ∈ js.
Proof.
  induction 1 as [|l1 j l2 js Ht _ IH]; [done|]. intros H. specialize (IH H). rewrite elem_of_app, elem_of_cons in *. tauto.
Qed.

(** An active job is never dropped. *)
Lemma drops_active js js' x : drops js js' -> x ∈ js -> terminal x = false -> x ∈ js'.
Proof.
  induction 1 as [|l1 j l2 js Ht _ IH]; [done|]. intros Hx Hf. apply IH; [|done].
  rewrite elem_of_app, elem_of_cons in *. destruct Hx as [|[->|]]; [tauto|congruence|tauto].
Qed.

Lemma active_app l1 l2 : active (l1 ++ l2) = active l1 + active l2.
Proof. unfold active. rewrite List.filter_app, length_app. lia. Qed.
Lemma active_cons j l : active (j :: l) = (if terminal j then 0 else 1) + active l.
Proof. unfold active. cbn [List.filter]. destruct (terminal j); cbn [negb length]; lia. Qed.
Lemma retained_app l1 l2 : retained_size (l1 ++ l2) = retained_size l1 + retained_size l2.
Proof. induction l1 as [|j l1 IH]; cbn [app retained_size]; lia. Qed.
Lemma retained_nonneg js : 0 <= retained_size js.
Proof. induction js as [|j js IH]; cbn [retained_size]; [lia|]. destruct (bodies j); unfold body_size; lia. Qed.

Lemma drops_sizes js js' : drops js js' ->
  active js' = active js /\ (length js' <= length js)%nat /\ retained_size js' <= retained_size js.
Proof.
  induction 1 as [|l1 j l2 js Ht _ (IH1 & IH2 & IH3)]; [lia|].
  rewrite active_app in *. rewrite active_cons, Ht. rewrite length_app in *. cbn [length].
  rewrite retained_app in *. cbn [retained_size]. destruct (bodies j); unfold body_size; lia.
Qed.

(** ** Well-formed jobs *)

Definition job_wf (j : _Job) : Prop :=
  match status j with
  | EvaluationStatus.PENDING => completed_at j = None /\ terminal_monotonic j = None
      /\ job_failure j = None /\ bodies j = None /\ ~ phase_of Task.Suspended j
  | EvaluationStatus.RUNNING => is_Some (started_at j) /\ completed_at j = None /\ terminal_monotonic j = None
      /\ job_failure j = None /\ bodies j = None /\ phase_of Task.Suspended j
  | EvaluationStatus.COMPLETED => is_Some (completed_at j) /\ is_Some (terminal_monotonic j) /\ is_Some (data j)
      /\ job_failure j = None /\ is_Some (bodies j) /\ phase_of Task.Done j
  | EvaluationStatus.FAILED => is_Some (completed_at j) /\ is_Some (terminal_monotonic j)
      /\ (exists f, job_failure j = Some f /\ EvaluationFailure.valid f = true) /\ bodies j = None /\ phase_of Task.Done j
  | EvaluationStatus.CANCELLED => is_Some (completed_at j) /\ is_Some (terminal_monotonic j)
      /\ job_failure j = None /\ bodies j = None /\ phase_of Task.Done j
  end.

Lemma wf_terminal_time j : job_wf j -> terminal j = true -> is_Some (terminal_monotonic j).
Proof. unfold job_wf, terminal. destruct (status j); cbn; naive_solver. Qed.

(** Only finished jobs hold bodies. *)
Lemma wf_active_bodies j : job_wf j -> terminal j = false -> bodies j = None.
Proof. unfold job_wf, terminal. destruct (status j); cbn; naive_solver. Qed.

Lemma retained_active js : Forall job_wf js -> _terminal_jobs js = [] -> retained_size js = 0.
Proof.
  intros Hwf Ht. assert (Forall (fun j => terminal j = false) js) as Hall.
  { apply Forall_forall. intros j Hj. apply not_true_is_false. intros Hter.
    assert (j ∈ _terminal_jobs js) as H by by apply elem_terminal_jobs. rewrite Ht in H. by apply elem_of_nil in H. }
  clear Ht. induction Hwf as [|j js Hj _ IH]; [done|]. cbn [retained_size]. apply Forall_cons in Hall as [Hja Hall].
  rewrite (wf_active_bodies j) by done. by rewrite IH.
Qed.

Lemma drops_wf (P : _Job -> Prop) js js' : drops js js' -> Forall P js -> Forall P js'.
Proof. intros Hd H. rewrite Forall_forall in *. intros x Hx. apply H. by eapply drops_elem. Qed.

(** ** The loops end without an exception *)

Lemma expire_fold retention clock entries js : NoDup (evaluation_id <$> js) ->
  NoDup ((fun e : nat * _Job => evaluation_id e.2) <$> entries) ->
  Forall (fun e : nat * _Job => e.2 ∈ js /\ terminal e.2 = true /\ is_Some (terminal_monotonic e.2)) entries ->
  exists js', py_fold (expire_one retention clock) js entries = Ok js' /\ drops js js'.
Proof.
  revert js. induction entries as [|[i j] entries IH]; intros js Hnd Hne Hall; cbn [py_fold].
  { exists js. split; [done|constructor]. }
  apply Forall_cons in Hall as [(Hj & Ht & [since Hs]) Hall]. cbn [fmap list_fmap] in Hne.
  apply NoDup_cons in Hne as [Hn Hne]. cbn [snd] in *. unfold expire_one at 1. cbn [fst snd]. rewrite Hs.
  destruct (retention <=? clock i - since); [|by apply IH].
  destruct (pop_terminal js j Hnd Hj Ht) as (js1 & -> & Hd & _ & Hkeep).
  destruct (IH js1) as (js' & H' & Hd'); [by eapply drops_nodup|done| |].
  - rewrite Forall_forall in *. intros e He. destruct (Hall e He) as (H1 & H2 & H3). split_and!; [|done|done].
    apply Hkeep; [done|]. intros E. apply Hn. rewrite <-E. by apply (list_elem_of_fmap_2 (fun e : nat * _Job => evaluation_id e.2)).
  - exists js'. split; [done|]. by eapply drops_trans.
Qed.

Lemma terminal_nodup js : NoDup (evaluation_id <$> js) -> NoDup (evaluation_id <$> _terminal_jobs js).
Proof.
  intros H. unfold _terminal_jobs.
  assert (NoDup (evaluation_id <$> List.filter terminal js)) as Hf.
  { induction js as [|j js IH]; [done|]. cbn in H. apply NoDup_cons in H as [Hj H]. cbn [List.filter].
    destruct (terminal j); [|by apply IH]. cbn. apply NoDup_cons. split; [|by apply IH].
    intros Hin. apply Hj. apply list_elem_of_fmap in Hin as (x & -> & Hx). apply list_elem_of_fmap_2.
    apply list_elem_of_In. apply list_elem_of_In, List.filter_In in Hx. tauto. }
  by rewrite <-(sort_by_Permutation (on_key terminal_key Z.ltb) (List.filter terminal js)).
Qed.

Lemma expire_ok retention clock js : NoDup (evaluation_id <$> js) -> Forall job_wf js ->
  exists js', _expire retention clock js = Ok js' /\ drops js js'.
Proof.
  intros Hnd Hwf. unfold _expire. apply expire_fold; [done| |].
  - assert ((fun e : nat * _Job => evaluation_id e.2) <$> enumerate (_terminal_jobs js)
      = evaluation_id <$> (snd <$> enumerate (_terminal_jobs js))) as -> by by rewrite <-list_fmap_compose.
    unfold enumerate. rewrite snd_zip by (by rewrite length_seq). by apply terminal_nodup.
  - apply Forall_forall. intros [i j] Hin. cbn [snd]. apply elem_of_enumerate in Hin. apply list_elem_of_lookup_2 in Hin.
    apply elem_terminal_jobs in Hin as [Hj Ht]. split_and!; [done|done|]. apply wf_terminal_time; [|done].
    rewrite Forall_forall in Hwf. by apply Hwf.
Qed.

Lemma evict_jobs_ok fuel max_jobs js : NoDup (evaluation_id <$> js) -> (length js <= fuel)%nat ->
  exists js', evict_jobs fuel max_jobs js = Ok js' /\ drops js js'
    /\ (Z.of_nat (length js') < max_jobs \/ _terminal_jobs js' = []).
Proof.
  revert js. induction fuel as [|fuel IH]; intros js Hnd Hf; cbn [evict_jobs];
    (destruct (_terminal_jobs js) as [|oldest rest] eqn:Et; [exists js; split_and!; [done|constructor|by right]|]);
    assert (oldest ∈ js /\ terminal oldest = true) as [Hj Ht] by (apply elem_terminal_jobs; rewrite Et; constructor).
  - destruct js; [by apply elem_of_nil in Hj|cbn in Hf; lia].
  - destruct (Z.leb_spec max_jobs (Z.of_nat (length js))); [|exists js; split_and!; [done|constructor|by left]].
    destruct (pop_terminal js oldest Hnd Hj Ht) as (js1 & -> & Hd & Hlen & _). cbn [mbind pyres_bind].
    destruct (IH js1) as (js' & H1 & H2 & H3); [by eapply drops_nodup|lia|].
    exists js'. split_and!; [done|by eapply drops_trans|done].
Qed.

Lemma evict_bodies_ok fuel max_retained size js : NoDup (evaluation_id <$> js) -> Forall job_wf js ->
  size <= max_retained -> (length js <= fuel)%nat ->
  exists js', evict_bodies fuel max_retained size js = Ok js' /\ drops js js'
    /\ retained_size js' + size <= max_retained.
Proof.
  intros Hnd Hwf Hsize. revert js Hnd Hwf. induction fuel as [|fuel IH]; intros js Hnd Hwf Hf; cbn [evict_bodies];
    (destruct (Z.ltb_spec max_retained (retained_size js + size)) as [Hlt|Hle];
      [|exists js; split_and!; [done|constructor|lia]]);
    (destruct (_terminal_jobs js) as [|oldest rest] eqn:Et; [rewrite retained_active in Hlt by done; lia|]);
    assert (oldest ∈ js /\ terminal oldest = true) as [Hj Ht] by (apply elem_terminal_jobs; rewrite Et; constructor).
  - destruct js; [by apply elem_of_nil in Hj|cbn in Hf; lia].
  - destruct (pop_terminal js oldest Hnd Hj Ht) as (js1 & -> & Hd & Hlen & _). cbn [mbind pyres_bind].
    destruct (IH js1) as (js' & H1 & H2 & H3); [by eapply drops_nodup|by eapply drops_wf|lia|].
    exists js'. split_and!; [done|by eapply drops_trans|done].
Qed.

(** ** The invariant *)

Record jobs_inv (limits : Limits) (st : EvaluationJobs) : Prop := {
  ji_ids : NoDup (evaluation_id <$> jobs st);
  ji_wf : Forall job_wf (jobs st);
  ji_jobs : Z.of_nat (length (jobs st)) <= max_jobs limits;
  ji_active : active (jobs st) <= max_active limits;
  ji_retained : retained_size (jobs st) <= max_retained_bytes limits
}.

Lemma update_middle l1 j l2 c f : NoDup (evaluation_id <$> l1 ++ j :: l2) ->
  update (evaluation_id j) f (mkEvaluationJobs (l1 ++ j :: l2) c) = mkEvaluationJobs (l1 ++ f j :: l2) c.
Proof.
  intros Hnd. unfold update. cbn [jobs closed]. f_equal. rewrite map_app. cbn [map]. rewrite bool_decide_true by done.
  rewrite fmap_app in Hnd. apply NoDup_app in Hnd as (_ & H1 & H2). cbn in H2. apply NoDup_cons in H2 as [H2 _].
  assert (forall l, evaluation_id j ∉ evaluation_id <$> l ->
    map (fun j0 => if bool_decide (evaluation_id j0 = evaluation_id j) then f j0 else j0) l = l) as Hf.
  { induction l as [|x l IH]; intros Hx; [done|]. cbn [fmap list_fmap] in Hx. apply not_elem_of_cons in Hx as [Hx1 Hx2].
    cbn [map]. rewrite bool_decide_false by congruence. f_equal. by apply IH. }
  rewrite !Hf; [done|done|]. intros Hin. apply (H1 _ Hin). cbn. constructor.
Qed.

Definition job_bytes (j : _Job) : Z := match bodies j with Some b => body_size b | None => 0 end.

(** Changing one job. *)
Lemma update_inv limits st j f : jobs_inv limits st -> j ∈ jobs st -> evaluation_id (f j) = evaluation_id j ->
  job_wf (f j) -> (terminal j = true -> terminal (f j) = true) ->
  (bodies (f j) = bodies j \/ job_bytes (f j) + retained_size (jobs st) <= max_retained_bytes limits) ->
  jobs_inv limits (update (evaluation_id j) f st).
Proof.
  intros [H1 H2 H3 H4 H5] Hj Hid Hwf Hter Hb. destruct st as [js c]. cbn [jobs closed] in *.
  apply list_elem_of_split in Hj as (l1 & l2 & ->). rewrite update_middle by done.
  split; cbn [jobs].
  - rewrite fmap_app in *. cbn in *. by rewrite Hid.
  - apply Forall_app in H2 as [H2 H2']. apply Forall_cons in H2' as [_ H2']. apply Forall_app; split; [done|]. by apply Forall_cons.
  - rewrite length_app in *. exact H3.
  - rewrite active_app, active_cons in *. destruct (terminal j); [rewrite Hter by done; lia|]. destruct (terminal (f j)); lia.
  - rewrite retained_app in *. cbn [retained_size] in *. fold (job_bytes j) in *. fold (job_bytes (f j)).
    pose proof (retained_nonneg l1). pose proof (retained_nonneg l2).
    assert (0 <= job_bytes j) by (unfold job_bytes, body_size; destruct (bodies j); lia).
    destruct Hb as [Hb|Hb]; [|lia]. unfold job_bytes in *. rewrite Hb. lia.
Qed.

Lemma drops_inv limits st js : jobs_inv limits st -> drops (jobs st) js -> jobs_inv limits (mkEvaluationJobs js (closed st)).
Proof.
  intros [H1 H2 H3 H4 H5] Hd. destruct (drops_sizes _ _ Hd) as (E1 & E2 & E3).
  split; cbn [jobs]; [by eapply drops_nodup|by eapply drops_wf|lia|lia|lia].
Qed.

Lemma new_job_wf binding request uuid now utc : job_wf (new_job binding request uuid now utc).
Proof. cbn. repeat split; done. Qed.

(** What [create] does on a sound table, on every branch. *)
Lemma create_spec limits binding clock uuid now utc request st : jobs_inv limits st ->
  exists js, drops (jobs st) js /\
  ((exists e, binding = Raise e /\ create limits (Raise e) clock uuid now utc request st = (st, Raise e) /\ js = jobs st)
   \/ (exists b, binding = Ok b /\
        ((closed st || (max_active limits <=? active js) = true
          /\ create limits binding clock uuid now utc request st = (mkEvaluationJobs js (closed st), Raise BUSY))
         \/ (closed st || (max_active limits <=? active js) = false /\ max_jobs limits <= active js
              /\ create limits binding clock uuid now utc request st = (mkEvaluationJobs js (closed st), Raise BUSY))
         \/ (closed st || (max_active limits <=? active js) = false /\ Z.of_nat (length js) < max_jobs limits
              /\ let job := new_job b request uuid now utc in
                 create limits binding clock uuid now utc request st
                 = (mkEvaluationJobs (js ++ [job]) (closed st), _status job))))).
Proof.
  intros HI. destruct binding as [b|e]; [|exists (jobs st); split; [constructor|left; eauto]].
  destruct (expire_ok (retention limits) clock (jobs st) (ji_ids _ _ HI) (ji_wf _ _ HI)) as (js & He & Hd).
  unfold create. rewrite He. destruct (closed st || (max_active limits <=? active js)) eqn:Eb.
  { exists js. split; [done|]. right. exists b. split; [done|]. by left. }
  destruct (evict_jobs_ok (length js) (max_jobs limits) js) as (js' & Hv & Hd' & Hend);
    [by eapply drops_nodup, HI|done|].
  destruct (drops_sizes _ _ Hd') as (Ea & _ & _). exists js'. split; [by eapply drops_trans|]. right. exists b. split; [done|].
  rewrite Hv, Ea. destruct (Z.leb_spec (max_jobs limits) (Z.of_nat (length js'))) as [Hm|Hm]; right.
  - left. split_and!; [done| |done]. destruct Hend as [|Hend]; [lia|]. rewrite <-Ea. unfold active.
    assert (List.filter (fun j => negb (terminal j)) js' = js') as ->; [|done].
    assert (forall x, x ∈ js' -> terminal x = false) as Hall.
    { intros x Hx. apply not_true_is_false. intros Ht.
      assert (x ∈ _terminal_jobs js') as H by by apply elem_terminal_jobs. rewrite Hend in H. by apply elem_of_nil in H. }
    clear -Hall. induction js' as [|x l IH]; [done|]. cbn [List.filter]. rewrite Hall by constructor. cbn [negb].
    f_equal. apply IH. intros y Hy. apply Hall. by constructor.
  - right. done.
Qed.

Lemma create_inv limits binding clock uuid now utc request st : jobs_inv limits st ->
  Forall (fun j => evaluation_id j <> uuid) (jobs st) ->
  jobs_inv limits (create limits binding clock uuid now utc request st).1.
Proof.
  intros HI Hfresh. destruct (create_spec limits binding clock uuid now utc request st HI) as (js & Hd & Hc).
  pose proof (drops_inv _ _ _ HI Hd) as HI'.
  destruct Hc as [(e & -> & -> & _)|(b & -> & [(_ & ->)|[(_ & _ & ->)|(Hb & Hlen & ->)]])]; [done|done|done|].
  apply orb_false_iff in Hb as [_ Hb]. apply Z.leb_gt in Hb. destruct HI' as [H1 H2 H3 H4 H5]. cbn [jobs fst] in *.
  split; cbn [jobs].
  - rewrite fmap_app. apply NoDup_app. split_and!; [done| |apply NoDup_singleton].
    intros i Hi Hi'. apply list_elem_of_singleton in Hi'. cbn in Hi'. subst i.
    apply list_elem_of_fmap in Hi as (x & Hx & Hin). rewrite Forall_forall in Hfresh.
    apply (Hfresh x); [by eapply drops_elem|done].
  - apply Forall_app. split; [done|]. apply Forall_singleton. apply new_job_wf.
  - rewrite length_app. cbn [length]. lia.
  - rewrite active_app. change (active [new_job b request uuid now utc]) with 1. lia.
  - rewrite retained_app. cbn [retained_size new_job bodies]. lia.
Qed.

Lemma wf_scheduled j : job_wf j -> phase_of Task.Scheduled j -> status j = EvaluationStatus.PENDING.
Proof. unfold job_wf, phase_of. intros H Hp. destruct (status j); try done; destruct_and!; congruence. Qed.

Lemma wf_suspended j : job_wf j -> phase_of Task.Suspended j -> status j = EvaluationStatus.RUNNING.
Proof. unfold job_wf, phase_of. intros H Hp. destruct (status j); try done; destruct_and!; congruence. Qed.

Lemma status_active j s : status j = s -> TERMINAL_EVALUATION_STATUSES s = false -> terminal j = true -> False.
Proof. unfold terminal. intros ->. congruence. Qed.

Lemma request_cancel_same j : job_wf j -> evaluation_id (request_cancel j) = evaluation_id j
  /\ job_wf (request_cancel j) /\ status (request_cancel j) = status j /\ bodies (request_cancel j) = bodies j.
Proof.
  intros H. unfold request_cancel. case_bool_decide; [done|]. split_and!; [done| |done|done].
  unfold job_wf, phase_of in *. cbn. destruct (status j); naive_solver.
Qed.

Lemma failed_wf e utc mono j : job_wf j -> phase_of Task.Suspended j -> answers j (inr e) ->
  job_wf (failed e utc mono j) /\ evaluation_id (failed e utc mono j) = evaluation_id j
  /\ terminal (failed e utc mono j) = true /\ bodies (failed e utc mono j) = bodies j.
Proof.
  intros Hwf Hp Ha. pose proof (wf_suspended j Hwf Hp) as Hs. unfold job_wf in Hwf. rewrite Hs in Hwf.
  destruct Hwf as (_ & _ & _ & Hf & Hb & _).
  destruct e; (refine (conj _ (conj _ (conj _ _))); [|done|done|done]);
    unfold job_wf, phase_of; cbn; rewrite ?Hf, ?Hb; repeat (split; eauto).
Qed.

Lemma finish_inv limits st j outcome utc mono : jobs_inv limits st -> j ∈ jobs st -> phase_of Task.Suspended j ->
  answers j outcome -> jobs_inv limits (finish limits (evaluation_id j) outcome utc mono st).
Proof.
  intros HI Hj Hp Ha. pose proof (ji_wf _ _ HI) as Hwfs. rewrite Forall_forall in Hwfs. specialize (Hwfs j Hj).
  assert (forall e, answers j (inr e) -> jobs_inv limits (update (evaluation_id j) (failed e utc mono) st)) as Hfail.
  { intros e He. destruct (failed_wf e utc mono j Hwfs Hp He) as (H1 & H2 & H3 & H4). apply update_inv; auto. }
  unfold finish. destruct outcome as [b|e]; [|by apply Hfail].
  destruct (Z.ltb_spec (max_retained_bytes limits) (body_size b)) as [Hlt|Hle]; [by apply Hfail|].
  destruct (evict_bodies_ok (length (jobs st)) (max_retained_bytes limits) (body_size b) (jobs st)) as (js & -> & Hd & Hr);
    [apply HI|apply HI|done|done|].
  pose proof (wf_suspended j Hwfs Hp) as Hs.
  assert (terminal j = false) as Hter by (unfold terminal; by rewrite Hs).
  apply (update_inv limits (mkEvaluationJobs js (closed st)) j).
  - by apply drops_inv.
  - cbn [jobs]. by eapply drops_active.
  - done.
  - unfold job_wf in *. rewrite Hs in Hwfs. cbn. cbn in Ha. split_and!; eauto; [by destruct (data j)|naive_solver|done].
  - done.
  - right. cbn. lia.
Qed.

Lemma map_inv limits st (f : _Job -> _Job) c : jobs_inv limits st ->
  (forall j, job_wf j -> evaluation_id (f j) = evaluation_id j /\ job_wf (f j) /\ status (f j) = status j /\ bodies (f j) = bodies j) ->
  jobs_inv limits (mkEvaluationJobs (map f (jobs st)) c).
Proof.
  intros [H1 H2 H3 H4 H5] Hf. cut (evaluation_id <$> map f (jobs st) = evaluation_id <$> jobs st /\ Forall job_wf (map f (jobs st))
    /\ active (map f (jobs st)) = active (jobs st) /\ retained_size (map f (jobs st)) = retained_size (jobs st)).
  { intros (E1 & E2 & E3 & E4). split; cbn [jobs]; [by rewrite E1|done|by rewrite length_map|lia|lia]. }
  clear -H2 Hf. induction H2 as [|j js Hj _ (I1 & I2 & I3 & I4)]; [done|]. destruct (Hf j Hj) as (F1 & F2 & F3 & F4).
  cbn [map fmap list_fmap retained_size]. rewrite !active_cons. unfold terminal. rewrite F1, F3, F4.
  change (list_fmap _ _ evaluation_id ?l) with (evaluation_id <$> l). split_and!; [by f_equal|by constructor|lia|lia].
Qed.

Lemma step_inv limits st st' : valid_limits limits = true -> jobs_inv limits st -> step limits st st' -> jobs_inv limits st'.
Proof.
  intros Hl HI Hstep. pose proof (ji_wf _ _ HI) as Hwfs. rewrite Forall_forall in Hwfs.
  destruct Hstep as [| j utc Hj Hp _| j Hj Hp _| j d Hj Hp| j i Hj Hp| j outcome utc mono Hj Hp Ha
    | id authorized clock| j Hj| j utc mono Hj Hp| |].
  - by apply create_inv.
  - specialize (Hwfs j Hj). pose proof (wf_scheduled j Hwfs Hp) as Hs. apply update_inv; auto.
    + unfold job_wf in *. rewrite Hs in Hwfs. cbn. unfold phase_of. cbn. naive_solver.
    + intros Ht. by destruct (status_active j _ Hs).
  - specialize (Hwfs j Hj). pose proof (wf_scheduled j Hwfs Hp) as Hs. apply update_inv; auto.
    unfold job_wf, phase_of in *. rewrite Hs in Hwfs. cbn. rewrite Hs. cbn. naive_solver.
  - specialize (Hwfs j Hj). pose proof (wf_suspended j Hwfs Hp) as Hs. apply update_inv; auto.
    unfold job_wf, phase_of in *. rewrite Hs in Hwfs. cbn. rewrite Hs. naive_solver.
  - specialize (Hwfs j Hj). apply update_inv; auto.
  - by apply finish_inv.
  - unfold _get. destruct (expire_ok (retention limits) clock (jobs st)) as (js & -> & Hd); [apply HI|apply HI|]. by apply drops_inv.
  - specialize (Hwfs j Hj). destruct (request_cancel_same j Hwfs) as (F1 & F2 & F3 & F4).
    apply update_inv; auto; destruct (terminal j) eqn:Et; auto. unfold terminal. by rewrite F3.
  - specialize (Hwfs j Hj). apply update_inv; auto; case_bool_decide as Hs; auto.
    unfold job_wf, phase_of in *. rewrite Hs in Hwfs. cbn. naive_solver.
  - apply map_inv; [done|]. apply request_cancel_same.
  - unfold valid_limits in Hl. bool_hyps. split; cbn [jobs aclose_end length retained_size]; [apply NoDup_nil_2|apply Forall_nil_2|lia|change (active []) with 0; lia|lia].
Qed.

Lemma reachable_inv limits st : valid_limits limits = true -> reachable limits st -> jobs_inv limits st.
Proof.
  intros Hl. induction 1 as [|st st' _ IH Hstep]; [|by eapply step_inv].
  unfold valid_limits in Hl. bool_hyps. split; cbn [jobs aclose_end length retained_size]; [apply NoDup_nil_2|apply Forall_nil_2|lia|change (active []) with 0; lia|lia].
Qed.

(** ** Finished jobs *)

Lemma update_elem id f st x : x ∈ jobs (update id f st) -> exists j, j ∈ jobs st
  /\ ((evaluation_id j = id /\ x = f j) \/ (evaluation_id j <> id /\ x = j)).
Proof.
  unfold update. cbn [jobs]. intros Hx. apply list_elem_of_fmap in Hx as (j & -> & Hj). exists j. split; [done|].
  case_bool_decide; auto.
Qed.

(** A change of an active job leaves the finished ones alone. *)
Lemma update_finished limits st j0 f j x : jobs_inv limits st -> j0 ∈ jobs st -> terminal j0 = false \/ f j = j ->
  (forall y, evaluation_id (f y) = evaluation_id y) -> j ∈ jobs st -> terminal j = true ->
  x ∈ jobs (update (evaluation_id j0) f st) -> evaluation_id x = evaluation_id j -> x = j.
Proof.
  intros HI Hj0 Hf Hid Hj Ht Hx Ex. apply update_elem in Hx as (y & Hy & [[Ey ->]|[_ ->]]).
  - assert (y = j) as -> by (eapply NoDup_key; [apply (ji_ids _ _ HI)|done|done|by rewrite <-Ex, Hid]).
    assert (j = j0) as -> by (by eapply NoDup_key; [apply (ji_ids _ _ HI)|..]). destruct Hf as [Hf|Hf]; congruence.
  - by eapply NoDup_key; [apply (ji_ids _ _ HI)|..].
Qed.

Lemma finished_stable limits st st' j x : valid_limits limits = true -> jobs_inv limits st -> step limits st st' ->
  j ∈ jobs st -> terminal j = true -> x ∈ jobs st' -> evaluation_id x = evaluation_id j -> x = j.
Proof.
  intros Hl HI Hstep Hj Ht Hx Ex. pose proof (ji_wf _ _ HI) as Hwfs. rewrite Forall_forall in Hwfs.
  assert (forall js, drops (jobs st) js -> x ∈ js -> x = j) as Hdrops.
  { intros js Hd Hxj. eapply NoDup_key; [apply (ji_ids _ _ HI)| |done|done]. by eapply drops_elem. }
  assert (forall j0 p, j0 ∈ jobs st -> phase_of p j0 -> p <> Task.Done -> terminal j0 = false) as Hact.
  { intros j0 p Hj0 Hp Hne. specialize (Hwfs j0 Hj0). unfold job_wf, terminal, phase_of in *.
    destruct (status j0); try done; destruct_and!; congruence. }
  destruct Hstep as [binding clock uuid now utc request Hfresh| j0 utc Hj0 Hp _| j0 Hj0 Hp _| j0 d Hj0 Hp| j0 i Hj0 Hp
    | j0 outcome utc mono Hj0 Hp Ha| id authorized clock| j0 Hj0| j0 utc mono Hj0 Hp| |].
  - destruct (create_spec limits binding clock uuid now utc request st HI) as (js & Hd & Hc).
    destruct Hc as [(e & -> & Ec & _)|(b & -> & [(_ & Ec)|[(_ & _ & Ec)|(_ & _ & Ec)]])].
    + rewrite Ec in Hx. eapply NoDup_key; [apply (ji_ids _ _ HI)|done..].
    + rewrite Ec in Hx. by eapply Hdrops.
    + rewrite Ec in Hx. by eapply Hdrops.
    + cbv zeta in Ec. rewrite Ec in Hx. cbn [fst jobs] in Hx. apply elem_of_app in Hx as [Hx|Hx]; [by eapply Hdrops|].
      apply list_elem_of_singleton in Hx as ->. rewrite Forall_forall in Hfresh. by destruct (Hfresh j Hj).
  - refine (update_finished limits st j0 _ j x HI Hj0 _ _ Hj Ht Hx Ex); [left; by eapply Hact|done].
  - refine (update_finished limits st j0 _ j x HI Hj0 _ _ Hj Ht Hx Ex); [left; by eapply Hact|done].
  - refine (update_finished limits st j0 _ j x HI Hj0 _ _ Hj Ht Hx Ex); [left; by eapply Hact|done].
  - refine (update_finished limits st j0 _ j x HI Hj0 _ _ Hj Ht Hx Ex); [left; by eapply Hact|done].
  - pose proof (Hact j0 _ Hj0 Hp ltac:(done)) as Hter.
    assert (forall e y, evaluation_id (failed e utc mono y) = evaluation_id y) as Hid by (intros [] y; done).
    unfold finish in Hx. destruct outcome as [b|e]; [|refine (update_finished limits st j0 _ j x HI Hj0 _ _ Hj Ht Hx Ex); [by left|apply Hid]].
    destruct (Z.ltb_spec (max_retained_bytes limits) (body_size b)); [refine (update_finished limits st j0 _ j x HI Hj0 _ _ Hj Ht Hx Ex); [by left|apply Hid]|].
    destruct (evict_bodies_ok (length (jobs st)) (max_retained_bytes limits) (body_size b) (jobs st)) as (js & Ev & Hd & _);
      [apply HI|apply HI|done|done|]. rewrite Ev in Hx. apply update_elem in Hx as (y & Hy & [[Ey ->]|[_ ->]]).
    + cbn in Ex. cbn [jobs] in Hy. assert (j = j0) as -> by (by eapply NoDup_key; [apply (ji_ids _ _ HI)|..|congruence]). congruence.
    + by eapply Hdrops.
  - unfold _get in Hx. destruct (expire_ok (retention limits) clock (jobs st)) as (js & Ee & Hd); [apply HI|apply HI|].
    rewrite Ee in Hx. by eapply Hdrops.
  - refine (update_finished limits st j0 _ j x HI Hj0 _ _ Hj Ht Hx Ex); [by rewrite Ht; right|].
    intros y. destruct (terminal y); [done|]. unfold request_cancel. by case_bool_decide.
  - refine (update_finished limits st j0 _ j x HI Hj0 _ _ Hj Ht Hx Ex); [right|intros y; by case_bool_decide].
    rewrite bool_decide_false; [done|]. intros E. unfold terminal in Ht. by rewrite E in Ht.
  - cbn in Hx. apply list_elem_of_fmap in Hx as (y & -> & Hy).
    assert (y = j) as ->. { eapply NoDup_key; [apply (ji_ids _ _ HI)|done|done|]. unfold request_cancel in Ex. by case_bool_decide. }
    unfold request_cancel. rewrite bool_decide_true; [done|]. specialize (Hwfs j Hj). unfold job_wf, terminal, phase_of in *.
    destruct (status j); try done; destruct_and!; done.
  - by apply elem_of_nil in Hx.
Qed.

(** ** Properties *)

(** C37. In every state the interleavings of the handlers reach, the table
    keeps its limits: no more than [max_jobs] jobs, [max_active] unfinished
    ones and [max_retained_bytes] of results; every job has a status response
    that passes [validate_lifecycle], a result exactly when it is [COMPLETED];
    and a finished job is never changed again, only removed. *)
Theorem jobs_invariant limits st : valid_limits limits = true -> reachable limits st ->
  Z.of_nat (length (jobs st)) <= max_jobs limits /\ active (jobs st) <= max_active limits
  /\ retained_size (jobs st) <= max_retained_bytes limits /\ NoDup (evaluation_id <$> jobs st)
  /\ (forall j, j ∈ jobs st -> is_ok (_status j) = true
       /\ (forall signal, is_ok (result j signal) = bool_decide (status j = EvaluationStatus.COMPLETED)))
  /\ (forall st' j x, step limits st st' -> j ∈ jobs st -> terminal j = true -> x ∈ jobs st' ->
       evaluation_id x = evaluation_id j -> x = j).
Proof.
  intros Hl Hr. pose proof (reachable_inv limits st Hl Hr) as HI.
  split; [apply HI|]. split; [apply HI|]. split; [apply HI|]. split; [apply HI|]. split.
  - intros j Hj. pose proof (ji_wf _ _ HI) as Hwf. rewrite Forall_forall in Hwf. specialize (Hwf j Hj).
    destruct j as [id rq tf cu si cr s sa ca d f b t tm]. unfold job_wf in Hwf. cbn in Hwf.
    unfold _status, validated, validate_lifecycle, result. cbn.
    destruct s; destruct_and!; simplify_eq; cbn;
      repeat match goal with
      | H : is_Some _ |- _ => destruct H as [? ->]
      | H : exists _, _ |- _ => destruct H as (? & -> & ?)
      end; (split; [|intros []]); cbn; try done.
    by match goal with H : EvaluationFailure.valid _ = true |- _ => rewrite H end.
  - intros st1 j x Hs. by apply (finished_stable limits st st1 j x).
Qed.

(** The loops end and never raise: [_expire] meets no assertion and no
    missing key; a request is refused exactly when the jobs are closed or the
    unfinished ones are at their limit, for evicting finished jobs always makes
    room otherwise; and a result that fits the retention limit is always
    stored, for evicting older results always makes room: the loop never
    indexes an empty list. *)
Theorem evictions_terminate limits st : valid_limits limits = true -> max_active limits <= max_jobs limits ->
  reachable limits st ->
  (forall clock, exists js, _expire (retention limits) clock (jobs st) = Ok js)
  /\ (forall b clock uuid now utc request,
       let answer := (create limits (Ok b) clock uuid now utc request st).2 in
       if closed st || (max_active limits <=? active (jobs st)) then answer = Raise BUSY
       else is_ok answer = true)
  /\ (forall j b utc mono, j ∈ jobs st -> phase_of Task.Suspended j -> data j <> None ->
       body_size b <= max_retained_bytes limits ->
       exists x, x ∈ jobs (finish limits (evaluation_id j) (inl b) utc mono st)
         /\ evaluation_id x = evaluation_id j /\ status x = EvaluationStatus.COMPLETED /\ bodies x = Some b).
Proof.
  intros Hl Hlim Hr. pose proof (reachable_inv limits st Hl Hr) as HI. split_and!.
  - intros clock. destruct (expire_ok (retention limits) clock (jobs st)) as (js & He & _); [apply HI|apply HI|eauto].
  - intros b clock uuid now utc request. cbv zeta.
    destruct (create_spec limits (Ok b) clock uuid now utc request st HI) as (js & Hd & Hc).
    destruct (drops_sizes _ _ Hd) as (Ea & _). rewrite <-Ea.
    destruct Hc as [(e & ? & _)|(b' & [= <-] & [(-> & ->)|[(Hb & Hm & ->)|(-> & _ & ->)]])]; [done|done| |done].
    rewrite Hb. apply orb_false_iff in Hb as [_ Hb]. apply Z.leb_gt in Hb. lia.
  - intros j b utc mono Hj Hp Hdata Hsize. unfold finish. rewrite (proj2 (Z.ltb_ge _ _)) by done.
    destruct (evict_bodies_ok (length (jobs st)) (max_retained_bytes limits) (body_size b) (jobs st)) as (js & -> & Hd & _);
      [apply HI|apply HI|done|done|].
    pose proof (ji_wf _ _ HI) as Hwf. rewrite Forall_forall in Hwf. pose proof (wf_suspended j (Hwf j Hj) Hp) as Hs.
    assert (j ∈ js) as Hjs by (eapply drops_active; [done|done|unfold terminal; by rewrite Hs]).
    eexists. split; [|split; [|split]].
    + cbn [update jobs]. apply list_elem_of_fmap. exists j. split; [|done]. rewrite bool_decide_true by done. reflexivity.
    + done.
    + done.
    + done.
Qed.

(** ** Cancelling a job *)

(** The job [j] as it stands after a request to cancel it: its status has not
    moved, and its task is finished or will be resumed with the cancellation. *)
Definition cancel_pending (j x : _Job) : Prop :=
  evaluation_id x = evaluation_id j /\ status x = status j
  /\ (phase_of Task.Done x \/ Task.cancelling (task x) = true).

(** The job [j] has ended: it is terminal, and cancelled if it had not
    started; or the jobs are closed and the table was cleared. *)
Definition ended (j : _Job) (st : EvaluationJobs) : Prop :=
  (exists y, y ∈ jobs st /\ evaluation_id y = evaluation_id j /\ terminal y = true
     /\ (status j = EvaluationStatus.PENDING -> status y = EvaluationStatus.CANCELLED))
  \/ (closed st = true /\ jobs st = []).

Lemma update_image id f st x : x ∈ jobs st ->
  (if bool_decide (evaluation_id x = id) then f x else x) ∈ jobs (update id f st).
Proof. intros Hx. unfold update. cbn [jobs]. apply list_elem_of_fmap. by exists x. Qed.

(** Changing the job [j0] keeps the request, when the change of [j0] does. *)
Lemma update_pending limits st j j0 f x : jobs_inv limits st -> j0 ∈ jobs st -> x ∈ jobs st -> cancel_pending j x ->
  (x = j0 -> cancel_pending j (f j0) \/ (evaluation_id (f j0) = evaluation_id j /\ terminal (f j0) = true
     /\ (status j = EvaluationStatus.PENDING -> status (f j0) = EvaluationStatus.CANCELLED))) ->
  (exists y, y ∈ jobs (update (evaluation_id j0) f st) /\ cancel_pending j y) \/ ended j (update (evaluation_id j0) f st).
Proof.
  intros HI Hj0 Hx Hp Hf. pose proof (update_image (evaluation_id j0) f st x Hx) as Hin. case_bool_decide as E; [|eauto].
  assert (x = j0) as -> by (by eapply NoDup_key; [apply (ji_ids _ _ HI)|..]).
  destruct (Hf eq_refl) as [?|(?&?&?)]; [eauto|]. right. left. eauto.
Qed.

Lemma request_cancel_pending j x : cancel_pending j x -> cancel_pending j (request_cancel x).
Proof.
  intros (H1 & H2 & H3). unfold request_cancel. case_bool_decide; [done|]. split_and!; [done|done|]. by right.
Qed.

(** However the handlers interleave, a request to cancel is not lost. *)
Lemma step_pending limits st st' j x : valid_limits limits = true -> jobs_inv limits st -> step limits st st' ->
  terminal j = false -> x ∈ jobs st -> cancel_pending j x ->
  (exists y, y ∈ jobs st' /\ cancel_pending j y) \/ ended j st'.
Proof.
  intros Hl HI Hstep Ht Hx Hp. pose proof (ji_wf _ _ HI) as Hwfs. rewrite Forall_forall in Hwfs.
  destruct Hp as (P1 & P2 & P3) eqn:Ep. clear Ep. pose proof (conj P1 (conj P2 P3)) as Hp'. fold (cancel_pending j x) in Hp'.
  assert (terminal x = false) as Htx by (unfold terminal in *; by rewrite P2).
  assert (forall js c, drops (jobs st) js ->
    (exists y, y ∈ jobs (mkEvaluationJobs js c) /\ cancel_pending j y) \/ ended j (mkEvaluationJobs js c)) as Hdrops.
  { intros js c Hd. left. exists x. split; [by eapply drops_active|done]. }
  destruct Hstep as [binding clock uuid now utc request Hfresh| j0 utc Hj0 Hph Hca| j0 Hj0 Hph _| j0 d Hj0 Hph| j0 i Hj0 Hph
    | j0 outcome utc mono Hj0 Hph Ha| id authorized clock| j0 Hj0| j0 utc mono Hj0 Hph| |].
  - destruct (create_spec limits binding clock uuid now utc request st HI) as (js & Hd & Hc).
    destruct Hc as [(e & -> & Ec & _)|(b & -> & [(_ & Ec)|[(_ & _ & Ec)|(_ & _ & Ec)]])]; [|cbv zeta in Ec; rewrite Ec; cbn [fst]..].
    + rewrite Ec. left. by exists x.
    + by apply Hdrops.
    + by apply Hdrops.
    + left. exists x. split; [|done]. apply elem_of_app. left. by eapply drops_active.
  - eapply update_pending; [done..|]. intros ->. destruct P3; unfold phase_of in *; congruence.
  - eapply update_pending; [done..|]. intros ->. left. split_and!; [done|done|by left].
  - eapply update_pending; [done..|]. intros ->. by left.
  - eapply update_pending; [done..|]. intros ->. by left.
  - assert (status j0 = EvaluationStatus.RUNNING) as Hs0 by (apply wf_suspended; auto).
    assert (forall e, (exists y, y ∈ jobs (update (evaluation_id j0) (failed e utc mono) st) /\ cancel_pending j y)
      \/ ended j (update (evaluation_id j0) (failed e utc mono) st)) as Hfail.
    { intros e. eapply update_pending; [done..|]. intros ->. right. split_and!; [by destruct e|by destruct e|congruence]. }
    unfold finish. destruct outcome as [b|e]; [|done]. destruct (Z.ltb_spec (max_retained_bytes limits) (body_size b)); [done|].
    destruct (evict_bodies_ok (length (jobs st)) (max_retained_bytes limits) (body_size b) (jobs st)) as (js & -> & Hd & _);
      [apply HI|apply HI|done|done|].
    eapply update_pending; [by apply (drops_inv limits st)| |by eapply drops_active|done|].
    + eapply drops_active; [done|done|]. unfold terminal. by rewrite Hs0.
    + intros ->. right. split_and!; [done|done|congruence].
  - unfold _get. destruct (expire_ok (retention limits) clock (jobs st)) as (js & -> & Hd); [apply HI|apply HI|]. by apply Hdrops.
  - eapply update_pending; [done..|]. intros ->. left. rewrite Htx. by apply request_cancel_pending.
  - eapply update_pending; [done..|]. intros ->. case_bool_decide; [|by left]. right. split_and!; done.
  - left. exists (request_cancel x). split; [|by apply request_cancel_pending]. cbn. by apply list_elem_of_fmap_2.
  - right. right. by split.
Qed.

Lemma rtc_inv limits st st' : valid_limits limits = true -> jobs_inv limits st -> rtc (step limits) st st' -> jobs_inv limits st'.
Proof. intros Hl HI. induction 1 as [|st st1 st' Hs _ IH]; [done|]. apply IH. by eapply step_inv. Qed.

Lemma rtc_pending limits st st' j x : valid_limits limits = true -> jobs_inv limits st -> rtc (step limits) st st' ->
  terminal j = false -> x ∈ jobs st -> cancel_pending j x ->
  (exists mid, rtc (step limits) st mid /\ rtc (step limits) mid st' /\ ended j mid)
  \/ (exists y, y ∈ jobs st' /\ cancel_pending j y).
Proof.
  intros Hl HI Hr Ht. revert x HI. induction Hr as [st|st st1 st' Hs Hr IH]; intros x HI Hx Hp; [right; by exists x|].
  destruct (step_pending limits st st1 j x Hl HI Hs Ht Hx Hp) as [(y & Hy & Hpy)|He].
  - destruct (IH y) as [(mid & H1 & H2 & H3)|H]; [by eapply step_inv|done|done| |by right].
    left. exists mid. split_and!; [by eapply rtc_l|done|done].
  - left. exists st1. split_and!; [by apply rtc_once|done|done].
Qed.

Lemma update_active js c j f : NoDup (evaluation_id <$> js) -> j ∈ js -> terminal j = false ->
  f j ∈ jobs (update (evaluation_id j) f (mkEvaluationJobs js c))
  /\ active (jobs (update (evaluation_id j) f (mkEvaluationJobs js c))) = active js - (if terminal (f j) then 1 else 0).
Proof.
  intros Hnd Hj Ht. apply list_elem_of_split in Hj as (l1 & l2 & ->). rewrite update_middle by done. cbn [jobs].
  split; [apply elem_of_app; right; constructor|]. rewrite !active_app, !active_cons, Ht. destruct (terminal (f j)); lia.
Qed.

(** [cancel] after its [await], for a task dropped before it started. *)
Lemma cancel_end_cancels limits st j : jobs_inv limits st -> j ∈ jobs st -> terminal j = false -> phase_of Task.Done j ->
  exists st' x, step limits st st' /\ x ∈ jobs st' /\ evaluation_id x = evaluation_id j
    /\ status x = EvaluationStatus.CANCELLED /\ active (jobs st') = active (jobs st) - 1.
Proof.
  intros HI Hj Ht Hp. pose proof (ji_wf _ _ HI) as Hwf. rewrite Forall_forall in Hwf. specialize (Hwf j Hj).
  assert (status j = EvaluationStatus.PENDING) as Hs.
  { unfold job_wf, terminal, phase_of in *. destruct (status j); try done. destruct_and!. congruence. }
  set (f := fun j => if bool_decide (status j = EvaluationStatus.PENDING)
    then with_end EvaluationStatus.CANCELLED (job_failure j) (bodies j) 0 0 j else j).
  destruct st as [js c]. destruct (update_active js c j f (ji_ids _ _ HI) Hj Ht) as [H1 H2].
  assert (f j = with_end EvaluationStatus.CANCELLED (job_failure j) (bodies j) 0 0 j) as Ef
    by (unfold f; by rewrite bool_decide_true).
  exists (cancel_end (evaluation_id j) 0 0 (mkEvaluationJobs js c)), (f j).
  split; [by constructor|]. split; [done|]. rewrite Ef in *. split_and!; [done|done|]. exact H2.
Qed.

(** A job with a pending cancellation is at most two steps from its end: the
    event loop resumes its task with [CancelledError], or drops the task, and
    then [cancel] records the end. *)
Lemma pending_ends limits st j x : valid_limits limits = true -> jobs_inv limits st -> terminal j = false ->
  x ∈ jobs st -> cancel_pending j x ->
  exists n st' y, (n <= 2)%nat /\ nsteps (step limits) n st st' /\ y ∈ jobs st' /\ evaluation_id y = evaluation_id j
    /\ status y = EvaluationStatus.CANCELLED /\ active (jobs st') = active (jobs st) - 1.
Proof.
  intros Hl HI Ht Hx (P1 & P2 & P3). assert (terminal x = false) as Htx by (unfold terminal in *; by rewrite P2).
  rewrite <-P1. destruct (Task.phase (task x)) eqn:Ep.
  - destruct P3 as [P3|P3]; [unfold phase_of in P3; congruence|].
    set (x1 := with_task (Task.mkTask Task.Done true) x).
    set (st1 := update (evaluation_id x) (with_task (Task.mkTask Task.Done true)) st).
    assert (step limits st st1) as Hs by by constructor. assert (jobs_inv limits st1) as HI1 by by eapply step_inv.
    assert (x1 ∈ jobs st1 /\ active (jobs st1) = active (jobs st)) as [Hx1 Ha].
    { subst st1. destruct st as [js c]. destruct (update_active js c x (with_task (Task.mkTask Task.Done true)) (ji_ids _ _ HI) Hx Htx)
        as [H1 H2]. split; [done|]. change (terminal (with_task _ x)) with (terminal x) in H2. rewrite Htx in H2. rewrite H2. cbn [jobs]. lia. }
    destruct (cancel_end_cancels limits st1 x1 HI1 Hx1 Htx eq_refl) as (st' & y & H1 & H2 & H3 & H4 & H5).
    exists 2%nat, st', y. split_and!; [lia| |done|done|done|lia]. eapply nsteps_l; [exact Hs|]. by apply nsteps_once.
  - destruct st as [js c]. destruct (update_active js c x (failed CancelledError 0 0) (ji_ids _ _ HI) Hx Htx) as [H1 H2].
    exists 1%nat, (finish limits (evaluation_id x) (inr CancelledError) 0 0 (mkEvaluationJobs js c)), (failed CancelledError 0 0 x).
    split_and!; [lia|apply nsteps_once; by constructor|done|done|done|exact H2].
  - destruct (cancel_end_cancels limits st x HI Hx Htx Ep) as (st' & y & H1 & H2 & H3 & H4 & H5).
    exists 1%nat, st', y. split_and!; [lia|by apply nsteps_once|done|done|done|lia].
Qed.

(** C39. A request to cancel an unfinished job takes effect and is not lost:
    [cancel] marks its task and touches no other job; however the handlers
    interleave from then on, either the job has ended - cancelled, if it had
    not started; a job not started never starts any more - or the jobs were
    closed and cleared, or the job still has the status it had, with the
    request pending, and at most two steps (its task is resumed with the
    cancellation, or dropped, and [cancel] goes on) end it as [CANCELLED]; the
    table then has exactly one unfinished job less. *)
Theorem active_jobs_cancellable limits st j : valid_limits limits = true -> reachable limits st ->
  j ∈ jobs st -> terminal j = false ->
  let st1 := cancel_start (evaluation_id j) st in
  step limits st st1
  /\ (exists x, x ∈ jobs st1 /\ cancel_pending j x /\ Task.phase (task x) = Task.phase (task j))
  /\ (forall x, x ∈ jobs st -> evaluation_id x <> evaluation_id j -> x ∈ jobs st1)
  /\ forall st2, rtc (step limits) st1 st2 ->
       (exists mid, rtc (step limits) st1 mid /\ rtc (step limits) mid st2 /\ ended j mid)
       \/ (exists x, x ∈ jobs st2 /\ cancel_pending j x
            /\ exists n st3 y, (n <= 2)%nat /\ nsteps (step limits) n st2 st3 /\ y ∈ jobs st3
                 /\ evaluation_id y = evaluation_id j /\ status y = EvaluationStatus.CANCELLED
                 /\ active (jobs st3) = active (jobs st2) - 1).
Proof.
  intros Hl Hr Hj Ht st1. pose proof (reachable_inv limits st Hl Hr) as HI.
  assert (step limits st st1) as Hs by by constructor. assert (jobs_inv limits st1) as HI1 by by eapply step_inv.
  pose proof (fun x => update_image (evaluation_id j) (fun j => if terminal j then j else request_cancel j) st x) as Him.
  assert (exists x, x ∈ jobs st1 /\ cancel_pending j x /\ Task.phase (task x) = Task.phase (task j)) as Hx.
  { exists (request_cancel j). specialize (Him j Hj). rewrite bool_decide_true, Ht in Him by done. split; [done|].
    unfold request_cancel. case_bool_decide; (split; [|done]); split_and!; auto. }
  split_and!; [done|done| |].
  - intros x Hxj Hne. specialize (Him x Hxj). by rewrite bool_decide_false in Him.
  - intros st2 Hr2. destruct Hx as (x & Hx & Hp & _).
    destruct (rtc_pending limits st1 st2 j x Hl HI1 Hr2 Ht Hx Hp) as [?|(y & Hy & Hpy)]; [by left|right].
    exists y. split; [done|]. split; [done|]. eapply pending_ends; eauto. by eapply rtc_inv.
Qed.
End Jobs.

(** ** Witnesses: a job created, started and prepared *)

Definition sample_limits : Limits := mkLimits 2 4 100 300.

Definition sample_request : ProductionAnalysisRequest :=
  ProductionAnalysisRequest.mkProductionAnalysisRequest "BTCUSDT" None None.

Definition sample_created : EvaluationJobs (StrategyIdentity := string) (EvaluationDataIdentity := string) :=
  (create sample_limits (Ok (Timeframe.ONE_HOUR, "v1"%string)) (fun _ => 0) "job-1" 7200000000 7200000000 sample_request
     (mkEvaluationJobs [] false)).1.

Definition sample_started : EvaluationJobs := update "job-1" (with_start 7200000001) sample_created.
Definition sample_prepared : EvaluationJobs := update "job-1" (with_data "hash"%string) sample_started.

Definition sample_job (data : option string) (started : option datetime) (s : EvaluationStatus) (phase : Task.Phase) : _Job :=
  mkJob "job-1" sample_request Timeframe.ONE_HOUR 7200000000 "v1"%string 7200000000 s started None data None None
    (Task.mkTask phase false) None.

Lemma sample_reachable : reachable sample_limits sample_prepared.
Proof.
  apply reachable_step with sample_started; [apply reachable_step with sample_created; [apply reachable_step with (mkEvaluationJobs [] false); [constructor|]|]|].
  - apply (step_create sample_limits (mkEvaluationJobs [] false) (Ok (Timeframe.ONE_HOUR, "v1"%string))). constructor.
  - apply (step_start sample_limits sample_created (sample_job None None EvaluationStatus.PENDING Task.Scheduled) 7200000001);
      [by apply list_elem_of_here|done|done].
  - apply (step_prepared sample_limits sample_started (sample_job None (Some 7200000001) EvaluationStatus.RUNNING Task.Suspended) "hash"%string);
      [by apply list_elem_of_here|done].
Qed.

Lemma jobs_invariant_witness : Z.of_nat (length (jobs sample_prepared)) <= 4 /\ jobs sample_prepared <> [].
Proof.
  split; [|done]. exact (proj1 (jobs_invariant sample_limits sample_prepared eq_refl sample_reachable)).
Defined.

Lemma evictions_terminate_witness : exists x,
  x ∈ jobs (finish sample_limits "job-1" (inl ("{}", "{}")%string) 1 1 sample_prepared)
  /\ evaluation_id x = "job-1"%string /\ status x = EvaluationStatus.COMPLETED /\ bodies x = Some ("{}", "{}")%string.
Proof.
  assert (max_active sample_limits <= max_jobs sample_limits) as H by (cbn; lia).
  destruct (evictions_terminate sample_limits sample_prepared eq_refl H sample_reachable) as (_ & _ & Hf).
  apply (Hf (sample_job (Some "hash"%string) (Some 7200000001) EvaluationStatus.RUNNING Task.Suspended));
    [by apply list_elem_of_here|done|done|by vm_compute].
Defined.

Lemma active_jobs_cancellable_witness :
  (exists x, x ∈ jobs (cancel_start "job-1" sample_prepared) /\ Task.cancelling (task x) = true)
  /\ forall st2, rtc (step sample_limits) (cancel_start "job-1" sample_prepared) st2 ->
       (exists mid, rtc (step sample_limits) mid st2
          /\ ended (sample_job (Some "hash"%string) (Some 7200000001) EvaluationStatus.RUNNING Task.Suspended) mid)
       \/ exists n st3 y, (n <= 2)%nat /\ nsteps (step sample_limits) n st2 st3 /\ y ∈ jobs st3
            /\ status y = EvaluationStatus.CANCELLED /\ active (jobs st3) = active (jobs st2) - 1.
Proof.
  destruct (active_jobs_cancellable sample_limits sample_prepared
    (sample_job (Some "hash"%string) (Some 7200000001) EvaluationStatus.RUNNING Task.Suspended) eq_refl sample_reachable)
    as (_ & (x & Hx & (_ & _ & Hp) & Hph) & _ & Hrun); [by apply list_elem_of_here|done|].
  split; [exists x; destruct Hp as [Hp|Hp]; [unfold phase_of in Hp; by rewrite Hp in Hph|by split]|].
  intros st2 Hr. destruct (Hrun st2 Hr) as [(mid & _ & H)|(_ & _ & _ & n & st3 & y & H)]; [left; by exists mid|].
  right. exists n, st3, y. naive_solver.
Defined.
