(* ===== verification/Paper.v ===== *)
(** Paper trading accounts: [execution/decimal_policy.py],
    [execution/models.py], [execution/accounting.py] and
    [execution/trade_projection.py].

    Confirmed fills are booked on a one-way net position per symbol with an
    average cost basis. Identifiers are strings that the schemas have checked
    when they entered; the numeric bounds of the schemas are checked again on
    every fill, and so they are here. *)
From Stdlib Require Import ZArith QArith Lia.
From stdpp Require Import base list strings numbers sets.
From S2P Require Import Prelude Decimal Time Candle Signal.
Local Open Scope Z_scope.

(** ** [execution/decimal_policy.py] *)

Definition DIVISION_PRECISION : Z := 50.

Definition _width (value : dec) : Z := ndigits (coef value).

Definition add (left right : dec) : dec :=
  let exponent := Z.min (expo left) (expo right) in
  let precision := Z.max (adjusted left) (adjusted right) - exponent + 3 in
  dadd (Z.max precision 1) left right.

(** [value.copy_negate()] *)
Definition subtract (left right : dec) : dec := add left (dopp right).

Definition multiply (left right : dec) : dec := dmul (Z.max (_width left + _width right + 1) 1) left right.

(** The precision at which a terminating quotient is exact. *)
Definition exact_precision (left right : dec) : Z :=
  4 * (_width left + _width right + Z.abs (expo left - expo right)) + 10.

(** The trap [Inexact] is raised when the rounded quotient is not the
    quotient; the traps for a zero divisor are not caught. *)
Definition divide (left right : dec) : pyres dec :=
  quotient ← ddiv_py (Z.max (exact_precision left right) 1) left right;
  if deqb (mul_exact quotient right) left then Ok quotient
  else ddiv_py DIVISION_PRECISION left right.

(** ** [execution/models.py] *)

(** [parse_decimal], the bounds of every amount. *)
Definition money (value : dec) : bool := (_width value <=? 512) && (Z.abs (expo value) <=? 512).
Definition positive_money (value : dec) : bool := money value && dltb (D 0) value.
Definition nonnegative_money (value : dec) : bool := money value && dleb (D 0) value.

Module Side.
Inductive Side := BUY | SELL.
#[global] Instance Side_eqdec : EqDecision Side := ltac:(solve_decision).
End Side.
Abbreviation Side := Side.Side.

Module Direction.
Inductive Direction := LONG | SHORT.
#[global] Instance Direction_eqdec : EqDecision Direction := ltac:(solve_decision).
End Direction.
Abbreviation Direction := Direction.Direction.

Module InstrumentProfile.
Record InstrumentProfile := mkInstrumentProfile {
  reference : string;
  symbol : string;
  price_tick : dec;
  quantity_step : dec;
  minimum_quantity : dec;
  maximum_decimal_places : Z;
  maximum_significant_digits : Z
}.
Definition valid (p : InstrumentProfile) : bool :=
  positive_money (price_tick p) && positive_money (quantity_step p) && positive_money (minimum_quantity p)
  && (0 <=? maximum_decimal_places p) && (maximum_decimal_places p <=? 128)
  && (1 <=? maximum_significant_digits p) && (maximum_significant_digits p <=? 50).
End InstrumentProfile.
Abbreviation InstrumentProfile := InstrumentProfile.InstrumentProfile.

(** [value.as_integer_ratio()], in lowest terms. *)
Definition as_integer_ratio (value : dec) : Z * Z :=
  if 0 <=? expo value then (coef value * 10 ^ expo value, 1)
  else
    let denominator := 10 ^ (- expo value) in
    let divisor := Z.gcd (coef value) denominator in
    (coef value / divisor, denominator / divisor).

Definition unit_ok (profile : InstrumentProfile) (value step : dec) : bool :=
  let '(numerator, denominator) := as_integer_ratio value in
  let '(step_numerator, step_denominator) := as_integer_ratio step in
  dltb (D 0) value
  && ((numerator * step_denominator) mod (denominator * step_numerator) =? 0)
  && (Z.max 0 (- expo value) <=? InstrumentProfile.maximum_decimal_places profile)
  && (_width value <=? InstrumentProfile.maximum_significant_digits profile).

Definition validate_units (profile : InstrumentProfile) (price : option dec) (quantity : dec) : pyres unit :=
  _ ← raise_if (negb (unit_ok profile quantity (InstrumentProfile.quantity_step profile)))
        (Exc "ValueError" "unsupported instrument precision/increment");
  _ ← raise_if (match price with
                | Some price => negb (unit_ok profile price (InstrumentProfile.price_tick profile))
                | None => false end)
        (Exc "ValueError" "unsupported instrument precision/increment");
  raise_if (dltb quantity (InstrumentProfile.minimum_quantity profile))
    (Exc "ValueError" "quantity below instrument minimum").

Module Provenance.
Record Provenance := mkProvenance {
  provider : string;
  adapter_version : string;
  sequence : Z;
  execution_policy_version : option string;
  observation_hash : option string
}.
End Provenance.
Abbreviation Provenance := Provenance.Provenance.

(** The fees are their amounts; the only currency is USDT. *)
Module ExecutionEvent.
Record ExecutionEvent := mkExecutionEvent {
  event_id : string;
  execution_source : string;
  trading_account_id : string;
  internal_order_id : string;
  external_order_id : string;
  external_fill_id : string;
  symbol : string;
  instrument_reference : string;
  side : Side;
  price : dec;
  quantity : dec;
  fees : list dec;
  filled_at : datetime;
  received_at : datetime;
  provenance : Provenance
}.
Definition check_time (e : ExecutionEvent) : bool :=
  positive_money (price e) && positive_money (quantity e)
  && (1 <=? length (fees e))%nat && (length (fees e) <=? 16)%nat && forallb nonnegative_money (fees e)
  && (0 <? Provenance.sequence (provenance e))
  && negb (received_at e <? filled_at e).
Definition total_fee (e : ExecutionEvent) : dec := foldl add (D 0) (fees e).
End ExecutionEvent.
Abbreviation ExecutionEvent := ExecutionEvent.ExecutionEvent.

Module Position.
Record Position := mkPosition {
  symbol : string;
  instrument_reference : string;
  direction : Direction;
  trade_id : string;
  quantity : dec;
  remaining_cost_basis : dec
}.
Definition valid (p : Position) : bool :=
  nonnegative_money (quantity p) && nonnegative_money (remaining_cost_basis p).
(** [model_copy(update={'quantity': ..., 'remaining_cost_basis': ...})] *)
Definition with_amounts (p : Position) (quantity basis : dec) : Position :=
  mkPosition (symbol p) (instrument_reference p) (direction p) (trade_id p) quantity basis.
End Position.
Abbreviation Position := Position.Position.

Module Trade.
Record Trade := mkTrade {
  trade_id : string;
  symbol : string;
  direction : Direction;
  opened_at : datetime;
  closed_at : option datetime;
  gross_pnl : dec;
  total_fees : dec;
  total_entry_notional : dec;
  plan_reference : option string
}.
Definition valid (t : Trade) : bool :=
  money (gross_pnl t) && nonnegative_money (total_fees t) && positive_money (total_entry_notional t).
(** The updates [apply_fill] makes. *)
Definition with_entry (t : Trade) (notional : dec) : Trade :=
  mkTrade (trade_id t) (symbol t) (direction t) (opened_at t) (closed_at t) (gross_pnl t) (total_fees t)
    notional (plan_reference t).
Definition with_exit (t : Trade) (gross : dec) (closed_at : option datetime) : Trade :=
  mkTrade (trade_id t) (symbol t) (direction t) (opened_at t) closed_at gross (total_fees t)
    (total_entry_notional t) (plan_reference t).
Definition with_fees (t : Trade) (fees : dec) : Trade :=
  mkTrade (trade_id t) (symbol t) (direction t) (opened_at t) (closed_at t) (gross_pnl t) fees
    (total_entry_notional t) (plan_reference t).
Definition net_pnl (t : Trade) : dec := subtract (gross_pnl t) (total_fees t).
End Trade.
Abbreviation Trade := Trade.Trade.

Module Account.
Record Account := mkAccount {
  account_id : string;
  execution_source : string;
  execution_provider : string;
  initial_balance : dec;
  cash_balance : dec;
  created_at : datetime;
  updated_at : option datetime;
  last_sequence : Z;
  last_filled_at : option datetime;
  positions : list Position;
  trades : list Trade
}.
Definition valid (a : Account) : bool :=
  positive_money (initial_balance a) && money (cash_balance a) && (0 <=? last_sequence a)
  && forallb Position.valid (positions a) && forallb Trade.valid (trades a).
Definition reserved_collateral (a : Account) : dec :=
  foldl (fun total position => add total (Position.remaining_cost_basis position)) (D 0) (positions a).
Definition available_balance (a : Account) : dec := subtract (cash_balance a) (reserved_collateral a).
Definition realized_pnl (a : Account) : dec :=
  foldl (fun total trade => add total (Trade.gross_pnl trade)) (D 0) (trades a).
End Account.
Abbreviation Account := Account.Account.

(** ** [execution/accounting.py] *)

(** [next(i for i, p in enumerate(positions) if p.symbol == symbol)], with the position. *)
Fixpoint find_position (symbol : string) (positions : list Position) : option (nat * Position) :=
  match positions with
  | [] => None
  | p :: rest =>
      if bool_decide (Position.symbol p = symbol) then Some (0%nat, p)
      else prod_map S id <$> find_position symbol rest
  end.

(** [next(t for t in trades if t.trade_id == trade_id)] *)
Definition find_trade (trade_id : string) (trades : list Trade) : pyres Trade :=
  match List.find (fun t => bool_decide (Trade.trade_id t = trade_id)) trades with
  | Some t => Ok t
  | None => Raise (Exc "StopIteration" "")
  end.

Definition replace_trade (trade : Trade) (trades : list Trade) : list Trade :=
  map (fun t => if bool_decide (Trade.trade_id t = Trade.trade_id trade) then trade else t) trades.

(** The direction a fill would open. *)
Definition fill_direction (event : ExecutionEvent) : Direction :=
  match ExecutionEvent.side event with Side.BUY => Direction.LONG | Side.SELL => Direction.SHORT end.

Definition fill_notional (event : ExecutionEvent) : dec :=
  multiply (ExecutionEvent.price event) (ExecutionEvent.quantity event).

(** The guards on scope, units and order. *)
Definition admit_fill (account : Account) (event : ExecutionEvent) (profile : InstrumentProfile) : pyres unit :=
  _ ← raise_if (negb (bool_decide (ExecutionEvent.trading_account_id event = Account.account_id account)
                      && bool_decide (ExecutionEvent.execution_source event = Account.execution_source account)
                      && bool_decide (ExecutionEvent.instrument_reference event = InstrumentProfile.reference profile)
                      && bool_decide (ExecutionEvent.symbol event = InstrumentProfile.symbol profile)))
        (Exc "ValueError" "execution scope/profile mismatch");
  _ ← validate_units profile (Some (ExecutionEvent.price event)) (ExecutionEvent.quantity event);
  _ ← raise_if ((ExecutionEvent.filled_at event <? Account.created_at account)
                || (ExecutionEvent.received_at event <? Account.created_at account)
                || match Account.updated_at account with
                   | Some updated_at => ExecutionEvent.received_at event <? updated_at | None => false end)
        (Exc "ValueError" "unordered admission requires reconciliation");
  raise_if ((Provenance.sequence (ExecutionEvent.provenance event) <=? Account.last_sequence account)
            || match Account.last_filled_at account with
               | Some last_filled_at => ExecutionEvent.filled_at event <? last_filled_at | None => false end)
    (Exc "ValueError" "unordered fill requires reconciliation").

(** [current is None or current.quantity == 0 or current.direction == direction] *)
Definition increasing (current : option Position) (event : ExecutionEvent) : bool :=
  match current with
  | None => true
  | Some p => deqb (Position.quantity p) (D 0) || bool_decide (Position.direction p = fill_direction event)
  end.

(** An entry: the new trades, the trade and the position. *)
Definition book_entry (account : Account) (current : option Position) (event : ExecutionEvent)
    (profile : InstrumentProfile) (plan_reference : option string) : pyres (list Trade * Trade * Position) :=
  let notional := fill_notional event in
  let trades := Account.trades account in
  _ ← raise_if (dltb (Account.available_balance account) (add notional (ExecutionEvent.total_fee event)))
        (Exc "ValueError" "insufficient available balance");
  '(trades, trade, current) ←
    match (match current with
           | Some p => if deqb (Position.quantity p) (D 0) then None else Some p
           | None => None end) with
    | None =>
        trade ← validated Trade.valid (Trade.mkTrade (ExecutionEvent.event_id event) (ExecutionEvent.symbol event)
          (fill_direction event) (ExecutionEvent.filled_at event) None (D 0) (D 0) notional plan_reference);
        position ← validated Position.valid (Position.mkPosition (ExecutionEvent.symbol event)
          (InstrumentProfile.reference profile) (fill_direction event) (Trade.trade_id trade) (D 0) (D 0));
        Ok (trades ++ [trade], trade, position)
    | Some current =>
        _ ← raise_if (negb (bool_decide (Position.instrument_reference current = InstrumentProfile.reference profile)))
              (Exc "ValueError" "instrument profile changed while position open");
        trade ← find_trade (Position.trade_id current) trades;
        Ok (trades, Trade.with_entry trade (add (Trade.total_entry_notional trade) notional), current)
    end;
  Ok (trades, trade,
      Position.with_amounts current (add (Position.quantity current) (ExecutionEvent.quantity event))
        (add (Position.remaining_cost_basis current) notional)).

(** The cost basis an exit takes out of the position. *)
Definition allocated_basis (current : Position) (event : ExecutionEvent) : pyres dec :=
  if deqb (ExecutionEvent.quantity event) (Position.quantity current)
  then Ok (Position.remaining_cost_basis current)
  else
    unit_cost ← divide (Position.remaining_cost_basis current) (Position.quantity current);
    Ok (multiply unit_cost (ExecutionEvent.quantity event)).

(** An exit: the gross result, the trade and the position. *)
Definition book_exit (account : Account) (current : Position) (event : ExecutionEvent) : pyres (dec * Trade * Position) :=
  let notional := fill_notional event in
  _ ← raise_if (dltb (Position.quantity current) (ExecutionEvent.quantity event))
        (Exc "ValueError" "over-close / implicit reversal rejected");
  let closed := deqb (ExecutionEvent.quantity event) (Position.quantity current) in
  allocated ← allocated_basis current event;
  let gross := match Position.direction current with
    | Direction.LONG => subtract notional allocated
    | Direction.SHORT => subtract allocated notional end in
  let position := Position.with_amounts current
    (subtract (Position.quantity current) (ExecutionEvent.quantity event))
    (if closed then D 0 else subtract (Position.remaining_cost_basis current) allocated) in
  trade ← find_trade (Position.trade_id current) (Account.trades account);
  Ok (gross, Trade.with_exit trade (add (Trade.gross_pnl trade) gross)
               (if closed then Some (ExecutionEvent.filled_at event) else None), position).

(** [positions.append(position)] or [positions\[index\] = position] *)
Definition store_position (index : option nat) (position : Position) (positions : list Position) : list Position :=
  match index with
  | None => positions ++ [position]
  | Some i => <[i := position]> positions
  end.

Definition apply_fill (account : Account) (event : ExecutionEvent) (profile : InstrumentProfile)
    (plan_reference : option string) : pyres Account :=
  account ← validated Account.valid account;
  event ← validated ExecutionEvent.check_time event;
  profile ← validated InstrumentProfile.valid profile;
  _ ← admit_fill account event profile;
  let found := find_position (ExecutionEvent.symbol event) (Account.positions account) in
  let index := fst <$> found in
  let current := snd <$> found in
  let fees := ExecutionEvent.total_fee event in
  '(gross, trades, trade, position) ←
    (if increasing current event then
       '(trades, trade, position) ← book_entry account current event profile plan_reference;
       Ok (D 0, trades, trade, position)
     else match current with
       | None => Raise (Exc "AssertionError" "")
       | Some current =>
           '(gross, trade, position) ← book_exit account current event;
           Ok (gross, Account.trades account, trade, position)
       end);
  let trade := Trade.with_fees trade (add (Trade.total_fees trade) fees) in
  validated Account.valid (Account.mkAccount (Account.account_id account) (Account.execution_source account)
    (Account.execution_provider account) (Account.initial_balance account)
    (add (Account.cash_balance account) (subtract gross fees)) (Account.created_at account)
    (Some (ExecutionEvent.received_at event)) (Provenance.sequence (ExecutionEvent.provenance event))
    (Some (ExecutionEvent.filled_at event)) (store_position index position (Account.positions account))
    (replace_trade trade trades)).

(** ** [execution/trade_projection.py] *)

Definition empty_projection (origin : Account) : pyres Account :=
  validated Account.valid (Account.mkAccount (Account.account_id origin) (Account.execution_source origin)
    (Account.execution_provider origin) (Account.initial_balance origin) (Account.initial_balance origin)
    (Account.created_at origin) (Some (Account.created_at origin)) 0 None [] []).

Module Role.
Inductive Role := ENTRY | EXIT.
#[global] Instance Role_eqdec : EqDecision Role := ltac:(solve_decision).
End Role.
Abbreviation Role := Role.Role.

Definition FillInput : Type := ExecutionEvent * InstrumentProfile * option string.
Definition Membership : Type := ExecutionEvent * string * Role.

(** [event.side == ('BUY' if trade.direction == 'LONG' else 'SELL')] *)
Definition opens (trade : Trade) (event : ExecutionEvent) : bool :=
  bool_decide (fill_direction event = Trade.direction trade).

(** A [StopIteration] that leaves the body of a generator. *)
Definition in_generator {A} (m : pyres A) : pyres A :=
  match m with
  | Raise (Exc cls _) =>
      if bool_decide (cls = "StopIteration"%string) then Raise (Exc "RuntimeError" "generator raised StopIteration")
      else m
  | Ok _ => m
  end.

(** One step of [replay_steps], the yielded membership added to the list
    [replay_memberships] builds. *)
Definition replay_fill (acc : Account * list Membership) (input : FillInput) : pyres (Account * list Membership) :=
  let '(event, profile, plan_reference) := input in
  in_generator (
    state ← apply_fill acc.1 event profile plan_reference;
    match find_position (ExecutionEvent.symbol event) (Account.positions state) with
    | None => Raise (Exc "StopIteration" "")
    | Some (_, position) =>
        trade ← find_trade (Position.trade_id position) (Account.trades state);
        Ok (state, acc.2 ++ [(event, Trade.trade_id trade, if opens trade event then Role.ENTRY else Role.EXIT)])
    end).

Definition replay_memberships (origin : Account) (inputs : list FillInput) : pyres (Account * list Membership) :=
  state ← empty_projection origin;
  py_fold replay_fill (state, []) inputs.

Module FillDisplay.
Record FillDisplay := mkFillDisplay {
  quantity : dec;
  remaining_quantity : dec;
  average_entry_price : dec;
  average_exit_price : option dec;
  status : string
}.
End FillDisplay.
Abbreviation FillDisplay := FillDisplay.FillDisplay.

(** The quantities entered and exited and the notional of the exits. *)
Definition fill_totals (trade : Trade) (events : list ExecutionEvent) : dec * dec * dec :=
  foldl (fun '(entered, exited, exit_notional) event =>
    if opens trade event then (add entered (ExecutionEvent.quantity event), exited, exit_notional)
    else (entered, add exited (ExecutionEvent.quantity event), add exit_notional (fill_notional event)))
    (D 0, D 0, D 0) events.

Definition fill_display (trade : Trade) (events : list ExecutionEvent) : pyres FillDisplay :=
  let '(entered, exited, exit_notional) := fill_totals trade events in
  let remaining := subtract entered exited in
  _ ← raise_if (dleb entered (D 0) || dltb remaining (D 0)
                || negb (Bool.eqb (deqb remaining (D 0)) (is_some (Trade.closed_at trade))))
        (Exc "ValueError" "inconsistent execution trade membership");
  average_entry ← divide (Trade.total_entry_notional trade) entered;
  average_exit ← (if deqb exited (D 0) then Ok None
                  else average ← divide exit_notional exited; Ok (Some average));
  Ok (FillDisplay.mkFillDisplay entered remaining average_entry average_exit
        (if is_some (Trade.closed_at trade) then "CLOSED"
         else if negb (deqb exited (D 0)) then "PARTIALLY_CLOSED" else "OPEN")).
