(* ===== verification/PaperTheory.v ===== *)
(** Theorems on paper accounts: [execution/decimal_policy.py],
    [execution/accounting.py] and [execution/trade_projection.py]. *)
From Stdlib Require Import ZArith QArith Qabs Lia Lqa Sorting.Permutation.
From stdpp Require Import base list strings numbers sets.
From S2P Require Import Prelude Decimal Time Candle Signal Paper.
Local Open Scope Z_scope.

(** ** The decimal policy is exact *)

Lemma width_bound a : 1 <= _width a /\ Z.abs (coef a) < 10 ^ _width a.
Proof.
  unfold _width. destruct (Z.eq_dec (coef a) 0) as [E|E]; [rewrite E; split; [done|reflexivity]|].
  by destruct (ndigits_spec _ E) as (H1 & _ & H3).
Qed.

Lemma align_bound a e : e <= expo a -> Z.abs (align a e) < 10 ^ (adjusted a + 1 - e).
Proof.
  intros He. destruct (width_bound a) as [Hw Hb]. unfold align, adjusted. fold (_width a).
  rewrite Z.abs_mul, (Z.abs_eq (10 ^ _)) by (apply Z.pow_nonneg; lia).
  replace (_width a + expo a - 1 + 1 - e) with (_width a + (expo a - e)) by lia.
  rewrite Z.pow_add_r by lia. assert (0 < 10 ^ (expo a - e)) by (apply Z.pow_pos_nonneg; lia). nia.
Qed.

(** No sum or product is ever rounded. *)
Lemma add_is_exact l r : add l r = add_exact l r.
Proof.
  unfold add, dadd. set (e := Z.min (expo l) (expo r)). set (m := Z.max (adjusted l) (adjusted r)).
  destruct (width_bound l) as [Hl _], (width_bound r) as [Hr _].
  assert (e <= m) as Hem by (unfold e, m, adjusted; fold (_width l) (_width r); lia).
  apply dround_exact; [lia|]. unfold add_exact. fold e. cbn [coef].
  pose proof (align_bound l e ltac:(lia)) as H1. pose proof (align_bound r e ltac:(lia)) as H2.
  assert (10 ^ (adjusted l + 1 - e) <= 10 ^ (m + 1 - e)) by (apply Z.pow_le_mono_r; lia).
  assert (10 ^ (adjusted r + 1 - e) <= 10 ^ (m + 1 - e)) by (apply Z.pow_le_mono_r; lia).
  assert (10 ^ Z.max (m - e + 3) 1 = 10 ^ 2 * 10 ^ (m + 1 - e)) as ->.
  { rewrite <-Z.pow_add_r by lia. f_equal. lia. }
  lia.
Qed.

Lemma multiply_is_exact l r : multiply l r = mul_exact l r.
Proof.
  unfold multiply, dmul. destruct (width_bound l) as [Hl Bl], (width_bound r) as [Hr Br].
  apply dround_exact; [lia|]. unfold mul_exact. cbn [coef]. rewrite Z.abs_mul.
  assert (10 ^ Z.max (_width l + _width r + 1) 1 = 10 * (10 ^ _width l * 10 ^ _width r)) as ->.
  { rewrite <-Z.pow_add_r, <-Z.pow_succ_r by lia. f_equal. lia. }
  nia.
Qed.

Lemma Qval_add l r : (Qval (add l r) == Qval l + Qval r)%Q.
Proof. rewrite add_is_exact. apply Qval_add_exact. Qed.

Lemma Qval_subtract l r : (Qval (subtract l r) == Qval l - Qval r)%Q.
Proof. unfold subtract. rewrite Qval_add, Qval_dopp. ring. Qed.

Lemma Qval_multiply l r : (Qval (multiply l r) == Qval l * Qval r)%Q.
Proof. rewrite multiply_is_exact. apply Qval_mul_exact. Qed.

(** *** Division *)

(** A rational that has a finite decimal expansion. *)
Definition terminating (q : Q) : Prop := exists n e, (q == inject_Z n * p10 e)%Q.

(** A rounded value is determined by the exact one. *)
Lemma rounds_to_unique p q r r' : 1 <= p -> rounds_to p q r -> rounds_to p q r' -> (r == r')%Q.
Proof. intros Hp H H'. apply Qle_antisym; eapply rounds_to_mono; eauto; lra. Qed.

Lemma rounds_to_representable p q r n e : 1 <= p -> (q == inject_Z n * p10 e)%Q -> Z.abs n < 10 ^ p ->
  rounds_to p q r -> (r == q)%Q.
Proof.
  intros Hp Hq Hn H. apply (rounds_to_unique p q r q Hp H).
  assert (dround p (Dec n e) = Dec n e) as Hd by by apply dround_exact.
  pose proof (dround_spec p (Dec n e) Hp) as Hs. rewrite Hd in Hs. unfold Qval in Hs. cbn [coef expo] in Hs.
  eapply rounds_to_compat; [| |exact Hs]; by rewrite Hq.
Qed.

Lemma coprime_pow10 b k : Z.gcd b 10 = 1 -> 0 <= k -> (b | 10 ^ k) -> (b | 1).
Proof.
  intros Hg Hk. pattern k. apply natlike_ind; [by rewrite Z.pow_0_r| |done]. clear k Hk.
  intros k Hk IH H. rewrite Z.pow_succ_r in H by lia. apply IH. by eapply Z.gauss.
Qed.

(** A divisor of a power of ten below [2 ^ m] divides [10 ^ m]. *)
Lemma divides_pow10 m b k : 0 <= m -> 0 < b < 2 ^ m -> 0 <= k -> (b | 10 ^ k) -> (b | 10 ^ m).
Proof.
  intros Hm. revert b. pattern m. apply natlike_ind; [| |done]; clear m Hm.
  { intros b [Hb1 Hb2]. change (2 ^ 0) with 1 in Hb2. lia. }
  intros m Hm IH b [Hb Hlt] Hk Hdiv. rewrite Z.pow_succ_r in Hlt by lia.
  destruct (Z.gcd_divide_l b 10) as [c Hc], (Z.gcd_divide_r b 10) as [q Hq].
  pose proof (Z.gcd_nonneg b 10). remember (Z.gcd b 10) as g eqn:Eg.
  destruct (Z.eq_dec g 1) as [Hg|Hg].
  - assert (b | 1) as H1 by (eapply coprime_pow10; [congruence|exact Hk|done]).
    apply Z.divide_1_r_nonneg in H1; [|lia]. rewrite H1. apply Z.divide_1_l.
  - assert (g <> 0) by (intros G; rewrite G in Hq; lia). assert (2 <= g) by lia.
    assert (c | 10 ^ m) as [z Hz].
    { apply IH; [nia|done|]. apply Z.divide_trans with b; [by exists g; lia|done]. }
    exists (z * q). rewrite Z.pow_succ_r, Hz, Hc by lia. nia.
Qed.

(** A terminating quotient has a numerator below [10 ^ (wl + 4 wr)]. *)
Lemma terminating_integers ca ea cb eb n e : cb <> 0 ->
  (inject_Z ca * p10 ea / (inject_Z cb * p10 eb) == inject_Z n * p10 e)%Q ->
  exists k, 0 <= k /\ (cb | ca * 10 ^ k).
Proof.
  intros Hcb Hq. pose proof (p10_pos eb) as Pb. pose proof (p10_pos ea) as Pa.
  assert (~ inject_Z cb == 0)%Q as Hz by (change 0%Q with (inject_Z 0); rewrite inject_Z_injective; done).
  set (s := Z.max 0 (e + eb - ea)). set (t := Z.max 0 (ea - (e + eb))).
  exists t. split; [lia|]. exists (n * 10 ^ s). apply inject_Z_injective.
  rewrite !inject_Z_mult, <-!p10_Z by lia.
  replace t with (ea + (s - (e + eb))) by lia. rewrite p10_add, p10_sub, p10_add.
  pose proof (p10_pos e).
  assert (inject_Z ca * p10 ea == inject_Z n * p10 e * (inject_Z cb * p10 eb))%Q as E.
  { rewrite <-Hq. field. split; lra || done. }
  rewrite Qmult_assoc, E. field. split; lra.
Qed.

Lemma terminating_quotient a b : coef b <> 0 -> terminating (Qval a / Qval b) ->
  exists n e, (Qval a / Qval b == inject_Z n * p10 e)%Q /\ Z.abs n < 10 ^ (_width a + 4 * _width b).
Proof.
  intros Hb (n & e & Hq). unfold Qval in *. destruct (width_bound a) as [Wa Ba], (width_bound b) as [Wb Bb].
  destruct a as [ca ea], b as [cb eb]. cbn [coef expo] in *.
  set (wa := _width (Dec ca ea)) in *. set (wb := _width (Dec cb eb)) in *.
  destruct (terminating_integers _ _ _ _ _ _ Hb Hq) as (k & Hk & Hdiv).
  destruct (Z.gcd_divide_l ca cb) as [x Hx], (Z.gcd_divide_r ca cb) as [y Hy].
  assert (0 < Z.gcd ca cb) as Hg. { pose proof (Z.gcd_nonneg ca cb). destruct (Z.eq_dec (Z.gcd ca cb) 0); lia. }
  remember (Z.gcd ca cb) as g eqn:Eg.
  assert (Z.gcd y x = 1) as Hco.
  { apply Z.mul_reg_r with g; [lia|]. rewrite <-Z.gcd_mul_mono_r_nonneg by lia.
    rewrite <-Hx, <-Hy, Z.gcd_comm, <-Eg. lia. }
  assert (y <> 0) by (intros Y; rewrite Y in Hy; lia).
  assert (Z.abs y <= Z.abs cb) as Hyb by (rewrite Hy, Z.abs_mul; nia).
  assert (Z.abs x <= Z.abs ca) as Hxa by (rewrite Hx, Z.abs_mul; nia).
  assert (Z.abs y | 10 ^ (4 * wb)) as [z Hz].
  { apply divides_pow10 with k; [lia| |done|].
    - split; [lia|]. rewrite Z.pow_mul_r by lia. change (2 ^ 4) with 16.
      assert (10 ^ wb <= 16 ^ wb) by (apply Z.pow_le_mono_l; lia). lia.
    - apply Z.divide_abs_l. apply Z.gauss with x; [|done].
      apply Z.mul_divide_cancel_r with g; [lia|]. rewrite <-Hy. by replace (x * 10 ^ k * g) with (ca * 10 ^ k) by (rewrite Hx; ring). }
  exists (x * (z * Z.sgn y)), (ea - eb - 4 * wb).
  assert (z * Z.sgn y * y = 10 ^ (4 * wb)) as Hzy by lia.
  split.
  - assert (~ inject_Z y == 0)%Q by (change 0%Q with (inject_Z 0); rewrite inject_Z_injective; done).
    assert (~ inject_Z g == 0)%Q by (change 0%Q with (inject_Z 0); rewrite inject_Z_injective; lia).
    pose proof (p10_pos eb). pose proof (p10_pos (4 * wb)).
    rewrite !p10_sub, Hx, Hy, !inject_Z_mult.
    assert (inject_Z z * inject_Z (Z.sgn y) == p10 (4 * wb) / inject_Z y)%Q as ->.
    { rewrite p10_Z, <-Hzy, !inject_Z_mult by lia. by field. }
    field. repeat split; done || lra.
  - rewrite Z.abs_mul. assert (Z.abs (z * Z.sgn y) <= 10 ^ (4 * wb)) by (rewrite <-Hzy, Z.abs_mul; nia).
    rewrite Z.pow_add_r by lia.
    assert (0 < 10 ^ (4 * wb)) by (apply Z.pow_pos_nonneg; lia). nia.
Qed.

(** Division by a nonzero value never raises; the quotient is exact when it
    terminates and is rounded half-even to fifty digits when it does not. *)
Lemma divide_spec l r : coef r <> 0 -> exists q, divide l r = Ok q
  /\ (terminating (Qval l / Qval r) -> Qval q == Qval l / Qval r)%Q
  /\ (~ terminating (Qval l / Qval r) -> rounds_to DIVISION_PRECISION (Qval l / Qval r) (Qval q)).
Proof.
  intros Hr. assert (~ Qval r == 0)%Q as Hnz by by rewrite Qval_zero.
  set (P := Z.max (exact_precision l r) 1). assert (1 <= P) as HP by lia.
  pose proof (ddiv_spec P l r HP Hr) as Hround.
  unfold divide. fold P. rewrite !ddiv_py_ok by done. cbn [mbind pyres_bind].
  destruct (deqb _ _) eqn:E.
  - apply deqb_true in E. rewrite Qval_mul_exact in E.
    assert (Qval (ddiv P l r) == Qval l / Qval r)%Q as Eq by (rewrite <-E; by field).
    eexists; split; [done|]. split; [done|]. intros Hnt. destruct Hnt. do 2 eexists. rewrite <-Eq. reflexivity.
  - eexists; split; [done|]. split; [|by intros _; apply ddiv_spec].
    intros Ht. exfalso. destruct (terminating_quotient l r Hr Ht) as (n & e & Hq & Hn).
    apply deqb_false in E. apply E. rewrite Qval_mul_exact.
    rewrite (rounds_to_representable P _ (Qval (ddiv P l r)) n e HP Hq); [by field| |done].
    destruct (width_bound l) as [Wl _], (width_bound r) as [Wr _].
    eapply Z.lt_le_trans; [exact Hn|]. apply Z.pow_le_mono_r; [lia|]. unfold P, exact_precision. lia.
Qed.

(** ** The books of a replay *)

(** Sums over a list, and amounts of a fill as rationals. *)
Fixpoint qsum {A} (f : A -> Q) (l : list A) : Q :=
  match l with [] => 0 | x :: l' => f x + qsum f l' end%Q.

Lemma qsum_app {A} (f : A -> Q) l1 l2 : (qsum f (l1 ++ l2) == qsum f l1 + qsum f l2)%Q.
Proof. induction l1 as [|x l1 IH]; cbn [qsum app]; [ring|rewrite IH; ring]. Qed.

Lemma qsum_snoc {A} (f : A -> Q) l x : (qsum f (l ++ [x]) == qsum f l + f x)%Q.
Proof. rewrite qsum_app. cbn [qsum]. ring. Qed.

Lemma qsum_insert {A} (f : A -> Q) l i x y : l !! i = Some x ->
  (qsum f (<[i := y]> l) == qsum f l - f x + f y)%Q.
Proof.
  revert i. induction l as [|z l IH]; intros [|i] H; [done|done| |]; cbn in H.
  - injection H as ->. change (<[0%nat := y]> (x :: l)) with (y :: l). cbn [qsum]. ring.
  - change (<[S i := y]> (z :: l)) with (z :: <[i := y]> l). cbn [qsum]. rewrite (IH i H). ring.
Qed.

(** A total that the code accumulates with [add]. *)
Lemma foldl_add_qsum {A} (g : A -> dec) l s :
  (Qval (foldl (fun total x => add total (g x)) s l) == Qval s + qsum (fun x => Qval (g x)) l)%Q.
Proof.
  revert s. induction l as [|x l IH]; intros s; cbn [foldl qsum]; [ring|]. rewrite IH, Qval_add. ring.
Qed.

Definition quantity_of (e : ExecutionEvent) : Q := Qval (ExecutionEvent.quantity e).
Definition notional_of (e : ExecutionEvent) : Q := (Qval (ExecutionEvent.price e) * quantity_of e)%Q.
Definition fee_of (e : ExecutionEvent) : Q := qsum Qval (ExecutionEvent.fees e).

Lemma Qval_notional e : (Qval (fill_notional e) == notional_of e)%Q.
Proof. apply Qval_multiply. Qed.

Lemma Qval_fee e : (Qval (ExecutionEvent.total_fee e) == fee_of e)%Q.
Proof.
  unfold ExecutionEvent.total_fee, fee_of. rewrite (foldl_add_qsum (fun x => x)), Qval_D0. apply Qplus_0_l.
Qed.

(** What a membership adds to a total of trade [id]. *)
Definition amount (id : string) (role : Role) (f : ExecutionEvent -> Q) (m : Membership) : Q :=
  if bool_decide (m.1.2 = id /\ m.2 = role) then f m.1.1 else 0%Q.

Definition total (id : string) (role : Role) (f : ExecutionEvent -> Q) (ms : list Membership) : Q :=
  qsum (amount id role f) ms.

(** Gains of a direction. *)
Definition signed (d : Direction) (x : Q) : Q := match d with Direction.LONG => x | Direction.SHORT => - x end.

#[global] Instance signed_proper d : Proper (Qeq ==> Qeq) (signed d).
Proof. intros x y H. destruct d; cbn [signed]; by rewrite H. Qed.

(** Trade [t] carries exactly the amounts of its fills, with quantity [q] and
    cost basis [b] still open. *)
Record books (ms : list Membership) (t : Trade) (q b : Q) : Prop := {
  bk_entry : (Qval (Trade.total_entry_notional t) == total (Trade.trade_id t) Role.ENTRY notional_of ms)%Q;
  bk_fees : (Qval (Trade.total_fees t) ==
    total (Trade.trade_id t) Role.ENTRY fee_of ms + total (Trade.trade_id t) Role.EXIT fee_of ms)%Q;
  bk_quantity : (q ==
    total (Trade.trade_id t) Role.ENTRY quantity_of ms - total (Trade.trade_id t) Role.EXIT quantity_of ms)%Q;
  bk_gross : (Qval (Trade.gross_pnl t) == signed (Trade.direction t)
    (total (Trade.trade_id t) Role.EXIT notional_of ms - (total (Trade.trade_id t) Role.ENTRY notional_of ms - b)))%Q;
  bk_closed : is_some (Trade.closed_at t) = true <-> (q == 0)%Q;
  bk_flat : (q == 0)%Q -> (b == 0)%Q;
  bk_nonneg : (0 <= q)%Q;
  bk_entered : (0 < total (Trade.trade_id t) Role.ENTRY quantity_of ms)%Q;
  bk_roles : forall m, m ∈ ms -> m.1.2 = Trade.trade_id t ->
    m.2 = if opens t m.1.1 then Role.ENTRY else Role.EXIT
}.

#[global] Instance books_proper ms t : Proper (Qeq ==> Qeq ==> iff) (books ms t).
Proof.
  assert (forall q q' b b', (q == q')%Q -> (b == b')%Q -> books ms t q b -> books ms t q' b') as H.
  { intros q q' b b' Hq Hb []. split; rewrite <-?Hq, <-?Hb; auto. }
  intros q q' Hq b b' Hb. split; apply H; auto; by symmetry.
Qed.

Lemma amount_other id role f m : m.1.2 <> id -> amount id role f m = 0%Q.
Proof. intros H. unfold amount. by rewrite bool_decide_false by tauto. Qed.

Lemma amount_same id f e role : amount id role f (e, id, role) = f e.
Proof. unfold amount. by rewrite bool_decide_true. Qed.

Lemma amount_role id f e role role' : role <> role' -> amount id role f (e, id, role') = 0%Q.
Proof. intros H. unfold amount. rewrite bool_decide_false; [done|]. cbn. intros [_ ?]. congruence. Qed.

Lemma total_snoc id role f ms m : (total id role f (ms ++ [m]) == total id role f ms + amount id role f m)%Q.
Proof. apply qsum_snoc. Qed.

(** A fill of another trade leaves the books of a trade alone. *)
Lemma books_other ms t q b m : m.1.2 <> Trade.trade_id t -> books ms t q b -> books (ms ++ [m]) t q b.
Proof.
  intros Hm []. split; rewrite ?total_snoc, ?amount_other, ?Qplus_0_r by done; auto.
  intros m' Hin Ht. apply elem_of_app in Hin as [H|H]; [auto|].
  apply list_elem_of_singleton in H. congruence.
Qed.

(** *** Looking up positions and trades *)

Lemma find_position_some s ps i p : find_position s ps = Some (i, p) -> ps !! i = Some p /\ Position.symbol p = s.
Proof.
  revert i. induction ps as [|q ps IH]; intros i; cbn [find_position]; [done|].
  case_bool_decide as E; [by intros [= <- <-]|].
  destruct (find_position s ps) as [[j q']|] eqn:Ef; [|done]. intros [= <- <-]. by apply IH.
Qed.

Lemma find_position_none s ps : find_position s ps = None -> forall p, p ∈ ps -> Position.symbol p <> s.
Proof.
  induction ps as [|q ps IH]; cbn [find_position]; intros H p Hp; [by apply elem_of_nil in Hp|].
  case_bool_decide as E; [done|]. apply elem_of_cons in Hp as [->|Hp]; [done|].
  destruct (find_position s ps); [done|]. by apply IH.
Qed.

Lemma find_position_intro ps s i p : NoDup (Position.symbol <$> ps) -> ps !! i = Some p -> Position.symbol p = s ->
  find_position s ps = Some (i, p).
Proof.
  revert i. induction ps as [|q ps IH]; intros [|i] Hnd Hl Hs; [done|done| |]; cbn in *.
  - injection Hl as ->. by rewrite bool_decide_true.
  - apply NoDup_cons in Hnd as [Hq Hnd]. rewrite bool_decide_false; [by rewrite (IH i)|].
    intros E. apply Hq. rewrite E, <-Hs. apply list_elem_of_fmap_2. by eapply list_elem_of_lookup_2.
Qed.

Lemma find_trade_ok id ts t : find_trade id ts = Ok t -> t ∈ ts /\ Trade.trade_id t = id.
Proof.
  unfold find_trade. destruct (List.find _ ts) as [t'|] eqn:E; [|done]. intros [= <-].
  apply List.find_some in E as [H1 H2]. apply bool_decide_eq_true in H2. split; [by apply list_elem_of_In|done].
Qed.

Lemma find_trade_total ts t : NoDup (Trade.trade_id <$> ts) -> t ∈ ts -> find_trade (Trade.trade_id t) ts = Ok t.
Proof.
  intros Hnd Ht. unfold find_trade. destruct (List.find _ ts) as [t'|] eqn:E.
  - apply List.find_some in E as [H1%list_elem_of_In H2%bool_decide_eq_true]. f_equal. by eapply NoDup_key.
  - eapply List.find_none in E; [|by apply list_elem_of_In]. by apply bool_decide_eq_false in E.
Qed.

Lemma replace_trade_ids t ts : Trade.trade_id <$> replace_trade t ts = Trade.trade_id <$> ts.
Proof.
  unfold replace_trade. induction ts as [|x ts IH]; [done|]. cbn. rewrite IH. by case_bool_decide; [f_equal|].
Qed.

Lemma replace_trade_elem t ts x : x ∈ replace_trade t ts <->
  (x = t /\ Trade.trade_id t ∈ Trade.trade_id <$> ts) \/ (x ∈ ts /\ Trade.trade_id x <> Trade.trade_id t).
Proof.
  unfold replace_trade. rewrite list_elem_of_fmap, list_elem_of_fmap. split.
  - intros (y & -> & Hy). case_bool_decide as E; [left; eauto|by right].
  - intros [[-> (y & E & Hy)]|[Hx E]].
    + exists y. by rewrite bool_decide_true.
    + exists x. by rewrite bool_decide_false.
Qed.

Lemma qsum_replace (f : Trade -> Q) t t0 ts : NoDup (Trade.trade_id <$> ts) -> t0 ∈ ts ->
  Trade.trade_id t0 = Trade.trade_id t -> (qsum f (replace_trade t ts) == qsum f ts - f t0 + f t)%Q.
Proof.
  intros Hnd Ht0 E. induction ts as [|x ts IH]; [by apply elem_of_nil in Ht0|].
  cbn [fmap list_fmap] in Hnd. apply NoDup_cons in Hnd as [Hx Hnd].
  unfold replace_trade in *. cbn [map qsum]. apply elem_of_cons in Ht0 as [->|Ht0].
  - rewrite bool_decide_true by done. assert (map (fun t1 => if bool_decide (Trade.trade_id t1 = Trade.trade_id t)
      then t else t1) ts = ts) as ->; [|ring].
    rewrite E in Hx. clear -Hx. induction ts as [|y ts IH]; [done|]. cbn [fmap list_fmap map] in *.
    apply not_elem_of_cons in Hx as [Hy Hx]. rewrite bool_decide_false by congruence. f_equal. by apply IH.
  - rewrite bool_decide_false; [rewrite IH by done; ring|].
    intros Ex. apply Hx. rewrite Ex, <-E. by apply list_elem_of_fmap_2.
Qed.

(** *** The invariant of the ledger *)

Record account_inv (s : Account) (ms : list Membership) : Prop := {
  ai_symbols : NoDup (Position.symbol <$> Account.positions s);
  ai_ids : NoDup (Trade.trade_id <$> Account.trades s);
  ai_known : forall t, t ∈ Account.trades s -> Trade.trade_id t ∈ (fun m : Membership => ExecutionEvent.event_id m.1.1) <$> ms;
  ai_members : forall m, m ∈ ms -> m.1.2 ∈ Trade.trade_id <$> Account.trades s;
  ai_positions : forall p, p ∈ Account.positions s -> exists t, t ∈ Account.trades s
    /\ Trade.trade_id t = Position.trade_id p /\ Trade.symbol t = Position.symbol p
    /\ Trade.direction t = Position.direction p
    /\ books ms t (Qval (Position.quantity p)) (Qval (Position.remaining_cost_basis p));
  ai_trades : forall t, t ∈ Account.trades s ->
    (exists p, p ∈ Account.positions s /\ Position.trade_id p = Trade.trade_id t) \/ books ms t 0 0;
  ai_cash : (Qval (Account.cash_balance s) == Qval (Account.initial_balance s)
    + qsum (fun t => Qval (Trade.gross_pnl t)) (Account.trades s)
    - qsum (fun t => Qval (Trade.total_fees t)) (Account.trades s))%Q
}.

(** How a fill changes the books: trade [t0] of [trades] becomes [t], and the
    position of the symbol becomes [p], with gross result [gross]. *)
Inductive booked (a : Account) (e : ExecutionEvent) :
    option Position -> list Trade -> Trade -> Trade -> Position -> dec -> Prop :=
| booked_open current t0 t p :
    (forall p0, current = Some p0 -> Qval (Position.quantity p0) == 0)%Q ->
    Trade.trade_id t0 = ExecutionEvent.event_id e -> Trade.symbol t0 = ExecutionEvent.symbol e ->
    Trade.direction t0 = fill_direction e -> Trade.closed_at t0 = None ->
    Trade.gross_pnl t0 = D 0 -> Trade.total_fees t0 = D 0 -> Trade.total_entry_notional t0 = fill_notional e ->
    t = t0 ->
    Position.trade_id p = Trade.trade_id t0 -> Position.symbol p = ExecutionEvent.symbol e ->
    Position.direction p = fill_direction e ->
    Position.quantity p = add (D 0) (ExecutionEvent.quantity e) ->
    Position.remaining_cost_basis p = add (D 0) (fill_notional e) ->
    booked a e current (Account.trades a ++ [t0]) t0 t p (D 0)
| booked_increase p0 t0 :
    ~ (Qval (Position.quantity p0) == 0)%Q -> Position.direction p0 = fill_direction e ->
    t0 ∈ Account.trades a -> Trade.trade_id t0 = Position.trade_id p0 ->
    booked a e (Some p0) (Account.trades a) t0
      (Trade.with_entry t0 (add (Trade.total_entry_notional t0) (fill_notional e)))
      (Position.with_amounts p0 (add (Position.quantity p0) (ExecutionEvent.quantity e))
        (add (Position.remaining_cost_basis p0) (fill_notional e))) (D 0)
| booked_exit p0 t0 allocated gross closed_at basis :
    ~ (Qval (Position.quantity p0) == 0)%Q -> Position.direction p0 <> fill_direction e ->
    t0 ∈ Account.trades a -> Trade.trade_id t0 = Position.trade_id p0 ->
    (quantity_of e <= Qval (Position.quantity p0))%Q ->
    (Qval gross == signed (Position.direction p0) (notional_of e - allocated))%Q ->
    (Qval basis == Qval (Position.remaining_cost_basis p0) - allocated)%Q ->
    (is_some closed_at = true <-> (quantity_of e == Qval (Position.quantity p0))%Q) ->
    ((quantity_of e == Qval (Position.quantity p0))%Q -> (Qval basis == 0)%Q) ->
    booked a e (Some p0) (Account.trades a) t0
      (Trade.with_exit t0 (add (Trade.gross_pnl t0) gross) closed_at)
      (Position.with_amounts p0 (subtract (Position.quantity p0) (ExecutionEvent.quantity e)) basis) gross.

Lemma book_entry_ok a current e pf plan trades t p : increasing current e = true ->
  book_entry a current e pf plan = Ok (trades, t, p) ->
  exists t0, booked a e current trades t0 t p (D 0)
    /\ (Qval (add (fill_notional e) (ExecutionEvent.total_fee e)) <= Qval (Account.available_balance a))%Q.
Proof.
  intros Hinc H. unfold book_entry in H. apply bind_ok in H as ([] & Hbal & H). bool_hyps.
  apply dltb_false in Hbal. rename Hbal into Hbal'.
  enough (exists t0, booked a e current trades t0 t p (D 0)) as (t0 & Ht0) by eauto.
  apply bind_ok in H as ([[trades' t'] p'] & H1 & H). cbn beta iota in H.
  destruct current as [p0|]; [destruct (deqb (Position.quantity p0) (D 0)) eqn:E0|].
  2: { apply bind_ok in H1 as ([] & _ & H1). apply bind_ok in H1 as (t0 & Hf & H1).
    injection H1 as <- <- <-. injection H as <- <- <-. apply find_trade_ok in Hf as [Hin Hid].
    exists t0. apply deqb_false in E0. rewrite Qval_D0 in E0.
    unfold increasing in Hinc. apply orb_true_iff in Hinc as [Hq|Hd]; [by apply deqb_true in Hq; rewrite Qval_D0 in Hq|].
    apply bool_decide_eq_true in Hd. by constructor. }
  all: apply bind_ok in H1 as (t0 & Ht & H1); apply validated_ok in Ht as [_ <-];
    apply bind_ok in H1 as (q & Hp & H1); apply validated_ok in Hp as [_ <-];
    injection H1 as <- <- <-; injection H as <- <- <-; eexists; constructor; try reflexivity.
  - intros ? [= <-]. apply deqb_true in E0. by rewrite Qval_D0 in E0.
  - done.
Qed.

Lemma book_exit_ok a p0 e gross t p : increasing (Some p0) e = false ->
  book_exit a p0 e = Ok (gross, t, p) -> exists t0, booked a e (Some p0) (Account.trades a) t0 t p gross.
Proof.
  intros Hinc H. unfold increasing in Hinc. bool_hyps.
  match goal with H : deqb _ _ = false |- _ => apply deqb_false in H; rewrite Qval_D0 in H end.
  unfold book_exit in H. apply bind_ok in H as ([] & Hq & H). bool_hyps. apply dltb_false in Hq.
  apply bind_ok in H as (allocated & Ha & H). apply bind_ok in H as (t0 & Ht & H).
  injection H as <- <- <-. apply find_trade_ok in Ht as [Hin Hid]. exists t0.
  apply booked_exit with (allocated := Qval allocated); try done.
  - destruct (Position.direction p0); cbn [signed]; rewrite Qval_subtract, Qval_notional; ring.
  - destruct (deqb _ _) eqn:E; [|apply Qval_subtract].
    unfold allocated_basis in Ha. rewrite E in Ha. injection Ha as <-. rewrite Qval_D0. ring.
  - destruct (deqb _ _) eqn:E; cbn [is_some].
    + apply deqb_true in E. done.
    + apply deqb_false in E. done.
  - intros E. assert (deqb (ExecutionEvent.quantity e) (Position.quantity p0) = true) as -> by by apply deqb_true.
    apply Qval_D0.
Qed.

Lemma apply_fill_ok a e pf plan a' : apply_fill a e pf plan = Ok a' ->
  Account.valid a = true /\ ExecutionEvent.check_time e = true /\ admit_fill a e pf = Ok tt /\ Account.valid a' = true
  /\ exists trades t0 t p gross, let found := find_position (ExecutionEvent.symbol e) (Account.positions a) in
    booked a e (snd <$> found) trades t0 t p gross
    /\ (increasing (snd <$> found) e = true ->
        (Qval (fill_notional e) + fee_of e <= Qval (Account.available_balance a))%Q)
    /\ a' = Account.mkAccount (Account.account_id a) (Account.execution_source a) (Account.execution_provider a)
         (Account.initial_balance a)
         (add (Account.cash_balance a) (subtract gross (ExecutionEvent.total_fee e))) (Account.created_at a)
         (Some (ExecutionEvent.received_at e)) (Provenance.sequence (ExecutionEvent.provenance e))
         (Some (ExecutionEvent.filled_at e)) (store_position (fst <$> found) p (Account.positions a))
         (replace_trade (Trade.with_fees t (add (Trade.total_fees t) (ExecutionEvent.total_fee e))) trades).
Proof.
  intros H. unfold apply_fill in H.
  apply bind_ok in H as (? & Ha & H). apply validated_ok in Ha as [Ha <-].
  apply bind_ok in H as (? & He & H). apply validated_ok in He as [He <-].
  apply bind_ok in H as (? & Hp & H). apply validated_ok in Hp as [Hp <-].
  apply bind_ok in H as ([] & Hadm & H). cbv zeta in H.
  apply bind_ok in H as ([[[gross trades] t] p] & Hb & H). apply validated_ok in H as [Hv <-].
  split; [done|]. split; [done|]. split; [done|]. split; [done|]. cbv zeta.
  destruct (increasing _ e) eqn:Hinc.
  - apply bind_ok in Hb as ([[trades' t'] p'] & Hb & E). injection E as <- <- <- <-.
    apply book_entry_ok in Hb as (t0 & Hb & Hbal); [|done]. exists trades', t0, t', p', (D 0).
    split; [done|]. split; [|done]. intros _. by rewrite Qval_add, Qval_fee in Hbal.
  - destruct (snd <$> find_position _ _) as [p0|] eqn:Ef; [|done].
    apply bind_ok in Hb as ([[gross' t'] p'] & Hb & E). injection E as <- <- <- <-.
    apply book_exit_ok in Hb as (t0 & Hb); [|done]. exists (Account.trades a), t0, t', p', gross'. done.
Qed.

Lemma check_time_amounts e : ExecutionEvent.check_time e = true ->
  (0 < Qval (ExecutionEvent.price e) /\ 0 < quantity_of e /\ 0 <= fee_of e)%Q.
Proof.
  unfold ExecutionEvent.check_time, positive_money. intros H. bool_hyps. unfold quantity_of, fee_of.
  repeat match goal with H : dltb _ _ = true |- _ => apply dltb_true in H; rewrite Qval_D0 in H end.
  repeat split; try done.
  match goal with H : forallb nonnegative_money _ = true |- _ => rename H into Hf end.
  clear -Hf. induction (ExecutionEvent.fees e) as [|x l IH]; cbn [qsum]; [lra|].
  cbn in Hf. unfold nonnegative_money in Hf at 1. bool_hyps.
  match goal with H : dleb _ _ = true |- _ => apply dleb_true in H; rewrite Qval_D0 in H end.
  specialize (IH ltac:(done)). lra.
Qed.

(** *** The books after a fill *)

Definition role_of (t : Trade) (e : ExecutionEvent) : Role := if opens t e then Role.ENTRY else Role.EXIT.

Lemma total_none id role f ms : (forall m, m ∈ ms -> m.1.2 <> id) -> (total id role f ms == 0)%Q.
Proof.
  unfold total. induction ms as [|m ms IH]; intros H; cbn [qsum]; [done|].
  rewrite amount_other by (apply H; constructor). rewrite IH; [done|]. intros; apply H. by constructor.
Qed.

(** The trade of a fill with the amounts of the fill added. *)
Lemma roles_snoc ms id t e r : Trade.trade_id t = id -> role_of t e = r ->
  (forall m, m ∈ ms -> m.1.2 = id -> m.2 = if opens t m.1.1 then Role.ENTRY else Role.EXIT) ->
  forall m, m ∈ ms ++ [(e, id, r)] -> m.1.2 = id -> m.2 = if opens t m.1.1 then Role.ENTRY else Role.EXIT.
Proof.
  intros Hid <- H m Hm Hmid. apply elem_of_app in Hm as [Hm|Hm]; [auto|].
  apply list_elem_of_singleton in Hm as ->. done.
Qed.

(** Turns the totals after a fill into the totals before it. *)
Ltac snoc_totals :=
  rewrite ?total_snoc, ?amount_same; rewrite ?(amount_role _ _ _ Role.EXIT Role.ENTRY) by done;
  rewrite ?(amount_role _ _ _ Role.ENTRY Role.EXIT) by done.

Lemma books_open ms t e : (forall m, m ∈ ms -> m.1.2 <> Trade.trade_id t) -> (0 < quantity_of e)%Q ->
  Trade.direction t = fill_direction e -> Trade.closed_at t = None ->
  (Qval (Trade.gross_pnl t) == 0 -> Qval (Trade.total_fees t) == fee_of e ->
   Qval (Trade.total_entry_notional t) == notional_of e ->
   books (ms ++ [(e, Trade.trade_id t, role_of t e)]) t (quantity_of e) (notional_of e))%Q.
Proof.
  intros Hnone Hq Hd Hc Hg Hf Hn.
  assert (role_of t e = Role.ENTRY) as Hr by (unfold role_of, opens; by rewrite bool_decide_true).
  pose proof (fun role f => total_none (Trade.trade_id t) role f ms Hnone) as Hz.
  split; try (rewrite Hr; snoc_totals; rewrite ?Hz); try lra.
  - rewrite Hg. destruct (Trade.direction t); cbn [signed]; ring.
  - rewrite Hc. cbn. split; [done|lra].
  - apply roles_snoc; [done|done|]. intros m Hm E. by destruct (Hnone m Hm).
Qed.

Lemma books_increase ms t t' q b e : books ms t q b -> (0 < quantity_of e)%Q -> ~ (q == 0)%Q ->
  Trade.direction t = fill_direction e ->
  Trade.trade_id t' = Trade.trade_id t -> Trade.direction t' = Trade.direction t -> Trade.closed_at t' = Trade.closed_at t ->
  (Qval (Trade.gross_pnl t') == Qval (Trade.gross_pnl t) -> Qval (Trade.total_fees t') == Qval (Trade.total_fees t) + fee_of e ->
   Qval (Trade.total_entry_notional t') == Qval (Trade.total_entry_notional t) + notional_of e ->
   books (ms ++ [(e, Trade.trade_id t', role_of t' e)]) t' (q + quantity_of e) (b + notional_of e))%Q.
Proof.
  intros [] Hq Hnz Hd Hid Hd' Hc Hg Hf Hn.
  assert (role_of t' e = Role.ENTRY) as Hr by (unfold role_of, opens; rewrite bool_decide_true by congruence; done).
  split; try (rewrite Hr; snoc_totals; rewrite ?Hid); try lra.
  - rewrite Hg, bk_gross0, Hd'. apply signed_proper. ring.
  - rewrite Hc, bk_closed0. split; intros; [done|lra].
  - apply roles_snoc; [done|done|]. intros m Hm E. unfold opens. rewrite Hd'. by apply bk_roles0.
Qed.

Lemma books_exit ms t t' q b e allocated gross basis : books ms t q b -> (0 < quantity_of e <= q)%Q ->
  Trade.direction t <> fill_direction e ->
  Trade.trade_id t' = Trade.trade_id t -> Trade.direction t' = Trade.direction t ->
  (is_some (Trade.closed_at t') = true <-> quantity_of e == q)%Q -> (quantity_of e == q -> basis == 0)%Q ->
  (gross == signed (Trade.direction t) (notional_of e - allocated) -> basis == b - allocated ->
   Qval (Trade.gross_pnl t') == Qval (Trade.gross_pnl t) + gross ->
   Qval (Trade.total_fees t') == Qval (Trade.total_fees t) + fee_of e ->
   Qval (Trade.total_entry_notional t') == Qval (Trade.total_entry_notional t) ->
   books (ms ++ [(e, Trade.trade_id t', role_of t' e)]) t' (q - quantity_of e) basis)%Q.
Proof.
  intros [] [Hq Hle] Hd Hid Hd' Hc Hflat Hgross Hb Hg Hf Hn.
  assert (role_of t' e = Role.EXIT) as Hr by (unfold role_of, opens; rewrite bool_decide_false by congruence; done).
  split; try (rewrite Hr; snoc_totals; rewrite ?Hid); try lra.
  - rewrite Hg, bk_gross0, Hgross, Hd', Hb. destruct (Trade.direction t); cbn [signed]; ring.
  - rewrite Hc. split; intros; lra.
  - apply roles_snoc; [done|done|]. intros m Hm E. unfold opens. rewrite Hd'. by apply bk_roles0.
Qed.

(** The trades that a fill leaves alone. *)
Lemma inv_other_trade s ms x m : account_inv s ms -> x ∈ Account.trades s -> m.1.2 <> Trade.trade_id x ->
  (exists p, p ∈ Account.positions s /\ Position.trade_id p = Trade.trade_id x
     /\ ~ (Qval (Position.quantity p) == 0)%Q) \/ books (ms ++ [m]) x 0 0.
Proof.
  intros HI Hx Hm. destruct (ai_trades _ _ HI x Hx) as [(p & Hp & Hpid)|Hb]; [|right; by apply books_other].
  destruct (Qeq_dec (Qval (Position.quantity p)) 0) as [Hz|Hz]; [right|left; eauto].
  destruct (ai_positions _ _ HI p Hp) as (t & Ht & Htid & _ & _ & Hb).
  assert (t = x) as -> by (eapply NoDup_key; [apply (ai_ids _ _ HI)|done|done|congruence]).
  pose proof (bk_flat _ _ _ _ Hb Hz) as Hb0. rewrite Hz, Hb0 in Hb. by apply books_other.
Qed.

Lemma store_position_elem ps s p q : NoDup (Position.symbol <$> ps) -> Position.symbol p = s ->
  q ∈ store_position (fst <$> find_position s ps) p ps <-> q = p \/ (q ∈ ps /\ Position.symbol q <> s).
Proof.
  intros Hnd Hs. destruct (find_position s ps) as [[i p0]|] eqn:Ef; cbn [fst fmap option_fmap option_map store_position].
  - apply find_position_some in Ef as [Hl Hs0]. split.
    + intros Hq. apply list_elem_of_lookup_1 in Hq as [j Hj].
      destruct (decide (i = j)) as [->|Hij].
      * left. rewrite list_lookup_insert_eq in Hj by (by eapply lookup_lt_Some). congruence.
      * right. rewrite list_lookup_insert_ne in Hj by done. split; [by eapply list_elem_of_lookup_2|].
        intros E. apply Hij. apply (NoDup_lookup (Position.symbol <$> ps) i j s); [done| |];
          rewrite list_lookup_fmap; [rewrite Hl|rewrite Hj]; cbn; congruence.
    + intros [->|[Hq Hne]].
      * apply list_elem_of_lookup_2 with i. apply list_lookup_insert_eq. by eapply lookup_lt_Some.
      * apply list_elem_of_lookup_1 in Hq as [j Hj]. apply list_elem_of_lookup_2 with j.
        rewrite list_lookup_insert_ne; [done|]. intros ->. congruence.
  - pose proof (find_position_none _ _ Ef) as Hn. rewrite elem_of_app, list_elem_of_singleton. naive_solver.
Qed.

Lemma store_position_symbols ps s p : NoDup (Position.symbol <$> ps) -> Position.symbol p = s ->
  NoDup (Position.symbol <$> store_position (fst <$> find_position s ps) p ps).
Proof.
  intros Hnd Hs. destruct (find_position s ps) as [[i p0]|] eqn:Ef; cbn [fst fmap option_fmap option_map store_position].
  - apply find_position_some in Ef as [Hl Hs0]. rewrite list_fmap_insert, list_insert_id; [done|].
    rewrite list_lookup_fmap, Hl. cbn. congruence.
  - pose proof (find_position_none _ _ Ef) as Hn. rewrite fmap_app. apply NoDup_app. split; [done|]. split.
    + intros x Hx Hx'. apply list_elem_of_fmap in Hx as (q & -> & Hq). cbn in Hx'.
      apply list_elem_of_singleton in Hx'. apply (Hn q Hq). congruence.
    + apply NoDup_singleton.
Qed.

(** What a booked fill leaves, in terms the invariant is made of. *)
Record step_facts (s : Account) (ms : list Membership) (e : ExecutionEvent) (trades : list Trade) (t0 t : Trade)
    (p : Position) (gross : dec) : Prop := {
  sf_ids : NoDup (Trade.trade_id <$> trades);
  sf_in : t0 ∈ trades;
  sf_id : Trade.trade_id t0 = Trade.trade_id t;
  sf_trades : forall x, x ∈ trades <-> x ∈ Account.trades s \/ x = t0;
  sf_known : Trade.trade_id t ∈ (fun m : Membership => ExecutionEvent.event_id m.1.1) <$> ms
    \/ Trade.trade_id t = ExecutionEvent.event_id e;
  sf_symbol0 : Trade.symbol t0 = ExecutionEvent.symbol e;
  sf_symbol : Trade.symbol t = ExecutionEvent.symbol e;
  sf_psymbol : Position.symbol p = ExecutionEvent.symbol e;
  sf_pid : Position.trade_id p = Trade.trade_id t;
  sf_direction : Trade.direction t = Position.direction p;
  sf_gross : (Qval (Trade.gross_pnl t) == Qval (Trade.gross_pnl t0) + Qval gross)%Q;
  sf_fees : (Qval (Trade.total_fees t) == Qval (Trade.total_fees t0) + fee_of e)%Q;
  sf_sum_gross : (qsum (fun t => Qval (Trade.gross_pnl t)) trades == qsum (fun t => Qval (Trade.gross_pnl t)) (Account.trades s))%Q;
  sf_sum_fees : (qsum (fun t => Qval (Trade.total_fees t)) trades == qsum (fun t => Qval (Trade.total_fees t)) (Account.trades s))%Q;
  sf_current : forall q, q ∈ Account.positions s -> Position.symbol q = ExecutionEvent.symbol e ->
    Position.trade_id q = Trade.trade_id t \/ (Qval (Position.quantity q) == 0)%Q;
  sf_books : books (ms ++ [(e, Trade.trade_id t, role_of t e)]) t (Qval (Position.quantity p))
    (Qval (Position.remaining_cost_basis p))
}.

Lemma ledger_step_inv s ms e trades t0 t p gross s' : account_inv s ms -> step_facts s ms e trades t0 t p gross ->
  Account.positions s' = store_position (fst <$> find_position (ExecutionEvent.symbol e) (Account.positions s)) p (Account.positions s) ->
  Account.trades s' = replace_trade t trades -> Account.initial_balance s' = Account.initial_balance s ->
  (Qval (Account.cash_balance s') == Qval (Account.cash_balance s) + Qval gross - fee_of e)%Q ->
  account_inv s' (ms ++ [(e, Trade.trade_id t, role_of t e)]).
Proof.
  intros HI HF Hps Hts Hini Hcash.
  assert (Trade.trade_id t ∈ Trade.trade_id <$> trades) as Hidin.
  { rewrite <-(sf_id _ _ _ _ _ _ _ _ HF). apply list_elem_of_fmap_2, HF. }
  assert (forall x, x ∈ Account.trades s' <-> x = t \/ (x ∈ Account.trades s /\ Trade.trade_id x <> Trade.trade_id t)) as Hel.
  { intros x. rewrite Hts, replace_trade_elem. split.
    - intros [[-> _]|[Hx Hne]]; [by left|right]. apply HF in Hx as [Hx| ->]; [done|]. by rewrite (sf_id _ _ _ _ _ _ _ _ HF) in Hne.
    - intros [->|[Hx Hne]]; [by left|right]. split; [|done]. apply HF. by left. }
  split.
  - rewrite Hps. apply store_position_symbols; [apply HI|apply HF].
  - rewrite Hts, replace_trade_ids. apply HF.
  - intros x Hx. rewrite fmap_app, elem_of_app. apply Hel in Hx as [->|[Hx _]]; [|left; by apply HI].
    destruct (sf_known _ _ _ _ _ _ _ _ HF) as [H|H]; [by left|right]. rewrite H. by apply list_elem_of_singleton.
  - intros m Hm. rewrite Hts, replace_trade_ids. apply elem_of_app in Hm as [Hm|Hm].
    + apply (ai_members _ _ HI) in Hm. apply list_elem_of_fmap in Hm as (x & -> & Hx). apply list_elem_of_fmap_2, HF. by left.
    + by apply list_elem_of_singleton in Hm as ->.
  - intros q Hq. rewrite Hps, store_position_elem in Hq by (apply HI || apply HF). destruct Hq as [->|[Hq Hne]].
    + exists t. rewrite Hel. split; [by left|]. rewrite (sf_pid _ _ _ _ _ _ _ _ HF), (sf_psymbol _ _ _ _ _ _ _ _ HF).
      split_and!; try apply HF. done.
    + destruct (ai_positions _ _ HI q Hq) as (x & Hx & Hxid & Hxs & Hxd & Hb).
      assert (Trade.trade_id x <> Trade.trade_id t) as Hxne.
      { intros E. apply Hne. rewrite <-Hxs. rewrite <-(sf_symbol0 _ _ _ _ _ _ _ _ HF). f_equal.
        eapply NoDup_key; [apply (sf_ids _ _ _ _ _ _ _ _ HF)| |apply HF|by rewrite (sf_id _ _ _ _ _ _ _ _ HF)]. apply HF. by left. }
      exists x. rewrite Hel. split; [by right|]. split_and!; [done..|]. apply books_other; [cbn; congruence|done].
  - intros x Hx. apply Hel in Hx as [->|[Hx Hne]].
    + left. exists p. rewrite Hps, store_position_elem by (apply HI || apply HF). split; [by left|apply HF].
    + destruct (inv_other_trade s ms x (e, Trade.trade_id t, role_of t e) HI Hx) as [(q & Hq & Hqid & Hqz)|Hb];
        [cbn; congruence| |by right].
      left. exists q. rewrite Hps, store_position_elem by (apply HI || apply HF). split; [right|done]. split; [done|].
      intros E. destruct (sf_current _ _ _ _ _ _ _ _ HF q Hq E); congruence.
  - rewrite Hcash, (ai_cash _ _ HI), Hini, Hts, !(qsum_replace _ t t0) by apply HF.
    rewrite (sf_gross _ _ _ _ _ _ _ _ HF), (sf_fees _ _ _ _ _ _ _ _ HF), (sf_sum_gross _ _ _ _ _ _ _ _ HF), (sf_sum_fees _ _ _ _ _ _ _ _ HF). ring.
Qed.

(** The trade of a position, when the position is current. *)
Lemma current_trade s ms e p0 t0 : account_inv s ms ->
  snd <$> find_position (ExecutionEvent.symbol e) (Account.positions s) = Some p0 ->
  t0 ∈ Account.trades s -> Trade.trade_id t0 = Position.trade_id p0 ->
  Position.symbol p0 = ExecutionEvent.symbol e /\ Trade.symbol t0 = ExecutionEvent.symbol e
  /\ Trade.direction t0 = Position.direction p0
  /\ books ms t0 (Qval (Position.quantity p0)) (Qval (Position.remaining_cost_basis p0))
  /\ (forall q, q ∈ Account.positions s -> Position.symbol q = ExecutionEvent.symbol e -> q = p0).
Proof.
  intros HI Hf Hin Hid. destruct (find_position _ _) as [[i q]|] eqn:Ef; [|done]. injection Hf as ->.
  apply find_position_some in Ef as [Hl Hs]. apply list_elem_of_lookup_2 in Hl.
  destruct (ai_positions _ _ HI p0 Hl) as (x & Hx & Hxid & Hxs & Hxd & Hb).
  assert (x = t0) as -> by (eapply NoDup_key; [apply (ai_ids _ _ HI)|done|done|congruence]).
  split_and!; [done|congruence|done|done|]. intros q Hq E. eapply NoDup_key; [apply (ai_symbols _ _ HI)|done|done|congruence].
Qed.

Lemma with_fees_value t e :
  (Qval (Trade.total_fees (Trade.with_fees t (add (Trade.total_fees t) (ExecutionEvent.total_fee e))))
   == Qval (Trade.total_fees t) + fee_of e)%Q.
Proof. cbn [Trade.total_fees Trade.with_fees]. by rewrite Qval_add, Qval_fee. Qed.

Lemma booked_step s ms e trades t0 t p gross : account_inv s ms -> ExecutionEvent.check_time e = true ->
  ExecutionEvent.event_id e ∉ (fun m : Membership => ExecutionEvent.event_id m.1.1) <$> ms ->
  booked s e (snd <$> find_position (ExecutionEvent.symbol e) (Account.positions s)) trades t0 t p gross ->
  step_facts s ms e trades t0 (Trade.with_fees t (add (Trade.total_fees t) (ExecutionEvent.total_fee e))) p gross.
Proof.
  intros HI He Hfresh Hb. destruct (check_time_amounts e He) as (_ & Hq & _).
  pose proof (with_fees_value t e) as Hfees.
  assert (forall x, x ∈ Account.trades s -> Trade.trade_id x <> ExecutionEvent.event_id e) as Hnew.
  { intros x Hx E. apply Hfresh. rewrite <-E. by apply (ai_known _ _ HI). }
  remember (snd <$> find_position _ _) as current eqn:Hcur.
  destruct Hb as [current t0 t p Hz Hid Hsym Hdir Hclosed Hg Hf Hn -> Hpid Hpsym Hpdir Hpq Hpb
    |p0 t0 Hnz Hdir Hin Hid|p0 t0 allocated gross closed_at basis Hnz Hdir Hin Hid Hle Hgross Hbasis Hcl Hflat].
  - assert (Qval (Trade.total_fees t0) == 0)%Q as Hf0 by (rewrite Hf; apply Qval_D0).
    split; try done.
    + rewrite fmap_app. apply NoDup_app. split_and!; [apply HI| |apply NoDup_singleton].
      intros i Hi Hi'. apply list_elem_of_fmap in Hi as (x & -> & Hx). apply list_elem_of_singleton in Hi'.
      apply (Hnew x Hx). congruence.
    + apply elem_of_app. right. by apply list_elem_of_singleton.
    + intros x. by rewrite elem_of_app, list_elem_of_singleton.
    + by right.
    + cbn. congruence.
    + cbn. rewrite Qval_D0. ring.
    + rewrite qsum_snoc, Hg, Qval_D0. ring.
    + rewrite qsum_snoc, Hf0. ring.
    + intros q Hq' E. right. destruct (find_position _ _) as [[i p0]|] eqn:Ef.
      * apply find_position_some in Ef as [Hl Hs]. apply list_elem_of_lookup_2 in Hl.
        assert (q = p0) as -> by (eapply NoDup_key; [apply (ai_symbols _ _ HI)|done|done|congruence]).
        apply Hz. by rewrite Hcur.
      * by destruct (find_position_none _ _ Ef q Hq').
    + rewrite Hpq, Hpb, !Qval_add, Qval_D0, Qval_notional, !Qplus_0_l. apply books_open; try done.
      * intros m Hm E. apply (ai_members _ _ HI) in Hm. apply list_elem_of_fmap in Hm as (x & Hx & Hin).
        apply (Hnew x Hin). cbn in E. congruence.
      * cbn. by rewrite Hg, Qval_D0.
      * rewrite Hfees, Hf0. ring.
      * cbn. by rewrite Hn, Qval_notional.
  - destruct (current_trade s ms e p0 t0 HI ltac:(by symmetry) Hin Hid) as (Hps & Hts & Htd & Hbk & Huniq).
    split; try done; try apply HI.
    + intros x. naive_solver.
    + left. exact (ai_known _ _ HI t0 Hin).
    + cbn. rewrite Qval_D0. ring.
    + intros q Hq' E. left. by rewrite (Huniq q Hq' E).
    + cbn [Position.quantity Position.remaining_cost_basis Position.with_amounts].
      rewrite !Qval_add, Qval_notional. apply books_increase with t0; try done.
      * congruence.
      * cbn. by rewrite Qval_add, Qval_notional.
  - destruct (current_trade s ms e p0 t0 HI ltac:(by symmetry) Hin Hid) as (Hps & Hts & Htd & Hbk & Huniq).
    split; try done; try apply HI.
    + intros x. naive_solver.
    + left. exact (ai_known _ _ HI t0 Hin).
    + cbn. by rewrite Qval_add.
    + intros q Hq' E. left. by rewrite (Huniq q Hq' E).
    + cbn [Position.quantity Position.remaining_cost_basis Position.with_amounts]. rewrite Qval_subtract.
      apply books_exit with t0 (Qval (Position.remaining_cost_basis p0)) allocated (Qval gross); try done.
      * congruence.
      * by rewrite Htd.
      * cbn. by rewrite Qval_add.
Qed.

(** *** The invariant of a replay *)

Lemma apply_fill_inv s ms e pf plan s' : account_inv s ms ->
  ExecutionEvent.event_id e ∉ (fun m : Membership => ExecutionEvent.event_id m.1.1) <$> ms ->
  apply_fill s e pf plan = Ok s' ->
  exists t i p, account_inv s' (ms ++ [(e, Trade.trade_id t, role_of t e)]) /\ t ∈ Account.trades s'
    /\ find_position (ExecutionEvent.symbol e) (Account.positions s') = Some (i, p)
    /\ Position.trade_id p = Trade.trade_id t.
Proof.
  intros HI Hfresh H. apply apply_fill_ok in H as (_ & He & _ & _ & trades & t0 & t1 & p & gross & H).
  cbv zeta in H. destruct H as (Hb & _ & Es).
  pose proof (booked_step _ _ _ _ _ _ _ _ HI He Hfresh Hb) as HF.
  set (t := Trade.with_fees t1 _) in *.
  assert (account_inv s' (ms ++ [(e, Trade.trade_id t, role_of t e)])) as HI'.
  { eapply (ledger_step_inv s ms e trades t0 t p gross); [done|done|by rewrite Es..|].
    rewrite Es. cbn [Account.cash_balance]. rewrite Qval_add, Qval_subtract, Qval_fee. ring. }
  assert (t ∈ Account.trades s') as Ht.
  { rewrite Es. cbn [Account.trades]. apply replace_trade_elem. left. split; [done|].
    rewrite <-(sf_id _ _ _ _ _ _ _ _ HF). apply list_elem_of_fmap_2, HF. }
  assert (p ∈ Account.positions s') as Hp.
  { rewrite Es. apply store_position_elem; [apply HI|apply HF|by left]. }
  apply list_elem_of_lookup_1 in Hp as [i Hi]. exists t, i, p. split_and!; [done|done| |apply HF].
  apply find_position_intro; [apply HI'|done|apply HF].
Qed.

Lemma in_generator_ok {A} (m : pyres A) a : in_generator m = Ok a -> m = Ok a.
Proof. destruct m as [|[cls msg]]; cbn; [done|]. by case_bool_decide. Qed.

Lemma replay_fill_inv s ms e pf plan acc : account_inv s ms ->
  ExecutionEvent.event_id e ∉ (fun m : Membership => ExecutionEvent.event_id m.1.1) <$> ms ->
  replay_fill (s, ms) (e, pf, plan) = Ok acc ->
  account_inv acc.1 acc.2 /\ apply_fill s e pf plan = Ok acc.1 /\ exists id role, acc.2 = ms ++ [(e, id, role)].
Proof.
  intros HI Hfresh H. unfold replay_fill in H. cbn beta iota in H. apply in_generator_ok in H. apply bind_ok in H as (s' & Ha & H).
  cbn [fst snd] in *. destruct (apply_fill_inv _ _ _ _ _ _ HI Hfresh Ha) as (t & i & p & HI' & Ht & Hf & Hpid).
  rewrite Hf in H. rewrite Hpid, find_trade_total in H by (apply HI' || done). injection H as <-.
  split_and!; [done|done|by do 2 eexists].
Qed.

(** A property of every fill booked by a replay. *)
Lemma replay_inv (I : Account -> list FillInput -> Prop) inputs s ms s' ms' done_inputs :
  account_inv s ms -> I s done_inputs ->
  (fun m : Membership => m.1.1) <$> ms = (fun i : FillInput => i.1.1) <$> done_inputs ->
  NoDup ((fun i : FillInput => ExecutionEvent.event_id i.1.1) <$> (done_inputs ++ inputs)) ->
  (forall a ms0 ins e pf plan a', account_inv a ms0 -> I a ins ->
    ExecutionEvent.event_id e ∉ (fun m : Membership => ExecutionEvent.event_id m.1.1) <$> ms0 ->
    apply_fill a e pf plan = Ok a' -> I a' (ins ++ [(e, pf, plan)])) ->
  py_fold replay_fill (s, ms) inputs = Ok (s', ms') ->
  account_inv s' ms' /\ I s' (done_inputs ++ inputs)
  /\ (fun m : Membership => m.1.1) <$> ms' = (fun i : FillInput => i.1.1) <$> (done_inputs ++ inputs).
Proof.
  intros HI Hi Hms Hnd Hstep. revert s ms done_inputs HI Hi Hms Hnd.
  induction inputs as [|x inputs IH]; intros s ms ins HI Hi Hms Hnd H; cbn [py_fold] in H.
  - injection H as <- <-. by rewrite app_nil_r.
  - assert (ins ++ x :: inputs = (ins ++ [x]) ++ inputs) as Eapp by by rewrite <-app_assoc.
    assert (ExecutionEvent.event_id x.1.1 ∉ (fun m : Membership => ExecutionEvent.event_id m.1.1) <$> ms) as Hfresh.
    { intros Hin. rewrite fmap_app in Hnd. apply NoDup_app in Hnd as (_ & Hd & _).
      apply (Hd (ExecutionEvent.event_id x.1.1)); [|cbn; constructor].
      rewrite (list_fmap_compose (fun m : Membership => m.1.1) ExecutionEvent.event_id) in Hin. rewrite Hms in Hin.
      by rewrite <-list_fmap_compose in Hin. }
    rewrite Eapp in Hnd. rewrite Eapp. clear Eapp.
    destruct (replay_fill (s, ms) x) as [[s1 ms1]|] eqn:E; [|done]. destruct x as [[e pf] plan].
    apply replay_fill_inv in E as (HI1 & Ha & id & role & Ems); [|done|done].
    cbn [fst snd] in *. apply (IH s1 ms1); [done|exact (Hstep s ms ins e pf plan s1 HI Hi Hfresh Ha)| |done|done].
    rewrite Ems, !fmap_app, Hms. done.
Qed.

Lemma empty_projection_inv origin s : empty_projection origin = Ok s -> account_inv s []
  /\ Account.initial_balance s = Account.initial_balance origin /\ Account.trades s = [] /\ Account.positions s = []
  /\ Account.last_sequence s = 0 /\ Account.last_filled_at s = None.
Proof.
  intros H. apply validated_ok in H as [_ <-]. split_and!; try done. split; try (intros ? Hin; by apply elem_of_nil in Hin).
  - constructor.
  - constructor.
  - cbn. ring.
Qed.

Lemma replay_memberships_inv (I : Account -> list FillInput -> Prop) origin inputs s ms :
  NoDup ((fun i : FillInput => ExecutionEvent.event_id i.1.1) <$> inputs) ->
  (forall s0, empty_projection origin = Ok s0 -> I s0 []) ->
  (forall a ms0 ins e pf plan a', account_inv a ms0 -> I a ins ->
    ExecutionEvent.event_id e ∉ (fun m : Membership => ExecutionEvent.event_id m.1.1) <$> ms0 ->
    apply_fill a e pf plan = Ok a' -> I a' (ins ++ [(e, pf, plan)])) ->
  replay_memberships origin inputs = Ok (s, ms) ->
  account_inv s ms /\ I s inputs /\ (fun m : Membership => m.1.1) <$> ms = (fun i : FillInput => i.1.1) <$> inputs.
Proof.
  intros Hnd H0 Hstep H. unfold replay_memberships in H. apply bind_ok in H as (s0 & Hs0 & H).
  apply (replay_inv I inputs s0 [] s ms []); auto. by apply empty_projection_inv in Hs0 as [HI _].
Qed.

Lemma realized_value s : (Qval (Account.realized_pnl s) == qsum (fun t => Qval (Trade.gross_pnl t)) (Account.trades s))%Q.
Proof. unfold Account.realized_pnl. rewrite foldl_add_qsum, Qval_D0. ring. Qed.

Lemma available_value s : (Qval (Account.available_balance s) == Qval (Account.cash_balance s)
  - qsum (fun p => Qval (Position.remaining_cost_basis p)) (Account.positions s))%Q.
Proof.
  unfold Account.available_balance, Account.reserved_collateral. rewrite Qval_subtract, foldl_add_qsum, Qval_D0. ring.
Qed.

Lemma store_position_sum (f : Position -> Q) ps s p :
  (qsum f (store_position (fst <$> find_position s ps) p ps)
   == qsum f ps - match snd <$> find_position s ps with Some p0 => f p0 | None => 0 end + f p)%Q.
Proof.
  destruct (find_position s ps) as [[i p0]|] eqn:Ef; cbn [fst snd fmap option_fmap option_map store_position].
  - apply find_position_some in Ef as [Hl _]. rewrite (qsum_insert f _ _ _ _ Hl). ring.
  - rewrite qsum_snoc. ring.
Qed.

(** The fees of the trades are the fees of the fills. *)
Lemma apply_fill_fees s ms e pf plan s' : account_inv s ms ->
  ExecutionEvent.event_id e ∉ (fun m : Membership => ExecutionEvent.event_id m.1.1) <$> ms ->
  apply_fill s e pf plan = Ok s' -> Account.initial_balance s' = Account.initial_balance s
  /\ (qsum (fun t => Qval (Trade.total_fees t)) (Account.trades s')
      == qsum (fun t => Qval (Trade.total_fees t)) (Account.trades s) + fee_of e)%Q.
Proof.
  intros HI Hfresh H. apply apply_fill_ok in H as (_ & He & _ & _ & trades & t0 & t1 & p & gross & H).
  cbv zeta in H. destruct H as (Hb & _ & Es). pose proof (booked_step _ _ _ _ _ _ _ _ HI He Hfresh Hb) as HF.
  rewrite Es. cbn [Account.initial_balance Account.trades]. split; [done|].
  rewrite (qsum_replace _ _ t0) by apply HF.
  rewrite (sf_fees _ _ _ _ _ _ _ _ HF), (sf_sum_fees _ _ _ _ _ _ _ _ HF). ring.
Qed.

(** An entry takes its notional and its fees from the available balance. *)
Lemma entry_available s ms e pf plan s' : account_inv s ms -> apply_fill s e pf plan = Ok s' ->
  increasing (snd <$> find_position (ExecutionEvent.symbol e) (Account.positions s)) e = true ->
  (Qval (Account.available_balance s') == Qval (Account.available_balance s) - notional_of e - fee_of e
   /\ 0 <= Qval (Account.available_balance s'))%Q.
Proof.
  intros HI H Hinc. apply apply_fill_ok in H as (_ & He & _ & _ & trades & t0 & t1 & p & gross & H).
  cbv zeta in H. destruct H as (Hb & Hbal & Es). specialize (Hbal Hinc). rewrite Qval_notional in Hbal.
  enough (Qval (Account.available_balance s') == Qval (Account.available_balance s) - notional_of e - fee_of e)%Q
    by (split; lra).
  rewrite !available_value, Es. cbn [Account.cash_balance Account.positions].
  rewrite store_position_sum, Qval_add, Qval_subtract, Qval_fee. clear Es.
  remember (snd <$> find_position _ _) as current eqn:Hcur.
  destruct Hb as [current t0 t p Hz _ _ _ _ _ _ _ _ _ _ _ _ Hb|p0 t0 _ _ _ _|p0 t0 allocated gross c b Hnz Hd _ _ _ _ _ _ _].
  - rewrite Hb, Qval_add, Qval_D0, Qval_notional. destruct current as [p0|]; [|ring].
    destruct (find_position _ _) as [[i q]|] eqn:Ef; [|done]. injection Hcur as <-.
    apply find_position_some in Ef as [Hl _]. apply list_elem_of_lookup_2 in Hl.
    destruct (ai_positions _ _ HI p0 Hl) as (t' & _ & _ & _ & _ & Hbk).
    rewrite (bk_flat _ _ _ _ Hbk) by by apply Hz. ring.
  - cbn [Position.remaining_cost_basis Position.with_amounts]. rewrite Qval_add, Qval_notional, Qval_D0. ring.
  - unfold increasing in Hinc. apply orb_true_iff in Hinc as [H|H].
    + apply deqb_true in H. by rewrite Qval_D0 in H.
    + by apply bool_decide_eq_true in H.
Qed.

(** *** The display of a trade *)

(** The fills of trade [id]. *)
Definition events_of (id : string) (ms : list Membership) : list ExecutionEvent :=
  (fun m : Membership => m.1.1) <$> filter (fun m : Membership => m.1.2 = id) ms.

Lemma fill_totals_value t ms : let id := Trade.trade_id t in
  (forall m, m ∈ ms -> m.1.2 = id -> m.2 = role_of t m.1.1) ->
  let '(entered, exited, exit_notional) := fill_totals t (events_of id ms) in
  (Qval entered == total id Role.ENTRY quantity_of ms /\ Qval exited == total id Role.EXIT quantity_of ms
   /\ Qval exit_notional == total id Role.EXIT notional_of ms)%Q.
Proof.
  cbv zeta. intros Hr. unfold fill_totals.
  match goal with |- context [foldl ?F] => set (step := F) end.
  enough (forall a b c, let '(x, y, z) := foldl step (a, b, c) (events_of (Trade.trade_id t) ms) in
    Qval x == Qval a + total (Trade.trade_id t) Role.ENTRY quantity_of ms
    /\ Qval y == Qval b + total (Trade.trade_id t) Role.EXIT quantity_of ms
    /\ Qval z == Qval c + total (Trade.trade_id t) Role.EXIT notional_of ms)%Q as H.
  { specialize (H (D 0) (D 0) (D 0)). destruct (foldl step _ _) as [[x y] z]. rewrite Qval_D0 in H.
    destruct H as (H1 & H2 & H3). rewrite H1, H2, H3. split_and!; ring. }
  unfold total. induction ms as [|[[e id] role] ms IH]; intros a b c; [cbn [events_of filter fmap list_fmap foldl qsum]; cbn; split_and!; ring|].
  assert (forall m, m ∈ ms -> m.1.2 = Trade.trade_id t -> m.2 = role_of t m.1.1) as Hr' by (intros; apply Hr; [by constructor|done]).
  specialize (IH Hr'). cbn [qsum]. unfold events_of. rewrite filter_cons. cbn [fst snd].
  destruct (decide (id = Trade.trade_id t)) as [->|Hne].
  - assert (role = role_of t e) as -> by (apply (Hr (e, Trade.trade_id t, role)); [constructor|done]).
    rewrite fmap_cons. cbn [foldl fst snd]. unfold step at 2. cbn beta iota. unfold role_of.
    destruct (opens t e).
    + specialize (IH (add a (ExecutionEvent.quantity e)) b c). unfold events_of in IH.
      destruct (foldl step _ _) as [[x y] z]. rewrite amount_same, !(amount_role _ _ _ Role.EXIT Role.ENTRY) by done.
      rewrite Qval_add in IH. unfold quantity_of at 1. destruct IH as (-> & -> & ->). split_and!; ring.
    + specialize (IH a (add b (ExecutionEvent.quantity e)) (add c (fill_notional e))). unfold events_of in IH.
      destruct (foldl step _ _) as [[x y] z]. rewrite !amount_same, !(amount_role _ _ _ Role.ENTRY Role.EXIT) by done.
      rewrite !Qval_add, Qval_notional in IH. unfold quantity_of at 2. destruct IH as (-> & -> & ->). split_and!; ring.
  - rewrite !amount_other by (cbn; congruence). specialize (IH a b c). unfold events_of in IH.
    destruct (foldl step _ _) as [[x y] z]. destruct IH as (-> & -> & ->). split_and!; ring.
Qed.

(** The average the display shows: exact when it terminates, else rounded to
    fifty digits. *)
Definition is_average (x y : Q) (q : dec) : Prop :=
  (terminating (x / y) -> Qval q == x / y)%Q /\ (~ terminating (x / y) -> rounds_to DIVISION_PRECISION (x / y) (Qval q)).

Lemma terminating_compat x y : (x == y)%Q -> terminating x -> terminating y.
Proof. intros E (n & e & H). exists n, e. by rewrite <-E. Qed.

Lemma divide_average a b x y : (Qval a == x)%Q -> (Qval b == y)%Q -> ~ (y == 0)%Q ->
  exists q, divide a b = Ok q /\ is_average x y q.
Proof.
  intros Hx Hy Hnz. destruct (divide_spec a b) as (q & Hq & H1 & H2); [by rewrite <-Qval_zero, Hy|].
  exists q. split; [done|]. assert (Qval a / Qval b == x / y)%Q as E by by rewrite Hx, Hy. split.
  - intros Ht. rewrite <-E. apply H1. by apply (terminating_compat (x / y)).
  - intros Ht. eapply rounds_to_compat; [exact E|reflexivity|]. apply H2. intros Ht'. apply Ht. by eapply terminating_compat.
Qed.

Lemma display_books ms t q b : books ms t q b ->
  exists d, fill_display t (events_of (Trade.trade_id t) ms) = Ok d
    /\ (Qval (FillDisplay.quantity d) == total (Trade.trade_id t) Role.ENTRY quantity_of ms)%Q
    /\ (Qval (FillDisplay.remaining_quantity d) == q)%Q
    /\ is_average (total (Trade.trade_id t) Role.ENTRY notional_of ms) (total (Trade.trade_id t) Role.ENTRY quantity_of ms)
         (FillDisplay.average_entry_price d)
    /\ match FillDisplay.average_exit_price d with
       | None => (total (Trade.trade_id t) Role.EXIT quantity_of ms == 0)%Q
       | Some average => is_average (total (Trade.trade_id t) Role.EXIT notional_of ms)
                           (total (Trade.trade_id t) Role.EXIT quantity_of ms) average
       end
    /\ (FillDisplay.status d = "CLOSED"%string <-> (q == 0)%Q).
Proof.
  intros [Hentry _ Hq _ Hclosed _ Hnn Hpos Hroles]. pose proof (fill_totals_value t ms Hroles) as Hv. cbv zeta in Hv.
  unfold fill_display. destruct (fill_totals _ _) as [[entered exited] exit_notional]. destruct Hv as (He & Hx & Hn).
  assert (Qval (subtract entered exited) == q)%Q as Hrem by (rewrite Qval_subtract, He, Hx, Hq; done).
  assert (dleb entered (D 0) = false) as -> by (apply dleb_false; rewrite Qval_D0, He; done).
  assert (dltb (subtract entered exited) (D 0) = false) as -> by (apply dltb_false; rewrite Qval_D0, Hrem; done).
  assert (Bool.eqb (deqb (subtract entered exited) (D 0)) (is_some (Trade.closed_at t)) = true) as ->.
  { apply eqb_true_iff. destruct (is_some (Trade.closed_at t)).
    - apply deqb_true. rewrite Qval_D0, Hrem. by apply Hclosed.
    - apply deqb_false. rewrite Qval_D0, Hrem. intros E. by apply Hclosed in E. }
  destruct (divide_average (Trade.total_entry_notional t) entered _ _ Hentry He) as (av & -> & Hav); [lra|].
  cbn [mbind pyres_bind raise_if orb negb].
  assert (is_some (Trade.closed_at t) = true -> "CLOSED"%string = "CLOSED"%string <-> (q == 0)%Q) as Hs1 by tauto.
  destruct (deqb exited (D 0)) eqn:Ex; cbn [mbind pyres_bind].
  - apply deqb_true in Ex. rewrite Qval_D0, Hx in Ex. eexists. split; [reflexivity|]. cbn [negb].
    split_and!; cbn; try done. destruct (is_some _); [tauto|]. split; [done|]. by rewrite <-Hclosed.
  - apply deqb_false in Ex. rewrite Qval_D0, Hx in Ex.
    destruct (divide_average exit_notional exited _ _ Hn Hx Ex) as (ax & -> & Hax).
    eexists. split; [reflexivity|]. cbn [negb]. split_and!; cbn; try done.
    destruct (is_some _); [tauto|]. split; [done|]. by rewrite <-Hclosed.
Qed.

(** ** Properties *)

(** The arithmetic of the ledger loses nothing: sums, differences and
    products are the exact ones, and a quotient is the exact one whenever it
    has a finite decimal expansion, however long; otherwise it is the exact
    quotient rounded half-even to fifty digits. Only a zero divisor raises. *)
Theorem paper_arithmetic_exact l r :
  (Qval (add l r) == Qval l + Qval r)%Q /\ (Qval (subtract l r) == Qval l - Qval r)%Q
  /\ (Qval (multiply l r) == Qval l * Qval r)%Q
  /\ ((exists q, divide l r = Ok q) <-> ~ (Qval r == 0)%Q)
  /\ (forall q, divide l r = Ok q ->
       (terminating (Qval l / Qval r) -> Qval q == Qval l / Qval r)%Q
       /\ (~ terminating (Qval l / Qval r) -> rounds_to DIVISION_PRECISION (Qval l / Qval r) (Qval q))).
Proof.
  assert (forall q, divide l r = Ok q -> coef r <> 0) as Hnz.
  { intros q H E. unfold divide, ddiv_py in H. rewrite E in H. by destruct (coef l =? 0). }
  split_and!; [apply Qval_add|apply Qval_subtract|apply Qval_multiply| |].
  - rewrite Qval_zero. split; [intros [q H]; eauto|]. intros H. destruct (divide_spec l r H) as (q & Hq & _). eauto.
  - intros q H. destruct (divide_spec l r (Hnz q H)) as (q' & Hq & H1 & H2). assert (q = q') as -> by congruence. done.
Qed.

(** Identifiers of the fills of a replay. *)
Definition input_ids (inputs : list FillInput) : list string :=
  (fun i : FillInput => ExecutionEvent.event_id i.1.1) <$> inputs.

(** C26. Money is conserved and never borrowed: after any replay of distinct
    fills the cash is the initial balance plus the realised results of the
    trades minus the fees of all fills, to the last digit; and a further entry
    is only booked when its notional and fees are covered, taking exactly them
    from the available balance. *)
Theorem replay_cash_conserved origin inputs s ms : NoDup (input_ids inputs) ->
  replay_memberships origin inputs = Ok (s, ms) ->
  (Qval (Account.cash_balance s) == Qval (Account.initial_balance origin) + Qval (Account.realized_pnl s)
     - qsum (fun i : FillInput => fee_of i.1.1) inputs)%Q
  /\ forall e pf plan s', apply_fill s e pf plan = Ok s' ->
       increasing (snd <$> find_position (ExecutionEvent.symbol e) (Account.positions s)) e = true ->
       (Qval (Account.available_balance s') == Qval (Account.available_balance s) - notional_of e - fee_of e
        /\ 0 <= Qval (Account.available_balance s'))%Q.
Proof.
  intros Hnd H. apply (replay_memberships_inv (fun s ins =>
    Account.initial_balance s = Account.initial_balance origin /\
    (qsum (fun t => Qval (Trade.total_fees t)) (Account.trades s) == qsum (fun i : FillInput => fee_of i.1.1) ins)%Q))
    in H as (HI & [Hini Hfees] & _); [|done| |].
  - split; [|intros e pf plan s'; by eapply entry_available].
    rewrite (ai_cash _ _ HI), realized_value, Hini, Hfees. reflexivity.
  - intros s0 Hs0. apply empty_projection_inv in Hs0 as (_ & H1 & H2 & _). by rewrite H2.
  - intros a ms0 ins e pf plan a' HI [H1 H2] Hfresh Ha.
    destruct (apply_fill_fees _ _ _ _ _ _ HI Hfresh Ha) as [H3 H4]. split; [congruence|].
    rewrite H4, H2, qsum_snoc. reflexivity.
Qed.

(** C25. The trades of a replay reconcile with its fills: every fill belongs
    to exactly one recorded trade, in the role its side gives it; entry
    notional and fees of a trade are the sums over its fills; an open trade is
    carried by the position of its symbol with the quantity not yet exited; and
    the gross result of a closed trade is exit notional less entry notional
    exactly, although its exits may have been allocated rounded costs. *)
Theorem replay_trades_reconcile origin inputs s ms : NoDup (input_ids inputs) ->
  replay_memberships origin inputs = Ok (s, ms) ->
  (fun m : Membership => m.1.1) <$> ms = (fun i : FillInput => i.1.1) <$> inputs
  /\ NoDup (Position.symbol <$> Account.positions s) /\ NoDup (Trade.trade_id <$> Account.trades s)
  /\ (forall m, m ∈ ms -> exists t, t ∈ Account.trades s /\ Trade.trade_id t = m.1.2 /\ m.2 = role_of t m.1.1)
  /\ (forall t, t ∈ Account.trades s -> exists q b, books ms t q b
       /\ (is_some (Trade.closed_at t) = true -> Qval (Trade.gross_pnl t) == signed (Trade.direction t)
             (total (Trade.trade_id t) Role.EXIT notional_of ms - total (Trade.trade_id t) Role.ENTRY notional_of ms))%Q
       /\ (is_some (Trade.closed_at t) = false -> exists p, p ∈ Account.positions s
             /\ Position.trade_id p = Trade.trade_id t /\ Position.symbol p = Trade.symbol t
             /\ Position.direction p = Trade.direction t
             /\ (Qval (Position.quantity p) == q)%Q /\ (Qval (Position.remaining_cost_basis p) == b)%Q)).
Proof.
  intros Hnd H. apply (replay_memberships_inv (fun _ _ => True)) in H as (HI & _ & Hms); [|done..].
  assert (forall t, t ∈ Account.trades s -> exists q b, books ms t q b /\ ((~ q == 0)%Q ->
    exists p, p ∈ Account.positions s /\ Position.trade_id p = Trade.trade_id t /\ Position.symbol p = Trade.symbol t
      /\ Position.direction p = Trade.direction t
      /\ (Qval (Position.quantity p) == q)%Q /\ (Qval (Position.remaining_cost_basis p) == b)%Q)) as Hbooks.
  { intros t Ht. destruct (ai_trades _ _ HI t Ht) as [(p & Hp & Hpid)|Hb]; [|exists 0%Q, 0%Q; split; [done|intros []; done]].
    destruct (ai_positions _ _ HI p Hp) as (t' & Ht' & Hid & Hs & Hd & Hb).
    assert (t' = t) as -> by (eapply NoDup_key; [apply (ai_ids _ _ HI)|done|done|congruence]).
    do 2 eexists. split; [exact Hb|]. intros _. exists p. done. }
  split_and!; [done|apply HI|apply HI| |].
  - intros m Hm. pose proof (ai_members _ _ HI m Hm) as Hin. apply list_elem_of_fmap in Hin as (t & Hid & Ht).
    exists t. split_and!; [done|done|]. destruct (Hbooks t Ht) as (q & b & Hb & _). by apply Hb.
  - intros t Ht. destruct (Hbooks t Ht) as (q & b & Hb & Hopen). exists q, b. split_and!; [done| |].
    + intros Hc. apply (bk_closed _ _ _ _ Hb) in Hc. rewrite (bk_gross _ _ _ _ Hb), (bk_flat _ _ _ _ Hb Hc).
      apply signed_proper. ring.
    + intros Hc. apply Hopen. rewrite <-(bk_closed _ _ _ _ Hb), Hc. done.
Qed.

(** The display of a recorded trade never raises "inconsistent execution
    trade membership" nor divides by zero: it shows the quantity entered, the
    quantity the position still holds, averages that are exact or rounded to
    fifty digits, and [CLOSED] exactly when nothing remains. *)
Theorem replay_display_total origin inputs s ms t : NoDup (input_ids inputs) ->
  replay_memberships origin inputs = Ok (s, ms) -> t ∈ Account.trades s ->
  exists d, let id := Trade.trade_id t in fill_display t (events_of id ms) = Ok d
    /\ (Qval (FillDisplay.quantity d) == total id Role.ENTRY quantity_of ms)%Q
    /\ (Qval (FillDisplay.remaining_quantity d) == total id Role.ENTRY quantity_of ms - total id Role.EXIT quantity_of ms)%Q
    /\ is_average (total id Role.ENTRY notional_of ms) (total id Role.ENTRY quantity_of ms)
         (FillDisplay.average_entry_price d)
    /\ match FillDisplay.average_exit_price d with
       | None => (total id Role.EXIT quantity_of ms == 0)%Q
       | Some average => is_average (total id Role.EXIT notional_of ms) (total id Role.EXIT quantity_of ms) average
       end
    /\ (FillDisplay.status d = "CLOSED"%string <-> is_some (Trade.closed_at t) = true)
    /\ (forall p, p ∈ Account.positions s -> Position.trade_id p = id ->
          Qval (FillDisplay.remaining_quantity d) == Qval (Position.quantity p))%Q.
Proof.
  intros Hnd H Ht. apply (replay_memberships_inv (fun _ _ => True)) in H as (HI & _ & _); [|done..].
  assert (exists q b, books ms t q b /\ (forall p, p ∈ Account.positions s -> Position.trade_id p = Trade.trade_id t ->
    q == Qval (Position.quantity p))%Q) as (q & b & Hb & Hp).
  { destruct (ai_trades _ _ HI t Ht) as [(p & Hp & Hpid)|Hb].
    - destruct (ai_positions _ _ HI p Hp) as (t' & Ht' & Hid & Hs & Hd & Hb).
      assert (t' = t) as -> by (eapply NoDup_key; [apply (ai_ids _ _ HI)|done|done|congruence]).
      do 2 eexists. split; [exact Hb|]. intros p' Hp' Hid'.
      destruct (ai_positions _ _ HI p' Hp') as (t' & Ht'' & Hid'' & Hs' & _).
      assert (t' = t) as -> by (eapply NoDup_key; [apply (ai_ids _ _ HI)|done|done|congruence]).
      assert (p' = p) as ->; [|done]. eapply NoDup_key; [apply (ai_symbols _ _ HI)|done|done|congruence].
    - exists 0%Q, 0%Q. split; [done|]. intros p Hp Hid.
      destruct (ai_positions _ _ HI p Hp) as (t' & Ht' & Hid' & _ & _ & Hb').
      assert (t' = t) as -> by (eapply NoDup_key; [apply (ai_ids _ _ HI)|done|done|congruence]).
      by rewrite (bk_quantity _ _ _ _ Hb), (bk_quantity _ _ _ _ Hb'). }
  destruct (display_books _ _ _ _ Hb) as (d & Hd & H1 & H2 & H3 & H4 & H5). exists d. cbv zeta.
  split_and!; [done|done| |done|done| |].
  - by rewrite H2, (bk_quantity _ _ _ _ Hb).
  - by rewrite H5, (bk_closed _ _ _ _ Hb).
  - intros p Hp1 Hp2. rewrite H2. by apply Hp.
Qed.

Lemma admit_fill_order a e pf : admit_fill a e pf = Ok tt ->
  Account.last_sequence a < Provenance.sequence (ExecutionEvent.provenance e)
  /\ (forall last, Account.last_filled_at a = Some last -> last <= ExecutionEvent.filled_at e).
Proof.
  intros H. unfold admit_fill in H. do 3 apply bind_ok in H as (? & _ & H). bool_hyps.
  split; [lia|]. intros last Hl. rewrite Hl in *. lia.
Qed.

(** Fills are booked in the order of their sequence numbers and fill times. *)
Lemma apply_fill_order a e pf plan a' : apply_fill a e pf plan = Ok a' ->
  Account.last_sequence a < Provenance.sequence (ExecutionEvent.provenance e)
  /\ (forall last, Account.last_filled_at a = Some last -> last <= ExecutionEvent.filled_at e)
  /\ Account.last_sequence a' = Provenance.sequence (ExecutionEvent.provenance e)
  /\ Account.last_filled_at a' = Some (ExecutionEvent.filled_at e).
Proof.
  intros H. apply apply_fill_ok in H as (_ & _ & Hadm & _ & trades & t0 & t & p & gross & _ & _ & ->).
  apply admit_fill_order in Hadm as [H1 H2]. done.
Qed.

(** What the ledger refuses, leaving the account as it was: a fill whose
    sequence number was used or passed, or that is older than a booked one; an
    opposite fill of more than the open quantity; an entry that the available
    balance does not cover. *)
Theorem fill_refusals origin inputs s ms e pf plan : NoDup (input_ids inputs) ->
  replay_memberships origin inputs = Ok (s, ms) ->
  (exists i, i ∈ inputs /\
     (Provenance.sequence (ExecutionEvent.provenance e) <= Provenance.sequence (ExecutionEvent.provenance i.1.1)
      \/ ExecutionEvent.filled_at e < ExecutionEvent.filled_at i.1.1))
  \/ (exists p, p ∈ Account.positions s /\ Position.symbol p = ExecutionEvent.symbol e
      /\ Position.direction p <> fill_direction e /\ (0 < Qval (Position.quantity p) < quantity_of e)%Q)
  \/ ((forall p, p ∈ Account.positions s -> Position.symbol p = ExecutionEvent.symbol e ->
        Position.direction p = fill_direction e \/ (Qval (Position.quantity p) == 0)%Q)
      /\ (Qval (Account.available_balance s) < notional_of e + fee_of e)%Q) ->
  exists exc, apply_fill s e pf plan = Raise exc.
Proof.
  intros Hnd H Hcase. apply (replay_memberships_inv (fun s ins => forall i, i ∈ ins ->
    Provenance.sequence (ExecutionEvent.provenance i.1.1) <= Account.last_sequence s
    /\ exists last, Account.last_filled_at s = Some last /\ ExecutionEvent.filled_at i.1.1 <= last)) in H
    as (HI & Hord & _); [|done| |].
  2: { intros ? _ i Hi. by apply elem_of_nil in Hi. }
  2: { intros a ms0 ins e' pf' plan' a' _ Hord _ Ha. apply apply_fill_order in Ha as (H1 & H2 & H3 & H4).
    intros i Hi. rewrite H3, H4. apply elem_of_app in Hi as [Hi|Hi].
    - destruct (Hord i Hi) as (H5 & last & H6 & H7). specialize (H2 _ H6). split; [lia|]. eexists. split; [done|]. lia.
    - apply list_elem_of_singleton in Hi as ->. cbn. split; [lia|]. eexists. split; [done|]. lia. }
  destruct (apply_fill s e pf plan) as [s'|exc] eqn:Ha; [exfalso|eauto].
  pose proof Ha as Ho. apply apply_fill_order in Ho as (H1 & H2 & _).
  apply apply_fill_ok in Ha as (_ & He & _ & _ & trades & t0 & t & p & gross & Hb & Hbal & _).
  cbv zeta in Hb. destruct Hcase as [(i & Hi & Hcase)|[(p0 & Hp & Hs & Hd & Hq)|[Hinc Hav]]].
  - destruct (Hord i Hi) as (H5 & last & H6 & H7). specialize (H2 _ H6). lia.
  - apply list_elem_of_lookup_1 in Hp as [i Hi]. rewrite (find_position_intro _ _ i p0 (ai_symbols _ _ HI) Hi Hs) in Hb.
    inversion Hb as [? ? ? ? Hz|? ? _ Hd'|? ? ? ? ? ? _ _ _ _ Hle]; subst.
    + specialize (Hz p0 eq_refl). lra.
    + done.
    + lra.
  - rewrite Qval_notional in Hbal. enough (notional_of e + fee_of e <= Qval (Account.available_balance s))%Q by lra.
    apply Hbal. unfold increasing. destruct (find_position _ _) as [[i p0]|] eqn:Ef; [|done]. cbn [snd fmap option_fmap option_map].
    apply find_position_some in Ef as [Hl Hs]. apply list_elem_of_lookup_2 in Hl. apply orb_true_iff.
    destruct (Hinc p0 Hl Hs) as [Hd|Hz]; [right; by apply bool_decide_eq_true|left].
    apply deqb_true. by rewrite Qval_D0.
Qed.

(** ** Witnesses: two entries and two exits, the first of a rounded cost *)

Definition sample_profile : InstrumentProfile :=
  InstrumentProfile.mkInstrumentProfile "binance:BTCUSDT" "BTCUSDT" (Dec 1 (-2)) (Dec 1 (-3)) (Dec 1 (-3)) 18 18.

Definition sample_fill (id : string) (sequence : Z) (side : Side) (price quantity : Z) : ExecutionEvent :=
  ExecutionEvent.mkExecutionEvent id "paper" "account-1" "order" "external" id "BTCUSDT" "binance:BTCUSDT" side
    (D price) (D quantity) [Dec 1 (-1)] (sequence * 1000000) (sequence * 1000000)
    (Provenance.mkProvenance "paper" "1" sequence None None).

Definition sample_origin : Account :=
  Account.mkAccount "account-1" "paper" "paper" (D 10000) (D 10000) 0 None 0 None [] [].

Definition sample_inputs : list FillInput :=
  (fun e => (e, sample_profile, None)) <$>
    [sample_fill "f1" 1 Side.BUY 100 1; sample_fill "f2" 2 Side.BUY 101 2;
     sample_fill "f3" 3 Side.SELL 110 1; sample_fill "f4" 4 Side.SELL 90 1].

Definition result_or {A} (default : A) (m : pyres A) : A := match m with Ok a => a | Raise _ => default end.

Definition sample_replay : Account * list Membership :=
  result_or (sample_origin, []) (replay_memberships sample_origin sample_inputs).

Lemma sample_ids : NoDup (input_ids sample_inputs).
Proof. apply (bool_decide_unpack _). vm_compute. exact I. Qed.

Lemma sample_replays : replay_memberships sample_origin sample_inputs = Ok (sample_replay.1, sample_replay.2).
Proof. by vm_compute. Qed.

Lemma replay_cash_conserved_witness :
  (Qval (Account.cash_balance sample_replay.1) == Qval (D 10000) + Qval (Account.realized_pnl sample_replay.1)
     - qsum (fun i : FillInput => fee_of i.1.1) sample_inputs)%Q.
Proof. exact (proj1 (replay_cash_conserved sample_origin sample_inputs _ _ sample_ids sample_replays)). Defined.

Lemma replay_trades_reconcile_witness : NoDup (Trade.trade_id <$> Account.trades sample_replay.1).
Proof. apply (replay_trades_reconcile sample_origin sample_inputs _ _ sample_ids sample_replays). Defined.

Definition sample_trade : Trade :=
  match Account.trades sample_replay.1 with t :: _ => t | [] => Trade.mkTrade "" "" Direction.LONG 0 None (D 0) (D 0) (D 0) None end.

Lemma sample_trade_in : sample_trade ∈ Account.trades sample_replay.1.
Proof.
  assert ((0 < length (Account.trades sample_replay.1))%nat) as H by (vm_compute; lia).
  unfold sample_trade. destruct (Account.trades sample_replay.1); [inversion H|constructor].
Qed.

Lemma replay_display_total_witness : exists d,
  fill_display sample_trade (events_of (Trade.trade_id sample_trade) sample_replay.2) = Ok d.
Proof.
  destruct (replay_display_total sample_origin sample_inputs _ _ _ sample_ids sample_replays sample_trade_in) as (d & Hd & _).
  exists d. exact Hd.
Defined.

(** The third fill delivered again. *)
Lemma fill_refusals_witness : exists exc,
  apply_fill sample_replay.1 (sample_fill "f5" 3 Side.SELL 110 1) sample_profile None = Raise exc.
Proof.
  apply (fill_refusals sample_origin sample_inputs sample_replay.1 sample_replay.2 _ _ _ sample_ids sample_replays).
  left. exists (sample_fill "f3" 3 Side.SELL 110 1, sample_profile, None).
  split; [apply list_elem_of_lookup_2 with 2%nat; reflexivity|]. left. discriminate.
Defined.
